(* ===== verification/_CoqProject ===== *)
-Q . S2P
Prelude.v
Kconst.v
Alloc.v
Codec.v
FsTypes.v
MemDisk.v
FdTable.v
Timestamp.v
Super.v
Cache.v
Inode.v
Read.v
Path.v
Resolve.v
Cwd.v
Bitmap.v
Zones.v
Snapshot.v
Allocate.v
WriteSpec.v
Write.v
Dirent.v
Namespace.v
Filedes.v
FdSpec.v
Fproc.v
Appfile.v
Ktypes.v
Sched.v
Ipc.v
IpcSpec.v
Message.v
Rootdisk.v
Signals.v
Clock.v
Crc.v
Storage.v
Display.v
Tty.v
TtyIn.v
TtyTask.v
TtyReply.v
TtyQueue.v
TtyRead.v
TtyEvents.v
Exec.v
Image.v
Process.v
System.v
SystemSpec.v
Mm.v
Fork.v
ForkFiles.v
ForkSpec.v
ForkJoin.v
App.v
AppBuf.v
AppSpec.v
Replace.v
ForkChild.v
Heap.v
HeapSpec.v
HeapRefine.v
HeapClient.v
HeapApp.v
