(* ===== verification/Prelude.v ===== *)
(** * CP32: a verification development

    CP32 is a MINIX-style system for the ESP32-S3 (a Cardputer): a message-passing
    kernel with its tasks, a memory service, a filesystem on an SD card and a
    terminal.  The repository's C code lies under src/src/; this development
    models its core as executable definitions and proves what makes each part
    correct.  A name of a definition is the name of the C function it translates
    wherever Rocq allows it.

    ** The program and its model

    The kernel (src/src/kernel/).
    - Ktypes: the process table and the globals of proc.h and glo.h, and the
      address translation [numap] and [mem_copy] of system.c.  Kconst: constants.
    - Sched: proc.c, [ready], [unready], [pick_proc], [sched], [schedule] and the
      structural checks.  Ipc: proc.c, [mini_send], [mini_rec], [interrupt],
      [unhold], the system call entries and the blocked frames.  IpcSpec: the
      invariant [ipc_ok] of the sender queues and what send and receive promise.
    - Message: the nine words of a message.  Signals: [cause_sig], [inform],
      [do_kill], [do_endsig] of system.c.  System: every other handler of the
      system task, with [umap].  SystemSpec: an exit against [ipc_ok] and the
      ready queues.
    - Clock: clock.c, alarms, the time of day, tick handling, accounting and
      the 64-bit division.
    - Process: process.c and context.c, slots that are reserved, cloned,
      published and released.
    - Rootdisk: rootdisk.c, the one-sector cache and the verified writes.
      Storage: memory.c (the memory task) and the disk and clock clients of
      cp32-shell.c, the storage path from a filesystem call to the card.  Crc:
      the check codes of sd_spi.c as remainders of polynomials.
    - Display: display.c.  Tty, TtyIn, TtyTask: tty.c; TtyReply, TtyQueue,
      TtyRead and TtyEvents hold its specifications.
    - Fork: fork.c, forks of the foreground program with the table of exited
      children.  ForkFiles: who owns the open descriptors, and that file requests
      touch their program's only.  ForkSpec and ForkJoin: a fork, its exit and
      its wait.  App: application.c, the broker's loop with break, read, write,
      files, exec and exit, its start and the services that a program calls, and
      the file bridge of cp32-shell.c.  AppBuf: the buffers of file requests.
      AppSpec: what a request may write, identifiers and the break.  Replace:
      exec.  ForkChild: the turns of a forked child leave the files alone that
      are not its own, as ForkJoin needs.
    The programs (src/src/apps/lib/).
    - Heap: heap.c, the allocator of programs, over the interface [Sbrk].
      HeapSpec: its list of blocks as tiles of the memory behind the break, and
      the contract [SbrkSpec].  HeapRefine: each operation on that list.
      HeapClient: the refinement of a map from pointers to bytes.  HeapApp: the
      service of [App] as an instance of the contract.
    The memory service (src/src/mm/).
    - Alloc: alloc.c.  Mm: main.c.  Exec: exec.c, the initial stack.  Image:
      image.c, the ELF loader.
    The filesystem (src/src/fs/).
    - Codec: utility.c.  FsTypes: the structures, the static state and the
      interface [Disk] to storage.  Super, Cache, Inode, Read, Timestamp: the
      files of the same names.  Path, Cwd, Resolve: path.c, open.c, stadir.c.
    - Bitmap, Zones, Dirent, Namespace: create.c and write.c.  Snapshot, Allocate,
      WriteSpec and Write: what a write to a file does.
    - FdTable, Filedes, FdSpec: filedes.c.  Fproc: fproc.c, misc.c, rename.c and
      time.c.  Appfile: appfile.c, the requests of applications.

    The parts meet as the code's parts do.  A request of an application goes
    through [Appfile] to [Fproc], [Filedes] and the inode layer; storage is
    reached through the class [FsTypes.Disk], whose laws [DiskSpec] are proved of
    a byte array ([MemDisk]) and of the firmware's own path ([Storage]: block
    cache, messages to the memory task, one-sector cache, card).  The tasks
    change the process table only with the operations of [Sched] and [Ipc], so
    their theorems are stated over the invariants of those files.

    ** Conventions

    A C integer is a [Z] in the range of its type; arithmetic that can wrap is
    written with [+u], [-u], [*u], [<<u] (32 bits), [wrap8], [wrap16], [to_int].
    [char] is unsigned, [int], [long], [unsigned] and pointers have 32 bits,
    [clock_t] is a signed long.  Code that keeps state is a computation in [M W],
    state passing with the state kept on errors; a negative status is [Err].
    Null is 0 and a pointer to a table entry is an index.  [panic] is the error
    [PANIC].  Interrupt masking is left out where the model makes the masked
    region one step.

    ** Loops and fuel

    A loop is structural recursion on a count the code bounds, or has fuel
    that a theorem shows to suffice.
    - [HOPS_LE] = 42 and [HOPS_LT] = 41 are the code's own bounds [hops++ <= 41]
      and [hops++ < 41]; [Sched] and [IpcSpec] prove that sound queues end within
      them.  [unlink_after] of System has no bound in the code; with [HOPS_LE]
      steps it finds the end of any sound queue ([do_xit_exact]).
    - [Alloc.coalesce_fuel] = 64 * 65 + 64 passes of at most 64 entries: each
      merge removes an entry, and [Alloc] proves that a full pass finds nothing.
    - [Image.copy_segment] has the file size as fuel, each turn copies at least
      one byte; [Rootdisk.root_read] runs over the bytes of the request.
    - 29901 tries find a process identifier ([AppSpec.application_pid_fresh]); the
      reader of an image has one turn per byte and one more.
    - [Heap.BLOCKS] = 400: the 12288 bytes between the data and the stack of a
      program hold at most 384 blocks of 32 bytes, so every walk along the list of
      a sound heap ends before ([HeapRefine]).
    - 64 turns divide a 64-bit number bit by bit ([Clock.div_bits]).
    - [in_transfer] and the erase of a line have 257 turns for 256 queue entries;
      [console_turn] takes at least one character a turn; a tab echoes at most
      eight columns.  [TtyEvents.handle_events_ends] gives the bound of the event
      loop, which is the sum of pending keys and waiting ioctls.

    ** What is proved

    - Message passing and scheduling: no message is lost or forged, senders
      do not deadlock, the sender queues and the ready queues stay sound,
      a ready process is selected within a bounded number of selections.
      Processes: reserve, clone, publish, release and exit keep the table.
    - Memory: the blocks of the allocator tile the heap, and no sequence of
      requests lets a process free another's block.
    - Time: an alarm fires exactly when it is due; every tick is counted once.
    - Storage: writes are acknowledged only when they read back; a transfer
      stays in the volume; the firmware's disk satisfies the interface of the
      filesystem.
    - Filesystem: superblocks and inodes are accepted exactly when legal,
      reads return the bytes of the mapped zones with zeros in holes, the
      search finds the entry of the path walk, a write puts its bytes in the
      file and changes nothing else, the descriptor tables stay consistent in
      every call.
    - Programs: the stack of a program holds its arguments, an ELF image is
      loaded byte for byte or not at all.  A fork and the exit of its child give
      the parent back its image, record, descriptor table and memory; an exec runs the new image
      or leaves the program as it was; no request of a program writes outside its
      image and the service heap.  The allocator of a program refines a map from
      pointers to bytes: blocks are aligned, fresh and disjoint, keep their bytes
      until they are freed, and a request fails only for want of room.
    - Terminal: every request is answered exactly once, the line editor refines
      an editor of lines, a read gets the next line and no more, the event loop
      ends, the screen shows the text.

    ** Interfaces

    Code outside src/src/ and hardware are parameters: [Disk], [Raw] (an uncached
    reader), [Card] (sdcard.c's calls), [Transport] and [SendTrap] (the traps of
    [_sendrec] and [send]), [Keyboard] with [PendingKeys], [Panel], [SigSet] (the
    C library's sigset_t), [Console] (the terminal and the board clock, as the
    broker calls them), the trap of a program's service, [Sbrk] (that service and the memory, for the
    allocator of a program), the image reader, the watchdog functions and the tick
    of the terminal, and the base and size of the heap.  Where a theorem needs
    laws of one, the laws are its fields or a class of its own, with an instance
    in the witnesses.

    ** Not modelled

    - Trace output, counters that only traces read, and the BLOCKED_PROBE and
      other test builds: they decide nothing.
    - Hardware: the register accesses of start.c, hardware_init.c, serial.c,
      wdt.c, cardputer.c, sdcard.c, drivers/ apart from the check codes, the
      pins of display.c, the timer registers of clock.c, and the assembler files
      except the copy loop.
    - main.c, misc.c, port.c, minix-demo.c: start-up and glue.
    - cp32-shell.c apart from its storage clients and the file bridge: an
      interactive shell.
    - src/src/apps/ apart from lib/heap.c, and src/src/lib/: user programs and the
      C library.
    - The bodies of the [receive] and [send] calls around a task's loop: the
      message-passing files model them, the tasks are modelled a turn at a time.
*)
From Stdlib Require Export ZArith Lia.
From stdpp Require Export base tactics list numbers.

#[export] Set Default Goal Selector "!".

Declare Scope c_scope.
Delimit Scope c_scope with c.
Global Open Scope Z_scope.

(** * Prelude

    ** Machine words

    [unsigned] is 32 bits wide on the Xtensa target.  A C value of that type is
    a [Z] in [0, 2^32); the operators below wrap as the target does. *)

Definition wrap32 (x : Z) : Z := x mod 4294967296.
Definition wrap16 (x : Z) : Z := x mod 65536.
Definition wrap8 (x : Z) : Z := x mod 256.

Notation "a +u b" := (wrap32 (a + b)) (at level 50, left associativity) : c_scope.
Notation "a -u b" := (wrap32 (a - b)) (at level 50, left associativity) : c_scope.
Notation "a *u b" := (wrap32 (a * b)) (at level 40, left associativity) : c_scope.
Notation "a <<u b" := (wrap32 (Z.shiftl a b)) (at level 40, left associativity) : c_scope.
Notation "a !=? b" := (negb (a =? b)) (at level 70, no associativity) : c_scope.
Global Open Scope bool_scope.
Global Open Scope c_scope.

(** A 32-bit unsigned value, read back as a C [int]. *)
Definition to_int (x : Z) : Z :=
  let y := wrap32 x in if y <? 2147483648 then y else y - 4294967296.

(** C truth of an integer and the integer of a C comparison. *)
Definition truthy (x : Z) : bool := x !=? 0.
Definition of_bool (b : bool) : Z := if b then 1 else 0.

Definition is_u32 (x : Z) : Prop := 0 <= x < 4294967296.
Definition is_byte (x : Z) : Prop := 0 <= x < 256.

Lemma truthy_true x : truthy x = true <-> x <> 0.
Proof. unfold truthy. by rewrite negb_true_iff, Z.eqb_neq. Qed.

Lemma truthy_false x : truthy x = false <-> x = 0.
Proof. unfold truthy. by rewrite negb_false_iff, Z.eqb_eq. Qed.

Lemma wrap32_small x : 0 <= x < 4294967296 -> wrap32 x = x.
Proof. intros. unfold wrap32. by rewrite Z.mod_small. Qed.

Lemma wrap32_range x : 0 <= wrap32 x < 4294967296.
Proof. unfold wrap32. apply Z.mod_pos_bound. lia. Qed.

Lemma wrap8_range x : 0 <= wrap8 x < 256.
Proof. unfold wrap8. apply Z.mod_pos_bound. lia. Qed.

Lemma wrap16_range x : 0 <= wrap16 x < 65536.
Proof. unfold wrap16. apply Z.mod_pos_bound. lia. Qed.

Lemma wrap32_le x : 0 <= x -> wrap32 x <= x.
Proof. intros. unfold wrap32. apply Z.mod_le; lia. Qed.

Lemma to_int_small x : 0 <= x < 2147483648 -> to_int x = x.
Proof.
  intros. unfold to_int. rewrite wrap32_small by lia.
  by destruct (Z.ltb_spec x 2147483648); [|lia].
Qed.

(** Removes the wrap-around of an operation that stays in range. *)
Ltac unwrap :=
  repeat match goal with
  | |- context [wrap32 ?x] => rewrite (wrap32_small x) by lia
  | H : context [wrap32 ?x] |- _ => rewrite (wrap32_small x) in H by lia
  end.

(** ** C arrays of bytes or words

    An array is the list of its elements.  [nthZ] is the read of an element and
    [updZ] the assignment; both take the C index.  Every theorem that uses them
    carries the bounds that make the C access defined. *)

Definition nthZ (l : list Z) (i : Z) : Z := nth (Z.to_nat i) l 0.
Definition updZ {A} (l : list A) (i : Z) (x : A) : list A := <[Z.to_nat i := x]> l.
Definition lenZ {A} (l : list A) : Z := Z.of_nat (length l).

(** Pointer arithmetic on a byte array: [p + n]. *)
Definition ptr_add (p : list Z) (n : Z) : list Z := drop (Z.to_nat n) p.

(** Storing [bs] at [at] in an array that is long enough. *)
Definition splice (l : list Z) (at_ : Z) (bs : list Z) : list Z :=
  take (Z.to_nat at_) l ++ bs ++ drop (Z.to_nat at_ + length bs) l.

Lemma lenZ_nonneg {A} (l : list A) : 0 <= lenZ l.
Proof. unfold lenZ. lia. Qed.

Lemma lenZ_upd {A} (l : list A) i x : lenZ (updZ l i x) = lenZ l.
Proof. unfold lenZ, updZ. by rewrite length_insert. Qed.

Lemma lenZ_app {A} (l k : list A) : lenZ (l ++ k) = lenZ l + lenZ k.
Proof. unfold lenZ. rewrite length_app. lia. Qed.

Lemma lenZ_map {A B} (g : A -> B) l : lenZ (map g l) = lenZ l.
Proof. unfold lenZ. by rewrite length_map. Qed.

Lemma nthZ_upd_eq l i x : 0 <= i < lenZ l -> nthZ (updZ l i x) i = x.
Proof.
  unfold nthZ, updZ, lenZ. intros [? ?]. rewrite nth_lookup.
  by rewrite list_lookup_insert_eq by lia.
Qed.

Lemma nthZ_upd_ne l i j x : 0 <= i -> 0 <= j -> i <> j -> nthZ (updZ l i x) j = nthZ l j.
Proof.
  unfold nthZ, updZ. intros. rewrite !nth_lookup.
  by rewrite list_lookup_insert_ne by lia.
Qed.

Lemma nthZ_upd l i j x :
  0 <= i < lenZ l -> 0 <= j ->
  nthZ (updZ l i x) j = if i =? j then x else nthZ l j.
Proof.
  intros. destruct (Z.eqb_spec i j) as [->|].
  - by apply nthZ_upd_eq.
  - by apply nthZ_upd_ne; try lia.
Qed.

Lemma nthZ_ptr_add l n i : 0 <= n -> 0 <= i -> nthZ (ptr_add l n) i = nthZ l (n + i).
Proof.
  intros. unfold nthZ, ptr_add. rewrite !nth_lookup, lookup_drop.
  do 2 f_equal. lia.
Qed.

Lemma nthZ_oob l i : lenZ l <= i -> nthZ l i = 0.
Proof. unfold lenZ, nthZ. intros. apply nth_overflow. lia. Qed.

Lemma length_splice l at_ bs :
  0 <= at_ -> at_ + lenZ bs <= lenZ l -> length (splice l at_ bs) = length l.
Proof.
  unfold lenZ, splice. intros. rewrite !length_app, length_take, length_drop. lia.
Qed.

Lemma nthZ_app_l l k i : 0 <= i < lenZ l -> nthZ (l ++ k) i = nthZ l i.
Proof. unfold nthZ, lenZ. intros. apply app_nth1. lia. Qed.

Lemma nthZ_app_r l k i : lenZ l <= i -> nthZ (l ++ k) i = nthZ k (i - lenZ l).
Proof.
  unfold nthZ, lenZ. intros. rewrite app_nth2 by lia. f_equal. lia.
Qed.

Lemma nthZ_splice l at_ bs i :
  0 <= at_ -> at_ + lenZ bs <= lenZ l -> 0 <= i ->
  nthZ (splice l at_ bs) i = if (at_ <=? i) && (i <? at_ + lenZ bs) then nthZ bs (i - at_) else nthZ l i.
Proof.
  intros Ha Hle Hi. pose proof (lenZ_nonneg bs). unfold splice.
  assert (Ht : lenZ (take (Z.to_nat at_) l) = at_) by (unfold lenZ in *; rewrite length_take; lia).
  destruct (Z.leb_spec at_ i); cbn [andb]; cycle 1.
  { rewrite nthZ_app_l by lia. unfold nthZ. rewrite !nth_lookup, lookup_take_lt by lia. done. }
  rewrite nthZ_app_r by lia. rewrite Ht. destruct (Z.ltb_spec i (at_ + lenZ bs)).
  - by apply nthZ_app_l; lia.
  - rewrite nthZ_app_r by lia. replace (Z.to_nat at_ + length bs)%nat with (Z.to_nat (at_ + lenZ bs)) by (unfold lenZ; lia).
    change (drop (Z.to_nat (at_ + lenZ bs)) l) with (ptr_add l (at_ + lenZ bs)).
    rewrite nthZ_ptr_add by lia. f_equal. lia.
Qed.

Lemma nthZ_Forall (P : Z -> Prop) l i :
  Forall P l -> 0 <= i < lenZ l -> P (nthZ l i).
Proof.
  intros HF Hi. unfold nthZ, lenZ in *. rewrite Forall_forall in HF. apply HF.
  apply nth_In. lia.
Qed.

Lemma nthZ_replicate n i : nthZ (replicate n 0) i = 0.
Proof.
  unfold nthZ. rewrite nth_lookup. destruct (replicate n 0 !! Z.to_nat i) eqn:E; [|done].
  by apply lookup_replicate in E as [-> _].
Qed.

Create Rewrite HintDb cp32_rw.
Create HintDb cp32 discriminated.
#[export] Hint Rewrite @lenZ_upd @lenZ_app : cp32_rw.
#[export] Hint Resolve lenZ_nonneg wrap32_range wrap8_range wrap16_range : cp32.

(** ** Byte-addressed memories

    Stable storage and RAM are functions from addresses to bytes.  Two
    memories are compared pointwise. *)

Definition mem := Z -> Z.

Definition mem_eq (m1 m2 : mem) : Prop := forall a, m1 a = m2 a.
Infix "≡m" := mem_eq (at level 70).

#[export] Instance mem_eq_equiv : Equivalence mem_eq.
Proof. split; [by intros ??|by intros ?? H ?; rewrite H|by intros ??? H1 H2 ?; rewrite H1]. Qed.

Definition in_range (off n a : Z) : bool := (off <=? a) && (a <? off + n).

(** [mem_read m off n] is the [n] bytes from [off]. *)
Definition mem_read (m : mem) (off n : Z) : list Z :=
  map (fun i => m (off + Z.of_nat i)) (seq 0 (Z.to_nat n)).

(** [mem_write m off bs] overwrites the bytes from [off]. *)
Definition mem_write (m : mem) (off : Z) (bs : list Z) : mem :=
  fun a => if in_range off (lenZ bs) a then nthZ bs (a - off) else m a.

Lemma length_mem_read m off n : length (mem_read m off n) = Z.to_nat n.
Proof. unfold mem_read. by rewrite length_map, length_seq. Qed.

Lemma nthZ_mem_read m off n i :
  0 <= i < n -> nthZ (mem_read m off n) i = m (off + i).
Proof.
  intros. unfold nthZ, mem_read.
  erewrite nth_indep with (d' := m (off + Z.of_nat 0));
    [|rewrite length_map, length_seq; lia].
  rewrite (map_nth (fun i => m (off + Z.of_nat i))).
  rewrite seq_nth by lia. f_equal. lia.
Qed.

Lemma mem_read_ext m1 m2 off n :
  (forall a, off <= a < off + n -> m1 a = m2 a) -> mem_read m1 off n = mem_read m2 off n.
Proof.
  intros H. unfold mem_read. apply map_ext_in. intros i Hi.
  apply in_seq in Hi. apply H. lia.
Qed.

#[export] Instance mem_read_proper : Proper (mem_eq ==> eq ==> eq ==> eq) mem_read.
Proof. intros m1 m2 H ? ? -> ? ? ->. by apply mem_read_ext. Qed.

#[export] Instance mem_write_proper : Proper (mem_eq ==> eq ==> eq ==> mem_eq) mem_write.
Proof. intros m1 m2 H ? ? -> ? ? -> a. unfold mem_write. by destruct in_range. Qed.

Lemma in_range_spec off n a : in_range off n a = true <-> off <= a < off + n.
Proof. unfold in_range. rewrite andb_true_iff, Z.leb_le, Z.ltb_lt. lia. Qed.

Lemma mem_write_in m off bs a :
  off <= a < off + lenZ bs -> mem_write m off bs a = nthZ bs (a - off).
Proof. intros H. unfold mem_write. apply in_range_spec in H. by rewrite H. Qed.

Lemma mem_write_out m off bs a :
  a < off \/ off + lenZ bs <= a -> mem_write m off bs a = m a.
Proof.
  intros H. unfold mem_write. destruct in_range eqn:E; [|done].
  apply in_range_spec in E. lia.
Qed.

Lemma mem_write_nil m off : mem_write m off [] ≡m m.
Proof. intros a. apply mem_write_out. change (lenZ (@nil Z)) with 0. lia. Qed.

Lemma mem_write_app m a bs cs :
  mem_write (mem_write m a bs) (a + lenZ bs) cs ≡m mem_write m a (bs ++ cs).
Proof.
  intros x. unfold mem_write. rewrite lenZ_app. pose proof (lenZ_nonneg bs). pose proof (lenZ_nonneg cs).
  destruct (in_range (a + lenZ bs) (lenZ cs) x) eqn:E1, (in_range a (lenZ bs) x) eqn:E2,
    (in_range a (lenZ bs + lenZ cs) x) eqn:E3; rewrite <- ?not_true_iff_false, ?in_range_spec in *; try (done || lia).
  - rewrite nthZ_app_r by lia. f_equal. lia.
  - rewrite nthZ_app_l by lia. done.
Qed.

Lemma list_eq_nthZ (l k : list Z) :
  length l = length k -> (forall i, 0 <= i < lenZ l -> nthZ l i = nthZ k i) -> l = k.
Proof.
  intros Hlen H. apply (nth_ext _ _ 0 0); [done|]. intros n Hn.
  specialize (H (Z.of_nat n)). unfold nthZ, lenZ in H. rewrite Nat2Z.id in H.
  apply H. lia.
Qed.

Lemma mem_read_write m off bs : mem_read (mem_write m off bs) off (lenZ bs) = bs.
Proof.
  apply list_eq_nthZ.
  - rewrite length_mem_read. unfold lenZ. lia.
  - intros i. unfold lenZ at 1. rewrite length_mem_read. intros.
    rewrite nthZ_mem_read by (unfold lenZ in *; lia).
    rewrite mem_write_in by (unfold lenZ in *; lia). f_equal. lia.
Qed.

Lemma mem_read_write_out m off bs o n :
  o + n <= off \/ off + lenZ bs <= o -> mem_read (mem_write m off bs) o n = mem_read m o n.
Proof. intros. apply mem_read_ext. intros a Ha. apply mem_write_out. lia. Qed.

Lemma lenZ_mem_read m off n : 0 <= n -> lenZ (mem_read m off n) = n.
Proof. intros. unfold lenZ. rewrite length_mem_read. lia. Qed.

Lemma mem_read_app m a n k :
  0 <= n -> 0 <= k -> mem_read m a (n + k) = mem_read m a n ++ mem_read m (a + n) k.
Proof.
  intros. apply list_eq_nthZ.
  - rewrite length_app, !length_mem_read. lia.
  - rewrite lenZ_mem_read by lia. intros i Hi. rewrite nthZ_mem_read by lia.
    destruct (Z.lt_ge_cases i n).
    + rewrite nthZ_app_l by (rewrite lenZ_mem_read; lia). by rewrite nthZ_mem_read by lia.
    + rewrite nthZ_app_r by (rewrite lenZ_mem_read; lia).
      rewrite lenZ_mem_read, nthZ_mem_read by lia. f_equal. lia.
Qed.

Lemma mem_read_slice m a n j k :
  0 <= j -> 0 <= k -> j + k <= n ->
  take (Z.to_nat k) (drop (Z.to_nat j) (mem_read m a n)) = mem_read m (a + j) k.
Proof.
  intros Hj Hk Hn. replace n with (j + (k + (n - j - k))) by lia.
  rewrite !mem_read_app by lia. rewrite drop_app_length' by (rewrite length_mem_read; done).
  by rewrite take_app_length' by (rewrite length_mem_read; done).
Qed.

(** Little-endian values in memory. *)
Definition half_at (b : mem) (p : Z) : Z := b p + 256 * b (p + 1).
Definition word_at (b : mem) (p : Z) : Z := b p + 256 * b (p + 1) + 65536 * b (p + 2) + 16777216 * b (p + 3).

Lemma word_at_ext b b' p : (forall a, p <= a < p + 4 -> b' a = b a) -> word_at b' p = word_at b p.
Proof. intros H. unfold word_at. rewrite !H by lia. done. Qed.

Lemma word_at_range b p : (forall a, is_byte (b a)) -> is_u32 (word_at b p).
Proof.
  intros H. unfold word_at, is_u32.
  pose proof (H p). pose proof (H (p + 1)). pose proof (H (p + 2)). pose proof (H (p + 3)).
  unfold is_byte in *. lia.
Qed.

Lemma nthZ_take l n i : 0 <= i < n -> nthZ (take (Z.to_nat n) l) i = nthZ l i.
Proof.
  intros. unfold nthZ. rewrite !nth_lookup, lookup_take_lt by lia. done.
Qed.

(** ** Stateful code that returns an error status

    [M W A] is C code over the static state [W] that either falls through with
    a value ([Ok]) or returns early with a status ([Err], the C return value).
    State changes made before an early return are kept, as in the code. *)

Inductive res (A : Type) : Type :=
| Err (status : Z)
| Ok (a : A).
Arguments Err {A} status.
Arguments Ok {A} a.

Definition M (W A : Type) : Type := W -> res A * W.

Definition ret {W A} (a : A) : M W A := fun w => (Ok a, w).
Definition fail {W A} (e : Z) : M W A := fun w => (Err e, w).
Definition bind {W A B} (c : M W A) (k : A -> M W B) : M W B :=
  fun w => match c w with
           | (Ok a, w') => k a w'
           | (Err e, w') => (Err e, w')
           end.
Definition gets {W A} (f : W -> A) : M W A := fun w => (Ok (f w), w).
Definition modify {W} (f : W -> W) : M W unit := fun w => (Ok tt, f w).

(** The status of a call, observed by the caller instead of returned. *)
Definition try {W A} (c : M W A) : M W (res A) := fun w => let (r, w') := c w in (Ok r, w').

(** [return e;] unless the test is false. *)
Definition guard {W} (bad : bool) (e : Z) : M W unit := if bad then fail e else ret tt.

Notation "x <- c ;; k" := (bind c (fun x => k))
  (at level 100, c at next level, right associativity) : c_scope.
Notation "'let*' p ':=' c 'in' k" := (bind c (fun x => match x with p => k end))
  (at level 100, p pattern, c at next level, k at level 100, right associativity) : c_scope.
Notation "c ;;; k" := (bind c (fun _ => k))
  (at level 100, right associativity) : c_scope.

(** A [for] loop whose body may [break]: at most [n] turns from state [a]. *)
Inductive turn (A B : Type) : Type :=
| Continue (a : A)
| Break (b : B).
Arguments Continue {A B} a.
Arguments Break {A B} b.

Fixpoint loop {W A B} (n : nat) (body : A -> M W (turn A B)) (done_ : A -> M W B) (a : A)
  : M W B :=
  match n with
  | O => done_ a
  | S n => t <- body a ;;
           match t with
           | Continue a' => loop n body done_ a'
           | Break b => ret b
           end
  end.

(** [for (i = i0; i0 + n; i++) body] with an accumulator. *)
Fixpoint for_ {W A} (n : nat) (i : Z) (body : Z -> A -> M W A) (a : A) : M W A :=
  match n with
  | O => ret a
  | S n => a' <- body i a ;; for_ n (i + 1) body a'
  end.

(** ** Hoare triples over [M]

    [Q] holds of the value and state of a fall-through, [R] of the status and
    state of an early return. *)

Definition hoare {W A} (P : W -> Prop) (c : M W A) (Q : A -> W -> Prop)
    (R : Z -> W -> Prop) : Prop :=
  forall w, P w -> match c w with
                   | (Ok a, w') => Q a w'
                   | (Err e, w') => R e w'
                   end.

Lemma hoare_ret {W A} (P : W -> Prop) (a : A) Q R :
  (forall w, P w -> Q a w) -> hoare P (ret a) Q R.
Proof. intros H w Hw. by apply H. Qed.

Lemma hoare_fail {W A} (P : W -> Prop) e (Q : A -> W -> Prop) R :
  (forall w, P w -> R e w) -> hoare P (fail e) Q R.
Proof. intros H w Hw. by apply H. Qed.

Lemma hoare_bind {W A B} (P : W -> Prop) (c : M W A) (k : A -> M W B) Q' Q R :
  hoare P c Q' R -> (forall a, hoare (Q' a) (k a) Q R) -> hoare P (bind c k) Q R.
Proof.
  intros Hc Hk w Hw. specialize (Hc w Hw). unfold bind.
  destruct (c w) as [[e|a] w']; [done|]. by apply Hk.
Qed.

Lemma hoare_gets {W A} (P : W -> Prop) (f : W -> A) Q R :
  (forall w, P w -> Q (f w) w) -> hoare P (gets f) Q R.
Proof. intros H w Hw. by apply H. Qed.

Lemma hoare_modify {W} (P : W -> Prop) (f : W -> W) (Q : unit -> W -> Prop) R :
  (forall w, P w -> Q tt (f w)) -> hoare P (modify f) Q R.
Proof. intros H w Hw. by apply H. Qed.

Lemma hoare_guard {W} (P : W -> Prop) b e (Q : unit -> W -> Prop) R :
  (forall w, P w -> b = true -> R e w) ->
  (forall w, P w -> b = false -> Q tt w) -> hoare P (guard b e) Q R.
Proof. intros H1 H2 w Hw. unfold guard. destruct b; simpl; auto. Qed.

Lemma hoare_conseq {W A} (P P' : W -> Prop) (c : M W A) Q Q' R R' :
  hoare P' c Q' R' -> (forall w, P w -> P' w) -> (forall a w, Q' a w -> Q a w) ->
  (forall e w, R' e w -> R e w) -> hoare P c Q R.
Proof.
  intros H HP HQ HR w Hw. specialize (H w (HP w Hw)).
  destruct (c w) as [[e|a] w']; auto.
Qed.

Lemma hoare_pure {W A} (P : W -> Prop) (F : Prop) (c : M W A) Q R :
  (F -> hoare P c Q R) -> hoare (fun w => P w /\ F) c Q R.
Proof. intros H w [Hw HF]. by apply (H HF). Qed.

Lemma hoare_loop {W A B} (I : nat -> A -> W -> Prop) (n : nat) (body : A -> M W (turn A B))
    (done_ : A -> M W B) Q R a :
  (forall n a, hoare (I (S n) a) (body a)
     (fun t w => match t with Continue a' => I n a' w | Break b => Q b w end) R) ->
  (forall a, hoare (I O a) (done_ a) Q R) ->
  hoare (I n a) (loop n body done_ a) Q R.
Proof.
  intros Hb Hd. revert a. induction n as [|n IH]; intros a; simpl; [apply Hd|].
  eapply hoare_bind; [apply Hb|]. intros [a'|b]; [apply IH|].
  by apply hoare_ret.
Qed.

Lemma hoare_for {W A} (I : Z -> A -> W -> Prop) (n : nat) i (body : Z -> A -> M W A) R a :
  (forall j a, i <= j < i + Z.of_nat n -> hoare (I j a) (body j a) (fun a' => I (j + 1) a') R) ->
  hoare (I i a) (for_ n i body a) (fun a' => I (i + Z.of_nat n) a') R.
Proof.
  revert i a. induction n as [|n IH]; intros i a Hb; cbn [for_].
  - apply hoare_ret. intros w. by replace (i + Z.of_nat 0) with i by lia.
  - eapply hoare_bind; [apply Hb; lia|]. intros a'. cbn beta.
    replace (i + Z.of_nat (S n)) with ((i + 1) + Z.of_nat n) by lia.
    apply IH. intros j b Hj. apply Hb. lia.
Qed.

Lemma bind_ok {W A B} (c : M W A) (k : A -> M W B) w a w' :
  c w = (Ok a, w') -> bind c k w = k a w'.
Proof. unfold bind. by intros ->. Qed.

Lemma bind_assoc {W A B C} (c : M W A) (k : A -> M W B) (k' : B -> M W C) w :
  bind (bind c k) k' w = bind c (fun a => bind (k a) k') w.
Proof. unfold bind. by destruct (c w) as [[e|a] w']. Qed.

Lemma bind_ext {W A B} (c : M W A) (k k' : A -> M W B) w :
  (forall a w, k a w = k' a w) -> bind c k w = bind c k' w.
Proof. intros H. unfold bind. destruct (c w) as [[e|a] w']; [done|apply H]. Qed.

Lemma run_ok {W A} (c : M W A) w a : fst (c w) = Ok a -> c w = (Ok a, snd (c w)).
Proof. destruct (c w). simpl. by intros ->. Qed.

Lemma run_err {W A} (c : M W A) w e : fst (c w) = Err e -> c w = (Err e, snd (c w)).
Proof. destruct (c w). simpl. by intros ->. Qed.

Lemma bind_guard_ok {W A} b e (k : unit -> M W A) w :
  b = false -> bind (guard b e) k w = k tt w.
Proof. by intros ->. Qed.

Lemma bind_gets {W A B} (f : W -> A) (k : A -> M W B) w : bind (gets f) k w = k (f w) w.
Proof. done. Qed.

Lemma bind_modify {W B} (f : W -> W) (k : unit -> M W B) w : bind (modify f) k w = k tt (f w).
Proof. done. Qed.

Lemma bind_try {W A B} (x : M W A) (k : res A -> M W B) w : bind (try x) k w = let (r, w') := x w in k r w'.
Proof. unfold bind, try. by destruct (x w). Qed.

Lemma bind_guard {W B} b e (k : unit -> M W B) w :
  bind (guard b e) k w = if b then (Err e, w) else k tt w.
Proof. by destruct b. Qed.

(** ** Two-state properties

    A relation between the states before and after, whatever the outcome.
    Preorders compose along every control path, so frame conditions are proved
    by following the structure of the code ([keeps_step]). *)

Definition keeps {W A} (I : W -> W -> Prop) (c : M W A) : Prop :=
  forall w, I w (snd (c w)).

Section Keeps.
Context {W : Type} (I : W -> W -> Prop) `{!PreOrder I}.

Lemma keeps_ret {A} (a : A) : keeps I (ret a).
Proof. intros w. simpl. reflexivity. Qed.

Lemma keeps_fail {A} e : keeps I (@fail W A e).
Proof. intros w. simpl. reflexivity. Qed.

Lemma keeps_gets {A} (f : W -> A) : keeps I (gets f).
Proof. intros w. simpl. reflexivity. Qed.

Lemma keeps_guard b e : keeps I (guard b e).
Proof. unfold guard. destruct b; [apply keeps_fail|apply keeps_ret]. Qed.

Lemma keeps_modify f : (forall w, I w (f w)) -> keeps I (modify f).
Proof. intros H w. apply H. Qed.

Lemma keeps_bind {A B} (c : M W A) (k : A -> M W B) :
  keeps I c -> (forall a, keeps I (k a)) -> keeps I (bind c k).
Proof.
  intros Hc Hk w. unfold bind. specialize (Hc w).
  destruct (c w) as [[e|a] w']; simpl in *; [done|].
  by etransitivity; [|apply Hk].
Qed.

(** The value of the first command may be used to frame the second. *)
Lemma keeps_bind_val {A B} (P : A -> Prop) (c : M W A) (k : A -> M W B) :
  keeps I c -> (forall w a w', c w = (Ok a, w') -> P a) ->
  (forall a, P a -> keeps I (k a)) -> keeps I (bind c k).
Proof.
  intros Hc HP Hk w. unfold bind. specialize (Hc w). specialize (HP w).
  destruct (c w) as [[e|a] w']; simpl in *; [done|].
  etransitivity; [done|]. apply Hk. by eapply HP.
Qed.

Lemma keeps_try {A} (c : M W A) : keeps I c -> keeps I (try c).
Proof. intros Hc w. unfold try. specialize (Hc w). by destruct (c w). Qed.

Lemma keeps_loop {A B} n (body : A -> M W (turn A B)) done_ :
  (forall a, keeps I (body a)) -> (forall a, keeps I (done_ a)) ->
  forall a, keeps I (loop n body done_ a).
Proof.
  intros Hb Hd. induction n as [|n IH]; intros a; simpl; [apply Hd|].
  apply keeps_bind; [apply Hb|]. intros [|]; [apply IH|apply keeps_ret].
Qed.

Lemma keeps_for {A} n i (body : Z -> A -> M W A) :
  (forall j a, i <= j < i + Z.of_nat n -> keeps I (body j a)) ->
  forall a, keeps I (for_ n i body a).
Proof.
  revert i. induction n as [|n IH]; intros i Hb a; simpl; [apply keeps_ret|].
  apply keeps_bind; [apply Hb; lia|]. intros b. apply IH. intros. apply Hb. lia.
Qed.
End Keeps.

(** One step along the structure of a command. *)
Ltac keeps_step :=
  match goal with
  | |- keeps ?I (ret _) => apply (keeps_ret I)
  | |- keeps ?I (fail _) => apply (keeps_fail I)
  | |- keeps ?I (gets _) => apply (keeps_gets I)
  | |- keeps ?I (guard _ _) => apply (keeps_guard I)
  | |- keeps ?I (try _) => apply (keeps_try I)
  | |- keeps ?I (bind _ _) => apply (keeps_bind I); [|intros ?]
  | |- keeps ?I (loop _ _ _ _) => apply (keeps_loop I); [intros ?|intros ?]
  | |- keeps ?I (for_ _ _ _ _) => apply (keeps_for I); intros ? ? ?
  | |- keeps _ (if ?b then _ else _) => destruct b eqn:?
  | |- keeps _ (match ?x with _ => _ end) => destruct x eqn:?
  | |- keeps _ (let (_, _) := ?x in _) => destruct x eqn:?
  end.

(** ** Properties of the value

    [Q] holds of the value of a fall-through, whatever the state. *)

Definition yields {W A} (Q : A -> Prop) (c : M W A) : Prop :=
  forall w, match c w with (Ok a, _) => Q a | _ => True end.

Lemma yields_ret {W A} (Q : A -> Prop) a : Q a -> yields (W := W) Q (ret a).
Proof. intros H w. exact H. Qed.

Lemma yields_fail {W A} (Q : A -> Prop) e : yields (W := W) Q (fail e).
Proof. intros w. exact I. Qed.

Lemma yields_val {W A B} (P : A -> Prop) (Q : B -> Prop) (c : M W A) (k : A -> M W B) :
  yields P c -> (forall a, P a -> yields Q (k a)) -> yields Q (bind c k).
Proof.
  intros Hc Hk w. unfold bind. specialize (Hc w). destruct (c w) as [[e|a] w']; [exact I|]. by apply Hk.
Qed.

Lemma yields_bind {W A B} (Q : B -> Prop) (c : M W A) (k : A -> M W B) :
  (forall a, yields Q (k a)) -> yields Q (bind c k).
Proof. intros Hk. apply (yields_val (fun _ => True)); [|auto]. intros w. by destruct (c w) as [[e|a] w']. Qed.

Lemma yields_guard {W B} (Q : B -> Prop) b e (k : unit -> M W B) :
  (b = false -> yields Q (k tt)) -> yields Q (bind (guard b e) k).
Proof. intros Hk w. rewrite bind_guard. destruct b; [exact I|]. by apply Hk. Qed.

Lemma yields_loop {W A B} (I : A -> Prop) (Q : B -> Prop) n (body : A -> M W (turn A B)) done_ :
  (forall a, I a -> yields (fun t => match t with Continue a => I a | Break b => Q b end) (body a)) ->
  (forall a, I a -> yields Q (done_ a)) -> forall a, I a -> yields Q (loop n body done_ a).
Proof.
  intros Hb Hd. induction n as [|n IH]; intros a Ha; cbn [loop]; [by apply Hd|].
  eapply yields_val; [by apply Hb|]. intros [a'|b] H; [by apply IH|by apply yields_ret].
Qed.

(** One step along the structure of a command, for values that no command but
    the last one decides. *)
Ltac yields_step :=
  match goal with
  | |- yields _ (ret _) => apply yields_ret
  | |- yields _ (fail _) => apply yields_fail
  | |- yields _ (bind (guard _ _) _) => apply yields_guard; intros ?
  | |- yields _ (bind _ _) => apply yields_bind; intros ?
  | |- yields _ (if ?b then _ else _) => destruct b eqn:?
  | |- yields _ (match ?x with _ => _ end) => destruct x eqn:?
  | |- yields _ (let (_, _) := ?x in _) => destruct x eqn:?
  end.

Create HintDb keeps discriminated.
Ltac keeps_solve :=
  repeat first [ solve [auto with keeps nocore] | progress cbv beta zeta | keeps_step | apply keeps_modify; reflexivity ].
