(* ===== verification/Kconst.v ===== *)
(** * Kernel constants: src/src/include/minix/{config,const,com}.h, errno.h and
    src/src/kernel/{const,proc}.h

    [_SYSTEM] is defined for the kernel, so its error numbers are negative. *)
From S2P Require Import Prelude.

Definition OK := 0.
Definition EPERM := -1.
Definition EIO := -5.
Definition ENXIO := -6.
Definition ENOEXEC := -8.
Definition ENOMEM := -12.
Definition EACCES := -13.
Definition EFAULT := -14.
Definition EINVAL := -22.
Definition EROFS := -30.
Definition EDOM := -33.
Definition ELOCKED := -101.
Definition EBADCALL := -102.
Definition E_BAD_DEST := -1001.
Definition E_BAD_SRC := -1002.
Definition E_BAD_PROC := -1011.

Definition NR_PROCS := 32.
Definition NR_TASKS := 9.
Definition MM_PROC_NR := 0.
Definition FS_PROC_NR := 1.
Definition LOW_USER := 2.
Definition CLICK_SHIFT := 12.
Definition CLICK_SIZE := 4096.

Definition SEND := 1.
Definition RECEIVE := 2.
Definition BOTH := 3.
Definition ANY := 132.
Definition IDLE := -7.
Definition SYSTASK := -2.
Definition HARDWARE := -1.
Definition HARD_INT := 2.

Definition TASK_Q : Z := 0.
Definition SERVER_Q : Z := 1.
Definition USER_Q : Z := 2.
Definition NQ : nat := 3.

(** Bits of [p_flags]. *)
Definition P_SLOT_FREE := 1.
Definition NO_MAP := 2.
Definition SENDING := 4.
Definition RECEIVING := 8.
