(* ===== verification/Alloc.v ===== *)
(** * Physical memory allocator: src/src/mm/alloc.c

    The bounded table of owner-tagged blocks over the internal SRAM heap.  The
    heap is [mem[1]], from click [heap_base] for [heap_size] clicks. *)
From S2P Require Import Prelude Kconst.

Record cp32_mem_block := Block { mb_base : Z; mb_size : Z; mb_owner : Z; mb_used : bool }.
Definition free_block : cp32_mem_block := Block 0 0 (-1) false.
#[export] Instance block_inhabited : Inhabited cp32_mem_block := populate free_block.

Definition CP32_MAX_MEM_BLOCKS : nat := 64.

(** [cp32_mem_blocks] and [cp32_mem_allocator_ready]. *)
Record allocator := Allocator { al_blocks : list cp32_mem_block; al_ready : bool }.

(** The statics as the program starts. *)
Definition boot_allocator : allocator :=
  Allocator (replicate CP32_MAX_MEM_BLOCKS (Block 0 0 0 false)) false.

Definition cp32_mem_allocator_init (heap_base heap_size : Z) : list cp32_mem_block :=
  <[0%nat := Block heap_base heap_size (-1) false]> (replicate CP32_MAX_MEM_BLOCKS free_block).

(** [for (i = ...) if (p(block i)) break;]: the first index, if any. *)
Fixpoint first_index (p : cp32_mem_block -> bool) (l : list cp32_mem_block) : option nat :=
  match l with
  | [] => None
  | b :: l => if p b then Some O else option_map S (first_index p l)
  end.

Definition fits (clicks : Z) (b : cp32_mem_block) : bool :=
  negb (mb_used b || (mb_size b <? clicks)).
Definition spare (b : cp32_mem_block) : bool := mb_size b =? 0.

(** Splitting block [i], the rest going to the spare slot [j]. *)
Definition split_block (l : list cp32_mem_block) (i j : nat) (clicks owner : Z)
  : list cp32_mem_block :=
  let b := l !!! i in
  <[i := Block (mb_base b) clicks owner true]>
    (<[j := Block (mb_base b +u clicks) (mb_size b -u clicks) (mb_owner b) (mb_used b)]> l).

Definition bad_owner (owner : Z) : bool := (owner <? - NR_TASKS) || (NR_PROCS <=? owner).

Definition cp32_mem_alloc (heap_base heap_size : Z) (a : allocator) (clicks owner : Z)
  : Z * allocator :=
  if (clicks =? 0) || bad_owner owner || (0x100000 <? clicks) then (0, a) else
  let l := if al_ready a then al_blocks a else cp32_mem_allocator_init heap_base heap_size in
  let a := Allocator l true in
  match first_index (fits clicks) l with
  | None => (0, a)
  | Some i =>
      match first_index spare (drop 1 l) with
      | None => (0, a)
      | Some j => (mb_base (l !!! i), Allocator (split_block l i (S j) clicks owner) true)
      end
  end.

(** One turn of the coalescing loop at [(i, j)]; after [j = -1] it restarts at 0. *)
Definition coalesce_turn (l : list cp32_mem_block) (i j : nat)
  : list cp32_mem_block * nat * nat :=
  let bi := l !!! i in
  let bj := l !!! j in
  if Nat.eqb j i || mb_used bj || (mb_size bj =? 0) then (l, i, S j)
  else if mb_base bj +u mb_size bj =? mb_base bi then
    (<[i := Block 0 0 (mb_owner bi) (mb_used bi)]>
       (<[j := Block (mb_base bj) (mb_size bj +u mb_size bi) (mb_owner bj) (mb_used bj)]> l), j, O)
  else if mb_base bi +u mb_size bi =? mb_base bj then
    (<[j := Block 0 0 (mb_owner bj) (mb_used bj)]>
       (<[i := Block (mb_base bi) (mb_size bi +u mb_size bj) (mb_owner bi) (mb_used bi)]> l), i, O)
  else (l, i, S j).

Fixpoint coalesce (fuel : nat) (l : list cp32_mem_block) (i j : nat)
  : option (list cp32_mem_block) :=
  if (CP32_MAX_MEM_BLOCKS <=? j)%nat then Some l
  else match fuel with
       | O => None
       | S fuel => let '(l, i, j) := coalesce_turn l i j in coalesce fuel l i j
       end.

(** Turns that always suffice: every merge empties a block. *)
Definition coalesce_fuel : nat := 64 * 65 + 64.

Definition is_base (base : Z) (b : cp32_mem_block) : bool := mb_used b && (mb_base b =? base).

(** [None] if the coalescing loop ran longer than [coalesce_fuel]. *)
Definition cp32_mem_free (a : allocator) (base owner : Z) : option (Z * allocator) :=
  let l := al_blocks a in
  if base =? 0 then Some (EINVAL, a) else
  match first_index (is_base base) l with
  | None => Some (EINVAL, a)
  | Some i =>
      let b := l !!! i in
      if mb_owner b !=? owner then Some (EACCES, a) else
      let l := <[i := Block (mb_base b) (mb_size b) (-1) false]> l in
      match coalesce coalesce_fuel l i 0 with
      | None => None
      | Some l => Some (OK, Allocator l (al_ready a))
      end
  end.

Definition cp32_mem_owned (a : allocator) (base clicks owner : Z) : bool :=
  if (clicks =? 0) || bad_owner owner then false else
  existsb (fun b => mb_used b && (mb_owner b =? owner) && (mb_base b <=? base) &&
                    (clicks <=? mb_size b) && (base + clicks <=? 0x100000000) &&
                    (base -u mb_base b <=? mb_size b -u clicks)) (al_blocks a).

(** ** Specification *)

Definition live (b : cp32_mem_block) : Prop := 0 < mb_size b.
Definition apart (b c : cp32_mem_block) : Prop :=
  mb_base b + mb_size b <= mb_base c \/ mb_base c + mb_size c <= mb_base b.
Definition adjacent (b c : cp32_mem_block) : Prop := mb_base b + mb_size b = mb_base c.

Fixpoint total_size (l : list cp32_mem_block) : Z :=
  match l with [] => 0 | b :: l => mb_size b + total_size l end.

(** The blocks of the table partition the heap. *)
Record table_wf (base size : Z) (l : list cp32_mem_block) : Prop := {
  tw_len : length l = CP32_MAX_MEM_BLOCKS;
  tw_size : forall i, (i < 64)%nat -> 0 <= mb_size (l !!! i);
  tw_in : forall i, (i < 64)%nat -> live (l !!! i) ->
    base <= mb_base (l !!! i) /\ mb_base (l !!! i) + mb_size (l !!! i) <= base + size;
  tw_apart : forall i j, (i < 64)%nat -> (j < 64)%nat -> i <> j ->
    live (l !!! i) -> live (l !!! j) -> apart (l !!! i) (l !!! j);
  tw_used : forall i, (i < 64)%nat -> mb_used (l !!! i) = true ->
    live (l !!! i) /\ bad_owner (mb_owner (l !!! i)) = false;
  tw_total : total_size l = size }.

(** No two free blocks touch. *)
Definition coalesced (l : list cp32_mem_block) : Prop :=
  forall i j, (i < 64)%nat -> (j < 64)%nat -> live (l !!! i) -> live (l !!! j) ->
  mb_used (l !!! i) = false -> mb_used (l !!! j) = false -> ~ adjacent (l !!! i) (l !!! j).

Definition alloc_wf (base size : Z) (a : allocator) : Prop :=
  al_ready a = true /\ table_wf base size (al_blocks a) /\ coalesced (al_blocks a).

(** [owner] holds the region of [size] clicks at [base]. *)
Definition held (a : allocator) (base size owner : Z) : Prop :=
  exists i, (i < 64)%nat /\ al_blocks a !!! i = Block base size owner true.

(** ** Lemmas *)

Lemma first_index_spec p l :
  match first_index p l with
  | Some i => (i < length l)%nat /\ p (l !!! i) = true
  | None => forall i, (i < length l)%nat -> p (l !!! i) = false
  end.
Proof.
  induction l as [|b l IH]; simpl; [intros; lia|]. destruct (p b) eqn:Hb; simpl; [split; [lia|done]|].
  destruct (first_index p l) as [i|]; simpl.
  - destruct IH. split; [lia|done].
  - intros [|i] Hi; [done|]. apply IH. lia.
Qed.

Lemma total_size_insert l i b :
  (i < length l)%nat -> total_size (<[i := b]> l) = total_size l - mb_size (l !!! i) + mb_size b.
Proof.
  revert i. induction l as [|c l IH]; intros [|i] Hi; simpl in *; [lia..|].
  rewrite IH by lia. change ((c :: l) !!! S i) with (l !!! i). lia.
Qed.

Lemma lookup_insert_block (l : list cp32_mem_block) i j b :
  (i < length l)%nat -> <[i := b]> l !!! j = if Nat.eqb i j then b else l !!! j.
Proof.
  intros Hi. destruct (Nat.eqb_spec i j) as [->|].
  - by rewrite list_lookup_total_insert_eq.
  - by rewrite list_lookup_total_insert_ne.
Qed.

Lemma blocks_len base size l i : table_wf base size l -> (i < 64)%nat -> (i < length l)%nat.
Proof. intros [H _ _ _ _ _] Hi. by rewrite H. Qed.

(** Facts of a well-formed table about blocks [i] and [j]. *)
Ltac block_facts W i :=
  pose proof (tw_size _ _ _ W i ltac:(lia));
  pose proof (tw_in _ _ _ W i ltac:(lia));
  pose proof (tw_used _ _ _ W i ltac:(lia)).
Ltac block_cases :=
  repeat match goal with
  | H : context [Nat.eqb ?i ?j] |- _ => destruct (Nat.eqb_spec i j) as [?|?]; subst
  | |- context [Nat.eqb ?i ?j] => destruct (Nat.eqb_spec i j) as [?|?]; subst
  end.

Section Heap.
Context (base size : Z) (Hbase : 0 < base) (Hsize : 0 <= size)
        (Hend : base + size < 4294967296).

Lemma init_lookup i :
  (i < 64)%nat -> cp32_mem_allocator_init base size !!! i =
  if Nat.eqb 0 i then Block base size (-1) false else free_block.
Proof.
  intros Hi. unfold cp32_mem_allocator_init. rewrite lookup_insert_block by (simpl; lia).
  block_cases; [done|]. by apply lookup_total_replicate_2.
Qed.

Lemma init_table_wf : table_wf base size (cp32_mem_allocator_init base size).
Proof.
  constructor; unfold live, apart; intros; rewrite ?init_lookup in * by done; block_cases;
    simpl in *; try done; try lia.
Qed.

Lemma init_coalesced : coalesced (cp32_mem_allocator_init base size).
Proof.
  intros i j Hi Hj. unfold live, adjacent. rewrite !init_lookup by done.
  block_cases; simpl; intros; lia.
Qed.

(** *** Allocation *)
Section Split.
Context (l : list cp32_mem_block) (i j : nat) (clicks owner : Z).
Context (W : table_wf base size l) (Hi : (i < 64)%nat) (Hj : (j < 64)%nat)
        (Hfit : fits clicks (l !!! i) = true) (Hspare : spare (l !!! j) = true)
        (Hc : 0 < clicks) (Ho : bad_owner owner = false).

Lemma split_ne : i <> j.
Proof. intros ->. unfold fits, spare in *. lia. Qed.

Lemma split_lookup k :
  (k < 64)%nat -> split_block l i j clicks owner !!! k =
  if Nat.eqb i k then Block (mb_base (l !!! i)) clicks owner true
  else if Nat.eqb j k
       then Block (mb_base (l !!! i) + clicks) (mb_size (l !!! i) - clicks) (mb_owner (l !!! i)) false
       else l !!! k.
Proof.
  intros Hk. pose proof (blocks_len _ _ _ _ W Hi). pose proof (blocks_len _ _ _ _ W Hj).
  unfold split_block. rewrite !lookup_insert_block by (rewrite ?length_insert; done).
  block_facts W i. unfold fits, live in *.
  rewrite !wrap32_small by lia. destruct (mb_used (l !!! i)); [done|]. by block_cases.
Qed.

Lemma split_wf : table_wf base size (split_block l i j clicks owner).
Proof.
  pose proof split_ne as Hne. block_facts W i. block_facts W j. unfold fits, spare, live in *.
  constructor.
  - unfold split_block. rewrite !length_insert. apply W.
  - intros k Hk. rewrite split_lookup by done. block_facts W k. block_cases; simpl; lia.
  - intros k Hk. rewrite split_lookup by done. unfold live. block_facts W k. unfold live in *.
    block_cases; simpl; lia.
  - intros k m Hk Hm Hkm. rewrite !split_lookup by done. unfold live, apart.
    pose proof (tw_apart _ _ _ W k m Hk Hm Hkm).
    assert (i <> k -> apart (l !!! i) (l !!! k) \/ mb_size (l !!! k) <= 0 \/ mb_size (l !!! i) <= 0).
    { intros. pose proof (tw_apart _ _ _ W i k Hi Hk ltac:(done)). unfold live in *.
      destruct (Z.lt_ge_cases 0 (mb_size (l !!! k))), (Z.lt_ge_cases 0 (mb_size (l !!! i))); auto. }
    assert (i <> m -> apart (l !!! i) (l !!! m) \/ mb_size (l !!! m) <= 0 \/ mb_size (l !!! i) <= 0).
    { intros. pose proof (tw_apart _ _ _ W i m Hi Hm ltac:(done)). unfold live in *.
      destruct (Z.lt_ge_cases 0 (mb_size (l !!! m))), (Z.lt_ge_cases 0 (mb_size (l !!! i))); auto. }
    unfold live, apart in *. block_cases; simpl; lia.
  - intros k Hk. rewrite split_lookup by done. block_facts W k. unfold live in *.
    block_cases; simpl; done || (intros; split; done || lia).
  - unfold split_block. pose proof (blocks_len _ _ _ _ W Hi). pose proof (blocks_len _ _ _ _ W Hj).
    rewrite !total_size_insert by (rewrite ?length_insert; done).
    rewrite lookup_insert_block by done. block_cases; [done|]. simpl.
    rewrite wrap32_small by lia. pose proof (tw_total _ _ _ W). lia.
Qed.

Lemma split_coalesced : coalesced l -> coalesced (split_block l i j clicks owner).
Proof.
  intros HC k m Hk Hm. rewrite !split_lookup by done. unfold live, adjacent.
  pose proof split_ne as Hne. block_facts W i. unfold fits, spare, live in *.
  pose proof (HC k m Hk Hm) as HCkm. pose proof (HC i m Hi Hm) as HCim.
  unfold live, adjacent in HCkm, HCim.
  assert (i <> k -> 0 < mb_size (l !!! k) -> apart (l !!! i) (l !!! k)).
  { intros. apply (tw_apart _ _ _ W); unfold live; done || lia. }
  unfold apart in *. destruct (mb_used (l !!! i)) eqn:Hu; [done|].
  block_cases; simpl; intros; try done; try lia; auto.
  intros Ha. apply HCim; done || lia.
Qed.
End Split.

(** *** Coalescing *)
Fixpoint live_count (l : list cp32_mem_block) : nat :=
  match l with [] => O | b :: l => (if spare b then O else 1) + live_count l end.

Lemma live_count_insert l i b :
  (i < length l)%nat ->
  (live_count (<[i := b]> l) + (if spare (l !!! i) then O else 1) =
   live_count l + (if spare b then O else 1))%nat.
Proof.
  revert i. induction l as [|c l IH]; intros [|i] Hi; simpl in *; [lia..| |].
  - change ((c :: l) !!! 0%nat) with c. lia.
  - change ((c :: l) !!! S i) with (l !!! i). specialize (IH i ltac:(lia)). lia.
Qed.

Lemma live_count_le l : (live_count l <= length l)%nat.
Proof. induction l as [|b l IH]; simpl; [lia|]. destruct (spare b); lia. Qed.

(** Block [i] has just been freed or merged; the blocks before [j] do not touch it. *)
Record merging (l : list cp32_mem_block) (i j : nat) : Prop := {
  mg_wf : table_wf base size l;
  mg_i : (i < 64)%nat /\ live (l !!! i) /\ mb_used (l !!! i) = false;
  mg_pairs : forall k m, (k < 64)%nat -> (m < 64)%nat -> k <> i -> m <> i ->
    live (l !!! k) -> live (l !!! m) -> mb_used (l !!! k) = false -> mb_used (l !!! m) = false ->
    ~ adjacent (l !!! k) (l !!! m);
  mg_done : forall k, (k < j)%nat -> (k < 64)%nat -> k <> i -> live (l !!! k) ->
    mb_used (l !!! k) = false -> ~ adjacent (l !!! k) (l !!! i) /\ ~ adjacent (l !!! i) (l !!! k) }.

Definition merge_measure (l : list cp32_mem_block) (j : nat) : nat :=
  (live_count l * 65 + (64 - j))%nat.

(** Merging block [b] into [a]: [a] grows by [b], which becomes empty. *)
Section Merge.
Context (l : list cp32_mem_block) (i a b : nat) (start : Z).
Context (W : table_wf base size l) (Ha : (a < 64)%nat) (Hb : (b < 64)%nat) (Hne : a <> b)
        (Hi : i = a \/ i = b) (Hla : live (l !!! a)) (Hlb : live (l !!! b))
        (Hua : mb_used (l !!! a) = false) (Hub : mb_used (l !!! b) = false)
        (Hadj : adjacent (l !!! a) (l !!! b))
        (Hpairs : forall k m, (k < 64)%nat -> (m < 64)%nat -> k <> i -> m <> i ->
           live (l !!! k) -> live (l !!! m) -> mb_used (l !!! k) = false ->
           mb_used (l !!! m) = false -> ~ adjacent (l !!! k) (l !!! m)).
Let ba := Block (mb_base (l !!! a)) (mb_size (l !!! a) +u mb_size (l !!! b)) (mb_owner (l !!! a)) false.
Let bb := Block 0 0 (mb_owner (l !!! b)) false.
Let l' := <[b := bb]> (<[a := ba]> l).

Lemma merge_size : mb_size (l !!! a) +u mb_size (l !!! b) = mb_size (l !!! a) + mb_size (l !!! b).
Proof.
  block_facts W a. block_facts W b. unfold live, adjacent in *. apply wrap32_small. lia.
Qed.

Lemma merge_lookup k :
  (k < 64)%nat -> l' !!! k = if Nat.eqb b k then bb else if Nat.eqb a k then ba else l !!! k.
Proof.
  intros Hk. pose proof (blocks_len _ _ _ _ W Ha). pose proof (blocks_len _ _ _ _ W Hb).
  subst l'. by rewrite !lookup_insert_block by (rewrite ?length_insert; done).
Qed.

Lemma merge_wf : table_wf base size l'.
Proof.
  pose proof merge_size as Hs. block_facts W a. block_facts W b. unfold live, adjacent in *.
  constructor.
  - subst l'. rewrite !length_insert. apply W.
  - intros k Hk. rewrite merge_lookup by done. block_facts W k. subst ba bb. block_cases; simpl; lia.
  - intros k Hk. rewrite merge_lookup by done. block_facts W k. subst ba bb. unfold live in *.
    block_cases; simpl; rewrite ?Hs; lia.
  - intros k m Hk Hm Hkm. rewrite !merge_lookup by done.
    pose proof (tw_apart _ _ _ W k m Hk Hm Hkm) as Hkm'.
    pose proof (tw_apart _ _ _ W b k Hb Hk) as Hbk. pose proof (tw_apart _ _ _ W b m Hb Hm) as Hbm.
    subst ba bb. unfold live, apart in *. block_cases; simpl; rewrite ?Hs; intros; lia.
  - intros k Hk. rewrite merge_lookup by done. block_facts W k. subst ba bb. unfold live in *.
    block_cases; simpl; done.
  - subst l'. pose proof (blocks_len _ _ _ _ W Ha). pose proof (blocks_len _ _ _ _ W Hb).
    rewrite !total_size_insert by (rewrite ?length_insert; done).
    rewrite lookup_insert_block by done. subst ba bb. block_cases; [done|]. simpl. rewrite Hs.
    pose proof (tw_total _ _ _ W). lia.
Qed.

Lemma merge_merging : merging l' a 0.
Proof.
  pose proof merge_size as Hs. constructor.
  - exact merge_wf.
  - rewrite merge_lookup by done. subst ba bb. block_facts W b. unfold live in *. split; [done|].
    block_cases; simpl; rewrite ?Hs; split_and!; done || lia.
  - intros k m Hk Hm Hka Hma. rewrite !merge_lookup by done. subst ba bb. unfold live.
    block_cases; simpl; try lia. apply Hpairs; destruct Hi; subst; done.
  - intros k Hk. lia.
Qed.

Lemma merge_count : (merge_measure l' 0 < merge_measure l 64)%nat.
Proof.
  pose proof (blocks_len _ _ _ _ W Ha). pose proof (blocks_len _ _ _ _ W Hb).
  pose proof (live_count_insert (<[a := ba]> l) b bb ltac:(rewrite length_insert; done)) as H1.
  pose proof (live_count_insert l a ba ltac:(done)) as H2.
  fold l' in H1. rewrite lookup_insert_block in H1 by done. unfold merge_measure.
  pose proof merge_size as Hs. subst ba bb. unfold spare, live in *. block_cases; [done|]. simpl in *.
  rewrite Hs in *. destruct (Z.eqb_spec (mb_size (l !!! a)) 0); [lia|].
  destruct (Z.eqb_spec (mb_size (l !!! b)) 0); [lia|].
  destruct (Z.eqb_spec (mb_size (l !!! a) + mb_size (l !!! b)) 0); lia.
Qed.

Lemma merge_used k : mb_used (l !!! k) = true \/ mb_used (l' !!! k) = true -> l' !!! k = l !!! k.
Proof.
  pose proof (blocks_len _ _ _ _ W Ha). pose proof (blocks_len _ _ _ _ W Hb).
  subst l' ba bb. rewrite !lookup_insert_block by (rewrite ?length_insert; done).
  block_cases; simpl; intros [?|?]; congruence.
Qed.
End Merge.

Definition same_used (l l' : list cp32_mem_block) : Prop :=
  forall k, mb_used (l !!! k) = true \/ mb_used (l' !!! k) = true -> l' !!! k = l !!! k.

Lemma merging_skip l i j :
  merging l i j ->
  (j <> i -> (j < 64)%nat -> live (l !!! j) -> mb_used (l !!! j) = false ->
   ~ adjacent (l !!! j) (l !!! i) /\ ~ adjacent (l !!! i) (l !!! j)) -> merging l i (S j).
Proof.
  intros [W Hi Hp Hd] Hj. constructor; try done. intros k Hk Hk64 Hki Hlk Huk.
  destruct (Nat.eq_dec k j) as [->|]; [by apply Hj|]. apply Hd; done || lia.
Qed.

Lemma coalesce_turn_merging l i j :
  merging l i j -> (j < 64)%nat ->
  let '(l', i', j') := coalesce_turn l i j in
  merging l' i' j' /\ same_used l l' /\ (j' <= 64)%nat /\
  (merge_measure l' j' < merge_measure l j)%nat.
Proof.
  intros HM Hj. pose proof HM as [W (Hi & Hli & Hui) Hp Hd]. unfold coalesce_turn.
  assert (Hm64 : (merge_measure l 64 <= merge_measure l j)%nat) by (unfold merge_measure; lia).
  destruct (Nat.eqb_spec j i) as [->|Hji]; cbn [orb].
  { split_and!; [by apply merging_skip|by intros k _|lia|unfold merge_measure; lia]. }
  destruct (mb_used (l !!! j)) eqn:Huj; cbn [orb].
  { split_and!; [by apply merging_skip; [|intros; congruence]|by intros k _|lia|unfold merge_measure; lia]. }
  pose proof (tw_size _ _ _ W j Hj). pose proof (tw_in _ _ _ W j Hj) as Hinj.
  pose proof (tw_in _ _ _ W i Hi Hli) as Hini.
  destruct (Z.eqb_spec (mb_size (l !!! j)) 0) as [Hz|Hz].
  { split_and!; [apply merging_skip; [done|]; unfold live; lia|by intros k _|lia|unfold merge_measure; lia]. }
  assert (Hlj : live (l !!! j)) by (unfold live; lia). specialize (Hinj Hlj). unfold live in *.
  rewrite (wrap32_small (mb_base (l !!! j) + _)), (wrap32_small (mb_base (l !!! i) + _)) by lia.
  rewrite Hui.
  destruct (Z.eqb_spec (mb_base (l !!! j) + mb_size (l !!! j)) (mb_base (l !!! i))) as [Ha|Ha].
  { pose proof (merge_count l i j i W Hj Hi Hji (or_intror eq_refl) Hlj Hli Huj Ha). split_and!.
    - apply (merge_merging l i j i); auto.
    - intros k. apply (merge_used l i j i); auto.
    - lia.
    - unfold merge_measure in *. lia. }
  destruct (Z.eqb_spec (mb_base (l !!! i) + mb_size (l !!! i)) (mb_base (l !!! j))) as [Hb|Hb].
  { pose proof (merge_count l i i j W Hi Hj ltac:(done) (or_introl eq_refl) Hli Hlj Hui Hb). split_and!.
    - apply (merge_merging l i i j); auto.
    - intros k. apply (merge_used l i i j); auto.
    - lia.
    - unfold merge_measure in *. lia. }
  split_and!; [by apply merging_skip|by intros k _|lia|unfold merge_measure; lia].
Qed.

(** The loop ends, and leaves no two free blocks touching. *)
Lemma coalesce_spec fuel l i j :
  merging l i j -> (j <= 64)%nat -> (merge_measure l j <= fuel)%nat ->
  exists l', coalesce fuel l i j = Some l' /\ table_wf base size l' /\ coalesced l' /\ same_used l l'.
Proof.
  revert l i j. induction fuel as [|fuel IH]; intros l i j HM Hj Hf; cbn [coalesce];
    destruct (Nat.leb_spec CP32_MAX_MEM_BLOCKS j) as [H64|H64].
  2: { unfold merge_measure, CP32_MAX_MEM_BLOCKS in *. lia. }
  3: { pose proof (coalesce_turn_merging l i j HM H64) as HT.
       destruct (coalesce_turn l i j) as [[l1 i1] j1]. destruct HT as (HM1 & Hs1 & Hj1 & Hlt).
       destruct (IH l1 i1 j1 HM1 Hj1 ltac:(lia)) as (l' & He & W & HC & Hs). exists l'.
       split_and!; [done..|]. intros k [Hk|Hk].
       - rewrite Hs by (left; by rewrite Hs1; [|left]). apply Hs1. by left.
       - pose proof (Hs k (or_intror Hk)) as Hk'. rewrite Hk' in Hk |- *. apply Hs1. by right. }
  1-2: exists l; destruct HM as [W (Hi & Hli & Hui) Hp Hd]; unfold CP32_MAX_MEM_BLOCKS in H64;
       (split_and!; [done..| |by intros k _]);
       intros k m Hk Hm Hlk Hlm Huk Hum; destruct (Nat.eq_dec k i) as [->|]; destruct (Nat.eq_dec m i) as [->|];
       [unfold adjacent, live in *; lia|apply (Hd m); done || lia|apply (Hd k); done || lia|by apply Hp].
Qed.

(** *** The operations *)
Lemma held_unique l k m b s o s' o' :
  table_wf base size l -> (k < 64)%nat -> (m < 64)%nat ->
  l !!! k = Block b s o true -> l !!! m = Block b s' o' true -> k = m.
Proof.
  intros W Hk Hm Ek Em. destruct (Nat.eq_dec k m) as [|Hne]; [done|exfalso].
  pose proof (tw_used _ _ _ W k Hk) as Uk. pose proof (tw_used _ _ _ W m Hm) as Um.
  pose proof (tw_apart _ _ _ W k m Hk Hm Hne) as A. rewrite Ek, Em in *. cbn in *.
  unfold live, apart in *. cbn in *. destruct (Uk eq_refl), (Um eq_refl). lia.
Qed.

Lemma alloc_held l i j clicks owner b s o :
  table_wf base size l -> (i < 64)%nat -> (j < 64)%nat -> fits clicks (l !!! i) = true ->
  spare (l !!! j) = true -> 0 < clicks ->
  held (Allocator (split_block l i j clicks owner) true) b s o <->
  held (Allocator l true) b s o \/ (b = mb_base (l !!! i) /\ s = clicks /\ o = owner).
Proof.
  intros W Hi Hj Hf Hsp Hc. unfold held. cbn [al_blocks].
  assert (Hui : mb_used (l !!! i) = false) by (unfold fits in Hf; destruct (mb_used _); done).
  assert (Huj : mb_used (l !!! j) = false).
  { destruct (mb_used (l !!! j)) eqn:Hu; [|done]. destruct (tw_used _ _ _ W j Hj Hu) as [Hl _].
    unfold live, spare in *. lia. }
  split.
  - intros (k & Hk & E). rewrite split_lookup in E by done. block_cases.
    + right. by injection E as -> -> ->.
    + discriminate.
    + left. by exists k.
  - intros [(k & Hk & E)|(-> & -> & ->)].
    + exists k. split; [done|]. rewrite split_lookup by done.
      block_cases; [rewrite E in Hui|rewrite E in Huj|]; done.
    + exists i. split; [done|]. rewrite split_lookup by done. by rewrite Nat.eqb_refl.
Qed.

Lemma spare_index l j :
  table_wf base size l -> first_index spare (drop 1 l) = Some j ->
  (S j < 64)%nat /\ spare (l !!! S j) = true.
Proof.
  intros W E. pose proof (first_index_spec spare (drop 1 l)) as H. rewrite E, length_drop, (tw_len _ _ _ W) in H.
  destruct H as [Hj Hp]. change CP32_MAX_MEM_BLOCKS with 64%nat in Hj. split; [lia|].
  rewrite <- Hp. f_equal. rewrite !list_lookup_total_alt, lookup_drop. done.
Qed.
End Heap.

(** Marking a block free starts a coalescing pass. *)
Lemma freed_merging base size l i :
  table_wf base size l -> coalesced l -> (i < 64)%nat -> mb_used (l !!! i) = true ->
  merging base size (<[i := Block (mb_base (l !!! i)) (mb_size (l !!! i)) (-1) false]> l) i 0.
Proof.
  intros W HC Hi Hu. pose proof (blocks_len _ _ _ _ W Hi) as Hlen.
  destruct (tw_used _ _ _ W i Hi Hu) as [Hl _].
  set (b := Block _ _ _ _).
  assert (Hlk : forall k, <[i := b]> l !!! k = if Nat.eqb i k then b else l !!! k)
    by (intros; by apply lookup_insert_block).
  constructor.
  - constructor.
    + rewrite length_insert. apply W.
    + intros k Hk. rewrite Hlk. block_facts W k. subst b. block_cases; done.
    + intros k Hk. rewrite Hlk. block_facts W k. subst b. unfold live in *. block_cases; simpl; lia.
    + intros k m Hk Hm Hkm. rewrite !Hlk. pose proof (tw_apart _ _ _ W k m Hk Hm Hkm). subst b.
      unfold live, apart in *. block_cases; simpl; lia.
    + intros k Hk. rewrite Hlk. block_facts W k. subst b. unfold live in *. block_cases; done.
    + rewrite total_size_insert by done. subst b. simpl. pose proof (tw_total _ _ _ W). lia.
  - rewrite Hlk, Nat.eqb_refl. subst b. by unfold live.
  - intros k m Hk Hm Hki Hmi. rewrite !Hlk. block_cases; try done. by apply HC.
  - intros k Hk. lia.
Qed.

Lemma merge_measure_fuel l :
  length l = CP32_MAX_MEM_BLOCKS -> (merge_measure l 0 <= coalesce_fuel)%nat.
Proof.
  intros Hl. pose proof (live_count_le l) as H. rewrite Hl in H.
  unfold merge_measure, coalesce_fuel. change CP32_MAX_MEM_BLOCKS with 64%nat in H. lia.
Qed.

Lemma mem_alloc_correct base size a clicks owner :
  0 < base -> 0 <= size -> base + size < 4294967296 -> alloc_wf base size a -> 0 <= clicks ->
  let (r, a') := cp32_mem_alloc base size a clicks owner in
  alloc_wf base size a' /\
  (r = 0 /\ a' = a /\
     (clicks = 0 \/ 0x100000 < clicks \/ bad_owner owner = true \/
      (forall i, (i < 64)%nat -> fits clicks (al_blocks a !!! i) = false) \/
      (forall i, (0 < i < 64)%nat -> live (al_blocks a !!! i))) \/
   base <= r /\ r + clicks <= base + size /\
     (forall b s o, held a b s o -> b + s <= r \/ r + clicks <= b) /\
     forall b s o, held a' b s o <-> held a b s o \/ (b = r /\ s = clicks /\ o = owner)).
Proof.
  intros Hb Hs He (Hr & W & HC) Hc. destruct a as [l ready]. cbn [al_ready al_blocks] in *. subst ready.
  unfold cp32_mem_alloc. destruct (_ || _) eqn:Hg.
  { split; [done|]. left. split_and!; try done. destruct (bad_owner owner); lia || auto. }
  cbn [al_ready al_blocks].
  pose proof (first_index_spec (fits clicks) l) as Hi. rewrite (tw_len _ _ _ W) in Hi.
  destruct (first_index (fits clicks) l) as [i|]; [|split; [done|left; auto 10]].
  destruct Hi as [Hi Hf]. change CP32_MAX_MEM_BLOCKS with 64%nat in Hi.
  destruct (first_index spare (drop 1 l)) as [j|] eqn:Ej.
  - destruct (spare_index base size l j W Ej) as [Hj Hsp].
    assert (Ho : bad_owner owner = false) by (destruct (bad_owner owner); [lia|done]).
    assert (0 < clicks) by lia.
    split; [split; [done|split; cbn [al_blocks]]; [apply split_wf|apply split_coalesced with (base := base) (size := size)]; done|].
    right. pose proof (tw_in _ _ _ W i Hi) as Hin. pose proof Hf as Hfit. unfold fits, live in Hfit, Hin.
    split_and!; [lia|lia| |intros; by apply alloc_held with (base := base) (size := size)].
    intros b s o (k & Hk & E). cbn [al_blocks] in E.
    destruct (Nat.eq_dec k i) as [->|Hne]; [rewrite E in Hfit; discriminate|].
    destruct (tw_used _ _ _ W k Hk) as [Hlk _]; [by rewrite E|].
    pose proof (tw_apart _ _ _ W k i Hk Hi Hne Hlk ltac:(unfold live; lia)) as A.
    unfold apart in A. rewrite E in A. cbn in A. lia.
  - split; [done|]. left. split_and!; [done..|]. do 4 right. intros i' Hi'.
    pose proof (first_index_spec spare (drop 1 l)) as H. rewrite Ej, length_drop, (tw_len _ _ _ W) in H.
    specialize (H (i' - 1)%nat). change CP32_MAX_MEM_BLOCKS with 64%nat in H. specialize (H ltac:(lia)).
    rewrite list_lookup_total_alt, lookup_drop, <- list_lookup_total_alt in H.
    replace (1 + (i' - 1))%nat with i' in H by lia. cbn [al_blocks].
    pose proof (tw_size _ _ _ W i' ltac:(lia)). unfold spare, live in *. lia.
Qed.

Lemma mem_free_correct base size a b owner :
  0 < base -> 0 <= size -> base + size < 4294967296 -> alloc_wf base size a ->
  exists r a', cp32_mem_free a b owner = Some (r, a') /\ alloc_wf base size a' /\
  ((r = OK /\ (exists s, held a b s owner) /\
    forall b' s' o', held a' b' s' o' <-> held a b' s' o' /\ b' <> b) \/
   (r = EACCES /\ a' = a /\ exists s o, o <> owner /\ held a b s o) \/
   (r = EINVAL /\ a' = a /\ forall s o, ~ held a b s o)).
Proof.
  intros Hb Hs He (Hr & W & HC). destruct a as [l ready]. cbn [al_ready al_blocks] in *. subst ready.
  unfold cp32_mem_free. cbn [al_blocks al_ready].
  destruct (Z.eqb_spec b 0) as [->|Hb0].
  { do 2 eexists. split; [done|]. split; [done|]. right; right. split_and!; [done..|].
    intros s o (k & Hk & E). cbn in E. destruct (tw_used _ _ _ W k Hk) as [Hlk _]; [by rewrite E|].
    pose proof (tw_in _ _ _ W k Hk Hlk) as Hin. rewrite E in Hin. cbn in Hin. lia. }
  pose proof (first_index_spec (is_base b) l) as Hi. rewrite (tw_len _ _ _ W) in Hi.
  destruct (first_index (is_base b) l) as [i|].
  2: { do 2 eexists. split; [done|]. split; [done|]. right; right. split_and!; [done..|].
       intros s o (k & Hk & E). cbn in E. specialize (Hi k Hk). unfold is_base in Hi. rewrite E in Hi.
       cbn in Hi. lia. }
  destruct Hi as [Hi Hib]. change CP32_MAX_MEM_BLOCKS with 64%nat in Hi.
  apply andb_true_iff in Hib as [Hu Hbi%Z.eqb_eq].
  assert (Eb : l !!! i = Block b (mb_size (l !!! i)) (mb_owner (l !!! i)) true)
    by (destruct (l !!! i); cbn in *; by subst).
  destruct (Z.eqb_spec (mb_owner (l !!! i)) owner) as [Ho|Ho]; cbn [negb].
  2: { do 2 eexists. split; [done|]. split; [done|]. right; left. split_and!; [done..|].
       exists (mb_size (l !!! i)), (mb_owner (l !!! i)). split; [done|]. by exists i. }
  pose proof (freed_merging base size l i W HC Hi Hu) as HM. rewrite Hbi in HM.
  rewrite Hbi. set (l1 := <[i := _]> l) in *.
  pose proof (merge_measure_fuel l1 (eq_trans (length_insert _ _ _) (tw_len _ _ _ W))) as Hfuel.
  destruct (coalesce_spec base size Hb He coalesce_fuel l1 i 0 HM ltac:(lia) Hfuel)
    as (l' & -> & W' & HC' & Hsame).
  do 2 eexists. split; [done|]. split; [done|]. left. split; [done|]. rewrite Ho in Eb.
  split; [exists (mb_size (l !!! i)); by exists i|]. intros b' s' o'.
  pose proof (blocks_len _ _ _ _ W Hi) as Hlen.
  assert (Hl1 : forall k, l1 !!! k = if Nat.eqb i k then Block b (mb_size (l !!! i)) (-1) false else l !!! k)
    by (intros; subst l1; by apply lookup_insert_block).
  split.
  - intros (k & Hk & E). cbn in E. rewrite Hsame in E by (right; by rewrite E). rewrite Hl1 in E.
    destruct (Nat.eqb_spec i k) as [->|Hne]; [discriminate|]. split; [by exists k|].
    intros ->. apply Hne. by eapply (held_unique base size l i k b).
  - intros [(k & Hk & E) Hne]. cbn in E. exists k. split; [done|]. cbn.
    assert (i <> k) by (intros ->; congruence).
    assert (E1 : l1 !!! k = Block b' s' o' true) by (rewrite Hl1; by destruct (Nat.eqb_spec i k)).
    rewrite Hsame; [done|]. left. by rewrite E1.
Qed.

Lemma alloc_preserves base size a clicks owner :
  0 < base -> 0 <= size -> base + size < 4294967296 -> alloc_wf base size a -> 0 <= clicks ->
  alloc_wf base size (snd (cp32_mem_alloc base size a clicks owner)).
Proof.
  intros Hb Hs He W Hc. pose proof (mem_alloc_correct base size a clicks owner Hb Hs He W Hc) as H.
  destruct (cp32_mem_alloc base size a clicks owner) as [r a']. apply H.
Qed.

Lemma free_preserves base size a b owner r a' :
  0 < base -> 0 <= size -> base + size < 4294967296 -> alloc_wf base size a ->
  cp32_mem_free a b owner = Some (r, a') -> alloc_wf base size a'.
Proof.
  intros Hb Hs He W Hf.
  destruct (mem_free_correct base size a b owner Hb Hs He W) as (r' & a1 & Hf' & Hw & _).
  rewrite Hf in Hf'. by injection Hf' as _ <-.
Qed.

(** C32: allocation.  From a sound table [cp32_mem_alloc] returns either a region
    of exactly the requested length, carved out of free memory for that owner
    and disjoint from everything held, all other regions staying as they were,
    or 0 with the table unchanged, and 0 only for an empty or oversized request,
    a bad owner, no free block of that length or no spare descriptor. *)
Theorem mem_alloc_spec base size a clicks owner :
  0 < base -> 0 <= size -> base + size < 4294967296 -> alloc_wf base size a -> 0 <= clicks ->
  let (r, a') := cp32_mem_alloc base size a clicks owner in
  alloc_wf base size a' /\
  (r = 0 /\ a' = a /\
     (clicks = 0 \/ 0x100000 < clicks \/ bad_owner owner = true \/
      (forall i, (i < 64)%nat -> fits clicks (al_blocks a !!! i) = false) \/
      (forall i, (0 < i < 64)%nat -> live (al_blocks a !!! i))) \/
   base <= r /\ r + clicks <= base + size /\
     (forall b s o, held a b s o -> b + s <= r \/ r + clicks <= b) /\
     forall b s o, held a' b s o <-> held a b s o \/ (b = r /\ s = clicks /\ o = owner)).
Proof. apply mem_alloc_correct. Qed.

(** C33: release.  [cp32_mem_free] always ends; it releases exactly the region
    that starts at [base] when the caller owns it, refuses with EACCES when
    another owner holds it and with EINVAL when no held region starts there, in
    both cases without any change; afterwards the table is sound again and no
    two free blocks touch. *)
Theorem mem_free_spec base size a b owner :
  0 < base -> 0 <= size -> base + size < 4294967296 -> alloc_wf base size a ->
  exists r a', cp32_mem_free a b owner = Some (r, a') /\ alloc_wf base size a' /\
  ((r = OK /\ (exists s, held a b s owner) /\
    forall b' s' o', held a' b' s' o' <-> held a b' s' o' /\ b' <> b) \/
   (r = EACCES /\ a' = a /\ exists s o, o <> owner /\ held a b s o) \/
   (r = EINVAL /\ a' = a /\ forall s o, ~ held a b s o)).
Proof. apply mem_free_correct. Qed.

(** Ownership.  [cp32_mem_owned] answers exactly whether the clicks asked
    about lie inside one region that the owner holds. *)
Theorem mem_owned_spec base size a b clicks owner :
  0 < base -> 0 <= size -> base + size < 4294967296 -> alloc_wf base size a ->
  is_u32 b -> is_u32 clicks ->
  cp32_mem_owned a b clicks owner = true <->
  0 < clicks /\ exists b0 s, held a b0 s owner /\ b0 <= b /\ b + clicks <= b0 + s.
Proof.
  intros Hb0 Hs He (_ & W & _) Hb Hc. unfold is_u32 in *. unfold cp32_mem_owned.
  destruct (Z.eqb_spec clicks 0) as [->|Hc0]; cbn [orb]; [split; [done|lia]|].
  destruct (bad_owner owner) eqn:Ho.
  { split; [done|]. intros (_ & b0 & s & (k & Hk & E) & _).
    pose proof (tw_used _ _ _ W k Hk) as Hu. rewrite E in Hu. destruct (Hu eq_refl) as [_ Hbo].
    cbn in Hbo. congruence. }
  rewrite existsb_exists. split.
  - intros (x & Hin & Hx). split; [lia|].
    apply list_elem_of_In, list_elem_of_lookup in Hin as [k Hk].
    pose proof (lookup_lt_Some _ _ _ Hk) as Hlt. rewrite (tw_len _ _ _ W) in Hlt.
    change CP32_MAX_MEM_BLOCKS with 64%nat in Hlt. apply list_lookup_total_correct in Hk.
    assert (Hu : mb_used x = true) by (destruct (mb_used x); done).
    exists (mb_base x), (mb_size x). block_facts W k. rewrite Hk in *.
    destruct H1 as [Hl _]; [done|]. specialize (H0 Hl).
    rewrite !andb_true_iff, !Z.leb_le in Hx. destruct Hx as (((((_ & Hown%Z.eqb_eq) & ?) & ?) & ?) & Hx).
    rewrite !wrap32_small in Hx by lia. split; [|lia].
    exists k. split; [done|]. rewrite Hk. destruct x; cbn in *; by subst.
  - intros (_ & b0 & s & (k & Hk & E) & H1 & H2). exists (al_blocks a !!! k). split.
    + apply list_elem_of_In, list_elem_of_lookup. exists k. apply list_lookup_lookup_total_lt.
      by rewrite (tw_len _ _ _ W).
    + block_facts W k. rewrite E in *. cbn in *. destruct H3 as [Hl _]; [done|]. specialize (H0 Hl).
      unfold live in *. cbn in *. unwrap. lia.
Qed.

(** *** Reachable tables

    The calls that the memory service makes, from the zeroed statics on. *)
Inductive alloc_reachable (base size : Z) : allocator -> Prop :=
| reach_boot : alloc_reachable base size boot_allocator
| reach_alloc a clicks owner :
    alloc_reachable base size a -> 0 <= clicks ->
    alloc_reachable base size (snd (cp32_mem_alloc base size a clicks owner))
| reach_free a b owner r a' :
    alloc_reachable base size a -> cp32_mem_free a b owner = Some (r, a') ->
    alloc_reachable base size a'.

Lemma alloc_init base size a clicks owner :
  al_ready a = false ->
  cp32_mem_alloc base size a clicks owner =
  if (clicks =? 0) || bad_owner owner || (0x100000 <? clicks) then (0, a)
  else cp32_mem_alloc base size (Allocator (cp32_mem_allocator_init base size) true) clicks owner.
Proof. intros Hr. unfold cp32_mem_alloc. rewrite Hr. by destruct (_ || _). Qed.

Lemma boot_free b owner : cp32_mem_free boot_allocator b owner = Some (EINVAL, boot_allocator).
Proof. unfold cp32_mem_free. by destruct (b =? 0). Qed.

(** C34: no sequence of calls corrupts the table.  In every state reachable from
    boot the blocks partition the heap: all regions, held or free, lie inside it,
    no two overlap, their lengths sum up to the heap and no two free ones touch. *)
Theorem mem_reachable_sound base size a :
  0 < base -> 0 <= size -> base + size < 4294967296 -> alloc_reachable base size a ->
  a = boot_allocator \/ alloc_wf base size a.
Proof.
  intros Hb Hs He. assert (Hinit : alloc_wf base size (Allocator (cp32_mem_allocator_init base size) true)).
  { split; [done|]. split; [by apply init_table_wf|by apply init_coalesced]. }
  induction 1 as [|a clicks owner _ [->|IH] Hc|a b owner r a' _ [->|IH] Hf].
  - by left.
  - rewrite alloc_init by done. destruct (_ || _); [by left|]. right.
    pose proof (alloc_preserves base size _ clicks owner Hb Hs He Hinit Hc) as H. exact H.
  - right. by apply alloc_preserves.
  - left. rewrite boot_free in Hf. by injection Hf.
  - right. eapply free_preserves; [..|exact Hf]; done.
Qed.

(** ** Witnesses: a heap of 100 clicks from click 16 *)
Definition demo_heap : allocator := Allocator (cp32_mem_allocator_init 16 100) true.
Definition demo_heap1 : allocator := snd (cp32_mem_alloc 16 100 demo_heap 4 2).

Lemma demo_heap_wf : alloc_wf 16 100 demo_heap.
Proof.
  split; [done|]. split; [apply init_table_wf|apply init_coalesced]; lia.
Qed.

Lemma demo_heap1_wf : alloc_wf 16 100 demo_heap1.
Proof. apply alloc_preserves; [lia..|exact demo_heap_wf|lia]. Qed.

Lemma mem_alloc_spec_witness :
  fst (cp32_mem_alloc 16 100 demo_heap1 7 3) = 20 /\
  held (snd (cp32_mem_alloc 16 100 demo_heap1 7 3)) 20 7 3.
Proof.
  assert (E : fst (cp32_mem_alloc 16 100 demo_heap1 7 3) = 20) by (vm_compute; reflexivity).
  pose proof (mem_alloc_spec 16 100 demo_heap1 7 3 ltac:(lia) ltac:(lia) ltac:(lia) demo_heap1_wf ltac:(lia)) as H.
  destruct (cp32_mem_alloc 16 100 demo_heap1 7 3) as [r a']. simpl in *. split; [exact E|].
  destruct H as [_ [[H _]|(_ & _ & _ & H)]]; [congruence|]. apply H. right. split_and!; congruence.
Defined.

Lemma mem_free_spec_witness :
  exists a', cp32_mem_free demo_heap1 16 2 = Some (OK, a') /\ forall s o, ~ held a' 16 s o.
Proof.
  destruct (mem_free_spec 16 100 demo_heap1 16 2 ltac:(lia) ltac:(lia) ltac:(lia) demo_heap1_wf)
    as (r & a' & Hf & _ & H).
  assert (E : option_map fst (cp32_mem_free demo_heap1 16 2) = Some OK) by (vm_compute; reflexivity).
  rewrite Hf in E. injection E as ->. exists a'. split; [exact Hf|].
  destruct H as [(_ & _ & H)|[[H _]|[H _]]]; [|discriminate H..].
  intros s o Hh. apply H in Hh as [_ Hne]. apply Hne. reflexivity.
Defined.

Lemma mem_owned_spec_witness :
  exists b0 s, held demo_heap1 b0 s 2 /\ b0 <= 17 /\ 17 + 3 <= b0 + s.
Proof.
  apply (mem_owned_spec 16 100 demo_heap1 17 3 2 ltac:(lia) ltac:(lia) ltac:(lia) demo_heap1_wf);
    [unfold is_u32; lia..|vm_compute; reflexivity].
Defined.

Lemma mem_reachable_sound_witness : alloc_wf 16 100 (snd (cp32_mem_alloc 16 100 boot_allocator 4 2)).
Proof.
  destruct (mem_reachable_sound 16 100 (snd (cp32_mem_alloc 16 100 boot_allocator 4 2))) as [H|H];
    [lia..| | |exact H].
  - apply reach_alloc; [apply reach_boot|lia].
  - exfalso. apply (f_equal al_ready) in H. vm_compute in H. discriminate.
Defined.
