(* ===== verification/Codec.v ===== *)
(** * Disk codec: src/src/fs/utility.c and the store helpers of src/src/fs/create.c

    16- and 32-bit fields of the MINIX V2 disk format in either byte order,
    with the bit operations of the allocation maps. *)
From S2P Require Import Prelude.

(** [unsigned cp32_fs_u16(const unsigned char *p, unsigned swap)] *)
Definition cp32_fs_u16 (p : list Z) (swap : Z) : Z :=
  if truthy swap then Z.lor (Z.shiftl (nthZ p 0) 8) (nthZ p 1)
  else Z.lor (Z.shiftl (nthZ p 1) 8) (nthZ p 0).

(** [unsigned cp32_fs_u32(const unsigned char *p, unsigned swap)] *)
Definition cp32_fs_u32 (p : list Z) (swap : Z) : Z :=
  if truthy swap
  then Z.lor ((cp32_fs_u16 p swap) <<u 16) (cp32_fs_u16 (ptr_add p 2) swap)
  else Z.lor ((cp32_fs_u16 (ptr_add p 2) swap) <<u 16) (cp32_fs_u16 p swap).

(** [put16(raw + at, n, swap)] *)
Definition put16 (raw : list Z) (at_ n swap : Z) : list Z :=
  updZ (updZ raw (at_ + if truthy swap then 1 else 0) (wrap8 n))
       (at_ + if truthy swap then 0 else 1) (wrap8 (Z.shiftr n 8)).

(** [put32(raw + at, n, swap)] *)
Definition put32 (raw : list Z) (at_ n swap : Z) : list Z :=
  put16 (put16 raw at_ (if truthy swap then Z.shiftr n 16 else n) swap)
        (at_ + 2) (if truthy swap then n else Z.shiftr n 16) swap.

(** [1U << (bit % 16)] and the mask [~(1U << (bit % 16))] *)
Definition bit_of (bit : Z) : Z := 1 <<u (bit mod 16).
Definition not32 (x : Z) : Z := wrap32 (Z.lnot x).

(** ** Arithmetic of the encodings *)

Lemma lor_shift_add a b k :
  0 <= k -> 0 <= b < 2 ^ k -> Z.lor (Z.shiftl a k) b = a * 2 ^ k + b.
Proof.
  intros Hk Hb. rewrite <- Z.shiftl_mul_pow2 by done.
  assert (Hl : Z.land (Z.shiftl a k) b = 0).
  { apply Z.bits_inj'. intros i Hi. rewrite Z.land_spec, Z.bits_0.
    destruct (Z.lt_ge_cases i k).
    - by rewrite Z.shiftl_spec_low.
    - rewrite <- (Z.mod_small b (2 ^ k)) by done.
      rewrite Z.mod_pow2_bits_high by lia. apply andb_false_r. }
  rewrite <- Z.add_lor_land, Hl. lia.
Qed.

Lemma u16_value p swap :
  is_byte (nthZ p 0) -> is_byte (nthZ p 1) ->
  cp32_fs_u16 p swap =
  if truthy swap then nthZ p 0 * 256 + nthZ p 1 else nthZ p 1 * 256 + nthZ p 0.
Proof.
  unfold is_byte, cp32_fs_u16. intros. destruct (truthy swap);
    by rewrite lor_shift_add by lia.
Qed.

Lemma u16_range p swap :
  is_byte (nthZ p 0) -> is_byte (nthZ p 1) -> 0 <= cp32_fs_u16 p swap < 65536.
Proof. intros H0 H1. rewrite u16_value by done. unfold is_byte in *. destruct truthy; lia. Qed.

Lemma u32_value p swap :
  is_byte (nthZ p 0) -> is_byte (nthZ p 1) -> is_byte (nthZ p 2) -> is_byte (nthZ p 3) ->
  cp32_fs_u32 p swap =
  if truthy swap then cp32_fs_u16 p swap * 65536 + cp32_fs_u16 (ptr_add p 2) swap
  else cp32_fs_u16 (ptr_add p 2) swap * 65536 + cp32_fs_u16 p swap.
Proof.
  intros. assert (0 <= cp32_fs_u16 p swap < 65536) by (by apply u16_range).
  assert (0 <= cp32_fs_u16 (ptr_add p 2) swap < 65536)
    by (apply u16_range; by rewrite nthZ_ptr_add by lia).
  unfold cp32_fs_u32. destruct truthy; rewrite wrap32_small;
    rewrite ?lor_shift_add, ?Z.shiftl_mul_pow2 by lia; lia.
Qed.

Lemma u32_range p swap :
  is_byte (nthZ p 0) -> is_byte (nthZ p 1) -> is_byte (nthZ p 2) -> is_byte (nthZ p 3) ->
  is_u32 (cp32_fs_u32 p swap).
Proof.
  intros. rewrite u32_value by done.
  assert (0 <= cp32_fs_u16 p swap < 65536) by (by apply u16_range).
  assert (0 <= cp32_fs_u16 (ptr_add p 2) swap < 65536)
    by (apply u16_range; by rewrite nthZ_ptr_add by lia).
  unfold is_u32. destruct truthy; lia.
Qed.

(** ** Stores: length, the untouched bytes, the bytes written *)

Lemma lenZ_put16 raw at_ n swap : lenZ (put16 raw at_ n swap) = lenZ raw.
Proof. unfold put16. by autorewrite with cp32_rw. Qed.

Lemma lenZ_put32 raw at_ n swap : lenZ (put32 raw at_ n swap) = lenZ raw.
Proof. unfold put32. by rewrite !lenZ_put16. Qed.
#[export] Hint Rewrite lenZ_put16 lenZ_put32 : cp32_rw.

Lemma nthZ_put16_out raw at_ n swap i :
  0 <= at_ -> 0 <= i -> i < at_ \/ at_ + 2 <= i ->
  nthZ (put16 raw at_ n swap) i = nthZ raw i.
Proof. intros. unfold put16. destruct truthy; by rewrite !nthZ_upd_ne by lia. Qed.

Lemma nthZ_put32_out raw at_ n swap i :
  0 <= at_ -> 0 <= i -> i < at_ \/ at_ + 4 <= i ->
  nthZ (put32 raw at_ n swap) i = nthZ raw i.
Proof. intros. unfold put32. by rewrite !nthZ_put16_out by lia. Qed.

Lemma nthZ_put16_in raw at_ n swap :
  0 <= at_ -> at_ + 2 <= lenZ raw ->
  nthZ (put16 raw at_ n swap) at_ = wrap8 (if truthy swap then Z.shiftr n 8 else n) /\
  nthZ (put16 raw at_ n swap) (at_ + 1) = wrap8 (if truthy swap then n else Z.shiftr n 8).
Proof.
  intros. unfold put16. destruct truthy; rewrite ?Z.add_0_r;
    split; rewrite ?nthZ_upd by (autorewrite with cp32_rw; lia);
    repeat match goal with |- context [?a =? ?b] => destruct (Z.eqb_spec a b) end;
    done || lia.
Qed.

Lemma put16_byte raw at_ n swap i :
  Forall is_byte raw -> is_byte (nthZ (put16 raw at_ n swap) i).
Proof.
  intros Hraw.
  assert (Forall is_byte (put16 raw at_ n swap)) as HF.
  { unfold put16, updZ. apply Forall_insert; [apply Forall_insert; [done|]|]; apply wrap8_range. }
  destruct (Z.lt_ge_cases i (lenZ (put16 raw at_ n swap))).
  - destruct (Z.lt_ge_cases i 0).
    + unfold nthZ. replace (Z.to_nat i) with (Z.to_nat 0) by lia.
      destruct (put16 raw at_ n swap) eqn:E; simpl; [unfold is_byte; lia|].
      by inversion HF.
    + by apply nthZ_Forall.
  - rewrite nthZ_oob by done. unfold is_byte. lia.
Qed.

Lemma put16_Forall raw at_ n swap :
  Forall is_byte raw -> Forall is_byte (put16 raw at_ n swap).
Proof.
  intros. unfold put16, updZ. apply Forall_insert; [apply Forall_insert; [done|]|];
    apply wrap8_range.
Qed.

Lemma put32_Forall raw at_ n swap :
  Forall is_byte raw -> Forall is_byte (put32 raw at_ n swap).
Proof. intros. by do 2 apply put16_Forall. Qed.

Lemma u16_put16 raw at_ n swap :
  0 <= at_ -> at_ + 2 <= lenZ raw ->
  cp32_fs_u16 (ptr_add (put16 raw at_ n swap) at_) swap = wrap16 n.
Proof.
  intros. destruct (nthZ_put16_in raw at_ n swap) as [E0 E1]; [lia..|].
  rewrite u16_value; rewrite !nthZ_ptr_add, ?Z.add_0_r, ?E0, ?E1 by lia;
    [|apply wrap8_range..].
  unfold wrap8, wrap16. rewrite Z.shiftr_div_pow2 by lia. change (2 ^ 8) with 256.
  destruct truthy; Z.div_mod_to_equations; lia.
Qed.

Lemma u16_ext p q swap :
  nthZ p 0 = nthZ q 0 -> nthZ p 1 = nthZ q 1 -> cp32_fs_u16 p swap = cp32_fs_u16 q swap.
Proof. intros E0 E1. unfold cp32_fs_u16. by rewrite E0, E1. Qed.

Lemma u32_ext p q swap :
  (forall i, 0 <= i < 4 -> nthZ p i = nthZ q i) -> cp32_fs_u32 p swap = cp32_fs_u32 q swap.
Proof.
  intros E. assert (H1 : cp32_fs_u16 p swap = cp32_fs_u16 q swap) by (apply u16_ext; apply E; lia).
  assert (H2 : cp32_fs_u16 (ptr_add p 2) swap = cp32_fs_u16 (ptr_add q 2) swap)
    by (apply u16_ext; rewrite !nthZ_ptr_add by lia; apply E; lia).
  unfold cp32_fs_u32. by rewrite H1, H2.
Qed.

Lemma ptr_add_add p a b : 0 <= a -> 0 <= b -> ptr_add (ptr_add p a) b = ptr_add p (a + b).
Proof. intros. unfold ptr_add. rewrite drop_drop. f_equal. lia. Qed.

Lemma u32_put32 raw at_ n swap :
  0 <= at_ -> at_ + 4 <= lenZ raw -> 0 <= n < 4294967296 ->
  cp32_fs_u32 (ptr_add (put32 raw at_ n swap) at_) swap = n.
Proof.
  intros Hat Hlen Hn.
  set (hi := if truthy swap then Z.shiftr n 16 else n).
  set (lo := if truthy swap then n else Z.shiftr n 16).
  assert (E1 : cp32_fs_u16 (ptr_add (put32 raw at_ n swap) at_) swap = wrap16 hi).
  { rewrite <- (u16_put16 raw at_ hi swap) by lia. apply u16_ext;
      rewrite !nthZ_ptr_add by lia; unfold put32; by rewrite nthZ_put16_out by lia. }
  assert (E2 : cp32_fs_u16 (ptr_add (ptr_add (put32 raw at_ n swap) at_) 2) swap = wrap16 lo).
  { rewrite ptr_add_add by lia. unfold put32.
    rewrite u16_put16; [done|lia|]. autorewrite with cp32_rw. lia. }
  unfold cp32_fs_u32. rewrite E1, E2. subst hi lo.
  pose proof (wrap16_range n). pose proof (wrap16_range (Z.shiftr n 16)).
  assert (Hs : wrap16 (Z.shiftr n 16) * 65536 + wrap16 n = n).
  { unfold wrap16. rewrite Z.shiftr_div_pow2 by lia. change (2 ^ 16) with 65536.
    Z.div_mod_to_equations. lia. }
  destruct (truthy swap); rewrite wrap32_small;
    rewrite ?lor_shift_add, ?Z.shiftl_mul_pow2 by lia; lia.
Qed.

(** ** Bits of a map word *)

Lemma bit_of_pow bit : bit_of bit = 2 ^ (bit mod 16).
Proof.
  unfold bit_of. pose proof (Z.mod_pos_bound bit 16).
  rewrite Z.shiftl_mul_pow2, Z.mul_1_l by lia. apply wrap32_small.
  split; [lia|]. apply Z.le_lt_trans with (2 ^ 15); [|done].
  apply Z.pow_le_mono_r; lia.
Qed.

Lemma land_pow_testbit w k : 0 <= k -> truthy (Z.land w (2 ^ k)) = Z.testbit w k.
Proof.
  intros Hk. unfold truthy. destruct (Z.testbit w k) eqn:E.
  - destruct (Z.eqb_spec (Z.land w (2 ^ k)) 0) as [H0|]; [|done].
    assert (Hb : Z.testbit (Z.land w (2 ^ k)) k = true)
      by (by rewrite Z.land_spec, E, Z.pow2_bits_true).
    by rewrite H0, Z.bits_0 in Hb.
  - rewrite (proj2 (Z.eqb_eq _ 0)); [done|].
    apply Z.bits_inj'. intros i Hi. rewrite Z.land_spec, Z.bits_0.
    destruct (Z.eq_dec k i) as [<-|Hne]; [by rewrite E|].
    rewrite Z.pow2_bits_false by lia. apply andb_false_r.
Qed.

Lemma bit_test w bit : truthy (Z.land w (bit_of bit)) = Z.testbit w (bit mod 16).
Proof.
  rewrite bit_of_pow. apply land_pow_testbit. apply Z.mod_pos_bound. lia.
Qed.

Lemma testbit_set w bit i :
  0 <= i -> Z.testbit (Z.lor w (bit_of bit)) i = (bit mod 16 =? i) || Z.testbit w i.
Proof.
  intros. pose proof (Z.mod_pos_bound bit 16). rewrite bit_of_pow, Z.lor_spec, orb_comm.
  by rewrite Z.pow2_bits_eqb by lia.
Qed.

Lemma testbit_clear w bit i :
  0 <= i < 32 ->
  Z.testbit (Z.land w (not32 (bit_of bit))) i = Z.testbit w i && negb (bit mod 16 =? i).
Proof.
  intros. pose proof (Z.mod_pos_bound bit 16).
  rewrite bit_of_pow. unfold not32, wrap32. change 4294967296 with (2 ^ 32).
  rewrite Z.land_spec, Z.mod_pow2_bits_low by lia.
  rewrite Z.lnot_spec, Z.pow2_bits_eqb by lia. done.
Qed.

Lemma set_range w bit : 0 <= w < 65536 -> 0 <= Z.lor w (bit_of bit) < 65536.
Proof.
  intros. pose proof (Z.mod_pos_bound bit 16). rewrite bit_of_pow.
  assert (0 <= Z.lor w (2 ^ (bit mod 16))) by (apply Z.lor_nonneg; lia).
  split; [done|]. change 65536 with (2 ^ 16).
  apply Z.log2_lt_cancel. rewrite Z.log2_lor by lia. rewrite !Z.log2_pow2 by lia.
  assert (Z.log2 w <= 15) by (apply Z.log2_le_mono with (b := 65535); lia). lia.
Qed.

Lemma clear_range w bit : 0 <= w < 65536 -> 0 <= Z.land w (not32 (bit_of bit)) < 65536.
Proof.
  intros. assert (0 <= Z.land w (not32 (bit_of bit))) by (apply Z.land_nonneg; lia).
  split; [done|]. apply Z.le_lt_trans with w; [|lia].
  apply Z.ldiff_le; [lia|]. apply Z.bits_inj'. intros i Hi.
  rewrite Z.ldiff_spec, Z.land_spec, Z.bits_0. destruct (Z.testbit w i); by rewrite ?andb_false_r.
Qed.

(** ** Reading a field after storing another one *)

Lemma u16_put16_ne raw a b n swap :
  0 <= a -> 0 <= b -> b + 2 <= a \/ a + 2 <= b ->
  cp32_fs_u16 (ptr_add (put16 raw a n swap) b) swap = cp32_fs_u16 (ptr_add raw b) swap.
Proof.
  intros. apply u16_ext; rewrite !nthZ_ptr_add by lia; apply nthZ_put16_out; lia.
Qed.

Lemma u16_put32_ne raw a b n swap :
  0 <= a -> 0 <= b -> b + 2 <= a \/ a + 4 <= b ->
  cp32_fs_u16 (ptr_add (put32 raw a n swap) b) swap = cp32_fs_u16 (ptr_add raw b) swap.
Proof.
  intros. apply u16_ext; rewrite !nthZ_ptr_add by lia; apply nthZ_put32_out; lia.
Qed.

Lemma u32_put16_ne raw a b n swap :
  0 <= a -> 0 <= b -> b + 4 <= a \/ a + 2 <= b ->
  cp32_fs_u32 (ptr_add (put16 raw a n swap) b) swap = cp32_fs_u32 (ptr_add raw b) swap.
Proof.
  intros. apply u32_ext. intros. rewrite !nthZ_ptr_add by lia. apply nthZ_put16_out; lia.
Qed.

Lemma u32_put32_ne raw a b n swap :
  0 <= a -> 0 <= b -> b + 4 <= a \/ a + 4 <= b ->
  cp32_fs_u32 (ptr_add (put32 raw a n swap) b) swap = cp32_fs_u32 (ptr_add raw b) swap.
Proof.
  intros. apply u32_ext. intros. rewrite !nthZ_ptr_add by lia. apply nthZ_put32_out; lia.
Qed.

(** Reads through a chain of stores at literal offsets. *)
Ltac codec :=
  repeat first
    [ rewrite u16_put16_ne by lia | rewrite u16_put32_ne by lia
    | rewrite u32_put16_ne by lia | rewrite u32_put32_ne by lia
    | rewrite u16_put16 by (autorewrite with cp32_rw; unfold lenZ; simpl; lia)
    | rewrite u32_put32 by (autorewrite with cp32_rw; unfold lenZ; simpl; lia) ].

(** ** Properties *)

(** A 32-bit field stored by [put32] in either byte order is read back
    unchanged by [cp32_fs_u32] in the same order, whatever else the inode or
    entry buffer holds, and the store changes none of the other bytes. *)
Theorem put32_roundtrip raw at_ n swap :
  0 <= at_ -> at_ + 4 <= lenZ raw -> 0 <= n < 4294967296 ->
  cp32_fs_u32 (ptr_add (put32 raw at_ n swap) at_) swap = n /\
  lenZ (put32 raw at_ n swap) = lenZ raw /\
  forall i, 0 <= i -> i < at_ \/ at_ + 4 <= i -> nthZ (put32 raw at_ n swap) i = nthZ raw i.
Proof.
  intros. split_and!; [by apply u32_put32|apply lenZ_put32|].
  intros. by apply nthZ_put32_out.
Qed.

Lemma put32_roundtrip_witness :
  (0 <= 8 /\ 8 + 4 <= lenZ (replicate 16 0) /\ 0 <= 305419896 < 4294967296) /\
  cp32_fs_u32 (ptr_add (put32 (replicate 16 0) 8 305419896 1) 8) 1 = 305419896.
Proof.
  split; [vm_compute; intuition congruence|].
  apply (put32_roundtrip (replicate 16 0) 8 305419896 1);
    [lia|vm_compute; congruence|lia].
Defined.
