(* ===== verification/FsTypes.v ===== *)
(** * Filesystem data: src/src/fs/{const,type,super,inode,file,fs}.h

    Status codes, the structures of the filesystem, its static state and the
    interface ([Disk], [DiskSpec]) through which it reaches storage. *)
From S2P Require Import Prelude Codec.

(** ** const.h *)
Definition CP32_SUPER_OK := 0.
Definition CP32_SUPER_ABSENT := 1.
Definition CP32_SUPER_UNSUPPORTED := 2.
Definition CP32_SUPER_INVALID := 3.
Definition CP32_SUPER_IO := 4.
Definition CP32_FILE_NOT_FOUND := 5.
Definition CP32_FILE_IS_DIR := 6.
Definition CP32_FILE_NAME := 7.
Definition CP32_FILE_NOT_DIR := 8.
Definition CP32_FILE_BAD_FD := 9.
Definition CP32_FILE_LIMIT := 10.
Definition CP32_FILE_EXISTS := 11.
Definition CP32_FILE_NOSPACE := 12.
Definition CP32_FILE_BUSY := 13.
Definition CP32_FILE_NOT_EMPTY := 14.
Definition CP32_FILE_ACCESS := 15.
Definition CP32_FILE_BIG := 16.
Definition CP32_FILE_READONLY := 17.
Definition CP32_FILE_LINK_LIMIT := 18.
Definition CP32_OPEN_MAX := 8.
Definition CP32_MINIX_PATH_MAX := 255.
Definition CP32_F_DUPFD := 0.
Definition CP32_F_GETFD := 1.
Definition CP32_F_SETFD := 2.
Definition CP32_F_GETFL := 3.
Definition CP32_F_SETFL := 4.
Definition CP32_F_GETLK := 5.
Definition CP32_F_SETLK := 6.
Definition CP32_F_SETLKW := 7.
Definition CP32_FD_CLOEXEC := 1.
Definition CP32_O_RDONLY := 0.
Definition CP32_O_WRONLY := 1.
Definition CP32_O_RDWR := 2.
Definition CP32_O_CREAT := 64.
Definition CP32_O_EXCL := 128.
Definition CP32_O_TRUNC := 512.
Definition CP32_O_APPEND := 1024.
Definition CP32_O_NONBLOCK := 2048.

(** Inode type bits: octal 0170000, 0100000, 0040000, and 0111, 0222, 0444, 0777. *)
Definition S_IFMT := 61440.
Definition S_IFREG := 32768.
Definition S_IFDIR := 16384.

(** Function and object pointers; 0 is the null pointer. *)
Abbreviation fptr := Z (only parsing).
Definition NULL : fptr := 0.
Definition nonnull : Z := 1.

(** ** super.h, inode.h, file.h, type.h *)
Record cp32_minix_super := Super {
  s_ninodes : Z; s_zones : Z; s_first_data_zone : Z; s_log_zone_size : Z; s_max_size : Z;
  s_imap_blocks : Z; s_zmap_blocks : Z; s_swapped : Z }.

Record cp32_minix_dir := Dir {
  d_super : cp32_minix_super;
  d_read : fptr;
  d_size : Z; d_position : Z; d_zones : list Z; d_indirect : Z }.

Record cp32_minix_file := File {
  f_read : fptr;
  f_size : Z; f_position : Z; f_zone_bytes : Z; f_zones : list Z;
  f_super : cp32_minix_super;
  f_indirect : Z; f_double_indirect : Z; f_inode : Z }.

Record cp32_minix_stat := Stat {
  st_inode : Z; st_mode : Z; st_links : Z; st_uid : Z; st_gid : Z; st_size : Z;
  st_atime : Z; st_mtime : Z; st_ctime : Z }.

Record cp32_minix_space := Space {
  sp_zone_size : Z; sp_zones : Z; sp_free_zones : Z; sp_inodes : Z; sp_free_inodes : Z;
  sp_name_max : Z }.

Definition d_set_position (d : cp32_minix_dir) (p : Z) : cp32_minix_dir :=
  Dir (d_super d) (d_read d) (d_size d) p (d_zones d) (d_indirect d).
Definition f_set_position (f : cp32_minix_file) (p : Z) : cp32_minix_file :=
  File (f_read f) (f_size f) p (f_zone_bytes f) (f_zones f) (f_super f)
       (f_indirect f) (f_double_indirect f) (f_inode f).

(** ** Storage seen by the filesystem

    [E] is everything behind the function pointers the filesystem is given: the
    device and the block cache.  A reader returns its count or status and the
    buffer contents, a writer its count or status, a clock its status and the
    seconds; [dk_invalidate] is [cp32_cache_invalidate]. *)
Class Disk (E : Type) := {
  dk_read : fptr -> Z -> Z -> E -> (Z * list Z) * E;
  dk_write : fptr -> Z -> list Z -> E -> Z * E;
  dk_clock : fptr -> E -> (Z * Z) * E;
  dk_invalidate : E -> E }.

(** What the filesystem relies on for a reader [rd] and writer [wr] of one
    volume of [cap] bytes.  Reads are reliable only while the cache agrees with
    the device ([dk_coh]); invalidation empties it ([dk_clean]); a write may
    only be issued on an empty cache.  A failed read leaves the stored bytes
    alone; a failed write may have changed any byte of the 512-byte sectors it
    touches and no other. *)
Class DiskSpec (E : Type) `{Disk E} (rd wr : fptr) (cap : Z) := {
  dk_data : E -> mem;
  dk_coh : E -> Prop;
  dk_clean : E -> Prop;
  dk_clean_coh : forall e, dk_clean e -> dk_coh e;
  dk_data_byte : forall e a, is_byte (dk_data e a);
  dk_invalidate_clean : forall e, dk_coh e -> dk_clean (dk_invalidate e);
  dk_invalidate_data : forall e, dk_coh e -> dk_data (dk_invalidate e) ≡m dk_data e;
  dk_read_frame : forall e off n, dk_coh e ->
    let '((r, bs), e') := dk_read rd off n e in
    dk_coh e' /\ dk_data e' ≡m dk_data e;
  dk_read_ok : forall e off n, dk_coh e -> 0 < n ->
    let '((r, bs), e') := dk_read rd off n e in
    r = n -> 0 <= off /\ off + n <= cap /\ bs = mem_read (dk_data e) off n;
  dk_write_frame : forall e off bs, dk_clean e -> 0 <= off -> Forall is_byte bs ->
    let '(r, e') := dk_write wr off bs e in
    dk_clean e' /\
    forall a, a / 512 < off / 512 \/ (off + lenZ bs - 1) / 512 < a / 512 ->
      dk_data e' a = dk_data e a;
  dk_write_ok : forall e off bs, dk_clean e -> 0 <= off -> Forall is_byte bs ->
    let '(r, e') := dk_write wr off bs e in
    r = lenZ bs -> off + lenZ bs <= cap /\ dk_data e' ≡m mem_write (dk_data e) off bs;
  dk_clock_frame : forall c e, dk_data (snd (dk_clock c e)) = dk_data e /\
    (dk_coh e -> dk_coh (snd (dk_clock c e)));
  dk_clock_u32 : forall c e, is_u32 (snd (fst (dk_clock c e))) }.

(** ** Static state of the filesystem

    The open-file tables of filedes.c, the timestamp bindings of timestamp.c
    and the mapping snapshot [shrink_zones] of create.c. *)
Record fdtab := Fdtab {
  t_files : list cp32_minix_file;
  t_references : list Z;
  t_directories : list Z;
  t_descriptors : list Z;
  t_descriptor_flags : list Z;
  t_status_flags : list Z;
  t_writers : list fptr;
  t_pending_unlink : list Z }.

Record fsw (E : Type) := Fsw {
  fs_env : E;
  fs_tab : fdtab;
  fs_time_reader : fptr;
  fs_time_writer : fptr;
  fs_time_clock : fptr;
  fs_shrink_zones : list Z }.
Arguments Fsw {E}.
Arguments fs_env {E}.
Arguments fs_tab {E}.
Arguments fs_time_reader {E}.
Arguments fs_time_writer {E}.
Arguments fs_time_clock {E}.
Arguments fs_shrink_zones {E}.

Definition set_env {E} (e : E) (w : fsw E) : fsw E :=
  Fsw e (fs_tab w) (fs_time_reader w) (fs_time_writer w) (fs_time_clock w) (fs_shrink_zones w).
Definition set_tab {E} (t : fdtab) (w : fsw E) : fsw E :=
  Fsw (fs_env w) t (fs_time_reader w) (fs_time_writer w) (fs_time_clock w) (fs_shrink_zones w).
Definition set_time {E} (r wr c : fptr) (w : fsw E) : fsw E :=
  Fsw (fs_env w) (fs_tab w) r wr c (fs_shrink_zones w).
Definition set_shrink {E} (z : list Z) (w : fsw E) : fsw E :=
  Fsw (fs_env w) (fs_tab w) (fs_time_reader w) (fs_time_writer w) (fs_time_clock w) z.

Definition empty_super : cp32_minix_super := Super 0 0 0 0 0 0 0 0.
Definition empty_file : cp32_minix_file := File 0 0 0 0 (replicate 7 0) empty_super 0 0 0.
Definition empty_fdtab : fdtab :=
  Fdtab (replicate 8 empty_file) (replicate 8 0) (replicate 8 0) (replicate 8 0)
        (replicate 8 0) (replicate 8 0) (replicate 8 0) (replicate 8 0).

(** The statics as the C program starts: all zero. *)
Definition boot_fsw {E} (e : E) : fsw E :=
  Fsw e empty_fdtab 0 0 0 (replicate 264 0).

(** What code that only reads leaves alone besides the stored bytes. *)
Record statics := Statics {
  st_tab : fdtab; st_reader : fptr; st_writer : fptr; st_clock : fptr }.
Definition fs_statics {E} (w : fsw E) : statics :=
  Statics (fs_tab w) (fs_time_reader w) (fs_time_writer w) (fs_time_clock w).

(** ** Calls through the pointers *)
Section Calls.
Context {E : Type} `{Disk E}.
Abbreviation FM := (M (fsw E)).

(** [r = read(off, buf, n)]: the result and the buffer. *)
Definition call_read (rd : fptr) (off n : Z) : FM (Z * list Z) :=
  fun w => let (x, e) := dk_read rd off n (fs_env w) in (Ok x, set_env e w).

(** [if (read(off, buf, n) != n) return status;] *)
Definition read_or (status : Z) (rd : fptr) (off n : Z) : FM (list Z) :=
  x <- call_read rd off n ;;
  if fst x =? n then ret (snd x) else fail status.

Definition call_write (wr : fptr) (off : Z) (bs : list Z) : FM Z :=
  fun w => let (r, e) := dk_write wr off bs (fs_env w) in (Ok r, set_env e w).

Definition call_clock (c : fptr) : FM (Z * Z) :=
  fun w => let (x, e) := dk_clock c (fs_env w) in (Ok x, set_env e w).

(** [cp32_cache_invalidate()] *)
Definition cache_invalidate : FM unit :=
  modify (fun w => set_env (dk_invalidate (fs_env w)) w).

(** [static int store(write, at, p, n)] of create.c: write-through with the
    cache discarded on both sides. *)
Definition store (wr : fptr) (at_ : Z) (p : list Z) : FM unit :=
  cache_invalidate ;;;
  r <- call_write wr at_ p ;;
  cache_invalidate ;;;
  if r =? lenZ p then ret tt else fail (- CP32_SUPER_IO).

(** The device answers a read of [n] bytes at [off] in full. *)
Definition answers (rd : fptr) (w : fsw E) (off n : Z) : Prop :=
  fst (fst (dk_read rd off n (fs_env w))) = n.
End Calls.

(** ** What the calls keep

    [fs_data] is the stored bytes.  [reads] describes code that changes neither
    them nor the tables, [writes R] code that changes them in the region [R]
    only; both hold whatever the device answers. *)
Section Frames.
Context {E : Type} `{DSK : Disk E} {rd wr : fptr} {cap : Z} `{SPEC : !DiskSpec E rd wr cap}.
Abbreviation FM := (M (fsw E)).

Definition fs_data (w : fsw E) : mem := dk_data (rd := rd) (wr := wr) (cap := cap) (fs_env w).

(** The timestamps of the volume, when bound, go through its own writer. *)
Definition time_bound (w : fsw E) : Prop :=
  fs_time_reader w = rd -> fs_time_writer w = 0 \/ fs_time_writer w = wr.

Definition fs_coh (w : fsw E) : Prop :=
  dk_coh (rd := rd) (wr := wr) (cap := cap) (fs_env w) /\ time_bound w.

Lemma fs_coh_env e w :
  fs_coh w -> dk_coh (rd := rd) (wr := wr) (cap := cap) e -> fs_coh (set_env e w).
Proof. by intros [_ Hb]. Qed.

(** *** Code that only reads

    [at_data d t]: the stored bytes are [d] and the tables and bindings [t].  [reads d t c Q R]:
    from there [c] changes neither, returns a value in [Q] or a status in [R]. *)
Definition at_data (d : mem) (t : statics) (w : fsw E) : Prop :=
  fs_coh w /\ fs_data w ≡m d /\ fs_statics w = t.

Definition reads {A} (d : mem) (t : statics) (c : FM A) (Q : A -> Prop) (R : Z -> Prop) : Prop :=
  hoare (at_data d t) c (fun a w => at_data d t w /\ Q a) (fun e w => at_data d t w /\ R e).

Lemma reads_ret {A} d t (a : A) (Q : A -> Prop) R : Q a -> reads d t (ret a) Q R.
Proof. intros H. apply hoare_ret. auto. Qed.

Lemma reads_fail {A} d t e (Q : A -> Prop) (R : Z -> Prop) : R e -> reads d t (fail e) Q R.
Proof. intros H. apply hoare_fail. auto. Qed.

Lemma reads_bind {A B} d t (c : FM A) (k : A -> FM B) Q' Q R :
  reads d t c Q' R -> (forall a, Q' a -> reads d t (k a) Q R) -> reads d t (bind c k) Q R.
Proof.
  intros Hc Hk. eapply hoare_bind; [exact Hc|]. intros a. apply hoare_pure. apply Hk.
Qed.

Lemma reads_ext {A} d t (c c' : FM A) (Q : A -> Prop) R :
  (forall w, c w = c' w) -> reads d t c' Q R -> reads d t c Q R.
Proof. intros He H w. rewrite He. apply H. Qed.

Lemma reads_assoc {A B C} d t (c : FM A) (k : A -> FM B) (k' : B -> FM C) Q R :
  reads d t (bind (bind c k) k') Q R -> reads d t (bind c (fun a => bind (k a) k')) Q R.
Proof.
  intros H w. specialize (H w). unfold bind in *. by destruct (c w) as [[e|a] w'].
Qed.

Lemma reads_guard d t b e (Q : unit -> Prop) (R : Z -> Prop) :
  (b = true -> R e) -> (b = false -> Q tt) -> reads d t (guard b e) Q R.
Proof. intros. apply hoare_guard; auto. Qed.

Lemma reads_conseq {A} d t (c : FM A) (Q Q' : A -> Prop) (R R' : Z -> Prop) :
  reads d t c Q' R' -> (forall a, Q' a -> Q a) -> (forall e, R' e -> R e) -> reads d t c Q R.
Proof.
  intros H HQ HR. eapply hoare_conseq; [exact H|done|..]; intros ?? [? ?]; auto.
Qed.

Lemma reads_gets {A} d t (f : statics -> A) (Q : A -> Prop) R :
  Q (f t) -> reads d t (gets (fun w => f (fs_statics w))) Q R.
Proof. intros H. apply hoare_gets. intros w Hw. split; [done|]. by destruct Hw as (_ & _ & ->). Qed.

(** The device answers every transfer inside the volume. *)
Definition reliable : Prop :=
  forall e off n, dk_coh (rd := rd) (wr := wr) (cap := cap) e ->
  0 <= off -> 0 < n <= 64 -> off + n <= cap -> fst (fst (dk_read rd off n e)) = n.

Lemma reads_read_or d t s off n (Q : list Z -> Prop) (R : Z -> Prop) :
  0 < n <= 64 -> ((reliable -> off < 0 \/ cap < off + n) -> R s) ->
  (0 <= off -> off + n <= cap -> Q (mem_read d off n)) ->
  reads d t (read_or s rd off n) Q R.
Proof.
  intros Hn HR HQ w (Hco & Hd & Ht). pose proof (proj1 Hco) as Hc.
  unfold read_or, call_read, bind.
  pose proof (dk_read_frame (fs_env w) off n Hc) as HF.
  pose proof (dk_read_ok (fs_env w) off n Hc ltac:(lia)) as HO.
  assert (HL : reliable -> 0 <= off -> off + n <= cap -> fst (fst (dk_read rd off n (fs_env w))) = n)
    by (intros Hrel ? ?; by apply Hrel).
  destruct (dk_read rd off n (fs_env w)) as [[r bs] e']. destruct HF as [Hc' Hd']. simpl in *.
  assert (at_data d t (set_env e' w)).
  { split; [by apply fs_coh_env|]. split; [|done]. unfold fs_data in *. simpl. by rewrite Hd'. }
  destruct (Z.eqb_spec r n) as [->|]; simpl;
    [|split; [done|]; apply HR; intros Hrel; specialize (HL Hrel); lia].
  destruct (HO eq_refl) as (? & ? & ->). split; [done|].
  unfold fs_data in Hd. rewrite Hd. by apply HQ.
Qed.

Lemma read_or_ok s off n w :
  0 < n <= 64 -> fs_coh w -> answers rd w off n ->
  exists w', read_or s rd off n w = (Ok (mem_read (fs_data w) off n), w') /\
             at_data (fs_data w) (fs_statics w) w'.
Proof.
  intros Hn Hc Ha. unfold answers in Ha.
  pose proof (reads_read_or (fs_data w) (fs_statics w) s off n
                (fun bs => bs = mem_read (fs_data w) off n) (fun _ => True) Hn (fun _ => I)
                ltac:(done) w) as HR.
  unfold read_or, call_read, bind in *.
  destruct (dk_read rd off n (fs_env w)) as [[r bs] e']. simpl in *. subst r.
  rewrite Z.eqb_refl in *. simpl in *.
  destruct HR as [? ->]; [|by eexists]. split; [done|]. by split.
Qed.

Lemma reads_run {A} (w : fsw E) (c : FM A) Q R :
  reads (fs_data w) (fs_statics w) c Q R -> fs_coh w ->
  match c w with
  | (Ok a, w') => at_data (fs_data w) (fs_statics w) w' /\ Q a
  | (Err e, w') => at_data (fs_data w) (fs_statics w) w' /\ R e
  end.
Proof. intros H Hc. apply H. split; [done|]. by split. Qed.

Lemma reads_invalidate d t (Q : unit -> Prop) (R : Z -> Prop) :
  Q tt -> reads d t cache_invalidate Q R.
Proof.
  intros HQ w (Hco & Hd & Ht). pose proof (proj1 Hco) as Hc. simpl. split; [|done].
  split; [by apply fs_coh_env; [|apply dk_clean_coh, dk_invalidate_clean]|]. split; [|done].
  unfold fs_data. simpl. rewrite dk_invalidate_data by exact Hc. exact Hd.
Qed.

Lemma reads_loop {A B} d t (I : nat -> A -> Prop) n (body : A -> FM (turn A B))
    (done_ : A -> FM B) (Q : B -> Prop) R a :
  (forall n a, I (S n) a ->
     reads d t (body a) (fun x => match x with Continue a' => I n a' | Break b => Q b end) R) ->
  (forall a, I O a -> reads d t (done_ a) Q R) ->
  I n a -> reads d t (loop n body done_ a) Q R.
Proof.
  intros Hb Hd. revert a. induction n as [|n IH]; intros a Ha; cbn [loop]; [by apply Hd|].
  eapply reads_bind; [by apply Hb|]. intros [a'|b] Hx; [by apply IH|by apply reads_ret].
Qed.

Lemma reads_for {A} d t (I : Z -> A -> Prop) n i (body : Z -> A -> FM A) R a :
  (forall j a, i <= j < i + Z.of_nat n -> I j a -> reads d t (body j a) (I (j + 1)) R) ->
  I i a -> reads d t (for_ n i body a) (I (i + Z.of_nat n)) R.
Proof.
  revert i a. induction n as [|n IH]; intros i a Hb Ha; cbn [for_].
  - apply reads_ret. by replace (i + Z.of_nat 0) with i by lia.
  - eapply reads_bind; [apply Hb; [lia|done]|]. intros a' Ha'. cbn beta in Ha'.
    replace (i + Z.of_nat (S n)) with ((i + 1) + Z.of_nat n) by lia.
    apply IH; [|done]. intros j b Hj. apply Hb. lia.
Qed.

(** *** Code that writes

    [writes R d c Q F]: from stored bytes [d], [c] changes no byte outside [R]
    whatever the device answers, and on success its value and the stored bytes
    then satisfy [Q]; an early return has a status in [F]. *)
Definition region := Z -> Prop.
Definition agree (R : region) (d d' : mem) : Prop := forall a, ~ R a -> d' a = d a.

Lemma agree_refl R d : agree R d d.
Proof. done. Qed.

Lemma agree_trans R d1 d2 d3 : agree R d1 d2 -> agree R d2 d3 -> agree R d1 d3.
Proof. intros H1 H2 a Ha. by rewrite H2, H1. Qed.

Lemma agree_eq R d d' : d' ≡m d -> agree R d d'.
Proof. intros H a _. apply H. Qed.

Lemma agree_mono (R R' : region) d d' :
  (forall a, R a -> R' a) -> agree R d d' -> agree R' d d'.
Proof. intros H Ha a Hn. apply Ha. auto. Qed.

Definition writes {A} (R : region) (d : mem) (c : FM A) (Q : A -> mem -> Prop) (F : Z -> Prop)
  : Prop :=
  forall w, fs_coh w -> fs_data w ≡m d ->
  match c w with
  | (Ok a, w') => fs_coh w' /\ agree R d (fs_data w') /\ Q a (fs_data w')
  | (Err e, w') => fs_coh w' /\ agree R d (fs_data w') /\ F e
  end.

Lemma writes_reads {A} R d (c : FM A) Q (Q' : A -> mem -> Prop) (F F' : Z -> Prop) :
  (forall t, reads d t c Q F) ->
  (forall a d', Q a -> d' ≡m d -> Q' a d') -> (forall e, F e -> F' e) -> writes R d c Q' F'.
Proof.
  intros H HQ HF w Hc Hd. specialize (H (fs_statics w) w). unfold at_data in H.
  destruct (c w) as [[e|a] w'].
  - destruct H as ((?&?&?)&?); [done|]. split_and!; auto using agree_eq.
  - destruct H as ((?&?&?)&?); [done|]. split_and!; auto using agree_eq.
Qed.

Lemma writes_ret {A} R d (a : A) (Q : A -> mem -> Prop) F :
  (forall d', d' ≡m d -> Q a d') -> writes R d (ret a) Q F.
Proof. intros H w Hc Hd. simpl. split_and!; auto using agree_eq. Qed.

Lemma writes_fail {A} R d e (Q : A -> mem -> Prop) (F : Z -> Prop) :
  F e -> writes R d (fail e) Q F.
Proof. intros H w Hc Hd. simpl. split_and!; auto using agree_eq. Qed.

Lemma writes_bind {A B} R d (c : FM A) (k : A -> FM B) Q' Q F :
  writes R d c Q' F ->
  (forall a d', agree R d d' -> Q' a d' -> writes R d' (k a) Q F) ->
  writes R d (bind c k) Q F.
Proof.
  intros Hc Hk w Hco Hd. specialize (Hc w Hco Hd). unfold bind.
  destruct (c w) as [[e|a] w']; [done|]. destruct Hc as (Hco' & Ha & HQ).
  specialize (Hk a _ Ha HQ w' Hco' (reflexivity _)).
  destruct (k a w') as [[e|b] w'']; destruct Hk as (?&?&?); split_and!;
    eauto using agree_trans.
Qed.

Lemma writes_conseq {A} R d (c : FM A) (Q Q' : A -> mem -> Prop) (F F' : Z -> Prop) :
  writes R d c Q' F' -> (forall a d', agree R d d' -> Q' a d' -> Q a d') ->
  (forall e, F' e -> F e) -> writes R d c Q F.
Proof.
  intros H HQ HF w Hc Hd. specialize (H w Hc Hd).
  destruct (c w) as [[e|a] w']; destruct H as (?&?&?); split_and!; auto.
Qed.

Lemma writes_ext {A} R d (c c' : FM A) Q F :
  (forall w, c w = c' w) -> writes R d c' Q F -> writes R d c Q F.
Proof. intros He H w. rewrite He. apply H. Qed.

Lemma writes_region {A} (R R' : region) d (c : FM A) Q F :
  (forall a, R a -> R' a) -> writes R d c Q F -> writes R' d c Q F.
Proof.
  intros HR H w Hc Hd. specialize (H w Hc Hd).
  destruct (c w) as [[e|a] w']; destruct H as (?&?&?); split_and!; eauto using agree_mono.
Qed.

Lemma writes_guard R d b e (Q : unit -> mem -> Prop) (F : Z -> Prop) :
  (b = true -> F e) -> (b = false -> forall d', d' ≡m d -> Q tt d') -> writes R d (guard b e) Q F.
Proof.
  intros H1 H2. unfold guard. destruct b; [apply writes_fail|apply writes_ret]; auto.
Qed.

Lemma writes_invalidate R d (F : Z -> Prop) :
  writes R d cache_invalidate (fun _ d' => d' ≡m d) F.
Proof.
  eapply writes_reads with (Q := fun _ => True) (F := F); [intros t|by intros|auto].
  by apply reads_invalidate.
Qed.

Lemma writes_read_or R d s off n (Q : list Z -> mem -> Prop) (F : Z -> Prop) :
  0 < n <= 64 -> F s ->
  (0 <= off -> off + n <= cap -> forall d', d' ≡m d -> Q (mem_read d off n) d') ->
  writes R d (read_or s rd off n) Q F.
Proof.
  intros Hn HF HQ.
  eapply writes_reads with (Q := fun bs => 0 <= off /\ off + n <= cap /\ bs = mem_read d off n)
    (F := fun e => e = s); [intros t|intros bs d' (?&?&->) Hd; auto|by intros e ->].
  apply reads_read_or; auto.
Qed.

Lemma writes_gets {A} R d (f : fsw E -> A) (Q : A -> mem -> Prop) F :
  (forall w d', fs_coh w -> d' ≡m d -> Q (f w) d') -> writes R d (gets f) Q F.
Proof. intros H w Hc Hd. simpl. split_and!; auto using agree_eq. Qed.

Lemma writes_statics R d (f : fsw E -> fsw E) (Q : unit -> mem -> Prop) F :
  (forall w, fs_env (f w) = fs_env w /\ fs_time_reader (f w) = fs_time_reader w /\
             fs_time_writer (f w) = fs_time_writer w) ->
  (forall d', d' ≡m d -> Q tt d') -> writes R d (modify f) Q F.
Proof.
  intros Hf HQ w Hc Hd. simpl. destruct (Hf w) as (He & Hr & Hw).
  unfold fs_coh, fs_data, time_bound in *. rewrite He, Hr, Hw.
  split_and!; auto using agree_eq; apply Hc.
Qed.

Lemma writes_try {A} R d (c : FM A) Q F :
  writes R d c Q F ->
  writes R d (try c) (fun r d' => match r with Ok a => Q a d' | Err e => F e end) (fun _ => False).
Proof.
  intros H w Hc Hd. specialize (H w Hc Hd). unfold try.
  destruct (c w) as [[e|a] w']; destruct H as (?&?&?); split_and!; auto.
Qed.

Lemma writes_for {A} R (I : Z -> A -> mem -> Prop) n i (body : Z -> A -> FM A) F d a :
  (forall j a d', i <= j < i + Z.of_nat n -> agree R d d' -> I j a d' ->
     writes R d' (body j a) (I (j + 1)) F) ->
  I i a d -> (forall a d' d'', d'' ≡m d' -> I (i + Z.of_nat n) a d' -> I (i + Z.of_nat n) a d'') ->
  writes R d (for_ n i body a) (I (i + Z.of_nat n)) F.
Proof.
  revert i a d. induction n as [|n IH]; intros i a d Hb Ha Hext; cbn [for_].
  - apply writes_ret. intros d' Hd'. eapply Hext; [exact Hd'|].
    by replace (i + Z.of_nat 0) with i by lia.
  - eapply writes_bind; [apply Hb; [lia|apply agree_refl|done]|].
    intros a' d' Hag Ha'. cbn beta in Ha'.
    replace (i + Z.of_nat (S n)) with ((i + 1) + Z.of_nat n) in * by lia.
    apply IH; [|done|done]. intros j b d'' Hj Hag'. apply Hb; [lia|eauto using agree_trans].
Qed.

Lemma writes_loop {A B} R (I : nat -> A -> mem -> Prop) n (body : A -> FM (turn A B))
    (done_ : A -> FM B) (Q : B -> mem -> Prop) F d a :
  (forall n a d', agree R d d' -> I (S n) a d' ->
     writes R d' (body a)
       (fun x d'' => match x with Continue a' => I n a' d'' | Break b => Q b d'' end) F) ->
  (forall a d', agree R d d' -> I O a d' -> writes R d' (done_ a) Q F) ->
  (forall b d' d'', d'' ≡m d' -> Q b d' -> Q b d'') ->
  I n a d -> writes R d (loop n body done_ a) Q F.
Proof.
  revert a d. induction n as [|n IH]; intros a d Hb Hd Hext Ha; cbn [loop].
  - apply Hd; [apply agree_refl|done].
  - eapply writes_bind; [apply Hb; [apply agree_refl|done]|].
    intros [a'|b] d' Hag Hx; [|apply writes_ret; eauto].
    apply IH; [..|done|done].
    + intros m b d'' Hag'. apply Hb. eauto using agree_trans.
    + intros b d'' Hag'. apply Hd. eauto using agree_trans.
Qed.

(** The sectors that a transfer of [n] bytes at [off] touches. *)
Definition sectors (off n : Z) : region := fun a => off / 512 <= a / 512 <= (off + n - 1) / 512.

Lemma writes_call_write (R : region) d at_ p (F : Z -> Prop) :
  0 <= at_ -> Forall is_byte p -> (forall a, sectors at_ (lenZ p) a -> R a) ->
  writes R d (cache_invalidate ;;; call_write wr at_ p)
    (fun r d' => r = lenZ p -> at_ + lenZ p <= cap /\ d' ≡m mem_write d at_ p) F.
Proof.
  intros Hat Hp HR w Hco Hd. pose proof (proj1 Hco) as Hc.
  unfold bind, cache_invalidate, modify, call_write. simpl.
  set (e := dk_invalidate (fs_env w)).
  assert (Hcl : dk_clean (rd := rd) (wr := wr) (cap := cap) e) by by apply dk_invalidate_clean.
  assert (Hde : dk_data (rd := rd) (wr := wr) (cap := cap) e ≡m d)
    by (unfold e; by rewrite dk_invalidate_data).
  pose proof (dk_write_frame e at_ p Hcl Hat Hp) as HF.
  pose proof (dk_write_ok e at_ p Hcl Hat Hp) as HO.
  destruct (dk_write wr at_ p e) as [r e']. destruct HF as [Hcl' Hfr]. simpl.
  split_and!.
  - by apply (fs_coh_env e' w), dk_clean_coh.
  - intros a Ha. unfold fs_data. simpl. rewrite Hfr; [apply Hde|].
    destruct (Z.lt_ge_cases (a / 512) (at_ / 512)); [by left|right].
    destruct (Z.lt_ge_cases ((at_ + lenZ p - 1) / 512) (a / 512)); [done|].
    exfalso. apply Ha, HR. unfold sectors. lia.
  - intros Hr. destruct (HO Hr) as [? Hm]. split; [done|]. unfold fs_data. simpl.
    rewrite Hm. by rewrite Hde.
Qed.

(** [store], and the same sequence in timestamp.c and write.c. *)
Lemma writes_through (R : region) d at_ p n (F : Z -> Prop) :
  0 <= at_ -> Forall is_byte p -> (forall a, sectors at_ (lenZ p) a -> R a) ->
  F (- CP32_SUPER_IO) -> n = lenZ p ->
  writes R d (cache_invalidate ;;; r <- call_write wr at_ p ;; cache_invalidate ;;;
              if r =? n then ret tt else fail (- CP32_SUPER_IO))
    (fun _ d' => at_ + lenZ p <= cap /\ d' ≡m mem_write d at_ p) F.
Proof.
  intros Hat Hp HR HF ->.
  eapply (writes_ext _ _ _ (r <- (cache_invalidate ;;; call_write wr at_ p) ;;
    cache_invalidate ;;; (if r =? lenZ p then ret tt else fail (- CP32_SUPER_IO))));
    [reflexivity|].
  eapply writes_bind; [by apply (writes_call_write R d at_ p F)|]. intros r d1 _ H1.
  eapply writes_bind; [apply writes_invalidate|]. intros [] d2 _ H2.
  destruct (Z.eqb_spec r (lenZ p)) as [Hr|]; [|by apply writes_fail].
  apply writes_ret. intros d3 H3. destruct (H1 Hr) as [? Hm]. split; [done|].
  by rewrite H3, H2.
Qed.

Lemma writes_store (R : region) d at_ p (F : Z -> Prop) :
  0 <= at_ -> Forall is_byte p -> (forall a, sectors at_ (lenZ p) a -> R a) ->
  F (- CP32_SUPER_IO) ->
  writes R d (store wr at_ p)
    (fun _ d' => at_ + lenZ p <= cap /\ d' ≡m mem_write d at_ p) F.
Proof.
  intros. by apply writes_through.
Qed.

End Frames.

(** One step of a [reads] proof along the code. *)
Ltac reads_step :=
  match goal with
  | |- reads _ _ (ret _) _ _ => apply reads_ret
  | |- reads _ _ (fail _) _ _ => apply reads_fail
  | |- reads _ _ (guard _ _) _ _ => apply reads_guard; intros ?
  | |- reads _ _ (if ?b then _ else _) _ _ => destruct b eqn:?
  | |- reads _ _ (read_or _ _ _ _) _ _ => apply reads_read_or; [lia|intros ?|intros ? ?]
  | |- reads _ _ cache_invalidate _ _ => apply reads_invalidate
  end.
