(* ===== verification/MemDisk.v ===== *)
(** * A volume in memory

    The simplest storage that satisfies [DiskSpec]: a byte array of [md_cap]
    bytes without a cache, as the host tests under src/tests/fs use it, that
    can be told to refuse every write.  The witnesses run on it; the storage
    the firmware uses is proved to satisfy the same interface in Storage. *)
From S2P Require Import Prelude Codec FsTypes.

Record memdisk := MemDisk { md_bytes : mem; md_cap : Z; md_readonly : bool; md_now : Z }.

Definition MD_READ : fptr := 1.
Definition MD_WRITE : fptr := 2.
Definition MD_CLOCK : fptr := 3.

Definition md_read (f : fptr) (off n : Z) (e : memdisk) : (Z * list Z) * memdisk :=
  if (0 <=? off) && (0 <? n) && (off + n <=? md_cap e)
  then ((n, map wrap8 (mem_read (md_bytes e) off n)), e) else ((-1, []), e).

Definition md_write (f : fptr) (off : Z) (bs : list Z) (e : memdisk) : Z * memdisk :=
  if negb (md_readonly e) && (0 <=? off) && (off + lenZ bs <=? md_cap e)
  then (lenZ bs, MemDisk (mem_write (md_bytes e) off bs) (md_cap e) false (md_now e))
  else (-1, e).

#[export] Instance memdisk_disk : Disk memdisk := {
  dk_read := md_read;
  dk_write := md_write;
  dk_clock := fun _ e => ((0, wrap32 (md_now e)), e);
  dk_invalidate := fun e => e }.

Definition md_data (e : memdisk) : mem := fun a => wrap8 (md_bytes e a).

Lemma map_wrap8_mem_read m off n :
  map wrap8 (mem_read m off n) = mem_read (fun a => wrap8 (m a)) off n.
Proof. unfold mem_read. by rewrite map_map. Qed.

Lemma wrap8_small x : is_byte x -> wrap8 x = x.
Proof. intros. unfold wrap8. by apply Z.mod_small. Qed.

Lemma wrap8_mem_write m off bs :
  Forall is_byte bs -> (fun a => wrap8 (mem_write m off bs a)) ≡m
                       mem_write (fun a => wrap8 (m a)) off bs.
Proof.
  intros HF a. unfold mem_write. destruct (in_range off (lenZ bs) a) eqn:Hr; [|done].
  apply in_range_spec in Hr. apply wrap8_small. apply nthZ_Forall; [done|lia].
Qed.

(** A storage whose capacity is [cap]. *)
#[export] Program Instance memdisk_spec (cap : Z) :
  DiskSpec memdisk MD_READ MD_WRITE cap := {
    dk_data := md_data;
    dk_coh := fun e => md_cap e = cap;
    dk_clean := fun e => md_cap e = cap }.
Next Obligation. done. Qed.
Next Obligation. intros. apply wrap8_range. Qed.
Next Obligation. done. Qed.
Next Obligation. done. Qed.
Next Obligation. intros cap e off n <-. simpl. unfold md_read. by destruct (_ && _). Qed.
Next Obligation.
  intros cap e off n <- Hn. simpl. unfold md_read. destruct (_ && _) eqn:Hr; [|lia].
  intros _. split_and!; [lia..|]. apply map_wrap8_mem_read.
Qed.
Next Obligation.
  intros cap e off bs <- Hoff HF. simpl. unfold md_write. destruct (_ && _) eqn:Hr; simpl.
  - split; [done|]. intros a Ha. unfold md_data. simpl. rewrite mem_write_out; [done|].
    destruct (Z.lt_ge_cases a off); [by left|right].
    destruct Ha as [Ha|Ha]; Z.div_mod_to_equations; lia.
  - done.
Qed.
Next Obligation.
  intros cap e off bs <- Hoff HF. simpl. unfold md_write. destruct (_ && _) eqn:Hr; simpl.
  - intros _. split; [lia|]. unfold md_data. simpl. by apply wrap8_mem_write.
  - pose proof (lenZ_nonneg bs). lia.
Qed.
Next Obligation. done. Qed.
Next Obligation. intros. apply wrap32_range. Qed.

(** Building images: consecutive stores into a zeroed volume. *)
Definition image (chunks : list (Z * list Z)) : mem :=
  fold_left (fun m '(at_, bs) => mem_write m at_ bs) chunks (fun _ => 0).
Definition memdisk_of (cap : Z) (chunks : list (Z * list Z)) : memdisk :=
  MemDisk (image chunks) cap false 1000.

(** ** A demonstration volume

    64 one-kilobyte zones in the layout of src/tools/make_minix_demo.py: boot and
    super block, one inode-map block, one zone-map block, 32 inodes in blocks 4
    and 5, data zones from 6.  Inode 1 is the root (zone 6) with "README"
    (inode 2, zone 7, 12 bytes) and the directory "docs" (inode 3, zone 8),
    which holds the file "a" (inode 4, zones 9 and the hole 0, 1030 bytes). *)
Module Demo.
Definition sw : Z := 0.
Definition super_bytes : list Z :=
  put16 (put32 (put32 (put16 (put16 (put16 (put16 (put16 (replicate 24 0)
    0 32 sw) 4 1 sw) 6 1 sw) 8 6 sw) 10 0 sw) 12 269312 sw) 20 64 sw) 16 0x2468 sw.

Definition inode (mode links size : Z) (zones : list Z) : list Z :=
  snd (fold_left (fun '(k, raw) z => (k + 4, put32 raw k z sw)) zones
    (24, put32 (put16 (put16 (replicate 64 0) 0 mode sw) 2 links sw) 8 size sw)).

Definition entry (ino : Z) (name : list Z) : list Z :=
  splice (put16 (replicate 16 0) 0 ino sw) 2 name.

Definition dot := [46].
Definition dotdot := [46; 46].
Definition README := [82; 69; 65; 68; 77; 69].
Definition docs := [100; 111; 99; 115].
Definition a := [97].

Definition volume : list (Z * list Z) :=
  [(1024, super_bytes);
   (2048, [31; 0]);                       (* inodes 1-4 and the reserved bit *)
   (3072, [31; 0]);                       (* zones 6-9 and the reserved bit *)
   (4096, inode 16877 3 64 [6]);
   (4160, inode 33188 1 12 [7]);
   (4224, inode 16877 2 48 [8]);
   (4288, inode 33188 1 1030 [9; 0]);
   (6144, entry 1 dot ++ entry 1 dotdot ++ entry 2 README ++ entry 3 docs);
   (7168, [72; 101; 108; 108; 111; 44; 32; 67; 80; 51; 50; 10]);
   (8192, entry 3 dot ++ entry 1 dotdot ++ entry 4 a);
   (9216, replicate 1024 120)].

Definition disk : memdisk := memdisk_of 65536 volume.
Definition state : fsw memdisk := boot_fsw disk.
Definition super : cp32_minix_super := Super 32 64 6 0 269312 1 1 0.
End Demo.
