(* ===== verification/FdTable.v ===== *)
(** * Open-file tables: the accessors of src/src/fs/filedes.c

    The inode layer asks whether an inode is open, so the accessors of the
    descriptor tables come first; the descriptor operations are in Filedes. *)
From S2P Require Import Prelude Codec FsTypes.

Definition file_at (t : fdtab) (slot : Z) : cp32_minix_file :=
  nth (Z.to_nat slot) (t_files t) empty_file.

(** [static struct cp32_minix_file *get_file(int fd)]: the table slot the
    pointer designates, [None] for the null pointer. *)
Definition get_file (t : fdtab) (fd : Z) : option Z :=
  if (fd <? 0) || (CP32_OPEN_MAX <=? fd) || (nthZ (t_descriptors t) fd =? 0) then None
  else Some (nthZ (t_descriptors t) fd - 1).

(** [const struct cp32_minix_file *cp32_fd_file(int fd)] *)
Definition cp32_fd_file (t : fdtab) (fd : Z) : option Z := get_file t fd.

(** The slots of the loops over [CP32_OPEN_MAX]. *)
Definition slots : list Z := [0; 1; 2; 3; 4; 5; 6; 7].

(** [references[i] && files[i].read==read && files[i].inode==number] *)
Definition slot_matches (t : fdtab) (read : fptr) (number i : Z) : bool :=
  truthy (nthZ (t_references t) i) && (f_read (file_at t i) =? read) &&
  (f_inode (file_at t i) =? number).

(** [int cp32_fd_inode_open(read, number)] *)
Definition cp32_fd_inode_open (t : fdtab) (read : fptr) (number : Z) : Z :=
  fold_left (fun n i => if slot_matches t read number i then n +u nthZ (t_references t) i else n)
    slots 0.

(** [int cp32_fd_defer_unlink(read, write, number)]: the count and the tables. *)
Definition cp32_fd_defer_unlink (t : fdtab) (read write : fptr) (number : Z) : Z * fdtab :=
  (cp32_fd_inode_open t read number,
   fold_left (fun t i =>
     if slot_matches t read number i
     then Fdtab (t_files t) (t_references t) (t_directories t) (t_descriptors t)
            (t_descriptor_flags t) (t_status_flags t) (updZ (t_writers t) i write)
            (updZ (t_pending_unlink t) i 1)
     else t) slots t).
