(* ===== verification/Timestamp.v ===== *)
(** * Inode timestamps: src/src/fs/timestamp.c

    The mounted device and the clock are bound once; for other readers, and
    without a writer or clock, stamping does nothing. *)
From S2P Require Import Prelude Codec FsTypes MemDisk.

Section Timestamp.
Context {E : Type} `{DSK : Disk E}.
Abbreviation FM := (M (fsw E)).

(** [void cp32_fs_time_bind(read, write, clock)] *)
Definition cp32_fs_time_bind (read write clock : fptr) : FM unit :=
  modify (set_time read write clock).

(** [read!=time_reader || !time_writer || !time_clock] *)
Definition time_off (read : fptr) (w : fsw E) : bool :=
  (read !=? fs_time_reader w) || (fs_time_writer w =? 0) || (fs_time_clock w =? 0).

(** The bound writer, when stamping is on for [read]; the statics do not change
    while a stamp is made. *)
Definition time_binding (read : fptr) (w : fsw E) : option fptr :=
  if time_off read w then None else Some (fs_time_writer w).

(** The inner loop over [j]: four bytes of [now] in disk order at [at_]. *)
Definition put_time (raw : list Z) (at_ now swapped : Z) : list Z :=
  fold_left (fun raw j =>
    updZ raw (at_ + j) (wrap8 (Z.shiftr now (8 * (if truthy swapped then 3 - j else j)))))
    [0; 1; 2; 3] raw.

(** The outer loop over [i]: the fields selected by [mask]. *)
Definition put_times (raw : list Z) (at_ now swapped mask : Z) : list Z :=
  fold_left (fun raw i =>
    if truthy (Z.land mask (1 <<u i)) then put_time raw (at_ + 4 * i) now swapped else raw)
    [0; 1; 2] raw.

(** [int cp32_fs_stamp(read, raw + at_, swapped, mask)]: the updated buffer. *)
Definition cp32_fs_stamp (read : fptr) (raw : list Z) (at_ swapped mask : Z)
  : FM (list Z) :=
  off <- gets (time_off read) ;;
  if (off : bool) then ret raw else
  c <- gets fs_time_clock ;;
  t <- call_clock c ;;
  guard (truthy (fst t) || (0x7fffffff <? snd t)) (- CP32_SUPER_IO) ;;;
  ret (put_times raw at_ (snd t) swapped mask).

(** [int cp32_fs_inode_time(read, super, number, mask)] *)
Definition cp32_fs_inode_time (read : fptr) (super : cp32_minix_super) (number mask : Z)
  : FM unit :=
  b <- gets (time_binding read) ;;
  match b with None => ret tt | Some wr =>
  let at_ := (2 +u s_imap_blocks super +u s_zmap_blocks super) *u 1024 +u
             (number -u 1) *u 64 +u 12 in
  raw <- read_or (- CP32_SUPER_IO) read at_ 12 ;;
  let previous i := cp32_fs_u32 (ptr_add raw (4 * i)) (s_swapped super) in
  raw' <- cp32_fs_stamp read raw 0 (s_swapped super) mask ;;
  let same i := cp32_fs_u32 (ptr_add raw' (4 * i)) (s_swapped super) =? previous i in
  if same 0 && same 1 && same 2 then ret tt else
  cache_invalidate ;;;
  r <- call_write wr at_ raw' ;;
  cache_invalidate ;;;
  if r =? 12 then ret tt else fail (- CP32_SUPER_IO)
  end.

(** [int cp32_fs_data_time(file, mask)] *)
Definition cp32_fs_data_time (file : cp32_minix_file) (mask : Z) : FM unit :=
  cp32_fs_inode_time (f_read file) (f_super file) (f_inode file) mask.
End Timestamp.

(** ** The stored form of a time *)

Lemma updZ_comm {A} (l : list A) i j x y :
  0 <= i -> 0 <= j -> i <> j -> updZ (updZ l i x) j y = updZ (updZ l j y) i x.
Proof. intros. unfold updZ. apply list_insert_insert_ne. lia. Qed.

(** The byte loop stores exactly what [put32] stores. *)
Lemma put_time_put32 raw at_ now swap :
  0 <= at_ -> put_time raw at_ now swap = put32 raw at_ now swap.
Proof.
  intros Hat. unfold put_time, put32, put16. simpl fold_left.
  destruct (truthy swap); rewrite ?Z.shiftr_shiftr by lia.
  - change (8 * (3 - 0)) with 24. change (8 * (3 - 1)) with 16. change (8 * (3 - 2)) with 8.
    change (8 * (3 - 3)) with 0. change (16 + 8) with 24. rewrite Z.shiftr_0_r.
    rewrite (updZ_comm raw (at_ + 0)), <- !Z.add_assoc by lia.
    change (2 + 1) with 3. change (2 + 0) with 2. by rewrite (updZ_comm _ (at_ + 2)) by lia.
  - rewrite Z.shiftr_0_r, <- !Z.add_assoc. done.
Qed.

Lemma mask_bit mask i : 0 <= i < 32 -> truthy (Z.land mask (1 <<u i)) = Z.testbit mask i.
Proof.
  intros Hi. rewrite Z.shiftl_mul_pow2, Z.mul_1_l, wrap32_small by lia || (split; [lia|];
    change 4294967296 with (2 ^ 32); apply Z.pow_lt_mono_r; lia).
  apply land_pow_testbit. lia.
Qed.

(** [put_times] as three conditional stores. *)
Definition put_field (raw : list Z) (at_ now swap mask i : Z) : list Z :=
  if Z.testbit mask i then put32 raw (at_ + 4 * i) now swap else raw.

Lemma put_times_fields raw at_ now swap mask :
  0 <= at_ -> put_times raw at_ now swap mask =
  put_field (put_field (put_field raw at_ now swap mask 0) at_ now swap mask 1)
            at_ now swap mask 2.
Proof.
  intros Hat. unfold put_times, put_field. simpl fold_left.
  by rewrite !mask_bit, !put_time_put32 by lia.
Qed.

Lemma lenZ_put_field raw at_ now swap mask i :
  lenZ (put_field raw at_ now swap mask i) = lenZ raw.
Proof. unfold put_field. destruct Z.testbit; [apply lenZ_put32|done]. Qed.

Lemma put_times_spec raw at_ now swap mask :
  0 <= at_ -> at_ + 12 <= lenZ raw -> is_u32 now ->
  let raw' := put_times raw at_ now swap mask in
  lenZ raw' = lenZ raw /\
  (forall i, 0 <= i < 3 -> cp32_fs_u32 (ptr_add raw' (at_ + 4 * i)) swap =
     if Z.testbit mask i then now else cp32_fs_u32 (ptr_add raw (at_ + 4 * i)) swap) /\
  (forall k, 0 <= k -> k < at_ \/ at_ + 12 <= k -> nthZ raw' k = nthZ raw k).
Proof.
  intros Hat Hlen Hnow raw'. unfold is_u32 in Hnow. subst raw'.
  rewrite put_times_fields by done. split; [by rewrite !lenZ_put_field|]. split.
  - intros i Hi. unfold put_field.
    assert (i = 0 \/ i = 1 \/ i = 2) as Hc by lia. destruct Hc as [->|[->| ->]].
    all: destruct (Z.testbit mask 0), (Z.testbit mask 1), (Z.testbit mask 2).
    all: repeat first
      [ rewrite u32_put32_ne by lia
      | rewrite u32_put32 by (rewrite ?lenZ_put32; lia) | done ].
  - intros k Hk Ho. unfold put_field.
    destruct (Z.testbit mask 0), (Z.testbit mask 1), (Z.testbit mask 2);
      rewrite ?nthZ_put32_out by lia; done.
Qed.

Lemma put_times_Forall raw at_ now swap mask :
  0 <= at_ -> Forall is_byte raw -> Forall is_byte (put_times raw at_ now swap mask).
Proof.
  intros Hat Hr. rewrite put_times_fields by done. unfold put_field.
  repeat case_match; repeat apply put32_Forall; done.
Qed.

Section TimestampProofs.
Context {E : Type} `{DSK : Disk E} {rd wr : fptr} {cap : Z} `{SPEC : !DiskSpec E rd wr cap}.

(** What a stamp leaves in the buffer: the selected fields hold one time [now]
    that fits the signed disk field, and nothing else has changed. *)
Definition stamped (raw raw' : list Z) (at_ swap mask : Z) : Prop :=
  raw' = raw \/
  exists now, 0 <= now <= 0x7fffffff /\ raw' = put_times raw at_ now swap mask.

Lemma stamp_reads d t (r : fptr) raw at_ swap mask :
  reads (rd := rd) (wr := wr) (cap := cap) d t (cp32_fs_stamp r raw at_ swap mask)
    (fun raw' => stamped raw raw' at_ swap mask) (fun e => e = - CP32_SUPER_IO).
Proof.
  intros w (Hc & Hd & Ht). unfold cp32_fs_stamp, bind, gets.
  destruct (time_off r w); [split; [done|by left]|]. unfold call_clock.
  destruct (dk_clock_frame (fs_time_clock w) (fs_env w)) as [Hdat Hcoh].
  pose proof (dk_clock_u32 (rd := rd) (wr := wr) (cap := cap) (fs_time_clock w) (fs_env w)) as Hn.
  destruct (dk_clock (fs_time_clock w) (fs_env w)) as [[s now] e']. simpl in *.
  assert (at_data (rd := rd) (wr := wr) (cap := cap) d t (set_env e' w)).
  { split; [by apply fs_coh_env; [|apply Hcoh, Hc]|]. split; [|done].
    unfold fs_data in *. simpl. by rewrite Hdat. }
  destruct (truthy s || (0x7fffffff <? now)) eqn:Hb; simpl; [done|].
  unfold is_u32 in Hn. split; [done|]. right. exists now. split; [|done]. lia.
Qed.

(** A stamp stores the clock's time, as one signed 32-bit value in disk order,
    in exactly the fields its mask selects; every other field and every byte
    outside the time tuple keeps its value, and an unbound clock changes
    nothing. *)
Theorem stamp_fields w (r : fptr) raw at_ swap mask :
  fs_coh (rd := rd) (wr := wr) (cap := cap) w ->
  0 <= at_ -> at_ + 12 <= lenZ raw ->
  match cp32_fs_stamp r raw at_ swap mask w with
  | (Ok raw', w') =>
      fs_data (rd := rd) (wr := wr) (cap := cap) w' ≡m
        fs_data (rd := rd) (wr := wr) (cap := cap) w /\
      lenZ raw' = lenZ raw /\
      (forall k, 0 <= k -> k < at_ \/ at_ + 12 <= k -> nthZ raw' k = nthZ raw k) /\
      (raw' = raw \/ exists now, 0 <= now <= 0x7fffffff /\
         forall i, 0 <= i < 3 ->
           cp32_fs_u32 (ptr_add raw' (at_ + 4 * i)) swap =
           if Z.testbit mask i then now else cp32_fs_u32 (ptr_add raw (at_ + 4 * i)) swap)
  | (Err e, _) => e = - CP32_SUPER_IO
  end.
Proof.
  intros Hw Hat Hlen.
  pose proof (reads_run w _ _ _ (stamp_reads _ _ r raw at_ swap mask) Hw) as H.
  destruct (cp32_fs_stamp r raw at_ swap mask w) as [[e|raw'] w']; [apply H|].
  destruct H as [(_ & Hd & _) [->|(now & Hnow & ->)]]; split_and!; auto.
  - apply put_times_spec; done || (unfold is_u32; lia).
  - intros. by apply put_times_spec; try (done || (unfold is_u32; lia)).
  - right. exists now. split; [done|]. by apply put_times_spec; try (done || (unfold is_u32; lia)).
Qed.
End TimestampProofs.

(** ** Witness: the demonstration volume with its clock at 1000 *)
Definition clocked : fsw memdisk := set_time MD_READ MD_WRITE MD_CLOCK Demo.state.

Lemma clocked_coh : fs_coh (rd := MD_READ) (wr := MD_WRITE) (cap := 65536) clocked.
Proof. split; [reflexivity|]. intros _. by right. Qed.

Lemma demo_stamp :
  fst (cp32_fs_stamp MD_READ (replicate 12 7) 0 1 5 clocked) =
  Ok [0; 0; 3; 232; 7; 7; 7; 7; 0; 0; 3; 232].
Proof. vm_compute. reflexivity. Qed.

Lemma stamp_fields_witness :
  lenZ [0; 0; 3; 232; 7; 7; 7; 7; 0; 0; 3; 232] = 12.
Proof.
  pose proof (stamp_fields (rd := MD_READ) (wr := MD_WRITE) (cap := 65536)
    clocked MD_READ (replicate 12 7) 0 1 5 clocked_coh ltac:(lia) ltac:(vm_compute; congruence)) as H.
  rewrite (run_ok _ _ _ demo_stamp) in H. apply H.
Defined.
