(* ===== verification/Super.v ===== *)
(** * Superblock and allocation maps: src/src/fs/super.c *)
From S2P Require Import Prelude Codec FsTypes MemDisk.

Section Super.
Context {E : Type} `{DSK : Disk E}.
Abbreviation FM := (M (fsw E)).

(** [if (r) return -r;] for the superblock reader, whose statuses are positive. *)
Definition negated {A} (c : FM A) : FM A :=
  fun w => match c w with (Err e, w') => (Err (- e), w') | x => x end.

Definition cp32_minix_super_read (read : fptr) (capacity out : Z) : FM cp32_minix_super :=
  guard ((read =? 0) || (out =? 0) || (capacity <? 2048)) CP32_SUPER_INVALID ;;;
  bytes <- read_or CP32_SUPER_IO read 1024 24 ;;
  let magic := cp32_fs_u16 (ptr_add bytes 16) 0 in
  guard ((magic =? 0x137f) || (magic =? 0x7f13)) CP32_SUPER_UNSUPPORTED ;;;
  guard ((magic !=? 0x2468) && (magic !=? 0x6824)) CP32_SUPER_ABSENT ;;;
  let swapped := of_bool (magic =? 0x6824) in
  let s := {| s_swapped := swapped;
              s_ninodes := cp32_fs_u16 bytes swapped;
              s_imap_blocks := cp32_fs_u16 (ptr_add bytes 4) swapped;
              s_zmap_blocks := cp32_fs_u16 (ptr_add bytes 6) swapped;
              s_first_data_zone := cp32_fs_u16 (ptr_add bytes 8) swapped;
              s_log_zone_size := cp32_fs_u16 (ptr_add bytes 10) swapped;
              s_max_size := cp32_fs_u32 (ptr_add bytes 12) swapped;
              s_zones := cp32_fs_u32 (ptr_add bytes 20) swapped |} in
  guard ((s_ninodes s =? 0) || (s_imap_blocks s =? 0) || (s_zmap_blocks s =? 0) ||
         (32767 <? s_imap_blocks s) || (32767 <? s_zmap_blocks s) ||
         (4 <? s_log_zone_size s) || (s_max_size s =? 0) || (0x7fffffff <? s_max_size s))
        CP32_SUPER_INVALID ;;;
  let zone_blocks := 1 <<u s_log_zone_size s in
  guard ((capacity / 1024 / zone_blocks <? s_zones s) || (s_zones s <=? s_first_data_zone s))
        CP32_SUPER_INVALID ;;;
  let metadata_blocks := 2 +u s_imap_blocks s +u s_zmap_blocks s +u (s_ninodes s +u 15) / 16 in
  guard ((s_first_data_zone s *u zone_blocks <? metadata_blocks) ||
         (s_imap_blocks s *u 8192 <? s_ninodes s +u 1) ||
         (s_zmap_blocks s *u 8192 <? s_zones s -u s_first_data_zone s +u 1))
        CP32_SUPER_INVALID ;;;
  ret s.

Definition cp32_fs_allocated (read : fptr) (map_ bit swap : Z) : FM unit :=
  word <- read_or (- CP32_SUPER_IO) read (map_ +u bit / 16 *u 2) 2 ;;
  if truthy (Z.land (cp32_fs_u16 word swap) (bit_of bit)) then ret tt
  else fail (- CP32_SUPER_INVALID).

(** The loop state is [word] and [free]. *)
Definition count_free (read : fptr) (map_ last swap : Z) : FM Z :=
  r <- for_ (Z.to_nat last) 1
    (fun bit '(word, free) =>
       word <- (if (bit =? 1) || (bit mod 16 =? 0)
                then raw <- read_or (- CP32_SUPER_IO) read (map_ +u bit / 16 *u 2) 2 ;;
                     ret (cp32_fs_u16 raw swap)
                else ret word) ;;
       ret (word, if truthy (Z.land word (bit_of bit)) then free else free +u 1))
    (0, 0) ;;
  ret (snd r).

Definition cp32_minix_space_read (read : fptr) (capacity out : Z) : FM cp32_minix_space :=
  guard (out =? 0) (- CP32_SUPER_INVALID) ;;;
  cache_invalidate ;;;
  s <- negated (cp32_minix_super_read read capacity nonnull) ;;
  let zone_size := 1024 <<u s_log_zone_size s in
  let zones := s_zones s -u s_first_data_zone s in
  free_inodes <- count_free read 2048 (s_ninodes s) (s_swapped s) ;;
  free_zones <- count_free read ((2 +u s_imap_blocks s) *u 1024) zones (s_swapped s) ;;
  ret {| sp_zone_size := zone_size; sp_zones := zones; sp_free_zones := free_zones;
         sp_inodes := s_ninodes s; sp_free_inodes := free_inodes; sp_name_max := 14 |}.
End Super.

(** ** Geometry

    What an accepted superblock guarantees about a volume of [cap] bytes: the
    boot and super blocks, both maps and the inode table lie below the first
    data zone, every zone lies inside the volume, and every inode and data zone
    has a map bit. *)
Definition zone_blocks (s : cp32_minix_super) : Z := 2 ^ s_log_zone_size s.
Definition zone_bytes (s : cp32_minix_super) : Z := 1024 * zone_blocks s.
Definition imap_at : Z := 2048.
Definition zmap_at (s : cp32_minix_super) : Z := (2 + s_imap_blocks s) * 1024.
Definition itable_at (s : cp32_minix_super) : Z :=
  (2 + s_imap_blocks s + s_zmap_blocks s) * 1024.
Definition inode_at (s : cp32_minix_super) (n : Z) : Z := itable_at s + (n - 1) * 64.
Definition data_at (s : cp32_minix_super) : Z := s_first_data_zone s * zone_bytes s.
Definition data_zone (s : cp32_minix_super) (z : Z) : Prop :=
  s_first_data_zone s <= z < s_zones s.

Record super_wf (cap : Z) (s : cp32_minix_super) : Prop := {
  wf_swapped : s_swapped s = 0 \/ s_swapped s = 1;
  wf_ninodes : 1 <= s_ninodes s <= 65535;
  wf_imap : 1 <= s_imap_blocks s <= 32767;
  wf_zmap : 1 <= s_zmap_blocks s <= 32767;
  wf_log : 0 <= s_log_zone_size s <= 4;
  wf_max_size : 1 <= s_max_size s <= 2147483647;
  wf_first : 0 <= s_first_data_zone s < s_zones s;
  wf_first_u16 : s_first_data_zone s <= 65535;
  wf_zones : s_zones s * zone_bytes s <= cap;
  wf_meta : itable_at s + (s_ninodes s + 15) / 16 * 1024 <= data_at s;
  wf_imap_bits : s_ninodes s + 1 <= s_imap_blocks s * 8192;
  wf_zmap_bits : s_zones s - s_first_data_zone s + 1 <= s_zmap_blocks s * 8192 }.

(** What the superblock of a volume says. *)
Definition super_magic (d : mem) : Z := cp32_fs_u16 (ptr_add (mem_read d 1024 24) 16) 0.
Definition super_of (d : mem) : cp32_minix_super :=
  let bytes := mem_read d 1024 24 in
  let swapped := of_bool (super_magic d =? 0x6824) in
  {| s_swapped := swapped;
     s_ninodes := cp32_fs_u16 bytes swapped;
     s_imap_blocks := cp32_fs_u16 (ptr_add bytes 4) swapped;
     s_zmap_blocks := cp32_fs_u16 (ptr_add bytes 6) swapped;
     s_first_data_zone := cp32_fs_u16 (ptr_add bytes 8) swapped;
     s_log_zone_size := cp32_fs_u16 (ptr_add bytes 10) swapped;
     s_max_size := cp32_fs_u32 (ptr_add bytes 12) swapped;
     s_zones := cp32_fs_u32 (ptr_add bytes 20) swapped |}.
Definition volume_ok (capacity : Z) (d : mem) : Prop :=
  (super_magic d = 0x2468 \/ super_magic d = 0x6824) /\ super_wf capacity (super_of d).

Definition super_statuses (e : Z) : Prop :=
  e = CP32_SUPER_ABSENT \/ e = CP32_SUPER_UNSUPPORTED \/ e = CP32_SUPER_INVALID \/
  e = CP32_SUPER_IO.

(** Bits of an allocation map stored at [map_]. *)
Definition map_word (d : mem) (map_ bit swap : Z) : Z :=
  cp32_fs_u16 (mem_read d (map_ +u bit / 16 *u 2) 2) swap.
Definition map_bit (d : mem) (map_ bit swap : Z) : bool :=
  Z.testbit (map_word d map_ bit swap) (bit mod 16).

(** The number of clear bits among [first], ..., [first + n - 1]. *)
Fixpoint clear_bits (d : mem) (map_ swap first : Z) (n : nat) : Z :=
  match n with
  | O => 0
  | S n => clear_bits d map_ swap first n +
           (if map_bit d map_ (first + Z.of_nat n) swap then 0 else 1)
  end.

Lemma zone_blocks_range s : 0 <= s_log_zone_size s <= 4 -> 1 <= zone_blocks s <= 16.
Proof.
  intros H. unfold zone_blocks.
  assert (s_log_zone_size s = 0 \/ s_log_zone_size s = 1 \/ s_log_zone_size s = 2 \/
          s_log_zone_size s = 3 \/ s_log_zone_size s = 4) as HI by lia.
  destruct HI as [->|[->|[->|[->| ->]]]]; simpl; lia.
Qed.

Lemma zone_bytes_range s : 0 <= s_log_zone_size s <= 4 -> 1024 <= zone_bytes s <= 16384.
Proof. intros H%zone_blocks_range. unfold zone_bytes. lia. Qed.

Lemma zone_bytes_shift s :
  0 <= s_log_zone_size s <= 4 -> 1024 <<u s_log_zone_size s = zone_bytes s.
Proof.
  intros H. pose proof (zone_bytes_range s H). rewrite Z.shiftl_mul_pow2 by lia.
  change (1024 * 2 ^ s_log_zone_size s) with (zone_bytes s). apply wrap32_small. lia.
Qed.

(** The constant parts of a geometry as linear facts. *)
Ltac geometry H :=
  let Hz := fresh "Hzb" in
  pose proof (zone_bytes_range _ (wf_log _ _ H)) as Hz;
  destruct (H) as [? ? ? ? ? ? ? ? ? ? ? ?];
  unfold inode_at, itable_at, data_at, zmap_at, imap_at, data_zone in *.

Section SuperProofs.
Context {E : Type} `{DSK : Disk E} {rd wr : fptr} {cap : Z} `{SPEC : !DiskSpec E rd wr cap}.

Lemma reads_negated {A} d t (c : M (fsw E) A) (Q : A -> Prop) (R : Z -> Prop) :
  reads d t c Q (fun e => R (- e)) ->
  reads d t (negated c) Q R.
Proof.
  intros H w Hw. specialize (H w Hw). unfold negated.
  destruct (c w) as [[e|a] w']; exact H.
Qed.

Lemma mem_byte d t (w : fsw E) a : at_data d t w -> is_byte (d a).
Proof. intros (_ & Hd & _). rewrite <- (Hd a). apply dk_data_byte. Qed.

Lemma mem_read_byte d o n i :
  (forall a, is_byte (d a)) -> 0 <= i < n -> is_byte (nthZ (mem_read d o n) i).
Proof. intros Hb Hi. rewrite nthZ_mem_read by done. apply Hb. Qed.

Lemma Forall_mem_read d o n : (forall a, is_byte (d a)) -> Forall is_byte (mem_read d o n).
Proof. intros Hb. apply Forall_map, Forall_forall. intros. apply Hb. Qed.

(** The volume is refused with one of the four statuses, and only for cause. *)
Definition volume_refused (d : mem) (capacity out e : Z) : Prop :=
  super_statuses e /\
  (reliable (rd := rd) (wr := wr) (cap := cap) -> capacity <= cap -> rd <> 0 -> out <> 0 ->
   ~ volume_ok capacity d).

Lemma super_of_range d :
  (forall a, is_byte (d a)) -> let s := super_of d in
  0 <= s_ninodes s < 65536 /\ 0 <= s_imap_blocks s < 65536 /\
  0 <= s_zmap_blocks s < 65536 /\ 0 <= s_first_data_zone s < 65536 /\
  0 <= s_log_zone_size s < 65536 /\ is_u32 (s_max_size s) /\ is_u32 (s_zones s) /\
  (s_swapped s = 0 \/ s_swapped s = 1).
Proof.
  intros Hb s. subst s. unfold super_of. cbv zeta. simpl.
  split_and!; try (apply u16_range || apply u32_range);
    rewrite ?nthZ_ptr_add by lia; try (apply mem_read_byte; done || lia).
  unfold of_bool. destruct (_ =? _); auto.
Qed.

Lemma super_read_reads d t capacity out :
  (forall a, is_byte (d a)) -> 0 <= capacity < 4294967296 ->
  reads d t (cp32_minix_super_read rd capacity out)
    (fun s => s = super_of d /\ volume_ok capacity d) (volume_refused d capacity out).
Proof.
  intros Hb Hcap. unfold cp32_minix_super_read, volume_refused, super_statuses.
  assert (Hmin : volume_ok capacity d -> 2048 <= capacity).
  { intros [_ Hw]. clear - Hw. set (s := super_of d) in *. clearbody s. geometry Hw.
    assert (s_first_data_zone s * zone_bytes s <= s_zones s * zone_bytes s)
      by (apply Z.mul_le_mono_nonneg_r; lia).
    pose proof (Z.div_pos (s_ninodes s + 15) 16). lia. }
  eapply reads_bind with (Q' := fun _ => 2048 <= capacity);
    [reads_step; [split; [auto|intros; intros ?%Hmin; lia]|lia]|].
  intros _ H2048. eapply reads_bind with (Q' := fun bytes => bytes = mem_read d 1024 24).
  { reads_step; [|done]. split; [auto|]. intros Hrel ???.
    match goal with H : _ -> _ \/ _ |- _ => specialize (H Hrel) end. lia. }
  intros bytes ->. cbv zeta. fold (super_magic d). pose proof (super_of_range d Hb) as Hr.
  eapply reads_bind with (Q' := fun _ => True);
    [reads_step; [split; [auto|intros; intros [Hm _]; lia]|done]|intros _ _].
  eapply reads_bind with (Q' := fun _ => super_magic d = 0x2468 \/ super_magic d = 0x6824);
    [reads_step; [split; [auto|intros; intros [Hm _]; lia]|lia]|intros _ Hmag].
  change ({| s_ninodes := _ |}) with (super_of d).
  unfold volume_ok. set (s := super_of d) in *. clearbody s. cbv zeta in Hr. unfold is_u32 in Hr.
  eapply reads_bind with (Q' := fun _ => 1 <= s_ninodes s /\ 1 <= s_imap_blocks s <= 32767 /\
    1 <= s_zmap_blocks s <= 32767 /\ s_log_zone_size s <= 4 /\
    1 <= s_max_size s <= 2147483647);
    [reads_step; [split; [auto|intros; intros [_ Hw]; geometry Hw; lia]|lia]|].
  intros _ Hf. pose proof (zone_blocks_range s ltac:(lia)) as Hzb.
  assert (Ezb : 1 <<u s_log_zone_size s = zone_blocks s)
    by (rewrite Z.shiftl_mul_pow2, Z.mul_1_l by lia;
        apply wrap32_small; unfold zone_blocks in *; lia).
  rewrite Ezb.
  assert (Hfit : s_zones s <= capacity / 1024 / zone_blocks s <-> s_zones s * zone_bytes s <= capacity).
  { unfold zone_bytes. rewrite Z.div_div by lia. split; intros H.
    - assert (s_zones s * (1024 * zone_blocks s) <= capacity / (1024 * zone_blocks s) * (1024 * zone_blocks s))
        by (apply Z.mul_le_mono_nonneg_r; lia).
      pose proof (Z.mul_div_le capacity (1024 * zone_blocks s)). lia.
    - apply Z.div_le_lower_bound; lia. }
  eapply reads_bind with (Q' := fun _ => s_zones s * zone_bytes s <= capacity /\
    s_first_data_zone s < s_zones s);
    [reads_step; [split; [auto|intros; intros [_ Hw]; geometry Hw; lia]|lia]|].
  intros _ [Hzc Hz2].
  assert (Hzs : s_zones s < 4194304) by (unfold zone_bytes in Hzc; nia).
  assert (Hm : 0 <= (s_ninodes s + 15) / 16 <= 4096) by (Z.div_mod_to_equations; lia).
  assert (Hfz : 0 <= s_first_data_zone s * zone_blocks s < 4294967296) by nia.
  assert (Hda : data_at s = s_first_data_zone s * zone_blocks s * 1024)
    by (unfold data_at, zone_bytes; ring).
  eapply reads_bind with (Q' := fun _ => itable_at s + (s_ninodes s + 15) / 16 * 1024 <= data_at s /\
    s_ninodes s + 1 <= s_imap_blocks s * 8192 /\
    s_zones s - s_first_data_zone s + 1 <= s_zmap_blocks s * 8192).
  { rewrite Hda. unfold itable_at. reads_step; [split; [auto|intros; intros [_ Hw]]|unwrap; lia].
    pose proof (wf_meta _ _ Hw) as Hw1. rewrite Hda in Hw1. unfold itable_at in Hw1.
    pose proof (wf_imap_bits _ _ Hw). pose proof (wf_zmap_bits _ _ Hw).
    match goal with H : _ = true |- _ => revert H end. unwrap. lia. }
  intros _ (Hm1 & Hm2 & Hm3). apply reads_ret. split; [done|]. split; [done|].
  constructor; lia || done.
Qed.

Lemma reads_bytes {A} d t (c : M (fsw E) A) (Q : A -> Prop) R :
  ((forall a, is_byte (d a)) -> reads d t c Q R) -> reads d t c Q R.
Proof. intros H w Hw. apply H; [|done]. intros a. by eapply mem_byte. Qed.

Lemma map_word_range d map_ bit swap :
  (forall a, is_byte (d a)) -> 0 <= map_word d map_ bit swap < 65536.
Proof. intros. apply u16_range; apply mem_read_byte; done || lia. Qed.

(** The volume holds the map word of [bit]. *)
Definition map_stored (map_ bit : Z) : Prop := (map_ +u bit / 16 *u 2) + 2 <= cap.

Lemma allocated_reads d t map_ bit swap :
  reads d t (cp32_fs_allocated rd map_ bit swap)
    (fun _ => map_bit d map_ bit swap = true)
    (fun e => e = - CP32_SUPER_IO /\
                (reliable (rd := rd) (wr := wr) (cap := cap) -> ~ map_stored map_ bit) \/
              e = - CP32_SUPER_INVALID /\ map_bit d map_ bit swap = false).
Proof.
  unfold cp32_fs_allocated.
  eapply reads_bind with (Q' := fun w => w = mem_read d (map_ +u bit / 16 *u 2) 2).
  { reads_step; [|done]. left. split; [done|]. intros Hrel. unfold map_stored.
    pose proof (wrap32_range (map_ + wrap32 (bit / 16 * 2))).
    match goal with H : _ -> _ \/ _ |- _ => specialize (H Hrel) end. lia. }
  intros word ->. rewrite bit_test. unfold map_bit, map_word.
  destruct (Z.testbit _ _); reads_step; auto.
Qed.

Lemma clear_bits_range d map_ swap first n : 0 <= clear_bits d map_ swap first n <= Z.of_nat n.
Proof.
  induction n as [|n IH]; [done|]. cbn [clear_bits]. destruct map_bit; lia.
Qed.

(** The same map word serves the bits of one 16-bit chunk. *)
Lemma map_word_chunk d map_ swap b b' :
  b / 16 = b' / 16 -> map_word d map_ b swap = map_word d map_ b' swap.
Proof. intros Hb. unfold map_word. by rewrite Hb. Qed.

Lemma count_free_reads d t map_ last swap :
  0 <= last < 4294967296 ->
  reads d t (count_free rd map_ last swap)
    (fun n => n = clear_bits d map_ swap 1 (Z.to_nat last))
    (fun e => e = - CP32_SUPER_IO).
Proof.
  intros Hl. unfold count_free.
  eapply reads_bind with (Q' := fun r => snd r = clear_bits d map_ swap 1 (Z.to_nat last));
    [|by intros ? ->; reads_step].
  eapply reads_conseq; [| |intros e He; exact He].
  { apply (reads_for d t (fun j '(word, free) =>
      free = clear_bits d map_ swap 1 (Z.to_nat (j - 1)) /\
      (j = 1 \/ word = map_word d map_ (j - 1) swap))); [|by split; [|left]].
    intros j [word free] Hj [-> Hw].
    eapply reads_bind with (Q' := fun w => w = map_word d map_ j swap).
    - destruct ((j =? 1) || (j mod 16 =? 0)) eqn:Hb.
      + eapply reads_bind with (Q' := fun w => w = mem_read d (map_ +u j / 16 *u 2) 2);
          [by reads_step|]. intros ? ->. by reads_step.
      + reads_step. destruct Hw as [->| ->]; [done|].
        apply map_word_chunk. Z.div_mod_to_equations. lia.
    - intros ? ->. reads_step. rewrite bit_test.
      replace (j + 1 - 1) with j by lia. split; [|by right].
      replace (Z.to_nat j) with (S (Z.to_nat (j - 1))) by lia.
      cbn [clear_bits]. replace (1 + Z.of_nat (Z.to_nat (j - 1))) with j by lia.
      pose proof (clear_bits_range d map_ swap 1 (Z.to_nat (j - 1))).
      unfold map_bit. destruct (Z.testbit _ _); [lia|]. unwrap. lia. }
  intros [word free] [-> _]. simpl. do 2 f_equal. lia.
Qed.

Lemma space_read_reads d t capacity :
  0 <= capacity < 4294967296 ->
  reads d t (cp32_minix_space_read rd capacity nonnull)
    (fun sp => let s := super_of d in super_wf capacity s /\
       sp_zone_size sp = zone_bytes s /\ sp_name_max sp = 14 /\
       sp_zones sp = s_zones s - s_first_data_zone s /\ sp_inodes sp = s_ninodes s /\
       sp_free_inodes sp = clear_bits d imap_at (s_swapped s) 1 (Z.to_nat (s_ninodes s)) /\
       sp_free_zones sp = clear_bits d (zmap_at s) (s_swapped s) 1
                            (Z.to_nat (s_zones s - s_first_data_zone s)))
    (fun e => - e = CP32_SUPER_IO \/ super_statuses (- e)).
Proof.
  intros Hcap. apply reads_bytes. intros Hb. unfold cp32_minix_space_read.
  eapply reads_bind with (Q' := fun _ => True); [by reads_step|intros _ _].
  eapply reads_bind with (Q' := fun _ => True); [by reads_step|intros _ _].
  eapply reads_bind with (Q' := fun s => s = super_of d /\ volume_ok capacity d).
  { apply reads_negated. eapply reads_conseq; [by apply super_read_reads|intros ? Hq; exact Hq|].
    intros e [He _]. right. by replace (- - e) with e by lia. }
  intros ? [-> [_ Hs]]. set (s := super_of d) in *. geometry Hs. assert (s_zones s <= 4194304) by nia.
  rewrite zone_bytes_shift by lia. unwrap.
  eapply reads_bind;
    [eapply reads_conseq; [apply count_free_reads; lia|intros ? Hn; exact Hn|intros ? ->; by left]|].
  intros ? ->.
  eapply reads_bind;
    [eapply reads_conseq; [apply count_free_reads; lia|intros ? Hn; exact Hn|intros ? ->; by left]|].
  intros ? ->. apply reads_ret. by split_and!.
Qed.

(** *** The stored form of a superblock *)
Definition super_encode (s : cp32_minix_super) : list Z :=
  let sw := s_swapped s in
  put16 (put32 (put32 (put16 (put16 (put16 (put16 (put16 (replicate 24 0)
    0 (s_ninodes s) sw) 4 (s_imap_blocks s) sw) 6 (s_zmap_blocks s) sw)
    8 (s_first_data_zone s) sw) 10 (s_log_zone_size s) sw)
    12 (s_max_size s) sw) 20 (s_zones s) sw) 16 0x2468 sw.

Lemma super_encode_fields s capacity :
  super_wf capacity s -> capacity < 4294967296 ->
  let b := super_encode s in let sw := s_swapped s in
  cp32_fs_u16 (ptr_add b 16) 0 = (if truthy sw then 0x6824 else 0x2468) /\
  cp32_fs_u16 b sw = s_ninodes s /\
  cp32_fs_u16 (ptr_add b 4) sw = s_imap_blocks s /\
  cp32_fs_u16 (ptr_add b 6) sw = s_zmap_blocks s /\
  cp32_fs_u16 (ptr_add b 8) sw = s_first_data_zone s /\
  cp32_fs_u16 (ptr_add b 10) sw = s_log_zone_size s /\
  cp32_fs_u32 (ptr_add b 12) sw = s_max_size s /\
  cp32_fs_u32 (ptr_add b 20) sw = s_zones s.
Proof.
  intros Hs Hcap b sw. geometry Hs. assert (s_zones s <= 4194304) by nia.
  change b with (ptr_add b 0) at 2. subst b. unfold super_encode. fold sw.
  split.
  { destruct (nthZ_put16_in (put32 (put32 (put16 (put16 (put16 (put16 (put16 (replicate 24 0)
      0 (s_ninodes s) sw) 4 (s_imap_blocks s) sw) 6 (s_zmap_blocks s) sw)
      8 (s_first_data_zone s) sw) 10 (s_log_zone_size s) sw)
      12 (s_max_size s) sw) 20 (s_zones s) sw) 16 0x2468 sw) as [E0 E1];
      [lia|rewrite !lenZ_put32, !lenZ_put16; unfold lenZ; simpl; lia|].
    unfold cp32_fs_u16. rewrite !nthZ_ptr_add by lia. change (16 + 0) with 16.
    rewrite E0, E1. simpl. by destruct (truthy sw). }
  assert (Hw : forall x, 0 <= x < 65536 -> wrap16 x = x)
    by (intros; unfold wrap16; apply Z.mod_small; lia).
  split_and!; codec; done || (apply Hw; lia).
Qed.

Lemma super_read_complete w capacity s out :
  super_wf capacity s -> capacity < 4294967296 -> fs_coh w -> rd <> 0 -> out <> 0 ->
  mem_read (fs_data w) 1024 24 = super_encode s -> answers rd w 1024 24 ->
  exists w', cp32_minix_super_read rd capacity out w = (Ok s, w').
Proof.
  intros Hs Hcap Hc Hrd Hout Hm Ha.
  destruct (super_encode_fields s capacity Hs Hcap) as (E0&E1&E2&E3&E4&E5&E6&E7).
  destruct (read_or_ok CP32_SUPER_IO 1024 24 w) as (w' & Er & _); [lia|done..|].
  exists w'. geometry Hs. assert (s_zones s <= 4194304) by nia.
  assert (0 <= (s_ninodes s + 15) / 16 <= 4096) by (Z.div_mod_to_equations; lia).
  assert (2048 <= capacity) by nia.
  unfold cp32_minix_super_read. rewrite bind_guard_ok by lia.
  rewrite (bind_ok _ _ _ _ _ Er), Hm, E0. cbv zeta.
  assert (Hmag : of_bool ((if truthy (s_swapped s) then 0x6824 else 0x2468) =? 0x6824)
                 = s_swapped s) by (by destruct wf_swapped0 as [-> | ->]).
  rewrite Hmag.
  replace {| s_ninodes := _ |} with s; [|destruct s; simpl in *; congruence].
  rewrite bind_guard_ok by (by destruct truthy).
  rewrite bind_guard_ok by (by destruct truthy).
  rewrite bind_guard_ok by lia.
  pose proof (zone_blocks_range s ltac:(lia)) as Hzk.
  assert (Ezb : 1 <<u s_log_zone_size s = zone_blocks s)
    by (rewrite Z.shiftl_mul_pow2, Z.mul_1_l by lia;
        apply wrap32_small; unfold zone_blocks in *; lia).
  rewrite Ezb. unfold zone_bytes in *.
  assert (s_zones s <= capacity / 1024 / zone_blocks s).
  { rewrite Z.div_div by lia. apply Z.div_le_lower_bound; lia. }
  rewrite bind_guard_ok by lia.
  assert (0 <= s_first_data_zone s * zone_blocks s < 4294967296) by nia.
  rewrite bind_guard_ok; [done|]. unwrap. nia.
Qed.

(** C9: [cp32_minix_super_read] accepts exactly the usable volumes.  Whatever
    bytes the volume holds, a success returns what the superblock says, and the
    geometry is usable: the maps and the inode table fit below the first data
    zone, all zones lie inside the volume and every inode and data zone has a
    map bit; a refusal has one of the four statuses and, from a reliable
    device, means that the volume has no such superblock.  The volume and the
    tables are unchanged. *)
Theorem super_read_sound w capacity out :
  fs_coh w -> 0 <= capacity < 4294967296 ->
  match cp32_minix_super_read rd capacity out w with
  | (Ok s, w') => at_data (fs_data w) (fs_statics w) w' /\
                  s = super_of (fs_data w) /\ volume_ok capacity (fs_data w)
  | (Err e, w') => at_data (fs_data w) (fs_statics w) w' /\
                   volume_refused (fs_data w) capacity out e
  end.
Proof.
  intros Hc Hcap. apply reads_run; [|done]. apply reads_bytes. intros.
  by apply super_read_reads.
Qed.

(** Every well-formed geometry, stored in either byte order, is accepted
    and read back exactly, so the acceptance test loses no volume. *)
Theorem super_roundtrip w capacity s out :
  super_wf capacity s -> capacity < 4294967296 -> fs_coh w -> rd <> 0 -> out <> 0 ->
  mem_read (fs_data w) 1024 24 = super_encode s -> answers rd w 1024 24 ->
  exists w', cp32_minix_super_read rd capacity out w = (Ok s, w').
Proof. apply super_read_complete. Qed.

(** [cp32_minix_space_read] (df) reports exactly the number of clear bits
    of the inode map and of the zone map over the real inodes and data zones,
    for an accepted geometry, without changing the volume. *)
Theorem space_read_counts w capacity :
  fs_coh w -> 0 <= capacity < 4294967296 ->
  match cp32_minix_space_read rd capacity nonnull w with
  | (Ok sp, w') =>
      at_data (fs_data w) (fs_statics w) w' /\
      let s := super_of (fs_data w) in super_wf capacity s /\
        sp_zone_size sp = zone_bytes s /\ sp_name_max sp = 14 /\
        sp_zones sp = s_zones s - s_first_data_zone s /\ sp_inodes sp = s_ninodes s /\
        sp_free_inodes sp =
          clear_bits (fs_data w) imap_at (s_swapped s) 1 (Z.to_nat (s_ninodes s)) /\
        sp_free_zones sp =
          clear_bits (fs_data w) (zmap_at s) (s_swapped s) 1
            (Z.to_nat (s_zones s - s_first_data_zone s))
  | (Err e, w') =>
      at_data (fs_data w) (fs_statics w) w' /\ (- e = CP32_SUPER_IO \/ super_statuses (- e))
  end.
Proof. intros Hc Hcap. apply reads_run; [|done]. by apply space_read_reads. Qed.
End SuperProofs.

(** ** Witnesses, on the demonstration volume *)

Lemma demo_super_wf : super_wf 65536 Demo.super.
Proof. constructor; vm_compute; intuition congruence. Qed.

Lemma demo_coh : fs_coh (rd := MD_READ) (wr := MD_WRITE) (cap := 65536) Demo.state.
Proof. split; [reflexivity|by intros]. Qed.

Lemma demo_super_read :
  fst (cp32_minix_super_read MD_READ 65536 nonnull Demo.state) = Ok Demo.super.
Proof. vm_compute. reflexivity. Qed.

Lemma super_read_sound_witness :
  exists w', cp32_minix_super_read MD_READ 65536 nonnull Demo.state = (Ok Demo.super, w') /\
             super_wf 65536 Demo.super.
Proof.
  pose proof (super_read_sound (rd := MD_READ) (wr := MD_WRITE) (cap := 65536)
    Demo.state 65536 nonnull demo_coh ltac:(lia)) as H.
  rewrite (run_ok _ _ _ demo_super_read) in H |- *. eexists. split; [reflexivity|].
  destruct H as (_ & He & _ & H). rewrite He. exact H.
Defined.

Lemma super_roundtrip_witness :
  exists w', cp32_minix_super_read MD_READ 65536 nonnull Demo.state = (Ok Demo.super, w').
Proof.
  apply (super_roundtrip (rd := MD_READ) (wr := MD_WRITE) (cap := 65536)
    Demo.state 65536 Demo.super nonnull demo_super_wf);
    [lia|exact demo_coh|discriminate|discriminate|vm_compute; reflexivity|reflexivity].
Defined.

Lemma demo_space_read :
  fst (cp32_minix_space_read MD_READ 65536 nonnull Demo.state) =
  Ok (Space 1024 58 54 32 28 14).
Proof. vm_compute. reflexivity. Qed.

Lemma space_read_counts_witness :
  let d := fs_data (rd := MD_READ) (wr := MD_WRITE) (cap := 65536) Demo.state in
  28 = clear_bits d imap_at (s_swapped (super_of d)) 1 (Z.to_nat (s_ninodes (super_of d))).
Proof.
  pose proof (space_read_counts (rd := MD_READ) (wr := MD_WRITE) (cap := 65536)
    Demo.state 65536 demo_coh ltac:(lia)) as H.
  rewrite (run_ok _ _ _ demo_space_read) in H.
  apply H.
Defined.
