(* ===== verification/Cache.v ===== *)
(** * Block cache: src/src/fs/cache.c

    Four clean 1 KiB blocks with FIFO replacement in front of an uncached
    reader.  The uncached device is the interface [Raw]; the cache answers
    exactly what the device would and never publishes partial output. *)
From S2P Require Import Prelude Codec FsTypes.

(** The backing device, as the cache calls it. *)
Class Raw (D : Type) := {
  rw_read : fptr -> Z -> Z -> D -> (Z * list Z) * D }.

(** [blocks[slot]]: the fields of the anonymous struct. *)
Record block := Block { b_block : Z; b_valid : Z; b_bytes : list Z }.

Record cache := Cache {
  blocks : list block;
  victim : Z;
  device_capacity : Z;
  device_reader : fptr }.

Definition empty_block : block := Block 0 0 (replicate 1024 0).
Definition boot_cache : cache := Cache (replicate 4 empty_block) 0 0 NULL.
Definition slot_of (c : cache) (i : Z) : block := nth (Z.to_nat i) (blocks c) empty_block.

(** [void cp32_cache_invalidate(void)] *)
Definition cp32_cache_invalidate (c : cache) : cache :=
  Cache (map (fun b => Block (b_block b) 0 (b_bytes b)) (blocks c)) 0
        (device_capacity c) (device_reader c).

(** The search [for(slot=0;slot<4;slot++)]: the first matching slot, or 4. *)
Fixpoint find_slot (bs : list block) (blk slot : Z) : Z :=
  match bs with
  | [] => slot
  | b :: bs => if truthy (b_valid b) && (b_block b =? blk) then slot
               else find_slot bs blk (slot + 1)
  end.

Section Cache.
Context {D : Type} `{RAW : Raw D}.
Abbreviation CM := (M (cache * D)).

Definition set_block (i : Z) (b : block) : CM unit :=
  modify (fun '(c, d) =>
    (Cache (updZ (blocks c) i b) (victim c) (device_capacity c) (device_reader c), d)).

(** The refill of a missing block: lines 38-44. *)
Definition cache_fill (read : fptr) (capacity blk : Z) : CM Z :=
  slot <- gets (fun '(c, _) => victim c) ;;
  modify (fun '(c, d) =>
    (Cache (blocks c) ((slot + 1) mod 4) (device_capacity c) (device_reader c), d)) ;;;
  old <- gets (fun '(c, _) => slot_of c slot) ;;
  set_block slot (Block (b_block old) 0 (b_bytes old)) ;;;
  let available := capacity -u blk *u 1024 in
  let available := if 1024 <? available then 1024 else available in
  r <- (fun '(c, d) => let (x, d') := rw_read read (blk *u 1024) available d in
                       (Ok x, (c, d'))) ;;
  let bytes := snd r ++ drop (length (snd r)) (b_bytes old) in
  set_block slot (Block (b_block old) 0 bytes) ;;;
  if fst r =? available
  then set_block slot (Block blk 1 bytes) ;;; ret slot
  else fail (- CP32_SUPER_IO).

(** One turn of the [while]: the state is [staged[0..done)]. *)
Definition cache_turn (read : fptr) (capacity offset count : Z) (staged : list Z)
  : CM (turn (list Z) (list Z)) :=
  let done_ := lenZ staged in
  if done_ <? count then
    let blk := (offset +u done_) / 1024 in
    let within := (offset +u done_) mod 1024 in
    slot <- gets (fun '(c, _) => find_slot (blocks c) blk 0) ;;
    slot <- (if slot =? 4 then cache_fill read capacity blk else ret slot) ;;
    let chunk := count - done_ in
    let chunk := if 1024 - within <? chunk then 1024 - within else chunk in
    b <- gets (fun '(c, _) => slot_of c slot) ;;
    ret (Continue (staged ++ take (Z.to_nat chunk) (drop (Z.to_nat within) (b_bytes b))))
  else ret (Break staged).

(** [int cp32_cache_read(read, capacity, offset, out, count)]: the result and
    the bytes stored in [out], [None] when [out] is untouched. *)
Definition cp32_cache_read (read : fptr) (capacity offset out count : Z)
  : CM (list Z) :=
  guard ((read =? 0) || (count <? 0) || (64 <? count) || ((count !=? 0) && (out =? 0)) ||
         (capacity <? offset) || (capacity -u offset <? count)) (- CP32_SUPER_INVALID) ;;;
  if count =? 0 then ret [] else
  c <- gets fst ;;
  (if (read !=? device_reader c) || (capacity !=? device_capacity c)
   then modify (fun '(c, d) =>
          let c := cp32_cache_invalidate c in
          (Cache (blocks c) (victim c) capacity read, d))
   else ret tt) ;;;
  loop (Z.to_nat count) (cache_turn read capacity offset count) ret [].
End Cache.

(** ** Specification of the device behind the cache *)
Class RawSpec (D : Type) `{Raw D} (rr : fptr) (cap : Z) := {
  rw_data : D -> mem;
  rw_inv : D -> Prop;
  rw_data_byte : forall d a, is_byte (rw_data d a);
  rw_read_frame : forall d off n, rw_inv d -> 0 <= n ->
    let '((r, bs), d') := rw_read rr off n d in
    rw_inv d' /\ rw_data d' ≡m rw_data d /\ lenZ bs <= n;
  rw_read_ok : forall d off n, rw_inv d -> 0 < n ->
    let '((r, bs), d') := rw_read rr off n d in
    r = n -> 0 <= off /\ off + n <= cap /\ bs = mem_read (rw_data d) off n }.

Section CacheProofs.
Context {D : Type} `{RAW : Raw D} {rr : fptr} {cap : Z} `{SPEC : !RawSpec D rr cap}.
Hypothesis Hcap : 0 <= cap < 4294967296.
Abbreviation CM := (M (cache * D)).

(** Bytes of block [blk] that lie inside the volume. *)
Definition avail (blk : Z) : Z := Z.min 1024 (cap - blk * 1024).

Definition block_ok (m : mem) (b : block) : Prop :=
  length (b_bytes b) = 1024%nat /\
  (truthy (b_valid b) = true ->
   0 <= b_block b /\ b_block b * 1024 < cap /\
   forall i, 0 <= i < avail (b_block b) -> nthZ (b_bytes b) i = m (b_block b * 1024 + i)).

(** The cache agrees with the device wherever it would answer for it. *)
Definition coherent (m : mem) (c : cache) : Prop :=
  length (blocks c) = 4%nat /\ 0 <= victim c < 4 /\
  Forall (fun b => length (b_bytes b) = 1024%nat) (blocks c) /\
  (device_reader c = rr -> device_capacity c = cap -> Forall (block_ok m) (blocks c)).

Definition cache_empty (c : cache) : Prop :=
  length (blocks c) = 4%nat /\ 0 <= victim c < 4 /\
  Forall (fun b => length (b_bytes b) = 1024%nat /\ truthy (b_valid b) = false) (blocks c).

Lemma empty_coherent m c : cache_empty c -> coherent m c.
Proof.
  intros (Hl & Hv & HF). split_and!; try (done || lia).
  - eapply Forall_impl; [|exact HF]. by intros b [? ?].
  - intros _ _. eapply Forall_impl; [|exact HF]. intros b [? Hb]. split; [done|].
    rewrite Hb. discriminate.
Qed.

Lemma invalidate_empty m c : coherent m c -> cache_empty (cp32_cache_invalidate c).
Proof.
  intros (Hl & Hv & HF & _). unfold cache_empty, cp32_cache_invalidate. simpl.
  rewrite length_map. split_and!; try (done || lia).
  apply Forall_map. eapply Forall_impl; [|exact HF]. done.
Qed.

(** The device and cache while a request for this reader is served. *)
Definition serving (m : mem) (s : cache * D) : Prop :=
  rw_inv (snd s) /\ rw_data (snd s) ≡m m /\ device_reader (fst s) = rr /\
  device_capacity (fst s) = cap /\ coherent m (fst s).

Lemma find_slot_spec bs blk k :
  (k <= find_slot bs blk k <= k + lenZ bs) /\
  (find_slot bs blk k < k + lenZ bs ->
   let b := nth (Z.to_nat (find_slot bs blk k - k)) bs empty_block in
   truthy (b_valid b) = true /\ b_block b = blk /\ In b bs).
Proof.
  unfold lenZ. revert k. induction bs as [|b bs IH]; intros k; simpl; [lia|].
  destruct (truthy (b_valid b) && (b_block b =? blk)) eqn:Hb.
  - split; [lia|]. intros _. replace (Z.to_nat (k - k)) with O by lia. simpl.
    apply andb_true_iff in Hb as [? ?%Z.eqb_eq]. auto.
  - destruct (IH (k + 1)) as [Hr Hs]. split; [lia|]. intros Hlt.
    destruct Hs as (?&?&?); [lia|].
    replace (Z.to_nat (find_slot bs blk (k + 1) - k))
      with (S (Z.to_nat (find_slot bs blk (k + 1) - (k + 1)))) by lia. simpl. auto.
Qed.

Lemma coherent_set m c i b :
  coherent m c -> 0 <= i < 4 -> length (b_bytes b) = 1024%nat ->
  (device_reader c = rr -> device_capacity c = cap -> block_ok m b) ->
  coherent m (Cache (updZ (blocks c) i b) (victim c) (device_capacity c) (device_reader c)).
Proof.
  intros (Hl & Hv & HF & Hc) Hi Hlen Hb. unfold coherent, updZ. simpl.
  rewrite length_insert. split_and!; try (done || lia); [by apply Forall_insert|].
  intros. apply Forall_insert; auto.
Qed.

Lemma slot_of_upd bs v dc dr i b :
  0 <= i < lenZ bs -> slot_of (Cache (updZ bs i b) v dc dr) i = b.
Proof.
  intros Hi. unfold slot_of, updZ, lenZ in *. simpl. rewrite nth_lookup.
  by rewrite list_lookup_insert_eq by lia.
Qed.

Definition holds_block (m : mem) (blk slot : Z) (s : cache * D) : Prop :=
  0 <= slot < 4 /\ block_ok m (slot_of (fst s) slot) /\
  truthy (b_valid (slot_of (fst s) slot)) = true /\ b_block (slot_of (fst s) slot) = blk.

(** The device answers every read of a block or of the end of the volume. *)
Definition raw_reliable : Prop := forall d off n, rw_inv d -> 0 <= off -> 0 < n <= 1024 -> off + n <= cap ->
  fst (fst (rw_read rr off n d)) = n.

Lemma cache_fill_spec m blk :
  0 <= blk -> blk * 1024 < cap ->
  hoare (serving m) (cache_fill rr cap blk)
    (fun slot s => serving m s /\ holds_block m blk slot s)
    (fun e s => serving m s /\ e = - CP32_SUPER_IO /\ ~ raw_reliable).
Proof.
  intros Hb Hlt [c d] (Hi & Hd & Hr & Hc & Hco). simpl in *.
  pose proof Hco as (Hl & Hv & HF & _).
  assert (Hold : length (b_bytes (slot_of c (victim c))) = 1024%nat).
  { unfold slot_of. eapply (Forall_nth (fun b => length (b_bytes b) = 1024%nat)); [exact HF|lia]. }
  unfold cache_fill, set_block, bind, gets, modify. cbn [fst snd blocks victim device_capacity device_reader].
  set (old := slot_of _ _). change (slot_of _ (victim c)) with (slot_of c (victim c)) in old.
  assert (Hav : (let available := cap -u blk *u 1024 in
                 if 1024 <? available then 1024 else available) = avail blk).
  { unfold avail. cbv zeta. unwrap. destruct (Z.ltb_spec 1024 (cap - blk * 1024)); lia. }
  cbv zeta in *. rewrite Hav. rewrite (wrap32_small (blk * 1024)) by lia.
  assert (Hpos : 0 < avail blk <= 1024) by (unfold avail; lia).
  pose proof (rw_read_frame d (blk * 1024) (avail blk) Hi ltac:(lia)) as HFr.
  pose proof (rw_read_ok d (blk * 1024) (avail blk) Hi ltac:(lia)) as HOk.
  assert (HRel : raw_reliable -> fst (fst (rw_read rr (blk * 1024) (avail blk) d)) = avail blk)
    by (intros HRl; apply HRl; [done|lia|lia|unfold avail; lia]).
  destruct (rw_read rr (blk * 1024) (avail blk) d) as [[r bs] d'].
  destruct HFr as (Hi' & Hd' & Hlen). cbv beta iota in HOk.
  cbn [fst snd blocks victim device_capacity device_reader].
  set (bytes := bs ++ drop (length bs) (b_bytes old)).
  assert (Hbytes : length bytes = 1024%nat).
  { subst bytes. rewrite length_app, length_drop. unfold lenZ in Hlen. subst old. lia. }
  assert (Hdm : rw_data d' ≡m m) by (by rewrite Hd').
  assert (Hinv : forall b, block_ok m b -> length (b_bytes b) = 1024%nat ->
    serving m (Cache (updZ (updZ (updZ (blocks c) (victim c) (Block (b_block old) 0 (b_bytes old)))
      (victim c) (Block (b_block old) 0 bytes)) (victim c) b) ((victim c + 1) mod 4)
      (device_capacity c) (device_reader c), d')).
  { intros b Hbo Hbl. unfold serving. cbn [fst snd]. split_and!; [done..|].
    pose proof (coherent_set m (Cache (blocks c) ((victim c + 1) mod 4) (device_capacity c)
      (device_reader c)) (victim c) (Block (b_block old) 0 (b_bytes old))) as H1.
    assert (coherent m (Cache (blocks c) ((victim c + 1) mod 4) (device_capacity c)
      (device_reader c))).
    { destruct Hco as (?&?&?&?). unfold coherent. simpl. split_and!; try done.
      - apply Z.mod_pos_bound. lia. - apply Z.mod_pos_bound. lia. }
    apply (coherent_set m (Cache _ _ _ _)); [|lia|done|done].
    apply (coherent_set m (Cache _ _ _ _)); [|lia|done|done].
    apply H1; [done|lia|done|done]. }
  destruct (Z.eqb_spec r (avail blk)) as [->|].
  - destruct (HOk eq_refl) as (_ & _ & ->). unfold ret. cbn [fst snd].
    assert (Hok : block_ok m (Block blk 1 bytes)).
    { split; [done|]. intros _. cbn [b_block b_bytes]. split_and!; [lia|lia|].
      intros i Hix. subst bytes. rewrite nthZ_app_l
        by (unfold lenZ; rewrite length_mem_read; lia).
      rewrite nthZ_mem_read by lia. apply Hd. }
    split; [by apply Hinv|].
    unfold holds_block. cbn [fst snd blocks victim device_capacity device_reader].
    rewrite !slot_of_upd by (unfold lenZ, updZ; rewrite ?length_insert; lia). done.
  - unfold fail. cbn [fst snd] in HRel |- *. split; [|by split; [done|intros HRl; apply HRel in HRl]].
    pose proof (Hinv (Block (b_block old) 0 bytes)) as HI.
    assert (HE : forall (l : list block) i x, updZ (updZ l i x) i x = updZ l i x).
    { intros. unfold updZ. apply list_insert_insert_eq. }
    rewrite HE in HI. apply HI; done.
Qed.

Lemma block_slice m b within chunk :
  block_ok m b -> truthy (b_valid b) = true -> 0 <= within -> 0 <= chunk ->
  within + chunk <= avail (b_block b) ->
  take (Z.to_nat chunk) (drop (Z.to_nat within) (b_bytes b)) =
  mem_read m (b_block b * 1024 + within) chunk.
Proof.
  intros [Hlen Hb] Hv Hw Hc Hle. destruct (Hb Hv) as (_ & _ & Hbytes).
  assert (avail (b_block b) <= 1024) by (unfold avail; lia).
  apply list_eq_nthZ.
  - rewrite length_take, length_drop, length_mem_read. lia.
  - intros i Hi. unfold lenZ in Hi. rewrite length_take, length_drop in Hi.
    rewrite nthZ_take by lia. change (drop _ _) with (ptr_add (b_bytes b) within).
    rewrite nthZ_ptr_add, Hbytes, nthZ_mem_read by lia. f_equal. lia.
Qed.

Lemma cache_turn_spec m offset count n staged :
  0 <= offset -> offset + count <= cap ->
  hoare (fun s => serving m s /\ staged = mem_read m offset (lenZ staged) /\
                  lenZ staged <= count /\ count - lenZ staged <= Z.of_nat (S n))
    (cache_turn rr cap offset count staged)
    (fun t s => match t with
       | Continue st => serving m s /\ st = mem_read m offset (lenZ st) /\
                        lenZ st <= count /\ count - lenZ st <= Z.of_nat n
       | Break st => serving m s /\ st = mem_read m offset count
       end)
    (fun e s => serving m s /\ e = - CP32_SUPER_IO /\ ~ raw_reliable).
Proof.
  intros Hoff Hle. unfold cache_turn. pose proof (lenZ_nonneg staged) as H0.
  destruct (Z.ltb_spec (lenZ staged) count); cycle 1.
  { apply hoare_ret. intros w (? & Hst & ? & ?). split; [done|].
    by replace count with (lenZ staged) by lia. }
  rewrite wrap32_small by lia. set (at_ := offset + lenZ staged).
  set (blk := at_ / 1024). set (within := at_ mod 1024).
  assert (Hat : at_ = blk * 1024 + within) by (subst blk within; Z.div_mod_to_equations; lia).
  assert (Hwi : 0 <= within < 1024) by (apply Z.mod_pos_bound; lia).
  assert (Hblk : 0 <= blk) by (subst blk at_; apply Z.div_pos; lia).
  eapply hoare_bind with (Q' := fun slot s =>
    (serving m s /\ staged = mem_read m offset (lenZ staged) /\
     count - lenZ staged <= Z.of_nat (S n)) /\ (slot = 4 \/ holds_block m blk slot s)).
  { apply hoare_gets. intros [c d] (Hs & Hst & ? & ?). split; [done|].
    destruct Hs as (_ & _ & Hr & Hc & (Hl & _ & _ & HF)). simpl in *.
    destruct (find_slot_spec (blocks c) blk 0) as [Hrange Hhit]. unfold lenZ in *.
    rewrite Hl in *. destruct (Z.eq_dec (find_slot (blocks c) blk 0) 4); [by left|right].
    destruct Hhit as (Hv & Hb & Hin); [lia|].
    rewrite Z.sub_0_r in *. unfold holds_block, slot_of. cbn [fst].
    split; [lia|]. split; [|done].
    specialize (HF Hr Hc). rewrite Forall_forall in HF. by apply HF. }
  intros slot. eapply hoare_bind with (Q' := fun slot s =>
    (serving m s /\ staged = mem_read m offset (lenZ staged) /\
     count - lenZ staged <= Z.of_nat (S n)) /\ holds_block m blk slot s).
  { destruct (Z.eqb_spec slot 4) as [->|].
    - intros s ((Hs & Hst & Hn) & _).
      pose proof (cache_fill_spec m blk Hblk ltac:(lia) s Hs) as HF.
      destruct (cache_fill rr cap blk s) as [[e|sl] s'].
      + done. + destruct HF. done.
    - apply hoare_ret. intros s (? & [?|?]); done. }
  intros sl. set (chunk := if 1024 - within <? count - lenZ staged then _ else _).
  assert (Hch : 1 <= chunk <= count - lenZ staged /\ within + chunk <= 1024).
  { subst chunk. destruct (Z.ltb_spec (1024 - within) (count - lenZ staged)); lia. }
  assert (Hcl : at_ + chunk <= cap) by (subst at_; lia).
  eapply hoare_bind with (Q' := fun b s =>
    serving m s /\ staged = mem_read m offset (lenZ staged) /\
    count - lenZ staged <= Z.of_nat (S n) /\
    take (Z.to_nat chunk) (drop (Z.to_nat within) (b_bytes b)) = mem_read m at_ chunk).
  { apply hoare_gets. intros [c d] ((Hs & Hst & Hn) & (_ & Hok & Hv & Hb)).
    split_and!; [done..|]. cbn [fst] in *.
    rewrite (block_slice m _ within chunk Hok Hv); [|lia|lia|unfold avail; rewrite Hb; lia].
    rewrite Hb. by f_equal. }
  intros b. apply hoare_ret. intros s (Hs & Hst & Hn & ->).
  assert (Hl : lenZ (staged ++ mem_read m at_ chunk) = lenZ staged + chunk)
    by (rewrite lenZ_app, lenZ_mem_read by lia; done).
  split; [done|]. rewrite Hl. split_and!; [|lia..].
  rewrite mem_read_app by lia. by rewrite <- Hst.
Qed.

Definition in_volume (offset count : Z) : Prop :=
  0 <= count <= 64 /\ 0 <= offset /\ offset + count <= cap.

Lemma cache_read_spec m offset out count :
  0 <= offset < 4294967296 ->
  hoare (fun s => rw_inv (snd s) /\ rw_data (snd s) ≡m m /\ coherent m (fst s))
    (cp32_cache_read rr cap offset out count)
    (fun bs s => (rw_inv (snd s) /\ rw_data (snd s) ≡m m /\ coherent m (fst s)) /\
                 in_volume offset count /\ bs = mem_read m offset count)
    (fun e s => (rw_inv (snd s) /\ rw_data (snd s) ≡m m /\ coherent m (fst s)) /\
                ((e = - CP32_SUPER_INVALID /\ ~ (in_volume offset count /\ rr <> 0 /\ out <> 0)) \/
                 (e = - CP32_SUPER_IO /\ ~ raw_reliable))).
Proof.
  intros Hoff. unfold cp32_cache_read.
  eapply hoare_bind with (Q' := fun _ s =>
    (rw_inv (snd s) /\ rw_data (snd s) ≡m m /\ coherent m (fst s)) /\ in_volume offset count).
  { apply hoare_guard.
    { intros s Hs Hg. split; [done|]. left. split; [done|]. intros ((? & ? & ?) & ? & ?).
      rewrite wrap32_small in Hg by lia. lia. }
    intros s Hs Hg. split; [done|]. unfold in_volume.
    rewrite !orb_false_iff in Hg. destruct Hg as [[[[[? ?] ?] _] ?] Hw].
    rewrite wrap32_small in Hw by lia. lia. }
  intros _. apply hoare_pure. intros (Hc & _ & Hle).
  destruct (Z.eqb_spec count 0) as [->|Hne].
  { apply hoare_ret. intros s Hs. split_and!; try apply Hs; try (unfold in_volume; lia).
    done. }
  eapply hoare_bind with (Q' := fun c s =>
    fst s = c /\ rw_inv (snd s) /\ rw_data (snd s) ≡m m /\ coherent m c).
  { apply hoare_gets. intros s (?&?&?). done. }
  intros c. eapply hoare_bind with (Q' := fun _ s => serving m s).
  { destruct (_ || _) eqn:Hsw.
    - apply hoare_modify. intros [c' d] (<- & Hi & Hd & Hco). cbn [fst snd] in *.
      unfold serving. cbn [fst snd]. split_and!; [done..|].
      apply invalidate_empty in Hco. by apply empty_coherent.
    - apply hoare_ret. intros [c' d] (<- & Hi & Hd & Hco). cbn [fst snd] in *.
      rewrite orb_false_iff, !negb_false_iff, !Z.eqb_eq in Hsw. destruct Hsw as [Hr Hcp].
      split_and!; done. }
  intros _.
  eapply hoare_conseq with
    (Q' := fun bs s => serving m s /\ bs = mem_read m offset count)
    (R' := fun e s => serving m s /\ e = - CP32_SUPER_IO /\ ~ raw_reliable).
  - apply (hoare_loop (fun n staged s => serving m s /\ staged = mem_read m offset (lenZ staged)
             /\ lenZ staged <= count /\ count - lenZ staged <= Z.of_nat n)).
    + intros n staged. apply cache_turn_spec; lia.
    + intros staged. apply hoare_ret. intros s (? & Hst & ? & ?). split; [done|].
      by replace count with (lenZ staged) by lia.
  - intros s Hs. change (lenZ (@nil Z)) with 0. split_and!; [done|done|lia|lia].
  - intros bs s [(?&?&?&?&?) ?]. unfold in_volume. split_and!; done || lia.
  - intros e s [(?&?&?&?&?) ?]. auto.
Qed.
End CacheProofs.
