(* ===== verification/Inode.v ===== *)
(** * Inodes: src/src/fs/inode.c and the inode metadata of src/src/fs/stadir.c

    Decoding and validation of directory and regular-file inodes. *)
From S2P Require Import Prelude Codec FsTypes FdTable MemDisk Super Timestamp.

Section Inode.
Context {E : Type} `{DSK : Disk E}.
Abbreviation FM := (M (fsw E)).

(** [(2 + imap_blocks + zmap_blocks)*1024 + (number-1)*64] *)
Definition inode_offset (s : cp32_minix_super) (number : Z) : Z :=
  (2 +u s_imap_blocks s +u s_zmap_blocks s) *u 1024 +u (number -u 1) *u 64.
(** [(2 + imap_blocks) * 1024] *)
Definition zmap_offset (s : cp32_minix_super) : Z := (2 +u s_imap_blocks s) *u 1024.
(** [z - first_data_zone + 1] *)
Definition zone_bit (s : cp32_minix_super) (z : Z) : Z := z -u s_first_data_zone s +u 1.
(** [z < first_data_zone || z >= zones] *)
Definition zone_bad (s : cp32_minix_super) (z : Z) : bool :=
  (z <? s_first_data_zone s) || (s_zones s <=? z).
(** [cp32_fs_allocated] on the zone map *)
Definition zone_allocated (read : fptr) (s : cp32_minix_super) (z : Z) : FM unit :=
  cp32_fs_allocated read (zmap_offset s) (zone_bit s z) (s_swapped s).

(** The field [raw + 24 + i*4], and the first [n] of them. *)
Definition raw_zone (raw : list Z) (swap i : Z) : Z :=
  cp32_fs_u32 (ptr_add raw (24 + i * 4)) swap.
Definition raw_zones (raw : list Z) (swap : Z) (n : nat) : list Z :=
  map (fun i => raw_zone raw swap (Z.of_nat i)) (seq 0 n).

(** One turn of the zone loop of [cp32_fs_open_directory] (lines 29-41);
    [zones] holds the entries already decoded. *)
Definition dir_zone (read : fptr) (s : cp32_minix_super) (raw : list Z) (used i : Z)
    (zones : list Z) : FM (list Z) :=
  let z := raw_zone raw (s_swapped s) i in
  (if i <? used then
     guard (zone_bad s z) (- CP32_SUPER_INVALID) ;;;
     guard (existsb (Z.eqb z) zones) (- CP32_SUPER_INVALID) ;;;
     zone_allocated read s z
   else ret tt) ;;;
  ret (zones ++ [z]).

Definition cp32_fs_open_directory (read : fptr) (super : cp32_minix_super) (number : Z)
  : FM cp32_minix_dir :=
  guard ((number =? 0) || (s_ninodes super <? number)) (- CP32_SUPER_INVALID) ;;;
  cp32_fs_allocated read 2048 number (s_swapped super) ;;;
  raw <- read_or (- CP32_SUPER_IO) read (inode_offset super number) 64 ;;
  let swap := s_swapped super in
  guard (Z.land (cp32_fs_u16 raw swap) S_IFMT !=? S_IFDIR)
        (if number =? 1 then - CP32_SUPER_INVALID else - CP32_FILE_NOT_DIR) ;;;
  guard (cp32_fs_u16 (ptr_add raw 2) swap =? 0) (- CP32_SUPER_INVALID) ;;;
  let size := cp32_fs_u32 (ptr_add raw 8) swap in
  let zone_bytes := 1024 <<u s_log_zone_size super in
  guard ((size <? 32) || (size mod 16 !=? 0) || (s_max_size super <? size))
        (- CP32_SUPER_INVALID) ;;;
  guard (263 *u zone_bytes <? size) (- CP32_SUPER_UNSUPPORTED) ;;;
  let used := (size +u zone_bytes -u 1) / zone_bytes in
  zones <- for_ 7 0 (dir_zone read super raw used) [] ;;
  let indirect := cp32_fs_u32 (ptr_add raw 52) swap in
  (if 7 <? used then
     guard (zone_bad super indirect) (- CP32_SUPER_INVALID) ;;;
     guard (existsb (Z.eqb indirect) zones) (- CP32_SUPER_INVALID) ;;;
     zone_allocated read super indirect
   else ret tt) ;;;
  ret {| d_super := super; d_read := read; d_size := size; d_position := 0;
         d_zones := zones; d_indirect := indirect |}.

(** One turn of the zone loop of [cp32_fs_file_inode] (lines 80-91). *)
Definition file_zone (read : fptr) (s : cp32_minix_super) (raw : list Z) (used i : Z)
    (zones : list Z) : FM (list Z) :=
  let z := raw_zone raw (s_swapped s) i in
  (if (used <=? i) || (z =? 0) then ret tt else
     guard (zone_bad s z) (- CP32_SUPER_INVALID) ;;;
     guard (existsb (Z.eqb z) zones) (- CP32_SUPER_INVALID) ;;;
     zone_allocated read s z) ;;;
  ret (zones ++ [z]).

Definition cp32_fs_file_inode (read : fptr) (super : cp32_minix_super) (number : Z)
  : FM cp32_minix_file :=
  guard ((number =? 0) || (s_ninodes super <? number)) (- CP32_SUPER_INVALID) ;;;
  cp32_fs_allocated read 2048 number (s_swapped super) ;;;
  raw <- read_or (- CP32_SUPER_IO) read (inode_offset super number) 64 ;;
  let swap := s_swapped super in
  let mode := Z.land (cp32_fs_u16 raw swap) S_IFMT in
  guard (mode =? S_IFDIR) (- CP32_FILE_IS_DIR) ;;;
  guard (mode !=? S_IFREG) (- CP32_SUPER_UNSUPPORTED) ;;;
  open <- gets (fun w => cp32_fd_inode_open (fs_tab w) read number) ;;
  guard ((cp32_fs_u16 (ptr_add raw 2) swap =? 0) && (open =? 0)) (- CP32_SUPER_INVALID) ;;;
  let size := cp32_fs_u32 (ptr_add raw 8) swap in
  let zone_bytes := 1024 <<u s_log_zone_size super in
  guard (s_max_size super <? size) (- CP32_SUPER_INVALID) ;;;
  guard ((7 + 256 + 256 * 256) *u zone_bytes <? size) (- CP32_SUPER_UNSUPPORTED) ;;;
  let used := (size +u zone_bytes -u 1) / zone_bytes in
  zones <- for_ 7 0 (file_zone read super raw used) [] ;;
  let indirect := cp32_fs_u32 (ptr_add raw 52) swap in
  (if (7 <? used) && (indirect !=? 0) then
     guard (zone_bad super indirect) (- CP32_SUPER_INVALID) ;;;
     guard (existsb (Z.eqb indirect) zones) (- CP32_SUPER_INVALID) ;;;
     zone_allocated read super indirect
   else ret tt) ;;;
  let double_indirect := cp32_fs_u32 (ptr_add raw 56) swap in
  (if (263 <? used) && (double_indirect !=? 0) then
     guard (zone_bad super double_indirect || (double_indirect =? indirect))
           (- CP32_SUPER_INVALID) ;;;
     guard (existsb (Z.eqb double_indirect) zones) (- CP32_SUPER_INVALID) ;;;
     zone_allocated read super double_indirect
   else ret tt) ;;;
  ret {| f_read := read; f_size := size; f_position := 0; f_zone_bytes := zone_bytes;
         f_zones := zones; f_super := super; f_indirect := indirect;
         f_double_indirect := double_indirect; f_inode := number |}.

(** [int cp32_fs_stat_inode(read, super, number, out)] of stadir.c *)
Definition cp32_fs_stat_inode (read : fptr) (super : cp32_minix_super) (number out : Z)
  : FM cp32_minix_stat :=
  guard ((out =? 0) || (read =? 0) || (number =? 0) || (s_ninodes super <? number))
        (- CP32_SUPER_INVALID) ;;;
  cp32_fs_allocated read 2048 number (s_swapped super) ;;;
  raw <- read_or (- CP32_SUPER_IO) read (inode_offset super number) 64 ;;
  let swap := s_swapped super in
  let next := {| st_inode := number;
                 st_mode := cp32_fs_u16 raw swap;
                 st_links := cp32_fs_u16 (ptr_add raw 2) swap;
                 st_uid := cp32_fs_u16 (ptr_add raw 4) swap;
                 st_gid := cp32_fs_u16 (ptr_add raw 6) swap;
                 st_size := cp32_fs_u32 (ptr_add raw 8) swap;
                 st_atime := cp32_fs_u32 (ptr_add raw 12) swap;
                 st_mtime := cp32_fs_u32 (ptr_add raw 16) swap;
                 st_ctime := cp32_fs_u32 (ptr_add raw 20) swap |} in
  open <- gets (fun w => cp32_fd_inode_open (fs_tab w) read number) ;;
  guard (((st_links next =? 0) &&
          ((Z.land (st_mode next) S_IFMT !=? S_IFREG) || (open =? 0))) ||
         (s_max_size super <? st_size next)) (- CP32_SUPER_INVALID) ;;;
  guard ((Z.land (st_mode next) S_IFMT !=? S_IFREG) &&
         (Z.land (st_mode next) S_IFMT !=? S_IFDIR)) (- CP32_SUPER_UNSUPPORTED) ;;;
  ret next.
End Inode.

(** ** Specification

    The bytes of inode [n], the zones it may name and the validity of the
    direct zones [zs]: below [used] every entry ([strict], for directories) or
    every nonzero entry is a live data zone that no earlier entry names. *)
Definition inode_bytes (d : mem) (s : cp32_minix_super) (n : Z) : list Z :=
  mem_read d (inode_at s n) 64.
Definition zone_live (d : mem) (s : cp32_minix_super) (z : Z) : Prop :=
  data_zone s z /\ map_bit d (zmap_at s) (z - s_first_data_zone s + 1) (s_swapped s) = true.
Definition inode_live (d : mem) (s : cp32_minix_super) (n : Z) : Prop :=
  1 <= n <= s_ninodes s /\ map_bit d imap_at n (s_swapped s) = true.
Definition used_zones (s : cp32_minix_super) (size : Z) : Z :=
  (size + zone_bytes s - 1) / zone_bytes s.

Definition zones_ok (d : mem) (s : cp32_minix_super) (strict : Prop) (used : Z) (zs : list Z)
  : Prop :=
  forall i, 0 <= i < lenZ zs -> i < used -> strict \/ nthZ zs i <> 0 ->
  zone_live d s (nthZ zs i) /\ forall k, 0 <= k < i -> nthZ zs k <> nthZ zs i.

(** A further block [z] of the same inode: live and not among [others]. *)
Definition extra_ok (d : mem) (s : cp32_minix_super) (z : Z) (others : list Z) : Prop :=
  zone_live d s z /\ ~ In z others.

(** What inode [n] of the volume [d] says. *)
Definition file_of_inode (d : mem) (read : fptr) (s : cp32_minix_super) (n : Z)
  : cp32_minix_file := {|
  f_read := read; f_position := 0; f_zone_bytes := zone_bytes s; f_super := s; f_inode := n;
  f_size := cp32_fs_u32 (ptr_add (inode_bytes d s n) 8) (s_swapped s);
  f_zones := raw_zones (inode_bytes d s n) (s_swapped s) 7;
  f_indirect := cp32_fs_u32 (ptr_add (inode_bytes d s n) 52) (s_swapped s);
  f_double_indirect := cp32_fs_u32 (ptr_add (inode_bytes d s n) 56) (s_swapped s) |}.
Definition dir_of_inode (d : mem) (read : fptr) (s : cp32_minix_super) (n : Z)
  : cp32_minix_dir := {|
  d_super := s; d_read := read; d_position := 0;
  d_size := cp32_fs_u32 (ptr_add (inode_bytes d s n) 8) (s_swapped s);
  d_zones := raw_zones (inode_bytes d s n) (s_swapped s) 7;
  d_indirect := cp32_fs_u32 (ptr_add (inode_bytes d s n) 52) (s_swapped s) |}.

Definition inode_mode (d : mem) (s : cp32_minix_super) (n : Z) : Z :=
  cp32_fs_u16 (inode_bytes d s n) (s_swapped s).
Definition inode_links (d : mem) (s : cp32_minix_super) (n : Z) : Z :=
  cp32_fs_u16 (ptr_add (inode_bytes d s n) 2) (s_swapped s).

(** The sizes and blocks of a file are usable. *)
Record mapping_ok (d : mem) (s : cp32_minix_super) (f : cp32_minix_file) : Prop := {
  mo_max : f_size f <= s_max_size s;
  mo_size : f_size f <= 65799 * zone_bytes s;
  mo_zones : zones_ok d s False (used_zones s (f_size f)) (f_zones f);
  mo_indirect : 7 < used_zones s (f_size f) /\ f_indirect f <> 0 ->
    extra_ok d s (f_indirect f) (f_zones f);
  mo_double : 263 < used_zones s (f_size f) /\ f_double_indirect f <> 0 ->
    extra_ok d s (f_double_indirect f) (f_indirect f :: f_zones f) }.

(** Inode [n] is a regular file in use, by a name or by a descriptor. *)
Record file_ok (d : mem) (t : fdtab) (read : fptr) (s : cp32_minix_super) (n : Z) : Prop := {
  fo_live : inode_live d s n;
  fo_mode : Z.land (inode_mode d s n) S_IFMT = S_IFREG;
  fo_linked : inode_links d s n <> 0 \/ cp32_fd_inode_open t read n <> 0;
  fo_mapping : mapping_ok d s (file_of_inode d read s n) }.

(** Inode [n] is a directory in use. *)
Record dir_ok (d : mem) (read : fptr) (s : cp32_minix_super) (n : Z) : Prop := {
  do_live : inode_live d s n;
  do_mode : Z.land (inode_mode d s n) S_IFMT = S_IFDIR;
  do_linked : inode_links d s n <> 0;
  do_size : 32 <= d_size (dir_of_inode d read s n) <= s_max_size s /\
            d_size (dir_of_inode d read s n) mod 16 = 0;
  do_bound : d_size (dir_of_inode d read s n) <= 263 * zone_bytes s;
  do_zones : zones_ok d s True (used_zones s (d_size (dir_of_inode d read s n)))
               (d_zones (dir_of_inode d read s n));
  do_indirect : 7 < used_zones s (d_size (dir_of_inode d read s n)) ->
    extra_ok d s (d_indirect (dir_of_inode d read s n)) (d_zones (dir_of_inode d read s n)) }.

Lemma existsb_eqb_in z l : existsb (Z.eqb z) l = false -> ~ In z l.
Proof.
  intros H Hin. assert (existsb (Z.eqb z) l = true); [|congruence].
  apply existsb_exists. exists z. split; [done|]. apply Z.eqb_refl.
Qed.

Lemma existsb_eqb_in' z l : existsb (Z.eqb z) l = true -> In z l.
Proof. by intros (x & ? & ->%Z.eqb_eq)%existsb_exists. Qed.

Lemma nthZ_In l i : 0 <= i < lenZ l -> In (nthZ l i) l.
Proof. unfold nthZ, lenZ. intros. apply nth_In. lia. Qed.

Lemma raw_zones_S raw swap n :
  raw_zones raw swap (S n) = raw_zones raw swap n ++ [raw_zone raw swap (Z.of_nat n)].
Proof. unfold raw_zones. by rewrite seq_S, map_app. Qed.

Lemma lenZ_raw_zones raw swap n : lenZ (raw_zones raw swap n) = Z.of_nat n.
Proof. unfold lenZ, raw_zones. by rewrite length_map, length_seq. Qed.

Lemma zones_ok_snoc d s strict used zs z :
  zones_ok d s strict used zs ->
  (lenZ zs < used -> strict \/ z <> 0 -> extra_ok d s z zs) ->
  zones_ok d s strict used (zs ++ [z]).
Proof.
  intros Hzs Hz i Hi Hu Hc. rewrite lenZ_app in Hi. change (lenZ [z]) with 1 in Hi.
  destruct (Z.lt_ge_cases i (lenZ zs)) as [Hlt|Hge].
  - rewrite nthZ_app_l in * by lia. destruct (Hzs i) as [Hl Hd]; [lia|done..|].
    split; [done|]. intros k Hk. rewrite nthZ_app_l by lia. by apply Hd.
  - assert (i = lenZ zs) as -> by lia. rewrite nthZ_app_r, Z.sub_diag in * by lia.
    destruct (Hz Hu Hc) as [Hl Hn]. split; [done|]. intros k Hk.
    rewrite nthZ_app_l by lia. intros He. apply Hn. change (nthZ [z] 0) with z in He.
    rewrite <- He. apply nthZ_In. lia.
Qed.

Lemma nthZ_raw_zones raw swap n i :
  0 <= i < Z.of_nat n -> nthZ (raw_zones raw swap n) i = raw_zone raw swap i.
Proof.
  intros Hi. unfold nthZ, raw_zones.
  rewrite (nth_indep _ _ (raw_zone raw swap (Z.of_nat 0))) by (rewrite length_map, length_seq; lia).
  rewrite (map_nth (fun i => raw_zone raw swap (Z.of_nat i))), seq_nth by lia. f_equal. lia.
Qed.

(** Every entry of valid direct zones passes its check. *)
Lemma zones_ok_nth d s (strict : Prop) used raw m i :
  0 <= i < Z.of_nat m -> zones_ok d s strict used (raw_zones raw (s_swapped s) m) -> i < used ->
  let z := raw_zone raw (s_swapped s) i in strict \/ z <> 0 ->
  extra_ok d s z (raw_zones raw (s_swapped s) (Z.to_nat i)).
Proof.
  intros Hi Hok Hu z Hz. destruct (Hok i) as [Hl Hd].
  - by rewrite lenZ_raw_zones.
  - done.
  - by rewrite nthZ_raw_zones.
  - rewrite nthZ_raw_zones in Hl, Hd by done. split; [done|].
    intros Hin. apply (In_nth _ _ 0) in Hin as (k & Hk & He).
    unfold raw_zones in Hk. rewrite length_map, length_seq in Hk.
    apply (Hd (Z.of_nat k)); [lia|]. rewrite nthZ_raw_zones by lia.
    rewrite <- (nthZ_raw_zones raw _ (Z.to_nat i)) by lia. unfold nthZ. by rewrite Nat2Z.id.
Qed.

Lemma inode_offset_eq c s n :
  super_wf c s -> c < 4294967296 -> 1 <= n <= s_ninodes s -> inode_offset s n = inode_at s n.
Proof.
  intros Hs Hc Hn. geometry Hs. unfold inode_offset.
  assert ((s_ninodes s + 15) / 16 * 1024 >= s_ninodes s * 64) by (Z.div_mod_to_equations; lia).
  assert (s_first_data_zone s * zone_bytes s <= s_zones s * zone_bytes s)
    by (apply Z.mul_le_mono_nonneg_r; lia).
  unwrap. lia.
Qed.

Lemma zmap_offset_eq c s : super_wf c s -> zmap_offset s = zmap_at s.
Proof. intros Hs. geometry Hs. unfold zmap_offset. unwrap. lia. Qed.

Lemma zone_bit_eq c s z :
  super_wf c s -> c < 4294967296 -> data_zone s z -> zone_bit s z = z - s_first_data_zone s + 1.
Proof.
  intros Hs Hc Hz. geometry Hs. unfold zone_bit. assert (s_zones s <= 4194304) by nia.
  unwrap. lia.
Qed.

Lemma zone_bad_false s z : zone_bad s z = false <-> data_zone s z.
Proof. unfold zone_bad, data_zone. lia. Qed.

Section InodeProofs.
Context {E : Type} `{DSK : Disk E} {rd wr : fptr} {cap : Z} `{SPEC : !DiskSpec E rd wr cap}.

(** The statuses of the inode layer. *)
Definition inode_status (e : Z) : Prop :=
  e = - CP32_SUPER_IO \/ e = - CP32_SUPER_INVALID \/ e = - CP32_SUPER_UNSUPPORTED \/
  e = - CP32_FILE_IS_DIR \/ e = - CP32_FILE_NOT_DIR.

(** An inode is refused with one of these statuses, and when the device is
    reliable only because it does not satisfy [P]. *)
Definition refused (P : Prop) (e : Z) : Prop :=
  inode_status e /\ (reliable (rd := rd) (wr := wr) (cap := cap) -> ~ P).

Lemma refused_mono (P P' : Prop) e : (P -> P') -> refused P' e -> refused P e.
Proof. intros H [? Hn]. split; [done|]. intros Hr HP. by apply Hn, H. Qed.

Lemma refused_check (P : Prop) e : inode_status e -> ~ P -> refused P e.
Proof. by intros. Qed.

Lemma map_stored_zmap c s z :
  super_wf c s -> c <= cap -> cap < 4294967296 -> data_zone s z ->
  map_stored (cap := cap) (zmap_offset s) (zone_bit s z).
Proof.
  intros Hs Hcc Hc Hz. rewrite (zmap_offset_eq c), (zone_bit_eq c) by (done || lia).
  pose proof Hs as Hg. geometry Hg. unfold map_stored, zmap_at.
  assert (s_zones s <= 4194304) by nia.
  assert (s_first_data_zone s * zone_bytes s <= s_zones s * zone_bytes s)
    by (apply Z.mul_le_mono_nonneg_r; lia).
  assert (0 <= (s_ninodes s + 15) / 16) by (apply Z.div_pos; lia).
  assert (0 <= (z - s_first_data_zone s + 1) / 16 * 2 <= s_zmap_blocks s * 1024 - 2)
    by (Z.div_mod_to_equations; lia).
  unwrap. lia.
Qed.

Lemma zone_checks_reads d t c s z others :
  super_wf c s -> c <= cap -> cap < 4294967296 ->
  reads d t (guard (zone_bad s z) (- CP32_SUPER_INVALID) ;;;
             guard (existsb (Z.eqb z) others) (- CP32_SUPER_INVALID) ;;;
             zone_allocated rd s z)
    (fun _ => extra_ok d s z others) (refused (extra_ok d s z others)).
Proof.
  intros Hs Hcc Hc.
  eapply reads_bind with (Q' := fun _ => data_zone s z).
  { reads_step; [|by apply zone_bad_false]. apply refused_check; [unfold inode_status; auto|].
    intros [[Hz _] _]. apply zone_bad_false in Hz. congruence. }
  intros _ Hz. eapply reads_bind with (Q' := fun _ => ~ In z others).
  { reads_step; [|by apply existsb_eqb_in]. apply refused_check; [unfold inode_status; auto|].
    intros [_ Hn]. by apply Hn, existsb_eqb_in'. }
  intros _ Hn. unfold zone_allocated.
  assert (Hb : forall b, map_bit d (zmap_offset s) (zone_bit s z) (s_swapped s) = b ->
    map_bit d (zmap_at s) (z - s_first_data_zone s + 1) (s_swapped s) = b)
    by (intros b; by rewrite (zmap_offset_eq c), (zone_bit_eq c) by (done || lia)).
  eapply reads_conseq; [apply allocated_reads|..].
  - intros [] H. split; [|done]. split; [done|]. by apply Hb.
  - intros e [[-> Hr]|[-> H]]; split; try (unfold inode_status; auto); intros Hrel.
    + exfalso. apply (Hr Hrel). by apply map_stored_zmap with (c := c).
    + apply Hb in H. intros [[_ Hl] _]. congruence.
Qed.

Lemma imap_allocated_reads d t c s n :
  super_wf c s -> c <= cap -> cap < 4294967296 -> 1 <= n <= s_ninodes s ->
  reads d t (cp32_fs_allocated rd 2048 n (s_swapped s))
    (fun _ => inode_live d s n) (refused (inode_live d s n)).
Proof.
  intros Hs Hcc Hc Hn. eapply reads_conseq; [apply allocated_reads|..].
  - intros [] Hb. split; [lia|done].
  - intros e [[-> Hr]|[-> H]]; split; try (unfold inode_status; auto); intros Hrel.
    + exfalso. apply (Hr Hrel). geometry Hs. unfold map_stored.
      assert (0 <= n / 16 * 2 <= s_imap_blocks s * 1024 - 2) by (Z.div_mod_to_equations; lia).
      assert (s_first_data_zone s * zone_bytes s <= s_zones s * zone_bytes s)
        by (apply Z.mul_le_mono_nonneg_r; lia).
      assert (0 <= (s_ninodes s + 15) / 16) by (apply Z.div_pos; lia).
      unwrap. lia.
    + intros [_ Hl]. unfold imap_at in Hl. congruence.
Qed.

Lemma inode_allocated_reads d t c s n :
  super_wf c s -> c <= cap -> cap < 4294967296 -> 0 <= n ->
  reads d t (guard ((n =? 0) || (s_ninodes s <? n)) (- CP32_SUPER_INVALID) ;;;
             cp32_fs_allocated rd 2048 n (s_swapped s))
    (fun _ => inode_live d s n) (refused (inode_live d s n)).
Proof.
  intros Hs Hcc Hc Hp. eapply reads_bind with (Q' := fun _ => n <> 0 /\ n <= s_ninodes s).
  { reads_step; [|lia]. apply refused_check; [unfold inode_status; auto|]. intros [? _]. lia. }
  intros _ Hn. apply (imap_allocated_reads d t c); done || lia.
Qed.

(** The check of entry [i] of the direct zones, in both loops. *)
Definition zone_needed (strict : Prop) (used i z : Z) : Prop := i < used /\ (strict \/ z <> 0).

Lemma direct_zone_reads d t c s strict raw used i zs (cond : bool) :
  super_wf c s -> c <= cap -> cap < 4294967296 -> 0 <= i ->
  zs = raw_zones raw (s_swapped s) (Z.to_nat i) -> zones_ok d s strict used zs ->
  let z := raw_zone raw (s_swapped s) i in
  (cond = true <-> zone_needed strict used i z) ->
  reads d t
    ((if cond then
       guard (zone_bad s z) (- CP32_SUPER_INVALID) ;;;
       guard (existsb (Z.eqb z) zs) (- CP32_SUPER_INVALID) ;;;
       zone_allocated rd s z
      else ret tt) ;;; ret (zs ++ [z]))
    (fun zs' => zs' = raw_zones raw (s_swapped s) (Z.to_nat (i + 1)) /\
                zones_ok d s strict used zs')
    (refused (zone_needed strict used i z -> extra_ok d s z zs)).
Proof.
  intros Hs Hcc Hc Hi -> Hok z Hcond. set (zs := raw_zones _ _ _) in *.
  eapply reads_bind with (Q' := fun _ => zone_needed strict used i z -> extra_ok d s z zs).
  { destruct cond.
    - eapply reads_conseq; [by apply zone_checks_reads with (c := c)|auto|].
      intros e. apply refused_mono. intros H. apply H. by apply Hcond.
    - apply reads_ret. intros Hn. by apply Hcond in Hn. }
  intros _ Hz. apply reads_ret.
  replace (Z.to_nat (i + 1)) with (S (Z.to_nat i)) by lia.
  rewrite raw_zones_S, Z2Nat.id by lia. split; [done|]. apply zones_ok_snoc; [done|].
  subst zs. rewrite lenZ_raw_zones, Z2Nat.id by lia. intros. by apply Hz.
Qed.

Lemma file_zone_reads d t c s raw used i zs :
  super_wf c s -> c <= cap -> cap < 4294967296 -> 0 <= i ->
  zs = raw_zones raw (s_swapped s) (Z.to_nat i) -> zones_ok d s False used zs ->
  let z := raw_zone raw (s_swapped s) i in
  reads d t (file_zone rd s raw used i zs)
    (fun zs' => zs' = raw_zones raw (s_swapped s) (Z.to_nat (i + 1)) /\
                zones_ok d s False used zs')
    (refused (zone_needed False used i z -> extra_ok d s z zs)).
Proof.
  intros Hs Hcc Hc Hi Hzs Hok z.
  eapply reads_ext; cycle 1.
  { apply (direct_zone_reads d t c s False raw used i zs
      (negb ((used <=? i) || (z =? 0)))); try done. unfold zone_needed. subst z. lia. }
  intros w. unfold file_zone. subst z. by destruct ((used <=? i) || _).
Qed.

Lemma dir_zone_reads d t c s raw used i zs :
  super_wf c s -> c <= cap -> cap < 4294967296 -> 0 <= i ->
  zs = raw_zones raw (s_swapped s) (Z.to_nat i) -> zones_ok d s True used zs ->
  let z := raw_zone raw (s_swapped s) i in
  reads d t (dir_zone rd s raw used i zs)
    (fun zs' => zs' = raw_zones raw (s_swapped s) (Z.to_nat (i + 1)) /\
                zones_ok d s True used zs')
    (refused (zone_needed True used i z -> extra_ok d s z zs)).
Proof.
  intros Hs Hcc Hc Hi Hzs Hok z.
  apply (direct_zone_reads d t c s True raw used i zs (i <? used)); try done.
  unfold zone_needed. lia.
Qed.

Lemma zone_loop_reads d t s (strict : Prop) used (body : Z -> list Z -> M (fsw E) (list Z)) raw :
  (forall i zs, 0 <= i -> zs = raw_zones raw (s_swapped s) (Z.to_nat i) ->
     zones_ok d s strict used zs ->
     let z := raw_zone raw (s_swapped s) i in
     reads d t (body i zs)
       (fun zs' => zs' = raw_zones raw (s_swapped s) (Z.to_nat (i + 1)) /\
                   zones_ok d s strict used zs')
       (refused (zone_needed strict used i z -> extra_ok d s z zs))) ->
  reads d t (for_ 7 0 body [])
    (fun zs => zs = raw_zones raw (s_swapped s) 7 /\ zones_ok d s strict used zs)
    (refused (zones_ok d s strict used (raw_zones raw (s_swapped s) 7))).
Proof.
  intros Hb. apply (reads_for d t (fun j zs => zs = raw_zones raw (s_swapped s) (Z.to_nat j) /\
    zones_ok d s strict used zs) 7 0).
  - intros j zs Hj [Heq Hok]. eapply reads_conseq; [by apply Hb; [lia|..]|auto|].
    intros e. apply refused_mono. intros H7 [Hu Hz]. subst zs.
    by apply zones_ok_nth with (m := 7%nat) (strict := strict) (used := used); [lia|..].
  - split; [done|]. intros i Hi. change (lenZ (@nil Z)) with 0 in Hi. lia.
Qed.

(** The number of zones of a file as the code computes it. *)
Lemma used_eq s size :
  1024 <= zone_bytes s <= 16384 -> 0 <= size <= 2147483647 ->
  (size +u zone_bytes s -u 1) / zone_bytes s = used_zones s size.
Proof. intros. unfold used_zones. by unwrap. Qed.

Lemma inode_field32 d s n at_ :
  (forall a, is_byte (d a)) -> 0 <= at_ -> at_ + 4 <= 64 ->
  is_u32 (cp32_fs_u32 (ptr_add (inode_bytes d s n) at_) (s_swapped s)).
Proof.
  intros Hb H0 H1. apply u32_range; rewrite nthZ_ptr_add by lia; apply mem_read_byte; done || lia.
Qed.
Lemma double_guard_eq s z indirect zones (cond : bool) (w : fsw E) :
  (if cond then
     guard (zone_bad s z || (z =? indirect)) (- CP32_SUPER_INVALID) ;;;
     guard (existsb (Z.eqb z) zones) (- CP32_SUPER_INVALID) ;;;
     zone_allocated rd s z
   else ret tt) w =
  (if cond then
     guard (zone_bad s z) (- CP32_SUPER_INVALID) ;;;
     guard (existsb (Z.eqb z) (indirect :: zones)) (- CP32_SUPER_INVALID) ;;;
     zone_allocated rd s z
   else ret tt) w.
Proof.
  destruct cond; [|done]. unfold bind, guard. cbn [existsb].
  by destruct (zone_bad s z), (z =? indirect).
Qed.

(** A check of an optional block: its branch of the code, with what it ensures. *)
Lemma optional_zone_reads d t c s z others (cond : bool) (P : Prop) :
  super_wf c s -> c <= cap -> cap < 4294967296 -> (P <-> cond = true) ->
  reads d t
    (if cond then
       guard (zone_bad s z) (- CP32_SUPER_INVALID) ;;;
       guard (existsb (Z.eqb z) others) (- CP32_SUPER_INVALID) ;;;
       zone_allocated rd s z
     else ret tt)
    (fun _ => P -> extra_ok d s z others) (refused (P -> extra_ok d s z others)).
Proof.
  intros Hs Hcc Hc HP. destruct cond.
  - eapply reads_conseq; [by apply zone_checks_reads with (c := c)|auto|].
    intros e. apply refused_mono. intros H. apply H. by apply HP.
  - apply reads_ret. intros H. by apply HP in H.
Qed.

(** A guard whose condition contradicts [P]. *)
Lemma reads_refuse d t (b : bool) e (P : Prop) (Q : unit -> Prop) :
  inode_status e -> (P -> b = false) -> (b = false -> Q tt) ->
  reads d t (guard b e) Q (refused P).
Proof.
  intros He HP HQ. apply reads_guard; [|done]. intros Hb. apply refused_check; [done|].
  intros H%HP. congruence.
Qed.

Lemma read_inode_reads d t c s n (P : Prop) :
  super_wf c s -> c <= cap -> cap < 4294967296 -> inode_live d s n ->
  reads d t (read_or (- CP32_SUPER_IO) rd (inode_offset s n) 64)
    (fun raw => raw = inode_bytes d s n) (refused P).
Proof.
  intros Hs Hcc Hc [Hn _]. rewrite (inode_offset_eq c) by (done || lia).
  apply reads_read_or; [lia| |done]. intros Hr. split; [unfold inode_status; auto|].
  intros Hrel. specialize (Hr Hrel). exfalso.
  pose proof Hs as Hg. geometry Hg.
  assert ((s_ninodes s + 15) / 16 * 1024 >= s_ninodes s * 64) by (Z.div_mod_to_equations; lia).
  assert (s_first_data_zone s * zone_bytes s <= s_zones s * zone_bytes s)
    by (apply Z.mul_le_mono_nonneg_r; lia).
  lia.
Qed.

Lemma reads_bind_refused {A B} d t (c : M (fsw E) A) (k : A -> M (fsw E) B) Q' P' Q P :
  reads d t c Q' (refused P') -> (P -> P') -> (forall a, Q' a -> reads d t (k a) Q (refused P)) ->
  reads d t (bind c k) Q (refused P).
Proof.
  intros Hc HP Hk. eapply reads_bind; [|exact Hk].
  eapply reads_conseq; [exact Hc|done|]. intros e. by apply refused_mono.
Qed.

Lemma open_directory_reads d t c s n :
  (forall a, is_byte (d a)) -> super_wf c s -> c <= cap -> cap < 4294967296 -> 0 <= n ->
  reads d t (cp32_fs_open_directory rd s n)
    (fun dir => dir = dir_of_inode d rd s n /\ dir_ok d rd s n) (refused (dir_ok d rd s n)).
Proof.
  intros Hb Hs Hcc Hc Hn. pose proof Hs as Hg. geometry Hg. unfold cp32_fs_open_directory.
  apply reads_assoc with (k := fun _ => cp32_fs_allocated rd 2048 n (s_swapped s)).
  eapply reads_bind_refused; [by apply (inode_allocated_reads d t c)|apply do_live|].
  intros [] Hl. eapply reads_bind; [by apply (read_inode_reads d t c)|].
  intros raw ->. cbv zeta.
  pose proof (inode_field32 d s n 8 Hb ltac:(lia) ltac:(lia)) as H8.
  eapply reads_bind; [apply reads_refuse with (Q := fun _ => Z.land (inode_mode d s n) S_IFMT = S_IFDIR)|].
  { unfold inode_status. destruct (n =? 1); auto. }
  { intros H%do_mode. unfold inode_mode in H. lia. }
  { unfold inode_mode. lia. }
  intros [] Hm. eapply reads_bind; [apply reads_refuse with (Q := fun _ => inode_links d s n <> 0)|].
  { unfold inode_status. auto. }
  { intros H%do_linked. unfold inode_links in H. lia. }
  { unfold inode_links. lia. }
  intros [] Hk. rewrite zone_bytes_shift by lia.
  set (size := cp32_fs_u32 (ptr_add (inode_bytes d s n) 8) (s_swapped s)) in *. unfold is_u32 in H8.
  eapply reads_bind; [apply reads_refuse with
    (Q := fun _ => 32 <= size <= s_max_size s /\ size mod 16 = 0)|].
  { unfold inode_status. auto. }
  { intros H%do_size. cbn [dir_of_inode d_size] in H. fold size in H. lia. }
  { lia. }
  intros [] Hsz. rewrite (wrap32_small (263 * zone_bytes s)) by lia.
  eapply reads_bind; [apply reads_refuse with (Q := fun _ => size <= 263 * zone_bytes s)|].
  { unfold inode_status. auto. }
  { intros H%do_bound. cbn [dir_of_inode d_size] in H. fold size in H. lia. }
  { lia. }
  intros [] Hsz'. rewrite used_eq by lia.
  eapply reads_bind_refused.
  { apply (zone_loop_reads d t s True (used_zones s size) _ (inode_bytes d s n)). intros.
    by apply (dir_zone_reads d t c). }
  { apply do_zones. }
  intros zs [-> Hzs]. eapply reads_bind_refused;
    [apply (optional_zone_reads d t c) with (P := 7 < used_zones s size); done || lia
    |apply do_indirect|].
  intros [] Hi. apply reads_ret. split; [done|]. by constructor.
Qed.

Lemma file_inode_reads d t c s n :
  (forall a, is_byte (d a)) -> super_wf c s -> c <= cap -> cap < 4294967296 -> 0 <= n ->
  reads d t (cp32_fs_file_inode rd s n)
    (fun f => f = file_of_inode d rd s n /\ file_ok d (st_tab t) rd s n) (refused (file_ok d (st_tab t) rd s n)).
Proof.
  intros Hb Hs Hcc Hc Hn. pose proof Hs as Hg. geometry Hg. unfold cp32_fs_file_inode.
  apply reads_assoc with (k := fun _ => cp32_fs_allocated rd 2048 n (s_swapped s)).
  eapply reads_bind_refused; [by apply (inode_allocated_reads d t c)|apply fo_live|].
  intros [] Hl. eapply reads_bind; [by apply (read_inode_reads d t c)|].
  intros raw ->. cbv zeta.
  pose proof (inode_field32 d s n 8 Hb ltac:(lia) ltac:(lia)) as H8.
  eapply reads_bind; [apply reads_refuse with (Q := fun _ => True); [|
    intros H%fo_mode; unfold inode_mode in H; rewrite H; done|done]|].
  { unfold inode_status. auto. }
  intros [] _. eapply reads_bind;
    [apply reads_refuse with (Q := fun _ => Z.land (inode_mode d s n) S_IFMT = S_IFREG)|].
  { unfold inode_status. auto. }
  { intros H%fo_mode. unfold inode_mode in H. lia. }
  { unfold inode_mode. lia. }
  intros [] Hm. eapply reads_bind with (Q' := fun k => k = cp32_fd_inode_open (st_tab t) rd n).
  { by apply (reads_gets d t (fun t => cp32_fd_inode_open (st_tab t) rd n)). }
  intros k ->. eapply reads_bind; [apply reads_refuse with
    (Q := fun _ => inode_links d s n <> 0 \/ cp32_fd_inode_open (st_tab t) rd n <> 0)|].
  { unfold inode_status. auto. }
  { intros H%fo_linked. unfold inode_links in H. lia. }
  { unfold inode_links. lia. }
  intros [] Hk. rewrite zone_bytes_shift by lia.
  set (size := cp32_fs_u32 (ptr_add (inode_bytes d s n) 8) (s_swapped s)) in *. unfold is_u32 in H8.
  eapply reads_bind; [apply reads_refuse with (Q := fun _ => size <= s_max_size s)|].
  { unfold inode_status. auto. }
  { intros H%fo_mapping%mo_max. cbn [file_of_inode f_size] in H. fold size in H. lia. }
  { lia. }
  intros [] Hsz. change (7 + 256 + 256 * 256) with 65799.
  rewrite (wrap32_small (65799 * zone_bytes s)) by lia.
  eapply reads_bind; [apply reads_refuse with (Q := fun _ => size <= 65799 * zone_bytes s)|].
  { unfold inode_status. auto. }
  { intros H%fo_mapping%mo_size. cbn [file_of_inode f_size] in H. fold size in H. lia. }
  { lia. }
  intros [] Hsz'. rewrite used_eq by lia.
  eapply reads_bind_refused.
  { apply (zone_loop_reads d t s False (used_zones s size) _ (inode_bytes d s n)). intros.
    by apply (file_zone_reads d t c). }
  { intros H%fo_mapping%mo_zones. exact H. }
  intros zs [-> Hzs].
  set (indirect := cp32_fs_u32 (ptr_add (inode_bytes d s n) 52) (s_swapped s)).
  eapply reads_bind_refused; [apply (optional_zone_reads d t c)
    with (P := 7 < used_zones s size /\ indirect <> 0); done || lia
    |intros H; exact (mo_indirect _ _ _ (fo_mapping _ _ _ _ _ H))|].
  intros [] Hi.
  set (double := cp32_fs_u32 (ptr_add (inode_bytes d s n) 56) (s_swapped s)).
  eapply reads_bind_refused with (Q' := fun _ => 263 < used_zones s size /\ double <> 0 ->
    extra_ok d s double (indirect :: raw_zones (inode_bytes d s n) (s_swapped s) 7)).
  { eapply reads_ext; [apply double_guard_eq|].
    apply (optional_zone_reads d t c); done || lia. }
  { intros H. exact (mo_double _ _ _ (fo_mapping _ _ _ _ _ H)). }
  intros [] Hdb. apply reads_ret. split; [done|].
  by constructor.
Qed.

(** The time fields of inode [n], and the sector that holds them. *)
Definition time_bytes (s : cp32_minix_super) (n a : Z) : Prop :=
  inode_at s n + 12 <= a < inode_at s n + 24.
Definition time_sector (s : cp32_minix_super) (n : Z) : region :=
  sectors (inode_at s n + 12) 12.

(** Updating times changes nothing but the time fields; a failing device may
    damage their sector. *)
Lemma inode_time_writes d c s n mask :
  (forall a, is_byte (d a)) -> super_wf c s -> c < 4294967296 -> 1 <= n <= s_ninodes s ->
  writes (time_sector s n) d (cp32_fs_inode_time rd s n mask)
    (fun _ d' => agree (time_bytes s n) d d') (fun e => e = - CP32_SUPER_IO).
Proof.
  intros Hb Hs Hc Hn. unfold cp32_fs_inode_time.
  eapply writes_bind with (Q' := fun b d' =>
    d' ≡m d /\ match b with Some x => x = wr | None => True end).
  { apply writes_gets. intros w d' [_ Hbound] Hd'. split; [done|]. unfold time_binding.
    destruct (time_off rd w) eqn:Hoff; [done|]. unfold time_off in Hoff.
    assert (Hr : fs_time_reader w = rd) by lia. destruct (Hbound Hr); [lia|done]. }
  intros [x|] d0 _ [H0 Hx]; cycle 1.
  { apply writes_ret. intros d' H'. apply agree_eq. by rewrite H', H0. }
  subst x.
  assert (Hat : (2 +u s_imap_blocks s +u s_zmap_blocks s) *u 1024 +u (n -u 1) *u 64 +u 12 =
                inode_at s n + 12).
  { change ((2 +u s_imap_blocks s +u s_zmap_blocks s) *u 1024 +u (n -u 1) *u 64)
      with (inode_offset s n). rewrite (inode_offset_eq c) by done.
    pose proof Hs as Hg. geometry Hg. apply wrap32_small.
    assert ((s_ninodes s + 15) / 16 * 1024 >= s_ninodes s * 64) by (Z.div_mod_to_equations; lia).
    assert (s_first_data_zone s * zone_bytes s <= s_zones s * zone_bytes s)
      by (apply Z.mul_le_mono_nonneg_r; lia). lia. }
  rewrite Hat. assert (Hpos : 0 <= inode_at s n + 12) by (pose proof Hs as Hg; geometry Hg; lia).
  eapply writes_bind with (Q' := fun raw d' => d' ≡m d /\ lenZ raw = 12 /\ Forall is_byte raw).
  { apply writes_read_or; [lia|done|]. intros _ _ d' H'. split; [by rewrite H'|].
    split; [by apply lenZ_mem_read|]. apply Forall_mem_read. intros a. by rewrite H0. }
  intros raw d1 _ (H1 & Hl & HF). cbv zeta.
  eapply writes_bind with (Q' := fun raw' d' =>
    d' ≡m d /\ lenZ raw' = 12 /\ Forall is_byte raw').
  { eapply writes_reads with (Q := fun raw' => stamped raw raw' 0 (s_swapped s) mask)
      (F := fun e => e = - CP32_SUPER_IO); [intros t; apply stamp_reads| |auto].
    intros raw' d' Hst Hd'. split; [by rewrite Hd'|]. destruct Hst as [->|(now & Hnow & ->)].
    - done.
    - split; [|by apply put_times_Forall]. rewrite <- Hl.
      apply put_times_spec; unfold is_u32; lia. }
  intros raw' d2 _ (H2 & Hl2 & HF2). destruct (_ && _).
  { apply writes_ret. intros d' H'. apply agree_eq. by rewrite H', H2. }
  eapply writes_conseq;
    [apply writes_through with (F := fun e => e = - CP32_SUPER_IO);
       [done|done|by rewrite Hl2|done|by rewrite Hl2]|..|done].
  intros [] d' _ [_ Hd'] a Ha. rewrite Hd', mem_write_out.
  - by rewrite H2.
  - unfold time_bytes in Ha. lia.
Qed.

(** [cp32_fs_file_inode] opens exactly the usable regular files.  A success
    returns what the inode on the volume says, and the inode is live, linked or
    open, within the size limits and names only live, pairwise distinct data
    zones below its size; a refusal by a reliable device means that the inode
    violates one of these; nothing is written either way. *)
Theorem file_inode_exact w c s n :
  fs_coh w -> super_wf c s -> c <= cap -> cap < 4294967296 -> 0 <= n ->
  match cp32_fs_file_inode rd s n w with
  | (Ok f, w') =>
      at_data (fs_data w) (fs_statics w) w' /\ f = file_of_inode (fs_data w) rd s n /\
      file_ok (fs_data w) (fs_tab w) rd s n
  | (Err e, w') =>
      at_data (fs_data w) (fs_statics w) w' /\ inode_status e /\
      (reliable (rd := rd) (wr := wr) (cap := cap) -> ~ file_ok (fs_data w) (fs_tab w) rd s n)
  end.
Proof.
  intros Hw Hs Hcc Hc Hn. apply reads_run; [|done]. apply reads_bytes. intros Hb.
  by apply (file_inode_reads (fs_data w) (fs_statics w) c).
Qed.

(** The same for directories: [cp32_fs_open_directory] succeeds exactly on
    live linked directory inodes whose size is a positive number of entries and
    whose zones up to it are all live and distinct. *)
Theorem open_directory_exact w c s n :
  fs_coh w -> super_wf c s -> c <= cap -> cap < 4294967296 -> 0 <= n ->
  match cp32_fs_open_directory rd s n w with
  | (Ok dir, w') =>
      at_data (fs_data w) (fs_statics w) w' /\ dir = dir_of_inode (fs_data w) rd s n /\
      dir_ok (fs_data w) rd s n
  | (Err e, w') =>
      at_data (fs_data w) (fs_statics w) w' /\ inode_status e /\
      (reliable (rd := rd) (wr := wr) (cap := cap) -> ~ dir_ok (fs_data w) rd s n)
  end.
Proof.
  intros Hw Hs Hcc Hc Hn. apply reads_run; [|done]. apply reads_bytes. intros Hb.
  by apply (open_directory_reads _ _ c).
Qed.
End InodeProofs.

(** ** Witnesses *)
Lemma memdisk_reliable cap : reliable (rd := MD_READ) (wr := MD_WRITE) (cap := cap).
Proof.
  intros e off n <- Ho Hn Hle. simpl. unfold md_read.
  by replace ((0 <=? off) && (0 <? n) && (off + n <=? md_cap e)) with true by lia.
Qed.

Definition demo_file (n : Z) (size : Z) (zones : list Z) : cp32_minix_file :=
  File MD_READ size 0 1024 zones Demo.super 0 0 n.

Lemma demo_file_inode :
  fst (cp32_fs_file_inode MD_READ Demo.super 4 Demo.state) =
  Ok (demo_file 4 1030 [9; 0; 0; 0; 0; 0; 0]).
Proof. vm_compute. reflexivity. Qed.

Lemma file_inode_exact_witness :
  file_ok (fs_data (rd := MD_READ) (wr := MD_WRITE) (cap := 65536) Demo.state)
    (fs_tab Demo.state) MD_READ Demo.super 4.
Proof.
  pose proof (file_inode_exact (rd := MD_READ) (wr := MD_WRITE) (cap := 65536)
    Demo.state 65536 Demo.super 4 demo_coh demo_super_wf ltac:(lia) ltac:(lia) ltac:(lia)) as H.
  rewrite (run_ok _ _ _ demo_file_inode) in H. apply H.
Defined.

Lemma demo_not_directory :
  fst (cp32_fs_open_directory MD_READ Demo.super 2 Demo.state) = Err (- CP32_FILE_NOT_DIR).
Proof. vm_compute. reflexivity. Qed.

Lemma open_directory_exact_witness :
  ~ dir_ok (fs_data (rd := MD_READ) (wr := MD_WRITE) (cap := 65536) Demo.state)
      MD_READ Demo.super 2.
Proof.
  pose proof (open_directory_exact (rd := MD_READ) (wr := MD_WRITE) (cap := 65536)
    Demo.state 65536 Demo.super 2 demo_coh demo_super_wf ltac:(lia) ltac:(lia) ltac:(lia)) as H.
  rewrite (run_err _ _ _ demo_not_directory) in H. apply H, memdisk_reliable.
Defined.
