(* ===== verification/Read.v ===== *)
(** * Zone mapping and file reads: src/src/fs/read.c *)
From S2P Require Import Prelude Codec FsTypes FdTable MemDisk Super Timestamp Inode.

Section Read.
Context {E : Type} `{DSK : Disk E}.
Abbreviation FM := (M (fsw E)).

(** [static int cp32_read_indirect(file, table, index, parent, zone)] *)
Definition cp32_read_indirect (file : cp32_minix_file) (table index parent : Z) : FM Z :=
  if table =? 0 then ret 0 else
  raw <- read_or (- CP32_SUPER_IO) (f_read file)
           (table *u f_zone_bytes file +u index *u 4) 4 ;;
  let s := f_super file in
  let mapped := cp32_fs_u32 raw (s_swapped s) in
  (if mapped =? 0 then ret tt else
     guard (zone_bad s mapped || (mapped =? table) || (mapped =? parent) ||
            (mapped =? f_indirect file) || (mapped =? f_double_indirect file))
           (- CP32_SUPER_INVALID) ;;;
     guard (existsb (Z.eqb mapped) (f_zones file)) (- CP32_SUPER_INVALID) ;;;
     cp32_fs_allocated (f_read file) (zmap_offset s) (zone_bit s mapped) (s_swapped s)) ;;;
  ret mapped.

(** [int cp32_fs_read_map(file, index, zone)] *)
Definition cp32_fs_read_map (file : cp32_minix_file) (index : Z) : FM Z :=
  if index <? 7 then ret (nthZ (f_zones file) index) else
  if index <? 263 then
    cp32_read_indirect file (f_indirect file) (index - 7) 0
  else
    let excess := index - 263 in
    guard (256 * 256 <=? excess) (- CP32_SUPER_UNSUPPORTED) ;;;
    table <- cp32_read_indirect file (f_double_indirect file) (excess / 256) 0 ;;
    cp32_read_indirect file table (excess mod 256) (f_double_indirect file).

(** [int cp32_minix_file_read(file, buffer, count)]: the bytes stored in
    [buffer] (their number is the result) and the advanced file. *)
Definition cp32_minix_file_read (file : cp32_minix_file) (buffer count : Z)
  : FM (list Z * cp32_minix_file) :=
  guard ((f_read file =? 0) || ((count !=? 0) && (buffer =? 0))) (- CP32_SUPER_INVALID) ;;;
  if count =? 0 then ret ([], file) else
  if f_size file <=? f_position file
  then cp32_fs_data_time file 1 ;;; ret ([], file) else
  let chunk := f_size file -u f_position file in
  let chunk := if count <? chunk then count else chunk in
  let chunk := if 64 <? chunk then 64 else chunk in
  let within := f_position file mod f_zone_bytes file in
  let chunk := if f_zone_bytes file -u within <? chunk
               then f_zone_bytes file -u within else chunk in
  zone <- cp32_fs_read_map file (f_position file / f_zone_bytes file) ;;
  bytes <- (if zone =? 0 then ret (replicate (Z.to_nat chunk) 0)
            else read_or (- CP32_SUPER_IO) (f_read file)
                   (zone *u f_zone_bytes file +u within) chunk) ;;
  cp32_fs_data_time file 1 ;;;
  ret (bytes, f_set_position file (f_position file +u chunk)).
End Read.

(** ** Specification: the contents of a file *)

(** Entry [index] of the indirect block [table]; no block means a hole. *)
Definition table_entry (d : mem) (s : cp32_minix_super) (table index : Z) : Z :=
  if table =? 0 then 0
  else cp32_fs_u32 (mem_read d (table * zone_bytes s + index * 4) 4) (s_swapped s).

(** A block named by an indirect table is live and is no block of another role. *)
Definition entry_ok (d : mem) (f : cp32_minix_file) (table parent z : Z) : Prop :=
  z <> 0 -> extra_ok d (f_super f) z
    (table :: parent :: f_indirect f :: f_double_indirect f :: f_zones f).

(** The zone of block [index] of a file, 0 for a hole. *)
Definition bmap (d : mem) (f : cp32_minix_file) (index : Z) : Z :=
  let s := f_super f in
  if index <? 7 then nthZ (f_zones f) index
  else if index <? 263 then table_entry d s (f_indirect f) (index - 7)
  else table_entry d s (table_entry d s (f_double_indirect f) ((index - 263) / 256))
         ((index - 263) mod 256).

(** The tables on the way to block [index] are sound. *)
Definition bmap_ok (d : mem) (f : cp32_minix_file) (index : Z) : Prop :=
  let s := f_super f in
  if index <? 7 then True
  else if index <? 263
  then entry_ok d f (f_indirect f) 0 (table_entry d s (f_indirect f) (index - 7))
  else let t := table_entry d s (f_double_indirect f) ((index - 263) / 256) in
       entry_ok d f (f_double_indirect f) 0 t /\
       entry_ok d f t (f_double_indirect f) (table_entry d s t ((index - 263) mod 256)).

(** The byte of a file at [pos] and the [n] bytes from there. *)
Definition file_byte (d : mem) (f : cp32_minix_file) (pos : Z) : Z :=
  let z := bmap d f (pos / f_zone_bytes f) in
  if z =? 0 then 0 else d (z * f_zone_bytes f + pos mod f_zone_bytes f).
Definition file_bytes (d : mem) (f : cp32_minix_file) (pos n : Z) : list Z :=
  mem_read (file_byte d f) pos n.

(** A mapping of the volume of reader [read], and a file opened from it. *)
Record map_wf (c : Z) (read : fptr) (f : cp32_minix_file) : Prop := {
  mw_super : super_wf c (f_super f);
  mw_read : f_read f = read;
  mw_zone_bytes : f_zone_bytes f = zone_bytes (f_super f) }.

Record file_wf (c : Z) (d : mem) (read : fptr) (f : cp32_minix_file) : Prop := {
  fw_super : super_wf c (f_super f);
  fw_read : f_read f = read;
  fw_zone_bytes : f_zone_bytes f = zone_bytes (f_super f);
  fw_len : lenZ (f_zones f) = 7;
  fw_inode : 1 <= f_inode f <= s_ninodes (f_super f);
  fw_size : 0 <= f_size f;
  fw_mapping : mapping_ok d (f_super f) f }.

(** The length of one transfer. *)
Definition transfer (f : cp32_minix_file) (count : Z) : Z :=
  if f_size f <=? f_position f then 0
  else Z.min (Z.min (Z.min (f_size f - f_position f) count) 64)
             (f_zone_bytes f - f_position f mod f_zone_bytes f).

Lemma file_of_inode_wf c d t read s n :
  (forall a, is_byte (d a)) -> super_wf c s -> file_ok d t read s n ->
  file_wf c d read (file_of_inode d read s n).
Proof.
  intros Hb Hs Hf. constructor; try done.
  - apply Hf.
  - cbn [file_of_inode f_size]. apply inode_field32; done || lia.
  - apply Hf.
Qed.

Lemma file_map_wf c d read f : file_wf c d read f -> map_wf c read f.
Proof. by intros []; constructor. Qed.

Lemma zone_in_volume c s z :
  super_wf c s -> data_zone s z ->
  data_at s <= z * zone_bytes s /\ z * zone_bytes s + zone_bytes s <= c.
Proof. intros Hs Hz. geometry Hs. nia. Qed.

Lemma extra_ok_mono d s z l l' : (forall x, In x l' -> In x l) -> extra_ok d s z l -> extra_ok d s z l'.
Proof. intros H [? Hn]. split; auto. Qed.

Section ReadProofs.
Context {E : Type} `{DSK : Disk E} {rd wr : fptr} {cap : Z} `{SPEC : !DiskSpec E rd wr cap}.
Abbreviation refused := (refused (rd := rd) (wr := wr) (cap := cap)).

Lemma indirect_guards_eq f s table parent z (w : fsw E) :
  (guard (zone_bad s z || (z =? table) || (z =? parent) ||
          (z =? f_indirect f) || (z =? f_double_indirect f)) (- CP32_SUPER_INVALID) ;;;
   guard (existsb (Z.eqb z) (f_zones f)) (- CP32_SUPER_INVALID) ;;;
   zone_allocated rd s z) w =
  (guard (zone_bad s z) (- CP32_SUPER_INVALID) ;;;
   guard (existsb (Z.eqb z) (table :: parent :: f_indirect f :: f_double_indirect f :: f_zones f))
         (- CP32_SUPER_INVALID) ;;;
   zone_allocated rd s z) w.
Proof.
  unfold bind, guard. cbn [existsb].
  by destruct (zone_bad s z), (z =? table), (z =? parent), (z =? f_indirect f),
     (z =? f_double_indirect f).
Qed.

Lemma read_indirect_reads d t c f table index parent :
  (forall a, is_byte (d a)) -> map_wf c rd f -> c <= cap -> cap < 4294967296 ->
  table = 0 \/ data_zone (f_super f) table -> 0 <= index < 256 ->
  let z := table_entry d (f_super f) table index in
  reads d t (cp32_read_indirect f table index parent)
    (fun x => x = z /\ entry_ok d f table parent z) (refused (entry_ok d f table parent z)).
Proof.
  intros Hb Hf Hcc Hc Ht Hi z. unfold cp32_read_indirect. subst z. unfold table_entry.
  destruct (Z.eqb_spec table 0) as [->|Hne].
  { apply reads_ret. split; [done|]. by intros ?. }
  destruct Ht as [|Hz]; [done|]. pose proof (mw_super _ _ _ Hf) as Hs.
  destruct (zone_in_volume c _ table Hs Hz) as [Hlo Hhi].
  assert (H0 : 0 <= table * zone_bytes (f_super f)) by (pose proof Hs as Hg; geometry Hg; nia).
  assert (H4 : 1024 <= zone_bytes (f_super f)) by (pose proof Hs as Hg; geometry Hg; lia).
  rewrite (mw_zone_bytes _ _ _ Hf), (mw_read _ _ _ Hf). unwrap.
  set (off := table * zone_bytes (f_super f) + index * 4).
  set (z := cp32_fs_u32 (mem_read d off 4) (s_swapped (f_super f))).
  eapply reads_bind with (Q' := fun raw => raw = mem_read d off 4).
  { apply reads_read_or; [lia| |done]. intros Hr. split; [unfold inode_status; auto|].
    intros Hrel. specialize (Hr Hrel). subst off. lia. }
  intros raw ->. fold z. cbv zeta.
  eapply reads_bind with (Q' := fun _ => entry_ok d f table parent z); [|intros [] Hok].
  - destruct (Z.eqb_spec z 0) as [Hz0|Hz0]; [apply reads_ret; by intros ?|].
    eapply reads_ext; [apply (indirect_guards_eq f (f_super f))|].
    eapply reads_conseq; [by apply (zone_checks_reads d t c)|by intros [] ? ?|].
    intros e. apply refused_mono. intros H. by apply H.
  - by apply reads_ret.
Qed.

(** Index arithmetic of a file that is large enough to need its tables. *)
Lemma used_index s size index :
  1024 <= zone_bytes s -> 0 <= index -> index * zone_bytes s < size -> index < used_zones s size.
Proof.
  intros Hz Hi Hlt. unfold used_zones.
  assert ((index + 1) * zone_bytes s <= size + zone_bytes s - 1) by lia.
  assert (index + 1 <= (size + zone_bytes s - 1) / zone_bytes s)
    by (apply Z.div_le_lower_bound; lia). lia.
Qed.

(** What [cp32_fs_read_map] needs of the blocks it starts from. *)
Definition map_roots (d : mem) (f : cp32_minix_file) (index : Z) : Prop :=
  0 <= index < 65799 /\
  (index < 7 -> nthZ (f_zones f) index <> 0 -> zone_live d (f_super f) (nthZ (f_zones f) index)) /\
  (7 <= index -> f_indirect f = 0 \/ data_zone (f_super f) (f_indirect f)) /\
  (263 <= index -> f_double_indirect f = 0 \/ data_zone (f_super f) (f_double_indirect f)).

Lemma read_map_reads d t c f index :
  (forall a, is_byte (d a)) -> map_wf c rd f -> c <= cap -> cap < 4294967296 ->
  map_roots d f index ->
  reads d t (cp32_fs_read_map f index)
    (fun z => z = bmap d f index /\ bmap_ok d f index /\ (z <> 0 -> zone_live d (f_super f) z))
    (refused (bmap_ok d f index)).
Proof.
  intros Hb Hf Hcc Hc (Hi & Hzs & Hind & Hdbl). pose proof (mw_super _ _ _ Hf) as Hs.
  unfold cp32_fs_read_map, bmap, bmap_ok. cbv zeta.
  destruct (Z.ltb_spec index 7) as [H7|H7]; [apply reads_ret; auto|].
  destruct (Z.ltb_spec index 263) as [H263|H263].
  { eapply reads_conseq; [apply (read_indirect_reads d t c f); try done; auto; lia|..].
    - intros z [-> Hok]. split_and!; [done|done|]. intros Hne. by apply Hok.
    - done. }
  eapply reads_bind with (Q' := fun _ => True); [apply reads_guard; intros; [lia|done]|].
  intros [] _. pose proof (Z.mod_pos_bound (index - 263) 256 ltac:(lia)) as Hm.
  assert (Hq : 0 <= (index - 263) / 256 < 256) by (Z.div_mod_to_equations; lia).
  eapply reads_bind_refused; [apply (read_indirect_reads d t c f); try done; auto|by intros [? _]|].
  intros tz [-> Hok1]. set (tz := table_entry _ _ _ _) in *.
  eapply reads_conseq; [apply (read_indirect_reads d t c f); try done|..].
  - destruct (Z.eq_dec tz 0); [by left|right]. by apply Hok1.
  - intros z [-> Hok2]. split_and!; [done..|]. intros Hne. by apply Hok2.
  - intros e. apply refused_mono. by intros [_ ?].
Qed.

Lemma file_roots c d f index :
  file_wf c d rd f -> 0 <= index -> index * f_zone_bytes f < f_size f -> map_roots d f index.
Proof.
  intros Hf Hi Hlt. pose proof (fw_super _ _ _ _ Hf) as Hs.
  pose proof Hs as Hg. geometry Hg. rewrite (fw_zone_bytes _ _ _ _ Hf) in Hlt.
  pose proof (used_index _ _ _ (proj1 Hzb) Hi Hlt) as Hu.
  destruct (fw_mapping _ _ _ _ Hf) as [_ Hmax Hzs Hind Hdbl].
  assert (Hex : index < 65799) by (apply (Z.mul_lt_mono_pos_r (zone_bytes (f_super f))); lia).
  split; [lia|]. split_and!.
  - intros H7 Hne. apply (Hzs index); [rewrite (fw_len _ _ _ _ Hf); lia|done|by right].
  - intros H7. destruct (Z.eq_dec (f_indirect f) 0); [by left|right]. apply Hind. lia.
  - intros H263. destruct (Z.eq_dec (f_double_indirect f) 0); [by left|right]. apply Hdbl. lia.
Qed.

(** The bytes of one transfer, before the access time is updated. *)
Definition read_chunk (f : cp32_minix_file) (n : Z) : M (fsw E) (list Z) :=
  zone <- cp32_fs_read_map f (f_position f / f_zone_bytes f) ;;
  if zone =? 0 then ret (replicate (Z.to_nat n) 0)
  else read_or (- CP32_SUPER_IO) (f_read f)
         (zone *u f_zone_bytes f +u f_position f mod f_zone_bytes f) n.

Lemma file_bytes_in_zone d f pos n :
  0 <= pos -> 0 <= n -> pos mod f_zone_bytes f + n <= f_zone_bytes f -> 0 < f_zone_bytes f ->
  file_bytes d f pos n =
  let z := bmap d f (pos / f_zone_bytes f) in
  if z =? 0 then replicate (Z.to_nat n) 0
  else mem_read d (z * f_zone_bytes f + pos mod f_zone_bytes f) n.
Proof.
  intros Hp Hn Hle Hz. cbv zeta. set (zb := f_zone_bytes f) in *. set (z := bmap d f (pos / zb)).
  assert (Hbyte : forall i, 0 <= i < n -> file_byte d f (pos + i) =
    if z =? 0 then 0 else d (z * zb + pos mod zb + i)).
  { intros i Hi. unfold file_byte. fold zb.
    assert (Hq : (pos + i) / zb = pos / zb /\ (pos + i) mod zb = pos mod zb + i).
    { pose proof (Z.div_mod pos zb ltac:(lia)). pose proof (Z.mod_pos_bound pos zb Hz).
      split; [symmetry; apply (Z.div_unique_pos _ _ _ (pos mod zb + i))|
              symmetry; apply (Z.mod_unique_pos _ _ (pos / zb))]; lia. }
    destruct Hq as [-> ->]. fold z. destruct (z =? 0); [done|]. f_equal. lia. }
  apply list_eq_nthZ.
  - unfold file_bytes. rewrite length_mem_read. destruct (z =? 0);
      by rewrite ?length_replicate, ?length_mem_read.
  - unfold file_bytes. rewrite lenZ_mem_read by done. intros i Hi.
    rewrite nthZ_mem_read, Hbyte by lia. destruct (z =? 0).
    + by rewrite nthZ_replicate.
    + by rewrite nthZ_mem_read by lia.
Qed.

Lemma read_chunk_reads d t c f n :
  (forall a, is_byte (d a)) -> file_wf c d rd f -> c <= cap -> cap < 4294967296 ->
  0 <= f_position f < f_size f -> 0 < n <= 64 ->
  f_position f mod f_zone_bytes f + n <= f_zone_bytes f ->
  reads d t (read_chunk f n) (fun bs => bs = file_bytes d f (f_position f) n)
    (refused (bmap_ok d f (f_position f / f_zone_bytes f))).
Proof.
  intros Hb Hf Hcc Hc Hp Hn Hle. pose proof (fw_super _ _ _ _ Hf) as Hs.
  assert (Hz : 1024 <= f_zone_bytes f <= 16384)
    by (rewrite (fw_zone_bytes _ _ _ _ Hf); pose proof Hs as Hg; geometry Hg; lia).
  rewrite file_bytes_in_zone by lia. unfold read_chunk. cbv zeta.
  eapply reads_bind; [apply (read_map_reads d t c f); try done; [by eapply file_map_wf|]|].
  { apply (file_roots c); [done|apply Z.div_pos; lia|].
    pose proof (Z.mul_div_le (f_position f) (f_zone_bytes f)). lia. }
  intros z (-> & Hok & Hlive). set (z := bmap _ _ _) in *.
  destruct (Z.eqb_spec z 0) as [|Hne]; [by apply reads_ret|].
  destruct (zone_in_volume c _ z Hs (proj1 (Hlive Hne))) as [Hlo Hhi].
  rewrite <- (fw_zone_bytes _ _ _ _ Hf) in Hlo, Hhi.
  assert (0 <= data_at (f_super f)) by (pose proof Hs as Hg; geometry Hg; nia).
  pose proof (Z.mod_pos_bound (f_position f) (f_zone_bytes f) ltac:(lia)).
  rewrite (fw_read _ _ _ _ Hf). unwrap. apply reads_read_or; [done| |done].
  intros Hr. split; [unfold inode_status; auto|]. intros Hrel. specialize (Hr Hrel). lia.
Qed.

(** [cp32_minix_file_read] as its transfer followed by the access time. *)
Definition read_then_time (f : cp32_minix_file) (n : Z) : M (fsw E) (list Z * cp32_minix_file) :=
  bytes <- read_chunk f n ;;
  cp32_fs_data_time f 1 ;;;
  ret (bytes, f_set_position f (f_position f +u n)).

Lemma set_position_same f : f_set_position f (f_position f) = f.
Proof. by destruct f. Qed.

Lemma file_read_cases f buffer count w :
  0 < f_zone_bytes f -> f_zone_bytes f < 4294967296 ->
  0 <= f_position f < 4294967296 -> 0 <= f_size f < 4294967296 -> 0 <= count ->
  cp32_minix_file_read f buffer count w =
  if (f_read f =? 0) || ((count !=? 0) && (buffer =? 0)) then (Err (- CP32_SUPER_INVALID), w)
  else if count =? 0 then (Ok ([], f), w)
  else if f_size f <=? f_position f then (cp32_fs_data_time f 1 ;;; ret ([], f)) w
  else read_then_time f (transfer f count) w.
Proof.
  intros Hz Hz' Hp Hs Hc. unfold cp32_minix_file_read. unfold bind at 1, guard.
  destruct (_ || _); [done|]. cbn [ret].
  destruct (count =? 0); [done|]. destruct (Z.leb_spec (f_size f) (f_position f)); [done|].
  pose proof (Z.mod_pos_bound (f_position f) (f_zone_bytes f) Hz) as Hm. unwrap. cbv zeta.
  match goal with |- context [replicate (Z.to_nat ?n) 0] => set (chunk := n) end.
  assert (chunk = transfer f count) as ->.
  { subst chunk. unfold transfer. destruct (Z.leb_spec (f_size f) (f_position f)); [lia|].
    repeat case_match; lia. }
  unfold read_then_time, read_chunk. rewrite bind_assoc. apply bind_ext.
  intros zone w'. by destruct (zone =? 0).
Qed.

Lemma transfer_bounds f count :
  0 <= count -> 0 < f_zone_bytes f -> f_position f < f_size f ->
  0 <= transfer f count <= 64 /\ transfer f count <= count /\
  transfer f count <= f_size f - f_position f /\
  f_position f mod f_zone_bytes f + transfer f count <= f_zone_bytes f /\
  (0 < count -> 0 < transfer f count).
Proof.
  intros Hc Hz Hlt. pose proof (Z.mod_pos_bound (f_position f) (f_zone_bytes f) Hz).
  unfold transfer. destruct (Z.leb_spec (f_size f) (f_position f)); lia.
Qed.

Lemma data_time_writes c f mask d :
  (forall a, is_byte (d a)) -> super_wf c (f_super f) -> f_read f = rd ->
  1 <= f_inode f <= s_ninodes (f_super f) -> c < 4294967296 ->
  writes (time_sector (f_super f) (f_inode f)) d (cp32_fs_data_time f mask)
    (fun _ d' => agree (time_bytes (f_super f) (f_inode f)) d d') (fun e => e = - CP32_SUPER_IO).
Proof. intros Hb Hs Hr Hi Hc. unfold cp32_fs_data_time. rewrite Hr. by apply (inode_time_writes d c). Qed.

Lemma read_then_time_writes c d f n :
  (forall a, is_byte (d a)) -> file_wf c d rd f -> c <= cap -> cap < 4294967296 ->
  0 <= f_position f < f_size f -> 0 < n <= 64 ->
  f_position f mod f_zone_bytes f + n <= f_zone_bytes f ->
  n <= f_size f - f_position f -> f_size f < 4294967296 ->
  writes (time_sector (f_super f) (f_inode f)) d (read_then_time f n)
    (fun r d' => r = (file_bytes d f (f_position f) n, f_set_position f (f_position f + n)) /\
                 agree (time_bytes (f_super f) (f_inode f)) d d') inode_status.
Proof.
  intros Hb Hf Hcc Hc Hp Hn Hle Hns Hsz. unfold read_then_time.
  eapply writes_bind with (Q' := fun bs d' => bs = file_bytes d f (f_position f) n /\ d' ≡m d).
  { eapply writes_reads; [intros t; by apply (read_chunk_reads d t c)|by intros ? ? ->|].
    by intros e [He _]. }
  intros bs d1 _ [-> H1].
  eapply writes_bind; [eapply writes_conseq; [apply (data_time_writes c)|intros ? ? _ HQ; exact HQ|]|].
  - intros a. by rewrite H1. - apply Hf. - apply Hf. - apply Hf. - lia.
  - intros e ->. unfold inode_status. auto.
  - intros [] d2 _ H2. apply writes_ret. intros d3 H3. split; [by unwrap|].
    intros a Ha. by rewrite H3, H2, H1.
Qed.

(** C11: reading a file returns its contents.  From a validated open file the bytes
    delivered are exactly the file's bytes at the offset, holes reading as
    zeros, for as many as the request, the file, the 64-byte transfer and the
    zone allow; the offset advances by that number; and on the volume nothing
    but the inode's time fields changes. *)
Theorem file_read_content w c f buffer count :
  fs_coh w -> file_wf c (fs_data w) rd f -> c <= cap -> cap < 4294967296 ->
  0 <= f_position f < 4294967296 -> 0 <= count ->
  match cp32_minix_file_read f buffer count w with
  | (Ok (bytes, f'), w') =>
      bytes = file_bytes (fs_data w) f (f_position f) (transfer f count) /\
      f' = f_set_position f (f_position f + transfer f count) /\
      agree (time_bytes (f_super f) (f_inode f)) (fs_data w) (fs_data w')
  | (Err e, w') =>
      inode_status e /\ agree (time_sector (f_super f) (f_inode f)) (fs_data w) (fs_data w')
  end.
Proof.
  intros Hw Hf Hcc Hc Hp Hn. pose proof (fw_super _ _ _ _ Hf) as Hs.
  assert (Hz : 1024 <= f_zone_bytes f <= 16384 /\ f_size f <= 2147483647).
  { rewrite (fw_zone_bytes _ _ _ _ Hf). pose proof (mo_max _ _ _ (fw_mapping _ _ _ _ Hf)).
    pose proof Hs as Hg. geometry Hg. lia. }
  pose proof (fw_size _ _ _ _ Hf) as H0.
  assert (Hb : forall a, is_byte (fs_data w a)) by (intros; apply dk_data_byte).
  rewrite file_read_cases by lia.
  destruct (_ || _) eqn:Hg0.
  { split; [unfold inode_status; auto|apply agree_refl]. }
  destruct (Z.eqb_spec count 0) as [->|Hne].
  { assert (transfer f 0 = 0) as ->.
    { unfold transfer. destruct (Z.leb_spec (f_size f) (f_position f)); [done|].
      pose proof (Z.mod_pos_bound (f_position f) (f_zone_bytes f)). lia. }
    rewrite Z.add_0_r, set_position_same. by split_and!. }
  destruct (Z.leb_spec (f_size f) (f_position f)) as [Heof|Hlt].
  - assert (transfer f count = 0) as -> by (unfold transfer; by destruct (Z.leb_spec (f_size f) (f_position f)); [|lia]).
    rewrite Z.add_0_r, set_position_same. unfold bind.
    pose proof (data_time_writes c f 1 (fs_data w) Hb Hs (fw_read _ _ _ _ Hf)
      (fw_inode _ _ _ _ Hf) ltac:(lia) w Hw (reflexivity _)) as HT.
    destruct (cp32_fs_data_time f 1 w) as [[e|[]] w']; destruct HT as (_ & Ha & HQ); simpl.
    + split; [|done]. rewrite HQ. unfold inode_status. auto.
    + by split_and!.
  - destruct (transfer_bounds f count) as (? & ? & ? & ? & Hpos); [lia..|].
    pose proof (read_then_time_writes c (fs_data w) f (transfer f count) Hb Hf Hcc Hc
      ltac:(lia) ltac:(lia) ltac:(lia) ltac:(lia) ltac:(lia) w Hw (reflexivity _)) as HT.
    destruct (read_then_time f (transfer f count) w) as [[e|[bs f']] w'];
      destruct HT as (_ & Ha & HQ); [done|].
    destruct HQ as [[= -> ->] Hag]. done.
Qed.
(** With no timestamps bound, the access time is left alone. *)
Lemma data_time_off f mask w :
  time_off (f_read f) w = true -> cp32_fs_data_time f mask w = (Ok tt, w).
Proof.
  intros H. unfold cp32_fs_data_time, cp32_fs_inode_time, bind, gets, time_binding. by rewrite H.
Qed.

Lemma time_off_statics r (w w' : fsw E) :
  fs_statics w' = fs_statics w -> time_off r w' = time_off r w.
Proof. unfold fs_statics, time_off. by intros [= _ -> -> ->]. Qed.

(** A read of a sound file always succeeds.  When the device answers, no clock
    is bound and the tables on the way to the block at the offset are sound, the
    read returns (with, by the previous theorem, the contents), and it makes
    progress whenever bytes remain. *)
Theorem file_read_total w c f buffer count :
  fs_coh w -> file_wf c (fs_data w) rd f -> c <= cap -> cap < 4294967296 ->
  0 <= f_position f < 4294967296 -> 0 <= count -> buffer <> 0 -> rd <> 0 ->
  reliable (rd := rd) (wr := wr) (cap := cap) -> time_off rd w = true ->
  (f_position f < f_size f -> bmap_ok (fs_data w) f (f_position f / f_zone_bytes f)) ->
  exists bytes f' w', cp32_minix_file_read f buffer count w = (Ok (bytes, f'), w') /\
    (0 < count -> f_position f < f_size f -> f_position f < f_position f').
Proof.
  intros Hw Hf Hcc Hc Hp Hn Hbuf Hrd Hrel Hoff Hok. pose proof (fw_super _ _ _ _ Hf) as Hs.
  assert (Hz : 1024 <= f_zone_bytes f <= 16384 /\ f_size f <= 2147483647).
  { rewrite (fw_zone_bytes _ _ _ _ Hf). pose proof (mo_max _ _ _ (fw_mapping _ _ _ _ Hf)).
    pose proof Hs as Hg. geometry Hg. lia. }
  pose proof (fw_size _ _ _ _ Hf) as H0. pose proof (fw_read _ _ _ _ Hf) as Hr.
  rewrite file_read_cases by lia.
  replace ((f_read f =? 0) || ((count !=? 0) && (buffer =? 0))) with false by lia.
  destruct (Z.eqb_spec count 0) as [->|Hne]; [do 3 eexists; split; [done|lia]|].
  destruct (Z.leb_spec (f_size f) (f_position f)) as [Heof|Hlt].
  { unfold bind. rewrite data_time_off by by rewrite Hr. do 3 eexists. split; [done|lia]. }
  destruct (transfer_bounds f count) as (? & ? & ? & ? & Hpos); [lia..|].
  assert (Hb : forall a, is_byte (fs_data w a)) by (intros; apply dk_data_byte).
  pose proof (reads_run w _ _ _ (read_chunk_reads _ (fs_statics w) c f (transfer f count)
    Hb Hf Hcc Hc ltac:(lia) ltac:(lia) ltac:(lia)) Hw) as HR.
  unfold read_then_time, bind.
  destruct (read_chunk f (transfer f count) w) as [[e|bs] w'].
  - destruct HR as [_ [_ Hno]]. by destruct (Hno Hrel (Hok Hlt)).
  - destruct HR as [(_ & _ & Hst) _].
    rewrite data_time_off by (rewrite Hr; by rewrite (time_off_statics _ w)).
    do 3 eexists. split; [done|]. intros. cbn [f_set_position f_position]. unwrap. lia.
Qed.
End ReadProofs.

(** ** Witnesses: the second block of the file "a" is a hole after six bytes *)
Definition demo_a (position : Z) : cp32_minix_file :=
  f_set_position (demo_file 4 1030 [9; 0; 0; 0; 0; 0; 0]) position.

Lemma demo_a_wf p :
  file_wf 65536 (fs_data (rd := MD_READ) (wr := MD_WRITE) (cap := 65536) Demo.state)
    MD_READ (demo_a p).
Proof.
  pose proof file_inode_exact_witness as Hf.
  assert (Hw : file_wf 65536 (fs_data (rd := MD_READ) (wr := MD_WRITE) (cap := 65536) Demo.state)
    MD_READ (demo_a 0)).
  { pose proof (file_inode_exact (rd := MD_READ) (wr := MD_WRITE) (cap := 65536)
      Demo.state 65536 Demo.super 4 demo_coh demo_super_wf ltac:(lia) ltac:(lia) ltac:(lia)) as H.
    rewrite (run_ok _ _ _ demo_file_inode) in H. destruct H as (_ & He & H).
    change (demo_a 0) with (demo_file 4 1030 [9; 0; 0; 0; 0; 0; 0]). rewrite He.
    apply file_of_inode_wf with (t := fs_tab Demo.state); [|apply demo_super_wf|done].
    intros. apply wrap8_range. }
  destruct Hw as [? ? ? ? ? ? Hm]. constructor; try assumption.
  destruct Hm. by constructor.
Qed.

Lemma demo_read_a :
  fst (cp32_minix_file_read (demo_a 1020) nonnull 64 Demo.state) =
  Ok ([120; 120; 120; 120], demo_a 1024).
Proof. vm_compute. reflexivity. Qed.

Lemma file_read_content_witness :
  [120; 120; 120; 120] =
  file_bytes (fs_data (rd := MD_READ) (wr := MD_WRITE) (cap := 65536) Demo.state)
    (demo_a 1020) 1020 4.
Proof.
  pose proof (file_read_content (rd := MD_READ) (wr := MD_WRITE) (cap := 65536)
    Demo.state 65536 (demo_a 1020) nonnull 64 demo_coh (demo_a_wf 1020) ltac:(lia) ltac:(lia)
    ltac:(cbn; lia) ltac:(lia)) as H.
  rewrite (run_ok _ _ _ demo_read_a) in H. apply H.
Defined.

Lemma file_read_total_witness :
  exists bytes f' w', cp32_minix_file_read (demo_a 1024) nonnull 64 Demo.state = (Ok (bytes, f'), w')
    /\ (0 < 64 -> 1024 < 1030 -> 1024 < f_position f').
Proof.
  apply (file_read_total (rd := MD_READ) (wr := MD_WRITE) (cap := 65536)
    Demo.state 65536 (demo_a 1024) nonnull 64 demo_coh (demo_a_wf 1024));
    try (cbn; lia); try discriminate.
  - apply memdisk_reliable.
  - reflexivity.
Defined.
