(* ===== verification/Path.v ===== *)
(** * Directories and pathnames: src/src/fs/path.c, open.c and stadir.c

    A C string is the list of its characters without the terminator; reading
    at or past its end yields 0, which is the terminator. *)
From S2P Require Import Prelude Codec FsTypes FdTable MemDisk Super Timestamp Inode Read.

(** The printable range accepted by the console: 0x20 <= c <= 0x7e. *)
Definition printable (c : Z) : bool := (0x20 <=? c) && (c <=? 0x7e).
Definition SLASH := 47.
Definition DOT := 46.

(** [while (path[i] == '/') i++;] and [while (path[i] && path[i] != '/') i++;]
    as the number of characters passed. *)
Fixpoint span_slash (l : list Z) : nat :=
  match l with c :: l' => if c =? SLASH then S (span_slash l') else O | [] => O end.
Fixpoint span_name (l : list Z) : nat :=
  match l with c :: l' => if c =? SLASH then O else S (span_name l') | [] => O end.

(** The bytes of a name field up to the first NUL. *)
Fixpoint c_string (l : list Z) : list Z :=
  match l with c :: l' => if c =? 0 then [] else c :: c_string l' | [] => [] end.

Section Path.
Context {E : Type} `{DSK : Disk E}.
Abbreviation FM := (M (fsw E)).

(** The [mapping] that [cp32_minix_root_next] builds for indirect blocks. *)
Definition dir_mapping (dir : cp32_minix_dir) (zone_bytes : Z) : cp32_minix_file :=
  {| f_read := d_read dir; f_size := 0; f_position := 0; f_zone_bytes := zone_bytes;
     f_zones := d_zones dir; f_super := d_super dir; f_indirect := d_indirect dir;
     f_double_indirect := 0; f_inode := 0 |}.

(** Lines 54-67: the zone of the current position. *)
Definition next_zone (dir : cp32_minix_dir) (zone_bytes : Z) : FM Z :=
  if d_position dir / zone_bytes <? 7
  then ret (nthZ (d_zones dir) (d_position dir / zone_bytes))
  else zone <- cp32_fs_read_map (dir_mapping dir zone_bytes) (d_position dir / zone_bytes) ;;
       guard (zone =? 0) (- CP32_SUPER_INVALID) ;;;
       ret zone.

(** The name check of lines 76-78. *)
Definition bad_name (raw : list Z) : bool :=
  existsb (fun c => negb (printable c) || (c =? SLASH)) (c_string (take 14 (ptr_add raw 2))).

(** One turn of the [while]: [Break None] at the end, [Break (Some ...)] on an
    entry, [Continue] past a deleted one.  [name] is the 14-byte field. *)
Definition next_turn (dir : cp32_minix_dir)
  : FM (turn cp32_minix_dir (option (Z * list Z) * cp32_minix_dir)) :=
  if d_position dir <? d_size dir then
    let zone_bytes := 1024 <<u s_log_zone_size (d_super dir) in
    zone <- next_zone dir zone_bytes ;;
    let offset := zone *u zone_bytes +u d_position dir mod zone_bytes in
    raw <- read_or (- CP32_SUPER_IO) (d_read dir) offset 16 ;;
    let number := cp32_fs_u16 raw (s_swapped (d_super dir)) in
    let next := d_set_position dir (d_position dir +u 16) in
    if number =? 0 then ret (Continue next) else
    guard ((s_ninodes (d_super dir) <? number) || (nthZ raw 2 =? 0)) (- CP32_SUPER_INVALID) ;;;
    cp32_fs_allocated (d_read dir) 2048 number (s_swapped (d_super dir)) ;;;
    guard (bad_name raw) (- CP32_SUPER_UNSUPPORTED) ;;;
    ret (Break (Some (number, take 14 (ptr_add raw 2)), next))
  else ret (Break (None, dir)).

(** The slots left before the end of the directory. *)
Definition entries_left (dir : cp32_minix_dir) : nat :=
  Z.to_nat ((d_size dir - d_position dir + 15) / 16).

(** [int cp32_minix_root_next(dir, inode, name)]: [None] is the result 0. *)
Definition cp32_minix_root_next (dir : cp32_minix_dir) (inode name : Z)
  : FM (option (Z * list Z) * cp32_minix_dir) :=
  guard ((d_read dir =? 0) || (inode =? 0) || (name =? 0)) (- CP32_SUPER_INVALID) ;;;
  loop (entries_left dir) next_turn (fun dir => ret (None, dir)) dir.

(** [for(i=0; i<count && entry[i]==path[start+i]; i++)] then [i==count && !entry[i]],
    for the component [comp] and an entry whose name field is [name]. *)
Definition entry_matches (comp name : list Z) : bool :=
  bool_decide (take (length comp) (name ++ [0]) = comp) &&
  (nthZ (name ++ [0]) (lenZ comp) =? 0).

(** The search of one directory (lines 27-31): the inode number. *)
Definition search_turn (comp : list Z) (dir : cp32_minix_dir) : FM (turn cp32_minix_dir Z) :=
  r <- cp32_minix_root_next dir nonnull nonnull ;;
  match r with
  | (None, _) => fail (- CP32_FILE_NOT_FOUND)
  | (Some (next, name), dir) =>
      if entry_matches comp name then ret (Break next) else ret (Continue dir)
  end.

Definition search_dir (comp : list Z) (dir : cp32_minix_dir) : FM Z :=
  loop (S (entries_left dir)) (search_turn comp)
       (fun _ => fail (- CP32_FILE_NOT_FOUND)) dir.

(** One turn of the walk over components (lines 18-35); the state is the rest
    of the path and the current inode. *)
Definition walk_turn (read : fptr) (super : cp32_minix_super) (st : list Z * Z)
  : FM (turn (list Z * Z) Z) :=
  let (path, current) := st in
  if lenZ path =? 0 then ret (Break current) else
  let path := drop (span_slash path) path in
  if lenZ path =? 0 then ret (Break current) else
  let count := span_name path in
  let comp := take count path in
  let rest := drop count path in
  guard (14 <? Z.of_nat count) (- CP32_FILE_NAME) ;;;
  dir <- cp32_fs_open_directory read super current ;;
  next <- search_dir comp dir ;;
  ret (Continue (rest,
    if (current =? 1) && bool_decide (comp = [DOT; DOT]) then current else next)).

(** [int cp32_fs_resolve_path(read, capacity, path, super, number)] *)
Definition cp32_fs_resolve_path (read : fptr) (capacity : Z) (path : option (list Z))
  : FM (cp32_minix_super * Z) :=
  match path with
  | None => fail (- CP32_FILE_NAME)
  | Some path =>
    guard (lenZ path =? 0) (- CP32_FILE_NAME) ;;;
    guard ((CP32_MINIX_PATH_MAX <? lenZ path) || negb (forallb printable path))
          (- CP32_FILE_NAME) ;;;
    super <- negated (cp32_minix_super_read read capacity nonnull) ;;
    current <- loop (S (length path)) (walk_turn read super) (fun st => ret (snd st)) (path, 1) ;;
    (if nthZ path (lenZ path - 1) =? SLASH
     then cp32_fs_open_directory read super current ;;; ret tt else ret tt) ;;;
    ret (super, current)
  end.

(** [int cp32_minix_abspath(cwd, path, out)]: the string stored in [out]. *)
Definition cp32_minix_abspath (cwd path : option (list Z)) : FM (list Z) :=
  match cwd, path with
  | Some cwd, Some path =>
    guard ((nthZ cwd 0 !=? SLASH) || (lenZ path =? 0)) (- CP32_FILE_NAME) ;;;
    next <- (if nthZ path 0 =? SLASH then ret [] else
       guard (CP32_MINIX_PATH_MAX <? lenZ cwd) (- CP32_FILE_NAME) ;;;
       if nthZ cwd (lenZ cwd - 1) =? SLASH then ret cwd else
       guard (lenZ cwd =? CP32_MINIX_PATH_MAX) (- CP32_FILE_NAME) ;;;
       ret (cwd ++ [SLASH])) ;;
    guard (CP32_MINIX_PATH_MAX <? lenZ next + lenZ path) (- CP32_FILE_NAME) ;;;
    ret (next ++ path)
  | _, _ => fail (- CP32_FILE_NAME)
  end.

(** ** open.c *)
Definition cp32_minix_root_open (read : fptr) (capacity : Z) : FM cp32_minix_dir :=
  super <- negated (cp32_minix_super_read read capacity nonnull) ;;
  cp32_fs_open_directory read super 1.

Definition cp32_minix_dir_open (read : fptr) (capacity : Z) (path : option (list Z))
  : FM cp32_minix_dir :=
  x <- cp32_fs_resolve_path read capacity path ;;
  cp32_fs_open_directory read (fst x) (snd x).

Definition cp32_minix_file_open (read : fptr) (capacity : Z) (name : option (list Z)) (file : Z)
  : FM cp32_minix_file :=
  guard (bool_decide (name = None) || (file =? 0)) (- CP32_SUPER_INVALID) ;;;
  x <- cp32_fs_resolve_path read capacity name ;;
  cp32_fs_file_inode read (fst x) (snd x).

(** [int cp32_minix_file_seek(file, offset, whence)], [offset] a signed [long]. *)
Definition cp32_minix_file_seek (file : cp32_minix_file) (offset whence : Z)
  : FM cp32_minix_file :=
  guard (f_read file =? 0) (- CP32_SUPER_INVALID) ;;;
  base <- (if whence =? 0 then ret 0
           else if whence =? 1 then ret (f_position file)
           else if whence =? 2 then ret (f_size file)
           else fail (- CP32_SUPER_INVALID)) ;;
  guard ((0x7fffffff <? base) || (0x7fffffff <? offset) || (offset <? - 0x7fffffff - 1))
        (- CP32_SUPER_INVALID) ;;;
  if offset <? 0 then
    let magnitude := wrap32 (- (offset + 1)) +u 1 in
    guard (base <? magnitude) (- CP32_SUPER_INVALID) ;;;
    ret (f_set_position file (base -u magnitude))
  else
    guard (0x7fffffff -u base <? offset) (- CP32_SUPER_INVALID) ;;;
    ret (f_set_position file (base +u offset)).

(** ** stadir.c *)
Definition cp32_minix_stat (read : fptr) (capacity : Z) (path : option (list Z)) (out : Z)
  : FM cp32_minix_stat :=
  guard (out =? 0) (- CP32_SUPER_INVALID) ;;;
  x <- cp32_fs_resolve_path read capacity path ;;
  cp32_fs_stat_inode read (fst x) (snd x) out.

(** One turn of the canonicalising loop of [cp32_minix_chdir]; the state is the
    rest of [full] and [canonical[0..n)]. *)
Definition drop_last_component (canonical : list Z) : list Z :=
  let n := (length canonical - span_name (rev canonical))%nat in
  let n := if (1 <? n)%nat then n else 1%nat in
  take (if (1 <? n)%nat then n - 1 else n) canonical.

Definition canonical_turn (st : list Z * list Z) : turn (list Z * list Z) (list Z) :=
  let (full, canonical) := st in
  if lenZ full =? 0 then Break canonical else
  let full := drop (span_slash full) full in
  let comp := take (span_name full) full in
  let rest := drop (span_name full) full in
  if (lenZ comp =? 0) || bool_decide (comp = [DOT]) then Continue (rest, canonical)
  else if bool_decide (comp = [DOT; DOT])
  then Continue (rest, drop_last_component canonical)
  else Continue (rest, (if 1 <? lenZ canonical then canonical ++ [SLASH] else canonical) ++ comp).

Fixpoint canonicalize (n : nat) (st : list Z * list Z) : list Z :=
  match n with
  | O => snd st
  | S n => match canonical_turn st with
           | Break c => c
           | Continue st => canonicalize n st
           end
  end.

(** [int cp32_minix_chdir(read, capacity, cwd, path)]: the new [cwd]. *)
Definition cp32_minix_chdir (read : fptr) (capacity : Z) (cwd : list Z) (path : option (list Z))
  : FM (list Z) :=
  full <- cp32_minix_abspath (Some cwd) path ;;
  cp32_minix_dir_open read capacity (Some full) ;;;
  let canonical := canonicalize (S (length full)) (full, [SLASH]) in
  original <- cp32_fs_resolve_path read capacity (Some full) ;;
  normalized <- cp32_fs_resolve_path read capacity (Some canonical) ;;
  guard (snd original !=? snd normalized) (- CP32_SUPER_INVALID) ;;;
  cp32_minix_dir_open read capacity (Some canonical) ;;;
  ret canonical.
End Path.

(** ** Specification: components, directory contents and the walk *)

(** The components of a pathname: the runs of characters between slashes. *)
Fixpoint split_slash (l : list Z) : list (list Z) :=
  match l with
  | [] => [[]]
  | c :: l => match split_slash l with
              | w :: ws => if c =? SLASH then [] :: w :: ws else (c :: w) :: ws
              | [] => []
              end
  end.
Definition nonempty (w : list Z) : bool := negb (lenZ w =? 0).
Definition components (l : list Z) : list (list Z) := List.filter nonempty (split_slash l).

(** The 16-byte entry of a directory at byte [pos], its inode and its name field. *)
Definition dir_entry (d : mem) (dir : cp32_minix_dir) (pos : Z) : list Z :=
  let zb := zone_bytes (d_super dir) in
  mem_read d (bmap d (dir_mapping dir zb) (pos / zb) * zb + pos mod zb) 16.
Definition entry_inode (dir : cp32_minix_dir) (raw : list Z) : Z :=
  cp32_fs_u16 raw (s_swapped (d_super dir)).
Definition entry_name (raw : list Z) : list Z := take 14 (ptr_add raw 2).

(** The next of [n] entries from [pos] that is in use: inode, name, next offset. *)
Fixpoint dir_scan (d : mem) (dir : cp32_minix_dir) (n : nat) (pos : Z)
  : option (Z * list Z * Z) :=
  match n with
  | O => None
  | S n => let raw := dir_entry d dir pos in
           if entry_inode dir raw =? 0 then dir_scan d dir n (pos + 16)
           else Some (entry_inode dir raw, entry_name raw, pos + 16)
  end.

(** The inode of the first entry among [n] from [pos] whose name is [comp]. *)
Fixpoint dir_lookup (d : mem) (dir : cp32_minix_dir) (comp : list Z) (n : nat) (pos : Z)
  : option Z :=
  match n with
  | O => None
  | S n => let raw := dir_entry d dir pos in
           if negb (entry_inode dir raw =? 0) && entry_matches comp (entry_name raw)
           then Some (entry_inode dir raw)
           else dir_lookup d dir comp n (pos + 16)
  end.

Definition dir_slots (dir : cp32_minix_dir) : nat := Z.to_nat (d_size dir / 16).

(** Following components from inode [cur]; the root is its own parent. *)
Fixpoint walk (d : mem) (read : fptr) (s : cp32_minix_super) (cs : list (list Z)) (cur : Z)
  : option Z :=
  match cs with
  | [] => Some cur
  | c :: cs =>
      let dir := dir_of_inode d read s cur in
      match dir_lookup d dir c (dir_slots dir) 0 with
      | Some n => walk d read s cs (if (cur =? 1) && bool_decide (c = [DOT; DOT]) then cur else n)
      | None => None
      end
  end.

(** ** Components *)

Lemma split_slash_cons l : exists w ws, split_slash l = w :: ws.
Proof.
  induction l as [|c l (w & ws & IH)]; [by do 2 eexists|]. simpl. rewrite IH.
  destruct (c =? SLASH); by do 2 eexists.
Qed.

Lemma components_slash l : components (SLASH :: l) = components l.
Proof.
  unfold components. simpl. by destruct (split_slash_cons l) as (w & ws & ->).
Qed.

Lemma components_skip l : components (drop (span_slash l) l) = components l.
Proof.
  induction l as [|c l IH]; [done|]. cbn [span_slash].
  destruct (Z.eqb_spec c SLASH) as [->|]; [|done]. cbn [drop]. by rewrite IH, components_slash.
Qed.

Lemma split_slash_name l :
  split_slash l = match drop (span_name l) l with
                  | [] => [take (span_name l) l]
                  | _ :: r => take (span_name l) l :: split_slash r
                  end.
Proof.
  induction l as [|c l IH]; [done|]. cbn [split_slash span_name].
  destruct (Z.eqb_spec c SLASH) as [->|Hc].
  - cbn [drop take]. by destruct (split_slash_cons l) as (w & ws & ->).
  - rewrite IH. cbn [drop take]. by destruct (drop (span_name l) l).
Qed.

Lemma span_name_le l : (span_name l <= length l)%nat.
Proof. induction l as [|x l IH]; simpl; [lia|]. destruct (x =? SLASH); lia. Qed.

Lemma span_name_drop l c r : drop (span_name l) l = c :: r -> c = SLASH.
Proof.
  induction l as [|x l IH]; [done|]. cbn [span_name].
  destruct (Z.eqb_spec x SLASH) as [->|]; [by intros [= ->]|]. exact IH.
Qed.

Lemma components_name l :
  nonempty (take (span_name l) l) = true ->
  components l = take (span_name l) l :: components (drop (span_name l) l).
Proof.
  intros Hne. unfold components at 1. rewrite split_slash_name.
  destruct (drop (span_name l) l) as [|c r] eqn:E; cbn [List.filter]; rewrite Hne; [done|].
  apply span_name_drop in E as ->. by rewrite components_slash.
Qed.

Lemma span_slash_next l c r : drop (span_slash l) l = c :: r -> c <> SLASH.
Proof.
  induction l as [|x l IH]; [done|]. cbn [span_slash].
  destruct (Z.eqb_spec x SLASH) as [->|]; [exact IH|]. by intros [= ->].
Qed.

Lemma components_nil l : drop (span_slash l) l = [] -> components l = [].
Proof. intros H. by rewrite <- components_skip, H. Qed.

(** A turn of the walk consumes one component. *)
Lemma components_step l c r :
  drop (span_slash l) l = c :: r ->
  let m := c :: r in
  components l = take (span_name m) m :: components (drop (span_name m) m) /\
  (length (drop (span_name m) m) < length l)%nat.
Proof.
  intros E m. pose proof (span_slash_next _ _ _ E) as Hc.
  assert (Hn : nonempty (take (span_name m) m) = true).
  { subst m. cbn [span_name]. by destruct (Z.eqb_spec c SLASH). }
  split; [rewrite <- components_skip, E; by apply components_name|].
  assert (length m <= length l)%nat by (subst m; rewrite <- E, length_drop; lia).
  rewrite length_drop. subst m. cbn [span_name length] in *.
  destruct (Z.eqb_spec c SLASH); [done|]. lia.
Qed.
