(* ===== verification/Resolve.v ===== *)
(** * Pathname resolution: what src/src/fs/path.c finds

    The directory search and the walk of Path.v against their specification:
    [dir_lookup] and [walk] over the bytes of the volume. *)
From S2P Require Import Prelude Codec FsTypes FdTable MemDisk Super Timestamp Inode Read Path.

(** The statuses of the path layer, other than not found. *)
Definition path_status (e : Z) : Prop :=
  inode_status e \/ e = - CP32_FILE_NAME \/ e = - CP32_SUPER_ABSENT.

(** The entry at [pos] can be read: its block is reachable and, when it is in
    use, its inode is live and its name is printable and not empty. *)
Record entry_sound (d : mem) (dir : cp32_minix_dir) (pos : Z) : Prop := {
  es_table : bmap_ok d (dir_mapping dir (zone_bytes (d_super dir))) (pos / zone_bytes (d_super dir));
  es_block : bmap d (dir_mapping dir (zone_bytes (d_super dir))) (pos / zone_bytes (d_super dir)) <> 0;
  es_entry : entry_inode dir (dir_entry d dir pos) <> 0 ->
    inode_live d (d_super dir) (entry_inode dir (dir_entry d dir pos)) /\
    nthZ (dir_entry d dir pos) 2 <> 0 /\ bad_name (dir_entry d dir pos) = false }.

Definition dir_sound (d : mem) (dir : cp32_minix_dir) : Prop :=
  forall i, 0 <= i < d_size dir / 16 -> entry_sound d dir (i * 16).

(** Every directory that [walk] searches is sound and every component fits. *)
Fixpoint resolvable (d : mem) (read : fptr) (s : cp32_minix_super) (cs : list (list Z)) (cur : Z)
  : Prop :=
  match cs with
  | [] => True
  | c :: cs =>
      let dir := dir_of_inode d read s cur in
      lenZ c <= 14 /\ dir_ok d read s cur /\ dir_sound d dir /\
      match dir_lookup d dir c (dir_slots dir) 0 with
      | Some n => resolvable d read s cs
                    (if (cur =? 1) && bool_decide (c = [DOT; DOT]) then cur else n)
      | None => True
      end
  end.

Definition path_valid (path : list Z) : Prop :=
  1 <= lenZ path <= CP32_MINIX_PATH_MAX /\ forallb printable path = true.
Definition trailing_slash (path : list Z) : Prop := nthZ path (lenZ path - 1) = SLASH.

(** Nothing on the way of [path] is damaged. *)
Definition path_sound (capacity : Z) (d : mem) (read : fptr) (path : list Z) : Prop :=
  let s := super_of d in
  path_valid path /\ volume_ok capacity d /\ resolvable d read s (components path) 1 /\
  (trailing_slash path -> forall n, walk d read s (components path) 1 = Some n -> dir_ok d read s n).

(** Slots from [pos] to the end. *)
Definition slots_from (dir : cp32_minix_dir) (pos : Z) : nat :=
  Z.to_nat ((d_size dir - pos) / 16).

Lemma slots_from_next dir p :
  p mod 16 = 0 -> d_size dir mod 16 = 0 -> p < d_size dir ->
  slots_from dir p = S (slots_from dir (p + 16)) /\ p + 16 <= d_size dir.
Proof.
  intros Hp Hs Hlt. assert (p + 16 <= d_size dir) by (Z.div_mod_to_equations; lia).
  split; [|done]. unfold slots_from. rewrite <- Z2Nat.inj_succ by (apply Z.div_pos; lia).
  f_equal. Z.div_mod_to_equations. lia.
Qed.

(** A lookup goes from one used entry to the next. *)
Lemma dir_lookup_scan d dir comp n p :
  dir_lookup d dir comp n p =
  match dir_scan d dir n p with
  | None => None
  | Some (num, name, p') =>
      if entry_matches comp name then Some num
      else dir_lookup d dir comp (n - Z.to_nat ((p' - p) / 16)) p'
  end.
Proof.
  revert p. induction n as [|n IH]; intros p; [done|]. cbn [dir_lookup dir_scan].
  destruct (Z.eqb_spec (entry_inode dir (dir_entry d dir p)) 0) as [|Hne]; simpl negb; cbn [andb].
  - rewrite IH. destruct (dir_scan d dir n (p + 16)) as [[[num name] p']|] eqn:E; [|done].
    destruct (entry_matches comp name); [done|].
    assert (Hp : exists k, p' = p + 16 + 16 * Z.of_nat k /\ (0 < k)%nat).
    { clear - E. revert p E. induction n as [|n IH]; intros p E; [done|]. cbn [dir_scan] in E.
      destruct (_ =? 0); [apply IH in E as (k & -> & ?); exists (S k); lia|].
      injection E as _ _ <-. exists 1%nat. lia. }
    destruct Hp as (k & -> & Hk).
    replace ((p + 16 + 16 * Z.of_nat k - (p + 16)) / 16) with (Z.of_nat k) by (Z.div_mod_to_equations; lia).
    replace ((p + 16 + 16 * Z.of_nat k - p) / 16) with (Z.of_nat (S k)) by (Z.div_mod_to_equations; lia).
    by rewrite !Nat2Z.id.
  - destruct (entry_matches _ _); [done|].
    replace ((p + 16 - p) / 16) with 1 by (Z.div_mod_to_equations; lia).
    change (Z.to_nat 1) with 1%nat. by rewrite Nat.sub_1_r.
Qed.

Section ResolveProofs.
Context {E : Type} `{DSK : Disk E} {rd wr : fptr} {cap : Z} `{SPEC : !DiskSpec E rd wr cap}.
Abbreviation refused := (refused (rd := rd) (wr := wr) (cap := cap)).

Section Directory.
Context (d : mem) (t : statics) (c : Z) (s : cp32_minix_super) (n : Z).
Context (Hb : forall a, is_byte (d a)) (Hs : super_wf c s) (Hcc : c <= cap)
        (Hc : cap < 4294967296) (Hrd : rd <> 0) (Hd : dir_ok d rd s n).
Let dir0 : cp32_minix_dir := dir_of_inode d rd s n.
Abbreviation at_ p := (d_set_position dir0 p).

Lemma dir_bounds : 1024 <= zone_bytes s <= 16384 /\ 32 <= d_size dir0 <= 2147483647 /\
  d_size dir0 mod 16 = 0 /\ d_size dir0 <= 263 * zone_bytes s.
Proof.
  pose proof Hs as Hg. geometry Hg. destruct (do_size _ _ _ _ Hd) as [? ?].
  pose proof (do_bound _ _ _ _ Hd). subst dir0. lia.
Qed.

Lemma dir_index p :
  0 <= p < d_size dir0 -> 0 <= p / zone_bytes s < 263 /\
  p / zone_bytes s < used_zones s (d_size dir0).
Proof.
  intros Hp. destruct dir_bounds as (Hz & Hsz & _ & H263).
  pose proof (Z.mul_div_le p (zone_bytes s) ltac:(lia)).
  pose proof (Z.div_pos p (zone_bytes s) ltac:(lia) ltac:(lia)).
  split; [|apply used_index; lia]. split; [done|]. apply Z.div_lt_upper_bound; lia.
Qed.

Lemma next_zone_reads p :
  0 <= p < d_size dir0 ->
  let m := dir_mapping dir0 (zone_bytes s) in let i := p / zone_bytes s in
  reads d t (next_zone (at_ p) (zone_bytes s))
    (fun z => z = bmap d m i /\ z <> 0 /\ bmap_ok d m i /\ zone_live d s z)
    (refused (bmap_ok d m i /\ bmap d m i <> 0)).
Proof.
  intros Hp m i. destruct (dir_index p Hp) as [Hi Hu]. fold i in Hi, Hu.
  pose proof (do_zones _ _ _ _ Hd) as Hzs. fold dir0 in Hzs.
  assert (Hlen : lenZ (d_zones dir0) = 7) by apply lenZ_raw_zones.
  unfold next_zone. change (d_position (at_ p)) with p. fold i.
  destruct (Z.ltb_spec i 7) as [H7|H7].
  - change (d_zones (at_ p)) with (d_zones dir0).
    destruct (Hzs i) as [Hl _]; [lia|done|by left|].
    assert (He : bmap d m i = nthZ (d_zones dir0) i /\ bmap_ok d m i)
      by (unfold bmap, bmap_ok; cbv zeta; by destruct (Z.ltb_spec i 7); [|lia]).
    destruct He as [He Ho]. rewrite He. apply reads_ret. split_and!; try done.
    intros Hz. rewrite Hz in Hl. destruct Hl as [[Hl _] _].
    pose proof Hs as Hg. geometry Hg. assert (s_first_data_zone s = 0) as H0 by lia.
    rewrite H0 in *. pose proof (Z.div_pos (s_ninodes s + 15) 16). lia.
  - change (dir_mapping (at_ p) (zone_bytes s)) with m.
    eapply reads_bind_refused.
    { apply (read_map_reads d t c m i); try done. split; [lia|]. split_and!; [lia| |lia].
      intros _. right. apply (do_indirect _ _ _ _ Hd). fold dir0. lia. }
    { by intros [? _]. }
    intros z (-> & Hok & Hl).
    eapply reads_bind; [apply reads_refuse with (Q := fun _ => bmap d m i <> 0)|].
    { unfold inode_status. auto. }
    { intros [_ ?]. lia. }
    { lia. }
    intros [] Hne. apply reads_ret. split_and!; try done. by apply Hl.
Qed.

(** What one turn of [cp32_minix_root_next] did at [p]. *)
Definition turn_result (p : Z)
  (x : turn cp32_minix_dir (option (Z * list Z) * cp32_minix_dir)) : Prop :=
  let raw := dir_entry d dir0 p in
  match x with
  | Continue dir => p < d_size dir0 /\ entry_inode dir0 raw = 0 /\ dir = at_ (p + 16)
  | Break (None, dir) => d_size dir0 <= p /\ dir = at_ p
  | Break (Some (num, name), dir) =>
      p < d_size dir0 /\ entry_inode dir0 raw <> 0 /\ num = entry_inode dir0 raw /\
      name = entry_name raw /\ inode_live d s num /\ dir = at_ (p + 16)
  end.

Lemma entry_address_bound p z :
  0 <= p -> data_zone s z ->
  0 <= z * zone_bytes s /\ 0 <= p mod zone_bytes s /\
  (p mod 16 = 0 -> z * zone_bytes s + p mod zone_bytes s + 16 <= c).
Proof.
  intros Hp Hz. destruct (zone_in_volume c s z Hs Hz) as [Hlo Hhi].
  destruct dir_bounds as (Hzb' & _). pose proof (Z.mod_pos_bound p (zone_bytes s) ltac:(lia)).
  assert (H0 : 0 <= data_at s) by (pose proof Hs as Hg; geometry Hg; nia).
  split_and!; [lia..|]. intros H16.
  assert (Hk : exists k, zone_bytes s = 16 * k).
  { unfold zone_bytes. exists (64 * zone_blocks s). lia. }
  destruct Hk as [k Hk]. assert ((p mod zone_bytes s) mod 16 = 0).
  { rewrite Hk in *. rewrite Z.rem_mul_r by lia. rewrite H16, Z.add_0_l, Z.mul_comm.
    by apply Z_mod_mult. }
  rewrite Hk in *. Z.div_mod_to_equations. lia.
Qed.

Lemma next_turn_reads p :
  0 <= p <= d_size dir0 -> p mod 16 = 0 ->
  reads d t (next_turn (at_ p)) (turn_result p) (refused (p < d_size dir0 -> entry_sound d dir0 p)).
Proof.
  intros Hp H16. destruct dir_bounds as (Hz & Hsz & _ & _). unfold next_turn.
  change (d_position (at_ p)) with p. change (d_size (at_ p)) with (d_size dir0).
  change (d_super (at_ p)) with s. change (d_read (at_ p)) with rd.
  destruct (Z.ltb_spec p (d_size dir0)) as [Hlt|Hge]; [|by apply reads_ret].
  rewrite zone_bytes_shift by (pose proof Hs as Hg; geometry Hg; lia). cbv zeta.
  eapply reads_bind_refused; [apply next_zone_reads; lia|intros H; destruct (H Hlt); done|].
  intros z (-> & Hne & Hok & Hl). set (z := bmap _ _ _) in *.
  destruct (entry_address_bound p z (proj1 Hp) (proj1 Hl)) as (Ha & Hm & Hin). specialize (Hin H16).
  unwrap. change (dir_mapping dir0 (zone_bytes s)) with (dir_mapping dir0 (zone_bytes (d_super dir0))) in z.
  set (raw := dir_entry d dir0 p).
  eapply reads_bind with (Q' := fun x => x = raw).
  { apply reads_read_or; [lia| |done]. intros Hr. split; [unfold inode_status; auto|].
    intros Hrel. specialize (Hr Hrel). lia. }
  intros ? ->. fold (entry_inode dir0 raw).
  change (cp32_fs_u16 raw (s_swapped s)) with (entry_inode dir0 raw). fold raw.
  destruct (Z.eqb_spec (entry_inode dir0 raw) 0) as [H0|H0].
  { apply reads_ret. simpl. split_and!; [done..|]. by unwrap. }
  assert (Hes : (p < d_size dir0 -> entry_sound d dir0 p) ->
    inode_live d s (entry_inode dir0 raw) /\ nthZ raw 2 <> 0 /\ bad_name raw = false)
    by (intros H; by apply (H Hlt)).
  assert (Hu : 0 <= entry_inode dir0 raw).
  { apply u16_range; apply mem_read_byte; first [exact Hb|lia]. }
  eapply reads_bind; [apply reads_refuse with
    (Q := fun _ => entry_inode dir0 raw <= s_ninodes s /\ nthZ raw 2 <> 0)|].
  { unfold inode_status. auto. }
  { intros H%Hes. destruct H as ([? _] & ? & _). lia. }
  { lia. }
  intros [] [Hle H2]. eapply reads_bind_refused.
  { by apply (imap_allocated_reads d t c); [..|lia]. }
  { intros H%Hes. apply H. }
  intros [] Hlive. eapply reads_bind; [apply reads_refuse with (Q := fun _ => True)|].
  { unfold inode_status. auto. }
  { intros H%Hes. apply H. }
  { done. }
  intros [] _. apply reads_ret. simpl. by split_and!.
Qed.

(** [cp32_minix_root_next] from [p] returns the next used entry. *)
Definition next_result (p : Z) (x : option (Z * list Z) * cp32_minix_dir) : Prop :=
  match x, dir_scan d dir0 (slots_from dir0 p) p with
  | (Some (num, name), dir), Some (num', name', p') =>
      num = num' /\ name = name' /\ dir = at_ p' /\ inode_live d s num /\
      p < p' <= d_size dir0 /\ p' mod 16 = 0
  | (None, _), None => True
  | _, _ => False
  end.

Lemma scan_reads p k :
  0 <= p <= d_size dir0 -> p mod 16 = 0 -> k = slots_from dir0 p ->
  reads d t (loop k next_turn (fun dir => ret (None, dir)) (at_ p)) (next_result p)
    (refused (dir_sound d dir0)).
Proof.
  revert p. induction k as [|k IH]; intros p Hp H16 Hk; cbn [loop].
  - apply reads_ret. unfold next_result. by rewrite <- Hk.
  - destruct dir_bounds as (_ & Hsz & Hs16 & _). assert (Hlt : p < d_size dir0).
    { destruct (Z.lt_ge_cases p (d_size dir0)); [done|]. unfold slots_from in Hk.
      replace (d_size dir0 - p) with 0 in Hk by lia. discriminate. }
    destruct (slots_from_next dir0 p H16 Hs16 Hlt) as [Hn Hle].
    eapply reads_bind_refused; [by apply next_turn_reads|..].
    { intros H _. replace p with (p / 16 * 16) by (Z.div_mod_to_equations; lia). apply H.
      Z.div_mod_to_equations. lia. }
    assert (Hm : (p + 16) mod 16 = 0) by (Z.div_mod_to_equations; lia).
    intros [dir|[[[num name]|] dir]] Hx; unfold turn_result in Hx.
    + destruct Hx as (_ & H0 & ->). eapply reads_conseq; [apply IH; [lia|done|congruence]| |done].
      intros [[[num name]|] dir]; unfold next_result; rewrite Hn; cbn [dir_scan]; rewrite H0; simpl;
        destruct (dir_scan _ _ _ _) as [[[num' name'] p']|]; try done.
      intros (->&->&->&?&?&?). split_and!; done || lia.
    + destruct Hx as (_ & H0 & -> & -> & ? & ->). apply reads_ret. unfold next_result.
      rewrite Hn. cbn [dir_scan]. destruct (Z.eqb_spec (entry_inode dir0 (dir_entry d dir0 p)) 0); [done|].
      split_and!; done || lia.
    + destruct Hx. lia.
Qed.

Lemma entries_left_eq p :
  0 <= p <= d_size dir0 -> p mod 16 = 0 -> entries_left (at_ p) = slots_from dir0 p.
Proof.
  intros Hp H16. destruct dir_bounds as (_ & _ & Hs16 & _). unfold entries_left, slots_from.
  change (d_size (at_ p)) with (d_size dir0). change (d_position (at_ p)) with p.
  f_equal. Z.div_mod_to_equations. lia.
Qed.

Lemma root_next_reads p :
  0 <= p <= d_size dir0 -> p mod 16 = 0 ->
  reads d t (cp32_minix_root_next (at_ p) nonnull nonnull) (next_result p)
    (refused (dir_sound d dir0)).
Proof.
  intros Hp H16. unfold cp32_minix_root_next. change (d_read (at_ p)) with rd.
  replace ((rd =? 0) || (nonnull =? 0) || (nonnull =? 0)) with false by (unfold nonnull; lia).
  eapply reads_bind with (Q' := fun _ => True); [by apply reads_ret|intros [] _].
  rewrite entries_left_eq by done. by apply scan_reads.
Qed.

Abbreviation lookup_from comp p := (dir_lookup d dir0 comp (slots_from dir0 p) p).

Definition lookup_status (comp : list Z) (e : Z) : Prop :=
  (e = - CP32_FILE_NOT_FOUND /\ lookup_from comp 0 = None) \/ refused (dir_sound d dir0) e.

Lemma search_loop_reads comp k p :
  0 <= p <= d_size dir0 -> p mod 16 = 0 -> (slots_from dir0 p < k)%nat ->
  lookup_from comp 0 = lookup_from comp p ->
  reads d t (loop k (search_turn comp) (fun _ => fail (- CP32_FILE_NOT_FOUND)) (at_ p))
    (fun num => lookup_from comp 0 = Some num /\ inode_live d s num) (lookup_status comp).
Proof.
  revert p. induction k as [|k IH]; intros p Hp H16 Hk Heq; [lia|]. cbn [loop].
  unfold search_turn at 1.
  eapply reads_bind with (Q' := fun x => match x with
    | Continue dir => exists p', dir = at_ p' /\ 0 <= p' <= d_size dir0 /\ p' mod 16 = 0 /\
        (slots_from dir0 p' < k)%nat /\ lookup_from comp 0 = lookup_from comp p'
    | Break num => lookup_from comp 0 = Some num /\ inode_live d s num end).
  - eapply reads_bind; [eapply reads_conseq; [by apply root_next_reads|intros ? Hx; exact Hx|]|].
    { intros e He. by right. }
    intros [[[num name]|] dir] Hx; unfold next_result in Hx; rewrite (dir_lookup_scan d dir0 comp _ p) in Heq.
    + destruct (dir_scan _ _ _ _) as [[[num' name'] p']|]; [|done].
      destruct Hx as (<- & <- & -> & Hl & Hp' & H16').
      destruct (entry_matches comp name); apply reads_ret; [done|].
      exists p'. destruct dir_bounds as (_ & _ & Hs16 & _).
      assert (He : (slots_from dir0 p - Z.to_nat ((p' - p) / 16))%nat = slots_from dir0 p').
      { unfold slots_from. rewrite <- Z2Nat.inj_sub by (apply Z.div_pos; lia). f_equal.
        Z.div_mod_to_equations. lia. }
      rewrite He in Heq. split_and!; try done; try lia.
      unfold slots_from in *. apply Nat.lt_le_trans with (Z.to_nat ((d_size dir0 - p) / 16)); [|lia].
      apply Z2Nat.inj_lt; Z.div_mod_to_equations; lia.
    + destruct (dir_scan _ _ _ _) as [[[num' name'] p']|]; [done|].
      apply reads_fail. by left.
  - intros [dir|num] Hx; [|by apply reads_ret].
    destruct Hx as (p' & -> & ? & ? & ? & ?). by apply IH.
Qed.

Lemma search_dir_reads comp :
  reads d t (search_dir comp dir0)
    (fun num => dir_lookup d dir0 comp (dir_slots dir0) 0 = Some num /\ inode_live d s num)
    (fun e => (e = - CP32_FILE_NOT_FOUND /\ dir_lookup d dir0 comp (dir_slots dir0) 0 = None) \/
              refused (dir_sound d dir0) e).
Proof.
  assert (He : dir_slots dir0 = slots_from dir0 0).
  { unfold dir_slots, slots_from. by rewrite Z.sub_0_r. }
  rewrite He. unfold search_dir. change dir0 with (at_ 0) at 1 2. destruct dir_bounds as (_ & ? & _).
  rewrite entries_left_eq by (done || lia). apply search_loop_reads; done || lia.
Qed.
End Directory.

Section Walk.
Context (d : mem) (t : statics) (c : Z) (s : cp32_minix_super).
Context (Hb : forall a, is_byte (d a)) (Hs : super_wf c s) (Hcc : c <= cap)
        (Hc : cap < 4294967296) (Hrd : rd <> 0).

Definition path_refused (P : Prop) (e : Z) : Prop :=
  path_status e /\ (reliable (rd := rd) (wr := wr) (cap := cap) -> ~ P).

Lemma path_refused_inode (P P' : Prop) e : (P -> P') -> refused P' e -> path_refused P e.
Proof. intros H [? Hn]. split; [by left|]. intros Hr HP. by apply Hn, H. Qed.

(** Not found means that the walk has no result. *)
Definition walk_status (cs : list (list Z)) (cur e : Z) : Prop :=
  (e = - CP32_FILE_NOT_FOUND /\ walk d rd s cs cur = None) \/
  path_refused (resolvable d rd s cs cur) e.

Lemma walk_loop_reads k path cur :
  (length path < k)%nat -> 0 <= cur ->
  reads d t (loop k (walk_turn rd s) (fun st => ret (snd st)) (path, cur))
    (fun n => walk d rd s (components path) cur = Some n /\ 0 <= n)
    (walk_status (components path) cur).
Proof.
  revert path cur. induction k as [|k IH]; intros path cur Hk Hcur; [lia|]. cbn [loop].
  unfold walk_turn at 1.
  destruct (Z.eqb_spec (lenZ path) 0) as [H0|Hne].
  { destruct path; [|discriminate]. apply reads_ret. by split. }
  destruct (drop (span_slash path) path) as [|ch r] eqn:Ed.
  { rewrite (components_nil _ Ed). by apply reads_ret. }
  destruct (components_step _ _ _ Ed) as [Hcs Hlen]. set (m := ch :: r) in *.
  set (comp := take (span_name m) m) in *. set (rest := drop (span_name m) m) in *.
  destruct (Z.eqb_spec (lenZ m) 0) as [H0|_].
  { discriminate. }
  assert (Hcount : Z.of_nat (span_name m) = lenZ comp).
  { subst comp. unfold lenZ. rewrite length_take. pose proof (span_name_le m). lia. }
  rewrite Hcs. cbv zeta. rewrite Hcount.
  eapply reads_bind with (Q' := fun x => match x with
    | Continue (path', cur') => path' = rest /\ 0 <= cur' /\
        walk d rd s (comp :: components rest) cur = walk d rd s (components rest) cur' /\
        (resolvable d rd s (comp :: components rest) cur -> resolvable d rd s (components rest) cur')
    | Break _ => False end).
  - eapply reads_bind with (Q' := fun _ => lenZ comp <= 14).
    { reads_step; [|lia]. right. split; [unfold path_status; auto|]. intros _ [? _]. lia. }
    intros [] H14.
    eapply reads_bind with (Q' := fun dir => dir = dir_of_inode d rd s cur /\ dir_ok d rd s cur).
    { eapply reads_conseq; [by apply (open_directory_reads d t c)|done|].
      intros e He. right. eapply path_refused_inode; [|exact He]. by intros (_ & ? & _). }
    intros ? [-> Hd].
    eapply reads_bind; [eapply reads_conseq; [by apply (search_dir_reads d t c s cur)| |]|].
    { intros num Hq. exact Hq. }
    { intros e [[-> Hn]|He]; [left|right].
      - split; [done|]. cbn [walk]. by rewrite Hn.
      - eapply path_refused_inode; [|exact He]. by intros (_ & _ & ? & _). }
    intros num [Hl [Hlive _]]. apply reads_ret. split; [done|].
    cbn [walk resolvable]. rewrite Hl. split_and!; [case_match; lia|done|].
    by intros (_ & _ & _ & ?).
  - intros [[path' cur']|] Hx; [|done]. destruct Hx as (-> & Hcur' & Hw & Hr).
    eapply reads_conseq; [apply IH; lia| |].
    + intros n. by rewrite Hw.
    + intros e [[-> Hn]|[He Hno]]; [left|right].
      * by rewrite Hw.
      * split; [done|]. intros Hrel H. by apply (Hno Hrel), Hr.
Qed.
End Walk.

Lemma resolve_reads d t capacity path :
  (forall a, is_byte (d a)) -> 0 <= capacity <= cap -> cap < 4294967296 -> rd <> 0 ->
  let s := super_of d in
  reads d t (cp32_fs_resolve_path rd capacity (Some path))
    (fun x => fst x = s /\ volume_ok capacity d /\
       walk d rd s (components path) 1 = Some (snd x) /\
       (trailing_slash path -> dir_ok d rd s (snd x)) /\ 0 <= snd x)
    (fun e => (e = - CP32_FILE_NOT_FOUND /\ walk d rd s (components path) 1 = None) \/
              path_refused (path_sound capacity d rd path) e).
Proof.
  intros Hb Hcap Hc Hrd s. unfold cp32_fs_resolve_path.
  eapply reads_bind with (Q' := fun _ => lenZ path <> 0).
  { reads_step; [right|lia]. split; [unfold path_status; auto|]. intros _ [[? _] _]. lia. }
  intros [] Hne. eapply reads_bind with (Q' := fun _ => path_valid path).
  { pose proof (lenZ_nonneg path). reads_step; [right|unfold path_valid; destruct (forallb _ _); split; done || lia].
    split; [unfold path_status; auto|]. intros _ [[? Hp] _]. rewrite Hp in *. lia. }
  intros [] Hpv.
  eapply reads_bind with (Q' := fun x => x = s /\ volume_ok capacity d).
  { apply reads_negated. eapply reads_conseq; [apply super_read_reads; done || lia|done|].
    intros e [He Hno]. right. split.
    - unfold super_statuses in He. unfold path_status, inode_status. intuition (subst; auto 10).
    - intros Hrel (_ & Hv & _). apply (Hno Hrel); [lia|done..|exact Hv]. }
  intros ? [-> Hv]. fold s.
  eapply reads_bind; [eapply reads_conseq; [apply (walk_loop_reads d t capacity s); try done; try lia; apply Hv| |]|].
  { intros n Hn. exact Hn. }
  { intros e [He|[He Hno]]; [by left|right]. split; [done|]. intros Hrel H. apply (Hno Hrel), H. }
  intros n [Hw Hn].
  eapply reads_bind with (Q' := fun _ => trailing_slash path -> dir_ok d rd s n).
  { unfold trailing_slash. destruct (Z.eqb_spec (nthZ path (lenZ path - 1)) SLASH) as [Hsl|]; [|by apply reads_ret].
    eapply reads_bind; [eapply reads_conseq; [apply (open_directory_reads d t capacity); try done; try lia; apply Hv| |]|].
    - intros ? Hq. exact Hq.
    - intros e He. right. eapply path_refused_inode; [|exact He]. intros (_ & _ & _ & Ht). by apply Ht.
    - intros dir [_ Hd]. by apply reads_ret. }
  intros [] Ht. by apply reads_ret.
Qed.

(** C10: pathname resolution follows the directories.  [cp32_fs_resolve_path]
    returns inode [n] only when looking the components up one after the other
    from the root, each in the directory reached so far and with the root its
    own parent, leads to [n]; it reports not-found only when that walk fails;
    any other status from a reliable device means that the pathname is
    malformed or that something on its way (volume, directory, block or entry)
    is damaged.  Nothing is written. *)
Theorem resolve_exact w capacity path :
  fs_coh w -> 0 <= capacity <= cap -> cap < 4294967296 -> rd <> 0 ->
  let d := fs_data w in let s := super_of d in
  match cp32_fs_resolve_path rd capacity (Some path) w with
  | (Ok (s', n), w') =>
      at_data d (fs_statics w) w' /\ s' = s /\ volume_ok capacity d /\
      walk d rd s (components path) 1 = Some n /\ (trailing_slash path -> dir_ok d rd s n)
  | (Err e, w') =>
      at_data d (fs_statics w) w' /\
      ((e = - CP32_FILE_NOT_FOUND /\ walk d rd s (components path) 1 = None) \/
       (path_status e /\
        (reliable (rd := rd) (wr := wr) (cap := cap) -> ~ path_sound capacity d rd path)))
  end.
Proof.
  intros Hw Hcap Hc Hrd d s. assert (Hb : forall a, is_byte (d a)) by (intros; apply dk_data_byte).
  pose proof (reads_run w _ _ _ (resolve_reads d (fs_statics w) capacity path Hb Hcap Hc Hrd) Hw) as H.
  destruct (cp32_fs_resolve_path rd capacity (Some path) w) as [[e|[s' n]] w']; [exact H|].
  destruct H as (? & ? & ? & ? & ? & _). by split_and!.
Qed.
End ResolveProofs.

(** ** Seeking: [cp32_minix_file_seek] *)

(** Where an offset of [whence] starts from. *)
Definition seek_base (f : cp32_minix_file) (whence : Z) : option Z :=
  if whence =? 0 then Some 0 else if whence =? 1 then Some (f_position f)
  else if whence =? 2 then Some (f_size f) else None.

Definition is_long (x : Z) : Prop := - 2147483648 <= x <= 2147483647.

(** Seeking is exact.  For any word-sized offset the new position is the
    base plus the offset, computed without overflow, and the call fails exactly
    when the handle is closed, [whence] is not 0, 1 or 2, or base or result lie
    outside 0..2^31-1; the rest of the handle is unchanged. *)
Theorem seek_exact {E} (f : cp32_minix_file) (offset whence : Z) (w : fsw E) :
  is_u32 (f_position f) -> is_u32 (f_size f) -> is_long offset ->
  cp32_minix_file_seek f offset whence w =
  match seek_base f whence with
  | Some base =>
      if (f_read f !=? 0) && (base <=? 2147483647) && (offset <=? 2147483647) &&
         (0 <=? base + offset) && (base + offset <=? 2147483647)
      then (Ok (f_set_position f (base + offset)), w) else (Err (- CP32_SUPER_INVALID), w)
  | None => (Err (- CP32_SUPER_INVALID), w)
  end.
Proof.
  unfold is_u32, is_long. intros Hp Hs Ho. unfold cp32_minix_file_seek, seek_base, bind, guard.
  destruct (Z.eqb_spec (f_read f) 0) as [Hr|Hr]; cbn [negb andb fail ret].
  { by repeat case_match. }
  assert (Hbase : forall base, 0 <= base < 4294967296 ->
    (guard ((0x7fffffff <? base) || (0x7fffffff <? offset) || (offset <? - 0x7fffffff - 1))
       (- CP32_SUPER_INVALID) ;;;
     if offset <? 0 then
       guard (base <? wrap32 (- (offset + 1)) +u 1) (- CP32_SUPER_INVALID) ;;;
       ret (f_set_position f (base -u (wrap32 (- (offset + 1)) +u 1)))
     else
       guard (0x7fffffff -u base <? offset) (- CP32_SUPER_INVALID) ;;;
       ret (f_set_position f (base +u offset))) w =
    if (base <=? 2147483647) && (offset <=? 2147483647) &&
       (0 <=? base + offset) && (base + offset <=? 2147483647)
    then (Ok (f_set_position f (base + offset)), w) else (Err (- CP32_SUPER_INVALID), w)).
  { intros base Hb. unfold bind, guard.
    destruct ((0x7fffffff <? base) || (0x7fffffff <? offset) || (offset <? - 0x7fffffff - 1)) eqn:Hg.
    { cbn [fail]. destruct (_ && _) eqn:Hc; [lia|done]. }
    cbn [ret]. destruct (Z.ltb_spec offset 0) as [Hneg|Hneg].
    - unwrap. replace (- (offset + 1) + 1) with (- offset) by lia.
      destruct (Z.ltb_spec base (- offset)) as [Hlt|Hlt]; cbn [fail ret];
        destruct (_ && _) eqn:Hc; first [lia|done|unfold ret; do 3 f_equal; unwrap; lia].
    - unwrap. destruct (Z.ltb_spec (0x7fffffff - base) offset) as [Hlt|Hlt]; cbn [fail ret];
        destruct (_ && _) eqn:Hc; first [lia|done|unfold ret; do 3 f_equal; unwrap; lia]. }
  destruct (whence =? 0); [by apply Hbase|]. destruct (whence =? 1); [by apply Hbase|].
  destruct (whence =? 2); [by apply Hbase|done].
Qed.

(** ** Witnesses *)
Lemma seek_exact_witness :
  cp32_minix_file_seek (demo_a 1024) (- 1000) 1 Demo.state = (Ok (demo_a 24), Demo.state).
Proof.
  rewrite (seek_exact (demo_a 1024) (- 1000) 1 Demo.state); [reflexivity|..];
    unfold is_u32, is_long; cbn; lia.
Defined.

Definition demo_path : list Z := 
  [47] ++ Demo.docs ++ [47; 46; 46; 47] ++ Demo.docs ++ [47; 97].

Lemma demo_resolve :
  fst (cp32_fs_resolve_path MD_READ 65536 (Some demo_path) Demo.state) = Ok (Demo.super, 4).
Proof. vm_compute. reflexivity. Qed.

Lemma resolve_exact_witness :
  let d := fs_data (rd := MD_READ) (wr := MD_WRITE) (cap := 65536) Demo.state in
  walk d MD_READ (super_of d) (components demo_path) 1 = Some 4.
Proof.
  pose proof (resolve_exact (rd := MD_READ) (wr := MD_WRITE) (cap := 65536)
    Demo.state 65536 demo_path demo_coh ltac:(lia) ltac:(lia) ltac:(discriminate)) as H.
  rewrite (run_ok _ _ _ demo_resolve) in H. apply H.
Defined.
