(* ===== verification/Cwd.v ===== *)
(** * Working directories: src/src/fs/path.c (abspath) and stadir.c (chdir)

    How a relative pathname is composed with the working directory, and the
    canonical form in which a working directory is kept. *)
From S2P Require Import Prelude Codec FsTypes FdTable MemDisk Super Timestamp Inode Read Path Resolve.

(** ** Specification *)

(** A list of components as an absolute pathname. *)
Definition render (cs : list (list Z)) : list Z :=
  match cs with [] => [SLASH] | _ => concat (map (cons SLASH) cs) end.

(** Dot stays, dot-dot leaves the last directory but never the root. *)
Definition canonical_step (acc : list (list Z)) (c : list Z) : list (list Z) :=
  if bool_decide (c = [DOT]) then acc
  else if bool_decide (c = [DOT; DOT]) then removelast acc
  else acc ++ [c].
Definition canonical_components (cs : list (list Z)) : list (list Z) :=
  fold_left canonical_step cs [].

(** What [cp32_minix_abspath] composes. *)
Definition composed (cwd path : list Z) : list Z :=
  if nthZ path 0 =? SLASH then path
  else if nthZ cwd (lenZ cwd - 1) =? SLASH then cwd ++ path
  else cwd ++ SLASH :: path.

(** A proper component: nonempty, without slashes, and not dot or dot-dot. *)
Definition plain (c : list Z) : Prop :=
  c <> [] /\ ~ In SLASH c /\ c <> [DOT] /\ c <> [DOT; DOT].

(** ** Components *)
Lemma split_slash_app_slash l r : split_slash (l ++ SLASH :: r) = split_slash l ++ split_slash r.
Proof.
  induction l as [|c l IH]; cbn [app split_slash].
  - destruct (split_slash_cons r) as (w & ws & ->). by rewrite Z.eqb_refl.
  - rewrite IH. destruct (split_slash_cons l) as (w & ws & ->). cbn [app].
    by destruct (c =? SLASH).
Qed.

Lemma components_app_slash l r : components (l ++ SLASH :: r) = components l ++ components r.
Proof. unfold components. by rewrite split_slash_app_slash, List.filter_app. Qed.

Lemma components_no_slash c : ~ In SLASH c -> c <> [] -> components c = [c].
Proof.
  intros Hn Hc. assert (Hs : split_slash c = [c]).
  { clear Hc. induction c as [|x c IH]; [done|]. cbn [split_slash]. rewrite IH by firstorder.
    destruct (Z.eqb_spec x SLASH) as [->|]; [|done]. exfalso. apply Hn. by left. }
  unfold components. rewrite Hs. cbn [List.filter]. destruct c; done.
Qed.

Lemma components_render cs :
  Forall (fun c => c <> [] /\ ~ In SLASH c) cs -> components (render cs) = cs.
Proof.
  intros H. destruct cs as [|c0 cs0]; [done|]. unfold render. set (cs := c0 :: cs0) in *.
  clearbody cs. clear c0 cs0. induction H as [|c cs [Hne Hns] H IH]; [done|]. cbn [map concat].
  rewrite <- app_comm_cons, components_slash.
  destruct cs as [|c' cs].
  - cbn [map concat]. rewrite app_nil_r. by apply components_no_slash.
  - cbn [map concat] in IH |- *. rewrite <- app_comm_cons in IH |- *.
    rewrite components_app_slash. rewrite components_slash in IH.
    rewrite (components_no_slash c) by done. cbn [app]. by rewrite IH.
Qed.

Lemma span_name_no_slash l : ~ In SLASH (take (span_name l) l).
Proof.
  induction l as [|c l IH]; [by intros []|]. cbn [span_name].
  destruct (Z.eqb_spec c SLASH) as [|Hc]; [by intros []|]. cbn [take]. by intros [?|?].
Qed.

Lemma walk_app d rd s cs cs' cur :
  walk d rd s (cs ++ cs') cur =
  match walk d rd s cs cur with Some n => walk d rd s cs' n | None => None end.
Proof.
  revert cur. induction cs as [|c cs IH]; intros cur; [done|]. cbn [app walk].
  destruct (dir_lookup _ _ _ _ _); [apply IH|done].
Qed.

Lemma components_composed cwd path :
  nthZ cwd 0 = SLASH ->
  components (composed cwd path) =
  if nthZ path 0 =? SLASH then components path else components cwd ++ components path.
Proof.
  intros Hc. unfold composed. destruct (nthZ path 0 =? SLASH); [done|].
  destruct (Z.eqb_spec (nthZ cwd (lenZ cwd - 1)) SLASH) as [Hl|]; [|apply components_app_slash].
  destruct (exists_last (l := cwd)) as (l & x & ->); [by intros ->|].
  assert (x = SLASH) as ->.
  { rewrite lenZ_app in Hl. change (lenZ [x]) with 1 in Hl.
    rewrite nthZ_app_r in Hl by lia. by replace (lenZ l + 1 - 1 - lenZ l) with 0 in Hl by lia. }
  rewrite <- app_assoc. cbn [app]. rewrite !components_app_slash. cbn. by rewrite app_nil_r.
Qed.

(** ** The canonical form *)
Abbreviation names := (Forall (fun c : list Z => c <> [] /\ ~ In SLASH c)).

Lemma render_long c cs : names (c :: cs) -> (1 <? lenZ (render (c :: cs))) = true.
Proof.
  inversion_clear 1 as [|? ? [Hne _] _]. destruct c as [|x c]; [done|].
  apply Z.ltb_lt. unfold render, lenZ. cbn [map concat app length]. lia.
Qed.

Lemma render_push cs c :
  names cs ->
  (if 1 <? lenZ (render cs) then render cs ++ [SLASH] else render cs) ++ c = render (cs ++ [c]).
Proof.
  intros H. destruct cs as [|c0 cs]; [simpl; by rewrite app_nil_r|].
  rewrite render_long by done. unfold render. cbn [app].
  rewrite app_comm_cons, map_app, concat_app. cbn [map concat].
  by rewrite app_nil_r, <- app_assoc.
Qed.

Lemma span_name_app l r : ~ In SLASH l -> span_name (l ++ SLASH :: r) = length l.
Proof.
  induction l as [|c l IH]; intros Hn; [done|]. cbn [app span_name length].
  destruct (Z.eqb_spec c SLASH) as [->|]; [exfalso; apply Hn; by left|].
  rewrite IH; [done|]. intros ?. apply Hn. by right.
Qed.

Lemma drop_last_render cs c :
  names (cs ++ [c]) -> drop_last_component (render (cs ++ [c])) = render cs.
Proof.
  intros H. apply Forall_app in H as [Hcs Hc]. inversion_clear Hc as [|? ? [Hne Hns] _].
  rewrite <- render_push by done. unfold drop_last_component.
  destruct cs as [|c0 cs].
  - cbn [render]. change (if 1 <? lenZ [SLASH] then [SLASH] ++ [SLASH] else [SLASH]) with [SLASH].
    rewrite rev_app_distr. cbn [rev app]. rewrite span_name_app by by rewrite <- in_rev.
    rewrite length_rev. cbn [length].
    by replace (S (length c) - length c)%nat with 1%nat by lia.
  - pose proof (render_long c0 cs Hcs) as Hl. rewrite Hl. set (r := render (c0 :: cs)) in *.
    rewrite <- app_assoc, rev_app_distr. cbn [rev app]. rewrite <- app_assoc. cbn [app].
    rewrite span_name_app by by rewrite <- in_rev.
    rewrite length_rev, length_app. cbn [length].
    replace (length r + S (length c) - length c)%nat with (S (length r)) by lia.
    unfold lenZ in Hl. destruct (Nat.ltb_spec 1 (S (length r))) as [Hlt|]; [|lia].
    replace (1 <? S (length r))%nat with true by (symmetry; by apply Nat.ltb_lt).
    rewrite Nat.sub_1_r. cbn [Nat.pred]. by rewrite take_app_length.
Qed.

Lemma drop_last_render_removelast cs : names cs -> drop_last_component (render cs) = render (removelast cs).
Proof.
  intros H. destruct cs as [|c cs] using rev_ind; [done|]. rewrite removelast_last.
  by apply drop_last_render.
Qed.

Lemma plain_name c : plain c -> c <> [] /\ ~ In SLASH c.
Proof. by intros (?&?&_). Qed.

Lemma canonical_step_plain acc c :
  Forall plain acc -> c <> [] -> ~ In SLASH c -> Forall plain (canonical_step acc c).
Proof.
  intros Ha Hne Hns. unfold canonical_step. case_bool_decide; [done|]. case_bool_decide.
  - destruct acc as [|x acc] using rev_ind; [done|]. rewrite removelast_last.
    by apply Forall_app in Ha as [? _].
  - apply Forall_app. split; [done|]. by repeat constructor.
Qed.

(** The loop of [cp32_minix_chdir] computes the canonical form of the rest. *)
Lemma canonicalize_spec n full acc :
  (length full < n)%nat -> Forall plain acc ->
  canonicalize n (full, render acc) =
  render (fold_left canonical_step (components full) acc).
Proof.
  revert full acc. induction n as [|n IH]; intros full acc Hn Ha; [lia|].
  cbn [canonicalize]. unfold canonical_turn.
  destruct (Z.eqb_spec (lenZ full) 0) as [H0|Hne].
  { by destruct full. }
  destruct (drop (span_slash full) full) as [|ch r] eqn:Ed.
  { rewrite (components_nil _ Ed). cbn [take drop span_name lenZ length].
    change (lenZ [] =? 0) with true. cbn [orb]. rewrite (IH [] acc); [done|cbn [length]|done].
    destruct full; [done|]. cbn [length] in Hn. lia. }
  destruct (components_step _ _ _ Ed) as [Hcs Hlen]. set (m := ch :: r) in *.
  set (comp := take (span_name m) m) in *. set (rest := drop (span_name m) m) in *.
  assert (Hcne : comp <> []).
  { subst comp m. pose proof (span_slash_next _ _ _ Ed) as Hc. cbn [span_name].
    by destruct (Z.eqb_spec ch SLASH). }
  assert (Hcns : ~ In SLASH comp) by apply span_name_no_slash.
  rewrite Hcs. cbn [fold_left].
  pose proof (canonical_step_plain acc comp Ha Hcne Hcns) as Hp.
  assert (Hnm : names acc) by (eapply Forall_impl; [exact plain_name|exact Ha]).
  replace (lenZ comp =? 0) with false by (symmetry; by destruct comp). cbn [orb].
  unfold canonical_step in Hp |- * at 2. case_bool_decide; [apply IH; [lia|done]|].
  case_bool_decide.
  - rewrite drop_last_render_removelast by done. apply IH; [lia|done].
  - rewrite render_push by done. apply IH; [lia|done].
Qed.

Lemma components_names l : names (components l).
Proof.
  assert (H : Forall (fun c => ~ In SLASH c) (split_slash l)).
  { induction l as [|c l IH]; [constructor; [by intros []|constructor]|]. cbn [split_slash].
    destruct (split_slash_cons l) as (w & ws & E). rewrite E in *.
    inversion_clear IH as [|? ? Hw Hws].
    destruct (Z.eqb_spec c SLASH) as [|Hc]; [constructor; [by intros []|by constructor]|].
    constructor; [by intros [?|?]|done]. }
  apply Forall_forall. intros c Hin. unfold components in Hin.
  apply filter_In in Hin as [Hin Hne]. split; [by intros ->|].
  rewrite Forall_forall in H. by apply H.
Qed.

Lemma canonical_components_plain full :
  Forall plain (canonical_components (components full)).
Proof.
  unfold canonical_components. pose proof (components_names full) as Hn.
  assert (Hg : forall acc, Forall plain acc -> Forall plain (fold_left canonical_step (components full) acc)).
  { induction Hn as [|c cs [? ?] Hn IH]; intros acc Ha; [done|]. cbn [fold_left].
    apply IH. by apply canonical_step_plain. }
  by apply Hg.
Qed.

(** Canonicalising twice changes nothing. *)
Lemma canonical_fixed cs : Forall plain cs -> canonical_components cs = cs.
Proof.
  unfold canonical_components. intros H.
  assert (Hg : forall acc, fold_left canonical_step cs acc = acc ++ cs).
  { induction H as [|c cs (?&?&?&?) H IH]; intros acc; [by rewrite app_nil_r|].
    cbn [fold_left]. rewrite IH. unfold canonical_step.
    rewrite !bool_decide_eq_false_2 by done. by rewrite <- app_assoc. }
  apply Hg.
Qed.

Section CwdProofs.
Context {E : Type} `{DSK : Disk E} {rd wr : fptr} {cap : Z} `{SPEC : !DiskSpec E rd wr cap}.

Lemma abspath_eq cwd path (w : fsw E) :
  cp32_minix_abspath (Some cwd) (Some path) w =
  if (nthZ cwd 0 !=? SLASH) || (lenZ path =? 0) || (CP32_MINIX_PATH_MAX <? lenZ (composed cwd path))
  then (Err (- CP32_FILE_NAME), w) else (Ok (composed cwd path), w).
Proof.
  unfold cp32_minix_abspath, bind, guard, composed, CP32_MINIX_PATH_MAX.
  destruct (_ || _) eqn:H0; cbn [orb]; [done|]. cbn [ret].
  pose proof (lenZ_nonneg path). pose proof (lenZ_nonneg cwd).
  destruct (nthZ path 0 =? SLASH); cbn [ret].
  { change (lenZ (@nil Z)) with 0. by destruct (255 <? _). }
  destruct (nthZ cwd (lenZ cwd - 1) =? SLASH).
  - rewrite lenZ_app. destruct (Z.ltb_spec 255 (lenZ cwd)); cbn [ret fail];
      destruct (Z.ltb_spec 255 (lenZ cwd + lenZ path)); done || lia.
  - replace (cwd ++ SLASH :: path) with ((cwd ++ [SLASH]) ++ path) by by rewrite <- app_assoc.
    rewrite !lenZ_app. change (lenZ [SLASH]) with 1.
    destruct (Z.ltb_spec 255 (lenZ cwd)); cbn [ret fail];
      [destruct (Z.ltb_spec 255 (lenZ cwd + 1 + lenZ path)); done || lia|].
    destruct (Z.eqb_spec (lenZ cwd) 255); cbn [ret fail]; rewrite ?lenZ_app;
      change (lenZ [SLASH]) with 1; destruct (Z.ltb_spec 255 (lenZ cwd + 1 + lenZ path)); done || lia.
Qed.

(** C37: pathname composition.  [cp32_minix_abspath] succeeds exactly for an
    absolute working directory and a nonempty pathname whose composition has
    at most 255 characters; its result is an absolute pathname whose components
    are those of an absolute [path], or those of [cwd] followed by those of a
    relative one, dots included. *)
Theorem abspath_exact cwd path (w : fsw E) :
  match cp32_minix_abspath (Some cwd) (Some path) w with
  | (Ok p, w') =>
      w' = w /\ nthZ cwd 0 = SLASH /\ path <> [] /\ nthZ p 0 = SLASH /\
      lenZ p <= CP32_MINIX_PATH_MAX /\
      components p = if nthZ path 0 =? SLASH then components path
                     else components cwd ++ components path
  | (Err e, w') =>
      w' = w /\ e = - CP32_FILE_NAME /\
      (nthZ cwd 0 <> SLASH \/ path = [] \/ CP32_MINIX_PATH_MAX < lenZ (composed cwd path))
  end.
Proof.
  rewrite abspath_eq. destruct (_ || _) eqn:H0.
  - split_and!; [done..|]. destruct (Z.eqb_spec (lenZ path) 0); [|lia]. right; left. by destruct path.
  - assert (Hc0 : nthZ cwd 0 = SLASH) by lia. split_and!; try done.
    + intros ->. change (lenZ (@nil Z)) with 0 in H0. lia.
    + unfold composed. destruct (Z.eqb_spec (nthZ path 0) SLASH); [done|].
      destruct cwd; [discriminate|]. by destruct (nthZ (z :: cwd) (lenZ (z :: cwd) - 1) =? SLASH).
    + lia.
    + by apply components_composed.
Qed.

Lemma abspath_reads d t cwd path :
  reads (rd := rd) (wr := wr) (cap := cap) d t (cp32_minix_abspath (Some cwd) (Some path))
    (fun p => p = composed cwd path) (fun e => e = - CP32_FILE_NAME).
Proof. intros w Hw. rewrite abspath_eq. by destruct (_ || _). Qed.

(** The statuses of [cp32_minix_chdir]. *)
Definition chdir_status (e : Z) : Prop := e = - CP32_FILE_NOT_FOUND \/ path_status e.

Lemma resolve_reads' d t capacity path :
  (forall a, is_byte (d a)) -> 0 <= capacity <= cap -> cap < 4294967296 -> rd <> 0 ->
  let s := super_of d in
  reads d t (cp32_fs_resolve_path rd capacity (Some path))
    (fun x => fst x = s /\ volume_ok capacity d /\ 0 <= snd x /\
              walk d rd s (components path) 1 = Some (snd x)) chdir_status.
Proof.
  intros Hb Hcap Hc Hrd s. eapply reads_conseq; [by apply resolve_reads|by intros x (?&?&?&?&?)|].
  intros e [[-> _]|[? _]]; [by left|by right].
Qed.

Lemma dir_open_reads d t capacity path :
  (forall a, is_byte (d a)) -> 0 <= capacity <= cap -> cap < 4294967296 -> rd <> 0 ->
  let s := super_of d in
  reads d t (cp32_minix_dir_open rd capacity (Some path))
    (fun dir => exists n, walk d rd s (components path) 1 = Some n /\ dir_ok d rd s n /\
                dir = dir_of_inode d rd s n) chdir_status.
Proof.
  intros Hb Hcap Hc Hrd s. unfold cp32_minix_dir_open.
  eapply reads_bind; [by apply resolve_reads'|]. intros [s' n] (Hs' & [_ Hv] & Hn & Hw).
  cbn [fst snd] in *. subst s'.
  eapply reads_conseq; [apply (open_directory_reads d t capacity); done || lia| |].
  - intros dir [-> Hd]. by exists n.
  - intros e [? _]. right. by left.
Qed.

(** C40: changing directory.  When [cp32_minix_chdir] succeeds, the new working
    directory is the canonical form (no empty, dot or dot-dot component) of the
    composed pathname, it names the same inode as that pathname does on the
    volume, and this inode is a directory; otherwise only a status is returned.
    The volume is unchanged either way. *)
Theorem chdir_canonical w capacity cwd path :
  fs_coh w -> 0 <= capacity <= cap -> cap < 4294967296 -> rd <> 0 ->
  let d := fs_data w in let s := super_of d in let full := composed cwd path in
  match cp32_minix_chdir rd capacity cwd (Some path) w with
  | (Ok cwd', w') =>
      at_data d (fs_statics w) w' /\
      cwd' = render (canonical_components (components full)) /\
      components cwd' = canonical_components (components full) /\
      Forall plain (components cwd') /\
      exists n, walk d rd s (components full) 1 = Some n /\
                walk d rd s (components cwd') 1 = Some n /\ dir_ok d rd s n
  | (Err e, w') => at_data d (fs_statics w) w' /\ chdir_status e
  end.
Proof.
  intros Hw Hcap Hc Hrd d s full. assert (Hb : forall a, is_byte (d a)) by (intros; apply dk_data_byte).
  apply (reads_run w _ (fun cwd' => cwd' = render (canonical_components (components full)) /\
      components cwd' = canonical_components (components full) /\
      Forall plain (components cwd') /\
      exists n, walk d rd s (components full) 1 = Some n /\
                walk d rd s (components cwd') 1 = Some n /\ dir_ok d rd s n) chdir_status); [|done].
  fold d. unfold cp32_minix_chdir.
  eapply reads_bind; [eapply reads_conseq; [apply abspath_reads|intros ? Hq; exact Hq|]|].
  { intros e ->. right. right. by left. }
  intros ? ->. fold full.
  eapply reads_bind; [by apply dir_open_reads|]. intros dir _. cbv zeta.
  set (canonical := canonicalize _ _).
  assert (HC : canonical = render (canonical_components (components full))).
  { subst canonical. change [SLASH] with (render []). apply canonicalize_spec; [lia|done]. }
  assert (Hcomp : components canonical = canonical_components (components full)).
  { rewrite HC. apply components_render. eapply Forall_impl; [exact plain_name|].
    apply canonical_components_plain. }
  eapply reads_bind; [by apply resolve_reads'|]. intros [s1 n1] (_ & _ & _ & Hw1). cbn [snd] in Hw1.
  eapply reads_bind; [by apply resolve_reads'|]. intros [s2 n2] (_ & _ & _ & Hw2). cbn [fst snd] in *.
  eapply reads_bind with (Q' := fun _ => n1 = n2); [reads_step; [|lia]|intros [] <-].
  { right. left. unfold inode_status. auto. }
  eapply reads_bind; [by apply dir_open_reads|]. intros dir' (n & Hn & Hd & _).
  apply reads_ret. fold s in Hw1, Hw2, Hn, Hd. rewrite Hcomp in *.
  assert (n = n1) as -> by congruence.
  split_and!; [exact HC|done|apply canonical_components_plain|]. by exists n1.
Qed.
End CwdProofs.

(** ** Witnesses *)
Definition demo_relative : list Z := [46; 46; 47; 47] ++ Demo.docs ++ [47; 46].

Lemma demo_chdir :
  fst (cp32_minix_chdir MD_READ 65536 ([47] ++ Demo.docs) (Some demo_relative) Demo.state) =
  Ok ([47] ++ Demo.docs).
Proof. vm_compute. reflexivity. Qed.

Lemma chdir_canonical_witness :
  let d := fs_data (rd := MD_READ) (wr := MD_WRITE) (cap := 65536) Demo.state in
  exists n, walk d MD_READ (super_of d) (components ([47] ++ Demo.docs)) 1 = Some n /\
            dir_ok d MD_READ (super_of d) n.
Proof.
  pose proof (chdir_canonical (rd := MD_READ) (wr := MD_WRITE) (cap := 65536)
    Demo.state 65536 ([47] ++ Demo.docs) demo_relative demo_coh ltac:(lia) ltac:(lia)
    ltac:(discriminate)) as H.
  rewrite (run_ok _ _ _ demo_chdir) in H. destruct H as (_ & _ & _ & _ & n & _ & Hn & Hd).
  exists n. split; [exact Hn|exact Hd].
Defined.
