(* ===== verification/Bitmap.v ===== *)
(** * Allocation bitmaps: the allocator of src/src/fs/create.c

    Search, reservation and release of one bit of the inode or zone map. *)
From S2P Require Import Prelude Codec FsTypes FdTable MemDisk Super Timestamp Inode.

Section Bitmap.
Context {E : Type} `{DSK : Disk E}.
Abbreviation FM := (M (fsw E)).

(** One turn of the scan of [find_free_bit]; the state is [bit] and [word]. *)
Definition free_turn (read : fptr) (map_ first last swap : Z) (st : Z * Z)
  : FM (turn (Z * Z) Z) :=
  let (bit, word) := st in
  if last <? bit then fail (- CP32_FILE_NOSPACE) else
  word <- (if (bit =? first) || (bit mod 16 =? 0)
           then raw <- read_or (- CP32_SUPER_IO) read (map_ +u bit / 16 *u 2) 2 ;;
                ret (cp32_fs_u16 raw swap)
           else ret word) ;;
  if truthy (Z.land word (bit_of bit)) then ret (Continue (bit +u 1, word))
  else ret (Break bit).

(** [static int find_free_bit(read, map, first, last, swap, found)] *)
Definition find_free_bit (read : fptr) (map_ first last swap : Z) : FM Z :=
  loop (Z.to_nat (last + 1 - first)) (free_turn read map_ first last swap)
       (fun _ => fail (- CP32_FILE_NOSPACE)) (first, 0).

(** [static int reserve(read, write, map, bit, swap)] *)
Definition reserve (read write : fptr) (map_ bit swap : Z) : FM unit :=
  let at_ := map_ +u bit / 16 *u 2 in
  raw <- read_or (- CP32_SUPER_IO) read at_ 2 ;;
  let word := cp32_fs_u16 raw swap in
  guard (truthy (Z.land word (bit_of bit))) (- CP32_SUPER_INVALID) ;;;
  store write at_ (put16 raw 0 (Z.lor word (bit_of bit)) swap).

(** Clearing a set bit, as [release_zone] and the tails of [remove_node] and
    [cp32_fs_reap_inode] write it. *)
Definition release_bit (read write : fptr) (map_ bit swap : Z) : FM unit :=
  let at_ := map_ +u bit / 16 *u 2 in
  raw <- read_or (- CP32_SUPER_IO) read at_ 2 ;;
  let word := cp32_fs_u16 raw swap in
  guard (negb (truthy (Z.land word (bit_of bit)))) (- CP32_SUPER_INVALID) ;;;
  store write at_ (put16 raw 0 (Z.land word (not32 (bit_of bit))) swap).

(** [static int release_zone(read, write, s, zone)] *)
Definition release_zone (read write : fptr) (s : cp32_minix_super) (zone : Z) : FM unit :=
  release_bit read write (zmap_offset s) (zone_bit s zone) (s_swapped s).
End Bitmap.
