(* ===== verification/Zones.v ===== *)
(** * File contents on disk: mappings, truncation and writes of src/src/fs/create.c

    [shrink_zones] is the static snapshot of the mapping of one inode: entries
    0-6 the direct zones, 7-262 the entries of the indirect table, 263 the
    table itself. *)
From S2P Require Import Prelude Codec FsTypes FdTable MemDisk Super Timestamp Inode Read Bitmap.

Section Zones.
Context {E : Type} `{DSK : Disk E}.
Abbreviation FM := (M (fsw E)).

Definition zeros (n : Z) : list Z := replicate (Z.to_nat n) 0.
Definition shrink_at (i : Z) : FM Z := gets (fun w => nthZ (fs_shrink_zones w) i).
Definition shrink_set (i z : Z) : FM unit :=
  modify (fun w => set_shrink (updZ (fs_shrink_zones w) i z) w).

(** Lines 325-328: the table block, 16 entries at a time. *)
Definition snapshot_table (read : fptr) (s : cp32_minix_super) (table : Z) : FM unit :=
  for_ 16 0 (fun k _ =>
    let at_ := 64 * k in
    raw <- read_or (- CP32_SUPER_IO) read (table *u 1024 +u at_) 64 ;;
    for_ 16 0 (fun i _ =>
      shrink_set (7 + at_ / 4 + i) (cp32_fs_u32 (ptr_add raw (i * 4)) (s_swapped s))) tt) tt.

(** Lines 332-338: one entry of the validation. *)
Definition snapshot_check (read : fptr) (s : cp32_minix_super) (i : Z) : FM unit :=
  zone <- shrink_at i ;;
  if zone =? 0 then ret tt else
  guard (zone_bad s zone) (- CP32_SUPER_INVALID) ;;;
  before <- gets (fun w => take (Z.to_nat i) (fs_shrink_zones w)) ;;
  guard (existsb (Z.eqb zone) before) (- CP32_SUPER_INVALID) ;;;
  zone_allocated read s zone.

(** [static int snapshot_zones(read, s, inode)] *)
Definition snapshot_zones (read : fptr) (s : cp32_minix_super) (inode : list Z) : FM unit :=
  guard (truthy (cp32_fs_u32 (ptr_add inode 56) (s_swapped s)) ||
         truthy (cp32_fs_u32 (ptr_add inode 60) (s_swapped s))) (- CP32_SUPER_UNSUPPORTED) ;;;
  modify (set_shrink (replicate 264 0)) ;;;
  for_ 7 0 (fun i _ => shrink_set i (raw_zone inode (s_swapped s) i)) tt ;;;
  let table := cp32_fs_u32 (ptr_add inode 52) (s_swapped s) in
  shrink_set 263 table ;;;
  (if table =? 0 then ret tt else
     guard (zone_bad s table) (- CP32_SUPER_INVALID) ;;;
     zone_allocated read s table ;;;
     snapshot_table read s table) ;;;
  for_ 264 0 (fun i _ => snapshot_check read s i) tt.

(** [n = end - at; if (n > 64) n = 64; if (n > 512 - at % 512) n = 512 - at % 512;] *)
Definition fragment (at_ end_ : Z) : Z :=
  let n := end_ - at_ in
  let n := if 64 <? n then 64 else n in
  if 512 - at_ mod 512 <? n then 512 - at_ mod 512 else n.

(** [for (; at < end; at += n) store(write, zone*1024 + at, zero, n)] *)
Definition zero_range (write : fptr) (zone at_ end_ : Z) : FM unit :=
  loop (S (Z.to_nat (end_ - at_))) (fun at_ =>
    if at_ <? end_ then
      let n := fragment at_ end_ in
      store write (zone *u 1024 +u at_) (zeros n) ;;;
      ret (Continue (at_ + n))
    else ret (Break tt)) (fun _ => ret tt) at_.

(** [for (at = 0; at < 1024; at += 64) store(write, zone*1024 + at, zero, 64)] *)
Definition zero_block (write : fptr) (zone : Z) : FM unit :=
  for_ 16 0 (fun k _ => store write (zone *u 1024 +u 64 * k) (zeros 64)) tt.

(** [for (i = from; i < to; i++) if (shrink_zones[i]) release_zone(...)] *)
Definition release_range (read write : fptr) (s : cp32_minix_super) (from to : Z) : FM unit :=
  for_ (Z.to_nat (to - from)) from (fun i _ =>
    z <- shrink_at i ;;
    if z =? 0 then ret tt else release_zone read write s z) tt.

(** [int cp32_fs_truncate_inode(read, write, capacity, number, length)] *)
Definition cp32_fs_truncate_inode (read write : fptr) (capacity number length : Z) : FM unit :=
  guard ((read =? 0) || (write =? 0) || (number =? 0)) (- CP32_SUPER_INVALID) ;;;
  cache_invalidate ;;;
  s <- negated (cp32_minix_super_read read capacity nonnull) ;;
  info <- cp32_fs_stat_inode read s number nonnull ;;
  guard (Z.land (st_mode info) S_IFMT !=? S_IFREG) (- CP32_FILE_IS_DIR) ;;;
  file <- cp32_fs_file_inode read s number ;;
  guard (f_size file <? length) (- CP32_SUPER_INVALID) ;;;
  guard (truthy (s_log_zone_size s) || (263 * 1024 <? f_size file)) (- CP32_SUPER_UNSUPPORTED) ;;;
  let itable := inode_offset s (f_inode file) in
  inode <- read_or (- CP32_SUPER_IO) read itable 64 ;;
  snapshot_zones read s inode ;;;
  shrink <- gets fs_shrink_zones ;;
  let table := nthZ shrink 263 in
  let keep := (length +u 1023) / 1024 in
  let changed := (length !=? f_size file) ||
                 existsb truthy (drop (Z.to_nat keep) (take 263 shrink)) ||
                 (truthy table && (keep <=? 7)) in
  if negb changed then cp32_fs_data_time file 6 else
  inode <- cp32_fs_stamp read inode 12 (s_swapped s) 6 ;;
  let inode := put32 inode 8 length (s_swapped s) in
  inode <- for_ (Z.to_nat (7 - keep)) keep
             (fun i inode => ret (put32 inode (24 + i * 4) 0 (s_swapped s))) inode ;;
  let inode := if keep <=? 7 then put32 inode 52 0 (s_swapped s) else inode in
  store write itable inode ;;;
  (if truthy table && (7 <? keep)
   then zero_range write table ((keep - 7) * 4) 1024 else ret tt) ;;;
  (if truthy (length mod 1024) && truthy (nthZ shrink (keep - 1))
   then zero_range write (nthZ shrink (keep - 1)) (length mod 1024) 1024 else ret tt) ;;;
  release_range read write s keep 263 ;;;
  (if truthy table && (keep <=? 7) then release_zone read write s table else ret tt).

(** [int cp32_fs_resize_inode(read, write, capacity, number, length)] *)
Definition cp32_fs_resize_inode (read write : fptr) (capacity number length : Z) : FM unit :=
  guard ((read =? 0) || (write =? 0)) (- CP32_SUPER_INVALID) ;;;
  cache_invalidate ;;;
  s <- negated (cp32_minix_super_read read capacity nonnull) ;;
  guard ((s_max_size s <? length) || (263 * 1024 <? length)) (- CP32_FILE_BIG) ;;;
  f <- cp32_fs_file_inode read s number ;;
  if length <=? f_size f then cp32_fs_truncate_inode read write capacity number length else
  guard (truthy (s_log_zone_size s)) (- CP32_SUPER_UNSUPPORTED) ;;;
  let itable := inode_offset s number in
  raw <- read_or (- CP32_SUPER_IO) read itable 64 ;;
  snapshot_zones read s raw ;;;
  let first := f_size f / 1024 in
  let last := (length + 1023) / 1024 in
  for_ (Z.to_nat (last - first)) first (fun i _ =>
    zone <- shrink_at i ;;
    if zone =? 0 then ret tt else
    let at_ := if i =? first then f_size f mod 1024 else 0 in
    let end_ := length - i * 1024 in
    let end_ := if 1024 <? end_ then 1024 else end_ in
    zero_range write zone at_ end_) tt ;;;
  raw <- cp32_fs_stamp read raw 12 (s_swapped s) 6 ;;
  store write itable (put32 raw 8 length (s_swapped s)).

(** Lines 803-817 of [write_inode]: a missing zone, and a missing indirect
    table, are reserved and cleared. The result is [zone] and [table]. *)
Definition allocate_zone (read write : fptr) (super : cp32_minix_super) (index table : Z)
  : FM (Z * Z) :=
  let zmap := zmap_offset super in
  let count := s_zones super -u s_first_data_zone super in
  bit <- find_free_bit read zmap 1 count (s_swapped super) ;;
  let zone := s_first_data_zone super +u bit -u 1 in
  let need := (7 <=? index) && (table =? 0) in
  tbit <- (if need then find_free_bit read zmap (bit +u 1) count (s_swapped super) else ret 0) ;;
  reserve read write zmap bit (s_swapped super) ;;;
  zero_block write zone ;;;
  if need then
    let table := s_first_data_zone super +u tbit -u 1 in
    reserve read write zmap tbit (s_swapped super) ;;;
    zero_block write table ;;;
    ret (zone, table)
  else ret (zone, table).

(** One turn of the [while (done < count)] of [write_inode]: the new [done]. *)
Definition write_fragment (read write : fptr) (super : cp32_minix_super)
    (number offset : Z) (bytes : list Z) (count : Z) (directory : bool) (done_ : Z) : FM Z :=
  let itable := inode_offset super number in
  cache_invalidate ;;;
  size <- (if directory then
             d <- cp32_fs_open_directory read super number ;;
             guard ((offset !=? d_size d) || (count !=? 16) || truthy (offset mod 1024))
                   (- CP32_SUPER_INVALID) ;;;
             ret (d_size d)
           else f <- cp32_fs_file_inode read super number ;; ret (f_size f)) ;;
  guard (263 * 1024 <? size) (- CP32_FILE_BIG) ;;;
  raw <- read_or (- CP32_SUPER_IO) read itable 64 ;;
  raw <- (if directory then ret raw else cp32_fs_stamp read raw 12 (s_swapped super) 6) ;;
  snapshot_zones read super raw ;;;
  let position := offset +u done_ in
  let index := position / 1024 in
  zone <- shrink_at index ;;
  table <- shrink_at 263 ;;
  tail <- shrink_at (size / 1024) ;;
  (if (size <? position) && truthy (size mod 1024) && truthy tail
   then zero_range write tail (size mod 1024)
          (if size / 1024 =? index then position mod 1024 else 1024)
   else ret tt) ;;;
  let* (zone, table) := (if zone =? 0 then allocate_zone read write super index table
                         else ret (zone, table)) in
  let chunk := count - done_ in
  let chunk := if 512 - position mod 512 <? chunk then 512 - position mod 512 else chunk in
  store write (zone *u 1024 +u position mod 1024)
        (take (Z.to_nat chunk) (drop (Z.to_nat done_) bytes)) ;;;
  raw <- (if index <? 7 then ret (put32 raw (24 + 4 * index) zone (s_swapped super))
          else store write (table *u 1024 +u 4 * (index - 7))
                     (put32 (zeros 4) 0 zone (s_swapped super)) ;;;
               ret (put32 raw 52 table (s_swapped super))) ;;
  let raw := if size <? position +u chunk then put32 raw 8 (position +u chunk) (s_swapped super)
             else raw in
  store write itable raw ;;;
  ret (done_ + chunk).

(** [static int write_inode(read, write, super, number, offset, bytes, count, directory)]:
    the count written; an error after progress reports the progress. *)
Definition write_inode (read write : fptr) (super : cp32_minix_super) (number offset : Z)
    (bytes : option (list Z)) (count : Z) (directory : bool) : FM Z :=
  guard ((write =? 0) || (bool_decide (bytes = None) && truthy count) || (64 <? count))
        (- CP32_SUPER_INVALID) ;;;
  guard (truthy (s_log_zone_size super)) (- CP32_SUPER_UNSUPPORTED) ;;;
  guard ((263 * 1024 <? offset) || (263 * 1024 -u offset <? count) ||
         (s_max_size super <? offset) || (s_max_size super -u offset <? count))
        (- CP32_FILE_BIG) ;;;
  loop (S (Z.to_nat count)) (fun done_ =>
    if done_ <? count then
      r <- try (write_fragment read write super number offset (default [] bytes) count
                  directory done_) ;;
      match r with
      | Ok next => ret (Continue next)
      | Err e => if truthy done_ then ret (Break done_) else fail e
      end
    else ret (Break done_)) ret 0.

(** [int cp32_fs_write_inode(read, write, super, number, offset, bytes, count)] *)
Definition cp32_fs_write_inode (read write : fptr) (super : cp32_minix_super)
    (number offset : Z) (bytes : option (list Z)) (count : Z) : FM Z :=
  write_inode read write super number offset bytes count false.

(** Lines 846-856 of [cp32_fs_reap_inode] and 550-562 of [remove_node] share the
    release of every mapped zone and of the inode bit. *)
Definition release_inode (read write : fptr) (s : cp32_minix_super) (number : Z) : FM unit :=
  release_range read write s 0 264 ;;;
  release_bit read write 2048 number (s_swapped s).

(** [int cp32_fs_reap_inode(read, write, s, number)] *)
Definition cp32_fs_reap_inode (read write : fptr) (s : cp32_minix_super) (number : Z)
  : FM unit :=
  let at_ := inode_offset s number in
  raw <- read_or (- CP32_SUPER_IO) read at_ 64 ;;
  if truthy (cp32_fs_u16 (ptr_add raw 2) (s_swapped s)) then ret tt else
  guard (Z.land (cp32_fs_u16 raw (s_swapped s)) S_IFMT !=? S_IFREG) (- CP32_SUPER_INVALID) ;;;
  snapshot_zones read s raw ;;;
  store write at_ (zeros 64) ;;;
  release_inode read write s number.
End Zones.
