(* ===== verification/Snapshot.v ===== *)
(** * The mapping snapshot of create.c

    A triple for code that writes the volume and the snapshot ([steps]), and
    what [snapshot_zones] accepts: the blocks of an inode, all live and
    distinct. *)
From S2P Require Import Prelude Codec FsTypes FdTable MemDisk Super Timestamp Inode Read Bitmap Zones.

(** ** Code that leaves the snapshot alone *)
Definition same_shrink {E} (w w' : fsw E) : Prop :=
  fs_shrink_zones w' = fs_shrink_zones w /\ fs_statics w' = fs_statics w.

#[export] Instance same_shrink_preorder {E} : PreOrder (@same_shrink E).
Proof. split; [done|]. intros a b c [H1 H2] [H3 H4]. split; congruence. Qed.

Section Keeps.
Context {E : Type} `{DSK : Disk E}.

Lemma shrink_read rd off n : keeps (same_shrink (E := E)) (call_read rd off n).
Proof. intros w. unfold call_read. by destruct (dk_read rd off n (fs_env w)) as [[? ?] ?]. Qed.
Lemma shrink_write wr off bs : keeps (same_shrink (E := E)) (call_write wr off bs).
Proof. intros w. unfold call_write. by destruct (dk_write wr off bs (fs_env w)). Qed.
Lemma shrink_clock c : keeps (same_shrink (E := E)) (call_clock c).
Proof. intros w. unfold call_clock. by destruct (dk_clock c (fs_env w)) as [[? ?] ?]. Qed.
End Keeps.
#[export] Hint Resolve shrink_read shrink_write shrink_clock : keeps.

Section KeepsMore.
Context {E : Type} `{DSK : Disk E}.

Lemma shrink_read_or e rd off n : keeps (same_shrink (E := E)) (read_or e rd off n).
Proof. unfold read_or. keeps_solve. Qed.
Lemma shrink_invalidate : keeps (same_shrink (E := E)) cache_invalidate.
Proof. by intros w. Qed.
Lemma shrink_store wr off p : keeps (same_shrink (E := E)) (store wr off p).
Proof. unfold store. pose proof shrink_invalidate. keeps_solve; done. Qed.
Lemma shrink_stamp rd raw at_ sw mask : keeps (same_shrink (E := E)) (cp32_fs_stamp rd raw at_ sw mask).
Proof. unfold cp32_fs_stamp. keeps_solve. Qed.
End KeepsMore.
#[export] Hint Resolve shrink_read_or shrink_store shrink_invalidate shrink_stamp : keeps.

Section KeepsInode.
Context {E : Type} `{DSK : Disk E}.

Lemma shrink_allocated rd m b sw : keeps (same_shrink (E := E)) (cp32_fs_allocated rd m b sw).
Proof. unfold cp32_fs_allocated. keeps_solve. Qed.
Lemma shrink_file_inode rd s n : keeps (same_shrink (E := E)) (cp32_fs_file_inode rd s n).
Proof.
  unfold cp32_fs_file_inode, file_zone, zone_allocated.
  pose proof shrink_allocated. keeps_solve.
Qed.
Lemma shrink_find_free rd m first last sw : keeps (same_shrink (E := E)) (find_free_bit rd m first last sw).
Proof. unfold find_free_bit, free_turn. keeps_solve. Qed.
End KeepsInode.
#[export] Hint Resolve shrink_allocated shrink_file_inode shrink_find_free : keeps.

(** ** Triples

    From the stored bytes [d], the tables [t] and the snapshot [zs], [c] on
    success leaves stored bytes and a snapshot that satisfy [Q]. *)
Section Steps.
Context {E : Type} `{DSK : Disk E} {rd wr : fptr} {cap : Z} `{SPEC : !DiskSpec E rd wr cap}.
Abbreviation FM := (M (fsw E)).
Abbreviation at_data := (at_data (rd := rd) (wr := wr) (cap := cap)).
Abbreviation reads := (reads (rd := rd) (wr := wr) (cap := cap)).

Definition steps {A} (t : statics) (d : mem) (zs : list Z) (c : FM A) (Q : A -> mem -> list Z -> Prop) : Prop :=
  forall w, at_data d t w -> fs_shrink_zones w = zs ->
  match c w with
  | (Ok a, w') => exists d', at_data d' t w' /\ Q a d' (fs_shrink_zones w')
  | (Err _, _) => True
  end.

Lemma steps_ret {A} t d zs (a : A) (Q : A -> mem -> list Z -> Prop) : Q a d zs -> steps t d zs (ret a) Q.
Proof. intros H w Hw <-. by exists d. Qed.

Lemma steps_fail {A} t d zs e (Q : A -> mem -> list Z -> Prop) : steps t d zs (fail e) Q.
Proof. by intros w Hw Hz. Qed.

Lemma steps_bind {A B} t d zs (c : FM A) (k : A -> FM B) Q' Q :
  steps t d zs c Q' -> (forall a d' zs', Q' a d' zs' -> steps t d' zs' (k a) Q) -> steps t d zs (bind c k) Q.
Proof.
  intros Hc Hk w Hw Hz. specialize (Hc w Hw Hz). unfold bind. destruct (c w) as [[e|a] w']; [done|].
  destruct Hc as (d' & Hw' & HQ). by apply (Hk a d' _ HQ).
Qed.

Lemma steps_conseq {A} t d zs (c : FM A) (Q' Q : A -> mem -> list Z -> Prop) :
  steps t d zs c Q' -> (forall a d' zs', Q' a d' zs' -> Q a d' zs') -> steps t d zs c Q.
Proof.
  intros Hc HQ w Hw Hz. specialize (Hc w Hw Hz). destruct (c w) as [[e|a] w']; [done|].
  destruct Hc as (d' & ? & ?). exists d'. auto.
Qed.

Lemma steps_guard t d zs b e (Q : unit -> mem -> list Z -> Prop) :
  (b = false -> Q tt d zs) -> steps t d zs (guard b e) Q.
Proof. intros H. unfold guard. destruct b; [apply steps_fail|by apply steps_ret, H]. Qed.

(** A guard in front. *)
Lemma steps_guarded {A} t d zs b e (k : unit -> FM A) Q :
  (b = false -> steps t d zs (k tt) Q) -> steps t d zs (bind (guard b e) k) Q.
Proof. intros H. unfold guard. destruct b; [by intros w Hw Hz|]. intros w Hw Hz. by apply H. Qed.

(** Code that only reads. *)
Lemma steps_reads {A} t d zs (c : FM A) (Q : A -> Prop) R (Q' : A -> mem -> list Z -> Prop) :
  reads d t c Q R -> keeps same_shrink c -> (forall a, Q a -> Q' a d zs) -> steps t d zs c Q'.
Proof.
  intros Hr Hk HQ w Hw Hz. specialize (Hr w Hw). specialize (Hk w). destruct (c w) as [[e|a] w']; [done|].
  destruct Hr as [Hw' Ha]. exists d. split; [done|]. cbn in Hk. destruct Hk as [-> _]. rewrite Hz. auto.
Qed.

Lemma steps_read {A B} t d zs (c : FM A) (k : A -> FM B) (Q : A -> Prop) R Q' :
  reads d t c Q R -> keeps same_shrink c -> (forall a, Q a -> steps t d zs (k a) Q') -> steps t d zs (bind c k) Q'.
Proof.
  intros Hr Hk HQ. apply (steps_bind _ _ _ _ _ (fun a d' zs' => Q a /\ d' = d /\ zs' = zs)).
  - by apply (steps_reads _ _ _ _ Q R).
  - intros a ? ? (Ha & -> & ->). auto.
Qed.

(** A store that succeeds. *)
Lemma steps_store t d zs at_ p :
  0 <= at_ -> Forall is_byte p ->
  steps t d zs (store wr at_ p) (fun _ d' zs' => at_ + lenZ p <= cap /\ d' = mem_write d at_ p /\ zs' = zs).
Proof.
  intros Hat Hp w (Hc & Hd & Ht) Hz.
  pose proof (writes_store (rd := rd) (cap := cap) (fun _ => True) d at_ p (fun _ => True) Hat Hp ltac:(done) I w Hc Hd) as H.
  pose proof (shrink_store wr at_ p w) as [Hk Hs].
  destruct (store wr at_ p w) as [[e|a] w']; [done|]. destruct H as (Hc' & _ & Hcap & Hd').
  exists (mem_write d at_ p). cbn in Hk, Hs. split; [|rewrite Hk, Hz; done].
  split; [done|]. split; [done|congruence].
Qed.

Lemma steps_set t d zs i z (Q : unit -> mem -> list Z -> Prop) :
  Q tt d (updZ zs i z) -> steps t d zs (shrink_set i z) Q.
Proof.
  intros HQ w (Hc & Hd & Ht) <-. cbn. exists d. split; [|done]. split; [|split; [|done]].
  - unfold fs_coh, time_bound in *. exact Hc.
  - exact Hd.
Qed.

Lemma steps_at {B} t d zs i (k : Z -> FM B) Q : steps t d zs (k (nthZ zs i)) Q -> steps t d zs (bind (shrink_at i) k) Q.
Proof. intros H w Hw Hz. unfold bind, shrink_at, gets. rewrite Hz. by apply H. Qed.

Lemma steps_gets {A B} t d zs (f : list Z -> A) (k : A -> FM B) Q :
  steps t d zs (k (f zs)) Q -> steps t d zs (bind (gets (fun w => f (fs_shrink_zones w))) k) Q.
Proof. intros H w Hw Hz. unfold bind, gets. rewrite Hz. by apply H. Qed.

Lemma steps_for {A} t (I : Z -> A -> mem -> list Z -> Prop) n i (body : Z -> A -> FM A) d zs a :
  (forall j a d' zs', i <= j < i + Z.of_nat n -> I j a d' zs' -> steps t d' zs' (body j a) (I (j + 1))) ->
  I i a d zs -> steps t d zs (for_ n i body a) (I (i + Z.of_nat n)).
Proof.
  revert i a d zs. induction n as [|n IH]; intros i a d zs Hb Ha; cbn [for_].
  - apply steps_ret. by replace (i + Z.of_nat 0) with i by lia.
  - eapply steps_bind; [apply Hb; [lia|exact Ha]|]. intros a' d' zs' Ha'. cbn beta in Ha'.
    replace (i + Z.of_nat (S n)) with ((i + 1) + Z.of_nat n) by lia.
    apply IH; [|done]. intros j b d'' zs'' Hj. apply Hb. lia.
Qed.

Lemma steps_loop {A B} t (I : nat -> A -> mem -> list Z -> Prop) n (body : A -> FM (turn A B)) (done_ : A -> FM B) Q d zs a :
  (forall n a d' zs', I (S n) a d' zs' -> steps t d' zs' (body a)
     (fun x d'' zs'' => match x with Continue a' => I n a' d'' zs'' | Break b => Q b d'' zs'' end)) ->
  (forall a d' zs', I O a d' zs' -> steps t d' zs' (done_ a) Q) ->
  I n a d zs -> steps t d zs (loop n body done_ a) Q.
Proof.
  intros Hb Hd. revert a d zs. induction n as [|n IH]; intros a d zs Ha; cbn [loop]; [by apply Hd|].
  eapply steps_bind; [by apply Hb|]. intros [a'|b] d' zs' Hx; [by apply IH|by apply steps_ret].
Qed.
End Steps.

(** ** The blocks of an inode *)
Section Blocks.
Context {E : Type} `{DSK : Disk E} {rd wr : fptr} {cap : Z} `{SPEC : !DiskSpec E rd wr cap}.
Abbreviation FM := (M (fsw E)).
Abbreviation reads := (reads (rd := rd) (wr := wr) (cap := cap)).
Abbreviation steps := (steps (rd := rd) (wr := wr) (cap := cap)).

(** Block [i] of inode [n], 0 to 262 of the mapping and 263 the indirect table. *)
Definition file_block (d : mem) (s : cp32_minix_super) (n i : Z) : Z :=
  let f := file_of_inode d rd s n in
  if i =? 263 then f_indirect f else bmap d f i.

(** [zs] are the blocks of inode [n]: live and distinct. *)
Record snap_ok (d : mem) (s : cp32_minix_super) (n : Z) (zs : list Z) : Prop := {
  sn_len : lenZ zs = 264;
  sn_block : forall i, 0 <= i < 264 -> nthZ zs i = file_block d s n i;
  sn_double : f_double_indirect (file_of_inode d rd s n) = 0;
  sn_live : forall i, 0 <= i < 264 -> nthZ zs i <> 0 -> zone_live d s (nthZ zs i);
  sn_distinct : forall i k, 0 <= k < i -> i < 264 -> nthZ zs i <> 0 -> nthZ zs k <> nthZ zs i }.

(** The snapshot while it is being filled: [m] entries, and entry 263 holds [t]. *)
Definition filled (d : mem) (s : cp32_minix_super) (n t m : Z) (zs : list Z) : Prop :=
  lenZ zs = 264 /\ forall j, 0 <= j < 264 ->
  nthZ zs j = if j =? 263 then t else if j <? m then file_block d s n j else 0.

Lemma filled_set d s n t m zs z :
  filled d s n t m zs -> 0 <= m < 263 -> z = file_block d s n m -> filled d s n t (m + 1) (updZ zs m z).
Proof.
  intros [Hl Hz] Hm ->. split; [by rewrite lenZ_upd|]. intros j Hj. rewrite nthZ_upd, Hz by lia.
  destruct (Z.eqb_spec m j) as [<-|]; [rewrite (proj2 (Z.eqb_neq m 263)), (proj2 (Z.ltb_lt m (m + 1))) by lia; done|].
  destruct (j =? 263); [done|]. destruct (Z.ltb_spec j m), (Z.ltb_spec j (m + 1)); done || lia.
Qed.

Lemma filled_same d s n m m' t zs :
  filled d s n t m zs -> (forall j, 0 <= j < 263 -> m <= j < m' -> file_block d s n j = 0) -> m <= m' -> filled d s n t m' zs.
Proof.
  intros [Hl Hz] H0 Hm. split; [done|]. intros j Hj. rewrite Hz by done.
  destruct (Z.eqb_spec j 263); [done|]. destruct (Z.ltb_spec j m), (Z.ltb_spec j m'); try done; [lia|].
  symmetry. apply H0; lia.
Qed.

(** A buffer that holds the fields of the inode from its zones on. *)
Definition raw_of (d : mem) (s : cp32_minix_super) (n : Z) (raw : list Z) : Prop :=
  forall k, 24 <= k < 64 -> nthZ raw k = nthZ (inode_bytes d s n) k.

Lemma raw_field d s n raw at_ :
  raw_of d s n raw -> 24 <= at_ -> at_ + 4 <= 64 ->
  cp32_fs_u32 (ptr_add raw at_) (s_swapped s) = cp32_fs_u32 (ptr_add (inode_bytes d s n) at_) (s_swapped s).
Proof. intros Hr H1 H2. apply u32_ext. intros i Hi. rewrite !nthZ_ptr_add by lia. apply Hr. lia. Qed.

Lemma raw_direct d s n raw i :
  raw_of d s n raw -> 0 <= i < 7 -> raw_zone raw (s_swapped s) i = file_block d s n i.
Proof.
  intros Hr Hi. unfold raw_zone, file_block. rewrite (raw_field d s n) by (done || lia).
  rewrite (proj2 (Z.eqb_neq i 263)) by lia. unfold bmap. cbn [f_super file_of_inode f_zones].
  rewrite (proj2 (Z.ltb_lt i 7)), nthZ_raw_zones by lia. done.
Qed.

Lemma block_table d s n i :
  7 <= i < 263 -> file_block d s n i = table_entry d s (file_block d s n 263) (i - 7).
Proof.
  intros Hi. unfold file_block. rewrite (proj2 (Z.eqb_neq i 263)), Z.eqb_refl by lia. unfold bmap.
  rewrite (proj2 (Z.ltb_ge i 7)), (proj2 (Z.ltb_lt i 263)) by lia. done.
Qed.

(** Sixteen entries of the table out of one fragment of it. *)
Lemma fragment_entry d s table k i :
  zone_bytes s = 1024 -> table <> 0 -> 0 <= i < 16 ->
  cp32_fs_u32 (ptr_add (mem_read d (table * 1024 + 64 * k) 64) (i * 4)) (s_swapped s) =
  table_entry d s table (16 * k + i).
Proof.
  intros Hz Ht Hi. unfold table_entry. rewrite (proj2 (Z.eqb_neq table 0) Ht), Hz. apply u32_ext. intros j Hj.
  rewrite nthZ_ptr_add, !nthZ_mem_read by lia. f_equal. lia.
Qed.

Context (c : Z) (s : cp32_minix_super) (n : Z) (t : statics).
Hypothesis Hwf : super_wf c s.
Hypothesis Hcc : c <= cap.
Hypothesis Hcap : cap < 4294967296.
Hypothesis Hlog : s_log_zone_size s = 0.

Lemma log_zone_bytes : zone_bytes s = 1024.
Proof. unfold zone_bytes, zone_blocks. by rewrite Hlog. Qed.

Lemma zone_fits z : data_zone s z -> 0 <= z * 1024 /\ z * 1024 + 1024 <= c.
Proof.
  intros Hz. pose proof (zone_in_volume c s z Hwf Hz) as H. rewrite log_zone_bytes in H.
  assert (0 <= data_at s) by (pose proof Hwf as Hg; geometry Hg; nia). lia.
Qed.

Lemma zone_live_reads d z :
  data_zone s z -> reads d t (zone_allocated rd s z) (fun _ => zone_live d s z) (fun _ => True).
Proof.
  intros Hz. unfold zone_allocated. eapply reads_conseq; [apply allocated_reads| |done].
  intros [] Hb. split; [done|]. by rewrite (zmap_offset_eq c), (zone_bit_eq c) in Hb by (done || lia).
Qed.

Lemma snapshot_table_steps d zs :
  data_zone s (file_block d s n 263) -> file_block d s n 263 <> 0 -> filled d s n (file_block d s n 263) 7 zs ->
  steps t d zs (snapshot_table rd s (file_block d s n 263))
    (fun _ d' zs' => d' = d /\ filled d s n (file_block d s n 263) 263 zs').
Proof.
  intros Hz H0 Hf. unfold snapshot_table. pose proof (zone_fits _ Hz) as Hfit. set (tbl := file_block d s n 263) in *.
  apply (steps_for t (fun j _ d' zs' => d' = d /\ filled d s n tbl (7 + 16 * j) zs')); [|done].
  intros k [] d' zs' Hk [-> Hf']. cbv zeta.
  eapply (steps_read t d zs' _ _ (fun raw => raw = mem_read d (tbl * 1024 + 64 * k) 64) (fun _ => True)).
  - unwrap. by apply reads_read_or; [lia|..].
  - auto with keeps.
  - intros raw ->. replace (7 + 16 * (k + 1)) with ((7 + 16 * k) + (0 + Z.of_nat 16)) by lia.
    apply (steps_for t (fun i _ d' zs' => d' = d /\ filled d s n tbl (7 + 16 * k + i) zs')).
    + intros i [] d' zs'' Hi [-> Hf'']. apply steps_set. split; [done|].
      replace (64 * k / 4) with (16 * k) by (rewrite (Z.mul_comm 16), <- (Z.div_mul (k * 16) 4) by lia; f_equal; lia).
      replace (7 + 16 * k + (i + 1)) with (7 + 16 * k + i + 1) by lia.
      apply filled_set; [done|lia|]. rewrite fragment_entry by (apply log_zone_bytes || done || lia).
      rewrite (block_table d s n) by lia. f_equal. lia.
    + split; [done|]. by replace (7 + 16 * k + 0) with (7 + 16 * k) by lia.
Qed.

(** The entries below [j] have passed the validation. *)
Definition checked (d : mem) (j : Z) (zs : list Z) : Prop :=
  forall i, 0 <= i < j -> nthZ zs i <> 0 ->
  zone_live d s (nthZ zs i) /\ forall k, 0 <= k < i -> nthZ zs k <> nthZ zs i.

Lemma existsb_take z zs (i k : Z) :
  existsb (Z.eqb z) (take (Z.to_nat i) zs) = false -> 0 <= k < i -> i <= lenZ zs -> nthZ zs k <> z.
Proof.
  intros H Hk Hi He. apply existsb_eqb_in in H. apply H. subst z. unfold lenZ in Hi.
  replace (nthZ zs k) with (nthZ (take (Z.to_nat i) zs) k).
  - apply nthZ_In. unfold lenZ. rewrite length_take. lia.
  - unfold nthZ. rewrite !nth_lookup, lookup_take_lt by lia. done.
Qed.

Lemma snapshot_check_steps d zs i :
  0 <= i < 264 -> lenZ zs = 264 -> checked d i zs ->
  steps t d zs (snapshot_check rd s i) (fun _ d' zs' => d' = d /\ zs' = zs /\ checked d (i + 1) zs).
Proof.
  intros Hi Hl Hc. unfold snapshot_check. apply steps_at.
  assert (Hstep : (nthZ zs i <> 0 -> zone_live d s (nthZ zs i) /\ forall k, 0 <= k < i -> nthZ zs k <> nthZ zs i) ->
    checked d (i + 1) zs).
  { intros H j Hj Hne. destruct (Z.eq_dec j i) as [->|]; [by apply H|apply Hc; lia || done]. }
  destruct (Z.eqb_spec (nthZ zs i) 0) as [H0|H0]; [apply steps_ret; split_and!; [done..|by apply Hstep]|].
  apply steps_guarded. intros Hbad%zone_bad_false.
  apply (steps_gets _ _ _ (take (Z.to_nat i))), steps_guarded. intros Hex.
  apply (steps_reads _ _ _ _ (fun _ => zone_live d s (nthZ zs i)) (fun _ => True)); [by apply zone_live_reads| |].
  - unfold zone_allocated. auto with keeps.
  - intros _ Hlive. split_and!; [done..|]. apply Hstep. intros _. split; [done|].
    intros k Hk. apply (existsb_take _ _ i); done || lia.
Qed.

Lemma snap_ok_of d zs :
  filled d s n (file_block d s n 263) 263 zs -> f_double_indirect (file_of_inode d rd s n) = 0 ->
  checked d 264 zs -> snap_ok d s n zs.
Proof.
  intros [Hl Hz] Hd Hc. constructor; try done.
  - intros i Hi. rewrite Hz by done. destruct (Z.eqb_spec i 263) as [->|]; [done|].
    by rewrite (proj2 (Z.ltb_lt i 263)) by lia.
  - intros i Hi Hne. by apply Hc.
  - intros i k Hk Hi Hne. apply Hc; [lia|done|lia].
Qed.

(** An accepted snapshot is the block list of the inode. *)
Lemma snapshot_zones_steps d zs raw :
  raw_of d s n raw ->
  steps t d zs (snapshot_zones rd s raw) (fun _ d' zs' => d' = d /\ snap_ok d s n zs').
Proof.
  intros Hr. unfold snapshot_zones. apply steps_guarded. intros [Hd _]%orb_false_iff.
  apply truthy_false in Hd. rewrite (raw_field d s n) in Hd by (done || lia).
  rewrite (raw_field d s n raw 52) by (done || lia). cbv zeta.
  change (cp32_fs_u32 (ptr_add (inode_bytes d s n) 52) (s_swapped s)) with (file_block d s n 263).
  set (tbl := file_block d s n 263) in *.
  eapply (steps_bind _ _ _ _ _ (fun _ d' zs' => d' = d /\ filled d s n 0 0 zs')).
  { intros w (Hco & Hdat & Ht) Hz. exists d. split; [|split; [done|]].
    - split; [exact Hco|]. split; [exact Hdat|exact Ht].
    - split; [done|]. intros j Hj. change (fs_shrink_zones _) with (replicate 264 0). rewrite nthZ_replicate.
      destruct (j =? 263); [done|]. by rewrite (proj2 (Z.ltb_ge j 0)) by lia. }
  intros [] d1 zs1 [-> Hf1]. eapply (steps_bind _ _ _ _ _ (fun _ d' zs' => d' = d /\ filled d s n 0 7 zs')).
  { apply (steps_for t (fun i _ d' zs' => d' = d /\ filled d s n 0 i zs')); [|done].
    intros i [] d' zs' Hi [-> Hf']. apply steps_set. split; [done|]. apply filled_set; [done|lia|].
    apply raw_direct; done || lia. }
  intros [] d2 zs2 [-> Hf2]. eapply (steps_bind _ _ _ _ _ (fun _ d' zs' => d' = d /\ filled d s n tbl 7 zs')).
  { apply steps_set. split; [done|]. destruct Hf2 as [Hl Hz]. split; [by rewrite lenZ_upd|].
    intros j Hj. rewrite nthZ_upd, Hz by lia. rewrite (Z.eqb_sym j). by destruct (263 =? j). }
  intros [] d3 zs3 [-> Hf3]. eapply (steps_bind _ _ _ _ _ (fun _ d' zs' => d' = d /\ filled d s n tbl 263 zs')).
  { destruct (Z.eqb_spec tbl 0) as [H0|H0].
    - apply steps_ret. split; [done|]. apply (filled_same _ _ _ 7); [done| |lia].
      intros j Hj Hj7. rewrite block_table by lia. fold tbl. unfold table_entry. by rewrite H0.
    - apply steps_guarded. intros Hbad%zone_bad_false.
      eapply (steps_read _ _ _ _ _ (fun _ => True) (fun _ => True)); [|unfold zone_allocated; auto with keeps|].
      + eapply reads_conseq; [by apply zone_live_reads|done..].
      + intros [] _. by apply snapshot_table_steps. }
  intros [] d4 zs4 [-> Hf4]. eapply steps_conseq.
  - apply (steps_for t (fun i _ d' zs' => d' = d /\ filled d s n tbl 263 zs' /\ checked d i zs')).
    + intros i [] d' zs' Hi (-> & Hf' & Hc'). eapply steps_conseq; [apply snapshot_check_steps; [lia|apply Hf'|done]|].
      intros [] ? ? (-> & -> & ?). done.
    + split_and!; [done..|]. intros i Hi. lia.
  - intros [] d' zs' (-> & Hf' & Hc'). split; [done|]. by apply snap_ok_of.
Qed.
End Blocks.
