(* ===== verification/Allocate.v ===== *)
(** * Clearing and reserving blocks: the helpers of [write_inode] of create.c

    The volume as its data blocks, its zone map and the rest ([view]), and what
    [zero_range], [zero_block], [reserve] and [allocate_zone] do to it. *)
From S2P Require Import Prelude Codec FsTypes FdTable MemDisk Super Timestamp Inode Read Bitmap Zones Snapshot.

Section Allocate.
Context {E : Type} `{DSK : Disk E} {rd wr : fptr} {cap : Z} `{SPEC : !DiskSpec E rd wr cap}.
Abbreviation FM := (M (fsw E)).
Abbreviation reads := (reads (rd := rd) (wr := wr) (cap := cap)).
Abbreviation steps := (steps (rd := rd) (wr := wr) (cap := cap)).
Context (c : Z) (s : cp32_minix_super) (t : statics).
Hypothesis Hwf : super_wf c s.
Hypothesis Hcc : c <= cap.
Hypothesis Hcap : cap < 4294967296.
Hypothesis Hlog : s_log_zone_size s = 0.

Lemma steps_bytes {A} d zs (k : FM A) Q : ((forall a, is_byte (d a)) -> steps t d zs k Q) -> steps t d zs k Q.
Proof. intros H w Hw. apply H; [|done]. intros a. by eapply mem_byte. Qed.

(** ** The layout *)
Lemma layout :
  2048 < zmap_at s /\ zmap_at s + s_zmap_blocks s * 1024 = itable_at s /\ 1 <= s_zmap_blocks s /\
  itable_at s + s_ninodes s * 64 <= data_at s /\ data_at s = s_first_data_zone s * 1024 /\
  s_zones s * 1024 <= c /\ 0 < s_first_data_zone s /\ 1 <= s_ninodes s.
Proof.
  pose proof (log_zone_bytes s Hlog) as Hz. pose proof Hwf as Hg. geometry Hg. rewrite Hz in *.
  split_and!; lia || (Z.div_mod_to_equations; lia).
Qed.

Lemma block_range z o : data_zone s z -> 0 <= o < 1024 -> data_at s <= z * 1024 + o /\ z * 1024 + o < c.
Proof. pose proof layout. unfold data_zone. lia. Qed.

Lemma same_block z o z' o' : 0 <= o < 1024 -> 0 <= o' < 1024 -> z * 1024 + o = z' * 1024 + o' -> z = z' /\ o = o'.
Proof. lia. Qed.

(** ** What has changed so far

    [B z o] is byte [o] of zone [z], [N] are the zones that were reserved. *)
Record view (d d' : mem) (B : Z -> Z -> Z) (N : list Z) : Prop := {
  vw_block : forall z o, data_zone s z -> 0 <= o < 1024 -> d' (z * 1024 + o) = B z o;
  vw_meta : forall a, a < zmap_at s \/ itable_at s <= a < data_at s -> d' a = d a;
  vw_live : forall z, data_zone s z -> zone_live d' s z <-> zone_live d s z \/ In z N }.

Definition blocks (d : mem) : Z -> Z -> Z := fun z o => d (z * 1024 + o).
(** [p] stored at [o] of zone [z], and zeros stored from [lo] to [hi]. *)
Definition put (z o : Z) (p : list Z) (B : Z -> Z -> Z) : Z -> Z -> Z := fun y i =>
  if (y =? z) && (o <=? i) && (i <? o + lenZ p) then nthZ p (i - o) else B y i.
Definition clear (z lo hi : Z) (B : Z -> Z -> Z) : Z -> Z -> Z := fun y i =>
  if (y =? z) && (lo <=? i) && (i <? hi) then 0 else B y i.

Lemma view_refl d : view d d (blocks d) [].
Proof. constructor; [done|done|]. intros z Hz. split; [by left|intros [?|[]]; done]. Qed.

Lemma view_agree d d' B B' N :
  view d d' B N -> (forall z o, data_zone s z -> 0 <= o < 1024 -> B z o = B' z o) -> view d d' B' N.
Proof. intros [H1 H2 H3] H. constructor; [|done|done]. intros z o Hz Ho. by rewrite H1, H. Qed.

(** The map bit of a zone depends on the zone map only. *)
Lemma map_byte_range z : data_zone s z ->
  zmap_at s <= zmap_at s + (z - s_first_data_zone s + 1) / 16 * 2 /\
  zmap_at s + (z - s_first_data_zone s + 1) / 16 * 2 + 2 <= itable_at s.
Proof.
  intros Hz. pose proof layout. pose proof Hwf as Hg. geometry Hg. Z.div_mod_to_equations. lia.
Qed.

Lemma map_at_eq z : data_zone s z ->
  zmap_at s +u (z - s_first_data_zone s + 1) / 16 *u 2 = zmap_at s + (z - s_first_data_zone s + 1) / 16 * 2.
Proof.
  intros Hz. pose proof (map_byte_range z Hz). pose proof layout. pose proof Hwf as Hg. geometry Hg. unwrap. done.
Qed.

Lemma zone_live_ext d d' z :
  data_zone s z -> (forall a, zmap_at s <= a < itable_at s -> d' a = d a) -> zone_live d' s z <-> zone_live d s z.
Proof.
  intros Hz H. unfold zone_live, map_bit, map_word. rewrite map_at_eq by done.
  pose proof (map_byte_range z Hz). by rewrite (mem_read_ext d' d) by (intros a Ha; apply H; lia).
Qed.

Lemma view_store d d' B N z o p :
  view d d' B N -> data_zone s z -> 0 <= o -> o + lenZ p <= 1024 ->
  view d (mem_write d' (z * 1024 + o) p) (put z o p B) N.
Proof.
  intros [H1 H2 H3] Hz Ho Hp. pose proof layout as HL.
  assert (Hlo : data_at s <= z * 1024 + o) by (unfold data_zone in Hz; lia).
  assert (Hmeta : forall a, a < data_at s -> mem_write d' (z * 1024 + o) p a = d' a)
    by (intros a Ha; apply mem_write_out; lia).
  constructor.
  - intros y i Hy Hi. unfold put. destruct (Z.eqb_spec y z) as [->|Hne]; cbn [andb].
    + destruct (Z.leb_spec o i), (Z.ltb_spec i (o + lenZ p)); cbn [andb];
        [rewrite mem_write_in by lia; f_equal; lia|rewrite mem_write_out by lia; by apply H1..].
    + rewrite mem_write_out; [by apply H1|]. pose proof (lenZ_nonneg p). lia.
  - intros a Ha. rewrite Hmeta by lia. by apply H2.
  - intros y Hy. rewrite <- H3 by done. apply zone_live_ext; [done|]. intros a Ha. apply Hmeta. lia.
Qed.

(** A store of zeros. *)
Lemma lenZ_zeros k : 0 <= k -> lenZ (zeros k) = k.
Proof. intros. unfold lenZ, zeros. rewrite length_replicate. lia. Qed.
Lemma zeros_bytes k : Forall is_byte (zeros k).
Proof. apply Forall_replicate. unfold is_byte. lia. Qed.

Lemma steps_zero d d' B N zs z o k :
  view d d' B N -> data_zone s z -> 0 <= o -> 0 <= k -> o + k <= 1024 ->
  steps t d' zs (store wr (z * 1024 + o) (zeros k)) (fun _ d'' zs' => zs' = zs /\ view d d'' (clear z o (o + k) B) N).
Proof.
  intros Hv Hz Ho Hk Hok. pose proof layout. eapply steps_conseq.
  - apply steps_store; [unfold data_zone in Hz; lia|apply zeros_bytes].
  - intros [] ? ? (_ & -> & ->). split; [done|]. eapply view_agree; [apply (view_store _ _ B N z o); try done; by rewrite lenZ_zeros|].
    intros y i Hy Hi. unfold put, clear. rewrite lenZ_zeros by done. destruct (_ && _); [|done]. apply nthZ_replicate.
Qed.

Lemma clear_clear z lo mid hi B y i : lo <= mid <= hi -> clear z mid hi (clear z lo mid B) y i = clear z lo hi B y i.
Proof.
  intros H. unfold clear. destruct (y =? z); [|done]. cbn [andb].
  destruct (Z.leb_spec mid i), (Z.ltb_spec i hi), (Z.leb_spec lo i), (Z.ltb_spec i mid); cbn [andb]; done || lia.
Qed.

Lemma clear_none z lo B y i : clear z lo lo B y i = B y i.
Proof. unfold clear. destruct (y =? z); [|done]. cbn [andb]. destruct (Z.leb_spec lo i), (Z.ltb_spec i lo); done || lia. Qed.

(** ** Clearing *)
Lemma zero_range_steps d d' B N zs z lo hi :
  view d d' B N -> data_zone s z -> 0 <= lo <= hi -> hi <= 1024 ->
  steps t d' zs (zero_range wr z lo hi) (fun _ d'' zs' => zs' = zs /\ view d d'' (clear z lo hi B) N).
Proof.
  intros Hv Hz Hlo Hhi. unfold zero_range.
  apply (steps_loop t (fun m at_ d'' zs' => zs' = zs /\ lo <= at_ <= hi /\ hi - at_ < Z.of_nat m /\
    view d d'' (clear z lo at_ B) N)).
  - intros m at_ d1 zs1 (-> & Hat & Hm & Hv1). destruct (Z.ltb_spec at_ hi) as [Hlt|Hge].
    + cbv zeta. assert (Hf : 1 <= fragment at_ hi <= hi - at_).
      { unfold fragment. pose proof (Z.mod_pos_bound at_ 512 ltac:(lia)). repeat case_match; lia. }
      set (k := fragment at_ hi) in *. pose proof (block_range z lo Hz ltac:(lia)).
      replace (z *u 1024 +u at_) with (z * 1024 + at_) by (pose proof layout; unfold data_zone in Hz; unwrap; lia).
      eapply steps_bind; [apply (steps_zero d d1 (clear z lo at_ B) N); done || lia|].
      intros [] d2 zs2 (-> & Hv2). apply steps_ret. split_and!; try lia; [done|].
      eapply view_agree; [exact Hv2|]. intros y i _ _. apply clear_clear. lia.
    + apply steps_ret. split; [done|]. assert (at_ = hi) as -> by lia. done.
  - intros at_ d1 zs1 (-> & Hat & Hm & Hv1). lia.
  - split_and!; try lia; [done|]. eapply view_agree; [exact Hv|]. intros y i _ _. by rewrite clear_none.
Qed.

Lemma zero_block_steps d d' B N zs z :
  view d d' B N -> data_zone s z ->
  steps t d' zs (zero_block wr z) (fun _ d'' zs' => zs' = zs /\ view d d'' (clear z 0 1024 B) N).
Proof.
  intros Hv Hz. unfold zero_block. pose proof layout.
  eapply steps_conseq; [apply (steps_for t (fun k _ d'' zs' => zs' = zs /\ view d d'' (clear z 0 (64 * k) B) N))|].
  - intros k [] d1 zs1 Hk (-> & Hv1).
    replace (z *u 1024 +u 64 * k) with (z * 1024 + 64 * k) by (unfold data_zone in Hz; unwrap; lia).
    eapply steps_conseq; [apply (steps_zero d d1 (clear z 0 (64 * k) B) N); done || lia|].
    intros [] d2 zs2 (-> & Hv2). split; [done|]. replace (64 * (k + 1)) with (64 * k + 64) by lia.
    eapply view_agree; [exact Hv2|]. intros y i _ _. apply clear_clear. lia.
  - split; [done|]. eapply view_agree; [exact Hv|]. intros y i _ _. by rewrite clear_none.
  - intros [] d1 zs1 H1. exact H1.
Qed.

(** ** Reserving *)
Lemma find_free_reads d first last :
  0 <= first -> last < 4294967295 ->
  reads d t (find_free_bit rd (zmap_offset s) first last (s_swapped s))
    (fun bit => first <= bit <= last /\ map_bit d (zmap_offset s) bit (s_swapped s) = false) (fun _ => True).
Proof.
  intros Hf Hl. unfold find_free_bit.
  apply (reads_loop d t (fun _ '(bit, word) => first <= bit /\
    (bit = first \/ bit mod 16 = 0 \/ word = map_word d (zmap_offset s) bit (s_swapped s)))).
  - intros m [bit word] [Hb Hw]. unfold free_turn. destruct (Z.ltb_spec last bit); [by apply reads_fail|].
    eapply reads_bind with (Q' := fun w => w = map_word d (zmap_offset s) bit (s_swapped s)).
    + destruct ((bit =? first) || (bit mod 16 =? 0)) eqn:Eb.
      * eapply reads_bind with (Q' := fun raw => raw = mem_read d (zmap_offset s +u bit / 16 *u 2) 2);
          [by apply reads_read_or; [lia|..]|]. intros ? ->. by apply reads_ret.
      * apply reads_ret. destruct Hw as [Hw|[Hw|Hw]]; [lia..|done].
    + intros ? ->. rewrite bit_test. destruct (Z.testbit _ _) eqn:Et; apply reads_ret.
      * unwrap. split; [lia|]. right. destruct (Z.eq_dec ((bit + 1) mod 16) 0); [by left|right].
        apply map_word_chunk. Z.div_mod_to_equations. lia.
      * split; [lia|]. exact Et.
  - intros [bit word] _. by apply reads_fail.
  - split; [lia|]. by left.
Qed.

Lemma zone_of_bit bit :
  1 <= bit <= s_zones s - s_first_data_zone s ->
  data_zone s (s_first_data_zone s + bit - 1) /\ s_first_data_zone s +u bit -u 1 = s_first_data_zone s + bit - 1 /\
  zone_bit s (s_first_data_zone s + bit - 1) = bit.
Proof.
  intros Hb. pose proof layout. assert (Hz : data_zone s (s_first_data_zone s + bit - 1)) by (unfold data_zone; lia).
  split; [done|]. split; [unwrap; lia|]. rewrite (zone_bit_eq c) by (done || lia). lia.
Qed.

(** The bit of a data zone. *)
Definition bit_at (d : mem) (z : Z) : bool := map_bit d (zmap_at s) (z - s_first_data_zone s + 1) (s_swapped s).

Lemma bit_at_zone d z : data_zone s z -> map_bit d (zmap_offset s) (zone_bit s z) (s_swapped s) = bit_at d z.
Proof. intros Hz. by rewrite (zmap_offset_eq c), (zone_bit_eq c) by (done || lia). Qed.

Lemma zone_live_bit d z : data_zone s z -> zone_live d s z <-> bit_at d z = true.
Proof. unfold zone_live, bit_at. tauto. Qed.

Lemma bit_at_stored d y z :
  (forall a, is_byte (d a)) -> data_zone s y -> data_zone s z ->
  let bit := z - s_first_data_zone s + 1 in
  let raw := mem_read d (zmap_at s + bit / 16 * 2) 2 in
  let d' := mem_write d (zmap_at s + bit / 16 * 2)
              (put16 raw 0 (Z.lor (cp32_fs_u16 raw (s_swapped s)) (bit_of bit)) (s_swapped s)) in
  bit_at d' y = (y =? z) || bit_at d y.
Proof.
  intros Hb Hy Hz bit raw d'. unfold bit_at, map_bit, map_word. rewrite map_at_eq by done. set (ybit := y - s_first_data_zone s + 1).
  set (p := put16 _ _ _ _) in *. assert (Hp : lenZ p = 2) by (unfold p; rewrite lenZ_put16; unfold raw; by rewrite lenZ_mem_read).
  assert (Hraw : lenZ raw = 2) by (unfold raw; by rewrite lenZ_mem_read).
  destruct (Z.eq_dec (ybit / 16) (bit / 16)) as [Eq|Eq].
  - rewrite Eq. subst d'. pose proof (mem_read_write d (zmap_at s + bit / 16 * 2) p) as Hrw. rewrite Hp in Hrw. rewrite Hrw.
    pose proof (u16_put16 raw 0 (Z.lor (cp32_fs_u16 raw (s_swapped s)) (bit_of bit)) (s_swapped s) ltac:(lia) ltac:(lia)) as Hu.
    fold p in Hu. change (ptr_add p 0) with p in Hu. rewrite Hu.
    pose proof (set_range (cp32_fs_u16 raw (s_swapped s)) bit) as Hr.
    assert (0 <= cp32_fs_u16 raw (s_swapped s) < 65536) by (apply u16_range; apply mem_read_byte; done || lia).
    unfold wrap16. rewrite Z.mod_small by (by apply Hr). rewrite testbit_set by (apply Z.mod_pos_bound; lia).
    f_equal. unfold ybit, bit in *. destruct (Z.eqb_spec y z) as [->|]; [apply Z.eqb_refl|apply Z.eqb_neq].
    Z.div_mod_to_equations. lia.
  - rewrite (proj2 (Z.eqb_neq y z)) by (intros ->; done). cbn [orb]. subst d'.
    rewrite mem_read_write_out; [done|]. rewrite Hp. lia.
Qed.

Lemma reserve_steps d d' B N zs z :
  view d d' B N -> data_zone s z ->
  steps t d' zs (reserve rd wr (zmap_offset s) (zone_bit s z) (s_swapped s))
    (fun _ d'' zs' => zs' = zs /\ view d d'' B (z :: N)).
Proof.
  intros Hv Hz. apply steps_bytes. intros Hb. unfold reserve. cbv zeta.
  rewrite (zmap_offset_eq c), (zone_bit_eq c) by (done || lia). rewrite map_at_eq by done.
  pose proof (map_byte_range z Hz) as Hr. set (at_ := zmap_at s + _) in *.
  eapply (steps_read _ _ _ _ _ (fun raw => raw = mem_read d' at_ 2) (fun _ => True));
    [by apply reads_read_or; [lia|..]|auto with keeps|]. intros ? ->.
  apply steps_guarded. intros _. pose proof layout.
  assert (Hl : lenZ (put16 (mem_read d' at_ 2) 0
    (Z.lor (cp32_fs_u16 (mem_read d' at_ 2) (s_swapped s)) (bit_of (z - s_first_data_zone s + 1))) (s_swapped s)) = 2)
    by (rewrite lenZ_put16; by apply lenZ_mem_read).
  eapply steps_conseq; [apply steps_store; [lia|by apply put16_Forall, Forall_mem_read]|].
  intros [] d2 zs2 (_ & -> & ->). split; [done|]. destruct Hv as [V1 V2 V3]. constructor.
  - intros y o Hy Ho. rewrite mem_write_out by (pose proof (block_range y o Hy Ho); lia). by apply V1.
  - intros a Ha. rewrite mem_write_out by lia. by apply V2.
  - intros y Hy. rewrite zone_live_bit by done. unfold at_. rewrite bit_at_stored by done.
    rewrite orb_true_iff, Z.eqb_eq, <- zone_live_bit, V3 by done. cbn [In]. intuition congruence.
Qed.

Lemma free_zone_reads d first :
  1 <= first -> 
  reads d t (find_free_bit rd (zmap_offset s) first (s_zones s -u s_first_data_zone s) (s_swapped s))
    (fun bit => exists z, data_zone s z /\ ~ zone_live d s z /\ bit = zone_bit s z /\ first <= bit /\
       s_first_data_zone s +u bit -u 1 = z /\ bit < 4194304) (fun _ => True).
Proof.
  intros Hf. pose proof layout. rewrite (wrap32_small (s_zones s - _)) by (pose proof Hwf as Hg; geometry Hg; lia).
  eapply reads_conseq; [apply find_free_reads; lia| |done].
  intros bit [Hb Hfree]. destruct (zone_of_bit bit ltac:(lia)) as (Hz & Ez & Eb).
  exists (s_first_data_zone s + bit - 1). split_and!; [done| |by rewrite Eb|lia|done|lia].
  rewrite zone_live_bit by done. rewrite <- bit_at_zone, Eb by done. congruence.
Qed.

Lemma allocate_steps d d' B N zs index table :
  view d d' B N ->
  steps t d' zs (allocate_zone rd wr s index table) (fun '(zone, table') d'' zs' =>
    zs' = zs /\ data_zone s zone /\ ~ zone_live d' s zone /\
    if (7 <=? index) && (table =? 0)
    then data_zone s table' /\ ~ zone_live d' s table' /\ table' <> zone /\
         view d d'' (clear table' 0 1024 (clear zone 0 1024 B)) (table' :: zone :: N)
    else table' = table /\ view d d'' (clear zone 0 1024 B) (zone :: N)).
Proof.
  intros Hv. unfold allocate_zone. cbv zeta.
  eapply steps_read; [by apply free_zone_reads|auto with keeps|].
  intros bit (z & Hz & Hfree & Ebit & Hb1 & Ez & Hb). rewrite Ez. set (need := (7 <=? index) && (table =? 0)) in *.
  eapply (steps_read _ _ _ _ _ (fun tbit => need = true -> exists y, data_zone s y /\ ~ zone_live d' s y /\
    tbit = zone_bit s y /\ y <> z /\ s_first_data_zone s +u tbit -u 1 = y) (fun _ => True)).
  { destruct need; [|by apply reads_ret]. rewrite (wrap32_small (bit + 1)) by lia.
    eapply reads_conseq; [apply free_zone_reads; lia| |done].
    intros tbit (y & Hy & Hyf & Eb & Hge & Ey & _) _. exists y. split_and!; try done.
    intros ->. lia. }
  { destruct need; auto with keeps. intros w. done. }
  intros tbit Ht. rewrite Ebit.
  eapply steps_bind; [by apply (reserve_steps d d' B N)|]. intros [] d1 zs1 (-> & V1).
  eapply steps_bind; [by apply (zero_block_steps d d1 B (z :: N))|]. intros [] d2 zs2 (-> & V2).
  destruct need; [|by apply steps_ret]. destruct (Ht eq_refl) as (y & Hy & Hyf & -> & Hne & ->).
  eapply steps_bind; [by apply (reserve_steps d d2 (clear z 0 1024 B) (z :: N))|]. intros [] d3 zs3 (-> & V3).
  eapply steps_bind; [by apply (zero_block_steps d d3 (clear z 0 1024 B) (y :: z :: N))|]. intros [] d4 zs4 (-> & V4).
  by apply steps_ret.
Qed.
End Allocate.
