(* ===== verification/WriteSpec.v ===== *)
(** * Writing a file

    What [write_inode] of create.c does to the volume: the file holds the
    bytes written, its old bytes elsewhere and zeros in between, its blocks
    stay sound, and no other inode or live zone has changed. *)
From S2P Require Import Prelude Codec FsTypes FdTable MemDisk Super Timestamp Inode Read Bitmap Zones Snapshot Allocate.

(** ** Specification *)
Section Spec.
Context (rd : fptr) (s : cp32_minix_super) (n : Z).
Abbreviation block d i := (file_block (rd := rd) d s n i).
Abbreviation file d := (file_of_inode d rd s n).

(** The blocks of the file are live and distinct, and there are at most 263. *)
Record mapped (d : mem) : Prop := {
  mp_double : f_double_indirect (file d) = 0;
  mp_live : forall i, 0 <= i < 264 -> block d i <> 0 -> zone_live d s (block d i);
  mp_distinct : forall i k, 0 <= k < i -> i < 264 -> block d i <> 0 -> block d k <> block d i }.

(** No block lies past the end of the file. *)
Definition trimmed (d : mem) : Prop :=
  forall i, 0 <= i < 263 -> f_size (file d) <= i * 1024 -> block d i = 0.

Definition owned (d : mem) (z : Z) : Prop := z <> 0 /\ exists i, 0 <= i < 264 /\ block d i = z.

(** [p] was written at [off]: the size, the bytes, the blocks, and what else
    the volume holds. *)
Record wrote (d d' : mem) (off : Z) (p : list Z) : Prop := {
  wr_mode : inode_mode d' s n = inode_mode d s n /\ inode_links d' s n = inode_links d s n;
  wr_size : f_size (file d') = Z.max (f_size (file d)) (off + lenZ p);
  wr_byte : forall q, 0 <= q < f_size (file d') -> file_byte d' (file d') q =
    if (off <=? q) && (q <? off + lenZ p) then nthZ p (q - off)
    else if q <? f_size (file d) then file_byte d (file d) q else 0;
  wr_mapped : mapped d';
  wr_trimmed : trimmed d';
  wr_grow : forall z, owned d z -> owned d' z;
  wr_fresh : forall z, owned d' z -> owned d z \/ ~ zone_live d s z;
  wr_live : forall z, data_zone s z -> zone_live d' s z <-> zone_live d s z \/ owned d' z;
  wr_others : forall z o, zone_live d s z -> ~ owned d z -> 0 <= o < 1024 -> d' (z * 1024 + o) = d (z * 1024 + o);
  wr_meta : forall a, a < zmap_at s \/ itable_at s <= a < data_at s ->
    ~ inode_at s n <= a < inode_at s n + 64 -> d' a = d a }.

(** Two writes, the second where the first ended. *)
Lemma wrote_app d d1 d2 off p q :
  wrote d d1 off p -> wrote d1 d2 (off + lenZ p) q -> wrote d d2 off (p ++ q).
Proof.
  intros [M1 S1 B1 P1 T1 G1 F1 L1 O1 A1] [M2 S2 B2 P2 T2 G2 F2 L2 O2 A2].
  pose proof (lenZ_nonneg p). pose proof (lenZ_nonneg q). constructor; try done.
  - destruct M1, M2. split; congruence.
  - rewrite S2, S1, lenZ_app. lia.
  - intros x Hx. rewrite B2, lenZ_app by done. destruct (Z.lt_ge_cases x (f_size (file d1))) as [Hl|Hl].
    + rewrite (proj2 (Z.ltb_lt _ _) Hl), B1 by lia.
      destruct (Z.leb_spec (off + lenZ p) x), (Z.ltb_spec x (off + lenZ p + lenZ q)), (Z.leb_spec off x),
        (Z.ltb_spec x (off + lenZ p)), (Z.ltb_spec x (off + (lenZ p + lenZ q))); try lia; cbn [andb]; try done.
      * rewrite nthZ_app_r by lia. f_equal. lia.
      * by rewrite nthZ_app_l by lia.
    + rewrite (proj2 (Z.ltb_ge _ _) Hl), (proj2 (Z.ltb_ge x (f_size (file d)))) by lia.
      destruct (Z.leb_spec (off + lenZ p) x), (Z.ltb_spec x (off + lenZ p + lenZ q)), (Z.leb_spec off x),
        (Z.ltb_spec x (off + (lenZ p + lenZ q))); try lia; cbn [andb]; try done.
      rewrite nthZ_app_r by lia. f_equal. lia.
  - auto.
  - intros z [Hz|Hz]%F2; [auto|]. right. intros Hl. apply Hz, L1; [apply Hl|by left].
  - intros z Hz. rewrite L2, L1 by done. intuition auto.
  - intros z o Hl Ho Hr. rewrite O2, O1; try done.
    + apply L1; [apply Hl|by left].
    + by intros [?|?]%F1.
  - intros a Ha Hn. rewrite A2, A1; done.
Qed.
End Spec.

(** ** One transfer *)
Section Landing.
Context (rd : fptr) (c : Z) (s : cp32_minix_super) (n : Z).
Abbreviation block d i := (file_block (rd := rd) d s n i).
Abbreviation file d := (file_of_inode d rd s n).
Abbreviation mapped := (mapped rd s n).
Abbreviation trimmed := (trimmed rd s n).
Abbreviation owned := (owned rd s n).
Abbreviation wrote := (wrote rd s n).
Hypothesis Hwf : super_wf c s.
Hypothesis Hlog : s_log_zone_size s = 0.
Hypothesis Hn : 1 <= n <= s_ninodes s.

(** The part of the last block that the write skips over. *)
Definition gap (d : mem) (pos : Z) : bool :=
  (f_size (file d) <? pos) && truthy (f_size (file d) mod 1024) && truthy (block d (f_size (file d) / 1024)).
Definition gap_end (d : mem) (pos : Z) : Z :=
  if f_size (file d) / 1024 =? pos / 1024 then pos mod 1024 else 1024.

(** The data blocks after [p] has been stored at [pos] in [zone], with [table]
    as the indirect block. *)
Definition after (d : mem) (pos : Z) (p : list Z) (zone table z o : Z) : Z :=
  let i := pos / 1024 in
  if (z =? zone) && (pos mod 1024 <=? o) && (o <? pos mod 1024 + lenZ p) then nthZ p (o - pos mod 1024)
  else if (7 <=? i) && (z =? table) && (4 * (i - 7) <=? o) && (o <? 4 * (i - 7) + 4)
  then nthZ (put32 (zeros 4) 0 zone (s_swapped s)) (o - 4 * (i - 7))
  else if (z =? zone) && (block d i =? 0) || (7 <=? i) && (z =? table) && (block d 263 =? 0) then 0
  else if gap d pos && (z =? block d (f_size (file d) / 1024)) && (f_size (file d) mod 1024 <=? o) && (o <? gap_end d pos) then 0
  else d (z * 1024 + o).

(** What [write_fragment] leaves on the volume. *)
Record landed (d d' : mem) (pos : Z) (p : list Z) (zone table : Z) : Prop := {
  ld_pos : 0 <= pos /\ 1 <= lenZ p /\ pos mod 1024 + lenZ p <= 1024 /\ pos + lenZ p <= 263 * 1024;
  ld_size : 0 <= f_size (file d) <= 263 * 1024;
  ld_zone : data_zone s zone /\ (block d (pos / 1024) <> 0 -> zone = block d (pos / 1024)) /\
            (block d (pos / 1024) = 0 -> ~ zone_live d s zone);
  ld_table : (pos / 1024 < 7 \/ block d 263 <> 0 -> table = block d 263) /\
             (7 <= pos / 1024 -> block d 263 = 0 -> data_zone s table /\ ~ zone_live d s table) /\ table <> zone;
  ld_data : forall z o, data_zone s z -> 0 <= o < 1024 -> d' (z * 1024 + o) = after d pos p zone table z o;
  ld_live : forall z, data_zone s z ->
    zone_live d' s z <-> zone_live d s z \/ z = zone \/ (7 <= pos / 1024 /\ z = table);
  ld_meta : forall a, a < zmap_at s \/ itable_at s <= a < data_at s ->
    ~ inode_at s n <= a < inode_at s n + 64 -> d' a = d a;
  ld_head : forall k, 0 <= k < 8 -> nthZ (inode_bytes d' s n) k = nthZ (inode_bytes d s n) k;
  ld_size' : f_size (file d') = Z.max (f_size (file d)) (pos + lenZ p);
  ld_direct : forall i, 0 <= i < 7 -> block d' i = if i =? pos / 1024 then zone else block d i;
  ld_indirect : block d' 263 = table;
  ld_double : f_double_indirect (file d') = f_double_indirect (file d) }.

Section Landed.
Context (d d' : mem) (pos : Z) (p : list Z) (zone table : Z).
Hypothesis Hm : mapped d.
Hypothesis Ht : trimmed d.
Hypothesis HL : landed d d' pos p zone table.

Lemma index_range : 0 <= pos / 1024 < 263.
Proof. pose proof (ld_pos _ _ _ _ _ _ HL). Z.div_mod_to_equations. lia. Qed.

Lemma data_zone_pos z : data_zone s z -> 0 < z.
Proof. pose proof (layout c s Hwf Hlog). unfold data_zone. lia. Qed.

Lemma block_zero_table i : 7 <= i < 263 -> block d 263 = 0 -> block d i = 0.
Proof. intros Hi H. rewrite block_table, H by done. done. Qed.

Lemma block_data i : 0 <= i < 264 -> block d i <> 0 -> data_zone s (block d i).
Proof. intros Hi H. by apply (mp_live _ _ _ _ Hm). Qed.

Lemma block_inj i k : 0 <= i < 264 -> 0 <= k < 264 -> block d i <> 0 -> block d k = block d i -> k = i.
Proof.
  intros Hi Hk Hne He. destruct (Z.lt_trichotomy k i) as [H|[H|H]]; [|done|].
  - by destruct (mp_distinct _ _ _ _ Hm i k ltac:(lia) ltac:(lia) Hne).
  - destruct (mp_distinct _ _ _ _ Hm k i ltac:(lia) ltac:(lia)); congruence.
Qed.

(** The zone written is the block of no other index. *)
Lemma zone_other i : 0 <= i < 264 -> i <> pos / 1024 -> block d i <> 0 -> block d i <> zone.
Proof.
  intros Hi Hne H0 He. destruct (ld_zone _ _ _ _ _ _ HL) as (_ & Hold & Hnew). pose proof index_range.
  destruct (Z.eq_dec (block d (pos / 1024)) 0) as [Hz|Hz].
  - apply Hnew; [done|]. rewrite <- He. by apply (mp_live _ _ _ _ Hm).
  - apply Hne, block_inj; [lia|lia|done|]. rewrite He. by apply Hold.
Qed.

Lemma table_other i : 0 <= i < 263 -> block d i <> 0 -> 7 <= pos / 1024 -> block d i <> table.
Proof.
  intros Hi H0 H7 He. destruct (ld_table _ _ _ _ _ _ HL) as (Hold & Hnew & _).
  destruct (Z.eq_dec (block d 263) 0) as [Hz|Hz].
  - apply (Hnew H7 Hz). rewrite <- He. apply (mp_live _ _ _ _ Hm); [lia|done].
  - enough (i = 263) by lia. apply block_inj; [lia|lia|done|]. rewrite He. apply Hold. by right.
Qed.

Lemma table_data : 7 <= pos / 1024 -> data_zone s table.
Proof.
  intros H7. destruct (ld_table _ _ _ _ _ _ HL) as (Hold & Hnew & _).
  destruct (Z.eq_dec (block d 263) 0) as [Hz|Hz]; [by apply Hnew|].
  rewrite Hold by by right. apply block_data; [lia|done].
Qed.
(** The block cut by the old end of the file is not the table. *)
Lemma gap_index : gap d pos = true -> 0 <= f_size (file d) / 1024 <= pos / 1024 /\ block d (f_size (file d) / 1024) <> 0.
Proof.
  unfold gap, truthy. intros H. pose proof (ld_size _ _ _ _ _ _ HL). split; [Z.div_mod_to_equations; lia|].
  intros E0. rewrite E0 in H. cbn in H. by rewrite andb_false_r in H.
Qed.

Lemma gap_table : gap d pos = true -> block d 263 <> block d (f_size (file d) / 1024).
Proof.
  intros [Hi H0]%gap_index He. pose proof index_range.
  enough (263 = f_size (file d) / 1024) by lia. apply block_inj; done || lia.
Qed.

Lemma after_table o :
  7 <= pos / 1024 -> after d pos p zone table table o =
  if (4 * (pos / 1024 - 7) <=? o) && (o <? 4 * (pos / 1024 - 7) + 4)
  then nthZ (put32 (zeros 4) 0 zone (s_swapped s)) (o - 4 * (pos / 1024 - 7))
  else if block d 263 =? 0 then 0 else d (table * 1024 + o).
Proof.
  intros H7. destruct (ld_table _ _ _ _ _ _ HL) as (Hold & _ & Hne). unfold after. cbv zeta.
  rewrite (proj2 (Z.eqb_neq table zone) Hne), (proj2 (Z.leb_le 7 _) H7), Z.eqb_refl. cbn [andb orb].
  destruct (_ && _); [done|]. destruct (Z.eqb_spec (block d 263) 0) as [|H0]; [done|].
  rewrite Hold by by right. destruct (gap d pos) eqn:Eg; [|done].
  by rewrite (proj2 (Z.eqb_neq _ _) (gap_table Eg)).
Qed.

Lemma after_kept o : pos / 1024 < 7 -> block d 263 <> 0 -> after d pos p zone table (block d 263) o = d (block d 263 * 1024 + o).
Proof.
  intros H7 H0. pose proof index_range. unfold after. cbv zeta.
  rewrite (proj2 (Z.eqb_neq (block d 263) zone)) by (apply zone_other; done || lia).
  rewrite (proj2 (Z.leb_gt 7 _) H7). cbn [andb orb]. destruct (gap d pos) eqn:Eg; [|done].
  by rewrite (proj2 (Z.eqb_neq _ _) (gap_table Eg)).
Qed.

Lemma table_data_byte o : data_zone s table -> 0 <= o < 1024 -> d' (table * 1024 + o) = after d pos p zone table table o.
Proof. apply (ld_data _ _ _ _ _ _ HL). Qed.

Lemma zone_u32 : 0 <= zone < 4294967296.
Proof.
  destruct (ld_zone _ _ _ _ _ _ HL) as [Hz _]. pose proof (data_zone_pos _ Hz). pose proof Hwf as Hg. geometry Hg.
  unfold data_zone in Hz. lia.
Qed.

(** The table entries. *)
Lemma landed_entry i :
  7 <= i < 263 -> block d' i = if i =? pos / 1024 then zone else block d i.
Proof.
  intros Hi. rewrite block_table, (ld_indirect _ _ _ _ _ _ HL) by done. unfold table_entry. rewrite log_zone_bytes by done.
  destruct (Z.lt_ge_cases (pos / 1024) 7) as [H7|H7].
  - rewrite (proj2 (Z.eqb_neq i (pos / 1024))) by lia. destruct (ld_table _ _ _ _ _ _ HL) as (-> & _ & _); [|by left].
    rewrite (block_table d s n i) by done. unfold table_entry. rewrite log_zone_bytes by done.
    destruct (Z.eqb_spec (block d 263) 0) as [|H0]; [done|]. apply u32_ext. intros j Hj. rewrite !nthZ_mem_read by lia.
    rewrite <- Z.add_assoc, (ld_data _ _ _ _ _ _ HL), <- after_kept by (done || (apply block_data; done || lia) || lia).
    done.
  - pose proof (table_data H7) as Hz. pose proof (data_zone_pos _ Hz).
    rewrite (proj2 (Z.eqb_neq table 0)) by lia. destruct (Z.eqb_spec i (pos / 1024)) as [->|Hne].
    + rewrite <- (u32_put32 (zeros 4) 0 zone (s_swapped s)) by (apply zone_u32 || (rewrite ?lenZ_zeros; lia)).
      apply u32_ext. intros j Hj. rewrite nthZ_mem_read, nthZ_ptr_add, <- Z.add_assoc, table_data_byte, after_table by (done || lia).
      rewrite (proj2 (Z.leb_le _ _)), (proj2 (Z.ltb_lt _ _)) by lia. cbn [andb]. f_equal. lia.
    + transitivity (cp32_fs_u32 (if block d 263 =? 0 then zeros 4 else mem_read d (table * 1024 + (i - 7) * 4) 4) (s_swapped s)).
      * apply u32_ext. intros j Hj. rewrite nthZ_mem_read, <- Z.add_assoc, table_data_byte, after_table by (done || lia).
        replace (_ && _) with false by lia. destruct (block d 263 =? 0); [by unfold zeros; rewrite nthZ_replicate|].
        rewrite nthZ_mem_read by lia. f_equal. lia.
      * destruct (Z.eqb_spec (block d 263) 0) as [H0|H0].
        -- rewrite block_zero_table by done. destruct (truthy (s_swapped s)) eqn:E; unfold cp32_fs_u32, cp32_fs_u16; by rewrite E.
        -- rewrite (block_table d s n i), (proj1 (ld_table _ _ _ _ _ _ HL)) by (by right || done). unfold table_entry.
           by rewrite (proj2 (Z.eqb_neq _ _) H0), log_zone_bytes by done.
Qed.

Lemma landed_block i :
  0 <= i < 264 -> block d' i = if i =? pos / 1024 then zone else if i =? 263 then table else block d i.
Proof.
  intros Hi. pose proof index_range. destruct (Z.eq_dec i 263) as [->|].
  - by rewrite (proj2 (Z.eqb_neq 263 (pos / 1024))), Z.eqb_refl, (ld_indirect _ _ _ _ _ _ HL) by lia.
  - rewrite (proj2 (Z.eqb_neq i 263)) by done.
    destruct (Z.lt_ge_cases i 7); [apply (ld_direct _ _ _ _ _ _ HL); lia|apply landed_entry; lia].
Qed.
(** ** The blocks after the transfer *)
Lemma data_live z : zone_live d s z -> data_zone s z.
Proof. by intros []. Qed.

Lemma landed_owned z : owned d' z <-> owned d z \/ z = zone \/ (7 <= pos / 1024 /\ z = table).
Proof.
  pose proof index_range. destruct (ld_zone _ _ _ _ _ _ HL) as (Hz & Hold & _).
  destruct (ld_table _ _ _ _ _ _ HL) as (Htab & _ & _). split.
  - intros [Hne (i & Hi & He)]. rewrite landed_block in He by done. revert He.
    destruct (Z.eqb_spec i (pos / 1024)); [by right; left|]. destruct (Z.eqb_spec i 263); intros He.
    + destruct (Z.lt_ge_cases (pos / 1024) 7); [left|by right; right]. rewrite Htab in He by by left.
      split; [done|]. exists 263. split; [lia|done].
    + left. split; [done|]. by exists i.
  - intros [[Hne (i & Hi & <-)]|[->|[H7 ->]]].
    + split; [done|]. exists i. split; [done|]. rewrite landed_block by done.
      destruct (Z.eqb_spec i (pos / 1024)) as [->|]; [by apply Hold|]. destruct (Z.eqb_spec i 263) as [->|]; [|done].
      apply Htab. by right.
    + split; [pose proof (data_zone_pos _ Hz); lia|]. exists (pos / 1024). split; [lia|].
      by rewrite landed_block, Z.eqb_refl by lia.
    + split; [pose proof (data_zone_pos _ (table_data H7)); lia|]. exists 263. split; [lia|].
      by rewrite landed_block, (proj2 (Z.eqb_neq 263 (pos / 1024))), Z.eqb_refl by lia.
Qed.

Lemma owned_live z : owned d z -> zone_live d s z.
Proof. intros [Hne (i & Hi & <-)]. by apply (mp_live _ _ _ _ Hm). Qed.

Lemma landed_live z : data_zone s z -> zone_live d' s z <-> zone_live d s z \/ owned d' z.
Proof.
  intros Hz. rewrite (ld_live _ _ _ _ _ _ HL), landed_owned by done. pose proof (owned_live z). tauto.
Qed.

Lemma landed_fresh z : owned d' z -> owned d z \/ ~ zone_live d s z.
Proof.
  pose proof index_range. destruct (ld_zone _ _ _ _ _ _ HL) as (_ & Hold & Hnew).
  destruct (ld_table _ _ _ _ _ _ HL) as (Told & Tnew & _).
  rewrite landed_owned. intros [?|[->|[H7 ->]]]; [by left|..].
  - destruct (Z.eq_dec (block d (pos / 1024)) 0) as [H0|H0]; [right; auto|left].
    rewrite Hold by done. split; [done|]. exists (pos / 1024). split; [lia|done].
  - destruct (Z.eq_dec (block d 263) 0) as [H0|H0]; [right; by apply Tnew|left].
    rewrite Told by by right. split; [done|]. exists 263. split; [lia|done].
Qed.

Lemma landed_distinct i k : 0 <= i < 264 -> 0 <= k < 264 -> i <> k -> block d' i <> 0 -> block d' k <> block d' i.
Proof.
  intros Hi Hk Hne. rewrite !landed_block by done. pose proof index_range.
  destruct (ld_table _ _ _ _ _ _ HL) as (Told & Tnew & Hzt).
  assert (Ho : forall j, 0 <= j < 263 -> j <> pos / 1024 -> block d j <> 0 -> block d j <> zone /\ block d j <> table).
  { intros j Hj Hjp H0. split; [apply zone_other; done || lia|].
    destruct (Z.lt_ge_cases (pos / 1024) 7); [|by apply table_other]. rewrite Told by by left. intros He.
    enough (263 = j) by lia. apply block_inj; done || lia. }
  destruct (Z.eqb_spec i (pos / 1024)), (Z.eqb_spec k (pos / 1024)); try lia; intros H0 He.
  - destruct (Z.eqb_spec k 263); [done|]. destruct (Ho k) as [? _]; try lia; congruence.
  - destruct (Z.eqb_spec i 263); [congruence|]. destruct (Ho i); try lia; congruence.
  - destruct (Z.eqb_spec i 263), (Z.eqb_spec k 263); try lia.
    + destruct (Ho k) as [_ ?]; try lia; congruence.
    + destruct (Ho i) as [_ ?]; try lia; congruence.
    + apply Hne. symmetry. by apply block_inj.
Qed.

Lemma landed_mapped : mapped d'.
Proof.
  constructor.
  - rewrite (ld_double _ _ _ _ _ _ HL). apply (mp_double _ _ _ _ Hm).
  - intros i Hi H0. assert (Ho : owned d' (block d' i)) by (split; [done|by exists i]).
    assert (Hz : data_zone s (block d' i)).
    { destruct (proj1 (landed_owned _) Ho) as [?%owned_live|[->|[H7 ->]]]; [by apply data_live| |by apply table_data].
      apply (ld_zone _ _ _ _ _ _ HL). }
    apply landed_live; [done|by right].
  - intros i k Hk Hi. apply landed_distinct; lia.
Qed.

Lemma landed_trimmed : trimmed d'.
Proof.
  intros i Hi. rewrite (ld_size' _ _ _ _ _ _ HL). intros Hs. pose proof (ld_pos _ _ _ _ _ _ HL).
  rewrite landed_block, (proj2 (Z.eqb_neq i 263)) by lia.
  destruct (Z.eqb_spec i (pos / 1024)); [Z.div_mod_to_equations; lia|]. apply Ht; lia.
Qed.
(** ** The bytes after the transfer *)
Lemma file_byte_block m q : q / 1024 <> 263 -> file_byte m (file m) q =
  if block m (q / 1024) =? 0 then 0 else m (block m (q / 1024) * 1024 + q mod 1024).
Proof.
  intros Hq. unfold file_byte, Snapshot.file_block. cbn [f_zone_bytes file_of_inode].
  by rewrite log_zone_bytes, (proj2 (Z.eqb_neq _ _) Hq) by done.
Qed.

(** The clearing of the part of the last block that the write skips over. *)
Lemma gap_byte q :
  0 <= q < 263 * 1024 -> block d (q / 1024) <> 0 -> ~ (f_size (file d) <= q /\ pos <= q) ->
  (if gap d pos && (block d (q / 1024) =? block d (f_size (file d) / 1024)) &&
      (f_size (file d) mod 1024 <=? q mod 1024) && (q mod 1024 <? gap_end d pos) then 0
   else d (block d (q / 1024) * 1024 + q mod 1024)) =
  if (f_size (file d) <=? q) && (q <? pos) then 0 else d (block d (q / 1024) * 1024 + q mod 1024).
Proof.
  intros Hq H0 Hle. pose proof (ld_size _ _ _ _ _ _ HL) as Hs. pose proof (ld_pos _ _ _ _ _ _ HL) as Hp.
  assert (Hi : 0 <= q / 1024 < 263) by (Z.div_mod_to_equations; lia). set (sz := f_size (file d)) in *.
  destruct (Z.eq_dec (q / 1024) (sz / 1024)) as [E1|E1].
  - rewrite E1, Z.eqb_refl, andb_true_r. rewrite E1 in H0.
    assert (Hg : gap d pos = (sz <? pos) && truthy (sz mod 1024)).
    { unfold gap. fold sz. by rewrite (proj2 (truthy_true _) H0), andb_true_r. }
    rewrite Hg. unfold gap_end. fold sz. assert (Hm0 : sz mod 1024 <> 0).
    { intros Hm0. apply H0, Ht; fold sz; [lia|]. Z.div_mod_to_equations. lia. }
    rewrite (proj2 (truthy_true _) Hm0), andb_true_r. repeat case_match; try done; exfalso; Z.div_mod_to_equations; lia.
  - replace (block d (q / 1024) =? block d (sz / 1024)) with false.
    2: { symmetry. apply Z.eqb_neq. intros He. apply E1. symmetry. apply block_inj; try done; [lia|]. Z.div_mod_to_equations; lia. }
    rewrite andb_false_r. cbn [andb]. replace ((sz <=? q) && (q <? pos)) with false; [done|].
    symmetry. apply not_true_is_false. intros H. apply H0, Ht; fold sz; [lia|]. Z.div_mod_to_equations. lia.
Qed.

(** The old byte of a block, or zero in the part skipped over. *)
Definition kept (q : Z) : Z :=
  if (f_size (file d) <=? q) && (q <? pos) then 0 else if block d (q / 1024) =? 0 then 0 else d (block d (q / 1024) * 1024 + q mod 1024).

Lemma after_block q :
  0 <= q < 263 * 1024 -> block d (q / 1024) <> 0 ->
  (q / 1024 = pos / 1024 -> ~ pos <= q < pos + lenZ p) -> ~ (f_size (file d) <= q /\ pos <= q) ->
  after d pos p zone table (block d (q / 1024)) (q mod 1024) = kept q.
Proof.
  intros Hq H0 Hout Hle. pose proof (ld_pos _ _ _ _ _ _ HL) as Hp. pose proof (ld_size _ _ _ _ _ _ HL) as Hs.
  destruct (ld_zone _ _ _ _ _ _ HL) as (_ & Hold & _). assert (Hi : 0 <= q / 1024 < 263) by (Z.div_mod_to_equations; lia).
  unfold after. cbv zeta. replace ((block d (q / 1024) =? zone) && (pos mod 1024 <=? q mod 1024) && (q mod 1024 <? pos mod 1024 + lenZ p)) with false.
  2: { destruct (Z.eq_dec (q / 1024) (pos / 1024)) as [E1|E1]; [Z.div_mod_to_equations; lia|].
       by rewrite (proj2 (Z.eqb_neq _ zone)) by (apply zone_other; done || lia). }
  replace ((7 <=? pos / 1024) && (block d (q / 1024) =? table)) with false.
  2: { destruct (Z.leb_spec 7 (pos / 1024)); [|done]. by rewrite (proj2 (Z.eqb_neq _ table)) by (by apply table_other). }
  cbn [andb orb]. rewrite orb_false_r. replace ((block d (q / 1024) =? zone) && (block d (pos / 1024) =? 0)) with false.
  2: { destruct (Z.eqb_spec (block d (pos / 1024)) 0) as [Hz|]; [|by rewrite andb_false_r].
       rewrite (proj2 (Z.eqb_neq _ zone)); [done|]. apply zone_other; [lia| |done]. congruence. }
  unfold kept. rewrite (proj2 (Z.eqb_neq _ _) H0). apply gap_byte; done.
Qed.

Lemma kept_byte q :
  0 <= q < f_size (file d') -> 0 <= q / 1024 < 263 -> ~ pos <= q < pos + lenZ p ->
  kept q = if q <? f_size (file d) then file_byte d (file d) q else 0.
Proof.
  rewrite (ld_size' _ _ _ _ _ _ HL). intros Hq Hi Hout. unfold kept. rewrite file_byte_block by lia.
  destruct (Z.ltb_spec q (f_size (file d))); [by rewrite (proj2 (Z.leb_gt _ _)) by lia|].
  by rewrite (proj2 (Z.leb_le _ _)), (proj2 (Z.ltb_lt q pos)) by lia.
Qed.

Lemma after_fresh q :
  block d (q / 1024) = 0 -> q / 1024 = pos / 1024 -> ~ pos <= q < pos + lenZ p ->
  after d pos p zone table zone (q mod 1024) = 0.
Proof.
  intros H0 Hi Hout. pose proof (ld_pos _ _ _ _ _ _ HL) as Hp. destruct (ld_table _ _ _ _ _ _ HL) as (_ & _ & Hne).
  unfold after. cbv zeta. rewrite Z.eqb_refl, <- Hi, H0, (proj2 (Z.eqb_neq zone table)) by done. cbn [andb orb].
  rewrite andb_false_r. cbn [andb]. replace (_ && _) with false; [done|]. Z.div_mod_to_equations; lia.
Qed.

Lemma landed_index q : 0 <= q < f_size (file d') -> 0 <= q / 1024 < 263 /\ q < 263 * 1024.
Proof.
  pose proof (ld_pos _ _ _ _ _ _ HL). pose proof (ld_size _ _ _ _ _ _ HL). rewrite (ld_size' _ _ _ _ _ _ HL).
  intros Hq. Z.div_mod_to_equations. lia.
Qed.

Lemma landed_file_byte q :
  0 <= q < f_size (file d') -> file_byte d' (file d') q =
  if q / 1024 =? pos / 1024 then after d pos p zone table zone (q mod 1024)
  else if block d (q / 1024) =? 0 then 0 else after d pos p zone table (block d (q / 1024)) (q mod 1024).
Proof.
  intros Hq. pose proof (landed_index q Hq) as [Hi _]. assert (Hm0 : 0 <= q mod 1024 < 1024) by (apply Z.mod_pos_bound; lia).
  destruct (ld_zone _ _ _ _ _ _ HL) as (Hz & _ & _). pose proof (data_zone_pos _ Hz).
  rewrite file_byte_block, landed_block, (proj2 (Z.eqb_neq (q / 1024) 263)) by lia.
  destruct (q / 1024 =? pos / 1024).
  - by rewrite (proj2 (Z.eqb_neq zone 0)), (ld_data _ _ _ _ _ _ HL) by (done || lia).
  - destruct (Z.eqb_spec (block d (q / 1024)) 0); [done|]. apply (ld_data _ _ _ _ _ _ HL); [|done].
    apply block_data; done || lia.
Qed.

Lemma landed_byte_out q :
  0 <= q < f_size (file d') -> ~ pos <= q < pos + lenZ p -> file_byte d' (file d') q = kept q.
Proof.
  intros Hq Hout. pose proof (landed_index q Hq) as [Hi Hq']. rewrite landed_file_byte by done.
  rewrite (ld_size' _ _ _ _ _ _ HL) in Hq. destruct (ld_zone _ _ _ _ _ _ HL) as (_ & Hold & _).
  destruct (Z.eq_dec (block d (q / 1024)) 0) as [Hz|Hz].
  - assert (kept q = 0) as -> by (unfold kept; rewrite Hz; by destruct (_ && _)).
    rewrite Hz. destruct (Z.eqb_spec (q / 1024) (pos / 1024)); [by apply after_fresh|done].
  - rewrite <- after_block by (done || lia). rewrite (proj2 (Z.eqb_neq _ _) Hz).
    destruct (Z.eqb_spec (q / 1024) (pos / 1024)) as [E1|]; [|done]. rewrite E1 in *. by rewrite Hold.
Qed.

Lemma landed_byte q :
  0 <= q < f_size (file d') -> file_byte d' (file d') q =
  if (pos <=? q) && (q <? pos + lenZ p) then nthZ p (q - pos)
  else if q <? f_size (file d) then file_byte d (file d) q else 0.
Proof.
  intros Hq. pose proof (landed_index q Hq) as [Hi _]. pose proof (ld_pos _ _ _ _ _ _ HL) as Hp.
  destruct ((pos <=? q) && (q <? pos + lenZ p)) eqn:Ein; [|by rewrite landed_byte_out, kept_byte by lia].
  assert (E1 : q / 1024 = pos / 1024 /\ q mod 1024 = pos mod 1024 + (q - pos)) by (Z.div_mod_to_equations; lia).
  destruct E1 as [E1 E2]. rewrite landed_file_byte, (proj2 (Z.eqb_eq _ _) E1) by done.
  unfold after. rewrite Z.eqb_refl. replace (_ && _) with true by lia. f_equal. lia.
Qed.

(** ** The rest of the volume *)
Lemma landed_others z o :
  zone_live d s z -> ~ owned d z -> 0 <= o < 1024 -> d' (z * 1024 + o) = d (z * 1024 + o).
Proof.
  intros Hl Ho Hr. rewrite (ld_data _ _ _ _ _ _ HL) by (done || by apply data_live).
  assert (Ho' : ~ owned d' z) by (by intros [?|?]%landed_fresh). rewrite landed_owned in Ho'.
  unfold after. cbv zeta. rewrite (proj2 (Z.eqb_neq z zone)) by tauto. cbn [andb orb].
  replace ((7 <=? pos / 1024) && (z =? table)) with false by lia. cbn [andb].
  destruct (gap d pos) eqn:Eg; [|done]. apply gap_index in Eg as [Hi H0]. pose proof index_range.
  rewrite (proj2 (Z.eqb_neq z (block d (f_size (file d) / 1024)))); [done|]. intros ->.
  apply Ho. split; [done|]. exists (f_size (file d) / 1024). split; [lia|done].
Qed.

Lemma landed_mode : inode_mode d' s n = inode_mode d s n /\ inode_links d' s n = inode_links d s n.
Proof.
  pose proof (ld_head _ _ _ _ _ _ HL) as Hh. unfold inode_mode, inode_links.
  split; apply u16_ext; rewrite ?nthZ_ptr_add by lia; apply Hh; lia.
Qed.

Lemma landed_wrote : wrote d d' pos p.
Proof.
  constructor.
  - apply landed_mode.
  - apply HL.
  - apply landed_byte.
  - apply landed_mapped.
  - apply landed_trimmed.
  - intros z Hz. apply landed_owned. by left.
  - apply landed_fresh.
  - apply landed_live.
  - apply landed_others.
  - apply HL.
Qed.
End Landed.
End Landing.
