(* ===== verification/Write.v ===== *)
(** * The writes of create.c against their specification

    [write_fragment] lands its bytes ([landed]), so [cp32_fs_write_inode]
    writes the file ([wrote]). *)
From S2P Require Import Prelude Codec FsTypes FdTable MemDisk Super Timestamp Inode Read Bitmap Zones Snapshot Allocate WriteSpec.

(** ** The inode of a transfer *)
Section InodeImage.
Context (swap : Z).

(** The time fields aside, [raw'] is [raw]. *)
Definition same_fields (raw raw' : list Z) : Prop :=
  lenZ raw' = lenZ raw /\ forall k, 0 <= k -> k < 12 \/ 24 <= k -> nthZ raw' k = nthZ raw k.

Lemma stamped_fields raw raw' mask :
  stamped raw raw' 12 swap mask -> lenZ raw = 64 -> same_fields raw raw'.
Proof.
  intros [->|(now & Hnow & ->)] Hl; [done|]. destruct (put_times_spec raw 12 now swap mask) as (H1 & _ & H2); [lia|lia| |].
  - unfold is_u32. lia.
  - split; [done|]. intros k Hk Ho. apply H2; lia.
Qed.

Lemma stamped_bytes raw raw' mask : stamped raw raw' 12 swap mask -> Forall is_byte raw -> Forall is_byte raw'.
Proof. intros [->|(now & _ & ->)] H; [done|]. by apply put_times_Forall. Qed.

(** The inode stored by [write_fragment]. *)
Definition inode_image (raw : list Z) (size pos chunk zone table : Z) : list Z :=
  let raw := if pos / 1024 <? 7 then put32 raw (24 + 4 * (pos / 1024)) zone swap else put32 raw 52 table swap in
  if size <? pos + chunk then put32 raw 8 (pos + chunk) swap else raw.

Context (raw0 raw : list Z) (size pos chunk zone table : Z).
Hypothesis Hsame : same_fields raw0 raw.
Hypothesis Hlen : lenZ raw0 = 64.
Hypothesis Hpos : 0 <= pos /\ 0 <= pos + chunk < 4294967296.
Hypothesis Hzone : 0 <= zone < 4294967296.
Hypothesis Htable : 0 <= table < 4294967296.
Abbreviation image := (inode_image raw size pos chunk zone table).
Abbreviation u32 l at_ := (cp32_fs_u32 (ptr_add l at_) swap).

Lemma lenZ_raw : lenZ raw = 64.
Proof. by destruct Hsame as [-> _]. Qed.

Lemma same_u32 at_ : 24 <= at_ \/ 0 <= at_ <= 8 -> u32 raw at_ = u32 raw0 at_.
Proof.
  intros Ha. apply u32_ext. intros i Hi. rewrite !nthZ_ptr_add by lia. apply Hsame; lia.
Qed.

Lemma image_len : lenZ image = 64.
Proof. unfold inode_image. cbv zeta. pose proof lenZ_raw. repeat case_match; by rewrite !lenZ_put32. Qed.

Lemma image_bytes : Forall is_byte raw -> Forall is_byte image.
Proof. intros H. unfold inode_image. cbv zeta. repeat case_match; repeat apply put32_Forall; done. Qed.

Lemma image_head k : 0 <= k < 8 -> nthZ image k = nthZ raw0 k.
Proof.
  intros Hk. assert (0 <= pos / 1024) by (apply Z.div_pos; lia). unfold inode_image. cbv zeta.
  repeat case_match; rewrite !nthZ_put32_out by lia; apply Hsame; lia.
Qed.

Lemma image_size : u32 raw0 8 = size -> u32 image 8 = Z.max size (pos + chunk).
Proof.
  intros Hs. assert (0 <= pos / 1024) by (apply Z.div_pos; lia). unfold inode_image. cbv zeta.
  pose proof lenZ_raw. destruct (Z.ltb_spec size (pos + chunk)).
  - rewrite u32_put32; [lia|lia| |lia]. case_match; rewrite lenZ_put32; lia.
  - case_match; rewrite u32_put32_ne, same_u32 by lia; lia.
Qed.

Lemma image_zone i : 0 <= i < 7 -> u32 image (24 + i * 4) = if i =? pos / 1024 then zone else u32 raw0 (24 + i * 4).
Proof.
  intros Hi. assert (0 <= pos / 1024) by (apply Z.div_pos; lia). unfold inode_image. cbv zeta. pose proof lenZ_raw.
  assert (E1 : u32 (if pos / 1024 <? 7 then put32 raw (24 + 4 * (pos / 1024)) zone swap else put32 raw 52 table swap) (24 + i * 4) =
    if i =? pos / 1024 then zone else u32 raw0 (24 + i * 4)).
  { destruct (Z.ltb_spec (pos / 1024) 7), (Z.eqb_spec i (pos / 1024)); try lia.
    - subst i. replace (24 + pos / 1024 * 4) with (24 + 4 * (pos / 1024)) by lia. apply u32_put32; lia.
    - rewrite u32_put32_ne by lia. apply same_u32. lia.
    - rewrite u32_put32_ne by lia. apply same_u32. lia. }
  destruct (size <? pos + chunk); [by rewrite u32_put32_ne by lia|done].
Qed.

Lemma image_table : u32 image 52 = if pos / 1024 <? 7 then u32 raw0 52 else table.
Proof.
  assert (0 <= pos / 1024) by (apply Z.div_pos; lia). unfold inode_image. cbv zeta. pose proof lenZ_raw.
  destruct (size <? pos + chunk), (Z.ltb_spec (pos / 1024) 7); rewrite ?(u32_put32_ne _ 8) by lia;
    rewrite ?u32_put32 by lia; rewrite ?u32_put32_ne by lia; rewrite ?same_u32 by lia; done.
Qed.

Lemma image_double : u32 image 56 = u32 raw0 56.
Proof.
  assert (0 <= pos / 1024) by (apply Z.div_pos; lia). unfold inode_image. cbv zeta.
  repeat case_match; rewrite !u32_put32_ne by lia; apply same_u32; lia.
Qed.
End InodeImage.

(** ** Landing *)
Section Landing.
Context {rd : fptr} (c : Z) (s : cp32_minix_super) (n : Z).
Abbreviation block d i := (file_block (rd := rd) d s n i).
Abbreviation file d := (file_of_inode d rd s n).
Abbreviation landed := (landed rd s n).
Abbreviation after := (after rd s n).
Hypothesis Hwf : super_wf c s.
Hypothesis Hlog : s_log_zone_size s = 0.
Hypothesis Hn : 1 <= n <= s_ninodes s.

(** The zone and the table that a transfer uses. *)
Record placed (d : mem) (pos zone table : Z) (N : list Z) : Prop := {
  pl_zone : data_zone s zone /\ (block d (pos / 1024) <> 0 -> zone = block d (pos / 1024)) /\
            (block d (pos / 1024) = 0 -> ~ zone_live d s zone);
  pl_table : (pos / 1024 < 7 \/ block d 263 <> 0 -> table = block d 263) /\
             (7 <= pos / 1024 -> block d 263 = 0 -> data_zone s table /\ ~ zone_live d s table) /\ table <> zone;
  pl_new : forall z, data_zone s z ->
    zone_live d s z \/ In z N <-> zone_live d s z \/ z = zone \/ (7 <= pos / 1024 /\ z = table) }.

Lemma inode_in_table : itable_at s <= inode_at s n /\ inode_at s n + 64 <= data_at s.
Proof. pose proof (layout c s Hwf Hlog). unfold inode_at. lia. Qed.

Lemma placed_u32 d pos zone table N :
  (forall a, is_byte (d a)) -> 0 <= pos < 263 * 1024 -> placed d pos zone table N ->
  0 <= zone < 4294967296 /\ 0 <= table < 4294967296.
Proof.
  intros Hb Hp [(Hz & _) (H1 & H2 & _) _]. pose proof Hwf as Hg. geometry Hg. unfold data_zone in *.
  pose proof (layout c s Hwf Hlog). split; [lia|].
  assert (Ht : is_u32 (block d 263)) by (apply inode_field32; done || lia).
  destruct (Z.lt_ge_cases (pos / 1024) 7); [rewrite H1 by (by left); exact Ht|].
  destruct (Z.eq_dec (block d 263) 0) as [E0|E0]; [pose proof (H2 ltac:(lia) E0); lia|].
  rewrite H1 by (by right). exact Ht.
Qed.

Lemma landed_of d d4 B N pos p zone table raw :
  (forall a, is_byte (d a)) ->
  0 <= pos /\ 1 <= lenZ p /\ pos mod 1024 + lenZ p <= 1024 /\ pos + lenZ p <= 263 * 1024 ->
  f_size (file d) <= 263 * 1024 -> placed d pos zone table N -> view s d d4 B N ->
  (forall z o, data_zone s z -> 0 <= o < 1024 -> B z o = after d pos p zone table z o) ->
  same_fields (inode_bytes d s n) raw ->
  landed d (mem_write d4 (inode_at s n) (inode_image (s_swapped s) raw (f_size (file d)) pos (lenZ p) zone table))
    pos p zone table.
Proof.
  intros Hb Hp Hs Hpl [V1 V2 V3] HB Hraw. pose proof (placed_u32 d pos zone table N Hb ltac:(lia) Hpl) as [Hzu Htu].
  pose proof inode_in_table as Hin. pose proof (layout c s Hwf Hlog) as HL.
  assert (H0 : lenZ (inode_bytes d s n) = 64) by (by apply lenZ_mem_read).
  set (img := inode_image _ _ _ _ _ _ _). set (d5 := mem_write d4 (inode_at s n) img).
  assert (Hl : lenZ img = 64) by (by apply (image_len _ (inode_bytes d s n))).
  assert (Hi : inode_bytes d5 s n = img).
  { unfold inode_bytes, d5. rewrite <- Hl. apply mem_read_write. }
  assert (Hmeta : forall a, ~ inode_at s n <= a < inode_at s n + 64 -> d5 a = d4 a)
    by (intros a Ha; apply mem_write_out; lia).
  destruct Hpl as [P1 P2 P3]. constructor; try done.
  - split; [|done]. apply inode_field32; done || lia.
  - intros z o Hz Ho. pose proof (block_range c s Hwf Hlog z o Hz Ho). rewrite Hmeta by lia. rewrite V1 by done. by apply HB.
  - intros z Hz. rewrite <- P3, <- V3 by done. apply (zone_live_ext c s Hwf Hlog); [done|]. intros a Ha. apply Hmeta. lia.
  - intros a Ha Hn'. rewrite Hmeta by done. by apply V2.
  - intros k Hk. rewrite Hi. apply image_head; done || lia.
  - cbn [f_size file_of_inode]. rewrite Hi. apply (image_size _ (inode_bytes d s n)); done || lia.
  - intros i Hi7. unfold Snapshot.file_block. rewrite (proj2 (Z.eqb_neq i 263)) by lia. unfold bmap.
    cbn [f_super f_zones file_of_inode]. rewrite (proj2 (Z.ltb_lt i 7)), !nthZ_raw_zones by lia. unfold raw_zone.
    rewrite Hi. apply (image_zone _ (inode_bytes d s n)); done || lia.
  - unfold Snapshot.file_block. rewrite Z.eqb_refl. cbn [f_indirect file_of_inode]. rewrite Hi.
    unfold img. rewrite (image_table _ (inode_bytes d s n)) by (done || lia).
    destruct (Z.ltb_spec (pos / 1024) 7); [|done]. symmetry. apply P2. by left.
  - cbn [f_double_indirect file_of_inode]. rewrite Hi. apply (image_double _ (inode_bytes d s n)); done || lia.
Qed.
End Landing.

(** ** The steps of a transfer *)
Section Fragment.
Context {E : Type} `{DSK : Disk E} {rd wr : fptr} {cap : Z} `{SPEC : !DiskSpec E rd wr cap}.
Abbreviation reads := (reads (rd := rd) (wr := wr) (cap := cap)).
Abbreviation steps := (steps (rd := rd) (wr := wr) (cap := cap)).
Context (c : Z) (s : cp32_minix_super) (n : Z) (t : statics).
Abbreviation block d i := (file_block (rd := rd) d s n i).
Abbreviation file d := (file_of_inode d rd s n).
Abbreviation landed := (landed rd s n).
Abbreviation after := (after rd s n).
Abbreviation mapped := (mapped rd s n).
Abbreviation placed := (placed (rd := rd) s n).
Hypothesis Hwf : super_wf c s.
Hypothesis Hcc : c <= cap.
Hypothesis Hcap : cap < 4294967296.
Hypothesis Hlog : s_log_zone_size s = 0.
Hypothesis Hn : 1 <= n <= s_ninodes s.

Lemma snap_mapped d zs : snap_ok (rd := rd) d s n zs -> mapped d.
Proof.
  intros [Hl Hb Hd Hlive Hdist]. constructor; [done|..].
  - intros i Hi. rewrite <- Hb by done. by apply Hlive.
  - intros i k Hk Hi. rewrite <- !Hb by lia. by apply Hdist.
Qed.

(** The blocks with the skipped part of the last one cleared. *)
Definition gapped (d : mem) (pos : Z) : Z -> Z -> Z :=
  if gap rd s n d pos
  then clear (block d (f_size (file d) / 1024)) (f_size (file d) mod 1024) (gap_end rd s n d pos) (blocks d)
  else blocks d.

Lemma gap_steps d zs pos :
  mapped d -> 0 <= f_size (file d) -> 0 <= pos < 263 * 1024 ->
  steps t d zs
    (if (f_size (file d) <? pos) && truthy (f_size (file d) mod 1024) && truthy (block d (f_size (file d) / 1024))
     then zero_range wr (block d (f_size (file d) / 1024)) (f_size (file d) mod 1024)
            (if f_size (file d) / 1024 =? pos / 1024 then pos mod 1024 else 1024)
     else ret tt)
    (fun _ d' zs' => zs' = zs /\ view s d d' (gapped d pos) []).
Proof.
  intros Hm Hs Hp. unfold gapped. change (_ && _) with (gap rd s n d pos) at 1. destruct (gap rd s n d pos) eqn:Eg.
  - unfold gap in Eg. assert (H0 : block d (f_size (file d) / 1024) <> 0) by (apply andb_prop in Eg as [_ ?]; by apply truthy_true).
    apply (zero_range_steps c s t Hwf Hcc Hcap Hlog d d (blocks d) []).
    + apply view_refl.
    + apply (mp_live _ _ _ _ Hm); [Z.div_mod_to_equations; lia|done].
    + unfold gap_end. case_match; Z.div_mod_to_equations; lia.
    + unfold gap_end. case_match; Z.div_mod_to_equations; lia.
  - apply steps_ret. split; [done|]. apply view_refl.
Qed.

(** The blocks with a new zone, and a new table, cleared. *)
Definition extended (d : mem) (pos zone table : Z) (B : Z -> Z -> Z) : Z -> Z -> Z :=
  if block d (pos / 1024) =? 0
  then if (7 <=? pos / 1024) && (block d 263 =? 0)
       then clear table 0 1024 (clear zone 0 1024 B) else clear zone 0 1024 B
  else B.

Lemma place_steps d d1 B zs pos :
  mapped d -> 0 <= pos < 263 * 1024 -> view s d d1 B [] ->
  steps t d1 zs
    (if block d (pos / 1024) =? 0 then allocate_zone rd wr s (pos / 1024) (block d 263)
     else ret (block d (pos / 1024), block d 263))
    (fun '(zone, table) d2 zs' => zs' = zs /\
       exists N, placed d pos zone table N /\ view s d d2 (extended d pos zone table B) N).
Proof.
  intros Hm Hp Hv. assert (Hi : 0 <= pos / 1024 < 263) by (Z.div_mod_to_equations; lia). unfold extended.
  assert (Hlive : forall z, zone_live d s z -> zone_live d1 s z) by (intros z Hz; apply Hv; [apply Hz|by left]).
  destruct (Z.eqb_spec (block d (pos / 1024)) 0) as [H0|H0].
  - eapply steps_conseq; [by apply (allocate_steps c s t Hwf Hcc Hcap Hlog d d1 B [])|].
    intros [zone table] d2 zs2 (-> & Hz & Hfree & H). split; [done|].
    destruct ((7 <=? pos / 1024) && (block d 263 =? 0)) eqn:En.
    + destruct H as (Ht & Htf & Hne & Hv2). exists [table; zone]. split; [|done]. constructor.
      * split_and!; [done|done|auto].
      * split_and!; [lia|auto|done].
      * intros z Hz'. cbn [In]. intuition lia.
    + destruct H as (-> & Hv2). exists [zone]. split; [|done]. constructor.
      * split_and!; [done|done|auto].
      * split_and!; [done|lia|]. intros He. apply Hfree. rewrite <- He.
        destruct (Z.eq_dec (block d 263) 0) as [E0|E0]; [|by apply Hlive, (mp_live _ _ _ _ Hm)].
        exfalso. pose proof (data_zone_pos c s Hwf Hlog zone Hz). lia.
      * intros z Hz'. cbn [In]. split; [intuition lia|]. intros [?|[?|[H7 ->]]]; [by left|right; left; lia|left].
        apply (mp_live _ _ _ _ Hm); [lia|lia].
  - apply steps_ret. split; [done|]. exists []. split; [|done].
    assert (Hl : zone_live d s (block d (pos / 1024))) by (apply (mp_live _ _ _ _ Hm); [lia|done]).
    assert (Ht : 7 <= pos / 1024 -> block d 263 <> 0).
    { intros H7 E0. apply H0. rewrite block_table, E0 by lia. done. }
    constructor.
    + split_and!; [apply Hl|done|done].
    + split_and!; [done|intros H7 E0; by destruct (Ht H7)|]. intros He.
      apply (mp_distinct _ _ _ _ Hm 263 (pos / 1024)); [lia|lia|congruence|done].
    + intros z Hz. cbn [In]. split; [tauto|]. intros [?|[->|[H7 ->]]]; [by left|by left|left].
      apply (mp_live _ _ _ _ Hm); [lia|auto].
Qed.
(** The stores of a transfer make the blocks of [after]. *)
Definition stored (d : mem) (pos : Z) (p : list Z) (zone table : Z) : Z -> Z -> Z :=
  let B := put zone (pos mod 1024) p (extended d pos zone table (gapped d pos)) in
  if pos / 1024 <? 7 then B else put table (4 * (pos / 1024 - 7)) (put32 (zeros 4) 0 zone (s_swapped s)) B.

Lemma extended_after d pos zone table z o :
  (block d (pos / 1024) <> 0 -> 7 <= pos / 1024 -> block d 263 <> 0) -> 0 <= o < 1024 ->
  extended d pos zone table (gapped d pos) z o =
  if (z =? zone) && (block d (pos / 1024) =? 0) || (7 <=? pos / 1024) && (z =? table) && (block d 263 =? 0) then 0
  else if gap rd s n d pos && (z =? block d (f_size (file d) / 1024)) && (f_size (file d) mod 1024 <=? o) && (o <? gap_end rd s n d pos)
  then 0 else d (z * 1024 + o).
Proof.
  intros Hb Ho.
  assert (Hg : gapped d pos z o = if gap rd s n d pos && (z =? block d (f_size (file d) / 1024)) &&
    (f_size (file d) mod 1024 <=? o) && (o <? gap_end rd s n d pos) then 0 else d (z * 1024 + o)).
  { unfold gapped, clear, blocks. by destruct (gap rd s n d pos). }
  rewrite <- Hg. assert (Hr : (0 <=? o) && (o <? 1024) = true) by lia. apply andb_prop in Hr as [Hr1 Hr2].
  unfold extended. destruct (Z.eqb_spec (block d (pos / 1024)) 0), (Z.leb_spec 7 (pos / 1024)), (Z.eqb_spec (block d 263) 0);
    cbn [andb]; try (by destruct Hb); unfold clear; rewrite ?Hr1, ?Hr2, ?andb_true_r, ?andb_false_r, ?orb_false_r; try done.
  by destruct (z =? zone), (z =? table).
Qed.

Lemma stored_after d pos p zone table N z o :
  placed d pos zone table N -> mapped d -> 0 <= pos < 263 * 1024 -> 0 <= o < 1024 ->
  stored d pos p zone table z o = after d pos p zone table z o.
Proof.
  intros [_ (_ & _ & Hne) _] Hm Hp Ho. unfold stored, after, put. cbv zeta.
  assert (Ht : block d (pos / 1024) <> 0 -> 7 <= pos / 1024 -> block d 263 <> 0).
  { intros H0 H7 E0. apply H0. rewrite block_table, E0 by (Z.div_mod_to_equations; lia). done. }
  destruct (Z.ltb_spec (pos / 1024) 7).
  - rewrite (proj2 (Z.leb_gt 7 _)) by done. rewrite extended_after, (proj2 (Z.leb_gt 7 _)) by done. by cbn [andb].
  - rewrite (proj2 (Z.leb_le 7 _)) by done. rewrite extended_after, (proj2 (Z.leb_le 7 _)) by done.
    rewrite lenZ_put32, lenZ_zeros by lia. cbn [andb].
    destruct (Z.eqb_spec z table) as [->|]; [|by cbn [andb]]. rewrite (proj2 (Z.eqb_neq table zone)) by done. by cbn [andb].
Qed.
(** The bytes of the transfer at [pos], up to the sector boundary. *)
Definition fragment_bytes (count done_ pos : Z) : Z :=
  if 512 - pos mod 512 <? count - done_ then 512 - pos mod 512 else count - done_.

Lemma chunk_range count done_ pos :
  0 <= done_ < count -> 0 <= pos ->
  1 <= fragment_bytes count done_ pos <= count - done_ /\ pos mod 1024 + fragment_bytes count done_ pos <= 1024.
Proof. intros. unfold fragment_bytes. case_match; Z.div_mod_to_equations; lia. Qed.

Lemma placed_table d pos zone table N :
  mapped d -> placed d pos zone table N -> 7 <= pos / 1024 -> data_zone s table.
Proof.
  intros Hm [_ (Hold & Hnew & _) _] H7. destruct (Z.eq_dec (block d 263) 0) as [E0|E0]; [by apply Hnew|].
  rewrite Hold by by right. by apply (mp_live _ _ _ _ Hm).
Qed.

(** From the snapshot on. *)
Lemma land_steps d zs raw pos p chunk (r : Z) :
  lenZ p = chunk ->
  snap_ok (rd := rd) d s n zs -> same_fields (inode_bytes d s n) raw -> Forall is_byte raw -> Forall is_byte p ->
  f_size (file d) <= 263 * 1024 ->
  0 <= pos /\ 1 <= lenZ p /\ pos mod 1024 + lenZ p <= 1024 /\ pos + lenZ p <= 263 * 1024 ->
  steps t d zs
    (zone <- shrink_at (pos / 1024) ;;
     table <- shrink_at 263 ;;
     tail <- shrink_at (f_size (file d) / 1024) ;;
     (if (f_size (file d) <? pos) && truthy (f_size (file d) mod 1024) && truthy tail
      then zero_range wr tail (f_size (file d) mod 1024)
             (if f_size (file d) / 1024 =? pos / 1024 then pos mod 1024 else 1024)
      else ret tt) ;;;
     let* (zone, table) := (if zone =? 0 then allocate_zone rd wr s (pos / 1024) table else ret (zone, table)) in
     store wr (zone *u 1024 +u pos mod 1024) p ;;;
     raw <- (if pos / 1024 <? 7 then ret (put32 raw (24 + 4 * (pos / 1024)) zone (s_swapped s))
             else store wr (table *u 1024 +u 4 * (pos / 1024 - 7)) (put32 (zeros 4) 0 zone (s_swapped s)) ;;;
                  ret (put32 raw 52 table (s_swapped s))) ;;
     store wr (inode_offset s n)
       (if f_size (file d) <? pos +u chunk then put32 raw 8 (pos +u chunk) (s_swapped s) else raw) ;;;
     ret r)
    (fun (a : Z) d' _ => a = r /\ mapped d /\ exists zone table, landed d d' pos p zone table).
Proof.
  intros <- Hsnap Hraw Hrb Hpb Hs Hp. apply steps_bytes. intros Hb. pose proof (snap_mapped d zs Hsnap) as Hm.
  assert (Hs0 : 0 <= f_size (file d)) by (apply inode_field32; done || lia).
  assert (Hi : 0 <= pos / 1024 < 263 /\ 0 <= f_size (file d) / 1024 < 264) by (Z.div_mod_to_equations; lia).
  pose proof (layout c s Hwf Hlog) as HL. apply steps_at, steps_at, steps_at. rewrite !(sn_block _ _ _ _ Hsnap) by lia.
  eapply steps_bind; [apply gap_steps; done || lia|]. intros [] d1 zs1 (-> & V1).
  eapply steps_bind; [apply (place_steps d d1 (gapped d pos)); done || lia|].
  intros [zone table] d2 zs2 (-> & N & Hpl & V2). pose proof (pl_zone _ _ _ _ _ _ _ Hpl) as (Hz & _).
  assert (Hzr : pos mod 1024 + lenZ p <= 1024 /\ 0 <= pos mod 1024 < 1024) by (Z.div_mod_to_equations; lia).
  assert (Hzb : 0 < zone < 4194304) by (unfold data_zone in Hz; lia).
  replace (zone *u 1024 +u pos mod 1024) with (zone * 1024 + pos mod 1024) by (unwrap; lia).
  eapply steps_bind; [apply steps_store; [lia|done]|]. intros [] d3 zs3 (_ & -> & _).
  pose proof (view_store c s Hwf Hlog d d2 _ N zone (pos mod 1024) p V2 Hz ltac:(lia) ltac:(lia)) as V3.
  eapply (steps_bind _ _ _ _ _ (fun raw' d4 _ => view s d d4 (stored d pos p zone table) N /\
    raw' = if pos / 1024 <? 7 then put32 raw (24 + 4 * (pos / 1024)) zone (s_swapped s) else put32 raw 52 table (s_swapped s))).
  - unfold stored. cbv zeta. destruct (Z.ltb_spec (pos / 1024) 7) as [H7|H7]; [by apply steps_ret|].
    pose proof (placed_table d pos zone table N Hm Hpl H7) as Ht. assert (0 < table < 4194304) by (unfold data_zone in Ht; lia).
    replace (table *u 1024 +u 4 * (pos / 1024 - 7)) with (table * 1024 + 4 * (pos / 1024 - 7)) by (unwrap; lia).
    eapply steps_bind; [apply steps_store; [lia|by apply put32_Forall, zeros_bytes]|].
    intros [] d4 zs4 (_ & -> & _). apply steps_ret. split; [|done].
    apply (view_store c s Hwf Hlog); [done|done|lia|]. rewrite lenZ_put32, lenZ_zeros; lia.
  - intros raw' d4 zs4 (V4 & ->). pose proof inode_in_table c s n Hwf Hlog Hn as Hin.
    rewrite (wrap32_small (pos + lenZ p)), (inode_offset_eq c) by (done || lia).
    eapply steps_bind; [apply steps_store; [lia|]|].
    + by apply (image_bytes _ _ (f_size (file d)) pos (lenZ p) zone table).
    + intros [] d5 zs5 (_ & -> & _). apply steps_ret. split_and!; [done..|]. exists zone, table. eapply (landed_of c); try done.
      intros z o Hz' Ho. apply (stored_after d pos p zone table N); done || lia.
Qed.

(** One turn of the loop of [write_inode]. *)
Lemma write_fragment_steps d zs offset bytes count done_ :
  lenZ bytes = count -> Forall is_byte bytes -> 0 <= offset -> offset + count <= 263 * 1024 -> 0 <= done_ < count ->
  steps t d zs (write_fragment rd wr s n offset bytes count false done_)
    (fun r d' _ => let p := take (Z.to_nat (fragment_bytes count done_ (offset + done_))) (drop (Z.to_nat done_) bytes) in
       r = done_ + fragment_bytes count done_ (offset + done_) /\ file_ok d (st_tab t) rd s n /\ mapped d /\
       exists zone table, landed d d' (offset + done_) p zone table).
Proof.
  intros Hlen Hbs Ho Hc Hd. apply steps_bytes. intros Hb. unfold write_fragment. cbv zeta.
  rewrite (wrap32_small (offset + done_)) by lia. set (pos := offset + done_) in *.
  pose proof (chunk_range count done_ pos Hd ltac:(lia)) as Hcr.
  eapply (steps_read t d zs _ _ (fun _ => True) (fun _ => True)); [by apply reads_invalidate|apply shrink_invalidate|].
  intros [] _. eapply (steps_read t d zs _ _ (fun size => size = f_size (file d) /\ file_ok d (st_tab t) rd s n) (fun _ => True)).
  { eapply reads_bind; [eapply reads_conseq; [by apply (file_inode_reads d t c); (done || lia)|intros a Ha; exact Ha|done]|].
    intros f [-> Hf]. by apply reads_ret. }
  { keeps_solve. }
  intros size [-> Hf]. apply steps_guarded. intros Hs%Z.ltb_ge.
  eapply (steps_read t d zs _ _ (fun raw => raw = inode_bytes d s n) (fun _ => True)).
  { unfold inode_bytes. rewrite (inode_offset_eq c) by (done || lia).
    by apply reads_read_or; [lia|..]. }
  { auto with keeps. }
  intros raw0 ->. eapply (steps_read t d zs _ _ (fun raw => stamped (inode_bytes d s n) raw 12 (s_swapped s) 6) (fun _ => True)).
  { eapply reads_conseq; [apply stamp_reads|done|done]. }
  { auto with keeps. }
  intros raw Hst. assert (H64 : lenZ (inode_bytes d s n) = 64) by (by apply lenZ_mem_read).
  pose proof (stamped_fields _ _ _ _ Hst H64) as Hsame.
  eapply steps_bind; [apply (snapshot_zones_steps c s n t Hwf Hcc Hcap Hlog d zs raw)|].
  { intros k Hk. apply Hsame; lia. }
  intros [] d1 zs1 [-> Hsnap]. change (if 512 - pos mod 512 <? count - done_ then _ else _) with (fragment_bytes count done_ pos).
  set (p := take _ _). assert (Hp : lenZ p = fragment_bytes count done_ pos).
  { unfold p, lenZ in *. rewrite length_take, length_drop. lia. }
  eapply steps_conseq; [apply (land_steps d zs1 raw pos p (fragment_bytes count done_ pos) (done_ + fragment_bytes count done_ pos)); try done|].
  - eapply stamped_bytes; [exact Hst|]. by apply Forall_mem_read.
  - by apply Forall_take, Forall_drop.
  - lia.
  - intros a d' zs' (-> & Hm & HL). done.
Qed.

(** ** The whole write *)
Section Whole.
Context (d : mem) (offset : Z) (bytes : list Z) (count : Z).
Hypothesis Hb : forall a, is_byte (d a).
Hypothesis Ht : trimmed rd s n d.
Hypothesis Hlen : lenZ bytes = count.
Hypothesis Hbs : Forall is_byte bytes.
Hypothesis Ho : 0 <= offset.
Hypothesis Hc : offset + count <= 263 * 1024.
Abbreviation wrote := (wrote rd s n).

(** The state of the loop: nothing, or the first [k] bytes, written. *)
Definition progress (k : Z) (d1 : mem) : Prop :=
  if k =? 0 then d1 = d else file_ok d (st_tab t) rd s n /\ f_size (file d) <= 263 * 1024 /\ wrote d d1 offset (take (Z.to_nat k) bytes).

Lemma progress_trimmed k d1 : progress k d1 -> trimmed rd s n d1.
Proof. unfold progress. destruct (k =? 0); [by intros ->|]. intros (_ & _ & H). apply H. Qed.

Lemma progress_step k d1 d2 zone table :
  let m := fragment_bytes count k (offset + k) in let p := take (Z.to_nat m) (drop (Z.to_nat k) bytes) in
  0 <= k < count -> progress k d1 -> file_ok d1 (st_tab t) rd s n -> mapped d1 ->
  landed d1 d2 (offset + k) p zone table -> progress (k + m) d2.
Proof.
  intros m p Hk Hp Hf Hm HL. pose proof (chunk_range count k (offset + k) Hk ltac:(lia)) as [Hcr _]. fold m in Hcr.
  pose proof (landed_wrote rd c s n Hwf Hlog Hn d1 d2 (offset + k) p zone table Hm (progress_trimmed _ _ Hp) HL) as HW.
  assert (Hs : take (Z.to_nat (k + m)) bytes = take (Z.to_nat k) bytes ++ p).
  { unfold p. rewrite Z2Nat.inj_add by lia. by rewrite take_take_drop. }
  unfold progress in *. rewrite (proj2 (Z.eqb_neq (k + m) 0)) by lia. rewrite Hs.
  destruct (Z.eqb_spec k 0) as [->|Hk0].
  - subst d1. split; [done|]. split; [apply HL|]. by rewrite Z.add_0_r in HW.
  - destruct Hp as (Hf0 & Hs0 & Hw). split; [done|]. split; [done|]. eapply wrote_app; [exact Hw|].
    replace (offset + lenZ (take (Z.to_nat k) bytes)) with (offset + k); [done|].
    unfold lenZ in *. rewrite length_take. lia.
Qed.

Abbreviation at_data := (at_data (rd := rd) (wr := wr) (cap := cap)).

Lemma write_loop_spec m k w d1 :
  at_data d1 t w -> progress k d1 -> 0 <= k <= count -> 0 < Z.of_nat m + k ->
  match loop m (fun done_ =>
    if done_ <? count then
      r <- try (write_fragment rd wr s n offset bytes count false done_) ;;
      match r with
      | Ok next => ret (Continue next)
      | Err e => if truthy done_ then ret (Break done_) else fail e
      end
    else ret (Break done_)) ret k w with
  | (Ok r, w') => k <= r <= count /\ (0 < count -> 0 < r) /\
      (r = count -> exists d2, at_data d2 t w' /\ progress count d2)
  | (Err _, _) => True
  end.
Proof.
  revert k w d1. induction m as [|m IH]; intros k w d1 Hw Hp Hk Hm; cbn [loop].
  - cbn. split_and!; try lia. intros <-. by exists d1.
  - unfold bind at 1. destruct (Z.ltb_spec k count) as [Hlt|Hge].
    + pose proof (write_fragment_steps d1 (fs_shrink_zones w) offset bytes count k Hlen Hbs Ho Hc ltac:(lia) w Hw eq_refl) as HF.
      rewrite bind_try. destruct (write_fragment rd wr s n offset bytes count false k w) as [[e|next] w1].
      * destruct (Z.eqb_spec k 0) as [->|Hk0]; [done|]. replace (truthy k) with true by (symmetry; by apply truthy_true).
        cbn. split_and!; lia.
      * destruct HF as (d2 & Hw1 & -> & Hf & Hmap & zone & table & HL). cbn [ret].
        pose proof (chunk_range count k (offset + k) ltac:(lia) ltac:(lia)) as [Hcr _].
        assert (Hp' := progress_step k d1 d2 zone table ltac:(lia) Hp Hf Hmap HL).
        specialize (IH _ w1 d2 Hw1 Hp' ltac:(lia) ltac:(lia)). cbn beta in IH.
        match type of IH with match ?l with _ => _ end => destruct l as [[e|r] w2]; [done|] end.
        destruct IH as (? & ? & ?). split_and!; [lia..|done].
    + cbn. split_and!; try lia. intros <-. by exists d1.
Qed.
End Whole.

(** ** The file after the write *)
Lemma direct_block m i : 0 <= i < 7 -> nthZ (f_zones (file m)) i = block m i.
Proof.
  intros Hi. unfold Snapshot.file_block. rewrite (proj2 (Z.eqb_neq i 263)) by lia. unfold bmap.
  by rewrite (proj2 (Z.ltb_lt i 7)) by lia.
Qed.

Lemma mapped_mapping_ok m :
  mapped m -> f_size (file m) <= s_max_size s -> f_size (file m) <= 263 * 1024 -> mapping_ok m s (file m).
Proof.
  intros Hm H1 H2. constructor.
  - done.
  - rewrite log_zone_bytes by done. lia.
  - intros i Hi _ [[]|H0]. cbn [f_zones file_of_inode] in Hi. rewrite lenZ_raw_zones in Hi. rewrite direct_block in * by lia.
    split; [apply (mp_live _ _ _ _ Hm); [lia|done]|]. intros k Hk. rewrite direct_block by lia.
    apply (mp_distinct _ _ _ _ Hm); [lia|lia|done].
  - intros [_ H0]. change (f_indirect (file m)) with (block m 263) in *. split; [by apply (mp_live _ _ _ _ Hm)|].
    intros (k & Hk & He)%(In_nth _ _ 0). assert (Hk7 : 0 <= Z.of_nat k < 7).
    { cbn [f_zones file_of_inode] in Hk. unfold raw_zones in Hk. rewrite length_map, length_seq in Hk. lia. }
    apply (mp_distinct _ _ _ _ Hm 263 (Z.of_nat k)); [lia|lia|done|]. rewrite <- direct_block by done.
    unfold nthZ. by rewrite Nat2Z.id.
  - intros [_ H0]. by destruct H0; apply (mp_double _ _ _ _ Hm).
Qed.

Lemma wrote_file_ok d d' tab off p :
  wrote rd s n d d' off p -> file_ok d tab rd s n ->
  f_size (file d) <= 263 * 1024 -> off + lenZ p <= s_max_size s -> off + lenZ p <= 263 * 1024 ->
  file_ok d' tab rd s n.
Proof.
  intros HW [[_ Hl] Hm Hlk Hmap] Hs H1 H2. pose proof (inode_in_table c s n Hwf Hlog Hn) as Hin.
  pose proof (layout c s Hwf Hlog) as HL. destruct (wr_mode _ _ _ _ _ _ _ HW) as [Em El]. constructor.
  - split; [done|]. rewrite <- Hl. unfold map_bit, map_word. f_equal. f_equal. apply mem_read_ext. intros a Ha.
    apply (wr_meta _ _ _ _ _ _ _ HW); pose proof Hwf as Hg; geometry Hg; unfold imap_at in *;
      assert (0 <= n / 16 * 2 <= s_imap_blocks s * 1024 - 2) by (Z.div_mod_to_equations; lia);
      unfold zmap_at in *; rewrite !wrap32_small in Ha by (rewrite ?wrap32_small; lia); lia.
  - by rewrite Em.
  - by rewrite El.
  - apply mapped_mapping_ok; [apply HW|..]; rewrite (wr_size _ _ _ _ _ _ _ HW); [|lia].
    pose proof (mo_max _ _ _ Hmap). lia.
Qed.

End Fragment.

Section WriteInode.
Context {E : Type} `{DSK : Disk E} {rd wr : fptr} {cap : Z} `{SPEC : !DiskSpec E rd wr cap}.

(** C12. Writing a file.  When [cp32_fs_write_inode] reports all [count] bytes
    written, the file holds them at [offset]; its size is the larger of its old
    size and the end of the write; every other byte below the old size is
    unchanged and the bytes between the old end and [offset] are zero; the
    inode is a sound regular file again, its blocks all live and distinct; and
    outside the file nothing has changed but the zone map, in which exactly the
    new blocks of the file, free before, have been reserved.  The count reported
    is never zero and never more than [count]. *)
Theorem write_inode_exact c s n w offset bytes count :
  super_wf c s -> c <= cap -> cap < 4294967296 -> 1 <= n <= s_ninodes s -> fs_coh w ->
  trimmed rd s n (fs_data w) -> lenZ bytes = count -> Forall is_byte bytes -> 0 < count -> 0 <= offset ->
  match cp32_fs_write_inode rd wr s n offset (Some bytes) count w with
  | (Ok r, w') => 0 < r <= count /\
      (r = count -> exists d, at_data d (fs_statics w) w' /\
         wrote rd s n (fs_data w) d offset bytes /\ file_ok d (fs_tab w) rd s n)
  | (Err _, _) => True
  end.
Proof.
  intros Hwf Hcc Hcap Hn Hw Ht Hlen Hbs Hcnt Ho. set (d := fs_data w) in *. unfold cp32_fs_write_inode, write_inode.
  rewrite bind_guard. destruct (_ || _); [done|]. rewrite bind_guard. destruct (truthy (s_log_zone_size s)) eqn:El; [done|].
  apply truthy_false in El. rewrite bind_guard. destruct (_ || _) eqn:Eg; [done|].
  apply orb_false_iff in Eg as [[[G1%Z.ltb_ge G2%Z.ltb_ge]%orb_false_iff G3%Z.ltb_ge]%orb_false_iff G4%Z.ltb_ge].
  pose proof Hwf as Hg. geometry Hg. rewrite wrap32_small in G2, G4 by lia.
  assert (Hb : forall a, is_byte (d a)) by (intros a; apply dk_data_byte).
  pose proof (write_loop_spec c s n (fs_statics w) Hwf Hcc Hcap El Hn d offset bytes count Ht Hlen Hbs Ho
    ltac:(lia) (S (Z.to_nat count)) 0 w d ltac:(by split) eq_refl ltac:(lia) ltac:(lia)) as HL. change (default [] (Some bytes)) with bytes.
  match type of HL with match ?l with _ => _ end => destruct l as [[e|r] w']; [done|] end.
  destruct HL as (H1 & H2 & H3). split; [auto with lia|]. intros Hr. destruct (H3 Hr) as (d2 & Hd2 & Hp).
  exists d2. split; [done|]. unfold progress in Hp. rewrite (proj2 (Z.eqb_neq count 0)) in Hp by lia.
  rewrite take_ge in Hp by (unfold lenZ in *; lia). destruct Hp as (Hf & Hs & HW). split; [done|].
  eapply wrote_file_ok; try done; lia.
Qed.
End WriteInode.

(** ** Witness: four bytes over the end of the first block of the file "a",
    whose second block is a hole *)
Lemma demo_write :
  fst (cp32_fs_write_inode MD_READ MD_WRITE Demo.super 4 1022 (Some [1; 2; 3; 4]) 4 Demo.state) = Ok 4.
Proof. vm_compute. reflexivity. Qed.

Lemma demo_trimmed :
  trimmed MD_READ Demo.super 4 (fs_data (rd := MD_READ) (wr := MD_WRITE) (cap := 65536) Demo.state).
Proof.
  intros i Hi Hs. change (f_size _) with 1030 in Hs.
  destruct (Z.lt_ge_cases i 7) as [H7|H7].
  - assert (i = 2 \/ i = 3 \/ i = 4 \/ i = 5 \/ i = 6) as Hc by lia.
    destruct Hc as [->|[->|[->|[->| ->]]]]; vm_compute; reflexivity.
  - rewrite block_table by lia. reflexivity.
Qed.

Lemma write_inode_exact_witness :
  exists d', wrote MD_READ Demo.super 4 (fs_data (rd := MD_READ) (wr := MD_WRITE) (cap := 65536) Demo.state)
    d' 1022 [1; 2; 3; 4].
Proof.
  pose proof (write_inode_exact (rd := MD_READ) (wr := MD_WRITE) (cap := 65536) 65536 Demo.super 4 Demo.state 1022 [1; 2; 3; 4] 4
    demo_super_wf ltac:(lia) ltac:(lia) ltac:(vm_compute; split; discriminate) demo_coh demo_trimmed
    ltac:(vm_compute; reflexivity) ltac:(repeat constructor; lia) ltac:(lia) ltac:(lia)) as H.
  rewrite (run_ok _ _ _ demo_write) in H. destruct H as [_ H]. destruct (H eq_refl) as (d' & _ & Hw & _). by exists d'.
Defined.
