(* ===== verification/Dirent.v ===== *)
(** * Directory updates and node creation: src/src/fs/create.c and write.c

    Locating an entry for mutation, storing entries, creating files and
    directories, appending to a file and patching one in place. *)
From S2P Require Import Prelude Codec FsTypes FdTable MemDisk Super Timestamp Inode Read Path.
From S2P Require Import Bitmap Zones.

Section Dirent.
Context {E : Type} `{DSK : Disk E}.
Abbreviation FM := (M (fsw E)).

(** The [map] that [directory_address] builds. *)
Definition address_mapping (dir : cp32_minix_dir) : cp32_minix_file :=
  {| f_read := d_read dir; f_size := 0; f_position := 0; f_zone_bytes := 1024;
     f_zones := d_zones dir; f_super := d_super dir; f_indirect := d_indirect dir;
     f_double_indirect := 0; f_inode := 0 |}.

(** [static int directory_address(dir, slot, address)] *)
Definition directory_address (dir : cp32_minix_dir) (slot : Z) : FM Z :=
  zone <- cp32_fs_read_map (address_mapping dir) (slot / 1024) ;;
  guard (zone =? 0) (- CP32_SUPER_INVALID) ;;;
  ret (zone *u 1024 +u slot mod 1024).

(** [static int directory_store(write, dir, number, slot, entry)] *)
Definition directory_store (write : fptr) (dir : cp32_minix_dir) (number slot : Z)
    (entry : list Z) : FM unit :=
  address <- directory_address dir slot ;;
  store write address entry ;;;
  cp32_fs_inode_time (d_read dir) (d_super dir) number 6.

(** [static int directory_capacity(read, write, dir, number, slot)]: the directory
    as the caller sees it afterwards. *)
Definition directory_capacity (read write : fptr) (dir : cp32_minix_dir) (number slot : Z)
  : FM cp32_minix_dir :=
  if slot <? d_size dir then ret dir else
  guard ((263 * 1024 - 16 <? slot) || (s_max_size (d_super dir) <? slot +u 16))
        (- CP32_FILE_NOSPACE) ;;;
  if truthy (slot mod 1024) then ret dir else
  r <- write_inode read write (d_super dir) number slot (Some (zeros 16)) 16 true ;;
  guard (r !=? 16) (if r <? 0 then r else - CP32_SUPER_IO) ;;;
  cp32_fs_open_directory read (d_super dir) number.

(** The final component: the characters after the last slash. *)
Definition last_component (path : list Z) : list Z :=
  drop (length path - span_name (rev path)) path.
Definition parent_path (path : list Z) : list Z :=
  match take (length path - span_name (rev path)) path with
  | [] => [SLASH]
  | p => p
  end.

(** [raw] holds the entry [name] (lines 106-107). *)
Definition slot_holds (name raw : list Z) : bool :=
  bool_decide (take (length name) (ptr_add raw 2) = name) &&
  ((lenZ name =? 14) || (nthZ raw (2 + lenZ name) =? 0)).

(** One turn of the scan (lines 101-108); the state is [at] and [*slot], the
    result [*slot] and [*found]. *)
Definition location_turn (read : fptr) (dir : cp32_minix_dir) (name : list Z) (st : Z * Z)
  : FM (turn (Z * Z) (Z * Z)) :=
  let (at_, slot) := st in
  if at_ <? d_size dir then
    address <- directory_address dir at_ ;;
    raw <- read_or (- CP32_SUPER_IO) read address 16 ;;
    let ino := cp32_fs_u16 raw (s_swapped (d_super dir)) in
    if ino =? 0
    then ret (Continue (at_ +u 16, if slot =? d_size dir then at_ else slot))
    else if slot_holds name raw then ret (Break (at_, ino))
    else ret (Continue (at_ +u 16, slot))
  else ret (Break (slot, 0)).

Record location := Location {
  l_dir : cp32_minix_dir; l_parent : Z; l_name : list Z; l_slot : Z; l_found : Z }.

(** [static int mutation_location(read, capacity, path, dir, parent_inode, name, slot, found)] *)
Definition mutation_location (read : fptr) (capacity : Z) (path : option (list Z))
  : FM location :=
  match path with
  | None => fail (- CP32_FILE_NAME)
  | Some path =>
    guard ((CP32_MINIX_PATH_MAX <? lenZ path) || negb (forallb printable path))
          (- CP32_FILE_NAME) ;;;
    let name := last_component path in
    guard ((lenZ name =? 0) || (14 <? lenZ name) || bool_decide (name = [DOT]) ||
           bool_decide (name = [DOT; DOT])) (- CP32_FILE_NAME) ;;;
    x <- cp32_fs_resolve_path read capacity (Some (parent_path path)) ;;
    dir <- cp32_fs_open_directory read (fst x) (snd x) ;;
    guard (truthy (s_log_zone_size (d_super dir))) (- CP32_SUPER_UNSUPPORTED) ;;;
    r <- loop (Z.to_nat (d_size dir / 16)) (location_turn read dir name)
           (fun st => ret (snd st, 0)) (32, d_size dir) ;;
    ret (Location dir (snd x) name (fst r) (snd r))
  end.

(** A 16-byte entry for [ino] named [name]. *)
Definition make_entry (ino : Z) (name : list Z) (swap : Z) : list Z :=
  splice (put16 (zeros 16) 0 ino swap) 2 name.

(** The publication of a longer directory after an entry was added at its end
    (lines 182-186, 465-469 and 612-616). *)
Definition publish_size (read write : fptr) (dir : cp32_minix_dir) (parent_inode slot : Z)
    (parent : list Z) : FM unit :=
  let s := d_super dir in
  if slot =? d_size dir then
    parent <- cp32_fs_stamp read parent 12 (s_swapped s) 6 ;;
    store write (inode_offset s parent_inode)
          (put32 parent 8 (d_size dir +u 16) (s_swapped s))
  else ret tt.

(** The zone reserved for a new node: lines 138-141 and 144-147. *)
Definition node_zone (read : fptr) (s : cp32_minix_super) (n : Z) : FM (Z * Z) :=
  if n =? 0 then ret (0, 0) else
  zbit <- find_free_bit read (zmap_offset s) 1 (s_zones s -u s_first_data_zone s) (s_swapped s) ;;
  ret (zbit, s_first_data_zone s +u zbit -u 1).

(** The first contents of a new node: lines 154-165. *)
Definition node_contents (write : fptr) (s : cp32_minix_super) (zone n ino parent_inode : Z)
    (bytes : list Z) (directory : bool) : FM unit :=
  (if n =? 0 then ret tt else zero_block write zone) ;;;
  if directory then
    let raw := updZ (put16 (zeros 64) 0 ino (s_swapped s)) 2 DOT in
    let raw := updZ (updZ (put16 raw 16 parent_inode (s_swapped s)) 18 DOT) 19 DOT in
    store write (zone *u 1024) (take 32 raw)
  else if n =? 0 then ret tt else store write (zone *u 1024) (take (Z.to_nat n) bytes).

(** The inode of a new node before its times are stamped: lines 166-168. *)
Definition node_inode (s : cp32_minix_super) (zone n mode : Z) (directory : bool) : list Z :=
  let sw := s_swapped s in
  let raw := put16 (zeros 64) 0
    (if directory then Z.lor S_IFDIR (Z.land mode 511) else 33188) sw in
  put32 (put32 (put16 raw 2 (if directory then 2 else 1) sw) 8 n sw) 24 zone sw.

(** [static int create_node(read, write, capacity, path, bytes, n, directory, mode)] *)
Definition create_node (read write : fptr) (capacity : Z) (path bytes : option (list Z))
    (n : Z) (directory : bool) (mode : Z) : FM Z :=
  guard ((read =? 0) || (write =? 0) || bool_decide (path = None) ||
         (negb directory && truthy n && bool_decide (bytes = None)) || (64 <? n))
        (- CP32_SUPER_INVALID) ;;;
  cache_invalidate ;;;
  l <- mutation_location read capacity path ;;
  let s := d_super (l_dir l) in
  guard (truthy (l_found l)) (- CP32_FILE_EXISTS) ;;;
  guard (s_max_size s <? n) (- CP32_SUPER_UNSUPPORTED) ;;;
  parent <- read_or (- CP32_SUPER_IO) read (inode_offset s (l_parent l)) 64 ;;
  guard (directory && (127 <=? cp32_fs_u16 (ptr_add parent 2) (s_swapped s)))
        (- CP32_SUPER_UNSUPPORTED) ;;;
  ino <- find_free_bit read 2048 1 (s_ninodes s) (s_swapped s) ;;
  node_zone read s n ;;;
  dir <- directory_capacity read write (l_dir l) (l_parent l) (l_slot l) ;;
  parent <- read_or (- CP32_SUPER_IO) read (inode_offset s (l_parent l)) 64 ;;
  let* (zbit, zone) := node_zone read s n in
  store write (inode_offset s ino) (zeros 64) ;;;
  reserve read write 2048 ino (s_swapped s) ;;;
  (if n =? 0 then ret tt else reserve read write (zmap_offset s) zbit (s_swapped s)) ;;;
  node_contents write s zone n ino (l_parent l) (default [] bytes) directory ;;;
  raw <- cp32_fs_stamp read (node_inode s zone n mode directory) 12 (s_swapped s) 7 ;;
  store write (inode_offset s ino) raw ;;;
  parent <- (if directory then
               let parent := put16 parent 2 (cp32_fs_u16 (ptr_add parent 2) (s_swapped s) + 1)
                               (s_swapped s) in
               store write (inode_offset s (l_parent l)) parent ;;;
               ret parent
             else ret parent) ;;
  directory_store write dir (l_parent l) (l_slot l) (make_entry ino (l_name l) (s_swapped s)) ;;;
  publish_size read write dir (l_parent l) (l_slot l) parent ;;;
  ret n.

Definition cp32_minix_create (read write : fptr) (capacity : Z) (path bytes : option (list Z))
    (n : Z) : FM Z := create_node read write capacity path bytes n false 420.

Definition cp32_minix_mkdir (read write : fptr) (capacity : Z) (path : option (list Z)) : FM unit :=
  create_node read write capacity path None 32 true 493 ;;; ret tt.

Definition cp32_minix_mkdir_mode (read write : fptr) (capacity : Z) (path : option (list Z))
    (mode : Z) : FM unit :=
  create_node read write capacity path None 32 true mode ;;; ret tt.

Definition cp32_minix_create_root (read write : fptr) (capacity : Z)
    (name bytes : option (list Z)) (n : Z) : FM Z :=
  match name with
  | None => fail (- CP32_SUPER_INVALID)
  | Some nm =>
    guard ((14 <? lenZ nm) || existsb (Z.eqb SLASH) nm) (- CP32_FILE_NAME) ;;;
    cp32_minix_create read write capacity name bytes n
  end.
End Dirent.
