(* ===== verification/Namespace.v ===== *)
(** * File and name operations: src/src/fs/create.c and write.c

    Append, truncate, link, unlink, rmdir, rename, move, chmod, copy and the
    in-place patch, on the allocator of Bitmap, the contents of Zones and the
    directory entries of Dirent. *)
From S2P Require Import Prelude Codec FsTypes FdTable MemDisk Super Timestamp Inode Read Path.
From S2P Require Import Bitmap Zones Dirent.

Section Namespace.
Context {E : Type} `{DSK : Disk E}.
Abbreviation FM := (M (fsw E)).

(** Lines 269-272 of [cp32_minix_append]: both new blocks cleared in step. *)
Definition append_clear (write : fptr) (newzone tbit table : Z) : FM unit :=
  for_ 16 0 (fun k _ =>
    store write (newzone *u 1024 +u 64 * k) (zeros 64) ;;;
    if tbit =? 0 then ret tt else store write (table *u 1024 +u 64 * k) (zeros 64)) tt.

(** Lines 243-263: the new zone and table, [(zbit, newzone, tbit, table)]; all
    zero when the append stays inside the last zone. *)
Definition append_plan (read : fptr) (file : cp32_minix_file) (used next : Z)
  : FM (Z * Z * Z * Z) :=
  let s := f_super file in
  let count := s_zones s -u s_first_data_zone s in
  if next <=? used then ret (0, 0, 0, 0) else
  table <- (if used <? 7 then
              guard (truthy (nthZ (f_zones file) used)) (- CP32_SUPER_UNSUPPORTED) ;;;
              ret 0
            else if 7 <? used then
              guard (f_indirect file =? 0) (- CP32_SUPER_UNSUPPORTED) ;;;
              pointer <- read_or (- CP32_SUPER_IO) read
                           (f_indirect file *u 1024 +u (used - 7) * 4) 4 ;;
              guard (truthy (cp32_fs_u32 pointer (s_swapped s))) (- CP32_SUPER_UNSUPPORTED) ;;;
              ret (f_indirect file)
            else ret 0) ;;
  guard ((used =? 7) && truthy (f_indirect file)) (- CP32_SUPER_UNSUPPORTED) ;;;
  zbit <- find_free_bit read (zmap_offset s) 1 count (s_swapped s) ;;
  let newzone := s_first_data_zone s +u zbit -u 1 in
  if used =? 7 then
    tbit <- find_free_bit read (zmap_offset s) (zbit +u 1) count (s_swapped s) ;;
    ret (zbit, newzone, tbit, s_first_data_zone s +u tbit -u 1)
  else ret (zbit, newzone, 0, table).

(** Lines 274-282: the data, in sector fragments. *)
Definition append_data (write : fptr) (size n used oldzone newzone : Z) (bytes : list Z)
  : FM unit :=
  loop (S (Z.to_nat n)) (fun done_ =>
    if done_ <? n then
      let position := size +u done_ in
      let zone := if position / 1024 <? used then oldzone else newzone in
      let chunk := n - done_ in
      let chunk := if 512 - position mod 512 <? chunk then 512 - position mod 512 else chunk in
      store write (zone *u 1024 +u position mod 1024)
            (take (Z.to_nat chunk) (drop (Z.to_nat done_) bytes)) ;;;
      ret (Continue (done_ + chunk))
    else ret (Break tt)) (fun _ => ret tt) 0.

(** [int cp32_minix_append(read, write, capacity, path, bytes, n)] *)
Definition cp32_minix_append (read write : fptr) (capacity : Z) (path bytes : option (list Z))
    (n : Z) : FM Z :=
  guard ((read =? 0) || (write =? 0) || bool_decide (path = None) ||
         bool_decide (bytes = None) || (n =? 0) || (64 <? n)) (- CP32_SUPER_INVALID) ;;;
  cache_invalidate ;;;
  info <- cp32_minix_stat read capacity path nonnull ;;
  guard (Z.land (st_mode info) S_IFMT !=? S_IFREG) (- CP32_FILE_IS_DIR) ;;;
  guard (truthy (Z.land (st_mode info) 73)) (- CP32_SUPER_UNSUPPORTED) ;;;
  file <- cp32_minix_file_open read capacity path nonnull ;;
  let s := f_super file in
  guard (truthy (s_log_zone_size s) || (263 * 1024 <? f_size file) ||
         (263 * 1024 -u f_size file <? n) || (s_max_size s <? f_size file) ||
         (s_max_size s -u f_size file <? n)) (- CP32_SUPER_UNSUPPORTED) ;;;
  let size := f_size file +u n in
  let used := (f_size file +u 1023) / 1024 in
  let next := (size +u 1023) / 1024 in
  let itable := inode_offset s (f_inode file) in
  raw <- read_or (- CP32_SUPER_IO) read itable 64 ;;
  raw <- cp32_fs_stamp read raw 12 (s_swapped s) 6 ;;
  oldzone <- (if truthy (f_size file mod 1024) then
                oldzone <- cp32_fs_read_map file (used - 1) ;;
                guard (oldzone =? 0) (- CP32_SUPER_UNSUPPORTED) ;;;
                ret oldzone
              else ret 0) ;;
  let* (zbit, newzone, tbit, table) := append_plan read file used next in
  (if zbit =? 0 then ret tt else
     reserve read write (zmap_offset s) zbit (s_swapped s) ;;;
     (if tbit =? 0 then ret tt
      else reserve read write (zmap_offset s) tbit (s_swapped s)) ;;;
     append_clear write newzone tbit table) ;;;
  append_data write (f_size file) n used oldzone newzone (default [] bytes) ;;;
  raw <- (if zbit =? 0 then ret raw
          else if used <? 7 then ret (put32 raw (24 + used * 4) newzone (s_swapped s))
          else store write (table *u 1024 +u (used - 7) * 4)
                     (put32 (zeros 4) 0 newzone (s_swapped s)) ;;;
               ret (if tbit =? 0 then raw else put32 raw 52 table (s_swapped s))) ;;
  store write itable (put32 raw 8 size (s_swapped s)) ;;;
  ret n.

(** [int cp32_minix_truncate(read, write, capacity, path, length)] *)
Definition cp32_minix_truncate (read write : fptr) (capacity : Z) (path : option (list Z))
    (length : Z) : FM unit :=
  info <- cp32_minix_stat read capacity path nonnull ;;
  guard (truthy (Z.land (st_mode info) 73)) (- CP32_SUPER_UNSUPPORTED) ;;;
  cp32_fs_truncate_inode read write capacity (st_inode info) length.

(** [int cp32_minix_link(read, write, capacity, path, destination)] *)
Definition cp32_minix_link (read write : fptr) (capacity : Z) (path destination : option (list Z))
  : FM unit :=
  guard ((read =? 0) || (write =? 0) || bool_decide (path = None) ||
         bool_decide (destination = None)) (- CP32_SUPER_INVALID) ;;;
  cache_invalidate ;;;
  info <- cp32_minix_stat read capacity path nonnull ;;
  guard (Z.land (st_mode info) S_IFMT !=? S_IFREG) (- CP32_FILE_IS_DIR) ;;;
  guard ((st_links info =? 0) || (127 <=? st_links info)) (- CP32_FILE_LINK_LIMIT) ;;;
  l <- mutation_location read capacity destination ;;
  let s := d_super (l_dir l) in
  guard (truthy (l_found l)) (- CP32_FILE_EXISTS) ;;;
  dir <- directory_capacity read write (l_dir l) (l_parent l) (l_slot l) ;;
  inode <- read_or (- CP32_SUPER_IO) read (inode_offset s (st_inode info)) 64 ;;
  parent <- read_or (- CP32_SUPER_IO) read (inode_offset s (l_parent l)) 64 ;;
  inode <- cp32_fs_stamp read inode 12 (s_swapped s) 4 ;;
  store write (inode_offset s (st_inode info))
        (put16 inode 2 (st_links info + 1) (s_swapped s)) ;;;
  directory_store write dir (l_parent l) (l_slot l)
    (make_entry (st_inode info) (l_name l) (s_swapped s)) ;;;
  publish_size read write dir (l_parent l) (l_slot l) parent.

(** [int cp32_minix_link_root(read, write, capacity, path, name)] *)
Definition cp32_minix_link_root (read write : fptr) (capacity : Z) (path name : option (list Z))
  : FM unit :=
  match name with
  | None => fail (- CP32_SUPER_INVALID)
  | Some name =>
    guard ((14 <? lenZ name) || existsb (Z.eqb SLASH) name) (- CP32_FILE_NAME) ;;;
    cp32_minix_link read write capacity path (Some (SLASH :: name))
  end.

(** Lines 527-535: one entry of a directory that must hold only dot names. *)
Definition rmdir_entry (read : fptr) (s : cp32_minix_super) (inode parent_inode at_ : Z)
  : FM unit :=
  zone <- shrink_at (at_ / 1024) ;;
  guard (zone =? 0) (- CP32_SUPER_INVALID) ;;;
  entry <- read_or (- CP32_SUPER_IO) read (zone *u 1024 +u at_ mod 1024) 16 ;;
  let word := cp32_fs_u16 entry (s_swapped s) in
  if 32 <=? at_ then guard (truthy word) (- CP32_FILE_NOT_EMPTY) else
  guard ((word !=? (if at_ =? 0 then inode else parent_inode)) || (nthZ entry 2 !=? DOT) ||
         (nthZ entry 3 !=? (if at_ =? 0 then 0 else DOT))) (- CP32_SUPER_INVALID) ;;;
  guard (existsb truthy (ptr_add entry (if at_ =? 0 then 3 else 4))) (- CP32_SUPER_INVALID).

(** Lines 523-541: the emptiness of a directory and its parent's new link count,
    with its address. *)
Definition rmdir_check (read : fptr) (s : cp32_minix_super) (info : FsTypes.cp32_minix_stat)
    (parent_inode : Z) : FM (Z * list Z) :=
  first <- shrink_at 0 ;;
  guard (first =? 0) (- CP32_SUPER_INVALID) ;;;
  for_ (Z.to_nat ((st_size info + 15) / 16)) 0 (fun k _ =>
    rmdir_entry read s (st_inode info) parent_inode (16 * k)) tt ;;;
  let parent_at := inode_offset s parent_inode +u 2 in
  parent_links <- read_or (- CP32_SUPER_IO) read parent_at 2 ;;
  let word := cp32_fs_u16 parent_links (s_swapped s) in
  guard (word <? 3) (- CP32_SUPER_INVALID) ;;;
  ret (parent_at, put16 parent_links 0 (word - 1) (s_swapped s)).

(** Lines 513-516: [cwd] is given and some descriptor holds the inode open. *)
Definition busy_open (read : fptr) (number : Z) (t : fdtab) : bool :=
  existsb (fun fd => match cp32_fd_file t fd with
                     | Some slot => (f_read (file_at t slot) =? read) &&
                                    (f_inode (file_at t slot) =? number)
                     | None => false
                     end) slots.

(** [held = cp32_fd_defer_unlink(read, write, info.inode)] *)
Definition defer_unlink (read write : fptr) (number : Z) : FM Z :=
  fun w => let (held, t) := cp32_fd_defer_unlink (fs_tab w) read write number in
           (Ok held, set_tab t w).

(** [static int remove_node(read, write, capacity, path, cwd)] *)
Definition remove_node (read write : fptr) (capacity : Z) (path cwd : option (list Z))
  : FM unit :=
  guard ((read =? 0) || (write =? 0) || bool_decide (path = None)) (- CP32_SUPER_INVALID) ;;;
  cache_invalidate ;;;
  l <- mutation_location read capacity path ;;
  let s := d_super (l_dir l) in
  guard (l_found l =? 0) (- CP32_FILE_NOT_FOUND) ;;;
  info <- cp32_minix_stat read capacity path nonnull ;;
  let is_rmdir := match cwd with Some _ => true | None => false end in
  (match cwd with
   | Some _ =>
     guard (Z.land (st_mode info) S_IFMT !=? S_IFDIR) (- CP32_FILE_NOT_DIR) ;;;
     working <- cp32_minix_stat read capacity cwd nonnull ;;
     guard ((st_inode info =? 1) || (st_inode info =? st_inode working)) (- CP32_FILE_BUSY) ;;;
     guard (st_links info !=? 2) (- CP32_FILE_NOT_EMPTY) ;;;
     guard ((st_size info <? 32) || truthy (st_size info mod 16)) (- CP32_SUPER_INVALID)
   | None => guard (Z.land (st_mode info) S_IFMT !=? S_IFREG) (- CP32_FILE_IS_DIR)
   end) ;;;
  guard (st_links info =? 0) (- CP32_SUPER_INVALID) ;;;
  busy <- gets (fun w => busy_open read (st_inode info) (fs_tab w)) ;;
  guard (is_rmdir && busy) (- CP32_FILE_BUSY) ;;;
  let itable := inode_offset s (st_inode info) in
  inode <- read_or (- CP32_SUPER_IO) read itable 64 ;;
  (if is_rmdir || (st_links info =? 1) then
     guard (263 * 1024 <? st_size info) (- CP32_SUPER_UNSUPPORTED) ;;;
     snapshot_zones read s inode
   else ret tt) ;;;
  parent <- (if is_rmdir then rmdir_check read s info (l_parent l) else ret (0, [])) ;;
  held <- (if negb is_rmdir && (st_links info =? 1)
           then defer_unlink read write (st_inode info) else ret 0) ;;
  directory_store write (l_dir l) (l_parent l) (l_slot l) (zeros 16) ;;;
  if negb is_rmdir && ((1 <? st_links info) || truthy held) then
    inode <- cp32_fs_stamp read inode 12 (s_swapped s) 4 ;;
    store write itable (put16 inode 2 (st_links info - 1) (s_swapped s))
  else
    store write itable (zeros 64) ;;;
    (if is_rmdir then store write (fst parent) (snd parent) else ret tt) ;;;
    release_inode read write s (st_inode info).

Definition cp32_minix_unlink (read write : fptr) (capacity : Z) (path : option (list Z))
  : FM unit := remove_node read write capacity path None.

Definition cp32_minix_rmdir (read write : fptr) (capacity : Z) (path cwd : option (list Z))
  : FM unit :=
  match cwd with
  | Some _ => remove_node read write capacity path cwd
  | None => fail (- CP32_SUPER_INVALID)
  end.

(** Lines 602-620 of [cp32_minix_rename]: across directories. *)
Definition rename_across (read write : fptr) (old new : location) (info : FsTypes.cp32_minix_stat)
    (entry : list Z) : FM unit :=
  let s := d_super (l_dir old) in
  guard ((st_links info =? 0) || (127 <=? st_links info)) (- CP32_FILE_LINK_LIMIT) ;;;
  newdir <- directory_capacity read write (l_dir new) (l_parent new) (l_slot new) ;;
  let at_ := inode_offset s (l_found old) in
  inode <- read_or (- CP32_SUPER_IO) read at_ 64 ;;
  parent <- read_or (- CP32_SUPER_IO) read (inode_offset s (l_parent new)) 64 ;;
  inode <- cp32_fs_stamp read inode 12 (s_swapped s) 4 ;;
  let inode := put16 inode 2 (st_links info + 1) (s_swapped s) in
  store write at_ inode ;;;
  directory_store write newdir (l_parent new) (l_slot new) entry ;;;
  publish_size read write newdir (l_parent new) (l_slot new) parent ;;;
  directory_store write (l_dir old) (l_parent old) (l_slot old) (zeros 16) ;;;
  store write at_ (put16 inode 2 (st_links info) (s_swapped s)).

(** [int cp32_minix_rename(read, write, capacity, oldpath, newpath)] *)
Definition cp32_minix_rename (read write : fptr) (capacity : Z) (oldpath newpath : option (list Z))
  : FM unit :=
  guard ((read =? 0) || (write =? 0)) (- CP32_SUPER_INVALID) ;;;
  cache_invalidate ;;;
  old <- mutation_location read capacity oldpath ;;
  guard (l_found old =? 0) (- CP32_FILE_NOT_FOUND) ;;;
  info <- cp32_minix_stat read capacity oldpath nonnull ;;
  guard (Z.land (st_mode info) S_IFMT !=? S_IFREG) (- CP32_FILE_IS_DIR) ;;;
  new <- mutation_location read capacity newpath ;;
  if l_found new =? l_found old then ret tt else
  guard (truthy (l_found new)) (- CP32_FILE_EXISTS) ;;;
  let s := d_super (l_dir old) in
  let entry := make_entry (l_found old) (l_name new) (s_swapped s) in
  if l_parent old =? l_parent new then
    directory_store write (l_dir old) (l_parent old) (l_slot old) entry ;;;
    cp32_fs_inode_time read s (l_found old) 4
  else rename_across read write old new info entry.

(** [entry[2]=='.' && entry[3]=='.' && !entry[4]] *)
Definition is_dotdot (entry : list Z) : bool :=
  (nthZ entry 2 =? DOT) && (nthZ entry 3 =? DOT) && (nthZ entry 4 =? 0).

(** Lines 646-655: [np] must not lie below [oi]. *)
Definition ancestry (read : fptr) (s : cp32_minix_super) (oi np : Z) : FM unit :=
  loop (Z.to_nat (s_ninodes s)) (fun current =>
    guard (current =? oi) (- CP32_SUPER_INVALID) ;;;
    if current =? 1 then ret (Break tt) else
    ancestor <- cp32_fs_open_directory read s current ;;
    entry <- read_or (- CP32_SUPER_IO) read (nthZ (d_zones ancestor) 0 *u 1024 +u 16) 16 ;;
    guard (negb (is_dotdot entry)) (- CP32_SUPER_INVALID) ;;;
    ret (Continue (cp32_fs_u16 entry (s_swapped s))))
  (fun _ => fail (- CP32_SUPER_INVALID)) np.

(** Lines 641-660: the checks on a directory that moves; the directory itself. *)
Definition move_dir_check (read : fptr) (s : cp32_minix_super) (op oi np ni : Z)
  : FM cp32_minix_dir :=
  guard (oi =? 1) (- CP32_FILE_BUSY) ;;;
  child <- cp32_fs_open_directory read s oi ;;
  entry <- read_or (- CP32_SUPER_IO) read (nthZ (d_zones child) 0 *u 1024 +u 16) 16 ;;
  guard ((cp32_fs_u16 entry (s_swapped s) !=? op) || negb (is_dotdot entry))
        (- CP32_SUPER_INVALID) ;;;
  ancestry read s oi np ;;;
  (if op =? np then ret tt else
     parent <- cp32_fs_stat_inode read s np nonnull ;;
     guard ((127 <=? st_links parent) && (ni =? 0)) (- CP32_FILE_LINK_LIMIT)) ;;;
  ret child.

(** Lines 681-702: a directory changes its parent. *)
Definition move_across (read write : fptr) (old new : location) (child : cp32_minix_dir)
    (entry : list Z) : FM unit :=
  let s := d_super (l_dir old) in
  let np := l_parent new in
  newdir <- directory_capacity read write (l_dir new) np (l_slot new) ;;
  parent <- cp32_fs_stat_inode read s np nonnull ;;
  guard (127 <=? st_links parent) (- CP32_FILE_LINK_LIMIT) ;;;
  store write (inode_offset s np +u 2) (put16 (zeros 2) 0 (st_links parent + 1) (s_swapped s)) ;;;
  directory_store write newdir np (l_slot new) entry ;;;
  (if l_slot new =? d_size newdir
   then store write (inode_offset s np +u 8) (put32 (zeros 4) 0 (l_slot new +u 16) (s_swapped s))
   else ret tt) ;;;
  store write (nthZ (d_zones child) 0 *u 1024 +u 16) (put16 (zeros 2) 0 np (s_swapped s)) ;;;
  directory_store write (l_dir old) (l_parent old) (l_slot old) (zeros 16) ;;;
  parent <- cp32_fs_stat_inode read s (l_parent old) nonnull ;;
  guard (st_links parent <? 3) (- CP32_SUPER_INVALID) ;;;
  store write (inode_offset s (l_parent old) +u 2)
        (put16 (zeros 2) 0 (st_links parent - 1) (s_swapped s)) ;;;
  cp32_fs_inode_time read s (l_found old) 6.

(** [int cp32_minix_move(read, write, capacity, oldpath, newpath)] *)
Definition cp32_minix_move (read write : fptr) (capacity : Z) (oldpath newpath : option (list Z))
  : FM unit :=
  guard ((read =? 0) || (write =? 0)) (- CP32_FILE_READONLY) ;;;
  cache_invalidate ;;;
  old <- mutation_location read capacity oldpath ;;
  let s := d_super (l_dir old) in
  let oi := l_found old in
  guard (oi =? 0) (- CP32_FILE_NOT_FOUND) ;;;
  new <- mutation_location read capacity newpath ;;
  let ni := l_found new in
  if oi =? ni then ret tt else
  source <- cp32_fs_stat_inode read s oi nonnull ;;
  let isdir := Z.land (st_mode source) S_IFMT =? S_IFDIR in
  child <- (if isdir then child <- move_dir_check read s (l_parent old) oi (l_parent new) ni ;;
                          ret (Some child)
            else ret None) ;;
  guard (negb isdir && (l_parent old !=? l_parent new) && (127 <=? st_links source))
        (- CP32_FILE_LINK_LIMIT) ;;;
  (if ni =? 0 then ret tt else
     target <- cp32_fs_stat_inode read s ni nonnull ;;
     guard (isdir && (Z.land (st_mode target) S_IFMT !=? S_IFDIR)) (- CP32_FILE_NOT_DIR) ;;;
     guard (negb isdir && (Z.land (st_mode target) S_IFMT =? S_IFDIR)) (- CP32_FILE_IS_DIR) ;;;
     if isdir then cp32_minix_rmdir read write capacity newpath (Some [SLASH])
     else cp32_minix_unlink read write capacity newpath) ;;;
  match child with
  | None => cp32_minix_rename read write capacity oldpath newpath
  | Some child =>
    new <- mutation_location read capacity newpath ;;
    guard (truthy (l_found new)) (- CP32_SUPER_INVALID) ;;;
    let entry := make_entry oi (l_name new) (s_swapped s) in
    if l_parent old =? l_parent new then
      directory_store write (l_dir old) (l_parent old) (l_slot old) entry ;;;
      cp32_fs_inode_time read s oi 4
    else move_across read write old new child entry
  end.

(** [int cp32_fs_chmod_inode(read, write, super, number, mode)] *)
Definition cp32_fs_chmod_inode (read write : fptr) (super : option cp32_minix_super)
    (number mode : Z) : FM unit :=
  match super with
  | None => fail (- CP32_SUPER_INVALID)
  | Some super =>
    guard ((read =? 0) || (write =? 0) || (511 <? mode)) (- CP32_SUPER_INVALID) ;;;
    cache_invalidate ;;;
    info <- cp32_fs_stat_inode read super number nonnull ;;
    let next := Z.lor (Z.land (st_mode info) (not32 4095)) mode in
    if next =? st_mode info then cp32_fs_inode_time read super number 4 else
    store write (inode_offset super number) (put16 (zeros 2) 0 next (s_swapped super)) ;;;
    cp32_fs_inode_time read super number 4
  end.

(** [int cp32_minix_chmod(read, write, capacity, path, mode)] *)
Definition cp32_minix_chmod (read write : fptr) (capacity : Z) (path : option (list Z)) (mode : Z)
  : FM unit :=
  guard ((read =? 0) || (write =? 0) || bool_decide (path = None) || (511 <? mode))
        (- CP32_SUPER_INVALID) ;;;
  cache_invalidate ;;;
  x <- cp32_fs_resolve_path read capacity path ;;
  cp32_fs_chmod_inode read write (Some (fst x)) (snd x) mode.

(** The [while (file.position < file.size)] of [cp32_minix_copy]; a successful
    read never returns 0 here, so the error of line 750 needs no extra turn. *)
Definition copy_turn (read write : fptr) (capacity : Z) (destination : option (list Z))
    (file : cp32_minix_file) : FM (turn cp32_minix_file unit) :=
  if f_position file <? f_size file then
    x <- cp32_minix_file_read file nonnull 64 ;;
    let n := lenZ (fst x) in
    guard (n <=? 0) (- CP32_SUPER_IO) ;;;
    r <- cp32_minix_append read write capacity destination (Some (fst x)) n ;;
    guard (r !=? n) (- CP32_SUPER_IO) ;;;
    ret (Continue (snd x))
  else ret (Break tt).

(** [int cp32_minix_copy(read, write, capacity, source, destination)] *)
Definition cp32_minix_copy (read write : fptr) (capacity : Z) (source destination : option (list Z))
  : FM unit :=
  guard ((read =? 0) || (write =? 0) || bool_decide (source = None) ||
         bool_decide (destination = None)) (- CP32_SUPER_INVALID) ;;;
  cache_invalidate ;;;
  info <- cp32_minix_stat read capacity source nonnull ;;
  guard (Z.land (st_mode info) S_IFMT !=? S_IFREG) (- CP32_FILE_IS_DIR) ;;;
  guard (263 * 1024 <? st_size info) (- CP32_SUPER_UNSUPPORTED) ;;;
  file <- cp32_minix_file_open read capacity source nonnull ;;
  x <- cp32_minix_file_read file nonnull 64 ;;
  create_node read write capacity destination (Some (fst x)) (lenZ (fst x)) false 420 ;;;
  loop (S (Z.to_nat (f_size (snd x) - f_position (snd x))))
       (copy_turn read write capacity destination) (fun _ => ret tt) (snd x) ;;;
  cp32_minix_chmod read write capacity destination (Z.land (st_mode info) 511).

(** The validation loop of [cp32_minix_patch] (lines 23-32): the physical
    address and length of each fragment. *)
Definition patch_plan (file : cp32_minix_file) (capacity offset n : Z) : FM (list (Z * Z)) :=
  loop (S (Z.to_nat n)) (fun '(done_, plan) =>
    if done_ <? n then
      let position := offset +u done_ in
      let chunk := 512 - position mod 512 in
      let chunk := if n - done_ <? chunk then n - done_ else chunk in
      zone <- cp32_fs_read_map file (position / f_zone_bytes file) ;;
      guard (zone =? 0) (- CP32_SUPER_UNSUPPORTED) ;;;
      let physical := zone *u f_zone_bytes file +u position mod f_zone_bytes file in
      guard ((capacity <? physical) || (capacity -u physical <? chunk)) (- CP32_SUPER_INVALID) ;;;
      ret (Continue (done_ + chunk, plan ++ [(physical, chunk)]))
    else ret (Break plan)) (fun st => ret (snd st)) (0, []).

(** The write loop (lines 33-40). *)
Fixpoint patch_write (write : fptr) (plan : list (Z * Z)) (bytes : list Z) : FM unit :=
  match plan with
  | [] => ret tt
  | (physical, length) :: plan =>
    cache_invalidate ;;;
    r <- call_write write physical (take (Z.to_nat length) bytes) ;;
    cache_invalidate ;;;
    guard (r !=? length) (- CP32_SUPER_IO) ;;;
    patch_write write plan (drop (Z.to_nat length) bytes)
  end.

(** [int cp32_minix_patch(read, write, capacity, path, offset, bytes, n)] *)
Definition cp32_minix_patch (read write : fptr) (capacity : Z) (path : option (list Z))
    (offset : Z) (bytes : option (list Z)) (n : Z) : FM Z :=
  guard ((read =? 0) || (write =? 0) || bool_decide (path = None) ||
         bool_decide (bytes = None) || (n =? 0) || (64 <? n)) (- CP32_SUPER_INVALID) ;;;
  cache_invalidate ;;;
  info <- cp32_minix_stat read capacity path nonnull ;;
  guard (Z.land (st_mode info) S_IFMT !=? S_IFREG) (- CP32_FILE_IS_DIR) ;;;
  guard (truthy (Z.land (st_mode info) 73)) (- CP32_SUPER_UNSUPPORTED) ;;;
  file <- cp32_minix_file_open read capacity path nonnull ;;
  guard ((f_size file <? offset) || (f_size file -u offset <? n)) (- CP32_SUPER_INVALID) ;;;
  plan <- patch_plan file capacity offset n ;;
  patch_write write plan (take (Z.to_nat n) (default [] bytes)) ;;;
  cp32_fs_data_time file 6 ;;;
  ret n.
End Namespace.
