(* ===== verification/Filedes.v ===== *)
(** * Descriptor operations: src/src/fs/filedes.c and [cp32_fd_fstat] of stadir.c

    Eight descriptors refer to eight open-file descriptions, each with a
    reference count and a shared offset. *)
From S2P Require Import Prelude Codec FsTypes FdTable MemDisk Super Timestamp Inode Read Path.
From S2P Require Import Bitmap Zones Dirent Namespace.

(** ** Assignments to the static tables *)
Definition t_set_file (i : Z) (f : cp32_minix_file) (t : fdtab) : fdtab :=
  Fdtab (updZ (t_files t) i f) (t_references t) (t_directories t) (t_descriptors t)
        (t_descriptor_flags t) (t_status_flags t) (t_writers t) (t_pending_unlink t).
Definition t_set_reference (i x : Z) (t : fdtab) : fdtab :=
  Fdtab (t_files t) (updZ (t_references t) i x) (t_directories t) (t_descriptors t)
        (t_descriptor_flags t) (t_status_flags t) (t_writers t) (t_pending_unlink t).
Definition t_set_directory (i x : Z) (t : fdtab) : fdtab :=
  Fdtab (t_files t) (t_references t) (updZ (t_directories t) i x) (t_descriptors t)
        (t_descriptor_flags t) (t_status_flags t) (t_writers t) (t_pending_unlink t).
Definition t_set_descriptor (i x : Z) (t : fdtab) : fdtab :=
  Fdtab (t_files t) (t_references t) (t_directories t) (updZ (t_descriptors t) i x)
        (t_descriptor_flags t) (t_status_flags t) (t_writers t) (t_pending_unlink t).
Definition t_set_dflag (i x : Z) (t : fdtab) : fdtab :=
  Fdtab (t_files t) (t_references t) (t_directories t) (t_descriptors t)
        (updZ (t_descriptor_flags t) i x) (t_status_flags t) (t_writers t) (t_pending_unlink t).
Definition t_set_status (i x : Z) (t : fdtab) : fdtab :=
  Fdtab (t_files t) (t_references t) (t_directories t) (t_descriptors t)
        (t_descriptor_flags t) (updZ (t_status_flags t) i x) (t_writers t) (t_pending_unlink t).
Definition t_set_writer (i : Z) (x : fptr) (t : fdtab) : fdtab :=
  Fdtab (t_files t) (t_references t) (t_directories t) (t_descriptors t)
        (t_descriptor_flags t) (t_status_flags t) (updZ (t_writers t) i x) (t_pending_unlink t).
Definition t_set_pending (i x : Z) (t : fdtab) : fdtab :=
  Fdtab (t_files t) (t_references t) (t_directories t) (t_descriptors t)
        (t_descriptor_flags t) (t_status_flags t) (t_writers t) (updZ (t_pending_unlink t) i x).

(** The scan [for (i = 0; i < CP32_OPEN_MAX; i++) if (!table[i]) break;] *)
Fixpoint first_zero (l : list Z) (i : Z) : Z :=
  match l with
  | [] => i
  | x :: l => if x =? 0 then i else first_zero l (i + 1)
  end.

(** [descriptors[fd] - 1] and the description's status flags and position. *)
Definition slot_of_fd (t : fdtab) (fd : Z) : Z := nthZ (t_descriptors t) fd - 1.
Definition access_of (t : fdtab) (slot : Z) : Z := Z.land (nthZ (t_status_flags t) slot) 3.

Section Filedes.
Context {E : Type} `{DSK : Disk E}.
Abbreviation FM := (M (fsw E)).

Definition tab : FM fdtab := gets fs_tab.
Definition update (f : fdtab -> fdtab) : FM unit := modify (fun w => set_tab (f (fs_tab w)) w).

(** [struct cp32_minix_file *f = get_file(fd); if (!f) return -CP32_FILE_BAD_FD;] *)
Definition need_file (fd : Z) : FM Z :=
  t <- tab ;;
  match get_file t fd with
  | Some slot => ret slot
  | None => fail (- CP32_FILE_BAD_FD)
  end.

Definition file_of (slot : Z) : FM cp32_minix_file := gets (fun w => file_at (fs_tab w) slot).

(** The directory stored as an open description (lines 49-57). *)
Definition dir_file (read : fptr) (super : cp32_minix_super) (number : Z) (dir : cp32_minix_dir)
  : cp32_minix_file :=
  {| f_read := read; f_size := d_size dir; f_position := 0;
     f_zone_bytes := 1024 <<u s_log_zone_size super; f_zones := d_zones dir; f_super := super;
     f_indirect := d_indirect dir; f_double_indirect := 0; f_inode := number |}.

(** [int cp32_fd_open(read, capacity, path)] *)
Definition cp32_fd_open (read : fptr) (capacity : Z) (path : option (list Z)) : FM Z :=
  t <- tab ;;
  let fd := first_zero (t_descriptors t) 0 in
  guard (fd =? CP32_OPEN_MAX) (- CP32_FILE_LIMIT) ;;;
  let slot := first_zero (t_references t) 0 in
  guard (slot =? CP32_OPEN_MAX) (- CP32_FILE_LIMIT) ;;;
  x <- cp32_fs_resolve_path read capacity path ;;
  r <- try (cp32_fs_file_inode read (fst x) (snd x)) ;;
  directory <- match r with
    | Ok f => update (t_set_file slot f) ;;; ret 0
    | Err e =>
        guard (e !=? - CP32_FILE_IS_DIR) e ;;;
        dir <- cp32_fs_open_directory read (fst x) (snd x) ;;
        update (t_set_file slot (dir_file read (fst x) (snd x) dir)) ;;;
        ret 1
    end ;;
  update (t_set_pending slot 0) ;;;
  update (t_set_directory slot directory) ;;;
  update (t_set_reference slot 1) ;;;
  update (t_set_descriptor fd (slot + 1)) ;;;
  update (t_set_dflag fd 0) ;;;
  update (t_set_status slot CP32_O_RDONLY) ;;;
  ret fd.

(** [static int refresh(int fd)] *)
Definition refresh (fd : Z) : FM unit :=
  slot <- need_file fd ;;
  f <- file_of slot ;;
  t <- tab ;;
  if truthy (nthZ (t_directories t) slot) then
    dir <- cp32_fs_open_directory (f_read f) (f_super f) (f_inode f) ;;
    update (t_set_file slot
      {| f_read := f_read f; f_size := d_size dir; f_position := f_position f;
         f_zone_bytes := f_zone_bytes f; f_zones := d_zones dir; f_super := f_super f;
         f_indirect := d_indirect dir; f_double_indirect := f_double_indirect f;
         f_inode := f_inode f |})
  else
    next <- cp32_fs_file_inode (f_read f) (f_super f) (f_inode f) ;;
    update (t_set_file slot (f_set_position next (f_position f))).

(** [int cp32_fd_close(int fd)] *)
Definition cp32_fd_close (fd : Z) : FM unit :=
  slot <- need_file fd ;;
  f <- file_of slot ;;
  t <- tab ;;
  r <- (if truthy (nthZ (t_pending_unlink t) slot) &&
           (cp32_fd_inode_open t (f_read f) (f_inode f) =? 1)
        then try (cp32_fs_reap_inode (f_read f) (nthZ (t_writers t) slot) (f_super f) (f_inode f))
        else ret (Ok tt)) ;;
  update (fun t => t_set_reference slot (wrap8 (nthZ (t_references t) slot - 1)) t) ;;;
  update (t_set_descriptor fd 0) ;;;
  update (t_set_dflag fd 0) ;;;
  match r with Ok _ => ret tt | Err e => fail e end.

(** The validation of the open flags: lines 96-97. *)
Definition bad_open_flags (flags mode : Z) : bool :=
  let access := Z.land flags 3 in
  (access =? 3) || truthy (Z.land mode (not32 511)) ||
  truthy (Z.land flags (not32 (Z.lor 3 (Z.lor CP32_O_CREAT (Z.lor CP32_O_EXCL
    (Z.lor CP32_O_TRUNC (Z.lor CP32_O_APPEND CP32_O_NONBLOCK))))))) ||
  (truthy (Z.land flags CP32_O_TRUNC) && (access =? 0)) ||
  (truthy (Z.land flags CP32_O_EXCL) && negb (truthy (Z.land flags CP32_O_CREAT))).

(** [int cp32_fd_open_mode(read, write, capacity, path, flags, mode)] *)
Definition cp32_fd_open_mode (read write : fptr) (capacity : Z) (path : option (list Z))
    (flags mode : Z) : FM Z :=
  let access := Z.land flags 3 in
  guard (bad_open_flags flags mode) (- CP32_SUPER_INVALID) ;;;
  t <- tab ;;
  guard (first_zero (t_descriptors t) 0 =? CP32_OPEN_MAX) (- CP32_FILE_LIMIT) ;;;
  guard ((truthy access || truthy (Z.land flags CP32_O_CREAT)) && (write =? 0))
        (- CP32_FILE_READONLY) ;;;
  r <- try (cp32_minix_stat read capacity path nonnull) ;;
  match r with
  | Ok st =>
      let both := Z.lor CP32_O_CREAT CP32_O_EXCL in
      guard (Z.land flags both =? both) (- CP32_FILE_EXISTS) ;;;
      guard (Z.land (st_mode st) S_IFMT !=? S_IFREG) (- CP32_FILE_IS_DIR) ;;;
      guard (((access !=? CP32_O_WRONLY) && (Z.land (st_mode st) 292 =? 0)) ||
             (truthy access && (Z.land (st_mode st) 146 =? 0))) (- CP32_FILE_ACCESS)
  | Err e =>
      if (e =? - CP32_FILE_NOT_FOUND) && truthy (Z.land flags CP32_O_CREAT) then
        cp32_minix_create read write capacity path None 0 ;;;
        cp32_minix_chmod read write capacity path mode
      else fail e
  end ;;;
  fd <- cp32_fd_open read capacity path ;;
  (if truthy (Z.land flags CP32_O_TRUNC) then
     t <- tab ;;
     r <- try (cp32_fs_truncate_inode read write capacity
                 (f_inode (file_at t (slot_of_fd t fd))) 0) ;;
     match r with
     | Ok _ => ret tt
     | Err e => try (cp32_fd_close fd) ;;; fail e
     end
   else ret tt) ;;;
  t <- tab ;;
  let i := slot_of_fd t fd in
  update (t_set_writer i write) ;;;
  update (t_set_status i (Z.land flags (Z.lor 3 (Z.lor CP32_O_APPEND CP32_O_NONBLOCK)))) ;;;
  ret fd.

(** [!(status_flags[slot] & 3) || !writers[slot]] *)
Definition not_writable (t : fdtab) (slot : Z) : bool :=
  (access_of t slot =? 0) || (nthZ (t_writers t) slot =? 0).

(** [int cp32_fd_write(fd, bytes, count)] *)
Definition cp32_fd_write (fd : Z) (bytes : option (list Z)) (count : Z) : FM Z :=
  slot <- need_file fd ;;
  t <- tab ;;
  guard (not_writable t slot) (- CP32_FILE_BAD_FD) ;;;
  guard ((64 <? count) || (truthy count && bool_decide (bytes = None))) (- CP32_SUPER_INVALID) ;;;
  refresh fd ;;;
  if count =? 0 then ret 0 else
  t <- tab ;;
  let f := file_at t slot in
  let position := if truthy (Z.land (nthZ (t_status_flags t) slot) CP32_O_APPEND)
                  then f_size f else f_position f in
  r <- cp32_fs_write_inode (f_read f) (nthZ (t_writers t) slot) (f_super f) (f_inode f)
         position bytes count ;;
  (if 0 <? r then update (fun t =>
     t_set_file slot (f_set_position (file_at t slot) (position +u r)) t) else ret tt) ;;;
  ret r.

(** [int cp32_fd_truncate(fd, length)] *)
Definition cp32_fd_truncate (fd length : Z) : FM unit :=
  slot <- need_file fd ;;
  t <- tab ;;
  let f := file_at t slot in
  guard (not_writable t slot) (- CP32_FILE_BAD_FD) ;;;
  guard (truthy (nthZ (t_directories t) slot)) (- CP32_FILE_IS_DIR) ;;;
  cp32_fs_resize_inode (f_read f) (nthZ (t_writers t) slot)
    (s_zones (f_super f) *u f_zone_bytes f) (f_inode f) length.

(** [int cp32_fd_pread(fd, bytes, count, offset)] *)
Definition cp32_fd_pread (fd bytes count offset : Z) : FM (list Z) :=
  slot <- need_file fd ;;
  t <- tab ;;
  guard (access_of t slot =? CP32_O_WRONLY) (- CP32_FILE_BAD_FD) ;;;
  guard (truthy (nthZ (t_directories t) slot)) (- CP32_FILE_IS_DIR) ;;;
  guard ((64 <? count) || (0x7fffffff <? offset) || (0x7fffffff -u offset <? count))
        (- CP32_SUPER_INVALID) ;;;
  refresh fd ;;;
  f <- file_of slot ;;
  x <- cp32_minix_file_read (f_set_position f offset) bytes count ;;
  ret (fst x).

(** [int cp32_fd_pwrite(fd, bytes, count, offset)] *)
Definition cp32_fd_pwrite (fd : Z) (bytes : option (list Z)) (count offset : Z) : FM Z :=
  slot <- need_file fd ;;
  t <- tab ;;
  let f := file_at t slot in
  guard (not_writable t slot) (- CP32_FILE_BAD_FD) ;;;
  guard (truthy (nthZ (t_directories t) slot)) (- CP32_FILE_IS_DIR) ;;;
  guard ((64 <? count) || (0x7fffffff <? offset) || (0x7fffffff -u offset <? count) ||
         (truthy count && bool_decide (bytes = None))) (- CP32_SUPER_INVALID) ;;;
  if count =? 0 then ret 0 else
  cp32_fs_write_inode (f_read f) (nthZ (t_writers t) slot) (f_super f) (f_inode f) offset
    bytes count.

(** [int cp32_fd_read(fd, out, count)]: the bytes stored in [out]. *)
Definition cp32_fd_read (fd out count : Z) : FM (list Z) :=
  slot <- need_file fd ;;
  t <- tab ;;
  guard (access_of t slot =? CP32_O_WRONLY) (- CP32_FILE_BAD_FD) ;;;
  refresh fd ;;;
  file <- file_of slot ;;
  (if truthy (nthZ (t_directories t) slot) && truthy count && (f_position file <? f_size file)
   then guard (out =? 0) (- CP32_SUPER_INVALID) ;;;
        zone <- cp32_fs_read_map file (f_position file / f_zone_bytes file) ;;
        guard (zone =? 0) (- CP32_SUPER_INVALID)
   else ret tt) ;;;
  x <- cp32_minix_file_read file out count ;;
  update (t_set_file slot (snd x)) ;;;
  ret (fst x).

(** The directory state of an open description (lines 245-250). *)
Definition file_dir (file : cp32_minix_file) : cp32_minix_dir :=
  {| d_super := f_super file; d_read := f_read file; d_size := f_size file;
     d_position := f_position file; d_zones := f_zones file; d_indirect := f_indirect file |}.

(** [int cp32_fd_readdir(fd, inode, name)] *)
Definition cp32_fd_readdir (fd inode name : Z) : FM (option (Z * list Z)) :=
  slot <- need_file fd ;;
  t <- tab ;;
  guard (nthZ (t_directories t) slot =? 0) (- CP32_FILE_NOT_DIR) ;;;
  guard ((inode =? 0) || (name =? 0) || truthy (f_position (file_at t slot) mod 16))
        (- CP32_SUPER_INVALID) ;;;
  refresh fd ;;;
  file <- file_of slot ;;
  x <- cp32_minix_root_next (file_dir file) nonnull nonnull ;;
  cp32_fs_data_time file 1 ;;;
  update (t_set_file slot (f_set_position file (d_position (snd x)))) ;;;
  ret (fst x).

(** [int cp32_fd_seek(fd, offset, whence, position)]: the new position. *)
Definition cp32_fd_seek (fd offset whence : Z) : FM Z :=
  slot <- need_file fd ;;
  (if whence =? 2 then refresh fd else ret tt) ;;;
  file <- file_of slot ;;
  file <- cp32_minix_file_seek file offset whence ;;
  update (t_set_file slot file) ;;;
  ret (f_position file).

(** [int cp32_fd_share(source, target)] *)
Definition cp32_fd_share (source target : Z) : FM Z :=
  need_file source ;;;
  t <- tab ;;
  target <- (if target =? -1 then
               let target := first_zero (t_descriptors t) 0 in
               guard (target =? CP32_OPEN_MAX) (- CP32_FILE_LIMIT) ;;;
               ret target
             else guard ((target <? 0) || (CP32_OPEN_MAX <=? target)) (- CP32_FILE_BAD_FD) ;;;
                  ret target) ;;
  if target =? source then ret target else
  let slot := slot_of_fd t source in
  (if truthy (nthZ (t_descriptors t) target) then try (cp32_fd_close target) ;;; ret tt
   else ret tt) ;;;
  update (t_set_descriptor target (slot + 1)) ;;;
  update (t_set_dflag target 0) ;;;
  update (fun t => t_set_reference slot (wrap8 (nthZ (t_references t) slot + 1)) t) ;;;
  ret target.

(** [int cp32_fd_fcntl(fd, command, argument)] *)
Definition cp32_fd_fcntl (fd command argument : Z) : FM Z :=
  slot <- need_file fd ;;
  t <- tab ;;
  if command =? CP32_F_DUPFD then
    guard ((argument <? 0) || (CP32_OPEN_MAX <=? argument)) (- CP32_SUPER_INVALID) ;;;
    let target := first_zero (drop (Z.to_nat argument) (t_descriptors t)) argument in
    guard (target =? CP32_OPEN_MAX) (- CP32_FILE_LIMIT) ;;;
    cp32_fd_share fd target
  else if command =? CP32_F_GETFD then ret (nthZ (t_descriptor_flags t) fd)
  else if command =? CP32_F_SETFD then
    update (t_set_dflag fd (Z.land (wrap32 argument) CP32_FD_CLOEXEC)) ;;; ret 0
  else if command =? CP32_F_GETFL then ret (nthZ (t_status_flags t) slot)
  else if command =? CP32_F_SETFL then
    update (t_set_status slot
      (Z.lor (access_of t slot)
             (Z.land (wrap32 argument) (Z.lor CP32_O_APPEND CP32_O_NONBLOCK)))) ;;;
    ret 0
  else if (command =? CP32_F_GETLK) || (command =? CP32_F_SETLK) || (command =? CP32_F_SETLKW)
  then fail (- CP32_SUPER_UNSUPPORTED)
  else fail (- CP32_SUPER_INVALID).

(** [int cp32_fd_fstat(fd, out)] of stadir.c *)
Definition cp32_fd_fstat (fd out : Z) : FM FsTypes.cp32_minix_stat :=
  t <- tab ;;
  match cp32_fd_file t fd with
  | None => fail (- CP32_FILE_BAD_FD)
  | Some slot =>
      let file := file_at t slot in
      cp32_fs_stat_inode (f_read file) (f_super file) (f_inode file) out
  end.
End Filedes.
