(* ===== verification/FdSpec.v ===== *)
(** * Descriptors and open descriptions stay consistent

    The specification of the open-file tables of src/src/fs/filedes.c: a
    description is referred to by exactly as many descriptors as its count
    says.  Nothing below the descriptor layer touches the two tables. *)
From S2P Require Import Prelude Codec FsTypes FdTable MemDisk Super Timestamp Inode Read Path.
From S2P Require Import Bitmap Zones Dirent Namespace Filedes Resolve.

(** The reference counts and the descriptors. *)
Definition refs_of (t : fdtab) : list Z * list Z := (t_references t, t_descriptors t).

(** ** Code that leaves the tables alone *)
Definition same_refs {E} (w w' : fsw E) : Prop := refs_of (fs_tab w') = refs_of (fs_tab w).

#[export] Instance same_refs_preorder {E} : PreOrder (@same_refs E).
Proof. split; [done|]. intros a b c H1 H2. unfold same_refs in *. congruence. Qed.

Lemma keeps_read {E} `{DSK : Disk E} rd off n : keeps same_refs (call_read rd off n).
Proof. intros w. unfold call_read. by destruct (dk_read rd off n (fs_env w)). Qed.
Lemma keeps_write {E} `{DSK : Disk E} wr off bs : keeps same_refs (call_write wr off bs).
Proof. intros w. unfold call_write. by destruct (dk_write wr off bs (fs_env w)). Qed.
Lemma keeps_clock {E} `{DSK : Disk E} c : keeps same_refs (call_clock c).
Proof. intros w. unfold call_clock. by destruct (dk_clock c (fs_env w)). Qed.
#[export] Hint Resolve keeps_read keeps_write keeps_clock same_refs_preorder : keeps.

Lemma defer_refs t read write number : refs_of (snd (cp32_fd_defer_unlink t read write number)) = refs_of t.
Proof.
  unfold cp32_fd_defer_unlink. cbn [snd]. generalize slots. intros l. revert t.
  induction l as [|i l IH]; intros t; [done|]. cbn [fold_left]. rewrite IH. by destruct (slot_matches _ _ _ _).
Qed.

(** *** The layers below *)

(** FsTypes *)
Lemma keeps_read_or {E} `{DSK : Disk E} status rd off n : keeps (W := fsw E) same_refs (read_or status rd off n).
Proof. unfold read_or. keeps_solve. Qed.
#[export] Hint Resolve keeps_read_or : keeps.
Lemma keeps_store {E} `{DSK : Disk E} wr at_ p : keeps (W := fsw E) same_refs (store wr at_ p).
Proof. unfold store. keeps_solve. Qed.
#[export] Hint Resolve keeps_store : keeps.
Lemma keeps_cache_invalidate {E} `{DSK : Disk E} : keeps (W := fsw E) same_refs (cache_invalidate).
Proof. unfold cache_invalidate. keeps_solve. Qed.
#[export] Hint Resolve keeps_cache_invalidate : keeps.

(** Super *)
Lemma keeps_negated {E A} (c : M (fsw E) A) : keeps same_refs c -> keeps same_refs (negated c).
Proof. unfold negated. intros Hc w. specialize (Hc w). by destruct (c w) as [[e|a] w'].
Qed.
#[export] Hint Resolve keeps_negated : keeps.
Lemma keeps_cp32_minix_super_read {E} `{DSK : Disk E} read capacity out : keeps (W := fsw E) same_refs (cp32_minix_super_read read capacity out).
Proof. unfold cp32_minix_super_read. keeps_solve. Qed.
#[export] Hint Resolve keeps_cp32_minix_super_read : keeps.
Lemma keeps_cp32_fs_allocated {E} `{DSK : Disk E} read map_ bit swap : keeps (W := fsw E) same_refs (cp32_fs_allocated read map_ bit swap).
Proof. unfold cp32_fs_allocated. keeps_solve. Qed.
#[export] Hint Resolve keeps_cp32_fs_allocated : keeps.
Lemma keeps_count_free {E} `{DSK : Disk E} read map_ last swap : keeps (W := fsw E) same_refs (count_free read map_ last swap).
Proof. unfold count_free. keeps_solve. Qed.
#[export] Hint Resolve keeps_count_free : keeps.
Lemma keeps_cp32_minix_space_read {E} `{DSK : Disk E} read capacity out : keeps (W := fsw E) same_refs (cp32_minix_space_read read capacity out).
Proof. unfold cp32_minix_space_read. keeps_solve. Qed.
#[export] Hint Resolve keeps_cp32_minix_space_read : keeps.

(** Timestamp *)
Lemma keeps_cp32_fs_time_bind {E} `{DSK : Disk E} read write clock : keeps (W := fsw E) same_refs (cp32_fs_time_bind read write clock).
Proof. unfold cp32_fs_time_bind. keeps_solve. Qed.
#[export] Hint Resolve keeps_cp32_fs_time_bind : keeps.
Lemma keeps_cp32_fs_stamp {E} `{DSK : Disk E} read raw at_ swapped mask : keeps (W := fsw E) same_refs (cp32_fs_stamp read raw at_ swapped mask).
Proof. unfold cp32_fs_stamp. keeps_solve. Qed.
#[export] Hint Resolve keeps_cp32_fs_stamp : keeps.
Lemma keeps_cp32_fs_inode_time {E} `{DSK : Disk E} read super number mask : keeps (W := fsw E) same_refs (cp32_fs_inode_time read super number mask).
Proof. unfold cp32_fs_inode_time. keeps_solve. Qed.
#[export] Hint Resolve keeps_cp32_fs_inode_time : keeps.
Lemma keeps_cp32_fs_data_time {E} `{DSK : Disk E} file mask : keeps (W := fsw E) same_refs (cp32_fs_data_time file mask).
Proof. unfold cp32_fs_data_time. keeps_solve. Qed.
#[export] Hint Resolve keeps_cp32_fs_data_time : keeps.

(** Inode *)
Lemma keeps_zone_allocated {E} `{DSK : Disk E} read s z : keeps (W := fsw E) same_refs (zone_allocated read s z).
Proof. unfold zone_allocated. keeps_solve. Qed.
#[export] Hint Resolve keeps_zone_allocated : keeps.
Lemma keeps_dir_zone {E} `{DSK : Disk E} read s raw used i zones : keeps (W := fsw E) same_refs (dir_zone read s raw used i zones).
Proof. unfold dir_zone. keeps_solve. Qed.
#[export] Hint Resolve keeps_dir_zone : keeps.
Lemma keeps_cp32_fs_open_directory {E} `{DSK : Disk E} read super number : keeps (W := fsw E) same_refs (cp32_fs_open_directory read super number).
Proof. unfold cp32_fs_open_directory. keeps_solve. Qed.
#[export] Hint Resolve keeps_cp32_fs_open_directory : keeps.
Lemma keeps_file_zone {E} `{DSK : Disk E} read s raw used i zones : keeps (W := fsw E) same_refs (file_zone read s raw used i zones).
Proof. unfold file_zone. keeps_solve. Qed.
#[export] Hint Resolve keeps_file_zone : keeps.
Lemma keeps_cp32_fs_file_inode {E} `{DSK : Disk E} read super number : keeps (W := fsw E) same_refs (cp32_fs_file_inode read super number).
Proof. unfold cp32_fs_file_inode. keeps_solve. Qed.
#[export] Hint Resolve keeps_cp32_fs_file_inode : keeps.
Lemma keeps_cp32_fs_stat_inode {E} `{DSK : Disk E} read super number out : keeps (W := fsw E) same_refs (cp32_fs_stat_inode read super number out).
Proof. unfold cp32_fs_stat_inode. keeps_solve. Qed.
#[export] Hint Resolve keeps_cp32_fs_stat_inode : keeps.

(** Read *)
Lemma keeps_cp32_read_indirect {E} `{DSK : Disk E} file table index parent : keeps (W := fsw E) same_refs (cp32_read_indirect file table index parent).
Proof. unfold cp32_read_indirect. keeps_solve. Qed.
#[export] Hint Resolve keeps_cp32_read_indirect : keeps.
Lemma keeps_cp32_fs_read_map {E} `{DSK : Disk E} file index : keeps (W := fsw E) same_refs (cp32_fs_read_map file index).
Proof. unfold cp32_fs_read_map. keeps_solve. Qed.
#[export] Hint Resolve keeps_cp32_fs_read_map : keeps.
Lemma keeps_cp32_minix_file_read {E} `{DSK : Disk E} file buffer count : keeps (W := fsw E) same_refs (cp32_minix_file_read file buffer count).
Proof. unfold cp32_minix_file_read. keeps_solve. Qed.
#[export] Hint Resolve keeps_cp32_minix_file_read : keeps.

(** Path *)
Lemma keeps_next_zone {E} `{DSK : Disk E} dir zone_bytes : keeps (W := fsw E) same_refs (next_zone dir zone_bytes).
Proof. unfold next_zone. keeps_solve. Qed.
#[export] Hint Resolve keeps_next_zone : keeps.
Lemma keeps_next_turn {E} `{DSK : Disk E} dir : keeps (W := fsw E) same_refs (next_turn dir).
Proof. unfold next_turn. keeps_solve. Qed.
#[export] Hint Resolve keeps_next_turn : keeps.
Lemma keeps_cp32_minix_root_next {E} `{DSK : Disk E} dir inode name : keeps (W := fsw E) same_refs (cp32_minix_root_next dir inode name).
Proof. unfold cp32_minix_root_next. keeps_solve. Qed.
#[export] Hint Resolve keeps_cp32_minix_root_next : keeps.
Lemma keeps_search_turn {E} `{DSK : Disk E} comp dir : keeps (W := fsw E) same_refs (search_turn comp dir).
Proof. unfold search_turn. keeps_solve. Qed.
#[export] Hint Resolve keeps_search_turn : keeps.
Lemma keeps_search_dir {E} `{DSK : Disk E} comp dir : keeps (W := fsw E) same_refs (search_dir comp dir).
Proof. unfold search_dir. keeps_solve. Qed.
#[export] Hint Resolve keeps_search_dir : keeps.
Lemma keeps_walk_turn {E} `{DSK : Disk E} read super st : keeps (W := fsw E) same_refs (walk_turn read super st).
Proof. unfold walk_turn. keeps_solve. Qed.
#[export] Hint Resolve keeps_walk_turn : keeps.
Lemma keeps_cp32_fs_resolve_path {E} `{DSK : Disk E} read capacity path : keeps (W := fsw E) same_refs (cp32_fs_resolve_path read capacity path).
Proof. unfold cp32_fs_resolve_path. keeps_solve. Qed.
#[export] Hint Resolve keeps_cp32_fs_resolve_path : keeps.
Lemma keeps_cp32_minix_abspath {E} `{DSK : Disk E} cwd path : keeps (W := fsw E) same_refs (cp32_minix_abspath cwd path).
Proof. unfold cp32_minix_abspath. keeps_solve. Qed.
#[export] Hint Resolve keeps_cp32_minix_abspath : keeps.
Lemma keeps_cp32_minix_root_open {E} `{DSK : Disk E} read capacity : keeps (W := fsw E) same_refs (cp32_minix_root_open read capacity).
Proof. unfold cp32_minix_root_open. keeps_solve. Qed.
#[export] Hint Resolve keeps_cp32_minix_root_open : keeps.
Lemma keeps_cp32_minix_dir_open {E} `{DSK : Disk E} read capacity path : keeps (W := fsw E) same_refs (cp32_minix_dir_open read capacity path).
Proof. unfold cp32_minix_dir_open. keeps_solve. Qed.
#[export] Hint Resolve keeps_cp32_minix_dir_open : keeps.
Lemma keeps_cp32_minix_file_open {E} `{DSK : Disk E} read capacity name file : keeps (W := fsw E) same_refs (cp32_minix_file_open read capacity name file).
Proof. unfold cp32_minix_file_open. keeps_solve. Qed.
#[export] Hint Resolve keeps_cp32_minix_file_open : keeps.
Lemma keeps_cp32_minix_file_seek {E} `{DSK : Disk E} file offset whence : keeps (W := fsw E) same_refs (cp32_minix_file_seek file offset whence).
Proof. unfold cp32_minix_file_seek. keeps_solve. Qed.
#[export] Hint Resolve keeps_cp32_minix_file_seek : keeps.
Lemma keeps_cp32_minix_stat {E} `{DSK : Disk E} read capacity path out : keeps (W := fsw E) same_refs (cp32_minix_stat read capacity path out).
Proof. unfold cp32_minix_stat. keeps_solve. Qed.
#[export] Hint Resolve keeps_cp32_minix_stat : keeps.
Lemma keeps_cp32_minix_chdir {E} `{DSK : Disk E} read capacity cwd path : keeps (W := fsw E) same_refs (cp32_minix_chdir read capacity cwd path).
Proof. unfold cp32_minix_chdir. keeps_solve. Qed.
#[export] Hint Resolve keeps_cp32_minix_chdir : keeps.

(** Bitmap *)
Lemma keeps_free_turn {E} `{DSK : Disk E} read map_ first last swap st : keeps (W := fsw E) same_refs (free_turn read map_ first last swap st).
Proof. unfold free_turn. keeps_solve. Qed.
#[export] Hint Resolve keeps_free_turn : keeps.
Lemma keeps_find_free_bit {E} `{DSK : Disk E} read map_ first last swap : keeps (W := fsw E) same_refs (find_free_bit read map_ first last swap).
Proof. unfold find_free_bit. keeps_solve. Qed.
#[export] Hint Resolve keeps_find_free_bit : keeps.
Lemma keeps_reserve {E} `{DSK : Disk E} read write map_ bit swap : keeps (W := fsw E) same_refs (reserve read write map_ bit swap).
Proof. unfold reserve. keeps_solve. Qed.
#[export] Hint Resolve keeps_reserve : keeps.
Lemma keeps_release_bit {E} `{DSK : Disk E} read write map_ bit swap : keeps (W := fsw E) same_refs (release_bit read write map_ bit swap).
Proof. unfold release_bit. keeps_solve. Qed.
#[export] Hint Resolve keeps_release_bit : keeps.
Lemma keeps_release_zone {E} `{DSK : Disk E} read write s zone : keeps (W := fsw E) same_refs (release_zone read write s zone).
Proof. unfold release_zone. keeps_solve. Qed.
#[export] Hint Resolve keeps_release_zone : keeps.

(** Zones *)
Lemma keeps_shrink_at {E} `{DSK : Disk E} i : keeps (W := fsw E) same_refs (shrink_at i).
Proof. unfold shrink_at. keeps_solve. Qed.
#[export] Hint Resolve keeps_shrink_at : keeps.
Lemma keeps_shrink_set {E} `{DSK : Disk E} i z : keeps (W := fsw E) same_refs (shrink_set i z).
Proof. unfold shrink_set. keeps_solve. Qed.
#[export] Hint Resolve keeps_shrink_set : keeps.
Lemma keeps_snapshot_table {E} `{DSK : Disk E} read s table : keeps (W := fsw E) same_refs (snapshot_table read s table).
Proof. unfold snapshot_table. keeps_solve. Qed.
#[export] Hint Resolve keeps_snapshot_table : keeps.
Lemma keeps_snapshot_check {E} `{DSK : Disk E} read s i : keeps (W := fsw E) same_refs (snapshot_check read s i).
Proof. unfold snapshot_check. keeps_solve. Qed.
#[export] Hint Resolve keeps_snapshot_check : keeps.
Lemma keeps_snapshot_zones {E} `{DSK : Disk E} read s inode : keeps (W := fsw E) same_refs (snapshot_zones read s inode).
Proof. unfold snapshot_zones. keeps_solve. Qed.
#[export] Hint Resolve keeps_snapshot_zones : keeps.
Lemma keeps_zero_range {E} `{DSK : Disk E} write zone at_ end_ : keeps (W := fsw E) same_refs (zero_range write zone at_ end_).
Proof. unfold zero_range. keeps_solve. Qed.
#[export] Hint Resolve keeps_zero_range : keeps.
Lemma keeps_zero_block {E} `{DSK : Disk E} write zone : keeps (W := fsw E) same_refs (zero_block write zone).
Proof. unfold zero_block. keeps_solve. Qed.
#[export] Hint Resolve keeps_zero_block : keeps.
Lemma keeps_release_range {E} `{DSK : Disk E} read write s from to : keeps (W := fsw E) same_refs (release_range read write s from to).
Proof. unfold release_range. keeps_solve. Qed.
#[export] Hint Resolve keeps_release_range : keeps.
Lemma keeps_cp32_fs_truncate_inode {E} `{DSK : Disk E} read write capacity number length : keeps (W := fsw E) same_refs (cp32_fs_truncate_inode read write capacity number length).
Proof. unfold cp32_fs_truncate_inode. keeps_solve. Qed.
#[export] Hint Resolve keeps_cp32_fs_truncate_inode : keeps.
Lemma keeps_cp32_fs_resize_inode {E} `{DSK : Disk E} read write capacity number length : keeps (W := fsw E) same_refs (cp32_fs_resize_inode read write capacity number length).
Proof. unfold cp32_fs_resize_inode. keeps_solve. Qed.
#[export] Hint Resolve keeps_cp32_fs_resize_inode : keeps.
Lemma keeps_allocate_zone {E} `{DSK : Disk E} read write super index table : keeps (W := fsw E) same_refs (allocate_zone read write super index table).
Proof. unfold allocate_zone. keeps_solve. Qed.
#[export] Hint Resolve keeps_allocate_zone : keeps.
Lemma keeps_write_fragment {E} `{DSK : Disk E} read write super number offset bytes count directory done_ : keeps (W := fsw E) same_refs (write_fragment read write super number offset bytes count directory done_).
Proof. unfold write_fragment. keeps_solve. Qed.
#[export] Hint Resolve keeps_write_fragment : keeps.
Lemma keeps_write_inode {E} `{DSK : Disk E} read write super number offset bytes count directory : keeps (W := fsw E) same_refs (write_inode read write super number offset bytes count directory).
Proof. unfold write_inode. keeps_solve. Qed.
#[export] Hint Resolve keeps_write_inode : keeps.
Lemma keeps_cp32_fs_write_inode {E} `{DSK : Disk E} read write super number offset bytes count : keeps (W := fsw E) same_refs (cp32_fs_write_inode read write super number offset bytes count).
Proof. unfold cp32_fs_write_inode. keeps_solve. Qed.
#[export] Hint Resolve keeps_cp32_fs_write_inode : keeps.
Lemma keeps_release_inode {E} `{DSK : Disk E} read write s number : keeps (W := fsw E) same_refs (release_inode read write s number).
Proof. unfold release_inode. keeps_solve. Qed.
#[export] Hint Resolve keeps_release_inode : keeps.
Lemma keeps_cp32_fs_reap_inode {E} `{DSK : Disk E} read write s number : keeps (W := fsw E) same_refs (cp32_fs_reap_inode read write s number).
Proof. unfold cp32_fs_reap_inode. keeps_solve. Qed.
#[export] Hint Resolve keeps_cp32_fs_reap_inode : keeps.

(** Dirent *)
Lemma keeps_directory_address {E} `{DSK : Disk E} dir slot : keeps (W := fsw E) same_refs (directory_address dir slot).
Proof. unfold directory_address. keeps_solve. Qed.
#[export] Hint Resolve keeps_directory_address : keeps.
Lemma keeps_directory_store {E} `{DSK : Disk E} write dir number slot entry : keeps (W := fsw E) same_refs (directory_store write dir number slot entry).
Proof. unfold directory_store. keeps_solve. Qed.
#[export] Hint Resolve keeps_directory_store : keeps.
Lemma keeps_directory_capacity {E} `{DSK : Disk E} read write dir number slot : keeps (W := fsw E) same_refs (directory_capacity read write dir number slot).
Proof. unfold directory_capacity. keeps_solve. Qed.
#[export] Hint Resolve keeps_directory_capacity : keeps.
Lemma keeps_location_turn {E} `{DSK : Disk E} read dir name st : keeps (W := fsw E) same_refs (location_turn read dir name st).
Proof. unfold location_turn. keeps_solve. Qed.
#[export] Hint Resolve keeps_location_turn : keeps.
Lemma keeps_mutation_location {E} `{DSK : Disk E} read capacity path : keeps (W := fsw E) same_refs (mutation_location read capacity path).
Proof. unfold mutation_location. keeps_solve. Qed.
#[export] Hint Resolve keeps_mutation_location : keeps.
Lemma keeps_publish_size {E} `{DSK : Disk E} read write dir parent_inode slot parent : keeps (W := fsw E) same_refs (publish_size read write dir parent_inode slot parent).
Proof. unfold publish_size. keeps_solve. Qed.
#[export] Hint Resolve keeps_publish_size : keeps.
Lemma keeps_node_zone {E} `{DSK : Disk E} read s n : keeps (W := fsw E) same_refs (node_zone read s n).
Proof. unfold node_zone. keeps_solve. Qed.
#[export] Hint Resolve keeps_node_zone : keeps.
Lemma keeps_node_contents {E} `{DSK : Disk E} write s zone n ino parent_inode bytes directory : keeps (W := fsw E) same_refs (node_contents write s zone n ino parent_inode bytes directory).
Proof. unfold node_contents. keeps_solve. Qed.
#[export] Hint Resolve keeps_node_contents : keeps.
Lemma keeps_create_node {E} `{DSK : Disk E} read write capacity path bytes n directory mode : keeps (W := fsw E) same_refs (create_node read write capacity path bytes n directory mode).
Proof. unfold create_node. keeps_solve. Qed.
#[export] Hint Resolve keeps_create_node : keeps.
Lemma keeps_cp32_minix_create {E} `{DSK : Disk E} read write capacity path bytes n : keeps (W := fsw E) same_refs (cp32_minix_create read write capacity path bytes n).
Proof. unfold cp32_minix_create. keeps_solve. Qed.
#[export] Hint Resolve keeps_cp32_minix_create : keeps.
Lemma keeps_cp32_minix_mkdir {E} `{DSK : Disk E} read write capacity path : keeps (W := fsw E) same_refs (cp32_minix_mkdir read write capacity path).
Proof. unfold cp32_minix_mkdir. keeps_solve. Qed.
#[export] Hint Resolve keeps_cp32_minix_mkdir : keeps.
Lemma keeps_cp32_minix_mkdir_mode {E} `{DSK : Disk E} read write capacity path mode : keeps (W := fsw E) same_refs (cp32_minix_mkdir_mode read write capacity path mode).
Proof. unfold cp32_minix_mkdir_mode. keeps_solve. Qed.
#[export] Hint Resolve keeps_cp32_minix_mkdir_mode : keeps.
Lemma keeps_cp32_minix_create_root {E} `{DSK : Disk E} read write capacity name bytes n : keeps (W := fsw E) same_refs (cp32_minix_create_root read write capacity name bytes n).
Proof. unfold cp32_minix_create_root. keeps_solve. Qed.
#[export] Hint Resolve keeps_cp32_minix_create_root : keeps.

(** Namespace *)
Lemma keeps_append_clear {E} `{DSK : Disk E} write newzone tbit table : keeps (W := fsw E) same_refs (append_clear write newzone tbit table).
Proof. unfold append_clear. keeps_solve. Qed.
#[export] Hint Resolve keeps_append_clear : keeps.
Lemma keeps_append_plan {E} `{DSK : Disk E} read file used next : keeps (W := fsw E) same_refs (append_plan read file used next).
Proof. unfold append_plan. keeps_solve. Qed.
#[export] Hint Resolve keeps_append_plan : keeps.
Lemma keeps_append_data {E} `{DSK : Disk E} write size n used oldzone newzone bytes : keeps (W := fsw E) same_refs (append_data write size n used oldzone newzone bytes).
Proof. unfold append_data. keeps_solve. Qed.
#[export] Hint Resolve keeps_append_data : keeps.
Lemma keeps_cp32_minix_append {E} `{DSK : Disk E} read write capacity path bytes n : keeps (W := fsw E) same_refs (cp32_minix_append read write capacity path bytes n).
Proof. unfold cp32_minix_append. keeps_solve. Qed.
#[export] Hint Resolve keeps_cp32_minix_append : keeps.
Lemma keeps_cp32_minix_truncate {E} `{DSK : Disk E} read write capacity path length : keeps (W := fsw E) same_refs (cp32_minix_truncate read write capacity path length).
Proof. unfold cp32_minix_truncate. keeps_solve. Qed.
#[export] Hint Resolve keeps_cp32_minix_truncate : keeps.
Lemma keeps_cp32_minix_link {E} `{DSK : Disk E} read write capacity path destination : keeps (W := fsw E) same_refs (cp32_minix_link read write capacity path destination).
Proof. unfold cp32_minix_link. keeps_solve. Qed.
#[export] Hint Resolve keeps_cp32_minix_link : keeps.
Lemma keeps_cp32_minix_link_root {E} `{DSK : Disk E} read write capacity path name : keeps (W := fsw E) same_refs (cp32_minix_link_root read write capacity path name).
Proof. unfold cp32_minix_link_root. keeps_solve. Qed.
#[export] Hint Resolve keeps_cp32_minix_link_root : keeps.
Lemma keeps_rmdir_entry {E} `{DSK : Disk E} read s inode parent_inode at_ : keeps (W := fsw E) same_refs (rmdir_entry read s inode parent_inode at_).
Proof. unfold rmdir_entry. keeps_solve. Qed.
#[export] Hint Resolve keeps_rmdir_entry : keeps.
Lemma keeps_rmdir_check {E} `{DSK : Disk E} read s info parent_inode : keeps (W := fsw E) same_refs (rmdir_check read s info parent_inode).
Proof. unfold rmdir_check. keeps_solve. Qed.
#[export] Hint Resolve keeps_rmdir_check : keeps.
Lemma keeps_defer_unlink {E} `{DSK : Disk E} read write number : keeps (W := fsw E) same_refs (defer_unlink read write number).
Proof. intros w. pose proof (defer_refs (fs_tab w) read write number) as H. unfold defer_unlink, same_refs. by destruct (cp32_fd_defer_unlink _ _ _ _). Qed.
#[export] Hint Resolve keeps_defer_unlink : keeps.
Lemma keeps_remove_node {E} `{DSK : Disk E} read write capacity path cwd : keeps (W := fsw E) same_refs (remove_node read write capacity path cwd).
Proof. unfold remove_node. keeps_solve. Qed.
#[export] Hint Resolve keeps_remove_node : keeps.
Lemma keeps_cp32_minix_unlink {E} `{DSK : Disk E} read write capacity path : keeps (W := fsw E) same_refs (cp32_minix_unlink read write capacity path).
Proof. unfold cp32_minix_unlink. keeps_solve. Qed.
#[export] Hint Resolve keeps_cp32_minix_unlink : keeps.
Lemma keeps_cp32_minix_rmdir {E} `{DSK : Disk E} read write capacity path cwd : keeps (W := fsw E) same_refs (cp32_minix_rmdir read write capacity path cwd).
Proof. unfold cp32_minix_rmdir. keeps_solve. Qed.
#[export] Hint Resolve keeps_cp32_minix_rmdir : keeps.
Lemma keeps_rename_across {E} `{DSK : Disk E} read write old new info entry : keeps (W := fsw E) same_refs (rename_across read write old new info entry).
Proof. unfold rename_across. keeps_solve. Qed.
#[export] Hint Resolve keeps_rename_across : keeps.
Lemma keeps_cp32_minix_rename {E} `{DSK : Disk E} read write capacity oldpath newpath : keeps (W := fsw E) same_refs (cp32_minix_rename read write capacity oldpath newpath).
Proof. unfold cp32_minix_rename. keeps_solve. Qed.
#[export] Hint Resolve keeps_cp32_minix_rename : keeps.
Lemma keeps_ancestry {E} `{DSK : Disk E} read s oi np : keeps (W := fsw E) same_refs (ancestry read s oi np).
Proof. unfold ancestry. keeps_solve. Qed.
#[export] Hint Resolve keeps_ancestry : keeps.
Lemma keeps_move_dir_check {E} `{DSK : Disk E} read s op oi np ni : keeps (W := fsw E) same_refs (move_dir_check read s op oi np ni).
Proof. unfold move_dir_check. keeps_solve. Qed.
#[export] Hint Resolve keeps_move_dir_check : keeps.
Lemma keeps_move_across {E} `{DSK : Disk E} read write old new child entry : keeps (W := fsw E) same_refs (move_across read write old new child entry).
Proof. unfold move_across. keeps_solve. Qed.
#[export] Hint Resolve keeps_move_across : keeps.
Lemma keeps_cp32_minix_move {E} `{DSK : Disk E} read write capacity oldpath newpath : keeps (W := fsw E) same_refs (cp32_minix_move read write capacity oldpath newpath).
Proof. unfold cp32_minix_move. keeps_solve. Qed.
#[export] Hint Resolve keeps_cp32_minix_move : keeps.
Lemma keeps_cp32_fs_chmod_inode {E} `{DSK : Disk E} read write super number mode : keeps (W := fsw E) same_refs (cp32_fs_chmod_inode read write super number mode).
Proof. unfold cp32_fs_chmod_inode. keeps_solve. Qed.
#[export] Hint Resolve keeps_cp32_fs_chmod_inode : keeps.
Lemma keeps_cp32_minix_chmod {E} `{DSK : Disk E} read write capacity path mode : keeps (W := fsw E) same_refs (cp32_minix_chmod read write capacity path mode).
Proof. unfold cp32_minix_chmod. keeps_solve. Qed.
#[export] Hint Resolve keeps_cp32_minix_chmod : keeps.
Lemma keeps_copy_turn {E} `{DSK : Disk E} read write capacity destination file : keeps (W := fsw E) same_refs (copy_turn read write capacity destination file).
Proof. unfold copy_turn. keeps_solve. Qed.
#[export] Hint Resolve keeps_copy_turn : keeps.
Lemma keeps_cp32_minix_copy {E} `{DSK : Disk E} read write capacity source destination : keeps (W := fsw E) same_refs (cp32_minix_copy read write capacity source destination).
Proof. unfold cp32_minix_copy. keeps_solve. Qed.
#[export] Hint Resolve keeps_cp32_minix_copy : keeps.
Lemma keeps_patch_plan {E} `{DSK : Disk E} file capacity offset n : keeps (W := fsw E) same_refs (patch_plan file capacity offset n).
Proof. unfold patch_plan. keeps_solve. Qed.
#[export] Hint Resolve keeps_patch_plan : keeps.
Lemma keeps_patch_write {E} `{DSK : Disk E} write plan bytes : keeps (W := fsw E) same_refs (patch_write write plan bytes).
Proof. revert bytes. induction plan as [|[a b] plan IH]; intros bytes; cbn [patch_write]; keeps_solve. Qed.
#[export] Hint Resolve keeps_patch_write : keeps.
Lemma keeps_cp32_minix_patch {E} `{DSK : Disk E} read write capacity path offset bytes n : keeps (W := fsw E) same_refs (cp32_minix_patch read write capacity path offset bytes n).
Proof. unfold cp32_minix_patch. keeps_solve. Qed.
#[export] Hint Resolve keeps_cp32_minix_patch : keeps.

(** *** Filedes: transfers *)
Lemma keeps_tab {E} : keeps same_refs (tab (E := E)).
Proof. done. Qed.
Lemma keeps_update {E} f : (forall t, refs_of (f t) = refs_of t) -> keeps same_refs (update (E := E) f).
Proof. intros H w. apply H. Qed.
Lemma keeps_need_file {E} fd : keeps same_refs (need_file (E := E) fd).
Proof. unfold need_file. apply (keeps_bind same_refs); [apply keeps_tab|]. intros t. by destruct (get_file t fd). Qed.
Lemma keeps_file_of {E} slot : keeps same_refs (file_of (E := E) slot).
Proof. done. Qed.
#[export] Hint Resolve keeps_tab keeps_need_file keeps_file_of : keeps.
#[export] Hint Extern 2 (keeps same_refs (update _)) => apply keeps_update; reflexivity : keeps.

Section Transfers.
Context {E : Type} `{DSK : Disk E}.

Lemma keeps_refresh fd : keeps same_refs (refresh (E := E) fd).
Proof. unfold refresh. keeps_solve. Qed.
#[local] Hint Resolve keeps_refresh : keeps.
Lemma keeps_fd_write fd bytes count : keeps same_refs (cp32_fd_write (E := E) fd bytes count).
Proof. unfold cp32_fd_write. keeps_solve. Qed.
Lemma keeps_fd_truncate fd length : keeps same_refs (cp32_fd_truncate (E := E) fd length).
Proof. unfold cp32_fd_truncate. keeps_solve. Qed.
Lemma keeps_fd_pread fd bytes count offset : keeps same_refs (cp32_fd_pread (E := E) fd bytes count offset).
Proof. unfold cp32_fd_pread. keeps_solve. Qed.
Lemma keeps_fd_pwrite fd bytes count offset : keeps same_refs (cp32_fd_pwrite (E := E) fd bytes count offset).
Proof. unfold cp32_fd_pwrite. keeps_solve. Qed.
Lemma keeps_fd_read fd out count : keeps same_refs (cp32_fd_read (E := E) fd out count).
Proof. unfold cp32_fd_read. keeps_solve. Qed.
Lemma keeps_fd_readdir fd inode name : keeps same_refs (cp32_fd_readdir (E := E) fd inode name).
Proof. unfold cp32_fd_readdir. keeps_solve. Qed.
Lemma keeps_fd_seek fd offset whence : keeps same_refs (cp32_fd_seek (E := E) fd offset whence).
Proof. unfold cp32_fd_seek. keeps_solve. Qed.
Lemma keeps_fd_fstat fd out : keeps same_refs (cp32_fd_fstat (E := E) fd out).
Proof. unfold cp32_fd_fstat. keeps_solve. Qed.
End Transfers.

(** ** The tables as a specification

    A pair of the reference counts and the descriptors; descriptor [fd] is open
    when its entry is not zero, and then names description [entry - 1]. *)
Abbreviation tables := (list Z * list Z)%type.
Definition occurrences (x : Z) (l : list Z) : Z := Z.of_nat (count_occ Z.eq_dec l x).
Definition live (T : tables) (fd : Z) : Prop := 0 <= fd < 8 /\ nthZ (snd T) fd <> 0.
Definition description (T : tables) (fd : Z) : Z := nthZ (snd T) fd - 1.

Record refs_ok (T : tables) : Prop := {
  ro_length : lenZ (fst T) = 8 /\ lenZ (snd T) = 8;
  ro_range : Forall (fun d => 0 <= d <= 8) (snd T);
  ro_count : forall slot, 0 <= slot < 8 -> nthZ (fst T) slot = occurrences (slot + 1) (snd T) }.

(** The three changes: a fresh description, a closed descriptor, one more
    descriptor of a description. *)
Definition opened (fd slot : Z) (T : tables) : tables := (updZ (fst T) slot 1, updZ (snd T) fd (slot + 1)).
Definition closed (fd : Z) (T : tables) : tables :=
  let slot := description T fd in
  (updZ (fst T) slot (wrap8 (nthZ (fst T) slot - 1)), updZ (snd T) fd 0).
Definition shared (fd slot : Z) (T : tables) : tables :=
  (updZ (fst T) slot (wrap8 (nthZ (fst T) slot + 1)), updZ (snd T) fd (slot + 1)).

Lemma occurrences_upd l i x y :
  0 <= i < lenZ l ->
  occurrences y (updZ l i x) = occurrences y l - (if nthZ l i =? y then 1 else 0) + (if x =? y then 1 else 0).
Proof.
  unfold occurrences, lenZ, updZ, nthZ. intros Hi. assert (Hn : (Z.to_nat i < length l)%nat) by lia. clear Hi.
  revert l Hn. induction (Z.to_nat i) as [|n IH]; intros [|a l] Hn; cbn [length] in Hn; try lia.
  - cbn. destruct (Z.eq_dec x y), (Z.eq_dec a y), (Z.eqb_spec x y), (Z.eqb_spec a y); try done; lia.
  - change (<[Datatypes.S n := x]> (a :: l)) with (a :: <[n := x]> l). cbn [count_occ nth].
    specialize (IH l ltac:(lia)). destruct (Z.eq_dec a y); lia.
Qed.

Lemma occurrences_le x l : 0 <= occurrences x l <= lenZ l.
Proof. unfold occurrences, lenZ. pose proof (count_occ_bound Z.eq_dec x l). lia. Qed.

Lemma occurrences_pos l i : 0 <= i < lenZ l -> 0 < occurrences (nthZ l i) l.
Proof.
  unfold occurrences, nthZ, lenZ. intros. assert (H1 : In (nth (Z.to_nat i) l 0) l) by (apply nth_In; lia).
  apply (count_occ_In Z.eq_dec) in H1. lia.
Qed.

Lemma live_slot T fd : refs_ok T -> live T fd -> 0 <= description T fd < 8.
Proof.
  intros [[H1 H2] Hr _] [Hf Hn]. pose proof (nthZ_Forall _ _ fd Hr ltac:(lia)). cbv beta in *.
  unfold description. lia.
Qed.

Lemma closed_ok T fd : refs_ok T -> live T fd -> refs_ok (closed fd T).
Proof.
  intros HT Hl. pose proof (live_slot T fd HT Hl) as Hs. destruct HT as [[H1 H2] Hr Hc], Hl as [Hf Hn].
  unfold closed. set (slot := description T fd) in *.
  assert (Hfd : nthZ (snd T) fd = slot + 1) by (unfold slot, description; lia).
  assert (Hpos : 0 < nthZ (fst T) slot).
  { rewrite Hc by done. rewrite <- Hfd. apply occurrences_pos. lia. }
  pose proof (occurrences_le (slot + 1) (snd T)). rewrite <- Hc in H by done.
  constructor; cbn [fst snd].
  - by rewrite !lenZ_upd.
  - apply Forall_insert; [done|lia].
  - intros i Hi. rewrite nthZ_upd, occurrences_upd by lia. rewrite Hfd.
    destruct (Z.eqb_spec slot i) as [E|E].
    + subst i. rewrite Z.eqb_refl. unfold wrap8. rewrite Z.mod_small by lia. rewrite Hc by done.
      by destruct (Z.eqb_spec 0 (slot + 1)); lia.
    + rewrite Hc by done. destruct (Z.eqb_spec (slot + 1) (i + 1)), (Z.eqb_spec 0 (i + 1)); lia.
Qed.

Lemma shared_ok T fd slot :
  refs_ok T -> 0 <= fd < 8 -> nthZ (snd T) fd = 0 -> 0 <= slot < 8 -> refs_ok (shared fd slot T).
Proof.
  intros [[H1 H2] Hr Hc] Hf H0 Hs. pose proof (occurrences_le (slot + 1) (snd T)) as Ho.
  assert (Hlt : occurrences (slot + 1) (snd T) < 8).
  { pose proof (occurrences_upd (snd T) fd (slot + 1) (slot + 1) ltac:(lia)) as Hu.
    rewrite H0, Z.eqb_refl in Hu. destruct (Z.eqb_spec 0 (slot + 1)); [lia|].
    pose proof (occurrences_le (slot + 1) (updZ (snd T) fd (slot + 1))) as Hb. rewrite lenZ_upd in Hb. lia. }
  constructor; cbn [fst snd shared].
  - by rewrite !lenZ_upd.
  - apply Forall_insert; [done|lia].
  - intros i Hi. rewrite nthZ_upd, occurrences_upd by lia. rewrite H0.
    destruct (Z.eqb_spec slot i) as [E|E].
    + subst i. rewrite Z.eqb_refl, Hc by done. unfold wrap8. rewrite Z.mod_small by lia.
      destruct (Z.eqb_spec 0 (slot + 1)); lia.
    + rewrite Hc by done. destruct (Z.eqb_spec (slot + 1) (i + 1)), (Z.eqb_spec 0 (i + 1)); lia.
Qed.

Lemma opened_ok T fd slot :
  refs_ok T -> 0 <= fd < 8 -> nthZ (snd T) fd = 0 -> 0 <= slot < 8 -> nthZ (fst T) slot = 0 ->
  refs_ok (opened fd slot T).
Proof.
  intros HT Hf H0 Hs Hr. pose proof (shared_ok T fd slot HT Hf H0 Hs) as H. unfold shared in H. by rewrite Hr in H.
Qed.

(** An opened descriptor that is closed again leaves no trace. *)
Lemma closed_opened T fd slot :
  refs_ok T -> 0 <= fd < 8 -> nthZ (snd T) fd = 0 -> 0 <= slot < 8 -> nthZ (fst T) slot = 0 ->
  closed fd (opened fd slot T) = T.
Proof.
  intros [[H1 H2] _ _] Hf H0 Hs Hr. unfold closed, description, opened. cbn [fst snd].
  rewrite nthZ_upd_eq by lia. replace (slot + 1 - 1) with slot by lia. rewrite nthZ_upd_eq by lia.
  destruct T as [r d]. cbn [fst snd] in *. unfold updZ, nthZ, lenZ in *. rewrite !list_insert_insert_eq.
  f_equal; apply list_insert_id.
  - change (wrap8 (1 - 1)) with 0. rewrite <- Hr. rewrite nth_lookup. by destruct (lookup_lt_is_Some_2 r (Z.to_nat slot) ltac:(lia)) as [x ->].
  - rewrite <- H0. rewrite nth_lookup. by destruct (lookup_lt_is_Some_2 d (Z.to_nat fd) ltac:(lia)) as [x ->].
Qed.

(** ** The operations *)
Section Operations.
Context {E : Type} `{DSK : Disk E}.
Abbreviation FM := (M (fsw E)).
Definition at_tables (T : tables) (w : fsw E) : Prop := refs_of (fs_tab w) = T.

Lemma keeps_hoare {A} (c : FM A) T :
  keeps same_refs c -> hoare (at_tables T) c (fun _ => at_tables T) (fun _ => at_tables T).
Proof. intros H w Hw. specialize (H w). unfold same_refs, at_tables in *. destruct (c w) as [[e|a] w']; cbn in H; congruence. Qed.

Lemma hoare_update f T T' :
  (forall t, refs_of t = T -> refs_of (f t) = T') ->
  forall R : Z -> fsw E -> Prop, hoare (at_tables T) (update f) (fun _ => at_tables T') R.
Proof. intros H R w Hw. by apply H. Qed.

Lemma need_file_spec fd T :
  hoare (at_tables T) (need_file (E := E) fd)
    (fun slot w => at_tables T w /\ live T fd /\ slot = description T fd)
    (fun e w => at_tables T w /\ ~ live T fd /\ e = - CP32_FILE_BAD_FD).
Proof.
  intros w Hw. unfold at_tables in Hw. unfold need_file, bind, tab, gets, get_file.
  assert (Ed : t_descriptors (fs_tab w) = snd T) by (by rewrite <- Hw). rewrite Ed.
  change CP32_OPEN_MAX with 8. unfold live, description.
  destruct (Z.ltb_spec fd 0); [cbn; split; [done|split; [lia|done]]|].
  destruct (Z.leb_spec 8 fd); [cbn; split; [done|split; [lia|done]]|].
  destruct (Z.eqb_spec (nthZ (snd T) fd) 0); cbn; (split; [done|split; [|done]]); lia || tauto.
Qed.

Lemma tab_spec T (R : Z -> fsw E -> Prop) :
  hoare (at_tables T) tab (fun t w => at_tables T w /\ refs_of t = T) R.
Proof. by apply hoare_gets. Qed.

Lemma get_spec {A} (f : fsw E -> A) T (R : Z -> fsw E -> Prop) : hoare (at_tables T) (gets f) (fun _ => at_tables T) R.
Proof. by apply hoare_gets. Qed.

Lemma try_spec {A} (c : FM A) T (R : Z -> fsw E -> Prop) :
  keeps same_refs c -> hoare (at_tables T) (try c) (fun _ => at_tables T) R.
Proof. intros H w Hw. pose proof (keeps_hoare c T H w Hw) as Hc. unfold try. by destruct (c w) as [[e|a] w']. Qed.

(** Closing releases exactly the descriptor, even when the deferred removal of
    the file fails. *)
Lemma close_spec fd T :
  hoare (at_tables T) (cp32_fd_close (E := E) fd)
    (fun _ w => live T fd /\ at_tables (closed fd T) w)
    (fun _ w => (live T fd /\ at_tables (closed fd T) w) \/ (~ live T fd /\ at_tables T w)).
Proof.
  unfold cp32_fd_close. eapply hoare_bind.
  { eapply hoare_conseq; [apply (need_file_spec fd T)|done|intros a w H; exact H|]. intros e w (? & ? & _). by right. }
  intros slot. apply hoare_pure. intros [Hl ->].
  eapply hoare_bind; [apply (get_spec _ T)|]. intros f.
  eapply hoare_bind; [apply (tab_spec T)|]. intros t. apply hoare_pure. intros Ht.
  eapply hoare_bind with (Q' := fun _ => at_tables T).
  { case_match; [apply try_spec; keeps_solve|by apply hoare_ret]. }
  intros r. eapply hoare_bind; [apply (hoare_update _ T (updZ (fst T) (description T fd) (wrap8 (nthZ (fst T) (description T fd) - 1)), snd T))|].
  { intros t0 <-. done. }
  intros []. eapply hoare_bind; [apply (hoare_update _ _ (closed fd T)); intros t0 E0; unfold refs_of in *; cbn; injection E0 as -> ->; done|].
  intros []. eapply hoare_bind; [apply (hoare_update _ _ (closed fd T)); intros t0 E0; exact E0|].
  intros []. destruct r; [apply hoare_fail|apply hoare_ret]; intros w Hw; [left|]; done.
Qed.

Lemma first_zero_spec l i :
  i <= first_zero l i <= i + lenZ l /\
  (first_zero l i < i + lenZ l -> nthZ l (first_zero l i - i) = 0).
Proof.
  revert i. induction l as [|x l IH]; intros i; cbn [first_zero]; [change (lenZ (@nil Z)) with 0; lia|].
  assert (Hl : lenZ (x :: l) = lenZ l + 1) by (unfold lenZ; cbn [length]; lia). rewrite Hl. pose proof (lenZ_nonneg l).
  destruct (Z.eqb_spec x 0) as [->|].
  - split; [lia|]. intros _. by replace (i - i) with 0 by lia.
  - destruct (IH (i + 1)) as [H1 H2]. split; [lia|]. intros H3. rewrite <- H2 by lia.
    unfold nthZ. replace (Z.to_nat (first_zero l (i + 1) - i)) with (Datatypes.S (Z.to_nat (first_zero l (i + 1) - (i + 1)))) by lia.
    done.
Qed.

(** Opening takes a closed descriptor and an unused description, or leaves the
    tables alone. *)
Definition open_post (T : tables) (fd : Z) (w : fsw E) : Prop :=
  exists slot, 0 <= fd < 8 /\ 0 <= slot < 8 /\ nthZ (snd T) fd = 0 /\ nthZ (fst T) slot = 0 /\
  at_tables (opened fd slot T) w.

Lemma open_spec read capacity path T :
  refs_ok T -> hoare (at_tables T) (cp32_fd_open (E := E) read capacity path) (open_post T) (fun _ => at_tables T).
Proof.
  intros [[L1 L2] _ _]. unfold cp32_fd_open. eapply hoare_bind; [apply (tab_spec T)|]. intros t. apply hoare_pure. intros Ht.
  assert (E1 : t_references t = fst T /\ t_descriptors t = snd T) by (by rewrite <- Ht). destruct E1 as [-> ->].
  change CP32_OPEN_MAX with 8. destruct (first_zero_spec (snd T) 0) as [F1 F2]. destruct (first_zero_spec (fst T) 0) as [G1 G2].
  set (fd := first_zero (snd T) 0) in *. set (slot := first_zero (fst T) 0) in *. rewrite Z.sub_0_r in *.
  eapply hoare_bind; [apply (hoare_guard _ _ _ (fun _ w => at_tables T w /\ (fd =? 8) = false)); done|].
  intros []. apply hoare_pure. intros Hfd%Z.eqb_neq.
  eapply hoare_bind; [apply (hoare_guard _ _ _ (fun _ w => at_tables T w /\ (slot =? 8) = false)); done|].
  intros []. apply hoare_pure. intros Hslot%Z.eqb_neq.
  eapply hoare_bind; [apply (keeps_hoare _ T); keeps_solve|]. intros x.
  eapply hoare_bind; [apply (try_spec _ T); keeps_solve|]. intros r.
  eapply hoare_bind; [apply (keeps_hoare _ T); keeps_solve|]. intros directory.
  eapply hoare_bind; [apply (hoare_update _ T T); intros t0 E0; exact E0|]. intros [].
  eapply hoare_bind; [apply (hoare_update _ T T); intros t0 E0; exact E0|]. intros [].
  eapply hoare_bind; [apply (hoare_update _ T (updZ (fst T) slot 1, snd T)); intros t0 <-; done|]. intros [].
  eapply hoare_bind; [apply (hoare_update _ _ (opened fd slot T)); intros t0 E0; unfold refs_of in *; cbn; injection E0 as -> ->; done|].
  intros []. eapply hoare_bind; [apply (hoare_update _ _ (opened fd slot T)); intros t0 E0; exact E0|]. intros [].
  eapply hoare_bind; [apply (hoare_update _ _ (opened fd slot T)); intros t0 E0; exact E0|]. intros [].
  apply hoare_ret. intros w Hw. exists slot. split_and!; try lia; done.
Qed.

(** A failed open with a mode releases what it took. *)
Lemma open_mode_spec read write capacity path flags mode T :
  refs_ok T ->
  hoare (at_tables T) (cp32_fd_open_mode (E := E) read write capacity path flags mode) (open_post T) (fun _ => at_tables T).
Proof.
  intros HT. unfold cp32_fd_open_mode.
  eapply hoare_bind; [apply (keeps_hoare _ T), keeps_guard; apply _|]. intros [].
  eapply hoare_bind; [apply (keeps_hoare _ T); keeps_solve|]. intros t.
  eapply hoare_bind; [apply (keeps_hoare _ T), keeps_guard; apply _|]. intros [].
  eapply hoare_bind; [apply (keeps_hoare _ T), keeps_guard; apply _|]. intros [].
  eapply hoare_bind; [apply (try_spec _ T); keeps_solve|]. intros r.
  eapply hoare_bind; [apply (keeps_hoare _ T); keeps_solve|]. intros [].
  eapply hoare_bind; [by apply open_spec|]. intros fd.
  eapply hoare_bind with (Q' := fun _ => open_post T fd).
  { destruct (truthy (Z.land flags CP32_O_TRUNC)); [|by apply hoare_ret].
    intros w Hw. destruct Hw as (slot & Hf & Hs & H0 & H1 & Hw).
    assert (Ho : live (opened fd slot T) fd).
    { split; [done|]. cbn [opened snd]. pose proof (ro_length _ HT) as [_ Hlen]. rewrite nthZ_upd_eq; lia. }
    revert w Hw. change (hoare (at_tables (opened fd slot T))
      (t0 <- tab ;; r0 <- try (cp32_fs_truncate_inode read write capacity (f_inode (file_at t0 (slot_of_fd t0 fd))) 0) ;;
       match r0 with Ok _ => ret tt | Err e => try (cp32_fd_close fd) ;;; fail e end)
      (fun _ => open_post T fd) (fun _ => at_tables T)).
    eapply hoare_bind; [apply (get_spec _ (opened fd slot T))|]. intros t0.
    eapply hoare_bind; [apply (try_spec _ (opened fd slot T)); keeps_solve|]. intros [e|[]].
    - eapply hoare_bind with (Q' := fun _ => at_tables T); [|intros ?; by apply hoare_fail].
      intros w Hw. unfold try. pose proof (close_spec fd _ w Hw) as Hc.
      rewrite closed_opened in Hc by done. destruct (cp32_fd_close fd w) as [[e'|u] w']; [|apply Hc].
      destruct Hc as [[_ Hc]|[Hc _]]; [exact Hc|done].
    - apply hoare_ret. intros w Hw. by exists slot. }
  intros []. eapply hoare_bind with (Q' := fun _ => open_post T fd).
  { apply hoare_gets. done. }
  intros t1. eapply hoare_bind with (Q' := fun _ => open_post T fd).
  { intros w Hw. exact Hw. }
  intros []. eapply hoare_bind with (Q' := fun _ => open_post T fd).
  { intros w Hw. exact Hw. }
  intros []. by apply hoare_ret.
Qed.

(** Sharing adds a descriptor of the source's description, after closing the
    target when it was open. *)
Definition share_post (T : tables) (source fd : Z) (w : fsw E) : Prop :=
  live T source /\
  ((fd = source /\ at_tables T w) \/
   (fd <> source /\ 0 <= fd < 8 /\
    at_tables (shared fd (description T source) (if nthZ (snd T) fd =? 0 then T else closed fd T)) w)).

Lemma share_spec source target T :
  refs_ok T -> hoare (at_tables T) (cp32_fd_share (E := E) source target) (share_post T source) (fun _ => at_tables T).
Proof.
  intros HT. unfold cp32_fd_share. eapply hoare_bind.
  { eapply hoare_conseq; [apply (need_file_spec source T)|done|intros a w H; exact H|]. by intros e w (? & _). }
  intros slot. apply hoare_pure. intros [Hl _].
  eapply hoare_bind; [apply (tab_spec T)|]. intros t. apply hoare_pure. intros Ht.
  assert (Ed : t_descriptors t = snd T) by (by rewrite <- Ht). rewrite Ed.
  eapply hoare_bind with (Q' := fun fd w => at_tables T w /\ 0 <= fd < 8).
  { change CP32_OPEN_MAX with 8. case_match.
    - destruct (first_zero_spec (snd T) 0) as [F _]. rewrite (proj2 (ro_length _ HT)) in F.
      intros w Hw. unfold guard, bind. destruct (Z.eqb_spec (first_zero (snd T) 0) 8); cbn; [done|]. split; [done|lia].
    - intros w Hw. unfold guard, bind. destruct ((target <? 0) || (8 <=? target)) eqn:Eb; cbn; [done|]. split; [done|lia]. }
  intros fd. apply hoare_pure. intros Hfd.
  destruct (Z.eqb_spec fd source) as [->|Hne].
  { apply hoare_ret. intros w Hw. split; [done|]. by left. }
  unfold slot_of_fd. rewrite Ed. change (nthZ (snd T) source - 1) with (description T source).
  set (T1 := if nthZ (snd T) fd =? 0 then T else closed fd T).
  eapply hoare_bind with (Q' := fun _ => at_tables T1).
  { unfold T1, truthy. destruct (Z.eqb_spec (nthZ (snd T) fd) 0) as [E0|E0]; cbn [negb]; [by apply hoare_ret|].
    eapply hoare_bind with (Q' := fun _ => at_tables (closed fd T)); [|intros ?; by apply hoare_ret].
    intros w Hw. unfold try. pose proof (close_spec fd T w Hw) as Hc. destruct (cp32_fd_close fd w) as [[e|u] w']; [|apply Hc].
    destruct Hc as [[_ Hc]|[Hc _]]; [exact Hc|]. by destruct Hc. }
  intros []. eapply hoare_bind; [apply (hoare_update _ T1 (fst T1, updZ (snd T1) fd (description T source + 1))); intros t0 <-; done|].
  intros []. eapply hoare_bind; [apply (hoare_update _ _ (fst T1, updZ (snd T1) fd (description T source + 1))); intros t0 E0; exact E0|].
  intros []. eapply hoare_bind; [apply (hoare_update _ _ (shared fd (description T source) T1)); intros t0 E0;
    unfold refs_of in *; cbn; injection E0 as -> ->; done|].
  intros []. apply hoare_ret. intros w Hw. split; [done|]. right. done.
Qed.

Lemma fcntl_spec fd command argument T :
  refs_ok T -> hoare (at_tables T) (cp32_fd_fcntl (E := E) fd command argument)
    (fun r w => at_tables T w \/ share_post T fd r w) (fun _ => at_tables T).
Proof.
  intros HT. unfold cp32_fd_fcntl. eapply hoare_bind.
  { eapply hoare_conseq; [apply (need_file_spec fd T)|done|intros a w H; exact H|]. by intros e w (? & _). }
  intros slot. apply hoare_pure. intros [Hl _].
  eapply hoare_bind; [apply (tab_spec T)|]. intros t. apply hoare_pure. intros Ht.
  case_match.
  - eapply hoare_bind; [apply (keeps_hoare _ T), keeps_guard; apply _|]. intros [].
    eapply hoare_bind; [apply (keeps_hoare _ T), keeps_guard; apply _|]. intros [].
    eapply hoare_conseq; [by apply share_spec|done| |done]. intros r w Hr. by right.
  - eapply hoare_conseq; [apply (keeps_hoare _ T); keeps_solve|done| |done]. intros r w Hr. by left.
Qed.

Lemma shared_post_ok T source fd w : refs_ok T -> share_post T source fd w -> refs_ok (refs_of (fs_tab w)).
Proof.
  intros HT [Hl [(_ & ->)|(Hne & Hfd & ->)]]; [done|].
  pose proof (live_slot T source HT Hl) as Hs. destruct (Z.eqb_spec (nthZ (snd T) fd) 0).
  - by apply shared_ok.
  - assert (Hlive : live T fd) by done. pose proof (closed_ok T fd HT Hlive). apply shared_ok; try done.
    unfold closed. cbn [snd]. apply nthZ_upd_eq. destruct (ro_length _ HT). lia.
Qed.
End Operations.

(** ** Theorems *)
Inductive fd_call : Type :=
| Open (read : fptr) (capacity : Z) (path : option (list Z))
| OpenMode (read write : fptr) (capacity : Z) (path : option (list Z)) (flags mode : Z)
| Close (fd : Z)
| Share (source target : Z)
| Fcntl (fd command argument : Z)
| Read (fd out count : Z)
| Pread (fd bytes count offset : Z)
| Write (fd : Z) (bytes : option (list Z)) (count : Z)
| Pwrite (fd : Z) (bytes : option (list Z)) (count offset : Z)
| Truncate (fd length : Z)
| Readdir (fd inode name : Z)
| Seek (fd offset whence : Z)
| Fstat (fd out : Z).

Definition discard {E A} (c : M (fsw E) A) : M (fsw E) unit := c ;;; ret tt.
Definition perform {E} `{DSK : Disk E} (call : fd_call) : M (fsw E) unit :=
  match call with
  | Open read capacity path => discard (cp32_fd_open read capacity path)
  | OpenMode read write capacity path flags mode => discard (cp32_fd_open_mode read write capacity path flags mode)
  | Close fd => cp32_fd_close fd
  | Share source target => discard (cp32_fd_share source target)
  | Fcntl fd command argument => discard (cp32_fd_fcntl fd command argument)
  | Read fd out count => discard (cp32_fd_read fd out count)
  | Pread fd bytes count offset => discard (cp32_fd_pread fd bytes count offset)
  | Write fd bytes count => discard (cp32_fd_write fd bytes count)
  | Pwrite fd bytes count offset => discard (cp32_fd_pwrite fd bytes count offset)
  | Truncate fd length => cp32_fd_truncate fd length
  | Readdir fd inode name => discard (cp32_fd_readdir fd inode name)
  | Seek fd offset whence => discard (cp32_fd_seek fd offset whence)
  | Fstat fd out => discard (cp32_fd_fstat fd out)
  end.

(** What a call may do to the tables. *)
Inductive fd_effect (T : tables) : tables -> Prop :=
| fe_none : fd_effect T T
| fe_opened fd slot : 0 <= fd < 8 -> 0 <= slot < 8 -> nthZ (snd T) fd = 0 -> nthZ (fst T) slot = 0 ->
    fd_effect T (opened fd slot T)
| fe_closed fd : live T fd -> fd_effect T (closed fd T)
| fe_shared source fd : live T source -> 0 <= fd < 8 -> nthZ (snd T) fd = 0 ->
    fd_effect T (shared fd (description T source) T)
| fe_replaced source fd : live T source -> live T fd -> fd <> source ->
    fd_effect T (shared fd (description T source) (closed fd T)).

Section Theorems.
Context {E : Type} `{DSK : Disk E}.
Abbreviation FM := (M (fsw E)).

Lemma effect_ok T T' : refs_ok T -> fd_effect T T' -> refs_ok T'.
Proof.
  intros HT. destruct 1 as [|fd slot Hf Hs H0 H1|fd Hl|source fd Hl Hf H0|source fd Hl Hf Hne]; [done|..].
  - by apply opened_ok.
  - by apply closed_ok.
  - apply shared_ok; try done. by apply live_slot.
  - apply shared_ok; [by apply closed_ok|apply Hf| |by apply live_slot].
    unfold closed. cbn [snd]. apply nthZ_upd_eq. destruct (ro_length _ HT), Hf. lia.
Qed.

Definition affects (T : tables) (w : fsw E) : Prop := fd_effect T (refs_of (fs_tab w)).

Lemma affects_run {A} (c : FM A) T :
  hoare (at_tables T) c (fun _ => affects T) (fun _ => affects T) ->
  hoare (at_tables T) (discard c) (fun _ => affects T) (fun _ => affects T).
Proof. intros H. eapply hoare_bind; [exact H|]. intros a. by apply hoare_ret. Qed.

Lemma affects_keeps {A} (c : FM A) T :
  keeps same_refs c -> hoare (at_tables T) c (fun _ => affects T) (fun _ => affects T).
Proof.
  intros H. eapply hoare_conseq; [apply (keeps_hoare c T H)|done|..]; intros ? w Hw; unfold affects; rewrite Hw; constructor.
Qed.

Lemma share_affects T source fd w : refs_ok T -> share_post T source fd w -> affects T w.
Proof.
  intros HT [Hl [(_ & H)|(Hne & Hf & H)]]; unfold affects, at_tables in *; rewrite H; [constructor|].
  destruct (Z.eqb_spec (nthZ (snd T) fd) 0); [by constructor|]. by constructor.
Qed.

Lemma open_affects T fd w : open_post T fd w -> affects T w.
Proof. intros (slot & H1 & H2 & H3 & H4 & H). unfold affects, at_tables in *. rewrite H. by constructor. Qed.

Lemma none_affects T w : at_tables (E := E) T w -> affects T w.
Proof. intros H. unfold affects. rewrite H. constructor. Qed.

(** C18. Whatever the disk answers, every call of the descriptor layer changes
    the two tables in one of five ways: not at all, by giving an unused
    description to a closed descriptor, by releasing one open descriptor, or by
    giving the description of an open descriptor to another one that was closed
    or is released first.  Every description stays referred to by exactly as
    many descriptors as its count says, so none is lost or released early. *)
Theorem fd_calls_sound call w :
  refs_ok (refs_of (fs_tab w)) ->
  fd_effect (refs_of (fs_tab w)) (refs_of (fs_tab (snd (perform (E := E) call w)))) /\
  refs_ok (refs_of (fs_tab (snd (perform (E := E) call w)))).
Proof.
  intros HT. set (T := refs_of (fs_tab w)) in *.
  enough (H : hoare (at_tables T) (perform (E := E) call) (fun _ => affects T) (fun _ => affects T)).
  { specialize (H w eq_refl). assert (Ha : affects T (snd (perform (E := E) call w)))
      by (by destruct (perform call w) as [[e|a] w']).
    split; [exact Ha|]. exact (effect_ok _ _ HT Ha). }
  destruct call; cbn [perform]; try apply affects_run.
  - eapply hoare_conseq; [by apply open_spec|done| |]; [intros a w'; apply open_affects|intros e w'; apply none_affects].
  - eapply hoare_conseq; [by apply open_mode_spec|done| |]; [intros a w'; apply open_affects|intros e w'; apply none_affects].
  - eapply hoare_conseq; [apply close_spec|done| |].
    + intros a w' [Hl Hw]. unfold affects. rewrite Hw. by constructor.
    + intros e w' [[Hl Hw]|[_ Hw]]; [|by apply none_affects]. unfold affects. rewrite Hw. by constructor.
  - eapply hoare_conseq; [by apply share_spec|done| |].
    + intros a w'. by apply share_affects.
    + intros e w'. apply none_affects.
  - eapply hoare_conseq; [by apply fcntl_spec|done| |].
    + intros a w' [Hw|Hw]; [by apply none_affects|by eapply share_affects].
    + intros e w'. apply none_affects.
  - apply affects_keeps, keeps_fd_read.
  - apply affects_keeps, keeps_fd_pread.
  - apply affects_keeps, keeps_fd_write.
  - apply affects_keeps, keeps_fd_pwrite.
  - apply affects_keeps, keeps_fd_truncate.
  - apply affects_keeps, keeps_fd_readdir.
  - apply affects_keeps, keeps_fd_seek.
  - apply affects_keeps, keeps_fd_fstat.
Qed.

(** C19. Opening is atomic in the tables: it yields a closed descriptor with a
    description of its own, or fails and the tables are as before, also when
    the file was created or opened and a later step failed. *)
Theorem fd_open_mode_atomic read write capacity path flags mode w :
  refs_ok (refs_of (fs_tab w)) ->
  match cp32_fd_open_mode (E := E) read write capacity path flags mode w with
  | (Ok fd, w') => ~ live (refs_of (fs_tab w)) fd /\ live (refs_of (fs_tab w')) fd /\
      nthZ (t_references (fs_tab w')) (description (refs_of (fs_tab w')) fd) = 1 /\
      forall fd', fd' <> fd -> 0 <= fd' -> nthZ (t_descriptors (fs_tab w')) fd' = nthZ (t_descriptors (fs_tab w)) fd'
  | (Err _, w') => refs_of (fs_tab w') = refs_of (fs_tab w)
  end.
Proof.
  intros HT. pose proof (open_mode_spec read write capacity path flags mode _ HT w eq_refl) as H.
  destruct (cp32_fd_open_mode read write capacity path flags mode w) as [[e|fd] w']; [exact H|].
  destruct H as (slot & Hf & Hs & H0 & H1 & Hw). unfold at_tables, opened in Hw. cbn [refs_of fst snd] in Hw.
  destruct (ro_length _ HT) as [L1 L2]. cbn [refs_of fst snd] in *.
  assert (Er : t_references (fs_tab w') = updZ (t_references (fs_tab w)) slot 1) by (by injection Hw).
  assert (Ed : t_descriptors (fs_tab w') = updZ (t_descriptors (fs_tab w)) fd (slot + 1)) by (by injection Hw).
  unfold live, description. cbn [refs_of fst snd]. rewrite Er, Ed, (nthZ_upd_eq _ fd) by lia.
  split_and!; try lia.
  - replace (slot + 1 - 1) with slot by lia. apply nthZ_upd_eq. lia.
  - intros fd' Hne Hp. apply nthZ_upd_ne; lia.
Qed.
End Theorems.

(** ** Witnesses: opening a file of the demonstration volume *)
Lemma boot_refs {E} (e : E) : refs_ok (refs_of (fs_tab (boot_fsw e))).
Proof.
  constructor; [split; reflexivity|repeat constructor; lia|].
  intros slot Hs. cbn [boot_fsw fs_tab refs_of fst empty_fdtab t_references t_descriptors snd].
  rewrite nthZ_replicate.
  assert (E0 : count_occ Z.eq_dec (replicate 8 0) (slot + 1) = 0%nat).
  { apply count_occ_not_In. intros Hi. apply list_elem_of_In, elem_of_replicate in Hi as [? _]. lia. }
  unfold occurrences. by rewrite E0.
Qed.

Lemma fd_calls_sound_witness :
  refs_of (fs_tab (snd (perform (Open MD_READ 65536 (Some demo_path)) Demo.state))) =
    (updZ (replicate 8 0) 0 1, updZ (replicate 8 0) 0 1) /\
  refs_ok (refs_of (fs_tab (snd (perform (Open MD_READ 65536 (Some demo_path)) Demo.state)))).
Proof.
  split; [vm_compute; reflexivity|].
  exact (proj2 (fd_calls_sound (Open MD_READ 65536 (Some demo_path)) Demo.state (boot_refs _))).
Defined.

Lemma fd_open_mode_atomic_witness :
  fst (cp32_fd_open_mode MD_READ 0 65536 (Some demo_path) 0 0 Demo.state) = Ok 0 /\
  live (refs_of (fs_tab (snd (cp32_fd_open_mode MD_READ 0 65536 (Some demo_path) 0 0 Demo.state)))) 0.
Proof.
  pose proof (fd_open_mode_atomic MD_READ 0 65536 (Some demo_path) 0 0 Demo.state (boot_refs _)) as H.
  assert (E : fst (cp32_fd_open_mode MD_READ 0 65536 (Some demo_path) 0 0 Demo.state) = Ok 0) by (vm_compute; reflexivity).
  split; [exact E|]. rewrite (run_ok _ _ _ E) in H. apply H.
Defined.
