(* ===== verification/Fproc.v ===== *)
(** * Process namespaces: src/src/fs/fproc.c, fproc.h, misc.c, rename.c and time.c

    Each client process has its own descriptor numbers, working directory and
    mask above the shared descriptor table.  The records are modelled as a
    store indexed by the C pointer, so that two parameters may name the same
    record. *)
From S2P Require Import Prelude Codec FsTypes FdTable MemDisk Super Timestamp Inode Read Path.
From S2P Require Import Bitmap Zones Dirent Namespace Filedes.

Definition CP32_FPROC_FDS := 4.

(** [struct cp32_fproc]; [p_cwd] is the array [char cwd[256]]. *)
Record cp32_fproc := Fproc {
  p_pid : Z; p_root_inode : Z; p_uid : Z; p_euid : Z; p_gid : Z; p_egid : Z; p_mask : Z;
  p_cwd : list Z; p_fds : list Z; p_cloexec : Z; p_input : Z }.

Definition p_set_pid (x : Z) (p : cp32_fproc) : cp32_fproc :=
  Fproc x (p_root_inode p) (p_uid p) (p_euid p) (p_gid p) (p_egid p) (p_mask p) (p_cwd p)
        (p_fds p) (p_cloexec p) (p_input p).
Definition p_set_mask (x : Z) (p : cp32_fproc) : cp32_fproc :=
  Fproc (p_pid p) (p_root_inode p) (p_uid p) (p_euid p) (p_gid p) (p_egid p) x (p_cwd p)
        (p_fds p) (p_cloexec p) (p_input p).
Definition p_set_cwd (x : list Z) (p : cp32_fproc) : cp32_fproc :=
  Fproc (p_pid p) (p_root_inode p) (p_uid p) (p_euid p) (p_gid p) (p_egid p) (p_mask p) x
        (p_fds p) (p_cloexec p) (p_input p).
Definition p_set_fds (x : list Z) (p : cp32_fproc) : cp32_fproc :=
  Fproc (p_pid p) (p_root_inode p) (p_uid p) (p_euid p) (p_gid p) (p_egid p) (p_mask p)
        (p_cwd p) x (p_cloexec p) (p_input p).
Definition p_set_cloexec (x : Z) (p : cp32_fproc) : cp32_fproc :=
  Fproc (p_pid p) (p_root_inode p) (p_uid p) (p_euid p) (p_gid p) (p_egid p) (p_mask p)
        (p_cwd p) (p_fds p) x (p_input p).
Definition p_set_input (x : Z) (p : cp32_fproc) : cp32_fproc :=
  Fproc (p_pid p) (p_root_inode p) (p_uid p) (p_euid p) (p_gid p) (p_egid p) (p_mask p)
        (p_cwd p) (p_fds p) (p_cloexec p) x.
Definition p_set_fd (i x : Z) (p : cp32_fproc) : cp32_fproc := p_set_fds (updZ (p_fds p) i x) p.

Definition empty_fproc : cp32_fproc :=
  Fproc 0 0 0 0 0 0 0 (replicate 256 0) (replicate 4 0) 0 0.

(** The string in the array [cwd], and [strcpy(cwd, s)]. *)
Definition cwd_of (p : cp32_fproc) : list Z := c_string (p_cwd p).
Definition put_string (arr s : list Z) : list Z := splice arr 0 (s ++ [0]).

(** The state of the file service: the filesystem, the process records and the
    pointer [cp32_fproc_suspended]. *)
Record fsproc (E : Type) := Fsproc {
  pw_fs : fsw E; pw_procs : list cp32_fproc; pw_suspended : option Z }.
Arguments Fsproc {E}.
Arguments pw_fs {E}.
Arguments pw_procs {E}.
Arguments pw_suspended {E}.

(** [int cp32_fs_errno(int r)] of appfile.c *)
Definition cp32_fs_errno (r : Z) : Z :=
  let k := - r in
  if k =? CP32_FILE_BUSY then -16 else
  if k =? CP32_FILE_NOT_EMPTY then -39 else
  if k =? CP32_FILE_NOT_FOUND then -2 else
  if k =? CP32_FILE_IS_DIR then -21 else
  if k =? CP32_FILE_NOT_DIR then -20 else
  if k =? CP32_FILE_NAME then -36 else
  if k =? CP32_FILE_BAD_FD then -9 else
  if k =? CP32_FILE_LIMIT then -24 else
  if k =? CP32_FILE_EXISTS then -17 else
  if k =? CP32_FILE_NOSPACE then -28 else
  if k =? CP32_FILE_ACCESS then -13 else
  if k =? CP32_FILE_BIG then -27 else
  if k =? CP32_FILE_LINK_LIMIT then -31 else
  if k =? CP32_FILE_READONLY then -30 else
  if k =? CP32_SUPER_INVALID then -22 else
  if k =? CP32_SUPER_UNSUPPORTED then -38 else -5.

(** ** rename.c: rebasing a working directory *)

(** [for (i = n+1; i > a; i--) cwd[b+i-a-1] = cwd[i-1];] *)
Fixpoint move_up (k : nat) (i a b : Z) (cwd : list Z) : list Z :=
  match k with
  | O => cwd
  | S k => move_up k (i - 1) a b (updZ cwd (b + i - a - 1) (nthZ cwd (i - 1)))
  end.

(** [for (i = a; i <= n; i++) cwd[b+i-a] = cwd[i];] *)
Fixpoint move_down (k : nat) (i a b : Z) (cwd : list Z) : list Z :=
  match k with
  | O => cwd
  | S k => move_down k (i + 1) a b (updZ cwd (b + i - a) (nthZ cwd i))
  end.

(** [for (i = 0; i < b; i++) cwd[i] = next[i];] *)
Fixpoint copy_prefix (k : nat) (i : Z) (next cwd : list Z) : list Z :=
  match k with
  | O => cwd
  | S k => copy_prefix k (i + 1) next (updZ cwd i (nthZ next i))
  end.

(** [static int rebase(cwd, old, next, commit)]: the array afterwards; [old] and
    [next] are strings. *)
Definition rebase (cwd old next : list Z) (commit : bool) : res (list Z) :=
  let a := lenZ old in
  let b := lenZ next in
  let n := lenZ (c_string cwd) in
  if (n <? a) || (truthy (nthZ cwd a) && (nthZ cwd a !=? SLASH)) then Ok cwd else
  if negb (bool_decide (take (Z.to_nat a) cwd = old)) then Ok cwd else
  if 255 <? b + n - a then Err (- CP32_FILE_NAME) else
  if commit then
    let cwd := if a <? b then move_up (Z.to_nat (n + 1 - a)) (n + 1) a b cwd
               else move_down (Z.to_nat (n + 1 - a)) a a b cwd in
    Ok (copy_prefix (Z.to_nat b) 0 next cwd)
  else Ok cwd.

(** ** Operations *)
Section Fproc.
Context {E : Type} `{DSK : Disk E}.
Abbreviation FM := (M (fsw E)).
Abbreviation PM := (M (fsproc E)).

Definition fs {A} (c : FM A) : PM A :=
  fun w => let (r, s) := c (pw_fs w) in (r, Fsproc s (pw_procs w) (pw_suspended w)).

Definition proc (i : Z) : PM cp32_fproc :=
  gets (fun w => nth (Z.to_nat i) (pw_procs w) empty_fproc).
Definition on_proc (i : Z) (f : cp32_fproc -> cp32_fproc) : PM unit :=
  modify (fun w => Fsproc (pw_fs w)
    (updZ (pw_procs w) i (f (nth (Z.to_nat i) (pw_procs w) empty_fproc))) (pw_suspended w)).

(** A filesystem status turned into a MINIX errno: [return cp32_fs_errno(r);] *)
Definition errno {A} (c : PM A) : PM A :=
  fun w => match c w with (Err e, w') => (Err (cp32_fs_errno e), w') | x => x end.

(** misc.c *)
Definition cp32_fd_dup (fd : Z) : FM Z := cp32_fd_fcntl fd CP32_F_DUPFD 0.
Definition cp32_fd_dup2 (fd target : Z) : FM Z :=
  guard ((target <? 0) || (CP32_OPEN_MAX <=? target)) (- CP32_FILE_BAD_FD) ;;;
  cp32_fd_share fd target.

(** A call whose status is ignored. *)
Definition ignore {A} (c : PM A) : PM unit := try c ;;; ret tt.

(** [void cp32_fproc_exit(p)] *)
Definition cp32_fproc_exit (p : Z) : PM unit :=
  for_ 4 0 (fun i _ =>
    x <- proc p ;;
    (if truthy (nthZ (p_fds x) i) then ignore (fs (cp32_fd_close (nthZ (p_fds x) i - 1)))
     else ret tt) ;;;
    on_proc p (p_set_fd i 0)) tt ;;;
  x <- proc p ;;
  (if truthy (p_input x) then ignore (fs (cp32_fd_close (p_input x - 1))) else ret tt) ;;;
  on_proc p (fun x => p_set_pid 0 (p_set_cloexec 0 (p_set_input 0 x))).

(** Lines 21-29 of [cp32_fproc_clone]. *)
Definition clone_fds (child parent : Z) : PM unit :=
  for_ 4 0 (fun i _ =>
    x <- proc parent ;;
    if nthZ (p_fds x) i =? 0 then ret tt else
    fd <- fs (cp32_fd_dup (nthZ (p_fds x) i - 1)) ;;
    on_proc child (p_set_fd i (fd + 1))) tt ;;;
  x <- proc parent ;;
  if p_input x =? 0 then ret tt else
  fd <- fs (cp32_fd_dup (p_input x - 1)) ;;
  on_proc child (p_set_input (fd + 1)).

(** [int cp32_fproc_clone(child, parent, pid)] *)
Definition cp32_fproc_clone (child parent pid : Z) : PM unit :=
  c <- proc child ;;
  x <- proc parent ;;
  guard ((child =? parent) || truthy (p_pid c) || (p_pid x =? 0) || (pid =? 0))
        (- CP32_SUPER_INVALID) ;;;
  on_proc child (fun _ => p_set_input 0 (p_set_fds (replicate 4 0) x)) ;;;
  r <- try (clone_fds child parent) ;;
  match r with
  | Ok _ => on_proc child (p_set_pid pid)
  | Err fd => cp32_fproc_exit child ;;; fail fd
  end.

(** [void cp32_fproc_exec(p)] *)
Definition cp32_fproc_exec (p : Z) : PM unit :=
  for_ 4 0 (fun i _ =>
    x <- proc p ;;
    if truthy (Z.land (p_cloexec x) (1 <<u i)) && truthy (nthZ (p_fds x) i) then
      ignore (fs (cp32_fd_close (nthZ (p_fds x) i - 1))) ;;;
      on_proc p (p_set_fd i 0)
    else ret tt) tt ;;;
  on_proc p (p_set_cloexec 0).

(** [int cp32_fproc_chdir(p, read, capacity, path)] *)
Definition cp32_fproc_chdir (p : Z) (read : fptr) (capacity : Z) (path : option (list Z))
  : PM unit :=
  x <- proc p ;;
  guard ((p_pid x =? 0) || (p_root_inode x !=? 1)) (- CP32_SUPER_INVALID) ;;;
  guard (lenZ (default [] path) =? 0) (- CP32_FILE_NOT_FOUND) ;;;
  cwd <- fs (cp32_minix_chdir read capacity (cwd_of x) path) ;;
  on_proc p (p_set_cwd (put_string (p_cwd x) cwd)).

(** [fd < 3 || fd >= 3 + CP32_FPROC_FDS || !p->fds[fd-3]] *)
Definition bad_local (x : cp32_fproc) (fd : Z) : bool :=
  (fd <? 3) || (3 + CP32_FPROC_FDS <=? fd) || (nthZ (p_fds x) (fd - 3) =? 0).

(** [p->cloexec &= ~(1U << slot)] *)
Definition clear_cloexec (slot : Z) (x : cp32_fproc) : cp32_fproc :=
  p_set_cloexec (Z.land (p_cloexec x) (not32 (1 <<u slot))) x.

(** [int cp32_fproc_flags(p, fd, command, arg)] *)
Definition cp32_fproc_flags (p fd command arg : Z) : PM Z :=
  x <- proc p ;;
  guard ((p_pid x =? 0) || bad_local x fd) (- CP32_FILE_BAD_FD) ;;;
  let slot := fd - 3 in
  if command =? CP32_F_GETFD then ret (of_bool (truthy (Z.land (p_cloexec x) (1 <<u slot))))
  else if command =? CP32_F_SETFD then
    guard (truthy (Z.land arg (not32 CP32_FD_CLOEXEC))) (- CP32_SUPER_INVALID) ;;;
    on_proc p (p_set_cloexec (Z.lor (Z.land (p_cloexec x) (not32 (1 <<u slot)))
                                    ((Z.land arg 1) <<u slot))) ;;;
    ret 0
  else
    guard ((command !=? CP32_F_GETFL) && (command !=? CP32_F_SETFL)) (- CP32_SUPER_INVALID) ;;;
    fs (cp32_fd_fcntl (nthZ (p_fds x) slot - 1) command arg).

(** [int cp32_fproc_dup2(p, source, target)] *)
Definition cp32_fproc_dup2 (p source target : Z) : PM Z :=
  x <- proc p ;;
  guard ((p_pid x =? 0) || (target <? 3) || (3 + CP32_FPROC_FDS <=? target) ||
         bad_local x source) (- CP32_FILE_BAD_FD) ;;;
  if source =? target then ret target else
  let from := nthZ (p_fds x) (source - 3) - 1 in
  let old := nthZ (p_fds x) (target - 3) in
  r <- fs (if truthy old then cp32_fd_dup2 from (old - 1) else cp32_fd_dup from) ;;
  on_proc p (fun x => clear_cloexec (target - 3) (p_set_fd (target - 3) (r + 1) x)) ;;;
  ret target.

(** [int cp32_fproc_dupfd(p, source, minimum)] *)
Definition cp32_fproc_dupfd (p source minimum : Z) : PM Z :=
  x <- proc p ;;
  guard ((p_pid x =? 0) || bad_local x source) (- CP32_FILE_BAD_FD) ;;;
  guard (3 + CP32_FPROC_FDS <=? minimum) (- CP32_SUPER_INVALID) ;;;
  let minimum := if minimum <? 3 then 3 else minimum in
  let slot := first_zero (drop (Z.to_nat (minimum - 3)) (p_fds x)) (minimum - 3) in
  guard (slot =? CP32_FPROC_FDS) (- CP32_FILE_LIMIT) ;;;
  r <- fs (cp32_fd_dup (nthZ (p_fds x) (source - 3) - 1)) ;;
  on_proc p (fun x => clear_cloexec slot (p_set_fd slot (r + 1) x)) ;;;
  ret (slot + 3).

(** [int cp32_fproc_utime(p, read, write, capacity, name, atime, mtime, now, current)] *)
Definition cp32_fproc_utime (p : option Z) (read write : fptr) (capacity : Z)
    (name : option (list Z)) (atime mtime now : Z) (current : bool) : PM unit :=
  match p with
  | None => fail (-9)
  | Some p =>
    x <- proc p ;;
    guard (p_pid x =? 0) (-9) ;;;
    guard (lenZ (default [] name) =? 0) (-2) ;;;
    guard (write =? 0) (-30) ;;;
    guard ((0x7fffffff <? now) ||
           (negb current && ((0x7fffffff <? atime) || (0x7fffffff <? mtime)))) (-22) ;;;
    path <- errno (fs (cp32_minix_abspath (Some (cwd_of x)) name)) ;;
    fs cache_invalidate ;;;
    y <- errno (fs (cp32_fs_resolve_path read capacity (Some path))) ;;
    let (super, number) := (y : cp32_minix_super * Z) in
    info <- errno (fs (cp32_fs_stat_inode read super number nonnull)) ;;
    let rights := Z.land (Z.shiftr (st_mode info) (if p_egid x =? st_gid info then 3 else 0)) 7 in
    (if truthy (p_euid x) && (p_euid x !=? st_uid info) then
       guard (negb current) (-1) ;;;
       guard (Z.land rights 2 =? 0) (-13)
     else ret tt) ;;;
    let sw := s_swapped super in
    let raw := put_time (put_time (put_time (zeros 12) 0 (if current then now else atime) sw)
                 4 (if current then now else mtime) sw) 8 now sw in
    r <- fs (call_write write (inode_offset super number +u 12) raw) ;;
    fs cache_invalidate ;;;
    guard (r !=? 12) (-5)
  end.

(** The directory part of [cp32_fproc_move], lines 34-49: the canonical names. *)
Definition dot_name (c : list Z) : bool :=
  (lenZ c =? 0) || bool_decide (c = [DOT]) || bool_decide (c = [DOT; DOT]).

Definition move_names (read : fptr) (capacity : Z) (old next : list Z)
  : FM (list Z * list Z) :=
  guard (dot_name (last_component old)) (- CP32_SUPER_INVALID) ;;;
  old <- cp32_minix_chdir read capacity [SLASH] (Some old) ;;
  let name := last_component next in
  guard (dot_name name) (- CP32_SUPER_INVALID) ;;;
  guard (14 <? lenZ name) (- CP32_FILE_NAME) ;;;
  let parent := take (length next - length name) next in
  dir <- cp32_minix_chdir read capacity [SLASH] (Some parent) ;;
  next <- cp32_minix_abspath (Some dir) (Some name) ;;
  ret (old, next).

(** [r = cp32_minix_stat(read, capacity, cwd, &cwd); ... return -CP32_FILE_BUSY;] *)
Definition cwd_busy (read : fptr) (capacity : Z) (i target : Z) : PM unit :=
  x <- proc i ;;
  st <- fs (cp32_minix_stat read capacity (Some (cwd_of x)) nonnull) ;;
  guard (st_inode st =? target) (- CP32_FILE_BUSY).

(** The records whose directory a move must respect: the caller, the live
    [other] and the suspended parent. *)
Definition move_clients (p : Z) (other : option Z) : PM (list Z) :=
  live <- match other with
          | None => ret []
          | Some o => x <- proc o ;; ret (if p_pid x =? 0 then [] else [o])
          end ;;
  s <- gets pw_suspended ;;
  ret (p :: live ++ match s with Some s => [s] | None => [] end).

Fixpoint each {A} (f : A -> PM unit) (l : list A) : PM unit :=
  match l with
  | [] => ret tt
  | x :: l => f x ;;; each f l
  end.

Definition rebase_check (old next : list Z) (i : Z) : PM unit :=
  x <- proc i ;;
  match rebase (p_cwd x) old next false with Ok _ => ret tt | Err e => fail e end.

Definition rebase_commit (old next : list Z) (i : Z) : PM unit :=
  x <- proc i ;;
  match rebase (p_cwd x) old next true with
  | Ok cwd => on_proc i (p_set_cwd cwd)
  | Err _ => ret tt
  end.

Definition rebase_previous (previous : option (list Z)) (old next : list Z) (commit : bool)
  : PM (option (list Z)) :=
  match previous with
  | None => ret None
  | Some arr => match rebase arr old next commit with
                | Ok arr => ret (Some arr)
                | Err e => fail e
                end
  end.

(** [int cp32_fproc_move(p, other, previous, read, write, capacity, source, destination)]:
    the array [previous] afterwards. *)
Definition cp32_fproc_move (p : Z) (other : option Z) (previous : option (list Z))
    (read write : fptr) (capacity : Z) (source destination : option (list Z))
  : PM (option (list Z)) :=
  guard (bool_decide (source = None) || bool_decide (destination = None))
        (- CP32_SUPER_INVALID) ;;;
  guard ((lenZ (default [] source) =? 0) || (lenZ (default [] destination) =? 0))
        (- CP32_FILE_NOT_FOUND) ;;;
  guard (write =? 0) (- CP32_FILE_READONLY) ;;;
  x <- proc p ;;
  old <- fs (cp32_minix_abspath (Some (cwd_of x)) source) ;;
  next <- fs (cp32_minix_abspath (Some (cwd_of x)) destination) ;;
  st <- fs (cp32_minix_stat read capacity (Some old) nonnull) ;;
  if Z.land (st_mode st) S_IFMT !=? S_IFDIR then
    fs (cp32_minix_move read write capacity (Some old) (Some next)) ;;; ret previous
  else
    let* (old, next) := fs (move_names read capacity old next) in
    clients <- move_clients p other ;;
    r <- try (fs (cp32_minix_stat read capacity (Some next) nonnull)) ;;
    match r with
    | Ok target => if st_inode target =? st_inode st then ret tt
                   else each (fun i => cwd_busy read capacity i (st_inode target)) clients
    | Err e => guard (e !=? - CP32_FILE_NOT_FOUND) e
    end ;;;
    each (rebase_check old next) clients ;;;
    rebase_previous previous old next false ;;;
    fs (cp32_minix_move read write capacity (Some old) (Some next)) ;;;
    each (rebase_commit old next) clients ;;;
    rebase_previous previous old next true.
End Fproc.
