(* ===== verification/Appfile.v ===== *)
(** * Application file requests: src/src/fs/appfile.c

    The request dispatcher of the file service, the loader's open and the
    validation of the request at the kernel boundary.  [buffer] is the memory
    at the request pointer; the records of src/src/apps/hello/abi.h are read from
    it at their offsets, little-endian as the target stores them. *)
From S2P Require Import Prelude Codec FsTypes FdTable MemDisk Super Timestamp Inode Read Path.
From S2P Require Import Bitmap Zones Dirent Namespace Filedes Fproc.

(** ** abi.h *)
Definition CP32_APP_OPEN := 0.
Definition CP32_APP_READ := 1.
Definition CP32_APP_CLOSE := 2.
Definition CP32_APP_SEEK_SET := 3.
Definition CP32_APP_SEEK_END := 5.
Definition CP32_APP_FSTAT := 6.
Definition CP32_APP_READDIR := 7.
Definition CP32_APP_OPENDIR := 8.
Definition CP32_APP_STAT := 9.
Definition CP32_APP_EXEC := 10.
Definition CP32_APP_OPEN_MODE := 11.
Definition CP32_APP_WRITE := 12.
Definition CP32_APP_DUP := 13.
Definition CP32_APP_CHDIR := 14.
Definition CP32_APP_GETCWD := 15.
Definition CP32_APP_UMASK := 16.
Definition CP32_APP_GETFD := 17.
Definition CP32_APP_SETFL := 20.
Definition CP32_APP_UNLINK := 21.
Definition CP32_APP_MKDIR := 22.
Definition CP32_APP_LINK := 23.
Definition CP32_APP_CHMOD := 24.
Definition CP32_APP_RMDIR := 25.
Definition CP32_APP_RENAME_NOREPLACE := 26.
Definition CP32_APP_FTRUNCATE := 27.
Definition CP32_APP_DUP2 := 28.
Definition CP32_APP_DUPFD := 29.
Definition CP32_APP_FCHMOD := 30.
Definition CP32_APP_PREAD := 31.
Definition CP32_APP_PWRITE := 32.
Definition CP32_APP_FSINFO := 33.
Definition CP32_APP_FILE_MAX := 4.
Definition CP32_APP_RENAME := 34.
Definition CP32_APP_SYNC := 35.
Definition CP32_APP_FSYNC := 36.
Definition CP32_APP_TIME := 37.
Definition CP32_APP_STIME := 38.
Definition CP32_APP_UTIME := 39.

(** Field access: a string field of [n] bytes and an unsigned field. *)
Definition str_field (buffer : list Z) (at_ n : Z) : list Z :=
  c_string (take (Z.to_nat n) (ptr_add buffer at_)).
Definition u32_field (buffer : list Z) (at_ : Z) : Z := cp32_fs_u32 (ptr_add buffer at_) 0.

(** An array of unsigned values as [memcpy] copies it out of a record. *)
Definition le_words (ws : list Z) : list Z :=
  flat_map (fun x => put32 (replicate 4 0) 0 x 0) ws.
Definition stat_record (st : FsTypes.cp32_minix_stat) : list Z :=
  le_words [st_inode st; st_mode st; st_links st; st_uid st; st_gid st; st_size st;
            st_atime st; st_mtime st; st_ctime st].
Definition space_record (sp : cp32_minix_space) : list Z :=
  le_words [sp_zone_size sp; sp_zones sp; sp_free_zones sp; sp_inodes sp; sp_free_inodes sp;
            sp_name_max sp].

Section Appfile.
Context {E : Type} `{DSK : Disk E}.
Abbreviation FM := (M (fsw E)).
Abbreviation PM := (M (fsproc E)).

(** [int cp32_fproc_rmdir(p, guard, read, write, capacity, name)] *)
Definition trim_slashes (name : list Z) : list Z :=
  take (length name - span_slash (rev name)) name.

Definition guard_cwd (i : Z) (read : fptr) (capacity target : Z) : PM unit :=
  x <- proc i ;;
  cwd <- errno (fs (cp32_minix_stat read capacity (Some (cwd_of x)) nonnull)) ;;
  guard (target =? st_inode cwd) (-16).

Definition cp32_fproc_rmdir (p : Z) (guarded : option Z) (read write : fptr) (capacity : Z)
    (name : list Z) : PM unit :=
  x <- proc p ;;
  guard (p_pid x =? 0) (-9) ;;;
  guard (lenZ name =? 0) (-2) ;;;
  let final := last_component (trim_slashes name) in
  guard (bool_decide (final = [DOT]) || bool_decide (final = [DOT; DOT])) (-22) ;;;
  path <- errno (fs (cp32_minix_abspath (Some (cwd_of x)) (Some name))) ;;
  target <- errno (fs (cp32_minix_stat read capacity (Some path) nonnull)) ;;
  guard (Z.land (st_mode target) S_IFMT !=? S_IFDIR) (-20) ;;;
  guard (st_inode target =? 1) (-16) ;;;
  match guarded with
  | None => ret tt
  | Some g => y <- proc g ;;
              if p_pid y =? 0 then ret tt else guard_cwd g read capacity (st_inode target)
  end ;;;
  s <- gets pw_suspended ;;
  match s with
  | None => ret tt
  | Some s => guard_cwd s read capacity (st_inode target)
  end ;;;
  errno (fs (cp32_minix_rmdir read write capacity (Some path) (Some (cwd_of x)))).

(** The result of a request: the value and the buffer afterwards. *)
Definition done (r : Z) (buffer : list Z) : PM (Z * list Z) := ret (r, buffer).
Definition abspath (p : Z) (path : list Z) : PM (list Z) :=
  x <- proc p ;; fs (cp32_minix_abspath (Some (cwd_of x)) (Some path)).

(** Lines 92-104 *)
Definition app_link (p : Z) (read write : fptr) (capacity op : Z) (buffer : list Z) : PM unit :=
  let source := str_field buffer 0 256 in
  let destination := str_field buffer 256 256 in
  guard ((lenZ source =? 0) || (lenZ destination =? 0)) (-2) ;;;
  errno (source <- abspath p source ;;
         destination <- abspath p destination ;;
         fs (if op =? CP32_APP_LINK
             then cp32_minix_link read write capacity (Some source) (Some destination)
             else cp32_minix_rename read write capacity (Some source) (Some destination))).

(** Lines 105-117 *)
Definition app_mkdir (p : Z) (read write : fptr) (capacity op : Z) (buffer : list Z) : PM unit :=
  guard (truthy (u32_field buffer 256)) (-22) ;;;
  let path := str_field buffer 0 256 in
  guard (lenZ path =? 0) (-2) ;;;
  errno (path <- abspath p path ;;
         x <- proc p ;;
         fs (if op =? CP32_APP_CHMOD
             then cp32_minix_chmod read write capacity (Some path) (u32_field buffer 260)
             else cp32_minix_mkdir_mode read write capacity (Some path)
                    (Z.land (u32_field buffer 260) (not32 (p_mask x))))).

(** Lines 158-159 and 193-194: the lowest free local descriptor. *)
Definition free_local (p : Z) : PM Z :=
  x <- proc p ;;
  let slot := first_zero (p_fds x) 0 in
  guard (slot =? CP32_APP_FILE_MAX) (-24) ;;;
  ret slot.

(** Lines 154-165 *)
Definition app_open_mode (p : Z) (read write : fptr) (capacity : Z) (buffer : list Z) : PM Z :=
  let path := str_field buffer 0 256 in
  guard (lenZ path =? 0) (-2) ;;;
  slot <- free_local p ;;
  path <- errno (abspath p path) ;;
  x <- proc p ;;
  r <- errno (fs (cp32_fd_open_mode read write capacity (Some path) (u32_field buffer 256)
                    (Z.land (u32_field buffer 260) (not32 (p_mask x))))) ;;
  on_proc p (fun x => clear_cloexec slot (p_set_fd slot (r + 1) x)) ;;;
  ret (slot + 3).

(** Lines 166-188 *)
Definition app_open (p : Z) (read write : fptr) (capacity op : Z) (buffer : list Z) : PM Z :=
  let path := c_string buffer in
  guard (lenZ path =? 0) (-2) ;;;
  slot <- free_local p ;;
  path <- errno (abspath p path) ;;
  fd <- errno (fs (if op =? CP32_APP_OPENDIR then cp32_fd_open read capacity (Some path)
                   else cp32_fd_open_mode read write capacity (Some path) CP32_O_RDONLY 0)) ;;
  r <- try (fs (cp32_fd_fstat fd nonnull)) ;;
  let closing e := ignore (fs (cp32_fd_close fd)) ;;; fail e in
  match r with
  | Err e => closing (cp32_fs_errno e)
  | Ok info =>
      let type := Z.land (st_mode info) S_IFMT in
      if (op =? CP32_APP_OPENDIR) && (type !=? S_IFDIR) then closing (-20) else
      if (op =? CP32_APP_OPEN) && (type !=? S_IFREG) then closing (-21) else
      if Z.land (st_mode info) 292 =? 0 then closing (-13) else
      on_proc p (p_set_fd slot (fd + 1)) ;;;
      ret (slot + 3)
  end.

(** Lines 198-243: the operations on an open backend descriptor [fd]. *)
Definition app_position (fd op : Z) (buffer : list Z) : PM (Z * list Z) :=
  let offset := u32_field buffer 0 in
  let count := u32_field buffer 4 in
  guard ((64 <? count) || (0x7fffffff <? offset) || (0x7fffffff -u offset <? count)) (-22) ;;;
  if op =? CP32_APP_PWRITE then
    r <- errno (fs (cp32_fd_pwrite fd (Some (take (Z.to_nat count) (ptr_add buffer 8)))
                      count offset)) ;;
    done r buffer
  else
    bytes <- errno (fs (cp32_fd_pread fd nonnull count offset)) ;;
    done (lenZ bytes) (splice buffer 8 bytes).

Definition app_on_fd (p : Z) (write : fptr) (slot fd op : Z) (buffer : list Z) (arg : Z)
  : PM (Z * list Z) :=
  if (op =? CP32_APP_PREAD) || (op =? CP32_APP_PWRITE) then app_position fd op buffer
  else if op =? CP32_APP_FCHMOD then
    t <- fs tab ;;
    errno (match cp32_fd_file t fd with
           | None => fail (- CP32_FILE_BAD_FD)
           | Some s => let f := file_at t s in
               fs (cp32_fs_chmod_inode (f_read f) write (Some (f_super f)) (f_inode f) arg)
           end) ;;;
    done 0 buffer
  else if op =? CP32_APP_FTRUNCATE then
    guard (0x7fffffff <? arg) (-22) ;;;
    errno (fs (cp32_fd_truncate fd arg)) ;;; done 0 buffer
  else if op =? CP32_APP_WRITE then
    guard (64 <? arg) (-22) ;;;
    r <- errno (fs (cp32_fd_write fd (Some (take (Z.to_nat arg) buffer)) arg)) ;;
    done r buffer
  else if op =? CP32_APP_FSTAT then
    info <- errno (fs (cp32_fd_fstat fd nonnull)) ;;
    done 0 (splice buffer 0 (stat_record info))
  else if op =? CP32_APP_READDIR then
    r <- errno (fs (cp32_fd_readdir fd nonnull nonnull)) ;;
    match r with
    | None => done 0 buffer
    | Some (inode, name) => done 1 (splice buffer 0 (le_words [inode] ++ name ++ [0; 0]))
    end
  else if op =? CP32_APP_CLOSE then
    r <- try (fs (cp32_fd_close fd)) ;;
    on_proc p (fun x => clear_cloexec slot (p_set_fd slot 0 x)) ;;;
    match r with Ok _ => done 0 buffer | Err e => fail (cp32_fs_errno e) end
  else if op =? CP32_APP_READ then
    guard (64 <? arg) (-22) ;;;
    bytes <- errno (fs (cp32_fd_read fd nonnull arg)) ;;
    done (lenZ bytes) (splice buffer 0 bytes)
  else if (CP32_APP_SEEK_SET <=? op) && (op <=? CP32_APP_SEEK_END) then
    position <- errno (fs (cp32_fd_seek fd (to_int arg) (op - CP32_APP_SEEK_SET))) ;;
    done position buffer
  else fail (-22).

(** [int cp32_fproc_file(p, read, write, capacity, op, fd, buffer, arg)] *)
Definition cp32_fproc_file (p : Z) (read write : fptr) (capacity op fd : Z) (buffer : list Z)
    (arg : Z) : PM (Z * list Z) :=
  x <- proc p ;;
  guard (p_pid x =? 0) (-9) ;;;
  if op =? CP32_APP_SYNC then done 0 buffer else
  if op =? CP32_APP_FSINFO then
    info <- errno (fs (cp32_minix_space_read read capacity nonnull)) ;;
    done 0 (splice buffer 0 (space_record info)) else
  if op =? CP32_APP_DUPFD then
    r <- errno (cp32_fproc_dupfd p fd arg) ;; done r buffer else
  if op =? CP32_APP_DUP2 then
    guard ((arg <? 3) || (3 + CP32_APP_FILE_MAX <=? arg)) (-9) ;;;
    r <- errno (cp32_fproc_dup2 p fd arg) ;; done r buffer else
  if op =? CP32_APP_RENAME then
    errno (cp32_fproc_move p None None read write capacity
             (Some (str_field buffer 0 256)) (Some (str_field buffer 256 256))) ;;;
    done 0 buffer else
  if op =? CP32_APP_RMDIR then
    cp32_fproc_rmdir p None read write capacity (c_string buffer) ;;; done 0 buffer else
  if (op =? CP32_APP_LINK) || (op =? CP32_APP_RENAME_NOREPLACE) then
    app_link p read write capacity op buffer ;;; done 0 buffer else
  if (op =? CP32_APP_MKDIR) || (op =? CP32_APP_CHMOD) then
    app_mkdir p read write capacity op buffer ;;; done 0 buffer else
  if op =? CP32_APP_UNLINK then
    guard (lenZ (c_string buffer) =? 0) (-2) ;;;
    errno (path <- abspath p (c_string buffer) ;;
           fs (cp32_minix_unlink read write capacity (Some path))) ;;;
    done 0 buffer else
  if op =? CP32_APP_CHDIR then
    errno (cp32_fproc_chdir p read capacity (Some (c_string buffer))) ;;; done 0 buffer else
  if op =? CP32_APP_GETCWD then
    let n := lenZ (cwd_of x) + 1 in
    guard (arg <? n) (-34) ;;;
    done 0 (splice buffer 0 (cwd_of x ++ [0])) else
  if op =? CP32_APP_UMASK then
    on_proc p (p_set_mask (Z.land arg 511)) ;;; done (p_mask x) buffer else
  if (CP32_APP_GETFD <=? op) && (op <=? CP32_APP_SETFL) then
    r <- errno (cp32_fproc_flags p fd (CP32_F_GETFD + op - CP32_APP_GETFD) arg) ;;
    done r buffer else
  if op =? CP32_APP_STAT then
    guard (lenZ (c_string buffer) =? 0) (-2) ;;;
    info <- errno (path <- abspath p (c_string buffer) ;;
                   fs (cp32_minix_stat read capacity (Some path) nonnull)) ;;
    done 0 (splice buffer 256 (stat_record info)) else
  if op =? CP32_APP_OPEN_MODE then
    r <- app_open_mode p read write capacity buffer ;; done r buffer else
  if (op =? CP32_APP_OPEN) || (op =? CP32_APP_OPENDIR) then
    r <- app_open p read write capacity op buffer ;; done r buffer else
  guard (bad_local x fd) (-9) ;;;
  let slot := fd - 3 in
  let fd := nthZ (p_fds x) slot - 1 in
  if op =? CP32_APP_FSYNC then
    t <- fs tab ;;
    match cp32_fd_file t fd with Some _ => done 0 buffer | None => fail (-9) end else
  if op =? CP32_APP_DUP then
    slot <- free_local p ;;
    r <- errno (fs (cp32_fd_dup fd)) ;;
    on_proc p (fun x => clear_cloexec slot (p_set_fd slot (r + 1) x)) ;;;
    done (slot + 3) buffer
  else app_on_fd p write slot fd op buffer arg.

(** [int cp32_fproc_exec_open(p, read, capacity, name, size)]: the descriptor and
    the size. *)
Definition cp32_fproc_exec_open (p : Z) (read : fptr) (capacity : Z) (name : list Z)
  : PM (Z * Z) :=
  x <- proc p ;;
  guard (p_pid x =? 0) (-9) ;;;
  guard (lenZ name =? 0) (-2) ;;;
  path <- errno (fs (cp32_minix_abspath (Some (cwd_of x)) (Some name))) ;;
  r <- try (fs (cp32_fd_open_mode read 0 capacity (Some path) CP32_O_RDONLY 0)) ;;
  match r with
  | Err e => fail (if e =? - CP32_FILE_IS_DIR then -13 else cp32_fs_errno e)
  | Ok fd =>
      r <- try (fs (cp32_fd_fstat fd nonnull)) ;;
      match r with
      | Err _ => ignore (fs (cp32_fd_close fd)) ;;; fail (-5)
      | Ok info =>
          if (Z.land (st_mode info) S_IFMT !=? S_IFREG) || (Z.land (st_mode info) 73 =? 0) ||
             (Z.land (st_mode info) 292 =? 0)
          then ignore (fs (cp32_fd_close fd)) ;;; fail (-13)
          else ret (fd, st_size info)
      end
  end.
End Appfile.

(** [op] is one of [ops]. *)
Definition op_in (op : Z) (ops : list Z) : bool := existsb (Z.eqb op) ops.

(** The operations that pass a buffer (lines 277-279). *)
Definition buffer_ops : list Z :=
  [CP32_APP_FSINFO; CP32_APP_PREAD; CP32_APP_PWRITE; CP32_APP_OPEN; CP32_APP_OPENDIR;
   CP32_APP_READ; CP32_APP_FSTAT; CP32_APP_READDIR; CP32_APP_STAT; CP32_APP_OPEN_MODE;
   CP32_APP_MKDIR; CP32_APP_CHMOD; CP32_APP_RENAME; CP32_APP_LINK; CP32_APP_RENAME_NOREPLACE;
   CP32_APP_WRITE; CP32_APP_CHDIR; CP32_APP_GETCWD; CP32_APP_UNLINK; CP32_APP_RMDIR].
Definition path_ops : list Z :=
  [CP32_APP_OPEN; CP32_APP_OPENDIR; CP32_APP_UNLINK; CP32_APP_RMDIR].
Definition request_ops : list Z := [CP32_APP_OPEN_MODE; CP32_APP_MKDIR; CP32_APP_CHMOD].
Definition link_ops : list Z := [CP32_APP_RENAME; CP32_APP_LINK; CP32_APP_RENAME_NOREPLACE].

(** [p < base || p > top || n > top - p] *)
Definition outside (p n base top : Z) : bool := (p <? base) || (top <? p) || (top - p <? n).

(** [int cp32_fproc_validate(op, buffer, n, base, top)]: [p] is the address of
    [buffer] and [mem] the memory of the process. *)
Definition cp32_fproc_validate (mem : mem) (op p n base top : Z) : Z :=
  let at_ i := mem (p + i) in
  if (op =? CP32_APP_TIME) || (op =? CP32_APP_STIME) then
    if (n !=? 4) || truthy (Z.land p 3) || outside p 4 base top then -14 else 0
  else if op =? CP32_APP_UTIME then
    if n !=? 268 then -22 else
    if truthy (Z.land p 3) || outside p n base top then -14 else
    if truthy (at_ 255) || (1 <? cp32_fs_u32 (mem_read mem (p + 264) 4) 0) then -22 else 0
  else if op_in op [CP32_APP_SYNC; CP32_APP_FSYNC] && (truthy p || truthy n) then -22
  else if (CP32_APP_UTIME <? op) || (op =? CP32_APP_EXEC) then -22
  else if op_in op buffer_ops then
    if op_in op [CP32_APP_GETCWD; CP32_APP_CHDIR] && ((n =? 0) || (256 <? n)) then -22 else
    if op_in op path_ops && ((n =? 0) || (256 <? n)) then -36 else
    if op_in op [CP32_APP_READ; CP32_APP_WRITE] && (64 <? n) then -22 else
    if op_in op request_ops && ((n !=? 264) || truthy (Z.land p 3)) then -22 else
    if op_in op [CP32_APP_PREAD; CP32_APP_PWRITE] && ((n !=? 72) || truthy (Z.land p 3))
    then -22 else
    if (op =? CP32_APP_FSINFO) && (n !=? 24) then -22 else
    if (op =? CP32_APP_FSTAT) && (n !=? 36) then -22 else
    if (op =? CP32_APP_READDIR) && (n !=? 20) then -22 else
    if (op =? CP32_APP_STAT) && (n !=? 292) then -22 else
    if op_in op link_ops && (n !=? 512) then -22 else
    if truthy n && outside p n base top then -14 else
    if (op_in op path_ops || (op =? CP32_APP_CHDIR)) && truthy (at_ (n - 1)) then -22 else
    if op_in op link_ops && (truthy (at_ 255) || truthy (at_ 511)) then -36 else
    if (op =? CP32_APP_STAT) && truthy (at_ 255) then -36 else
    if op_in op request_ops && truthy (at_ 255) then -22 else 0
  else 0.
