(* ===== verification/Ktypes.v ===== *)
(** * Kernel data: src/src/kernel/proc.h, glo.h and the statics of proc.c;
    address translation of src/src/kernel/system.c

    A [struct proc *] is a number: 0 is [NIL_PROC] and [i + 1] is [&proc[i]].
    Counters and diagnostics that no decision reads are not part of the state. *)
From S2P Require Import Prelude Codec Kconst.

(** ** The process table *)
Record stackframe_s := Frame {
  r_a : list Z; r_pc : Z; r_psw : Z; r_sp : Z; r_sar : Z; r_lbeg : Z; r_lend : Z; r_lcount : Z }.
Record mem_map := Map { mem_vir : Z; mem_phys : Z; mem_len : Z }.

Record proc := Proc {
  p_reg : stackframe_s; p_stguard : Z; p_shadow : Z; p_nr : Z; p_int_blocked : Z;
  p_int_held : Z; p_nextheld : Z; p_flags : Z; p_map : list mem_map; p_pid : Z;
  user_time : Z; sys_time : Z; child_utime : Z; child_stime : Z; p_alarm : Z; p_callerq : Z;
  p_sendlink : Z; p_messbuf : Z; p_getfrom : Z; p_sendto : Z; p_nextready : Z; p_pending : Z;
  p_pendcount : Z; p_blocked_frame_valid : Z; p_blocked_frame_result : Z;
  p_blocked_frame_pc : Z; p_blocked_frame_psw : Z; p_blocked_frame_sp : Z; p_name : list Z }.

Definition set_p_reg (x : stackframe_s) (rp : proc) : proc :=
  Proc x (p_stguard rp) (p_shadow rp) (p_nr rp) (p_int_blocked rp) (p_int_held rp)
    (p_nextheld rp) (p_flags rp) (p_map rp) (p_pid rp) (user_time rp) (sys_time rp)
    (child_utime rp) (child_stime rp) (p_alarm rp) (p_callerq rp) (p_sendlink rp) (p_messbuf rp)
    (p_getfrom rp) (p_sendto rp) (p_nextready rp) (p_pending rp) (p_pendcount rp)
    (p_blocked_frame_valid rp) (p_blocked_frame_result rp) (p_blocked_frame_pc rp)
    (p_blocked_frame_psw rp) (p_blocked_frame_sp rp) (p_name rp).
Definition set_p_nr (x : Z) (rp : proc) : proc :=
  Proc (p_reg rp) (p_stguard rp) (p_shadow rp) x (p_int_blocked rp) (p_int_held rp)
    (p_nextheld rp) (p_flags rp) (p_map rp) (p_pid rp) (user_time rp) (sys_time rp)
    (child_utime rp) (child_stime rp) (p_alarm rp) (p_callerq rp) (p_sendlink rp) (p_messbuf rp)
    (p_getfrom rp) (p_sendto rp) (p_nextready rp) (p_pending rp) (p_pendcount rp)
    (p_blocked_frame_valid rp) (p_blocked_frame_result rp) (p_blocked_frame_pc rp)
    (p_blocked_frame_psw rp) (p_blocked_frame_sp rp) (p_name rp).
Definition set_p_int_blocked (x : Z) (rp : proc) : proc :=
  Proc (p_reg rp) (p_stguard rp) (p_shadow rp) (p_nr rp) x (p_int_held rp) (p_nextheld rp)
    (p_flags rp) (p_map rp) (p_pid rp) (user_time rp) (sys_time rp) (child_utime rp)
    (child_stime rp) (p_alarm rp) (p_callerq rp) (p_sendlink rp) (p_messbuf rp) (p_getfrom rp)
    (p_sendto rp) (p_nextready rp) (p_pending rp) (p_pendcount rp) (p_blocked_frame_valid rp)
    (p_blocked_frame_result rp) (p_blocked_frame_pc rp) (p_blocked_frame_psw rp)
    (p_blocked_frame_sp rp) (p_name rp).
Definition set_p_int_held (x : Z) (rp : proc) : proc :=
  Proc (p_reg rp) (p_stguard rp) (p_shadow rp) (p_nr rp) (p_int_blocked rp) x (p_nextheld rp)
    (p_flags rp) (p_map rp) (p_pid rp) (user_time rp) (sys_time rp) (child_utime rp)
    (child_stime rp) (p_alarm rp) (p_callerq rp) (p_sendlink rp) (p_messbuf rp) (p_getfrom rp)
    (p_sendto rp) (p_nextready rp) (p_pending rp) (p_pendcount rp) (p_blocked_frame_valid rp)
    (p_blocked_frame_result rp) (p_blocked_frame_pc rp) (p_blocked_frame_psw rp)
    (p_blocked_frame_sp rp) (p_name rp).
Definition set_p_nextheld (x : Z) (rp : proc) : proc :=
  Proc (p_reg rp) (p_stguard rp) (p_shadow rp) (p_nr rp) (p_int_blocked rp) (p_int_held rp) x
    (p_flags rp) (p_map rp) (p_pid rp) (user_time rp) (sys_time rp) (child_utime rp)
    (child_stime rp) (p_alarm rp) (p_callerq rp) (p_sendlink rp) (p_messbuf rp) (p_getfrom rp)
    (p_sendto rp) (p_nextready rp) (p_pending rp) (p_pendcount rp) (p_blocked_frame_valid rp)
    (p_blocked_frame_result rp) (p_blocked_frame_pc rp) (p_blocked_frame_psw rp)
    (p_blocked_frame_sp rp) (p_name rp).
Definition set_p_flags (x : Z) (rp : proc) : proc :=
  Proc (p_reg rp) (p_stguard rp) (p_shadow rp) (p_nr rp) (p_int_blocked rp) (p_int_held rp)
    (p_nextheld rp) x (p_map rp) (p_pid rp) (user_time rp) (sys_time rp) (child_utime rp)
    (child_stime rp) (p_alarm rp) (p_callerq rp) (p_sendlink rp) (p_messbuf rp) (p_getfrom rp)
    (p_sendto rp) (p_nextready rp) (p_pending rp) (p_pendcount rp) (p_blocked_frame_valid rp)
    (p_blocked_frame_result rp) (p_blocked_frame_pc rp) (p_blocked_frame_psw rp)
    (p_blocked_frame_sp rp) (p_name rp).
Definition set_p_pid (x : Z) (rp : proc) : proc :=
  Proc (p_reg rp) (p_stguard rp) (p_shadow rp) (p_nr rp) (p_int_blocked rp) (p_int_held rp)
    (p_nextheld rp) (p_flags rp) (p_map rp) x (user_time rp) (sys_time rp) (child_utime rp)
    (child_stime rp) (p_alarm rp) (p_callerq rp) (p_sendlink rp) (p_messbuf rp) (p_getfrom rp)
    (p_sendto rp) (p_nextready rp) (p_pending rp) (p_pendcount rp) (p_blocked_frame_valid rp)
    (p_blocked_frame_result rp) (p_blocked_frame_pc rp) (p_blocked_frame_psw rp)
    (p_blocked_frame_sp rp) (p_name rp).
Definition set_user_time (x : Z) (rp : proc) : proc :=
  Proc (p_reg rp) (p_stguard rp) (p_shadow rp) (p_nr rp) (p_int_blocked rp) (p_int_held rp)
    (p_nextheld rp) (p_flags rp) (p_map rp) (p_pid rp) x (sys_time rp) (child_utime rp)
    (child_stime rp) (p_alarm rp) (p_callerq rp) (p_sendlink rp) (p_messbuf rp) (p_getfrom rp)
    (p_sendto rp) (p_nextready rp) (p_pending rp) (p_pendcount rp) (p_blocked_frame_valid rp)
    (p_blocked_frame_result rp) (p_blocked_frame_pc rp) (p_blocked_frame_psw rp)
    (p_blocked_frame_sp rp) (p_name rp).
Definition set_sys_time (x : Z) (rp : proc) : proc :=
  Proc (p_reg rp) (p_stguard rp) (p_shadow rp) (p_nr rp) (p_int_blocked rp) (p_int_held rp)
    (p_nextheld rp) (p_flags rp) (p_map rp) (p_pid rp) (user_time rp) x (child_utime rp)
    (child_stime rp) (p_alarm rp) (p_callerq rp) (p_sendlink rp) (p_messbuf rp) (p_getfrom rp)
    (p_sendto rp) (p_nextready rp) (p_pending rp) (p_pendcount rp) (p_blocked_frame_valid rp)
    (p_blocked_frame_result rp) (p_blocked_frame_pc rp) (p_blocked_frame_psw rp)
    (p_blocked_frame_sp rp) (p_name rp).
Definition set_child_utime (x : Z) (rp : proc) : proc :=
  Proc (p_reg rp) (p_stguard rp) (p_shadow rp) (p_nr rp) (p_int_blocked rp) (p_int_held rp)
    (p_nextheld rp) (p_flags rp) (p_map rp) (p_pid rp) (user_time rp) (sys_time rp) x
    (child_stime rp) (p_alarm rp) (p_callerq rp) (p_sendlink rp) (p_messbuf rp) (p_getfrom rp)
    (p_sendto rp) (p_nextready rp) (p_pending rp) (p_pendcount rp) (p_blocked_frame_valid rp)
    (p_blocked_frame_result rp) (p_blocked_frame_pc rp) (p_blocked_frame_psw rp)
    (p_blocked_frame_sp rp) (p_name rp).
Definition set_child_stime (x : Z) (rp : proc) : proc :=
  Proc (p_reg rp) (p_stguard rp) (p_shadow rp) (p_nr rp) (p_int_blocked rp) (p_int_held rp)
    (p_nextheld rp) (p_flags rp) (p_map rp) (p_pid rp) (user_time rp) (sys_time rp)
    (child_utime rp) x (p_alarm rp) (p_callerq rp) (p_sendlink rp) (p_messbuf rp) (p_getfrom rp)
    (p_sendto rp) (p_nextready rp) (p_pending rp) (p_pendcount rp) (p_blocked_frame_valid rp)
    (p_blocked_frame_result rp) (p_blocked_frame_pc rp) (p_blocked_frame_psw rp)
    (p_blocked_frame_sp rp) (p_name rp).
Definition set_p_alarm (x : Z) (rp : proc) : proc :=
  Proc (p_reg rp) (p_stguard rp) (p_shadow rp) (p_nr rp) (p_int_blocked rp) (p_int_held rp)
    (p_nextheld rp) (p_flags rp) (p_map rp) (p_pid rp) (user_time rp) (sys_time rp)
    (child_utime rp) (child_stime rp) x (p_callerq rp) (p_sendlink rp) (p_messbuf rp)
    (p_getfrom rp) (p_sendto rp) (p_nextready rp) (p_pending rp) (p_pendcount rp)
    (p_blocked_frame_valid rp) (p_blocked_frame_result rp) (p_blocked_frame_pc rp)
    (p_blocked_frame_psw rp) (p_blocked_frame_sp rp) (p_name rp).
Definition set_p_callerq (x : Z) (rp : proc) : proc :=
  Proc (p_reg rp) (p_stguard rp) (p_shadow rp) (p_nr rp) (p_int_blocked rp) (p_int_held rp)
    (p_nextheld rp) (p_flags rp) (p_map rp) (p_pid rp) (user_time rp) (sys_time rp)
    (child_utime rp) (child_stime rp) (p_alarm rp) x (p_sendlink rp) (p_messbuf rp)
    (p_getfrom rp) (p_sendto rp) (p_nextready rp) (p_pending rp) (p_pendcount rp)
    (p_blocked_frame_valid rp) (p_blocked_frame_result rp) (p_blocked_frame_pc rp)
    (p_blocked_frame_psw rp) (p_blocked_frame_sp rp) (p_name rp).
Definition set_p_sendlink (x : Z) (rp : proc) : proc :=
  Proc (p_reg rp) (p_stguard rp) (p_shadow rp) (p_nr rp) (p_int_blocked rp) (p_int_held rp)
    (p_nextheld rp) (p_flags rp) (p_map rp) (p_pid rp) (user_time rp) (sys_time rp)
    (child_utime rp) (child_stime rp) (p_alarm rp) (p_callerq rp) x (p_messbuf rp)
    (p_getfrom rp) (p_sendto rp) (p_nextready rp) (p_pending rp) (p_pendcount rp)
    (p_blocked_frame_valid rp) (p_blocked_frame_result rp) (p_blocked_frame_pc rp)
    (p_blocked_frame_psw rp) (p_blocked_frame_sp rp) (p_name rp).
Definition set_p_messbuf (x : Z) (rp : proc) : proc :=
  Proc (p_reg rp) (p_stguard rp) (p_shadow rp) (p_nr rp) (p_int_blocked rp) (p_int_held rp)
    (p_nextheld rp) (p_flags rp) (p_map rp) (p_pid rp) (user_time rp) (sys_time rp)
    (child_utime rp) (child_stime rp) (p_alarm rp) (p_callerq rp) (p_sendlink rp) x
    (p_getfrom rp) (p_sendto rp) (p_nextready rp) (p_pending rp) (p_pendcount rp)
    (p_blocked_frame_valid rp) (p_blocked_frame_result rp) (p_blocked_frame_pc rp)
    (p_blocked_frame_psw rp) (p_blocked_frame_sp rp) (p_name rp).
Definition set_p_getfrom (x : Z) (rp : proc) : proc :=
  Proc (p_reg rp) (p_stguard rp) (p_shadow rp) (p_nr rp) (p_int_blocked rp) (p_int_held rp)
    (p_nextheld rp) (p_flags rp) (p_map rp) (p_pid rp) (user_time rp) (sys_time rp)
    (child_utime rp) (child_stime rp) (p_alarm rp) (p_callerq rp) (p_sendlink rp) (p_messbuf rp)
    x (p_sendto rp) (p_nextready rp) (p_pending rp) (p_pendcount rp) (p_blocked_frame_valid rp)
    (p_blocked_frame_result rp) (p_blocked_frame_pc rp) (p_blocked_frame_psw rp)
    (p_blocked_frame_sp rp) (p_name rp).
Definition set_p_sendto (x : Z) (rp : proc) : proc :=
  Proc (p_reg rp) (p_stguard rp) (p_shadow rp) (p_nr rp) (p_int_blocked rp) (p_int_held rp)
    (p_nextheld rp) (p_flags rp) (p_map rp) (p_pid rp) (user_time rp) (sys_time rp)
    (child_utime rp) (child_stime rp) (p_alarm rp) (p_callerq rp) (p_sendlink rp) (p_messbuf rp)
    (p_getfrom rp) x (p_nextready rp) (p_pending rp) (p_pendcount rp) (p_blocked_frame_valid rp)
    (p_blocked_frame_result rp) (p_blocked_frame_pc rp) (p_blocked_frame_psw rp)
    (p_blocked_frame_sp rp) (p_name rp).
Definition set_p_nextready (x : Z) (rp : proc) : proc :=
  Proc (p_reg rp) (p_stguard rp) (p_shadow rp) (p_nr rp) (p_int_blocked rp) (p_int_held rp)
    (p_nextheld rp) (p_flags rp) (p_map rp) (p_pid rp) (user_time rp) (sys_time rp)
    (child_utime rp) (child_stime rp) (p_alarm rp) (p_callerq rp) (p_sendlink rp) (p_messbuf rp)
    (p_getfrom rp) (p_sendto rp) x (p_pending rp) (p_pendcount rp) (p_blocked_frame_valid rp)
    (p_blocked_frame_result rp) (p_blocked_frame_pc rp) (p_blocked_frame_psw rp)
    (p_blocked_frame_sp rp) (p_name rp).
Definition set_p_pending (x : Z) (rp : proc) : proc :=
  Proc (p_reg rp) (p_stguard rp) (p_shadow rp) (p_nr rp) (p_int_blocked rp) (p_int_held rp)
    (p_nextheld rp) (p_flags rp) (p_map rp) (p_pid rp) (user_time rp) (sys_time rp)
    (child_utime rp) (child_stime rp) (p_alarm rp) (p_callerq rp) (p_sendlink rp) (p_messbuf rp)
    (p_getfrom rp) (p_sendto rp) (p_nextready rp) x (p_pendcount rp) (p_blocked_frame_valid rp)
    (p_blocked_frame_result rp) (p_blocked_frame_pc rp) (p_blocked_frame_psw rp)
    (p_blocked_frame_sp rp) (p_name rp).
Definition set_p_pendcount (x : Z) (rp : proc) : proc :=
  Proc (p_reg rp) (p_stguard rp) (p_shadow rp) (p_nr rp) (p_int_blocked rp) (p_int_held rp)
    (p_nextheld rp) (p_flags rp) (p_map rp) (p_pid rp) (user_time rp) (sys_time rp)
    (child_utime rp) (child_stime rp) (p_alarm rp) (p_callerq rp) (p_sendlink rp) (p_messbuf rp)
    (p_getfrom rp) (p_sendto rp) (p_nextready rp) (p_pending rp) x (p_blocked_frame_valid rp)
    (p_blocked_frame_result rp) (p_blocked_frame_pc rp) (p_blocked_frame_psw rp)
    (p_blocked_frame_sp rp) (p_name rp).
Definition set_p_blocked_frame_valid (x : Z) (rp : proc) : proc :=
  Proc (p_reg rp) (p_stguard rp) (p_shadow rp) (p_nr rp) (p_int_blocked rp) (p_int_held rp)
    (p_nextheld rp) (p_flags rp) (p_map rp) (p_pid rp) (user_time rp) (sys_time rp)
    (child_utime rp) (child_stime rp) (p_alarm rp) (p_callerq rp) (p_sendlink rp) (p_messbuf rp)
    (p_getfrom rp) (p_sendto rp) (p_nextready rp) (p_pending rp) (p_pendcount rp) x
    (p_blocked_frame_result rp) (p_blocked_frame_pc rp) (p_blocked_frame_psw rp)
    (p_blocked_frame_sp rp) (p_name rp).
Definition set_p_blocked_frame_result (x : Z) (rp : proc) : proc :=
  Proc (p_reg rp) (p_stguard rp) (p_shadow rp) (p_nr rp) (p_int_blocked rp) (p_int_held rp)
    (p_nextheld rp) (p_flags rp) (p_map rp) (p_pid rp) (user_time rp) (sys_time rp)
    (child_utime rp) (child_stime rp) (p_alarm rp) (p_callerq rp) (p_sendlink rp) (p_messbuf rp)
    (p_getfrom rp) (p_sendto rp) (p_nextready rp) (p_pending rp) (p_pendcount rp)
    (p_blocked_frame_valid rp) x (p_blocked_frame_pc rp) (p_blocked_frame_psw rp)
    (p_blocked_frame_sp rp) (p_name rp).
Definition set_p_blocked_frame_pc (x : Z) (rp : proc) : proc :=
  Proc (p_reg rp) (p_stguard rp) (p_shadow rp) (p_nr rp) (p_int_blocked rp) (p_int_held rp)
    (p_nextheld rp) (p_flags rp) (p_map rp) (p_pid rp) (user_time rp) (sys_time rp)
    (child_utime rp) (child_stime rp) (p_alarm rp) (p_callerq rp) (p_sendlink rp) (p_messbuf rp)
    (p_getfrom rp) (p_sendto rp) (p_nextready rp) (p_pending rp) (p_pendcount rp)
    (p_blocked_frame_valid rp) (p_blocked_frame_result rp) x (p_blocked_frame_psw rp)
    (p_blocked_frame_sp rp) (p_name rp).
Definition set_p_blocked_frame_psw (x : Z) (rp : proc) : proc :=
  Proc (p_reg rp) (p_stguard rp) (p_shadow rp) (p_nr rp) (p_int_blocked rp) (p_int_held rp)
    (p_nextheld rp) (p_flags rp) (p_map rp) (p_pid rp) (user_time rp) (sys_time rp)
    (child_utime rp) (child_stime rp) (p_alarm rp) (p_callerq rp) (p_sendlink rp) (p_messbuf rp)
    (p_getfrom rp) (p_sendto rp) (p_nextready rp) (p_pending rp) (p_pendcount rp)
    (p_blocked_frame_valid rp) (p_blocked_frame_result rp) (p_blocked_frame_pc rp) x
    (p_blocked_frame_sp rp) (p_name rp).
Definition set_p_blocked_frame_sp (x : Z) (rp : proc) : proc :=
  Proc (p_reg rp) (p_stguard rp) (p_shadow rp) (p_nr rp) (p_int_blocked rp) (p_int_held rp)
    (p_nextheld rp) (p_flags rp) (p_map rp) (p_pid rp) (user_time rp) (sys_time rp)
    (child_utime rp) (child_stime rp) (p_alarm rp) (p_callerq rp) (p_sendlink rp) (p_messbuf rp)
    (p_getfrom rp) (p_sendto rp) (p_nextready rp) (p_pending rp) (p_pendcount rp)
    (p_blocked_frame_valid rp) (p_blocked_frame_result rp) (p_blocked_frame_pc rp)
    (p_blocked_frame_psw rp) x (p_name rp).
Definition set_p_stguard (x : Z) (rp : proc) : proc :=
  Proc (p_reg rp) x (p_shadow rp) (p_nr rp) (p_int_blocked rp) (p_int_held rp) (p_nextheld rp)
    (p_flags rp) (p_map rp) (p_pid rp) (user_time rp) (sys_time rp) (child_utime rp)
    (child_stime rp) (p_alarm rp) (p_callerq rp) (p_sendlink rp) (p_messbuf rp) (p_getfrom rp)
    (p_sendto rp) (p_nextready rp) (p_pending rp) (p_pendcount rp) (p_blocked_frame_valid rp)
    (p_blocked_frame_result rp) (p_blocked_frame_pc rp) (p_blocked_frame_psw rp)
    (p_blocked_frame_sp rp) (p_name rp).
Definition set_p_shadow (x : Z) (rp : proc) : proc :=
  Proc (p_reg rp) (p_stguard rp) x (p_nr rp) (p_int_blocked rp) (p_int_held rp) (p_nextheld rp)
    (p_flags rp) (p_map rp) (p_pid rp) (user_time rp) (sys_time rp) (child_utime rp)
    (child_stime rp) (p_alarm rp) (p_callerq rp) (p_sendlink rp) (p_messbuf rp) (p_getfrom rp)
    (p_sendto rp) (p_nextready rp) (p_pending rp) (p_pendcount rp) (p_blocked_frame_valid rp)
    (p_blocked_frame_result rp) (p_blocked_frame_pc rp) (p_blocked_frame_psw rp)
    (p_blocked_frame_sp rp) (p_name rp).
Definition set_p_map (x : list mem_map) (rp : proc) : proc :=
  Proc (p_reg rp) (p_stguard rp) (p_shadow rp) (p_nr rp) (p_int_blocked rp) (p_int_held rp)
    (p_nextheld rp) (p_flags rp) x (p_pid rp) (user_time rp) (sys_time rp) (child_utime rp)
    (child_stime rp) (p_alarm rp) (p_callerq rp) (p_sendlink rp) (p_messbuf rp) (p_getfrom rp)
    (p_sendto rp) (p_nextready rp) (p_pending rp) (p_pendcount rp) (p_blocked_frame_valid rp)
    (p_blocked_frame_result rp) (p_blocked_frame_pc rp) (p_blocked_frame_psw rp)
    (p_blocked_frame_sp rp) (p_name rp).
Definition set_p_name (x : list Z) (rp : proc) : proc :=
  Proc (p_reg rp) (p_stguard rp) (p_shadow rp) (p_nr rp) (p_int_blocked rp) (p_int_held rp)
    (p_nextheld rp) (p_flags rp) (p_map rp) (p_pid rp) (user_time rp) (sys_time rp) (child_utime rp)
    (child_stime rp) (p_alarm rp) (p_callerq rp) (p_sendlink rp) (p_messbuf rp) (p_getfrom rp)
    (p_sendto rp) (p_nextready rp) (p_pending rp) (p_pendcount rp) (p_blocked_frame_valid rp)
    (p_blocked_frame_result rp) (p_blocked_frame_pc rp) (p_blocked_frame_psw rp)
    (p_blocked_frame_sp rp) x.

Definition set_reg_a (i x : Z) (rp : proc) : proc :=
  let r := p_reg rp in
  set_p_reg (Frame (updZ (r_a r) i x) (r_pc r) (r_psw r) (r_sp r) (r_sar r) (r_lbeg r)
                   (r_lend r) (r_lcount r)) rp.
Definition set_reg_pc (x : Z) (rp : proc) : proc :=
  let r := p_reg rp in
  set_p_reg (Frame (r_a r) x (r_psw r) (r_sp r) (r_sar r) (r_lbeg r) (r_lend r) (r_lcount r)) rp.

Definition empty_map : mem_map := Map 0 0 0.
Definition empty_frame : stackframe_s := Frame (replicate 16 0) 0 0 0 0 0 0 0.
(** A descriptor after [memset] to 0. *)
Definition zero_proc : proc :=
  Proc empty_frame 0 0 0 0 0 0 0 (replicate 3 empty_map) 0 0 0 0 0 0 0 0 0 0 0 0 0 0 0 0 0 0 0
       (replicate 16 0).

Definition NIL_PROC : Z := 0.
(** [rp < BEG_PROC_ADDR || rp >= END_PROC_ADDR] *)
Definition outside_table (rp : Z) : bool := (rp <? 1) || (NR_TASKS + NR_PROCS + 1 <=? rp).
(** [BEG_SERV_ADDR] *)
Definition BEG_SERV_ADDR : Z := NR_TASKS + 1.
Definition END_PROC_ADDR : Z := NR_TASKS + NR_PROCS + 1.

Definition isidlehardware (n : Z) : bool := (n =? IDLE) || (n =? HARDWARE).
Definition isokprocn (n : Z) : bool := wrap32 (n + NR_TASKS) <? NR_PROCS + NR_TASKS.
Definition isoksrc_dest (n : Z) : bool := isokprocn n || (n =? ANY).
Definition isrxhardware (n : Z) : bool := (n =? ANY) || (n =? HARDWARE).

(** [flags & bit], [flags |= bit], [flags &= ~bit] *)
Definition has (flags bit : Z) : bool := truthy (Z.land flags bit).

(** ** The kernel state *)
Record kst := Kst {
  k_proc : Z -> proc; k_addr : Z -> Z; k_proc_ptr : Z; k_bill_ptr : Z; k_current : Z;
  k_rdy_head : Z -> Z; k_rdy_tail : Z -> Z; k_held_head : Z; k_held_tail : Z;
  k_switching : bool; k_reenter : Z; k_next_queue : Z; k_irq_return : Z;
  k_blocked_return : Z; k_irq_saved_owner : Z; k_irq_dispatch_active : bool;
  k_blocked_handoff_gate : bool; k_restore_gate : bool; k_handoff_gate : bool;
  k_user_handoff_gate : bool; k_user_trap_gate : bool; k_user_probe_mode : bool;
  k_user_dispatch_blocked : bool; k_mem : mem }.

Definition set_k_proc (x : Z -> proc) (k : kst) : kst :=
  Kst x (k_addr k) (k_proc_ptr k) (k_bill_ptr k) (k_current k) (k_rdy_head k) (k_rdy_tail k)
    (k_held_head k) (k_held_tail k) (k_switching k) (k_reenter k) (k_next_queue k)
    (k_irq_return k) (k_blocked_return k) (k_irq_saved_owner k) (k_irq_dispatch_active k)
    (k_blocked_handoff_gate k) (k_restore_gate k) (k_handoff_gate k) (k_user_handoff_gate k)
    (k_user_trap_gate k) (k_user_probe_mode k) (k_user_dispatch_blocked k) (k_mem k).
Definition set_k_proc_ptr (x : Z) (k : kst) : kst :=
  Kst (k_proc k) (k_addr k) x (k_bill_ptr k) (k_current k) (k_rdy_head k) (k_rdy_tail k)
    (k_held_head k) (k_held_tail k) (k_switching k) (k_reenter k) (k_next_queue k)
    (k_irq_return k) (k_blocked_return k) (k_irq_saved_owner k) (k_irq_dispatch_active k)
    (k_blocked_handoff_gate k) (k_restore_gate k) (k_handoff_gate k) (k_user_handoff_gate k)
    (k_user_trap_gate k) (k_user_probe_mode k) (k_user_dispatch_blocked k) (k_mem k).
Definition set_k_bill_ptr (x : Z) (k : kst) : kst :=
  Kst (k_proc k) (k_addr k) (k_proc_ptr k) x (k_current k) (k_rdy_head k) (k_rdy_tail k)
    (k_held_head k) (k_held_tail k) (k_switching k) (k_reenter k) (k_next_queue k)
    (k_irq_return k) (k_blocked_return k) (k_irq_saved_owner k) (k_irq_dispatch_active k)
    (k_blocked_handoff_gate k) (k_restore_gate k) (k_handoff_gate k) (k_user_handoff_gate k)
    (k_user_trap_gate k) (k_user_probe_mode k) (k_user_dispatch_blocked k) (k_mem k).
Definition set_k_current (x : Z) (k : kst) : kst :=
  Kst (k_proc k) (k_addr k) (k_proc_ptr k) (k_bill_ptr k) x (k_rdy_head k) (k_rdy_tail k)
    (k_held_head k) (k_held_tail k) (k_switching k) (k_reenter k) (k_next_queue k)
    (k_irq_return k) (k_blocked_return k) (k_irq_saved_owner k) (k_irq_dispatch_active k)
    (k_blocked_handoff_gate k) (k_restore_gate k) (k_handoff_gate k) (k_user_handoff_gate k)
    (k_user_trap_gate k) (k_user_probe_mode k) (k_user_dispatch_blocked k) (k_mem k).
Definition set_k_rdy_head (x : Z -> Z) (k : kst) : kst :=
  Kst (k_proc k) (k_addr k) (k_proc_ptr k) (k_bill_ptr k) (k_current k) x (k_rdy_tail k)
    (k_held_head k) (k_held_tail k) (k_switching k) (k_reenter k) (k_next_queue k)
    (k_irq_return k) (k_blocked_return k) (k_irq_saved_owner k) (k_irq_dispatch_active k)
    (k_blocked_handoff_gate k) (k_restore_gate k) (k_handoff_gate k) (k_user_handoff_gate k)
    (k_user_trap_gate k) (k_user_probe_mode k) (k_user_dispatch_blocked k) (k_mem k).
Definition set_k_rdy_tail (x : Z -> Z) (k : kst) : kst :=
  Kst (k_proc k) (k_addr k) (k_proc_ptr k) (k_bill_ptr k) (k_current k) (k_rdy_head k) x
    (k_held_head k) (k_held_tail k) (k_switching k) (k_reenter k) (k_next_queue k)
    (k_irq_return k) (k_blocked_return k) (k_irq_saved_owner k) (k_irq_dispatch_active k)
    (k_blocked_handoff_gate k) (k_restore_gate k) (k_handoff_gate k) (k_user_handoff_gate k)
    (k_user_trap_gate k) (k_user_probe_mode k) (k_user_dispatch_blocked k) (k_mem k).
Definition set_k_held_head (x : Z) (k : kst) : kst :=
  Kst (k_proc k) (k_addr k) (k_proc_ptr k) (k_bill_ptr k) (k_current k) (k_rdy_head k)
    (k_rdy_tail k) x (k_held_tail k) (k_switching k) (k_reenter k) (k_next_queue k)
    (k_irq_return k) (k_blocked_return k) (k_irq_saved_owner k) (k_irq_dispatch_active k)
    (k_blocked_handoff_gate k) (k_restore_gate k) (k_handoff_gate k) (k_user_handoff_gate k)
    (k_user_trap_gate k) (k_user_probe_mode k) (k_user_dispatch_blocked k) (k_mem k).
Definition set_k_held_tail (x : Z) (k : kst) : kst :=
  Kst (k_proc k) (k_addr k) (k_proc_ptr k) (k_bill_ptr k) (k_current k) (k_rdy_head k)
    (k_rdy_tail k) (k_held_head k) x (k_switching k) (k_reenter k) (k_next_queue k)
    (k_irq_return k) (k_blocked_return k) (k_irq_saved_owner k) (k_irq_dispatch_active k)
    (k_blocked_handoff_gate k) (k_restore_gate k) (k_handoff_gate k) (k_user_handoff_gate k)
    (k_user_trap_gate k) (k_user_probe_mode k) (k_user_dispatch_blocked k) (k_mem k).
Definition set_k_switching (x : bool) (k : kst) : kst :=
  Kst (k_proc k) (k_addr k) (k_proc_ptr k) (k_bill_ptr k) (k_current k) (k_rdy_head k)
    (k_rdy_tail k) (k_held_head k) (k_held_tail k) x (k_reenter k) (k_next_queue k)
    (k_irq_return k) (k_blocked_return k) (k_irq_saved_owner k) (k_irq_dispatch_active k)
    (k_blocked_handoff_gate k) (k_restore_gate k) (k_handoff_gate k) (k_user_handoff_gate k)
    (k_user_trap_gate k) (k_user_probe_mode k) (k_user_dispatch_blocked k) (k_mem k).
Definition set_k_next_queue (x : Z) (k : kst) : kst :=
  Kst (k_proc k) (k_addr k) (k_proc_ptr k) (k_bill_ptr k) (k_current k) (k_rdy_head k)
    (k_rdy_tail k) (k_held_head k) (k_held_tail k) (k_switching k) (k_reenter k) x
    (k_irq_return k) (k_blocked_return k) (k_irq_saved_owner k) (k_irq_dispatch_active k)
    (k_blocked_handoff_gate k) (k_restore_gate k) (k_handoff_gate k) (k_user_handoff_gate k)
    (k_user_trap_gate k) (k_user_probe_mode k) (k_user_dispatch_blocked k) (k_mem k).
Definition set_k_irq_return (x : Z) (k : kst) : kst :=
  Kst (k_proc k) (k_addr k) (k_proc_ptr k) (k_bill_ptr k) (k_current k) (k_rdy_head k)
    (k_rdy_tail k) (k_held_head k) (k_held_tail k) (k_switching k) (k_reenter k)
    (k_next_queue k) x (k_blocked_return k) (k_irq_saved_owner k) (k_irq_dispatch_active k)
    (k_blocked_handoff_gate k) (k_restore_gate k) (k_handoff_gate k) (k_user_handoff_gate k)
    (k_user_trap_gate k) (k_user_probe_mode k) (k_user_dispatch_blocked k) (k_mem k).
Definition set_k_blocked_return (x : Z) (k : kst) : kst :=
  Kst (k_proc k) (k_addr k) (k_proc_ptr k) (k_bill_ptr k) (k_current k) (k_rdy_head k)
    (k_rdy_tail k) (k_held_head k) (k_held_tail k) (k_switching k) (k_reenter k)
    (k_next_queue k) (k_irq_return k) x (k_irq_saved_owner k) (k_irq_dispatch_active k)
    (k_blocked_handoff_gate k) (k_restore_gate k) (k_handoff_gate k) (k_user_handoff_gate k)
    (k_user_trap_gate k) (k_user_probe_mode k) (k_user_dispatch_blocked k) (k_mem k).
Definition set_k_irq_saved_owner (x : Z) (k : kst) : kst :=
  Kst (k_proc k) (k_addr k) (k_proc_ptr k) (k_bill_ptr k) (k_current k) (k_rdy_head k)
    (k_rdy_tail k) (k_held_head k) (k_held_tail k) (k_switching k) (k_reenter k)
    (k_next_queue k) (k_irq_return k) (k_blocked_return k) x (k_irq_dispatch_active k)
    (k_blocked_handoff_gate k) (k_restore_gate k) (k_handoff_gate k) (k_user_handoff_gate k)
    (k_user_trap_gate k) (k_user_probe_mode k) (k_user_dispatch_blocked k) (k_mem k).
Definition set_k_user_dispatch_blocked (x : bool) (k : kst) : kst :=
  Kst (k_proc k) (k_addr k) (k_proc_ptr k) (k_bill_ptr k) (k_current k) (k_rdy_head k)
    (k_rdy_tail k) (k_held_head k) (k_held_tail k) (k_switching k) (k_reenter k)
    (k_next_queue k) (k_irq_return k) (k_blocked_return k) (k_irq_saved_owner k)
    (k_irq_dispatch_active k) (k_blocked_handoff_gate k) (k_restore_gate k) (k_handoff_gate k)
    (k_user_handoff_gate k) (k_user_trap_gate k) (k_user_probe_mode k) x (k_mem k).
Definition set_k_mem (x : mem) (k : kst) : kst :=
  Kst (k_proc k) (k_addr k) (k_proc_ptr k) (k_bill_ptr k) (k_current k) (k_rdy_head k)
    (k_rdy_tail k) (k_held_head k) (k_held_tail k) (k_switching k) (k_reenter k)
    (k_next_queue k) (k_irq_return k) (k_blocked_return k) (k_irq_saved_owner k)
    (k_irq_dispatch_active k) (k_blocked_handoff_gate k) (k_restore_gate k) (k_handoff_gate k)
    (k_user_handoff_gate k) (k_user_trap_gate k) (k_user_probe_mode k)
    (k_user_dispatch_blocked k) x.

Definition set_proc (p : Z) (rp : proc) (k : kst) : kst :=
  set_k_proc (fun q => if q =? p then rp else k_proc k q) k.
(** [p->field = x] through a setter of the record *)
Definition upd (p : Z) (f : proc -> proc) (k : kst) : kst := set_proc p (f (k_proc k p)) k.
(** [proc_addr(n)] *)
Definition proc_addr (k : kst) (n : Z) : Z := k_addr k (n + NR_TASKS).
(** [istaskp(p)] *)
Definition istaskp (k : kst) (p : Z) : bool := (p <? BEG_SERV_ADDR) && negb (p =? proc_addr k IDLE).

Definition set_rdy_head (q x : Z) (k : kst) : kst :=
  set_k_rdy_head (fun i => if i =? q then x else k_rdy_head k i) k.
Definition set_rdy_tail (q x : Z) (k : kst) : kst :=
  set_k_rdy_tail (fun i => if i =? q then x else k_rdy_tail k i) k.

Abbreviation KM := (M kst).

(** ** Memory: [numap], [mem_copy] and [phys_copy] *)
Definition MESS_SIZE := 36.

(** One turn of the loop over the segments of the map. *)
Definition map_segment (m : mem_map) (vir len : Z) : option Z :=
  let size := Z.shiftl (mem_len m) CLICK_SHIFT in
  let offset := vir - mem_vir m in
  let phys := Z.shiftl (mem_phys m) CLICK_SHIFT + offset in
  if vir <? mem_vir m then None
  else if (size <? offset) || (size - offset <? len) then None
  else if (0xffffffff <? phys) || (0xffffffff - phys <? len - 1) then None
  else Some phys.

Fixpoint first_segment (ms : list mem_map) (vir len : Z) : Z :=
  match ms with
  | [] => 0
  | m :: ms => match map_segment m vir len with Some a => a | None => first_segment ms vir len end
  end.

Definition numap (k : kst) (proc_nr vir len : Z) : Z :=
  if negb (isokprocn proc_nr) || (len =? 0) || (0xffffffff - vir <? len - 1) then 0 else
  let rp := proc_addr k proc_nr in
  if (rp =? NIL_PROC) || outside_table rp || (p_nr (k_proc k rp) !=? proc_nr) ||
     has (p_flags (k_proc k rp)) P_SLOT_FREE then 0
  else if istaskp k rp && (0x3FC00000 <=? vir) && (vir + len <=? 0x3FD00000) then vir
  else first_segment (p_map (k_proc k rp)) vir len.

(** [phys_copy(src, dst, len)] of klib32.S, a memmove. *)
Definition phys_copy (src dst len : Z) (k : kst) : kst :=
  set_k_mem (mem_write (k_mem k) dst (mem_read (k_mem k) src len)) k.

(** A word stored by the CPU, little endian. *)
Definition word_bytes (x : Z) : list Z := put32 (replicate 4 0) 0 (wrap32 x) 0.

Definition mem_copy (src_proc src_vir dst_proc dst_vir len : Z) : KM unit :=
  src <- gets (fun k => numap k src_proc src_vir len) ;;
  dst <- gets (fun k => numap k dst_proc dst_vir len) ;;
  guard ((src =? 0) || (dst =? 0)) EFAULT ;;;
  modify (phys_copy src dst len).
