(* ===== verification/Sched.v ===== *)
(** * Ready queues and process selection: src/src/kernel/proc.c

    The queues are singly linked through [p_nextready].  A walk that the code
    bounds by [hops++ <= NR_TASKS + NR_PROCS] visits at most 42 descriptors, one
    bounded by [hops++ < NR_TASKS + NR_PROCS] follows at most 41 links. *)
From S2P Require Import Prelude Codec Kconst Ktypes.

Definition HOPS_LE : nat := 42.
Definition HOPS_LT : nat := 41.

Definition proc_queue (rp : proc) : Z :=
  if p_nr rp <? 0 then TASK_Q else if p_nr rp <? LOW_USER then SERVER_Q else USER_Q.

(** The registers that a call0 return needs. *)
Definition call0_frame (rp : proc) : bool :=
  (r_sp (p_reg rp) !=? 0) && (Z.land (r_sp (p_reg rp)) 0x0F =? 0) &&
  (nthZ (r_a (p_reg rp)) 1 =? r_sp (p_reg rp)).

Definition blocked_frame_matches (rp : proc) : bool :=
  truthy (p_blocked_frame_valid rp) && (p_blocked_frame_pc rp =? r_pc (p_reg rp)) &&
  (p_blocked_frame_psw rp =? r_psw (p_reg rp)) && (p_blocked_frame_sp rp =? r_sp (p_reg rp)).

Definition blocked_handoff_eligible (k : kst) (rp : Z) : bool :=
  k_blocked_handoff_gate k && k_restore_gate k && k_handoff_gate k && (rp !=? NIL_PROC) &&
  (rp =? k_blocked_return k) &&
  has (p_flags (k_proc k rp)) (Z.lor SENDING RECEIVING) &&
  (k_proc_ptr k =? rp) && (k_current k =? rp) &&
  call0_frame (k_proc k rp) && blocked_frame_matches (k_proc k rp).

(** Is [target] among the first [n] descriptors from [rp]? *)
Fixpoint queued_from (k : kst) (target : Z) (n : nat) (rp : Z) : bool :=
  match n with
  | O => false
  | S n => if rp =? NIL_PROC then false
           else (rp =? target) || queued_from k target n (p_nextready (k_proc k rp))
  end.

Definition proc_is_ready_queued (k : kst) (target : Z) : bool :=
  existsb (fun q => queued_from k target HOPS_LE (k_rdy_head k q)) [0; 1; 2].

(** [while (tail->p_nextready != NIL_PROC && hops++ < ...) tail = tail->p_nextready;] *)
Fixpoint walk_ready (k : kst) (n : nat) (tail : Z) : Z :=
  match n with
  | O => tail
  | S n => let next := p_nextready (k_proc k tail) in
           if next =? NIL_PROC then tail else walk_ready k n next
  end.

Definition ready (rp : Z) (k : kst) : kst :=
  if rp =? NIL_PROC then k else
  if blocked_handoff_eligible k rp then k else
  let q := proc_queue (k_proc k rp) in
  if (q <? 0) || (3 <=? q) then k else
  if proc_is_ready_queued k rp then k else
  let reconcile := negb (k_rdy_head k q =? NIL_PROC) && negb (k_rdy_tail k q =? NIL_PROC) in
  let tail := walk_ready k HOPS_LT (k_rdy_head k q) in
  if reconcile && negb (p_nextready (k_proc k tail) =? NIL_PROC) then k else
  let k := if reconcile then set_rdy_tail q tail k else k in
  let k := upd rp (set_p_nextready NIL_PROC) k in
  let k := if k_rdy_tail k q =? NIL_PROC then set_rdy_head q rp k
           else upd (k_rdy_tail k q) (set_p_nextready rp) k in
  let k := set_rdy_tail q rp k in
  if (p_nr (k_proc k rp) =? FS_PROC_NR) && (p_flags (k_proc k rp) =? 0)
  then set_k_irq_return rp k else k.

(** The search of [unready]; [prev] follows [cur]. *)
Fixpoint unready_from (q rp : Z) (n : nat) (prev cur : Z) (k : kst) : kst :=
  match n with
  | O => k
  | S n =>
      if cur =? NIL_PROC then k
      else if cur =? rp then
        let next := p_nextready (k_proc k cur) in
        let k := if prev =? NIL_PROC then set_rdy_head q next k
                 else upd prev (set_p_nextready next) k in
        let k := if k_rdy_tail k q =? cur then set_rdy_tail q prev k else k in
        upd cur (set_p_nextready NIL_PROC) k
      else unready_from q rp n cur (p_nextready (k_proc k cur)) k
  end.

Definition unready (rp : Z) (k : kst) : kst :=
  if rp =? NIL_PROC then k else
  let q := proc_queue (k_proc k rp) in
  unready_from q rp HOPS_LE NIL_PROC (k_rdy_head k q) k.

(** [rdy_head[q] = rp->p_nextready; if (...) rdy_tail[q] = NIL_PROC; rp->p_nextready = NIL_PROC;] *)
Definition pop_ready (q : Z) (k : kst) : kst :=
  let rp := k_rdy_head k q in
  let k := set_rdy_head q (p_nextready (k_proc k rp)) k in
  let k := if k_rdy_head k q =? NIL_PROC then set_rdy_tail q NIL_PROC k else k in
  upd rp (set_p_nextready NIL_PROC) k.

(** The first [while] of [pick_proc]: entries that are no longer runnable. *)
Fixpoint skip_blocked (q : Z) (n : nat) (k : kst) : kst :=
  match n with
  | O => k
  | S n => let rp := k_rdy_head k q in
           if negb (rp =? NIL_PROC) && negb (p_flags (k_proc k rp) =? 0)
           then skip_blocked q n (pop_ready q k) else k
  end.

Definition bad_user_frame (q : Z) (rp : proc) : bool :=
  (q =? USER_Q) && ((r_pc (p_reg rp) =? 0) || negb (call0_frame rp)).

(** The [for] over the queues: [offset] of [n] left; the result is [rp]. *)
Fixpoint pick_queue (n : nat) (offset rp : Z) (k : kst) : Z * kst :=
  match n with
  | O => (rp, k)
  | S n =>
      let q := (k_next_queue k + offset) mod 3 in
      let k := skip_blocked q HOPS_LE k in
      let rp := k_rdy_head k q in
      if rp =? NIL_PROC then pick_queue n (offset + 1) NIL_PROC k
      else if bad_user_frame q (k_proc k rp)
      then pick_queue n (offset + 1) rp (set_k_next_queue ((q + 1) mod 3) k)
      else (rp, set_k_next_queue ((q + 1) mod 3) (pop_ready q k))
  end.

Definition pick_proc (k : kst) : kst :=
  let k := if (k_next_queue k <? 0) || (3 <=? k_next_queue k) then set_k_next_queue 0 k else k in
  let (rp, k) := pick_queue NQ 0 NIL_PROC k in
  if rp =? NIL_PROC then
    let idle := proc_addr k IDLE in
    set_k_bill_ptr idle (set_k_current idle (set_k_proc_ptr idle k))
  else
    let k := set_k_current rp (set_k_proc_ptr rp k) in
    let k := if k_irq_dispatch_active k then set_k_irq_return rp k else k in
    let k := if (p_nr (k_proc k rp) =? FS_PROC_NR) && (p_flags (k_proc k rp) =? 0)
             then set_k_irq_return rp k else k in
    if LOW_USER <=? p_nr (k_proc k rp) then set_k_bill_ptr rp k else k.

Definition switch_to (next : Z) (k : kst) : kst :=
  if next =? NIL_PROC then k else set_k_current next k.

Definition sched (k : kst) : kst :=
  let current := k_current k in
  let k := if negb (current =? NIL_PROC) && (p_flags (k_proc k current) =? 0) &&
              negb (isidlehardware (p_nr (k_proc k current)))
           then ready current k else k in
  let k := pick_proc k in
  switch_to (k_proc_ptr k) k.

(** [switching = TRUE; ...; switching = FALSE;] *)
Definition locked (f : kst -> kst) (k : kst) : kst :=
  set_k_switching false (f (set_k_switching true k)).
Definition lock_pick_proc : kst -> kst := locked pick_proc.
Definition lock_ready (rp : Z) : kst -> kst := locked (ready rp).
Definition lock_unready (rp : Z) : kst -> kst := locked (unready rp).
Definition lock_sched : kst -> kst := locked sched.

(** ** Structural checks *)

(** The walk of [cp32_ready_queue_check] over one queue. *)
Fixpoint ready_walk_ok (k : kst) (n : nat) (rp last tail : Z) : bool :=
  if rp =? NIL_PROC then last =? tail
  else match n with
  | O => false
  | S n =>
      negb (outside_table rp) &&
      negb (has (p_flags (k_proc k rp)) (Z.lor P_SLOT_FREE (Z.lor SENDING RECEIVING))) &&
      negb ((p_nr (k_proc k rp) <? - NR_TASKS) || (NR_PROCS <=? p_nr (k_proc k rp))) &&
      (proc_addr k (p_nr (k_proc k rp)) =? rp) &&
      ready_walk_ok k n (p_nextready (k_proc k rp)) rp tail
  end.

Definition cp32_ready_queue_check (k : kst) : bool :=
  forallb (fun q =>
    ready_walk_ok k HOPS_LE (k_rdy_head k q) NIL_PROC (k_rdy_tail k q) &&
    negb ((k_rdy_head k q =? NIL_PROC) && negb (k_rdy_tail k q =? NIL_PROC))) [0; 1; 2].

Definition cp32_process_table_check (k : kst) : bool :=
  forallb (fun i =>
    let rp := k_addr k i in
    negb (rp =? NIL_PROC) && negb (outside_table rp) &&
    (p_nr (k_proc k rp) =? i - NR_TASKS) && (k_addr k (p_nr (k_proc k rp) + NR_TASKS) =? rp) &&
    forallb (fun j => negb (k_addr k j =? rp)) (map Z.of_nat (seq 0 (Z.to_nat i))))
    (map Z.of_nat (seq 0 41)).

Definition cp32_scheduler_owner_check (k : kst) : bool :=
  forallb (fun rp => negb (rp =? NIL_PROC) && negb (outside_table rp))
    [k_proc_ptr k; k_current k; k_bill_ptr k].

(** [FALSE] unless the frame that C selected is the one to restore. *)
Definition cp32_irq_return_frame_check (k : kst) : bool :=
  let rp := k_irq_return k in
  negb ((rp =? NIL_PROC) || outside_table rp || negb (p_flags (k_proc k rp) =? 0) ||
        (r_pc (p_reg (k_proc k rp)) =? 0) || negb (call0_frame (k_proc k rp))) &&
  (k_current k =? rp) && (k_proc_ptr k =? rp).

Definition cp32_process_flags_check (k : kst) : bool :=
  forallb (fun i =>
    let flags := p_flags (k_proc k (k_addr k i)) in
    (Z.land flags (Z.lnot 127) =? 0) &&
    negb (has flags P_SLOT_FREE && has flags (Z.lor SENDING RECEIVING)))
    (map Z.of_nat (seq 0 41)).

Definition cp32_runtime_owner_check (k : kst) : bool :=
  forallb (fun rp =>
    negb (rp =? NIL_PROC) && negb (outside_table rp) &&
    negb ((p_nr (k_proc k rp) <? - NR_TASKS) || (NR_PROCS <=? p_nr (k_proc k rp))) &&
    (proc_addr k (p_nr (k_proc k rp)) =? rp) && negb (has (p_flags (k_proc k rp)) P_SLOT_FREE) &&
    negb ((rp =? k_proc_ptr k) && negb (k_current k =? rp) && negb (k_switching k)))
    [k_proc_ptr k; k_current k; k_bill_ptr k].

(** [schedule()]: the first selection. *)
Definition schedule (k : kst) : kst :=
  let k := upd 2 (set_p_flags 0) (upd 2 (set_p_nr 1) k) in
  sched (ready 2 k).

(** ** Specification: the queues as lists

    [lchain nx rp l]: the links [nx] lead from [rp] through the descriptors
    [l] to the end of the list. *)
Fixpoint lchain (nx : Z -> Z) (rp : Z) (l : list Z) : Prop :=
  match l with
  | [] => rp = NIL_PROC
  | x :: l => rp = x /\ lchain nx (nx x) l
  end.

(**     [queues k Q]: queue [q] links the descriptors [Q q] in order, its tail is
    the last of them, and every descriptor is in the queue of its class. *)
Abbreviation next_of k := (fun x => p_nextready (k_proc k x)).
Abbreviation chain k := (lchain (next_of k)).

Definition valid_proc (rp : Z) : Prop := 1 <= rp <= 41.

Record queue_ok (k : kst) (q : Z) (l : list Z) : Prop := {
  qo_chain : chain k (k_rdy_head k q) l;
  qo_tail : k_rdy_tail k q = List.last l NIL_PROC;
  qo_nodup : NoDup l;
  qo_class : Forall (fun x => valid_proc x /\ proc_queue (k_proc k x) = q) l }.

Definition queues (k : kst) (Q : Z -> list Z) : Prop :=
  forall q, 0 <= q < 3 -> queue_ok k q (Q q).

Definition enqueue (Q : Z -> list Z) (q rp : Z) : Z -> list Z :=
  fun i => if i =? q then Q q ++ [rp] else Q i.
Definition dequeue (Q : Z -> list Z) (q rp : Z) : Z -> list Z :=
  fun i => if i =? q then List.filter (fun x => negb (x =? rp)) (Q q) else Q i.

(** ** Lemmas *)
Lemma proc_queue_range rp : 0 <= proc_queue rp < 3.
Proof. unfold proc_queue, TASK_Q, SERVER_Q, USER_Q. repeat case_match; lia. Qed.

Lemma upd_same p f k : k_proc (upd p f k) p = f (k_proc k p).
Proof. unfold upd, set_proc. simpl. by rewrite Z.eqb_refl. Qed.

Lemma upd_other p f k q : q <> p -> k_proc (upd p f k) q = k_proc k q.
Proof. intros. unfold upd, set_proc. simpl. by destruct (Z.eqb_spec q p). Qed.

Lemma nextready_upd p x k q :
  p_nextready (k_proc (upd p (set_p_nextready x) k) q) =
  if q =? p then x else p_nextready (k_proc k q).
Proof.
  destruct (Z.eqb_spec q p) as [->|]; [by rewrite upd_same|by rewrite upd_other].
Qed.

Lemma class_upd p x k q :
  proc_queue (k_proc (upd p (set_p_nextready x) k) q) = proc_queue (k_proc k q).
Proof.
  destruct (Z.eq_dec q p) as [->|]; [by rewrite upd_same|by rewrite upd_other].
Qed.

Lemma chain_ext nx nx' rp l :
  (forall x, In x l -> nx' x = nx x) -> lchain nx rp l -> lchain nx' rp l.
Proof.
  revert rp. induction l as [|x l IH]; intros rp H; [done|]. intros [-> Hc]. split; [done|].
  rewrite H by by left. apply IH; [|done]. intros y Hy. apply H. by right.
Qed.

Lemma pigeonhole l : NoDup l -> Forall valid_proc l -> (length l <= 41)%nat.
Proof.
  intros Hn Hv. change 41%nat with (length (map (fun n => Z.of_nat n) (seq 1 41))).
  apply NoDup_incl_length; [by apply NoDup_ListNoDup|]. intros x Hx.
  rewrite Forall_forall in Hv. specialize (Hv x). unfold valid_proc in Hv.
  apply in_map_iff. exists (Z.to_nat x). rewrite in_seq.
  assert (1 <= x <= 41) by (apply Hv; exact Hx). lia.
Qed.

Lemma queue_length k q l : queue_ok k q l -> (length l <= 41)%nat.
Proof.
  intros [_ _ Hn Hc]. apply pigeonhole; [done|]. eapply Forall_impl; [|exact Hc]. by intros x [? _].
Qed.

Lemma queue_valid k q l x : queue_ok k q l -> In x l -> valid_proc x /\ proc_queue (k_proc k x) = q.
Proof. intros [_ _ _ Hc] Hx. rewrite Forall_forall in Hc. by apply Hc. Qed.

Lemma queued_from_spec k target n rp l :
  chain k rp l -> Forall valid_proc l -> (length l < n)%nat ->
  queued_from k target n rp = true <-> In target l.
Proof.
  revert rp n. induction l as [|x l IH]; intros rp [|n] Hc Hv Hn; cbn [length] in *; [lia| |lia|].
  - simpl in *. subst rp. by cbn.
  - destruct Hc as [-> Hc]. inversion_clear Hv as [|? ? Hx Hv']. cbn [queued_from].
    unfold valid_proc, NIL_PROC in *. destruct (Z.eqb_spec x 0); [lia|].
    rewrite orb_true_iff, Z.eqb_eq, IH by (done || lia). done.
Qed.

Lemma is_ready_queued_spec k Q target :
  queues k Q -> proc_is_ready_queued k target = true <-> exists q, 0 <= q < 3 /\ In target (Q q).
Proof.
  intros HQ. assert (Hq : forall q, 0 <= q < 3 ->
    queued_from k target HOPS_LE (k_rdy_head k q) = true <-> In target (Q q)).
  { intros q Hq. destruct (HQ q Hq) as [Hc Ht Hn Hv]. pose proof (queue_length _ _ _ (HQ q Hq)).
    apply queued_from_spec; [done| |unfold HOPS_LE; lia].
    eapply Forall_impl; [|exact Hv]. by intros x [? _]. }
  unfold proc_is_ready_queued. rewrite existsb_exists. split.
  - intros (q & Hin & H). exists q. assert (0 <= q < 3) by (simpl in Hin; lia).
    split; [done|]. by apply Hq.
  - intros (q & Hr & H). exists q. split; [|by apply Hq].
    assert (q = 0 \/ q = 1 \/ q = 2) as [->|[->| ->]] by lia; simpl; auto.
Qed.

Lemma walk_ready_spec k n rp l :
  chain k rp l -> l <> [] -> Forall valid_proc l -> (length l <= S n)%nat ->
  walk_ready k n rp = List.last l NIL_PROC.
Proof.
  revert rp l. induction n as [|n IH]; intros rp l Hc Hne Hv Hn;
    destruct l as [|x [|y l]]; cbn [length] in *; try done; try lia.
  - by destruct Hc as [-> _].
  - destruct Hc as [-> Hc]. cbn [walk_ready lchain List.last] in *. by rewrite Hc.
  - destruct Hc as [-> Hc]. inversion_clear Hv as [|? ? _ Hv']. cbn [walk_ready].
    pose proof Hc as [Hxy _]. rewrite Hxy in *.
    pose proof (Forall_inv Hv') as Hy. unfold valid_proc, NIL_PROC in *.
    destruct (Z.eqb_spec y 0); [lia|]. apply (IH y (y :: l)); [done..|cbn [length]; lia].
Qed.

Lemma last_in (l : list Z) d : l <> [] -> In (List.last l d) l.
Proof.
  induction l as [|x [|y l] IH]; [done|by left|]. intros _. right. by apply IH.
Qed.

Lemma chain_last_next nx rp l :
  lchain nx rp l -> l <> [] -> nx (List.last l NIL_PROC) = NIL_PROC.
Proof.
  revert rp. induction l as [|x [|y l] IH]; intros rp Hc; [done|by destruct Hc as [_ ->]|].
  intros _. destruct Hc as [_ Hc]. by apply (IH (nx x)).
Qed.

Lemma chain_snoc nx nx' rp l x :
  lchain nx rp l -> NoDup l -> ~ In x l -> l <> [] ->
  (forall y, In y l -> y <> List.last l NIL_PROC -> nx' y = nx y) ->
  nx' (List.last l NIL_PROC) = x -> nx' x = NIL_PROC ->
  lchain nx' rp (l ++ [x]).
Proof.
  revert rp. induction l as [|y [|z l] IH]; intros rp Hc Hn Hx Hne Hy Hl Hx'; [done| |].
  - destruct Hc as [-> _]. simpl in *. split_and!; congruence.
  - destruct Hc as [-> Hc]. inversion_clear Hn as [|? ? Hnin Hn'].
    change (List.last (y :: z :: l) NIL_PROC) with (List.last (z :: l) NIL_PROC) in *.
    cbn [app]. split; [done|]. rewrite Hy; [|by left|].
    + apply IH; try done.
      * intros ?. apply Hx. by right.
      * intros w Hw. apply Hy. by right.
    + intros ->. apply Hnin. apply list_elem_of_In. by apply last_in.
Qed.

(** What queue operations leave alone: all of the state but the links. *)
Record same_but_links (k k' : kst) : Prop := {
  sl_proc : forall x, set_p_nextready 0 (k_proc k' x) = set_p_nextready 0 (k_proc k x);
  sl_addr : k_addr k' = k_addr k;
  sl_owner : k_proc_ptr k' = k_proc_ptr k /\ k_current k' = k_current k /\ k_bill_ptr k' = k_bill_ptr k;
  sl_held : k_held_head k' = k_held_head k /\ k_held_tail k' = k_held_tail k;
  sl_mode : k_switching k' = k_switching k /\ k_reenter k' = k_reenter k /\
            k_next_queue k' = k_next_queue k /\ k_blocked_return k' = k_blocked_return k;
  sl_mem : k_mem k' = k_mem k }.

#[export] Instance same_but_links_preorder : PreOrder same_but_links.
Proof.
  split.
  - by intros k.
  - intros k1 k2 k3 [P1 A1 (?&?&?) (?&?) (?&?&?&?) M1] [P2 A2 (?&?&?) (?&?) (?&?&?&?) M2].
    constructor; split_and?; congruence.
Qed.

Lemma same_links_upd p x k : same_but_links k (upd p (set_p_nextready x) k).
Proof.
  constructor; try done. intros y.
  destruct (Z.eq_dec y p) as [->|]; [by rewrite upd_same|by rewrite upd_other].
Qed.

Lemma same_links_head q x k : same_but_links k (set_rdy_head q x k).
Proof. by constructor. Qed.
Lemma same_links_tail q x k : same_but_links k (set_rdy_tail q x k).
Proof. by constructor. Qed.
Lemma same_links_irq x k : same_but_links k (set_k_irq_return x k).
Proof. by constructor. Qed.

Create HintDb links discriminated.
#[export] Hint Resolve same_links_upd same_links_head same_links_tail same_links_irq : links.
(** Queue updates change links only. *)
Ltac links_solve :=
  repeat first [ reflexivity | solve [auto with links nocore]
               | (etransitivity; [|solve [auto with links nocore]]) | case_match ].

Lemma ready_links rp k : same_but_links k (ready rp k).
Proof. unfold ready. cbv zeta. links_solve. Qed.

(** A field other than the link is the same before and after. *)
Lemma links_field {A} (f : proc -> A) k k' x :
  (forall rp, f (set_p_nextready 0 rp) = f rp) -> same_but_links k k' ->
  f (k_proc k' x) = f (k_proc k x).
Proof. intros Hf H. by rewrite <- Hf, (sl_proc _ _ H), Hf. Qed.

Lemma queue_ok_ext k k' q l :
  queue_ok k q l -> k_rdy_head k' q = k_rdy_head k q -> k_rdy_tail k' q = k_rdy_tail k q ->
  (forall x, In x l -> p_nextready (k_proc k' x) = p_nextready (k_proc k x)) ->
  (forall x, In x l -> proc_queue (k_proc k' x) = proc_queue (k_proc k x)) -> queue_ok k' q l.
Proof.
  intros [Hc Ht Hn Hv] Hh Htl Hnx Hcl. constructor; [|congruence|done|].
  - rewrite Hh. by apply (chain_ext (next_of k)).
  - rewrite Forall_forall in *. intros x Hx. rewrite Hcl by done. by apply Hv.
Qed.

Lemma queues_ext k k' Q :
  queues k Q -> k_proc k' = k_proc k -> k_rdy_head k' = k_rdy_head k ->
  k_rdy_tail k' = k_rdy_tail k -> queues k' Q.
Proof.
  intros HQ Hp Hh Ht q Hq. apply (queue_ok_ext k); try congruence; auto; intros; by rewrite Hp.
Qed.

(** Appending a descriptor to the queue of its class. *)
Lemma append_queues k k' Q rp :
  queues k Q -> valid_proc rp -> let q := proc_queue (k_proc k rp) in ~ In rp (Q q) ->
  (forall x, proc_queue (k_proc k' x) = proc_queue (k_proc k x)) ->
  (forall i, i <> q -> k_rdy_head k' i = k_rdy_head k i /\ k_rdy_tail k' i = k_rdy_tail k i) ->
  k_rdy_head k' q = (if k_rdy_tail k q =? NIL_PROC then rp else k_rdy_head k q) ->
  k_rdy_tail k' q = rp ->
  (forall x, p_nextready (k_proc k' x) =
     if x =? rp then NIL_PROC
     else if negb (k_rdy_tail k q =? NIL_PROC) && (x =? k_rdy_tail k q) then rp
     else p_nextready (k_proc k x)) ->
  queues k' (enqueue Q q rp).
Proof.
  intros HQ Hrp q Hnin Hcl Hoth Hhead Htail Hnext i Hi. unfold enqueue.
  destruct (Z.eqb_spec i q) as [->|Hne].
  - pose proof (HQ q Hi) as HO. pose proof HO as [Hc Ht Hn Hv]. constructor.
    + destruct (Q q) as [|x l] eqn:E.
      * cbn in Ht. rewrite Ht in Hhead. cbn in *. rewrite Hhead. split; [done|].
        by rewrite Hnext, Z.eqb_refl.
      * set (L := x :: l) in *. assert (Hne : L <> []) by done. clearbody L.
        assert (Hlast : valid_proc (List.last L NIL_PROC))
          by (apply (queue_valid k q L); [done|by apply last_in]).
        assert (Hlr : List.last L NIL_PROC <> rp) by (intros <-; apply Hnin; by apply last_in).
        unfold valid_proc, NIL_PROC in *. rewrite Ht in *.
        destruct (Z.eqb_spec (List.last L 0) 0); [lia|]. rewrite Hhead.
        apply (chain_snoc (next_of k)); try done.
        -- intros y Hy Hyl. rewrite Hnext. destruct (Z.eqb_spec y rp) as [->|]; [done|].
           by destruct (Z.eqb_spec y (List.last L 0)).
        -- rewrite Hnext. change NIL_PROC with 0.
           by rewrite (proj2 (Z.eqb_neq _ _) Hlr), Z.eqb_refl.
        -- by rewrite Hnext, Z.eqb_refl.
    + by rewrite Htail, last_last.
    + apply list.NoDup_app. split_and!; [done| |by apply NoDup_singleton].
      intros y Hy ->%list_elem_of_singleton. apply Hnin. by apply list_elem_of_In.
    + apply Forall_app. split.
      * rewrite Forall_forall in *. intros y Hy. rewrite Hcl. by apply Hv.
      * constructor; [|constructor]. by rewrite Hcl.
  - pose proof (HQ i Hi) as HO. destruct (Hoth i Hne).
    apply (queue_ok_ext k); try done. intros x Hx. rewrite Hnext.
    destruct (queue_valid _ _ _ _ HO Hx) as [_ Hxi].
    destruct (Z.eqb_spec x rp) as [->|]; [by destruct Hne|].
    destruct (Z.eqb_spec (k_rdy_tail k q) NIL_PROC) as [|Hn0]; [done|]. cbn [negb andb].
    destruct (Z.eqb_spec x (k_rdy_tail k q)) as [->|]; [|done]. exfalso.
    pose proof (HQ q (proc_queue_range _)) as HOq. apply Hne. rewrite <- Hxi.
    apply (queue_valid k q (Q q)); [done|]. rewrite (qo_tail _ _ _ HOq). apply last_in.
    intros E. rewrite (qo_tail _ _ _ HOq), E in Hn0. by apply Hn0.
Qed.

(** The tail is never stale on sound queues. *)
Lemma reconcile_sound k Q q :
  queues k Q -> 0 <= q < 3 ->
  let reconcile := negb (k_rdy_head k q =? 0) && negb (k_rdy_tail k q =? 0) in
  reconcile = negb (k_rdy_tail k q =? 0) /\
  (reconcile = true -> walk_ready k HOPS_LT (k_rdy_head k q) = k_rdy_tail k q /\
                       p_nextready (k_proc k (k_rdy_tail k q)) = 0).
Proof.
  intros HQ Hqr reconcile. pose proof (HQ q Hqr) as HO. pose proof HO as [Hc Ht Hn Hv].
  subst reconcile. destruct (Q q) as [|x l] eqn:E; cbn in Hc, Ht.
  - rewrite Hc, Ht. done.
  - destruct Hc as [Hh Hc]. pose proof (Forall_inv Hv) as [Hx _]. unfold valid_proc in Hx.
    rewrite Hh. destruct (Z.eqb_spec x 0); [lia|]. split; [done|]. intros _.
    pose proof (queue_length _ _ _ HO) as Hlen. rewrite Ht.
    assert (Hch : chain k x (x :: l)) by done. split.
    + apply (walk_ready_spec k HOPS_LT x (x :: l)); [done..| |unfold HOPS_LT; lia].
      eapply Forall_impl; [|exact Hv]. by intros y [? _].
    + by apply (chain_last_next (next_of k) x (x :: l)).
Qed.

Lemma ready_queues k Q rp :
  queues k Q -> valid_proc rp -> blocked_handoff_eligible k rp = false ->
  let q := proc_queue (k_proc k rp) in
  queues (ready rp k) (if decide (rp ∈ Q q) then Q else enqueue Q q rp).
Proof.
  intros HQ Hrp He q. pose proof (proc_queue_range (k_proc k rp)) as Hqr. fold q in Hqr.
  unfold ready. unfold valid_proc, NIL_PROC in *. destruct (Z.eqb_spec rp 0); [lia|]. rewrite He.
  fold q. replace ((q <? 0) || (3 <=? q)) with false by lia.
  destruct (proc_is_ready_queued k rp) eqn:Hin.
  { apply (is_ready_queued_spec k Q rp HQ) in Hin as (i & Hi & Hin).
    destruct (queue_valid _ _ _ _ (HQ i Hi) Hin) as [_ Hxi]. fold q in Hxi. subst i.
    rewrite decide_True; [done|]. by apply list_elem_of_In. }
  assert (Hnin : ~ In rp (Q q)).
  { intros Hi. assert (proc_is_ready_queued k rp = true); [|congruence].
    apply (is_ready_queued_spec k Q rp HQ). by exists q. }
  rewrite decide_False by (by rewrite list_elem_of_In). cbv zeta.
  pose proof (HQ q Hqr) as HO. pose proof HO as [Hc Ht Hn Hv].
  set (reconcile := negb (k_rdy_head k q =? 0) && negb (k_rdy_tail k q =? 0)).
  pose proof (reconcile_sound k Q q HQ Hqr) as Hrec. cbv zeta in Hrec. fold reconcile in Hrec.
  destruct Hrec as [Hreq Hrec]. clearbody reconcile.
  assert (Hgo : (reconcile && negb (p_nextready (k_proc k (walk_ready k HOPS_LT (k_rdy_head k q))) =? 0)) = false).
  { destruct reconcile; [|done]. destruct (Hrec eq_refl) as [-> ->]. done. }
  rewrite Hgo. set (k0 := if reconcile then _ else k).
  assert (H0 : k_proc k0 = k_proc k /\ k_rdy_head k0 = k_rdy_head k /\
               forall i, k_rdy_tail k0 i = k_rdy_tail k i).
  { subst k0. destruct reconcile; [|done]. split_and!; [done..|]. intros i. cbn.
    destruct (Z.eqb_spec i q) as [->|]; [by apply Hrec|done]. }
  clearbody k0. destruct H0 as (Hp0 & Hh0 & Ht0).
  match goal with |- queues (if _ then _ else ?k1) _ => set (k' := k1) end.
  assert (HG : queues k' (enqueue Q q rp)); [|clear Hgo; case_match; [by apply (queues_ext k')|exact HG]].
  assert (Htl : k_rdy_tail (upd rp (set_p_nextready 0) k0) q = k_rdy_tail k q) by apply Ht0.
  assert (Hcl : forall x y z, proc_queue (k_proc (upd z (set_p_nextready x) k0) y) = proc_queue (k_proc k y))
    by (intros; rewrite class_upd; by rewrite Hp0).
  apply (append_queues k); try done; fold q; subst k'; rewrite Htl.
  - intros x. destruct (k_rdy_tail k q =? 0); [apply Hcl|].
    cbn [set_rdy_tail set_k_rdy_tail k_proc]. rewrite class_upd. apply Hcl.
  - intros i Hi. destruct (k_rdy_tail k q =? 0); cbn; rewrite ?Hh0;
      (destruct (Z.eqb_spec i q); [done|]); by rewrite ?Ht0.
  - change NIL_PROC with 0. destruct (k_rdy_tail k q =? 0); cbn; [by rewrite Z.eqb_refl|by rewrite Hh0].
  - cbn. by rewrite Z.eqb_refl.
  - intros x. change NIL_PROC with 0. destruct (Z.eqb_spec (k_rdy_tail k q) 0) as [Hz|Hnz].
    + cbn [negb andb]. change (k_proc (set_rdy_tail q rp ?k)) with (k_proc k).
      cbn [set_rdy_tail set_k_rdy_tail set_rdy_head set_k_rdy_head k_proc].
      rewrite nextready_upd. by rewrite Hp0.
    + cbn [set_rdy_tail set_k_rdy_tail k_proc negb andb]. rewrite !nextready_upd, Hp0.
      assert (k_rdy_tail k q <> rp).
      { intros E. apply Hnin. rewrite <- E, Ht. apply last_in. intros E0. rewrite Ht, E0 in Hnz. done. }
      destruct (Z.eqb_spec x rp) as [->|]; [|done].
      by rewrite (proj2 (Z.eqb_neq rp (k_rdy_tail k q))) by congruence.
Qed.

Lemma unready_links rp k : same_but_links k (unready rp k).
Proof.
  unfold unready. cbv zeta. destruct (rp =? NIL_PROC); [reflexivity|].
  generalize NIL_PROC, (k_rdy_head k (proc_queue (k_proc k rp))).
  induction HOPS_LE as [|n IH]; intros prev cur; cbn [unready_from]; [reflexivity|]. cbv zeta.
  case_match; [reflexivity|]. case_match; [links_solve|apply IH].
Qed.

Lemma chain_remove nx nx' h pre x l :
  lchain nx h (pre ++ x :: l) -> NoDup (pre ++ x :: l) ->
  (forall y, In y (pre ++ l) -> y <> List.last pre NIL_PROC -> nx' y = nx y) ->
  (pre <> [] -> nx' (List.last pre NIL_PROC) = nx x) ->
  (pre = [] -> forall y, In y l -> nx' y = nx y) ->
  lchain nx' (match pre with [] => nx x | _ => h end) (pre ++ l).
Proof.
  revert h. induction pre as [|y pre IH]; intros h Hc Hn Hy Hl H0.
  - destruct Hc as [_ Hc]. eapply chain_ext; [|exact Hc]. by apply H0.
  - destruct Hc as [-> Hc]. apply list.NoDup_cons in Hn as [Hnin Hn]. cbn [app]. split; [done|].
    destruct pre as [|z pre].
    + cbn in Hl. rewrite Hl by done. destruct Hc as [_ Hc]. eapply chain_ext; [|exact Hc].
      intros w Hw. apply Hy; [by right|]. cbn. intros ->. apply Hnin. apply list_elem_of_In. by right.
    + change (List.last (y :: z :: pre) NIL_PROC) with (List.last (z :: pre) NIL_PROC) in *.
      rewrite Hy; [|by left|].
      * apply IH; try done; [|by intros _; apply Hl].
        intros w Hw. apply Hy. by right.
      * intros ->. apply Hnin. apply list_elem_of_In. apply (in_or_app (z :: pre) (x :: l)).
        left. by apply (last_in (z :: pre)).
Qed.

Lemma filter_absent rp (l : list Z) :
  ~ In rp l -> List.filter (fun x => negb (x =? rp)) l = l.
Proof.
  induction l as [|x l IH]; intros H; [done|]. simpl.
  destruct (Z.eqb_spec x rp) as [->|]; [exfalso; apply H; by left|]. simpl. rewrite IH; [done|].
  intros ?. apply H. by right.
Qed.

Lemma last_app_cons (l : list Z) x k d : List.last (l ++ x :: k) d = List.last (x :: k) d.
Proof.
  induction l as [|y l IH]; [done|]. cbn [app]. destruct (l ++ x :: k) as [|z m] eqn:E.
  - by destruct l.
  - change (List.last (y :: z :: m) d) with (List.last (z :: m) d). exact IH.
Qed.

(** Unlinking [rp] from the middle of its queue. *)
Lemma unlink_queue_ok k q pre rp l :
  queue_ok k q (pre ++ rp :: l) ->
  let next := p_nextready (k_proc k rp) in
  let k1 := if List.last pre NIL_PROC =? NIL_PROC then set_rdy_head q next k
            else upd (List.last pre NIL_PROC) (set_p_nextready next) k in
  let k2 := if k_rdy_tail k1 q =? rp then set_rdy_tail q (List.last pre NIL_PROC) k1 else k1 in
  queue_ok (upd rp (set_p_nextready NIL_PROC) k2) q (pre ++ l).
Proof.
  intros HO next k1 k2. pose proof HO as [Hc Ht Hn Hv].
  assert (Hpre : List.last pre NIL_PROC = NIL_PROC <-> pre = []).
  { split; [|by intros ->]. intros E. destruct pre as [|y pre]; [done|].
    destruct (queue_valid _ _ _ (List.last (y :: pre) NIL_PROC) HO) as [Hx _].
    - apply in_or_app. left. by apply last_in.
    - unfold valid_proc, NIL_PROC in *. lia. }
  assert (Hnd : ~ In rp pre /\ ~ In rp l).
  { apply list.NoDup_app in Hn as (_ & Hd & Hn). apply list.NoDup_cons in Hn as [Hn _].
    rewrite list_elem_of_In in Hn. split; [|done]. intros Hin. apply (Hd rp).
    - by apply list_elem_of_In.
    - by left. }
  destruct Hnd as [Hrp Hrl].
  assert (Hk2 : forall y, p_nextready (k_proc (upd rp (set_p_nextready NIL_PROC) k2) y) =
    if y =? rp then NIL_PROC else if negb (List.last pre NIL_PROC =? NIL_PROC) && (y =? List.last pre NIL_PROC)
    then next else p_nextready (k_proc k y)).
  { intros y. rewrite nextready_upd. destruct (y =? rp); [done|].
    assert (k_proc k2 = k_proc k1) as -> by (subst k2; by destruct (_ =? rp)). subst k1.
    destruct (List.last pre NIL_PROC =? NIL_PROC); [done|]. by rewrite nextready_upd. }
  assert (Hcl : forall y, proc_queue (k_proc (upd rp (set_p_nextready NIL_PROC) k2) y) = proc_queue (k_proc k y)).
  { intros y. rewrite class_upd.
    assert (k_proc k2 = k_proc k1) as -> by (subst k2; by destruct (_ =? rp)). subst k1.
    destruct (List.last pre NIL_PROC =? NIL_PROC); [done|]. by rewrite class_upd. }
  assert (Hhd : k_rdy_head (upd rp (set_p_nextready NIL_PROC) k2) q =
    match pre with [] => next | _ => k_rdy_head k q end).
  { cbn. assert (k_rdy_head k2 = k_rdy_head k1) as -> by (subst k2; by destruct (_ =? rp)). subst k1.
    destruct (Z.eqb_spec (List.last pre NIL_PROC) NIL_PROC) as [E|E].
    - apply Hpre in E as ->. cbn. by rewrite Z.eqb_refl.
    - destruct pre; [done|]. done. }
  assert (Htl : k_rdy_tail (upd rp (set_p_nextready NIL_PROC) k2) q = List.last (pre ++ l) NIL_PROC).
  { cbn. assert (Ht1 : k_rdy_tail k1 q = k_rdy_tail k q) by (subst k1; by destruct (_ =? NIL_PROC)).
    subst k2. rewrite Ht1, Ht, last_app_cons. destruct l as [|y l].
    - cbn. rewrite Z.eqb_refl. cbn. by rewrite Z.eqb_refl, app_nil_r.
    - change (List.last (rp :: y :: l) NIL_PROC) with (List.last (y :: l) NIL_PROC).
      destruct (Z.eqb_spec (List.last (y :: l) NIL_PROC) rp) as [E|_].
      + exfalso. apply Hrl. rewrite <- E. by apply last_in.
      + by rewrite Ht1, Ht, !last_app_cons. }
  constructor; [|done| |].
  - rewrite Hhd. apply (chain_remove (next_of k)); [done..| | |].
    + intros y Hy Hyl. rewrite Hk2. destruct (Z.eqb_spec y rp) as [->|].
      * by apply in_app_or in Hy as [?|?].
      * destruct (Z.eqb_spec y (List.last pre NIL_PROC)); [done|]. by rewrite andb_false_r.
    + intros Hne. rewrite Hk2. destruct (Z.eqb_spec (List.last pre NIL_PROC) rp) as [E|].
      * exfalso. apply Hrp. rewrite <- E. by apply last_in.
      * rewrite Z.eqb_refl. destruct (Z.eqb_spec (List.last pre NIL_PROC) NIL_PROC) as [E|]; [|done].
        by apply Hpre in E.
    + intros -> y Hy. rewrite Hk2. cbn. destruct (Z.eqb_spec y rp) as [->|]; done.
  - apply list.NoDup_app in Hn as (H1 & Hd & Hn). apply list.NoDup_cons in Hn as [_ Hn].
    apply list.NoDup_app. split_and!; [done| |done]. intros y Hy1 Hy2. apply (Hd y Hy1). by right.
  - apply Forall_app in Hv as [Hv1 Hv2]. apply Forall_app. split; rewrite Forall_forall in *; intros y Hy.
    + rewrite Hcl. by apply Hv1.
    + rewrite Hcl. apply Hv2. by right.
Qed.

Lemma queues_update k k' Q q l' :
  queues k Q -> 0 <= q < 3 -> queue_ok k' q l' ->
  (forall i, i <> q -> k_rdy_head k' i = k_rdy_head k i /\ k_rdy_tail k' i = k_rdy_tail k i) ->
  (forall x, ~ In x (Q q) -> p_nextready (k_proc k' x) = p_nextready (k_proc k x)) ->
  (forall x, proc_queue (k_proc k' x) = proc_queue (k_proc k x)) ->
  queues k' (fun i => if i =? q then l' else Q i).
Proof.
  intros HQ Hq HO Hht Hn Hc i Hi. destruct (Z.eqb_spec i q) as [->|Hne]; [done|].
  destruct (Hht i Hne). apply (queue_ok_ext k); [by apply HQ|done..| |by intros].
  intros x Hx. apply Hn. intros Hxq.
  destruct (queue_valid _ _ _ _ (HQ i Hi) Hx) as [_ H1].
  destruct (queue_valid _ _ _ _ (HQ q Hq) Hxq) as [_ H2]. congruence.
Qed.

Lemma links_class k k' x : same_but_links k k' -> proc_queue (k_proc k' x) = proc_queue (k_proc k x).
Proof. by apply links_field. Qed.

Lemma unready_from_spec q rp k pre l n cur :
  queue_ok k q (pre ++ l) -> ~ In rp pre -> (length l < n)%nat -> chain k cur l ->
  let k' := unready_from q rp n (List.last pre NIL_PROC) cur k in
  queue_ok k' q (pre ++ List.filter (fun x => negb (x =? rp)) l) /\
  (forall i, i <> q -> k_rdy_head k' i = k_rdy_head k i /\ k_rdy_tail k' i = k_rdy_tail k i) /\
  (forall x, ~ In x (pre ++ l) -> p_nextready (k_proc k' x) = p_nextready (k_proc k x)).
Proof.
  revert pre n cur. induction l as [|x l IH]; intros pre [|n] cur HO Hpre Hn Hc; cbn [length] in *; try lia.
  - cbn in Hc. subst cur. cbn. by rewrite app_nil_r in *.
  - destruct Hc as [-> Hc]. cbn [unready_from List.filter].
    destruct (queue_valid _ _ _ x HO) as [Hx _]; [apply in_or_app; right; by left|].
    unfold valid_proc in Hx. change NIL_PROC with 0. destruct (Z.eqb_spec x 0); [lia|].
    change 0 with NIL_PROC. destruct (Z.eqb_spec x rp) as [->|Hne]; cbn [negb].
    + pose proof (qo_nodup _ _ _ HO) as Hnd. apply list.NoDup_app in Hnd as (_ & _ & Hnd).
      apply list.NoDup_cons in Hnd as [Hnin _]. rewrite list_elem_of_In in Hnin.
      rewrite filter_absent by done. split_and!.
      * by apply unlink_queue_ok.
      * intros i Hi. cbn. destruct (List.last pre NIL_PROC =? NIL_PROC); cbn;
          (destruct (Z.eqb_spec (k_rdy_tail k q) rp)); cbn;
          destruct (Z.eqb_spec i q); done.
      * intros y Hy. rewrite nextready_upd. destruct (Z.eqb_spec y rp) as [->|].
        { exfalso. apply Hy, in_or_app. right. by left. }
        cbv zeta. destruct (Z.eqb_spec (List.last pre NIL_PROC) NIL_PROC) as [|Hl];
          case_match; cbn [set_rdy_tail set_k_rdy_tail set_rdy_head set_k_rdy_head k_proc];
          try done; rewrite nextready_upd;
          (destruct (Z.eqb_spec y (List.last pre NIL_PROC)) as [->|]; [|done]);
          exfalso; apply Hy, in_or_app; left; apply last_in; intros ->; by apply Hl.
    + destruct (IH (pre ++ [x]) n (p_nextready (k_proc k x))) as (H1 & H2 & H3); [| |lia|done|].
      * by rewrite <- app_assoc.
      * intros [?|[?|[]]]%in_app_or; done.
      * rewrite last_last in H1, H2, H3. rewrite <- app_assoc in H1, H3. done.
Qed.

Lemma unready_queues k Q rp :
  queues k Q -> valid_proc rp ->
  queues (unready rp k) (dequeue Q (proc_queue (k_proc k rp)) rp).
Proof.
  intros HQ Hrp. set (q := proc_queue (k_proc k rp)).
  assert (Hq : 0 <= q < 3) by apply proc_queue_range. pose proof (HQ q Hq) as HO.
  pose proof (unready_links rp k) as HL. unfold unready in *. fold q in HL |- *.
  unfold valid_proc, NIL_PROC in Hrp. destruct (Z.eqb_spec rp NIL_PROC) as [->|]; [unfold NIL_PROC in *; lia|].
  pose proof (queue_length _ _ _ HO).
  destruct (unready_from_spec q rp k [] (Q q) HOPS_LE (k_rdy_head k q)) as (H1 & H2 & H3);
    [done|by intros []|unfold HOPS_LE; lia|apply HO|]. cbn [List.last app] in *.
  apply (queues_update k); try done. intros x. by apply links_class.
Qed.

Lemma pop_queues k Q q p l :
  queues k Q -> 0 <= q < 3 -> Q q = p :: l ->
  same_but_links k (pop_ready q k) /\ queues (pop_ready q k) (fun i => if i =? q then l else Q i).
Proof.
  intros HQ Hq E. pose proof (HQ q Hq) as HO. pose proof (qo_chain _ _ _ HO) as Hc.
  pose proof (qo_tail _ _ _ HO) as Ht. pose proof (queue_valid _ _ _ p HO) as Hv. rewrite E in *.
  destruct Hc as [Hh Hc]. destruct Hv as [Hp _]; [by left|]. unfold valid_proc in Hp.
  assert (HL : same_but_links k (pop_ready q k)) by (unfold pop_ready; cbv zeta; links_solve).
  split; [done|]. assert (Heq : pop_ready q k = upd p (set_p_nextready NIL_PROC)
    (let k1 := set_rdy_head q (p_nextready (k_proc k p)) k in
     if k_rdy_tail k1 q =? p then set_rdy_tail q NIL_PROC k1 else k1)).
  { unfold pop_ready. rewrite Hh. cbv zeta. f_equal. cbn [set_rdy_head set_k_rdy_head k_rdy_head k_rdy_tail].
    rewrite Z.eqb_refl, Ht. pose proof (qo_nodup _ _ _ HO) as Hn.
    apply list.NoDup_cons in Hn as [Hn _]. rewrite list_elem_of_In in Hn.
    destruct l as [|y l].
    - cbn [lchain List.last] in Hc |- *. by rewrite Hc, !Z.eqb_refl.
    - destruct Hc as [Hy _]. destruct (queue_valid _ _ _ y HO) as [Hvy _]; [right; by left|].
      unfold valid_proc in Hvy. rewrite Hy. change NIL_PROC with 0. destruct (Z.eqb_spec y 0); [lia|].
      change (List.last (p :: y :: l) 0) with (List.last (y :: l) 0).
      destruct (Z.eqb_spec (List.last (y :: l) 0) p) as [E'|]; [|done].
      exfalso. apply Hn. rewrite <- E'. by apply last_in. }
  pose proof (unlink_queue_ok k q [] p l HO) as HU. cbn [List.last app] in HU.
  apply (queues_update k); try done; [by rewrite Heq| | |intros; by apply links_class].
  - intros i Hi. rewrite Heq. cbn. clear Heq.
    destruct (k_rdy_tail k q =? p); cbn; destruct (Z.eqb_spec i q); done.
  - intros x Hx. rewrite Heq, nextready_upd. destruct (Z.eqb_spec x p) as [->|].
    { exfalso. apply Hx. rewrite E. by left. }
    cbv zeta. by destruct (_ =? p).
Qed.

(** *** Selection *)

(** Every queued descriptor can run. *)
Definition runnable (k : kst) (Q : Z -> list Z) : Prop :=
  forall q x, 0 <= q < 3 -> In x (Q q) ->
  p_flags (k_proc k x) = 0 /\ bad_user_frame q (k_proc k x) = false.

(** The first nonempty queue in rotation from [nq]. *)
Definition nonempty_queue (Q : Z -> list Z) (q : Z) : bool := match Q q with [] => false | _ => true end.
Definition first_queue (Q : Z -> list Z) (nq : Z) : option Z :=
  List.find (nonempty_queue Q) [nq mod 3; (nq + 1) mod 3; (nq + 2) mod 3].

(** Turns that [p] in queue [q] waits at most, the queue [nq] being served next. *)
Fixpoint position (p : Z) (l : list Z) : Z :=
  match l with [] => 0 | x :: l => if x =? p then 0 else 1 + position p l end.
Definition wait (Q : Z -> list Z) (nq q p : Z) : Z := 3 * position p (Q q) + (q - nq) mod 3.

Definition pop_front (Q : Z -> list Z) (q : Z) : Z -> list Z :=
  fun i => if i =? q then tl (Q q) else Q i.

Lemma skip_blocked_none k Q q :
  queues k Q -> runnable k Q -> 0 <= q < 3 -> skip_blocked q HOPS_LE k = k.
Proof.
  intros HQ HR Hq. pose proof (qo_chain _ _ _ (HQ q Hq)) as Hc. unfold HOPS_LE. cbn [skip_blocked].
  destruct (Q q) as [|x l] eqn:E.
  - cbn in Hc. by rewrite Hc.
  - destruct Hc as [Hh _]. rewrite Hh. destruct (HR q x Hq) as [Hf _]; [rewrite E; by left|].
    rewrite Hf. by rewrite andb_false_r.
Qed.

Lemma head_nil k Q q :
  queues k Q -> 0 <= q < 3 ->
  match Q q with
  | [] => k_rdy_head k q = NIL_PROC
  | x :: _ => k_rdy_head k q = x /\ (x =? NIL_PROC) = false
  end.
Proof.
  intros HQ Hq. pose proof (HQ q Hq) as HO. pose proof (qo_chain _ _ _ HO) as Hc.
  destruct (Q q) as [|x l] eqn:E; [done|]. destruct Hc as [Hh _]. split; [done|].
  destruct (queue_valid _ _ _ x HO) as [Hx _]; [by left|].
  unfold valid_proc in Hx. change NIL_PROC with 0. lia.
Qed.

Lemma pick_queue_spec k Q :
  queues k Q -> runnable k Q ->
  pick_queue NQ 0 NIL_PROC k =
  match first_queue Q (k_next_queue k) with
  | None => (NIL_PROC, k)
  | Some q => (k_rdy_head k q, set_k_next_queue ((q + 1) mod 3) (pop_ready q k))
  end.
Proof.
  intros HQ HR. unfold NQ, first_queue. set (nq := k_next_queue k).
  assert (Hstep : forall n offset rp, pick_queue (S n) offset rp k =
    let q := (nq + offset) mod 3 in
    if nonempty_queue Q q then (k_rdy_head k q, set_k_next_queue ((q + 1) mod 3) (pop_ready q k))
    else pick_queue n (offset + 1) NIL_PROC k).
  { intros n offset rp. cbn [pick_queue]. fold nq. cbv zeta. set (q := (nq + offset) mod 3).
    assert (Hq : 0 <= q < 3) by (apply Z.mod_pos_bound; lia).
    rewrite (skip_blocked_none k Q) by done. pose proof (head_nil k Q q HQ Hq) as Hh.
    unfold nonempty_queue. destruct (Q q) as [|x l] eqn:E; [by rewrite Hh|].
    destruct Hh as [-> ->]. destruct (HR q x Hq) as [_ ->]; [rewrite E; by left|done]. }
  rewrite !Hstep. cbv zeta. cbn [List.find pick_queue]. rewrite Z.add_0_r.
  change (0 + 1) with 1. change (1 + 1) with 2. by repeat case_match.
Qed.

Lemma first_queue_some Q nq q :
  0 <= nq < 3 -> first_queue Q nq = Some q ->
  0 <= q < 3 /\ Q q <> [] /\
  forall i, 0 <= i < 3 -> Q i <> [] -> i <> q -> (q - nq) mod 3 < (i - nq) mod 3.
Proof.
  intros Hnq H. unfold first_queue in H. cbn [List.find] in H.
  assert (HE : forall i, nonempty_queue Q i = true <-> Q i <> []).
  { intros i. unfold nonempty_queue. by destruct (Q i). }
  assert (HF : forall i, nonempty_queue Q i = false <-> Q i = []).
  { intros i. unfold nonempty_queue. by destruct (Q i). }
  assert (nq = 0 \/ nq = 1 \/ nq = 2) as Hn by lia.
  destruct (nonempty_queue Q (nq mod 3)) eqn:E0; [injection H as <-|
    destruct (nonempty_queue Q ((nq + 1) mod 3)) eqn:E1; [injection H as <-|
      destruct (nonempty_queue Q ((nq + 2) mod 3)) eqn:E2; [injection H as <-|done]]];
  rewrite ?HE, ?HF in *; (split; [apply Z.mod_pos_bound; lia|]); (split; [done|]);
  intros i Hi Hne Hd; assert (i = 0 \/ i = 1 \/ i = 2) as Hi3 by lia;
  destruct Hn as [->|[->| ->]]; destruct Hi3 as [->|[->| ->]]; cbn in *; done || lia.
Qed.

Lemma first_queue_none Q nq :
  0 <= nq < 3 -> first_queue Q nq = None -> forall i, 0 <= i < 3 -> Q i = [].
Proof.
  intros Hnq H i Hi. unfold first_queue in H.
  assert (Hf : nonempty_queue Q i = false).
  { apply (List.find_none _ _ H). assert (nq = 0 \/ nq = 1 \/ nq = 2) as Hn by lia.
    assert (i = 0 \/ i = 1 \/ i = 2) as Hi3 by lia.
    destruct Hn as [->|[->| ->]]; destruct Hi3 as [->|[->| ->]]; cbn; auto. }
  unfold nonempty_queue in Hf. by destruct (Q i).
Qed.

(** What selection leaves alone. *)
Record same_but_selection (k k' : kst) : Prop := {
  ss_proc : forall x, set_p_nextready 0 (k_proc k' x) = set_p_nextready 0 (k_proc k x);
  ss_addr : k_addr k' = k_addr k;
  ss_mem : k_mem k' = k_mem k;
  ss_blocked : k_blocked_return k' = k_blocked_return k }.

#[export] Instance same_but_selection_preorder : PreOrder same_but_selection.
Proof.
  split; [by intros k|]. intros k1 k2 k3 [P1 ???] [P2 ???]. constructor; congruence.
Qed.

Lemma links_selection k k' : same_but_links k k' -> same_but_selection k k'.
Proof. intros [? ? ? ? (?&?&?&?) ?]. by constructor. Qed.

Lemma selection_field {A} (f : proc -> A) k k' x :
  (forall rp, f (set_p_nextready 0 rp) = f rp) -> same_but_selection k k' ->
  f (k_proc k' x) = f (k_proc k x).
Proof. intros Hf H. by rewrite <- Hf, (ss_proc _ _ H), Hf. Qed.

(** The owner after selecting [rp]. *)
Definition select (rp : Z) (k : kst) : kst :=
  let k := set_k_current rp (set_k_proc_ptr rp k) in
  let k := if k_irq_dispatch_active k then set_k_irq_return rp k else k in
  let k := if (p_nr (k_proc k rp) =? FS_PROC_NR) && (p_flags (k_proc k rp) =? 0)
           then set_k_irq_return rp k else k in
  if LOW_USER <=? p_nr (k_proc k rp) then set_k_bill_ptr rp k else k.

Lemma select_spec rp k Q :
  queues k Q ->
  k_proc_ptr (select rp k) = rp /\ k_current (select rp k) = rp /\
  k_next_queue (select rp k) = k_next_queue k /\ same_but_selection k (select rp k) /\
  queues (select rp k) Q.
Proof.
  intros HQ. unfold select. cbv zeta. cbn [set_k_current set_k_proc_ptr k_irq_dispatch_active].
  destruct (k_irq_dispatch_active k); cbn;
    (destruct (_ && _); cbn; destruct (_ <=? _); cbn; split_and!; try done; by apply (queues_ext k)).
Qed.

Lemma pick_proc_spec k Q :
  queues k Q -> runnable k Q -> 0 <= k_next_queue k < 3 ->
  same_but_selection k (pick_proc k) /\ k_current (pick_proc k) = k_proc_ptr (pick_proc k) /\
  match first_queue Q (k_next_queue k) with
  | None => k_proc_ptr (pick_proc k) = proc_addr k IDLE /\ queues (pick_proc k) Q /\
            k_next_queue (pick_proc k) = k_next_queue k
  | Some q => exists p l, Q q = p :: l /\ k_proc_ptr (pick_proc k) = p /\
              queues (pick_proc k) (pop_front Q q) /\
              k_next_queue (pick_proc k) = (q + 1) mod 3
  end.
Proof.
  intros HQ HR Hn. unfold pick_proc.
  replace ((k_next_queue k <? 0) || (3 <=? k_next_queue k)) with false by lia.
  rewrite (pick_queue_spec k Q HQ HR).
  destruct (first_queue Q (k_next_queue k)) as [q|] eqn:E.
  - destruct (first_queue_some Q _ q Hn E) as (Hq & Hne & _).
    pose proof (head_nil k Q q HQ Hq) as Hh. destruct (Q q) as [|p l] eqn:EQ; [done|].
    destruct Hh as [-> ->]. destruct (pop_queues k Q q p l HQ Hq EQ) as [HL HP].
    set (k1 := set_k_next_queue _ _).
    assert (HQ1 : queues k1 (pop_front Q q)).
    { apply (queues_ext (pop_ready q k)); [|done..]. intros i Hi. unfold pop_front. rewrite EQ.
      exact (HP i Hi). }
    fold (select p k1). destruct (select_spec p k1 _ HQ1) as (H1 & H2 & H3 & H4 & H5).
    split_and!; [|congruence|].
    + etransitivity; [by apply links_selection|]. etransitivity; [|exact H4]. by constructor.
    + exists p, l. split_and!; done.
  - cbn [proc_addr]. change (NIL_PROC =? NIL_PROC) with true. cbv iota zeta.
    split_and!; [by constructor|done|done|by apply (queues_ext k)|done].
Qed.

(** The scheduler's state: sound queues of runnable descriptors; the current
    descriptor, when it has to be queued again, is one of the table with a
    returnable frame. *)
Definition requeued (k : kst) : bool :=
  negb (k_current k =? NIL_PROC) && (p_flags (k_proc k (k_current k)) =? 0) &&
  negb (isidlehardware (p_nr (k_proc k (k_current k)))).

Record sched_ok (k : kst) (Q : Z -> list Z) : Prop := {
  so_queues : queues k Q;
  so_runnable : runnable k Q;
  so_next : 0 <= k_next_queue k < 3;
  so_idle : isidlehardware (p_nr (k_proc k (proc_addr k IDLE))) = true;
  so_current : requeued k = true ->
    valid_proc (k_current k) /\
    bad_user_frame (proc_queue (k_proc k (k_current k))) (k_proc k (k_current k)) = false }.

(** The queues from which [sched] selects. *)
Definition requeue (k : kst) (Q : Z -> list Z) : Z -> list Z :=
  if requeued k then
    let c := k_current k in let q := proc_queue (k_proc k c) in
    if decide (c ∈ Q q) then Q else enqueue Q q c
  else Q.

Lemma requeue_in k Q q x : In x (Q q) -> In x (requeue k Q q).
Proof.
  intros Hx. unfold requeue. destruct (requeued k); [|done]. cbv zeta.
  destruct (decide _); [done|]. unfold enqueue.
  destruct (Z.eqb_spec q (proc_queue (k_proc k (k_current k)))) as [->|]; [|done].
  apply in_or_app. by left.
Qed.

Lemma position_app p l k : In p l -> position p (l ++ k) = position p l.
Proof.
  induction l as [|x l IH]; [done|]. intros [->|Hin]; cbn; [by rewrite Z.eqb_refl|].
  destruct (x =? p); [done|]. by rewrite IH.
Qed.

Lemma position_nonneg p l : 0 <= position p l.
Proof. induction l as [|x l IH]; cbn; [done|]. destruct (x =? p); lia. Qed.

Lemma requeue_position k Q q p : In p (Q q) -> position p (requeue k Q q) = position p (Q q).
Proof.
  intros Hp. unfold requeue. destruct (requeued k); [|done]. cbv zeta.
  destruct (decide _); [done|]. unfold enqueue.
  destruct (Z.eqb_spec q (proc_queue (k_proc k (k_current k)))) as [->|]; [|done].
  by apply position_app.
Qed.

Lemma eligible_blocked k rp : p_flags (k_proc k rp) = 0 -> blocked_handoff_eligible k rp = false.
Proof. intros H. unfold blocked_handoff_eligible. rewrite H. by rewrite !andb_false_r. Qed.

Lemma ready_runnable k Q rp :
  runnable k Q -> p_flags (k_proc k rp) = 0 ->
  bad_user_frame (proc_queue (k_proc k rp)) (k_proc k rp) = false ->
  runnable (ready rp k) (if decide (rp ∈ Q (proc_queue (k_proc k rp))) then Q
                         else enqueue Q (proc_queue (k_proc k rp)) rp).
Proof.
  intros HR Hf Hb. pose proof (ready_links rp k) as HL.
  assert (HE : forall q x, p_flags (k_proc (ready rp k) x) = p_flags (k_proc k x) /\
    bad_user_frame q (k_proc (ready rp k) x) = bad_user_frame q (k_proc k x)).
  { intros. split; by apply links_field. }
  intros q x Hq Hx. destruct (HE q x) as [-> ->]. destruct (decide _); [by apply HR|].
  unfold enqueue in Hx. destruct (Z.eqb_spec q (proc_queue (k_proc k rp))) as [->|]; [|by apply HR].
  apply in_app_or in Hx as [Hx|[->|[]]]; [by apply HR|done].
Qed.

Lemma switch_to_same n k :
  k_proc_ptr (switch_to n k) = k_proc_ptr k /\ k_next_queue (switch_to n k) = k_next_queue k.
Proof. unfold switch_to. by destruct (n =? NIL_PROC). Qed.

(** [sched] requeues the current descriptor and selects. *)
Lemma sched_split k Q :
  sched_ok k Q ->
  exists k1, sched k = switch_to (k_proc_ptr (pick_proc k1)) (pick_proc k1) /\
    same_but_links k k1 /\ queues k1 (requeue k Q) /\ runnable k1 (requeue k Q).
Proof.
  intros [HQ HR Hn Hi Hc]. unfold requeued in Hc. unfold sched, requeue, requeued.
  destruct (_ && _) eqn:Er; [|by exists k].
  destruct (Hc eq_refl) as [Hv Hb]. rewrite !andb_true_iff, Z.eqb_eq in Er.
  destruct Er as [[_ Hf] _]. exists (ready (k_current k) k). cbv zeta. split_and!.
  - done.
  - apply ready_links.
  - apply ready_queues; [done..|]. by apply eligible_blocked.
  - by apply ready_runnable.
Qed.

Lemma sched_ok_pick k k1 Q Q' :
  sched_ok k Q -> same_but_links k k1 -> same_but_selection k1 (pick_proc k1) ->
  runnable k1 (requeue k Q) ->
  (forall q x, 0 <= q < 3 -> In x (Q' q) -> In x (requeue k Q q)) ->
  queues (pick_proc k1) Q' -> 0 <= k_next_queue (pick_proc k1) < 3 ->
  k_current (pick_proc k1) = k_proc_ptr (pick_proc k1) ->
  (k_proc_ptr (pick_proc k1) = proc_addr k IDLE \/
   exists q, 0 <= q < 3 /\ In (k_proc_ptr (pick_proc k1)) (requeue k Q q) /\
             queues k1 (requeue k Q)) ->
  sched_ok (switch_to (k_proc_ptr (pick_proc k1)) (pick_proc k1)) Q'.
Proof.
  intros [HQ HR Hn Hi Hc] HL HS HR1 Hin HQ' Hn' Hcur Hown.
  pose proof (links_selection _ _ HL) as HLS.
  assert (HSS : same_but_selection k (pick_proc k1)) by (by etransitivity).
  set (k2 := pick_proc k1) in *.
  assert (Hsw : switch_to (k_proc_ptr k2) k2 = k2 \/
    switch_to (k_proc_ptr k2) k2 = set_k_current (k_proc_ptr k2) k2)
    by (unfold switch_to; destruct (_ =? _); auto).
  set (k3 := switch_to (k_proc_ptr k2) k2) in *.
  assert (H3 : k_proc k3 = k_proc k2 /\ k_addr k3 = k_addr k2 /\ k_rdy_head k3 = k_rdy_head k2 /\
    k_rdy_tail k3 = k_rdy_tail k2 /\ k_next_queue k3 = k_next_queue k2 /\
    k_current k3 = k_proc_ptr k2) by (destruct Hsw as [-> | ->]; done).
  clearbody k3. destruct H3 as (Hp & Ha & Hh & Ht & Hnq & Hcu).
  assert (Hfl : forall x q, p_flags (k_proc k3 x) = p_flags (k_proc k1 x) /\
    bad_user_frame q (k_proc k3 x) = bad_user_frame q (k_proc k1 x) /\
    proc_queue (k_proc k3 x) = proc_queue (k_proc k1 x) /\ p_nr (k_proc k3 x) = p_nr (k_proc k x)).
  { intros. rewrite Hp. split_and!; [by apply selection_field..|].
    rewrite (selection_field p_nr k k2 x); done. }
  constructor.
  - by apply (queues_ext k2).
  - intros q x Hq Hx. destruct (Hfl x q) as (-> & -> & _). apply HR1; auto.
  - by rewrite Hnq.
  - unfold proc_addr. rewrite Ha, (ss_addr _ _ HSS). destruct (Hfl (k_addr k (IDLE + NR_TASKS)) 0) as (_ & _ & _ & ->).
    exact Hi.
  - unfold requeued. rewrite Hcu. intros Hreq. rewrite !andb_true_iff in Hreq. destruct Hreq as [[Hnn Hf] Hni].
    destruct Hown as [Hid|(q & Hq & Hinq & HQ1)].
    + exfalso. rewrite Hid in Hni. destruct (Hfl (proc_addr k IDLE) 0) as (_ & _ & _ & Hnr).
      rewrite Hnr, Hi in Hni. done.
    + destruct (queue_valid _ _ _ _ (HQ1 q Hq) Hinq) as [Hv Hcl]. split; [done|].
      destruct (Hfl (k_proc_ptr k2) q) as (_ & Hb & Hcl' & _). rewrite Hcl', Hcl, Hb. by apply HR1.
Qed.

(** Every scheduling decision either selects a queued descriptor or brings it
    closer to its turn. *)
Lemma sched_step k Q :
  sched_ok k Q ->
  exists Q', sched_ok (sched k) Q' /\
  forall q p, 0 <= q < 3 -> In p (Q q) ->
    k_proc_ptr (sched k) = p \/
    (In p (Q' q) /\ wait Q' (k_next_queue (sched k)) q p < wait Q (k_next_queue k) q p).
Proof.
  intros HS. destruct (sched_split k Q HS) as (k1 & Heq & HL & HQ1 & HR1).
  pose proof (so_next _ _ HS) as Hn. destruct (sl_mode _ _ HL) as (_ & _ & Hnk & _).
  destruct (pick_proc_spec k1 (requeue k Q) HQ1 HR1) as (HSel & Hcur & Hpick); [by rewrite Hnk|].
  assert (Hsame : k_proc_ptr (sched k) = k_proc_ptr (pick_proc k1) /\
    k_next_queue (sched k) = k_next_queue (pick_proc k1)).
  { rewrite Heq. apply switch_to_same. }
  destruct Hsame as [Hptr Hnq]. rewrite Hptr, Hnq, Heq. rewrite Hnk in Hpick.
  destruct (first_queue (requeue k Q) (k_next_queue k)) as [q0|] eqn:E.
  - destruct Hpick as (p0 & l & EQ & Hp0 & HQ' & Hn').
    destruct (first_queue_some _ _ _ Hn E) as (Hq0 & _ & Hfirst).
    exists (pop_front (requeue k Q) q0). split.
    + apply (sched_ok_pick k k1 Q); try done.
      * intros q x Hq Hx. unfold pop_front in Hx. destruct (Z.eqb_spec q q0) as [->|]; [|done].
        rewrite EQ in *. by right.
      * rewrite Hn'. apply Z.mod_pos_bound. lia.
      * right. exists q0. rewrite Hp0, EQ. split_and!; [lia..|by left|done].
    + intros q p Hq Hp. rewrite Hp0. destruct (Z.eq_dec p0 p) as [|Hne]; [by left|right].
      pose proof (requeue_in k Q q p Hp) as Hin. pose proof (requeue_position k Q q p Hp) as Hpos.
      unfold wait, pop_front. rewrite Hn'. destruct (Z.eqb_spec q q0) as [->|Hqne].
      * rewrite EQ in Hin, Hpos |- *. cbn [tl]. destruct Hin as [|Hin]; [done|]. split; [done|].
        cbn [position] in Hpos. destruct (Z.eqb_spec p0 p); [done|]. rewrite <- Hpos.
        Z.div_mod_to_equations. lia.
      * split; [done|]. rewrite Hpos.
        pose proof (Hfirst q Hq ltac:(intros H0; by rewrite H0 in Hin) Hqne).
        Z.div_mod_to_equations. lia.
  - destruct Hpick as (Hid & HQ' & Hn').
    exists (requeue k Q). split.
    + apply (sched_ok_pick k k1 Q); try done; [by rewrite Hn'|]. left.
      unfold proc_addr in *. by rewrite Hid, (sl_addr _ _ HL).
    + intros q p Hq Hp. apply (requeue_in k) in Hp.
      rewrite (first_queue_none _ _ Hn E q Hq) in Hp. done.
Qed.

(** C4: no runnable process starves.  From a sound scheduler state (every queue
    a list of runnable descriptors of its class), repeated scheduling selects
    every queued descriptor, in whatever class, within three times its place in
    its queue plus three decisions: the rotation of the starting class keeps a
    busy class from shutting out another. *)
Theorem no_starvation k Q q p :
  sched_ok k Q -> 0 <= q < 3 -> In p (Q q) ->
  exists n, (n <= Z.to_nat (3 * position p (Q q) + 3))%nat /\
            k_proc_ptr (Nat.iter n sched k) = p.
Proof.
  intros HS Hq Hp.
  assert (Hgen : forall m k Q, sched_ok k Q -> In p (Q q) ->
    wait Q (k_next_queue k) q p < Z.of_nat m ->
    exists n, (n <= m)%nat /\ k_proc_ptr (Nat.iter n sched k) = p).
  { clear - Hq. intros m. induction m as [|m IH]; intros k Q HS Hp Hw.
    - exfalso. unfold wait in Hw. pose proof (position_nonneg p (Q q)).
      pose proof (Z.mod_pos_bound (q - k_next_queue k) 3). lia.
    - destruct (sched_step k Q HS) as (Q' & HS' & Hstep).
      destruct (Hstep q p Hq Hp) as [Hsel|[Hp' Hw']].
      + exists 1%nat. split; [lia|done].
      + destruct (IH (sched k) Q' HS' Hp' ltac:(lia)) as (n & Hn & Hsel).
        exists (S n). split; [lia|]. rewrite Nat.iter_succ_r. exact Hsel. }
  destruct (Hgen (Z.to_nat (3 * position p (Q q) + 3)) k Q HS Hp) as (n & Hn & Hsel).
  - unfold wait. pose proof (position_nonneg p (Q q)).
    pose proof (Z.mod_pos_bound (q - k_next_queue k) 3). lia.
  - by exists n.
Qed.

(** Nothing but the links differs, and the frame of the next interrupt return is [irq]. *)
Record only_links (irq : Z) (k k' : kst) : Prop := {
  ol_links : same_but_links k k';
  ol_irq : k_irq_return k' = irq;
  ol_saved : k_irq_saved_owner k' = k_irq_saved_owner k /\ k_irq_dispatch_active k' = k_irq_dispatch_active k;
  ol_gates : k_blocked_handoff_gate k' = k_blocked_handoff_gate k /\ k_restore_gate k' = k_restore_gate k /\
             k_handoff_gate k' = k_handoff_gate k /\ k_user_handoff_gate k' = k_user_handoff_gate k /\
             k_user_trap_gate k' = k_user_trap_gate k /\ k_user_probe_mode k' = k_user_probe_mode k /\
             k_user_dispatch_blocked k' = k_user_dispatch_blocked k }.

Lemma unready_only rp k : only_links (k_irq_return k) k (unready rp k).
Proof.
  assert (H : k_irq_return (unready rp k) = k_irq_return k /\
    (k_irq_saved_owner (unready rp k) = k_irq_saved_owner k /\ k_irq_dispatch_active (unready rp k) = k_irq_dispatch_active k) /\
    (k_blocked_handoff_gate (unready rp k) = k_blocked_handoff_gate k /\ k_restore_gate (unready rp k) = k_restore_gate k /\
     k_handoff_gate (unready rp k) = k_handoff_gate k /\ k_user_handoff_gate (unready rp k) = k_user_handoff_gate k /\
     k_user_trap_gate (unready rp k) = k_user_trap_gate k /\ k_user_probe_mode (unready rp k) = k_user_probe_mode k /\
     k_user_dispatch_blocked (unready rp k) = k_user_dispatch_blocked k)).
  { unfold unready. cbv zeta. destruct (rp =? NIL_PROC); [done|].
    generalize NIL_PROC, (k_rdy_head k (proc_queue (k_proc k rp))).
    induction HOPS_LE as [|n IH]; intros prev cur; cbn [unready_from]; [done|]. cbv zeta.
    case_match; [done|]. case_match; [repeat case_match; done|apply IH]. }
  destruct H as (H1 & H2 & H3). constructor; [apply unready_links|done..].
Qed.

(** What [ready] leaves alone: an owner that waits for its frame, and a
    descriptor that is queued already. *)
Definition stays (k : kst) (Q : Z -> list Z) (rp : Z) : bool :=
  blocked_handoff_eligible k rp || bool_decide (rp ∈ Q (proc_queue (k_proc k rp))).
Definition wakes_fs (rp : proc) : bool := (p_nr rp =? FS_PROC_NR) && (p_flags rp =? 0).

Lemma ready_stays k Q rp : queues k Q -> stays k Q rp = true -> ready rp k = k.
Proof.
  intros HQ. unfold stays, ready. destruct (rp =? NIL_PROC); [done|]. destruct (blocked_handoff_eligible k rp); [done|]. cbn [orb].
  intros Hin%bool_decide_eq_true. cbv zeta. destruct (_ || _); [done|].
  assert (E : proc_is_ready_queued k rp = true); [|by rewrite E].
  apply (is_ready_queued_spec k Q rp HQ). exists (proc_queue (k_proc k rp)). split; [apply proc_queue_range|by apply list_elem_of_In].
Qed.

Lemma ready_only k Q rp :
  queues k Q -> valid_proc rp -> stays k Q rp = false ->
  only_links (if wakes_fs (k_proc k rp) then rp else k_irq_return k) k (ready rp k).
Proof.
  intros HQ Hv [Hb Hnin]%orb_false_iff. apply bool_decide_eq_false in Hnin. pose proof (proc_queue_range (k_proc k rp)) as Hq.
  assert (Ho : proc_is_ready_queued k rp = false).
  { apply not_true_iff_false. intros (i & Hi & Hin)%(is_ready_queued_spec k Q rp HQ). apply Hnin.
    destruct (queue_valid _ _ _ _ (HQ i Hi) Hin) as [_ Hxi]. by rewrite Hxi, list_elem_of_In. }
  constructor; [apply ready_links|..]; unfold ready; unfold valid_proc, NIL_PROC in *;
    rewrite (proj2 (Z.eqb_neq rp 0)), Hb, Ho, (proj2 (Z.ltb_ge _ 0)), (proj2 (Z.leb_gt 3 _)) by lia; cbn [orb]; cbv zeta;
    set (q := proc_queue (k_proc k rp)) in *; destruct (reconcile_sound k Q q HQ Hq) as [Hreq Hrec]; cbv zeta in *;
    set (reconcile := negb (k_rdy_head k q =? 0) && negb (k_rdy_tail k q =? 0)) in *;
    (assert (Hgo : (reconcile && negb (p_nextready (k_proc k (walk_ready k HOPS_LT (k_rdy_head k q))) =? 0)) = false)
      by (destruct reconcile; [destruct (Hrec eq_refl) as [-> ->]; done|done])); rewrite Hgo.
  2,3: repeat case_match; done.
  match goal with |- context [p_nr (k_proc ?k1 rp)] => assert (HL : same_but_links k k1) by links_solve; set (k' := k1) in * end.
  rewrite (links_field p_nr k k' rp (fun _ => eq_refl) HL), (links_field p_flags k k' rp (fun _ => eq_refl) HL).
  unfold wakes_fs. destruct ((p_nr (k_proc k rp) =? FS_PROC_NR) && _); [done|]. subst k'. repeat case_match; done.
Qed.

(** C5. The ready queues are FIFO queues.  On sound queues [ready] does nothing to
    the owner whose blocked frame is still to be handed over
    ([blocked_handoff_eligible]) or to a descriptor that is queued; any other it
    appends to the queue of its class, and FS, when it wakes runnable, becomes the
    frame of the next interrupt return.  [unready] takes a descriptor out wherever
    it stands.  Both leave the other queues, every other field of every descriptor
    and every other global, memory among them, as they were. *)
Theorem ready_unready_spec k Q rp :
  queues k Q -> valid_proc rp ->
  let q := proc_queue (k_proc k rp) in
  (if stays k Q rp then ready rp k = k
   else queues (ready rp k) (enqueue Q q rp) /\
        only_links (if wakes_fs (k_proc k rp) then rp else k_irq_return k) k (ready rp k)) /\
  queues (unready rp k) (dequeue Q q rp) /\ only_links (k_irq_return k) k (unready rp k).
Proof.
  intros HQ Hv q. split; [|split; [by apply unready_queues|apply unready_only]].
  destruct (stays k Q rp) eqn:Es; [by apply (ready_stays k Q)|]. split; [|by apply (ready_only k Q)].
  pose proof Es as [Hb Hnin]%orb_false_iff. apply bool_decide_eq_false in Hnin.
  pose proof (ready_queues k Q rp HQ Hv Hb) as H. cbv zeta in H. by rewrite decide_False in H.
Qed.


(** ** Witnesses

    A table in which descriptor [p] has endpoint [p - 10] and a returnable
    frame; two tasks and a user process are ready, FS is running. *)
Module KDemo.
Definition frame : stackframe_s := Frame (replicate 16 4096) 4096 0 4096 0 0 0 0.
Definition rp (nr : Z) : proc := set_p_nr nr (set_p_reg frame zero_proc).
Definition empty : kst :=
  Kst (fun p => rp (p - 10)) (fun i => i + 1) 11 11 11 (fun _ => 0) (fun _ => 0) 0 0 false 0 0 0 0 0
      false true true true true true false false (fun _ => 0).
Definition state : kst := ready 13 (ready 5 (ready 2 empty)).
Definition Q (q : Z) : list Z := if q =? 0 then [2; 5] else if q =? 2 then [13] else [].
(** The user process has no program counter. *)
Definition bad : kst :=
  set_k_next_queue 2 (upd 13 (set_p_reg (Frame (replicate 16 0) 0 0 0 0 0 0 0)) state).
End KDemo.

Lemma demo_queues : queues KDemo.state KDemo.Q.
Proof.
  assert (H : forall q, q = 0 \/ q = 1 \/ q = 2 -> queue_ok KDemo.state q (KDemo.Q q)).
  { intros q [->|[->| ->]]; constructor; try (vm_compute; tauto);
      try (apply (bool_decide_unpack _); vm_compute; reflexivity);
      repeat constructor; vm_compute; discriminate. }
  intros q Hq. apply H. lia.
Qed.

Lemma demo_sched_ok : sched_ok KDemo.state KDemo.Q.
Proof.
  constructor.
  - exact demo_queues.
  - assert (H : forall q, q = 0 \/ q = 1 \/ q = 2 -> Forall (fun x =>
      p_flags (k_proc KDemo.state x) = 0 /\ bad_user_frame q (k_proc KDemo.state x) = false) (KDemo.Q q)).
    { intros q [->|[->| ->]]; repeat constructor. }
    intros q x Hq Hx. specialize (H q ltac:(lia)). rewrite Forall_forall in H. by apply H.
  - vm_compute. split; [discriminate|reflexivity].
  - reflexivity.
  - intros _. split; [vm_compute; split; discriminate|reflexivity].
Qed.

Lemma no_starvation_witness :
  exists n, (n <= 3)%nat /\ k_proc_ptr (Nat.iter n sched KDemo.state) = 13.
Proof.
  apply (no_starvation KDemo.state KDemo.Q 2 13 demo_sched_ok); [lia|by left].
Defined.

Lemma ready_unready_spec_witness :
  queues (ready 6 KDemo.state) (enqueue KDemo.Q 0 6) /\ ready 5 KDemo.state = KDemo.state.
Proof.
  assert (E6 : stays KDemo.state KDemo.Q 6 = false) by (vm_compute; reflexivity).
  assert (E5 : stays KDemo.state KDemo.Q 5 = true) by (vm_compute; reflexivity).
  split.
  - destruct (ready_unready_spec KDemo.state KDemo.Q 6 demo_queues) as [H _]; [unfold valid_proc; lia|]. rewrite E6 in H. exact (proj1 H).
  - destruct (ready_unready_spec KDemo.state KDemo.Q 5 demo_queues) as [H _]; [unfold valid_proc; lia|]. rewrite E5 in H. exact H.
Defined.

(** The rotation skips a user process whose frame cannot be restored, but when
    its queue is the last one looked at the skipped process is selected all the
    same: here it becomes the owner although two tasks are ready. *)
Lemma pick_selects_rejected :
  bad_user_frame USER_Q (k_proc KDemo.bad 13) = true /\ k_rdy_head KDemo.bad TASK_Q = 2 /\
  k_proc_ptr (pick_proc KDemo.bad) = 13.
Proof. vm_compute. split_and!; reflexivity. Qed.
