(* ===== verification/Ipc.v ===== *)
(** * Message passing: src/src/kernel/proc.c

    Rendezvous send and receive, hardware notifications and the system call
    entries.  A [message *] is the virtual address of 36 bytes; 0 is the null
    pointer.  Statuses are the C results: [OK] is the fall-through. *)
From S2P Require Import Prelude Codec Kconst Ktypes Sched.

(** ** Saved frames of blocked callers *)
Definition cp32_save_blocked_frame (rp : Z) (k : kst) : kst :=
  if rp =? NIL_PROC then k else
  let r := p_reg (k_proc k rp) in
  upd rp (fun p => set_p_blocked_frame_valid 1 (set_p_blocked_frame_result 0
    (set_p_blocked_frame_pc (r_pc r) (set_p_blocked_frame_psw (r_psw r)
    (set_p_blocked_frame_sp (r_sp r) p))))) k.

(** [flags &= ~bits] *)
Definition clear (flags bits : Z) : Z := Z.land flags (Z.lnot bits).

Definition completed (result : Z) (p : proc) : proc :=
  set_p_blocked_frame_valid 0 (set_p_blocked_frame_result result
    (set_p_blocked_frame_pc 0 (set_p_blocked_frame_psw 0 (set_p_blocked_frame_sp 0
    (set_p_flags (clear (p_flags p) (Z.lor SENDING RECEIVING)) (set_reg_a 2 (wrap32 result) p)))))).

Definition cp32_complete_blocked_frame (rp result : Z) (k : kst) : kst :=
  if rp =? NIL_PROC then k else
  if truthy (p_blocked_frame_valid (k_proc k rp)) && negb (blocked_frame_matches (k_proc k rp))
  then k else
  let k := upd rp (completed result) k in
  let k := if k_blocked_return k =? rp then set_k_blocked_return NIL_PROC k else k in
  if p_flags (k_proc k rp) =? 0 then ready rp k else k.

(** ** Copying *)
Definition store_mem (at_ : Z) (bs : list Z) (k : kst) : kst :=
  set_k_mem (mem_write (k_mem k) at_ bs) k.

Definition interrupt_message (rp buffer : Z) : KM unit :=
  dst <- gets (fun k => numap k (p_nr (k_proc k rp)) buffer MESS_SIZE) ;;
  guard (dst =? 0) EFAULT ;;;
  modify (store_mem dst (word_bytes HARDWARE ++ word_bytes HARD_INT)).

Definition copy_message (sender src receiver dst : Z) : KM unit :=
  s <- gets (fun k => p_nr (k_proc k sender)) ;;
  r <- gets (fun k => p_nr (k_proc k receiver)) ;;
  target <- gets (fun k => numap k r dst MESS_SIZE) ;;
  guard (target =? 0) EFAULT ;;;
  mem_copy s src r dst MESS_SIZE ;;;
  modify (store_mem target (word_bytes s)).

Definition deliver_blocked_message (sender src receiver dst : Z) : KM unit :=
  copy_message sender src receiver dst ;;;
  modify (cp32_complete_blocked_frame receiver OK).

(** ** mini_send *)

(** The walk along [p_sendto] from [next]; [n - 1] hops are left. *)
Fixpoint send_cycle (k : kst) (caller : Z) (n : nat) (next : Z) : option Z :=
  match n with
  | O => Some ELOCKED
  | S n =>
      if next =? caller then Some ELOCKED
      else if negb (has (p_flags (k_proc k next)) SENDING) then None
      else if Nat.eqb n 0 then Some ELOCKED
      else if negb (isokprocn (p_sendto (k_proc k next))) then Some E_BAD_DEST
      else let next := proc_addr k (p_sendto (k_proc k next)) in
           if (next =? NIL_PROC) || has (p_flags (k_proc k next)) P_SLOT_FREE then Some E_BAD_DEST
           else send_cycle k caller n next
  end.

(** [!(SENDING) || p_sendto != dest || p_messbuf == 0] *)
Definition bad_sender (p : proc) (dest : Z) : bool :=
  negb (has (p_flags p) SENDING) || (p_sendto p !=? dest) || (p_messbuf p =? 0).

(** The validation of the caller queue before linking. *)
Fixpoint append_walk (k : kst) (caller dest : Z) (n : nat) (next : Z) : option Z :=
  let link := p_sendlink (k_proc k next) in
  let final := if bad_sender (k_proc k next) dest then Some E_BAD_DEST
               else if negb (link =? NIL_PROC) then Some ELOCKED else None in
  match n with
  | O => final
  | S n =>
      if link =? NIL_PROC then final
      else if link =? caller then Some ELOCKED
      else if bad_sender (k_proc k next) dest then Some E_BAD_DEST
      else if has (p_flags (k_proc k link)) P_SLOT_FREE then Some E_BAD_DEST
      else append_walk k caller dest n link
  end.

(** [while (next_ptr->p_sendlink != NIL_PROC) next_ptr = next_ptr->p_sendlink;],
    which [append_walk] has seen to end within its hops. *)
Fixpoint last_sender (k : kst) (n : nat) (next : Z) : Z :=
  match n with
  | O => next
  | S n => let link := p_sendlink (k_proc k next) in
           if link =? NIL_PROC then next else last_sender k n link
  end.

Definition check (o : option Z) : KM unit :=
  match o with Some e => fail e | None => ret tt end.

(** The destination waits for a message of this sender. *)
Definition accepts (dest : proc) (caller_nr : Z) : bool :=
  (Z.land (p_flags dest) (Z.lor RECEIVING SENDING) =? RECEIVING) &&
  ((p_getfrom dest =? ANY) || (p_getfrom dest =? caller_nr)).

(** The caller stops running in [SEND]. *)
Definition enter_send (caller dest m : Z) (k : kst) : kst :=
  let k := upd caller (set_p_messbuf m) k in
  let k := if p_flags (k_proc k caller) =? 0 then unready caller k else k in
  upd caller (fun p => set_p_sendto dest (set_p_flags (Z.lor (p_flags p) SENDING) p)) k.

(** The caller becomes the last sender of [dest_ptr]. *)
Definition append_sender (caller dest_ptr : Z) (k : kst) : kst :=
  let k := if p_callerq (k_proc k dest_ptr) =? NIL_PROC
           then upd dest_ptr (set_p_callerq caller) k
           else upd (last_sender k HOPS_LT (p_callerq (k_proc k dest_ptr))) (set_p_sendlink caller) k in
  upd caller (set_p_sendlink NIL_PROC) k.

Definition block_sender (caller dest_ptr dest m : Z) (k : kst) : kst :=
  append_sender caller dest_ptr (enter_send caller dest m k).

Definition mini_send (caller dest m : Z) : KM unit :=
  guard ((caller =? NIL_PROC) || (m =? 0)) EINVAL ;;;
  guard (negb (isokprocn dest)) E_BAD_DEST ;;;
  c <- gets (fun k => k_proc k caller) ;;
  guard (dest =? p_nr c) ELOCKED ;;;
  guard (has (p_flags c) SENDING) ELOCKED ;;;
  dest_ptr <- gets (fun k => proc_addr k dest) ;;
  d <- gets (fun k => k_proc k dest_ptr) ;;
  guard (has (p_flags d) P_SLOT_FREE) E_BAD_DEST ;;;
  buffer <- gets (fun k => numap k (p_nr c) m MESS_SIZE) ;;
  guard (buffer =? 0) EFAULT ;;;
  cycle <- gets (fun k => send_cycle k caller HOPS_LE dest_ptr) ;;
  check cycle ;;;
  if accepts d (p_nr c) then
    deliver_blocked_message caller m dest_ptr (p_messbuf d)
  else
    bad <- gets (fun k => if p_callerq d =? NIL_PROC then None
                          else append_walk k caller dest HOPS_LT (p_callerq d)) ;;
    check bad ;;;
    modify (block_sender caller dest_ptr dest m).

(** ** mini_rec *)

(** The search of the caller queue: the predecessor and the sender. *)
Fixpoint find_sender (k : kst) (nr src : Z) (n : nat) (prev sender : Z) : res (option (Z * Z)) :=
  if sender =? NIL_PROC then Ok None else
  match n with
  | O => Err ELOCKED
  | S n =>
      let s := k_proc k sender in
      if has (p_flags s) P_SLOT_FREE then Err E_BAD_DEST
      else if bad_sender s nr then Err E_BAD_DEST
      else if (src =? ANY) || (src =? p_nr s) then Ok (Some (prev, sender))
      else find_sender k nr src n sender (p_sendlink s)
  end.

(** Taking the sender out of the caller's queue. *)
Definition unlink_sender (caller prev sender : Z) (k : kst) : kst :=
  let next := p_sendlink (k_proc k sender) in
  let k := if sender =? p_callerq (k_proc k caller) then upd caller (set_p_callerq next) k
           else upd prev (set_p_sendlink next) k in
  upd sender (set_p_sendlink NIL_PROC) k.

(** The sender's [SEND] is complete. *)
Definition accept_sender (caller prev sender : Z) (k : kst) : kst :=
  let k := unlink_sender caller prev sender k in
  let k := upd sender (fun p => set_p_flags (clear (p_flags p) SENDING) p) k in
  if has (p_flags (k_proc k sender)) RECEIVING then k
  else cp32_complete_blocked_frame sender OK k.

Definition block_receiver (caller src m : Z) (k : kst) : kst :=
  let k := upd caller (fun p => set_p_messbuf m (set_p_getfrom src p)) k in
  let k := if p_flags (k_proc k caller) =? 0 then unready caller k else k in
  upd caller (fun p => set_p_flags (Z.lor (p_flags p) RECEIVING) p) k.

Definition mini_rec (caller src m : Z) : KM unit :=
  guard ((caller =? NIL_PROC) || (m =? 0)) EINVAL ;;;
  guard (negb (isoksrc_dest src)) E_BAD_SRC ;;;
  c <- gets (fun k => k_proc k caller) ;;
  buffer <- gets (fun k => numap k (p_nr c) m MESS_SIZE) ;;
  guard (buffer =? 0) EFAULT ;;;
  guard (has (p_flags c) RECEIVING) (if p_messbuf c =? 0 then EFAULT else ELOCKED) ;;;
  found <- (if has (p_flags c) SENDING then ret None else
            r <- gets (fun k => find_sender k (p_nr c) src HOPS_LT NIL_PROC (p_callerq c)) ;;
            match r with Err e => fail e | Ok f => ret f end) ;;
  match found with
  | Some (prev, sender) =>
      s <- gets (fun k => k_proc k sender) ;;
      r <- try (copy_message sender (p_messbuf s) caller m) ;;
      match r with
      | Err _ => fail EFAULT
      | Ok _ => modify (accept_sender caller prev sender)
      end
  | None =>
      if negb (has (p_flags c) SENDING) && truthy (p_int_blocked c) && isrxhardware src then
        r <- try (interrupt_message caller m) ;;
        match r with
        | Err _ => fail EFAULT
        | Ok _ => modify (upd caller (set_p_int_blocked 0))
        end
      else modify (block_receiver caller src m)
  end.

(** ** Hardware notifications *)
Definition hold (rp : Z) (k : kst) : kst :=
  if p_int_held (k_proc k rp) =? 0 then
    let k := upd rp (fun p => set_p_nextheld NIL_PROC (set_p_int_held 1 p)) k in
    if k_held_head k =? NIL_PROC then set_k_held_tail rp (set_k_held_head rp k)
    else set_k_held_tail rp (upd (k_held_tail k) (set_p_nextheld rp) k)
  else k.

Definition interrupt (task : Z) (k : kst) : kst :=
  if negb (isokprocn task) || (0 <=? task) || isidlehardware task then k else
  let rp := proc_addr k task in
  if has (p_flags (k_proc k rp)) P_SLOT_FREE then k else
  if k_switching k || (1 <? k_reenter k) then hold rp k else
  let p := k_proc k rp in
  if negb (Z.land (p_flags p) (Z.lor RECEIVING SENDING) =? RECEIVING) ||
     negb (isrxhardware (p_getfrom p))
  then upd rp (set_p_int_blocked 1) k else
  match interrupt_message rp (p_messbuf p) k with
  | (Err _, k) => upd rp (set_p_int_blocked 1) k
  | (Ok _, k) => cp32_complete_blocked_frame rp OK (upd rp (set_p_int_blocked 0) k)
  end.

(** The [while] of [unhold]; every turn takes one descriptor off the list. *)
Fixpoint unhold_loop (n : nat) (k : kst) : kst :=
  match n with
  | O => k
  | S n =>
      let rp := k_held_head k in
      if rp =? NIL_PROC then k else
      let k := set_k_held_head (p_nextheld (k_proc k rp)) k in
      let k := if k_held_head k =? NIL_PROC then set_k_held_tail NIL_PROC k else k in
      let k := upd rp (fun p => set_p_int_held 0 (set_p_nextheld NIL_PROC p)) k in
      unhold_loop n (interrupt (p_nr (k_proc k rp)) k)
  end.
Definition unhold (k : kst) : kst :=
  if k_switching k || (1 <? k_reenter k) then k else unhold_loop HOPS_LE k.

(** ** System call entries *)
Definition blocked (p : proc) : bool := has (p_flags p) (Z.lor SENDING RECEIVING).

(** The bookkeeping after [report:]. *)
Definition report (rp : Z) (ok : bool) (k : kst) : kst :=
  if ok && blocked (k_proc k rp) then
    let k := cp32_save_blocked_frame rp k in
    if k_proc_ptr k =? rp then set_k_current rp (set_k_blocked_return rp k) else k
  else if k_blocked_return k =? rp then set_k_blocked_return NIL_PROC k else k.

Definition bad_function (function : Z) : bool :=
  negb ((function =? SEND) || (function =? RECEIVE) || (function =? BOTH)).

Definition sys_call (function src_dest m : Z) : KM unit :=
  rp <- gets k_proc_ptr ;;
  guard ((rp =? NIL_PROC) || (m =? 0)) EINVAL ;;;
  guard (bad_function function) EBADCALL ;;;
  r <- try (if function =? SEND then mini_send rp src_dest m
            else if function =? RECEIVE then mini_rec rp src_dest m
            else mini_send rp src_dest m ;;; mini_rec rp src_dest m) ;;
  modify (report rp (match r with Ok _ => true | Err _ => false end)) ;;;
  match r with Ok _ => ret tt | Err e => fail e end.

Definition lock_mini_send (caller dest m : Z) : KM unit :=
  modify (set_k_switching true) ;;;
  r <- try (mini_send caller dest m) ;;
  modify (set_k_switching false) ;;;
  match r with Ok _ => ret tt | Err e => fail e end.

(** [cp32_user_frame_contract_valid] of irq_frame.h. *)
Definition cp32_user_frame_contract_valid (frame : stackframe_s) : bool :=
  (r_pc frame !=? 0) && (r_sp frame !=? 0) && (Z.land (r_sp frame) 0x0F =? 0) &&
  (nthZ (r_a frame) 1 =? r_sp frame).

Definition status {A} (r : res A) : Z := match r with Ok _ => OK | Err e => e end.

Definition cp32_task_ipc_dispatch (owner : Z) (frame : stackframe_s) (cause : Z) : KM unit :=
  bad <- gets (fun k => (cause !=? 1) || (owner =? NIL_PROC) || (owner !=? k_proc_ptr k) ||
                        (owner !=? k_current k) || (p_flags (k_proc k owner) !=? 0) ||
                        (k_reenter k !=? 0) || negb (cp32_user_frame_contract_valid frame)) ;;
  guard bad EINVAL ;;;
  modify (upd owner (fun p => set_reg_pc (r_pc frame +u 3) (set_p_reg frame p))) ;;;
  r <- try (sys_call (to_int (nthZ (r_a frame) 2)) (to_int (nthZ (r_a frame) 3)) (nthZ (r_a frame) 4)) ;;
  modify (upd owner (set_reg_a 2 (wrap32 (status r)))) ;;;
  is_blocked <- gets (fun k => blocked (k_proc k owner)) ;;
  modify (fun k => if is_blocked : bool then sched k else set_k_current owner (set_k_proc_ptr owner k)) ;;;
  modify (fun k => set_k_irq_return (k_proc_ptr k) k) ;;;
  ok <- gets cp32_irq_return_frame_check ;;
  guard (negb ok) EINVAL.

(** [cp32_user_trap_dispatch]: the result and the frame to return through. *)
Definition set_frame_a (i x : Z) (f : stackframe_s) : stackframe_s :=
  Frame (updZ (r_a f) i x) (r_pc f) (r_psw f) (r_sp f) (r_sar f) (r_lbeg f) (r_lend f) (r_lcount f).
Definition set_frame_pc (x : Z) (f : stackframe_s) : stackframe_s :=
  Frame (r_a f) x (r_psw f) (r_sp f) (r_sar f) (r_lbeg f) (r_lend f) (r_lcount f).

Definition cp32_user_trap_dispatch (owner : Z) (frame : stackframe_s) (cause : Z) (k : kst)
  : Z * stackframe_s * kst :=
  if (owner =? NIL_PROC) || (cause <? 0) || negb (cp32_user_frame_contract_valid frame)
  then (EINVAL, frame, k) else
  if cause !=? 0 then (EBADCALL, frame, k) else
  if (owner !=? k_proc_ptr k) || (p_flags (k_proc k owner) !=? 0) then (EINVAL, frame, k) else
  let frame := set_frame_pc (r_pc frame +u 3) frame in
  let k := upd owner (set_reg_pc (r_pc frame)) k in
  if k_user_probe_mode k && (nthZ (r_a frame) 2 =? 0)
  then (OK, set_frame_a 2 (wrap32 EBADCALL) frame, k) else
  if negb (k_user_trap_gate k) then (EBADCALL, frame, k) else
  let function := to_int (nthZ (r_a frame) 2) in
  let src_dest := to_int (nthZ (r_a frame) 3) in
  let m := nthZ (r_a frame) 4 in
  if bad_function function then (EBADCALL, frame, k) else
  if ((function =? SEND) || (function =? BOTH)) && (src_dest =? ANY) then (E_BAD_DEST, frame, k) else
  if (m =? 0) || (numap k (p_nr (k_proc k owner)) m MESS_SIZE =? 0)
  then (EFAULT, set_frame_a 2 (wrap32 EFAULT) frame, k) else
  if negb (src_dest =? ANY) &&
     (negb (isokprocn src_dest) || (proc_addr k src_dest =? NIL_PROC) ||
      has (p_flags (k_proc k (proc_addr k src_dest))) P_SLOT_FREE)
  then (E_BAD_DEST, set_frame_a 2 (wrap32 E_BAD_DEST) frame, k) else
  let k := upd owner (set_p_reg frame) k in
  let (r, k) := sys_call function src_dest m k in
  let result := status r in
  let frame := set_frame_a 2 (wrap32 result) frame in
  let k := upd owner (set_reg_a 2 (wrap32 result)) (set_k_user_dispatch_blocked false k) in
  if result =? OK
  then (OK, frame, set_k_irq_return owner (set_k_current owner (set_k_proc_ptr owner k)))
  else if blocked (k_proc k owner) || (k_blocked_return k =? owner)
  then (EBADCALL, frame, set_k_user_dispatch_blocked true k)
  else (OK, frame, k).

(** [cp32_user_blocked_handoff] (without the probe builds). *)
Definition cp32_user_blocked_handoff (owner : Z) (frame : stackframe_s) (k : kst)
  : Z * stackframe_s * kst :=
  if negb (k_user_handoff_gate k) || (owner =? NIL_PROC) || (owner !=? k_proc_ptr k) ||
     (p_flags (k_proc k owner) =? 0) || (k_blocked_return k !=? owner) ||
     negb (truthy (p_blocked_frame_valid (k_proc k owner)))
  then (EBADCALL, frame, k) else
  let k := sched (set_k_current owner (unready owner k)) in
  let k := if k_proc_ptr k =? owner then sched (set_k_current owner k) else k in
  let next := k_proc_ptr k in
  if (next =? NIL_PROC) || (next =? owner) || (p_flags (k_proc k next) !=? 0)
  then (EBADCALL, frame, k)
  else (OK, p_reg (k_proc k next), k).
