(* ===== verification/IpcSpec.v ===== *)
(** * Message passing: invariant and specification

    What src/src/kernel/proc.c promises of [mini_send] and [mini_rec]: caller
    queues without loss or duplication, no deadlock among senders, no missed
    rendezvous, and delivery of the sender's bytes with its true identity. *)
From S2P Require Import Prelude Codec Kconst Ktypes Sched Ipc.

(** ** Flags *)
Lemma has_testbit f n : 0 <= n -> has f (2 ^ n) = Z.testbit f n.
Proof.
  intros Hn. unfold has, truthy. destruct (Z.testbit f n) eqn:E.
  - destruct (Z.eqb_spec (Z.land f (2 ^ n)) 0) as [H|]; [|done].
    assert (Ht : Z.testbit (Z.land f (2 ^ n)) n = false) by (rewrite H; apply Z.bits_0).
    rewrite Z.land_spec, E, Z.pow2_bits_true in Ht by done. done.
  - assert (Z.land f (2 ^ n) = 0) as ->; [|done]. apply Z.bits_inj'. intros m Hm.
    rewrite Z.land_spec, Z.bits_0. destruct (Z.eq_dec m n) as [->|]; [by rewrite E|].
    by rewrite Z.pow2_bits_false, andb_false_r by lia.
Qed.

Lemma has_SENDING f : has f SENDING = Z.testbit f 2.
Proof. exact (has_testbit f 2 ltac:(lia)). Qed.
Lemma has_RECEIVING f : has f RECEIVING = Z.testbit f 3.
Proof. exact (has_testbit f 3 ltac:(lia)). Qed.
Lemma has_FREE f : has f P_SLOT_FREE = Z.testbit f 0.
Proof. exact (has_testbit f 0 ltac:(lia)). Qed.

(** Reduces a question about flags to their bits. *)
Ltac flag_bits :=
  unfold clear in *; rewrite ?has_SENDING, ?has_RECEIVING, ?has_FREE in *;
  repeat (rewrite ?Z.lor_spec, ?Z.land_spec; try (rewrite Z.lnot_spec by lia));
  rewrite ?Z.lor_spec;
  repeat match goal with |- context [Z.testbit ?c ?n] =>
    is_ground c; let b := eval vm_compute in (Z.testbit c n) in change (Z.testbit c n) with b end;
  cbn [negb andb orb]; rewrite ?andb_true_r, ?andb_false_r, ?orb_true_r, ?orb_false_r.

Lemma receiving_only f :
  Z.land f (Z.lor RECEIVING SENDING) = RECEIVING <-> has f RECEIVING = true /\ has f SENDING = false.
Proof.
  rewrite has_SENDING, has_RECEIVING. split.
  - intros H. split.
    + assert (E : Z.testbit (Z.land f (Z.lor RECEIVING SENDING)) 3 = true) by by rewrite H.
      rewrite Z.land_spec in E. by apply andb_true_iff in E as [? _].
    + assert (E : Z.testbit (Z.land f (Z.lor RECEIVING SENDING)) 2 = false) by by rewrite H.
      rewrite Z.land_spec in E. apply andb_false_iff in E as [?|E]; [done|]. discriminate.
  - intros [H3 H2]. apply Z.bits_inj'. intros n Hn. rewrite Z.land_spec.
    destruct (Z.eq_dec n 3) as [->|]; [by rewrite H3|].
    destruct (Z.eq_dec n 2) as [->|]; [by rewrite H2|].
    change RECEIVING with (2 ^ 3). change SENDING with (2 ^ 2).
    rewrite Z.lor_spec, !Z.pow2_bits_false by lia. by rewrite andb_false_r.
Qed.

(** ** The invariant *)
Abbreviation sendlink_of k := (fun x => p_sendlink (k_proc k x)).
Definition is_sending (k : kst) (x : Z) : bool := has (p_flags (k_proc k x)) SENDING.
Definition is_receiving (k : kst) (x : Z) : bool := has (p_flags (k_proc k x)) RECEIVING.
Definition is_free (k : kst) (x : Z) : bool := has (p_flags (k_proc k x)) P_SLOT_FREE.
Definition target (k : kst) (x : Z) : Z := proc_addr k (p_sendto (k_proc k x)).

(** The chain of blocked senders from [x] ends with one that is not sending. *)
Inductive ends (k : kst) : Z -> Prop :=
| ends_here x : is_sending k x = false -> ends k x
| ends_next x : is_sending k x = true -> ends k (target k x) -> ends k x.

(** A receive of [r] that a message of [x] would satisfy. *)
Definition waits_for (k : kst) (r x : Z) : Prop :=
  is_receiving k r = true /\
  (p_getfrom (k_proc k r) = ANY \/ p_getfrom (k_proc k r) = p_nr (k_proc k x)).

(** The numbers of processes; those of the C ints that [isokprocn] accepts. *)
Definition endpoint (n : Z) : Prop := - NR_TASKS <= n < NR_PROCS.
Definition int_value (n : Z) : Prop := -2147483648 <= n < 2147483648.

Lemma endpoint_ok n : endpoint n -> isokprocn n = true.
Proof.
  unfold endpoint, isokprocn, NR_TASKS, NR_PROCS. intros H. apply Z.ltb_lt. rewrite wrap32_small; lia.
Qed.

Lemma ok_endpoint n : int_value n -> isokprocn n = true -> endpoint n.
Proof.
  unfold int_value, endpoint, isokprocn, wrap32, NR_TASKS, NR_PROCS. intros H E%Z.ltb_lt.
  Z.div_mod_to_equations. lia.
Qed.

Lemma endpoint_not_any : ~ endpoint ANY.
Proof. unfold endpoint, ANY, NR_TASKS, NR_PROCS. lia. Qed.

(** Endpoints and descriptors correspond. *)
Record table_ok (k : kst) : Prop := {
  to_addr : forall n, endpoint n -> valid_proc (proc_addr k n) /\ p_nr (k_proc k (proc_addr k n)) = n;
  to_nr : forall x, valid_proc x -> endpoint (p_nr (k_proc k x)) /\
          proc_addr k (p_nr (k_proc k x)) = x }.

(** [C p] are the blocked senders of [p], first come first. *)
Record ipc_ok (k : kst) (C : Z -> list Z) : Prop := {
  io_table : table_ok k;
  io_chain : forall p, valid_proc p -> lchain (sendlink_of k) (p_callerq (k_proc k p)) (C p);
  io_nodup : forall p, valid_proc p -> NoDup (C p);
  io_sender : forall p x, valid_proc p -> In x (C p) ->
    valid_proc x /\ is_free k x = false /\ bad_sender (k_proc k x) (p_nr (k_proc k p)) = false;
  io_queued : forall x, valid_proc x -> is_sending k x = true ->
    endpoint (p_sendto (k_proc k x)) /\ In x (C (target k x)) /\ is_free k (target k x) = false;
  io_ends : forall x, valid_proc x -> ends k x;
  io_both : forall x, valid_proc x -> is_sending k x = true -> is_receiving k x = true ->
    p_getfrom (k_proc k x) = p_sendto (k_proc k x);
  io_match : forall r x, valid_proc r -> In x (C r) -> ~ waits_for k r x;
  io_frames : forall x, valid_proc x -> truthy (p_blocked_frame_valid (k_proc k x)) = true ->
    blocked_frame_matches (k_proc k x) = true }.

(** Sound ready queues in which nothing is blocked. *)
Definition ready_ok (k : kst) (Q : Z -> list Z) : Prop :=
  queues k Q /\ forall q x, 0 <= q < 3 -> In x (Q q) -> p_flags (k_proc k x) = 0.

Lemma ends_mono k k' x :
  (forall y, is_sending k' y = true -> is_sending k y = true /\ target k' y = target k y) ->
  ends k x -> ends k' x.
Proof.
  intros H. induction 1 as [x Hx|x Hx _ IH].
  - apply ends_here. destruct (is_sending k' x) eqn:E; [|done]. destruct (H x E). congruence.
  - destruct (is_sending k' x) eqn:E; [|by apply ends_here].
    apply ends_next; [done|]. by destruct (H x E) as [_ ->].
Qed.

(** Two processes never wait in [SEND] for one another. *)
Lemma ends_no_pair k x y :
  ends k x -> is_sending k x = true -> is_sending k y = true -> target k x = y -> target k y = x -> False.
Proof.
  intros He. revert y. induction He as [x Hx|x Hx He IH]; intros y Hsx Hsy Hxy Hyx; [congruence|].
  subst y. apply (IH x); done.
Qed.

(** What decides the invariant is the same, and fewer processes send. *)
Lemma ipc_ok_ext k k' C :
  ipc_ok k C -> k_addr k' = k_addr k ->
  (forall x, p_nr (k_proc k' x) = p_nr (k_proc k x) /\ p_sendlink (k_proc k' x) = p_sendlink (k_proc k x) /\
             p_callerq (k_proc k' x) = p_callerq (k_proc k x) /\ is_sending k' x = is_sending k x /\
             is_free k' x = is_free k x) ->
  (forall x, is_sending k x = true -> p_sendto (k_proc k' x) = p_sendto (k_proc k x) /\
             (p_messbuf (k_proc k x) <> 0 -> p_messbuf (k_proc k' x) <> 0)) ->
  (forall x, valid_proc x -> is_sending k x = true -> is_receiving k' x = true ->
             p_getfrom (k_proc k' x) = p_sendto (k_proc k x)) ->
  (forall r x, valid_proc r -> In x (C r) -> ~ waits_for k' r x) ->
  (forall x, valid_proc x -> truthy (p_blocked_frame_valid (k_proc k' x)) = true ->
             blocked_frame_matches (k_proc k' x) = true) ->
  ipc_ok k' C.
Proof.
  intros [[Ta Tn] Hch Hnd Hse Hqu Hen Hbo Hma Hfr] Ha Hp Hs Hb Hm Hf.
  assert (Hpa : forall n, proc_addr k' n = proc_addr k n) by (intros; unfold proc_addr; by rewrite Ha).
  assert (Hnr : forall x, p_nr (k_proc k' x) = p_nr (k_proc k x)) by (intros x; by destruct (Hp x)).
  assert (Hsn : forall x, is_sending k' x = is_sending k x) by (intros x; by destruct (Hp x) as (?&?&?&?&?)).
  assert (Htg : forall x, is_sending k x = true -> target k' x = target k x).
  { intros x Hx. unfold target. rewrite Hpa. by destruct (Hs x Hx) as [-> _]. }
  constructor; try done.
  - constructor; [intros n Hn; rewrite Hpa, Hnr; by apply Ta|].
    intros x Hx. rewrite Hnr, Hpa. by apply Tn.
  - intros p Hv. destruct (Hp p) as (_ & _ & -> & _). apply (chain_ext (sendlink_of k)); [|by apply Hch].
    intros x _. by destruct (Hp x) as (_ & -> & _).
  - intros p x Hv Hx. destruct (Hse p x Hv Hx) as (H1 & H2 & H3).
    destruct (Hp x) as (_ & _ & _ & Hsx & ->). split_and!; [done..|]. rewrite Hnr.
    unfold bad_sender in *. change (has (p_flags (k_proc k' x)) SENDING) with (is_sending k' x).
    change (has (p_flags (k_proc k x)) SENDING) with (is_sending k x) in H3. rewrite Hsx.
    destruct (is_sending k x) eqn:E; [|done]. destruct (Hs x E) as [-> Hmb].
    cbn [negb orb] in *. destruct (p_sendto (k_proc k x) !=? p_nr (k_proc k p)); [done|].
    cbn [orb] in *. lia.
  - intros x Hv Hx. rewrite Hsn in Hx. rewrite (Htg x Hx). destruct (Hs x Hx) as [-> _].
    destruct (Hp (target k x)) as (_ & _ & _ & _ & ->). by apply Hqu.
  - intros x Hv. apply (ends_mono k); [|by apply Hen]. intros y Hy. rewrite Hsn in Hy. auto.
  - intros x Hv Hx Hr. rewrite Hsn in Hx. destruct (Hs x Hx) as [-> _]. by apply Hb.
Qed.

(** ** Updates up to the ready links *)
Definition updated (k k' : kst) (g : Z -> proc) : Prop :=
  (forall x, set_p_nextready 0 (k_proc k' x) = set_p_nextready 0 (g x)) /\ k_addr k' = k_addr k.

Lemma updated_field {A} (f : proc -> A) k k' g x :
  (forall rp, f (set_p_nextready 0 rp) = f rp) -> updated k k' g -> f (k_proc k' x) = f (g x).
Proof. intros Hf [H _]. by rewrite <- Hf, H, Hf. Qed.

(** Rewrites the fields of the descriptors of an updated state. *)
Ltac upd_field H := repeat match goal with
  | |- context [?f (k_proc ?k' ?x)] =>
      lazymatch type of H with updated _ k' _ => rewrite (updated_field f _ _ _ x (fun _ => eq_refl) H) end
  end.

Lemma queues_links k k' Q :
  queues k Q -> k_rdy_head k' = k_rdy_head k -> k_rdy_tail k' = k_rdy_tail k ->
  (forall x, p_nextready (k_proc k' x) = p_nextready (k_proc k x) /\
             p_nr (k_proc k' x) = p_nr (k_proc k x)) -> queues k' Q.
Proof.
  intros HQ Hh Ht Hx q Hq. apply (queue_ok_ext k); try (by rewrite ?Hh, ?Ht); [by apply HQ| |].
  - intros x _. apply Hx.
  - intros x _. unfold proc_queue. by destruct (Hx x) as [_ ->].
Qed.

(** What the flags of a completed, a blocked and a receiving process say. *)
Lemma completed_flags f :
  let c := clear f (Z.lor SENDING RECEIVING) in
  has c SENDING = false /\ has c RECEIVING = false /\ has c P_SLOT_FREE = has f P_SLOT_FREE.
Proof. cbv zeta. split_and!; by flag_bits. Qed.

Lemma receive_flags f :
  let c := Z.lor f RECEIVING in
  has c SENDING = has f SENDING /\ has c RECEIVING = true /\ has c P_SLOT_FREE = has f P_SLOT_FREE.
Proof. cbv zeta. split_and!; by flag_bits. Qed.

Lemma sent_flags f :
  let c := clear f SENDING in
  has c SENDING = false /\ has c RECEIVING = has f RECEIVING /\ has c P_SLOT_FREE = has f P_SLOT_FREE.
Proof. cbv zeta. split_and!; by flag_bits. Qed.

Lemma has_zero b : has 0 b = false.
Proof. reflexivity. Qed.

(** Readies a descriptor whose last blocking flag is gone. *)
Definition made_ready (k : kst) (rp : Z) (Q : Z -> list Z) : Z -> list Z :=
  if p_flags (k_proc k rp) =? 0 then enqueue Q (proc_queue (k_proc k rp)) rp else Q.

(** Completing a blocked call: the result is in the saved register, the flags
    are clear and the process is queued if nothing else blocks it. *)
Lemma complete_spec k Q rp result :
  ready_ok k Q -> valid_proc rp -> ~ (exists q, 0 <= q < 3 /\ In rp (Q q)) ->
  (truthy (p_blocked_frame_valid (k_proc k rp)) = true -> blocked_frame_matches (k_proc k rp) = true) ->
  let k' := cp32_complete_blocked_frame rp result k in
  updated k k' (fun x => if x =? rp then completed result (k_proc k rp) else k_proc k x) /\
  k_mem k' = k_mem k /\ ready_ok k' (made_ready k' rp Q).
Proof.
  intros [HQ Hz] Hv Hout Hfr. unfold cp32_complete_blocked_frame. unfold valid_proc, NIL_PROC in *.
  destruct (Z.eqb_spec rp 0); [lia|].
  assert ((truthy (p_blocked_frame_valid (k_proc k rp)) && negb (blocked_frame_matches (k_proc k rp))) = false) as ->.
  { destruct (truthy _); [|done]. by rewrite Hfr. }
  cbv zeta. set (k1 := upd rp (completed result) k).
  set (k2 := if k_blocked_return k1 =? rp then set_k_blocked_return 0 k1 else k1).
  assert (Hp : k_proc k2 = k_proc k1 /\ k_addr k2 = k_addr k /\ k_mem k2 = k_mem k /\
    k_rdy_head k2 = k_rdy_head k /\ k_rdy_tail k2 = k_rdy_tail k)
    by (subst k2; by destruct (_ =? _)).
  clearbody k2. destruct Hp as (Hp & Ha & Hm & Hh & Ht).
  assert (Hk1 : forall x, k_proc k1 x = if x =? rp then completed result (k_proc k rp) else k_proc k x).
  { intros x. subst k1. destruct (Z.eqb_spec x rp) as [->|]; [by rewrite upd_same|by rewrite upd_other]. }
  assert (HQ2 : queues k2 Q).
  { apply (queues_links k); [done..|]. intros x. rewrite Hp, Hk1. by destruct (Z.eqb_spec x rp) as [->|]. }
  assert (Hz2 : forall q x, 0 <= q < 3 -> In x (Q q) -> p_flags (k_proc k2 x) = 0).
  { intros q x Hq Hx. rewrite Hp, Hk1. destruct (Z.eqb_spec x rp) as [->|]; [|by apply (Hz q)].
    destruct Hout. by exists q. }
  destruct (Z.eqb_spec (p_flags (k_proc k2 rp)) 0) as [Hf|Hf].
  - pose proof (ready_links rp k2) as HL. split_and!.
    + split; [|by rewrite (sl_addr _ _ HL)]. intros x. by rewrite (sl_proc _ _ HL), Hp, Hk1.
    + by rewrite (sl_mem _ _ HL).
    + unfold made_ready. rewrite (links_field p_flags k2) by done. rewrite Hf. cbn [Z.eqb].
      rewrite (links_class k2) by done.
      pose proof (ready_queues k2 Q rp HQ2 Hv (eligible_blocked _ _ Hf)) as HR. cbv zeta in HR.
      rewrite decide_False in HR.
      2:{ rewrite list_elem_of_In. intros Hi. destruct Hout. eexists. split; [|exact Hi]. apply proc_queue_range. }
      split; [done|]. intros q x Hq Hx. rewrite (links_field p_flags k2) by done. unfold enqueue in Hx.
      destruct (Z.eqb_spec q (proc_queue (k_proc k2 rp))) as [->|]; [|by apply (Hz2 q)].
      apply in_app_or in Hx as [Hx|[->|[]]]; [by apply (Hz2 _ x Hq)|done].
  - split_and!; [|done|].
    + split; [|done]. intros x. by rewrite Hp, Hk1.
    + unfold made_ready. rewrite (proj2 (Z.eqb_neq _ _) Hf). done.
Qed.

(** ** What the calls do *)
Lemma bind_check {B} o (c : unit -> KM B) k :
  bind (check o) c k = match o with Some e => (Err e, k) | None => c tt k end.
Proof. by destruct o. Qed.

(** The state after 36 bytes went from [src] to [dst] under the identity [s]. *)
Definition transferred (s src dst : Z) (k : kst) : kst :=
  store_mem dst (word_bytes s) (phys_copy src dst MESS_SIZE k).

Lemma copy_message_run k sender src receiver dst :
  let s := numap k (p_nr (k_proc k sender)) src MESS_SIZE in
  let d := numap k (p_nr (k_proc k receiver)) dst MESS_SIZE in
  copy_message sender src receiver dst k =
  if (d =? 0) || (s =? 0) then (Err EFAULT, k)
  else (Ok tt, transferred (p_nr (k_proc k sender)) s d k).
Proof.
  intros s d. unfold copy_message. rewrite !bind_gets, bind_guard. fold d.
  destruct (d =? 0) eqn:Ed; [done|]. unfold mem_copy. rewrite bind_assoc, bind_gets.
  rewrite bind_assoc, bind_gets, bind_assoc, bind_guard. fold s d. rewrite Ed, orb_false_r.
  by destruct (s =? 0).
Qed.

(** The tests before the rendezvous. *)
Record sendable (k : kst) (caller dest m : Z) : Prop := {
  sd_buffer : m <> 0;
  sd_dest : isokprocn dest = true;
  sd_other : dest <> p_nr (k_proc k caller);
  sd_live : is_free k (proc_addr k dest) = false;
  sd_mapped : numap k (p_nr (k_proc k caller)) m MESS_SIZE <> 0;
  sd_acyclic : send_cycle k caller HOPS_LE (proc_addr k dest) = None }.

Lemma mini_send_run k caller dest m r k' :
  mini_send caller dest m k = (r, k') ->
  let d := proc_addr k dest in
  let src := numap k (p_nr (k_proc k caller)) m MESS_SIZE in
  let dst := numap k (p_nr (k_proc k d)) (p_messbuf (k_proc k d)) MESS_SIZE in
  (exists e, r = Err e /\ k' = k) \/
  r = Ok tt /\ sendable k caller dest m /\
  (accepts (k_proc k d) (p_nr (k_proc k caller)) = true /\ dst <> 0 /\
   k' = cp32_complete_blocked_frame d OK (transferred (p_nr (k_proc k caller)) src dst k) \/
   accepts (k_proc k d) (p_nr (k_proc k caller)) = false /\ k' = block_sender caller d dest m k).
Proof.
  intros H d src dst. unfold mini_send in H. rewrite bind_guard in H.
  destruct ((caller =? NIL_PROC) || (m =? 0)) eqn:E1; [left; injection H as <- <-; eauto|].
  rewrite bind_guard in H. destruct (isokprocn dest) eqn:E2; [|left; injection H as <- <-; eauto].
  cbn [negb] in H. rewrite bind_gets, bind_guard in H.
  destruct (Z.eqb_spec dest (p_nr (k_proc k caller))) as [|E3]; [left; injection H as <- <-; eauto|].
  rewrite bind_guard in H.
  destruct (has (p_flags (k_proc k caller)) SENDING) eqn:E4; [left; injection H as <- <-; eauto|].
  rewrite !bind_gets, bind_guard in H. fold d in H.
  destruct (has (p_flags (k_proc k d)) P_SLOT_FREE) eqn:E5; [left; injection H as <- <-; eauto|].
  rewrite bind_gets, bind_guard in H. fold src in H.
  destruct (Z.eqb_spec src 0) as [|E6]; [left; injection H as <- <-; eauto|].
  rewrite bind_gets, bind_check in H.
  destruct (send_cycle k caller HOPS_LE d) eqn:E7; [left; injection H as <- <-; eauto|].
  assert (HS : sendable k caller dest m) by (constructor; try done; lia).
  destruct (accepts (k_proc k d) (p_nr (k_proc k caller))) eqn:E8.
  - unfold deliver_blocked_message, bind in H. rewrite copy_message_run in H. cbv zeta in H.
    fold src dst in H. rewrite (proj2 (Z.eqb_neq src 0) E6), orb_false_r in H.
    destruct (Z.eqb_spec dst 0) as [|E9]; injection H as <- <-; [left; eauto|right].
    split_and!; [done..|]. left. done.
  - rewrite bind_gets, bind_check in H.
    match type of H with match ?o with _ => _ end = _ => destruct o end;
      injection H as <- <-; [left; eauto|right]. auto.
Qed.

(** ** Blocking a sender *)
Lemma last_sender_spec k n rp l :
  lchain (sendlink_of k) rp l -> l <> [] -> Forall valid_proc l -> (length l <= S n)%nat ->
  last_sender k n rp = List.last l NIL_PROC.
Proof.
  revert rp l. induction n as [|n IH]; intros rp l Hc Hne Hv Hn;
    destruct l as [|x [|y l]]; cbn [length] in *; try done; try lia.
  - by destruct Hc as [-> _].
  - destruct Hc as [-> Hc]. cbn [last_sender lchain List.last] in *. by rewrite Hc.
  - destruct Hc as [-> Hc]. inversion_clear Hv as [|? ? _ Hv']. cbn [last_sender].
    pose proof Hc as [Hxy _]. rewrite Hxy in *.
    pose proof (Forall_inv Hv') as Hy. unfold valid_proc, NIL_PROC in *.
    destruct (Z.eqb_spec y 0); [lia|]. apply (IH y (y :: l)); [done..|cbn [length]; lia].
Qed.

Lemma callers_valid k C p : ipc_ok k C -> valid_proc p -> Forall valid_proc (C p).
Proof. intros H Hp. apply Forall_forall. intros x Hx. by apply (io_sender k C H p x). Qed.

Lemma callers_length k C p : ipc_ok k C -> valid_proc p -> (length (C p) <= 41)%nat.
Proof. intros H Hp. apply pigeonhole; [by apply (io_nodup k C H)|by apply (callers_valid k)]. Qed.

Lemma caller_sending k C p x : ipc_ok k C -> valid_proc p -> In x (C p) ->
  valid_proc x /\ is_sending k x = true /\ target k x = p /\ p_messbuf (k_proc k x) <> 0.
Proof.
  intros H Hp Hx. destruct (io_sender k C H p x Hp Hx) as (Hv & _ & Hb).
  unfold bad_sender in Hb. rewrite !orb_false_iff, !negb_false_iff in Hb. destruct Hb as [[H1 H2] H3].
  split_and!; [done|done| |lia]. unfold target. apply Z.eqb_eq in H2. rewrite H2.
  by apply (to_nr k (io_table k C H)).
Qed.

(** A process that stopped in [SEND]. *)
Definition sending_to (dest m : Z) (p : proc) : proc :=
  set_p_sendto dest (set_p_flags SENDING (set_p_messbuf m p)).

(** The queues without a process that stops running. *)
Definition stopped (k : kst) (c : Z) (Q : Z -> list Z) : Z -> list Z :=
  if p_flags (k_proc k c) =? 0 then dequeue Q (proc_queue (k_proc k c)) c else Q.

(** Leaving the ready queue between two updates of the descriptor. *)
Lemma stop_spec k Q c f g :
  ready_ok k Q -> valid_proc c ->
  (forall p, p_flags (f p) = p_flags p /\ p_nr (f p) = p_nr p /\ p_nextready (f p) = p_nextready p) ->
  (forall p, p_nr (g p) = p_nr p /\ p_nextready (g p) = p_nextready p) ->
  (forall x p, g (set_p_nextready x p) = set_p_nextready x (g p)) ->
  let k1 := upd c f k in
  let k' := upd c g (if p_flags (k_proc k1 c) =? 0 then unready c k1 else k1) in
  updated k k' (fun x => if x =? c then g (f (k_proc k c)) else k_proc k x) /\
  k_mem k' = k_mem k /\ ready_ok k' (stopped k c Q).
Proof.
  intros [HQ Hz] Hv Hf Hg Hgn k1 k'.
  assert (Hk1 : forall x, k_proc k1 x = if x =? c then f (k_proc k c) else k_proc k x).
  { intros x. subst k1. destruct (Z.eqb_spec x c) as [->|]; [by rewrite upd_same|by rewrite upd_other]. }
  assert (Hf1 : p_flags (k_proc k1 c) = p_flags (k_proc k c)) by (rewrite Hk1, Z.eqb_refl; apply Hf).
  assert (HQ1 : queues k1 Q).
  { apply (queues_links k); [done..|]. intros x. rewrite Hk1.
    destruct (Z.eqb_spec x c) as [->|]; [|done]. split; apply Hf. }
  subst k'. rewrite Hf1. set (k2 := if p_flags (k_proc k c) =? 0 then unready c k1 else k1).
  assert (H2 : same_but_links k1 k2 /\ queues k2 (stopped k c Q)).
  { subst k2. unfold stopped. destruct (p_flags (k_proc k c) =? 0); [|split; [reflexivity|done]].
    split; [apply unready_links|].
    assert (proc_queue (k_proc k c) = proc_queue (k_proc k1 c)) as ->; [|by apply unready_queues].
    rewrite Hk1, Z.eqb_refl. unfold proc_queue. by destruct (Hf (k_proc k c)) as (_ & -> & _). }
  clearbody k2. destruct H2 as [HL HQ2]. set (k3 := upd c g k2).
  assert (Hk3 : updated k k3 (fun x => if x =? c then g (f (k_proc k c)) else k_proc k x)).
  { split; [|cbn; by rewrite (sl_addr _ _ HL)]. intros x. subst k3.
    pose proof (sl_proc _ _ HL x) as Hx. rewrite Hk1 in Hx. destruct (Z.eqb_spec x c) as [E|E].
    - subst x. rewrite upd_same, <- !Hgn. by rewrite Hx.
    - by rewrite upd_other. }
  split_and!; [done|cbn; by rewrite (sl_mem _ _ HL)|]. split.
  - apply (queues_links k2); [done..|]. intros x. subst k3.
    destruct (Z.eqb_spec x c) as [->|]; [rewrite upd_same; split; apply Hg|by rewrite upd_other].
  - intros q x Hq Hx. assert (Hin : In x (Q q) /\ x <> c).
    { unfold stopped in Hx. destruct (Z.eqb_spec (p_flags (k_proc k c)) 0) as [H0|H0].
      - unfold dequeue in Hx. destruct (Z.eqb_spec q (proc_queue (k_proc k c))) as [->|Hne].
        + apply filter_In in Hx as [? ?]. split; [done|lia].
        + split; [done|]. intros ->. apply Hne. symmetry. by apply (queue_valid k q (Q q)); [apply HQ|].
      - split; [done|]. intros ->. by apply H0, (Hz q). }
    destruct Hin as [Hin Hxc]. rewrite (updated_field p_flags k k3 _ x (fun _ => eq_refl) Hk3).
    rewrite (proj2 (Z.eqb_neq _ _) Hxc). by apply (Hz q).
Qed.

Lemma enter_send_spec k Q caller dest m :
  ready_ok k Q -> valid_proc caller -> p_flags (k_proc k caller) = 0 ->
  let k' := enter_send caller dest m k in
  updated k k' (fun x => if x =? caller then sending_to dest m (k_proc k caller) else k_proc k x) /\
  k_mem k' = k_mem k /\ ready_ok k' (dequeue Q (proc_queue (k_proc k caller)) caller).
Proof.
  intros HR Hv Hf k'.
  destruct (stop_spec k Q caller (set_p_messbuf m)
    (fun p => set_p_sendto dest (set_p_flags (Z.lor (p_flags p) SENDING) p)) HR Hv) as (HU & Hm & HR');
    [by intros..|]. unfold stopped in HR'. rewrite Hf in HR'. split_and!; [|exact Hm|exact HR'].
  destruct HU as [HU Ha]. split; [|done]. intros x. etransitivity; [apply HU|].
  destruct (x =? caller); [|done]. unfold sending_to.
  change (p_flags (set_p_messbuf m (k_proc k caller))) with (p_flags (k_proc k caller)). by rewrite Hf.
Qed.

(** Caller-queue operations leave everything else alone. *)
Record same_but_callers (k k' : kst) : Prop := {
  sc_proc : forall x, set_p_callerq 0 (set_p_sendlink 0 (k_proc k' x)) =
                      set_p_callerq 0 (set_p_sendlink 0 (k_proc k x));
  sc_addr : k_addr k' = k_addr k;
  sc_mem : k_mem k' = k_mem k;
  sc_head : k_rdy_head k' = k_rdy_head k;
  sc_tail : k_rdy_tail k' = k_rdy_tail k }.

#[export] Instance same_but_callers_trans : Transitive same_but_callers.
Proof. intros k1 k2 k3 [P1 A1 M1 H1 T1] [P2 A2 M2 H2 T2]. constructor; congruence. Qed.

Lemma callers_field {A} (f : proc -> A) k k' x :
  (forall rp, f (set_p_callerq 0 (set_p_sendlink 0 rp)) = f rp) -> same_but_callers k k' ->
  f (k_proc k' x) = f (k_proc k x).
Proof. intros Hf H. by rewrite <- Hf, (sc_proc _ _ H), Hf. Qed.

Lemma same_callers_upd p x k : same_but_callers k (upd p (set_p_callerq x) k).
Proof.
  constructor; try done. intros y.
  destruct (Z.eq_dec y p) as [->|]; [by rewrite upd_same|by rewrite upd_other].
Qed.
Lemma same_sendlink_upd p x k : same_but_callers k (upd p (set_p_sendlink x) k).
Proof.
  constructor; try done. intros y.
  destruct (Z.eq_dec y p) as [->|]; [by rewrite upd_same|by rewrite upd_other].
Qed.

Lemma ready_ok_callers k k' Q : ready_ok k Q -> same_but_callers k k' -> ready_ok k' Q.
Proof.
  intros [HQ Hz] H. split.
  - apply (queues_links k); [done|apply (sc_head _ _ H)|apply (sc_tail _ _ H)|].
    intros x. split; by apply callers_field.
  - intros q x Hq Hx. rewrite (callers_field p_flags k) by done. by apply (Hz q).
Qed.

Lemma append_sender_spec k caller d L :
  lchain (sendlink_of k) (p_callerq (k_proc k d)) L -> NoDup L -> Forall valid_proc L ->
  ~ In caller L -> valid_proc caller ->
  let k' := append_sender caller d k in
  same_but_callers k k' /\
  lchain (sendlink_of k') (p_callerq (k_proc k' d)) (L ++ [caller]) /\
  (forall x, x <> d -> p_callerq (k_proc k' x) = p_callerq (k_proc k x)) /\
  (forall x, ~ In x L -> x <> caller -> p_sendlink (k_proc k' x) = p_sendlink (k_proc k x)).
Proof.
  intros Hc Hn Hv Hnot Hca k'. subst k'. unfold append_sender. cbv zeta.
  destruct (Z.eqb_spec (p_callerq (k_proc k d)) NIL_PROC) as [E|E].
  - assert (L = []) as ->.
    { destruct L as [|x l]; [done|]. destruct Hc as [Hc _]. apply Forall_inv in Hv.
      unfold valid_proc, NIL_PROC in *. lia. }
    split_and!.
    + etransitivity; [apply same_callers_upd|apply same_sendlink_upd].
    + destruct (Z.eq_dec d caller) as [->|Hne].
      * cbn [app lchain]. rewrite !upd_same. done.
      * cbn [app lchain]. rewrite upd_other, !upd_same by done. done.
    + intros x Hx. destruct (Z.eq_dec x caller) as [->|]; [by rewrite upd_same, upd_other|by rewrite !upd_other].
    + intros x _ Hx. rewrite upd_other by done.
      destruct (Z.eq_dec x d) as [->|]; [by rewrite upd_same|by rewrite upd_other].
  - assert (HL : L <> []) by by intros ->.
    assert (Hlen : (length L <= 42)%nat) by (pose proof (pigeonhole L Hn Hv); lia).
    rewrite (last_sender_spec k HOPS_LT _ L Hc HL Hv Hlen). set (t := List.last L NIL_PROC).
    assert (Ht : In t L) by by apply last_in. assert (Htc : t <> caller) by by intros ->.
    assert (Hcq : forall x, p_callerq (k_proc (upd caller (set_p_sendlink NIL_PROC) (upd t (set_p_sendlink caller) k)) x)
      = p_callerq (k_proc k x)).
    { intros x. destruct (Z.eq_dec x caller) as [->|]; [rewrite upd_same, upd_other by done; done|].
      rewrite upd_other by done. destruct (Z.eq_dec x t) as [->|]; [by rewrite upd_same|by rewrite upd_other]. }
    split_and!.
    + etransitivity; apply same_sendlink_upd.
    + rewrite Hcq. apply (chain_snoc (sendlink_of k)); try done; fold t.
      * intros y Hy Hyt. rewrite !upd_other; [done|done|by intros ->].
      * rewrite upd_other by done. by rewrite upd_same.
      * by rewrite upd_same.
    + intros x _. apply Hcq.
    + intros x Hx Hxc. rewrite !upd_other; [done|by intros ->|done].
Qed.

(** The chain of senders from [x] ends and does not meet [c]. *)
Inductive ends_off (k : kst) (c : Z) : Z -> Prop :=
| ends_off_here x : x <> c -> is_sending k x = false -> ends_off k c x
| ends_off_next x : x <> c -> is_sending k x = true -> ends_off k c (target k x) -> ends_off k c x.

Lemma send_cycle_ends k c n next : send_cycle k c n next = None -> ends_off k c next.
Proof.
  revert next. induction n as [|n IH]; intros next H; [done|]. cbn [send_cycle] in H.
  destruct (Z.eqb_spec next c); [done|]. fold (is_sending k next) in H.
  destruct (is_sending k next) eqn:Es; [|by apply ends_off_here]. cbn [negb] in H.
  destruct (n =? 0)%nat; [done|]. destruct (isokprocn _); [|done]. cbn [negb] in H. fold (target k next) in H.
  destruct ((target k next =? NIL_PROC) || _); [done|]. by apply ends_off_next, IH.
Qed.

Lemma ends_off_ends k k' c x :
  (forall y, y <> c -> is_sending k' y = is_sending k y /\ target k' y = target k y) ->
  ends_off k c x -> ends k' x.
Proof.
  intros H. induction 1 as [x Hx Hs|x Hx Hs _ IH]; destruct (H x Hx) as [Hs' Ht].
  - apply ends_here. congruence.
  - apply ends_next; congruence.
Qed.

(** A receiver that does not accept the message is not waiting for it. *)
Lemma not_accepted k C d c :
  ipc_ok k C -> valid_proc d -> valid_proc c -> ends_off k c d ->
  accepts (k_proc k d) (p_nr (k_proc k c)) = false -> ~ waits_for k d c.
Proof.
  intros HI Hd Hc He Ha [Hr Hg]. unfold accepts in Ha. apply andb_false_iff in Ha as [Ha|Ha].
  - assert (Hs : is_sending k d = true).
    { destruct (is_sending k d) eqn:Hs; [done|]. exfalso.
      rewrite (proj2 (receiving_only _) (conj Hr Hs)) in Ha. done. }
    pose proof (io_both k C HI d Hd Hs Hr) as Hb. pose proof (io_queued k C HI d Hd Hs) as (Hok & _).
    destruct Hg as [Hg|Hg]; rewrite Hb in Hg.
    + rewrite Hg in Hok. by apply endpoint_not_any in Hok.
    + assert (Ht : target k d = c).
      { unfold target. rewrite Hg. by apply (to_nr k (io_table k C HI)). }
      inversion He as [x Hx Hs'|x Hx Hs' He']; [congruence|]. rewrite Ht in He'. by inversion He'.
  - apply orb_false_iff in Ha as [H1 H2]. lia.
Qed.

(** What blocking [c] in the queue of [d] changes. *)
Record joins (k k' : kst) (C : Z -> list Z) (c d dest : Z) : Prop := {
  j_addr : forall n, proc_addr k' n = proc_addr k n;
  j_nr : forall x, p_nr (k_proc k' x) = p_nr (k_proc k x);
  j_other : forall x, x <> c ->
    p_flags (k_proc k' x) = p_flags (k_proc k x) /\ p_sendto (k_proc k' x) = p_sendto (k_proc k x) /\
    p_getfrom (k_proc k' x) = p_getfrom (k_proc k x) /\ p_messbuf (k_proc k' x) = p_messbuf (k_proc k x);
  j_frame : forall x, p_blocked_frame_valid (k_proc k' x) = p_blocked_frame_valid (k_proc k x) /\
    blocked_frame_matches (k_proc k' x) = blocked_frame_matches (k_proc k x);
  j_self : p_flags (k_proc k' c) = SENDING /\ p_sendto (k_proc k' c) = dest /\ p_messbuf (k_proc k' c) <> 0;
  j_chain : lchain (sendlink_of k') (p_callerq (k_proc k' d)) (C d ++ [c]);
  j_callerq : forall x, x <> d -> p_callerq (k_proc k' x) = p_callerq (k_proc k x);
  j_sendlink : forall x, ~ In x (C d) -> x <> c -> p_sendlink (k_proc k' x) = p_sendlink (k_proc k x) }.

Lemma block_sender_joins k C Q c d dest m :
  ipc_ok k C -> ready_ok k Q -> valid_proc c -> p_flags (k_proc k c) = 0 -> valid_proc d -> m <> 0 ->
  let k' := block_sender c d dest m k in
  joins k k' C c d dest /\ ready_ok k' (dequeue Q (proc_queue (k_proc k c)) c) /\ k_mem k' = k_mem k.
Proof.
  intros HI HR Hv Hf Hd Hm k'. subst k'. unfold block_sender.
  destruct (enter_send_spec k Q c dest m HR Hv Hf) as (HU & Hmem & HR1).
  set (k1 := enter_send c dest m k) in *.
  assert (Hsl : forall x, p_sendlink (k_proc k1 x) = p_sendlink (k_proc k x) /\
                          p_callerq (k_proc k1 x) = p_callerq (k_proc k x)).
  { intros x. split; upd_field HU; by destruct (Z.eqb_spec x c) as [->|]. }
  destruct (append_sender_spec k1 c d (C d)) as (HC & Hch & Hcq & Hsk).
  { destruct (Hsl d) as [_ ->]. apply (chain_ext (sendlink_of k)); [intros x _; apply Hsl|].
    by apply (io_chain k C HI). }
  { by apply (io_nodup k C HI). }
  { by apply (callers_valid k). }
  { intros Hx. destruct (caller_sending k C d c HI Hd Hx) as (_ & Hs & _).
    unfold is_sending in Hs. by rewrite Hf in Hs. }
  { done. }
  set (k' := append_sender c d k1) in *.
  assert (Hfld : forall {A} (f : proc -> A) x,
    (forall rp, f (set_p_callerq 0 (set_p_sendlink 0 rp)) = f rp) ->
    (forall rp, f (set_p_nextready 0 rp) = f rp) ->
    f (k_proc k' x) = f (if x =? c then sending_to dest m (k_proc k c) else k_proc k x)).
  { intros A f x H1 H2. rewrite (callers_field f k1) by done. by rewrite (updated_field f k k1 _ x H2 HU). }
  split_and!; [|by apply (ready_ok_callers k1)|by rewrite (sc_mem _ _ HC)]. constructor; try done.
  - intros n. unfold proc_addr. by rewrite (sc_addr _ _ HC), (proj2 HU).
  - intros x. rewrite (Hfld _ p_nr) by done. by destruct (Z.eqb_spec x c) as [->|].
  - intros x Hx. rewrite (Hfld _ p_flags), (Hfld _ p_sendto), (Hfld _ p_getfrom), (Hfld _ p_messbuf) by done.
    by rewrite (proj2 (Z.eqb_neq _ _) Hx).
  - intros x. rewrite (Hfld _ p_blocked_frame_valid), (Hfld _ blocked_frame_matches) by done.
    by destruct (Z.eqb_spec x c) as [->|].
  - rewrite (Hfld _ p_flags), (Hfld _ p_sendto), (Hfld _ p_messbuf) by done. by rewrite Z.eqb_refl.
  - intros x Hx. rewrite Hcq by done. apply Hsl.
  - intros x Hx Hxc. rewrite Hsk by done. apply Hsl.
Qed.

(** The chains of senders still end when the caller joins one that does not
    lead to it. *)
Lemma joins_ends k k' C c d dest :
  joins k k' C c d dest -> proc_addr k dest = d -> ends_off k c d ->
  forall x, ends k x -> ends k' x.
Proof.
  intros J Hd Hoff.
  assert (Hsame : forall y, y <> c -> is_sending k' y = is_sending k y /\ target k' y = target k y).
  { intros y Hy. unfold is_sending, target. rewrite (j_addr _ _ _ _ _ _ J).
    by destruct (j_other _ _ _ _ _ _ J y Hy) as (-> & -> & _). }
  destruct (j_self _ _ _ _ _ _ J) as (Hf & Hs & _).
  assert (Hc : ends k' c).
  { apply ends_next; [unfold is_sending; by rewrite Hf|]. unfold target.
    rewrite Hs, (j_addr _ _ _ _ _ _ J), Hd. by apply (ends_off_ends k k' c). }
  intros x. induction 1 as [x Hx|x Hx _ IH].
  - destruct (Z.eq_dec x c) as [->|Hxc]; [done|]. apply ends_here. by destruct (Hsame x Hxc) as [-> _].
  - destruct (Z.eq_dec x c) as [->|Hxc]; [done|]. destruct (Hsame x Hxc) as [E1 E2].
    apply ends_next; [congruence|by rewrite E2].
Qed.

Lemma joins_ipc k k' C c d dest :
  ipc_ok k C -> joins k k' C c d dest -> valid_proc c -> p_flags (k_proc k c) = 0 ->
  endpoint dest -> proc_addr k dest = d -> is_free k d = false -> ends_off k c d ->
  ~ waits_for k d c -> ipc_ok k' (enqueue C d c).
Proof.
  intros HI J Hv Hf Hdest Hda Hlive Hoff Hnw.
  pose proof (io_table k C HI) as HT. destruct (to_addr k HT dest Hdest) as [Hd Hdn]. rewrite Hda in Hd, Hdn.
  pose proof (j_addr _ _ _ _ _ _ J) as Ja. pose proof (j_nr _ _ _ _ _ _ J) as Jn.
  pose proof (j_other _ _ _ _ _ _ J) as Jo. destruct (j_self _ _ _ _ _ _ J) as (Jf & Js & Jm).
  assert (Hnot : forall p, valid_proc p -> ~ In c (C p)).
  { intros p Hp Hx. destruct (caller_sending k C p c HI Hp Hx) as (_ & Hs & _).
    unfold is_sending in Hs. by rewrite Hf in Hs. }
  assert (HinC : forall p x, In x (enqueue C d c p) <-> In x (C p) \/ (p = d /\ x = c)).
  { intros p x. unfold enqueue. destruct (Z.eqb_spec p d) as [->|]; [|tauto].
    rewrite in_app_iff. cbn. intuition. }
  assert (Hold : forall p x, valid_proc p -> In x (C p) -> x <> c) by (intros p x Hp Hx ->; by apply (Hnot p)).
  assert (Hfl : forall x, x <> c -> is_sending k' x = is_sending k x /\ is_free k' x = is_free k x /\
    is_receiving k' x = is_receiving k x /\ target k' x = target k x).
  { intros x Hx. unfold is_sending, is_free, is_receiving, target. rewrite Ja.
    by destruct (Jo x Hx) as (-> & -> & _). }
  assert (Hfree : forall x, is_free k' x = is_free k x).
  { intros x. destruct (Z.eq_dec x c) as [->|Hx]; [|by destruct (Hfl x Hx) as (_ & -> & _)].
    unfold is_free. by rewrite Jf, Hf. }
  constructor.
  - constructor; [intros n Hn; rewrite Ja, Jn; by apply HT|]. intros x Hx. rewrite Jn, Ja. by apply HT.
  - intros p Hp. unfold enqueue. destruct (Z.eqb_spec p d) as [->|Hpd]; [apply J|].
    rewrite (j_callerq _ _ _ _ _ _ J) by done. apply (chain_ext (sendlink_of k)); [|by apply (io_chain k C HI)].
    intros x Hx. apply J; [|by apply (Hold p)]. intros Hxd.
    destruct (caller_sending k C p x HI Hp Hx) as (_ & _ & E1 & _).
    destruct (caller_sending k C d x HI Hd Hxd) as (_ & _ & E2 & _). congruence.
  - intros p Hp. unfold enqueue. destruct (Z.eqb_spec p d) as [->|Hpd]; [|by apply (io_nodup k C HI)].
    apply list.NoDup_app. split_and!; [by apply (io_nodup k C HI)| |by apply NoDup_singleton].
    intros y Hy ->%list_elem_of_singleton. apply (Hnot d Hd). by apply list_elem_of_In.
  - intros p x Hp [Hx|[-> ->]]%HinC.
    + destruct (io_sender k C HI p x Hp Hx) as (H1 & H2 & H3). pose proof (Hold p x Hp Hx) as Hxc.
      destruct (Hfl x Hxc) as (_ & -> & _). unfold bad_sender in *.
      destruct (Jo x Hxc) as (-> & -> & _ & ->). by rewrite Jn.
    + unfold is_free, bad_sender. rewrite Jf, Js, Jn, Hdn, Z.eqb_refl. split_and!; [done..|].
      change (has SENDING SENDING) with true. cbn. by apply Z.eqb_neq.
  - intros x Hx Hs. destruct (Z.eq_dec x c) as [->|Hxc].
    + unfold target. rewrite Js, Ja, Hda, Hfree. split_and!; [done| |done]. apply HinC. auto.
    + destruct (Hfl x Hxc) as (E & _ & _ & ->). rewrite E in Hs. destruct (Jo x Hxc) as (_ & -> & _).
      destruct (io_queued k C HI x Hx Hs) as (? & ? & ?). rewrite Hfree. split_and!; [done| |done].
      apply HinC. auto.
  - intros x Hx. apply (joins_ends k k' C c d dest); try done. by apply (io_ends k C HI).
  - intros x Hx Hs Hr. destruct (Z.eq_dec x c) as [->|Hxc].
    + unfold is_receiving in Hr. by rewrite Jf in Hr.
    + destruct (Hfl x Hxc) as (E1 & _ & E2 & _). destruct (Jo x Hxc) as (_ & -> & -> & _).
      apply (io_both k C HI x Hx); congruence.
  - intros r x Hr Hx [Hw Hg].
    assert (Hrc : r <> c) by (intros ->; unfold is_receiving in Hw; by rewrite Jf in Hw).
    destruct (Hfl r Hrc) as (_ & _ & E & _). destruct (Jo r Hrc) as (_ & _ & Eg & _).
    rewrite E in Hw. rewrite Eg, Jn in Hg. apply HinC in Hx as [Hx|[-> ->]].
    + apply (io_match k C HI r x Hr Hx). by split.
    + apply Hnw. by split.
  - intros x Hx. destruct (j_frame _ _ _ _ _ _ J x) as [-> ->]. by apply (io_frames k C HI).
Qed.

(** ** Completing a receive *)
Lemma ready_ok_mem k Q m : ready_ok k Q -> ready_ok (set_k_mem m k) Q.
Proof. intros [HQ Hz]. split; [by apply (queues_ext k)|exact Hz]. Qed.

Lemma not_queued k Q x : ready_ok k Q -> p_flags (k_proc k x) <> 0 -> ~ (exists q, 0 <= q < 3 /\ In x (Q q)).
Proof. intros [_ Hz] Hf (q & Hq & Hx). by apply Hf, (Hz q). Qed.

Lemma has_nonzero f b : has f b = true -> f <> 0.
Proof. intros H ->. by rewrite has_zero in H. Qed.

(** A receiver that is not sending gets a message, by whatever means. *)
Lemma deliver_ipc k C Q d result mem :
  ipc_ok k C -> ready_ok k Q -> valid_proc d -> is_receiving k d = true -> is_sending k d = false ->
  let k' := cp32_complete_blocked_frame d result (set_k_mem mem k) in
  ipc_ok k' C /\ ready_ok k' (made_ready k' d Q) /\ k_mem k' = mem /\
  k_proc k' d = set_p_nextready (p_nextready (k_proc k' d)) (completed result (k_proc k d)).
Proof.
  intros HI HR Hd Hr Hs k'.
  destruct (complete_spec (set_k_mem mem k) Q d result) as (HU & Hm & HR').
  { by apply ready_ok_mem. } { done. } { by apply (not_queued k), (has_nonzero _ RECEIVING). }
  { apply (io_frames k C HI d Hd). }
  fold k' in HU, Hm, HR'. split_and!; [|done|done|].
  - destruct (completed_flags (p_flags (k_proc k d))) as (F1 & F2 & F3).
    apply (ipc_ok_ext k); [done|apply HU|..].
    + intros x. unfold is_sending, is_free. upd_field HU.
      destruct (Z.eqb_spec x d) as [->|]; [|done]. split_and!; [done..| |exact F3].
      transitivity false; [exact F1|by symmetry].
    + intros x Hx. upd_field HU. by destruct (Z.eqb_spec x d) as [->|].
    + intros x Hx Hsx Hrx. unfold is_receiving in Hrx. revert Hrx. upd_field HU.
      destruct (Z.eqb_spec x d) as [->|]; [congruence|]. by apply (io_both k C HI).
    + intros r x Hrv Hx [Hw Hg]. revert Hw Hg. unfold is_receiving. upd_field HU.
      assert (forall y, p_nr (if y =? d then completed result (k_proc (set_k_mem mem k) d) else k_proc (set_k_mem mem k) y)
        = p_nr (k_proc k y)) as -> by (intros y; by destruct (Z.eqb_spec y d) as [->|]).
      destruct (Z.eqb_spec r d) as [->|]; [intros Hw; exfalso; apply (eq_true_false_abs _ Hw F2)|].
      intros Hw Hg. by apply (io_match k C HI r x Hrv Hx).
    + intros x Hx. upd_field HU. destruct (Z.eqb_spec x d) as [->|]; [done|by apply (io_frames k C HI)].
  - destruct HU as [HU _]. specialize (HU d). rewrite Z.eqb_refl in HU.
    apply (f_equal (set_p_nextready (p_nextready (k_proc k' d)))) in HU.
    change (set_p_nextready (p_nextready (k_proc k' d)) (set_p_nextready 0 (k_proc k' d)))
      with (set_p_nextready (p_nextready (k_proc k' d)) (k_proc k' d)) in HU.
    transitivity (set_p_nextready (p_nextready (k_proc k' d)) (k_proc k' d));
      [by destruct (k_proc k' d)|exact HU].
Qed.

(** ** Send *)

(** From [k] to [k'] the 36 bytes at [src] arrived at [dst], under the identity
    [s] of the sender in place of the word it wrote there itself. *)
Definition delivered (k k' : kst) (s src dst : Z) : Prop :=
  mem_read (k_mem k') dst MESS_SIZE = word_bytes s ++ drop 4 (mem_read (k_mem k) src MESS_SIZE) /\
  forall a, a < dst \/ dst + MESS_SIZE <= a -> k_mem k' a = k_mem k a.

Lemma word_bytes_length x : lenZ (word_bytes x) = 4.
Proof. reflexivity. Qed.

Lemma transferred_delivered k k' s src dst :
  k_mem k' = k_mem (transferred s src dst k) -> delivered k k' s src dst.
Proof.
  intros Hk. unfold delivered. rewrite Hk. unfold transferred, store_mem, phys_copy. cbn [k_mem set_k_mem].
  pose proof (word_bytes_length s) as Hw. assert (Hl : lenZ (mem_read (k_mem k) src MESS_SIZE) = 36) by done.
  set (W := word_bytes s) in *. set (B := mem_read (k_mem k) src MESS_SIZE) in *. clearbody W B. split.
  - apply list_eq_nthZ.
    + rewrite length_mem_read, length_app, length_drop. unfold lenZ, MESS_SIZE in *. lia.
    + rewrite lenZ_mem_read by done. unfold MESS_SIZE. intros i Hi. rewrite nthZ_mem_read by lia.
      destruct (Z.lt_ge_cases i 4).
      * rewrite mem_write_in by lia. rewrite nthZ_app_l by lia. f_equal. lia.
      * rewrite mem_write_out by lia. rewrite mem_write_in by lia. rewrite nthZ_app_r by lia.
        change (drop 4 B) with (ptr_add B 4). rewrite nthZ_ptr_add by lia. f_equal. lia.
  - unfold MESS_SIZE. intros a Ha. by rewrite !mem_write_out by lia.
Qed.

Lemma accepts_waits k d c :
  accepts (k_proc k d) (p_nr (k_proc k c)) = true -> waits_for k d c /\ is_sending k d = false.
Proof.
  unfold accepts. rewrite andb_true_iff, orb_true_iff, !Z.eqb_eq, receiving_only.
  intros [[Hr Hs] Hg]. by split.
Qed.

(** C1: [mini_send] is a rendezvous that cannot deadlock.  On a sound state, for
    a running caller, a refused send changes nothing at all.  An accepted one
    either finds the destination waiting for this sender: then the 36 bytes of
    the message are in the destination's buffer, under the caller's true
    identity, no other memory changed, the destination's call is completed with
    [OK] in its saved register and it is queued unless something else blocks it;
    or the destination is not waiting for it: then the caller is blocked as the
    last of the destination's senders, it left the ready queue and no memory
    changed.  Both ways the invariant holds again: queues of senders without
    loss or duplicates, every chain of blocked senders ends (no deadlock), no
    process waits for a message whose sender is queued with it. *)
Theorem mini_send_sound k C Q caller dest m :
  ipc_ok k C -> ready_ok k Q -> valid_proc caller -> p_flags (k_proc k caller) = 0 ->
  int_value dest ->
  let nr := p_nr (k_proc k caller) in
  let d := proc_addr k dest in
  match mini_send caller dest m k with
  | (Err _, k') => k' = k
  | (Ok _, k') =>
      exists C' Q', ipc_ok k' C' /\ ready_ok k' Q' /\
      (waits_for k d caller /\ is_sending k d = false /\ C' = C /\ Q' = made_ready k' d Q /\
       delivered k k' nr (numap k nr m MESS_SIZE)
         (numap k (p_nr (k_proc k d)) (p_messbuf (k_proc k d)) MESS_SIZE) /\
       k_proc k' d = set_p_nextready (p_nextready (k_proc k' d)) (completed OK (k_proc k d))
       \/
       ~ waits_for k d caller /\ C' = enqueue C d caller /\
       Q' = dequeue Q (proc_queue (k_proc k caller)) caller /\
       p_flags (k_proc k' caller) = SENDING /\ p_sendto (k_proc k' caller) = dest /\
       k_mem k' = k_mem k)
  end.
Proof.
  intros HI HR Hv Hf Hint nr d. destruct (mini_send caller dest m k) as [r k'] eqn:E.
  apply mini_send_run in E. fold nr d in E.
  destruct E as [(e & -> & ->)|(-> & HS & E)]; [done|].
  pose proof (ok_endpoint dest Hint (sd_dest _ _ _ _ HS)) as Hdest.
  destruct (to_addr k (io_table k C HI) dest Hdest) as [Hd _]. fold d in Hd.
  destruct E as [(Ha & _ & Ek)|(Ha & Ek)].
  - destruct (accepts_waits k d caller Ha) as [Hw Hs]. exists C, (made_ready k' d Q).
    destruct (deliver_ipc k C Q d OK (k_mem (transferred nr (numap k nr m MESS_SIZE)
      (numap k (p_nr (k_proc k d)) (p_messbuf (k_proc k d)) MESS_SIZE) k)) HI HR Hd (proj1 Hw) Hs)
      as (H1 & H2 & H3 & H4).
    subst k'. split_and!; [exact H1|exact H2|]. left.
    split_and!; [done..| |exact H4]. by apply transferred_delivered.
  - destruct (block_sender_joins k C Q caller d dest m HI HR Hv Hf Hd (sd_buffer _ _ _ _ HS)) as (J & HR' & Hm).
    rewrite <- Ek in J, HR', Hm. pose proof (send_cycle_ends _ _ _ _ (sd_acyclic _ _ _ _ HS)) as Hoff.
    fold d in Hoff. assert (Hnw : ~ waits_for k d caller) by by apply (not_accepted k C).
    destruct (j_self _ _ _ _ _ _ J) as (J1 & J2 & _).
    eexists _, _. split_and!; [|exact HR'|right; by split_and!].
    apply (joins_ipc k k' C caller d dest); try done; apply HS.
Qed.

(** ** No spurious refusal *)

(** The processes from [x] along the destinations of blocked senders. *)
Fixpoint path (k : kst) (x : Z) (l : list Z) : Prop :=
  match l with
  | [] => False
  | y :: l => y = x /\ if is_sending k x then path k (target k x) l else l = []
  end.

Lemma path_unique k x l l' : path k x l -> path k x l' -> l = l'.
Proof.
  revert x l'. induction l as [|y l IH]; intros x [|y' l']; cbn; try done.
  intros [-> H] [-> H']. destruct (is_sending k x); [f_equal; by apply (IH (target k x))|congruence].
Qed.

Lemma path_suffix k x l pre y l' : path k x l -> l = pre ++ y :: l' -> path k y (y :: l').
Proof.
  revert x l. induction pre as [|z pre IH]; intros x l Hp ->.
  - destruct Hp as [-> Hp]. by split.
  - cbn in Hp. destruct Hp as [-> Hp]. destruct (is_sending k x).
    + by apply (IH (target k x) (pre ++ y :: l')).
    + by destruct pre.
Qed.

Lemma path_nodup k x l : path k x l -> NoDup l.
Proof.
  revert x. induction l as [|y l IH]; intros x Hp; [done|]. pose proof Hp as [-> Hp'].
  apply list.NoDup_cons. split.
  - intros (pre & l' & ->)%list_elem_of_split.
    pose proof (path_suffix k x _ (x :: pre) x l' Hp eq_refl) as Hp2.
    pose proof (path_unique _ _ _ _ Hp Hp2) as E. apply (f_equal length) in E.
    cbn [length] in E. rewrite length_app in E. cbn [length] in E. lia.
  - destruct (is_sending k x); [by apply (IH (target k x))|subst l; apply NoDup_nil_2].
Qed.

Lemma ends_off_path k C c x :
  ipc_ok k C -> valid_proc x -> ends_off k c x ->
  exists l, path k x l /\ Forall valid_proc l /\ ~ In c l.
Proof.
  intros HI Hx He. revert Hx. induction He as [x Hx Hs|x Hx Hs _ IH]; intros Hv.
  - exists [x]. cbn. rewrite Hs. split_and!; [done|done|by constructor|]. intros [?|[]]. done.
  - destruct (io_queued k C HI x Hv Hs) as (Hok & _).
    destruct IH as (l & Hp & Hl & Hc); [by apply (to_addr k (io_table k C HI))|].
    exists (x :: l). cbn. rewrite Hs. split_and!; [done..|by constructor|]. intros [?|?]; done.
Qed.

Lemma send_cycle_path k C c l x n :
  ipc_ok k C -> path k x l -> Forall valid_proc l -> ~ In c l -> (length l < n)%nat ->
  send_cycle k c n x = None.
Proof.
  intros HI. revert x n. induction l as [|y l IH]; intros x [|n] Hp Hv Hc Hn; cbn [length] in *; try done; [lia|].
  destruct Hp as [-> Hp]. cbn [send_cycle]. destruct (Z.eqb_spec x c) as [->|_]; [destruct Hc; by left|].
  fold (is_sending k x). destruct (is_sending k x) eqn:Hs; [|done]. cbn [negb].
  destruct (io_queued k C HI x (Forall_inv Hv) Hs) as (Hok & _ & Hlive).
  destruct (Nat.eqb_spec n 0) as [->|Hn0]; [destruct l; [done|cbn [length] in Hn; lia]|].
  rewrite (endpoint_ok _ Hok). cbn [negb]. fold (target k x).
  destruct (to_addr k (io_table k C HI) _ Hok) as [Hvt _]. fold (target k x) in Hvt.
  unfold is_free in Hlive. rewrite Hlive, orb_false_r.
  destruct (Z.eqb_spec (target k x) NIL_PROC) as [E|_]; [unfold valid_proc, NIL_PROC in *; lia|].
  apply IH; [done|by inversion_clear Hv| |lia]. intros ?. apply Hc. by right.
Qed.

(** The code's bounded search for a cycle finds every cycle and nothing else. *)
Lemma send_cycle_exact k C c x :
  ipc_ok k C -> valid_proc x -> send_cycle k c HOPS_LE x = None <-> ends_off k c x.
Proof.
  intros HI Hx. split; [apply send_cycle_ends|]. intros He.
  destruct (ends_off_path k C c x HI Hx He) as (l & Hp & Hv & Hc).
  apply (send_cycle_path k C c l); try done.
  pose proof (pigeonhole l (path_nodup _ _ _ Hp) Hv). unfold HOPS_LE. lia.
Qed.

Lemma send_cycle_error k C c n x e :
  ipc_ok k C -> valid_proc x -> send_cycle k c n x = Some e -> e = ELOCKED.
Proof.
  intros HI. revert x. induction n as [|n IH]; intros x Hv H; cbn [send_cycle] in H; [congruence|].
  destruct (x =? c); [congruence|]. fold (is_sending k x) in H.
  destruct (is_sending k x) eqn:Hs; [|done]. cbn [negb] in H. destruct (n =? 0)%nat; [congruence|].
  destruct (io_queued k C HI x Hv Hs) as (Hok & _ & Hlive). rewrite (endpoint_ok _ Hok) in H. cbn [negb] in H.
  fold (target k x) in H. destruct (to_addr k (io_table k C HI) _ Hok) as [Hvt _]. fold (target k x) in Hvt.
  unfold is_free in Hlive. rewrite Hlive, orb_false_r in H.
  destruct (Z.eqb_spec (target k x) NIL_PROC) as [E|_]; [unfold valid_proc, NIL_PROC in *; lia|].
  by apply (IH (target k x)).
Qed.

Lemma append_walk_none k c dest n rp l :
  lchain (sendlink_of k) rp l -> l <> [] -> ~ In c l ->
  (forall x, In x l -> valid_proc x /\ is_free k x = false /\ bad_sender (k_proc k x) dest = false) ->
  (length l <= S n)%nat -> append_walk k c dest n rp = None.
Proof.
  revert rp n. induction l as [|x l IH]; intros rp n Hc Hne Hnin Hg Hn; [done|].
  destruct Hc as [-> Hc]. destruct (Hg x (or_introl eq_refl)) as (_ & _ & Hb).
  cbv beta in Hc. destruct l as [|y l].
  - cbn in Hc. destruct n; cbn [append_walk]; rewrite Hb, Hc; done.
  - pose proof Hc as [Hxy _]. destruct (Hg y) as (Hvy & Hfy & _); [right; by left|].
    destruct n as [|n]; cbn [length] in Hn; [lia|]. cbn [append_walk]. rewrite Hb, Hxy.
    unfold valid_proc, NIL_PROC in *. destruct (Z.eqb_spec y 0); [lia|].
    destruct (Z.eqb_spec y c) as [->|_]; [destruct Hnin; right; by left|].
    unfold is_free in Hfy. rewrite Hfy. rewrite Hxy in Hc. apply IH; try done; [|intros z Hz; apply Hg; by right|cbn [length]; lia].
    intros ?. apply Hnin. by right.
Qed.

(** C3: [mini_send] never refuses a legal message.  On a sound state, a running
    caller whose message is mapped and whose destination is another live
    process gets [OK] exactly when the chain of blocked senders from the
    destination does not lead back to the caller (and the buffer of a waiting
    destination is mapped); when it does lead back the answer is [ELOCKED].
    The bounded walks of the code, over at most 42 senders and 41 links, are long
    enough to decide this on every table. *)
Theorem mini_send_complete k C caller dest m :
  ipc_ok k C -> valid_proc caller -> p_flags (k_proc k caller) = 0 -> m <> 0 ->
  endpoint dest -> dest <> p_nr (k_proc k caller) ->
  let d := proc_addr k dest in
  is_free k d = false -> numap k (p_nr (k_proc k caller)) m MESS_SIZE <> 0 ->
  (waits_for k d caller -> numap k (p_nr (k_proc k d)) (p_messbuf (k_proc k d)) MESS_SIZE <> 0) ->
  (ends_off k caller d <-> fst (mini_send caller dest m k) = Ok tt) /\
  (~ ends_off k caller d -> mini_send caller dest m k = (Err ELOCKED, k)).
Proof.
  intros HI Hv Hf Hm Hdest Hoth d Hlive Hsrc Hdst.
  destruct (to_addr k (io_table k C HI) dest Hdest) as [Hd Hdn]. fold d in Hd, Hdn.
  pose proof (send_cycle_exact k C caller d HI Hd) as Hcyc.
  assert (Hrun : forall o, send_cycle k caller HOPS_LE d = o -> mini_send caller dest m k =
    match o with Some e => (Err e, k) | None =>
    (if accepts (k_proc k d) (p_nr (k_proc k caller))
     then deliver_blocked_message caller m d (p_messbuf (k_proc k d))
     else bad <- gets (fun k0 => if p_callerq (k_proc k d) =? NIL_PROC then None
                          else append_walk k0 caller dest HOPS_LT (p_callerq (k_proc k d))) ;;
          check bad ;;; modify (block_sender caller d dest m)) k end).
  { intros o <-. unfold mini_send. rewrite bind_guard. unfold valid_proc, NIL_PROC in *.
    rewrite (proj2 (Z.eqb_neq caller 0)), (proj2 (Z.eqb_neq m 0)) by lia. cbn [orb].
    rewrite bind_guard, (endpoint_ok _ Hdest). cbn [negb]. rewrite bind_gets, bind_guard, (proj2 (Z.eqb_neq _ _) Hoth).
    rewrite bind_guard, Hf. change (has 0 SENDING) with false. cbv iota. rewrite !bind_gets, bind_guard. fold d.
    unfold is_free in Hlive. rewrite Hlive, bind_gets, bind_guard, (proj2 (Z.eqb_neq _ _) Hsrc).
    by rewrite bind_gets, bind_check. }
  assert (Hok : send_cycle k caller HOPS_LE d = None -> fst (mini_send caller dest m k) = Ok tt).
  { intros E. rewrite (Hrun None E). destruct (accepts _ _) eqn:Ha.
    - destruct (accepts_waits k d caller Ha) as [Hw _]. unfold deliver_blocked_message, bind.
      rewrite copy_message_run. cbv zeta.
      by rewrite (proj2 (Z.eqb_neq _ _) Hsrc), (proj2 (Z.eqb_neq _ _) (Hdst Hw)).
    - rewrite bind_gets, bind_check. pose proof (io_chain k C HI d Hd) as Hch.
      destruct (Z.eqb_spec (p_callerq (k_proc k d)) NIL_PROC) as [|Hne]; [done|].
      rewrite (append_walk_none k caller dest HOPS_LT _ (C d)); [done..| | | |].
      + intros EC. by rewrite EC in Hch.
      + intros Hx. destruct (caller_sending k C d caller HI Hd Hx) as (_ & Hs & _).
        unfold is_sending in Hs. by rewrite Hf in Hs.
      + intros x Hx. rewrite <- Hdn. by apply (io_sender k C HI).
      + pose proof (callers_length k C d HI Hd). unfold HOPS_LT. lia. }
  destruct (send_cycle k caller HOPS_LE d) as [e|] eqn:E.
  - rewrite (Hrun _ eq_refl), (send_cycle_error k C caller _ d e HI Hd E). split; [|done].
    split; [|done]. intros He. by apply Hcyc in He.
  - assert (He : ends_off k caller d) by by apply Hcyc. split; [|done]. split; [|done]. intros _. by apply Hok.
Qed.

(** ** Receive *)
Definition matches (k : kst) (src x : Z) : bool := (src =? ANY) || (src =? p_nr (k_proc k x)).

(** The first sender that matches, as the code walks to it. *)
Lemma find_sender_spec k nr src n prev cur l :
  lchain (sendlink_of k) cur l ->
  (forall x, In x l -> valid_proc x /\ is_free k x = false /\ bad_sender (k_proc k x) nr = false) ->
  (length l <= n)%nat ->
  match find_sender k nr src n prev cur with
  | Ok None => forall x, In x l -> matches k src x = false
  | Ok (Some (p, s)) => exists pre post, l = pre ++ s :: post /\ p = List.last pre prev /\
      matches k src s = true /\ forall x, In x pre -> matches k src x = false
  | Err _ => False
  end.
Proof.
  revert n prev cur. induction l as [|x l IH]; intros n prev cur Hc Hg Hn.
  - cbn in Hc. subst cur. by destruct n; intros x [].
  - destruct Hc as [-> Hc]. destruct (Hg x (or_introl eq_refl)) as (Hv & Hf & Hb). cbn [length] in Hn.
    destruct n as [|n]; [lia|]. cbn [find_sender]. unfold valid_proc, NIL_PROC in *.
    destruct (Z.eqb_spec x 0); [lia|]. cbv zeta. unfold is_free in Hf. rewrite Hf, Hb.
    fold (matches k src x). destruct (matches k src x) eqn:E.
    + by exists [], l.
    + specialize (IH n x (p_sendlink (k_proc k x)) Hc (fun y Hy => Hg y (or_intror Hy)) ltac:(lia)).
      destruct (find_sender k nr src n x _) as [|[[p s]|]]; [done| |].
      * destruct IH as (pre & post & -> & -> & Hm & Hpre). exists (x :: pre), post.
        split_and!; [done| |done|intros y [->|Hy]; [done|by apply Hpre]].
        destruct pre as [|z pre]; [done|]. cbn [List.last]. clear. revert z.
        induction pre as [|w pre IH]; intros z; [done|]. apply (IH w).
      * intros y [->|Hy]; [done|by apply IH].
Qed.

Lemma unlink_sender_spec k p s pre post :
  lchain (sendlink_of k) (p_callerq (k_proc k p)) (pre ++ s :: post) -> NoDup (pre ++ s :: post) ->
  let k' := unlink_sender p (List.last pre NIL_PROC) s k in
  same_but_callers k k' /\
  lchain (sendlink_of k') (p_callerq (k_proc k' p)) (pre ++ post) /\
  (forall x, x <> p -> p_callerq (k_proc k' x) = p_callerq (k_proc k x)) /\
  (forall x, ~ In x (pre ++ s :: post) -> p_sendlink (k_proc k' x) = p_sendlink (k_proc k x)).
Proof.
  intros Hc Hn k'. subst k'. unfold unlink_sender. cbv zeta.
  assert (Hnd : ~ In s pre /\ ~ In s post).
  { apply list.NoDup_app in Hn as (_ & Hd & Hn).
    apply list.NoDup_cons in Hn as [Hn _]. rewrite list_elem_of_In in Hn. split; [|done].
    intros Hin. apply (Hd s); [by apply list_elem_of_In|by left]. }
  destruct Hnd as [Hsp Hso]. set (next := p_sendlink (k_proc k s)).
  assert (Hsame : forall k1, same_but_callers k k1 -> same_but_callers k (upd s (set_p_sendlink NIL_PROC) k1))
    by (intros k1 H1; etransitivity; [exact H1|apply same_sendlink_upd]).
  destruct pre as [|y pre].
  - destruct Hc as [Hs Hc]. rewrite Hs, Z.eqb_refl.
    assert (Hsl : forall x, p_sendlink (k_proc (upd s (set_p_sendlink NIL_PROC) (upd p (set_p_callerq next) k)) x)
      = if x =? s then NIL_PROC else p_sendlink (k_proc k x)).
    { intros x. destruct (Z.eqb_spec x s) as [->|]; [by rewrite upd_same|]. rewrite upd_other by done.
      destruct (Z.eq_dec x p) as [->|]; [by rewrite upd_same|by rewrite upd_other]. }
    split_and!; [apply Hsame, same_callers_upd| | |].
    + cbn [app] in *. replace (p_callerq _) with next.
      * eapply chain_ext; [|exact Hc]. intros x Hx. rewrite Hsl.
        destruct (Z.eqb_spec x s) as [->|]; done.
      * destruct (Z.eq_dec p s) as [->|]; [by rewrite !upd_same|by rewrite upd_other, upd_same].
    + intros x Hx. destruct (Z.eq_dec x s) as [->|]; [by rewrite upd_same, upd_other|by rewrite !upd_other].
    + intros x Hx. rewrite Hsl. destruct (Z.eqb_spec x s) as [->|]; [|done]. destruct Hx. by left.
  - set (L := y :: pre) in *. assert (HLne : L <> []) by done.
    assert (Hhead : p_callerq (k_proc k p) = y) by by destruct Hc.
    assert (Hsy : s <> y) by (intros ->; apply Hsp; by left).
    rewrite (proj2 (Z.eqb_neq s _)) by by rewrite Hhead. set (t := List.last L NIL_PROC).
    assert (Ht : In t L) by by apply last_in. assert (Hts : t <> s) by by intros ->.
    assert (Hsl : forall x, p_sendlink (k_proc (upd s (set_p_sendlink NIL_PROC) (upd t (set_p_sendlink next) k)) x)
      = if x =? s then NIL_PROC else if x =? t then next else p_sendlink (k_proc k x)).
    { intros x. destruct (Z.eqb_spec x s) as [->|]; [by rewrite upd_same|]. rewrite upd_other by done.
      destruct (Z.eqb_spec x t) as [->|]; [by rewrite upd_same|by rewrite upd_other]. }
    assert (Hcq : forall x, p_callerq (k_proc (upd s (set_p_sendlink NIL_PROC) (upd t (set_p_sendlink next) k)) x)
      = p_callerq (k_proc k x)).
    { intros x. destruct (Z.eq_dec x s) as [->|]; [by rewrite upd_same, upd_other|]. rewrite upd_other by done.
      destruct (Z.eq_dec x t) as [->|]; [by rewrite upd_same|by rewrite upd_other]. }
    split_and!; [apply Hsame, same_sendlink_upd| |by intros; apply Hcq|].
    + rewrite Hcq, Hhead. rewrite Hhead in Hc. refine (chain_remove _ _ y L s post Hc Hn _ _ _); [| |done].
      * fold t. intros x Hx Hxt. rewrite Hsl. destruct (Z.eqb_spec x s) as [->|].
        -- by apply in_app_or in Hx as [?|?].
        -- by rewrite (proj2 (Z.eqb_neq _ _) Hxt).
      * intros _. fold t. by rewrite Hsl, (proj2 (Z.eqb_neq _ _) Hts), Z.eqb_refl.
    + intros x Hx. rewrite Hsl. destruct (Z.eqb_spec x s) as [->|].
      * destruct Hx. apply in_or_app. right. by left.
      * destruct (Z.eqb_spec x t) as [->|]; [|done]. destruct Hx. apply in_or_app. by left.
Qed.

(** What taking [s] from the senders of [p] changes. *)
Record leaves (k k' : kst) (p s : Z) (pre post : list Z) : Prop := {
  l_addr : forall n, proc_addr k' n = proc_addr k n;
  l_nr : forall x, p_nr (k_proc k' x) = p_nr (k_proc k x);
  l_fields : forall x, p_sendto (k_proc k' x) = p_sendto (k_proc k x) /\
    p_getfrom (k_proc k' x) = p_getfrom (k_proc k x) /\ p_messbuf (k_proc k' x) = p_messbuf (k_proc k x);
  l_other : forall x, x <> s -> p_flags (k_proc k' x) = p_flags (k_proc k x);
  l_self : is_sending k' s = false /\ is_free k' s = is_free k s /\
    is_receiving k' s = is_receiving k s;
  l_frame : forall x, valid_proc x -> truthy (p_blocked_frame_valid (k_proc k' x)) = true ->
    blocked_frame_matches (k_proc k' x) = true;
  l_chain : lchain (sendlink_of k') (p_callerq (k_proc k' p)) (pre ++ post);
  l_callerq : forall x, x <> p -> p_callerq (k_proc k' x) = p_callerq (k_proc k x);
  l_sendlink : forall x, ~ In x (pre ++ s :: post) -> p_sendlink (k_proc k' x) = p_sendlink (k_proc k x) }.

(** The senders of [p] without [s]. *)
Definition without (C : Z -> list Z) (p : Z) (l : list Z) : Z -> list Z := fun i => if i =? p then l else C i.

Lemma leaves_ipc k k' C p s pre post :
  ipc_ok k C -> valid_proc p -> C p = pre ++ s :: post -> leaves k k' p s pre post ->
  ipc_ok k' (without C p (pre ++ post)).
Proof.
  intros HI Hp HC L. pose proof (io_table k C HI) as HT.
  pose proof (l_addr _ _ _ _ _ _ L) as La. pose proof (l_nr _ _ _ _ _ _ L) as Ln.
  destruct (l_self _ _ _ _ _ _ L) as (Ls & Lf & Lr).
  assert (Hsp : In s (C p)) by (rewrite HC; apply in_or_app; right; by left).
  destruct (caller_sending k C p s HI Hp Hsp) as (Hvs & Hss & Htg & _).
  assert (Hfl : forall x, (is_sending k' x = true <-> is_sending k x = true /\ x <> s) /\
    is_free k' x = is_free k x /\ target k' x = target k x /\
    (is_receiving k' x = is_receiving k x)).
  { intros x. unfold target. rewrite La. destruct (l_fields _ _ _ _ _ _ L x) as (-> & _).
    destruct (Z.eq_dec x s) as [->|Hx]; [split_and!; [|done..]; rewrite Ls; split; [done|by intros [_ ?]]|].
    unfold is_sending, is_free, is_receiving. rewrite (l_other _ _ _ _ _ _ L x Hx). split_and!; [|done..]. tauto. }
  pose proof (io_nodup k C HI p Hp) as Hnd. rewrite HC in Hnd.
  assert (HinC : forall q x, valid_proc q -> In x (without C p (pre ++ post) q) <-> In x (C q) /\ x <> s).
  { intros q x Hq. unfold without. destruct (Z.eqb_spec q p) as [->|Hqp].
    - rewrite HC, !in_app_iff. cbn. apply list.NoDup_app in Hnd as (_ & Hd & Hnd).
      apply list.NoDup_cons in Hnd as [Hnd _]. rewrite list_elem_of_In in Hnd. split.
      + intros [Hx|Hx]; (split; [auto|intros ->]); [|done].
        apply (Hd s); [by apply list_elem_of_In|by left].
      + intuition congruence.
    - split; [|by intros [? _]]. intros Hx. split; [done|]. intros ->. apply Hqp.
      destruct (caller_sending k C q s HI Hq Hx) as (_ & _ & E & _). congruence. }
  constructor.
  - constructor; [intros n Hn; rewrite La, Ln; by apply HT|]. intros x Hx. rewrite Ln, La. by apply HT.
  - intros q Hq. unfold without. destruct (Z.eqb_spec q p) as [->|Hqp]; [apply L|].
    rewrite (l_callerq _ _ _ _ _ _ L) by done. apply (chain_ext (sendlink_of k)); [|by apply (io_chain k C HI)].
    intros x Hx. apply (l_sendlink _ _ _ _ _ _ L). rewrite <- HC. intros Hxp.
    destruct (caller_sending k C q x HI Hq Hx) as (_ & _ & E1 & _).
    destruct (caller_sending k C p x HI Hp Hxp) as (_ & _ & E2 & _). congruence.
  - intros q Hq. unfold without. destruct (Z.eqb_spec q p) as [->|Hqp]; [|by apply (io_nodup k C HI)].
    apply list.NoDup_app in Hnd as (H1 & Hd & Hn). apply list.NoDup_cons in Hn as [_ Hn].
    apply list.NoDup_app. split_and!; [done| |done]. intros y Hy1 Hy2. apply (Hd y Hy1). by right.
  - intros q x Hq (Hx & Hxs)%HinC; [|done]. destruct (io_sender k C HI q x Hq Hx) as (H1 & H2 & H3).
    destruct (Hfl x) as (_ & -> & _). split_and!; [done..|]. unfold bad_sender in *.
    destruct (l_fields _ _ _ _ _ _ L x) as (-> & _ & ->). by rewrite (l_other _ _ _ _ _ _ L x Hxs), Ln.
  - intros x Hx Hs. destruct (Hfl x) as (E1 & _ & -> & _). apply E1 in Hs as [Hs Hxs].
    destruct (io_queued k C HI x Hx Hs) as (Hok & Hin & Hlive).
    destruct (l_fields _ _ _ _ _ _ L x) as (-> & _). destruct (Hfl (target k x)) as (_ & -> & _).
    split_and!; [done| |done]. apply HinC; [by apply (to_addr k HT)|]. by split.
  - intros x Hx. apply (ends_mono k); [|by apply (io_ends k C HI)]. intros y Hy.
    destruct (Hfl y) as (E1 & _ & -> & _). by apply E1 in Hy as [? _].
  - intros x Hx Hs Hr. destruct (Hfl x) as (E1 & _ & _ & E2). apply E1 in Hs as [Hs _]. rewrite E2 in Hr.
    destruct (l_fields _ _ _ _ _ _ L x) as (-> & -> & _). by apply (io_both k C HI).
  - intros r x Hr (Hx & _)%HinC [Hw Hg]; [|done]. apply (io_match k C HI r x Hr Hx).
    destruct (Hfl r) as (_ & _ & _ & E). rewrite E in Hw. destruct (l_fields _ _ _ _ _ _ L r) as (_ & Eg & _).
    rewrite Eg, Ln in Hg. by split.
  - apply L.
Qed.

(** The sender's flags once its [SEND] is done. *)
Definition sent (p : proc) : proc :=
  let p := set_p_flags (clear (p_flags p) SENDING) p in
  if has (p_flags p) RECEIVING then p else completed OK p.

Lemma sent_spec p :
  has (p_flags (sent p)) SENDING = false /\ has (p_flags (sent p)) RECEIVING = has (p_flags p) RECEIVING /\
  has (p_flags (sent p)) P_SLOT_FREE = has (p_flags p) P_SLOT_FREE.
Proof.
  destruct (sent_flags (p_flags p)) as (F1 & F2 & F3). unfold sent. cbv zeta.
  change (p_flags (set_p_flags (clear (p_flags p) SENDING) p)) with (clear (p_flags p) SENDING).
  destruct (has (clear (p_flags p) SENDING) RECEIVING) eqn:E; [split_and!; [exact F1|by rewrite <- F2|exact F3]|].
  destruct (completed_flags (clear (p_flags p) SENDING)) as (G1 & G2 & G3).
  split_and!; [exact G1|transitivity false; [exact G2|congruence]|transitivity (has (clear (p_flags p) SENDING) P_SLOT_FREE); [exact G3|done]].
Qed.

Lemma sent_links rp :
  sent (set_p_callerq 0 (set_p_sendlink 0 rp)) = set_p_callerq 0 (set_p_sendlink 0 (sent rp)).
Proof.
  unfold sent. cbv zeta.
  change (p_flags (set_p_callerq 0 (set_p_sendlink 0 rp))) with (p_flags rp).
  change (p_flags (set_p_flags ?f ?p)) with f. by destruct (has _ RECEIVING).
Qed.

Lemma complete_send_spec k Q s :
  ready_ok k Q -> valid_proc s -> is_sending k s = true ->
  (truthy (p_blocked_frame_valid (k_proc k s)) = true -> blocked_frame_matches (k_proc k s) = true) ->
  let k2 := upd s (fun p => set_p_flags (clear (p_flags p) SENDING) p) k in
  let k' := if has (p_flags (k_proc k2 s)) RECEIVING then k2 else cp32_complete_blocked_frame s OK k2 in
  updated k k' (fun x => if x =? s then sent (k_proc k s) else k_proc k x) /\
  k_mem k' = k_mem k /\ ready_ok k' (made_ready k' s Q).
Proof.
  intros HR Hv Hs Hfr k2.
  assert (Hk2 : forall x, k_proc k2 x = if x =? s then set_p_flags (clear (p_flags (k_proc k s)) SENDING) (k_proc k s)
                                        else k_proc k x).
  { intros x. subst k2. destruct (Z.eqb_spec x s) as [->|]; [by rewrite upd_same|by rewrite upd_other]. }
  assert (Hout : ~ (exists q, 0 <= q < 3 /\ In s (Q q))) by (by apply (not_queued k), (has_nonzero _ SENDING)).
  assert (HR2 : ready_ok k2 Q).
  { destruct HR as [HQ Hz]. split.
    - apply (queues_links k); [done..|]. intros x. rewrite Hk2. by destruct (Z.eqb_spec x s) as [->|].
    - intros q x Hq Hx. rewrite Hk2. destruct (Z.eqb_spec x s) as [->|]; [destruct Hout; by exists q|by apply (Hz q)]. }
  pose proof (Hk2 s) as Hk2s. rewrite Z.eqb_refl in Hk2s.
  destruct (has (p_flags (k_proc k2 s)) RECEIVING) eqn:E; intros k'; subst k'.
  - split_and!; [split; [|done]|done|].
    + intros x. rewrite Hk2. destruct (Z.eqb_spec x s) as [->|]; [|done]. unfold sent. cbv zeta.
      rewrite Hk2s in E. by rewrite E.
    + unfold made_ready. rewrite (proj2 (Z.eqb_neq _ _) (has_nonzero _ _ E)). done.
  - destruct (complete_spec k2 Q s OK HR2 Hv Hout) as ([HU Ha] & Hm & HR'); [by rewrite Hk2s|].
    split_and!; [split; [|done]|done|done].
    intros x. rewrite HU. destruct (Z.eqb_spec x s) as [->|Hx].
    + unfold sent. cbv zeta. rewrite Hk2s in E |- *. by rewrite E.
    + by rewrite Hk2, (proj2 (Z.eqb_neq _ _) Hx).
Qed.

Lemma accept_sender_leaves k C Q p s pre post mem :
  ipc_ok k C -> ready_ok k Q -> valid_proc p -> C p = pre ++ s :: post ->
  let k' := accept_sender p (List.last pre NIL_PROC) s (set_k_mem mem k) in
  leaves k k' p s pre post /\ ready_ok k' (made_ready k' s Q) /\ k_mem k' = mem /\
  p_flags (k_proc k' s) = p_flags (sent (k_proc k s)) /\ p_reg (k_proc k' s) = p_reg (sent (k_proc k s)).
Proof.
  intros HI HR Hp HC k'. assert (Hsp : In s (C p)) by (rewrite HC; apply in_or_app; right; by left).
  destruct (caller_sending k C p s HI Hp Hsp) as (Hvs & Hss & Htg & _).
  pose proof (io_chain k C HI p Hp) as Hch. pose proof (io_nodup k C HI p Hp) as Hnd. rewrite HC in Hch, Hnd.
  destruct (unlink_sender_spec (set_k_mem mem k) p s pre post Hch Hnd) as (HU1 & Hch1 & Hcq1 & Hsl1).
  subst k'. unfold accept_sender. cbv zeta. set (k1 := unlink_sender _ _ _ _) in *.
  assert (HF1 : forall {A} (g : proc -> A) x,
    (forall rp, g (set_p_callerq 0 (set_p_sendlink 0 rp)) = g rp) -> g (k_proc k1 x) = g (k_proc k x))
    by (intros A g x H; exact (callers_field g (set_k_mem mem k) k1 x H HU1)).
  destruct (complete_send_spec k1 Q s) as (HU & Hm & HR').
  { apply (ready_ok_callers (set_k_mem mem k)); [by apply ready_ok_mem|done]. } { done. }
  { unfold is_sending. by rewrite (HF1 _ p_flags). }
  { rewrite (HF1 _ p_blocked_frame_valid), (HF1 _ blocked_frame_matches) by done. by apply (io_frames k C HI). }
  cbv zeta in HU, Hm, HR'. set (k' := if has _ RECEIVING then _ else _) in *.
  assert (HF : forall {A} (g : proc -> A) x,
    (forall rp, g (set_p_callerq 0 (set_p_sendlink 0 rp)) = g rp) ->
    (forall rp, g (set_p_nextready 0 rp) = g rp) -> (forall rp, g (sent rp) = g rp) ->
    g (k_proc k' x) = g (k_proc k x)).
  { intros A g x H1 H2 H3. rewrite (updated_field g k1 k' _ x H2 HU).
    destruct (Z.eqb_spec x s) as [->|]; [rewrite H3|]; by apply HF1. }
  assert (Hsent : forall {A} (g : proc -> A), (forall rp, g (set_p_nextready 0 rp) = g rp) ->
    (forall rp, g (set_p_callerq 0 (set_p_sendlink 0 rp)) = g rp) ->
    g (k_proc k' s) = g (sent (k_proc k s))).
  { intros A g H1 H2. rewrite (updated_field g k1 k' _ s H1 HU), Z.eqb_refl.
    refine (HF1 _ (fun p => g (sent p)) s _). intros rp. cbn. by rewrite sent_links, H2. }
  assert (Hcase : forall {A} (g : proc -> A), (forall rp, g (completed OK rp) = g rp) ->
    (forall f rp, g (set_p_flags f rp) = g rp) -> forall rp, g (sent rp) = g rp).
  { intros A g H1 H2 rp. unfold sent. cbv zeta. case_match; by rewrite ?H1, ?H2. }
  pose proof (Hsent _ p_flags (fun _ => eq_refl) (fun _ => eq_refl)) as Hfs.
  destruct (sent_spec (k_proc k s)) as (F1 & F2 & F3).
  split_and!; [|done|rewrite Hm; by rewrite (sc_mem _ _ HU1)|exact Hfs|
    exact (Hsent _ p_reg (fun _ => eq_refl) (fun _ => eq_refl))].
  assert (HL : forall x, p_callerq (k_proc k' x) = p_callerq (k_proc k1 x) /\
    p_sendlink (k_proc k' x) = p_sendlink (k_proc k1 x)).
  { intros x. upd_field HU. destruct (Z.eqb_spec x s) as [->|]; [|done].
    split; [exact (Hcase _ p_callerq (fun _ => eq_refl) (fun _ _ => eq_refl) _)|].
    exact (Hcase _ p_sendlink (fun _ => eq_refl) (fun _ _ => eq_refl) _). }
  constructor.
  - intros n. unfold proc_addr. by rewrite (proj2 HU), (sc_addr _ _ HU1).
  - intros x. apply HF; [done..|]. by apply Hcase.
  - intros x. split_and!; apply HF; try done; by apply Hcase.
  - intros x Hx. rewrite (updated_field p_flags k1 k' _ x (fun _ => eq_refl) HU), (proj2 (Z.eqb_neq _ _) Hx).
    by apply HF1.
  - unfold is_sending, is_free, is_receiving. rewrite Hfs. by split_and!.
  - intros x Hx. upd_field HU. destruct (Z.eqb_spec x s) as [->|].
    + unfold sent. cbv zeta. case_match; [|done]. intros Ht.
      change (blocked_frame_matches (k_proc k1 s) = true). rewrite (HF1 _ blocked_frame_matches) by done.
      apply (io_frames k C HI s Hx). by rewrite <- (HF1 _ p_blocked_frame_valid s (fun _ => eq_refl)).
    + rewrite (HF1 _ p_blocked_frame_valid), (HF1 _ blocked_frame_matches) by done. by apply (io_frames k C HI).
  - destruct (HL p) as [-> _]. eapply chain_ext; [|exact Hch1]. intros x _. apply HL.
  - intros x Hx. destruct (HL x) as [-> _]. by apply Hcq1.
  - intros x Hx. destruct (HL x) as [_ ->]. by apply Hsl1.
Qed.

(** ** Blocking a receiver *)
Definition receiving_from (src m : Z) (p : proc) : proc :=
  set_p_flags (Z.lor (p_flags p) RECEIVING) (set_p_messbuf m (set_p_getfrom src p)).

Lemma block_receiver_ipc k C Q c src m :
  ipc_ok k C -> ready_ok k Q -> valid_proc c -> m <> 0 ->
  (forall x, In x (C c) -> matches k src x = false) ->
  (is_sending k c = true -> p_sendto (k_proc k c) = src) ->
  let k' := block_receiver c src m k in
  ipc_ok k' C /\ ready_ok k' (stopped k c Q) /\ k_mem k' = k_mem k /\
  p_flags (k_proc k' c) = Z.lor (p_flags (k_proc k c)) RECEIVING /\ p_getfrom (k_proc k' c) = src /\
  p_messbuf (k_proc k' c) = m.
Proof.
  intros HI HR Hv Hm Hno Hboth k'.
  destruct (stop_spec k Q c (fun p => set_p_messbuf m (set_p_getfrom src p))
    (fun p => set_p_flags (Z.lor (p_flags p) RECEIVING) p) HR Hv) as (HU & Hmem & HR'); [by intros..|].
  change (updated k k' (fun x => if x =? c then receiving_from src m (k_proc k c) else k_proc k x)) in HU.
  destruct (receive_flags (p_flags (k_proc k c))) as (F1 & F2 & F3).
  split_and!; [|exact HR'|exact Hmem|..]; try (upd_field HU; by rewrite Z.eqb_refl).
  apply (ipc_ok_ext k); [done|apply HU|..].
  - intros x. unfold is_sending, is_free. upd_field HU. by destruct (Z.eqb_spec x c) as [->|].
  - intros x Hx. upd_field HU. by destruct (Z.eqb_spec x c) as [->|].
  - intros x Hx Hs. unfold is_receiving. upd_field HU. destruct (Z.eqb_spec x c) as [->|]; intros Hr.
    + symmetry. by apply Hboth.
    + by apply (io_both k C HI).
  - intros r x Hr Hx [Hw Hg]. revert Hw Hg. unfold is_receiving. upd_field HU.
    assert (p_nr (if x =? c then receiving_from src m (k_proc k c) else k_proc k x) = p_nr (k_proc k x)) as ->
      by by destruct (Z.eqb_spec x c) as [->|].
    destruct (Z.eqb_spec r c) as [->|]; intros Hw Hg.
    + specialize (Hno x Hx). unfold matches in Hno. cbn in Hg. destruct Hg as [-> | ->]; [done|].
      by rewrite Z.eqb_refl, orb_true_r in Hno.
    + by apply (io_match k C HI r x Hr Hx).
  - intros x Hx. upd_field HU. destruct (Z.eqb_spec x c) as [->|]; by apply (io_frames k C HI).
Qed.

(** A sender of [c] is not the process to which [c] itself is sending. *)
Lemma both_no_match k C c x :
  ipc_ok k C -> valid_proc c -> is_sending k c = true -> In x (C c) ->
  matches k (p_sendto (k_proc k c)) x = false.
Proof.
  intros HI Hv Hs Hx. destruct (caller_sending k C c x HI Hv Hx) as (Hvx & Hsx & Htx & _).
  destruct (io_queued k C HI c Hv Hs) as (Hok & _). unfold matches. apply orb_false_iff. split.
  - apply Z.eqb_neq. intros E. rewrite E in Hok. by apply endpoint_not_any in Hok.
  - apply Z.eqb_neq. intros E. apply (ends_no_pair k c x); try done; [by apply (io_ends k C HI)|].
    unfold target. rewrite E. by apply (to_nr k (io_table k C HI)).
Qed.

(** A pending hardware notification answers the receive. *)
Definition notified (k : kst) (c src : Z) : bool :=
  negb (is_sending k c) && truthy (p_int_blocked (k_proc k c)) && isrxhardware src.

Lemma mini_rec_run k C c src m r k' :
  ipc_ok k C -> valid_proc c -> mini_rec c src m k = (r, k') ->
  let dst := numap k (p_nr (k_proc k c)) m MESS_SIZE in
  (exists e, r = Err e /\ k' = k) \/
  r = Ok tt /\ m <> 0 /\ is_receiving k c = false /\ dst <> 0 /\
  ((exists pre s post, C c = pre ++ s :: post /\ is_sending k c = false /\ matches k src s = true /\
    (forall x, In x pre -> matches k src x = false) /\
    k' = accept_sender c (List.last pre NIL_PROC) s (transferred (p_nr (k_proc k s))
           (numap k (p_nr (k_proc k s)) (p_messbuf (k_proc k s)) MESS_SIZE) dst k)) \/
   (is_sending k c = false -> forall x, In x (C c) -> matches k src x = false) /\
   (notified k c src = true /\
    k' = upd c (set_p_int_blocked 0) (store_mem dst (word_bytes HARDWARE ++ word_bytes HARD_INT) k) \/
    notified k c src = false /\ k' = block_receiver c src m k)).
Proof.
  intros HI Hv H dst. unfold mini_rec in H. rewrite bind_guard in H.
  destruct ((c =? NIL_PROC) || (m =? 0)) eqn:E1; [left; injection H as <- <-; eauto|].
  rewrite bind_guard in H. destruct (isoksrc_dest src) eqn:E2; [|left; injection H as <- <-; eauto].
  cbn [negb] in H. rewrite !bind_gets, bind_guard in H. fold dst in H.
  destruct (Z.eqb_spec dst 0) as [|E3]; [left; injection H as <- <-; eauto|].
  rewrite bind_guard in H. fold (is_receiving k c) (is_sending k c) in H.
  destruct (is_receiving k c) eqn:E4; [left; injection H as <- <-; eauto|].
  pose proof (find_sender_spec k (p_nr (k_proc k c)) src HOPS_LT NIL_PROC _ _ (io_chain k C HI c Hv)
    (fun x Hx => io_sender k C HI c x Hv Hx) (callers_length k C c HI Hv)) as HF.
  assert (Hnone : ((is_sending k c = false -> forall x, In x (C c) -> matches k src x = false) ->
    (if negb (is_sending k c) && truthy (p_int_blocked (k_proc k c)) && isrxhardware src
     then r <- try (interrupt_message c m) ;;
          match r with Err _ => fail EFAULT | Ok _ => modify (upd c (set_p_int_blocked 0)) end
     else modify (block_receiver c src m)) k = (r, k') ->
    (exists e, r = Err e /\ k' = k) \/
    r = Ok tt /\
    (notified k c src = true /\
     k' = upd c (set_p_int_blocked 0) (store_mem dst (word_bytes HARDWARE ++ word_bytes HARD_INT) k) \/
     notified k c src = false /\ k' = block_receiver c src m k))).
  { intros Hno Hr. fold (notified k c src) in Hr. destruct (notified k c src).
    - unfold interrupt_message, bind, try in Hr. cbn [gets] in Hr. fold dst in Hr.
      rewrite (proj2 (Z.eqb_neq _ _) E3) in Hr. cbn in Hr. injection Hr as <- <-. right. split; [done|]. by left.
    - injection Hr as <- <-. right. split; [done|]. by right. }
  assert (Hm : m <> 0) by lia.
  destruct (is_sending k c) eqn:E5.
  - cbn [bind ret] in H. unfold bind at 1 in H. cbn [ret] in H.
    destruct (Hnone (fun E => False_rect _ (diff_true_false E)) H) as [?|[-> ?]]; [by left|right].
    split_and!; try done. right. by split.
  - unfold bind at 1 2 in H. cbn [gets] in H.
    destruct (find_sender k (p_nr (k_proc k c)) src HOPS_LT NIL_PROC _) as [|[[p s]|]]; [done| |].
    + cbn [ret] in H. rewrite bind_gets in H. unfold bind, try in H. rewrite copy_message_run in H. cbv zeta in H.
      fold dst in H. destruct HF as (pre & post & HC & -> & Hm1 & Hm2).
      rewrite (proj2 (Z.eqb_neq _ _) E3) in H. cbn [orb] in H.
      destruct (numap k (p_nr (k_proc k s)) _ MESS_SIZE =? 0); injection H as <- <-; [left; eauto|right].
      split_and!; try done. left. by exists pre, s, post.
    + cbn [ret] in H. destruct (Hnone (fun _ => HF) H) as [?|[-> ?]]; [by left|right].
      split_and!; try done. right. by split.
Qed.

(** Acknowledging a notification. *)
Lemma notify_ipc k C Q c mem :
  ipc_ok k C -> ready_ok k Q ->
  let k' := upd c (set_p_int_blocked 0) (set_k_mem mem k) in
  ipc_ok k' C /\ ready_ok k' Q /\ k_mem k' = mem /\ p_int_blocked (k_proc k' c) = 0.
Proof.
  intros HI [HQ Hz] k'.
  assert (Hk' : forall {A} (f : proc -> A) x, (forall rp, f (set_p_int_blocked 0 rp) = f rp) ->
    f (k_proc k' x) = f (k_proc k x)).
  { intros A f x Hf. subst k'. destruct (Z.eq_dec x c) as [->|]; [by rewrite upd_same, Hf|by rewrite upd_other]. }
  split_and!.
  - apply (ipc_ok_ext k); [done..| | | | |].
    + intros x. unfold is_sending, is_free. rewrite !Hk' by done. by split_and!.
    + intros x _. rewrite !Hk' by done. by split.
    + intros x Hx Hs. unfold is_receiving. rewrite !Hk' by done. intros Hr. by apply (io_both k C HI).
    + intros r x Hr Hx [Hw Hg]. unfold is_receiving in Hw. rewrite !Hk' in Hw by done. rewrite (Hk' _ p_getfrom), (Hk' _ p_nr) in Hg by done.
      by apply (io_match k C HI r x Hr Hx).
    + intros x Hx. rewrite !Hk' by done. by apply (io_frames k C HI).
  - split.
    + apply (queues_links k); [done..|]. intros x. rewrite !Hk' by done. by split.
    + intros q x Hq Hx. rewrite Hk' by done. by apply (Hz q).
  - done.
  - subst k'. by rewrite upd_same.
Qed.

(** C2: [mini_rec] takes the first matching sender, loses none and blocks only
    when there is nothing to receive.  On a sound state, for a caller that is
    not itself blocked in a send to somebody else, a refused receive changes
    nothing at all.  An accepted one, in this order of preference: takes the
    earliest queued sender that the source matches out of the queue, the others
    keeping their places, copies its 36 bytes to the caller's buffer under the
    sender's true identity, and completes the sender's call with [OK] (or leaves
    it in the receive half of a [BOTH]); or, with no such sender, hands over and
    clears a pending hardware notification; or else blocks the caller, waiting
    for this source, out of the ready queue.  The invariant of [mini_send] holds
    again: in particular no process is left waiting for a message whose sender
    is already queued with it. *)
Theorem mini_rec_sound k C Q caller src m :
  ipc_ok k C -> ready_ok k Q -> valid_proc caller ->
  (is_sending k caller = true -> p_sendto (k_proc k caller) = src) ->
  let dst := numap k (p_nr (k_proc k caller)) m MESS_SIZE in
  match mini_rec caller src m k with
  | (Err _, k') => k' = k
  | (Ok _, k') =>
      exists C' Q', ipc_ok k' C' /\ ready_ok k' Q' /\
      ((exists pre s post, C caller = pre ++ s :: post /\ matches k src s = true /\
         (forall x, In x pre -> matches k src x = false) /\
         C' = without C caller (pre ++ post) /\ Q' = made_ready k' s Q /\
         delivered k k' (p_nr (k_proc k s))
           (numap k (p_nr (k_proc k s)) (p_messbuf (k_proc k s)) MESS_SIZE) dst /\
         p_flags (k_proc k' s) = p_flags (sent (k_proc k s)) /\
         p_reg (k_proc k' s) = p_reg (sent (k_proc k s)))
       \/
       C' = C /\ (forall x, In x (C caller) -> matches k src x = false) /\
       (notified k caller src = true /\ Q' = Q /\ p_int_blocked (k_proc k' caller) = 0 /\
        mem_read (k_mem k') dst 8 = word_bytes HARDWARE ++ word_bytes HARD_INT
        \/
        notified k caller src = false /\ Q' = stopped k caller Q /\ k_mem k' = k_mem k /\
        p_flags (k_proc k' caller) = Z.lor (p_flags (k_proc k caller)) RECEIVING /\
        p_getfrom (k_proc k' caller) = src /\ p_messbuf (k_proc k' caller) = m))
  end.
Proof.
  intros HI HR Hv Hboth dst. destruct (mini_rec caller src m k) as [r k'] eqn:E.
  apply (mini_rec_run k C) in E; [|done..]. fold dst in E. cbv zeta in E.
  destruct E as [(e & -> & ->)|(-> & Hm & _ & _ & E)]; [done|].
  destruct E as [(pre & s & post & HC & _ & Hms & Hpre & Ek)|(Hno & E)].
  - set (t := k_mem (transferred (p_nr (k_proc k s))
      (numap k (p_nr (k_proc k s)) (p_messbuf (k_proc k s)) MESS_SIZE) dst k)).
    change (transferred _ _ dst k) with (set_k_mem t k) in Ek.
    destruct (accept_sender_leaves k C Q caller s pre post t HI HR Hv HC) as (L & HR' & Hmem & Hf & Hrg).
    rewrite <- Ek in *. exists (without C caller (pre ++ post)), (made_ready k' s Q).
    split_and!; [by apply (leaves_ipc k k' C caller s)|done|]. left. exists pre, s, post.
    split_and!; try done. by apply transferred_delivered.
  - assert (Hno' : forall x, In x (C caller) -> matches k src x = false).
    { destruct (is_sending k caller) eqn:Es; [|by apply Hno]. intros x Hx. rewrite <- (Hboth eq_refl).
      by apply (both_no_match k C). }
    exists C. destruct E as [[Hn ->]|[Hn ->]].
    + destruct (notify_ipc k C Q caller (mem_write (k_mem k) dst (word_bytes HARDWARE ++ word_bytes HARD_INT)) HI HR)
        as (H1 & H2 & H3 & H4).
      exists Q. split_and!; [exact H1|exact H2|]. right. split_and!; [done..|]. left. split_and!; [done..|].
      exact (mem_read_write (k_mem k) dst (word_bytes HARDWARE ++ word_bytes HARD_INT)).
    + destruct (block_receiver_ipc k C Q caller src m HI HR Hv Hm Hno' Hboth) as (H1 & H2 & H3 & H4 & H5 & H6).
      exists (stopped k caller Q). split_and!; [exact H1|exact H2|]. right. split_and!; [done..|]. right. done.
Qed.

(** ** Witnesses: tasks of the demonstration table exchange a message *)
Definition demo_buffer : Z := 0x3FC00100.
(** Task -8 is blocked sending to task -6. *)
Definition demo_waiting : kst := block_sender 2 4 (-6) demo_buffer KDemo.state.

Lemma demo_flags x : p_flags (k_proc KDemo.state x) = 0 /\ p_callerq (k_proc KDemo.state x) = 0 /\
  p_nr (k_proc KDemo.state x) = x - 10 /\ p_blocked_frame_valid (k_proc KDemo.state x) = 0.
Proof.
  unfold KDemo.state.
  rewrite !(links_field p_flags _ _ x (fun _ => eq_refl) (ready_links _ _)).
  rewrite !(links_field p_callerq _ _ x (fun _ => eq_refl) (ready_links _ _)).
  rewrite !(links_field p_nr _ _ x (fun _ => eq_refl) (ready_links _ _)).
  rewrite !(links_field p_blocked_frame_valid _ _ x (fun _ => eq_refl) (ready_links _ _)). done.
Qed.

Lemma demo_ipc_ok : ipc_ok KDemo.state (fun _ => []).
Proof.
  assert (Hs : forall x, is_sending KDemo.state x = false)
    by (intros x; unfold is_sending; by destruct (demo_flags x) as [-> _]).
  assert (Ha : forall n, proc_addr KDemo.state n = n + 10).
  { intros n. unfold proc_addr, KDemo.state. rewrite !(sl_addr _ _ (ready_links _ _)). cbn. unfold NR_TASKS. lia. }
  constructor; try done.
  - constructor; unfold endpoint, valid_proc, NR_TASKS, NR_PROCS.
    + intros n Hn. rewrite Ha. destruct (demo_flags (n + 10)) as (_ & _ & -> & _). lia.
    + intros x Hx. destruct (demo_flags x) as (_ & _ & -> & _). rewrite Ha. lia.
  - intros p _. by destruct (demo_flags p) as (_ & -> & _).
  - intros p _. apply NoDup_nil_2.
  - intros x _. by rewrite Hs.
  - intros x _. by apply ends_here.
  - intros x _. by rewrite Hs.
  - intros x _. by destruct (demo_flags x) as (_ & _ & _ & ->).
Qed.

Lemma demo_ready_ok : ready_ok KDemo.state KDemo.Q.
Proof. split; [exact demo_queues|]. intros q x _ _. apply demo_flags. Qed.

Lemma demo_waiting_ok :
  ipc_ok demo_waiting (enqueue (fun _ => []) 4 2) /\ ready_ok demo_waiting (dequeue KDemo.Q 0 2).
Proof.
  assert (Hv : valid_proc 2 /\ valid_proc 4) by (unfold valid_proc; lia).
  destruct (block_sender_joins KDemo.state (fun _ => []) KDemo.Q 2 4 (-6) demo_buffer demo_ipc_ok demo_ready_ok)
    as (J & HR & _); [apply Hv|reflexivity|apply Hv|done|].
  split; [|exact HR]. apply (joins_ipc KDemo.state _ (fun _ => []) 2 4 (-6) demo_ipc_ok J); try done; try apply Hv.
  - by apply ends_off_here.
  - intros [H _]. vm_compute in H. done.
Qed.

Lemma mini_send_sound_witness :
  exists C' Q', ipc_ok (snd (mini_send 2 (-6) demo_buffer KDemo.state)) C' /\
                ready_ok (snd (mini_send 2 (-6) demo_buffer KDemo.state)) Q'.
Proof.
  pose proof (mini_send_sound KDemo.state (fun _ => []) KDemo.Q 2 (-6) demo_buffer demo_ipc_ok demo_ready_ok
    ltac:(unfold valid_proc; lia) (proj1 (demo_flags 2)) ltac:(unfold int_value; lia)) as H. cbv zeta in H.
  assert (E : fst (mini_send 2 (-6) demo_buffer KDemo.state) = Ok tt) by (vm_compute; reflexivity).
  destruct (mini_send 2 (-6) demo_buffer KDemo.state) as [r k']. cbn in E |- *. rewrite E in H.
  destruct H as (C' & Q' & H1 & H2 & _). exists C', Q'. by split.
Defined.

Lemma mini_send_complete_witness : fst (mini_send 2 (-6) demo_buffer KDemo.state) = Ok tt.
Proof.
  destruct (mini_send_complete KDemo.state (fun _ => []) 2 (-6) demo_buffer demo_ipc_ok) as [H _].
  - unfold valid_proc. lia.
  - exact (proj1 (demo_flags 2)).
  - discriminate.
  - unfold endpoint, NR_TASKS, NR_PROCS. lia.
  - vm_compute. discriminate.
  - vm_compute. reflexivity.
  - vm_compute. discriminate.
  - intros [Hw _]. exfalso. vm_compute in Hw. exact (diff_false_true Hw).
  - apply H. apply ends_off_here; [vm_compute; discriminate|vm_compute; reflexivity].
Defined.

Lemma mini_rec_sound_witness :
  exists C' Q', ipc_ok (snd (mini_rec 4 ANY demo_buffer demo_waiting)) C' /\
                ready_ok (snd (mini_rec 4 ANY demo_buffer demo_waiting)) Q'.
Proof.
  pose proof (mini_rec_sound demo_waiting _ _ 4 ANY demo_buffer (proj1 demo_waiting_ok) (proj2 demo_waiting_ok)
    ltac:(unfold valid_proc; lia)) as H. cbv zeta in H.
  assert (E : fst (mini_rec 4 ANY demo_buffer demo_waiting) = Ok tt) by (vm_compute; reflexivity).
  specialize (H ltac:(intros Hs; vm_compute in Hs; discriminate)).
  destruct (mini_rec 4 ANY demo_buffer demo_waiting) as [r k']. cbn in E |- *. rewrite E in H.
  destruct H as (C' & Q' & H1 & H2 & _). exists C', Q'. by split.
Defined.
