(* ===== verification/Message.v ===== *)
(** * Messages: src/src/include/minix/type.h and the field names of com.h

    A [message] is nine 32-bit words: the source, the type and the union
    [m_u], whose structures overlay each other.  The members of the union that
    the modelled code uses are named here by the words they occupy. *)
From S2P Require Import Prelude Kconst.

Definition message := list Z.

(** A word read back as an [int] or [long], and as an [unsigned] or pointer. *)
Definition int_at (m : message) (w : Z) : Z := to_int (nthZ m w).
Definition set_word (w x : Z) (m : message) : message := updZ m w (wrap32 x).

(** [memset(&m, 0, sizeof(m))] *)
Definition clear_message : message := replicate 9 0.

Definition m_source (m : message) : Z := int_at m 0.
Definition m_type (m : message) : Z := int_at m 1.
Definition m1_i1 (m : message) : Z := int_at m 2.
Definition m1_i2 (m : message) : Z := int_at m 3.
Definition m1_i3 (m : message) : Z := int_at m 4.
Definition m1_p1 (m : message) : Z := nthZ m 5.
Definition m1_p2 (m : message) : Z := nthZ m 6.
Definition m1_p3 (m : message) : Z := nthZ m 7.
Definition m2_i1 (m : message) : Z := int_at m 2.
Definition m2_i2 (m : message) : Z := int_at m 3.
Definition m2_i3 (m : message) : Z := int_at m 4.
Definition m2_l1 (m : message) : Z := int_at m 5.
Definition m2_l2 (m : message) : Z := int_at m 6.
Definition m2_p1 (m : message) : Z := nthZ m 7.
Definition m6_i1 (m : message) : Z := int_at m 2.
Definition m6_i2 (m : message) : Z := int_at m 3.
Definition m6_l1 (m : message) : Z := int_at m 5.
Definition m6_f1 (m : message) : Z := nthZ m 6.

(** ** Messages to device tasks *)
Definition CANCEL := 0.
Definition DEV_READ := 3.
Definition DEV_WRITE := 4.
Definition DEV_IOCTL := 5.
Definition DEV_OPEN := 6.
Definition DEV_CLOSE := 7.
Definition CP32_DEV_SYNC := 11.
Definition TASK_REPLY := 68.
Definition MEM_TASK := -4.
Definition RAM_DEV := 0.
Definition DEVICE := m2_i1.
Definition PROC_NR := m2_i2.
Definition COUNT := m2_i3.
Definition POSITION := m2_l1.
Definition ADDRESS := m2_p1.
Definition REP_PROC_NR := m2_i1.
Definition REP_STATUS := m2_i2.

(** ** Messages to the clock task *)
Definition CLOCK := -3.
Definition SET_ALARM := 1.
Definition GET_TIME := 3.
Definition SET_TIME := 4.
Definition GET_UPTIME := 5.
Definition SET_SYNC_AL := 6.
Definition NEW_TIME := m6_l1.
Definition DELTA_TICKS := m6_l1.
Definition CLOCK_PROC_NR := m6_i1.
Definition FUNC_TO_CALL := m6_f1.

(** ** Reading what was stored *)
Lemma length_set_word w x m : length (set_word w x m) = length m.
Proof. unfold set_word, updZ. apply length_insert. Qed.

Lemma nthZ_set_word w v x m :
  0 <= w < lenZ m -> 0 <= v -> nthZ (set_word w x m) v = if w =? v then wrap32 x else nthZ m v.
Proof. intros Hw Hv. unfold set_word. by apply nthZ_upd. Qed.

Lemma to_int_wrap x : to_int (wrap32 x) = to_int x.
Proof. unfold to_int, wrap32. by rewrite Z.mod_mod by lia. Qed.

Lemma to_int_id x : -2147483648 <= x < 2147483648 -> to_int x = x.
Proof.
  intros H. unfold to_int, wrap32. destruct (Z.le_gt_cases 0 x).
  - rewrite Z.mod_small by lia. destruct (Z.ltb_spec x 2147483648); lia.
  - replace (x mod 4294967296) with (x + 4294967296) by (apply (Z.mod_unique_pos x 4294967296 (-1)); lia).
    destruct (Z.ltb_spec (x + 4294967296) 2147483648); lia.
Qed.

Lemma to_int_range x : -2147483648 <= to_int x < 2147483648.
Proof.
  unfold to_int. pose proof (wrap32_range x).
  destruct (Z.ltb_spec (wrap32 x) 2147483648); lia.
Qed.

Lemma int_at_set w v x m :
  0 <= w < lenZ m -> 0 <= v -> int_at (set_word w x m) v = if w =? v then to_int x else int_at m v.
Proof.
  intros Hw Hv. unfold int_at. rewrite nthZ_set_word by done.
  destruct (w =? v); [apply to_int_wrap|done].
Qed.
