(* ===== verification/Rootdisk.v ===== *)
(** * The root volume: src/src/kernel/rootdisk.c

    One volume of an SD card, reached a 512-byte sector at a time through one
    sector buffer.  The card is the interface [Card], the calls of sdcard.c.
    Every write is read back and compared before it counts. *)
From S2P Require Import Prelude Codec FsTypes MemDisk Super.

(** ** The card

    [cp32_sdcard_read lba buffer] is the status and the contents of the buffer
    after the call, which a failed read may have changed. *)
Class Card (C : Type) := {
  cp32_sdcard_init : C -> Z * C;
  cp32_sdcard_sectors : C -> Z;
  cp32_sdcard_read : Z -> list Z -> C -> (Z * list Z) * C;
  cp32_sdcard_write : Z -> list Z -> C -> Z * C;
  cp32_sdcard_sync : C -> Z * C }.

(** [static unsigned char sector[512], verify[512]] and the other statics. *)
Record root := Root {
  sector : list Z; volume_start : Z; capacity : Z; cached_lba : Z; cached : Z;
  write_failed : Z; verify : list Z }.
Definition boot_root : root := Root (replicate 512 0) 0 0 0 0 0 (replicate 512 0).

Definition set_sector (x : list Z) (r : root) : root :=
  Root x (volume_start r) (capacity r) (cached_lba r) (cached r) (write_failed r) (verify r).
Definition set_volume (start cap : Z) (r : root) : root :=
  Root (sector r) start cap (cached_lba r) (cached r) (write_failed r) (verify r).
Definition set_cached_lba (x : Z) (r : root) : root :=
  Root (sector r) (volume_start r) (capacity r) x (cached r) (write_failed r) (verify r).
Definition set_cached (x : Z) (r : root) : root :=
  Root (sector r) (volume_start r) (capacity r) (cached_lba r) x (write_failed r) (verify r).
Definition set_write_failed (x : Z) (r : root) : root :=
  Root (sector r) (volume_start r) (capacity r) (cached_lba r) (cached r) x (verify r).
Definition set_verify (x : list Z) (r : root) : root :=
  Root (sector r) (volume_start r) (capacity r) (cached_lba r) (cached r) (write_failed r) x.

Definition VOLUME_READ : fptr := 7.

(** [static uint32_t le32(const unsigned char *p)] *)
Definition le32 (p : list Z) : Z :=
  Z.lor (Z.lor (Z.lor (nthZ p 0) (Z.shiftl (nthZ p 1) 8)) (Z.shiftl (nthZ p 2) 16)) (nthZ p 3 <<u 24).

Section Rootdisk.
Context {C : Type} `{CARD : Card C}.
Abbreviation RM := (M (root * C)).

Definition getr {A} (f : root -> A) : RM A := gets (fun w => f (fst w)).
Definition modr (f : root -> root) : RM unit := modify (fun w => (f (fst w), snd w)).
(** [cp32_sdcard_read(lba, sector)] and [cp32_sdcard_read(lba, verify)] *)
Definition read_sector (lba : Z) : RM Z := fun '(r, c) =>
  let '((s, b), c') := cp32_sdcard_read lba (sector r) c in (Ok s, (set_sector b r, c')).
Definition read_verify (lba : Z) : RM Z := fun '(r, c) =>
  let '((s, b), c') := cp32_sdcard_read lba (verify r) c in (Ok s, (set_verify b r, c')).
Definition write_sector (lba : Z) : RM Z := fun '(r, c) =>
  let (s, c') := cp32_sdcard_write lba (sector r) c in (Ok s, (r, c')).
Definition sync_card : RM Z := fun '(r, c) =>
  let (s, c') := cp32_sdcard_sync c in (Ok s, (r, c')).

Definition cp32_root_writable (r : root) : bool := truthy (capacity r) && negb (truthy (write_failed r)).
Definition cp32_root_capacity (r : root) : Z := capacity r.

(** The label [failed:] of [cp32_root_write]. *)
Definition write_failure {A} : RM A := modr (fun r => set_write_failed 1 (set_cached 0 r)) ;;; fail (-1).

Definition same_bytes (a b : list Z) : bool := forallb (fun i => nthZ a i =? nthZ b i) (map Z.of_nat (seq 0 512)).

(** Writing the sector buffer out and comparing what was stored. *)
Definition write_back (lba : Z) : RM Z :=
  s <- write_sector lba ;;
  if truthy s then write_failure else
  s <- read_verify lba ;;
  if truthy s then write_failure else
  same <- getr (fun r => same_bytes (sector r) (verify r)) ;;
  if negb same then write_failure else
  modr (fun r => set_cached 1 (set_cached_lba lba r)) ;;;
  ret 0.

(** [int cp32_root_write(offset, p, n)]; [bytes] is what [p] points to. *)
Definition cp32_root_write (offset p : Z) (bytes : list Z) (n : Z) : RM Z :=
  let within := offset mod 512 in
  writable <- getr cp32_root_writable ;;
  cap <- getr capacity ;;
  guard (negb writable || (cap <? offset) || (cap -u offset <? n) || (512 - within <? n) ||
         (truthy n && (p =? 0))) (-1) ;;;
  if n =? 0 then ret 0 else
  modr (set_cached 0) ;;;
  lba <- getr (fun r => volume_start r +u offset / 512) ;;
  s <- read_sector lba ;;
  if truthy s then write_failure else
  modr (fun r => set_sector (splice (sector r) within (take (Z.to_nat n) bytes)) r) ;;;
  write_back lba.

(** [if(!cached || cached_lba!=lba) ...]: brings a sector into the buffer. *)
Definition fetch (lba : Z) : RM unit :=
  hit <- getr (fun r => truthy (cached r) && (cached_lba r =? lba)) ;;
  if hit then ret tt else
    modr (set_cached 0) ;;;
    s <- read_sector lba ;;
    guard (truthy s) (-1) ;;;
    modr (fun r => set_cached 1 (set_cached_lba lba r)).

(** One turn of [while(n)]: the offset, the rest of [n], the bytes so far. *)
Definition read_turn (st : Z * Z * list Z) : RM (turn (Z * Z * list Z) (list Z)) :=
  let '(offset, n, out) := st in
  if n =? 0 then ret (Break out) else
  lba <- getr (fun r => volume_start r +u offset / 512) ;;
  let within := offset mod 512 in
  fetch lba ;;;
  let chunk := if n <? 512 - within then n else 512 - within in
  bytes <- getr (fun r => take (Z.to_nat chunk) (drop (Z.to_nat within) (sector r))) ;;
  ret (Continue (offset +u chunk, n -u chunk, out ++ bytes)).

(** [int cp32_root_read(offset, out, n)]: the bytes stored at [out]. *)
Definition cp32_root_read (offset out n : Z) : RM (list Z) :=
  cap <- getr capacity ;;
  guard (negb (truthy cap) || (cap <? offset) || (cap -u offset <? n) || (truthy n && (out =? 0))) (-1) ;;;
  loop (Z.to_nat n) read_turn (fun '(_, _, bytes) => ret bytes) (offset, n, []).

(** [static int volume_read(offset, p, n)]; [n] is an [int], so that the
    conversion to [unsigned] of a count that is not negative keeps it. *)
Definition volume_read (offset n : Z) (w : root * C) : (Z * list Z) * (root * C) :=
  if n <? 0 then ((-1, []), w) else
  match cp32_root_read offset nonnull n w with
  | (Err _, w) => ((-1, []), w)
  | (Ok bytes, w) => ((n, bytes), w)
  end.

(** The volume as the superblock reader sees it: only [volume_read] is bound,
    and an offset is unsigned. *)
#[export] Instance volume_disk : Disk (root * C) := {
  dk_read := fun f off n w => if (f =? VOLUME_READ) && (0 <=? off) then volume_read off n w else ((-1, []), w);
  dk_write := fun _ _ _ w => (-1, w);
  dk_clock := fun _ w => ((-1, 0), w);
  dk_invalidate := fun w => w }.

(** The scan of the partition table in the boot sector: [start], [length] and
    [found] after entry [i]. *)
Definition partition_turn (total : Z) (i : Z) (st : Z * Z * Z) : RM (Z * Z * Z) :=
  let '(start, length, found) := st in
  p <- getr (fun r => ptr_add (sector r) (446 + i * 16)) ;;
  if nthZ p 4 =? 0x81 then
    let found := found + 1 in
    guard ((found !=? 1) || ((nthZ p 0 !=? 0) && (nthZ p 0 !=? 0x80))) (-6) ;;;
    let start := le32 (ptr_add p 8) in
    let length := le32 (ptr_add p 12) in
    guard ((start =? 0) || (length <? 4) || (total <? start + length)) (-6) ;;;
    ret (start, length, found)
  else ret st.

Definition MAX_SECTORS : Z := 0x7ffffe00 / 512.

Definition run_super (cap : Z) : RM cp32_minix_super := fun w =>
  let (x, w') := cp32_minix_super_read VOLUME_READ cap nonnull (boot_fsw w) in (x, fs_env w').

(** Selecting the volume by the boot sector, which the buffer holds. *)
Definition choose_volume (total : Z) : RM (Z * Z * Z) :=
  mbr <- getr (fun r => (nthZ (sector r) 510 =? 0x55) && (nthZ (sector r) 511 =? 0xaa)) ;;
  if mbr then
    st <- for_ 4 0 (partition_turn total) (0, total, 0) ;;
    guard (snd st =? 0) (-6) ;;; ret st
  else ret (0, total, 0).

(** Opening the selected sectors, if they hold a file system. *)
Definition open_volume (st : Z * Z * Z) : RM unit :=
  let '(start, length, found) := st in
  guard ((MAX_SECTORS <? length) && truthy found) (-7) ;;;
  let length := if MAX_SECTORS <? length then MAX_SECTORS else length in
  modr (set_volume start (wrap32 length *u 512)) ;;;
  cap <- getr capacity ;;
  x <- try (run_super cap) ;;
  match x with
  | Err _ => modr (fun r => set_cached 0 (set_volume (volume_start r) 0 r)) ;;; fail (-8)
  | Ok super =>
      modr (fun r => if found =? 0 then set_volume (volume_start r) (s_zones super *u (1024 <<u s_log_zone_size super)) r else r) ;;;
      modr (set_cached 0)
  end.

Definition cp32_root_init : RM unit :=
  modr (fun r => set_write_failed 0 (set_volume 0 0 (set_cached 0 r))) ;;;
  r <- (fun '(r, c) => let (s, c') := cp32_sdcard_init c in (Ok s, (r, c'))) ;;
  guard (truthy r) r ;;;
  total <- gets (fun w => cp32_sdcard_sectors (snd w)) ;;
  guard (total <? 4) (-5) ;;;
  s <- read_sector 0 ;;
  guard (truthy s) (-5) ;;;
  st <- choose_volume total ;;
  open_volume st.

Definition cp32_root_sync : RM unit :=
  bad <- getr (fun r => negb (truthy (capacity r)) || truthy (write_failed r)) ;;
  guard bad (-1) ;;;
  s <- sync_card ;;
  if truthy s then modr (fun r => set_cached 0 (set_write_failed 1 r)) ;;; fail (-1) else ret tt.
End Rootdisk.

(** ** Specification of the card

    [cd_data] is the medium, byte by byte.  The card gives no promise for a
    write: what a write has stored is known from reading it back. *)
Class CardSpec (C : Type) `{Card C} := {
  cd_data : C -> mem;
  cd_inv : C -> Prop;
  cd_byte : forall c a, is_byte (cd_data c a);
  cd_sectors : forall c, cd_inv c -> 0 <= cp32_sdcard_sectors c <= 4294967296;
  cd_init : forall c, cd_inv c -> let (s, c') := cp32_sdcard_init c in
    cd_inv c' /\ cd_data c' ≡m cd_data c;
  cd_read_frame : forall c lba b, cd_inv c -> length b = 512%nat ->
    let '((s, b'), c') := cp32_sdcard_read lba b c in
    cd_inv c' /\ cd_data c' ≡m cd_data c /\ cp32_sdcard_sectors c' = cp32_sdcard_sectors c /\
    length b' = 512%nat;
  cd_read_ok : forall c lba b, cd_inv c -> length b = 512%nat ->
    let '((s, b'), c') := cp32_sdcard_read lba b c in
    s = 0 -> 0 <= lba < cp32_sdcard_sectors c /\ b' = mem_read (cd_data c) (lba * 512) 512;
  cd_write_frame : forall c lba b, cd_inv c -> length b = 512%nat ->
    let (s, c') := cp32_sdcard_write lba b c in
    cd_inv c' /\ cp32_sdcard_sectors c' = cp32_sdcard_sectors c /\
    forall a, a / 512 <> lba -> cd_data c' a = cd_data c a;
  cd_sync : forall c, cd_inv c -> let (s, c') := cp32_sdcard_sync c in
    cd_inv c' /\ cd_data c' ≡m cd_data c /\ cp32_sdcard_sectors c' = cp32_sdcard_sectors c }.

Section Proofs.
Context {C : Type} `{CARD : Card C} `{SPEC : !CardSpec C}.
Abbreviation RM := (M (root * C)).

(** ** The state of the driver *)

(** The volume: the bytes of the medium from its first sector. *)
Definition vol_data (w : root * C) : mem := fun a => cd_data (snd w) (volume_start (fst w) * 512 + a).

(** A cached sector is the sector of the medium; an open volume lies on the card. *)
Record root_ok (w : root * C) : Prop := {
  ro_card : cd_inv (snd w);
  ro_sector : length (sector (fst w)) = 512%nat;
  ro_verify : length (verify (fst w)) = 512%nat;
  ro_cached : truthy (cached (fst w)) = true ->
    sector (fst w) = mem_read (cd_data (snd w)) (cached_lba (fst w) * 512) 512;
  ro_start : 0 <= volume_start (fst w);
  ro_capacity : 0 <= capacity (fst w) < 2147483648;
  ro_inside : volume_start (fst w) * 512 + capacity (fst w) <= cp32_sdcard_sectors (snd w) * 512 }.

(** The same volume, still open in the same way. *)
Definition same_volume (w w' : root * C) : Prop :=
  volume_start (fst w') = volume_start (fst w) /\ capacity (fst w') = capacity (fst w) /\
  write_failed (fst w') = write_failed (fst w) /\
  cp32_sdcard_sectors (snd w') = cp32_sdcard_sectors (snd w) /\ vol_data w' ≡m vol_data w.

#[export] Instance same_volume_preorder : PreOrder same_volume.
Proof.
  split; [by intros w|]. intros w1 w2 w3 (E1 & E2 & E3 & E4 & E5) (F1 & F2 & F3 & F4 & F5).
  split_and!; [by etransitivity..|]. by rewrite F5.
Qed.

(** The card answers every read of a sector it has. *)
Definition card_reliable : Prop :=
  forall c lba b, cd_inv c -> 0 <= lba < cp32_sdcard_sectors c -> fst (fst (cp32_sdcard_read lba b c)) = 0.

Definition fits (r : root) (offset n : Z) : Prop := 0 <= offset /\ 0 <= n /\ offset + n <= capacity r.

(** ** Reading *)
Lemma read_sector_spec lba w :
  root_ok w -> exists s w', read_sector lba w = (Ok s, w') /\
    fst w' = set_sector (sector (fst w')) (fst w) /\ length (sector (fst w')) = 512%nat /\
    cd_inv (snd w') /\ cd_data (snd w') ≡m cd_data (snd w) /\
    cp32_sdcard_sectors (snd w') = cp32_sdcard_sectors (snd w) /\
    (s = 0 -> 0 <= lba < cp32_sdcard_sectors (snd w) /\
              sector (fst w') = mem_read (cd_data (snd w)) (lba * 512) 512) /\
    (card_reliable -> 0 <= lba < cp32_sdcard_sectors (snd w) -> s = 0).
Proof.
  destruct w as [r c]. intros [H1 H2 _ _ _ _ _]. cbn [fst snd] in *. unfold read_sector.
  pose proof (cd_read_frame c lba (sector r) H1 H2) as HF.
  pose proof (cd_read_ok c lba (sector r) H1 H2) as HO.
  assert (HR : card_reliable -> 0 <= lba < cp32_sdcard_sectors c ->
    fst (fst (cp32_sdcard_read lba (sector r) c)) = 0) by auto.
  destruct (cp32_sdcard_read lba (sector r) c) as [[s b] c']. cbn [fst snd] in HR.
  destruct HF as (F1 & F2 & F3 & F4). exists s, (set_sector b r, c'). by split_and!.
Qed.

(** What a read relies on and leaves behind. *)
Definition serving (w0 w : root * C) : Prop := root_ok w /\ same_volume w0 w.
Definition read_failed (w0 : root * C) (e : Z) (w : root * C) : Prop :=
  serving w0 w /\ e = -1 /\ ~ card_reliable.

(** The sector buffer holds the sector of the medium. *)
Definition holds_sector (lba : Z) (w : root * C) : Prop :=
  sector (fst w) = mem_read (cd_data (snd w)) (lba * 512) 512.

(** Refilling the buffer keeps the volume. *)
Lemma refill_ok w0 w lba c b :
  serving w0 w -> length b = 512%nat -> cd_inv c -> cd_data c ≡m cd_data (snd w) ->
  cp32_sdcard_sectors c = cp32_sdcard_sectors (snd w) ->
  serving w0 (set_sector b (set_cached 0 (fst w)), c) /\
  (b = mem_read (cd_data (snd w)) (lba * 512) 512 ->
   let w' := (set_cached 1 (set_cached_lba lba (set_sector b (set_cached 0 (fst w)))), c) in
   serving w0 w' /\ holds_sector lba w').
Proof.
  intros [[H1 H2 H3 H4 H5 H6 H7] (E1 & E2 & E3 & E4 & E5)] Hl Hi Hd Hs.
  assert (Hv : forall r, volume_start r = volume_start (fst w) -> vol_data (r, c) ≡m vol_data w0).
  { intros r Hr a. rewrite <- E5. unfold vol_data. cbn. rewrite Hr. apply Hd. }
  split.
  - split; [|split_and!; cbn; try done; [by rewrite Hs|by apply Hv]].
    split; cbn; try done; by rewrite Hs.
  - intros Hb. assert (Hh : b = mem_read (cd_data c) (lba * 512) 512) by (by rewrite Hd).
    split; [|done]. split; [|split_and!; cbn; try done; [by rewrite Hs|by apply Hv]].
    split; cbn; try done; by rewrite Hs.
Qed.

Lemma sector_fetch_spec w0 lba :
  0 <= lba < cp32_sdcard_sectors (snd w0) ->
  hoare (serving w0) (fetch lba) (fun _ w => serving w0 w /\ holds_sector lba w) (read_failed w0).
Proof.
  unfold fetch. intros Hlba w Hw. pose proof (proj2 Hw) as (_ & _ & _ & Hsec & _).
  unfold bind, getr, gets, modr, modify. cbv beta iota.
  destruct (truthy (cached (fst w)) && (cached_lba (fst w) =? lba)) eqn:Hh; cbn [fst snd].
  { apply andb_true_iff in Hh as [Hc <-%Z.eqb_eq]. cbn. split; [done|].
    by apply Hw. }
  set (w1 := (set_cached 0 (fst w), snd w)).
  assert (H1 : root_ok w1) by (destruct Hw as [[] _]; split; cbn; done).
  destruct (read_sector_spec lba w1 H1) as (s & [r2 c2] & -> & Hr & Hl & Hi & Hd & Hs & Hok & Hrel).
  subst w1. cbn [fst snd] in *.
  destruct (refill_ok w0 w lba c2 (sector r2) Hw Hl Hi Hd Hs) as [R1 R2]. rewrite <- Hr in R1.
  unfold guard. destruct (truthy s) eqn:Ht; cbn.
  - split_and!; try done. intros Hcr. apply truthy_true in Ht. apply Ht, Hrel; [done|lia].
  - apply truthy_false in Ht. destruct (Hok Ht) as [_ Hb]. destruct (R2 Hb) as [R3 R4].
    rewrite <- Hr in R3, R4. done.
Qed.

(** The sector that holds byte [a] of the volume. *)
Definition lba_of (w : root * C) (a : Z) : Z := volume_start (fst w) + a / 512.

Lemma lba_bound w a : root_ok w -> 0 <= a < capacity (fst w) ->
  0 <= lba_of w a < cp32_sdcard_sectors (snd w) /\ lba_of w a < 4294967296.
Proof.
  intros [H1 _ _ _ H2 H3 H4] Ha. pose proof (cd_sectors (snd w) H1). unfold lba_of.
  Z.div_mod_to_equations. lia.
Qed.

Lemma sector_slice w a k :
  holds_sector (lba_of w a) w -> 0 <= k -> a mod 512 + k <= 512 ->
  take (Z.to_nat k) (drop (Z.to_nat (a mod 512)) (sector (fst w))) = mem_read (vol_data w) a k.
Proof.
  intros -> Hk Hle. pose proof (Z.mod_pos_bound a 512 ltac:(lia)). rewrite mem_read_slice by lia.
  unfold mem_read. apply map_ext. intros i. unfold vol_data, lba_of. f_equal.
  pose proof (Z.div_mod a 512 ltac:(lia)). lia.
Qed.

Lemma lba_same w0 w a : same_volume w0 w -> lba_of w a = lba_of w0 a.
Proof. intros (E & _). unfold lba_of. by rewrite E. Qed.

(** After [lenZ out] of the [n] bytes at [offset]. *)
Definition read_so_far (w0 : root * C) (offset n : Z) (fuel : nat) (st : Z * Z * list Z) : Prop :=
  let '(o, k, out) := st in
  o = offset + lenZ out /\ k = n - lenZ out /\ lenZ out <= n /\ k <= Z.of_nat fuel /\
  out = mem_read (vol_data w0) offset (lenZ out).

Lemma read_turn_spec w0 offset n fuel st :
  root_ok w0 -> fits (fst w0) offset n ->
  hoare (fun w => serving w0 w /\ read_so_far w0 offset n (S fuel) st) (read_turn st)
    (fun t w => match t with
      | Continue st => serving w0 w /\ read_so_far w0 offset n fuel st
      | Break out => serving w0 w /\ out = mem_read (vol_data w0) offset n end)
    (read_failed w0).
Proof.
  destruct st as [[o k] out]. intros H0 (F1 & F2 & F3). apply hoare_pure. intros (-> & -> & Hle & Hf & Hout).
  pose proof (lenZ_nonneg out). pose proof (ro_capacity _ H0). unfold read_turn.
  destruct (Z.eqb_spec (n - lenZ out) 0).
  { apply hoare_ret. intros w Hw. split; [done|]. by replace n with (lenZ out) by lia. }
  set (a := offset + lenZ out). set (chunk := if _ <? _ then _ else _).
  assert (Ha : 0 <= a < capacity (fst w0)) by lia. pose proof (lba_bound w0 a H0 Ha) as [Hl Hl'].
  assert (Hch : 1 <= chunk <= n - lenZ out /\ a mod 512 + chunk <= 512).
  { subst chunk. pose proof (Z.mod_pos_bound a 512 ltac:(lia)).
    destruct (Z.ltb_spec (n - lenZ out) (512 - a mod 512)); lia. }
  eapply hoare_bind with (Q' := fun lba w => serving w0 w /\ lba = lba_of w0 a).
  { apply hoare_gets. intros w Hw. split; [done|]. rewrite <- (lba_same w0 w) by apply Hw. unfold lba_of.
    apply wrap32_small. change (0 <= lba_of w a < 4294967296). rewrite (lba_same w0 w) by apply Hw. lia. }
  intros lba. apply hoare_pure. intros ->.
  eapply hoare_bind; [by apply sector_fetch_spec|]. intros [].
  eapply hoare_bind with (Q' := fun bs w => serving w0 w /\ bs = mem_read (vol_data w0) a chunk).
  { apply hoare_gets. intros w [Hw Hs]. split; [done|].
    rewrite <- (lba_same w0 w) in Hs by apply Hw. rewrite sector_slice by (done || lia).
    pose proof (proj2 Hw) as (_ & _ & _ & _ & ->). done. }
  intros bs. apply hoare_pure. intros ->. apply hoare_ret. intros w Hw. split; [done|].
  unfold read_so_far. rewrite lenZ_app, lenZ_mem_read by lia. unwrap. split_and!; try lia.
  by rewrite mem_read_app, <- Hout by lia.
Qed.

Lemma root_read_spec w0 offset out n :
  root_ok w0 -> fits (fst w0) offset n -> capacity (fst w0) <> 0 -> (n = 0 \/ out <> 0) ->
  hoare (serving w0) (cp32_root_read offset out n)
    (fun bs w => serving w0 w /\ bs = mem_read (vol_data w0) offset n) (read_failed w0).
Proof.
  intros H0 Hfits Hc Hout. pose proof (ro_capacity _ H0). unfold cp32_root_read, fits in *.
  eapply hoare_bind with (Q' := fun cap w => serving w0 w /\ cap = capacity (fst w0)).
  { apply hoare_gets. intros w Hw. split; [done|]. apply Hw. }
  intros cap. apply hoare_pure. intros ->.
  eapply hoare_bind with (Q' := fun _ w => serving w0 w).
  { apply hoare_guard; [|done]. intros w Hw Hg. exfalso. rewrite wrap32_small in Hg by lia.
    unfold truthy in Hg. destruct Hout as [->|Hn]; lia. }
  intros _. eapply hoare_conseq with (R' := read_failed w0)
    (Q' := fun bs w => serving w0 w /\ bs = mem_read (vol_data w0) offset n); [| |done|done].
  { apply (hoare_loop (fun fuel st w => serving w0 w /\ read_so_far w0 offset n fuel st));
      [intros fuel st; by apply read_turn_spec|].
    intros [[o k] bs]. apply hoare_ret. intros w [Hw (_ & -> & ? & ? & ->)]. split; [done|].
    pose proof (lenZ_nonneg (mem_read (vol_data w0) offset (lenZ bs))).
    rewrite lenZ_mem_read in * by apply lenZ_nonneg. by replace n with (lenZ bs) by lia. }
  intros w Hw. split; [done|]. cbn. change (lenZ (@nil Z)) with 0. split_and!; (lia || done).
Qed.

(** ** Writing *)

(** What [cp32_root_write] accepts: one sector of a volume without a failed write. *)
Definition write_allowed (r : root) (offset p n : Z) : Prop :=
  cp32_root_writable r = true /\ fits r offset n /\ offset mod 512 + n <= 512 /\ (n = 0 \/ p <> 0).

(** The volume is open for reading only, and nothing outside the sector of
    [offset] changed. *)
Definition write_locked (w : root * C) (offset : Z) (w' : root * C) : Prop :=
  root_ok w' /\ cached (fst w') = 0 /\ write_failed (fst w') = 1 /\
  volume_start (fst w') = volume_start (fst w) /\ capacity (fst w') = capacity (fst w) /\
  cp32_sdcard_sectors (snd w') = cp32_sdcard_sectors (snd w) /\
  forall a, a / 512 <> offset / 512 -> vol_data w' a = vol_data w a.

Definition written (w : root * C) (offset : Z) (bs : list Z) (w' : root * C) : Prop :=
  root_ok w' /\ volume_start (fst w') = volume_start (fst w) /\ capacity (fst w') = capacity (fst w) /\
  write_failed (fst w') = 0 /\ cp32_sdcard_sectors (snd w') = cp32_sdcard_sectors (snd w) /\
  vol_data w' ≡m mem_write (vol_data w) offset bs.

Lemma same_bytes_spec a b : length a = 512%nat -> length b = 512%nat -> same_bytes a b = true -> a = b.
Proof.
  intros Ha Hb H. apply list_eq_nthZ; [congruence|]. unfold lenZ. intros i Hi.
  unfold same_bytes in H. rewrite forallb_forall in H. apply Z.eqb_eq, H.
  apply in_map_iff. exists (Z.to_nat i). rewrite in_seq. lia.
Qed.

(** What any step of a write leaves: the same driver variables but the buffers,
    and a medium that differs in one sector at most. *)
Definition in_progress (w : root * C) (lba : Z) (w' : root * C) : Prop :=
  cd_inv (snd w') /\ length (sector (fst w')) = 512%nat /\ length (verify (fst w')) = 512%nat /\
  volume_start (fst w') = volume_start (fst w) /\ capacity (fst w') = capacity (fst w) /\
  write_failed (fst w') = 0 /\ cp32_sdcard_sectors (snd w') = cp32_sdcard_sectors (snd w) /\
  forall a, a / 512 <> lba -> cd_data (snd w') a = cd_data (snd w) a.

Lemma write_failure_spec {A} w offset w1 :
  root_ok w -> in_progress w (lba_of w offset) w1 ->
  match write_failure (A := A) w1 with
  | (Ok _, _) => False
  | (Err e, w') => e = -1 /\ write_locked w offset w'
  end.
Proof.
  intros [] (H1 & H2 & H3 & H4 & H5 & H6 & H7 & H8). cbn. split; [done|]. unfold write_locked. cbn.
  split_and!; try done.
  - split; cbn; try done; [by rewrite H4|by rewrite H5|by rewrite H4, H5, H7].
  - intros a Ha. unfold vol_data. cbn. rewrite H4. apply H8. unfold lba_of.
    rewrite Z.div_add_l by lia. lia.
Qed.

Lemma read_in_progress w lba w1 :
  in_progress w lba w1 -> exists s w2, read_sector lba w1 = (Ok s, w2) /\ in_progress w lba w2 /\
    cd_data (snd w2) ≡m cd_data (snd w1) /\
    (s = 0 -> sector (fst w2) = mem_read (cd_data (snd w1)) (lba * 512) 512).
Proof.
  destruct w1 as [r c]. intros (H1 & H2 & H3 & H4 & H5 & H6 & H7 & H8). cbn [fst snd] in *.
  unfold read_sector.
  pose proof (cd_read_frame c lba (sector r) H1 H2) as HF.
  pose proof (cd_read_ok c lba (sector r) H1 H2) as HO.
  destruct (cp32_sdcard_read lba (sector r) c) as [[s b] c'].
  destruct HF as (F1 & F2 & F3 & F4). exists s, (set_sector b r, c').
  split; [done|]. split; [|split; [done|intros Hs; apply (HO Hs)]].
  unfold in_progress. cbn. split_and!; try done; [congruence|]. intros a Ha. rewrite F2. auto.
Qed.

Lemma verify_in_progress w lba w1 :
  in_progress w lba w1 -> exists s w2, read_verify lba w1 = (Ok s, w2) /\ in_progress w lba w2 /\
    cd_data (snd w2) ≡m cd_data (snd w1) /\ sector (fst w2) = sector (fst w1) /\
    (s = 0 -> 0 <= lba < cp32_sdcard_sectors (snd w) /\ verify (fst w2) = mem_read (cd_data (snd w1)) (lba * 512) 512).
Proof.
  destruct w1 as [r c]. intros (H1 & H2 & H3 & H4 & H5 & H6 & H7 & H8). cbn [fst snd] in *.
  unfold read_verify.
  pose proof (cd_read_frame c lba (verify r) H1 H3) as HF.
  pose proof (cd_read_ok c lba (verify r) H1 H3) as HO.
  destruct (cp32_sdcard_read lba (verify r) c) as [[s b] c'].
  destruct HF as (F1 & F2 & F3 & F4). exists s, (set_verify b r, c').
  split; [done|]. split; [|split; [done|split; [done|intros Hs; rewrite <- H7; apply (HO Hs)]]].
  unfold in_progress. cbn. split_and!; try done; [congruence|]. intros a Ha. rewrite F2. auto.
Qed.

Lemma write_in_progress w lba w1 :
  in_progress w lba w1 -> exists s w2, write_sector lba w1 = (Ok s, w2) /\ in_progress w lba w2 /\ fst w2 = fst w1.
Proof.
  destruct w1 as [r c]. intros (H1 & H2 & H3 & H4 & H5 & H6 & H7 & H8). cbn [fst snd] in *.
  unfold write_sector. pose proof (cd_write_frame c lba (sector r) H1 H2) as HF.
  destruct (cp32_sdcard_write lba (sector r) c) as [s c']. destruct HF as (F1 & F2 & F3).
  exists s, (r, c'). split; [done|]. split; [|done].
  unfold in_progress. cbn. split_and!; try done; [congruence|]. intros a Ha. rewrite F3; auto.
Qed.

(** A verified sector is the old one with the new bytes in place. *)
Lemma verified_volume w w' offset bs :
  volume_start (fst w') = volume_start (fst w) -> 0 <= offset -> offset mod 512 + lenZ bs <= 512 ->
  (forall a, a / 512 <> lba_of w offset -> cd_data (snd w') a = cd_data (snd w) a) ->
  mem_read (cd_data (snd w')) (lba_of w offset * 512) 512 =
    splice (mem_read (cd_data (snd w)) (lba_of w offset * 512) 512) (offset mod 512) bs ->
  vol_data w' ≡m mem_write (vol_data w) offset bs.
Proof.
  intros Hs Ho Hle Hout Hin a. unfold vol_data at 1. rewrite Hs.
  pose proof (Z.mod_pos_bound offset 512 ltac:(lia)) as Hm. pose proof (lenZ_nonneg bs).
  pose proof (Z.div_mod offset 512 ltac:(lia)) as Hd. pose proof (Z.div_mod a 512 ltac:(lia)) as Hda.
  pose proof (Z.mod_pos_bound a 512 ltac:(lia)) as Hma.
  destruct (Z.eq_dec (a / 512) (offset / 512)) as [He|Hne].
  - set (j := a mod 512) in *. rewrite He in Hda.
    replace (volume_start (fst w) * 512 + a) with (lba_of w offset * 512 + j) by (unfold lba_of; lia).
    rewrite <- (nthZ_mem_read _ _ 512) by lia. rewrite Hin, nthZ_splice;
      [|lia|rewrite lenZ_mem_read; lia|lia].
    unfold mem_write, in_range. replace (offset <=? a) with (offset mod 512 <=? j) by lia.
    replace (a <? offset + lenZ bs) with (j <? offset mod 512 + lenZ bs) by lia.
    destruct (_ && _); [f_equal; lia|]. rewrite nthZ_mem_read by lia. unfold vol_data, lba_of. f_equal. lia.
  - rewrite mem_write_out; [|nia].
    apply Hout. unfold lba_of. rewrite Z.div_add_l by lia. lia.
Qed.

Lemma write_back_spec w offset bs w1 :
  root_ok w -> 0 <= offset -> offset mod 512 + lenZ bs <= 512 ->
  in_progress w (lba_of w offset) w1 ->
  sector (fst w1) = splice (mem_read (cd_data (snd w)) (lba_of w offset * 512) 512) (offset mod 512) bs ->
  match write_back (lba_of w offset) w1 with
  | (Ok s, w') => s = 0 /\ written w offset bs w'
  | (Err e, w') => e = -1 /\ write_locked w offset w'
  end.
Proof.
  intros Hw Ho Hle P1 Hsec. pose proof (write_failure_spec (A := Z) w offset) as HFail.
  unfold write_back. unfold bind at 1.
  destruct (write_in_progress _ _ _ P1) as (s & w2 & -> & P2 & E2). cbv beta iota.
  destruct (truthy s); [by apply HFail|]. unfold bind at 1.
  destruct (verify_in_progress _ _ _ P2) as (s' & w3 & -> & P3 & D3 & E3 & V3). cbv beta iota.
  destruct (truthy s') eqn:Hs'; [by apply HFail|]. apply truthy_false in Hs'.
  destruct (V3 Hs') as (Hlba & Hver). unfold bind at 1, getr, gets. cbv beta iota.
  pose proof P3 as (Q1 & Q2 & Q3 & Q4 & Q5 & Q6 & Q7 & Q8).
  destruct (same_bytes (sector (fst w3)) (verify (fst w3))) eqn:Hsame; [|by apply HFail].
  apply same_bytes_spec in Hsame; [|done..]. cbn. split; [done|].
  assert (Hstored : sector (fst w3) = mem_read (cd_data (snd w3)) (lba_of w offset * 512) 512)
    by (rewrite Hsame, Hver; by rewrite D3).
  unfold written. cbn. split_and!; try done.
  - destruct Hw. split; cbn; try done; [by rewrite Q4|by rewrite Q5|by rewrite Q4, Q5, Q7].
  - apply (verified_volume w (_, _) offset bs); cbn; try done.
    rewrite <- Hstored, E3, E2. exact Hsec.
Qed.

Lemma root_write_spec w offset p bytes n :
  root_ok w -> 0 <= offset -> 0 <= n <= lenZ bytes ->
  match cp32_root_write offset p bytes n w with
  | (Ok s, w') => s = 0 /\ write_allowed (fst w) offset p n /\ written w offset (take (Z.to_nat n) bytes) w'
  | (Err e, w') => e = -1 /\ ((~ write_allowed (fst w) offset p n /\ w' = w) \/
      (write_allowed (fst w) offset p n /\ n <> 0 /\ write_locked w offset w'))
  end.
Proof.
  intros Hw Ho Hn. pose proof (ro_capacity _ Hw) as Hc. unfold cp32_root_write.
  unfold bind at 1. unfold getr at 1, gets at 1. cbv beta iota.
  unfold bind at 1. unfold getr at 1, gets at 1. cbv beta iota.
  assert (Hwr : write_allowed (fst w) offset p n <->
    (negb (cp32_root_writable (fst w)) || (capacity (fst w) <? offset) || (capacity (fst w) -u offset <? n) ||
     (512 - offset mod 512 <? n) || (truthy n && (p =? 0))) = false).
  { unfold write_allowed, fits, truthy. destruct (Z.leb_spec offset (capacity (fst w))).
    - rewrite wrap32_small by lia. destruct (cp32_root_writable (fst w)); lia.
    - split; [lia|]. replace (capacity (fst w) <? offset) with true by lia. rewrite orb_true_r. done. }
  unfold guard. destruct (_ || _) eqn:Hg; cbn [bind].
  { cbn. split; [done|]. left. split; [|done]. intros HA%Hwr. congruence. }
  assert (HA : write_allowed (fst w) offset p n) by (by apply Hwr). clear Hg Hwr.
  pose proof HA as (Hwt & (_ & _ & Hfit) & Hone & _).
  assert (Hwf : write_failed (fst w) = 0).
  { unfold cp32_root_writable in Hwt. apply andb_true_iff in Hwt as [_ Hx].
    apply negb_true_iff in Hx. by apply truthy_false in Hx. }
  unfold bind at 1, ret at 1. cbv beta iota.
  set (bs := take (Z.to_nat n) bytes).
  assert (Hbs : lenZ bs = n) by (subst bs; unfold lenZ in *; rewrite length_take; lia).
  destruct (Z.eqb_spec n 0) as [->|Hn0].
  { cbn. split; [done|]. split; [done|]. unfold written. subst bs.
    change (Z.to_nat 0) with O. rewrite take_0, mem_write_nil. by split_and!. }
  assert (P0 : in_progress w (lba_of w offset) (set_cached 0 (fst w), snd w)) by (destruct Hw; by split_and!).
  assert (Hlba : volume_start (fst w) +u offset / 512 = lba_of w offset).
  { apply wrap32_small. change (0 <= lba_of w offset < 4294967296).
    pose proof (lba_bound w offset Hw ltac:(lia)). lia. }
  pose proof (write_failure_spec (A := Z) w offset) as HFail.
  unfold bind at 1, modr at 1, modify at 1. cbv beta iota.
  unfold bind at 1, getr at 1, gets at 1. cbn [fst snd volume_start set_cached]. rewrite Hlba.
  unfold bind at 1.
  destruct (read_in_progress _ _ _ P0) as (s & w1 & -> & P1 & D1 & S1). cbn [fst snd] in *.
  destruct (truthy s) eqn:Hs; cbv beta iota.
  { specialize (HFail w1 Hw P1). destruct (write_failure w1) as [[e|x] w']; [|done].
    destruct HFail. split; [done|]. right. by split_and!. }
  apply truthy_false in Hs. specialize (S1 Hs).
  unfold bind at 1, modr at 1, modify at 1. cbv beta iota.
  set (w2 := (_, snd w1)). assert (P2 : in_progress w (lba_of w offset) w2).
  { destruct P1 as (Q1 & Q2 & Q3 & Q4 & Q5 & Q6 & Q7 & Q8). subst w2. unfold in_progress. cbn.
    split_and!; try done. pose proof (Z.mod_pos_bound offset 512 ltac:(lia)).
    rewrite length_splice; [done|lia|]. unfold lenZ at 2. rewrite Q2. unfold bs in *. lia. }
  pose proof (write_back_spec w offset bs w2 Hw Ho ltac:(lia) P2) as HB. subst w2. cbn [fst snd] in HB.
  specialize (HB ltac:(cbn; by rewrite S1)).
  destruct (write_back _ _) as [[e|x] w']; destruct HB; [split; [done|]; right; by split_and!|by split_and!].
Qed.

(** ** The volume as storage *)
Lemma root_read_ok w offset out n :
  root_ok w -> 0 <= offset -> 0 <= n ->
  match cp32_root_read offset out n w with
  | (Ok bs, w') => serving w w' /\ fits (fst w) offset n /\ bs = mem_read (vol_data w) offset n
  | (Err e, w') => serving w w' /\ e = -1 /\
      (card_reliable -> ~ (fits (fst w) offset n /\ capacity (fst w) <> 0 /\ (n = 0 \/ out <> 0)))
  end.
Proof.
  intros Hw Ho Hn. pose proof (ro_capacity _ Hw) as Hc.
  assert (HD : (fits (fst w) offset n /\ capacity (fst w) <> 0 /\ (n = 0 \/ out <> 0)) \/
    (negb (truthy (capacity (fst w))) || (capacity (fst w) <? offset) ||
     (capacity (fst w) -u offset <? n) || (truthy n && (out =? 0))) = true).
  { unfold fits, truthy. destruct (Z.leb_spec offset (capacity (fst w))).
    - rewrite wrap32_small by lia. lia. - right. lia. }
  destruct HD as [(Hf & Hne & Hnn)|Hg].
  - pose proof (root_read_spec w offset out n Hw Hf Hne Hnn w ltac:(by split)) as H.
    destruct (cp32_root_read offset out n w) as [[e|bs] w'].
    + destruct H as (? & -> & ?). by split_and!. + destruct H as [? ->]. by split_and!.
  - unfold cp32_root_read. unfold bind at 1, getr, gets. cbv beta iota. unfold bind at 1, guard.
    rewrite Hg. cbn. split_and!; try done. unfold fits, truthy in *. intros _ (Hf & Hne & Hnn).
    rewrite wrap32_small in Hg by lia. lia.
Qed.

(** The open volume [w0] as storage of the file system. *)
Program Definition volume_spec (w0 : root * C) : DiskSpec (root * C) VOLUME_READ 0 (capacity (fst w0)) := {|
  dk_data := vol_data; dk_coh := serving w0; dk_clean := serving w0 |}.
Next Obligation. done. Qed.
Next Obligation. intros. apply cd_byte. Qed.
Next Obligation. done. Qed.
Next Obligation. done. Qed.
Next Obligation.
  intros w0 w off n Hw. cbn. destruct (Z.leb_spec 0 off); cbn; [|done]. unfold volume_read.
  destruct (Z.ltb_spec n 0); [done|].
  pose proof (root_read_ok w off nonnull n (proj1 Hw) ltac:(lia) ltac:(lia)) as HR.
  pose proof (proj2 Hw) as Hs0.
  destruct (cp32_root_read off nonnull n w) as [[e|bs] w']; destruct HR as [[H1' Hs1] _];
    (split; [split; [done|by etransitivity]|apply Hs1]).
Qed.
Next Obligation.
  intros w0 w off n Hw Hn. cbn. destruct (Z.leb_spec 0 off); cbn; [|lia]. unfold volume_read.
  destruct (Z.ltb_spec n 0); [lia|].
  pose proof (root_read_ok w off nonnull n (proj1 Hw) ltac:(lia) ltac:(lia)) as HR.
  pose proof (proj2 Hw) as (_ & Hc & _).
  destruct (cp32_root_read off nonnull n w) as [[e|bs] w']; [lia|]. intros _. destruct HR as (_ & Hf & ->).
  unfold fits in Hf. rewrite Hc in Hf. split_and!; try done; lia.
Qed.
Next Obligation. done. Qed.
Next Obligation. intros w0 w off bs ? ? ?. cbn. pose proof (lenZ_nonneg bs). lia. Qed.
Next Obligation. done. Qed.
Next Obligation. intros w0 w. cbn. unfold is_u32. lia. Qed.

Lemma volume_reliable w0 :
  card_reliable -> reliable (rd := VOLUME_READ) (wr := 0) (cap := capacity (fst w0)) (SPEC := volume_spec w0).
Proof.
  intros Hrel w off n Hw Ho Hn Hle. cbn. replace (0 <=? off) with true by lia. cbn. unfold volume_read.
  destruct (Z.ltb_spec n 0); [lia|].
  pose proof (root_read_ok w off nonnull n (proj1 Hw) ltac:(lia) ltac:(lia)) as HR.
  destruct Hw as [Hw (_ & Hc & _)].
  destruct (cp32_root_read off nonnull n w) as [[e|bs] w']; [|done]. exfalso.
  destruct HR as (_ & _ & HR). apply (HR Hrel). unfold fits. rewrite Hc. split_and!; lia || by right.
Qed.

Lemma run_super_spec w0 :
  root_ok w0 ->
  match run_super (capacity (fst w0)) w0 with
  | (Ok s, w) => serving w0 w /\ s = super_of (vol_data w0) /\ volume_ok (capacity (fst w0)) (vol_data w0)
  | (Err e, w) => serving w0 w /\ (card_reliable -> ~ volume_ok (capacity (fst w0)) (vol_data w0))
  end.
Proof.
  intros Hw. pose proof (ro_capacity _ Hw). unfold run_super.
  pose proof (super_read_reads (SPEC := volume_spec w0) (vol_data w0) (fs_statics (boot_fsw w0))
    (capacity (fst w0)) nonnull ltac:(intros; apply cd_byte) ltac:(lia) (boot_fsw w0)) as HR.
  destruct (cp32_minix_super_read _ _ _ _) as [[e|s] w'].
  - destruct HR as [((Hw' & _) & _) (_ & HR)]; [by split_and!|]. split; [done|].
    intros Hrel. apply HR; [by apply volume_reliable|lia|done|done].
  - destruct HR as [((Hw' & _) & _) (-> & HR)]; [by split_and!|]. by split_and!.
Qed.

(** ** Choosing the volume

    [boot] is the boot sector and [total] the number of sectors of the card. *)
Definition has_table (boot : list Z) : bool := (nthZ boot 510 =? 0x55) && (nthZ boot 511 =? 0xaa).
Definition entry (boot : list Z) (i : Z) : list Z := ptr_add boot (446 + i * 16).
Definition is_minix (boot : list Z) (i : Z) : Prop := nthZ (entry boot i) 4 = 0x81.
Definition e_start (boot : list Z) (i : Z) : Z := le32 (ptr_add (entry boot i) 8).
Definition e_length (boot : list Z) (i : Z) : Z := le32 (ptr_add (entry boot i) 12).
Definition legal_entry (boot : list Z) (total i : Z) : Prop :=
  (nthZ (entry boot i) 0 = 0 \/ nthZ (entry boot i) 0 = 0x80) /\ e_start boot i <> 0 /\
  4 <= e_length boot i /\ e_start boot i + e_length boot i <= total.

(** The only MINIX entry of a partition table, or the whole card. *)
Definition selects (boot : list Z) (total start length found : Z) : Prop :=
  if has_table boot then
    exists i, 0 <= i < 4 /\ is_minix boot i /\ (forall j, 0 <= j < 4 -> is_minix boot j -> j = i) /\
      legal_entry boot total i /\ start = e_start boot i /\ length = e_length boot i /\ found = 1
  else start = 0 /\ length = total /\ found = 0.

(** After the entries below [j]. *)
Definition scanned (boot : list Z) (total j : Z) (st : Z * Z * Z) : Prop :=
  (st = (0, total, 0) /\ forall i, 0 <= i < j -> ~ is_minix boot i) \/
  exists i, 0 <= i < j /\ is_minix boot i /\ (forall k, 0 <= k < j -> is_minix boot k -> k = i) /\
    legal_entry boot total i /\ st = (e_start boot i, e_length boot i, 1).

Lemma partition_turn_spec total j st (w1 : root * C) :
  has_table (sector (fst w1)) = true -> 0 <= j < 4 ->
  hoare (fun w => w = w1 /\ scanned (sector (fst w1)) total j st) (partition_turn total j st)
    (fun st w => w = w1 /\ scanned (sector (fst w1)) total (j + 1) st)
    (fun e w => w = w1 /\ e = -6 /\ forall s l f, ~ selects (sector (fst w1)) total s l f).
Proof.
  intros Hb Hj w [-> Hst]. destruct st as [[start length] found]. set (boot := sector (fst w1)) in *.
  unfold partition_turn, bind at 1, getr, gets. cbv beta iota.
  change (ptr_add (sector (fst w1)) (446 + j * 16)) with (entry boot j).
  destruct (Z.eqb_spec (nthZ (entry boot j) 4) 0x81) as [Hm|Hm].
  2: { cbn. split; [done|]. destruct Hst as [[Hst Hno]|(i & Hi & Hmi & Hu & Hl & Hst)].
    - left. split; [done|]. intros i Hi Hmi. destruct (Z.eq_dec i j) as [->|]; [done|]. apply (Hno i); [lia|done].
    - right. exists i. split_and!; try done; try lia. intros k Hk Hmk. apply Hu; [|done].
      destruct (Z.eq_dec k j) as [->|]; [done|lia]. }
  set (bad := (found + 1 !=? 1) || _). set (bad' := (le32 _ =? 0) || _ || _).
  assert (Hsel : forall s l f, bad = true \/ bad' = true -> ~ selects boot total s l f).
  { intros s l f Hbad. unfold selects. rewrite Hb. intros (i & Hi & Hmi & Hu & Hl & _).
    assert (Ei : j = i) by (apply Hu; [lia|exact Hm]). subst i. destruct Hl as (L1 & L2 & L3 & L4).
    unfold e_start, e_length in *. assert (Hf : found = 0).
    { destruct Hst as [[Hst _]|(i & Hi' & Hmi' & _)]; [by inversion Hst|].
      assert (i = j) by (apply Hu; [lia|done]). lia. }
    subst bad bad'. lia. }
  unfold bind at 1, guard at 1. destruct bad eqn:Eb; cbv beta iota.
  { cbn. split_and!; try done. intros. apply Hsel. by left. }
  unfold bind at 1, guard at 1. destruct bad' eqn:Eb'; cbv beta iota.
  { cbn. split_and!; try done. intros. apply Hsel. by right. }
  cbn. split; [done|]. right. exists j. subst bad bad'.
  assert (Hf : found = 0) by lia. subst found.
  destruct Hst as [[Hst Hno]|(i & _ & _ & _ & _ & Hst)]; [|by inversion Hst].
  unfold legal_entry, e_start, e_length. split_and!; try done; try lia.
  intros k Hk Hmk. destruct (Z.eq_dec k j) as [->|]; [done|]. exfalso. apply (Hno k); [lia|done].
Qed.

Lemma choose_volume_spec total (w1 : root * C) :
  match choose_volume total w1 with
  | (Ok (s, l, f), w) => w = w1 /\ selects (sector (fst w1)) total s l f
  | (Err e, w) => w = w1 /\ e = -6 /\ forall s l f, ~ selects (sector (fst w1)) total s l f
  end.
Proof.
  unfold choose_volume, bind at 1, getr, gets. cbv beta iota.
  change ((nthZ (sector (fst w1)) 510 =? 0x55) && (nthZ (sector (fst w1)) 511 =? 0xaa)) with (has_table (sector (fst w1))).
  destruct (has_table (sector (fst w1))) eqn:Hb; [|cbn; split; [done|]; unfold selects; by rewrite Hb].
  pose proof (hoare_for (fun j st w => w = w1 /\ scanned (sector (fst w1)) total j st) 4 0 (partition_turn total)
    (fun e w => w = w1 /\ e = -6 /\ forall s l f, ~ selects (sector (fst w1)) total s l f) (0, total, 0)
    ltac:(intros j st Hj; by apply partition_turn_spec)) as HF.
  unfold bind at 1. specialize (HF w1).
  destruct (for_ 4 0 (partition_turn total) (0, total, 0) w1) as [[e|[[s l] f]] w].
  - apply HF. split; [done|]. left. split; [done|]. intros. lia.
  - destruct HF as [-> HF]; [split; [done|]; left; split; [done|intros; lia]|].
    unfold bind, guard. cbn [snd]. destruct HF as [[E Hno]|(i & Hi & Hm & Hu & Hl & E)]; inversion E; subst.
    + cbn. split_and!; try done. unfold selects. rewrite Hb. intros s l f (i & Hi & Hm & _).
      by apply (Hno i); [lia|].
    + cbn. split; [done|]. unfold selects. rewrite Hb. exists i. split_and!; done || lia.
Qed.

(** *** Mounting *)

(** The first [length] sectors from [start], as far as positions reach. *)
Definition span (length : Z) : Z := Z.min length MAX_SECTORS * 512.
Definition part (w : root * C) (start : Z) : mem := fun a => cd_data (snd w) (start * 512 + a).

(** The volume that [cp32_root_init] leaves open. *)
Definition mounted (boot : list Z) (total : Z) (w w' : root * C) : Prop :=
  root_ok w' /\ cd_data (snd w') ≡m cd_data (snd w) /\ write_failed (fst w') = 0 /\ cached (fst w') = 0 /\
  exists length found, selects boot total (volume_start (fst w')) length found /\
    (found = 1 -> length <= MAX_SECTORS) /\ volume_ok (span length) (vol_data w') /\
    let s := super_of (vol_data w') in
    capacity (fst w') = if found =? 1 then length * 512 else s_zones s * zone_bytes s.

(** No volume is open, so every request is refused. *)
Definition closed (w w' : root * C) : Prop :=
  root_ok w' /\ capacity (fst w') = 0 /\ cd_data (snd w') ≡m cd_data (snd w).

Definition mount_refused (boot : list Z) (total : Z) (w : root * C) (e : Z) : Prop :=
  exists start length found, selects boot total start length found /\
    ((e = -7 /\ found = 1 /\ MAX_SECTORS < length) \/ (e = -8 /\ ~ volume_ok (span length) (part w start))).

Lemma selects_range boot total start length found :
  (forall i, 0 <= nthZ boot i) -> 4 <= total -> selects boot total start length found ->
  0 <= start /\ 4 <= length /\ start + length <= total /\ (found = 0 \/ found = 1).
Proof.
  unfold selects. intros Hb Ht. destruct (has_table boot).
  - intros (i & Hi & _ & _ & (_ & _ & H1 & H2) & -> & -> & ->). split_and!; try lia.
    unfold e_start, le32. rewrite !Z.lor_nonneg, !Z.shiftl_nonneg. unfold entry.
    rewrite !nthZ_ptr_add by lia. split_and!; try apply Hb. apply (proj1 (wrap32_range _)).
  - intros (-> & -> & ->). lia.
Qed.

Lemma same_medium (w w' : root * C) :
  same_volume w w' -> cd_data (snd w') ≡m cd_data (snd w).
Proof.
  intros (E & _ & _ & _ & H) a. specialize (H (a - volume_start (fst w) * 512)).
  unfold vol_data in H. rewrite E in H.
  by replace (volume_start (fst w) * 512 + (a - volume_start (fst w) * 512)) with a in H by lia.
Qed.

Lemma super_of_ext d d' : d' ≡m d -> super_of d = super_of d'.
Proof.
  intros H. unfold super_of, super_magic.
  by replace (mem_read d' 1024 24) with (mem_read d 1024 24) by (by rewrite H).
Qed.

Lemma volume_ok_ext cap d d' : d' ≡m d -> volume_ok cap d -> volume_ok cap d'.
Proof.
  intros H. unfold volume_ok, super_magic. rewrite (super_of_ext d d' H).
  by replace (mem_read d' 1024 24) with (mem_read d 1024 24) by (by rewrite H).
Qed.

(** The size that a raw volume gets from its superblock. *)
Lemma mounted_size cap d :
  volume_ok cap d -> cap < 2147483648 ->
  let s := super_of d in
  s_zones s *u (1024 <<u s_log_zone_size s) = s_zones s * zone_bytes s /\
  0 <= s_zones s * zone_bytes s <= cap.
Proof.
  intros [_ W] Hc s. fold s in W. pose proof (wf_log _ _ W) as Hl. pose proof (wf_zones _ _ W).
  pose proof (wf_first _ _ W). pose proof (zone_bytes_range s Hl).
  rewrite zone_bytes_shift by done. split; [apply wrap32_small|]; nia.
Qed.

#[local] Opaque super_of.
Lemma open_volume_spec boot total (w1 : root * C) st :
  root_ok w1 -> capacity (fst w1) = 0 -> cached (fst w1) = 0 -> write_failed (fst w1) = 0 ->
  (forall i, 0 <= nthZ boot i) -> 4 <= total -> total = cp32_sdcard_sectors (snd w1) ->
  (let '(s, l, f) := st in selects boot total s l f) ->
  match open_volume st w1 with
  | (Ok _, w') => mounted boot total w1 w'
  | (Err e, w') => closed w1 w' /\ (card_reliable -> mount_refused boot total w1 e)
  end.
Proof.
  destruct st as [[start length] found]. intros Hw Hc0 Hca Hwf Hb Ht Hsec Hsel.
  destruct (selects_range _ _ _ _ _ Hb Ht Hsel) as (S1 & S2 & S3 & S4).
  unfold open_volume, bind at 1, guard at 1. unfold truthy.
  destruct ((MAX_SECTORS <? length) && (found !=? 0)) eqn:Hbig; cbv beta iota.
  { cbn. split; [by split_and!|]. intros _. exists start, length, found. split; [done|]. left. lia. }
  unfold bind at 1, ret at 1. cbv beta iota zeta.
  replace (if MAX_SECTORS <? length then MAX_SECTORS else length) with (Z.min length MAX_SECTORS)
    by (destruct (Z.ltb_spec MAX_SECTORS length); lia).
  assert (Hmax : MAX_SECTORS = 4194303) by reflexivity.
  rewrite (wrap32_small (Z.min _ _)) by lia. rewrite wrap32_small by lia.
  fold (span length). unfold bind at 1, modr at 1, modify at 1. cbv beta iota.
  set (w2 := (set_volume start (span length) (fst w1), snd w1)).
  assert (H2 : root_ok w2).
  { destruct Hw. subst w2. unfold span. split; cbn; try done; lia. }
  unfold bind at 1, getr at 1, gets at 1. cbv beta iota. change (span length) with (capacity (fst w2)).
  unfold bind at 1, try at 1. pose proof (run_super_spec w2 H2) as HR.
  destruct (run_super (capacity (fst w2)) w2) as [[e|s] w3]; cbv beta iota;
    destruct HR as [[H3 (E1 & E2 & E3 & E4 & E5)] HR];
    pose proof (same_medium w2 w3 ltac:(by split_and!)) as HM; cbn in HM.
  - cbn. split.
    + split; [|split; [done|exact HM]]. destruct H3. split; cbn; try done; cbn in E1, E4; lia.
    + intros Hrel. exists start, length, found. split; [done|]. right. split; [done|]. apply (HR Hrel).
  - destruct HR as (-> & Hok). change (capacity (fst w2)) with (span length) in Hok.
    assert (Hvol : volume_ok (span length) (vol_data w3)) by (by apply (volume_ok_ext _ (vol_data w2))).
    rewrite (super_of_ext (vol_data w2) (vol_data w3)) by done.
    pose proof (mounted_size _ _ Hvol ltac:(unfold span; lia)) as (Z1 & Z2). cbn in E1, E2, E3, E4.
    assert (Hfound : found = 1 -> length <= MAX_SECTORS) by lia.
    assert (HV : forall cp, vol_data (set_cached 0 (set_volume (volume_start (fst w3)) cp (fst w3)), snd w3) = vol_data w3) by done.
    assert (Hwf3 : write_failed (fst w3) = 0) by (by rewrite E3).
    destruct H3. cbn. destruct (Z.eqb_spec found 0) as [->|Hf]; cbn.
    + rewrite Z1. split; [split; cbn; try done; unfold span in *; lia|].
      split; [done|]. split; [done|]. split; [done|]. exists length, 0. cbn. rewrite HV, E1. by split_and!.
    + assert (found = 1) as -> by lia. split; [split; cbn; try done; unfold span in *; lia|].
      split; [done|]. split; [done|]. split; [done|]. exists length, 1. cbn. rewrite E1, E2.
      change (vol_data (set_cached 0 (fst w3), snd w3)) with (vol_data w3).
      split_and!; try done. unfold span. lia.
Qed.

Lemma boot_bytes c i : 0 <= nthZ (mem_read (cd_data c) 0 512) i.
Proof.
  destruct (Z.lt_ge_cases i 512); [|by rewrite nthZ_oob by (rewrite lenZ_mem_read; lia)].
  destruct (Z.lt_ge_cases i 0).
  - replace (nthZ _ i) with (nthZ (mem_read (cd_data c) 0 512) 0) by (unfold nthZ; f_equal; lia).
    rewrite nthZ_mem_read by lia. apply cd_byte.
  - rewrite nthZ_mem_read by lia. apply cd_byte.
Qed.

Lemma mount_refused_ext boot total w w' e :
  cd_data (snd w) ≡m cd_data (snd w') -> mount_refused boot total w e -> mount_refused boot total w' e.
Proof.
  intros Hd (s & l & f & H & Hr). exists s, l, f. split; [done|]. destruct Hr as [Hr|[-> Hr]]; [by left|right].
  split; [done|]. intros Hv. apply Hr. eapply volume_ok_ext; [|exact Hv]. intros a. apply Hd.
Qed.

(** ** Properties *)

(** C21: [cp32_root_init] opens exactly what it should.  Whatever the card
    holds, a success leaves open the only MINIX partition of a partition table,
    inside the card, or the volume of a card without a table, never another
    partition; it holds a file system and every open byte is on the card.  A
    failure leaves nothing open and, with a card that answers, has one of the
    stated reasons.  The medium is not written. *)
Theorem root_init_exact (w : root * C) :
  cd_inv (snd w) -> length (sector (fst w)) = 512%nat -> length (verify (fst w)) = 512%nat ->
  let (s1, c1) := cp32_sdcard_init (snd w) in
  let boot := mem_read (cd_data (snd w)) 0 512 in
  let total := cp32_sdcard_sectors c1 in
  match cp32_root_init w with
  | (Ok _, w') => mounted boot total w w'
  | (Err e, w') => closed w w' /\
      (card_reliable -> (s1 <> 0 /\ e = s1) \/ (e = -5 /\ total < 4) \/
         (e = -6 /\ forall s l f, ~ selects boot total s l f) \/ mount_refused boot total w e)
  end.
Proof.
  intros Hi Hs Hv. pose proof (cd_init (snd w) Hi) as HI. unfold cp32_root_init, modr.
  rewrite bind_modify. unfold bind at 1.
  destruct (cp32_sdcard_init (snd w)) as [s1 c1]. destruct HI as [Hi1 Hd1]. cbv beta iota zeta.
  set (w1 := (set_write_failed 0 (set_volume 0 0 (set_cached 0 (fst w))), c1)).
  assert (H1 : root_ok w1) by (pose proof (cd_sectors c1 Hi1); split; cbn; done || lia).
  rewrite bind_guard. destruct (truthy s1) eqn:Hs1.
  { split; [by split_and!|]. intros _. left. by apply truthy_true in Hs1. }
  rewrite bind_gets, bind_guard. cbn [snd w1].
  destruct (Z.ltb_spec (cp32_sdcard_sectors c1) 4) as [Hsmall|Hbig].
  { split; [by split_and!|]. intros _. right. left. done. }
  unfold bind at 1.
  destruct (read_sector_spec 0 w1 H1) as (s & w2 & -> & R1 & R2 & R3 & R4 & R5 & R6 & R7). cbn [fst snd] in *.
  assert (F : volume_start (fst w2) = 0 /\ capacity (fst w2) = 0 /\ cached (fst w2) = 0 /\
    write_failed (fst w2) = 0 /\ verify (fst w2) = verify (fst w)) by (by rewrite R1).
  destruct F as (F1 & F2 & F3 & F4 & F5).
  assert (H2 : root_ok w2).
  { destruct H1. split; rewrite ?F1, ?F2, ?F3, ?F5; try done. rewrite R5. cbn in *. lia. }
  assert (Hcl : closed w w2) by (split; [done|]; split; [done|]; by rewrite R4).
  rewrite bind_guard. destruct (truthy s) eqn:Hsr.
  { split; [done|]. intros Hrel. apply truthy_true in Hsr. exfalso. apply Hsr, R7; [done|]. cbn. lia. }
  apply truthy_false in Hsr. destruct (R6 Hsr) as [_ Hboot]. cbn in Hboot. rewrite Hd1 in Hboot.
  unfold bind at 1. pose proof (choose_volume_spec (cp32_sdcard_sectors c1) w2) as HC. rewrite Hboot in HC.
  destruct (choose_volume _ w2) as [[e|[[st l] f]] w3].
  { destruct HC as (-> & -> & HC). split; [done|]. intros _. right. right. by left. }
  destruct HC as [-> HC].
  pose proof (open_volume_spec (mem_read (cd_data (snd w)) 0 512) (cp32_sdcard_sectors c1) w2 (st, l, f) H2) as HO.
  specialize (HO F2 F3 F4 (boot_bytes _) ltac:(lia) ltac:(by rewrite R5) HC).
  assert (Hdd : cd_data (snd w2) ≡m cd_data (snd w)) by (by rewrite R4).
  destruct (open_volume _ _) as [[e|x] w']; cbv beta iota.
  - destruct HO as [(C1 & C2 & C3) HO]. split; [split; [done|split; [done|by rewrite C3]]|].
    intros Hrel. right. right. right. by apply (mount_refused_ext _ _ w2), HO.
  - destruct HO as (O1 & O2 & O3). split; [done|]. by split; [rewrite O2|].
Qed.

(** C22: [cp32_root_write] stores what it acknowledges.  It answers 0 only for
    bytes inside one sector of the open volume, and then the card, read back,
    holds exactly the old volume with the new bytes in place, whatever the
    card's answer to the write was worth.  A request it may not carry out changes
    nothing; after any other failure at most the bytes of that sector differ,
    nothing staged is served, and the volume accepts no write any more. *)
Theorem root_write_exact (w : root * C) offset p bytes n :
  root_ok w -> 0 <= offset -> 0 <= n <= lenZ bytes ->
  match cp32_root_write offset p bytes n w with
  | (Ok s, w') => s = 0 /\ write_allowed (fst w) offset p n /\ written w offset (take (Z.to_nat n) bytes) w'
  | (Err e, w') => e = -1 /\ ((~ write_allowed (fst w) offset p n /\ w' = w) \/
      (write_allowed (fst w) offset p n /\ n <> 0 /\ write_locked w offset w'))
  end.
Proof. apply root_write_spec. Qed.
End Proofs.

(** ** A card in memory

    [mc_sectors] sectors of which the first [mc_bad] bytes cannot be written:
    a write there is acknowledged and lost. *)
Record memcard := MemCard { mc_bytes : mem; mc_sectors : Z; mc_bad : Z }.

Definition mc_data (c : memcard) : mem := fun a => wrap8 (mc_bytes c a).
Definition has_sector (c : memcard) (lba : Z) : bool := (0 <=? lba) && (lba <? mc_sectors c).

#[export] Instance memcard_card : Card memcard := {
  cp32_sdcard_init := fun c => (0, c);
  cp32_sdcard_sectors := mc_sectors;
  cp32_sdcard_read := fun lba b c =>
    if has_sector c lba then ((0, mem_read (mc_data c) (lba * 512) 512), c) else ((-1, b), c);
  cp32_sdcard_write := fun lba b c =>
    if has_sector c lba
    then (0, MemCard (if lba * 512 <? mc_bad c then mc_bytes c else mem_write (mc_bytes c) (lba * 512) b)
                     (mc_sectors c) (mc_bad c))
    else (-1, c);
  cp32_sdcard_sync := fun c => (0, c) }.

#[export] Program Instance memcard_spec : CardSpec memcard := {
  cd_data := mc_data;
  cd_inv := fun c => 0 <= mc_sectors c <= 4294967296 }.
Next Obligation. intros. apply wrap8_range. Qed.
Next Obligation. done. Qed.
Next Obligation. done. Qed.
Next Obligation.
  intros c lba b Hc Hb. cbn. destruct (has_sector c lba); [|done]. by rewrite length_mem_read.
Qed.
Next Obligation.
  intros c lba b Hc Hb. cbn. unfold has_sector. destruct (Z.leb_spec 0 lba), (Z.ltb_spec lba (mc_sectors c)); cbn;
    lia || (split; [lia|done]).
Qed.
Next Obligation.
  intros c lba b Hc Hb. cbn. destruct (has_sector c lba); [|done]. split; [exact Hc|]. split; [done|].
  intros a Ha. unfold mc_data. cbn. destruct (_ <? _); [done|]. rewrite mem_write_out; [done|].
  unfold lenZ. rewrite Hb. Z.div_mod_to_equations. lia.
Qed.
Next Obligation. done. Qed.

Lemma memcard_reliable : card_reliable (C := memcard).
Proof.
  intros c lba b Hc Hl. change (0 <= lba < mc_sectors c) in Hl. cbn. unfold has_sector.
  by replace ((0 <=? lba) && (lba <? mc_sectors c)) with true by lia.
Qed.

(** A card of 200 sectors with two partitions; the second, of type 0x81 from
    sector 64, is the demonstration volume. *)
Module CardDemo.
Definition table : list Z :=
  [0; 0; 0; 0; 12; 0; 0; 0; 1; 0; 0; 0; 32; 0; 0; 0;
   128; 0; 0; 0; 129; 0; 0; 0; 64; 0; 0; 0; 128; 0; 0; 0].
Definition chunks : list (Z * list Z) :=
  (446, table) :: (510, [0x55; 0xaa]) :: map (fun '(at_, bs) => (at_ + 32768, bs)) Demo.volume.
Definition card : memcard := MemCard (image chunks) 200 0.
Definition worn : memcard := MemCard (image chunks) 200 102400.
Definition boot (c : memcard) : root * memcard := (boot_root, c).
Definition opened (c : memcard) : root * memcard := snd (cp32_root_init (boot c)).
End CardDemo.

Lemma demo_boot_state c :
  0 <= mc_sectors c <= 4294967296 ->
  cd_inv (snd (CardDemo.boot c)) /\ length (sector (fst (CardDemo.boot c))) = 512%nat /\
  length (verify (fst (CardDemo.boot c))) = 512%nat.
Proof. done. Qed.

Lemma root_init_exact_witness :
  fst (cp32_root_init (CardDemo.boot CardDemo.card)) = Ok tt /\
  volume_start (fst (CardDemo.opened CardDemo.card)) = 64 /\
  capacity (fst (CardDemo.opened CardDemo.card)) = 65536 /\
  fst (cp32_root_init (CardDemo.boot (MemCard (image (tail CardDemo.chunks)) 200 0))) = Err (-6) /\
  mounted (mem_read (mc_data CardDemo.card) 0 512) 200 (CardDemo.boot CardDemo.card) (CardDemo.opened CardDemo.card).
Proof.
  assert (G : forall c, 0 <= mc_sectors c <= 4294967296 -> fst (cp32_root_init (CardDemo.boot c)) = Ok tt ->
    mounted (mem_read (mc_data c) 0 512) (mc_sectors c) (CardDemo.boot c) (CardDemo.opened c)).
  { intros c Hc Hd. destruct (demo_boot_state c Hc) as (D1 & D2 & D3).
    pose proof (root_init_exact (CardDemo.boot c) D1 D2 D3) as H. unfold CardDemo.opened.
    cbv beta iota zeta delta [cp32_sdcard_init memcard_card] in H.
    destruct (cp32_root_init (CardDemo.boot c)) as [r w]. cbn [fst] in Hd. subst r. exact H. }
  assert (Hd : fst (cp32_root_init (CardDemo.boot CardDemo.card)) = Ok tt) by (vm_compute; reflexivity).
  split; [exact Hd|]. split; [vm_compute; reflexivity|]. split; [vm_compute; reflexivity|].
  split; [vm_compute; reflexivity|]. exact (G CardDemo.card ltac:(cbn; lia) Hd).
Defined.

(** Writing 7 bytes into the open volume; on the worn card the write is
    acknowledged, found missing, and closes the volume for writing. *)
Lemma root_write_exact_witness :
  let w := CardDemo.opened CardDemo.card in
  let v := CardDemo.opened CardDemo.worn in
  let bytes := [112; 101; 114; 115; 105; 115; 116] in
  root_ok w /\
  (let (r, w') := cp32_root_write 7177 nonnull bytes 7 w in
   r = Ok 0 /\ written w 7177 bytes w' /\ mem_read (vol_data w') 7175 11 = [67; 80] ++ bytes ++ [0; 0]) /\
  (let (r, v') := cp32_root_write 7177 nonnull bytes 7 v in
   r = Err (-1) /\ write_locked v 7177 v' /\ cp32_root_writable (fst v') = false).
Proof.
  assert (Hok : forall c, mc_sectors c = 200 -> fst (cp32_root_init (CardDemo.boot c)) = Ok tt ->
    root_ok (CardDemo.opened c)).
  { intros c Hc Hd. destruct (demo_boot_state c ltac:(lia)) as (D1 & D2 & D3).
    pose proof (root_init_exact (CardDemo.boot c) D1 D2 D3) as H.
    unfold CardDemo.opened. cbv beta iota zeta delta [cp32_sdcard_init memcard_card] in H.
    destruct (cp32_root_init (CardDemo.boot c)) as [r w]. cbn [fst] in Hd. subst r. apply H. }
  intros w v bytes.
  assert (Hw : root_ok w) by (apply Hok; [done|vm_compute; reflexivity]).
  assert (Hv : root_ok v) by (apply Hok; [done|vm_compute; reflexivity]).
  split; [exact Hw|].
  pose proof (root_write_exact w 7177 nonnull bytes 7 Hw ltac:(lia) ltac:(vm_compute; intuition discriminate)) as H1.
  pose proof (root_write_exact v 7177 nonnull bytes 7 Hv ltac:(lia) ltac:(vm_compute; intuition discriminate)) as H2.
  assert (E1 : fst (cp32_root_write 7177 nonnull bytes 7 w) = Ok 0) by (vm_compute; reflexivity).
  assert (E2 : fst (cp32_root_write 7177 nonnull bytes 7 v) = Err (-1)) by (vm_compute; reflexivity).
  assert (E3 : mem_read (vol_data (snd (cp32_root_write 7177 nonnull bytes 7 w))) 7175 11 = [67; 80] ++ bytes ++ [0; 0])
    by (vm_compute; reflexivity).
  assert (E4 : cp32_root_writable (fst (snd (cp32_root_write 7177 nonnull bytes 7 v))) = false)
    by (vm_compute; reflexivity).
  assert (E5 : cp32_root_writable (fst v) = true /\ capacity (fst v) = 65536) by (vm_compute; split; reflexivity).
  destruct (cp32_root_write 7177 nonnull bytes 7 w) as [r1 w1]. cbn [fst snd] in *. subst r1.
  destruct (cp32_root_write 7177 nonnull bytes 7 v) as [r2 w2]. cbn [fst snd] in *. subst r2.
  split; [split; [done|]; split; [apply H1|done]|].
  split; [done|]. split; [|done]. destruct H2 as (_ & [[Hno _]|(_ & _ & H2)]); [|done].
  exfalso. apply Hno. destruct E5 as [E5 E6]. split; [done|]. unfold fits. rewrite E6. split; [lia|].
  split; [vm_compute; discriminate|]. right. done.
Defined.
