(* ===== verification/Signals.v ===== *)
(** * Signals: cause_sig and inform of src/src/kernel/system.c

    A signal of a task is a bit of [p_pending]; the process is blocked until
    MM, which is told when it waits for work, has acknowledged all of them.
    [sigset_t] and its operations are the C library's: the interface [SigSet]. *)
From S2P Require Import Prelude Codec Kconst Ktypes Sched Ipc IpcSpec Message.

Class SigSet := {
  sigemptyset : Z;
  sigaddset : Z -> Z -> Z;
  sigismember : Z -> Z -> bool;
  sig_empty : forall n, sigismember sigemptyset n = false;
  sig_added : forall s n, 1 <= n < 32 -> sigismember (sigaddset s n) n = true;
  sig_others : forall s n m, 1 <= n < 32 -> 1 <= m < 32 -> m <> n ->
    sigismember (sigaddset s n) m = sigismember s m }.

Definition PENDING := 16.
Definition SIG_PENDING := 32.
Definition P_STOP := 64.
Definition KSIG := 64.
Definition SIGTRAP := 5.
Definition SIGALRM := 14.

(** A [panic] does not return. *)
Definition PANIC := 999999.

(** The process table and [int sig_procs]. *)
Record tasks := Tasks { t_k : kst; sig_procs : Z }.
Definition set_t_k (x : kst) (t : tasks) : tasks := Tasks x (sig_procs t).
Definition set_sig_procs (x : Z) (t : tasks) : tasks := Tasks (t_k t) x.
Definition ktask (f : kst -> kst) (t : tasks) : tasks := set_t_k (f (t_k t)) t.
(** A call of the message-passing code. *)
Definition kcall {A} (c : KM A) : M tasks A := fun t =>
  let (r, k) := c (t_k t) in (r, set_t_k k t).

Section Signals.
Context `{SIG : SigSet}.
(** The address of [PRIVATE message m]. *)
Context (m_at : Z).

(** The first descriptor from [n] with a signal for MM. *)
Fixpoint first_pending (k : kst) (fuel : nat) (rp : Z) : option Z :=
  match fuel with
  | O => None
  | S fuel => if has (p_flags (k_proc k rp)) PENDING then Some rp else first_pending k fuel (rp + 1)
  end.

Definition message_bytes (m : message) : list Z := concat (map word_bytes m).

(** The fields of [m] that [inform] stores; the others keep what they held. *)
Definition store_ksig (proc_nr pending : Z) (k : kst) : kst :=
  store_mem (m_at + 20) (word_bytes pending) (store_mem (m_at + 4) (word_bytes KSIG ++ word_bytes proc_nr) k).

Definition inform : M tasks unit :=
  found <- gets (fun t => first_pending (t_k t) 32 BEG_SERV_ADDR) ;;
  match found with
  | None => ret tt
  | Some rp =>
      p <- gets (fun t => k_proc (t_k t) rp) ;;
      modify (ktask (store_ksig (p_nr p) (p_pending p))) ;;;
      modify (fun t => set_sig_procs (sig_procs t - 1) t) ;;;
      hw <- gets (fun t => proc_addr (t_k t) HARDWARE) ;;
      r <- try (kcall (lock_mini_send hw MM_PROC_NR m_at)) ;;
      match r with Err _ => fail PANIC | Ok _ => ret tt end ;;;
      modify (ktask (upd rp (set_p_pending sigemptyset))) ;;;
      modify (ktask (upd rp (fun p => set_p_flags (clear (p_flags p) PENDING) p))) ;;;
      modify (ktask lock_pick_proc)
  end.

Definition cause_sig (proc_nr sig_nr : Z) : M tasks unit :=
  rp <- gets (fun t => proc_addr (t_k t) proc_nr) ;;
  p <- gets (fun t => k_proc (t_k t) rp) ;;
  if sigismember (p_pending p) sig_nr then ret tt else
  modify (ktask (upd rp (fun p => set_p_pending (sigaddset (p_pending p) sig_nr) p))) ;;;
  modify (ktask (upd rp (fun p => set_p_pendcount (p_pendcount p +u 1) p))) ;;;
  if has (p_flags p) PENDING then ret tt else
  (if p_flags p =? 0 then modify (ktask (lock_unready rp)) else ret tt) ;;;
  modify (ktask (upd rp (fun p => set_p_flags (Z.lor (p_flags p) (Z.lor PENDING SIG_PENDING)) p))) ;;;
  modify (fun t => set_sig_procs (sig_procs t + 1) t) ;;;
  mmp <- gets (fun t => k_proc (t_k t) (proc_addr (t_k t) MM_PROC_NR)) ;;
  if negb (has (p_flags mmp) RECEIVING) || (p_getfrom mmp !=? ANY) then ret tt else
  inform.

(** [isokusern(n)] *)
Definition isokusern (n : Z) : bool := wrap32 (n - LOW_USER) <? NR_PROCS - LOW_USER.

(** [do_kill] and [do_endsig]: a status, or a panic of a callee. *)
Definition do_kill (pr signum : Z) : M tasks Z :=
  if negb (isokusern pr) then ret E_BAD_PROC else
  cause_sig pr signum ;;; ret OK.

Definition do_endsig (proc1 : Z) : M tasks Z :=
  if negb (isokusern proc1) then ret E_BAD_PROC else
  rp <- gets (fun t => proc_addr (t_k t) proc1) ;;
  p <- gets (fun t => k_proc (t_k t) rp) ;;
  (if p_pendcount p !=? 0 then
     modify (ktask (upd rp (fun p => set_p_pendcount (p_pendcount p -u 1) p))) ;;;
     if p_pendcount p -u 1 =? 0 then
       modify (ktask (upd rp (fun p => set_p_flags (clear (p_flags p) SIG_PENDING) p))) ;;;
       p <- gets (fun t => k_proc (t_k t) rp) ;;
       if p_flags p =? 0 then modify (ktask (lock_ready rp)) else ret tt
     else ret tt
   else ret tt) ;;;
  ret OK.
End Signals.

(** A bit set with bit [n] for signal [n] has these operations. *)
#[export] Program Instance bit_sigset : SigSet := {
  sigemptyset := 0;
  sigaddset := fun s n => Z.lor s (Z.shiftl 1 n);
  sigismember := Z.testbit }.
Next Obligation. intros n. apply Z.testbit_0_l. Qed.
Next Obligation.
  intros s n Hn. cbv beta. rewrite Z.lor_spec, Z.shiftl_spec, Z.sub_diag by lia. apply orb_true_r.
Qed.
Next Obligation.
  intros s n m Hn Hm Hne. cbv beta. rewrite Z.lor_spec, Z.shiftl_spec by lia.
  destruct (Z.lt_ge_cases m n); [rewrite (Z.testbit_neg_r 1) by lia; apply orb_false_r|].
  rewrite (Z.bits_above_log2 1) by (cbn; lia). apply orb_false_r.
Qed.
