(* ===== verification/Clock.v ===== *)
(** * The clock task: src/src/kernel/clock.c

    Ticks, alarms and the time of day.  A tick of the timer interrupt
    ([clock_handler]) only counts; the task ([cp32_clock_task_dispatch]) adds
    what was counted to [realtime], serves requests and fires alarms.  Trace
    output, the counters that only traces read and the timer registers are left
    out; [cp32_tty_poll_tick] and [tty_wakeup], which start the terminal task,
    are the argument [tty_tick]. *)
From S2P Require Import Prelude Codec Kconst Ktypes Sched Ipc IpcSpec Message Signals.

Definition HZ := 60.
Definition LONG_MAX := 2147483647.
Definition SCHED_RATE := 100 * HZ / 1000.
Definition SYN_ALRM_TASK := -8.

(** A watchdog function: none, [cause_alarm], or another one. *)
Inductive watchdog := NoWatchdog | CauseAlarm | Watchdog (f : Z).

Record clock := Clock {
  realtime : Z; boot_time : Z; next_alarm : Z; watchdog_proc : Z;
  watch_dog : Z -> watchdog; syn_al_alive : bool; syn_table : Z -> bool;
  pending_ticks : Z; sched_ticks : Z; prev_ptr : Z; lost_ticks : Z }.
Definition set_realtime (x : Z) (c : clock) : clock :=
  Clock x (boot_time c) (next_alarm c) (watchdog_proc c) (watch_dog c) (syn_al_alive c) (syn_table c)
    (pending_ticks c) (sched_ticks c) (prev_ptr c) (lost_ticks c).
Definition set_boot_time (x : Z) (c : clock) : clock :=
  Clock (realtime c) x (next_alarm c) (watchdog_proc c) (watch_dog c) (syn_al_alive c) (syn_table c)
    (pending_ticks c) (sched_ticks c) (prev_ptr c) (lost_ticks c).
Definition set_next_alarm (x : Z) (c : clock) : clock :=
  Clock (realtime c) (boot_time c) x (watchdog_proc c) (watch_dog c) (syn_al_alive c) (syn_table c)
    (pending_ticks c) (sched_ticks c) (prev_ptr c) (lost_ticks c).
Definition set_watchdog_proc (x : Z) (c : clock) : clock :=
  Clock (realtime c) (boot_time c) (next_alarm c) x (watch_dog c) (syn_al_alive c) (syn_table c)
    (pending_ticks c) (sched_ticks c) (prev_ptr c) (lost_ticks c).
Definition set_watch_dog (i : Z) (f : watchdog) (c : clock) : clock :=
  Clock (realtime c) (boot_time c) (next_alarm c) (watchdog_proc c)
    (fun j => if j =? i then f else watch_dog c j) (syn_al_alive c) (syn_table c)
    (pending_ticks c) (sched_ticks c) (prev_ptr c) (lost_ticks c).
Definition set_syn_al_alive (x : bool) (c : clock) : clock :=
  Clock (realtime c) (boot_time c) (next_alarm c) (watchdog_proc c) (watch_dog c) x (syn_table c)
    (pending_ticks c) (sched_ticks c) (prev_ptr c) (lost_ticks c).
Definition set_syn_table (i : Z) (b : bool) (c : clock) : clock :=
  Clock (realtime c) (boot_time c) (next_alarm c) (watchdog_proc c) (watch_dog c) (syn_al_alive c)
    (fun j => if j =? i then b else syn_table c j)
    (pending_ticks c) (sched_ticks c) (prev_ptr c) (lost_ticks c).
Definition set_pending_ticks (x : Z) (c : clock) : clock :=
  Clock (realtime c) (boot_time c) (next_alarm c) (watchdog_proc c) (watch_dog c) (syn_al_alive c) (syn_table c)
    x (sched_ticks c) (prev_ptr c) (lost_ticks c).
Definition set_quantum (ticks prev : Z) (c : clock) : clock :=
  Clock (realtime c) (boot_time c) (next_alarm c) (watchdog_proc c) (watch_dog c) (syn_al_alive c) (syn_table c)
    (pending_ticks c) ticks prev (lost_ticks c).
Definition set_lost_ticks (x : Z) (c : clock) : clock :=
  Clock (realtime c) (boot_time c) (next_alarm c) (watchdog_proc c) (watch_dog c) (syn_al_alive c) (syn_table c)
    (pending_ticks c) (sched_ticks c) (prev_ptr c) x.

(** The kernel as the clock task sees it. *)
Record cst := Cst { c_t : tasks; c_clock : clock }.
Definition set_c_t (x : tasks) (s : cst) : cst := Cst x (c_clock s).
Definition kclock (f : clock -> clock) (s : cst) : cst := Cst (c_t s) (f (c_clock s)).
Definition c_k (s : cst) : kst := t_k (c_t s).
Definition kproc (f : kst -> kst) (s : cst) : cst := set_c_t (ktask f (c_t s)) s.
Definition tcall {A} (c : M tasks A) : M cst A := fun s =>
  let (r, t) := c (c_t s) in (r, set_c_t t s).
Abbreviation CM := (M cst).

(** The alarm that fires next: [for (rp = BEG_PROC_ADDR; ...)] over [p_alarm]. *)
Fixpoint nearest (k : kst) (n : nat) (rp next : Z) : Z :=
  match n with
  | O => next
  | S n => let a := p_alarm (k_proc k rp) in
           nearest k n (rp + 1) (if (a !=? 0) && (a <? next) then a else next)
  end.

Definition common_setalarm (proc_nr delta_ticks : Z) (function : watchdog) (s : cst) : cst :=
  let rp := proc_addr (c_k s) proc_nr in
  let alarm := if delta_ticks =? 0 then 0 else to_int (realtime (c_clock s) + delta_ticks) in
  let s := kproc (upd rp (set_p_alarm alarm)) s in
  let s := kclock (set_watch_dog (proc_nr + NR_TASKS) function) s in
  kclock (set_next_alarm (nearest (c_k s) 41 1 LONG_MAX)) s.

(** [(rp->p_alarm == 0 ? 0 : (rp->p_alarm - realtime) / HZ)] *)
Definition seconds_left (s : cst) (proc_nr : Z) : Z :=
  let a := p_alarm (k_proc (c_k s) (proc_addr (c_k s) proc_nr)) in
  if a =? 0 then 0 else Z.quot (to_int (a - realtime (c_clock s))) HZ.

(** A function pointer of a message; [cause_alarm] has no address to send. *)
Definition watchdog_of (f : Z) : watchdog := if f =? 0 then NoWatchdog else Watchdog f.

Section Clock.
Context `{SIG : SigSet}.
Context (m_at : Z).                    (* the message buffer of system.c *)
Context (mess_at : Z).                 (* [mess] of [cause_alarm] *)
Context (run_watchdog : Z -> CM unit). (* a watchdog function of a task *)

Definition cause_alarm : CM unit :=
  modify (fun s => kclock (set_syn_table (watchdog_proc (c_clock s) + NR_TASKS) true) s) ;;;
  alive <- gets (fun s => syn_al_alive (c_clock s)) ;;
  if alive : bool then ret tt else
  rp <- gets (fun s => k_proc_ptr (c_k s)) ;;
  try (tcall (kcall (mini_send rp SYN_ALRM_TASK mess_at))) ;;; ret tt.

(** A watchdog that is due: everything between the test and [rp->p_alarm = 0]. *)
Definition fire (rp : Z) : CM unit :=
  nr <- gets (fun s => p_nr (k_proc (c_k s) rp)) ;;
  f <- gets (fun s => watch_dog (c_clock s) (nr + NR_TASKS)) ;;
  match f with
  | NoWatchdog => tcall (cause_sig m_at nr SIGALRM)
  | CauseAlarm => modify (kclock (set_watchdog_proc nr)) ;;; cause_alarm
  | Watchdog f => modify (kclock (set_watchdog_proc nr)) ;;; run_watchdog f
  end.

(** The body of the scan for expired alarms. *)
Definition expire (rp : Z) (_ : unit) : CM unit :=
  a <- gets (fun s => p_alarm (k_proc (c_k s) rp)) ;;
  now <- gets (fun s => realtime (c_clock s)) ;;
  if a =? 0 then ret tt else
  (if a <=? now then fire rp ;;; modify (kproc (upd rp (set_p_alarm 0))) else ret tt) ;;;
  modify (fun s => let a := p_alarm (k_proc (c_k s) rp) in
                   if (a !=? 0) && (a <? next_alarm (c_clock s)) then kclock (set_next_alarm a) s else s).

Definition do_clocktick : CM unit :=
  due <- gets (fun s => next_alarm (c_clock s) <=? realtime (c_clock s)) ;;
  (if due : bool then
     modify (kclock (set_next_alarm LONG_MAX)) ;;;
     for_ 41 1 expire tt
   else ret tt) ;;;
  modify (fun s => if sched_ticks (c_clock s) =? 1
                   then kclock (set_quantum SCHED_RATE (k_bill_ptr (c_k s))) s else s).

Definition get_uptime (s : cst) : Z := to_int (realtime (c_clock s) + pending_ticks (c_clock s)).
Definition do_getuptime (mc : message) (s : cst) : message := set_word 5 (realtime (c_clock s)) mc.
Definition do_get_time (mc : message) (s : cst) : message :=
  set_word 5 (boot_time (c_clock s) + Z.quot (realtime (c_clock s)) HZ) mc.
Definition do_set_time (mc : message) (s : cst) : cst :=
  kclock (set_boot_time (to_int (NEW_TIME mc - Z.quot (realtime (c_clock s)) HZ))) s.

Definition do_setalarm (mc : message) (s : cst) : message * cst :=
  let proc_nr := CLOCK_PROC_NR mc in
  let function := watchdog_of (FUNC_TO_CALL mc) in
  let rp := proc_addr (c_k s) proc_nr in
  let function := if istaskp (c_k s) rp then function else NoWatchdog in
  (set_word 5 (seconds_left s proc_nr) mc, common_setalarm proc_nr (DELTA_TICKS mc) function s).

Definition do_setsyn_alrm (mc : message) (s : cst) : message * cst :=
  let proc_nr := CLOCK_PROC_NR mc in
  (set_word 5 (seconds_left s proc_nr) mc, common_setalarm proc_nr (DELTA_TICKS mc) CauseAlarm s).

(** [realtime += pending_ticks; pending_ticks = 0;] *)
Definition catch_up (s : cst) : cst :=
  kclock (fun c => set_pending_ticks 0 (set_realtime (to_int (realtime c + pending_ticks c)) c)) s.

(** [int cp32_clock_task_dispatch(int opcode)]: whether to reply, and [mc]. *)
Definition cp32_clock_task_dispatch (mc : message) : CM (bool * message) :=
  modify catch_up ;;;
  let opcode := m_type mc in
  mc <- (if opcode =? HARD_INT then do_clocktick ;;; ret mc
         else if opcode =? GET_UPTIME then gets (do_getuptime mc)
         else if opcode =? GET_TIME then gets (do_get_time mc)
         else if opcode =? SET_TIME then modify (do_set_time mc) ;;; ret mc
         else if opcode =? SET_ALARM then fun s => let (mc, s) := do_setalarm mc s in (Ok mc, s)
         else if opcode =? SET_SYNC_AL then fun s => let (mc, s) := do_setsyn_alrm mc s in (Ok mc, s)
         else fail PANIC) ;;
  ret (opcode !=? HARD_INT, set_word 1 OK mc).

(** [static void cp32_clock_charge(unsigned ticks)] *)
Definition cp32_clock_charge (ticks : Z) (k : kst) : kst :=
  let hardware := proc_addr k HARDWARE in
  let owner := if 1 <? k_reenter k then hardware
               else if k_reenter k =? 1 then k_irq_saved_owner k else k_proc_ptr k in
  let billed := k_bill_ptr k in
  let owner := if owner =? NIL_PROC then hardware else owner in
  let k := upd owner (fun p => set_user_time (user_time p + ticks) p) k in
  if negb (billed =? NIL_PROC) && negb (owner =? billed) && negb (owner =? proc_addr k IDLE)
  then upd billed (fun p => set_sys_time (sys_time p + ticks) p) k else k.

(** [clock_handler]; [tty_tick now] is the terminal's part of the tick. *)
Definition clock_handler (tty_poll : kst -> kst) (tty_timeout : Z) (tty_wakeup : Z -> kst -> kst) (s : cst) : cst :=
  let ticks := lost_ticks (c_clock s) +u 1 in
  let s := kclock (set_lost_ticks 0) s in
  let s := kproc (cp32_clock_charge ticks) s in
  let s := kproc tty_poll s in
  let s := kclock (fun c => set_pending_ticks (to_int (pending_ticks c + ticks)) c) s in
  let now := to_int (realtime (c_clock s) + pending_ticks (c_clock s)) in
  let s := if (tty_timeout !=? 0) && (tty_timeout <=? now) then kproc (tty_wakeup now) s else s in
  let c := c_clock s in
  if (next_alarm c <=? now) ||
     ((sched_ticks c =? 1) && (negb (k_rdy_head (c_k s) TASK_Q =? NIL_PROC) ||
        negb (k_rdy_head (c_k s) SERVER_Q =? NIL_PROC) || negb (k_rdy_head (c_k s) USER_Q =? NIL_PROC)))
  then kproc (interrupt CLOCK) s
  else if sched_ticks c - 1 =? 0 then kclock (set_quantum SCHED_RATE (k_bill_ptr (c_k s))) s
  else kclock (set_quantum (sched_ticks c - 1) (prev_ptr c)) s.
End Clock.

(** The state that [systimer_irq_start] leaves. *)
Definition boot_clock (c : clock) : clock :=
  set_quantum SCHED_RATE NIL_PROC (set_next_alarm LONG_MAX (set_pending_ticks 0 (set_realtime 0 c))).

(** [static uint64_t cp32_u64_div_u32(value, divisor)], bit by bit. *)
Fixpoint div_bits (bit : nat) (value divisor quotient remainder : Z) : Z :=
  match bit with
  | O => quotient
  | S b =>
      let remainder := Z.lor (Z.shiftl remainder 1 mod 2 ^ 64) (Z.land (Z.shiftr value (Z.of_nat b)) 1) in
      if divisor <=? remainder
      then div_bits b value divisor (Z.lor quotient (Z.shiftl 1 (Z.of_nat b))) (remainder - divisor)
      else div_bits b value divisor quotient remainder
  end.
Definition cp32_u64_div_u32 (value divisor : Z) : Z :=
  if divisor =? 0 then 0 else div_bits 64 value divisor 0 0.

(** [milli_elapsed]: [now] and [start] are readings of the 64-bit counter. *)
Definition milli_elapsed (now start : Z) : Z := wrap32 (cp32_u64_div_u32 ((now - start) mod 2 ^ 64) 16000).

(** ** Requests for the time *)
Section Requests.
Context `{SIG : SigSet}.
Context (m_at mess_at : Z) (run_watchdog : Z -> CM unit).
Abbreviation dispatch := (cp32_clock_task_dispatch m_at mess_at run_watchdog).

Lemma dispatch_get_time mc s :
  m_type mc = GET_TIME ->
  dispatch mc s = (Ok (true, set_word 1 OK (do_get_time mc (catch_up s))), catch_up s).
Proof. intros E. unfold cp32_clock_task_dispatch. rewrite bind_modify. cbv zeta. rewrite E. reflexivity. Qed.

Lemma dispatch_get_uptime mc s :
  m_type mc = GET_UPTIME ->
  dispatch mc s = (Ok (true, set_word 1 OK (do_getuptime mc (catch_up s))), catch_up s).
Proof. intros E. unfold cp32_clock_task_dispatch. rewrite bind_modify. cbv zeta. rewrite E. reflexivity. Qed.

Lemma dispatch_set_time mc s :
  m_type mc = SET_TIME ->
  dispatch mc s = (Ok (true, set_word 1 OK mc), do_set_time mc (catch_up s)).
Proof. intros E. unfold cp32_clock_task_dispatch. rewrite bind_modify. cbv zeta. rewrite E. reflexivity. Qed.
End Requests.

(** ** Division by repeated subtraction *)
Lemma lor_high_bits a b n : 0 <= n -> 0 <= b < 2 ^ n -> Z.lor (a * 2 ^ n) b = a * 2 ^ n + b.
Proof.
  intros Hn Hb. assert (H : Z.land (a * 2 ^ n) b = 0).
  { rewrite <- Z.shiftl_mul_pow2 by done. apply Z.bits_inj'. intros m Hm.
    rewrite Z.land_spec, Z.bits_0, Z.shiftl_spec by done.
    destruct (Z.lt_ge_cases m n); [by rewrite Z.testbit_neg_r by lia|].
    destruct (Z.eq_dec b 0) as [->|]; [by rewrite Z.bits_0, andb_false_r|].
    rewrite (Z.bits_above_log2 b); [apply andb_false_r|lia|].
    apply Z.lt_le_trans with n; [|done]. apply Z.log2_lt_pow2; lia. }
  rewrite Z.add_nocarry_lxor by done. symmetry. by apply Z.lxor_lor.
Qed.

(** After the bits above [bit]: the quotient of those bits, and their remainder. *)
Lemma div_bits_spec bit value divisor q r :
  0 < divisor < 4294967296 -> 0 <= value -> 0 <= r < divisor ->
  value / 2 ^ Z.of_nat bit = q * divisor + r ->
  div_bits bit value divisor (q * 2 ^ Z.of_nat bit) r = value / divisor.
Proof.
  intros Hd Hv. revert q r. induction bit as [|bit IH]; intros q r Hr E.
  - rewrite Z.div_1_r in E. cbn [div_bits]. change (2 ^ Z.of_nat 0) with 1.
    rewrite Z.mul_1_r. apply (Z.div_unique_pos _ _ _ r); lia.
  - cbn [div_bits]. set (n := Z.of_nat bit) in *. replace (Z.of_nat (S bit)) with (n + 1) in * by lia.
    assert (Hn : 0 <= n) by lia. set (b := Z.land (Z.shiftr value n) 1).
    assert (Hb : b = value / 2 ^ n mod 2) by (unfold b; rewrite Z.shiftr_div_pow2 by done; apply (Z.land_ones _ 1); lia).
    pose proof (Z.mod_pos_bound (value / 2 ^ n) 2 ltac:(lia)).
    assert (HE : value / 2 ^ n = (2 * q) * divisor + (2 * r + b)).
    { rewrite Z.pow_add_r, <- Z.div_div in E by lia. change (2 ^ 1) with 2 in E.
      pose proof (Z.div_mod (value / 2 ^ n) 2 ltac:(lia)). lia. }
    assert (HR : Z.lor (Z.shiftl r 1 mod 2 ^ 64) b = 2 * r + b).
    { rewrite Z.shiftl_mul_pow2, Z.mod_small by lia. change (2 ^ 1) with (2 ^ 1).
      rewrite lor_high_bits by lia. lia. }
    fold b. rewrite HR. rewrite Z.pow_add_r by lia. change (2 ^ 1) with 2.
    pose proof (Z.pow_pos_nonneg 2 n ltac:(lia) Hn).
    destruct (Z.leb_spec divisor (2 * r + b)).
    + replace (Z.lor (q * (2 ^ n * 2)) (Z.shiftl 1 n)) with ((2 * q + 1) * 2 ^ n); [apply IH; lia|].
      replace (q * (2 ^ n * 2)) with (q * 2 ^ (n + 1)) by (rewrite Z.pow_add_r by lia; lia).
      rewrite Z.shiftl_1_l, lor_high_bits; rewrite ?Z.pow_add_r; lia.
    + replace (q * (2 ^ n * 2)) with ((2 * q) * 2 ^ n) by lia. apply IH; lia.
Qed.

(** C31: the counter is turned into milliseconds exactly: the division that the
    target has no library routine for is the division of integers, for every
    64-bit value and every divisor, 0 excepted, for which it answers 0.
    [milli_elapsed] is the whole number of milliseconds between two readings of
    the 16 MHz counter, as an [unsigned], as long as the 52-bit counter has not
    wrapped in between; when it has, the difference of 64 bits is taken, which is
    too large by the bits that the counter does not have. *)
Theorem u64_division_exact value divisor :
  0 <= value < 2 ^ 64 -> 0 <= divisor < 2 ^ 32 ->
  cp32_u64_div_u32 value divisor = (if divisor =? 0 then 0 else value / divisor) /\
  forall now start, 0 <= now < 2 ^ 52 -> 0 <= start < 2 ^ 52 ->
    milli_elapsed now start =
      wrap32 ((if start <=? now then now - start else 2 ^ 64 - 2 ^ 52 + (2 ^ 52 + now - start)) / 16000).
Proof.
  intros Hv Hd.
  assert (G : forall v d, 0 <= v < 2 ^ 64 -> 0 < d < 4294967296 -> div_bits 64 v d 0 0 = v / d).
  { intros v d Hv' Hd'. apply (div_bits_spec 64 v d 0 0); try lia. rewrite Z.div_small; lia. }
  split.
  - unfold cp32_u64_div_u32. destruct (Z.eqb_spec divisor 0); [done|]. apply G; [done|]. lia.
  - intros now start Hn Hs. unfold milli_elapsed, cp32_u64_div_u32. cbn [Z.eqb].
    rewrite G by (try apply Z.mod_pos_bound; lia). do 2 f_equal. destruct (Z.leb_spec start now).
    + apply Z.mod_small. lia.
    + symmetry. apply (Z.mod_unique_pos _ _ (-1)); lia.
Qed.

Lemma u64_division_exact_witness :
  cp32_u64_div_u32 18446744073709551615 4294967295 = 4294967297 /\
  milli_elapsed 33000 1000 = 2 /\ milli_elapsed 0 4503599627354496 = 3951369913.
Proof.
  assert (H : 0 <= 18446744073709551615 < 2 ^ 64 /\ 0 <= 4294967295 < 2 ^ 32) by lia.
  split; [|split].
  - exact (proj1 (u64_division_exact 18446744073709551615 4294967295 (proj1 H) (proj2 H))).
  - exact (proj2 (u64_division_exact 18446744073709551615 4294967295 (proj1 H) (proj2 H)) 33000 1000 ltac:(lia) ltac:(lia)).
  - exact (proj2 (u64_division_exact 18446744073709551615 4294967295 (proj1 H) (proj2 H)) 0 4503599627354496 ltac:(lia) ltac:(lia)).
Defined.

(** ** Alarms belong to the clock *)
Definition same_alarms (k k' : kst) : Prop := forall x, p_alarm (k_proc k' x) = p_alarm (k_proc k x).

#[export] Instance same_alarms_preorder : PreOrder same_alarms.
Proof. split; [by intros k x|]. intros k1 k2 k3 H1 H2 x. by rewrite H2, H1. Qed.

Lemma alarms_upd p f k : (forall q, p_alarm (f q) = p_alarm q) -> same_alarms k (upd p f k).
Proof. intros H x. destruct (Z.eq_dec x p) as [->|]; [by rewrite upd_same|by rewrite upd_other]. Qed.

Lemma alarms_procs k k' : k_proc k' = k_proc k -> same_alarms k k'.
Proof. intros H x. by rewrite H. Qed.

Lemma alarms_links k k' : same_but_links k k' -> same_alarms k k'.
Proof. intros H x. by apply links_field. Qed.

Lemma alarms_ready rp k : same_alarms k (ready rp k).
Proof. apply alarms_links, ready_links. Qed.
Lemma alarms_unready rp k : same_alarms k (unready rp k).
Proof. apply alarms_links, unready_links. Qed.

Lemma alarms_head q x k : same_alarms k (set_rdy_head q x k).
Proof. done. Qed.
Lemma alarms_tail q x k : same_alarms k (set_rdy_tail q x k).
Proof. done. Qed.
Lemma alarms_return x k : same_alarms k (set_k_blocked_return x k).
Proof. done. Qed.
Lemma alarms_mem m k : same_alarms k (set_k_mem m k).
Proof. done. Qed.
Lemma alarms_store a bs k : same_alarms k (store_mem a bs k).
Proof. done. Qed.
Lemma alarms_copy a b n k : same_alarms k (phys_copy a b n k).
Proof. done. Qed.
Lemma alarms_switching b k : same_alarms k (set_k_switching b k).
Proof. done. Qed.

Create HintDb alarms discriminated.
#[export] Hint Resolve alarms_ready alarms_unready alarms_head alarms_tail alarms_return alarms_mem alarms_store
  alarms_copy alarms_switching : alarms.
#[export] Hint Extern 1 (same_alarms _ (upd _ _ _)) => (apply alarms_upd; intros; reflexivity) : alarms.
Ltac alarms_solve :=
  repeat first [ reflexivity | solve [auto with alarms nocore]
               | (etransitivity; [|solve [auto with alarms nocore]]) | case_match ].

Lemma alarms_pop q k : same_alarms k (pop_ready q k).
Proof. unfold pop_ready. cbv zeta. alarms_solve. Qed.

Lemma alarms_skip q n k : same_alarms k (skip_blocked q n k).
Proof.
  revert k. induction n as [|n IH]; intros k; cbn [skip_blocked]; [done|]. cbv zeta.
  destruct (_ && _); [|done]. etransitivity; [apply alarms_pop|apply IH].
Qed.

Lemma alarms_pick_queue n offset rp k : same_alarms k (snd (pick_queue n offset rp k)).
Proof.
  revert offset rp k. induction n as [|n IH]; intros offset rp k; cbn [pick_queue]; [done|]. cbv zeta.
  set (q := _ mod 3). etransitivity; [apply (alarms_skip q HOPS_LE)|].
  destruct (k_rdy_head (skip_blocked q HOPS_LE k) q =? NIL_PROC); [apply IH|].
  destruct (bad_user_frame _ _); cbn [snd].
  - etransitivity; [|apply IH]. by apply alarms_procs.
  - etransitivity; [apply (alarms_pop q)|]. by apply alarms_procs.
Qed.

Lemma alarms_pick k : same_alarms k (pick_proc k).
Proof.
  unfold pick_proc. cbv zeta. 
  set (k0 := if (k_next_queue k <? 0) || (3 <=? k_next_queue k) then set_k_next_queue 0 k else k).
  assert (H0 : same_alarms k k0) by (subst k0; by case_match).
  pose proof (alarms_pick_queue NQ 0 NIL_PROC k0) as H. destruct (pick_queue NQ 0 NIL_PROC k0) as [rp k1].
  cbn [snd] in H. etransitivity; [exact H0|]. etransitivity; [exact H|].
  case_match; [by apply alarms_procs|]. apply alarms_procs. by repeat case_match.
Qed.
#[export] Hint Resolve alarms_pick : alarms.

Lemma alarms_locked f k : (forall k, same_alarms k (f k)) -> same_alarms k (locked f k).
Proof. intros H. unfold locked. etransitivity; [by apply (alarms_procs k (set_k_switching true k))|]. apply H. Qed.

Lemma alarms_complete rp r k : same_alarms k (cp32_complete_blocked_frame rp r k).
Proof. unfold cp32_complete_blocked_frame. cbv zeta. alarms_solve. Qed.
#[export] Hint Resolve alarms_complete : alarms.

Lemma alarms_block_sender c d dest m k : same_alarms k (block_sender c d dest m k).
Proof. unfold block_sender, append_sender, enter_send. cbv zeta. alarms_solve. Qed.
#[export] Hint Resolve alarms_block_sender : alarms.

Lemma mini_send_alarms c dest m : keeps same_alarms (mini_send c dest m).
Proof.
  unfold mini_send, deliver_blocked_message, copy_message, mem_copy, check. keeps_solve;
    apply keeps_modify; intros; auto with alarms nocore.
Qed.

Lemma lock_mini_send_alarms c dest m : keeps same_alarms (lock_mini_send c dest m).
Proof.
  unfold lock_mini_send. keeps_solve; try (apply keeps_modify; intros; auto with alarms nocore).
  apply mini_send_alarms.
Qed.

Definition task_alarms (t t' : tasks) : Prop := same_alarms (t_k t) (t_k t').
#[export] Instance task_alarms_preorder : PreOrder task_alarms.
Proof. split; [by intros t x|]. intros t1 t2 t3 H1 H2. unfold task_alarms in *. by etransitivity. Qed.

Lemma kcall_alarms {A} (c : KM A) : keeps same_alarms c -> keeps task_alarms (kcall c).
Proof. intros H t. unfold kcall, task_alarms. specialize (H (t_k t)). by destruct (c (t_k t)). Qed.

Lemma ktask_alarms f : (forall k, same_alarms k (f k)) -> keeps task_alarms (modify (ktask f)).
Proof. intros H. apply keeps_modify. intros t. apply H. Qed.

(** What the alarm scan reads and writes, apart from alarms it clears. *)
Record same_clock (s s' : cst) : Prop := {
  cl_alarms : same_alarms (c_k s) (c_k s');
  cl_next : next_alarm (c_clock s') = next_alarm (c_clock s);
  cl_time : realtime (c_clock s') = realtime (c_clock s);
  cl_pending : pending_ticks (c_clock s') = pending_ticks (c_clock s);
  cl_boot : boot_time (c_clock s') = boot_time (c_clock s) }.
#[export] Instance same_clock_preorder : PreOrder same_clock.
Proof.
  split; [by intros s|]. intros s1 s2 s3 [A1 ????] [A2 ????]. constructor; try congruence; by etransitivity.
Qed.

Lemma tcall_clock {A} (c : M tasks A) : keeps task_alarms c -> keeps same_clock (tcall c).
Proof. intros H s. unfold tcall. specialize (H (c_t s)). destruct (c (c_t s)) as [r t]. by constructor. Qed.

Section Alarms.
Context `{SIG : SigSet}.
Context (m_at mess_at : Z) (run_watchdog : Z -> CM unit).
(** A watchdog function of a task leaves the clock's own state alone. *)
Hypothesis watchdog_frame : forall f, keeps same_clock (run_watchdog f).

Lemma inform_alarms : keeps task_alarms (inform m_at).
Proof.
  unfold inform. keeps_solve; first [ apply kcall_alarms, lock_mini_send_alarms
    | apply ktask_alarms; intros; solve [auto with alarms nocore | apply alarms_locked; auto with alarms nocore]
    | by apply keeps_modify ].
Qed.

Lemma cause_sig_alarms nr sig : keeps task_alarms (cause_sig m_at nr sig).
Proof.
  unfold cause_sig. keeps_solve; first [ apply inform_alarms
    | apply ktask_alarms; intros; solve [auto with alarms nocore | apply alarms_locked; auto with alarms nocore]
    | by apply keeps_modify ].
Qed.

Lemma cause_alarm_clock : keeps same_clock (cause_alarm mess_at).
Proof.
  unfold cause_alarm. keeps_solve; first [ by apply tcall_clock, kcall_alarms, mini_send_alarms | by apply keeps_modify ].
Qed.

Abbreviation alarm s x := (p_alarm (k_proc (c_k s) x)).
Definition expired (s : cst) (x : Z) : bool := (alarm s x !=? 0) && (alarm s x <=? realtime (c_clock s)).

(** No alarm is earlier than the one the handler waits for. *)
Definition armed (s : cst) : Prop := forall x, 1 <= x <= 41 -> alarm s x <> 0 -> next_alarm (c_clock s) <= alarm s x.

Lemma nearest_snoc k n rp next :
  nearest k (S n) rp next =
  (let a := p_alarm (k_proc k (rp + Z.of_nat n)) in
   let m := nearest k n rp next in if (a !=? 0) && (a <? m) then a else m).
Proof.
  revert rp next. induction n as [|n IH]; intros rp next.
  - cbn. by rewrite Z.add_0_r.
  - change (nearest k (S (S n)) rp next) with (nearest k (S n) (rp + 1)
      (if (p_alarm (k_proc k rp) !=? 0) && (p_alarm (k_proc k rp) <? next) then p_alarm (k_proc k rp) else next)).
    rewrite IH. cbv zeta. replace (rp + 1 + Z.of_nat n) with (rp + Z.of_nat (S n)) by lia. done.
Qed.

Lemma nearest_ext k k' n rp next :
  (forall x, rp <= x < rp + Z.of_nat n -> p_alarm (k_proc k' x) = p_alarm (k_proc k x)) ->
  nearest k' n rp next = nearest k n rp next.
Proof.
  intros H. induction n as [|n IH]; [done|]. rewrite !nearest_snoc. cbv zeta.
  rewrite H by lia. rewrite IH; [done|]. intros x Hx. apply H. lia.
Qed.

Lemma nearest_le k n rp next x :
  rp <= x < rp + Z.of_nat n -> p_alarm (k_proc k x) <> 0 -> nearest k n rp next <= p_alarm (k_proc k x).
Proof.
  intros Hx Ha. induction n as [|n IH]; [lia|]. rewrite nearest_snoc. cbv zeta.
  destruct (Z.eq_dec x (rp + Z.of_nat n)) as [->|].
  - destruct (Z.eqb_spec (p_alarm (k_proc k (rp + Z.of_nat n))) 0); [done|]. cbn.
    destruct (Z.ltb_spec (p_alarm (k_proc k (rp + Z.of_nat n))) (nearest k n rp next)); lia.
  - specialize (IH ltac:(lia)). destruct (_ && _) eqn:E; lia.
Qed.

(** After the scan of the descriptors before [j]. *)
Record scanned (s0 : cst) (j : Z) (s : cst) : Prop := {
  sn_alarm : forall x, alarm s x = if (1 <=? x) && (x <? j) && expired s0 x then 0 else alarm s0 x;
  sn_next : next_alarm (c_clock s) = nearest (c_k s) (Z.to_nat (j - 1)) 1 LONG_MAX;
  sn_time : realtime (c_clock s) = realtime (c_clock s0);
  sn_pending : pending_ticks (c_clock s) = pending_ticks (c_clock s0);
  sn_boot : boot_time (c_clock s) = boot_time (c_clock s0) }.

(** Only alarms that are due are gone. *)
Definition none_early (s0 s : cst) : Prop :=
  forall x, alarm s x = alarm s0 x \/ (expired s0 x = true /\ alarm s x = 0).

Lemma fire_clock rp : keeps same_clock (fire m_at mess_at run_watchdog rp).
Proof.
  unfold fire. keeps_solve; first [ apply tcall_clock, cause_sig_alarms | apply cause_alarm_clock
    | apply watchdog_frame | by apply keeps_modify ].
Qed.

Lemma scanned_early s0 j s : scanned s0 j s -> none_early s0 s.
Proof. intros H x. rewrite (sn_alarm _ _ _ H). destruct (_ && _) eqn:E; [right|by left]. by apply andb_true_iff in E as [_ ?]. Qed.

(** The end of a turn: the alarm of [j], as it is now, against the nearest so far. *)
Lemma scan_step s0 j s s1 :
  1 <= j -> scanned s0 j s -> same_clock s s1 ->
  forall k, (forall x, p_alarm (k_proc k x) =
      if x =? j then (if expired s0 j then 0 else alarm s0 j) else alarm s1 x) ->
  let a := p_alarm (k_proc k j) in
  let s2 := kproc (fun _ => k) s1 in
  scanned s0 (j + 1)
    (if (a !=? 0) && (a <? next_alarm (c_clock s2)) then kclock (set_next_alarm a) s2 else s2).
Proof.
  intros Hj HS HC k Hk a s2.
  assert (HA : forall x, p_alarm (k_proc k x) = if (1 <=? x) && (x <? j + 1) && expired s0 x then 0 else alarm s0 x).
  { intros x. rewrite Hk. destruct (Z.eqb_spec x j) as [->|].
    - replace (1 <=? j) with true by lia. by replace (j <? j + 1) with true by lia.
    - rewrite (cl_alarms _ _ HC), (sn_alarm _ _ _ HS).
      replace (x <? j + 1) with (x <? j) by lia. done. }
  set (s3 := if (a !=? 0) && (a <? next_alarm (c_clock s2)) then kclock (set_next_alarm a) s2 else s2).
  assert (H3 : c_k s3 = k /\ realtime (c_clock s3) = realtime (c_clock s1) /\
    pending_ticks (c_clock s3) = pending_ticks (c_clock s1) /\ boot_time (c_clock s3) = boot_time (c_clock s1) /\
    next_alarm (c_clock s3) = (if (a !=? 0) && (a <? next_alarm (c_clock s1)) then a else next_alarm (c_clock s1))).
  { subst s3. change (next_alarm (c_clock s2)) with (next_alarm (c_clock s1)). by destruct (_ && _). }
  destruct H3 as (E1 & E2 & E3 & E4 & E5). destruct HS as [S1 S2 S3 S4 S5], HC as [C1 C2 C3 C4 C5].
  constructor; try congruence.
  - intros x. rewrite E1. apply HA.
  - rewrite E5, C2, S2. replace (Z.to_nat (j + 1 - 1)) with (S (Z.to_nat (j - 1))) by lia.
    rewrite E1, nearest_snoc. cbv zeta. replace (1 + Z.of_nat (Z.to_nat (j - 1))) with j by lia. fold a.
    rewrite (nearest_ext (c_k s) k); [done|]. intros x Hx. rewrite HA, S1.
    replace (x <? j + 1) with (x <? j) by lia. done.
Qed.

Lemma expire_spec s0 j u :
  1 <= j <= 41 ->
  hoare (scanned s0 j) (expire m_at mess_at run_watchdog j u) (fun _ => scanned s0 (j + 1)) (fun _ => none_early s0).
Proof.
  intros Hj s HS. unfold expire. rewrite !bind_gets.
  assert (Ha : alarm s j = alarm s0 j) by (rewrite (sn_alarm _ _ _ HS); by replace (j <? j) with false by lia; rewrite andb_false_r).
  rewrite Ha, (sn_time _ _ _ HS).
  destruct (Z.eqb_spec (alarm s0 j) 0) as [E0|E0].
  - assert (HX : expired s0 j = false) by (unfold expired; lia).
    pose proof (scan_step s0 j s s ltac:(lia) HS ltac:(done) (c_k s)) as H. cbv zeta in H.
    rewrite Ha, E0 in H. cbn [negb andb Z.eqb] in H. destruct s as [[k0 t0] c0]. apply H.
    intros x. rewrite HX. destruct (Z.eqb_spec x j) as [->|]; [by rewrite Ha|done].
  - destruct (Z.leb_spec (alarm s0 j) (realtime (c_clock s0))) as [Hd|Hd].
    + assert (HX : expired s0 j = true) by (unfold expired; lia). rewrite bind_assoc.
      pose proof (fire_clock j s) as HF. unfold bind.
      destruct (fire m_at mess_at run_watchdog j s) as [[e|[]] s1]; cbn [snd] in HF.
      * intros x. rewrite (cl_alarms _ _ HF). by apply (scanned_early s0 j).
      * pose proof (scan_step s0 j s s1 ltac:(lia) HS HF (upd j (set_p_alarm 0) (c_k s1))) as H.
        apply H. intros x. rewrite HX. destruct (Z.eqb_spec x j) as [->|]; [by rewrite upd_same|by rewrite upd_other].
    + assert (HX : expired s0 j = false) by (unfold expired; lia).
      pose proof (scan_step s0 j s s ltac:(lia) HS ltac:(done) (c_k s)) as H. cbv zeta in H.
      destruct s as [[k0 t0] c0]. apply H.
      intros x. rewrite HX. destruct (Z.eqb_spec x j) as [->|]; [exact Ha|done].
Qed.

(** The quantum, which a tick may start anew, is not an alarm. *)
Lemma quantum_frame s :
  let s' := if sched_ticks (c_clock s) =? 1 then kclock (set_quantum SCHED_RATE (k_bill_ptr (c_k s))) s else s in
  c_k s' = c_k s /\ next_alarm (c_clock s') = next_alarm (c_clock s) /\
  realtime (c_clock s') = realtime (c_clock s) /\ pending_ticks (c_clock s') = pending_ticks (c_clock s) /\
  boot_time (c_clock s') = boot_time (c_clock s).
Proof. by destruct (sched_ticks (c_clock s) =? 1). Qed.

(** C29: alarms go off in time, once, and none is lost.  Between ticks the clock
    task is woken for the nearest alarm or an earlier one.  Setting an alarm
    stores the time that many ticks from now, or 0 for none, and keeps that.  A
    tick clears exactly the alarms that are due, each when its watchdog has run,
    leaves every other one as it was, and keeps it too; a watchdog that fails, a
    panic, has not cleared an alarm before its time.  Ticks and the time of day
    are not touched. *)
Theorem clock_alarms_exact s :
  armed s ->
  (forall nr delta f, let s' := common_setalarm nr delta f s in
     armed s' /\ forall x, alarm s' x = if x =? proc_addr (c_k s) nr
       then (if delta =? 0 then 0 else to_int (realtime (c_clock s) + delta)) else alarm s x) /\
  match do_clocktick m_at mess_at run_watchdog s with
  | (Ok _, s') =>
      armed s' /\ (forall x, 1 <= x <= 41 -> alarm s' x = if expired s x then 0 else alarm s x) /\
      (forall x, ~ 1 <= x <= 41 -> alarm s' x = alarm s x) /\
      realtime (c_clock s') = realtime (c_clock s) /\ pending_ticks (c_clock s') = pending_ticks (c_clock s) /\
      boot_time (c_clock s') = boot_time (c_clock s)
  | (Err _, s') => none_early s s'
  end.
Proof.
  intros Harm. split.
  - intros nr delta f s'. assert (HA : forall x, alarm s' x = if x =? proc_addr (c_k s) nr
       then (if delta =? 0 then 0 else to_int (realtime (c_clock s) + delta)) else alarm s x).
    { intros x. change (c_k s') with (upd (proc_addr (c_k s) nr) (set_p_alarm (if delta =? 0 then 0
        else to_int (realtime (c_clock s) + delta))) (c_k s)).
      destruct (Z.eqb_spec x (proc_addr (c_k s) nr)) as [->|];
        [by rewrite upd_same|by rewrite upd_other]. }
    split; [|exact HA]. intros x Hx Hne. apply (nearest_le (c_k s') 41 1 LONG_MAX x); [lia|exact Hne].
  - unfold do_clocktick. rewrite bind_gets. destruct (Z.leb_spec (next_alarm (c_clock s)) (realtime (c_clock s))) as [Hd|Hd].
    + rewrite bind_assoc, bind_modify. set (s0 := kclock (set_next_alarm LONG_MAX) s).
      assert (H0 : scanned s 1 s0).
      { constructor; try done. intros x. replace ((1 <=? x) && (x <? 1)) with false by lia. done. }
      pose proof (hoare_for (fun j (_ : unit) => scanned s j) 41 1 (expire m_at mess_at run_watchdog)
        (fun _ => none_early s) tt (fun j a Hj => expire_spec s j a ltac:(lia)) s0 H0) as H.
      unfold bind. destruct (for_ 41 1 (expire m_at mess_at run_watchdog) tt s0) as [[e|[]] s1]; [exact H|].
      change (1 + Z.of_nat 41) with 42 in H. cbn [modify]. destruct (quantum_frame s1) as (Q1 & Q2 & Q3 & Q4 & Q5).
      assert (HA : forall x, p_alarm (k_proc (c_k s1) x) =
        if (1 <=? x) && (x <? 42) && expired s x then 0 else alarm s x) by apply H.
      split; [|split; [|split]].
      * intros x Hx. rewrite Q1, Q2, (sn_next _ _ _ H). apply (nearest_le _ 41 1). lia.
      * intros x Hx. rewrite Q1, HA. by replace ((1 <=? x) && (x <? 42)) with true by lia.
      * intros x Hx. rewrite Q1, HA. by replace ((1 <=? x) && (x <? 42)) with false by lia.
      * rewrite Q3, Q4, Q5. destruct H as [_ _ S3 S4 S5]. split; [exact S3|]. split; [exact S4|exact S5].
    + unfold bind, ret. cbn [modify]. destruct (quantum_frame s) as (Q1 & Q2 & Q3 & Q4 & Q5).
      rewrite Q3, Q4, Q5. split; [|split; [|split; [intros x _; by rewrite Q1|auto]]].
      * intros x Hx. rewrite Q1, Q2. by apply Harm.
      * intros x Hx. rewrite Q1. destruct (expired s x) eqn:E; [|done]. unfold expired in E.
        specialize (Harm x Hx ltac:(lia)). lia.
Qed.
End Alarms.

(** A kernel with alarms: 5 for process 2, due at 100 ticks, and 200 for process 4. *)
Module AlarmDemo.
Definition no_watchdog (f : Z) : CM unit := ret tt.
Definition start : cst :=
  Cst (Tasks KDemo.state 0)
    (boot_clock (Clock 0 0 0 0 (fun _ => NoWatchdog) false (fun _ => false) 0 0 0 0)).
Definition set : cst := common_setalarm 4 200 NoWatchdog (common_setalarm 2 100 NoWatchdog start).
Definition due : cst := kclock (set_realtime 120) set.
Abbreviation tick := (do_clocktick 0x3fcef000 0x3fcef100 no_watchdog due).
End AlarmDemo.

Lemma armed_later now s : armed s -> armed (kclock (set_realtime now) s).
Proof. intros H x Hx Hne. by apply H. Qed.

Lemma clock_alarms_exact_witness :
  armed AlarmDemo.due /\ fst AlarmDemo.tick = Ok tt /\ armed (snd AlarmDemo.tick) /\
  p_alarm (k_proc (c_k AlarmDemo.due) 12) = 100 /\ p_alarm (k_proc (c_k (snd AlarmDemo.tick)) 12) = 0 /\
  p_alarm (k_proc (c_k (snd AlarmDemo.tick)) 14) = 200 /\ next_alarm (c_clock (snd AlarmDemo.tick)) = 200 /\
  sigismember (p_pending (k_proc (c_k (snd AlarmDemo.tick)) 12)) SIGALRM = true.
Proof.
  assert (HW : forall f, keeps same_clock (AlarmDemo.no_watchdog f)) by (intros f; apply (keeps_ret same_clock)).
  assert (H0 : armed AlarmDemo.start).
  { intros x _ Hx. exfalso. apply Hx. change (p_alarm (k_proc KDemo.state x) = 0). unfold KDemo.state.
    rewrite (alarms_ready 13 _ x), (alarms_ready 5 _ x), (alarms_ready 2 _ x). reflexivity. }
  pose proof (clock_alarms_exact 0x3fcef000 0x3fcef100 AlarmDemo.no_watchdog HW AlarmDemo.start H0) as [H1 _].
  pose proof (clock_alarms_exact 0x3fcef000 0x3fcef100 AlarmDemo.no_watchdog HW _ (proj1 (H1 2 100 NoWatchdog))) as [H2 _].
  assert (HA : armed AlarmDemo.due) by exact (armed_later 120 _ (proj1 (H2 4 200 NoWatchdog))).
  assert (G : forall s, armed s ->
    fst (do_clocktick 0x3fcef000 0x3fcef100 AlarmDemo.no_watchdog s) = Ok tt ->
    armed (snd (do_clocktick 0x3fcef000 0x3fcef100 AlarmDemo.no_watchdog s))).
  { intros s Hs E. pose proof (proj2 (clock_alarms_exact 0x3fcef000 0x3fcef100 AlarmDemo.no_watchdog HW s Hs)) as H.
    destruct (do_clocktick _ _ _ s) as [r s']. cbn [fst] in E. subst r. exact (proj1 H). }
  assert (E : fst AlarmDemo.tick = Ok tt) by (vm_compute; reflexivity).
  split; [exact HA|]. split; [exact E|]. split; [exact (G _ HA E)|].
  repeat (split; [vm_compute; reflexivity|]). vm_compute. reflexivity.
Defined.

(** ** The time of day *)
Record same_time (s s' : cst) : Prop := {
  st_time : realtime (c_clock s') = realtime (c_clock s);
  st_pending : pending_ticks (c_clock s') = pending_ticks (c_clock s);
  st_boot : boot_time (c_clock s') = boot_time (c_clock s) }.
#[export] Instance same_time_preorder : PreOrder same_time.
Proof. split; [by intros s|]. intros s1 s2 s3 [???] [???]. constructor; congruence. Qed.

Lemma keeps_mono {W A} (I J : W -> W -> Prop) (c : M W A) : (forall w w', I w w' -> J w w') -> keeps I c -> keeps J c.
Proof. intros H Hc w. apply H, Hc. Qed.

Section TimeOfDay.
Context `{SIG : SigSet}.
Context (m_at mess_at : Z) (run_watchdog : Z -> CM unit).
Context (tty_poll : kst -> kst) (tty_timeout : Z) (tty_wakeup : Z -> kst -> kst).
Hypothesis watchdog_frame : forall f, keeps same_clock (run_watchdog f).
Abbreviation dispatch := (cp32_clock_task_dispatch m_at mess_at run_watchdog).

(** A timer interrupt that found [lost] ticks not handled, or a request of any
    kind but [SET_TIME] served by the task. *)
Inductive event := Tick (lost : Z) | Request (mc : message).

Inductive runs : list event -> cst -> cst -> Prop :=
| runs_nil s : runs [] s s
| runs_tick lost evs s s' :
    runs evs (clock_handler tty_poll tty_timeout tty_wakeup (kclock (set_lost_ticks lost) s)) s' ->
    runs (Tick lost :: evs) s s'
| runs_request mc evs s r s1 s' :
    m_type mc <> SET_TIME -> dispatch mc s = (Ok r, s1) -> runs evs s1 s' -> runs (Request mc :: evs) s s'.

Definition counted (ev : event) : Z := match ev with Tick lost => lost + 1 | Request _ => 0 end.
Definition total (evs : list event) : Z := fold_right (fun ev n => counted ev + n) 0 evs.
Definition plausible (ev : event) : Prop := 0 <= counted ev.

(** [uptime s] ticks since the start, below the [int] range. *)
Definition uptime (s : cst) : Z := realtime (c_clock s) + pending_ticks (c_clock s).
Definition time_ok (s : cst) : Prop := 0 <= realtime (c_clock s) /\ 0 <= pending_ticks (c_clock s).

Lemma clocktick_time : keeps same_time (do_clocktick m_at mess_at run_watchdog).
Proof.
  assert (HF : forall rp, keeps same_time (fire m_at mess_at run_watchdog rp)).
  { intros rp. eapply keeps_mono; [|by apply fire_clock]. intros s s' []. by constructor. }
  unfold do_clocktick, expire. keeps_solve; first [ apply HF | apply keeps_modify; intros s; by repeat case_match ].
Qed.

Lemma catch_up_time s :
  time_ok s -> uptime s < 2147483648 ->
  realtime (c_clock (catch_up s)) = uptime s /\ pending_ticks (c_clock (catch_up s)) = 0 /\
  boot_time (c_clock (catch_up s)) = boot_time (c_clock s).
Proof.
  intros [H1 H2] Hu. unfold uptime in *. cbn. rewrite to_int_small by lia. done.
Qed.

Lemma dispatch_time mc s r s1 :
  m_type mc <> SET_TIME -> time_ok s -> uptime s < 2147483648 -> dispatch mc s = (Ok r, s1) ->
  time_ok s1 /\ uptime s1 = uptime s /\ boot_time (c_clock s1) = boot_time (c_clock s).
Proof.
  intros Hne Ht Hu. destruct (catch_up_time s Ht Hu) as (C1 & C2 & C3).
  assert (HT : same_time (catch_up s) s1 ->
    time_ok s1 /\ uptime s1 = uptime s /\ boot_time (c_clock s1) = boot_time (c_clock s)).
  { intros [E1 E2 E3]. destruct Ht. unfold time_ok, uptime in *. rewrite E1, E2, E3, C1, C2, C3. lia. }
  unfold cp32_clock_task_dispatch. rewrite bind_modify. cbv zeta. unfold bind at 1.
  set (s0 := catch_up s) in *. clearbody s0. intros E. apply HT. clear HT C1 C2 C3 Ht Hu. revert E.
  destruct (m_type mc =? HARD_INT).
  { pose proof (clocktick_time s0) as H. unfold bind. destruct (do_clocktick _ _ _ s0) as [[e|x] s2]; [done|].
    intros [= _ <-]. exact H. }
  destruct (m_type mc =? GET_UPTIME); [intros [= _ <-]; done|].
  destruct (m_type mc =? GET_TIME); [intros [= _ <-]; done|].
  destruct (Z.eqb_spec (m_type mc) SET_TIME); [done|].
  destruct (m_type mc =? SET_ALARM); [intros [= _ <-]; done|].
  destruct (m_type mc =? SET_SYNC_AL); [intros [= _ <-]; done|done].
Qed.

Lemma handler_time lost s :
  time_ok s -> 0 <= lost + 1 -> uptime s + (lost + 1) < 2147483648 ->
  let s' := clock_handler tty_poll tty_timeout tty_wakeup (kclock (set_lost_ticks lost) s) in
  time_ok s' /\ uptime s' = uptime s + (lost + 1) /\ boot_time (c_clock s') = boot_time (c_clock s).
Proof.
  intros [H1 H2] Hl Hu s'. unfold uptime in *.
  assert (HT : realtime (c_clock s') = realtime (c_clock s) /\ boot_time (c_clock s') = boot_time (c_clock s) /\
    pending_ticks (c_clock s') = to_int (pending_ticks (c_clock s) + wrap32 (lost + 1))).
  { subst s'. unfold clock_handler. cbv zeta. change (lost_ticks (c_clock (kclock (set_lost_ticks lost) s))) with lost.
    repeat case_match; done. }
  destruct HT as (R & B & E). rewrite wrap32_small, to_int_small in E by lia.
  unfold time_ok. rewrite R, B, E. lia.
Qed.

Lemma total_nonneg evs : Forall plausible evs -> 0 <= total evs.
Proof. unfold total, plausible. induction 1; cbn in *; lia. Qed.

Lemma runs_time evs s s' :
  runs evs s s' -> time_ok s -> Forall plausible evs -> uptime s + total evs < 2147483648 ->
  time_ok s' /\ uptime s' = uptime s + total evs /\ boot_time (c_clock s') = boot_time (c_clock s).
Proof.
  induction 1 as [s|lost evs s s' _ IH|mc evs s r s1 s' Hne HD _ IH]; intros Ht Hp Hu.
  - cbn in *. split_and!; try done. lia.
  - apply Forall_cons_1 in Hp as [Hl Hp]. unfold plausible in Hl. cbn [counted total fold_right] in *.
    pose proof (total_nonneg evs Hp) as H0.
    fold (total evs) in *.
    destruct (handler_time lost s Ht Hl ltac:(lia)) as (T1 & T2 & T3).
    destruct (IH T1 Hp ltac:(lia)) as (? & -> & ->). split_and!; [done|lia|done].
  - apply Forall_cons_1 in Hp as [_ Hp]. cbn [counted total fold_right] in *. fold (total evs) in *.
    pose proof (total_nonneg evs Hp) as H0.
    destruct (dispatch_time mc s r s1 Hne Ht ltac:(lia) HD) as (T1 & T2 & T3).
    destruct (IH T1 Hp ltac:(lia)) as (? & -> & ->). split_and!; [done|lia|done].
Qed.

Lemma to_int_add x y : to_int (to_int x + y) = to_int (x + y).
Proof.
  rewrite <- (to_int_wrap (to_int x + y)), <- (to_int_wrap (x + y)). f_equal. unfold to_int, wrap32.
  destruct (Z.ltb_spec (x mod 4294967296) 2147483648).
  - by rewrite Zplus_mod_idemp_l.
  - replace (x mod 4294967296 - 4294967296 + y) with (x mod 4294967296 + y + (-1) * 4294967296) by lia.
    by rewrite Z.mod_add, Zplus_mod_idemp_l by lia.
Qed.

(** C30: the clock keeps time.  From the moment the time is set to [x], whatever
    ticks arrive, however many at once, and whatever other requests the task
    serves in between, no tick is lost or counted twice: the uptime has grown by
    exactly the ticks counted, and [GET_TIME] answers [x] plus the full seconds
    that the uptime has passed since. *)
Theorem time_of_day_kept mc s r s0 evs s1 :
  m_type mc = SET_TIME -> time_ok s -> dispatch mc s = (Ok r, s0) -> runs evs s0 s1 ->
  Forall plausible evs -> uptime s + total evs < 2147483648 ->
  get_uptime s1 = uptime s + total evs /\
  forall q, m_type q = GET_TIME -> length q = 9%nat ->
    exists m s2, dispatch q s1 = (Ok (true, m), s2) /\ m_type m = OK /\
      NEW_TIME m = to_int (NEW_TIME mc + ((uptime s + total evs) / HZ - uptime s / HZ)).
Proof.
  intros Em Ht HD HR Hp Hu. pose proof (total_nonneg evs Hp) as H0. rewrite dispatch_set_time in HD by done. injection HD as _ <-.
  destruct (catch_up_time s Ht ltac:(lia)) as (C1 & C2 & C3). set (sc := catch_up s) in *. clearbody sc.
  assert (HU : uptime (do_set_time mc sc) = uptime s) by (unfold uptime at 1; cbn; rewrite C1, C2; lia).
  assert (HO : time_ok (do_set_time mc sc)).
  { destruct Ht. unfold time_ok. cbn. rewrite C1, C2. unfold uptime. lia. }
  destruct (runs_time evs _ s1 HR HO Hp ltac:(lia)) as (T1 & T2 & T3). rewrite HU in T2.
  destruct (catch_up_time s1 T1 ltac:(lia)) as (D1 & D2 & D3). split.
  - unfold get_uptime. fold (uptime s1). rewrite T2. destruct Ht. apply to_int_small. unfold uptime in *. lia.
  - intros q Eq Hq. rewrite dispatch_get_time by done. do 2 eexists. split; [done|].
    unfold m_type, NEW_TIME, m6_l1. assert (L : lenZ q = 9) by (unfold lenZ; by rewrite Hq).
    assert (L2 : lenZ (do_get_time q (catch_up s1)) = 9) by (unfold lenZ, do_get_time; by rewrite length_set_word, Hq).
    rewrite !int_at_set by lia. cbn [Z.eqb Pos.eqb]. split; [done|]. unfold do_get_time. rewrite int_at_set by lia.
    cbn [Z.eqb Pos.eqb]. rewrite D1, D3, T2, T3. cbn. rewrite C1. destruct Ht.
    change (int_at mc 5) with (NEW_TIME mc). rewrite to_int_add. f_equal. unfold HZ.
    rewrite !Z.quot_div_nonneg by (unfold uptime; lia). lia.
Qed.
End TimeOfDay.

(** The time is set to 1000 s at 120 ticks; 1 + 60 + 120 ticks and two requests
    later it is 1003 s. *)
Module TimeDemo.
Definition request (type : Z) : message := set_word 1 type clear_message.
Definition set_time : message := set_word 5 1000 (request SET_TIME).
Definition evs : list event := [Tick 0; Request (request GET_UPTIME); Tick 59; Request (request HARD_INT); Tick 119].
Definition at_set : cst := do_set_time set_time (catch_up AlarmDemo.due).
Abbreviation ask m s := (cp32_clock_task_dispatch 0x3fcef000 0x3fcef100 AlarmDemo.no_watchdog m s).
Abbreviation tick lost s := (clock_handler (fun k => k) 0 (fun _ k => k) (kclock (set_lost_ticks lost) s)).
Abbreviation later :=
  (tick 119 (snd (ask (request HARD_INT) (tick 59 (snd (ask (request GET_UPTIME) (tick 0 at_set))))))).
End TimeDemo.

Lemma ask_result m s r : fst (TimeDemo.ask m s) = r -> TimeDemo.ask m s = (r, snd (TimeDemo.ask m s)).
Proof. destruct (TimeDemo.ask m s). cbn. by intros ->. Qed.

Lemma time_of_day_kept_witness :
  exists m s2, TimeDemo.ask (TimeDemo.request GET_TIME) TimeDemo.later = (Ok (true, m), s2) /\ NEW_TIME m = 1003.
Proof.
  assert (HW : forall f, keeps same_clock (AlarmDemo.no_watchdog f)) by (intros f; apply (keeps_ret same_clock)).
  assert (HR : runs 0x3fcef000 0x3fcef100 AlarmDemo.no_watchdog (fun k => k) 0 (fun _ k => k) TimeDemo.evs
    TimeDemo.at_set TimeDemo.later).
  { apply runs_tick. eapply runs_request; [discriminate|apply ask_result; vm_compute; reflexivity|].
    apply runs_tick. eapply runs_request; [discriminate|apply ask_result; vm_compute; reflexivity|].
    apply runs_tick. apply runs_nil. }
  destruct (time_of_day_kept 0x3fcef000 0x3fcef100 AlarmDemo.no_watchdog (fun k => k) 0 (fun _ k => k) HW
    TimeDemo.set_time AlarmDemo.due (true, set_word 1 OK TimeDemo.set_time) TimeDemo.at_set TimeDemo.evs TimeDemo.later
    eq_refl) as [_ H].
  - vm_compute. split; discriminate.
  - by apply dispatch_set_time.
  - exact HR.
  - repeat constructor; discriminate.
  - vm_compute. reflexivity.
  - destruct (H (TimeDemo.request GET_TIME) eq_refl eq_refl) as (m & s2 & E & _ & Ht).
    exists m, s2. split; [exact E|]. rewrite Ht. vm_compute. reflexivity.
Defined.
