(* ===== verification/Crc.v ===== *)
(** * The check codes of the SD bus: src/src/drivers/sd_spi.c

    Commands carry a 7-bit code and data blocks a 16-bit one, computed a bit at
    a time.  Both are remainders of the division of polynomials over two
    elements; the 16-bit one finds every damage within sixteen adjacent bits. *)
From S2P Require Import Prelude Codec.

(** ** The code *)

(** [crc<<=1;if((b^crc)&0x80)crc^=9;b<<=1;] of [command] *)
Definition crc7_bit (st : Z * Z) : Z * Z :=
  let '(crc, b) := st in
  let crc := wrap8 (Z.shiftl crc 1) in
  (if truthy (Z.land (Z.lxor b crc) 0x80) then Z.lxor crc 9 else crc, wrap8 (Z.shiftl b 1)).
Definition crc7_byte (crc b : Z) : Z := fst (Nat.iter 8 crc7_bit (crc, b)).
Definition crc7 (packet : list Z) : Z := fold_left crc7_byte packet 0.

(** [crc=(crc&0x8000) ? (uint16_t)((crc<<1)^0x1021):(uint16_t)(crc<<1);] *)
Definition crc16_bit (crc : Z) : Z :=
  if truthy (Z.land crc 0x8000) then wrap16 (Z.lxor (Z.shiftl crc 1) 0x1021) else wrap16 (Z.shiftl crc 1).
Definition crc16_byte (crc b : Z) : Z := Nat.iter 8 crc16_bit (Z.lxor crc (wrap16 (Z.shiftl b 8))).
Definition crc16 (bytes : list Z) : Z := fold_left crc16_byte bytes 0.

(** ** Polynomials

    A polynomial over two elements is the integer of its coefficients, or their
    list, the highest first.  [times q g] is their product. *)
Definition bits8 (b : Z) : list bool := map (Z.testbit b) [7; 6; 5; 4; 3; 2; 1; 0].
Definition bits (l : list Z) : list bool := l ≫= bits8.
Definition times_step (g acc : Z) (b : bool) : Z := Z.lxor (2 * acc) (if b then g else 0).
Definition times (q : list bool) (g : Z) : Z := fold_left (times_step g) q 0.

(** [r] is the remainder of [x^w * m] divided by [g], of degree [w]. *)
Definition remainder (w g : Z) (m : list bool) (r : Z) : Prop :=
  0 <= r < 2 ^ w /\ exists q, times m (2 ^ w) = Z.lxor (times q g) r.

(** Long division, a coefficient at a time *)
Definition divide_step (w g r : Z) (b : bool) : Z :=
  let r := Z.lxor (2 * r) (if b then 2 ^ w else 0) in
  if Z.testbit r w then Z.lxor r g else r.
Definition divide (w g : Z) (m : list bool) : Z := fold_left (divide_step w g) m 0.

(** Equations between sums, coefficient by coefficient *)
Ltac xor_cases :=
  rewrite ?Z.lxor_spec, ?Z.bits_0 in *;
  repeat match goal with |- context [Z.testbit ?x ?i] => destruct (Z.testbit x i) end; done.
Ltac xor_bits := apply Z.bits_inj; intros ?; xor_cases.

Lemma double_lxor a b : 2 * Z.lxor a b = Z.lxor (2 * a) (2 * b).
Proof. rewrite !(Z.mul_comm 2). change 2 with (2 ^ 1). by rewrite <- !Z.shiftl_mul_pow2, Z.shiftl_lxor. Qed.

Lemma times_app q b g : times (q ++ [b]) g = times_step g (times q g) b.
Proof. unfold times. by rewrite fold_left_app. Qed.

Lemma bound_bits w x : 0 <= w -> 0 <= x -> (x < 2 ^ w <-> forall i, w <= i -> Z.testbit x i = false).
Proof.
  intros Hw Hx. split.
  - intros H i Hi. destruct (Z.eq_dec x 0) as [->|]; [apply Z.bits_0|].
    apply Z.bits_above_log2; [done|]. assert (Z.log2 x < w) by (apply Z.log2_lt_pow2; lia). lia.
  - intros H. destruct (Z.lt_ge_cases x (2 ^ w)) as [|Hge]; [done|]. exfalso.
    assert (0 < 2 ^ w) by (apply Z.pow_pos_nonneg; lia).
    specialize (H (Z.log2 x)). rewrite Z.bit_log2 in H by lia. discriminate H. apply Z.log2_le_pow2; lia.
Qed.

Lemma lxor_range w a b : 0 <= w -> 0 <= a < 2 ^ w -> 0 <= b < 2 ^ w -> 0 <= Z.lxor a b < 2 ^ w.
Proof.
  intros Hw Ha Hb. assert (H0 : 0 <= Z.lxor a b) by (apply Z.lxor_nonneg; lia). split; [done|].
  apply (bound_bits w _ Hw H0). intros i Hi. rewrite Z.lxor_spec.
  rewrite (proj1 (bound_bits w a Hw (proj1 Ha)) (proj2 Ha) i Hi), (proj1 (bound_bits w b Hw (proj1 Hb)) (proj2 Hb) i Hi). done.
Qed.

Section Division.
Context (w g : Z) (Hw : 0 <= w) (Hg : 2 ^ w <= g < 2 ^ (w + 1)).

Lemma top_bit x : 0 <= x < 2 ^ (w + 1) -> Z.testbit x w = (2 ^ w <=? x).
Proof.
  intros Hx. rewrite Z.pow_add_r in Hx by lia. assert (0 < 2 ^ w) by (apply Z.pow_pos_nonneg; lia).
  destruct (Z.leb_spec (2 ^ w) x).
  - apply Z.testbit_true; [done|]. assert (E : x / 2 ^ w = 1) by (symmetry; apply Z.div_unique with (x - 2 ^ w); lia).
    by rewrite E.
  - apply Z.testbit_false; [done|]. rewrite Z.div_small by lia. done.
Qed.

Lemma reduced x : 0 <= x < 2 ^ (w + 1) -> 0 <= (if Z.testbit x w then Z.lxor x g else x) < 2 ^ w.
Proof.
  intros Hx. assert (0 < 2 ^ w) by (apply Z.pow_pos_nonneg; lia). rewrite (top_bit x Hx). destruct (Z.leb_spec (2 ^ w) x); [|lia].
  pose proof (lxor_range (w + 1) x g ltac:(lia) Hx ltac:(lia)) as Hr. split; [lia|].
  destruct (Z.lt_ge_cases (Z.lxor x g) (2 ^ w)) as [|Hge]; [done|]. exfalso.
  pose proof (top_bit _ Hr) as E. rewrite (proj2 (Z.leb_le _ _) Hge), Z.lxor_spec, (top_bit x Hx), (top_bit g) in E by lia.
  rewrite !(proj2 (Z.leb_le _ _)) in E by lia. discriminate.
Qed.

Lemma divide_step_range r b : 0 <= r < 2 ^ w -> 0 <= divide_step w g r b < 2 ^ w.
Proof.
  intros Hr. apply reduced, lxor_range; [lia| |].
  - rewrite Z.pow_add_r by lia. lia.
  - destruct b; [|split; [done|apply Z.pow_pos_nonneg; lia]]. rewrite Z.pow_add_r by lia. assert (0 < 2 ^ w) by (apply Z.pow_pos_nonneg; lia). lia.
Qed.

Lemma divide_remainder m : remainder w g m (divide w g m).
Proof.
  assert (0 < 2 ^ w) by (apply Z.pow_pos_nonneg; lia).
  induction m as [|b m [IH [q Hq]]] using rev_ind; [split; [cbn; lia|by exists []]|].
  unfold divide in *. rewrite fold_left_app. cbn [fold_left]. split; [by apply divide_step_range|].
  revert IH Hq. generalize (fold_left (divide_step w g) m 0). intros r IH Hq.
  rewrite times_app. unfold times_step. rewrite Hq, double_lxor, Z.lxor_assoc. unfold divide_step.
  set (r' := Z.lxor (2 * r) (if b then 2 ^ w else 0)).
  exists (q ++ [Z.testbit r' w]). rewrite times_app. unfold times_step.
  destruct (Z.testbit r' w); xor_bits.
Qed.

(** A product with [g] is zero or has at least its degree. *)
Lemma times_large q : times q g = 0 \/ 2 ^ w <= times q g.
Proof.
  assert (0 < 2 ^ w) by (apply Z.pow_pos_nonneg; lia).
  induction q as [|b q IH] using rev_ind; [by left|]. rewrite times_app. unfold times_step.
  destruct IH as [->|IH]; [destruct b; [right; change (2 * 0) with 0; rewrite Z.lxor_0_l; lia|by left]|]. right.
  set (x := 2 * times q g). assert (Hx : 2 ^ (w + 1) <= x) by (rewrite Z.pow_add_r by lia; lia).
  assert (Hlog : w + 1 <= Z.log2 x) by (apply Z.log2_le_pow2; lia).
  assert (H0 : 0 <= Z.lxor x (if b then g else 0)) by (apply Z.lxor_nonneg; destruct b; lia).
  destruct (Z.lt_ge_cases (Z.lxor x (if b then g else 0)) (2 ^ w)) as [Hlt|]; [|done]. exfalso.
  pose proof (proj1 (bound_bits w _ Hw H0) Hlt (Z.log2 x) ltac:(lia)) as E. rewrite Z.lxor_spec, Z.bit_log2 in E by lia.
  destruct b; [|by rewrite Z.bits_0 in E]. rewrite (proj1 (bound_bits (w + 1) g ltac:(lia) ltac:(lia)) ltac:(lia)) in E by lia. done.
Qed.

Lemma times_lxor q : forall q', exists q2, Z.lxor (times q g) (times q' g) = times q2 g.
Proof.
  induction q as [|b q IH] using rev_ind; intros q'; [exists q'; by rewrite Z.lxor_0_l|].
  destruct q' as [|b' q' _] using rev_ind; [exists (q ++ [b]); by rewrite Z.lxor_0_r|].
  destruct (IH q') as [q2 E]. exists (q2 ++ [xorb b b']). rewrite !times_app. unfold times_step. rewrite <- E, double_lxor.
  destruct b, b'; cbn [xorb]; xor_bits.
Qed.

Lemma remainder_unique m r r' : remainder w g m r -> remainder w g m r' -> r = r'.
Proof.
  intros [Hr [q E]] [Hr' [q' E']]. destruct (times_lxor q q') as [q2 E2]. apply Z.lxor_eq.
  assert (Heq : Z.lxor r r' = times q2 g).
  { rewrite <- E2. rewrite E in E'. apply Z.bits_inj. intros i. apply (f_equal (fun x => Z.testbit x i)) in E'.
    xor_cases. }
  pose proof (lxor_range w r r' Hw Hr Hr'). destruct (times_large q2); lia.
Qed.

Lemma divide_exact m r : divide w g m = r <-> remainder w g m r.
Proof. split; [intros <-; apply divide_remainder|intros H; apply (remainder_unique m); [apply divide_remainder|done]]. Qed.
End Division.

(** ** Damage *)

(** All changed bits lie within [n] adjacent ones. *)
Definition burst (n : Z) (e : list bool) : Prop :=
  exists a m z, e = replicate a false ++ m ++ replicate z false /\ lenZ m <= n.
Definition errors (sent got : list bool) : list bool := zip_with xorb sent got.

Section Errors.
Context (w g : Z) (Hw : 0 <= w) (Hg : 2 ^ w <= g < 2 ^ (w + 1)).
Abbreviation run := (fold_left (divide_step w g)).

Lemma step_linear r r' b b' :
  divide_step w g (Z.lxor r r') (xorb b b') = Z.lxor (divide_step w g r b) (divide_step w g r' b').
Proof.
  unfold divide_step. rewrite double_lxor.
  replace (Z.lxor (Z.lxor (2 * r) (2 * r')) (if xorb b b' then 2 ^ w else 0))
    with (Z.lxor (Z.lxor (2 * r) (if b then 2 ^ w else 0)) (Z.lxor (2 * r') (if b' then 2 ^ w else 0)))
    by (destruct b, b'; cbn [xorb]; xor_bits).
  rewrite Z.lxor_spec. destruct (Z.testbit (Z.lxor (2 * r) _) w), (Z.testbit (Z.lxor (2 * r') _) w); cbn [xorb]; xor_bits.
Qed.

Lemma run_linear l : forall l' r r', length l = length l' ->
  run (errors l l') (Z.lxor r r') = Z.lxor (run l r) (run l' r').
Proof.
  induction l as [|b l IH]; intros [|b' l'] r r' H; try done. cbn [errors zip_with fold_left].
  rewrite step_linear. apply IH. cbn in H. lia.
Qed.

Lemma run_range l : forall r, 0 <= r < 2 ^ w -> 0 <= run l r < 2 ^ w.
Proof. induction l as [|b l IH]; intros r Hr; [done|]. cbn [fold_left]. apply IH. by apply divide_step_range. Qed.

Lemma run_zeros n : run (replicate n false) 0 = 0.
Proof. induction n as [|n IH]; [done|]. cbn [replicate fold_left]. unfold divide_step at 2. cbn [Z.mul Z.lxor]. by rewrite Z.bits_0. Qed.

Context (Hodd : Z.odd g = true) (Hw1 : 0 < w).

(** The state from which the bits lead to zero *)
Definition load_step (b : bool) (x : Z) : Z := Z.lxor (if b then 2 ^ (w - 1) else 0) (Z.div2 x).
Definition load (l : list bool) : Z := foldr load_step 0 l.

Lemma load_low l i : 0 <= i -> i + lenZ l < w -> Z.testbit (load l) i = false.
Proof.
  revert i. induction l as [|b l IH]; intros i Hi Hl; [apply Z.bits_0|]. unfold lenZ in *. cbn [length] in Hl.
  cbn [load foldr]. fold (load l). unfold load_step. rewrite Z.lxor_spec, Z.div2_spec, Z.shiftr_spec, IH by lia.
  destruct b; [|by rewrite Z.bits_0]. rewrite Z.pow2_bits_false by lia. done.
Qed.

Lemma step_even r b x : Z.testbit x 0 = false -> divide_step w g r b = x -> r = load_step b x.
Proof.
  intros Hx E. unfold divide_step in E. set (y := Z.lxor (2 * r) (if b then 2 ^ w else 0)) in *.
  assert (Hy : Z.testbit y 0 = false).
  { unfold y. rewrite Z.lxor_spec, Z.testbit_even_0. destruct b; [|by rewrite Z.bits_0]. rewrite Z.pow2_bits_false by lia. done. }
  assert (Ey : y = x).
  { destruct (Z.testbit y w); [|done]. exfalso. rewrite <- E, Z.lxor_spec, Hy, Z.bit0_odd, Hodd in Hx. done. }
  rewrite <- Ey. unfold load_step, y. apply Z.bits_inj. intros i. rewrite Z.lxor_spec, Z.div2_spec.
  destruct (Z.lt_ge_cases i 0); [by rewrite !Z.testbit_neg_r by lia|]. rewrite Z.shiftr_spec, Z.lxor_spec by lia.
  rewrite Z.add_1_r, Z.testbit_even_succ by lia. destruct b; [|by rewrite !Z.bits_0, xorb_false_r].
  destruct (Z.eq_dec i (w - 1)) as [->|Hne].
  - replace (Z.succ (w - 1)) with w by lia. rewrite !Z.pow2_bits_true by lia. by destruct (Z.testbit r (w - 1)).
  - rewrite !Z.pow2_bits_false by lia. by rewrite xorb_false_r.
Qed.

Lemma run_to_zero l : forall r, lenZ l <= w -> run l r = 0 -> r = load l.
Proof.
  induction l as [|b l IH]; intros r Hl E; [done|]. unfold lenZ in *. cbn [length] in Hl. cbn [load foldr]. fold (load l).
  apply step_even; [apply load_low; unfold lenZ; lia|]. apply IH; [lia|done].
Qed.

Lemma load_high l i : w <= i -> Z.testbit (load l) i = false.
Proof.
  revert i. induction l as [|b l IH]; intros i Hi; [apply Z.bits_0|].
  cbn [load foldr]. fold (load l). unfold load_step. rewrite Z.lxor_spec, Z.div2_spec, Z.shiftr_spec, IH by lia.
  destruct b; [|by rewrite Z.bits_0]. rewrite Z.pow2_bits_false by lia. done.
Qed.

Lemma load_zero l : load l = 0 -> lenZ l <= w -> l = replicate (length l) false.
Proof.
  induction l as [|b l IH]; intros E Hl; [done|]. unfold lenZ in *. cbn [length] in Hl. cbn [load foldr] in E. fold (load l) in E.
  unfold load_step in E. assert (Hb : b = false).
  { apply (f_equal (fun x => Z.testbit x (w - 1))) in E. rewrite Z.lxor_spec, Z.div2_spec, Z.shiftr_spec, load_high, Z.bits_0 in E by lia.
    destruct b; [|done]. by rewrite Z.pow2_bits_true in E by lia. }
  subst b. rewrite Z.lxor_0_l in E. cbn [length replicate]. f_equal. apply IH; [|lia].
  apply Z.bits_inj_0. intros i. destruct (Z.lt_ge_cases i 0); [by rewrite Z.testbit_neg_r|].
  destruct (Z.eq_dec i 0) as [->|]; [apply load_low; unfold lenZ; lia|].
  apply (f_equal (fun x => Z.testbit x (i - 1))) in E. rewrite Z.div2_spec, Z.shiftr_spec, Z.bits_0 in E by lia.
  by replace (i - 1 + 1) with i in E by lia.
Qed.

Lemma run_zero_bits l : lenZ l <= w -> run l 0 = 0 -> l = replicate (length l) false.
Proof. intros Hl E. apply load_zero; [|done]. symmetry. by apply run_to_zero. Qed.

Lemma zeros_run_zero n r : run (replicate n false) r = 0 -> r = 0.
Proof.
  revert r. induction n as [|n IH]; intros r E; [done|]. cbn [replicate fold_left] in E. apply IH in E.
  apply step_even in E; [|apply Z.bits_0]. by rewrite E.
Qed.

(** A burst that the division does not see is none. *)
Lemma burst_found e : burst w e -> divide w g e = 0 -> e = replicate (length e) false.
Proof.
  intros (a & m & z & -> & Hm) E. unfold divide in E. rewrite !fold_left_app, run_zeros in E.
  apply zeros_run_zero, run_zero_bits in E; [|done]. rewrite E, <- !replicate_add. f_equal. rewrite !length_replicate. lia.
Qed.

Lemma same_division l l' :
  length l = length l' -> burst w (errors l l') -> divide w g l = divide w g l' -> l = l'.
Proof.
  intros Hlen Hb E. pose proof (run_linear l l' 0 0 Hlen) as HL. unfold divide in *. rewrite E, !Z.lxor_nilpotent in HL.
  apply burst_found in HL; [|done]. clear Hb E. revert l' Hlen HL. induction l as [|b l IH]; intros [|b' l'] Hlen HL; try done.
  cbn in HL, Hlen. injection HL as Hx HL. f_equal; [by destruct b, b'|]. apply IH; [lia|exact HL].
Qed.
End Errors.

(** ** The loops of the driver divide *)
Definition shifted8 (b : Z) : Z := wrap8 (Z.shiftl b 1).

Lemma crc7_table : forallb (fun c => forallb (fun top : bool =>
    let c1 := wrap8 (Z.shiftl c 1) in
    let c2 := if xorb top (Z.testbit c1 7) then Z.lxor c1 9 else c1 in
    (Z.land c2 127 =? divide_step 7 0x89 (Z.land c 127) top) && (c2 <? 256) && (0 <=? c2))
  [true; false]) (map Z.of_nat (seq 0 256)) = true.
Proof. vm_compute. reflexivity. Qed.

Lemma top_table : forallb (fun b => bool_decide (map (fun k => Z.testbit (Nat.iter k shifted8 b) 7) (seq 0 8) = bits8 b))
  (map Z.of_nat (seq 0 256)) = true.
Proof. vm_compute. reflexivity. Qed.

Lemma crc16_table : forallb (fun b => fold_left (divide_step 16 0x11021) (replicate 8 false) (wrap16 (Z.shiftl b 8)) =?
    fold_left (divide_step 16 0x11021) (bits8 b) 0) (map Z.of_nat (seq 0 256)) = true.
Proof. vm_compute. reflexivity. Qed.

Lemma byte_listed b : is_byte b -> In b (map Z.of_nat (seq 0 256)).
Proof. intros Hb. apply in_map_iff. exists (Z.to_nat b). unfold is_byte in Hb. rewrite in_seq. lia. Qed.

Lemma range16 : 2 ^ 16 <= 0x11021 < 2 ^ (16 + 1). Proof. lia. Qed.
Lemma range7 : 2 ^ 7 <= 0x89 < 2 ^ (7 + 1). Proof. lia. Qed.

Lemma bits_cons b l : bits (b :: l) = bits8 b ++ bits l.
Proof. done. Qed.

Lemma crc7_bit_step c b : is_byte c ->
  snd (crc7_bit (c, b)) = shifted8 b /\ is_byte (fst (crc7_bit (c, b))) /\
  Z.land (fst (crc7_bit (c, b))) 127 = divide_step 7 0x89 (Z.land c 127) (Z.testbit b 7).
Proof.
  intros Hc. split; [done|]. cbn [crc7_bit fst]. change 0x80 with (2 ^ 7).
  replace (truthy (Z.land (Z.lxor b (wrap8 (Z.shiftl c 1))) (2 ^ 7))) with (xorb (Z.testbit b 7) (Z.testbit (wrap8 (Z.shiftl c 1)) 7))
    by (rewrite <- Z.lxor_spec, land_pow_testbit by lia; done).
  pose proof crc7_table as T. rewrite forallb_forall in T. specialize (T c (byte_listed c Hc)). rewrite forallb_forall in T.
  specialize (T (Z.testbit b 7)). rewrite !andb_true_iff, Z.eqb_eq, Z.ltb_lt, Z.leb_le in T.
  unfold is_byte. destruct T as [[T1 T2] T3]; [destruct (Z.testbit b 7); cbn; tauto|]. done.
Qed.

Lemma crc7_bits n : forall c b, is_byte c ->
  is_byte (fst (Nat.iter n crc7_bit (c, b))) /\
  Z.land (fst (Nat.iter n crc7_bit (c, b))) 127 =
    fold_left (divide_step 7 0x89) (map (fun k => Z.testbit (Nat.iter k shifted8 b) 7) (seq 0 n)) (Z.land c 127).
Proof.
  induction n as [|n IH]; intros c b Hc; [done|]. rewrite Nat.iter_succ_r. destruct (crc7_bit_step c b Hc) as (H1 & H2 & H3).
  destruct (crc7_bit (c, b)) as [c' b']. cbn [fst snd] in *. subst b'. destruct (IH c' (shifted8 b) H2) as [I1 I2]. split; [done|].
  rewrite I2, H3. cbn [seq map fold_left Nat.iter]. rewrite <- seq_shift, map_map. f_equal. apply map_ext. intros k. by rewrite Nat.iter_succ_r.
Qed.

Lemma crc7_byte_run c b : is_byte c -> is_byte b ->
  is_byte (crc7_byte c b) /\ Z.land (crc7_byte c b) 127 = fold_left (divide_step 7 0x89) (bits8 b) (Z.land c 127).
Proof.
  intros Hc Hb. unfold crc7_byte. destruct (crc7_bits 8 c b Hc) as [H1 H2]. split; [done|]. rewrite H2. f_equal.
  pose proof top_table as T. rewrite forallb_forall in T. specialize (T b (byte_listed b Hb)). by apply bool_decide_eq_true in T.
Qed.

Lemma crc7_run packet : Forall is_byte packet -> forall c, is_byte c ->
  Z.land (fold_left crc7_byte packet c) 127 = fold_left (divide_step 7 0x89) (bits packet) (Z.land c 127).
Proof.
  induction 1 as [|b l Hb Hl IH]; intros c Hc; [done|]. cbn [fold_left].
  destruct (crc7_byte_run c b Hc Hb) as [H1 H2]. by rewrite IH, H2, bits_cons, fold_left_app.
Qed.

Lemma crc16_bit_step c : 0 <= c < 65536 -> crc16_bit c = divide_step 16 0x11021 c false.
Proof.
  intros Hc. pose proof (divide_step_range 16 0x11021 ltac:(lia) range16 c false Hc) as Hr. unfold divide_step in *. rewrite Z.lxor_0_r in *.
  unfold crc16_bit. change 0x8000 with (2 ^ 15). rewrite (Z.mul_comm 2) in *. change (c * 2) with (c * 2 ^ 1) in *. rewrite <- Z.shiftl_mul_pow2 in * by lia.
  replace (truthy (Z.land c (2 ^ 15))) with (Z.testbit c 15) by (rewrite land_pow_testbit by lia; done).
  rewrite (Z.shiftl_spec c 1 16) in * by lia. change (16 - 1) with 15 in *.
  unfold wrap16. change 65536 with (2 ^ 16). destruct (Z.testbit c 15); [|apply Z.mod_small; lia].
  rewrite <- (Z.mod_small _ _ Hr). apply Z.bits_inj. intros i. destruct (Z.lt_ge_cases i 0); [by rewrite !Z.testbit_neg_r by lia|].
  destruct (Z.lt_ge_cases i 16); [|by rewrite !Z.mod_pow2_bits_high by lia].
  rewrite !Z.mod_pow2_bits_low, !Z.lxor_spec by lia. f_equal. change 0x11021 with (Z.lxor 0x1021 (2 ^ 16)).
  by rewrite Z.lxor_spec, Z.pow2_bits_false, xorb_false_r by lia.
Qed.

Lemma crc16_byte_run c b : 0 <= c < 65536 -> is_byte b ->
  crc16_byte c b = fold_left (divide_step 16 0x11021) (bits8 b) c.
Proof.
  intros Hc Hb. unfold crc16_byte.
  assert (H8 : forall n x, 0 <= x < 65536 -> Nat.iter n crc16_bit x = fold_left (divide_step 16 0x11021) (replicate n false) x).
  { clear. induction n as [|n IH]; intros x Hx; [done|]. rewrite Nat.iter_succ_r, IH.
    - cbn [replicate fold_left]. by rewrite crc16_bit_step.
    - rewrite crc16_bit_step by done. by apply (divide_step_range 16 0x11021 ltac:(lia) range16). }
  pose proof (wrap16_range (Z.shiftl b 8)) as HR. rewrite H8 by (apply (lxor_range 16); [lia|done|exact HR]).
  pose proof crc16_table as T. rewrite forallb_forall in T. specialize (T b (byte_listed b Hb)). apply Z.eqb_eq in T.
  pose proof (run_linear 16 0x11021 ltac:(lia) (replicate 8 false) (replicate 8 false) c (wrap16 (Z.shiftl b 8)) eq_refl) as L1.
  pose proof (run_linear 16 0x11021 ltac:(lia) (replicate 8 false) (bits8 b) c 0 eq_refl) as L2. rewrite T, <- L2, Z.lxor_0_r in L1.
  exact L1.
Qed.

Lemma crc16_run bytes : Forall is_byte bytes -> forall c, 0 <= c < 65536 ->
  fold_left crc16_byte bytes c = fold_left (divide_step 16 0x11021) (bits bytes) c.
Proof.
  induction 1 as [|b l Hb Hl IH]; intros c Hc; [done|]. cbn [fold_left]. rewrite crc16_byte_run, bits_cons, fold_left_app by done.
  apply IH. by apply (run_range 16 0x11021 ltac:(lia) range16).
Qed.

(** The loops of [command] and [data] compute remainders of polynomials: of
    the packet times x^7 by x^7+x^3+1, and of the block times x^16 by
    x^16+x^12+x^5+1, and no other value is one. *)
Theorem crc_polynomial bytes : Forall is_byte bytes ->
  (forall r, Z.land (crc7 bytes) 127 = r <-> remainder 7 0x89 (bits bytes) r) /\
  (forall r, crc16 bytes = r <-> remainder 16 0x11021 (bits bytes) r).
Proof.
  intros H. split; intros r.
  - rewrite <- (divide_exact 7 0x89 ltac:(lia) range7). unfold crc7. by rewrite (crc7_run bytes H 0).
  - rewrite <- (divide_exact 16 0x11021 ltac:(lia) range16). unfold crc16. by rewrite (crc16_run bytes H 0).
Qed.

(** ** A block and its code on the wire *)

(** [wire=(uint16_t)transfer(0xff)<<8;wire|=transfer(0xff);] *)
Definition wire_word (hi lo : Z) : Z := Z.lor (wrap16 (Z.shiftl hi 8)) lo.
Definition frame (block : list Z) : list Z := block ++ [crc16 block / 256; crc16 block mod 256].
(** What arrives when at most sixteen adjacent bits of the frame are changed *)
Definition damaged (sent got : list Z) : Prop :=
  length got = length sent /\ Forall is_byte got /\ burst 16 (errors (bits sent) (bits got)).

Lemma code_table : forallb (fun b =>
  (fold_left (divide_step 16 0x11021) (bits8 b) (b * 256) =? 0) &&
  (fold_left (divide_step 16 0x11021) (replicate 8 false) b =? b * 256) &&
  bool_decide (errors (bits8 b) (replicate 8 false) = bits8 b)) (map Z.of_nat (seq 0 256)) = true.
Proof. vm_compute. reflexivity. Qed.

Lemma wire_word_value hi lo : is_byte hi -> is_byte lo -> wire_word hi lo = hi * 256 + lo /\ wire_word hi lo = Z.lxor (hi * 256) lo.
Proof.
  intros Hh Hl. unfold wire_word, is_byte in *. assert (E : wrap16 (Z.shiftl hi 8) = hi * 2 ^ 8).
  { rewrite Z.shiftl_mul_pow2 by lia. apply Z.mod_small. lia. }
  assert (Hand : Z.land (hi * 2 ^ 8) lo = 0).
  { apply Z.bits_inj_0. intros i. rewrite Z.land_spec. destruct (Z.lt_ge_cases i 8).
    - rewrite Z.mul_pow2_bits_low by lia. done.
    - rewrite (proj1 (bound_bits 8 lo ltac:(lia) ltac:(lia)) ltac:(lia)) by lia. by rewrite andb_false_r. }
  rewrite E, <- Z.lxor_lor by done. split; [|done]. by rewrite <- Z.add_nocarry_lxor.
Qed.

Lemma code_zero v hi lo : is_byte hi -> is_byte lo -> v = wire_word hi lo ->
  fold_left (divide_step 16 0x11021) (bits [hi; lo]) v = 0.
Proof.
  intros Hh Hl ->. destruct (wire_word_value hi lo Hh Hl) as [_ ->]. rewrite bits_cons, fold_left_app.
  pose proof code_table as T. rewrite forallb_forall in T. pose proof (T hi (byte_listed hi Hh)) as Th. specialize (T lo (byte_listed lo Hl)).
  rewrite !andb_true_iff, !Z.eqb_eq in Th, T. destruct Th as [[Th1 Th2] Th3], T as [[T1 T2] T3].
  apply bool_decide_eq_true in Th3. rewrite <- Th3, run_linear, Th1, T2, Z.lxor_0_l by done. exact T1.
Qed.

Lemma bits_app l k : bits (l ++ k) = bits l ++ bits k.
Proof. unfold bits. by rewrite bind_app. Qed.

Lemma bits_byte_inj a b : is_byte a -> is_byte b -> bits8 a = bits8 b -> a = b.
Proof.
  intros Ha Hb E. unfold bits8 in E. cbn [map] in E. injection E as E7 E6 E5 E4 E3 E2 E1 E0. apply Z.bits_inj. intros i.
  destruct (Z.lt_ge_cases i 0); [by rewrite !Z.testbit_neg_r by lia|]. unfold is_byte in *. destruct (Z.lt_ge_cases i 8).
  - assert (i = 0 \/ i = 1 \/ i = 2 \/ i = 3 \/ i = 4 \/ i = 5 \/ i = 6 \/ i = 7) as Hi by lia.
    by destruct Hi as [->|[->|[->|[->|[->|[->|[->| ->]]]]]]].
  - rewrite (proj1 (bound_bits 8 a ltac:(lia) ltac:(lia))), (proj1 (bound_bits 8 b ltac:(lia) ltac:(lia))) by lia. done.
Qed.

Lemma bits_inj l : forall k, length l = length k -> Forall is_byte l -> Forall is_byte k -> bits l = bits k -> l = k.
Proof.
  induction l as [|a l IH]; intros [|b k] Hlen Hl Hk E; try done. apply Forall_cons_1 in Hl as [Ha Hl], Hk as [Hb Hk].
  rewrite !bits_cons in E. apply app_inj_1 in E as [E1 E2]; [|done]. f_equal; [by apply bits_byte_inj|]. apply IH; try done. cbn in Hlen. lia.
Qed.

Lemma crc16_range bytes : Forall is_byte bytes -> 0 <= crc16 bytes < 65536.
Proof. intros H. unfold crc16. rewrite (crc16_run bytes H 0) by done. by apply (run_range 16 0x11021 ltac:(lia) range16). Qed.

Lemma frame_bytes block : Forall is_byte block -> Forall is_byte (frame block).
Proof.
  intros H. pose proof (crc16_range block H). apply Forall_app. split; [done|]. unfold is_byte.
  repeat constructor; [apply Z.div_pos; lia|apply Z.div_lt_upper_bound; lia|apply Z.mod_pos_bound; lia..].
Qed.

Lemma bits_length l : length (bits l) = (8 * length l)%nat.
Proof. induction l as [|b l IH]; [done|]. rewrite bits_cons, length_app, IH. cbn [length bits8 map]. lia. Qed.

Lemma coded_zero block hi lo : Forall is_byte (block ++ [hi; lo]) -> crc16 block = wire_word hi lo ->
  divide 16 0x11021 (bits (block ++ [hi; lo])) = 0.
Proof.
  intros HF E. apply Forall_app in HF as [Hb HF]. apply Forall_cons_1 in HF as [Hh HF]. apply Forall_cons_1 in HF as [Hl _].
  unfold divide. rewrite bits_app, fold_left_app, <- (crc16_run block Hb 0) by done. by apply code_zero.
Qed.

(** The check of [data] finds every damage of a block: when at most sixteen
    adjacent bits of the block and its code were changed on the way, and the code
    computed from the received bytes is the received code, nothing was changed. *)
Theorem crc16_detects block got hi lo :
  Forall is_byte block -> damaged (frame block) (got ++ [hi; lo]) -> crc16 got = wire_word hi lo ->
  got = block /\ wire_word hi lo = crc16 block.
Proof.
  intros Hb (Hlen & HF & Hburst) E. pose proof (crc16_range block Hb) as HR. pose proof (frame_bytes block Hb) as HFr.
  assert (E2 : bits (frame block) = bits (got ++ [hi; lo])).
  { apply (same_division 16 0x11021 ltac:(lia) eq_refl ltac:(lia)); [by rewrite !bits_length, Hlen|done|].
    rewrite (coded_zero got hi lo HF E). apply (coded_zero block); [done|].
    apply Forall_app in HFr as [_ HFr]. apply Forall_cons_1 in HFr as [H1 HFr]. apply Forall_cons_1 in HFr as [H2 _].
    rewrite (proj1 (wire_word_value _ _ H1 H2)). pose proof (Z.div_mod (crc16 block) 256). lia. }
  apply bits_inj in E2; [|by rewrite Hlen|done|done].
  assert (Eg : block = got) by (apply app_inj_2 in E2 as [E2 _]; done). by rewrite <- E, <- Eg.
Qed.

(** The code byte of CMD0 is 95, that of a block of 512 bytes FF is 7FA1. *)
Lemma crc_known :
  wrap8 (Z.lor (Z.shiftl (crc7 [0x40; 0; 0; 0; 0]) 1) 1) = 0x95 /\ crc16 (replicate 512 0xff) = 0x7fa1.
Proof. split; vm_compute; reflexivity. Qed.
