(* ===== verification/Storage.v ===== *)
(** * The storage path of the firmware: src/src/kernel/memory.c and the disk and
    clock clients of src/src/kernel/cp32-shell.c

    The filesystem task asks the memory task for the bytes of the root volume
    with messages, keeps whole blocks in the block cache, and asks the clock task
    for the time.  [cp32_mem_request] serves one request, [mem_task_turn] one
    turn of the task; the disk reader, writer and clock that the filesystem is
    given are [firmware_disk], proved to satisfy [DiskSpec].

    [_sendrec] is a trap: the interface [Transport] gives the status of the trap,
    and a trap that returns [OK] has carried the request to the task and its
    reply, with their senders, back.  The buffer of a caller is memory of the
    filesystem task, reached through [numap]. *)
From S2P Require Import Prelude Codec FsTypes MemDisk Super Read Cache Kconst Ktypes Sched Ipc IpcSpec Message.
From S2P Require Import Rootdisk Signals Clock.

(** The status with which the trap of [_sendrec] returns. *)
Class Transport := {
  sendrec_status : kst -> Z -> Z;
  sendrec_error : forall k dest, sendrec_status k dest <= 0 }.

Section MemTask.
Context {C : Type} `{CARD : Card C}.
Abbreviation SM := (M (kst * (root * C))).

(** A call of the root volume driver. *)
Definition root_call {A} (c : M (root * C) A) : SM A := fun '(k, w) =>
  let (r, w) := c w in (r, (k, w)).

(** The chunk of the next turn: at most the local buffer and one sector. *)
Definition chunk_of (offset count transferred : Z) : Z :=
  let chunk := count -u transferred in
  let chunk := if 64 <? chunk then 64 else chunk in
  if 512 - (offset +u transferred) mod 512 <? chunk then 512 - (offset +u transferred) mod 512 else chunk.

Definition read_chunk (user at_ transferred chunk : Z) : SM unit :=
  r <- try (root_call (cp32_root_read at_ nonnull chunk)) ;;
  match r with
  | Err _ => fail EIO
  | Ok bytes => modify (fun '(k, w) => (store_mem (user + transferred) bytes k, w))
  end.

Definition write_chunk (user at_ transferred chunk : Z) : SM unit :=
  bytes <- gets (fun '(k, _) => mem_read (k_mem k) (user + transferred) chunk) ;;
  r <- try (root_call (cp32_root_write at_ nonnull bytes chunk)) ;;
  match r with Err _ => fail EIO | Ok _ => ret tt end.

(** One turn of [while (transferred < count)]. *)
Definition transfer_turn (type user offset count transferred : Z) : SM (turn Z Z) :=
  if transferred <? count then
    let chunk := chunk_of offset count transferred in
    (if type =? DEV_READ then read_chunk user (offset +u transferred) transferred chunk
     else write_chunk user (offset +u transferred) transferred chunk) ;;;
    ret (Continue (transferred +u chunk))
  else ret (Break transferred).

(** [static int cp32_mem_request(const message *request)] *)
Definition cp32_mem_request (request : message) : SM Z :=
  capacity <- gets (fun '(_, w) => cp32_root_capacity (fst w)) ;;
  guard (m_source request !=? FS_PROC_NR) EPERM ;;;
  guard (DEVICE request !=? RAM_DEV) ENXIO ;;;
  let type := m_type request in
  if type =? DEV_OPEN then ret (if truthy capacity then OK else ENXIO)
  else if type =? DEV_CLOSE then ret OK
  else if type =? CP32_DEV_SYNC then
    if negb (truthy capacity) then ret ENXIO else
    r <- try (root_call cp32_root_sync) ;;
    match r with Err _ => ret EIO | Ok _ => ret OK end
  else if negb ((type =? DEV_READ) || (type =? DEV_WRITE)) then ret EINVAL else
  guard (negb (truthy capacity)) ENXIO ;;;
  writable <- gets (fun '(_, w) => cp32_root_writable (fst w)) ;;
  guard ((type =? DEV_WRITE) && negb writable) EROFS ;;;
  guard ((COUNT request <=? 0) || (POSITION request <? 0)) EINVAL ;;;
  user <- gets (fun '(k, _) => numap k (PROC_NR request) (ADDRESS request) (COUNT request)) ;;
  guard (user =? 0) EFAULT ;;;
  if capacity <=? POSITION request then ret 0 else
  let offset := POSITION request in
  let count := COUNT request in
  let count := if capacity -u offset <? count then capacity -u offset else count in
  loop (Z.to_nat count) (transfer_turn type user offset count) ret 0.

(** What a call returns, by [return] or by falling through. *)
Definition result (r : res Z) : Z := match r with Ok x => x | Err e => e end.

(** One turn of [mem_task]: the reply, or none for a request that is not from
    the filesystem. *)
Definition mem_task_turn (request : message) (s : kst * (root * C)) : option message * (kst * (root * C)) :=
  if m_source request !=? FS_PROC_NR then (None, s) else
  let owner := PROC_NR request in
  let (r, s) := cp32_mem_request request s in
  (Some (set_word 3 (result r) (set_word 2 owner (set_word 1 TASK_REPLY request))), s).
End MemTask.

(** ** The clients in the filesystem task *)
Record fw (C : Type) := Fw { f_kernel : cst; f_root : root * C }.
Arguments Fw {C}.
Arguments f_kernel {C}.
Arguments f_root {C}.

Section Clients.
Context {C : Type} `{CARD : Card C} `{SIG : SigSet} `{TRAP : Transport}.
(** Arguments of the clock task, and the caller's buffer. *)
Context (m_at mess_at : Z) (run_watchdog : Z -> M cst unit) (buffer_at : Z).

Definition fw_k (f : fw C) : kst := c_k (f_kernel f).
Definition set_fw_k (k : kst) (f : fw C) : fw C := Fw (kproc (fun _ => k) (f_kernel f)) (f_root f).

(** [_sendrec(MEM, &request)] from the filesystem: its status and [request].
    Without a reply, which these requests do not meet, the caller stays blocked;
    the status then stands for that. *)
Definition sendrec_mem (request : message) (f : fw C) : (Z * message) * fw C :=
  if sendrec_status (fw_k f) MEM_TASK !=? OK then ((sendrec_status (fw_k f) MEM_TASK, request), f) else
  let (reply, s) := mem_task_turn (set_word 0 FS_PROC_NR request) (fw_k f, f_root f) in
  let f := Fw (f_kernel (set_fw_k (fst s) f)) (snd s) in
  match reply with
  | Some m => ((OK, set_word 0 MEM_TASK m), f)
  | None => ((ELOCKED, request), f)
  end.

(** [_sendrec(CLOCK, &m)] *)
Definition sendrec_clock (m : message) (f : fw C) : (Z * message) * fw C :=
  if sendrec_status (fw_k f) CLOCK !=? OK then ((sendrec_status (fw_k f) CLOCK, m), f) else
  match cp32_clock_task_dispatch m_at mess_at run_watchdog (set_word 0 FS_PROC_NR m) (f_kernel f) with
  | (Ok (true, m), c) => ((OK, set_word 0 CLOCK m), Fw c (f_root f))
  | (_, c) => ((ELOCKED, m), Fw c (f_root f))
  end.

(** The request that [cp32_shell_disk_io] fills in. *)
Definition disk_request (operation offset buffer count : Z) : message :=
  set_word 7 buffer (set_word 4 count (set_word 5 offset (set_word 3 FS_PROC_NR
    (set_word 2 RAM_DEV (set_word 1 operation clear_message))))).

Definition cp32_shell_disk_io (operation offset buffer count : Z) (s : cache * fw C) : Z * (cache * fw C) :=
  let (c, f) := s in
  let request := disk_request operation offset buffer count in
  let c := if operation =? DEV_WRITE then cp32_cache_invalidate c else c in
  let '((r, m), f) := sendrec_mem request f in
  (if r !=? OK then r
   else if (m_source m !=? MEM_TASK) || (m_type m !=? TASK_REPLY) || (REP_PROC_NR m !=? FS_PROC_NR) ||
           (count <? REP_STATUS m) then EIO
   else REP_STATUS m, (c, f)).

Definition SHELL_UNCACHED : fptr := 11.
Definition SHELL_READ : fptr := 12.
Definition SHELL_WRITE : fptr := 13.
Definition SHELL_CLOCK : fptr := 14.

(** Where [n] bytes of the caller's buffer are in memory. *)
Definition buffer_phys (f : fw C) (n : Z) : Z := numap (fw_k f) FS_PROC_NR (wrap32 buffer_at) n.

(** [cp32_shell_disk_uncached], called by the cache: it does not reenter it. *)
Definition cp32_shell_disk_uncached (offset n : Z) (f : fw C) : (Z * list Z) * fw C :=
  let '(r, (_, f)) := cp32_shell_disk_io DEV_READ offset buffer_at n (boot_cache, f) in
  ((r, mem_read (k_mem (fw_k f)) (buffer_phys f n) (Z.max 0 (Z.min r n))), f).

(** An offset of the C code is unsigned. *)
Definition is_offset (off : Z) : bool := (0 <=? off) && (off <? 4294967296).

#[export] Instance firmware_raw : Raw (fw C) := {
  rw_read := fun _ off n f => if is_offset off then cp32_shell_disk_uncached off n f else ((-1, []), f) }.

(** [cp32_shell_disk_read]: the result and the bytes put in [buffer]. *)
Definition cp32_shell_disk_read (offset n : Z) (s : cache * fw C) : (Z * list Z) * (cache * fw C) :=
  match cp32_cache_read SHELL_UNCACHED (cp32_root_capacity (fst (f_root (snd s)))) offset nonnull n s with
  | (Ok bytes, s) => ((n, bytes), s)
  | (Err e, s) => ((e, []), s)
  end.

(** [cp32_shell_disk_write], with [bytes] in the caller's buffer. *)
Definition cp32_shell_disk_write (offset : Z) (bytes : list Z) (s : cache * fw C) : Z * (cache * fw C) :=
  let (c, f) := s in
  let phys := buffer_phys f (lenZ bytes) in
  let f := if phys =? 0 then f else set_fw_k (store_mem phys bytes (fw_k f)) f in
  cp32_shell_disk_io DEV_WRITE offset buffer_at (lenZ bytes) (c, f).

(** [cp32_shell_clock(setting, &seconds)]: the status and [seconds]. *)
Definition cp32_shell_clock (setting : bool) (seconds : Z) (f : fw C) : (Z * Z) * fw C :=
  if setting && (0x7fffffff <? seconds) then ((-22, seconds), f) else
  let m := set_word 1 (if setting then SET_TIME else GET_TIME) clear_message in
  let m := if setting then set_word 5 seconds m else m in
  let '((r, m), f) := sendrec_clock m f in
  if (r !=? OK) || (m_source m !=? CLOCK) || (m_type m !=? OK) then ((-5, seconds), f) else
  if setting then ((0, seconds), f) else
  if 0x7fffffff <? wrap32 (NEW_TIME m) then ((-75, seconds), f) else
  ((0, wrap32 (NEW_TIME m)), f).

(** The filesystem's storage: the pointers it is given by the shell. *)
#[export] Instance firmware_disk : Disk (cache * fw C) := {
  dk_read := fun p off n s => if (p =? SHELL_READ) && is_offset off then cp32_shell_disk_read off n s else ((-1, []), s);
  dk_write := fun p off bs s => if (p =? SHELL_WRITE) && is_offset off then cp32_shell_disk_write off bs s else (-1, s);
  dk_clock := fun p s => if p =? SHELL_CLOCK
    then let '(x, f) := cp32_shell_clock false 0 (snd s) in (x, (fst s, f)) else ((-1, 0), s);
  dk_invalidate := fun s => (cp32_cache_invalidate (fst s), snd s) }.
End Clients.

(** ** What the memory task does *)
Section TaskProofs.
Context {C : Type} `{CARD : Card C} `{SPEC : !CardSpec C}.
Abbreviation SM := (M (kst * (root * C))).

Lemma chunk_of_spec offset count t :
  0 <= offset -> offset + count < 4294967296 -> 0 <= t < count ->
  1 <= chunk_of offset count t <= count - t /\ (offset + t) mod 512 + chunk_of offset count t <= 512.
Proof.
  intros Ho Hc Ht. unfold chunk_of. unwrap. pose proof (Z.mod_pos_bound (offset + t) 512 ltac:(lia)).
  destruct (Z.ltb_spec 64 (count - t)).
  - destruct (Z.ltb_spec (512 - (offset + t) mod 512) 64); lia.
  - destruct (Z.ltb_spec (512 - (offset + t) mod 512) (count - t)); lia.
Qed.

Lemma mem_write_read_app m m' off a n k :
  0 <= n -> 0 <= k ->
  mem_write (mem_write m a (mem_read m' off n)) (a + n) (mem_read m' (off + n) k) ≡m
  mem_write m a (mem_read m' off (n + k)).
Proof.
  intros Hn Hk. rewrite mem_read_app by done. rewrite <- mem_write_app. by rewrite lenZ_mem_read.
Qed.

(** The kernel but for its memory. *)
Definition same_kernel (k k' : kst) : Prop := k' = set_k_mem (k_mem k') k.

Lemma same_kernel_refl k : same_kernel k k.
Proof. by destruct k. Qed.

Lemma same_kernel_store k k' a bs : same_kernel k k' -> same_kernel k (store_mem a bs k').
Proof. unfold same_kernel, store_mem. intros ->. done. Qed.

Lemma same_kernel_numap k k' nr vir len : same_kernel k k' -> numap k' nr vir len = numap k nr vir len.
Proof. intros ->. done. Qed.

Section Transfer.
Context (k0 : kst) (w0 : root * C) (user offset count : Z).
Hypothesis Hok : root_ok w0.
Hypothesis Hoff : 0 <= offset.
Hypothesis Hcnt : 0 < count.
Hypothesis Hfits : offset + count <= capacity (fst w0).

(** [t] bytes have been delivered. *)
Definition delivered_to (t : Z) (s : kst * (root * C)) : Prop :=
  same_kernel k0 (fst s) /\ serving w0 (snd s) /\
  k_mem (fst s) ≡m mem_write (k_mem k0) user (mem_read (vol_data w0) offset t).

Definition delivery_failed (e : Z) (s : kst * (root * C)) : Prop :=
  e = EIO /\ ~ card_reliable (C := C) /\ exists t, 0 <= t < count /\ delivered_to t s.

Lemma read_chunk_spec t n :
  0 <= t -> 1 <= n -> t + n <= count ->
  hoare (delivered_to t) (read_chunk user (offset + t) t n)
    (fun _ => delivered_to (t + n)) delivery_failed.
Proof.
  intros Ht Hn Hle [k w] (Hk & [Hw Hs] & Hm). unfold read_chunk, try, root_call, bind.
  pose proof (root_read_ok w (offset + t) nonnull n Hw ltac:(lia) ltac:(lia)) as HR.
  pose proof Hs as (Hst & Hcap & _ & _ & Hd). cbn [fst snd] in *.
  destruct (cp32_root_read (offset + t) nonnull n w) as [[e|bs] w']; cbn.
  - destruct HR as ([Hw' Hs'] & _ & Hrel). split; [done|]. split.
    + intros HC. apply (Hrel HC). unfold fits. rewrite Hcap. split_and!; try lia. by right.
    + exists t. split; [lia|]. split; [done|]. split; [|done]. split; [done|]. by etransitivity.
  - destruct HR as ([Hw' Hs'] & _ & ->). split; [by apply same_kernel_store|]. split.
    + split; [done|]. by etransitivity.
    + cbn [fst k_mem store_mem set_k_mem]. cbn in Hm. rewrite Hm.
      replace (mem_read (vol_data w) (offset + t) n) with (mem_read (vol_data w0) (offset + t) n) by (by rewrite Hd).
      apply mem_write_read_app; lia.
Qed.

(** [t] bytes have been stored, from a buffer that does not change. *)
Definition stored_from (t : Z) (s : kst * (root * C)) : Prop :=
  fst s = k0 /\ root_ok (snd s) /\ volume_start (fst (snd s)) = volume_start (fst w0) /\
  capacity (fst (snd s)) = capacity (fst w0) /\ write_failed (fst (snd s)) = 0 /\
  cp32_sdcard_sectors (snd (snd s)) = cp32_sdcard_sectors (snd w0) /\
  vol_data (snd s) ≡m mem_write (vol_data w0) offset (mem_read (k_mem k0) user t).

(** The volume takes no more writes, and differs only in the sectors of the request. *)
Definition store_failed (e : Z) (s : kst * (root * C)) : Prop :=
  e = EIO /\ fst s = k0 /\ root_ok (snd s) /\ capacity (fst (snd s)) = capacity (fst w0) /\
  write_failed (fst (snd s)) = 1 /\
  forall a, a / 512 < offset / 512 \/ (offset + count - 1) / 512 < a / 512 ->
    vol_data (snd s) a = vol_data w0 a.

Lemma write_chunk_spec t n :
  0 <= t -> 1 <= n -> t + n <= count -> (offset + t) mod 512 + n <= 512 ->
  hoare (stored_from t) (write_chunk user (offset + t) t n) (fun _ => stored_from (t + n)) store_failed.
Proof.
  intros Ht Hn Hle H512 [k w] (Hk & Hw & Hst & Hcap & Hwf & Hsec & Hd). cbn in Hk, Hw, Hst, Hcap, Hwf, Hsec, Hd. subst k.
  unfold write_chunk. rewrite bind_gets. unfold bind, try, root_call.
  set (bs := mem_read (k_mem k0) (user + t) n).
  assert (Hbs : lenZ bs = n) by (apply lenZ_mem_read; lia).
  pose proof (root_write_spec w (offset + t) nonnull bs n Hw ltac:(lia) ltac:(lia)) as HW.
  pose proof (ro_capacity _ Hw).
  assert (Hallow : write_allowed (fst w) (offset + t) nonnull n).
  { unfold write_allowed, fits, cp32_root_writable, truthy. rewrite Hwf, Hcap.
    split_and!; try lia. by right. }
  destruct (cp32_root_write (offset + t) nonnull bs n w) as [[e|x] w']; cbn.
  - destruct HW as [_ [[HW _]|(_ & _ & HW)]]; [done|].
    destruct HW as (W1 & W2 & W3 & W4 & W5 & W6 & W7). unfold store_failed. cbn.
    split_and!; try (done || congruence). intros a Ha.
    rewrite W7, Hd by (Z.div_mod_to_equations; lia).
    apply mem_write_out. rewrite lenZ_mem_read by lia. Z.div_mod_to_equations; lia.
  - destruct HW as (_ & _ & W1 & W2 & W3 & W4 & W5 & W6).
    unfold stored_from. cbn. split_and!; try (done || congruence).
    rewrite W6, Hd. rewrite take_ge by (unfold lenZ in Hbs; lia). subst bs. apply mem_write_read_app; lia.
Qed.

(** The loop of either direction, from the behaviour of one chunk. *)
Lemma transfer_spec (type : Z) (I : Z -> kst * (root * C) -> Prop) R :
  (forall t n, 0 <= t -> 1 <= n -> t + n <= count -> (offset + t) mod 512 + n <= 512 ->
     hoare (I t) (if type =? DEV_READ then read_chunk user (offset + t) t n else write_chunk user (offset + t) t n)
       (fun _ => I (t + n)) R) ->
  hoare (I 0) (loop (Z.to_nat count) (transfer_turn type user offset count) ret 0)
    (fun r s => r = count /\ I count s) R.
Proof.
  intros Hstep. pose proof (ro_capacity _ Hok).
  eapply hoare_conseq with (R' := R) (Q' := fun r s => r = count /\ I count s);
    [apply (hoare_loop (fun fuel t s => (0 <= t <= count /\ count - t <= Z.of_nat fuel) /\ I t s))| |done|done].
  - intros fuel t. unfold transfer_turn. destruct (Z.ltb_spec t count); cycle 1.
    { apply hoare_ret. intros s [? Hs]. by replace count with t by lia. }
    intros s [[Hr Hf] Hs].
    destruct (chunk_of_spec offset count t ltac:(lia) ltac:(lia) ltac:(lia)) as [Hc Hc'].
    cbv zeta. rewrite !(wrap32_small (offset + t)) by lia. rewrite !(wrap32_small (t + _)) by lia.
    specialize (Hstep t (chunk_of offset count t) ltac:(lia) ltac:(lia) ltac:(lia) ltac:(lia) s Hs).
    unfold bind. destruct (_ s) as [[e|x] s']; cbn; [done|]. split; [lia|done].
  - intros t. apply hoare_ret. intros s [? Hs]. by replace count with t by lia.
  - intros s Hs. split; [lia|done].
Qed.

Lemma read_transfer_spec :
  hoare (fun s => s = (k0, w0)) (loop (Z.to_nat count) (transfer_turn DEV_READ user offset count) ret 0)
    (fun r s => r = count /\ delivered_to count s) delivery_failed.
Proof.
  eapply hoare_conseq; [apply (transfer_spec DEV_READ delivered_to delivery_failed)| |done|done].
  - intros. by apply read_chunk_spec.
  - intros s ->. split; [apply same_kernel_refl|]. split; [by split|]. cbn.
    symmetry. apply mem_write_nil.
Qed.

Lemma write_transfer_spec :
  write_failed (fst w0) = 0 ->
  hoare (fun s => s = (k0, w0)) (loop (Z.to_nat count) (transfer_turn DEV_WRITE user offset count) ret 0)
    (fun r s => r = count /\ stored_from count s) store_failed.
Proof.
  intros Hwf. eapply hoare_conseq; [apply (transfer_spec DEV_WRITE stored_from store_failed)| |done|done].
  - intros. by apply write_chunk_spec.
  - intros s ->. unfold stored_from. cbn. split_and!; try done. symmetry. apply mem_write_nil.
Qed.
End Transfer.

Lemma root_sync_spec w :
  root_ok w ->
  match cp32_root_sync w with
  | (Ok _, w') => serving w w' /\ capacity (fst w) <> 0 /\ write_failed (fst w) = 0
  | (Err _, w') => root_ok w' /\ capacity (fst w') = capacity (fst w) /\
      volume_start (fst w') = volume_start (fst w) /\ vol_data w' ≡m vol_data w
  end.
Proof.
  intros Hw. unfold cp32_root_sync, getr. rewrite bind_gets, bind_guard.
  destruct (negb (truthy _) || _) eqn:Hb; [done|].
  apply orb_false_iff in Hb as [Hc%negb_false_iff%truthy_true Hf%truthy_false].
  unfold sync_card, bind. destruct w as [r c]. cbn [fst snd] in *.
  pose proof (cd_sync c (ro_card _ Hw)) as HS. destruct (cp32_sdcard_sync c) as [s c'].
  destruct HS as (S1 & S2 & S3).
  assert (HD : vol_data (r, c') ≡m vol_data (r, c)) by (intros a; apply S2).
  destruct (truthy s); cbn.
  - split_and!; try done. destruct Hw as [W1 W2 W3 W4 W5 W6 W7]. constructor; cbn in *; try done. by rewrite S3.
  - split_and!; try done. unfold serving. split; [|done].
    destruct Hw as [W1 W2 W3 W4 W5 W6 W7]. constructor; cbn in *; try (done || lia).
    + intros Ht. rewrite (W4 Ht). by rewrite S2.
Qed.

(** ** The answer to every request *)

(** The buffer of the process that the request is for. *)
Definition user_of (request : message) (k : kst) : Z :=
  numap k (PROC_NR request) (ADDRESS request) (COUNT request).

(** The bytes moved: the request, cut at the end of the volume. *)
Definition moved (request : message) (w : root * C) : Z :=
  Z.min (COUNT request) (capacity (fst w) - POSITION request).

(** A request that is refused before anything is read or written. *)
Inductive refused (request : message) (k : kst) (w : root * C) : Z -> Prop :=
| NotFs : m_source request <> FS_PROC_NR -> refused request k w EPERM
| NotRoot : DEVICE request <> RAM_DEV -> refused request k w ENXIO
| NoVolume : capacity (fst w) = 0 -> m_type request <> DEV_CLOSE -> refused request k w ENXIO
| BadType : ~ In (m_type request) [DEV_READ; DEV_WRITE; DEV_OPEN; DEV_CLOSE; CP32_DEV_SYNC] ->
    refused request k w EINVAL
| ReadOnly : m_type request = DEV_WRITE -> write_failed (fst w) <> 0 -> refused request k w EROFS
| BadRange : COUNT request <= 0 \/ POSITION request < 0 -> refused request k w EINVAL
| BadBuffer : user_of request k = 0 -> refused request k w EFAULT.

Inductive answered (request : message) (k : kst) (w : root * C) : Z -> kst * (root * C) -> Prop :=
| Refused e : refused request k w e -> answered request k w e (k, w)
| OpenClose : m_type request = DEV_OPEN \/ m_type request = DEV_CLOSE -> answered request k w OK (k, w)
| Synced w' : m_type request = CP32_DEV_SYNC -> write_failed (fst w) = 0 -> serving w w' ->
    answered request k w OK (k, w')
| NotSynced w' : m_type request = CP32_DEV_SYNC -> root_ok w' -> capacity (fst w') = capacity (fst w) ->
    vol_data w' ≡m vol_data w -> answered request k w EIO (k, w')
| AtEnd : 0 < COUNT request -> capacity (fst w) <= POSITION request -> answered request k w 0 (k, w)
| Read s' : m_type request = DEV_READ -> user_of request k <> 0 -> 0 < moved request w -> 0 <= POSITION request ->
    delivered_to k w (user_of request k) (POSITION request) (moved request w) s' ->
    answered request k w (moved request w) s'
| NotRead s' : m_type request = DEV_READ ->
    0 <= POSITION request -> delivery_failed k w (user_of request k) (POSITION request) (moved request w) EIO s' ->
    answered request k w EIO s'
| Written s' : m_type request = DEV_WRITE -> user_of request k <> 0 -> 0 < moved request w -> 0 <= POSITION request ->
    stored_from k w (user_of request k) (POSITION request) (moved request w) s' ->
    answered request k w (moved request w) s'
| NotWritten s' : m_type request = DEV_WRITE -> 0 < moved request w -> 0 <= POSITION request ->
    store_failed k w (POSITION request) (moved request w) EIO s' -> answered request k w EIO s'.

Lemma transfer_answered request k w :
  root_ok w -> m_type request = DEV_READ \/ m_type request = DEV_WRITE ->
  (m_type request = DEV_WRITE -> write_failed (fst w) = 0) ->
  0 < COUNT request -> 0 <= POSITION request < capacity (fst w) -> user_of request k <> 0 ->
  let (r, s') := loop (Z.to_nat (moved request w))
    (transfer_turn (m_type request) (user_of request k) (POSITION request) (moved request w)) ret 0 (k, w) in
  answered request k w (result r) s'.
Proof.
  intros Hw Htype Hwf Hc Hp Hu. assert (Hm : 0 < moved request w) by (unfold moved; lia).
  assert (Hfit : POSITION request + moved request w <= capacity (fst w)) by (unfold moved; lia).
  destruct Htype as [Ht|Ht]; rewrite Ht.
  - pose proof (read_transfer_spec k w (user_of request k) (POSITION request) (moved request w) Hw
      ltac:(lia) Hm Hfit (k, w) eq_refl) as H.
    destruct (loop _ _ _ _ _) as [[e|n] s']; cbn [result].
    + assert (e = EIO) as -> by apply H. apply NotRead; done || lia. + destruct H as [-> H]. apply Read; done || lia.
  - pose proof (write_transfer_spec k w (user_of request k) (POSITION request) (moved request w) Hw
      ltac:(lia) Hm Hfit (Hwf Ht) (k, w) eq_refl) as H.
    destruct (loop _ _ _ _ _) as [[e|n] s']; cbn [result].
    + assert (e = EIO) as -> by apply H. apply NotWritten; done || lia. + destruct H as [-> H]. apply Written; done || lia.
Qed.

(** The memory task serves the root volume exactly.  A request that is not
    from the filesystem, not for this device, out of range, for a buffer that is
    not mapped, or a write on a volume that takes none is refused and nothing
    changes.  A read that is answered with a count has put exactly that many
    bytes of the volume, the request cut at the end of the volume, into the
    caller's buffer and changed nothing else; a write has stored exactly the
    caller's bytes.  A read can only fail half way when the card does not answer;
    a write that fails leaves the other sectors alone and the volume read-only. *)
Theorem mem_request_exact request k w :
  root_ok w ->
  let (r, s') := cp32_mem_request request (k, w) in answered request k w (result r) s'.
Proof.
  intros Hw. pose proof (ro_capacity _ Hw) as Hcap. unfold cp32_mem_request, cp32_root_capacity.
  rewrite bind_gets, bind_guard. destruct (Z.eqb_spec (m_source request) FS_PROC_NR); cbn [negb];
    [|by apply Refused, NotFs].
  rewrite bind_guard. destruct (Z.eqb_spec (DEVICE request) RAM_DEV); cbn [negb]; [|by apply Refused, NotRoot].
  cbv zeta. destruct (Z.eqb_spec (m_type request) DEV_OPEN) as [E|].
  { unfold truthy. cbn. destruct (Z.eqb_spec (capacity (fst w)) 0); cbn.
    - apply Refused, NoVolume; [done|rewrite E; done]. - apply OpenClose. by left. }
  destruct (Z.eqb_spec (m_type request) DEV_CLOSE) as [E|]; [cbn; apply OpenClose; by right|].
  destruct (Z.eqb_spec (m_type request) CP32_DEV_SYNC) as [E|].
  { unfold truthy. destruct (Z.eqb_spec (capacity (fst w)) 0); cbn [negb]; [by apply Refused, NoVolume|].
    unfold bind, try, root_call. pose proof (root_sync_spec w Hw) as HS.
    destruct (cp32_root_sync w) as [[x|[]] w']; cbn.
    - destruct HS as (? & ? & _ & ?). by apply NotSynced. - destruct HS as (? & _ & ?). by apply Synced. }
  destruct (_ || _) eqn:Ht; cbn [negb]; cycle 1.
  { cbn. apply Refused, BadType. apply orb_false_iff in Ht as [?%Z.eqb_neq ?%Z.eqb_neq]. cbn. intuition congruence. }
  rewrite bind_guard. unfold truthy. destruct (Z.eqb_spec (capacity (fst w)) 0); cbn [negb].
  { apply Refused, NoVolume; [done|]. done. }
  rewrite bind_gets, bind_guard.
  assert (Hwr : (m_type request =? DEV_WRITE) && negb (cp32_root_writable (fst w)) = true ->
    m_type request = DEV_WRITE /\ write_failed (fst w) <> 0).
  { unfold cp32_root_writable, truthy. lia. }
  assert (Hwo : (m_type request =? DEV_WRITE) && negb (cp32_root_writable (fst w)) = false ->
    m_type request = DEV_WRITE -> write_failed (fst w) = 0).
  { unfold cp32_root_writable, truthy. lia. }
  destruct ((m_type request =? DEV_WRITE) && _); [destruct (Hwr eq_refl); by apply Refused, ReadOnly|]. specialize (Hwo eq_refl).
  rewrite bind_guard. destruct ((COUNT request <=? 0) || _) eqn:Hr; [apply Refused, BadRange; lia|].
  rewrite bind_gets, bind_guard. cbv beta iota. fold (user_of request k). destruct (Z.eqb_spec (user_of request k) 0); [by apply Refused, BadBuffer|].
  destruct (Z.leb_spec (capacity (fst w)) (POSITION request)); [apply AtEnd; lia|].
  assert (Hmv : (if capacity (fst w) -u POSITION request <? COUNT request
    then capacity (fst w) -u POSITION request else COUNT request) = moved request w).
  { unfold moved. rewrite wrap32_small by lia. destruct (Z.ltb_spec (capacity (fst w) - POSITION request) (COUNT request)); lia. }
  rewrite Hmv. apply transfer_answered; try (done || lia).
Qed.
(** What an answer says about the volume, the memory and the status. *)
Lemma answered_range request k (w : root * C) r s' :
  root_ok w -> answered request k w r s' -> -2147483648 <= r < 2147483648.
Proof.
  intros Hw H. pose proof (ro_capacity _ Hw).
  assert (moved request w <= COUNT request) by (unfold moved; lia).
  pose proof (to_int_range (nthZ request 4)). unfold COUNT, m2_i3, int_at in *.
  destruct H as [e H| | | | | | | |]; try (unfold OK, EIO; lia).
  destruct H; unfold EPERM, ENXIO, EINVAL, EROFS, EFAULT; lia.
Qed.

Lemma moved_le request (w : root * C) : moved request w <= COUNT request.
Proof. unfold moved. lia. Qed.

Lemma answered_le request k (w : root * C) r s' : 0 <= COUNT request -> answered request k w r s' -> r <= COUNT request.
Proof.
  intros Hc H. pose proof (moved_le request w).
  destruct H as [e H| | | | | | | |]; try (unfold OK, EIO; lia).
  destruct H; unfold EPERM, ENXIO, EINVAL, EROFS, EFAULT; lia.
Qed.

Lemma read_answered k (w : root * C) q r s' :
  root_ok w -> m_type q = DEV_READ -> answered q k w r s' ->
  same_kernel k (fst s') /\ serving w (snd s') /\
  (0 < r -> 0 <= POSITION q /\ r <= COUNT q /\ POSITION q + r <= capacity (fst w) /\
    mem_read (k_mem (fst s')) (user_of q k) r = mem_read (vol_data w) (POSITION q) r).
Proof.
  intros Hw Ht H. assert (Hk : same_kernel k k) by apply same_kernel_refl. assert (Hs : serving w w) by done.
  destruct H as [e H| |w'|w'| |s' _ _ Hm Hp (H1 & H2 & H3)|s' _ Hp (_ & _ & t & _ & H1 & H2 & _)|s'|s']; try (by rewrite Ht in *).
  - split_and!; try done. destruct H; unfold EPERM, ENXIO, EINVAL, EROFS, EFAULT; lia.
  - by split_and!.
  - split_and!; try done. intros _. split_and!; try (done || (unfold moved; lia)). rewrite H3.
    pose proof (mem_read_write (k_mem k) (user_of q k) (mem_read (vol_data w) (POSITION q) (moved q w))) as H.
    by rewrite lenZ_mem_read in H by lia.
  - by split_and!.
Qed.

Lemma write_answered k (w : root * C) q r s' :
  root_ok w -> m_type q = DEV_WRITE -> answered q k w r s' ->
  fst s' = k /\ root_ok (snd s') /\ capacity (fst (snd s')) = capacity (fst w) /\
  (forall a, (0 <= POSITION q -> 0 < COUNT q ->
      a / 512 < POSITION q / 512 \/ (POSITION q + COUNT q - 1) / 512 < a / 512) ->
    vol_data (snd s') a = vol_data w a) /\
  (r = 0 -> 0 < COUNT q) /\
  (0 < r -> user_of q k <> 0 /\ 0 <= POSITION q /\ r <= COUNT q /\ POSITION q + r <= capacity (fst w) /\
    vol_data (snd s') ≡m mem_write (vol_data w) (POSITION q) (mem_read (k_mem k) (user_of q k) r)).
Proof.
  intros Hw Ht H. pose proof (moved_le q w) as Hmv.
  destruct H as [e H|[E|E]|w'|w'|Hc He|s'|s'|s' _ Hu Hm Hp (H1 & H2 & _ & H3 & _ & _ & H4)|s' _ Hm Hp (_ & H1 & H2 & H3 & _ & H4)];
    try (by rewrite Ht in *).
  - split_and!; try done; destruct H; unfold EPERM, ENXIO, EINVAL, EROFS, EFAULT; lia.
  - by split_and!.
  - split_and!; try done.
    + intros a Ha. specialize (Ha Hp ltac:(lia)). rewrite H4. apply mem_write_out.
      rewrite lenZ_mem_read by lia. Z.div_mod_to_equations; lia.
    + lia.
    + intros _. split_and!; try (done || (unfold moved; lia)).
  - split_and!; try done.
    intros a Ha. specialize (Ha Hp ltac:(lia)). apply H4. Z.div_mod_to_equations; lia.
Qed.

End TaskProofs.

(** ** The firmware's storage *)
Section ClientProofs.
Context {C : Type} `{CARD : Card C} `{SPEC : !CardSpec C} `{SIG : SigSet} `{TRAP : Transport}.
Context (m_at mess_at : Z) (run_watchdog : Z -> M cst unit) (buffer_at : Z).

Definition set_fw_io (s : kst * (root * C)) (f : fw C) : fw C := Fw (kproc (fun _ => fst s) (f_kernel f)) (snd s).

(** A request of the shell is answered by the memory task, or fails with a
    negative status and nothing changes. *)
Lemma disk_io_spec operation offset n c f :
  root_ok (f_root f) ->
  let q := set_word 0 FS_PROC_NR (disk_request operation offset buffer_at n) in
  let '(r, (c', f')) := cp32_shell_disk_io operation offset buffer_at n (c, f) in
  c' = (if operation =? DEV_WRITE then cp32_cache_invalidate c else c) /\
  exists s', f' = set_fw_io s' f /\
    ((r < 0 /\ exists r', answered q (fw_k f) (f_root f) r' s' /\ n < r') \/
     (r < 0 /\ sendrec_status (fw_k f) MEM_TASK <> OK /\ s' = (fw_k f, f_root f)) \/ answered q (fw_k f) (f_root f) r s').
Proof.
  intros Hw q. unfold cp32_shell_disk_io, sendrec_mem.
  pose proof (sendrec_error (fw_k f) MEM_TASK). destruct (Z.eqb_spec (sendrec_status (fw_k f) MEM_TASK) OK); cbn [negb].
  - fold q. unfold mem_task_turn. replace (m_source q) with FS_PROC_NR by done. cbn [negb Z.eqb Pos.eqb].
    change (FS_PROC_NR =? FS_PROC_NR) with true. cbn [negb].
    pose proof (mem_request_exact q (fw_k f) (f_root f) Hw) as HA.
    destruct (cp32_mem_request q (fw_k f, f_root f)) as [r s']. cbn [fst snd negb].
    change (OK !=? OK) with false. cbn iota. split; [done|]. exists s'. split; [done|].
    set (m := set_word 0 MEM_TASK _).
    replace (m_source m) with MEM_TASK by done. replace (m_type m) with TASK_REPLY by done.
    replace (REP_PROC_NR m) with FS_PROC_NR by done.
    replace (REP_STATUS m) with (result r).
    2: { change (REP_STATUS m) with (to_int (wrap32 (result r))). rewrite to_int_wrap, to_int_id; [done|].
         by eapply answered_range. }
    rewrite !Z.eqb_refl. cbn [negb orb]. destruct (Z.ltb_spec n (result r)); [left; split; [unfold EIO; lia|by exists (result r)]|].
    right. by right.
  - replace (sendrec_status (fw_k f) MEM_TASK =? OK) with false by lia. cbn [negb].
    split; [done|]. exists (fw_k f, f_root f).
    split; [by destruct f as [[[k p] cl] w]|]. right. left. unfold OK in *. split; [lia|by split].
Qed.

(** The buffers of the filesystem's transfers are mapped. *)
Definition buffer_mapped (f : fw C) : Prop := forall n, 0 < n <= 1024 -> buffer_phys buffer_at f n <> 0.

Lemma buffer_same f f' : same_kernel (fw_k f) (fw_k f') -> buffer_mapped f -> buffer_mapped f'.
Proof. intros Hk H n Hn. unfold buffer_phys. rewrite (same_kernel_numap _ _ _ _ _ Hk). by apply H. Qed.

Record fw_ok (cap : Z) (f : fw C) : Prop := {
  fo_root : root_ok (f_root f);
  fo_capacity : capacity (fst (f_root f)) = cap;
  fo_buffer : buffer_mapped f }.
Definition fw_data (f : fw C) : mem := vol_data (f_root f).

Lemma to_int_le x : 0 <= x -> to_int (wrap32 x) <= x.
Proof.
  intros Hx. rewrite to_int_wrap. unfold to_int. pose proof (wrap32_le x Hx). pose proof (wrap32_range x).
  destruct (Z.ltb_spec (wrap32 x) 2147483648); lia.
Qed.

Lemma position_of op off n :
  0 <= off < 4294967296 -> 0 <= POSITION (set_word 0 FS_PROC_NR (disk_request op off buffer_at n)) ->
  POSITION (set_word 0 FS_PROC_NR (disk_request op off buffer_at n)) = off.
Proof.
  intros Ho H. change (POSITION _) with (to_int (wrap32 off)) in *. rewrite to_int_wrap in *.
  unfold to_int in *. rewrite wrap32_small in * by done. destruct (Z.ltb_spec off 2147483648); lia.
Qed.

(** A full count was a count the message could carry. *)
Lemma count_of op off n :
  0 < n <= COUNT (set_word 0 FS_PROC_NR (disk_request op off buffer_at n)) ->
  COUNT (set_word 0 FS_PROC_NR (disk_request op off buffer_at n)) = n.
Proof.
  intros H. change (COUNT _) with (to_int (wrap32 n)) in *. rewrite to_int_wrap in *.
  pose proof (to_int_range n). apply to_int_id. lia.
Qed.

Lemma uncached_spec cap off n f :
  fw_ok cap f -> is_offset off = true -> 0 <= n ->
  let '((r, bs), f') := cp32_shell_disk_uncached buffer_at off n f in
  (fw_ok cap f' /\ fw_data f' ≡m fw_data f /\ lenZ bs <= n) /\
  (r = n -> 0 < n -> off + n <= cap /\ bs = mem_read (fw_data f) off n).
Proof.
  intros [Hw Hcap Hbuf] Ho Hn. unfold is_offset in Ho. apply andb_true_iff in Ho as [Ho1%Z.leb_le Ho2%Z.ltb_lt].
  pose proof (disk_io_spec DEV_READ off n boot_cache f Hw) as H. unfold cp32_shell_disk_uncached.
  destruct (cp32_shell_disk_io DEV_READ off buffer_at n (boot_cache, f)) as [r [c f']].
  set (q := set_word 0 _ _) in H. destruct H as (_ & s' & -> & H).
  assert (HF : same_kernel (fw_k f) (fst s') /\ serving (f_root f) (snd s')).
  { destruct H as [[_ (r' & H & _)]|[(_ & _ & ->)|H]].
    - by destruct (read_answered _ _ _ _ _ Hw (eq_refl : m_type q = DEV_READ) H) as (? & ? & _).
    - split; [apply same_kernel_refl|]. by split.
    - by destruct (read_answered _ _ _ _ _ Hw (eq_refl : m_type q = DEV_READ) H) as (? & ? & _). }
  destruct HF as [HK [HR HS]]. pose proof HS as (_ & Hcs & _ & _ & Hd). split.
  - split; [split; [done|by etransitivity|by eapply buffer_same]|]. split; [done|]. rewrite lenZ_mem_read; lia.
  - intros -> Hpos. destruct H as [[? _]|[[? _]|H]]; [lia..|].
    destruct (read_answered _ _ _ _ _ Hw (eq_refl : m_type q = DEV_READ) H) as (_ & _ & HB).
    destruct (HB Hpos) as (Hp & Hc & Hfit & HM). clear HB H. fold (fw_data f) in HM.
    assert (Hcn : COUNT q = n) by (by apply count_of).
    assert (HP : POSITION q = off) by (by apply position_of). rewrite HP in Hfit, HM. split; [lia|].
    rewrite Z.max_r, Z.min_l by lia. rewrite <- HM.
    unfold buffer_phys. change (fw_k (set_fw_io s' f)) with (fst s').
    rewrite (same_kernel_numap _ _ _ _ _ HK).
    unfold user_of. rewrite Hcn. done.
Qed.

(** The uncached reader is what the block cache expects of its device. *)
#[export] Program Instance firmware_raw_spec (cap : Z) :
  RawSpec (fw C) (H := firmware_raw buffer_at) SHELL_UNCACHED cap := {
    rw_data := fw_data; rw_inv := fw_ok cap }.
Next Obligation. intros. apply cd_byte. Qed.
Next Obligation.
  intros cap f off n Hf Hn. cbn. destruct (is_offset off) eqn:Ho; [|by split_and!].
  pose proof (uncached_spec cap off n f Hf Ho Hn) as H.
  destruct (cp32_shell_disk_uncached buffer_at off n f) as [[r bs] f']. apply H.
Qed.
Next Obligation.
  intros cap f off n Hf Hn. cbn. destruct (is_offset off) eqn:Ho; [|lia].
  pose proof (uncached_spec cap off n f Hf Ho ltac:(lia)) as H.
  destruct (cp32_shell_disk_uncached buffer_at off n f) as [[r bs] f']. intros ->.
  destruct H as [_ H]. destruct (H eq_refl Hn). unfold is_offset in Ho. split; [lia|done].
Qed.

Section Volume.
Context (cap : Z).
Hypothesis Hcap : 0 <= cap < 4294967296.
Abbreviation coherent := (coherent (rr := SHELL_UNCACHED) (cap := cap)).

Lemma coherent_ext m m' c : m ≡m m' -> coherent m c -> coherent m' c.
Proof.
  intros Hm (H1 & H2 & H3 & H4). split; [done|]. split; [done|]. split; [done|]. intros Hr Hc.
  eapply Forall_impl; [|by apply H4]. intros b [Hl Hb]. split; [done|]. intros Hv.
  destruct (Hb Hv) as (? & ? & Hi). split_and!; try done. intros i Hx. by rewrite <- Hm, Hi.
Qed.

Definition storage_ok (s : cache * fw C) : Prop := fw_ok cap (snd s) /\ coherent (fw_data (snd s)) (fst s).
Definition storage_clean (s : cache * fw C) : Prop := fw_ok cap (snd s) /\ cache_empty (fst s).

Lemma shell_read_spec off n s :
  storage_ok s -> is_offset off = true ->
  let '((r, bs), s') := cp32_shell_disk_read buffer_at off n s in
  storage_ok s' /\ fw_data (snd s') ≡m fw_data (snd s) /\
  (r = n -> 0 < n -> off + n <= cap /\ bs = mem_read (fw_data (snd s)) off n).
Proof.
  intros [Hf Hco] Ho. unfold cp32_shell_disk_read, cp32_root_capacity. rewrite (fo_capacity _ _ Hf).
  unfold is_offset in Ho. apply andb_true_iff in Ho as [Ho1%Z.leb_le Ho2%Z.ltb_lt].
  pose proof (cache_read_spec (SPEC := firmware_raw_spec cap) Hcap (fw_data (snd s)) off nonnull n
    (conj Ho1 Ho2) s (conj Hf (conj (fun _ => eq_refl) Hco))) as H.
  destruct (cp32_cache_read _ _ _ _ _ s) as [[e|bs] s']; destruct H as [(Hf' & Hd & Hco') H]; cbn in Hf', Hd.
  - split; [|split; [done|]].
    + split; [done|]. by eapply coherent_ext.
    + unfold CP32_SUPER_INVALID, CP32_SUPER_IO in H. lia.
  - split; [|split; [done|]].
    + split; [done|]. by eapply coherent_ext.
    + intros _ _. destruct H as [(? & ? & ?) ->]. done.
Qed.

Lemma clean_ok s : storage_clean s -> storage_ok s.
Proof. intros [Hf He]. split; [done|]. by apply empty_coherent. Qed.

Lemma shell_write_spec off bs s :
  storage_ok s -> is_offset off = true ->
  let '(r, s') := cp32_shell_disk_write buffer_at off bs s in
  storage_clean s' /\
  (forall a, a / 512 < off / 512 \/ (off + lenZ bs - 1) / 512 < a / 512 ->
     fw_data (snd s') a = fw_data (snd s) a) /\
  (r = lenZ bs -> off + lenZ bs <= cap /\ fw_data (snd s') ≡m mem_write (fw_data (snd s)) off bs).
Proof.
  clear m_at mess_at run_watchdog. intros [[Hw Hc Hbuf] Hco] Ho. unfold is_offset in Ho. apply andb_true_iff in Ho as [Ho1%Z.leb_le Ho2%Z.ltb_lt].
  destruct s as [c f]. cbn [fst snd] in *. unfold cp32_shell_disk_write.
  set (phys := buffer_phys buffer_at f (lenZ bs)).
  set (f1 := if phys =? 0 then f else _).
  assert (HK : same_kernel (fw_k f) (fw_k f1)).
  { subst f1. destruct (phys =? 0); [apply same_kernel_refl|]. by apply same_kernel_store, same_kernel_refl. }
  apply (buffer_same _ _ HK) in Hbuf.
  assert (HR : f_root f1 = f_root f) by (subst f1; by destruct (phys =? 0)).
  assert (HP : buffer_phys buffer_at f1 (lenZ bs) = phys) by (subst f1; by destruct (phys =? 0)).
  assert (HM : phys <> 0 -> mem_read (k_mem (fw_k f1)) phys (lenZ bs) = bs).
  { intros Hp. subst f1. rewrite (proj2 (Z.eqb_neq _ _)) by done. cbn. apply mem_read_write. }
  clearbody f1. change (fw_data f) with (vol_data (f_root f)). rewrite <- HR in Hw, Hc |- *.
  pose proof (disk_io_spec DEV_WRITE off (lenZ bs) c f1 Hw) as H.
  destruct (cp32_shell_disk_io DEV_WRITE off buffer_at (lenZ bs) (c, f1)) as [r [c' f']].
  set (q := set_word 0 _ _) in H. destruct H as (-> & s' & -> & H).
  change (fw_data _) with (vol_data (snd s')).
  assert (HE : cache_empty (cp32_cache_invalidate c)) by (by eapply invalidate_empty).
  assert (HF : forall r', answered q (fw_k f1) (f_root f1) r' s' ->
    fw_ok cap (set_fw_io s' f1) /\
    (forall a, a / 512 < off / 512 \/ (off + lenZ bs - 1) / 512 < a / 512 ->
       vol_data (snd s') a = vol_data (f_root f1) a)).
  { intros r' HA. pose proof (write_answered _ _ _ _ _ Hw (eq_refl : m_type q = DEV_WRITE) HA)
      as (H1 & H2 & H3 & H4 & _ & _).
    split; [split; [done|by etransitivity|apply (buffer_same f1); [|done]; rewrite <- H1; apply same_kernel_refl]|].
    intros a Ha. apply H4. intros Hp Hn. change (POSITION q) with (POSITION (set_word 0 FS_PROC_NR
      (disk_request DEV_WRITE off buffer_at (lenZ bs)))) in *. rewrite (position_of _ _ _ (conj Ho1 Ho2) Hp).
    assert (COUNT q <= lenZ bs) by (apply to_int_le, lenZ_nonneg). Z.div_mod_to_equations; lia. }
  split; [|split].
  - split; [|done]. destruct H as [[_ (r' & H & _)]|[(_ & _ & ->)|H]]; [by eapply HF|by destruct f1 as [[[k p] cl] w]|by eapply HF].
  - destruct H as [[_ (r' & H & _)]|[(_ & _ & ->)|H]]; [by eapply HF|done|by eapply HF].
  - intros ->. pose proof (lenZ_nonneg bs). destruct H as [[? _]|[[? _]|H]]; [lia..|].
    destruct (write_answered _ _ _ _ _ Hw (eq_refl : m_type q = DEV_WRITE) H) as (_ & _ & _ & _ & HN & HB).
    pose proof (lenZ_nonneg bs). destruct (Z.eq_dec (lenZ bs) 0) as [Hz|].
    { specialize (HN Hz). change (COUNT q) with (to_int (wrap32 (lenZ bs))) in HN. rewrite Hz in HN. done. }
    assert (Hpos : 0 < lenZ bs) by lia.
    destruct (HB Hpos) as (Hu & Hp & Hn & Hfit & HV).
    assert (Hcn : COUNT q = lenZ bs) by (by apply count_of).
    assert (HPo : POSITION q = off) by (by apply position_of). rewrite HPo in Hfit, HV. split; [lia|].
    assert (HU : user_of q (fw_k f1) = phys) by (unfold user_of; by rewrite Hcn).
    rewrite HV, HU, HM; [done|]. by rewrite <- HU.
Qed.

(** A request for the time or to set it changes the clock only. *)
Lemma clock_frame setting seconds (f : fw C) :
  let f' := snd (cp32_shell_clock m_at mess_at run_watchdog setting seconds f) in
  f_root f' = f_root f /\ fw_k f' = fw_k f.
Proof.
  unfold cp32_shell_clock. destruct (setting && _); [done|].
  set (m := if setting then set_word 5 _ _ else _). unfold sendrec_clock.
  assert (HD : exists x c, cp32_clock_task_dispatch m_at mess_at run_watchdog (set_word 0 FS_PROC_NR m)
    (f_kernel f) = (Ok (true, x), c) /\ c_t c = c_t (f_kernel f)) .
  { subst m. destruct setting; [rewrite dispatch_set_time by done|rewrite dispatch_get_time by done]; by do 2 eexists. }
  destruct (sendrec_status (fw_k f) CLOCK !=? OK); [|destruct HD as (x & c & -> & Hc)]; cbn [fst snd];
    (destruct (_ || _); [|destruct setting; [|destruct (_ <? _)]]); (split; [done|]);
    try done; unfold fw_k, c_k; cbn; by rewrite Hc.
Qed.

Lemma clock_u32 (f : fw C) : is_u32 (snd (fst (cp32_shell_clock m_at mess_at run_watchdog false 0 f))).
Proof.
  unfold cp32_shell_clock. cbn [andb].
  destruct (sendrec_clock _ _ _ _ f) as [[r m] f']. destruct (_ || _); [by split|].
  destruct (_ <? _); [by split|]. apply wrap32_range.
Qed.

(** The storage that the shell gives the filesystem is storage as the
    filesystem relies on it. *)
Program Definition firmware_spec :
  DiskSpec (cache * fw C) (H := firmware_disk m_at mess_at run_watchdog buffer_at) SHELL_READ SHELL_WRITE cap := {|
    dk_data := fun s => fw_data (snd s); dk_coh := storage_ok; dk_clean := storage_clean |}.
Next Obligation. intros s [Hf He]. split; [done|]. by apply empty_coherent. Qed.
Next Obligation. intros. apply cd_byte. Qed.
Next Obligation. intros s [Hf Hc]. split; [done|]. by eapply invalidate_empty. Qed.
Next Obligation. done. Qed.
Next Obligation.
  intros s off n Hs. cbn. destruct (is_offset off) eqn:Ho; [|done].
  pose proof (shell_read_spec off n s Hs Ho) as HSp.
  destruct (cp32_shell_disk_read buffer_at off n s) as [[r bs] s']. by destruct HSp as (? & ? & _).
Qed.
Next Obligation.
  intros s off n Hs Hn. cbn. destruct (is_offset off) eqn:Ho; [|lia].
  pose proof (shell_read_spec off n s Hs Ho) as HSp.
  destruct (cp32_shell_disk_read buffer_at off n s) as [[r bs] s']. intros ->.
  destruct HSp as (_ & _ & HB). destruct (HB eq_refl Hn). unfold is_offset in Ho. split; [lia|done].
Qed.
Next Obligation.
  intros s off bs Hs Hoff _. cbn. destruct (is_offset off) eqn:Ho; [|done].
  pose proof (shell_write_spec off bs s (clean_ok _ Hs) Ho) as HSp.
  destruct (cp32_shell_disk_write buffer_at off bs s) as [r s']. by destruct HSp as (? & ? & _).
Qed.
Next Obligation.
  intros s off bs Hs Hoff _. cbn. pose proof (lenZ_nonneg bs). destruct (is_offset off) eqn:Ho; [|lia].
  pose proof (shell_write_spec off bs s (clean_ok _ Hs) Ho) as HSp.
  destruct (cp32_shell_disk_write buffer_at off bs s) as [r s']. by destruct HSp as (_ & _ & ?).
Qed.
Next Obligation.
  intros p [c f]. cbn -[cp32_shell_clock]. destruct (p =? SHELL_CLOCK); [|done].
  destruct (clock_frame false 0 f) as [HR HK].
  destruct (cp32_shell_clock m_at mess_at run_watchdog false 0 f) as [x f']. cbn in HR, HK.
  assert (HD : fw_data f' = fw_data f) by (unfold fw_data; by rewrite HR). split; [done|].
  intros [[H1 H2 H3] Hc]. split; cbn in *; [|by rewrite HD]. constructor; [by rewrite HR..|].
  apply (buffer_same f); [|done]. rewrite HK. apply same_kernel_refl.
Qed.
Next Obligation.
  intros p [c f]. cbn -[cp32_shell_clock]. destruct (p =? SHELL_CLOCK); [|by split].
  pose proof (clock_u32 f) as HR.
  by destruct (cp32_shell_clock m_at mess_at run_watchdog false 0 f) as [x f'].
Qed.

(** ** When everything below answers, so does the storage *)
Definition all_answer : Prop := card_reliable (C := C) /\ forall k dest, sendrec_status k dest = OK.

Lemma answered_full k (w : root * C) q r s' :
  root_ok w -> card_reliable (C := C) -> m_source q = FS_PROC_NR -> DEVICE q = RAM_DEV -> m_type q = DEV_READ ->
  user_of q k <> 0 -> 0 < COUNT q -> 0 <= POSITION q -> POSITION q + COUNT q <= capacity (fst w) ->
  answered q k w r s' -> r = COUNT q.
Proof.
  intros Hw Hrel Hs Hd Ht Hu Hc Hp Hfit HA.
  destruct HA as [e HA|[E|E]|w'|w'| |s'|s' _ _ HF|s'|s']; try (by rewrite Ht in *); try lia.
  - destruct HA as [| | |HN|E| |]; try (done || lia).
    + exfalso. apply HN. rewrite Ht. by left. + by rewrite Ht in E.
  - unfold moved. lia.
  - by destruct HF as (_ & Hno & _).
Qed.

Lemma uncached_full off n f :
  all_answer -> fw_ok cap f -> 0 <= off -> 0 < n <= 1024 -> off + n <= cap ->
  fst (fst (cp32_shell_disk_uncached buffer_at off n f)) = n.
Proof.
  intros [Hrel Htrap] [Hw Hc Hbuf] Ho Hn Hfit. unfold cp32_shell_disk_uncached.
  pose proof (disk_io_spec DEV_READ off n boot_cache f Hw) as HD. pose proof (ro_capacity _ Hw).
  destruct (cp32_shell_disk_io DEV_READ off buffer_at n (boot_cache, f)) as [r [c f']]. cbn [fst].
  set (q := set_word 0 _ _) in HD. destruct HD as (_ & s' & _ & HD).
  assert (HC : COUNT q = n) by (change (COUNT q) with (to_int (wrap32 n)); rewrite to_int_wrap; apply to_int_small; lia).
  assert (HP : POSITION q = off) by (change (POSITION q) with (to_int (wrap32 off)); rewrite to_int_wrap; apply to_int_small; lia).
  destruct HD as [(_ & r' & HA & Hr)|[(_ & HT & _)|HA]].
  - exfalso. assert (r' <= COUNT q) by (by eapply answered_le; [lia|]). lia.
  - by specialize (Htrap (fw_k f) MEM_TASK).
  - rewrite <- HC. eapply answered_full; try done; try lia.
    unfold user_of. rewrite HC. by apply Hbuf.
Qed.

Lemma shell_read_full off n s :
  all_answer -> storage_ok s -> 0 <= off -> 0 < n <= 64 -> off + n <= cap ->
  fst (fst (cp32_shell_disk_read buffer_at off n s)) = n.
Proof.
  intros Hall [Hf Hco] Ho Hn Hfit. unfold cp32_shell_disk_read, cp32_root_capacity. rewrite (fo_capacity _ _ Hf).
  pose proof (cache_read_spec (SPEC := firmware_raw_spec cap) Hcap (fw_data (snd s)) off nonnull n
    ltac:(lia) s (conj Hf (conj (fun _ => eq_refl) Hco))) as HR.
  destruct (cp32_cache_read _ _ _ _ _ s) as [[e|bs] s']; [|done]. exfalso.
  destruct HR as (_ & [[_ Hno]|[_ Hno]]).
  - apply Hno. split; [unfold in_volume; lia|done].
  - apply Hno. intros f o k Hf' Ho' Hk Hle. cbn. replace (is_offset o) with true by (unfold is_offset; lia).
    by apply uncached_full.
Qed.

Lemma firmware_reliable :
  all_answer -> reliable (rd := SHELL_READ) (wr := SHELL_WRITE) (cap := cap) (SPEC := firmware_spec).
Proof.
  intros Hall s off n Hs Ho Hn Hfit. cbn -[cp32_shell_disk_read].
  replace (is_offset off) with true by (unfold is_offset; lia). by apply shell_read_full.
Qed.

(** C23: what the filesystem writes, it reads back.  On the firmware's own storage
    (root volume, memory task, messages and block cache) a write that is answered
    with its length has put exactly its bytes into the volume, and any other
    answer changes nothing outside the sectors that the request touches.  Every
    read after it answers with its length only when it is inside the volume, and
    then with the bytes the volume has now, never with stale ones of the cache;
    and such a read is answered whenever the card and the traps answer. *)
Theorem storage_write_read off bs s :
  storage_ok s -> is_offset off = true ->
  let '(r, s1) := cp32_shell_disk_write buffer_at off bs s in
  storage_ok s1 /\
  (r = lenZ bs -> off + lenZ bs <= cap /\ fw_data (snd s1) ≡m mem_write (fw_data (snd s)) off bs) /\
  (forall a, a / 512 < off / 512 \/ (off + lenZ bs - 1) / 512 < a / 512 ->
     fw_data (snd s1) a = fw_data (snd s) a) /\
  forall off' n, is_offset off' = true -> 0 < n ->
    let '((r', got), s2) := cp32_shell_disk_read buffer_at off' n s1 in
    storage_ok s2 /\ fw_data (snd s2) ≡m fw_data (snd s1) /\
    (r' = n -> off' + n <= cap /\ got = mem_read (fw_data (snd s1)) off' n) /\
    (all_answer -> n <= 64 -> off' + n <= cap -> r' = n).
Proof.
  intros Hs Ho. pose proof (shell_write_spec off bs s Hs Ho) as HW.
  destruct (cp32_shell_disk_write buffer_at off bs s) as [r s1]. destruct HW as (Hc1 & HF & HE).
  pose proof (clean_ok _ Hc1) as Hs1. split; [done|]. split; [done|]. split; [done|]. intros off' n Ho' Hn.
  pose proof (shell_read_spec off' n s1 Hs1 Ho') as HR.
  assert (HT : all_answer -> n <= 64 -> off' + n <= cap ->
    fst (fst (cp32_shell_disk_read buffer_at off' n s1)) = n)
    by (intros ? ? ?; unfold is_offset in Ho'; apply shell_read_full; done || lia).
  destruct (cp32_shell_disk_read buffer_at off' n s1) as [[r' got] s2]. destruct HR as (? & ? & HR).
  split_and!; try done. intros E. by apply HR.
Qed.
End Volume.
End ClientProofs.

(** ** The demonstration volume behind the whole path *)
Module StorageDemo.
(** A trap that always returns [OK]. *)
Definition prompt : Transport := {| sendrec_status := fun _ _ => 0; sendrec_error := fun _ _ => Z.le_refl 0 |}.
(** The filesystem, process 1, with 64 KiB from 0x3fc90000. *)
Definition kernel : kst := upd 11 (set_p_map [Map 0x3fc90000 0x3fc90 16]) KDemo.state.
Definition buffer : Z := 0x3fc90100.
Definition clock0 : clock := boot_clock (Clock 0 0 0 0 (fun _ => NoWatchdog) false (fun _ => false) 0 0 0 0).
Definition state (c : memcard) : cache * fw memcard :=
  (boot_cache, Fw (Cst (Tasks kernel 0) clock0) (CardDemo.opened c)).
Definition request (type pos count : Z) : message :=
  set_word 0 FS_PROC_NR (disk_request type pos buffer count).
End StorageDemo.

Lemma demo_root_ok c :
  mc_sectors c = 200 -> fst (cp32_root_init (CardDemo.boot c)) = Ok tt -> root_ok (CardDemo.opened c).
Proof.
  intros Hc Hd. destruct (demo_boot_state c ltac:(lia)) as (D1 & D2 & D3).
  pose proof (root_init_exact (CardDemo.boot c) D1 D2 D3) as H.
  unfold CardDemo.opened. cbv beta iota zeta delta [cp32_sdcard_init memcard_card] in H.
  destruct (cp32_root_init (CardDemo.boot c)) as [r w]. cbn [fst] in Hd. subst r. apply H.
Qed.

Lemma demo_buffer_mapped w :
  buffer_mapped (C := memcard) StorageDemo.buffer (Fw (Cst (Tasks StorageDemo.kernel 0) StorageDemo.clock0) w).
Proof.
  assert (H : forallb (fun n => negb (numap StorageDemo.kernel FS_PROC_NR (wrap32 StorageDemo.buffer) (Z.of_nat n) =? 0))
    (seq 1 1024) = true) by (vm_compute; reflexivity).
  intros n Hn. rewrite forallb_forall in H. specialize (H (Z.to_nat n) ltac:(apply in_seq; lia)).
  rewrite Z2Nat.id in H by lia. unfold buffer_phys, fw_k. cbn. by apply negb_true_iff, Z.eqb_neq in H.
Qed.

Lemma demo_storage_ok c :
  mc_sectors c = 200 -> fst (cp32_root_init (CardDemo.boot c)) = Ok tt ->
  capacity (fst (CardDemo.opened c)) = 65536 ->
  storage_ok StorageDemo.buffer 65536 (StorageDemo.state c).
Proof.
  intros Hc Hd Hcap. split; [constructor; [by apply demo_root_ok|done|apply demo_buffer_mapped]|].
  apply empty_coherent. split; [done|]. split; [cbn; lia|]. repeat constructor.
Qed.

(** A read of 13 bytes of "README" into the buffer, a read past the end, a
    write on the worn card and a request from another process. *)
Lemma mem_request_exact_witness :
  let k := StorageDemo.kernel in
  let w := CardDemo.opened CardDemo.card in
  let v := CardDemo.opened CardDemo.worn in
  let run q w := cp32_mem_request (StorageDemo.request q 7168 13) (k, w) in
  answered (StorageDemo.request DEV_READ 7168 13) k w (result (fst (run DEV_READ w))) (snd (run DEV_READ w)) /\
  result (fst (run DEV_READ w)) = 13 /\
  mem_read (k_mem (fst (snd (run DEV_READ w)))) 0x3fc90100 14 =
    [72; 101; 108; 108; 111; 44; 32; 67; 80; 51; 50; 10; 0; 0] /\
  fst (cp32_mem_request (StorageDemo.request DEV_READ 65536 13) (k, w)) = Ok 0 /\
  fst (run DEV_WRITE v) = Err EIO /\ write_failed (fst (snd (snd (run DEV_WRITE v)))) = 1 /\
  fst (cp32_mem_request (set_word 0 7 (StorageDemo.request DEV_READ 7168 13)) (k, w)) = Err EPERM.
Proof.
  intros k w v run. assert (Hw : root_ok w) by (apply demo_root_ok; [done|vm_compute; reflexivity]).
  split.
  { pose proof (mem_request_exact (StorageDemo.request DEV_READ 7168 13) k w Hw) as H. unfold run.
    by destruct (cp32_mem_request (StorageDemo.request DEV_READ 7168 13) (k, w)) as [r s']. }
  split_and!; vm_compute; reflexivity.
Defined.

(** Four bytes written over "CP32", read back through the cache. *)
Lemma storage_write_read_witness :
  let s := StorageDemo.state CardDemo.card in
  let w := cp32_shell_disk_write (TRAP := StorageDemo.prompt) StorageDemo.buffer 7175 [77; 73; 78; 73] s in
  let r := cp32_shell_disk_read (TRAP := StorageDemo.prompt) StorageDemo.buffer 7168 13 (snd w) in
  fst w = 4 /\ storage_ok StorageDemo.buffer 65536 (snd w) /\
  fst (fst r) = 13 /\ snd (fst r) = mem_read (fw_data (snd (snd w))) 7168 13 /\
  snd (fst r) = [72; 101; 108; 108; 111; 44; 32; 77; 73; 78; 73; 10; 0].
Proof.
  intros s w r.
  assert (Hs : storage_ok StorageDemo.buffer 65536 s)
    by (apply demo_storage_ok; [done|vm_compute; reflexivity|vm_compute; reflexivity]).
  pose proof (storage_write_read (TRAP := StorageDemo.prompt) StorageDemo.buffer 65536 ltac:(lia) 7175 [77; 73; 78; 73] s Hs eq_refl) as H.
  assert (G : storage_ok StorageDemo.buffer 65536 (snd w) /\
    (fst (fst r) = 13 -> snd (fst r) = mem_read (fw_data (snd (snd w))) 7168 13)).
  { subst r w. destruct (cp32_shell_disk_write _ 7175 _ s) as [x s1]. destruct H as (H1 & _ & _ & H2).
    split; [exact H1|]. specialize (H2 7168 13 eq_refl ltac:(lia)). cbn [snd].
    destruct (cp32_shell_disk_read _ 7168 13 s1) as [[x' got] s2]. cbn [fst snd].
    destruct H2 as (_ & _ & H2 & _). intros E. by apply H2. }
  assert (Er : fst (fst r) = 13) by (vm_compute; reflexivity).
  split; [vm_compute; reflexivity|]. split; [exact (proj1 G)|]. split; [exact Er|].
  split; [exact (proj2 G Er)|]. vm_compute. reflexivity.
Defined.
