(* ===== verification/Display.v ===== *)
(** * The text display: src/src/kernel/display.c

    A screen of 12 rows of 16 characters.  Characters are laid out in [textbuf];
    the outermost batch paints the cells that differ from [painted], once.  A
    block cursor is painted over a cell and the cell is restored before any
    output.

    The panel (an ST7789 behind an SPI bus) is the interface [Panel]: the pixels
    that are clocked out after a window command fill the window row by row, as
    the controller's data sheet says.  [glyph], which nothing calls, the pins,
    the backlight and the command sequence that starts the panel are left out. *)
From S2P Require Import Prelude.

(** The controller: [write_window x0 y0 x1 y1 px] is CASET, RASET, RAMWR and pixels. *)
Class Panel (P : Type) := {
  write_window : Z -> Z -> Z -> Z -> list Z -> P -> P;
  pixel : P -> Z -> Z -> Z;
  pixel_written : forall x0 y0 x1 y1 px p i j,
    x0 <= x1 -> y0 <= y1 -> lenZ px = (x1 - x0 + 1) * (y1 - y0 + 1) ->
    pixel (write_window x0 y0 x1 y1 px p) i j =
    if (x0 <=? i) && (i <=? x1) && (y0 <=? j) && (j <=? y1)
    then nthZ px ((j - y0) * (x1 - x0 + 1) + (i - x0)) else pixel p i j }.

(** ** The character images of [glyph_scaled] *)
Definition font_upper : list (list Z) :=
  [[14; 17; 31; 17; 17]; [30; 17; 30; 17; 30]; [14; 17; 16; 17; 14]; [30; 17; 17; 17; 30]; [31; 16; 30; 16; 31];
    [31; 16; 30; 16; 16]; [14; 16; 23; 17; 14]; [17; 17; 31; 17; 17]; [14; 4; 4; 4; 14]; [7; 2; 2; 18; 12];
    [17; 18; 28; 18; 17]; [16; 16; 16; 16; 31]; [17; 27; 21; 17; 17]; [17; 25; 21; 19; 17];
    [14; 17; 17; 17; 14]; [30; 17; 30; 16; 16]; [14; 17; 17; 21; 14]; [30; 17; 30; 18; 17]; [15; 16; 14; 1; 30];
    [31; 4; 4; 1; 30]; [17; 17; 17; 17; 14]; [17; 17; 17; 10; 4]; [17; 17; 21; 27; 17]; [17; 10; 4; 10; 17];
    [17; 10; 4; 4; 4]; [31; 2; 4; 8; 31]].
Definition font_digit : list (list Z) :=
  [[14; 17; 17; 17; 14]; [4; 12; 4; 4; 14]; [14; 1; 6; 8; 31]; [30; 1; 14; 1; 30]; [2; 6; 10; 31; 2];
    [31; 16; 30; 1; 30]; [14; 16; 30; 17; 14]; [31; 1; 2; 4; 4]; [14; 17; 14; 17; 14]; [14; 17; 15; 1; 14]].
Definition font_lower : list (list Z) :=
  [[0; 14; 1; 15; 15]; [16; 16; 30; 17; 30]; [0; 14; 16; 16; 14]; [1; 1; 15; 17; 15]; [0; 14; 31; 16; 14];
    [6; 9; 28; 8; 8]; [0; 15; 17; 15; 1]; [16; 16; 30; 17; 17]; [4; 0; 12; 4; 14]; [2; 0; 6; 2; 18];
    [16; 18; 28; 18; 17]; [12; 4; 4; 4; 14]; [0; 26; 21; 17; 17]; [0; 30; 17; 17; 17]; [0; 14; 17; 17; 14];
    [0; 30; 17; 30; 16]; [0; 15; 17; 15; 1]; [0; 22; 25; 16; 16]; [0; 15; 28; 3; 30]; [8; 8; 28; 8; 7];
    [0; 17; 17; 19; 13]; [0; 17; 17; 10; 4]; [0; 17; 21; 21; 10]; [0; 17; 10; 4; 10]; [0; 17; 17; 15; 1];
    [0; 31; 2; 4; 31]].
Definition font_other : list (Z * list Z) :=
  [(91, [14; 8; 8; 8; 14]); (93, [14; 2; 2; 2; 14]); (34, [20; 20; 0; 0; 0]); (39, [8; 8; 0; 0; 0]);
   (92, [32; 16; 8; 4; 2]); (62, [16; 8; 4; 8; 16]); (123, [6; 8; 16; 8; 6]); (125, [24; 4; 2; 4; 24]);
   (40, [4; 8; 8; 8; 4]); (41, [8; 4; 4; 4; 8]); (124, [8; 8; 8; 8; 8]); (63, [28; 2; 12; 0; 8]);
   (60, [4; 8; 16; 8; 4]); (33, [8; 8; 8; 0; 8]); (43, [8; 8; 62; 8; 8]); (45, [0; 0; 62; 0; 0]);
   (95, [0; 0; 0; 0; 62]); (47, [2; 4; 8; 16; 32]); (58, [0; 8; 0; 8; 0]); (46, [0; 0; 0; 0; 4]);
   (61, [0; 31; 0; 31; 0]); (36, [4; 30; 5; 30; 4])].

Definition glyph_rows (c : Z) : list Z :=
  if c =? 32 then [0; 0; 0; 0; 0]
  else if (97 <=? c) && (c <=? 122) then nth (Z.to_nat (c - 97)) font_lower []
  else if (65 <=? c) && (c <=? 90) then nth (Z.to_nat (c - 65)) font_upper []
  else if (48 <=? c) && (c <=? 57) then nth (Z.to_nat (c - 48)) font_digit []
  else match find (fun e => fst e =? c) font_other with
       | Some (_, r) => r
       | None => map (fun i => wrap8 (Z.lxor 17 (c * 13 + i * 7))) [0; 1; 2; 3; 4]
       end.

Definition WHITE := 65535.
(** The pixels of one scan line: seven columns twice, the eighth once. *)
Definition glyph_line (r : Z) : list Z :=
  concat (map (fun col => let v := if (col <? 7) && truthy (Z.land r (Z.shiftl 1 (6 - col))) then WHITE else 0 in
                          if col <? 7 then [v; v] else [v]) [0; 1; 2; 3; 4; 5; 6; 7]).
Definition glyph_pixels (c : Z) : list Z :=
  concat (map (fun row => let l := glyph_line (nthZ (glyph_rows c) row) in l ++ l) [0; 1; 2; 3; 4]).
(** The block cursor. *)
Definition cursor_pixels : list Z :=
  concat (map (fun _ => map (fun col => if (2 <=? col) && (col <? 12) then WHITE else 0)
                            [0; 1; 2; 3; 4; 5; 6; 7; 8; 9; 10; 11; 12; 13; 14]) [0; 1; 2; 3; 4; 5; 6; 7; 8; 9]).

(** ** The state *)
Definition ROWS := 12.
Definition COLS := 16.
Definition cell (row col : Z) : Z := row * COLS + col.

Record display := Display {
  ready : bool; dx : Z; dy : Z; spi_fault : bool; textbuf : list Z; painted : list Z;
  display_batch : Z; display_redraw_pending : bool;
  cursor_visible : bool; cursor_active : bool; cursor_x : Z; cursor_y : Z; cursor_tick : Z }.
Definition set_position (x : Z) (y : Z) (d : display) : display :=
  Display (ready d) x y (spi_fault d) (textbuf d) (painted d)
    (display_batch d) (display_redraw_pending d) (cursor_visible d) (cursor_active d) (cursor_x d) (cursor_y d) (cursor_tick d).
Definition set_textbuf (text : list Z) (d : display) : display :=
  Display (ready d) (dx d) (dy d) (spi_fault d) text (painted d)
    (display_batch d) (display_redraw_pending d) (cursor_visible d) (cursor_active d) (cursor_x d) (cursor_y d) (cursor_tick d).
Definition set_painted (text : list Z) (d : display) : display :=
  Display (ready d) (dx d) (dy d) (spi_fault d) (textbuf d) text
    (display_batch d) (display_redraw_pending d) (cursor_visible d) (cursor_active d) (cursor_x d) (cursor_y d) (cursor_tick d).
Definition set_batch (n : Z) (d : display) : display :=
  Display (ready d) (dx d) (dy d) (spi_fault d) (textbuf d) (painted d)
    n (display_redraw_pending d) (cursor_visible d) (cursor_active d) (cursor_x d) (cursor_y d) (cursor_tick d).
Definition set_redraw (b : bool) (d : display) : display :=
  Display (ready d) (dx d) (dy d) (spi_fault d) (textbuf d) (painted d)
    (display_batch d) b (cursor_visible d) (cursor_active d) (cursor_x d) (cursor_y d) (cursor_tick d).
Definition set_cursor (vis : bool) (act : bool) (d : display) : display :=
  Display (ready d) (dx d) (dy d) (spi_fault d) (textbuf d) (painted d)
    (display_batch d) (display_redraw_pending d) vis act (cursor_x d) (cursor_y d) (cursor_tick d).
Definition set_cursor_at (x : Z) (y : Z) (d : display) : display :=
  Display (ready d) (dx d) (dy d) (spi_fault d) (textbuf d) (painted d)
    (display_batch d) (display_redraw_pending d) (cursor_visible d) (cursor_active d) x y (cursor_tick d).
Definition set_cursor_tick (t : Z) (d : display) : display :=
  Display (ready d) (dx d) (dy d) (spi_fault d) (textbuf d) (painted d)
    (display_batch d) (display_redraw_pending d) (cursor_visible d) (cursor_active d) (cursor_x d) (cursor_y d) t.

Section Operations.
Context {P : Type} `{PANEL : Panel P}.
Abbreviation screen := (display * P)%type.
Definition on_display (f : display -> display) (s : screen) : screen := (f (fst s), snd s).

(** [win] and the pixels that follow: the panel's origin is at (40, 53). *)
Definition win (a b c d : Z) (px : list Z) (p : P) : P := write_window (a + 40) (b + 53) (c + 40) (d + 53) px p.

(** [static void glyph_scaled(char c)] at ([x], [y]) *)
Definition glyph_scaled (x y c : Z) (p : P) : P := win x y (x + 14) (y + 9) (glyph_pixels c) p.

Definition display_cursor_hide (reset : bool) (s : screen) : screen :=
  let '(d, p) := s in
  let p := if cursor_visible d && ready d && negb (spi_fault d)
           then glyph_scaled (cursor_x d) (cursor_y d) (nthZ (painted d) (cell (cursor_y d / 11) (cursor_x d / 15))) p
           else p in
  (set_cursor false (if reset then false else cursor_active d) d, p).

Definition cardputer_display_cursor (active : bool) (ticks : Z) (s : screen) : screen :=
  let d := fst s in
  if negb active || negb (ready d) || spi_fault d || truthy (display_batch d) || display_redraw_pending d
  then display_cursor_hide true s
  else if cursor_active d && ((ticks -u cursor_tick d) <? 30) then s
  else let s := on_display (set_cursor_tick ticks) s in
       if cursor_active d && cursor_visible d then display_cursor_hide false s else
       let cx := if dx d <? 240 then dx d else 225 in
       (set_cursor_at cx (dy d) (set_cursor true true (fst s)),
        win cx (dy d) (cx + 14) (dy d + 9) cursor_pixels (snd s)).

Definition blank_screen : list Z := replicate 192 32.

Definition cardputer_display_clear (s : screen) : screen :=
  if negb (ready (fst s)) || spi_fault (fst s) then s else
  let '(d, p) := display_cursor_hide true s in
  (set_redraw false (set_painted blank_screen (set_textbuf blank_screen (set_position 0 0 d))),
   win 0 0 239 134 (replicate (Z.to_nat 32400) 0) p).

Definition cardputer_display_begin_batch (s : screen) : screen :=
  let s := if display_batch (fst s) =? 0 then display_cursor_hide true s else s in
  on_display (fun d => set_batch (display_batch d +u 1) d) s.

(** One turn of the loop over the cells. *)
Definition paint_cell (i : Z) (s : screen) : screen :=
  let '(d, p) := s in
  let c := nthZ (textbuf d) i in
  if c =? nthZ (painted d) i then s else
  (set_painted (updZ (painted d) i c) d, glyph_scaled (i mod COLS * 15) (i / COLS * 11) c p).

Fixpoint paint_cells (n : nat) (i : Z) (s : screen) : screen :=
  match n with
  | O => s
  | S n => paint_cells n (i + 1) (paint_cell i s)
  end.

Definition cardputer_display_end_batch (s : screen) : screen :=
  if display_batch (fst s) =? 0 then s else
  let s := on_display (fun d => set_batch (display_batch d - 1) d) s in
  if truthy (display_batch (fst s)) || negb (display_redraw_pending (fst s)) then s else
  let s := on_display (set_redraw false) s in
  if negb (ready (fst s)) || spi_fault (fst s) then s else
  paint_cells 192 0 s.

(** [static void cardputer_display_layout_char(char c)], a newline first. *)
Definition layout_newline (d : display) : display :=
  if dy d + 11 <=? 123 then set_position 0 (dy d + 11) d else
  let text := ptr_add (textbuf d) COLS ++ replicate 16 32 in
  set_redraw true (set_position 0 121 (set_textbuf text d)).

Definition layout_char (c : Z) (d : display) : display :=
  if negb (ready d) || spi_fault d then d
  else if c =? 13 then d
  else if c =? 10 then layout_newline d
  else if c =? 8 then
    if 15 <=? dx d then set_position (dx d - 15) (dy d) d
    else if 11 <=? dy d then set_position 225 (dy d - 11) d else d
  else
    let d := if 240 <=? dx d then layout_newline d else d in
    let row := dy d / 11 in
    let col := dx d / 15 in
    let d := if (row <? ROWS) && (col <? COLS)
             then set_redraw true (set_textbuf (updZ (textbuf d) (cell row col) c) d) else d in
    set_position (dx d + 15) (dy d) d.

Definition cardputer_display_putc (c : Z) (s : screen) : screen :=
  let standalone := display_batch (fst s) =? 0 in
  let s := if standalone then cardputer_display_begin_batch s else s in
  let s := on_display (layout_char c) s in
  if standalone then cardputer_display_end_batch s else s.

Definition cardputer_display_defer_newline (s : screen) : screen :=
  on_display (layout_char 10) (display_cursor_hide true s).

(** A C string up to its zero byte. *)
Fixpoint put_string (str : list Z) (s : screen) : screen :=
  match str with
  | [] => s
  | c :: str => if c =? 0 then s else put_string str (cardputer_display_putc c s)
  end.
Definition cardputer_display_write (str : list Z) (s : screen) : screen :=
  cardputer_display_end_batch (put_string str (cardputer_display_begin_batch s)).
End Operations.

(** The state that [cardputer_display_init] leaves when the panel answers. *)
Definition boot_display : display := Display true 0 0 false blank_screen (replicate 192 0) 0 false false false 0 0 0.

(** ** The screen as a terminal of 12 lines of 16 characters

    [term] is all the lines ever begun, each as wide as the screen, and the line
    and column of the cursor.  The last twelve lines are on the screen.  Column
    16 is the place behind a full line, where the next character wraps.  A
    backspace moves the cursor back, to the end of the line above from the first
    column, and never above the screen; it changes no character. *)

Definition term : Type := list (list Z) * (Z * Z).
Definition blank_line : list Z := replicate 16 32.
Definition blank_term : term := ([blank_line], (0, 0)).
(** The first line on the screen *)
Definition top (t : term) : Z := Z.max 0 (lenZ (fst t) - 12).
Definition term_newline (t : term) : term :=
  let '(lines, (i, c)) := t in
  (if i + 1 <? lenZ lines then lines else lines ++ [blank_line], (i + 1, 0)).
Definition term_back (t : term) : term :=
  let '(lines, (i, c)) := t in
  if 0 <? c then (lines, (i, c - 1)) else if top t <? i then (lines, (i - 1, 15)) else t.
Definition line_at (lines : list (list Z)) (i : Z) : list Z := nth (Z.to_nat i) lines [].
Definition term_put (t : term) (x : Z) : term :=
  let '(lines, (i, c)) := t in (updZ lines i (updZ (line_at lines i) c x), (i, c + 1)).
Definition term_putc (t : term) (x : Z) : term :=
  if x =? 13 then t
  else if x =? 10 then term_newline t
  else if x =? 8 then term_back t
  else term_put (if snd (snd t) =? COLS then term_newline t else t) x.

(** The last [n] of a list. *)
Definition lastn {A} (n : nat) (l : list A) : list A := drop (length l - n) l.
Definition visible (t : term) : list (list Z) := lastn 12 (fst t).
Definition shown (t : term) : list Z :=
  concat (visible t) ++ replicate (192 - 16 * length (visible t)) 32.

Definition term_ok (t : term) : Prop :=
  Forall (fun l => length l = 16%nat) (fst t) /\ top t <= fst (snd t) < lenZ (fst t) /\ 0 <= snd (snd t) <= 16.

Record lays_out (t : term) (d : display) : Prop := {
  lo_text : textbuf d = shown t;
  lo_x : dx d = 15 * snd (snd t);
  lo_y : dy d = 11 * (fst (snd t) - top t);
  lo_ok : term_ok t }.

Lemma length_rows rows :
  Forall (fun l : list Z => length l = 16%nat) rows -> length (concat rows) = (16 * length rows)%nat.
Proof. induction 1 as [|l rows Hl _ IH]; [done|]. cbn [concat length]. rewrite length_app, IH, Hl. lia. Qed.

Lemma length_lastn {A} n (l : list A) : length (lastn n l) = Nat.min n (length l).
Proof. unfold lastn. rewrite length_drop. lia. Qed.

Lemma lastn_snoc_short {A} n (l : list A) x : (length l < n)%nat -> lastn n (l ++ [x]) = lastn n l ++ [x].
Proof.
  intros. unfold lastn. rewrite !length_app. cbn [length].
  replace (length l + 1 - n)%nat with 0%nat by lia. replace (length l - n)%nat with 0%nat by lia. done.
Qed.

Lemma lastn_snoc_full {A} n (l : list A) x :
  (0 < n <= length l)%nat -> lastn n (l ++ [x]) = drop 1 (lastn n l) ++ [x].
Proof.
  intros. unfold lastn. rewrite length_app. cbn [length]. rewrite drop_drop.
  rewrite drop_app_le by lia. f_equal. f_equal. lia.
Qed.

Lemma visible_ok t : term_ok t -> Forall (fun l => length l = 16%nat) (visible t) /\ (1 <= length (visible t) <= 12)%nat.
Proof.
  intros [H [Hi _]]. split; [by apply Forall_drop|]. unfold visible. rewrite length_lastn. unfold top, lenZ in *. lia.
Qed.

Lemma length_shown t : term_ok t -> length (shown t) = 192%nat.
Proof. intros H. destruct (visible_ok t H) as [Hr Hl]. unfold shown. rewrite length_app, length_replicate, length_rows by done. lia. Qed.

(** A character put into one of the rows *)
Lemma concat_upd rows k c x :
  Forall (fun l : list Z => length l = 16%nat) rows -> (k < length rows)%nat -> (c < 16)%nat ->
  <[(16 * k + c)%nat := x]> (concat rows) = concat (<[k := <[c := x]> (nth k rows [])]> rows).
Proof.
  intros HF. revert k. induction HF as [|l rows Hl _ IH]; intros k Hk Hc; cbn [length] in Hk; [lia|].
  destruct k as [|k]; cbn [concat nth].
  - rewrite insert_app_l by lia. done.
  - rewrite insert_app_r_alt by lia. change (<[S k := ?y]> (l :: rows)) with (l :: <[k := y]> rows). cbn [concat]. f_equal.
    rewrite <- IH by lia. f_equal. lia.
Qed.

Lemma shown_put lines i c x :
  term_ok (lines, (i, c)) -> c < 16 ->
  shown (term_put (lines, (i, c)) x) = updZ (shown (lines, (i, c))) (16 * (i - top (lines, (i, c))) + c) x.
Proof.
  intros Hok Hc. destruct (visible_ok _ Hok) as [Hr Hl]. destruct Hok as (HF & Hi & Hc0). unfold top, lenZ in *. cbn [fst snd] in *.
  unfold shown, visible, lastn in *. cbn [fst snd term_put] in *. unfold updZ, line_at in *. rewrite length_insert.
  set (n := (length lines - 12)%nat) in *. set (k := (Z.to_nat i - n)%nat).
  rewrite drop_insert_ge by lia. rewrite length_insert. fold k.
  replace (Z.to_nat (16 * (i - Z.max 0 (Z.of_nat (length lines) - 12)) + c)) with (16 * k + Z.to_nat c)%nat by lia.
  assert (Hk : (k < length (drop n lines))%nat) by (rewrite length_drop; lia).
  rewrite insert_app_l by (rewrite length_rows by done; lia). rewrite concat_upd by (done || lia). f_equal. f_equal. f_equal. f_equal.
  rewrite !nth_lookup, lookup_drop. do 2 f_equal. lia.
Qed.

Lemma shown_grow lines p q :
  Forall (fun l => length l = 16%nat) lines -> (0 < length lines)%nat ->
  shown (lines ++ [blank_line], p) =
  if decide (length lines < 12)%nat then shown (lines, q) else drop 16 (shown (lines, q)) ++ replicate 16 32.
Proof.
  intros HF H0. unfold shown, visible. cbn [fst]. rewrite !length_lastn, !length_app. cbn [length].
  destruct (decide (length lines < 12)%nat) as [Hs|Hs].
  - rewrite lastn_snoc_short by done. rewrite concat_app, <- app_assoc. cbn [concat]. f_equal.
    unfold blank_line. rewrite app_nil_r, <- replicate_add. f_equal. lia.
  - rewrite lastn_snoc_full by lia. rewrite concat_app. cbn [concat].
    replace (192 - 16 * Nat.min 12 (length lines))%nat with 0%nat by lia.
    replace (192 - 16 * Nat.min 12 (length lines + 1))%nat with 0%nat by lia.
    change (replicate 0 32) with (@nil Z). rewrite !app_nil_r. f_equal.
    destruct (lastn 12 lines) as [|l rows] eqn:E; [apply (f_equal length) in E; rewrite length_lastn in E; change (length []) with 0%nat in E; lia|].
    cbn [drop concat]. assert (Hl : length l = 16%nat).
    { apply (Forall_drop _ (length lines - 12)) in HF. change (drop _ lines) with (lastn 12 lines) in HF. rewrite E in HF. by apply Forall_cons_1 in HF as [? _]. }
    by rewrite drop_app_length' by done.
Qed.

Lemma layout_newline_spec t d : lays_out t d -> lays_out (term_newline t) (layout_newline d).
Proof.
  destruct t as [lines [i c]]. intros [Ht Hx Hy (HF & Hi & Hc)]. unfold top, lenZ in *. cbn [fst snd] in *.
  unfold layout_newline, term_newline. unfold lenZ. destruct (Z.ltb_spec (i + 1) (Z.of_nat (length lines))).
  - rewrite (proj2 (Z.leb_le _ _)) by lia. split; unfold term_ok, top, lenZ; cbn -[shown Z.mul]; [exact Ht|lia..|].
    split; [done|lia].
  - pose proof (shown_grow lines (i + 1, 0) (i, c) HF ltac:(lia)) as Hs.
    assert (HF' : Forall (fun l => length l = 16%nat) (lines ++ [blank_line])) by (apply Forall_app; split; [done|by repeat constructor]).
    assert (Hok : term_ok (lines ++ [blank_line], (i + 1, 0))) by (unfold term_ok, top, lenZ; cbn [fst snd]; rewrite length_app; cbn [length]; split; [done|lia]).
    destruct (Z.leb_spec (dy d + 11) 123).
    + rewrite decide_True in Hs by lia. split; unfold top, lenZ; cbn -[shown blank_line Z.mul]; [by rewrite Hs|lia|rewrite length_app; cbn [length]; lia|done].
    + rewrite decide_False in Hs by lia. split; unfold top, lenZ; cbn -[shown blank_line ptr_add replicate Z.mul]; [by rewrite Hs, Ht|lia|rewrite length_app; cbn [length]; lia|done].
Qed.

Lemma layout_back_spec t d : lays_out t d ->
  lays_out (term_back t) (if 15 <=? dx d then set_position (dx d - 15) (dy d) d
                          else if 11 <=? dy d then set_position 225 (dy d - 11) d else d).
Proof.
  destruct t as [lines [i c]]. intros H. destruct H as [Ht Hx Hy (HF & Hi & Hc)] eqn:E. clear E. cbn [fst snd] in *. unfold term_back.
  set (t := (lines, (i, c))) in *. assert (Etop : forall p, top (lines, p) = top t) by done.
  destruct (Z.ltb_spec 0 c); [rewrite (proj2 (Z.leb_le 15 _)) by lia|rewrite (proj2 (Z.leb_gt 15 _)) by lia;
    destruct (Z.ltb_spec (top t) i); [rewrite (proj2 (Z.leb_le 11 _)) by lia|rewrite (proj2 (Z.leb_gt 11 _)) by lia; done]].
  - split; rewrite ?Etop; unfold term_ok; cbn -[shown top Z.mul]; [exact Ht|lia..|]. rewrite ?Etop. split; [done|lia].
  - split; rewrite ?Etop; unfold term_ok; cbn -[shown top Z.mul]; [exact Ht|lia..|]. rewrite ?Etop. split; [done|lia].
Qed.

(** Room for a character in the current line. *)
Lemma layout_put_spec t d x :
  lays_out t d -> snd (snd t) < 16 ->
  let row := dy d / 11 in let col := dx d / 15 in
  row < ROWS /\ col < COLS /\
  lays_out (term_put t x) (set_position (dx d + 15) (dy d) (set_textbuf (updZ (textbuf d) (cell row col) x) d)).
Proof.
  destruct t as [lines [i c]]. intros [Ht Hx Hy Hok] Hc16. pose proof (shown_put lines i c x Hok Hc16) as Hs.
  destruct Hok as (HF & Hi & Hc). cbn [fst snd] in *. cbv zeta. rewrite Hx, Hy. rewrite (Z.mul_comm 15), (Z.mul_comm 11), !Z.div_mul by lia.
  assert (Htop : i - top (lines, (i, c)) < 12) by (unfold top, lenZ in *; cbn [fst] in *; lia).
  split; [unfold ROWS; lia|]. split; [unfold COLS; lia|].
  assert (Etop : top (term_put (lines, (i, c)) x) = top (lines, (i, c))) by (unfold top; cbn [term_put fst]; by rewrite lenZ_upd).
  split; rewrite ?Etop; cbn -[shown top Z.mul term_put].
  - rewrite Hs, Ht. f_equal. unfold cell, COLS. lia.
  - cbn [term_put snd]. lia.
  - cbn [term_put fst snd]. lia.
  - unfold term_ok. rewrite Etop. cbn [term_put fst snd]. rewrite lenZ_upd. split; [|lia].
    apply Forall_insert; [done|]. unfold updZ, line_at. rewrite length_insert. rewrite Forall_forall in HF. apply HF.
    apply nth_In. unfold top, lenZ in *. lia.
Qed.

Lemma lays_out_redraw t d b : lays_out t d -> lays_out t (set_redraw b d).
Proof. by intros []. Qed.

Definition works (d : display) : Prop := ready d = true /\ spi_fault d = false.

(** One character laid out is one character typed on the terminal. *)
Lemma layout_char_spec t d x : works d -> lays_out t d -> lays_out (term_putc t x) (layout_char x d).
Proof.
  intros [Hr Hf] H. unfold layout_char, term_putc. rewrite Hr, Hf. cbn [negb orb].
  destruct (Z.eqb_spec x 13); [done|]. destruct (Z.eqb_spec x 10); [by apply layout_newline_spec|].
  destruct (Z.eqb_spec x 8); [by apply layout_back_spec|]. destruct (lo_ok _ _ H) as (_ & _ & Hc).
  assert (E : (240 <=? dx d) = (snd (snd t) =? COLS)) by (rewrite (lo_x _ _ H); unfold COLS; lia).
  rewrite E. clear E. destruct (Z.eqb_spec (snd (snd t)) COLS) as [Hc16|Hc16].
  - destruct (layout_put_spec _ _ x (layout_newline_spec _ _ H)) as (H1 & H2 & H3); [by destruct t as [? []]|].
    apply Z.ltb_lt in H1, H2. rewrite H1, H2. by destruct H3.
  - destruct (layout_put_spec _ _ x H) as (H1 & H2 & H3); [unfold COLS in Hc16; lia|].
    apply Z.ltb_lt in H1, H2. rewrite H1, H2. by destruct H3.
Qed.

(** ** What the panel shows *)
Section Panel.
Context {P : Type} `{PANEL : Panel P}.
Abbreviation screen := (display * P)%type.

(** The 15 by 10 pixels of cell [i] are the image of [c]. *)
Definition cell_image (p : P) (i c : Z) : Prop := forall a b, 0 <= a < 15 -> 0 <= b < 10 ->
  pixel p (40 + i mod COLS * 15 + a) (53 + i / COLS * 11 + b) = nthZ (glyph_pixels c) (b * 15 + a).

Lemma lenZ_glyph c : lenZ (glyph_pixels c) = 150.
Proof.
  unfold glyph_pixels. cbn [map concat]. rewrite !lenZ_app.
  assert (H : forall r, lenZ (glyph_line r) = 15) by reflexivity. rewrite !H. reflexivity.
Qed.

Lemma lenZ_cursor : lenZ cursor_pixels = 150.
Proof. reflexivity. Qed.

Lemma same_cell i j : 0 <= i -> 0 <= j -> i mod COLS = j mod COLS -> i / COLS = j / COLS -> i = j.
Proof. unfold COLS. intros. rewrite (Z.div_mod i 16), (Z.div_mod j 16) by lia. congruence. Qed.

(** A block painted over a cell: that cell, and no other one. *)
Lemma win_cell i px p :
  0 <= i < 192 -> lenZ px = 150 ->
  let p' := win (i mod COLS * 15) (i / COLS * 11) (i mod COLS * 15 + 14) (i / COLS * 11 + 9) px p in
  (forall a b, 0 <= a < 15 -> 0 <= b < 10 ->
     pixel p' (40 + i mod COLS * 15 + a) (53 + i / COLS * 11 + b) = nthZ px (b * 15 + a)) /\
  (forall j c, 0 <= j < 192 -> j <> i -> cell_image p j c -> cell_image p' j c).
Proof.
  intros Hi Hpx. cbn zeta. unfold win. split.
  - intros a b Ha Hb. rewrite pixel_written by lia. rewrite !(proj2 (Z.leb_le _ _)) by lia. cbn [andb].
    f_equal. lia.
  - intros j c Hj Hne Hc a b Ha Hb. rewrite pixel_written by lia.
    destruct (decide (i mod COLS = j mod COLS)) as [Em|Em]; [destruct (decide (i / COLS = j / COLS)) as [Ed|Ed]|].
    + exfalso. apply Hne. symmetry. apply same_cell; [lia|lia|done|done].
    + rewrite <- (Hc a b Ha Hb). destruct (Z.lt_ge_cases (i / COLS) (j / COLS)).
      * rewrite (proj2 (Z.leb_gt _ (i / COLS * 11 + 9 + 53))), !andb_false_r by lia. done.
      * rewrite (proj2 (Z.leb_gt (i / COLS * 11 + 53) _)), andb_false_r by lia. done.
    + rewrite <- (Hc a b Ha Hb). destruct (Z.lt_ge_cases (i mod COLS) (j mod COLS)).
      * rewrite (proj2 (Z.leb_gt _ (i mod COLS * 15 + 14 + 40))), andb_false_r by lia. done.
      * rewrite (proj2 (Z.leb_gt (i mod COLS * 15 + 40) _)) by lia. done.
Qed.

Lemma glyph_cell i c p :
  0 <= i < 192 ->
  let p' := glyph_scaled (i mod COLS * 15) (i / COLS * 11) c p in
  cell_image p' i c /\ forall j c', 0 <= j < 192 -> j <> i -> cell_image p j c' -> cell_image p' j c'.
Proof. intros. apply (win_cell i (glyph_pixels c) p); [done|apply lenZ_glyph]. Qed.

Definition cursor_cell (d : display) : Z := cell (cursor_y d / 11) (cursor_x d / 15).

Record screen_ok (s : screen) : Prop := {
  so_painted : lenZ (painted (fst s)) = 192;
  so_text : lenZ (textbuf (fst s)) = 192;
  so_batch : 0 <= display_batch (fst s) < 4294967296;
  (** every cell shows the character painted last, but the one under the cursor *)
  so_cells : forall i, 0 <= i < 192 -> (cursor_visible (fst s) = true -> i <> cursor_cell (fst s)) ->
    cell_image (snd s) i (nthZ (painted (fst s)) i);
  so_cursor : cursor_visible (fst s) = true ->
    0 <= cursor_cell (fst s) < 192 /\ cursor_x (fst s) = cursor_cell (fst s) mod COLS * 15 /\
    cursor_y (fst s) = cursor_cell (fst s) / COLS * 11 /\
    display_batch (fst s) = 0 /\ display_redraw_pending (fst s) = false /\ cursor_active (fst s) = true;
  (** nothing is left to paint unless a repaint is pending *)
  so_clean : display_redraw_pending (fst s) = false -> painted (fst s) = textbuf (fst s) }.

Lemma hide_ok reset s :
  works (fst s) -> screen_ok s ->
  screen_ok (display_cursor_hide reset s) /\ cursor_visible (fst (display_cursor_hide reset s)) = false.
Proof.
  destruct s as [d p]. intros [Hr Hf] [Hp Ht Hb Hc Hcur Hcl]. unfold display_cursor_hide. cbn [fst snd] in *.
  rewrite Hr, Hf. cbn [negb andb]. rewrite !andb_true_r. split; [|done]. split; cbn -[glyph_scaled]; [done|done|done| |done|done].
  intros i Hi _. destruct (cursor_visible d) eqn:E; [|by apply Hc].
  destruct (Hcur eq_refl) as (Hrange & Hx & Hy & _). fold (cursor_cell d). rewrite Hx, Hy.
  destruct (glyph_cell (cursor_cell d) (nthZ (painted d) (cursor_cell d)) p Hrange) as [H1 H2].
  destruct (decide (i = cursor_cell d)) as [->|]; [done|]. apply H2; [done|done|]. by apply Hc.
Qed.

(** Laying out a character needs a repaint whenever it changes the text. *)
Lemma layout_newline_redraw d :
  lenZ (textbuf d) = 192 -> lenZ (textbuf (layout_newline d)) = 192 /\
  (display_redraw_pending (layout_newline d) = false ->
   textbuf (layout_newline d) = textbuf d /\ display_redraw_pending d = false).
Proof.
  intros Ht. unfold layout_newline. destruct (dy d + 11 <=? 123); cbn -[ptr_add replicate]; [done|].
  split; [|done]. rewrite lenZ_app. unfold lenZ, ptr_add in *. rewrite length_drop, length_replicate.
  change (Z.to_nat COLS) with 16%nat. lia.
Qed.

Definition same_panel (d d' : display) : Prop :=
  ready d' = ready d /\ spi_fault d' = spi_fault d /\ painted d' = painted d /\
  display_batch d' = display_batch d /\ cursor_visible d' = cursor_visible d.

Lemma layout_newline_panel d : same_panel d (layout_newline d).
Proof. unfold layout_newline. by destruct (dy d + 11 <=? 123). Qed.

Lemma layout_char_panel c d : same_panel d (layout_char c d).
Proof.
  unfold layout_char. destruct (negb (ready d) || spi_fault d); [done|]. destruct (c =? 13); [done|].
  destruct (c =? 10); [apply layout_newline_panel|]. destruct (c =? 8); [by destruct (15 <=? dx d), (11 <=? dy d)|].
  destruct (240 <=? dx d).
  - pose proof (layout_newline_panel d). by destruct ((_ <? ROWS) && _).
  - by destruct ((_ <? ROWS) && _).
Qed.

Lemma layout_char_redraw c d :
  lenZ (textbuf d) = 192 -> lenZ (textbuf (layout_char c d)) = 192 /\
  (display_redraw_pending (layout_char c d) = false ->
   textbuf (layout_char c d) = textbuf d /\ display_redraw_pending d = false).
Proof.
  intros Ht. unfold layout_char. destruct (negb (ready d) || spi_fault d); [done|]. destruct (c =? 13); [done|].
  destruct (c =? 10); [by apply layout_newline_redraw|].
  destruct (c =? 8); [by destruct (15 <=? dx d), (11 <=? dy d)|].
  destruct (240 <=? dx d).
  - destruct (layout_newline_redraw d Ht) as [H1 H2].
    destruct ((_ <? ROWS) && _); cbn; [by rewrite lenZ_upd|done].
  - destruct ((_ <? ROWS) && _); cbn; [by rewrite lenZ_upd|done].
Qed.

(** Text laid out under an invisible cursor. *)
Lemma layout_ok c s :
  cursor_visible (fst s) = false -> screen_ok s -> screen_ok (on_display (layout_char c) s).
Proof.
  destruct s as [d p]. intros Hv [Hp Ht Hb Hc _ Hcl]. unfold on_display. cbn [fst snd] in *.
  destruct (layout_char_panel c d) as (_ & _ & Ep & Eb & Ev). destruct (layout_char_redraw c d Ht) as [Et Er].
  split; cbn [fst snd]; rewrite ?Ep, ?Eb, ?Ev, ?Hv; try done.
  - intros i Hi _. apply Hc; [done|]. by rewrite Hv.
  - intros Hr. destruct (Er Hr) as [-> Hr']. by apply Hcl.
Qed.

Lemma begin_ok s :
  works (fst s) -> screen_ok s -> display_batch (fst s) < 4294967295 ->
  screen_ok (cardputer_display_begin_batch s) /\
  display_batch (fst (cardputer_display_begin_batch s)) = display_batch (fst s) + 1 /\
  cursor_visible (fst (cardputer_display_begin_batch s)) = false /\
  textbuf (fst (cardputer_display_begin_batch s)) = textbuf (fst s).
Proof.
  intros Hw H Hlt. unfold cardputer_display_begin_batch.
  assert (G : forall s0, screen_ok s0 -> cursor_visible (fst s0) = false -> display_batch (fst s0) = display_batch (fst s) ->
    screen_ok (on_display (fun d => set_batch (display_batch d +u 1) d) s0) /\
    display_batch (fst s0) +u 1 = display_batch (fst s) + 1).
  { intros s0 [Hp Ht Hb Hc Hcur Hcl] Hv Hsame. rewrite Hsame in *. unwrap. split; [|done].
    destruct s0 as [d p]. cbn [fst snd] in *. split; cbn [fst snd on_display]; try done.
    - cbn. rewrite Hsame. unwrap. lia.
    - cbn. by rewrite Hv. }
  destruct (Z.eqb_spec (display_batch (fst s)) 0) as [E|E].
  - destruct (hide_ok true s Hw H) as [H1 H2].
    assert (Hb : display_batch (fst (display_cursor_hide true s)) = display_batch (fst s)) by by destruct s.
    destruct (G _ H1 H2 Hb) as [G1 G2]. split_and!; [done| |done|by destruct s]. cbn. by rewrite Hb in *.
  - assert (Hv : cursor_visible (fst s) = false).
    { destruct (cursor_visible (fst s)) eqn:Ev; [|done]. destruct (so_cursor _ H Ev) as (_ & _ & _ & ? & _). done. }
    destruct (G _ H Hv eq_refl) as [G1 G2]. by split_and!.
Qed.

(** The repaint of the cells from [i] on. *)
Record repainted (i : Z) (s : screen) : Prop := {
  rp_painted : lenZ (painted (fst s)) = 192;
  rp_cells : forall j, 0 <= j < 192 -> cell_image (snd s) j (nthZ (painted (fst s)) j);
  rp_done : forall j, 0 <= j < i -> nthZ (painted (fst s)) j = nthZ (textbuf (fst s)) j }.

Lemma paint_cell_ok i s : 0 <= i < 192 -> repainted i s -> repainted (i + 1) (paint_cell i s).
Proof.
  intros Hi [Hp Hc Hd]. destruct s as [d p]. unfold paint_cell. cbn [fst snd] in *.
  destruct (Z.eqb_spec (nthZ (textbuf d) i) (nthZ (painted d) i)) as [E|E].
  - split; cbn [fst snd]; [done|done|]. intros j Hj. destruct (decide (j = i)) as [->|]; [done|apply Hd; lia].
  - destruct (glyph_cell i (nthZ (textbuf d) i) p Hi) as [H1 H2]. split; cbn [fst snd painted set_painted textbuf].
    + by rewrite lenZ_upd.
    + intros j Hj. rewrite nthZ_upd by lia. destruct (Z.eqb_spec i j) as [->|]; [done|]. apply H2; [done|done|by apply Hc].
    + intros j Hj. rewrite nthZ_upd by lia. destruct (Z.eqb_spec i j) as [->|]; [done|]. apply Hd. lia.
Qed.

Lemma paint_cell_rest i s :
  fst (paint_cell i s) = set_painted (painted (fst (paint_cell i s))) (fst s).
Proof. destruct s as [d p]. unfold paint_cell. cbn [fst]. by destruct (_ =? _), d. Qed.

Lemma paint_cells_ok n i s :
  0 <= i -> i + Z.of_nat n = 192 -> repainted i s ->
  repainted 192 (paint_cells n i s) /\ fst (paint_cells n i s) = set_painted (painted (fst (paint_cells n i s))) (fst s).
Proof.
  revert i s. induction n as [|n IH]; intros i s Hi Hn H; cbn [paint_cells].
  - replace 192 with i by lia. split; [done|]. by destruct (fst s).
  - destruct (IH (i + 1) (paint_cell i s)) as [H1 H2]; [lia|lia|apply paint_cell_ok; [lia|done]|].
    split; [done|]. rewrite H2, (paint_cell_rest i s) at 1. done.
Qed.

Lemma batch_hidden s : screen_ok s -> display_batch (fst s) <> 0 -> cursor_visible (fst s) = false.
Proof.
  intros H Hb. destruct (cursor_visible (fst s)) eqn:Ev; [|done].
  by destruct (so_cursor _ H Ev) as (_ & _ & _ & ? & _).
Qed.

Lemma repaint_ok n s :
  Z.of_nat n = 192 ->   screen_ok s -> cursor_visible (fst s) = false ->
  screen_ok (paint_cells n 0 (on_display (set_redraw false) s)) /\
  fst (paint_cells n 0 (on_display (set_redraw false) s)) = set_painted (textbuf (fst s)) (set_redraw false (fst s)).
Proof.
  intros Hn [Hp Ht Hb Hc _ _] Hv. destruct (paint_cells_ok n 0 (on_display (set_redraw false) s)) as [[Rp Rc Rd] Rest]; [lia|lia| |].
  - split; cbn; [done| |lia]. intros j Hj. apply Hc; [done|by rewrite Hv].
  - assert (Etext : textbuf (fst (paint_cells n 0 (on_display (set_redraw false) s))) = textbuf (fst s)) by by rewrite Rest.
    assert (Ep : painted (fst (paint_cells n 0 (on_display (set_redraw false) s))) = textbuf (fst s)).
    { rewrite <- Etext. apply list_eq_nthZ; [|by rewrite Rp].
      rewrite Etext. unfold lenZ in *. lia. }
    assert (E : fst (paint_cells n 0 (on_display (set_redraw false) s)) = set_painted (textbuf (fst s)) (set_redraw false (fst s))).
    { rewrite Rest, Ep. by destruct s. }
    split; [|done]. split; try (rewrite E; cbn; done).
    + intros j Hj _. by apply Rc.
    + rewrite E. cbn. by rewrite Hv.
Qed.

Lemma end_ok s :
  works (fst s) -> screen_ok s ->
  screen_ok (cardputer_display_end_batch s) /\
  textbuf (fst (cardputer_display_end_batch s)) = textbuf (fst s) /\
  display_batch (fst (cardputer_display_end_batch s)) = Z.max 0 (display_batch (fst s) - 1) /\
  (display_batch (fst s) = 1 -> display_redraw_pending (fst (cardputer_display_end_batch s)) = false).
Proof.
  intros [Hr Hf] H. pose proof (so_batch _ H) as Hb. unfold cardputer_display_end_batch.
  destruct (Z.eqb_spec (display_batch (fst s)) 0) as [E|E]; [split_and!; [done|done|lia|lia]|].
  pose proof (batch_hidden _ H E) as Hv.
  set (s1 := on_display (fun d => set_batch (display_batch d - 1) d) s).
  assert (H1 : screen_ok s1).
  { destruct H as [Hp Ht _ Hc _ Hcl]. destruct s as [d p]. split; cbn [fst snd s1 on_display] in *; try done.
    - cbn. lia.
    - cbn. by rewrite Hv. }
  assert (Hb1 : display_batch (fst s1) = display_batch (fst s) - 1) by by destruct s.
  assert (Ht1 : textbuf (fst s1) = textbuf (fst s)) by by destruct s.
  destruct (truthy (display_batch (fst s1)) || negb (display_redraw_pending (fst s1))) eqn:Eg.
  { rewrite Hb1, Ht1. split_and!; [done|done|lia|]. intros E1. rewrite Hb1 in Eg. rewrite E1 in Eg. cbn in Eg.
    by apply negb_true_iff in Eg. }
  assert (Hw : negb (ready (fst (on_display (set_redraw false) s1))) || spi_fault (fst (on_display (set_redraw false) s1)) = false).
  { destruct s as [d p]. cbn in *. by rewrite Hr, Hf. }
  rewrite Hw. pose proof (repaint_ok 192 s1 eq_refl H1) as R. revert R. generalize (paint_cells 192 0 (on_display (set_redraw false) s1)).
  intros s2 R. destruct R as [R1 R2]; [by destruct s|]. rewrite R2. cbn [textbuf set_painted set_redraw].
  split_and!; [done|by rewrite Ht1|cbn; lia|done].
Qed.

Lemma same_panel_works d d' : same_panel d d' -> works d -> works d'.
Proof. unfold works. by intros (-> & -> & _). Qed.

Lemma lays_out_ext t d d' :
  textbuf d' = textbuf d -> dx d' = dx d -> dy d' = dy d -> lays_out t d -> lays_out t d'.
Proof. intros E1 E2 E3 []. split; congruence. Qed.

(** ** Runs of display operations *)
Inductive display_op :=
| Putc (c : Z) | BeginBatch | EndBatch | DeferNewline | Cursor (active : bool) (ticks : Z) | Clear.

Definition run_op (op : display_op) (s : screen) : screen :=
  match op with
  | Putc c => cardputer_display_putc c s
  | BeginBatch => cardputer_display_begin_batch s
  | EndBatch => cardputer_display_end_batch s
  | DeferNewline => cardputer_display_defer_newline s
  | Cursor active ticks => cardputer_display_cursor active ticks s
  | Clear => cardputer_display_clear s
  end.
Definition run_ops (ops : list display_op) (s : screen) : screen := fold_left (fun s op => run_op op s) ops s.

(** The terminal knows only what is typed. *)
Definition term_op (t : term) (op : display_op) : term :=
  match op with
  | Putc c => term_putc t c
  | DeferNewline => term_putc t 10
  | Clear => blank_term
  | _ => t
  end.

Record display_ok (t : term) (s : screen) : Prop := {
  do_works : works (fst s);
  do_screen : screen_ok s;
  do_text : lays_out t (fst s) }.

Lemma begin_display t s :
  display_ok t s -> display_batch (fst s) < 4294967295 -> display_ok t (cardputer_display_begin_batch s).
Proof.
  intros [Hw Hs Ht] Hb. destruct (begin_ok s Hw Hs Hb) as (H1 & _ & _ & H2).
  assert (E : ready (fst (cardputer_display_begin_batch s)) = ready (fst s) /\
              spi_fault (fst (cardputer_display_begin_batch s)) = spi_fault (fst s) /\
              dx (fst (cardputer_display_begin_batch s)) = dx (fst s) /\
              dy (fst (cardputer_display_begin_batch s)) = dy (fst s)).
  { unfold cardputer_display_begin_batch. destruct s as [d p]. by destruct (display_batch _ =? 0). }
  destruct E as (E1 & E2 & E3 & E4). split; [|done|by eapply lays_out_ext].
  destruct Hw. split; congruence.
Qed.

Lemma paint_cells_keep n i s : fst (paint_cells n i s) = set_painted (painted (fst (paint_cells n i s))) (fst s).
Proof.
  revert i s. induction n as [|n IH]; intros i s; cbn [paint_cells]; [by destruct (fst s)|].
  rewrite IH, (paint_cell_rest i s) at 1. done.
Qed.

Lemma end_display t s : display_ok t s -> display_ok t (cardputer_display_end_batch s).
Proof.
  intros [Hw Hs Ht]. destruct (end_ok s Hw Hs) as (H1 & H2 & _).
  assert (E : ready (fst (cardputer_display_end_batch s)) = ready (fst s) /\
              spi_fault (fst (cardputer_display_end_batch s)) = spi_fault (fst s) /\
              dx (fst (cardputer_display_end_batch s)) = dx (fst s) /\
              dy (fst (cardputer_display_end_batch s)) = dy (fst s)).
  { clear. unfold cardputer_display_end_batch. generalize 192%nat. intros n.
    destruct (_ =? _); [done|]. destruct (truthy _ || _); [done|]. destruct (negb _ || _); [done|].
    rewrite paint_cells_keep. done. }
  destruct E as (E1 & E2 & E3 & E4). split; [|done|by eapply lays_out_ext].
  destruct Hw. split; congruence.
Qed.

Lemma layout_display t s c :
  cursor_visible (fst s) = false -> display_ok t s ->
  display_ok (term_putc t c) (on_display (layout_char c) s).
Proof.
  intros Hv [Hw Hs Ht]. split.
  - apply (same_panel_works (fst s)); [apply layout_char_panel|done].
  - by apply layout_ok.
  - by apply layout_char_spec.
Qed.

Lemma putc_display t s c :
  display_ok t s -> display_ok (term_putc t c) (cardputer_display_putc c s).
Proof.
  intros H. unfold cardputer_display_putc. destruct (Z.eqb_spec (display_batch (fst s)) 0) as [E|E].
  - apply end_display, layout_display; [|apply begin_display; [done|lia]].
    destruct H as [Hw Hs _]. apply begin_ok; [done|done|lia].
  - apply layout_display; [|done]. by apply batch_hidden; [destruct H|].
Qed.

Lemma hide_display t reset s :
  display_ok t s -> display_ok t (display_cursor_hide reset s) /\
  cursor_visible (fst (display_cursor_hide reset s)) = false.
Proof.
  intros [Hw Hs Ht]. destruct (hide_ok reset s Hw Hs) as [H1 H2]. split; [|done].
  destruct s as [d p]. split; [done|done|by apply (lays_out_ext t d)].
Qed.

(** The cell of the cursor: the position, or the last cell of a full line. *)
Lemma cursor_at t d :
  lays_out t d -> let cx := if dx d <? 240 then dx d else 225 in
  exists i, 0 <= i < 192 /\ cx = i mod COLS * 15 /\ dy d = i / COLS * 11 /\ cell (dy d / 11) (cx / 15) = i.
Proof.
  intros H. cbn zeta. pose proof (lo_x _ _ H) as Hx. pose proof (lo_y _ _ H) as Hy. destruct (lo_ok _ _ H) as (_ & Hr & Hc).
  set (cx := if dx d <? 240 then dx d else 225).
  assert (Hcx : exists k, 0 <= k < 16 /\ cx = 15 * k).
  { unfold cx. destruct (Z.ltb_spec (dx d) 240); [|by exists 15].
    exists (snd (snd t)). lia. }
  destruct Hcx as (k & Hk & ->). exists (cell (fst (snd t) - top t) k). unfold cell, COLS in *.
  assert (0 <= fst (snd t) - top t < 12) by (unfold top in *; lia).
  rewrite (Z.add_comm _ k), Z.mod_add, Z.div_add, Z.mod_small, (Z.div_small k) by lia.
  rewrite Hy. rewrite (Z.mul_comm 15), (Z.mul_comm 11), !Z.div_mul by lia. lia.
Qed.

Lemma cursor_display t s active ticks :
  display_ok t s -> display_ok t (cardputer_display_cursor active ticks s).
Proof.
  intros H. unfold cardputer_display_cursor.
  destruct (negb active || _ || _ || _ || _) eqn:Eg; [by apply hide_display|].
  apply orb_false_iff in Eg as [Eg Epend]. apply orb_false_iff in Eg as [_ Eb]. apply truthy_false in Eb.
  destruct (cursor_active (fst s) && _); [done|]. destruct s as [d p]. cbn [fst snd] in *.
  assert (H1 : display_ok t (on_display (set_cursor_tick ticks) (d, p))).
  { destruct H as [Hw [] Ht]. by split; [|split|apply (lays_out_ext t d)]. }
  destruct (cursor_active d && cursor_visible d) eqn:Eact; [by apply hide_display|]. clear H1.
  destruct H as [[Hr Hf] [Hp Ht Hbr Hc Hcur Hcl] Hl]. cbn [fst snd] in *.
  assert (Hv : cursor_visible d = false).
  { destruct (cursor_visible d); [|done]. destruct (Hcur eq_refl) as (_ & _ & _ & _ & _ & Ha). by rewrite Ha in Eact. }
  destruct (cursor_at t d Hl) as (i & Hi & Ex & Ey & Ei). rewrite Ey in Ei. rewrite Ex in *. rewrite Ey.
  destruct (win_cell i cursor_pixels p Hi lenZ_cursor) as [_ Hw]. split; [done| |by apply (lays_out_ext t d)].
  split; cbn -[win cursor_pixels]; try done.
  - intros j Hj Hne. apply Hw; [done| |].
    + intros ->. apply (Hne eq_refl). unfold cursor_cell. cbn. by rewrite Ei.
    + apply Hc; [done|]. by rewrite Hv.
  - intros _. unfold cursor_cell. cbn. by rewrite Ei.
Qed.

Lemma lays_out_blank d : textbuf d = blank_screen -> dx d = 0 -> dy d = 0 -> lays_out blank_term d.
Proof. intros Ht Hx Hy. split; [done|done|done|]. by repeat constructor. Qed.

Lemma clear_display s :
  works (fst s) -> 0 <= display_batch (fst s) < 4294967296 -> display_ok blank_term (cardputer_display_clear s).
Proof.
  intros [Hr Hf] Hb. unfold cardputer_display_clear. rewrite Hr, Hf. cbn [negb orb]. destruct s as [d p].
  unfold display_cursor_hide in *. cbn [fst snd] in *. split; [done| |by apply lays_out_blank].
  split; cbn -[win cell_image blank_screen replicate nthZ]; try done.
  intros i Hi _ a b Ha Hb'. unfold win. rewrite pixel_written; [|lia|lia|].
  2: { unfold lenZ. rewrite length_replicate. lia. }
  pose proof (Z.mod_pos_bound i COLS eq_refl). assert (0 <= i / COLS < 12).
  { split; [apply Z.div_pos; unfold COLS; lia|apply Z.div_lt_upper_bound; unfold COLS; lia]. }
  unfold COLS in *. rewrite !(proj2 (Z.leb_le _ _)) by lia. cbn [andb]. rewrite nthZ_replicate.
  replace (nthZ blank_screen i) with 32.
  - change (glyph_pixels 32) with (replicate 150 0). by rewrite nthZ_replicate.
  - unfold blank_screen, nthZ. rewrite nth_lookup, lookup_replicate_2 by lia. done.
Qed.

Lemma op_display op t s :
  display_batch (fst s) < 4294967295 -> display_ok t s -> display_ok (term_op t op) (run_op op s).
Proof.
  intros Hb H. destruct op as [c| | | |active ticks|]; cbn [term_op run_op].
  - by apply putc_display.
  - by apply begin_display.
  - by apply end_display.
  - destruct (hide_display t true s H) as [H1 H2]. by apply layout_display.
  - by apply cursor_display.
  - destruct H as [Hw Hs _]. apply clear_display; [done|apply (so_batch _ Hs)].
Qed.

Lemma end_batch_le s : 0 <= display_batch (fst s) ->
  display_batch (fst (cardputer_display_end_batch s)) = Z.max 0 (display_batch (fst s) - 1).
Proof.
  intros H. unfold cardputer_display_end_batch. destruct (Z.eqb_spec (display_batch (fst s)) 0); [lia|].
  assert (E : display_batch (fst (on_display (fun d => set_batch (display_batch d - 1) d) s)) = Z.max 0 (display_batch (fst s) - 1))
    by (destruct s; cbn in *; lia).
  destruct (truthy _ || _); [done|]. destruct (negb _ || _); [done|].
  generalize 192%nat. intros m. by rewrite paint_cells_keep.
Qed.

Lemma op_batch op s : works (fst s) -> screen_ok s -> display_batch (fst s) < 4294967295 ->
  display_batch (fst (run_op op s)) <= display_batch (fst s) + 1.
Proof.
  intros Hw Hs Hb. assert (Hc : display_batch (fst (cardputer_display_begin_batch s)) = display_batch (fst s) + 1) by by apply begin_ok.
  destruct op as [c| | | |active ticks|]; cbn [run_op].
  - unfold cardputer_display_putc. destruct (Z.eqb_spec (display_batch (fst s)) 0) as [E|E].
    + set (s1 := cardputer_display_begin_batch s) in *.
      assert (E1 : display_batch (fst (on_display (layout_char c) s1)) = display_batch (fst s1)).
      { exact (proj1 (proj2 (proj2 (proj2 (layout_char_panel c (fst s1)))))). }
      rewrite end_batch_le; [lia|]. rewrite E1. pose proof (so_batch _ Hs). lia.
    + destruct (layout_char_panel c (fst s)) as (_ & _ & _ & E1 & _). cbn. rewrite E1. lia.
  - lia.
  - destruct (end_ok s Hw Hs) as (_ & _ & -> & _). pose proof (so_batch _ Hs). lia.
  - unfold cardputer_display_defer_newline. cbn. destruct (layout_char_panel 10 (fst (display_cursor_hide true s))) as (_ & _ & _ & -> & _).
    destruct s. cbn. lia.
  - unfold cardputer_display_cursor. destruct s as [d p]. destruct (_ || _); [cbn; lia|]. destruct (_ && _); [cbn; lia|].
    destruct (_ && _); cbn; lia.
  - unfold cardputer_display_clear. destruct s as [d p]. destruct (_ || _); cbn; lia.
Qed.

Lemma ops_display ops t s :
  display_batch (fst s) + lenZ ops < 4294967296 -> display_ok t s ->
  display_ok (fold_left term_op ops t) (run_ops ops s).
Proof.
  revert t s. induction ops as [|op ops IH]; intros t s Hb H; [done|].
  change (op :: ops) with ([op] ++ ops) in *. rewrite lenZ_app in Hb. change (lenZ [op]) with 1 in Hb.
  pose proof (lenZ_nonneg ops). cbn [app fold_left run_ops]. apply IH; [|apply op_display; [lia|done]].
  destruct H as [Hw Hs Ht]. pose proof (op_batch op s Hw Hs). lia.
Qed.

(** The panel shows the terminal, but for the cell under the cursor. *)
Definition panel_shows (t : term) (s : screen) : Prop := forall i, 0 <= i < 192 ->
  (cursor_visible (fst s) = true -> i <> cursor_cell (fst s)) -> cell_image (snd s) i (nthZ (shown t) i).

Lemma display_shows t s : display_ok t s -> display_redraw_pending (fst s) = false -> panel_shows t s.
Proof.
  intros [Hw Hs Ht] Hp i Hi Hc. rewrite <- (lo_text _ _ Ht), <- (so_clean _ Hs Hp). by apply (so_cells _ Hs).
Qed.

Lemma put_string_display str t s :
  Forall (fun c => c <> 0) str -> display_batch (fst s) = 1 -> display_ok t s ->
  display_ok (fold_left term_putc str t) (put_string str s) /\ display_batch (fst (put_string str s)) = 1.
Proof.
  intros Hs. revert t s. induction Hs as [|c str H0 _ IH]; intros t s Hb H; [done|].
  cbn [put_string fold_left]. destruct (Z.eqb_spec c 0); [done|]. apply IH; [|by apply putc_display].
  unfold cardputer_display_putc. rewrite Hb. cbn.
  by destruct (layout_char_panel c (fst s)) as (_ & _ & _ & -> & _).
Qed.

(** C28: the display behaves as a terminal of twelve lines of sixteen characters
    that scrolls, wraps and backs up.  After any run of characters, backspaces
    among them, batches, deferred newlines, clears and cursor updates the text and
    the cursor are the terminal's, and whenever no repaint is pending every cell
    of the panel shows the image of its character, but for the cell under the
    visible cursor; so moving the cursor never damages a cell.
    [cardputer_display_write] of a string, its bytes before the zero, outside a
    batch always ends with the panel showing the text written. *)
Theorem display_exact ops str t s :
  display_ok t s -> display_batch (fst s) = 0 -> lenZ ops < 4294967295 -> Forall (fun c => c <> 0) str ->
  let t' := fold_left term_op ops t in
  display_ok t' (run_ops ops s) /\
  (display_redraw_pending (fst (run_ops ops s)) = false -> panel_shows t' (run_ops ops s)) /\
  (display_batch (fst (run_ops ops s)) = 0 ->
   panel_shows (fold_left term_putc str t') (cardputer_display_write str (run_ops ops s))).
Proof.
  intros H Hb Hlen Hstr. cbn zeta. pose proof (ops_display ops t s ltac:(lia) H) as H1.
  split; [done|]. split; [by apply display_shows|]. intros Hb1. unfold cardputer_display_write.
  pose proof (begin_display _ _ H1 ltac:(lia)) as H2.
  assert (Hb2 : display_batch (fst (cardputer_display_begin_batch (run_ops ops s))) = 1).
  { destruct H1 as [Hw Hs _]. destruct (begin_ok _ Hw Hs ltac:(lia)) as (_ & -> & _). lia. }
  destruct (put_string_display str _ _ Hstr Hb2 H2) as [H3 Hb3].
  apply display_shows; [by apply end_display|]. destruct H3 as [Hw Hs _]. by apply end_ok.
Qed.
End Panel.

(** ** A panel that is an array of pixels *)
#[export] Program Instance framebuffer : Panel (Z -> Z -> Z) := {
  write_window x0 y0 x1 y1 px p := fun i j =>
    if (x0 <=? i) && (i <=? x1) && (y0 <=? j) && (j <=? y1)
    then nthZ px ((j - y0) * (x1 - x0 + 1) + (i - x0)) else p i j;
  pixel p := p }.
Next Obligation. done. Qed.

Module DisplayDemo.
Definition cleared : display * (Z -> Z -> Z) := cardputer_display_clear (boot_display, fun _ _ => 0).
Definition ops : list display_op :=
  [Putc 72; Putc 105; Putc 8; Putc 111; DeferNewline; BeginBatch; Putc 36; EndBatch; Cursor true 40].

Lemma cleared_ok : display_ok blank_term cleared.
Proof. apply clear_display; [done|cbn; lia]. Qed.

Lemma display_exact_witness :
  take 2 (shown (fold_left term_op ops blank_term)) = [72; 111] /\
  nthZ (shown (fold_left term_putc [111; 8; 107] (fold_left term_op ops blank_term))) 17 = 107 /\
  panel_shows (fold_left term_putc [111; 8; 107] (fold_left term_op ops blank_term))
    (cardputer_display_write [111; 8; 107] (run_ops ops cleared)).
Proof.
  split; [reflexivity|]. split; [reflexivity|].
  destruct (display_exact ops [111; 8; 107] blank_term cleared cleared_ok) as (_ & _ & H);
    [reflexivity|reflexivity|by repeat constructor|].
  apply H. vm_compute. reflexivity.
Defined.
End DisplayDemo.
