(* ===== verification/Tty.v ===== *)
(** * The terminal lines: src/src/kernel/tty.{h,c}, data and output

    The state of a line and of its input queue, output processing
    ([out_process]) with its column, the console's echo and write, replies,
    signals typed at the keyboard and the timers of raw reads.

    The [char] of the target is unsigned.  [vir2phys] of a local buffer is its
    address: a local buffer is the list of its bytes.  Pointers into [tty_inbuf]
    are indices, a [tty_t *] is the index of the line, and the list of lines
    with a timer is the list of their indices.  The device functions of a line
    are its [device]; [tty_icancel], [tty_ocancel], [tty_ioctl] and [tty_close] are
    [tty_devnop] and [tty_break] is null on every line.  Trace output is left
    out. *)
From S2P Require Import Prelude Codec Kconst Ktypes Sched Ipc IpcSpec Message Signals Clock Display.

(** ** termios.h, tty.h, com.h *)
Definition EINTR := -4.
Definition EAGAIN := -11.
Definition ENOTTY := -25.
Definition TTY := -9.
Definition REVIVE := 67.
Definition SUSPEND := -998.
Definition NR_CONS := 2.
Definition NR_RS_LINES := 2.
Definition LOG_MINOR := 15.
Definition RS232_MINOR := 16.
Definition O_NOCTTY := 256.
Definition O_NONBLOCK := 2048.
Definition R_BIT := 4.
Definition W_BIT := 2.
Definition TTY_IN_BYTES := 256.
Definition TAB_SIZE := 8.
Definition TAB_MASK := 7.
Definition IN_CHAR := 255.
Definition IN_LEN := 3840.
Definition IN_LSHIFT := 8.
Definition IN_EOT := 4096.
Definition IN_EOF := 8192.
Definition IN_ESC := 16384.
Definition TIME_NEVER := LONG_MAX.
Definition SIGHUP := 1.
Definition SIGINT := 2.
Definition SIGQUIT := 3.
Definition VINTR := 0.
Definition VQUIT := 1.
Definition VERASE := 2.
Definition VKILL := 3.
Definition VEOF := 4.
Definition VTIME := 5.
Definition VMIN := 6.
Definition VSTART := 7.
Definition VSTOP := 8.
Definition VEOL := 10.
Definition VREPRINT := 11.
Definition VLNEXT := 12.
Definition ISTRIP := 32.
Definition INLCR := 64.
Definition IGNCR := 128.
Definition ICRNL := 256.
Definition IXON := 512.
Definition IXANY := 2048.
Definition OPOST := 1.
Definition ONLCR := 2.
Definition XTABS := 4.
Definition ISIG := 1.
Definition ICANON := 2.
Definition ECHO := 8.
Definition ECHOE := 16.
Definition ECHOK := 32.
Definition ECHONL := 64.
Definition NOFLSH := 128.
Definition IEXTEN := 512.
Definition POSIX_VDISABLE := 255.

(** [c_pad]: the two bytes after [c_cc]. *)
Record termios := Termios {
  c_iflag : Z; c_oflag : Z; c_cflag : Z; c_lflag : Z; c_ispeed : Z; c_ospeed : Z;
  c_cc : list Z; c_pad : list Z }.
Definition termios_defaults : termios :=
  Termios (Z.lor ICRNL IXON) (Z.lor OPOST ONLCR) 176
    (Z.lor ISIG (Z.lor ICANON (Z.lor ECHO (Z.lor ECHOE (Z.lor ECHOK IEXTEN))))) 9600 9600
    [3; 28; 127; 21; 4; 0; 1; 17; 19; 26; 0; 18; 22; 15] [0; 0].
Definition winsize_defaults : list Z := replicate 8 0.

Inductive device := NoDevice | Console | Rs232.
(** An ioctl that waits for output, and (below) the input queue and a transfer. *)
Record iowait := IoWait { iocaller : Z; ioproc : Z; ioreq : Z; iovir : Z }.
Definition set_ioreq (x : Z) (w : iowait) : iowait := IoWait (iocaller w) (ioproc w) x (iovir w).

Record inq := Inq {
  inbuf : list Z; inhead : Z; intail : Z; incount : Z; eotct : Z }.
Definition set_inbuf (x : list Z) (q : inq) : inq :=
  Inq x (inhead q) (intail q) (incount q) (eotct q).
Definition set_inhead (x : Z) (q : inq) : inq :=
  Inq (inbuf q) x (intail q) (incount q) (eotct q).
Definition set_intail (x : Z) (q : inq) : inq :=
  Inq (inbuf q) (inhead q) x (incount q) (eotct q).
Definition set_incount (x : Z) (q : inq) : inq :=
  Inq (inbuf q) (inhead q) (intail q) x (eotct q).
Definition set_eotct (x : Z) (q : inq) : inq :=
  Inq (inbuf q) (inhead q) (intail q) (incount q) x.
Record xfer := Xfer {
  repcode : Z; caller : Z; for_proc : Z; vir : Z; left : Z; cum : Z }.
Definition set_repcode (x : Z) (x0 : xfer) : xfer :=
  Xfer x (caller x0) (for_proc x0) (vir x0) (left x0) (cum x0).
Definition set_caller (x : Z) (x0 : xfer) : xfer :=
  Xfer (repcode x0) x (for_proc x0) (vir x0) (left x0) (cum x0).
Definition set_for_proc (x : Z) (x0 : xfer) : xfer :=
  Xfer (repcode x0) (caller x0) x (vir x0) (left x0) (cum x0).
Definition set_vir (x : Z) (x0 : xfer) : xfer :=
  Xfer (repcode x0) (caller x0) (for_proc x0) x (left x0) (cum x0).
Definition set_left (x : Z) (x0 : xfer) : xfer :=
  Xfer (repcode x0) (caller x0) (for_proc x0) (vir x0) x (cum x0).
Definition set_cum (x : Z) (x0 : xfer) : xfer :=
  Xfer (repcode x0) (caller x0) (for_proc x0) (vir x0) (left x0) x.
Record tty := Tty {
  tty_events : bool; tty_q : inq; tty_min : Z; tty_time : Z; tty_dev : device; tty_position : Z; tty_reprint :
    bool; tty_escaped : bool; tty_inhibited : bool; tty_pgrp : Z; tty_openct : Z; tty_in : xfer; tty_out : xfer;
    tty_io : iowait; tty_termios : termios; tty_winsize : list Z }.
Definition set_tty_events (x : bool) (t : tty) : tty :=
  Tty x (tty_q t) (tty_min t) (tty_time t) (tty_dev t) (tty_position t) (tty_reprint t) (tty_escaped t)
    (tty_inhibited t) (tty_pgrp t) (tty_openct t) (tty_in t) (tty_out t) (tty_io t) (tty_termios t) (tty_winsize
    t).
Definition set_tty_q (x : inq) (t : tty) : tty :=
  Tty (tty_events t) x (tty_min t) (tty_time t) (tty_dev t) (tty_position t) (tty_reprint t) (tty_escaped t)
    (tty_inhibited t) (tty_pgrp t) (tty_openct t) (tty_in t) (tty_out t) (tty_io t) (tty_termios t) (tty_winsize
    t).
Definition set_tty_min (x : Z) (t : tty) : tty :=
  Tty (tty_events t) (tty_q t) x (tty_time t) (tty_dev t) (tty_position t) (tty_reprint t) (tty_escaped t)
    (tty_inhibited t) (tty_pgrp t) (tty_openct t) (tty_in t) (tty_out t) (tty_io t) (tty_termios t) (tty_winsize
    t).
Definition set_tty_time (x : Z) (t : tty) : tty :=
  Tty (tty_events t) (tty_q t) (tty_min t) x (tty_dev t) (tty_position t) (tty_reprint t) (tty_escaped t)
    (tty_inhibited t) (tty_pgrp t) (tty_openct t) (tty_in t) (tty_out t) (tty_io t) (tty_termios t) (tty_winsize
    t).
Definition set_tty_dev (x : device) (t : tty) : tty :=
  Tty (tty_events t) (tty_q t) (tty_min t) (tty_time t) x (tty_position t) (tty_reprint t) (tty_escaped t)
    (tty_inhibited t) (tty_pgrp t) (tty_openct t) (tty_in t) (tty_out t) (tty_io t) (tty_termios t) (tty_winsize
    t).
Definition set_tty_position (x : Z) (t : tty) : tty :=
  Tty (tty_events t) (tty_q t) (tty_min t) (tty_time t) (tty_dev t) x (tty_reprint t) (tty_escaped t)
    (tty_inhibited t) (tty_pgrp t) (tty_openct t) (tty_in t) (tty_out t) (tty_io t) (tty_termios t) (tty_winsize
    t).
Definition set_tty_reprint (x : bool) (t : tty) : tty :=
  Tty (tty_events t) (tty_q t) (tty_min t) (tty_time t) (tty_dev t) (tty_position t) x (tty_escaped t)
    (tty_inhibited t) (tty_pgrp t) (tty_openct t) (tty_in t) (tty_out t) (tty_io t) (tty_termios t) (tty_winsize
    t).
Definition set_tty_escaped (x : bool) (t : tty) : tty :=
  Tty (tty_events t) (tty_q t) (tty_min t) (tty_time t) (tty_dev t) (tty_position t) (tty_reprint t) x
    (tty_inhibited t) (tty_pgrp t) (tty_openct t) (tty_in t) (tty_out t) (tty_io t) (tty_termios t) (tty_winsize
    t).
Definition set_tty_inhibited (x : bool) (t : tty) : tty :=
  Tty (tty_events t) (tty_q t) (tty_min t) (tty_time t) (tty_dev t) (tty_position t) (tty_reprint t)
    (tty_escaped t) x (tty_pgrp t) (tty_openct t) (tty_in t) (tty_out t) (tty_io t) (tty_termios t) (tty_winsize
    t).
Definition set_tty_pgrp (x : Z) (t : tty) : tty :=
  Tty (tty_events t) (tty_q t) (tty_min t) (tty_time t) (tty_dev t) (tty_position t) (tty_reprint t)
    (tty_escaped t) (tty_inhibited t) x (tty_openct t) (tty_in t) (tty_out t) (tty_io t) (tty_termios t)
    (tty_winsize t).
Definition set_tty_openct (x : Z) (t : tty) : tty :=
  Tty (tty_events t) (tty_q t) (tty_min t) (tty_time t) (tty_dev t) (tty_position t) (tty_reprint t)
    (tty_escaped t) (tty_inhibited t) (tty_pgrp t) x (tty_in t) (tty_out t) (tty_io t) (tty_termios t)
    (tty_winsize t).
Definition set_tty_in (x : xfer) (t : tty) : tty :=
  Tty (tty_events t) (tty_q t) (tty_min t) (tty_time t) (tty_dev t) (tty_position t) (tty_reprint t)
    (tty_escaped t) (tty_inhibited t) (tty_pgrp t) (tty_openct t) x (tty_out t) (tty_io t) (tty_termios t)
    (tty_winsize t).
Definition set_tty_out (x : xfer) (t : tty) : tty :=
  Tty (tty_events t) (tty_q t) (tty_min t) (tty_time t) (tty_dev t) (tty_position t) (tty_reprint t)
    (tty_escaped t) (tty_inhibited t) (tty_pgrp t) (tty_openct t) (tty_in t) x (tty_io t) (tty_termios t)
    (tty_winsize t).
Definition set_tty_io (x : iowait) (t : tty) : tty :=
  Tty (tty_events t) (tty_q t) (tty_min t) (tty_time t) (tty_dev t) (tty_position t) (tty_reprint t)
    (tty_escaped t) (tty_inhibited t) (tty_pgrp t) (tty_openct t) (tty_in t) (tty_out t) x (tty_termios t)
    (tty_winsize t).
Definition set_tty_termios (x : termios) (t : tty) : tty :=
  Tty (tty_events t) (tty_q t) (tty_min t) (tty_time t) (tty_dev t) (tty_position t) (tty_reprint t)
    (tty_escaped t) (tty_inhibited t) (tty_pgrp t) (tty_openct t) (tty_in t) (tty_out t) (tty_io t) x
    (tty_winsize t).
Definition set_tty_winsize (x : list Z) (t : tty) : tty :=
  Tty (tty_events t) (tty_q t) (tty_min t) (tty_time t) (tty_dev t) (tty_position t) (tty_reprint t)
    (tty_escaped t) (tty_inhibited t) (tty_pgrp t) (tty_openct t) (tty_in t) (tty_out t) (tty_io t) (tty_termios
    t) x.

(** Control character [i] and the tests of the flag words. *)
Definition cc (t : tty) (i : Z) : Z := nthZ (c_cc (tty_termios t)) i.
Definition lflag (t : tty) (bit : Z) : bool := has (c_lflag (tty_termios t)) bit.
Definition iflag (t : tty) (bit : Z) : bool := has (c_iflag (tty_termios t)) bit.
Definition oflags (t : tty) (bits : Z) : bool := Z.land (c_oflag (tty_termios t)) bits =? bits.
Definition incr (i : Z) : Z := if i + 1 =? TTY_IN_BYTES then 0 else i + 1.
Definition decr (i : Z) : Z := (if i =? 0 then TTY_IN_BYTES else i) - 1.

(** The keyboard controller as [cp32_console_read] calls it: its interrupt pin,
    and the status and byte of [cp32_read_keyboard_event]. *)
Class Keyboard (K : Type) := {
  cardputer_keyboard_interrupt_asserted : K -> bool * K;
  cp32_read_keyboard_event : K -> Z * Z * K }.

(** The status with which the trap of [send] returns. *)
Class SendTrap := { send_status : kst -> Z -> Z }.

Record reply := Reply { r_code : Z; r_to : Z; r_proc : Z; r_status : Z }.
(** [static int shift, ctrl, fn, alt] of [cp32_cardputer_key] *)
Record keymods := Keymods { k_shift : bool; k_ctrl : bool; k_fn : bool; k_alt : bool }.

(** The terminal task: the kernel and clock, [tty_table], [tty_timelist],
    [tty_timeout], the decoder, the screen, the keyboard, and the history of the
    replies sent, last first. *)
Record tst (P K : Type) := Tst {
  ts_c : cst; ts_line : Z -> tty; ts_timelist : list Z; ts_timeout : Z; ts_keys : keymods;
  ts_screen : display * P; ts_kbd : K; ts_replies : list reply }.
Arguments Tst {P K} _ _ _ _ _ _ _ _.
Arguments ts_c {P K} t.
Arguments ts_line {P K} t.
Arguments ts_timelist {P K} t.
Arguments ts_timeout {P K} t.
Arguments ts_keys {P K} t.
Arguments ts_screen {P K} t.
Arguments ts_kbd {P K} t.
Arguments ts_replies {P K} t.
Definition set_ts_c {P K} (x : cst) (s : tst P K) : tst P K :=
  Tst x (ts_line s) (ts_timelist s) (ts_timeout s) (ts_keys s) (ts_screen s) (ts_kbd s) (ts_replies s).
Definition set_ts_line {P K} (x : Z -> tty) (s : tst P K) : tst P K :=
  Tst (ts_c s) x (ts_timelist s) (ts_timeout s) (ts_keys s) (ts_screen s) (ts_kbd s) (ts_replies s).
Definition set_ts_timelist {P K} (x : list Z) (s : tst P K) : tst P K :=
  Tst (ts_c s) (ts_line s) x (ts_timeout s) (ts_keys s) (ts_screen s) (ts_kbd s) (ts_replies s).
Definition set_ts_timeout {P K} (x : Z) (s : tst P K) : tst P K :=
  Tst (ts_c s) (ts_line s) (ts_timelist s) x (ts_keys s) (ts_screen s) (ts_kbd s) (ts_replies s).
Definition set_ts_keys {P K} (x : keymods) (s : tst P K) : tst P K :=
  Tst (ts_c s) (ts_line s) (ts_timelist s) (ts_timeout s) x (ts_screen s) (ts_kbd s) (ts_replies s).
Definition set_ts_screen {P K} (x : display * P) (s : tst P K) : tst P K :=
  Tst (ts_c s) (ts_line s) (ts_timelist s) (ts_timeout s) (ts_keys s) x (ts_kbd s) (ts_replies s).
Definition set_ts_kbd {P K} (x : K) (s : tst P K) : tst P K :=
  Tst (ts_c s) (ts_line s) (ts_timelist s) (ts_timeout s) (ts_keys s) (ts_screen s) x (ts_replies s).
Definition set_ts_replies {P K} (x : list reply) (s : tst P K) : tst P K :=
  Tst (ts_c s) (ts_line s) (ts_timelist s) (ts_timeout s) (ts_keys s) (ts_screen s) (ts_kbd s) x.

(** A call through a null function pointer. *)
Definition NULL_CALL := 999998.

(** ** Output processing: [out_process] on a circular buffer [buf] *)
Definition next_pos (buf : list Z) (bpos : Z) : Z := if bpos + 1 =? lenZ buf then 0 else bpos + 1.
(** [do { *bpos = ' '; ... } while (--tablen != 0)] *)
Fixpoint fill_spaces (n : nat) (bpos : Z) (buf : list Z) : list Z :=
  match n with
  | O => buf
  | S n => fill_spaces n (next_pos buf bpos) (updZ buf bpos 32)
  end.

(** The loop: the buffer, the position, and what is left of both counts. *)
Fixpoint out_loop (t : tty) (ict : nat) (buf : list Z) (bpos oct pos : Z) : list Z * Z * Z * Z :=
  match ict with
  | O => (buf, pos, 0, oct)
  | S n =>
      let stop := (buf, pos, Z.of_nat (S n), oct) in
      let next pos := out_loop t n buf (next_pos buf bpos) (oct - 1) pos in
      let ch := nthZ buf bpos in
      if ch =? 7 then next pos
      else if ch =? 8 then next (pos - 1)
      else if ch =? 13 then next 0
      else if ch =? 10 then
        if oflags t (Z.lor OPOST ONLCR) then
          if 2 <=? oct then (updZ (updZ buf bpos 13) (next_pos buf bpos) 10, 0, Z.of_nat n, oct - 2) else stop
        else next pos
      else if ch =? 9 then
        let tablen := TAB_SIZE - Z.land pos TAB_MASK in
        if oflags t (Z.lor OPOST XTABS) then
          if tablen <=? oct then (fill_spaces (Z.to_nat tablen) bpos buf, pos + tablen, Z.of_nat n, oct - tablen) else stop
        else next (pos + tablen)
      else next (pos + 1)
  end.

(** The line, the buffer, and the counts of the characters used. *)
Definition out_process (t : tty) (buf : list Z) (bpos icount ocount : Z) : tty * list Z * Z * Z :=
  let '(buf, pos, ict, oct) := out_loop t (Z.to_nat icount) buf bpos ocount (tty_position t) in
  (set_tty_position (Z.land pos TAB_MASK) t, buf, icount - ict, ocount - oct).

(** One character through [char expanded[8]]: the characters to show. *)
Definition expand (ch : Z) (t : tty) : tty * list Z :=
  let '(t, expanded, _, produced) := out_process t (ch :: replicate 7 0) 0 1 8 in
  (t, take (Z.to_nat produced) expanded).

Section Tty.
Context {P K : Type} `{PANEL : Panel P} `{KBD : Keyboard K} `{TRAP : SendTrap} `{SIG : SigSet}.
Context (m_at : Z).   (* the message buffer of system.c *)
Abbreviation TM := (M (tst P K)).

Definition ts_k (s : tst P K) : kst := c_k (ts_c s).
Definition line (tp : Z) : TM tty := gets (fun s => ts_line s tp).
Definition updl (tp : Z) (f : tty -> tty) : TM unit :=
  modify (fun s => set_ts_line (fun i => if i =? tp then f (ts_line s tp) else ts_line s i) s).
Definition on_screen (f : display * P -> display * P) : TM unit := modify (fun s => set_ts_screen (f (ts_screen s)) s).
Definition on_kernel (f : kst -> kst) : TM unit := modify (fun s => set_ts_c (kproc f (ts_c s)) s).

(** [tty_reply]: a reply that cannot be sent is a panic. *)
Definition tty_reply (code replyee proc_nr status : Z) : TM unit :=
  r <- gets (fun s => send_status (ts_k s) replyee) ;;
  guard (r !=? OK) PANIC ;;;
  modify (fun s => set_ts_replies (Reply code replyee proc_nr status :: ts_replies s) s).

Definition put_all (chars : list Z) (scr : display * P) : display * P :=
  fold_left (fun scr c => cardputer_display_putc c scr) chars scr.

(** Output processing of [ch]; the characters to show. *)
Definition processed (tp ch : Z) : TM (list Z) := fun s =>
  let (t, chars) := expand ch (ts_line s tp) in
  (Ok chars, set_ts_line (fun i => if i =? tp then t else ts_line s i) s).

Definition cp32_console_echo (tp ch : Z) : TM unit :=
  chars <- processed tp (wrap8 ch) ;;
  if ch =? 10 then on_screen cardputer_display_defer_newline else
  on_screen (fun scr => cardputer_display_end_batch (put_all chars (cardputer_display_begin_batch scr))).

(** [( *tp->tty_echo)(tp, ch)] *)
Definition tty_echo (tp ch : Z) : TM unit :=
  t <- line tp ;;
  match tty_dev t with
  | Console => cp32_console_echo tp ch
  | _ => fail NULL_CALL
  end.

(** [cp32_console_write]: one turn of the loop, then the whole. *)
Fixpoint show_bytes (tp : Z) (bytes : list Z) : TM unit :=
  match bytes with
  | [] => ret tt
  | ch :: bytes => chars <- processed tp ch ;; on_screen (put_all chars) ;;; show_bytes tp bytes
  end.

Definition console_turn (tp : Z) (_ : unit) : TM (turn unit Z) :=
  t <- line tp ;;
  let out := tty_out t in
  if negb (0 <? left out) then ret (Break OK) else
  faulted <- gets (fun s => spi_fault (fst (ts_screen s))) ;;
  if faulted : bool then ret (Break EIO) else
  let count := if 64 <? left out then 64 else left out in
  source <- gets (fun s => numap (ts_k s) (for_proc out) (vir out) count) ;;
  if source =? 0 then ret (Break EFAULT) else
  buffer <- gets (fun s => mem_read (k_mem (ts_k s)) source count) ;;
  show_bytes tp buffer ;;;
  updl tp (fun t => let out := tty_out t in
    set_tty_out (set_left (left out - count) (set_cum (cum out + count) (set_vir (vir out +u count) out))) t) ;;;
  ret (Continue tt).

(** No request is longer than 2^31 - 1 bytes: that many turns are enough. *)
Definition write_turns (t : tty) : nat := Z.to_nat (left (tty_out t) / 64 + 2).

Definition cp32_console_write (tp : Z) : TM unit :=
  t <- line tp ;;
  if (left (tty_out t) =? 0) || tty_inhibited t then ret tt else
  on_screen cardputer_display_begin_batch ;;;
  result <- loop (write_turns t) (console_turn tp) (fun _ => ret OK) tt ;;
  on_screen cardputer_display_end_batch ;;;
  faulted <- gets (fun s => spi_fault (fst (ts_screen s))) ;;
  t <- line tp ;;
  let result := if faulted : bool then EIO else result in
  let result := if result =? OK then cum (tty_out t) else result in
  updl tp (fun t => set_tty_out (set_cum 0 (set_left 0 (tty_out t))) t) ;;;
  tty_reply (repcode (tty_out t)) (caller (tty_out t)) (for_proc (tty_out t)) result.

(** ** Signals and timers *)

(** [sigchar]: the process group is told, and the queues are emptied. *)
Definition tty_cause_sig (pgrp sig : Z) : TM unit := fun s =>
  let (r, c) := tcall (cause_sig m_at pgrp sig) (ts_c s) in (r, set_ts_c c s).

Definition flush_input (t : tty) : tty :=
  set_tty_q (set_intail (inhead (tty_q t)) (set_eotct 0 (set_incount 0 (tty_q t)))) t.

Definition sigchar (tp sig : Z) : TM unit :=
  t <- line tp ;;
  (if tty_pgrp t !=? 0 then tty_cause_sig (tty_pgrp t) sig else ret tt) ;;;
  if lflag t NOFLSH then ret tt else
  updl tp (fun t => set_tty_events true (set_tty_inhibited false (flush_input t))).

Definition tty_icancel (tp : Z) : TM unit := updl tp flush_input.

(** Out of the list, if present. *)
Fixpoint list_without (tp : Z) (l : list Z) : list Z :=
  match l with
  | [] => []
  | x :: l => if x =? tp then l else x :: list_without tp l
  end.
(** Into the list, before the first line that is not earlier. *)
Fixpoint list_insert (time : Z -> Z) (tp : Z) (l : list Z) : list Z :=
  match l with
  | [] => [tp]
  | x :: l' => if time tp <=? time x then tp :: l else x :: list_insert time tp l'
  end.

Definition settimer (tp : Z) (on : bool) : TM unit :=
  modify (fun s => set_ts_timelist (list_without tp (ts_timelist s)) s) ;;;
  if negb on then ret tt else
  now <- gets (fun s => get_uptime (ts_c s)) ;;
  updl tp (fun t => set_tty_time (to_int (now + cc t VTIME * (HZ / 10))) t) ;;;
  modify (fun s => set_ts_timelist (list_insert (fun i => tty_time (ts_line s i)) tp (ts_timelist s)) s) ;;;
  modify (fun s => if tty_time (ts_line s tp) <? ts_timeout s then set_ts_timeout (tty_time (ts_line s tp)) s else s).

(** [tty_wakeup]: the lines whose timer is due, in order. *)
Fixpoint expire_timers (now : Z) (l : list Z) (s : tst P K) : tst P K :=
  match l with
  | [] => set_ts_timelist [] (set_ts_timeout TIME_NEVER s)
  | tp :: l' =>
      if now <? tty_time (ts_line s tp) then set_ts_timelist l (set_ts_timeout (tty_time (ts_line s tp)) s) else
      expire_timers now l' (set_ts_line (fun i => if i =? tp then set_tty_events true (set_tty_min 0 (ts_line s tp))
                                                  else ts_line s i) s)
  end.
Definition tty_wakeup (now : Z) (s : tst P K) : tst P K :=
  let s := expire_timers now (ts_timelist s) s in
  set_ts_c (kproc (interrupt TTY) (ts_c s)) s.

(** [cp32_tty_poll_tick], once the console is ready. *)
Definition cp32_tty_poll_tick (s : tst P K) : tst P K :=
  let s := set_ts_line (fun i => if i =? 0 then set_tty_events true (ts_line s 0) else ts_line s i) s in
  set_ts_c (kproc (interrupt TTY) (ts_c s)) s.
End Tty.
