(* ===== verification/TtyIn.v ===== *)
(** * Terminal input: src/src/kernel/tty.c

    Echo, line editing ([back_over], [reprint]), the transfer of typed characters
    to a reader ([in_transfer]) and input processing ([in_process]).  A queue
    entry is 16 bits wide: the character, the length of its echo, and the flags
    [IN_EOT], [IN_EOF] and [IN_ESC]. *)
From S2P Require Import Prelude Codec Kconst Ktypes Sched Ipc IpcSpec Message Signals Clock Display Tty.

Section TtyIn.
Context {P K : Type} `{PANEL : Panel P} `{KBD : Keyboard K} `{TRAP : SendTrap} `{SIG : SigSet}.
Context (m_at : Z).
Abbreviation TM := (M (tst P K)).

(** ** Echo *)
Fixpoint echo_tab (tp : Z) (n : nat) (len : Z) : TM Z :=
  match n with
  | O => ret len
  | S n =>
      tty_echo tp 32 ;;;
      t <- line tp ;;
      if (len + 1 <? TAB_SIZE) && truthy (Z.land (tty_position t) TAB_MASK) then echo_tab tp n (len + 1) else ret (len + 1)
  end.

Fixpoint echo_back (tp : Z) (n : nat) : TM unit :=
  match n with
  | O => ret tt
  | S n => tty_echo tp 8 ;;; echo_back tp n
  end.

(** What [echo] shows for [ch], and its length. *)
Definition echo_char (tp ch : Z) : TM Z :=
  let c := Z.land ch IN_CHAR in
  let key := Z.land ch (Z.lor IN_ESC (Z.lor IN_EOF (Z.lor IN_EOT IN_CHAR))) in
  if c <? 32 then
    if key =? 9 then echo_tab tp 8 0
    else if (key =? Z.lor 13 IN_EOT) || (key =? Z.lor 10 IN_EOT) then tty_echo tp c ;;; ret 0
    else tty_echo tp 94 ;;; tty_echo tp (64 + c) ;;; ret 2
  else if c =? 127 then tty_echo tp 94 ;;; tty_echo tp 63 ;;; ret 2
  else tty_echo tp c ;;; ret 1.

Definition echo (tp ch : Z) : TM Z :=
  let ch := Z.land ch (Z.lnot IN_LEN) in
  t <- line tp ;;
  if negb (lflag t ECHO) then
    (if (ch =? Z.lor 10 IN_EOT) && (Z.land (c_lflag (tty_termios t)) (Z.lor ICANON ECHONL) =? Z.lor ICANON ECHONL)
     then tty_echo tp 10 else ret tt) ;;;
    ret ch
  else
    let rp := if incount (tty_q t) =? 0 then false else tty_reprint t in
    len <- echo_char tp ch ;;
    len <- (if has ch IN_EOF then echo_back tp (Z.to_nat len) ;;; ret 0 else ret len) ;;
    updl tp (set_tty_reprint rp) ;;;
    ret (Z.lor ch (Z.shiftl len IN_LSHIFT)).

Definition rawecho (tp ch : Z) : TM unit :=
  t <- line tp ;;
  (if lflag t ECHO then tty_echo tp ch else ret tt) ;;;
  updl tp (set_tty_reprint (tty_reprint t)).

(** ** Line editing *)

(** The start of the current line, and the number of entries before it. *)
Fixpoint find_break (buf : list Z) (count : nat) (head : Z) : Z * Z :=
  match count with
  | O => (head, 0)
  | S n =>
      let prev := decr head in
      if has (nthZ buf prev) IN_EOT then (head, Z.of_nat count) else find_break buf n prev
  end.

Definition set_entry (i ch : Z) (t : tty) : tty :=
  let q := tty_q t in set_tty_q (set_inbuf (updZ (inbuf q) i (wrap16 ch)) q) t.

(** The entries from [head] on are echoed again. *)
Fixpoint reprint_from (tp : Z) (n : nat) (head : Z) : TM unit :=
  match n with
  | O => ret tt
  | S n =>
      t <- line tp ;;
      ch <- echo tp (nthZ (inbuf (tty_q t)) head) ;;
      updl tp (set_entry head ch) ;;;
      reprint_from tp n (incr head)
  end.

Definition reprint (tp : Z) : TM unit :=
  updl tp (set_tty_reprint false) ;;;
  t <- line tp ;;
  let q := tty_q t in
  let (head, count) := find_break (inbuf q) (Z.to_nat (incount q)) (inhead q) in
  if count =? incount q then ret tt else
  echo tp (Z.lor (cc t VREPRINT) IN_ESC) ;;;
  rawecho tp 13 ;;;
  rawecho tp 10 ;;;
  reprint_from tp (Z.to_nat (incount q - count)) head.

Fixpoint rub_out (tp : Z) (n : nat) : TM unit :=
  match n with
  | O => ret tt
  | S n => rawecho tp 8 ;;; rawecho tp 32 ;;; rawecho tp 8 ;;; rub_out tp n
  end.

Definition back_over (tp : Z) : TM bool :=
  t <- line tp ;;
  let q := tty_q t in
  if incount q =? 0 then ret false else
  let head := decr (inhead q) in
  if has (nthZ (inbuf q) head) IN_EOT then ret false else
  (if tty_reprint t then reprint tp else ret tt) ;;;
  updl tp (fun t => let q := tty_q t in set_tty_q (set_incount (incount q - 1) (set_inhead head q)) t) ;;;
  t <- line tp ;;
  (if lflag t ECHOE
   then rub_out tp (Z.to_nat (Z.shiftr (Z.land (nthZ (inbuf (tty_q t)) head) IN_LEN) IN_LSHIFT)) else ret tt) ;;;
  ret true.

(** [while (back_over(tp)) {}]: the queue holds at most 256 entries. *)
Fixpoint kill_line (tp : Z) (n : nat) : TM unit :=
  match n with
  | O => ret tt
  | S n => more <- back_over tp ;; if more : bool then kill_line tp n else ret tt
  end.

(** ** Delivery to a reader *)
Definition finish_read (tp : Z) : TM unit := updl tp (fun t => set_tty_in (set_cum 0 (set_left 0 (tty_in t))) t).

(** [n] bytes of the buffer copied to the reader. *)
Definition deliver (tp : Z) (buf : list Z) (destination : Z) : TM unit :=
  on_kernel (store_mem destination buf) ;;;
  updl tp (fun t => let r := tty_in t in
    set_tty_in (set_cum (cum r + lenZ buf) (set_vir (vir r +u lenZ buf) r)) t).

(** One turn of the loop: the bytes in [buf] and [destination]. *)
Definition take_entry (tp : Z) (a : list Z * Z) : TM (turn (list Z * Z) (list Z * Z)) :=
  t <- line tp ;;
  let q := tty_q t in
  if negb ((0 <? left (tty_in t)) && (0 <? incount q) && (0 <? eotct q)) then ret (Break a) else
  let ch := nthZ (inbuf q) (intail q) in
  a <- (if has ch IN_EOF then ret a else
        let (buf, destination) := a in
        let buf := buf ++ [Z.land ch IN_CHAR] in
        updl tp (fun t => set_tty_in (set_left (left (tty_in t) - 1) (tty_in t)) t) ;;;
        if lenZ buf =? 64 then deliver tp buf destination ;;; ret ([], destination +u 64) else ret (buf, destination)) ;;
  updl tp (fun t => let q := tty_q t in set_tty_q (set_incount (incount q - 1) (set_intail (incr (intail q)) q)) t) ;;;
  (if has ch IN_EOT then
     updl tp (fun t => let q := tty_q t in set_tty_q (set_eotct (eotct q - 1) q) t) ;;;
     if lflag t ICANON then updl tp (fun t => set_tty_in (set_left 0 (tty_in t)) t) else ret tt
   else ret tt) ;;;
  ret (Continue a).

Definition in_transfer (tp : Z) : TM unit :=
  t <- line tp ;;
  let r := tty_in t in
  if (left r =? 0) || (eotct (tty_q t) <? tty_min t) then ret tt else
  destination <- gets (fun s => numap (ts_k s) (for_proc r) (vir r) (left r)) ;;
  if destination =? 0 then
    tty_reply (repcode r) (caller r) (for_proc r) EFAULT ;;;
    finish_read tp
  else
    let* (buf, destination) := loop 257 (take_entry tp) ret ([], destination) in
    (match buf with [] => ret tt | _ => deliver tp buf destination end) ;;;
    t <- line tp ;;
    let r := tty_in t in
    if left r =? 0 then
      tty_reply (repcode r) (caller r) (for_proc r) (cum r) ;;;
      finish_read tp
    else ret tt.

(** ** Input processing: the stages of the loop body

    A stage gives the character to go on with, or [None] for [continue]. *)
Definition extensions (tp ch : Z) : TM (option Z) :=
  t <- line tp ;;
  if negb (lflag t IEXTEN) then ret (Some ch) else
  let ch := if tty_escaped t then Z.lor ch IN_ESC else ch in
  updl tp (set_tty_escaped false) ;;;
  if ch =? cc t VLNEXT then
    updl tp (set_tty_escaped true) ;;; rawecho tp 94 ;;; rawecho tp 8 ;;; ret None
  else if ch =? cc t VREPRINT then reprint tp ;;; ret None
  else ret (Some ch).

Definition map_newline (t : tty) (ch : Z) : option Z :=
  if ch =? 13 then
    if iflag t IGNCR then None else Some (if iflag t ICRNL then 10 else ch)
  else if ch =? 10 then Some (if iflag t INLCR then 13 else ch)
  else Some ch.

Definition canonical (tp ch : Z) : TM (option Z) :=
  t <- line tp ;;
  if negb (lflag t ICANON) then ret (Some ch) else
  if ch =? cc t VERASE then
    back_over tp ;;;
    (if negb (lflag t ECHOE) then echo tp ch ;;; ret tt else ret tt) ;;;
    ret None
  else if ch =? cc t VKILL then
    kill_line tp 257 ;;;
    (if negb (lflag t ECHOE) then
       echo tp ch ;;; if lflag t ECHOK then rawecho tp 10 else ret tt
     else ret tt) ;;;
    ret None
  else
    let ch := if ch =? cc t VEOF then Z.lor ch (Z.lor IN_EOT IN_EOF) else ch in
    let ch := if ch =? 10 then Z.lor ch IN_EOT else ch in
    ret (Some (if ch =? cc t VEOL then Z.lor ch IN_EOT else ch)).

Definition start_stop (tp ch : Z) : TM (option Z) :=
  t <- line tp ;;
  if negb (iflag t IXON) then ret (Some ch) else
  if ch =? cc t VSTOP then
    updl tp (fun t => set_tty_events true (set_tty_inhibited true t)) ;;; ret None
  else if tty_inhibited t && ((ch =? cc t VSTART) || iflag t IXANY) then
    updl tp (fun t => set_tty_events true (set_tty_inhibited false t)) ;;;
    ret (if ch =? cc t VSTART then None else Some ch)
  else ret (Some ch).

Definition signal_chars (tp ch : Z) : TM (option Z) :=
  t <- line tp ;;
  if lflag t ISIG && ((ch =? cc t VINTR) || (ch =? cc t VQUIT)) then
    sigchar m_at tp (if ch =? cc t VQUIT then SIGQUIT else SIGINT) ;;;
    echo tp ch ;;;
    ret None
  else ret (Some ch).

(** The entry into the queue; the flag says that the timer was started. *)
Definition enqueue_char (tp ch : Z) (timeset : bool) : TM bool :=
  t <- line tp ;;
  let raw := negb (lflag t ICANON) in
  let ch := if raw then Z.lor ch IN_EOT else ch in
  let start := raw && negb timeset && (0 <? cc t VMIN) && (0 <? cc t VTIME) in
  (if start then settimer tp true else ret tt) ;;;
  ch <- (if has (c_lflag (tty_termios t)) (Z.lor ECHO ECHONL) then echo tp ch else ret ch) ;;
  updl tp (fun t =>
    let t := set_entry (inhead (tty_q t)) ch t in
    let q := tty_q t in
    let q := set_incount (incount q + 1) (set_inhead (incr (inhead q)) q) in
    set_tty_q (if has ch IN_EOT then set_eotct (eotct q + 1) q else q) t) ;;;
  t <- line tp ;;
  (if incount (tty_q t) =? TTY_IN_BYTES then in_transfer tp else ret tt) ;;;
  ret (timeset || start).

(** [Continue timeset]: the next character; [Break tt]: the queue is full. *)
Definition in_char (tp ch : Z) (timeset : bool) : TM (turn bool unit) :=
  t <- line tp ;;
  let ch := if iflag t ISTRIP then Z.land ch 127 else ch in
  o <- extensions tp ch ;;
  match o with None => ret (Continue timeset) | Some ch =>
  let ch := if ch =? POSIX_VDISABLE then Z.lor ch IN_ESC else ch in
  t <- line tp ;;
  match map_newline t ch with None => ret (Continue timeset) | Some ch =>
  o <- canonical tp ch ;;
  match o with None => ret (Continue timeset) | Some ch =>
  o <- start_stop tp ch ;;
  match o with None => ret (Continue timeset) | Some ch =>
  o <- signal_chars tp ch ;;
  match o with None => ret (Continue timeset) | Some ch =>
  t <- line tp ;;
  if incount (tty_q t) =? TTY_IN_BYTES then
    ret (if lflag t ICANON then Continue timeset else Break tt)
  else timeset <- enqueue_char tp ch timeset ;; ret (Continue timeset)
  end end end end end.

(** The number of characters processed, with [ct] before [buf]. *)
Fixpoint in_process_from (tp : Z) (buf : list Z) (ct : Z) (timeset : bool) : TM Z :=
  match buf with
  | [] => ret ct
  | ch :: buf =>
      r <- in_char tp (Z.land ch 255) timeset ;;
      match r with
      | Continue timeset => in_process_from tp buf (ct + 1) timeset
      | Break _ => ret ct
      end
  end.
Definition in_process (tp : Z) (buf : list Z) : TM Z := in_process_from tp buf 0 false.
End TtyIn.
