(* ===== verification/TtyTask.v ===== *)
(** * The terminal task: src/src/kernel/tty.c

    The keyboard decoder and the console's read function, the requests of the
    task ([do_read], [do_write], [do_ioctl], [do_open], [do_close], [do_cancel]),
    [handle_events] and one turn of [tty_task].

    [_EM_WSIZE] is not defined, so an ioctl number is its letter and its digit. *)
From S2P Require Import Prelude Codec Kconst Ktypes Sched Ipc IpcSpec Message Signals Clock Display Tty TtyIn.

(** ** The keyboard decoder: [cp32_cardputer_key] *)
Definition keys : list (list Z) :=
  [[96; 49; 50; 51; 52; 53; 54; 55; 56; 57; 48; 45; 61; 8];
   [9; 113; 119; 101; 114; 116; 121; 117; 105; 111; 112; 91; 93; 92];
   [1; 2; 97; 115; 100; 102; 103; 104; 106; 107; 108; 59; 39; 10];
   [3; 4; 5; 122; 120; 99; 118; 98; 110; 109; 44; 46; 47; 32]].
Definition shifted : list (list Z) :=
  [[126; 33; 64; 35; 36; 37; 94; 38; 42; 40; 41; 95; 43; 8];
   [9; 81; 87; 69; 82; 84; 89; 85; 73; 79; 80; 123; 125; 124];
   [1; 2; 65; 83; 68; 70; 71; 72; 74; 75; 76; 58; 34; 10];
   [3; 4; 5; 90; 88; 67; 86; 66; 78; 77; 60; 62; 63; 32]].
Definition key_at (tbl : list (list Z)) (row col : Z) : Z := nthZ (nth (Z.to_nat row) tbl []) col.

(** The character of the event, if it gives one, and the modifiers after it. *)
Definition cp32_cardputer_key (event : Z) (km : keymods) : option Z * keymods :=
  if event =? 0 then (None, km) else
  let pressed := truthy (Z.land event 128) in
  let code := Z.land event 127 -u 1 in
  let raw_row := code / 10 in
  let raw_col := code mod 10 in
  if (7 <=? raw_row) || (8 <=? raw_col) then (None, km) else
  let col := raw_row * 2 + of_bool (3 <? raw_col) in
  let row := (raw_col + 4) mod 4 in
  if (4 <=? row) || (14 <=? col) then (None, km)
  else if (row =? 2) && (col =? 0) then (None, Keymods (k_shift km) (k_ctrl km) pressed (k_alt km))
  else if (row =? 2) && (col =? 1) then (None, Keymods pressed (k_ctrl km) (k_fn km) (k_alt km))
  else if (row =? 3) && (col =? 0) then (None, Keymods (k_shift km) pressed (k_fn km) (k_alt km))
  else if (row =? 3) && (col =? 1) then (None, km)
  else if (row =? 3) && (col =? 2) then (None, Keymods (k_shift km) (k_ctrl km) (k_fn km) pressed)
  else if (key_at keys row col <? 4) || negb pressed then (None, km)
  else
    let ch := if k_shift km then key_at shifted row col else key_at keys row col in
    let ch := if k_ctrl km && (65 <=? ch) && (ch <=? 90) then ch - 65 + 97 else ch in
    let ch := if k_ctrl km && (97 <=? ch) && (ch <=? 122) then ch - 97 + 1 else ch in
    (Some ch, km).

(** ** [struct termios] as it lies in memory *)
Definition le_word (b : list Z) (i : Z) : Z :=
  nthZ b i + 256 * nthZ b (i + 1) + 65536 * nthZ b (i + 2) + 16777216 * nthZ b (i + 3).
Definition termios_of_bytes (b : list Z) : termios :=
  Termios (le_word b 0) (le_word b 4) (le_word b 8) (le_word b 12) (le_word b 16) (le_word b 20)
    (take 14 (drop 24 b)) (take 2 (drop 38 b)).
Definition termios_bytes (t : termios) : list Z :=
  word_bytes (c_iflag t) ++ word_bytes (c_oflag t) ++ word_bytes (c_cflag t) ++ word_bytes (c_lflag t) ++
  word_bytes (c_ispeed t) ++ word_bytes (c_ospeed t) ++ c_cc t ++ c_pad t.
Definition TERMIOS_SIZE := 40.

(** ** Ioctl requests *)
Definition TCGETS := 21512.
Definition TCSETS := 21513.
Definition TCSETSW := 21514.
Definition TCSETSF := 21515.
Definition TCSBRK := 21516.
Definition TCDRAIN := 21517.
Definition TCFLOW := 21518.
Definition TCFLSH := 21519.
Definition TIOCGWINSZ := 21520.
Definition TIOCSWINSZ := 21521.
Definition TIOCGPGRP := 21522.
Definition TIOCSPGRP := 21523.
Definition TCIFLUSH := 0.
Definition TCOFLUSH := 1.
Definition TCIOFLUSH := 2.
Definition TCOOFF := 0.
Definition TCOON := 1.
Definition TCIOFF := 2.
Definition TCION := 3.

Definition TTY_LINE := DEVICE.
Definition TTY_REQUEST := COUNT.
Definition TTY_FLAGS := m2_l2.

(** [mem_phys] of segment [D], and the address that [proc_vir2phys] computes. *)
Definition proc_vir2phys (p : proc) (vir : Z) : Z :=
  wrap32 (Z.shiftl (mem_phys (nth 1 (p_map p) empty_map)) CLICK_SHIFT) +u vir.

Section TtyTask.
Context {P K : Type} `{PANEL : Panel P} `{KBD : Keyboard K} `{TRAP : SendTrap} `{SIG : SigSet}.
Context (m_at : Z).
Abbreviation TM := (M (tst P K)).

(** ** Attributes *)
Fixpoint mark_eot (n : nat) (i : Z) (buf : list Z) : list Z :=
  match n with
  | O => buf
  | S n => mark_eot n (incr i) (updZ buf i (Z.lor (nthZ buf i) IN_EOT))
  end.

(** Every entry of the queue becomes a line break. *)
Definition break_all (t : tty) : tty :=
  let q := tty_q t in
  set_tty_q (set_eotct (incount q) (set_inbuf (mark_eot (Z.to_nat (incount q)) (intail q) (inbuf q)) q)) t.

Definition setattr (tp : Z) : TM unit :=
  updl tp (fun t => if lflag t ICANON then t else break_all t) ;;;
  settimer tp false ;;;
  updl tp (fun t => set_tty_min (if lflag t ICANON then 1
                                 else if (cc t VMIN =? 0) && (0 <? cc t VTIME) then 1 else cc t VMIN) t) ;;;
  updl tp (fun t => if iflag t IXON then t else set_tty_events true (set_tty_inhibited false t)) ;;;
  t <- line tp ;;
  if c_ospeed (tty_termios t) =? 0 then sigchar m_at tp SIGHUP else ret tt.

(** The attributes read from [user_phys]. *)
Definition load_termios (tp user_phys : Z) : TM unit :=
  bytes <- gets (fun s => mem_read (k_mem (ts_k s)) user_phys TERMIOS_SIZE) ;;
  updl tp (set_tty_termios (termios_of_bytes bytes)) ;;;
  setattr tp.

(** The ioctl that waited for the output. *)
Definition dev_ioctl (tp : Z) : TM unit :=
  t <- line tp ;;
  let io := tty_io t in
  if 0 <? left (tty_out t) then ret tt else
  (if ioreq io !=? TCDRAIN then
     (if ioreq io =? TCSETSF then tty_icancel tp else ret tt) ;;;
     user_phys <- gets (fun s => proc_vir2phys (k_proc (ts_k s) (proc_addr (ts_k s) (ioproc io))) (iovir io)) ;;
     load_termios tp user_phys
   else ret tt) ;;;
  updl tp (fun t => set_tty_io (set_ioreq 0 (tty_io t)) t) ;;;
  tty_reply REVIVE (iocaller io) (ioproc io) OK.

(** ** Events *)
Fixpoint console_keys (tp : Z) (n : nat) : TM unit :=
  match n with
  | O => ret tt
  | S n =>
      asserted <- (fun s => let (b, k) := cardputer_keyboard_interrupt_asserted (ts_kbd s) in (Ok b, set_ts_kbd k s)) ;;
      if negb asserted then ret tt else
      let* (r, event) := (fun s => let '(r, event, k) := cp32_read_keyboard_event (ts_kbd s) in
                                   (Ok (r, event), set_ts_kbd k s)) in
      if r <=? 0 then ret tt else
      o <- (fun s => let (o, km) := cp32_cardputer_key event (ts_keys s) in (Ok o, set_ts_keys km s)) ;;
      match o with
      | None => ret tt
      | Some ch =>
          t <- line tp ;;
          in_process m_at tp [if (ch =? 8) && lflag t ICANON then cc t VERASE else ch] ;;; ret tt
      end ;;;
      console_keys tp n
  end.
Definition cp32_console_read (tp : Z) : TM unit := console_keys tp 8.

Definition devread (tp : Z) : TM unit :=
  t <- line tp ;;
  match tty_dev t with Console => cp32_console_read tp | Rs232 => ret tt | NoDevice => fail NULL_CALL end.
Definition devwrite (tp : Z) : TM unit :=
  t <- line tp ;;
  match tty_dev t with Console => cp32_console_write tp | Rs232 => ret tt | NoDevice => fail NULL_CALL end.

(** The body of the event loop: whether to go round again. *)
Definition event_turn (tp : Z) (_ : unit) : TM (turn unit unit) :=
  updl tp (set_tty_events false) ;;;
  devread tp ;;;
  devwrite tp ;;;
  t <- line tp ;;
  (if ioreq (tty_io t) !=? 0 then dev_ioctl tp else ret tt) ;;;
  t <- line tp ;;
  ret (if tty_events t then Continue tt else Break tt).

(** The event loop goes on while the keyboard keeps stopping the output. *)
Definition HUNG := 999997.

Definition handle_events (fuel : nat) (tp : Z) : TM unit :=
  loop fuel (event_turn tp) (fun _ => fail HUNG) tt ;;;
  in_transfer tp ;;;
  t <- line tp ;;
  let r := tty_in t in
  (if (tty_min t <=? cum r) && (0 <? left r) then
     tty_reply (repcode r) (caller r) (for_proc r) (cum r) ;;; finish_read tp
   else ret tt) ;;;
  if tp =? 0 then
    t <- line tp ;;
    now <- gets (fun s => get_uptime (ts_c s)) ;;
    on_screen (cardputer_display_cursor ((0 <? left (tty_in t)) && lflag t ECHO) (wrap32 now))
  else ret tt.

(** ** Requests *)
Context (fuel : nat).

(** The guards that [do_read] and [do_write] share. *)
Definition bad_transfer (s : tst P K) (busy : Z) (m_ptr : message) : option Z :=
  if 0 <? busy then Some EIO
  else if COUNT m_ptr <=? 0 then Some EINVAL
  else if numap (ts_k s) (PROC_NR m_ptr) (ADDRESS m_ptr) (COUNT m_ptr) =? 0 then Some EFAULT
  else None.

Definition transfer_of (m_ptr : message) (cum : Z) : xfer :=
  Xfer TASK_REPLY (wrap8 (m_source m_ptr)) (wrap8 (PROC_NR m_ptr)) (ADDRESS m_ptr) (COUNT m_ptr) cum.

(** MIN and TIME of a raw read. *)
Definition read_timer (tp : Z) : TM unit :=
  t <- line tp ;;
  if negb (lflag t ICANON) && (0 <? cc t VTIME) then
    if cc t VMIN =? 0 then settimer tp true ;;; updl tp (set_tty_min 1)
    else if eotct (tty_q t) =? 0 then settimer tp false ;;; updl tp (set_tty_min (cc t VMIN))
    else ret tt
  else ret tt.

Definition do_read (tp : Z) (m_ptr : message) : TM unit :=
  t <- line tp ;;
  bad <- gets (fun s => bad_transfer s (left (tty_in t)) m_ptr) ;;
  match bad with
  | Some r => tty_reply TASK_REPLY (m_source m_ptr) (PROC_NR m_ptr) r
  | None =>
      updl tp (fun t => set_tty_in (transfer_of m_ptr (cum (tty_in t))) t) ;;;
      read_timer tp ;;;
      in_transfer tp ;;;
      handle_events fuel tp ;;;
      t <- line tp ;;
      if left (tty_in t) =? 0 then ret tt else
      if has (TTY_FLAGS m_ptr) O_NONBLOCK then
        finish_read tp ;;; tty_reply TASK_REPLY (m_source m_ptr) (PROC_NR m_ptr) EAGAIN
      else
        updl tp (fun t => set_tty_in (set_repcode REVIVE (tty_in t)) t) ;;;
        tty_reply TASK_REPLY (m_source m_ptr) (PROC_NR m_ptr) SUSPEND
  end.

Definition do_write (tp : Z) (m_ptr : message) : TM unit :=
  t <- line tp ;;
  bad <- gets (fun s => bad_transfer s (left (tty_out t)) m_ptr) ;;
  match bad with
  | Some r => tty_reply TASK_REPLY (m_source m_ptr) (PROC_NR m_ptr) r
  | None =>
      updl tp (fun t => set_tty_out (transfer_of m_ptr (cum (tty_out t))) t) ;;;
      handle_events fuel tp ;;;
      t <- line tp ;;
      let out := tty_out t in
      if left out =? 0 then ret tt else
      if has (TTY_FLAGS m_ptr) O_NONBLOCK then
        updl tp (fun t => set_tty_out (set_cum 0 (set_left 0 (tty_out t))) t) ;;;
        tty_reply TASK_REPLY (m_source m_ptr) (PROC_NR m_ptr) (if 0 <? cum out then cum out else EAGAIN)
      else
        updl tp (fun t => set_tty_out (set_repcode REVIVE (tty_out t)) t) ;;;
        tty_reply TASK_REPLY (m_source m_ptr) (PROC_NR m_ptr) SUSPEND
  end.

(** The size of the argument of an ioctl. *)
Definition ioctl_size (request : Z) : Z :=
  if (TCGETS <=? request) && (request <=? TCSETSF) then TERMIOS_SIZE
  else if (request =? TCSBRK) || (request =? TCFLOW) || (request =? TCFLSH) || (request =? TIOCGPGRP) ||
          (request =? TIOCSPGRP) then 4
  else if (request =? TIOCGWINSZ) || (request =? TIOCSWINSZ) then 8
  else 0.

Definition user_int (user_phys : Z) : TM Z := gets (fun s => to_int (word_at (k_mem (ts_k s)) user_phys)).

(** TCSETSW, TCSETSF and TCDRAIN while output is in progress. *)
Definition wait_ioctl (tp : Z) (m_ptr : message) : TM unit :=
  updl tp (set_tty_io (IoWait (wrap8 (m_source m_ptr)) (wrap8 (PROC_NR m_ptr)) (COUNT m_ptr) (ADDRESS m_ptr))).

(** The second [switch]: the status of the reply. *)
Definition ioctl_status (tp user_phys : Z) (m_ptr : message) : TM Z :=
  t <- line tp ;;
  let request := TTY_REQUEST m_ptr in
  if request =? TCGETS then on_kernel (store_mem user_phys (termios_bytes (tty_termios t))) ;;; ret OK
  else if (request =? TCSETSW) || (request =? TCSETSF) || (request =? TCDRAIN) then
    if 0 <? left (tty_out t) then wait_ioctl tp m_ptr ;;; ret SUSPEND
    else if request =? TCDRAIN then ret OK
    else (if request =? TCSETSF then tty_icancel tp else ret tt) ;;; load_termios tp user_phys ;;; ret OK
  else if request =? TCSETS then load_termios tp user_phys ;;; ret OK
  else if request =? TCFLSH then
    i <- user_int user_phys ;;
    if (i =? TCIFLUSH) || (i =? TCIOFLUSH) then tty_icancel tp ;;; ret OK
    else ret (if i =? TCOFLUSH then OK else EINVAL)
  else if request =? TCFLOW then
    i <- user_int user_phys ;;
    if (i =? TCOOFF) || (i =? TCOON) then
      updl tp (fun t => set_tty_events true (set_tty_inhibited (i =? TCOOFF) t)) ;;; ret OK
    else if i =? TCIOFF then tty_echo tp (cc t VSTOP) ;;; ret OK
    else if i =? TCION then tty_echo tp (cc t VSTART) ;;; ret OK
    else ret EINVAL
  else if request =? TCSBRK then ret OK
  else if request =? TIOCGWINSZ then on_kernel (store_mem user_phys (tty_winsize t)) ;;; ret OK
  else if request =? TIOCSWINSZ then
    bytes <- gets (fun s => mem_read (k_mem (ts_k s)) user_phys 8) ;;
    updl tp (set_tty_winsize bytes) ;;; ret OK
  else ret ENOTTY.

Definition do_ioctl (tp : Z) (m_ptr : message) : TM unit :=
  let size := ioctl_size (TTY_REQUEST m_ptr) in
  user_phys <- gets (fun s => if size =? 0 then 0 else numap (ts_k s) (PROC_NR m_ptr) (ADDRESS m_ptr) size) ;;
  r <- (if (size !=? 0) && (user_phys =? 0) then ret EFAULT else ioctl_status tp user_phys m_ptr) ;;
  tty_reply TASK_REPLY (m_source m_ptr) (PROC_NR m_ptr) r.

Definition do_open (tp : Z) (m_ptr : message) : TM unit :=
  r <- (if TTY_LINE m_ptr =? LOG_MINOR then ret (if has (COUNT m_ptr) R_BIT then EACCES else OK)
        else
          let noctty := has (COUNT m_ptr) O_NOCTTY in
          (if noctty then ret tt else updl tp (set_tty_pgrp (wrap8 (PROC_NR m_ptr)))) ;;;
          updl tp (fun t => set_tty_openct (wrap8 (tty_openct t + 1)) t) ;;;
          ret (if noctty then OK else 1)) ;;
  tty_reply TASK_REPLY (m_source m_ptr) (PROC_NR m_ptr) r.

(** The last close of a line. *)
Definition close_line (tp : Z) : TM unit :=
  updl tp (set_tty_pgrp 0) ;;;
  tty_icancel tp ;;;
  updl tp (fun t => set_tty_winsize winsize_defaults (set_tty_termios termios_defaults t)) ;;;
  setattr tp.

Definition do_close (tp : Z) (m_ptr : message) : TM unit :=
  (if TTY_LINE m_ptr =? LOG_MINOR then ret tt else
   updl tp (fun t => set_tty_openct (wrap8 (tty_openct t - 1)) t) ;;;
   t <- line tp ;;
   if tty_openct t =? 0 then close_line tp else ret tt) ;;;
  tty_reply TASK_REPLY (m_source m_ptr) (PROC_NR m_ptr) OK.

Definition do_cancel (tp : Z) (m_ptr : message) : TM unit :=
  t <- line tp ;;
  let proc_nr := PROC_NR m_ptr in
  let mode := COUNT m_ptr in
  (if has mode R_BIT && (left (tty_in t) !=? 0) && (proc_nr =? for_proc (tty_in t))
   then tty_icancel tp ;;; finish_read tp else ret tt) ;;;
  (if has mode W_BIT && (left (tty_out t) !=? 0) && (proc_nr =? for_proc (tty_out t))
   then updl tp (fun t => set_tty_out (set_cum 0 (set_left 0 (tty_out t))) t) else ret tt) ;;;
  (if (ioreq (tty_io t) !=? 0) && (proc_nr =? ioproc (tty_io t))
   then updl tp (fun t => set_tty_io (set_ioreq 0 (tty_io t)) t) else ret tt) ;;;
  updl tp (set_tty_events true) ;;;
  tty_reply TASK_REPLY (m_source m_ptr) proc_nr EINTR.

(** ** The task *)

(** The line of a minor device number. *)
Definition line_of_minor (minor : Z) : option Z :=
  let l := wrap32 minor in
  if l <? NR_CONS then Some l
  else if l =? LOG_MINOR then Some 0
  else if (l -u RS232_MINOR) <? NR_RS_LINES then Some (l - RS232_MINOR + NR_CONS)
  else None.

Definition tty_dispatch (tp : Z) (m : message) : TM unit :=
  let type := m_type m in
  if type =? DEV_READ then do_read tp m
  else if type =? DEV_WRITE then do_write tp m
  else if type =? DEV_IOCTL then do_ioctl tp m
  else if type =? DEV_OPEN then do_open tp m
  else if type =? DEV_CLOSE then do_close tp m
  else if type =? CANCEL then do_cancel tp m
  else tty_reply TASK_REPLY (m_source m) (PROC_NR m) EINVAL.

Definition tty_request (m : message) : TM unit :=
  if (m_type m =? HARD_INT) && (m_source m =? HARDWARE) then ret tt else
  match line_of_minor (TTY_LINE m) with
  | None => tty_reply TASK_REPLY (m_source m) (PROC_NR m) ENXIO
  | Some tp =>
      t <- line tp ;;
      match tty_dev t with
      | NoDevice => tty_reply TASK_REPLY (m_source m) (PROC_NR m) ENXIO
      | _ => tty_dispatch tp m
      end
  end.

(** [handle_events] on every line that has events. *)
Definition pending_events : TM unit :=
  for_ 4 0 (fun tp _ => t <- line tp ;; if tty_events t then handle_events fuel tp else ret tt) tt.

(** One turn of [tty_task]: the events, then the message received. *)
Definition tty_turn (m : message) : TM unit := pending_events ;;; tty_request m.

(** [tty_init] of a line of the zeroed table. *)
Definition tty_init (tp : Z) (t : tty) : tty :=
  set_tty_dev (if tp <? NR_CONS then Console else Rs232)
    (set_tty_termios termios_defaults (set_tty_min 1 (set_tty_q (set_intail 0 (set_inhead 0 (tty_q t))) t))).
End TtyTask.

Definition no_transfer : xfer := Xfer 0 0 0 0 0 0.
Definition zero_tty : tty :=
  Tty false (Inq (replicate 256 0) 0 0 0 0) 0 0 NoDevice 0 false false false 0 0 no_transfer no_transfer
    (IoWait 0 0 0 0) (Termios 0 0 0 0 0 0 (replicate 14 0) [0; 0]) winsize_defaults.
