(* ===== verification/TtyReply.v ===== *)
(** * Every request of a terminal is answered exactly once

    For each process the number of its answered requests plus the number of its
    requests in progress grows by one with each request, and only with it.  A
    reply of [SUSPEND] is not an answer: the request stays in progress until a
    [REVIVE]. *)
From S2P Require Import Prelude Codec Kconst Ktypes Sched Ipc IpcSpec Message Signals Clock Display Tty TtyIn TtyTask.

Section Balance.
Context {P K : Type} `{PANEL : Panel P} `{KBD : Keyboard K} `{TRAP : SendTrap} `{SIG : SigSet}.
Context (m_at : Z) (p : Z).
Abbreviation TM := (M (tst P K)).

Definition is_answer (r : reply) : bool := (r_proc r =? p) && (r_status r !=? SUSPEND).
Definition answered (s : tst P K) : Z := lenZ (List.filter is_answer (ts_replies s)).
Definition working (x : xfer) : Z := of_bool ((0 <? left x) && (for_proc x =? p)).
Definition debt (t : tty) : Z :=
  working (tty_in t) + working (tty_out t) + of_bool ((ioreq (tty_io t) !=? 0) && (ioproc (tty_io t) =? p)).
Definition in_progress (s : tst P K) : Z :=
  debt (ts_line s 0) + debt (ts_line s 1) + debt (ts_line s 2) + debt (ts_line s 3).
Definition balance (s : tst P K) : Z := answered s + in_progress s.

Definition counts_ok (x : xfer) : Prop := 0 <= left x /\ 0 <= cum x.
Definition io_ok (s : tst P K) : Prop := forall i, counts_ok (tty_in (ts_line s i)) /\ counts_ok (tty_out (ts_line s i)).

(** [c] changes the balance by [d]. *)
Definition moves {A} (d : Z) (c : TM A) : Prop := forall s, io_ok s ->
  match c s with (Ok _, s') => io_ok s' /\ balance s' = balance s + d | (Err _, _) => True end.

(** [c] touches no transfer and sends no reply. *)
Definition same_io_line (t t' : tty) : Prop :=
  tty_in t' = tty_in t /\ tty_out t' = tty_out t /\ tty_io t' = tty_io t /\ tty_dev t' = tty_dev t.
Definition same_io (s s' : tst P K) : Prop :=
  ts_replies s' = ts_replies s /\ forall i, same_io_line (ts_line s i) (ts_line s' i).
Definition aside {A} (c : TM A) : Prop := forall s, match c s with (Ok _, s') => same_io s s' | (Err _, _) => True end.

#[export] Instance same_io_preorder : PreOrder same_io.
Proof.
  split; [by intros s|]. intros s1 s2 s3 [R1 H1] [R2 H2]. split; [by rewrite R2|].
  intros i. destruct (H1 i) as (F1 & F2 & F3 & F4), (H2 i) as (E1 & E2 & E3 & E4). repeat split; congruence.
Qed.

Lemma aside_ret {A} (a : A) : aside (ret a).
Proof. by intros s. Qed.
Lemma aside_fail {A} e : aside (fail (A := A) e).
Proof. by intros s. Qed.
Lemma aside_gets {A} (f : tst P K -> A) : aside (gets f).
Proof. by intros s. Qed.
Lemma aside_bind {A B} (c : TM A) (k : A -> TM B) : aside c -> (forall a, aside (k a)) -> aside (bind c k).
Proof.
  intros Hc Hk s. specialize (Hc s). unfold bind. destruct (c s) as [[e|a] s1]; [done|].
  specialize (Hk a s1). destruct (k a s1) as [[e|b] s2]; [done|]. by etransitivity.
Qed.
Lemma aside_modify (f : tst P K -> tst P K) : (forall s, same_io s (f s)) -> aside (modify f).
Proof. intros H s. apply H. Qed.
Lemma aside_guard b e : aside (guard b e).
Proof. unfold guard. destruct b; [apply aside_fail|apply aside_ret]. Qed.
Lemma aside_updl tp f : (forall t, same_io_line t (f t)) -> aside (updl tp f).
Proof.
  intros H. apply aside_modify. intros s. split; [done|]. intros i. cbn. by destruct (Z.eqb_spec i tp) as [->|].
Qed.
Lemma aside_line tp : aside (line tp).
Proof. apply aside_gets. Qed.
Lemma aside_on_screen f : aside (on_screen f).
Proof. by apply aside_modify. Qed.
Lemma aside_on_kernel f : aside (on_kernel f).
Proof. by apply aside_modify. Qed.
Lemma aside_processed tp ch : aside (processed tp ch).
Proof.
  intros s. unfold processed, expand, out_process. destruct (out_loop _ _ _ _ _ _) as [[[? ?] ?] ?].
  split; [done|]. intros i. cbn. by destruct (Z.eqb_spec i tp) as [->|].
Qed.
Lemma aside_loop {A B} n (body : A -> TM (turn A B)) done_ a :
  (forall a, aside (body a)) -> (forall a, aside (done_ a)) -> aside (loop n body done_ a).
Proof.
  intros Hb Hd. revert a. induction n as [|n IH]; intros a; cbn [loop]; [apply Hd|].
  apply aside_bind; [apply Hb|]. intros [a'|b]; [apply IH|apply aside_ret].
Qed.
End Balance.

Create HintDb aside discriminated.
#[export] Hint Resolve @aside_ret @aside_fail @aside_gets @aside_guard @aside_line @aside_on_screen @aside_on_kernel
  @aside_processed : aside.

(** Steps through a computation that only calls what is known to stand aside. *)
Ltac stand_aside :=
  repeat first
    [ progress intros
    | solve [auto with aside nocore]
    | match goal with
      | |- aside (bind _ _) => apply aside_bind
      | |- aside (updl _ _) => apply aside_updl
      | |- aside (modify _) => apply aside_modify
      | |- aside (if ?b then _ else _) => destruct b
      | |- aside (match ?x with _ => _ end) => destruct x
      | |- aside (let '(_, _) := ?x in _) => destruct x
      | |- same_io_line _ _ => repeat (done || match goal with |- context [if ?b then _ else _] => destruct b end)
      end ].

Section Aside.
Context {P K : Type} `{PANEL : Panel P} `{KBD : Keyboard K} `{TRAP : SendTrap} `{SIG : SigSet}.
Context (m_at : Z).
Abbreviation aside := (aside (P := P) (K := K)).

Lemma aside_tty_echo tp ch : aside (tty_echo tp ch).
Proof. unfold tty_echo, cp32_console_echo. stand_aside. Qed.
#[local] Hint Resolve aside_tty_echo : aside.

Lemma aside_echo_tab tp n len : aside (echo_tab tp n len).
Proof. revert len. induction n as [|n IH]; intros len; cbn [echo_tab]; stand_aside. Qed.
Lemma aside_echo_back tp n : aside (echo_back tp n).
Proof. induction n as [|n IH]; cbn [echo_back]; stand_aside. Qed.
#[local] Hint Resolve aside_echo_tab aside_echo_back : aside.

Lemma aside_echo tp ch : aside (echo tp ch).
Proof. unfold echo, echo_char. stand_aside. Qed.
Lemma aside_rawecho tp ch : aside (rawecho tp ch).
Proof. unfold rawecho. stand_aside. Qed.
#[local] Hint Resolve aside_echo aside_rawecho : aside.

Lemma aside_reprint_from tp n head : aside (reprint_from tp n head).
Proof. revert head. induction n as [|n IH]; intros head; cbn [reprint_from]; stand_aside. Qed.
#[local] Hint Resolve aside_reprint_from : aside.
Lemma aside_reprint tp : aside (reprint tp).
Proof. unfold reprint. stand_aside. Qed.
Lemma aside_rub_out tp n : aside (rub_out tp n).
Proof. induction n as [|n IH]; cbn [rub_out]; stand_aside. Qed.
#[local] Hint Resolve aside_reprint aside_rub_out : aside.
Lemma aside_back_over tp : aside (back_over tp).
Proof. unfold back_over. stand_aside. Qed.
#[local] Hint Resolve aside_back_over : aside.
Lemma aside_kill_line tp n : aside (kill_line tp n).
Proof. induction n as [|n IH]; cbn [kill_line]; stand_aside. Qed.
#[local] Hint Resolve aside_kill_line : aside.

Lemma aside_settimer tp on : aside (settimer tp on).
Proof.
  unfold settimer. stand_aside; cbn; [done|done|]. match goal with |- context [if ?b then _ else _] => by destruct b end.
Qed.
Lemma aside_tty_icancel tp : aside (tty_icancel tp).
Proof. unfold tty_icancel. stand_aside. Qed.
Lemma aside_tty_cause_sig pgrp sig : aside (tty_cause_sig m_at pgrp sig).
Proof. intros s. unfold tty_cause_sig. by destruct (tcall _ _) as [[e|a] c]. Qed.
#[local] Hint Resolve aside_settimer aside_tty_icancel aside_tty_cause_sig : aside.
Lemma aside_sigchar tp sig : aside (sigchar m_at tp sig).
Proof. unfold sigchar. stand_aside. Qed.
#[local] Hint Resolve aside_sigchar : aside.

Lemma aside_extensions tp ch : aside (extensions tp ch).
Proof. unfold extensions. stand_aside. Qed.
Lemma aside_canonical tp ch : aside (canonical tp ch).
Proof. unfold canonical. stand_aside. Qed.
Lemma aside_start_stop tp ch : aside (start_stop tp ch).
Proof. unfold start_stop. stand_aside. Qed.
Lemma aside_signal_chars tp ch : aside (signal_chars m_at tp ch).
Proof. unfold signal_chars. stand_aside. Qed.

Lemma aside_setattr tp : aside (setattr m_at tp).
Proof. unfold setattr. stand_aside. Qed.
#[local] Hint Resolve aside_setattr : aside.
Lemma aside_load_termios tp user_phys : aside (load_termios m_at tp user_phys).
Proof. unfold load_termios. stand_aside. Qed.
Lemma aside_read_timer tp : aside (read_timer tp).
Proof. unfold read_timer. stand_aside. Qed.
End Aside.
#[export] Hint Resolve aside_tty_echo aside_echo aside_rawecho aside_reprint aside_back_over aside_kill_line aside_settimer
  aside_tty_icancel aside_tty_cause_sig aside_sigchar aside_extensions aside_canonical aside_start_stop
  aside_signal_chars aside_setattr aside_load_termios aside_read_timer : aside.

(** ** Who waits does not change while events are handled *)
Section Keeps.
Context {P K : Type} `{PANEL : Panel P} `{KBD : Keyboard K} `{TRAP : SendTrap} `{SIG : SigSet}.
Context (m_at : Z).
Abbreviation TM := (M (tst P K)).

Definition same_procs_line (t t' : tty) : Prop :=
  for_proc (tty_in t') = for_proc (tty_in t) /\ for_proc (tty_out t') = for_proc (tty_out t) /\ tty_dev t' = tty_dev t.
Definition keeps {A} (c : TM A) : Prop := forall s,
  match c s with (Ok _, s') => forall i, same_procs_line (ts_line s i) (ts_line s' i) | (Err _, _) => True end.

Lemma keeps_aside {A} (c : TM A) : aside c -> keeps c.
Proof.
  intros H s. specialize (H s). destruct (c s) as [[e|a] s']; [done|]. destruct H as [_ H]. intros i.
  destruct (H i) as (E1 & E2 & _ & E4). unfold same_procs_line. by rewrite E1, E2, E4.
Qed.
Lemma procs_bind {A B} (c : TM A) (k : A -> TM B) : keeps c -> (forall a, keeps (k a)) -> keeps (bind c k).
Proof.
  intros Hc Hk s. specialize (Hc s). unfold bind. destruct (c s) as [[e|a] s1]; [done|].
  specialize (Hk a s1). destruct (k a s1) as [[e|b] s2]; [done|]. intros i.
  destruct (Hc i) as (E1 & E2 & E3), (Hk i) as (F1 & F2 & F3). unfold same_procs_line. by rewrite F1, F2, F3.
Qed.
Lemma keeps_updl tp f : (forall t, same_procs_line t (f t)) -> keeps (updl tp f).
Proof. intros H s i. cbn. by destruct (Z.eqb_spec i tp) as [->|]. Qed.
Lemma procs_loop {A B} n (body : A -> TM (turn A B)) done_ a :
  (forall a, keeps (body a)) -> (forall a, keeps (done_ a)) -> keeps (loop n body done_ a).
Proof.
  intros Hb Hd. revert a. induction n as [|n IH]; intros a; cbn [loop]; [apply Hd|].
  apply procs_bind; [apply Hb|]. intros [a'|b]; [apply IH|apply keeps_aside, aside_ret].
Qed.
Lemma keeps_reply code to_ proc_nr status : keeps (tty_reply code to_ proc_nr status).
Proof. intros s. unfold tty_reply. rewrite bind_gets. unfold guard. by destruct (_ !=? OK). Qed.
End Keeps.
Create HintDb keeps discriminated.
#[export] Hint Resolve keeps_reply : keeps.

Ltac keep_procs :=
  repeat first
    [ progress intros
    | solve [auto with keeps nocore]
    | solve [apply keeps_aside; auto with aside nocore]
    | match goal with
      | |- keeps (bind _ _) => apply procs_bind
      | |- keeps (updl _ _) => apply keeps_updl
      | |- keeps (loop _ _ _ _) => apply procs_loop
      | |- keeps (if ?b then _ else _) => destruct b
      | |- keeps (match ?x with _ => _ end) => destruct x
      | |- same_procs_line _ _ => repeat (done || match goal with |- context [if ?b then _ else _] => destruct b end)
      end ].

Section KeepsAll.
Context {P K : Type} `{PANEL : Panel P} `{KBD : Keyboard K} `{TRAP : SendTrap} `{SIG : SigSet}.
Context (m_at : Z).
Abbreviation keeps := (keeps (P := P) (K := K)).

Lemma keeps_in_transfer tp : keeps (in_transfer tp).
Proof. unfold in_transfer, take_entry, deliver, finish_read. keep_procs. Qed.
#[local] Hint Resolve keeps_in_transfer : keeps.
Lemma keeps_in_char tp ch timeset : keeps (in_char m_at tp ch timeset).
Proof. unfold in_char, enqueue_char. keep_procs. Qed.
#[local] Hint Resolve keeps_in_char : keeps.
Lemma keeps_in_process tp buf : keeps (in_process m_at tp buf).
Proof. unfold in_process. generalize 0, false. induction buf as [|ch buf IH]; cbn [in_process_from]; keep_procs. Qed.
#[local] Hint Resolve keeps_in_process : keeps.
Lemma keeps_show_bytes tp bytes : keeps (show_bytes tp bytes).
Proof. induction bytes as [|ch bytes IH]; cbn [show_bytes]; keep_procs. Qed.
#[local] Hint Resolve keeps_show_bytes : keeps.
Lemma keeps_console_write tp : keeps (cp32_console_write tp).
Proof. unfold cp32_console_write, console_turn. keep_procs. Qed.
Lemma keeps_dev_ioctl tp : keeps (dev_ioctl m_at tp).
Proof. unfold dev_ioctl. keep_procs. Qed.
#[local] Hint Resolve keeps_console_write keeps_dev_ioctl : keeps.
Lemma keeps_console_keys tp n : keeps (console_keys m_at tp n).
Proof.
  induction n as [|n IH]; cbn [console_keys]; [keep_procs|].
  apply procs_bind; [intros s; by destruct (cardputer_keyboard_interrupt_asserted _)|]. keep_procs.
  - intros s. by destruct (cp32_read_keyboard_event _) as [[? ?] ?].
  - intros s. by destruct (cp32_cardputer_key _ _).
Qed.
#[local] Hint Resolve keeps_console_keys : keeps.
Lemma keeps_handle_events fuel tp : keeps (handle_events m_at fuel tp).
Proof. unfold handle_events, event_turn, devread, devwrite, cp32_console_read, finish_read. keep_procs. Qed.
End KeepsAll.

(** ** The balance *)
Definition is_line (tp : Z) : Prop := 0 <= tp < 4.

Section Moves.
Context {P K : Type} `{PANEL : Panel P} `{KBD : Keyboard K} `{TRAP : SendTrap} `{SIG : SigSet}.
Context (m_at : Z) (p : Z).
Abbreviation TM := (M (tst P K)).
Abbreviation moves := (moves (P := P) (K := K) p).
Abbreviation balance := (balance (P := P) (K := K) p).

Lemma same_io_balance (s s' : tst P K) : same_io s s' -> io_ok s -> io_ok s' /\ balance s' = balance s.
Proof.
  intros [R H] Hok. split.
  - intros i. destruct (H i) as (-> & -> & _). apply Hok.
  - unfold TtyReply.balance, answered, in_progress, debt. rewrite R.
    destruct (H 0) as (-> & -> & -> & _), (H 1) as (-> & -> & -> & _), (H 2) as (-> & -> & -> & _), (H 3) as (-> & -> & -> & _). done.
Qed.

Lemma moves_aside {A} (c : TM A) : aside c -> moves 0 c.
Proof.
  intros H s Hs. specialize (H s). destruct (c s) as [[e|a] s']; [done|].
  destruct (same_io_balance s s' H Hs). split; [done|]. lia.
Qed.

Lemma moves_bind {A B} d1 d2 (c : TM A) (k : A -> TM B) :
  moves d1 c -> (forall a, moves d2 (k a)) -> moves (d1 + d2) (bind c k).
Proof.
  intros Hc Hk s Hs. specialize (Hc s Hs). unfold bind. destruct (c s) as [[e|a] s1]; [done|].
  destruct Hc as [H1 E1]. specialize (Hk a s1 H1). destruct (k a s1) as [[e|b] s2]; [done|].
  destruct Hk as [H2 E2]. split; [done|]. lia.
Qed.

Lemma moves_before {A B} d (c : TM A) (k : A -> TM B) : moves 0 c -> (forall a, moves d (k a)) -> moves d (bind c k).
Proof. intros. replace d with (0 + d) by lia. by apply moves_bind. Qed.
Lemma moves_after {A B} d (c : TM A) (k : A -> TM B) : moves d c -> (forall a, moves 0 (k a)) -> moves d (bind c k).
Proof. intros. replace d with (d + 0) by lia. by apply moves_bind. Qed.
Lemma moves_ret {A} (a : A) : moves 0 (ret a).
Proof. apply moves_aside, aside_ret. Qed.
Lemma moves_fail {A} d e : moves d (fail (A := A) e).
Proof. done. Qed.

(** Reading the state first: what is read may be used in the rest. *)
Lemma moves_gets {A B} d (f : tst P K -> A) (k : A -> TM B) :
  (forall s, io_ok s -> match k (f s) s with (Ok _, s') => io_ok s' /\ balance s' = balance s + d | (Err _, _) => True end) ->
  moves d (bind (gets f) k).
Proof. intros H s Hs. rewrite bind_gets. by apply H. Qed.

Definition line_change (tp : Z) (t' : tty) (s : tst P K) : tst P K := set_ts_line (fun i => if i =? tp then t' else ts_line s i) s.

Lemma balance_line tp t' s :
  is_line tp -> balance (line_change tp t' s) = balance s + debt p t' - debt p (ts_line s tp).
Proof.
  intros H. unfold TtyReply.balance, in_progress, answered, line_change. cbn.
  assert (tp = 0 \/ tp = 1 \/ tp = 2 \/ tp = 3) as [->|[->|[->| ->]]] by (unfold is_line in H; lia); cbn; lia.
Qed.

Lemma io_ok_line tp t' s :
  io_ok s -> counts_ok (tty_in t') -> counts_ok (tty_out t') -> io_ok (line_change tp t' s).
Proof. intros Hs H1 H2 i. cbn. destruct (i =? tp); [done|apply Hs]. Qed.

(** The reply of [tty_reply]. *)
Definition answer (proc_nr status : Z) : Z := of_bool ((proc_nr =? p) && (status !=? SUSPEND)).

Lemma moves_reply code to_ proc_nr status : moves (answer proc_nr status) (tty_reply code to_ proc_nr status).
Proof.
  intros s Hs. unfold tty_reply. rewrite bind_gets. unfold guard. destruct (_ !=? OK); [done|]. cbn. split; [done|].
  unfold TtyReply.balance, answered, in_progress, answer. cbn [ts_replies set_ts_replies List.filter].
  unfold is_answer at 1. cbn [r_proc r_status].
  destruct ((proc_nr =? p) && (status !=? SUSPEND)); unfold lenZ; cbn [length of_bool]; rewrite ?Nat2Z.inj_succ; cbn -[debt]; lia.
Qed.

(** Taking entries out of the queue only lowers what the reader still wants. *)
Record taking (tp : Z) (s s' : tst P K) : Prop := {
  tk_replies : ts_replies s' = ts_replies s;
  tk_others : forall i, i <> tp -> same_io_line (ts_line s i) (ts_line s' i);
  tk_out : tty_out (ts_line s' tp) = tty_out (ts_line s tp) /\ tty_io (ts_line s' tp) = tty_io (ts_line s tp);
  tk_proc : for_proc (tty_in (ts_line s' tp)) = for_proc (tty_in (ts_line s tp));
  tk_left : 0 <= left (tty_in (ts_line s' tp)) <= left (tty_in (ts_line s tp));
  tk_cum : cum (tty_in (ts_line s tp)) <= cum (tty_in (ts_line s' tp)) }.

Definition takes {A} (tp : Z) (c : TM A) : Prop := forall s, 0 <= left (tty_in (ts_line s tp)) ->
  match c s with (Ok _, s') => taking tp s s' | (Err _, _) => True end.

Lemma takes_aside {A} tp (c : TM A) : aside c -> takes tp c.
Proof.
  intros H s Hs. specialize (H s). destruct (c s) as [[e|a] s']; [done|]. destruct H as [R H].
  destruct (H tp) as (E1 & E2 & E3 & _). split; [done|intros; apply H|done| | |]; rewrite E1; done || lia.
Qed.

Lemma taking_trans tp s1 s2 s3 : taking tp s1 s2 -> taking tp s2 s3 -> taking tp s1 s3.
Proof.
  intros [R1 O1 [U1 V1] P1 L1 C1] [R2 O2 [U2 V2] P2 L2 C2]. split; [congruence| | |congruence|lia|lia].
  - intros i Hi. destruct (O1 i Hi) as (? & ? & ? & ?), (O2 i Hi) as (? & ? & ? & ?). repeat split; congruence.
  - split; congruence.
Qed.

Lemma takes_bind {A B} tp (c : TM A) (k : A -> TM B) : takes tp c -> (forall a, takes tp (k a)) -> takes tp (bind c k).
Proof.
  intros Hc Hk s Hs. specialize (Hc s Hs). unfold bind. destruct (c s) as [[e|a] s1]; [done|].
  specialize (Hk a s1). destruct (k a s1) as [[e|b] s2]; [done|].
  eapply taking_trans; [exact Hc|]. apply Hk. destruct Hc. lia.
Qed.

Lemma takes_updl tp f :
  (forall t, tty_out (f t) = tty_out t /\ tty_io (f t) = tty_io t /\ for_proc (tty_in (f t)) = for_proc (tty_in t)) ->
  (forall t, 0 <= left (tty_in t) -> 0 <= left (tty_in (f t)) <= left (tty_in t)) ->
  (forall t, cum (tty_in t) <= cum (tty_in (f t))) -> takes tp (updl tp f).
Proof.
  intros H1 H2 H3 s Hs. cbn. split; cbn; rewrite ?Z.eqb_refl; try done.
  - intros i Hi. by rewrite (proj2 (Z.eqb_neq i tp)) by done.
  - split; apply H1.
  - apply H1.
  - by apply H2.
Qed.

Lemma takes_deliver tp buf destination : takes tp (deliver tp buf destination).
Proof.
  apply takes_bind; [apply takes_aside; auto with aside|]. intros _. apply takes_updl; [done|done|].
  intros t. cbn. pose proof (lenZ_nonneg buf). lia.
Qed.

Lemma take_entry_takes tp a : takes tp (take_entry tp a).
Proof.
  intros s Hs. unfold take_entry, line. rewrite bind_gets.
  destruct (negb _) eqn:Eg; [by apply (takes_aside tp _ (aside_ret _) s Hs)|].
  apply negb_false_iff, andb_true_iff in Eg as [Eg _]. apply andb_true_iff in Eg as [Hl _]. apply Z.ltb_lt in Hl.
  set (ch := nthZ _ _). clearbody ch.
  assert (Htail : forall a : list Z * Z, takes tp
    (updl tp (fun t => let q := tty_q t in set_tty_q (set_incount (incount q - 1) (set_intail (incr (intail q)) q)) t) ;;;
     (if has ch IN_EOT then
        updl tp (fun t => let q := tty_q t in set_tty_q (set_eotct (eotct q - 1) q) t) ;;;
        if lflag (ts_line s tp) ICANON then updl tp (fun t => set_tty_in (set_left 0 (tty_in t)) t) else ret tt
      else ret tt) ;;; ret (Continue (B := list Z * Z) a))).
  { intros b. apply takes_bind; [by apply takes_updl|]. intros _. apply takes_bind; [|intros; apply takes_aside, aside_ret].
    destruct (has ch IN_EOT); [|apply takes_aside, aside_ret]. apply takes_bind; [by apply takes_updl|]. intros _.
    destruct (lflag _ _); [|apply takes_aside, aside_ret]. apply takes_updl; [done|cbn; lia|done]. }
  destruct (has ch IN_EOF); [apply (takes_bind tp (ret a) _ (takes_aside tp _ (aside_ret a)) Htail s Hs)|].
  destruct a as [buf destination]. rewrite bind_assoc. unfold updl at 1. rewrite bind_modify.
  set (s1 := set_ts_line _ s). assert (H1 : taking tp s s1).
  { split; cbn; rewrite ?Z.eqb_refl; try done; cbn; [|lia]. intros i Hi. by rewrite (proj2 (Z.eqb_neq i tp)) by done. }
  assert (Hrest : takes tp (bind (if lenZ (buf ++ [Z.land ch IN_CHAR]) =? 64
    then deliver tp (buf ++ [Z.land ch IN_CHAR]) destination ;;; ret ([], destination +u 64)
    else ret (buf ++ [Z.land ch IN_CHAR], destination)) (fun a => _))) by
    (apply takes_bind; [|exact Htail]; destruct (_ =? 64);
     [apply takes_bind; [apply takes_deliver|intros; apply takes_aside, aside_ret]|apply takes_aside, aside_ret]).
  specialize (Hrest s1 ltac:(destruct H1; lia)). cbn beta in *.
  match goal with |- match ?x with _ => _ end => destruct x as [[e|b] s2] end; [done|]. by apply (taking_trans tp s s1).
Qed.

Lemma takes_loop {A B} tp n (body : A -> TM (turn A B)) done_ a :
  (forall a, takes tp (body a)) -> (forall a, takes tp (done_ a)) -> takes tp (loop n body done_ a).
Proof.
  intros Hb Hd. revert a. induction n as [|n IH]; intros a; cbn [loop]; [apply Hd|].
  apply takes_bind; [apply Hb|]. intros [a'|b]; [apply IH|apply takes_aside, aside_ret].
Qed.

Lemma balance_taking tp s s' :
  is_line tp -> io_ok s -> taking tp s s' -> io_ok s' /\
  balance s' = balance s + working p (tty_in (ts_line s' tp)) - working p (tty_in (ts_line s tp)).
Proof.
  intros Htp Hs [R O [U V] Pr L Cu]. split.
  - intros i. destruct (decide (i = tp)) as [->|Hne].
    + destruct (Hs tp) as [[? ?] Ho]. rewrite U. split; [split; lia|done].
    + destruct (O i Hne) as (-> & -> & _). apply Hs.
  - assert (Hd : forall i, debt p (ts_line s' i) =
      debt p (ts_line s i) + if i =? tp then working p (tty_in (ts_line s' tp)) - working p (tty_in (ts_line s tp)) else 0).
    { intros i. unfold debt. destruct (Z.eqb_spec i tp) as [->|Hne]; [rewrite U, V; lia|].
      destruct (O i Hne) as (-> & -> & -> & _). lia. }
    unfold TtyReply.balance, answered, in_progress. rewrite R, !Hd.
    assert (tp = 0 \/ tp = 1 \/ tp = 2 \/ tp = 3) as [->|[->|[->| ->]]] by (unfold is_line in Htp; lia);
      cbn -[debt working]; lia.
Qed.

(** Ending a read: its reader is no longer waiting. *)
Lemma finish_read_moves tp s :
  is_line tp -> io_ok s ->
  match finish_read tp s with
  | (Ok _, s') => io_ok s' /\ balance s' = balance s - working p (tty_in (ts_line s tp)) /\
                  ts_line s' tp = set_tty_in (set_cum 0 (set_left 0 (tty_in (ts_line s tp)))) (ts_line s tp)
  | (Err _, _) => False
  end.
Proof.
  intros Htp Hs. unfold finish_read, updl. cbn -[TtyReply.balance].
  set (t' := set_tty_in _ _). change (set_ts_line _ s) with (line_change tp t' s).
  split; [apply io_ok_line; [done|cbn; done|cbn; apply Hs]|]. split; [|by rewrite Z.eqb_refl].
  rewrite balance_line by done. unfold debt, working, t'. cbn. destruct (for_proc _ =? p); cbn; lia.
Qed.

Lemma answer_final proc_nr status : status <> SUSPEND -> answer proc_nr status = of_bool (proc_nr =? p).
Proof. intros H. unfold answer. rewrite (proj2 (Z.eqb_neq status SUSPEND)) by done. by rewrite andb_true_r. Qed.

(** The answer to a reader, and the end of its read. *)
Lemma answer_read tp code to_ status s :
  is_line tp -> io_ok s -> status <> SUSPEND -> 0 < left (tty_in (ts_line s tp)) ->
  match (tty_reply code to_ (for_proc (tty_in (ts_line s tp))) status ;;; finish_read tp) s with
  | (Ok _, s') => io_ok s' /\ balance s' = balance s
  | (Err _, _) => True
  end.
Proof.
  intros Htp Hs Hst Hl. unfold bind at 1. pose proof (moves_reply code to_ (for_proc (tty_in (ts_line s tp))) status s Hs) as H.
  assert (E : match tty_reply code to_ (for_proc (tty_in (ts_line s tp))) status s with (Ok _, s1) => ts_line s1 = ts_line s | _ => True end).
  { unfold tty_reply. rewrite bind_gets. unfold guard. by destruct (_ !=? OK). }
  destruct (tty_reply _ _ _ _ s) as [[e|[]] s1]; [done|]. destruct H as [H1 B1].
  pose proof (finish_read_moves tp s1 Htp H1) as H. destruct (finish_read tp s1) as [[e|[]] s2]; [done|].
  destruct H as (H2 & B2 & _). split; [done|]. rewrite B2, B1, E, answer_final by done.
  unfold working. rewrite (proj2 (Z.ltb_lt _ _)) by done. cbn. lia.
Qed.

Lemma working_pos x : 0 < left x -> working p x = of_bool (for_proc x =? p).
Proof. intros H. unfold working. by rewrite (proj2 (Z.ltb_lt _ _)) by done. Qed.
Lemma working_zero x : left x = 0 -> working p x = 0.
Proof. intros H. unfold working. by rewrite H. Qed.

Lemma moves_finish_zero tp s :
  is_line tp -> io_ok s -> left (tty_in (ts_line s tp)) = 0 ->
  match finish_read tp s with (Ok _, s') => io_ok s' /\ balance s' = balance s | (Err _, _) => True end.
Proof.
  intros Htp Hs Hl. pose proof (finish_read_moves tp s Htp Hs) as H. destruct (finish_read tp s) as [[e|[]] s1]; [done|].
  destruct H as (H1 & B & _). split; [done|]. rewrite B, working_zero by done. lia.
Qed.

Lemma reply_lines code to_ proc_nr status (s : tst P K) :
  match tty_reply code to_ proc_nr status s with (Ok _, s1) => ts_line s1 = ts_line s | _ => True end.
Proof. unfold tty_reply. rewrite bind_gets. unfold guard. by destruct (_ !=? OK). Qed.

(** The bytes copied and the reply of [in_transfer], once [destination] is known. *)
Lemma transfer_tail_moves tp destination s :
  is_line tp -> io_ok s -> 0 < left (tty_in (ts_line s tp)) ->
  match (let* (buf, destination) := loop 257 (take_entry tp) ret ([], destination) in
    (match buf with [] => ret tt | _ => deliver tp buf destination end) ;;;
    t <- line tp ;;
    let r := tty_in t in
    if left r =? 0 then tty_reply (repcode r) (caller r) (for_proc r) (cum r) ;;; finish_read tp else ret tt) s
  with (Ok _, s') => io_ok s' /\ balance s' = balance s | (Err _, _) => True end.
Proof.
  intros Htp Hs Hl.
  assert (Ht : takes tp (let* (buf, destination) := loop 257 (take_entry tp) ret ([], destination) in
    (match buf with [] => ret tt | _ => deliver tp buf destination end))).
  { apply takes_bind; [apply takes_loop; [apply take_entry_takes|intros; apply takes_aside, aside_ret]|].
    intros [buf dest]. destruct buf; [apply takes_aside, aside_ret|apply takes_deliver]. }
  specialize (Ht s ltac:(lia)). unfold bind at 1 in Ht. unfold bind at 1. revert Ht.
  destruct (loop 257 (take_entry tp) ret ([], destination) s) as [[e|[buf dest]] s1]; [done|].
  unfold bind at 1. destruct ((match buf with [] => ret tt | _ => deliver tp buf dest end) s1) as [[e|[]] s2]; [done|].
  intros Ht. destruct (balance_taking tp s s2 Htp Hs Ht) as [H2 B2]. unfold line. rewrite bind_gets.
  destruct (Z.eqb_spec (left (tty_in (ts_line s2 tp))) 0) as [E|E].
  - set (r := tty_in (ts_line s2 tp)) in *. unfold bind.
    pose proof (moves_reply (repcode r) (caller r) (for_proc r) (cum r) s2 H2) as H.
    pose proof (reply_lines (repcode r) (caller r) (for_proc r) (cum r) s2) as El.
    destruct (tty_reply _ _ _ _ s2) as [[e|[]] s3]; [done|]. destruct H as [H3 B3].
    pose proof (moves_finish_zero tp s3 Htp H3) as H. rewrite El in H. specialize (H E).
    destruct (finish_read tp s3) as [[e|[]] s4]; [done|]. destruct H as [H4 B4]. split; [done|].
    rewrite B4, B3, B2, (working_zero r E), (working_pos _ Hl). rewrite answer_final.
    + unfold r. rewrite (tk_proc _ _ _ Ht). lia.
    + destruct (H2 tp) as [[_ Hc] _]. fold r in Hc. unfold SUSPEND. lia.
  - cbn. split; [done|]. destruct (H2 tp) as [[Hl2 _] _].
    rewrite B2, !working_pos by lia. rewrite (tk_proc _ _ _ Ht). lia.
Qed.

Lemma in_transfer_moves tp : is_line tp -> moves 0 (in_transfer tp).
Proof.
  intros Htp s Hs. unfold in_transfer, line. rewrite bind_gets. destruct (_ || _) eqn:Eg; [cbn; split; [done|lia]|].
  apply orb_false_iff in Eg as [El _]. apply Z.eqb_neq in El. destruct (Hs tp) as [[Hl Hc] _].
  rewrite bind_gets. rewrite Z.add_0_r. destruct (_ =? 0); [|by apply transfer_tail_moves; [done|done|lia]].
  by apply answer_read; [done|done|done|lia].
Qed.

Lemma moves_if {A} d (b : bool) (c c' : TM A) : moves d c -> moves d c' -> moves d (if b then c else c').
Proof. by destruct b. Qed.

Lemma enqueue_char_moves tp ch timeset : is_line tp -> moves 0 (enqueue_char tp ch timeset).
Proof.
  intros Htp. unfold enqueue_char. apply moves_before; [apply moves_aside, aside_line|]. intros t.
  apply moves_before; [apply moves_aside; stand_aside|]. intros [].
  apply moves_before; [apply moves_aside; stand_aside|]. intros ch'.
  apply moves_before; [apply moves_aside; stand_aside|]. intros [].
  apply moves_before; [apply moves_aside, aside_line|]. intros t'.
  apply moves_before; [apply moves_if; [by apply in_transfer_moves|apply moves_ret]|]. intros []. apply moves_ret.
Qed.

(** A stage that stands aside, then the rest with the character it gives. *)
Lemma moves_stage {A} (c : TM (option Z)) (none : TM A) (k : Z -> TM A) :
  aside c -> aside none -> (forall ch, moves 0 (k ch)) ->
  moves 0 (o <- c ;; match o with None => none | Some ch => k ch end).
Proof.
  intros Hc Hn Hk. apply moves_before; [by apply moves_aside|]. intros [ch|]; [apply Hk|by apply moves_aside].
Qed.

Lemma in_char_moves tp ch timeset : is_line tp -> moves 0 (in_char m_at tp ch timeset).
Proof.
  intros Htp. unfold in_char. apply moves_before; [apply moves_aside, aside_line|]. intros t.
  apply moves_stage; [auto with aside|apply aside_ret|]. intros ch1.
  apply moves_before; [apply moves_aside, aside_line|]. intros t1.
  destruct (map_newline _ _) as [ch2|]; [|apply moves_ret].
  apply moves_stage; [auto with aside|apply aside_ret|]. intros ch3.
  apply moves_stage; [auto with aside|apply aside_ret|]. intros ch4.
  apply moves_stage; [auto with aside|apply aside_ret|]. intros ch5.
  apply moves_before; [apply moves_aside, aside_line|]. intros t2.
  apply moves_if; [apply moves_ret|]. apply moves_before; [by apply enqueue_char_moves|]. intros b. apply moves_ret.
Qed.

Lemma in_process_moves tp buf : is_line tp -> moves 0 (in_process m_at tp buf).
Proof.
  intros Htp. unfold in_process. generalize 0 at 2, false. induction buf as [|ch buf IH]; intros ct b; cbn [in_process_from].
  - apply moves_ret.
  - apply moves_before; [by apply in_char_moves|]. intros [b'|[]]; [apply IH|apply moves_ret].
Qed.

(** Writing only changes how much of the output is done. *)
Record writing (tp : Z) (s s' : tst P K) : Prop := {
  wr_replies : ts_replies s' = ts_replies s;
  wr_others : forall i, i <> tp -> same_io_line (ts_line s i) (ts_line s' i);
  wr_in : tty_in (ts_line s' tp) = tty_in (ts_line s tp) /\ tty_io (ts_line s' tp) = tty_io (ts_line s tp);
  wr_proc : for_proc (tty_out (ts_line s' tp)) = for_proc (tty_out (ts_line s tp));
  wr_cum : 0 <= cum (tty_out (ts_line s tp)) -> 0 <= cum (tty_out (ts_line s' tp)) }.

Definition writes {A} (tp : Z) (c : TM A) : Prop := forall s,
  match c s with (Ok _, s') => writing tp s s' | (Err _, _) => True end.

Lemma writing_trans tp s1 s2 s3 : writing tp s1 s2 -> writing tp s2 s3 -> writing tp s1 s3.
Proof.
  intros [R1 O1 [U1 V1] P1 C1] [R2 O2 [U2 V2] P2 C2]. split; [congruence| | |congruence|auto].
  - intros i Hi. destruct (O1 i Hi) as (? & ? & ? & ?), (O2 i Hi) as (? & ? & ? & ?). repeat split; congruence.
  - split; congruence.
Qed.

Lemma writes_aside {A} tp (c : TM A) : aside c -> writes tp c.
Proof.
  intros H s. specialize (H s). destruct (c s) as [[e|a] s']; [done|]. destruct H as [R H].
  destruct (H tp) as (E1 & E2 & E3 & _). split; [done|intros; apply H|done| |]; by rewrite E2.
Qed.

Lemma output_bind {A B} tp (c : TM A) (k : A -> TM B) : writes tp c -> (forall a, writes tp (k a)) -> writes tp (bind c k).
Proof.
  intros Hc Hk s. specialize (Hc s). unfold bind. destruct (c s) as [[e|a] s1]; [done|].
  specialize (Hk a s1). destruct (k a s1) as [[e|b] s2]; [done|]. by eapply writing_trans.
Qed.

Lemma aside_show_bytes tp bytes : aside (P := P) (K := K) (show_bytes tp bytes).
Proof. induction bytes as [|ch bytes IH]; cbn [show_bytes]; stand_aside. Qed.

Lemma console_turn_writes tp a : writes tp (console_turn tp a).
Proof.
  unfold console_turn. apply output_bind; [apply writes_aside, aside_line|]. intros t.
  destruct (negb _) eqn:El; [apply writes_aside, aside_ret|].
  apply output_bind; [apply writes_aside, aside_gets|]. intros b.
  destruct b; [apply writes_aside, aside_ret|]. apply output_bind; [apply writes_aside, aside_gets|]. intros source.
  destruct (source =? 0); [apply writes_aside, aside_ret|].
  apply output_bind; [apply writes_aside, aside_gets|]. intros buffer.
  apply output_bind; [apply writes_aside, aside_show_bytes|]. intros [].
  apply output_bind; [|intros; apply writes_aside, aside_ret]. intros s. split; cbn; rewrite ?Z.eqb_refl; try done.
  - intros i Hi. by rewrite (proj2 (Z.eqb_neq i tp)) by done.
  - cbn. apply negb_false_iff, Z.ltb_lt in El. intros. destruct (64 <? _); lia.
Qed.

Lemma loop_writes {A B} tp n (body : A -> TM (turn A B)) done_ a :
  (forall a, writes tp (body a)) -> (forall a, writes tp (done_ a)) -> writes tp (loop n body done_ a).
Proof.
  intros Hb Hd. revert a. induction n as [|n IH]; intros a; cbn [loop]; [apply Hd|].
  apply output_bind; [apply Hb|]. intros [a'|b]; [apply IH|apply writes_aside, aside_ret].
Qed.

(** The status of a write is [OK] or an error until the count replaces it. *)
Lemma console_loop_status tp n a (s : tst P K) :
  match loop n (console_turn tp) (fun _ => ret OK) a s with
  | (Ok r, _) => r = OK \/ r = EIO \/ r = EFAULT | (Err _, _) => True end.
Proof.
  revert a s. induction n as [|n IH]; intros a s; [by left|]. cbn [loop].
  assert (H : match console_turn tp a s with (Ok (Break r), _) => r = OK \/ r = EIO \/ r = EFAULT | _ => True end).
  { unfold console_turn, line. rewrite bind_gets. destruct (negb _); [by left|]. rewrite bind_gets.
    destruct (spi_fault _); [by right; left|]. rewrite bind_gets. destruct (_ =? 0); [by right; right|].
    rewrite bind_gets. unfold bind. destruct (show_bytes _ _ _) as [[e|[]] s1]; [done|]. done. }
  unfold bind. destruct (console_turn tp a s) as [[e|[a'|r]] s1]; [done|apply IH|done].
Qed.

Lemma balance_stop tp s s' :
  is_line tp -> io_ok s -> writing tp s s' ->
  let t := set_tty_out (set_cum 0 (set_left 0 (tty_out (ts_line s' tp)))) (ts_line s' tp) in
  io_ok (line_change tp t s') /\ balance (line_change tp t s') = balance s - working p (tty_out (ts_line s tp)).
Proof.
  intros Htp Hs [R O [U V] Pr Cu]. cbn zeta. split.
  - intros i. cbn. destruct (Z.eqb_spec i tp) as [->|Hne]; cbn; [rewrite U; split; [apply Hs|done]|].
    destruct (O i Hne) as (-> & -> & _). apply Hs.
  - assert (Hd : forall i, debt p (ts_line (line_change tp (set_tty_out (set_cum 0 (set_left 0 (tty_out (ts_line s' tp)))) (ts_line s' tp)) s') i) =
      debt p (ts_line s i) - if i =? tp then working p (tty_out (ts_line s tp)) else 0).
    { intros i. unfold debt, line_change. cbn. destruct (Z.eqb_spec i tp) as [->|Hne]; cbn.
      - rewrite U, V. change (working p (set_cum 0 (set_left 0 (tty_out (ts_line s' tp))))) with 0. lia.
      - destruct (O i Hne) as (-> & -> & -> & _). lia. }
    unfold TtyReply.balance, answered, in_progress. rewrite !Hd. cbn [line_change ts_replies set_ts_line]. rewrite R.
    assert (tp = 0 \/ tp = 1 \/ tp = 2 \/ tp = 3) as [->|[->|[->| ->]]] by (unfold is_line in Htp; lia);
      cbn -[debt working]; lia.
Qed.

Lemma console_write_moves tp : is_line tp -> moves 0 (cp32_console_write tp).
Proof.
  intros Htp s Hs. unfold cp32_console_write, line. rewrite bind_gets. destruct (_ || _) eqn:Eg; [cbn; split; [done|lia]|].
  apply orb_false_iff in Eg as [El _]. apply Z.eqb_neq in El. destruct (Hs tp) as [_ [Hl Hc]].
  assert (Hw : writes tp (on_screen cardputer_display_begin_batch ;;;
    result <- loop (write_turns (ts_line s tp)) (console_turn tp) (fun _ => ret OK) tt ;;
    on_screen cardputer_display_end_batch ;;; ret result)).
  { apply output_bind; [apply writes_aside, aside_on_screen|]. intros [].
    apply output_bind; [apply loop_writes; [intros; apply console_turn_writes|intros; apply writes_aside, aside_ret]|].
    intros r. apply output_bind; [apply writes_aside, aside_on_screen|]. intros []. apply writes_aside, aside_ret. }
  specialize (Hw s). unfold on_screen in Hw at 1. rewrite bind_modify in Hw. unfold on_screen at 1. rewrite bind_modify.
  set (s1 := set_ts_screen _ s) in *. unfold bind at 1 in Hw. unfold bind at 1.
  pose proof (console_loop_status tp (write_turns (ts_line s tp)) tt s1) as Hst.
  destruct (loop _ _ _ _ s1) as [[e|r] s2]; [done|].
  unfold on_screen in Hw. rewrite bind_modify in Hw. unfold on_screen. rewrite bind_modify.
  set (s3 := set_ts_screen _ s2) in *. cbn [ret] in Hw. rewrite bind_gets, bind_gets. unfold updl. rewrite bind_modify.
  set (t := ts_line s3 tp). set (f := spi_fault _). set (status := if _ =? OK then cum (tty_out t) else _).
  destruct (balance_stop tp s s3 Htp Hs Hw) as [H4 B4]. fold t in H4, B4.
  match goal with |- match tty_reply ?a ?b ?c ?d ?s4 with _ => _ end =>
    pose proof (moves_reply a b c d s4 H4) as H end.
  destruct (tty_reply _ _ _ _ _) as [[e|[]] s5]; [done|]. destruct H as [H5 B5]. split; [done|].
  rewrite B5. unfold line_change in B4. rewrite B4. rewrite working_pos by lia. rewrite answer_final.
  - unfold t. rewrite (wr_proc _ _ _ Hw). lia.
  - pose proof (wr_cum _ _ _ Hw Hc). unfold status, SUSPEND. fold t in H. unfold OK, EIO, EFAULT in *.
    destruct f; [done|]. destruct Hst as [->|[-> | ->]]; [rewrite Z.eqb_refl; lia|done|done].
Qed.

Lemma aside_lines {A} (c : TM A) (s : tst P K) tp :
  aside c -> match c s with (Ok _, s') => same_io_line (ts_line s tp) (ts_line s' tp) | (Err _, _) => True end.
Proof. intros H. specialize (H s). destruct (c s) as [[e|a] s']; [done|]. apply H. Qed.

Lemma dev_ioctl_moves tp s :
  is_line tp -> io_ok s -> ioreq (tty_io (ts_line s tp)) <> 0 ->
  match dev_ioctl m_at tp s with (Ok _, s') => io_ok s' /\ balance s' = balance s | (Err _, _) => True end.
Proof.
  intros Htp Hs Hreq. unfold dev_ioctl, line. rewrite bind_gets. destruct (0 <? _); [done|].
  set (io := tty_io (ts_line s tp)) in *.
  match goal with |- match bind ?c _ _ with _ => _ end => assert (Ha : aside c) by stand_aside end.
  specialize (Ha s). unfold bind at 1. match goal with |- match (let (r, w') := ?x in _) with _ => _ end => destruct x as [[e|[]] s1] end; [done|].
  destruct (same_io_balance s s1 Ha Hs) as [H1 B1]. destruct Ha as [_ Ha]. destruct (Ha tp) as (_ & _ & E & _).
  unfold updl. rewrite bind_modify. set (s2 := set_ts_line _ s1).
  assert (H2 : io_ok s2 /\ balance s2 = balance s1 - of_bool (ioproc io =? p)).
  { split; [apply io_ok_line; [done|apply H1..]|].
    change s2 with (line_change tp (set_tty_io (set_ioreq 0 (tty_io (ts_line s1 tp))) (ts_line s1 tp)) s1).
    rewrite balance_line by done. unfold debt. cbn. rewrite E. fold io.
    rewrite (proj2 (Z.eqb_neq (ioreq io) 0)) by done. cbn. lia. }
  destruct H2 as [H2 B2]. pose proof (moves_reply REVIVE (iocaller io) (ioproc io) OK s2 H2) as H.
  destruct (tty_reply _ _ _ _ s2) as [[e|[]] s3]; [done|]. destruct H as [H3 B3]. split; [done|].
  rewrite B3, B2, B1, answer_final by done. lia.
Qed.

Lemma console_keys_moves tp n : is_line tp -> moves 0 (console_keys m_at tp n).
Proof.
  intros Htp. induction n as [|n IH]; cbn [console_keys]; [apply moves_ret|].
  apply moves_before. { apply moves_aside. intros s. by destruct (cardputer_keyboard_interrupt_asserted _). }
  intros b. apply moves_if; [apply moves_ret|].
  apply moves_before. { apply moves_aside. intros s. by destruct (cp32_read_keyboard_event _) as [[? ?] ?]. }
  intros [r event]. apply moves_if; [apply moves_ret|].
  apply moves_before. { apply moves_aside. intros s. by destruct (cp32_cardputer_key _ _). }
  intros o. apply moves_before; [|intros; apply IH]. destruct o as [ch|]; [|apply moves_ret].
  apply moves_before; [apply moves_aside, aside_line|]. intros t.
  apply moves_before; [by apply in_process_moves|]. intros ct. apply moves_ret.
Qed.

Lemma devread_moves tp : is_line tp -> moves 0 (devread m_at tp).
Proof.
  intros Htp. apply moves_before; [apply moves_aside, aside_line|]. intros t.
  destruct (tty_dev t); [apply moves_fail|by apply console_keys_moves|apply moves_ret].
Qed.
Lemma devwrite_moves tp : is_line tp -> moves 0 (devwrite (P := P) (K := K) tp).
Proof.
  intros Htp. apply moves_before; [apply moves_aside, aside_line|]. intros t.
  destruct (tty_dev t); [apply moves_fail|by apply console_write_moves|apply moves_ret].
Qed.

Lemma event_turn_moves tp a : is_line tp -> moves 0 (event_turn m_at tp a).
Proof.
  intros Htp. unfold event_turn. apply moves_before; [apply moves_aside; stand_aside|]. intros [].
  apply moves_before; [by apply devread_moves|]. intros []. apply moves_before; [by apply devwrite_moves|]. intros [].
  apply moves_gets. intros s Hs. unfold bind at 1.
  assert (H : match (if ioreq (tty_io (ts_line s tp)) !=? 0 then dev_ioctl m_at tp else ret tt) s with
    (Ok _, s') => io_ok s' /\ balance s' = balance s | (Err _, _) => True end).
  { destruct (Z.eqb_spec (ioreq (tty_io (ts_line s tp))) 0) as [E|E]; cbn [negb]; [done|]. by apply dev_ioctl_moves. }
  destruct ((if _ !=? 0 then dev_ioctl m_at tp else ret tt) s) as [[e|[]] s1]; [done|]. cbn. destruct H. split; [done|lia].
Qed.

Lemma moves_loop {A B} n (body : A -> TM (turn A B)) done_ a :
  (forall a, moves 0 (body a)) -> (forall a, moves 0 (done_ a)) -> moves 0 (loop n body done_ a).
Proof.
  intros Hb Hd. revert a. induction n as [|n IH]; intros a; cbn [loop]; [apply Hd|].
  apply moves_before; [apply Hb|]. intros [a'|b]; [apply IH|apply moves_ret].
Qed.

Lemma handle_events_moves fuel tp : is_line tp -> moves 0 (handle_events m_at fuel tp).
Proof.
  intros Htp. unfold handle_events.
  apply moves_before; [apply moves_loop; [intros; by apply event_turn_moves|intros; apply moves_fail]|]. intros [].
  apply moves_before; [by apply in_transfer_moves|]. intros []. apply moves_gets. intros s Hs. cbn beta zeta.
  unfold bind at 1. set (r := tty_in (ts_line s tp)).
  assert (H : match (if (tty_min (ts_line s tp) <=? cum r) && (0 <? left r)
    then tty_reply (repcode r) (caller r) (for_proc r) (cum r) ;;; finish_read tp else ret tt) s with
    (Ok _, s') => io_ok s' /\ balance s' = balance s | (Err _, _) => True end).
  { destruct (_ && _) eqn:E; [|done]. apply andb_true_iff in E as [_ E]. apply Z.ltb_lt in E.
    apply answer_read; [done|done| |done]. destruct (Hs tp) as [[_ Hc] _]. fold r in Hc. unfold SUSPEND. lia. }
  destruct ((if _ && _ then _ else ret tt) s) as [[e|[]] s1]; [done|]. destruct H as [H1 B1]. rewrite <- B1.
  revert s1 H1 B1. intros s1 H1 B1. destruct (tp =? 0); [|cbn; split; [done|lia]].
  assert (Hm : moves 0 (t <- line tp ;; now <- gets (fun s => get_uptime (ts_c s)) ;;
    on_screen (cardputer_display_cursor ((0 <? left (tty_in t)) && lflag t ECHO) (wrap32 now)))) by (apply moves_aside; stand_aside).
  by apply Hm.
Qed.

(** Continuing after a step that keeps the balance. *)
Lemma moves_run {A B} (c : TM A) (k : A -> TM B) s d b :
  moves 0 c -> io_ok s -> balance s = b ->
  (forall a s1, io_ok s1 -> balance s1 = b -> match k a s1 with (Ok _, s') => io_ok s' /\ balance s' = b + d | (Err _, _) => True end) ->
  match bind c k s with (Ok _, s') => io_ok s' /\ balance s' = b + d | (Err _, _) => True end.
Proof.
  intros Hc Hs Hb Hk. specialize (Hc s Hs). unfold bind. destruct (c s) as [[e|a] s1]; [done|].
  destruct Hc as [H1 E1]. apply Hk; [done|]. lia.
Qed.

Lemma bind_ret_l {A B} (a : A) (k : A -> TM B) s : bind (ret a) k s = k a s.
Proof. done. Qed.

Lemma bind3 {A B C D} (c : TM A) (c2 : A -> TM B) (c3 : A -> B -> TM C) (k : C -> TM D) s :
  bind c (fun a => bind (c2 a) (fun b => bind (c3 a b) k)) s = bind (bind c (fun a => bind (c2 a) (c3 a))) k s.
Proof.
  unfold bind. destruct (c s) as [[e|a] s1]; [done|]. destruct (c2 a s1) as [[e|b] s2]; [done|]. done.
Qed.

Definition asked (m : message) : Z := of_bool (PROC_NR m =? p).

Lemma reply_asked code to_ m status s b :
  io_ok s -> balance s = b -> status <> SUSPEND ->
  match tty_reply code to_ (PROC_NR m) status s with (Ok _, s') => io_ok s' /\ balance s' = b + asked m | (Err _, _) => True end.
Proof.
  intros Hs Hb Hst. pose proof (moves_reply code to_ (PROC_NR m) status s Hs) as H.
  destruct (tty_reply _ _ _ _ s) as [[e|[]] s1]; [done|]. destruct H as [H1 B1]. split; [done|].
  rewrite B1, answer_final by done. unfold asked. lia.
Qed.

Lemma reply_suspend code to_ proc_nr s :
  io_ok s ->
  match tty_reply code to_ proc_nr SUSPEND s with (Ok _, s') => io_ok s' /\ balance s' = balance s | (Err _, _) => True end.
Proof.
  intros Hs. pose proof (moves_reply code to_ proc_nr SUSPEND s Hs) as H.
  destruct (tty_reply _ _ _ _ s) as [[e|[]] s1]; [done|]. destruct H as [H1 B1]. split; [done|].
  rewrite B1. unfold answer. rewrite andb_false_r. cbn. lia.
Qed.

Definition byte_proc (m : message) : Prop := 0 <= PROC_NR m < 256.

Lemma working_transfer m c : byte_proc m -> 0 < COUNT m -> working p (transfer_of m c) = asked m.
Proof.
  intros Hm Hc. rewrite working_pos by done. unfold transfer_of, asked. cbn. unfold wrap8. by rewrite Z.mod_small.
Qed.

Lemma bad_transfer_none (s : tst P K) busy m : bad_transfer s busy m = None -> busy <= 0 /\ 0 < COUNT m.
Proof.
  unfold bad_transfer. destruct (Z.ltb_spec 0 busy); [done|]. destruct (Z.leb_spec (COUNT m) 0); [done|]. done.
Qed.

Lemma bad_transfer_some (s : tst P K) busy m r : bad_transfer s busy m = Some r -> r <> SUSPEND.
Proof.
  unfold bad_transfer. destruct (0 <? busy); [by intros [= <-]|]. destruct (COUNT m <=? 0); [by intros [= <-]|].
  destruct (_ =? 0); [by intros [= <-]|done].
Qed.

Lemma do_read_asked fuel tp m s :
  is_line tp -> byte_proc m -> io_ok s ->
  match do_read m_at fuel tp m s with (Ok _, s') => io_ok s' /\ balance s' = balance s + asked m | (Err _, _) => True end.
Proof.
  intros Htp Hm Hs. unfold do_read, line. rewrite bind_gets, bind_gets.
  destruct (bad_transfer _ _ m) as [r|] eqn:Eb; [by apply reply_asked; [| |eapply bad_transfer_some]|].
  apply bad_transfer_none in Eb as [Eb Hc]. destruct (Hs tp) as [[Hl Hcum] Ho]. unfold updl at 1. rewrite bind_modify.
  set (s1 := set_ts_line _ s).
  assert (H1 : io_ok s1 /\ balance s1 = balance s + asked m).
  { split; [apply io_ok_line; [done|unfold counts_ok; cbn; lia|done]|].
    change s1 with (line_change tp (set_tty_in (transfer_of m (cum (tty_in (ts_line s tp)))) (ts_line s tp)) s).
    rewrite balance_line by done. unfold debt. cbn -[working transfer_of]. rewrite working_transfer, (working_zero (tty_in _)) by (done || lia). lia. }
  destruct H1 as [H1 B1]. rewrite <- B1.
  assert (Ep : for_proc (tty_in (ts_line s1 tp)) = PROC_NR m).
  { cbn. rewrite Z.eqb_refl. cbn. unfold wrap8. by rewrite Z.mod_small. }
  clearbody s1. clear Hs Hl Hcum Ho Eb B1 s. rename s1 into s, H1 into Hs.
  set (k := fun _ : unit => bind (gets (fun s => ts_line s tp)) _).
  assert (Hcalm : moves 0 (read_timer tp ;;; in_transfer tp ;;; handle_events m_at fuel tp)).
  { apply moves_before; [apply moves_aside; auto with aside|]. intros []. apply moves_before; [by apply in_transfer_moves|].
    intros []. by apply handle_events_moves. }
  assert (Hkeep : keeps (read_timer tp ;;; in_transfer tp ;;; handle_events m_at fuel tp)).
  { apply procs_bind; [apply keeps_aside; auto with aside|]. intros []. apply procs_bind; [apply keeps_in_transfer|].
    intros []. apply keeps_handle_events. }
  specialize (Hcalm s Hs). specialize (Hkeep s). rewrite bind3. unfold bind at 1.
  destruct ((read_timer tp ;;; in_transfer tp ;;; handle_events m_at fuel tp) s) as [[e|[]] s4]; [done|].
  destruct Hcalm as [H4 B4]. destruct (Hkeep tp) as (E4 & _). rewrite Ep in E4. unfold k. rewrite bind_gets.
  destruct (Z.eqb_spec (left (tty_in (ts_line s4 tp))) 0) as [E|E]; [cbn; split; [done|lia]|].
  destruct (H4 tp) as [[Hl Hc4] Ho]. destruct (has (TTY_FLAGS m) O_NONBLOCK).
  - pose proof (finish_read_moves tp s4 Htp H4) as H. unfold bind. destruct (finish_read tp s4) as [[e|[]] s5]; [done|].
    destruct H as (H5 & B5 & _). pose proof (reply_asked TASK_REPLY (m_source m) m EAGAIN s5 _ H5 eq_refl) as H.
    destruct (tty_reply _ _ _ _ s5) as [[e|[]] s6]; [done|]. destruct H as [H6 B6]; [done|]. split; [done|].
    rewrite B6, B5, working_pos, E4 by lia. unfold asked. lia.
  - unfold updl. rewrite bind_modify. set (s5 := set_ts_line _ s4).
    assert (H5 : io_ok s5 /\ balance s5 = balance s4).
    { split; [by apply io_ok_line|].
      change s5 with (line_change tp (set_tty_in (set_repcode REVIVE (tty_in (ts_line s4 tp))) (ts_line s4 tp)) s4).
      rewrite balance_line by done. unfold debt. cbn. change (working p (set_repcode REVIVE (tty_in (ts_line s4 tp)))) with (working p (tty_in (ts_line s4 tp))). lia. }
    destruct H5 as [H5 B5]. pose proof (reply_suspend TASK_REPLY (m_source m) (PROC_NR m) s5 H5) as H.
    destruct (tty_reply _ _ _ _ s5) as [[e|[]] s6]; [done|]. destruct H as [H6 B6]. split; [done|]. lia.
Qed.

(** A change of the line that leaves the transfers of its processes as they were. *)
Lemma update_neutral tp f s :
  is_line tp -> io_ok s -> (forall t, debt p (f t) = debt p t) ->
  (forall t, counts_ok (tty_in t) -> counts_ok (tty_in (f t))) -> (forall t, counts_ok (tty_out t) -> counts_ok (tty_out (f t))) ->
  io_ok (line_change tp (f (ts_line s tp)) s) /\ balance (line_change tp (f (ts_line s tp)) s) = balance s.
Proof.
  intros Htp Hs Hd Hi Ho. split; [apply io_ok_line; [done|apply Hi, Hs|apply Ho, Hs]|].
  rewrite balance_line, Hd by done. lia.
Qed.

Lemma do_write_asked fuel tp m s :
  is_line tp -> byte_proc m -> io_ok s ->
  match do_write m_at fuel tp m s with (Ok _, s') => io_ok s' /\ balance s' = balance s + asked m | (Err _, _) => True end.
Proof.
  intros Htp Hm Hs. unfold do_write, line. rewrite bind_gets, bind_gets.
  destruct (bad_transfer _ _ m) as [r|] eqn:Eb; [by apply reply_asked; [| |eapply bad_transfer_some]|].
  apply bad_transfer_none in Eb as [Eb Hc]. destruct (Hs tp) as [Hi [Hl Hcum]]. unfold updl at 1. rewrite bind_modify.
  set (s1 := set_ts_line _ s).
  assert (H1 : io_ok s1 /\ balance s1 = balance s + asked m).
  { split; [apply io_ok_line; [done|done|unfold counts_ok; cbn; lia]|].
    change s1 with (line_change tp (set_tty_out (transfer_of m (cum (tty_out (ts_line s tp)))) (ts_line s tp)) s).
    rewrite balance_line by done. unfold debt. cbn -[working transfer_of].
    rewrite working_transfer, (working_zero (tty_out _)) by (done || lia). lia. }
  destruct H1 as [H1 B1]. rewrite <- B1.
  assert (Ep : for_proc (tty_out (ts_line s1 tp)) = PROC_NR m).
  { cbn. rewrite Z.eqb_refl. cbn. unfold wrap8. by rewrite Z.mod_small. }
  clearbody s1. clear Hs Hl Hcum Hi Eb B1 s. rename s1 into s, H1 into Hs.
  pose proof (handle_events_moves fuel tp Htp s Hs) as Hcalm. pose proof (keeps_handle_events m_at fuel tp s) as Hkeep.
  unfold bind at 1. destruct (handle_events m_at fuel tp s) as [[e|[]] s4]; [done|].
  destruct Hcalm as [H4 B4]. destruct (Hkeep tp) as (_ & E4 & _). rewrite Ep in E4. rewrite bind_gets. cbn beta zeta.
  destruct (Z.eqb_spec (left (tty_out (ts_line s4 tp))) 0) as [E|E]; [cbn; split; [done|lia]|].
  destruct (H4 tp) as [Hi [Hl Hc4]]. destruct (has (TTY_FLAGS m) O_NONBLOCK); unfold updl; rewrite bind_modify.
  - set (st := if 0 <? _ then _ else EAGAIN).
    assert (Hst : st <> SUSPEND) by (unfold st, SUSPEND, EAGAIN; destruct (Z.ltb_spec 0 (cum (tty_out (ts_line s4 tp)))); lia).
    destruct (balance_stop tp s4 s4 Htp H4) as [H5 B5]; [by split|].
    pose proof (reply_asked TASK_REPLY (m_source m) m st _ _ H5 eq_refl Hst) as H.
    destruct (tty_reply _ _ _ _ _) as [[e|[]] s6]; [done|]. destruct H as [H6 B6]. split; [done|].
    rewrite B6, B5, working_pos, E4 by lia. unfold asked. lia.
  - destruct (update_neutral tp (fun t => set_tty_out (set_repcode REVIVE (tty_out t)) t) s4 Htp H4) as [H5 B5]; [done|done|done|].
    pose proof (reply_suspend TASK_REPLY (m_source m) (PROC_NR m) _ H5) as H.
    destruct (tty_reply _ _ _ _ _) as [[e|[]] s6]; [done|]. destruct H as [H6 B6]. split; [done|]. lia.
Qed.

Lemma do_open_asked tp m s :
  is_line tp -> io_ok s ->
  match do_open tp m s with (Ok _, s') => io_ok s' /\ balance s' = balance s + asked m | (Err _, _) => True end.
Proof.
  intros Htp Hs. unfold do_open. set (c := if TTY_LINE m =? LOG_MINOR then _ else _).
  assert (Ha : aside c) by (unfold c; stand_aside).
  assert (Hr : match c s with (Ok r, _) => r <> SUSPEND | _ => True end).
  { unfold c. destruct (_ =? LOG_MINOR); [by destruct (has _ _)|]. unfold bind. destruct (has (COUNT m) O_NOCTTY); done. }
  specialize (Ha s). unfold bind. destruct (c s) as [[e|r] s1]; [done|].
  destruct (same_io_balance s s1 Ha Hs) as [H1 B1]. by apply reply_asked.
Qed.

Lemma do_close_asked tp m s :
  is_line tp -> io_ok s ->
  match do_close m_at tp m s with (Ok _, s') => io_ok s' /\ balance s' = balance s + asked m | (Err _, _) => True end.
Proof.
  intros Htp Hs. unfold do_close, close_line.
  match goal with |- match bind ?c _ _ with _ => _ end => assert (Ha : aside c) by stand_aside; set (c0 := c) in * end.
  specialize (Ha s). unfold bind at 1. destruct (c0 s) as [[e|[]] s1]; [done|].
  destruct (same_io_balance s s1 Ha Hs) as [H1 B1]. by apply reply_asked.
Qed.

(** An ioctl that has to wait for the output of the line. *)
Definition waits_for_output (tp : Z) (m : message) (s : tst P K) : bool :=
  let request := TTY_REQUEST m in
  let size := ioctl_size request in
  ((request =? TCSETSW) || (request =? TCSETSF) || (request =? TCDRAIN)) && (0 <? left (tty_out (ts_line s tp))) &&
  ((size =? 0) || (numap (ts_k s) (PROC_NR m) (ADDRESS m) size !=? 0)).

(** The waiting ioctl of [p] that the line remembers. *)
Definition io_debt (t : tty) : Z := of_bool ((ioreq (tty_io t) !=? 0) && (ioproc (tty_io t) =? p)).

Lemma ioctl_status_aside tp user_phys m (s : tst P K) :
  ((TTY_REQUEST m =? TCSETSW) || (TTY_REQUEST m =? TCSETSF) || (TTY_REQUEST m =? TCDRAIN)) &&
    (0 <? left (tty_out (ts_line s tp))) = false ->
  match ioctl_status m_at tp user_phys m s with (Ok r, s') => same_io s s' /\ r <> SUSPEND | (Err _, _) => True end.
Proof.
  intros Hw. unfold ioctl_status, line. rewrite bind_gets.
  assert (Hthen : forall A (c : TM A) r, aside c -> r <> SUSPEND -> forall s,
    match (c ;;; ret r) s with (Ok r, s') => same_io s s' /\ r <> SUSPEND | _ => True end).
  { intros A c r Hc Hr s0. specialize (Hc s0). unfold bind. destruct (c s0) as [[e|a] s1]; [done|]. by split. }
  destruct (_ =? TCGETS); [apply Hthen; [stand_aside|done]|].
  destruct (_ || _).
  { cbn [andb] in Hw. rewrite Hw. destruct (_ =? TCDRAIN); [by split|].
    pose proof (Hthen _ ((if TTY_REQUEST m =? TCSETSF then tty_icancel tp else ret tt) ;;; load_termios m_at tp user_phys) OK
      ltac:(stand_aside) ltac:(done) s) as H. by rewrite bind_assoc in H. }
  destruct (_ =? TCSETS); [apply Hthen; [stand_aside|done]|].
  destruct (_ =? TCFLSH).
  { unfold user_int. rewrite bind_gets. destruct (_ || _); [apply Hthen; [stand_aside|done]|]. by destruct (_ =? TCOFLUSH). }
  destruct (_ =? TCFLOW).
  { unfold user_int. rewrite bind_gets. repeat (match goal with |- match (if ?b then _ else _) _ with _ => _ end => destruct b end;
      [apply Hthen; [stand_aside|done]|]). done. }
  destruct (_ =? TCSBRK); [done|]. destruct (_ =? TIOCGWINSZ); [apply Hthen; [stand_aside|done]|].
  destruct (_ =? TIOCSWINSZ); [|done]. rewrite bind_gets. apply Hthen; [stand_aside|done].
Qed.

Lemma do_ioctl_asked tp m (s : tst P K) :
  is_line tp -> byte_proc m -> io_ok s ->
  match do_ioctl m_at tp m s with
  | (Ok _, s') => io_ok s' /\
      balance s' = balance s + asked m - if waits_for_output tp m s then io_debt (ts_line s tp) else 0
  | (Err _, _) => True
  end.
Proof.
  intros Htp Hm Hs. unfold do_ioctl. cbv zeta. rewrite bind_gets. set (size := ioctl_size (TTY_REQUEST m)).
  set (user_phys := if size =? 0 then 0 else _).
  assert (Hfault : (size !=? 0) && (user_phys =? 0) = negb ((size =? 0) || (numap (ts_k s) (PROC_NR m) (ADDRESS m) size !=? 0))).
  { unfold user_phys. destruct (size =? 0); [done|]. cbn. by rewrite negb_involutive. }
  rewrite Hfault. unfold waits_for_output. cbv zeta. fold size.
  destruct ((size =? 0) || _); cbn [negb]; cycle 1.
  { rewrite andb_false_r, Z.sub_0_r, bind_ret_l. by apply reply_asked. }
  rewrite andb_true_r. destruct ((_ || _) && _) eqn:Ew.
  - apply andb_true_iff in Ew as [Er Eo]. unfold ioctl_status, line. rewrite bind_assoc, bind_gets.
    assert (Eg : (TTY_REQUEST m =? TCGETS) = false).
    { destruct (Z.eqb_spec (TTY_REQUEST m) TCGETS) as [E|]; [|done]. rewrite E in Er. done. }
    rewrite Eg, Er, Eo, bind_assoc. unfold wait_ioctl, updl. rewrite bind_modify.
    set (io := IoWait _ _ _ _). set (s1 := set_ts_line _ s).
    assert (H1 : io_ok s1 /\ balance s1 = balance s + asked m - io_debt (ts_line s tp)).
    { split; [apply io_ok_line; [done|apply Hs..]|].
      change s1 with (line_change tp (set_tty_io io (ts_line s tp)) s). rewrite balance_line by done.
      unfold debt. cbn -[working]. unfold io_debt, asked. unfold wrap8. rewrite (Z.mod_small (PROC_NR m)) by done.
      assert (Hreq : (TTY_REQUEST m =? 0) = false).
      { destruct (Z.eqb_spec (TTY_REQUEST m) 0) as [E|]; [|done]. rewrite E in Er. done. }
      change (COUNT m) with (TTY_REQUEST m). rewrite Hreq. cbn [negb andb]. lia. }
    destruct H1 as [H1 B1]. rewrite bind_ret_l. pose proof (reply_suspend TASK_REPLY (m_source m) (PROC_NR m) s1 H1) as H.
    destruct (tty_reply _ _ _ _ s1) as [[e|[]] s2]; [done|]. destruct H as [H2 B2]. split; [done|]. lia.
  - pose proof (ioctl_status_aside tp user_phys m s Ew) as H. unfold bind.
    destruct (ioctl_status m_at tp user_phys m s) as [[e|r] s1]; [done|]. destruct H as [Ha Hr].
    destruct (same_io_balance s s1 Ha Hs) as [H1 B1]. rewrite Z.sub_0_r. by apply reply_asked.
Qed.

(** What a CANCEL ends: the transfers of its own process that it names. *)
Definition cancelled (m : message) (t : tty) : Z :=
  (if has (COUNT m) R_BIT && (PROC_NR m =? for_proc (tty_in t)) then working p (tty_in t) else 0) +
  (if has (COUNT m) W_BIT && (PROC_NR m =? for_proc (tty_out t)) then working p (tty_out t) else 0) +
  (if PROC_NR m =? ioproc (tty_io t) then io_debt t else 0).

(** A conditional update of the line that lowers its debt by [d]. *)
Lemma update_drop tp (b : bool) f d s :
  is_line tp -> io_ok s ->
  counts_ok (tty_in (f (ts_line s tp))) -> counts_ok (tty_out (f (ts_line s tp))) ->
  debt p (f (ts_line s tp)) = debt p (ts_line s tp) - d ->
  exists s', (if b then updl tp f else ret tt) s = (Ok tt, s') /\ io_ok s' /\
    balance s' = balance s - (if b then d else 0) /\ ts_line s' tp = if b then f (ts_line s tp) else ts_line s tp.
Proof.
  intros Htp Hs Hi Ho Hd. destruct b.
  - exists (line_change tp (f (ts_line s tp)) s). split; [done|]. split; [by apply io_ok_line|]. split.
    + rewrite balance_line, Hd by done. lia.
    + cbn. by rewrite Z.eqb_refl.
  - exists s. split_and!; [done|done|lia|done].
Qed.

Lemma do_cancel_asked tp m s :
  is_line tp -> io_ok s ->
  match do_cancel tp m s with
  | (Ok _, s') => io_ok s' /\ balance s' = balance s + asked m - cancelled m (ts_line s tp)
  | (Err _, _) => True
  end.
Proof.
  intros Htp Hs. unfold do_cancel, line. rewrite bind_gets. cbv zeta. set (t := ts_line s tp).
  destruct (Hs tp) as [[Hl Hc] [Hl2 Hc2]]. fold t in Hl, Hc, Hl2, Hc2.
  set (bR := has (COUNT m) R_BIT && negb (left (tty_in t) =? 0) && (PROC_NR m =? for_proc (tty_in t))).
  set (bW := has (COUNT m) W_BIT && negb (left (tty_out t) =? 0) && (PROC_NR m =? for_proc (tty_out t))).
  set (bI := negb (ioreq (tty_io t) =? 0) && (PROC_NR m =? ioproc (tty_io t))).
  assert (A : exists s1, (if bR then tty_icancel tp ;;; finish_read tp else ret tt) s = (Ok tt, s1) /\ io_ok s1 /\
    balance s1 = balance s - (if bR then working p (tty_in t) else 0) /\
    tty_out (ts_line s1 tp) = tty_out t /\ tty_io (ts_line s1 tp) = tty_io t).
  { destruct bR; [|exists s; split_and!; [done|done|lia|done|done]]. unfold tty_icancel, updl at 1. rewrite bind_modify.
    set (s0 := set_ts_line _ s).
    destruct (update_neutral tp flush_input s Htp Hs) as [H0 B0]; [done|done|done|].
    pose proof (finish_read_moves tp s0 Htp H0) as H. destruct (finish_read tp s0) as [[e|[]] s1]; [done|].
    destruct H as (H1 & B1 & L1). exists s1. split; [done|]. split; [done|]. rewrite B1, L1.
    assert (E0 : ts_line s0 tp = flush_input t) by (cbn; by rewrite Z.eqb_refl).
    rewrite E0. split_and!; [|done|done]. change (tty_in (flush_input t)) with (tty_in t). unfold line_change in B0.
    fold s0 in B0. lia. }
  destruct A as (s1 & E1 & H1 & B1 & O1 & I1). rewrite (bind_ok _ _ _ _ _ E1).
  destruct (update_drop tp bW (fun t => set_tty_out (set_cum 0 (set_left 0 (tty_out t))) t) (working p (tty_out t)) s1)
    as (s2 & E2 & H2 & B2 & L2); [done|done|apply H1|done| |].
  { unfold debt. cbn -[working]. change (working p (set_cum 0 _)) with 0. rewrite O1. lia. }
  rewrite (bind_ok _ _ _ _ _ E2).
  assert (I2 : tty_io (ts_line s2 tp) = tty_io t) by (rewrite L2, <- I1; by destruct bW).
  destruct (update_drop tp bI (fun t => set_tty_io (set_ioreq 0 (tty_io t)) t) (io_debt t) s2)
    as (s3 & E3 & H3 & B3 & L3); [done|done|apply H2|apply H2| |].
  { unfold debt, io_debt. cbn -[working]. rewrite I2. lia. }
  rewrite (bind_ok _ _ _ _ _ E3). unfold updl. rewrite bind_modify.
  destruct (update_neutral tp (set_tty_events true) s3 Htp H3) as [H4 B4]; [done|done|done|]. unfold line_change in H4, B4.
  pose proof (reply_asked TASK_REPLY (m_source m) m EINTR _ _ H4 B4 ltac:(done)) as H.
  destruct (tty_reply _ _ _ _ _) as [[e|[]] s5]; [done|]. destruct H as [H5 B5]. split; [done|].
  assert (HR : (if bR then working p (tty_in t) else 0) =
    if has (COUNT m) R_BIT && (PROC_NR m =? for_proc (tty_in t)) then working p (tty_in t) else 0).
  { unfold bR. destruct (has (COUNT m) R_BIT); [|done]. destruct (Z.eqb_spec (left (tty_in t)) 0) as [E|]; [|done].
    rewrite (working_zero _ E). by destruct (_ =? _). }
  assert (HW : (if bW then working p (tty_out t) else 0) =
    if has (COUNT m) W_BIT && (PROC_NR m =? for_proc (tty_out t)) then working p (tty_out t) else 0).
  { unfold bW. destruct (has (COUNT m) W_BIT); [|done]. destruct (Z.eqb_spec (left (tty_out t)) 0) as [E|]; [|done].
    rewrite (working_zero _ E). by destruct (PROC_NR m =? for_proc (tty_out t)). }
  assert (HI : (if bI then io_debt t else 0) = if PROC_NR m =? ioproc (tty_io t) then io_debt t else 0).
  { unfold bI, io_debt. by destruct (ioreq (tty_io t) =? 0), (PROC_NR m =? ioproc (tty_io t)). }
  unfold cancelled. lia.
Qed.

(** ** Requests and turns *)
Definition is_request (m : message) : bool := negb ((m_type m =? HARD_INT) && (m_source m =? HARDWARE)).

(** Work of [p] that ends without an answer: cancelled, or forgotten because
    another ioctl began to wait on the same line. *)
Definition dropped (m : message) (s : tst P K) : Z :=
  match line_of_minor (TTY_LINE m) with
  | Some tp =>
      if m_type m =? CANCEL then cancelled m (ts_line s tp)
      else if (m_type m =? DEV_IOCTL) && waits_for_output tp m s then io_debt (ts_line s tp) else 0
  | None => 0
  end.

Lemma line_of_minor_ok minor tp : line_of_minor minor = Some tp -> is_line tp.
Proof.
  unfold line_of_minor, is_line, NR_CONS, NR_RS_LINES, RS232_MINOR. pose proof (wrap32_range minor).
  destruct (Z.ltb_spec (wrap32 minor) 2); [intros [= <-]; lia|]. destruct (_ =? LOG_MINOR); [intros [= <-]; lia|].
  destruct (Z.ltb_spec (wrap32 minor -u 16) 2) as [H2|]; [|done]. intros [= <-].
  destruct (Z.lt_ge_cases (wrap32 minor) 16); [|rewrite wrap32_small in H2 by lia; lia].
  replace (wrap32 minor -u 16) with (wrap32 minor - 16 + 4294967296) in H2; [lia|].
  unfold wrap32 at 2. apply (Z.mod_unique _ _ (-1)); lia.
Qed.

Lemma tty_request_asked fuel m s :
  byte_proc m -> io_ok s -> (forall tp, line_of_minor (TTY_LINE m) = Some tp -> tty_dev (ts_line s tp) <> NoDevice) ->
  match tty_request m_at fuel m s with
  | (Ok _, s') => io_ok s' /\
      balance s' = balance s + (if is_request m then asked m - dropped m s else 0)
  | (Err _, _) => True
  end.
Proof.
  intros Hm Hs Hdev. unfold tty_request, is_request. destruct (_ && _); cbn [negb]; [cbn; split; [done|lia]|].
  unfold dropped. destruct (line_of_minor _) as [tp|] eqn:El; [|rewrite Z.sub_0_r; by apply reply_asked].
  pose proof (line_of_minor_ok _ _ El) as Htp. unfold line. rewrite bind_gets.
  assert (Hd : match tty_dispatch m_at fuel tp m s with
    | (Ok _, s') => io_ok s' /\ balance s' = balance s + (asked m -
        (if m_type m =? CANCEL then cancelled m (ts_line s tp)
         else if (m_type m =? DEV_IOCTL) && waits_for_output tp m s then io_debt (ts_line s tp) else 0))
    | (Err _, _) => True end).
  { unfold tty_dispatch.
    destruct (Z.eqb_spec (m_type m) DEV_READ) as [->|]; [cbn; rewrite Z.sub_0_r; by apply do_read_asked|].
    destruct (Z.eqb_spec (m_type m) DEV_WRITE) as [->|]; [cbn; rewrite Z.sub_0_r; by apply do_write_asked|].
    destruct (Z.eqb_spec (m_type m) DEV_IOCTL) as [->|].
    { cbn [andb]. change (DEV_IOCTL =? CANCEL) with false. cbv iota. rewrite Z.add_sub_assoc. by apply do_ioctl_asked. }
    destruct (Z.eqb_spec (m_type m) DEV_OPEN) as [->|]; [cbn; rewrite Z.sub_0_r; by apply do_open_asked|].
    destruct (Z.eqb_spec (m_type m) DEV_CLOSE) as [->|]; [cbn; rewrite Z.sub_0_r; by apply do_close_asked|].
    cbn [andb]. destruct (Z.eqb_spec (m_type m) CANCEL) as [_|]; [rewrite Z.add_sub_assoc; by apply do_cancel_asked|].
    rewrite Z.sub_0_r. by apply reply_asked. }
  by destruct (tty_dev (ts_line s tp)) eqn:Edev; [destruct (Hdev tp eq_refl)| |].
Qed.

Lemma moves_for {A} n i (body : Z -> A -> TM A) a :
  (forall j a, i <= j < i + Z.of_nat n -> moves 0 (body j a)) -> moves 0 (for_ n i body a).
Proof.
  revert i a. induction n as [|n IH]; intros i a Hb; cbn [for_]; [apply moves_ret|].
  apply moves_before; [apply Hb; lia|]. intros a'. apply IH. intros j b Hj. apply Hb. lia.
Qed.

Lemma procs_for {A} n i (body : Z -> A -> TM A) a : (forall j a, keeps (body j a)) -> keeps (for_ n i body a).
Proof.
  revert i a. induction n as [|n IH]; intros i a Hb; cbn [for_]; [apply keeps_aside, aside_ret|].
  apply procs_bind; [apply Hb|]. intros a'. by apply IH.
Qed.

Lemma pending_events_moves fuel : moves 0 (pending_events m_at fuel).
Proof.
  apply moves_for. intros tp _ Htp. apply moves_before; [apply moves_aside, aside_line|]. intros t.
  apply moves_if; [apply handle_events_moves; unfold is_line; lia|apply moves_ret].
Qed.

Lemma pending_events_keeps fuel : keeps (P := P) (K := K) (pending_events m_at fuel).
Proof.
  apply procs_for. intros tp _. apply procs_bind; [apply keeps_aside, aside_line|]. intros t.
  destruct (tty_events t); [apply keeps_handle_events|apply keeps_aside, aside_ret].
Qed.

(** C24: every request to a terminal is answered exactly once.  For every process
    the number of its answered requests plus the number of its reads, writes and
    ioctls in progress does not change while the task handles keyboard input,
    output and timers, and grows by one with each request of that process and by
    nothing else; only work that the process cancels, and a waiting ioctl that a
    second one on the same line overwrites, ends without an answer. *)
Theorem tty_answers fuel m s :
  byte_proc m -> io_ok s -> (forall tp, is_line tp -> tty_dev (ts_line s tp) <> NoDevice) ->
  match tty_turn m_at fuel m s with
  | (Ok _, s') => exists s1, pending_events m_at fuel s = (Ok tt, s1) /\ io_ok s1 /\ balance s1 = balance s /\
      io_ok s' /\ balance s' = balance s + (if is_request m then asked m - dropped m s1 else 0)
  | (Err _, _) => True
  end.
Proof.
  intros Hm Hs Hdev. unfold tty_turn. pose proof (pending_events_moves fuel s Hs) as H1.
  pose proof (pending_events_keeps fuel s) as Hk. unfold bind.
  destruct (pending_events m_at fuel s) as [[e|[]] s1]; [done|]. destruct H1 as [H1 B1].
  pose proof (tty_request_asked fuel m s1 Hm H1) as H2.
  destruct (tty_request m_at fuel m s1) as [[e|a] s2]; [done|]. exists s1. split; [done|].
  destruct H2 as [H2 B2].
  - intros tp Htp. destruct (Hk tp) as (_ & _ & ->). apply Hdev. by apply line_of_minor_ok in Htp.
  - split_and!; [done|lia|done|lia].
Qed.
End Moves.

(** ** A console with a line being typed *)
Module TtyDemo.
#[export] Instance key_queue : Keyboard (list Z) := {
  cardputer_keyboard_interrupt_asserted := fun k => (match k with [] => false | _ => true end, k);
  cp32_read_keyboard_event := fun k => match k with [] => (0, 0, []) | e :: k => (1, e, k) end }.
#[export] Instance all_sent : SendTrap := { send_status := fun _ _ => 0 }.

Definition kernel : kst := upd 11 (set_p_map [Map 0x3fc90000 0x3fc90 16]) KDemo.state.
Definition boot_cst : cst := Cst (Tasks kernel 0) (boot_clock (Clock 0 0 0 0 (fun _ => NoWatchdog) false (fun _ => false) 0 0 0 0)).
Definition boot (typed : list Z) : tst (Z -> Z -> Z) (list Z) :=
  Tst boot_cst (fun tp => tty_init tp zero_tty) [] TIME_NEVER (Keymods false false false false)
    (cardputer_display_clear (boot_display, fun _ _ => 0)) typed [].
(** h, i, backspace, o and Enter are pressed (bit 7 of the event). *)
Definition typed : list Z := [128 + 37; 128 + 42; 128 + 65; 128 + 46; 128 + 67].
Definition request (type count flags : Z) : message :=
  set_word 0 FS_PROC_NR (set_word 1 type (set_word 3 FS_PROC_NR (set_word 4 count (set_word 6 flags
    (set_word 7 0x3fc90100 clear_message))))).
Abbreviation turn m s := (tty_turn 0x3fcef000 10 m s).
Abbreviation read := (request DEV_READ 10 0).

Lemma boot_io_ok k : io_ok (boot k).
Proof. intros i. cbn. destruct (i <? 2); done. Qed.

Lemma boot_devices k tp : is_line tp -> tty_dev (ts_line (boot k) tp) <> NoDevice.
Proof. intros _. cbn. by destruct (tp <? NR_CONS). Qed.

Lemma tty_answers_witness :
  r_status (hd (Reply 0 0 0 0) (ts_replies (snd (turn read (boot typed))))) = 3 /\
  exists s', turn read (boot typed) = (Ok tt, s') /\ balance 1 s' = 1.
Proof.
  split; [vm_compute; reflexivity|].
  pose proof (tty_answers (P := Z -> Z -> Z) (K := list Z) 0x3fcef000 1 10 read (boot typed)) as H.
  assert (E : fst (turn read (boot typed)) = Ok tt) by (vm_compute; reflexivity).
  apply run_ok in E. rewrite E in H. eexists. split; [exact E|].
  destruct H as (s1 & _ & _ & _ & _ & B); [split; done|apply boot_io_ok|intros tp Htp; by apply boot_devices|].
  rewrite B. assert (B0 : balance 1 (boot typed) = 0) by reflexivity. rewrite B0. clear.
  assert (G : forall s1 : tst (Z -> Z -> Z) (list Z), dropped 1 read s1 = 0) by reflexivity. rewrite G. reflexivity.
Defined.
End TtyDemo.
