(* ===== verification/TtyQueue.v ===== *)
(** * The input queue and the line editor of a terminal

    [tty_inbuf] with its two pointers is a queue of at most 256 entries
    ([queue_ok], [view]).  On it input processing is an editor of lines
    ([edit_char]): the ring, the echo and its lengths, the reprints and the
    timers do not show. *)
From S2P Require Import Prelude Codec Kconst Ktypes Sched Ipc IpcSpec Message Signals Clock Display Tty TtyIn TtyTask TtyReply.

(** ** Entries *)
Definition strip (e : Z) : Z := Z.land e (Z.lnot IN_LEN).
Definition is_eot (e : Z) : bool := has e IN_EOT.
Definition is_entry (e : Z) : Prop := 0 <= e < 65536.

Lemma strip_land e m : Z.land (Z.lnot IN_LEN) m = m -> Z.land (strip e) m = Z.land e m.
Proof. intros H. unfold strip. by rewrite <- Z.land_assoc, H. Qed.

Lemma strip_eot e : is_eot (strip e) = is_eot e.
Proof. unfold is_eot, has. by rewrite strip_land. Qed.
Lemma strip_eof e : has (strip e) IN_EOF = has e IN_EOF.
Proof. unfold has. by rewrite strip_land. Qed.
Lemma strip_char e : Z.land (strip e) IN_CHAR = Z.land e IN_CHAR.
Proof. by apply strip_land. Qed.
Lemma strip_strip e : strip (strip e) = strip e.
Proof. unfold strip. rewrite <- Z.land_assoc. by rewrite Z.land_diag. Qed.

Lemma land_entry e m : is_entry e -> is_entry (Z.land e m).
Proof.
  unfold is_entry. intros [H1 H2]. split; [apply Z.land_nonneg; by left|].
  destruct (Z.eq_dec (Z.land e m) 0) as [->|Hne]; [lia|].
  apply (Z.log2_lt_cancel (Z.land e m) 65536). change (Z.log2 65536) with 16.
  assert (Hnn : 0 <= Z.land e m) by (apply Z.land_nonneg; by left).
  destruct (Z.lt_ge_cases (Z.log2 (Z.land e m)) 16) as [|Hge]; [done|exfalso].
  pose proof (Z.bit_log2 (Z.land e m) ltac:(lia)) as Hb. rewrite Z.land_spec in Hb.
  apply andb_true_iff in Hb as [Hb _]. rewrite Z.bits_above_log2 in Hb; [done|lia|].
  destruct (Z.eq_dec e 0) as [->|]; [change (Z.log2 0) with 0; lia|].
  pose proof (proj1 (Z.log2_lt_pow2 e 16 ltac:(lia)) ltac:(lia)). lia.
Qed.

Lemma lor_entry a b : is_entry a -> is_entry b -> is_entry (Z.lor a b).
Proof.
  unfold is_entry. intros [? ?] [? ?]. split; [apply Z.lor_nonneg; lia|].
  destruct (Z.eq_dec (Z.lor a b) 0) as [->|]; [lia|]. assert (0 <= Z.lor a b) by (apply Z.lor_nonneg; lia).
  apply (Z.log2_lt_cancel (Z.lor a b) 65536). change (Z.log2 65536) with 16. rewrite Z.log2_lor by lia.
  apply Z.max_lub_lt; [destruct (Z.eq_dec a 0) as [->|]|destruct (Z.eq_dec b 0) as [->|]];
    try (change (Z.log2 0) with 0; lia); apply Z.log2_lt_pow2; lia.
Qed.

Lemma strip_entry e : is_entry e -> is_entry (strip e).
Proof. apply land_entry. Qed.

(** The echo length does not disturb the rest of the entry. *)
Lemma strip_length e len : 0 <= len <= 8 -> strip (Z.lor (strip e) (Z.shiftl len IN_LSHIFT)) = strip e.
Proof.
  intros H. unfold strip at 1. rewrite Z.land_lor_distr_l. change (Z.land (strip e) (Z.lnot IN_LEN)) with (strip (strip e)).
  rewrite strip_strip. replace (Z.land (Z.shiftl len IN_LSHIFT) (Z.lnot IN_LEN)) with 0; [apply Z.lor_0_r|].
  assert (len = 0 \/ len = 1 \/ len = 2 \/ len = 3 \/ len = 4 \/ len = 5 \/ len = 6 \/ len = 7 \/ len = 8) as Hl by lia.
  by repeat destruct Hl as [->|Hl]; [..|subst].
Qed.

Lemma length_entry len : 0 <= len <= 8 -> is_entry (Z.shiftl len IN_LSHIFT).
Proof. intros H. rewrite Z.shiftl_mul_pow2 by (unfold IN_LSHIFT; lia). unfold is_entry, IN_LSHIFT. lia. Qed.

(** ** The ring *)
Definition slot (q : inq) (i : Z) : Z := nthZ (inbuf q) ((intail q + i) mod TTY_IN_BYTES).
Definition view (q : inq) : list Z := map (fun i => slot q (Z.of_nat i)) (seq 0 (Z.to_nat (incount q))).
Definition eots (l : list Z) : Z := lenZ (List.filter is_eot l).

Record queue_ok (q : inq) : Prop := {
  qo_buf : lenZ (inbuf q) = TTY_IN_BYTES;
  qo_tail : 0 <= intail q < TTY_IN_BYTES;
  qo_count : 0 <= incount q <= TTY_IN_BYTES;
  qo_head : inhead q = (intail q + incount q) mod TTY_IN_BYTES;
  qo_eots : eotct q = eots (view q);
  qo_entries : Forall is_entry (inbuf q) }.

Lemma length_view q : queue_ok q -> lenZ (view q) = incount q.
Proof. intros H. unfold view, lenZ. rewrite length_map, length_seq. pose proof (qo_count _ H). lia. Qed.

Lemma incr_mod i : 0 <= i < TTY_IN_BYTES -> incr i = (i + 1) mod TTY_IN_BYTES.
Proof.
  unfold incr, TTY_IN_BYTES. intros H. destruct (Z.eqb_spec (i + 1) 256) as [->|]; [done|]. by rewrite Z.mod_small by lia.
Qed.

Lemma decr_mod i : 0 <= i < TTY_IN_BYTES -> decr i = (i - 1) mod TTY_IN_BYTES.
Proof.
  unfold decr, TTY_IN_BYTES. intros H. destruct (Z.eqb_spec i 0) as [->|]; [done|]. by rewrite Z.mod_small by lia.
Qed.

Lemma eots_app l k : eots (l ++ k) = eots l + eots k.
Proof. unfold eots. by rewrite List.filter_app, lenZ_app. Qed.
Lemma eots_one e : eots [e] = of_bool (is_eot e).
Proof. unfold eots. cbn. by destruct (is_eot e). Qed.
Lemma eots_nonneg l : 0 <= eots l.
Proof. apply lenZ_nonneg. Qed.

Lemma view_ext q q' :
  incount q' = incount q -> (forall i, 0 <= i < incount q -> slot q' i = slot q i) -> view q' = view q.
Proof.
  intros Hc H. unfold view. rewrite Hc. apply map_ext_in. intros i Hi. apply in_seq in Hi. apply H. lia.
Qed.

Lemma view_snoc q n :
  0 <= n -> map (fun i => slot q (Z.of_nat i)) (seq 0 (Z.to_nat (n + 1))) =
  map (fun i => slot q (Z.of_nat i)) (seq 0 (Z.to_nat n)) ++ [slot q n].
Proof.
  intros H. replace (Z.to_nat (n + 1)) with (Z.to_nat n + 1)%nat by lia. rewrite seq_app, map_app. cbn. by rewrite Z2Nat.id by lia.
Qed.

(** The slots of a queue are different places of the buffer. *)
Lemma slot_inj a i j : 0 <= i < 256 -> 0 <= j < 256 -> i <> j -> (a + i) mod 256 <> (a + j) mod 256.
Proof.
  intros Hi Hj Hne E. apply Hne. pose proof (Z.div_mod (a + i) 256 ltac:(lia)). pose proof (Z.div_mod (a + j) 256 ltac:(lia)). lia.
Qed.

(** Storing at the head. *)
Definition push (e : Z) (q : inq) : inq :=
  let q := set_inbuf (updZ (inbuf q) (inhead q) (wrap16 e)) q in
  let q := set_incount (incount q + 1) (set_inhead (incr (inhead q)) q) in
  if is_eot e then set_eotct (eotct q + 1) q else q.

Lemma push_ok e q :
  queue_ok q -> is_entry e -> incount q < TTY_IN_BYTES -> queue_ok (push e q) /\ view (push e q) = view q ++ [e].
Proof.
  intros [Hb Ht Hc Hh He Hf] Hent Hroom. unfold TTY_IN_BYTES in *.
  assert (Hw : wrap16 e = e) by (unfold wrap16; apply Z.mod_small; unfold is_entry in *; lia).
  assert (Hhead : 0 <= inhead q < 256) by (rewrite Hh; apply Z.mod_pos_bound; lia).
  set (q1 := set_incount (incount q + 1) (set_inhead (incr (inhead q)) (set_inbuf (updZ (inbuf q) (inhead q) (wrap16 e)) q))).
  assert (Hs : forall i, 0 <= i < incount q -> slot q1 i = slot q i).
  { intros i Hi. unfold slot, TTY_IN_BYTES. cbn. apply nthZ_upd_ne; [lia|apply Z.mod_pos_bound; lia|].
    rewrite Hh. apply slot_inj; lia. }
  assert (Hl : slot q1 (incount q) = e).
  { unfold slot, TTY_IN_BYTES. cbn. rewrite <- Hh, Hw. apply nthZ_upd_eq. lia. }
  assert (Hv : view q1 = view q ++ [e]).
  { unfold view. cbn [incount q1 set_incount]. rewrite view_snoc, Hl by lia. f_equal. apply map_ext_in. intros i Hi.
    apply in_seq in Hi. apply Hs. lia. }
  assert (Hp : view (push e q) = view q ++ [e]).
  { unfold push. fold q1. by destruct (is_eot e). }
  split; [|done]. split.
  - unfold push. destruct (is_eot e); cbn; by rewrite lenZ_upd.
  - unfold push. by destruct (is_eot e).
  - unfold push, TTY_IN_BYTES. destruct (is_eot e); cbn; lia.
  - assert (E : incr (inhead q) = (intail q + (incount q + 1)) mod TTY_IN_BYTES).
    { rewrite incr_mod by (unfold TTY_IN_BYTES; lia). rewrite Hh. unfold TTY_IN_BYTES.
      rewrite Zplus_mod_idemp_l. f_equal. lia. }
    unfold push. by destruct (is_eot e).
  - rewrite Hp, eots_app, eots_one, <- He. unfold push. destruct (is_eot e); cbn; lia.
  - unfold push. destruct (is_eot e); cbn; unfold updZ; apply Forall_insert; try done; by rewrite Hw.
Qed.

(** Taking back the last entry, and taking out the first one. *)
Definition pop_last (q : inq) : inq := set_incount (incount q - 1) (set_inhead (decr (inhead q)) q).
Definition pop_first (q : inq) : inq :=
  let e := nthZ (inbuf q) (intail q) in
  let q := set_incount (incount q - 1) (set_intail (incr (intail q)) q) in
  if is_eot e then set_eotct (eotct q - 1) q else q.

Lemma view_last q :
  queue_ok q -> 0 < incount q -> view q = view (pop_last q) ++ [nthZ (inbuf q) (decr (inhead q))].
Proof.
  intros [Hb Ht Hc Hh He Hf] Hpos. unfold TTY_IN_BYTES in *.
  assert (Hhead : 0 <= inhead q < 256) by (rewrite Hh; apply Z.mod_pos_bound; lia).
  unfold view at 1. replace (incount q) with (incount q - 1 + 1) by lia. rewrite view_snoc by lia. f_equal. f_equal.
  rewrite decr_mod by (unfold TTY_IN_BYTES; lia). unfold slot, TTY_IN_BYTES. f_equal. rewrite Hh.
  rewrite Zminus_mod_idemp_l. f_equal. lia.
Qed.

Lemma pop_last_ok q :
  queue_ok q -> 0 < incount q -> is_eot (nthZ (inbuf q) (decr (inhead q))) = false -> queue_ok (pop_last q).
Proof.
  intros H Hpos Hn. pose proof (view_last q H Hpos) as Hv. destruct H as [Hb Ht Hc Hh He Hf]. unfold TTY_IN_BYTES in *.
  assert (Hhead : 0 <= inhead q < 256) by (rewrite Hh; apply Z.mod_pos_bound; lia).
  split; cbn; unfold TTY_IN_BYTES; [done|done|lia| | |done].
  - rewrite decr_mod by (unfold TTY_IN_BYTES; lia). rewrite Hh. unfold TTY_IN_BYTES. rewrite Zminus_mod_idemp_l. f_equal. lia.
  - rewrite He, Hv, eots_app, eots_one, Hn. cbn. lia.
Qed.

Lemma view_first q : queue_ok q -> 0 < incount q -> view q = nthZ (inbuf q) (intail q) :: view (pop_first q).
Proof.
  intros [Hb Ht Hc Hh He Hf] Hpos. unfold TTY_IN_BYTES in *.
  assert (E : view (pop_first q) = map (fun i => slot q (Z.of_nat (S i))) (seq 0 (Z.to_nat (incount q - 1)))).
  { assert (Eq : forall b : bool, view (if b then set_eotct (eotct q - 1) (set_incount (incount q - 1) (set_intail (incr (intail q)) q))
      else set_incount (incount q - 1) (set_intail (incr (intail q)) q)) = map (fun i => slot q (Z.of_nat (S i))) (seq 0 (Z.to_nat (incount q - 1)))).
    { intros b. unfold view. destruct b; cbn [incount set_incount set_eotct]; apply map_ext; intros i;
        unfold slot; cbn [inbuf intail set_incount set_intail set_eotct]; rewrite incr_mod by (unfold TTY_IN_BYTES; lia); unfold TTY_IN_BYTES;
        rewrite Zplus_mod_idemp_l; do 2 f_equal; lia. }
    apply Eq. }
  rewrite E. unfold view. replace (Z.to_nat (incount q)) with (S (Z.to_nat (incount q - 1))) by lia.
  cbn [seq map]. rewrite <- seq_shift, map_map. f_equal. unfold slot, TTY_IN_BYTES. f_equal. rewrite Z.add_0_r. by apply Z.mod_small.
Qed.

Lemma pop_first_ok q : queue_ok q -> 0 < incount q -> queue_ok (pop_first q).
Proof.
  intros H Hpos. pose proof (view_first q H Hpos) as Hv. destruct H as [Hb Ht Hc Hh He Hf]. unfold TTY_IN_BYTES in *.
  assert (Et : incr (intail q) = (intail q + 1) mod 256) by (by apply incr_mod).
  set (e := nthZ (inbuf q) (intail q)) in *.
  assert (Hev : eots (view (pop_first q)) = eotct q - of_bool (is_eot e)).
  { rewrite He, Hv. change (e :: view (pop_first q)) with ([e] ++ view (pop_first q)). rewrite eots_app, eots_one. lia. }
  unfold pop_first in *. fold e in Hev |- *.
  split; [by destruct (is_eot e)| | | | |by destruct (is_eot e)].
  - destruct (is_eot e); cbn; rewrite Et; apply Z.mod_pos_bound; done.
  - destruct (is_eot e); cbn; unfold TTY_IN_BYTES; lia.
  - assert (Eh : inhead q = (incr (intail q) + (incount q - 1)) mod TTY_IN_BYTES).
    { rewrite Et, Hh. unfold TTY_IN_BYTES. rewrite Zplus_mod_idemp_l. f_equal. lia. }
    by destruct (is_eot e).
  - rewrite Hev. destruct (is_eot e); cbn; lia.
Qed.

(** ** Echoing leaves the queue alone *)
Definition frame (t t' : tty) : Prop :=
  tty_dev t' = tty_dev t /\ tty_termios t' = tty_termios t /\ tty_escaped t' = tty_escaped t /\
  tty_inhibited t' = tty_inhibited t /\ tty_in t' = tty_in t /\ tty_min t' = tty_min t /\ tty_pgrp t' = tty_pgrp t.

#[export] Instance frame_preorder : PreOrder frame.
Proof.
  split; [by intros t|]. intros t1 t2 t3 (A1 & A2 & A3 & A4 & A5 & A6 & A7) (B1 & B2 & B3 & B4 & B5 & B6 & B7).
  repeat split; congruence.
Qed.

(** A queue in which only echo lengths differ. *)
Record same_queue (q q' : inq) : Prop := {
  sq_head : inhead q' = inhead q; sq_tail : intail q' = intail q;
  sq_count : incount q' = incount q; sq_eots : eotct q' = eotct q;
  sq_length : lenZ (inbuf q') = lenZ (inbuf q);
  sq_entries : Forall is_entry (inbuf q) -> Forall is_entry (inbuf q');
  sq_strip : forall i, strip (nthZ (inbuf q') i) = strip (nthZ (inbuf q) i) }.

#[export] Instance same_queue_preorder : PreOrder same_queue.
Proof.
  split; [by intros q|]. intros q1 q2 q3 [A1 A2 A3 A4 A5 A6 A7] [B1 B2 B3 B4 B5 B6 B7].
  split; [congruence|congruence|congruence|congruence|congruence|auto|]. intros i. by rewrite B7.
Qed.

Definition contents (q : inq) : list Z := map strip (view q).

Lemma contents_eots q q' : same_queue q q' -> contents q' = contents q.
Proof.
  intros H. unfold contents, view. rewrite (sq_count _ _ H), !map_map. apply map_ext. intros i.
  unfold slot. rewrite (sq_tail _ _ H). apply (sq_strip _ _ H).
Qed.

Lemma eots_strip l : eots (map strip l) = eots l.
Proof.
  unfold eots. induction l as [|e l IH]; [done|]. cbn. rewrite strip_eot. unfold lenZ in *.
  destruct (is_eot e); cbn [length]; lia.
Qed.

Lemma same_queue_ok q q' : queue_ok q -> same_queue q q' -> queue_ok q'.
Proof.
  intros [Hb Ht Hc Hh He Hf] H. pose proof (contents_eots q q' H) as Hv. destruct H.
  split; [congruence|congruence|congruence|congruence| |auto].
  rewrite sq_eots0, He, <- (eots_strip (view q)), <- (eots_strip (view q')). unfold contents in Hv. by rewrite Hv.
Qed.

Section Editing.
Context {P K : Type} `{PANEL : Panel P} `{KBD : Keyboard K} `{TRAP : SendTrap} `{SIG : SigSet}.
Context (m_at tp : Z).
Abbreviation TM := (M (tst P K)).
Abbreviation here s := (ts_line s tp).

(** [c] only shows something on the console. *)
Definition shows {A} (c : TM A) (Q : A -> Prop) : Prop := forall s, tty_dev (here s) = Console ->
  exists a s', c s = (Ok a, s') /\ frame (here s) (here s') /\ tty_q (here s') = tty_q (here s) /\ Q a.
(** [c] may change echo lengths in the queue. *)
Definition redraws {A} (c : TM A) (Q : A -> Prop) : Prop := forall s,
  tty_dev (here s) = Console -> queue_ok (tty_q (here s)) ->
  exists a s', c s = (Ok a, s') /\ frame (here s) (here s') /\ same_queue (tty_q (here s)) (tty_q (here s')) /\ Q a.
(** [c] edits the contents of the queue. *)
Definition edits {A} (c : TM A) (f : list Z -> list Z) (Q : list Z -> A -> Prop) : Prop :=
  forall s, tty_dev (here s) = Console -> queue_ok (tty_q (here s)) ->
  exists a s', c s = (Ok a, s') /\ frame (here s) (here s') /\ queue_ok (tty_q (here s')) /\
    contents (tty_q (here s')) = f (contents (tty_q (here s))) /\ Q (contents (tty_q (here s))) a.

Lemma shows_ret {A} (a : A) (Q : A -> Prop) : Q a -> shows (ret a) Q.
Proof. intros H s _. by exists a, s. Qed.

Lemma shows_bind {A B} (c : TM A) (k : A -> TM B) Q R :
  shows c Q -> (forall a, Q a -> shows (k a) R) -> shows (bind c k) R.
Proof.
  intros Hc Hk s Hs. destruct (Hc s Hs) as (a & s1 & E1 & F1 & Q1 & HQ).
  destruct (Hk a HQ s1) as (b & s2 & E2 & F2 & Q2 & HR); [by rewrite (proj1 F1)|].
  exists b, s2. rewrite (bind_ok _ _ _ _ _ E1). split_and!; [done|by etransitivity|congruence|done].
Qed.

Lemma shows_weaken {A} (c : TM A) (Q R : A -> Prop) : shows c Q -> (forall a, Q a -> R a) -> shows c R.
Proof. intros H HQ s Hs. destruct (H s Hs) as (a & s' & ? & ? & ? & ?). exists a, s'. auto. Qed.

Lemma shows_gets {A B} (f : tst P K -> A) (k : A -> TM B) R :
  (forall a, shows (k a) R) -> shows (bind (gets f) k) R.
Proof. intros H s Hs. rewrite bind_gets. by apply H. Qed.

Lemma shows_updl f : (forall t, frame t (f t)) -> (forall t, tty_q (f t) = tty_q t) -> shows (updl tp f) (fun _ => True).
Proof. intros Hf Hq s _. exists tt. eexists. split; [done|]. cbn. rewrite Z.eqb_refl. auto. Qed.

Lemma shows_screen f : shows (on_screen f) (fun _ => True).
Proof. intros s _. exists tt. eexists. split; [done|]. split; [done|]. done. Qed.

Lemma shows_if {A} (b : bool) (c c' : TM A) Q : shows c Q -> shows c' Q -> shows (if b then c else c') Q.
Proof. by destruct b. Qed.

Lemma shows_processed ch : shows (processed tp ch) (fun _ => True).
Proof.
  intros s _. unfold processed, expand, out_process. destruct (out_loop _ _ _ _ _ _) as [[[? ?] ?] ?].
  eexists _, _. split; [done|]. cbn. rewrite Z.eqb_refl. done.
Qed.

Lemma shows_tty_echo ch : shows (tty_echo tp ch) (fun _ => True).
Proof.
  intros s Hs. unfold tty_echo, line. rewrite bind_gets, Hs. revert s Hs. unfold cp32_console_echo.
  apply (shows_bind _ _ _ _ (shows_processed _)). intros chars _. apply shows_if; apply shows_screen.
Qed.

Lemma shows_echo_tab n len : 0 <= len -> len + Z.of_nat n <= 8 -> shows (echo_tab tp n len) (fun l => 0 <= l <= 8).
Proof.
  revert len. induction n as [|n IH]; intros len H0 H8; cbn [echo_tab]; [apply shows_ret; lia|].
  apply (shows_bind _ _ _ _ (shows_tty_echo _)). intros _ _. apply shows_gets. intros t.
  apply shows_if; [apply IH; lia|apply shows_ret; lia].
Qed.

Lemma shows_echo_back n : shows (echo_back tp n) (fun _ => True).
Proof.
  induction n as [|n IH]; cbn [echo_back]; [by apply shows_ret|]. by apply (shows_bind _ _ _ _ (shows_tty_echo _)).
Qed.

Lemma shows_echo_char ch : shows (echo_char tp ch) (fun l => 0 <= l <= 8).
Proof.
  unfold echo_char. cbv zeta.
  assert (H2 : forall c d, shows (tty_echo tp c ;;; tty_echo tp d ;;; ret 2) (fun l => 0 <= l <= 8)).
  { intros c d. apply (shows_bind _ _ _ _ (shows_tty_echo _)). intros _ _.
    apply (shows_bind _ _ _ _ (shows_tty_echo _)). intros _ _. apply shows_ret. lia. }
  repeat apply shows_if; [apply shows_echo_tab; lia| | |apply H2|]; try apply H2;
    (apply (shows_bind _ _ _ _ (shows_tty_echo _)); intros _ _; apply shows_ret; lia).
Qed.

(** [echo] gives back the character, with the length of its echo. *)
Lemma shows_echo ch : shows (echo tp ch) (fun r => (is_entry ch -> is_entry r) /\ strip r = strip ch).
Proof.
  unfold echo. cbv zeta. change (Z.land ch (Z.lnot IN_LEN)) with (strip ch).
  apply shows_gets. intros t. apply shows_if.
  - apply (shows_bind _ _ (fun _ => True)); [apply shows_if; [apply shows_tty_echo|by apply shows_ret]|].
    intros _ _. apply shows_ret. split; [apply strip_entry|apply strip_strip].
  - apply (shows_bind _ _ _ _ (shows_echo_char _)). intros len Hlen.
    apply (shows_bind _ _ (fun l => 0 <= l <= 8)).
    { apply shows_if; [|by apply shows_ret]. apply (shows_bind _ _ _ _ (shows_echo_back _)). intros _ _. apply shows_ret. lia. }
    intros l Hl. apply (shows_bind _ _ (fun _ => True)); [by apply shows_updl|]. intros _ _. apply shows_ret.
    split; [|by apply strip_length]. intros Hch.
    apply lor_entry; [by apply strip_entry|by apply length_entry].
Qed.

Lemma shows_rawecho ch : shows (rawecho tp ch) (fun _ => True).
Proof.
  unfold rawecho. apply shows_gets. intros t.
  apply (shows_bind _ _ (fun _ => True)); [apply shows_if; [apply shows_tty_echo|by apply shows_ret]|].
  intros _ _. by apply shows_updl.
Qed.

Lemma shows_rub_out n : shows (rub_out tp n) (fun _ => True).
Proof.
  induction n as [|n IH]; cbn [rub_out]; [by apply shows_ret|].
  do 3 (apply (shows_bind _ _ _ _ (shows_rawecho _)); intros _ _). apply IH.
Qed.

(** ** Reprinting *)
Lemma redraws_shows {A} (c : TM A) Q : shows c Q -> redraws c Q.
Proof. intros H s Hs _. destruct (H s Hs) as (a & s' & E & F & Hq & HQ). exists a, s'. by rewrite Hq. Qed.

Lemma redraws_bind {A B} (c : TM A) (k : A -> TM B) Q R :
  redraws c Q -> (forall a, Q a -> redraws (k a) R) -> redraws (bind c k) R.
Proof.
  intros Hc Hk s Hs Hok. destruct (Hc s Hs Hok) as (a & s1 & E1 & F1 & Q1 & HQ).
  destruct (Hk a HQ s1) as (b & s2 & E2 & F2 & Q2 & HR); [by rewrite (proj1 F1)|by eapply same_queue_ok|].
  exists b, s2. rewrite (bind_ok _ _ _ _ _ E1). split_and!; [done|by etransitivity|by etransitivity|done].
Qed.

Lemma same_queue_entry q i ch :
  is_entry ch -> strip ch = strip (nthZ (inbuf q) i) -> 0 <= i -> same_queue q (set_inbuf (updZ (inbuf q) i (wrap16 ch)) q).
Proof.
  intros Hch Hs Hi. assert (Hw : wrap16 ch = ch) by (unfold wrap16; apply Z.mod_small; unfold is_entry in *; lia).
  rewrite Hw. split; cbn -[nthZ]; try done.
  - apply lenZ_upd.
  - intros. unfold updZ. by apply Forall_insert.
  - intros j0. assert (Hneg : forall l, nthZ l j0 = nthZ l (Z.max j0 0)) by (intros l; unfold nthZ; f_equal; lia).
    rewrite !Hneg. destruct (Z.lt_ge_cases i (lenZ (inbuf q))) as [|Hge].
    + rewrite nthZ_upd by lia. by destruct (Z.eqb_spec i (Z.max j0 0)) as [->|].
    + unfold updZ. rewrite list_insert_ge; [done|unfold lenZ in *; lia].
Qed.

Lemma nthZ_entry l i : Forall is_entry l -> is_entry (nthZ l i).
Proof.
  intros H. unfold nthZ. destruct (nth_in_or_default (Z.to_nat i) l 0) as [Hi| ->]; [|done].
  rewrite Forall_forall in H. by apply H.
Qed.

Lemma decr_range i : 0 <= i < TTY_IN_BYTES -> 0 <= decr i < TTY_IN_BYTES.
Proof. intros H. rewrite decr_mod by done. by apply Z.mod_pos_bound. Qed.
Lemma incr_range i : 0 <= i < TTY_IN_BYTES -> 0 <= incr i < TTY_IN_BYTES.
Proof. intros H. rewrite incr_mod by done. by apply Z.mod_pos_bound. Qed.

Lemma find_break_range buf n head : 0 <= head < TTY_IN_BYTES -> 0 <= fst (find_break buf n head) < TTY_IN_BYTES.
Proof.
  revert head. induction n as [|n IH]; intros head H; cbn [find_break]; [done|].
  destruct (has _ IN_EOT); [done|]. by apply IH, decr_range.
Qed.

Lemma redraws_reprint_from n head : 0 <= head < TTY_IN_BYTES -> redraws (reprint_from tp n head) (fun _ => True).
Proof.
  revert head. induction n as [|n IH]; intros head Hh; cbn [reprint_from]; [by apply redraws_shows, shows_ret|].
  intros s Hs Hok. unfold line. rewrite bind_gets. set (e := nthZ (inbuf (tty_q (here s))) head).
  pose proof (nthZ_entry _ head (qo_entries _ Hok)) as He. fold e in He.
  destruct (shows_echo e s Hs) as (r & s1 & E1 & F1 & Q1 & Hr & Hstrip). specialize (Hr He). rewrite (bind_ok _ _ _ _ _ E1).
  unfold updl. rewrite bind_modify. set (s2 := set_ts_line _ s1).
  assert (L2 : here s2 = set_entry head r (here s1)) by (cbn; by rewrite Z.eqb_refl).
  assert (Q2 : same_queue (tty_q (here s)) (tty_q (here s2))).
  { rewrite L2. unfold set_entry. cbn. rewrite Q1. apply same_queue_entry; [done|done|lia]. }
  assert (F2 : frame (here s) (here s2)) by (rewrite L2; done).
  destruct (IH (incr head) (incr_range _ Hh) s2) as (a & s3 & E3 & F3 & Q3 & _);
    [by rewrite (proj1 F2)|by eapply same_queue_ok|].
  exists a, s3. split_and!; [done|by etransitivity|by etransitivity|done].
Qed.

Lemma redraws_line {A} (k : tty -> TM A) R :
  (forall t, queue_ok (tty_q t) -> redraws (k t) R) -> redraws (bind (line tp) k) R.
Proof. intros H s Hs Hok. unfold line. rewrite bind_gets. by apply H. Qed.

Lemma redraws_reprint : redraws (reprint tp) (fun _ => True).
Proof.
  unfold reprint. apply (redraws_bind _ _ (fun _ => True)); [by apply redraws_shows, shows_updl|]. intros _ _.
  apply redraws_line. intros t Hok. cbv zeta.
  assert (Hhead : 0 <= inhead (tty_q t) < TTY_IN_BYTES) by (rewrite (qo_head _ Hok); by apply Z.mod_pos_bound).
  pose proof (find_break_range (inbuf (tty_q t)) (Z.to_nat (incount (tty_q t))) _ Hhead) as Hb.
  destruct (find_break _ _ _) as [head count]. cbn [fst] in Hb.
  destruct (count =? _); [by apply redraws_shows, shows_ret|].
  apply (redraws_bind _ _ (fun _ => True)); [eapply redraws_shows, shows_weaken; [apply shows_echo|done]|]. intros _ _.
  apply (redraws_bind _ _ (fun _ => True)); [apply redraws_shows, shows_rawecho|]. intros _ _.
  apply (redraws_bind _ _ (fun _ => True)); [apply redraws_shows, shows_rawecho|]. intros _ _.
  by apply redraws_reprint_from.
Qed.

(** ** Editing *)

(** The entries up to the last line break; one entry less, but no line break. *)
Fixpoint drop_line (rev_l : list Z) : list Z :=
  match rev_l with
  | [] => []
  | e :: l => if is_eot e then e :: l else drop_line l
  end.
Definition killed (l : list Z) : list Z := rev (drop_line (rev l)).
Definition erasable (l : list Z) : bool := match rev l with [] => false | e :: _ => negb (is_eot e) end.
Definition rubbed (l : list Z) : list Z := if erasable l then removelast l else l.

Lemma erasable_snoc l e : erasable (l ++ [e]) = negb (is_eot e).
Proof. unfold erasable. by rewrite rev_app_distr. Qed.
Lemma rubbed_snoc l e : rubbed (l ++ [e]) = if is_eot e then l ++ [e] else l.
Proof. unfold rubbed. rewrite erasable_snoc. destruct (is_eot e); cbn [negb]; [done|]. by rewrite removelast_last. Qed.
Lemma killed_snoc l e : killed (l ++ [e]) = if is_eot e then l ++ [e] else killed l.
Proof.
  unfold killed. rewrite rev_app_distr. cbn [rev app drop_line]. destruct (is_eot e); [|done].
  by rewrite <- (rev_involutive (l ++ [e])), rev_app_distr.
Qed.

Lemma edits_redraws {A} (c : TM A) Q : redraws c Q -> edits c id (fun _ => Q).
Proof.
  intros H s Hs Hok. destruct (H s Hs Hok) as (a & s' & E & F & Hq & HQ). exists a, s'.
  split_and!; [done|done|by eapply same_queue_ok|by apply contents_eots|done].
Qed.
Lemma edits_shows {A} (c : TM A) Q : shows c Q -> edits c id (fun _ => Q).
Proof. intros. by apply edits_redraws, redraws_shows. Qed.

Lemma contents_last q :
  queue_ok q -> 0 < incount q -> contents q = contents (pop_last q) ++ [strip (nthZ (inbuf q) (decr (inhead q)))].
Proof. intros H Hc. unfold contents. by rewrite view_last, map_app by done. Qed.

(** [back_over] rubs out the last character of the line, if there is one. *)
Lemma edits_back_over : edits (back_over tp) rubbed (fun l b => b = erasable l).
Proof.
  intros s Hs Hok. unfold back_over, line. rewrite bind_gets. cbv zeta. set (q := tty_q (here s)) in *.
  destruct (Z.eqb_spec (incount q) 0) as [E|E].
  { assert (El : contents q = []).
    { unfold contents, view. by rewrite E. }
    exists false, s. rewrite El. split_and!; [done|done|done|done|done]. }
  pose proof (qo_count _ Hok) as Hc. assert (Hpos : 0 < incount q) by lia. pose proof (contents_last q Hok Hpos) as Hl.
  set (e := nthZ (inbuf q) (decr (inhead q))) in *.
  change (has e IN_EOT) with (is_eot e). destruct (is_eot e) eqn:Ee.
  { exists false, s. rewrite Hl, erasable_snoc, rubbed_snoc, strip_eot, Ee. split_and!; [done|done|done| |done]. by rewrite <- Hl. }
  assert (Hr : redraws (if tty_reprint (here s) then reprint tp else ret tt) (fun _ => True)).
  { destruct (tty_reprint _); [apply redraws_reprint|by apply redraws_shows, shows_ret]. }
  destruct (Hr s Hs Hok) as (u & s1 & E1 & F1 & Q1 & _). rewrite (bind_ok _ _ _ _ _ E1). unfold updl. rewrite bind_modify.
  set (s2 := set_ts_line _ s1). destruct u.
  pose proof (same_queue_ok _ _ Hok Q1) as Hok1. fold q in Q1.
  assert (L2 : tty_q (here s2) = pop_last (tty_q (here s1))).
  { cbn. rewrite Z.eqb_refl. cbn. unfold pop_last. by rewrite (sq_head _ _ Q1). }
  assert (F2 : frame (here s1) (here s2)) by (cbn; by rewrite Z.eqb_refl).
  pose proof (contents_eots _ _ Q1) as C1. assert (Hpos1 : 0 < incount (tty_q (here s1))) by (rewrite (sq_count _ _ Q1); lia).
  pose proof (contents_last _ Hok1 Hpos1) as Hl1.
  assert (Ee1 : is_eot (nthZ (inbuf (tty_q (here s1))) (decr (inhead (tty_q (here s1))))) = false).
  { by rewrite <- strip_eot, (sq_strip _ _ Q1), strip_eot, (sq_head _ _ Q1). }
  pose proof (pop_last_ok _ Hok1 Hpos1 Ee1) as Hok2. rewrite <- L2 in Hok2, Hl1.
  assert (C2 : contents (tty_q (here s2)) = rubbed (contents q)).
  { rewrite <- C1, Hl1, rubbed_snoc, strip_eot, Ee1. done. }
  rewrite bind_gets.
  assert (Hsh : forall n, shows ((if lflag (here s2) ECHOE then rub_out tp n else ret tt) ;;; ret true) (fun b => b = true)).
  { intros n. apply (shows_bind _ _ (fun _ => True)); [apply shows_if; [apply shows_rub_out|by apply shows_ret]|].
    intros _ _. by apply shows_ret. }
  destruct (Hsh (Z.to_nat (Z.shiftr (Z.land (nthZ (inbuf (tty_q (here s2))) (decr (inhead q))) IN_LEN) IN_LSHIFT)) s2)
    as (b & s3 & E3 & F3 & Q3 & ->); [by rewrite (proj1 F2), (proj1 F1)|].
  exists true, s3. rewrite E3, Q3. split_and!; [done|by etransitivity; [|etransitivity]|done|done|].
  by rewrite Hl, erasable_snoc, strip_eot, Ee.
Qed.
End Editing.

(** ** The line editor

    What a reader can get, whether the next character is escaped, and whether
    the output is stopped. *)
Record editor := Editor { e_queue : list Z; e_escaped : bool; e_stopped : bool }.

(** The attributes of [t] decide what a character does. *)
Definition edit_extensions (t : tty) (escaped : bool) (ch : Z) : option Z * bool :=
  if negb (lflag t IEXTEN) then (Some ch, escaped) else
  let ch := if escaped then Z.lor ch IN_ESC else ch in
  if ch =? cc t VLNEXT then (None, true)
  else if ch =? cc t VREPRINT then (None, false)
  else (Some ch, false).

Definition edit_canonical (t : tty) (l : list Z) (ch : Z) : option Z * list Z :=
  if negb (lflag t ICANON) then (Some ch, l)
  else if ch =? cc t VERASE then (None, rubbed l)
  else if ch =? cc t VKILL then (None, killed l)
  else
    let ch := if ch =? cc t VEOF then Z.lor ch (Z.lor IN_EOT IN_EOF) else ch in
    let ch := if ch =? 10 then Z.lor ch IN_EOT else ch in
    (Some (if ch =? cc t VEOL then Z.lor ch IN_EOT else ch), l).

Definition edit_stop (t : tty) (stopped : bool) (ch : Z) : option Z * bool :=
  if negb (iflag t IXON) then (Some ch, stopped)
  else if ch =? cc t VSTOP then (None, true)
  else if stopped && ((ch =? cc t VSTART) || iflag t IXANY) then (if ch =? cc t VSTART then None else Some ch, false)
  else (Some ch, stopped).

Definition is_signal (t : tty) (ch : Z) : bool := lflag t ISIG && ((ch =? cc t VINTR) || (ch =? cc t VQUIT)).

Definition edit_char (t : tty) (e : editor) (ch : Z) : editor :=
  let '(Editor l escaped stopped) := e in
  let ch := if iflag t ISTRIP then Z.land ch 127 else ch in
  let '(o, escaped) := edit_extensions t escaped ch in
  match o with None => Editor l escaped stopped | Some ch =>
  let ch := if ch =? POSIX_VDISABLE then Z.lor ch IN_ESC else ch in
  match map_newline t ch with None => Editor l escaped stopped | Some ch =>
  let '(o, l) := edit_canonical t l ch in
  match o with None => Editor l escaped stopped | Some ch =>
  let '(o, stopped) := edit_stop t stopped ch in
  match o with None => Editor l escaped stopped | Some ch =>
  if is_signal t ch then (if lflag t NOFLSH then Editor l escaped stopped else Editor [] escaped false)
  else Editor (l ++ [strip (if lflag t ICANON then ch else Z.lor ch IN_EOT)]) escaped stopped
  end end end end.

(** The attributes of a line, its reader and its device. *)
Definition attrs (t t' : tty) : Prop :=
  tty_dev t' = tty_dev t /\ tty_termios t' = tty_termios t /\ tty_in t' = tty_in t /\ tty_min t' = tty_min t /\
  tty_pgrp t' = tty_pgrp t.
#[export] Instance attrs_preorder : PreOrder attrs.
Proof.
  split; [by intros t|]. intros t1 t2 t3 (A1 & A2 & A3 & A4 & A5) (B1 & B2 & B3 & B4 & B5). repeat split; congruence.
Qed.
Lemma frame_attrs t t' : frame t t' -> attrs t t'.
Proof. intros (? & ? & ? & ? & ? & ? & ?). by repeat split. Qed.

Record edits_as (e : editor) (t : tty) : Prop := {
  ea_console : tty_dev t = Console;
  ea_ok : queue_ok (tty_q t);
  ea_queue : contents (tty_q t) = e_queue e;
  ea_escaped : tty_escaped t = e_escaped e;
  ea_stopped : tty_inhibited t = e_stopped e }.

Lemma edits_as_frame e e' t t' :
  edits_as e t -> frame t t' -> queue_ok (tty_q t') -> contents (tty_q t') = e_queue e' ->
  e_escaped e' = e_escaped e -> e_stopped e' = e_stopped e -> edits_as e' t'.
Proof. intros [] (F1 & F2 & F3 & F4 & F5 & F6 & F7) ? ? ? ?. split; congruence. Qed.

(** Equal attributes give equal decisions. *)
Lemma attrs_cc t t' i : attrs t t' -> cc t' i = cc t i.
Proof. intros (_ & E & _). unfold cc. by rewrite E. Qed.
Lemma attrs_lflag t t' b : attrs t t' -> lflag t' b = lflag t b.
Proof. intros (_ & E & _). unfold lflag. by rewrite E. Qed.
Lemma attrs_iflag t t' b : attrs t t' -> iflag t' b = iflag t b.
Proof. intros (_ & E & _). unfold iflag. by rewrite E. Qed.
Lemma attrs_newline t t' ch : attrs t t' -> map_newline t' ch = map_newline t ch.
Proof. intros H. unfold map_newline. by rewrite !(attrs_iflag t t'). Qed.
Lemma attrs_canonical t t' l ch : attrs t t' -> edit_canonical t' l ch = edit_canonical t l ch.
Proof. intros H. unfold edit_canonical. by rewrite !(attrs_cc t t'), !(attrs_lflag t t'). Qed.
Lemma attrs_stop t t' b ch : attrs t t' -> edit_stop t' b ch = edit_stop t b ch.
Proof. intros H. unfold edit_stop. by rewrite !(attrs_cc t t'), !(attrs_iflag t t'). Qed.
Lemma attrs_signal t t' ch : attrs t t' -> is_signal t' ch = is_signal t ch.
Proof. intros H. unfold is_signal. by rewrite !(attrs_cc t t'), !(attrs_lflag t t'). Qed.

Lemma killed_rubbed l : killed (rubbed l) = killed l.
Proof.
  destruct l as [|e l _] using rev_ind; [done|]. rewrite rubbed_snoc, killed_snoc. destruct (is_eot e) eqn:E; [|done].
  by rewrite killed_snoc, E.
Qed.
Lemma killed_stuck l : erasable l = false -> killed l = l.
Proof.
  destruct l as [|e l _] using rev_ind; [done|]. rewrite erasable_snoc, killed_snoc. by destruct (is_eot e).
Qed.
Lemma rubbed_shorter l : erasable l = true -> (length (rubbed l) < length l)%nat.
Proof.
  destruct l as [|e l _] using rev_ind; [done|]. rewrite erasable_snoc, rubbed_snoc, length_app. destruct (is_eot e); cbn; [done|lia].
Qed.

Lemma negb_if {A} (b : bool) (x y : A) : (if negb b then x else y) = if b then y else x.
Proof. by destruct b. Qed.

Section Editor.
Context {P K : Type} `{PANEL : Panel P} `{KBD : Keyboard K} `{TRAP : SendTrap} `{SIG : SigSet}.
Context (m_at tp : Z).
Abbreviation TM := (M (tst P K)).
Abbreviation here s := (ts_line s tp).
Abbreviation shows := (shows (P := P) (K := K)).

Lemma kill_line_edits n (s : tst P K) :
  tty_dev (here s) = Console -> queue_ok (tty_q (here s)) -> (length (contents (tty_q (here s))) < n)%nat ->
  exists s', kill_line tp n s = (Ok tt, s') /\ frame (here s) (here s') /\ queue_ok (tty_q (here s')) /\
    contents (tty_q (here s')) = killed (contents (tty_q (here s))).
Proof.
  revert s. induction n as [|n IH]; intros s Hs Hok Hn; [lia|]. cbn [kill_line].
  destruct (edits_back_over tp s Hs Hok) as (b & s1 & E1 & F1 & Ok1 & C1 & ->). rewrite (bind_ok _ _ _ _ _ E1).
  set (l := contents (tty_q (here s))) in *. destruct (erasable l) eqn:Er.
  - destruct (IH s1) as (s2 & E2 & F2 & Ok2 & C2); [by rewrite (proj1 F1)|done| |].
    + rewrite C1. pose proof (rubbed_shorter l Er). lia.
    + exists s2. split_and!; [done|by etransitivity|done|]. by rewrite C2, C1, killed_rubbed.
  - exists s1. split_and!; [done|done|done|]. rewrite C1. unfold rubbed. rewrite Er. by rewrite killed_stuck.
Qed.

(** A stage of [in_char] that agrees with the editor's. *)
Definition agrees (c : TM (option Z)) (s : tst P K) (o : option Z) (e : editor) : Prop :=
  match c s with
  | (Ok o', s') => o' = o /\ edits_as e (here s') /\ attrs (here s) (here s')
  | (Err _, _) => tty_pgrp (here s) <> 0
  end.

Lemma extensions_agrees ch e (s : tst P K) :
  edits_as e (here s) ->
  let '(o, escaped) := edit_extensions (here s) (e_escaped e) ch in
  agrees (extensions tp ch) s o (Editor (e_queue e) escaped (e_stopped e)).
Proof.
  intros H. unfold edit_extensions, extensions, agrees, line. rewrite bind_gets.
  destruct (negb (lflag (here s) IEXTEN)); [by destruct H|]. rewrite (ea_escaped _ _ H). cbv zeta.
  set (ch' := if e_escaped e then Z.lor ch IN_ESC else ch). unfold updl at 1. rewrite bind_modify.
  set (s1 := set_ts_line _ s).
  assert (L1 : here s1 = set_tty_escaped false (here s)) by (cbn; by rewrite Z.eqb_refl).
  assert (H1 : edits_as (Editor (e_queue e) false (e_stopped e)) (here s1)) by (rewrite L1; by destruct H).
  assert (A1 : attrs (here s) (here s1)) by (by rewrite L1).
  destruct (ch' =? cc (here s) VLNEXT); [|destruct (ch' =? cc (here s) VREPRINT)].
  - unfold updl. rewrite bind_modify. set (s2 := set_ts_line _ s1).
    assert (L2 : here s2 = set_tty_escaped true (here s1)) by (cbn; by rewrite !Z.eqb_refl).
    assert (H2 : edits_as (Editor (e_queue e) true (e_stopped e)) (here s2)) by (rewrite L2; by destruct H1).
    assert (Hsh : shows tp (rawecho tp 94 ;;; rawecho tp 8 ;;; ret None) (fun o : option Z => o = None)).
    { do 2 (apply (shows_bind _ _ _ _ _ (shows_rawecho _ _)); intros _ _). by apply shows_ret. }
    destruct (Hsh s2 (ea_console _ _ H2)) as (o & s3 & -> & F3 & Q3 & ->). split; [done|]. split.
    + eapply edits_as_frame; [exact H2|done| | |done|done]; rewrite Q3; apply H2.
    + transitivity (here s1); [done|]. transitivity (here s2); [by rewrite L2|by apply frame_attrs].
  - destruct (redraws_reprint tp s1 (ea_console _ _ H1) (ea_ok _ _ H1)) as ([] & s2 & E2 & F2 & Q2 & _).
    rewrite (bind_ok _ _ _ _ _ E2). split; [done|]. split.
    + eapply edits_as_frame; [exact H1|done|by eapply same_queue_ok; [apply H1|]| |done|done].
      rewrite (contents_eots _ _ Q2). apply H1.
    + transitivity (here s1); [done|by apply frame_attrs].
  - by split.
Qed.

Lemma canonical_agrees ch e (s : tst P K) :
  edits_as e (here s) ->
  let '(o, l) := edit_canonical (here s) (e_queue e) ch in
  agrees (canonical tp ch) s o (Editor l (e_escaped e) (e_stopped e)).
Proof.
  intros H. unfold edit_canonical, canonical, agrees, line. rewrite bind_gets.
  destruct (negb (lflag (here s) ICANON)); [by destruct H|].
  assert (Hfin : forall (c : TM unit) l (s1 : tst P K), (forall Q : option Z -> Prop, Q None -> shows tp (c ;;; ret None) Q) ->
    frame (here s) (here s1) -> queue_ok (tty_q (here s1)) -> contents (tty_q (here s1)) = l ->
    match (c ;;; ret (@None Z)) s1 with
    | (Ok o', s') => o' = None /\ edits_as (Editor l (e_escaped e) (e_stopped e)) (here s') /\ attrs (here s) (here s')
    | (Err _, _) => tty_pgrp (here s) <> 0 end).
  { intros c l s1 Hc F1 Ok1 C1. destruct (Hc (fun o : option Z => o = None) eq_refl s1) as (o & s2 & -> & F2 & Q2 & ->);
      [rewrite (proj1 F1); apply H|]. split; [done|]. split.
    - eapply edits_as_frame; [exact H|by etransitivity|by rewrite Q2|by rewrite Q2|done|done].
    - transitivity (here s1); by apply frame_attrs. }
  destruct (ch =? cc (here s) VERASE); [|destruct (ch =? cc (here s) VKILL)].
  - destruct (edits_back_over tp s (ea_console _ _ H) (ea_ok _ _ H)) as (b & s1 & E1 & F1 & Ok1 & C1 & _).
    rewrite (bind_ok _ _ _ _ _ E1). apply Hfin; [|done|done|by rewrite C1, (ea_queue _ _ H)].
    intros Q HQ. apply (shows_bind _ _ _ (fun _ => True)); [|intros _ _; by apply shows_ret].
    apply shows_if; [|by apply shows_ret]. apply (shows_bind _ _ _ _ _ (shows_echo _ _)). intros _ _. by apply shows_ret.
  - destruct (kill_line_edits 257 s (ea_console _ _ H) (ea_ok _ _ H)) as (s1 & E1 & F1 & Ok1 & C1).
    { unfold contents. rewrite length_map. pose proof (length_view _ (ea_ok _ _ H)). pose proof (qo_count _ (ea_ok _ _ H)).
      unfold lenZ, TTY_IN_BYTES in *. lia. }
    rewrite (bind_ok _ _ _ _ _ E1). apply Hfin; [|done|done|by rewrite C1, (ea_queue _ _ H)].
    intros Q HQ. apply (shows_bind _ _ _ (fun _ => True)); [|intros _ _; by apply shows_ret].
    apply shows_if; [|by apply shows_ret]. apply (shows_bind _ _ _ _ _ (shows_echo _ _)). intros _ _.
    apply shows_if; [apply shows_rawecho|by apply shows_ret].
  - by destruct H.
Qed.

Lemma start_stop_agrees ch e (s : tst P K) :
  edits_as e (here s) ->
  let '(o, stopped) := edit_stop (here s) (e_stopped e) ch in
  agrees (start_stop tp ch) s o (Editor (e_queue e) (e_escaped e) stopped).
Proof.
  intros H. unfold edit_stop, start_stop, agrees, line. rewrite bind_gets. rewrite (ea_stopped _ _ H).
  destruct (negb (iflag (here s) IXON)); [by destruct H|].
  assert (Hup : forall b, let t' := set_tty_events true (set_tty_inhibited b (here s)) in
    edits_as (Editor (e_queue e) (e_escaped e) b) t' /\ attrs (here s) t') by (intros b; by destruct H).
  destruct (ch =? cc (here s) VSTOP); [|destruct (e_stopped e && _)].
  - unfold updl. rewrite bind_modify. cbn -[attrs]. rewrite !Z.eqb_refl. split; [done|apply Hup].
  - unfold updl. rewrite bind_modify. cbn -[attrs]. rewrite !Z.eqb_refl. split; [done|apply Hup].
  - by destruct H.
Qed.

Lemma flush_ok q : queue_ok q -> let q' := set_intail (inhead q) (set_eotct 0 (set_incount 0 q)) in
  queue_ok q' /\ contents q' = [].
Proof.
  intros [Hb Ht Hc Hh He Hf]. cbn zeta. assert (Hr : 0 <= inhead q < TTY_IN_BYTES) by (rewrite Hh; by apply Z.mod_pos_bound).
  split; [|done]. split; cbn; [done|done|done| |done|done]. by rewrite Z.add_0_r, Z.mod_small.
Qed.

Lemma sigchar_edits sig e (s : tst P K) :
  edits_as e (here s) ->
  match sigchar m_at tp sig s with
  | (Ok _, s') => edits_as (if lflag (here s) NOFLSH then e else Editor [] (e_escaped e) false) (here s') /\ attrs (here s) (here s')
  | (Err _, _) => tty_pgrp (here s) <> 0
  end.
Proof.
  intros H. unfold sigchar, line. rewrite bind_gets.
  assert (Hc : match (if tty_pgrp (here s) !=? 0 then tty_cause_sig m_at (tty_pgrp (here s)) sig else ret tt) s with
    | (Ok _, s1) => here s1 = here s | (Err _, _) => tty_pgrp (here s) <> 0 end).
  { destruct (tty_pgrp (here s) !=? 0) eqn:E; [|done]. unfold tty_cause_sig. destruct (tcall _ _) as [[x|x] c]; [|done].
    by apply Z.eqb_neq, negb_true_iff. }
  unfold bind. destruct ((if tty_pgrp (here s) !=? 0 then tty_cause_sig m_at (tty_pgrp (here s)) sig else ret tt) s) as [[x|[]] s1]; [done|].
  destruct (lflag (here s) NOFLSH); [cbn -[attrs]; by rewrite Hc|]. unfold updl. cbn -[attrs flush_input]. rewrite Z.eqb_refl, Hc.
  destruct (flush_ok _ (ea_ok _ _ H)) as [Ok1 C1]. split; [|done]. by destruct H.
Qed.

Lemma signal_agrees ch e (s : tst P K) :
  edits_as e (here s) ->
  let sig := is_signal (here s) ch in
  agrees (signal_chars m_at tp ch) s (if sig then None else Some ch)
    (if sig then (if lflag (here s) NOFLSH then e else Editor [] (e_escaped e) false) else e).
Proof.
  intros H. unfold is_signal, signal_chars, agrees, line. rewrite bind_gets. cbv zeta. destruct (lflag _ ISIG && _); [|by destruct H].
  pose proof (sigchar_edits (if ch =? cc (here s) VQUIT then SIGQUIT else SIGINT) e s H) as Hs. unfold bind at 1.
  destruct (sigchar _ _ _ s) as [[x|u] s1]; [done|]. destruct Hs as [H1 A1].
  destruct (shows_echo tp ch s1 (ea_console _ _ H1)) as (r & s2 & E2 & F2 & Q2 & _). rewrite (bind_ok _ _ _ _ _ E2).
  split; [done|]. split.
  - eapply edits_as_frame; [exact H1|done|rewrite Q2; apply H1|rewrite Q2; apply H1|done|done].
  - transitivity (here s1); [done|by apply frame_attrs].
Qed.

(** The entry of a character: the length of its echo does not show. *)
Lemma push_contents ch r q :
  queue_ok q -> is_entry r -> strip r = strip ch -> incount q < TTY_IN_BYTES ->
  queue_ok (push r q) /\ contents (push r q) = contents q ++ [strip ch].
Proof.
  intros Hq Hr Hs Hc. destruct (push_ok r q Hq Hr Hc) as [H1 H2]. split; [done|].
  unfold contents. by rewrite H2, map_app, <- Hs.
Qed.

Lemma settimer_edits on (s : tst P K) :
  exists s', settimer tp on s = (Ok tt, s') /\ tty_q (here s') = tty_q (here s) /\ frame (here s) (here s').
Proof.
  unfold settimer. rewrite bind_modify. destruct on; [|by eexists]. cbn [negb]. rewrite bind_gets. unfold updl.
  rewrite !bind_modify. eexists. split; [done|].
  match goal with |- context [if ?b then set_ts_timeout _ _ else _] => destruct b end; cbn; rewrite Z.eqb_refl; done.
Qed.

Lemma enqueue_edits ch timeset e (s : tst P K) :
  edits_as e (here s) -> is_entry ch -> lenZ (e_queue e) < 255 ->
  exists b s', enqueue_char tp ch timeset s = (Ok b, s') /\ attrs (here s) (here s') /\
    edits_as (Editor (e_queue e ++ [strip (if lflag (here s) ICANON then ch else Z.lor ch IN_EOT)]) (e_escaped e) (e_stopped e)) (here s').
Proof.
  intros H Hch Hroom. unfold enqueue_char, line. rewrite bind_gets. cbv zeta. rewrite negb_if.
  set (ch' := if lflag (here s) ICANON then ch else Z.lor ch IN_EOT).
  assert (Hch' : is_entry ch') by (unfold ch'; destruct (lflag _ ICANON); [done|apply lor_entry; done]).
  set (b := negb (lflag (here s) ICANON) && negb timeset && _ && _).
  assert (Ht : exists s1, (if b then settimer tp true else ret tt) s = (Ok tt, s1) /\ tty_q (here s1) = tty_q (here s) /\ frame (here s) (here s1)).
  { destruct b; [apply settimer_edits|by exists s]. }
  destruct Ht as (s1 & E1 & Q1 & F1). rewrite (bind_ok _ _ _ _ _ E1).
  assert (He : exists r s2, (if has (c_lflag (tty_termios (here s))) (Z.lor ECHO ECHONL) then echo tp ch' else ret ch') s1 = (Ok r, s2) /\
    frame (here s1) (here s2) /\ tty_q (here s2) = tty_q (here s1) /\ is_entry r /\ strip r = strip ch').
  { destruct (has _ _); [|by exists ch', s1].
    destruct (shows_echo tp ch' s1) as (r & s2 & E2 & F2 & Q2 & R2 & S2); [rewrite (proj1 F1); apply H|]. exists r, s2. by specialize (R2 Hch'). }
  destruct He as (r & s2 & E2 & F2 & Q2 & R2 & S2). rewrite (bind_ok _ _ _ _ _ E2). unfold updl. rewrite bind_modify.
  set (s3 := set_ts_line _ s2).
  assert (Hlen : incount (tty_q (here s)) < 255).
  { rewrite <- (length_view _ (ea_ok _ _ H)). rewrite <- (ea_queue _ _ H) in Hroom. unfold contents in Hroom. by rewrite lenZ_map in Hroom. }
  assert (L3 : tty_q (here s3) = push r (tty_q (here s2)) /\ frame (here s2) (here s3)).
  { cbn. rewrite Z.eqb_refl. cbn. unfold push. change (has r IN_EOT) with (is_eot r). by destruct (is_eot r). }
  destruct L3 as [L3 F3]. destruct (push_contents ch' r (tty_q (here s2))) as [P1 P2];
    [by rewrite Q2, Q1; apply H|done|done|rewrite Q2, Q1; unfold TTY_IN_BYTES; lia|]. rewrite <- L3 in P1, P2.
  rewrite bind_gets.
  assert (Hn : (incount (tty_q (here s3)) =? TTY_IN_BYTES) = false).
  { apply Z.eqb_neq. rewrite <- (length_view _ P1), <- (lenZ_map strip). change (map strip (view (tty_q (here s3)))) with (contents (tty_q (here s3))).
    rewrite P2, lenZ_app, Q2, Q1. unfold contents. rewrite lenZ_map, (length_view _ (ea_ok _ _ H)). change (lenZ [strip ch']) with 1.
    unfold TTY_IN_BYTES. lia. }
  rewrite Hn. eexists _, s3. split; [done|].
  assert (F : frame (here s) (here s3)) by (transitivity (here s1); [done|transitivity (here s2); done]).
  split; [by apply frame_attrs|]. eapply edits_as_frame; [exact H|done|done| |done|done].
  rewrite P2, Q2, Q1, (ea_queue _ _ H). done.
Qed.

Lemma agrees_bind {B} (c : TM (option Z)) s o e (none : TM B) (k : Z -> TM B) (Post : B -> tst P K -> Prop) :
  agrees c s o e ->
  (forall s', edits_as e (here s') -> attrs (here s) (here s') ->
     match (match o with None => none | Some ch => k ch end) s' with (Ok b, s2) => Post b s2 | (Err _, _) => tty_pgrp (here s') <> 0 end) ->
  match (o <- c ;; match o with None => none | Some ch => k ch end) s with (Ok b, s2) => Post b s2 | (Err _, _) => tty_pgrp (here s) <> 0 end.
Proof.
  unfold agrees. intros Hc Hk. unfold bind. destruct (c s) as [[x|o'] s1]; [done|]. destruct Hc as (-> & H1 & A1).
  specialize (Hk s1 H1 A1). destruct (match o with None => none | Some ch => k ch end s1) as [[?|?] ?]; [|done].
  destruct A1 as (_ & _ & _ & _ & <-). done.
Qed.

Lemma rubbed_length l : lenZ (rubbed l) <= lenZ l.
Proof.
  unfold rubbed. destruct (erasable l) eqn:E; [|lia]. pose proof (rubbed_shorter l E) as H. unfold rubbed in H. rewrite E in H.
  unfold lenZ. lia.
Qed.
Lemma drop_line_length l : (length (drop_line l) <= length l)%nat.
Proof. induction l as [|e l IH]; cbn [drop_line]; [done|]. destruct (is_eot e); cbn [length]; lia. Qed.
Lemma killed_length l : lenZ (killed l) <= lenZ l.
Proof. unfold killed, lenZ. rewrite length_rev. pose proof (drop_line_length (rev l)) as H. rewrite length_rev in H. lia. Qed.

Lemma extensions_entry t esc ch ch' : is_entry ch -> fst (edit_extensions t esc ch) = Some ch' -> is_entry ch'.
Proof.
  intros H. unfold edit_extensions. destruct (negb _); [by intros [= <-]|].
  assert (Hl : is_entry (Z.lor ch IN_ESC)) by (by apply lor_entry).
  destruct esc; cbv zeta; (destruct (_ =? cc t VLNEXT); [done|]; destruct (_ =? cc t VREPRINT); [done|]; by intros [= <-]).
Qed.
Lemma newline_entry t ch ch' : is_entry ch -> map_newline t ch = Some ch' -> is_entry ch'.
Proof.
  intros H. unfold map_newline. destruct (ch =? 13); [destruct (iflag t IGNCR); [done|]|destruct (ch =? 10)]; intros [= <-]; [..|done].
  - by destruct (iflag t ICRNL).
  - by destruct (iflag t INLCR).
Qed.
Lemma canonical_entry t l ch ch' l' : is_entry ch -> edit_canonical t l ch = (Some ch', l') -> is_entry ch' /\ l' = l.
Proof.
  intros H. unfold edit_canonical. destruct (negb _); [by intros [= <- <-]|]. destruct (ch =? cc t VERASE); [done|].
  destruct (ch =? cc t VKILL); [done|]. cbv zeta. intros [= <- <-]. split; [|done].
  assert (Hor : forall b c f, is_entry c -> is_entry f -> is_entry (if b : bool then Z.lor c f else c)) by (intros [] ? ? ? ?; [by apply lor_entry|done]).
  do 3 (apply Hor; [|done]). done.
Qed.

Lemma in_char_edits ch timeset e (s : tst P K) :
  edits_as e (here s) -> is_byte ch -> lenZ (e_queue e) < 255 ->
  match in_char m_at tp ch timeset s with
  | (Ok r, s') => (exists b, r = Continue b) /\ edits_as (edit_char (here s) e ch) (here s') /\ attrs (here s) (here s')
  | (Err _, _) => tty_pgrp (here s) <> 0
  end.
Proof.
  intros H Hch Hroom. unfold in_char, line. rewrite bind_gets. cbv zeta. unfold edit_char. destruct e as [l esc stop]. cbn [e_queue] in Hroom.
  set (ch1 := if iflag (here s) ISTRIP then _ else ch).
  assert (E1 : is_entry ch1).
  { assert (is_entry ch) by (unfold is_entry, is_byte in *; lia). unfold ch1. destruct (iflag _ _); [by apply land_entry|done]. }
  clearbody ch1. pose proof (extensions_agrees ch1 _ s H) as G1. cbn [e_queue e_escaped e_stopped] in G1.
  destruct (edit_extensions (here s) esc ch1) as [o1 esc1] eqn:X1. eapply agrees_bind; [exact G1|]. intros s1 H1 A1.
  destruct o1 as [ch2|]; [|split; [by eexists|by split]].
  assert (E2 : is_entry ch2) by (apply (extensions_entry (here s) esc ch1); [done|by rewrite X1]).
  set (ch3 := if ch2 =? POSIX_VDISABLE then _ else ch2).
  assert (E3 : is_entry ch3) by (unfold ch3; destruct (_ =? _); [by apply lor_entry|done]). clearbody ch3.
  rewrite bind_gets, (attrs_newline _ _ _ A1). destruct (map_newline (here s) ch3) as [ch4|] eqn:X3; [|split; [by eexists|by split]].
  pose proof (newline_entry _ _ _ E3 X3) as E4.
  pose proof (canonical_agrees ch4 _ s1 H1) as G4. rewrite (attrs_canonical _ _ _ _ A1) in G4. cbn [e_queue e_escaped e_stopped] in G4.
  destruct (edit_canonical (here s) l ch4) as [o5 l5] eqn:X4. eapply agrees_bind; [exact G4|]. intros s2 H2 A2.
  assert (A02 : attrs (here s) (here s2)) by (by transitivity (here s1)).
  destruct o5 as [ch5|]; [|split; [by eexists|by split]]. destruct (canonical_entry _ _ _ _ _ E4 X4) as [E5 ->].
  pose proof (start_stop_agrees ch5 _ s2 H2) as G5. rewrite (attrs_stop _ _ _ _ A02) in G5. cbn [e_queue e_escaped e_stopped] in G5.
  destruct (edit_stop (here s) stop ch5) as [o6 stop6] eqn:X5. eapply agrees_bind; [exact G5|]. intros s3 H3 A3.
  assert (A03 : attrs (here s) (here s3)) by (by transitivity (here s2)).
  destruct o6 as [ch6|]; [|split; [by eexists|by split]].
  assert (E6 : is_entry ch6).
  { assert (ch6 = ch5) as ->; [|done]. revert X5. unfold edit_stop. destruct (negb _); [by intros [= <-]|].
    destruct (ch5 =? cc _ VSTOP); [done|]. destruct (_ && _); [|by intros [= <-]]. by destruct (ch5 =? cc _ VSTART); intros [= <-]. }
  pose proof (signal_agrees ch6 _ s3 H3) as G6. cbv zeta in G6. rewrite (attrs_signal _ _ _ A03), (attrs_lflag _ _ _ A03) in G6. cbn [e_escaped] in G6.
  eapply agrees_bind; [exact G6|]. intros s4 H4 A4.
  assert (A04 : attrs (here s) (here s4)) by (by transitivity (here s3)).
  destruct (is_signal (here s) ch6); [split; [by eexists|by split]|]. rewrite bind_gets.
  assert (Hn : (incount (tty_q (here s4)) =? TTY_IN_BYTES) = false).
  { apply Z.eqb_neq. rewrite <- (length_view _ (ea_ok _ _ H4)), <- (lenZ_map strip).
    change (map strip (view (tty_q (here s4)))) with (contents (tty_q (here s4))). rewrite (ea_queue _ _ H4). cbn. unfold TTY_IN_BYTES. lia. }
  rewrite Hn. destruct (enqueue_edits ch6 timeset _ s4 H4 E6 Hroom) as (b & s5 & E & A5 & H5). rewrite (bind_ok _ _ _ _ _ E).
  rewrite (attrs_lflag _ _ _ A04) in H5. split; [by eexists|]. split; [done|]. by transitivity (here s4).
Qed.

Lemma edit_char_length t e ch : lenZ (e_queue (edit_char t e ch)) <= lenZ (e_queue e) + 1.
Proof.
  unfold edit_char. destruct e as [l esc stop]. destruct (edit_extensions t esc _) as [[c1|] e1]; cbn [e_queue]; [|lia].
  destruct (map_newline t _) as [c2|]; cbn [e_queue]; [|lia].
  assert (Hl : forall o l', edit_canonical t l c2 = (o, l') -> lenZ l' <= lenZ l).
  { intros o l'. unfold edit_canonical. destruct (negb _); [intros [= _ <-]; lia|].
    destruct (c2 =? cc t VERASE); [intros [= _ <-]; apply rubbed_length|]. destruct (c2 =? cc t VKILL); [intros [= _ <-]; apply killed_length|].
    intros [= _ <-]. lia. }
  destruct (edit_canonical t l c2) as [[c3|] l3]; specialize (Hl _ _ eq_refl); cbn [e_queue]; [|lia].
  destruct (edit_stop t stop c3) as [[c4|] e4]; cbn [e_queue]; [|lia].
  destruct (is_signal t c4); [destruct (lflag t NOFLSH); cbn [e_queue]; [lia|]|].
  - change (lenZ (@nil Z)) with 0. pose proof (lenZ_nonneg l). lia.
  - cbn [e_queue]. rewrite lenZ_app. unfold lenZ in *. cbn [length]. lia.
Qed.

Lemma edit_char_attrs t t' e ch : attrs t t' -> edit_char t' e ch = edit_char t e ch.
Proof.
  intros H. unfold edit_char. destruct e as [l esc stop]. rewrite (attrs_iflag _ _ _ H).
  assert (Hx : forall c, edit_extensions t' esc c = edit_extensions t esc c).
  { intros c. unfold edit_extensions. by rewrite !(attrs_cc _ _ _ H), !(attrs_lflag _ _ _ H). }
  rewrite Hx. destruct (edit_extensions t esc _) as [[c1|] e1]; [|done]. rewrite (attrs_newline _ _ _ H).
  destruct (map_newline t _) as [c2|]; [|done]. rewrite (attrs_canonical _ _ _ _ H).
  destruct (edit_canonical t l c2) as [[c3|] l3]; [|done]. rewrite (attrs_stop _ _ _ _ H).
  destruct (edit_stop t stop c3) as [[c4|] e4]; [|done]. by rewrite (attrs_signal _ _ _ H), !(attrs_lflag _ _ _ H).
Qed.
Definition edit (t : tty) (e : editor) (buf : list Z) : editor := fold_left (fun e ch => edit_char t e (Z.land ch 255)) buf e.

Lemma edit_attrs t t' e buf : attrs t t' -> edit t' e buf = edit t e buf.
Proof. intros H. unfold edit. revert e. induction buf as [|ch buf IH]; intros e; cbn [fold_left]; [done|]. by rewrite (edit_char_attrs _ _ _ _ H), IH. Qed.

Lemma byte_of ch : is_byte (Z.land ch 255).
Proof. unfold is_byte. change 255 with (Z.ones 8). rewrite Z.land_ones by lia. apply Z.mod_pos_bound. lia. Qed.

Lemma in_process_from_edits buf e ct timeset (s : tst P K) :
  edits_as e (here s) -> lenZ (e_queue e) + lenZ buf < 256 ->
  match in_process_from m_at tp buf ct timeset s with
  | (Ok n, s') => n = ct + lenZ buf /\ edits_as (edit (here s) e buf) (here s') /\ attrs (here s) (here s')
  | (Err _, _) => tty_pgrp (here s) <> 0
  end.
Proof.
  revert e ct timeset s. induction buf as [|ch buf IH]; intros e ct timeset s H Hroom; cbn [in_process_from].
  { change (lenZ (@nil Z)) with 0. split; [lia|by split]. }
  assert (El : lenZ (ch :: buf) = 1 + lenZ buf) by (unfold lenZ; cbn [length]; lia). rewrite El in *. pose proof (lenZ_nonneg buf).
  pose proof (in_char_edits (Z.land ch 255) timeset e s H (byte_of ch) ltac:(lia)) as Hc. unfold bind.
  destruct (in_char _ _ _ _ s) as [[x|r] s1]; [done|]. destruct Hc as ((b & ->) & H1 & A1).
  specialize (IH (edit_char (here s) e (Z.land ch 255)) (ct + 1) b s1 H1).
  pose proof (edit_char_length (here s) e (Z.land ch 255)). specialize (IH ltac:(lia)).
  destruct (in_process_from _ _ _ _ _ s1) as [[x|n] s2].
  - by destruct A1 as (_ & _ & _ & _ & <-).
  - destruct IH as (-> & Hf & A2). split; [lia|]. split; [|by transitivity (here s1)]. by rewrite (edit_attrs _ _ _ _ A1) in Hf.
Qed.

(** C25: input processing is the line editor.  On a console whose buffer has
    room for [buf], [in_process] takes every character of [buf], and what the
    queue then holds for a reader, whether the next character is quoted and
    whether output is stopped are what the editor makes of them one character
    after the other; the settings of the line are not touched.  It can only
    fail to return by telling a process group of a signal. *)
Theorem in_process_edits buf e (s : tst P K) :
  edits_as e (here s) -> lenZ (e_queue e) + lenZ buf < 256 ->
  match in_process m_at tp buf s with
  | (Ok n, s') => n = lenZ buf /\ edits_as (edit (here s) e buf) (here s') /\ attrs (here s) (here s')
  | (Err _, _) => tty_pgrp (here s) <> 0
  end.
Proof. intros H Hroom. by apply in_process_from_edits. Qed.
End Editor.

Module QueueDemo.
Import TtyDemo.
Abbreviation booted := (TtyDemo.boot []).
Definition nothing : editor := Editor [] false false.

Lemma boot_edits : edits_as nothing (ts_line booted 0).
Proof.
  split; [done| |done|done|done]. split; [done|done|done|done|done|].
  by apply (Forall_replicate is_entry 256 0).
Qed.

(** "hi", DEL (erase), "o", newline: the editor's queue is "ho" and the newline. *)
Lemma in_process_edits_witness :
  e_queue (edit (ts_line booted 0) nothing [104; 105; 127; 111; 10]) = [104; 111; Z.lor 10 IN_EOT] /\
  exists s', in_process 0x3fcef000 0 [104; 105; 127; 111; 10] booted = (Ok 5, s') /\
    contents (tty_q (ts_line s' 0)) = [104; 111; Z.lor 10 IN_EOT].
Proof.
  split; [vm_compute; reflexivity|].
  pose proof (in_process_edits 0x3fcef000 0 [104; 105; 127; 111; 10] nothing booted boot_edits ltac:(reflexivity)) as H.
  destruct (in_process _ _ _ booted) as [[x|n] s']; [by destruct H|]. destruct H as (-> & H & _). exists s'.
  split; [done|]. rewrite (ea_queue _ _ H). vm_compute. reflexivity.
Defined.
End QueueDemo.
