(* ===== verification/TtyRead.v ===== *)
(** * Reading from the input queue

    [takes] says what a read of [n] bytes gets out of a queue and what it
    leaves there; [in_transfer] does just that, 64 bytes at a time. *)
From S2P Require Import Prelude Codec Kconst Ktypes Sched Ipc IpcSpec Message Signals Clock Display Tty TtyIn TtyTask TtyReply TtyQueue.

(** The bytes, the entries left in the queue, and the bytes still wanted.  An
    end of file gives no byte; nothing is taken while no entry ends a line;
    and a canonical reader gets one line. *)
Fixpoint takes (canon : bool) (n : Z) (l : list Z) : list Z * list Z * Z :=
  match l with
  | [] => ([], [], n)
  | e :: l' =>
      if negb ((0 <? n) && (0 <? eots l)) then ([], l, n) else
      let n := if has e IN_EOF then n else n - 1 in
      let n := if is_eot e && canon then 0 else n in
      let '(bs, rest, n) := takes canon n l' in
      (if has e IN_EOF then bs else Z.land e IN_CHAR :: bs, rest, n)
  end.

Lemma takes_none canon n l : n <= 0 -> takes canon n l = ([], l, n).
Proof. destruct l; [done|]. cbn [takes]. intros H. by destruct (Z.ltb_spec 0 n); [lia|]. Qed.

Lemma eots_cons e l : eots (e :: l) = of_bool (is_eot e) + eots l.
Proof. change (e :: l) with ([e] ++ l). by rewrite eots_app, eots_one. Qed.

(** A line ends at its [IN_EOT]; one that is an end of file gives no byte. *)
Lemma takes_line l e rest n :
  Forall (fun x => is_eot x = false /\ has x IN_EOF = false) l -> is_eot e = true -> lenZ l < n ->
  takes true n (l ++ e :: rest) =
  (map (fun x => Z.land x IN_CHAR) l ++ (if has e IN_EOF then [] else [Z.land e IN_CHAR]), rest, 0).
Proof.
  intros Hl He. revert n. induction Hl as [|x l [Hx Hf] Hl IH]; intros n Hn.
  - change (lenZ (@nil Z)) with 0 in Hn. cbn [app takes map]. rewrite eots_cons, He.
    pose proof (eots_nonneg rest). destruct (Z.ltb_spec 0 n); [|lia]. cbn [of_bool].
    destruct (Z.ltb_spec 0 (1 + eots rest)); [|lia]. cbn [negb andb]. rewrite takes_none by lia. by destruct (has e IN_EOF).
  - assert (El : lenZ (x :: l) = 1 + lenZ l) by (unfold lenZ; cbn [length]; lia). rewrite El in Hn. pose proof (lenZ_nonneg l).
    cbn [app takes map]. rewrite eots_cons, eots_app, eots_cons, Hx, He, Hf. cbn [of_bool andb].
    pose proof (eots_nonneg l). pose proof (eots_nonneg rest).
    destruct (Z.ltb_spec 0 n); [|lia]. destruct (Z.ltb_spec 0 (0 + (eots l + (1 + eots rest)))); [|lia]. cbn [negb andb].
    by rewrite IH by lia.
Qed.

(** A transfer that has delivered [n] bytes and wants [m] more. *)
Definition advance (m n : Z) (r : xfer) : xfer := set_cum (cum r + n) (set_vir (vir r +u n) (set_left m r)).

Lemma advance_advance m1 n1 m n r : advance m n (advance m1 n1 r) = advance m (n1 + n) r.
Proof.
  unfold advance, set_cum, set_vir, set_left, wrap32. cbn. rewrite Zplus_mod_idemp_l. f_equal; [f_equal|]; lia.
Qed.

Section TtyRead.
Context {P K : Type} `{PANEL : Panel P} `{KBD : Keyboard K} `{TRAP : SendTrap} `{SIG : SigSet}.
Context (tp : Z).
Abbreviation TM := (M (tst P K)).
Abbreviation here s := (ts_line s tp).
Abbreviation there s := (tty_in (ts_line s tp)).

(** From [s] to [s'] the bytes [bs] were stored at [dest], [m] more are wanted,
    the queue is left with [rest], and nothing else happened. *)
Record moved (dest m : Z) (bs rest : list Z) (s s' : tst P K) : Prop := {
  mv_ok : queue_ok (tty_q (here s'));
  mv_queue : contents (tty_q (here s')) = rest;
  mv_line : exists q', here s' = set_tty_in (advance m (lenZ bs) (there s)) (set_tty_q q' (here s));
  mv_lines : forall i, i <> tp -> ts_line s' i = ts_line s i;
  mv_mem : exists mem', ts_c s' = kproc (set_k_mem mem') (ts_c s) /\ mem' ≡m mem_write (k_mem (ts_k s)) dest bs;
  mv_timelist : ts_timelist s' = ts_timelist s; mv_timeout : ts_timeout s' = ts_timeout s;
  mv_keys : ts_keys s' = ts_keys s; mv_screen : ts_screen s' = ts_screen s;
  mv_kbd : ts_kbd s' = ts_kbd s; mv_replies : ts_replies s' = ts_replies s }.

Lemma moved_trans dest m1 m D E l1 l2 s s1 s2 :
  moved dest m1 D l1 s s1 -> moved (dest + lenZ D) m E l2 s1 s2 -> moved dest m (D ++ E) l2 s s2.
Proof.
  intros [A1 A2 (q1 & A3) A4 (mem1 & A5 & A6) A7 A8 A9 A10 A11 A12] [B1 B2 (q2 & B3) B4 (mem2 & B5 & B6) B7 B8 B9 B10 B11 B12].
  split; try congruence.
  - exists q2. rewrite B3, A3, lenZ_app. unfold set_tty_in, set_tty_q. cbn. by rewrite advance_advance.
  - intros i Hi. by rewrite B4, A4.
  - exists mem2. split; [rewrite B5, A5; done|]. rewrite B6. unfold ts_k. rewrite A5. cbn.
    rewrite A6. apply mem_write_app.
Qed.

Lemma moved_attrs dest m D l s s' :
  moved dest m D l s s' -> there s' = advance m (lenZ D) (there s) /\ tty_termios (here s') = tty_termios (here s).
Proof. intros H. destruct (mv_line _ _ _ _ _ _ H) as (q & ->). done. Qed.

(** What only changes the line. *)
Lemma moved_line dest m (s s' : tst P K) :
  queue_ok (tty_q (here s')) -> 0 <= vir (there s) < 4294967296 ->
  (exists q', here s' = set_tty_in (set_left m (there s)) (set_tty_q q' (here s))) ->
  (forall i, i <> tp -> ts_line s' i = ts_line s i) -> set_ts_line (ts_line s) s' = s ->
  moved dest m [] (contents (tty_q (here s'))) s s'.
Proof.
  intros Hok Hv (q & Hl) Ho E. split; try done; try (rewrite <- E; done).
  - exists q. rewrite Hl. unfold advance. cbn. change (lenZ (@nil Z)) with 0. rewrite !Z.add_0_r, wrap32_small by done. done.
  - exists (k_mem (ts_k s)). split; [|symmetry; apply mem_write_nil]. assert (ts_c s' = ts_c s) as -> by (by rewrite <- E).
    unfold ts_k, kproc, ktask. by destruct (ts_c s) as [[[] ?] ?].
Qed.

Lemma deliver_spec buf dest m rest s :
  queue_ok (tty_q (here s)) -> contents (tty_q (here s)) = rest -> left (there s) = m ->
  exists s', deliver tp buf dest s = (Ok tt, s') /\ tty_q (here s') = tty_q (here s) /\ moved dest m buf rest s s'.
Proof.
  intros Hok Hq Hm. unfold deliver, on_kernel, updl. rewrite bind_modify. eexists. split; [done|].
  split; [cbn; by rewrite Z.eqb_refl|]. split; cbn; rewrite ?Z.eqb_refl; try done.
  - exists (tty_q (here s)). unfold advance, set_tty_in, set_tty_q. cbn. rewrite <- Hm. by destruct (here s) as [].
  - intros i Hi. by destruct (Z.eqb_spec i tp).
  - by exists (mem_write (k_mem (ts_k s)) dest buf).
Qed.

(** Taking the first entry out of the queue. *)
Definition drop_entry (ch : Z) (canon : bool) : TM unit :=
  updl tp (fun t => let q := tty_q t in set_tty_q (set_incount (incount q - 1) (set_intail (incr (intail q)) q)) t) ;;;
  if has ch IN_EOT then
    updl tp (fun t => let q := tty_q t in set_tty_q (set_eotct (eotct q - 1) q) t) ;;;
    if canon then updl tp (fun t => set_tty_in (set_left 0 (tty_in t)) t) else ret tt
  else ret tt.

Lemma drop_entry_spec dest canon s :
  queue_ok (tty_q (here s)) -> 0 < incount (tty_q (here s)) -> 0 <= vir (there s) < 4294967296 ->
  let ch := nthZ (inbuf (tty_q (here s))) (intail (tty_q (here s))) in
  exists s', drop_entry ch canon s = (Ok tt, s') /\
    moved dest (if is_eot ch && canon then 0 else left (there s)) [] (contents (pop_first (tty_q (here s)))) s s'.
Proof.
  intros Hok Hpos Hv ch. pose proof (pop_first_ok _ Hok Hpos) as Hp.
  set (m := if is_eot ch && canon then 0 else left (there s)).
  assert (E : exists s', drop_entry ch canon s = (Ok tt, s') /\
    here s' = set_tty_in (set_left m (there s)) (set_tty_q (pop_first (tty_q (here s))) (here s)) /\
    (forall i, i <> tp -> ts_line s' i = ts_line s i) /\ set_ts_line (ts_line s) s' = s).
  { unfold drop_entry, updl, m, pop_first. fold ch. rewrite bind_modify. change (has ch IN_EOT) with (is_eot ch).
    destruct (is_eot ch); cbn [andb]; [rewrite bind_modify; destruct canon|]; eexists; (split; [done|]); cbn;
      rewrite ?Z.eqb_refl; (split; [by destruct (here s) as [? ? ? ? ? ? ? ? ? ? ? []]|]); (split; [|by destruct s]);
      intros i Hi; by destruct (Z.eqb_spec i tp). }
  destruct E as (s' & E & Hl & Ho & Es). exists s'. split; [done|].
  assert (Hq : tty_q (here s') = pop_first (tty_q (here s))) by (by rewrite Hl).
  rewrite <- Hq. apply moved_line; rewrite ?Hq; try done. by exists (pop_first (tty_q (here s))).
Qed.

(** One entry of the queue: [byte_of e] is what it gives. *)
Definition byte_given (e : Z) : list Z := if has e IN_EOF then [] else [Z.land e IN_CHAR].

(** The byte goes to the buffer, and a full buffer to the reader. *)
Definition buffer_byte (ch : Z) (a : list Z * Z) : TM (list Z * Z) :=
  if has ch IN_EOF then ret a else
  let (buf, destination) := a in
  let buf := buf ++ [Z.land ch IN_CHAR] in
  updl tp (fun t => set_tty_in (set_left (left (tty_in t) - 1) (tty_in t)) t) ;;;
  if lenZ buf =? 64 then deliver tp buf destination ;;; ret ([], destination +u 64) else ret (buf, destination).

Lemma buffer_byte_spec ch buf dest s :
  queue_ok (tty_q (here s)) -> 0 <= vir (there s) < 4294967296 -> 0 < left (there s) -> lenZ buf < 64 ->
  0 <= dest -> dest + lenZ buf + left (there s) < 4294967296 ->
  exists s' D buf', buffer_byte ch (buf, dest) s = (Ok (buf', dest + lenZ D), s') /\
    buf ++ byte_given ch = D ++ buf' /\ lenZ buf' < 64 /\ tty_q (here s') = tty_q (here s) /\
    moved dest (if has ch IN_EOF then left (there s) else left (there s) - 1) D (contents (tty_q (here s))) s s'.
Proof.
  intros Hok Hv Hl Hb Hd Hw. unfold buffer_byte, byte_given. destruct (has ch IN_EOF).
  { exists s, [], buf. change (lenZ (@nil Z)) with 0. rewrite Z.add_0_r, app_nil_r. split_and!; [done..|].
    apply moved_line; [done|done| |done|by destruct s]. exists (tty_q (here s)).
    by destruct (here s) as [? ? ? ? ? ? ? ? ? ? ? []]. }
  unfold updl. rewrite bind_modify. set (s1 := set_ts_line _ s).
  assert (H1 : here s1 = set_tty_in (set_left (left (there s) - 1) (there s)) (here s)) by (cbn; by rewrite Z.eqb_refl).
  assert (M1 : moved dest (left (there s) - 1) [] (contents (tty_q (here s))) s s1).
  { replace (tty_q (here s)) with (tty_q (here s1)) by (by rewrite H1). apply moved_line; [by rewrite H1|done| | |by destruct s].
    - exists (tty_q (here s)). rewrite H1. by destruct (here s).
    - intros i Hi. cbn. by destruct (Z.eqb_spec i tp). }
  clearbody s1. pose proof (lenZ_nonneg buf).
  assert (El : lenZ (buf ++ [Z.land ch IN_CHAR]) = lenZ buf + 1) by (by rewrite lenZ_app). rewrite El.
  destruct (Z.eqb_spec (lenZ buf + 1) 64) as [E64|N64].
  - destruct (deliver_spec (buf ++ [Z.land ch IN_CHAR]) dest (left (there s) - 1) (contents (tty_q (here s))) s1)
      as (s2 & E2 & Q2 & M2); [by rewrite H1..|]. rewrite (bind_ok _ _ _ _ _ E2).
    exists s2, (buf ++ [Z.land ch IN_CHAR]), []. rewrite app_nil_r, El, E64, wrap32_small by lia.
    split_and!; [done|done|done|by rewrite Q2, H1|]. replace dest with (dest + lenZ (@nil Z)) in M2 by (apply Z.add_0_r).
    by apply (moved_trans dest (left (there s) - 1) _ [] _ (contents (tty_q (here s))) _ s s1).
  - exists s1, [], (buf ++ [Z.land ch IN_CHAR]). change (lenZ (@nil Z)) with 0. rewrite Z.add_0_r.
    split_and!; [done|done|lia|by rewrite H1|done].
Qed.

Lemma take_entry_spec e l buf dest s :
  queue_ok (tty_q (here s)) -> 0 <= vir (there s) < 4294967296 -> 0 < left (there s) -> lenZ buf < 64 ->
  0 <= dest -> dest + lenZ buf + left (there s) < 4294967296 ->
  contents (tty_q (here s)) = e :: l -> 0 < eots (e :: l) ->
  exists s' D buf', take_entry tp (buf, dest) s = (Ok (Continue (buf', dest + lenZ D)), s') /\
    buf ++ byte_given e = D ++ buf' /\ lenZ buf' < 64 /\
    moved dest (if is_eot e && lflag (here s) ICANON then 0 else if has e IN_EOF then left (there s) else left (there s) - 1)
      D l s s'.
Proof.
  intros Hok Hv Hl Hb Hd Hw Hq He.
  assert (Hpos : 0 < incount (tty_q (here s))).
  { rewrite <- (length_view _ Hok), <- (lenZ_map strip). change (map strip (view (tty_q (here s)))) with (contents (tty_q (here s))).
    rewrite Hq. unfold lenZ. cbn [length]. lia. }
  set (ch := nthZ (inbuf (tty_q (here s))) (intail (tty_q (here s)))).
  assert (Hch : e = strip ch /\ contents (pop_first (tty_q (here s))) = l).
  { unfold contents in Hq. rewrite (view_first _ Hok Hpos) in Hq. cbn [map] in Hq. by injection Hq as <- <-. }
  destruct Hch as [-> Hl']. rewrite strip_eot, strip_eof. unfold byte_given. rewrite strip_eof, strip_char.
  destruct (buffer_byte_spec ch buf dest s) as (s1 & D & buf' & E1 & HD & Hb' & Q1 & M1); [done..|].
  destruct (moved_attrs _ _ _ _ _ _ M1) as [T1 T2].
  destruct (drop_entry_spec (dest + lenZ D) (lflag (here s) ICANON) s1) as (s2 & E2 & M2);
    [by rewrite Q1|by rewrite Q1|rewrite T1; apply wrap32_range|].
  rewrite Q1 in E2, M2. fold ch in E2, M2. rewrite Hl', T1 in M2.
  exists s2, D, buf'. split; [|split_and!; [done|done|]].
  - unfold take_entry, line. rewrite bind_gets. cbv zeta. fold ch.
    assert (Hn : eotct (tty_q (here s)) = eots (strip ch :: l)) by (rewrite <- Hq, (qo_eots _ Hok); unfold contents; by rewrite eots_strip).
    rewrite Hn. destruct (Z.ltb_spec 0 (left (there s))); [|lia]. destruct (Z.ltb_spec 0 (incount (tty_q (here s)))); [|lia].
    destruct (Z.ltb_spec 0 (eots (strip ch :: l))); [|lia]. cbn [negb andb].
    rewrite (bind_ok _ _ _ _ _ E1), <- bind_assoc. by rewrite (bind_ok _ _ _ _ _ E2).
  - rewrite <- (app_nil_r D). exact (moved_trans dest _ _ D [] _ l s s1 s2 M1 M2).
Qed.

(** The loop takes what [takes] says. *)
Lemma transfer_loop n buf dest s :
  queue_ok (tty_q (here s)) -> 0 <= vir (there s) < 4294967296 -> lenZ buf < 64 ->
  0 <= left (there s) -> 0 <= dest -> dest + lenZ buf + left (there s) < 4294967296 ->
  (length (contents (tty_q (here s))) < n)%nat ->
  let '(bs, rest, m) := takes (lflag (here s) ICANON) (left (there s)) (contents (tty_q (here s))) in
  exists s' D buf', loop n (take_entry tp) ret (buf, dest) s = (Ok (buf', dest + lenZ D), s') /\
    buf ++ bs = D ++ buf' /\ moved dest m D rest s s'.
Proof.
  revert buf dest s. induction n as [|n IH]; intros buf dest s Hok Hv Hb Hl Hd Hw Hn; [lia|]. cbn [loop].
  assert (Hstop : forall l m, contents (tty_q (here s)) = l -> left (there s) = m -> negb ((0 <? m) && (0 <? eots l)) = true ->
    exists s' D buf', (t <- take_entry tp (buf, dest) ;; match t with Continue a' => loop n (take_entry tp) ret a' | Break b => ret b end) s =
      (Ok (buf', dest + lenZ D), s') /\ buf ++ [] = D ++ buf' /\ moved dest m D l s s').
  { intros l m Hq Hm E. exists s, [], buf. change (lenZ (@nil Z)) with 0. rewrite Z.add_0_r, app_nil_r.
    split; [|split; [done|]].
    - unfold take_entry, line. rewrite bind_assoc, bind_gets. cbv zeta.
      replace (eotct (tty_q (here s))) with (eots l); [|by rewrite <- Hq, (qo_eots _ Hok); unfold contents; rewrite eots_strip].
      rewrite Hm. destruct (0 <? incount _); [|by rewrite andb_false_r]. by rewrite andb_true_r, E.
    - rewrite <- Hq, <- Hm. apply moved_line; [done|done| |done|by destruct s]. exists (tty_q (here s)).
      by destruct (here s) as [? ? ? ? ? ? ? ? ? ? ? []]. }
  destruct (contents (tty_q (here s))) as [|e l] eqn:Hq; cbn [takes]; [by apply Hstop; [| |rewrite andb_false_r]|].
  destruct (negb _) eqn:E; [by apply Hstop|]. apply negb_false_iff, andb_true_iff in E as [El Ee].
  apply Z.ltb_lt in El, Ee.
  destruct (take_entry_spec e l buf dest s) as (s1 & D & buf1 & E1 & HD & Hb1 & M1); [done..|].
  destruct (moved_attrs _ _ _ _ _ _ M1) as [T1 T2]. rewrite (bind_ok _ _ _ _ _ E1).
  set (m := if is_eot e && _ then 0 else _) in *.
  assert (Hg : lenZ (byte_given e) = if has e IN_EOF then 0 else 1) by (unfold byte_given; by destruct (has e IN_EOF)).
  assert (Hlen : lenZ buf + lenZ (byte_given e) = lenZ D + lenZ buf1) by (by rewrite <- !lenZ_app, HD).
  pose proof (lenZ_nonneg D). pose proof (lenZ_nonneg buf1).
  assert (Hm : 0 <= m /\ m + lenZ (byte_given e) <= left (there s)).
  { rewrite Hg. unfold m. destruct (is_eot e && _); destruct (has e IN_EOF); lia. }
  specialize (IH buf1 (dest + lenZ D) s1). rewrite T1, (mv_queue _ _ _ _ _ _ M1) in IH. cbn [advance set_cum set_vir set_left vir left] in IH.
  assert (Hc : lflag (here s1) ICANON = lflag (here s) ICANON) by (unfold lflag; by rewrite T2).
  rewrite Hc in IH. fold m. destruct (takes (lflag (here s) ICANON) m l) as [[bs rest] m'].
  destruct IH as (s2 & D2 & buf2 & E2 & HD2 & M2); [apply M1|apply wrap32_range|done|lia|lia|lia|cbn in Hn; lia|].
  exists s2, (D ++ D2), buf2. rewrite lenZ_app, Z.add_assoc. split; [done|]. split; [|by eapply moved_trans].
  rewrite <- app_assoc, <- HD2, app_assoc, <- HD, <- app_assoc. f_equal. unfold byte_given. by destruct (has e IN_EOF).
Qed.

Lemma deliver_rest buf dest m rest s :
  queue_ok (tty_q (here s)) -> contents (tty_q (here s)) = rest -> left (there s) = m -> 0 <= vir (there s) < 4294967296 ->
  exists s', (match buf with [] => ret tt | _ => deliver tp buf dest end) s = (Ok tt, s') /\ moved dest m buf rest s s'.
Proof.
  intros Hok Hq Hm Hv. destruct buf as [|c buf].
  - exists s. split; [done|]. rewrite <- Hq, <- Hm. apply moved_line; [done|done| |done|by destruct s].
    exists (tty_q (here s)). by destruct (here s) as [? ? ? ? ? ? ? ? ? ? ? []].
  - destruct (deliver_spec (c :: buf) dest m rest s) as (s' & E & _ & M); [done..|]. by exists s'.
Qed.

(** C26: a transfer delivers what the reader asked for.  With a reader waiting,
    its buffer addressable and enough entries, [in_transfer] stores at the
    reader's address the bytes that [takes] says, in order, however often the
    64-byte buffer fills up; it leaves in the queue the entries that [takes]
    leaves, and changes nothing else.  If nothing more is wanted then - the
    count is used up, or a line or the file ended - the reader is told how
    many bytes it got, counting earlier transfers, and the read is over;
    otherwise it goes on waiting, for what is still wanted. *)
Theorem in_transfer_exact s :
  let r := there s in
  let destination := numap (ts_k s) (for_proc r) (vir r) (left r) in
  queue_ok (tty_q (here s)) -> 0 <= vir r < 4294967296 ->
  0 < left r -> tty_min (here s) <= eots (contents (tty_q (here s))) ->
  0 < destination -> destination + left r < 4294967296 ->
  let '(bs, rest, m) := takes (lflag (here s) ICANON) (left r) (contents (tty_q (here s))) in
  exists s', moved destination m bs rest s s' /\
    in_transfer tp s =
      (if m =? 0 then tty_reply (repcode r) (caller r) (for_proc r) (cum r + lenZ bs) ;;; finish_read tp else ret tt) s'.
Proof.
  intros r destination Hok Hv Hl Hmin Hd Hw.
  pose proof (transfer_loop 257 [] destination s Hok Hv eq_refl ltac:(fold r; lia) ltac:(lia)
    ltac:(change (lenZ (@nil Z)) with 0; fold r; lia)) as T. fold r in T.
  destruct (takes (lflag (here s) ICANON) (left r) (contents (tty_q (here s)))) as [[bs rest] m].
  destruct T as (s1 & D & buf & E1 & HD & M1).
  { unfold contents. rewrite length_map. pose proof (length_view _ Hok). pose proof (qo_count _ Hok).
    unfold lenZ, TTY_IN_BYTES in *. lia. }
  destruct (moved_attrs _ _ _ _ _ _ M1) as [T1 _].
  destruct (deliver_rest buf (destination + lenZ D) m rest s1) as (s2 & E2 & M2);
    [apply M1|apply M1|by rewrite T1|rewrite T1; apply wrap32_range|].
  pose proof (moved_trans _ _ _ _ _ _ _ _ _ _ M1 M2) as M. rewrite <- HD in M. cbn [app] in M.
  exists s2. split; [done|]. destruct (moved_attrs _ _ _ _ _ _ M) as [T2 _].
  unfold in_transfer, line. rewrite bind_gets. cbv zeta. fold r.
  assert (Hn : (left r =? 0) || (eotct (tty_q (here s)) <? tty_min (here s)) = false).
  { apply orb_false_iff. split; [apply Z.eqb_neq; lia|]. apply Z.ltb_ge. rewrite (qo_eots _ Hok).
    unfold contents in Hmin. by rewrite eots_strip in Hmin. }
  rewrite Hn, bind_gets. fold destination. destruct (Z.eqb_spec destination 0); [lia|].
  rewrite (bind_ok _ _ _ _ _ E1). cbv beta iota. rewrite (bind_ok _ _ _ _ _ E2).
  cbv beta zeta. rewrite bind_gets. cbv zeta. rewrite T2. fold r.
  change (left (advance m (lenZ bs) r)) with m. change (cum (advance m (lenZ bs) r)) with (cum r + lenZ bs). done.
Qed.
End TtyRead.

Module ReadDemo.
Import TtyDemo.
(** "ho", a newline and an "x" were typed; process 1 reads ten bytes. *)
Definition typed_in : tst (Z -> Z -> Z) (list Z) :=
  snd (in_process 0x3fcef000 0 [104; 111; 10; 120] (TtyDemo.boot [])).
Definition wait (s : tst (Z -> Z -> Z) (list Z)) : tst (Z -> Z -> Z) (list Z) :=
  set_ts_line (fun i => set_tty_in (Xfer 68 1 1 0x3fc90100 10 0) (ts_line s i)) s.
Abbreviation waiting := (wait typed_in).

Lemma waiting_queue : queue_ok (tty_q (ts_line waiting 0)) /\ contents (tty_q (ts_line waiting 0)) = [104; 111; Z.lor 10 IN_EOT; 120].
Proof.
  pose proof (in_process_from_edits 0x3fcef000 0 [104; 111; 10; 120] QueueDemo.nothing 0 false _ QueueDemo.boot_edits ltac:(reflexivity)) as H.
  assert (G : forall s, tty_q (ts_line (wait s) 0) = tty_q (ts_line s 0)) by reflexivity. rewrite G. clear G.
  unfold typed_in, in_process. destruct (in_process_from _ _ _ _ _ _) as [[x|n] s']; [by destruct H|].
  destruct H as (_ & H & _). cbn [snd]. split; [apply H|]. rewrite (ea_queue _ _ H). vm_compute. reflexivity.
Qed.

(** The line is delivered with its newline; the "x" stays. *)
Lemma in_transfer_exact_witness :
  exists s', moved 0 0x3fc90100 0 [104; 111; 10] [120] waiting s' /\
    in_transfer 0 waiting = (tty_reply 68 1 1 3 ;;; finish_read 0) s'.
Proof.
  destruct waiting_queue as [Hok Hq].
  pose proof (in_transfer_exact 0 waiting Hok) as H. rewrite Hq in H.
  assert (En : numap (ts_k waiting) 1 0x3fc90100 10 = 0x3fc90100) by (vm_compute; reflexivity).
  assert (Er : tty_in (ts_line waiting 0) = Xfer 68 1 1 0x3fc90100 10 0).
  { assert (G : forall s, tty_in (ts_line (wait s) 0) = Xfer 68 1 1 0x3fc90100 10 0) by reflexivity. apply G. }
  assert (Em : tty_min (ts_line waiting 0) = 1) by (vm_compute; reflexivity).
  assert (Ec : lflag (ts_line waiting 0) ICANON = true) by (vm_compute; reflexivity).
  rewrite Er, Em, Ec in H. cbn [vir for_proc left repcode caller cum] in H. rewrite En in H.
  assert (Et : takes true 10 [104; 111; Z.lor 10 IN_EOT; 120] = ([104; 111; 10], [120], 0)) by (vm_compute; reflexivity).
  rewrite Et in H. change (0 + lenZ [104; 111; 10]) with 3 in H. rewrite Z.eqb_refl in H.
  assert (Ee : eots [104; 111; Z.lor 10 IN_EOT; 120] = 1) by (vm_compute; reflexivity). rewrite Ee in H.
  assert (N : 0 <= 0x3fc90100 < 4294967296) by lia. specialize (H N ltac:(lia) ltac:(lia) ltac:(lia) ltac:(lia)). exact H.
Defined.
End ReadDemo.
