(* ===== verification/TtyEvents.v ===== *)
(** * The event loop of a terminal ends

    [handle_events] goes round its loop while a character it processed set
    [tty_events] again.  Each such turn has used up a key or finished a
    waiting ioctl, so a keyboard with finitely many pending events is enough
    for the loop to end. *)
From S2P Require Import Prelude Codec Kconst Ktypes Sched Ipc IpcSpec Message Signals Clock Display Tty TtyIn TtyTask TtyReply.

(** A keyboard with a count of the events it still has to give. *)
Class PendingKeys (K : Type) {KBD : Keyboard K} := {
  pending : K -> nat;
  pending_asserted : forall k, (pending (snd (cardputer_keyboard_interrupt_asserted k)) <= pending k)%nat;
  pending_event : forall k, let '(r, _, k') := cp32_read_keyboard_event k in
    (pending k' <= pending k)%nat /\ (0 < r -> (pending k' < pending k)%nat) }.

(** A signal that cannot be told to MM is a panic; nothing else fails. *)
Definition panics {W A} (c : M W A) : Prop := forall w, match c w with (Err e, _) => e = PANIC | (Ok _, _) => True end.

Lemma panics_bind {W A B} (c : M W A) (k : A -> M W B) : panics c -> (forall a, panics (k a)) -> panics (bind c k).
Proof. intros Hc Hk w. specialize (Hc w). unfold bind. destruct (c w) as [[e|a] w1]; [done|]. apply Hk. Qed.
Lemma panics_gets {W A} (f : W -> A) : panics (gets f).
Proof. done. Qed.
Lemma panics_modify {W} (f : W -> W) : panics (modify f).
Proof. done. Qed.
Lemma panics_try {W A} (c : M W A) : panics (try c).
Proof. intros w. unfold try. by destruct (c w). Qed.

Lemma panics_cause_sig `{SigSet} m_at proc_nr sig_nr : panics (cause_sig m_at proc_nr sig_nr).
Proof.
  unfold cause_sig, inform.
  repeat first [done | apply panics_gets | apply panics_modify | apply panics_try | apply panics_bind; [|intros ?]
    | match goal with |- panics (if ?b then _ else _) => destruct b | |- panics (match ?x with _ => _ end) => destruct x end].
Qed.

Create HintDb within discriminated.

(** ** What stays within a relation of the line *)
Section Within.
Context {P K : Type} `{PANEL : Panel P} `{KBD : Keyboard K} `{TRAP : SendTrap} `{SIG : SigSet}.
Context (m_at tp : Z).
Abbreviation TM := (M (tst P K)).
Abbreviation here s := (ts_line s tp).
(** [L] is the relation; it holds when the event flag and the ioctl stay. *)
Context (L : tty -> tty -> Prop) `{!PreOrder L}.
Context (quiet : forall t t', tty_events t' = tty_events t -> tty_io t' = tty_io t -> L t t').

Definition within {A} (c : TM A) : Prop := forall s,
  match c s with (Ok _, s') => ts_kbd s' = ts_kbd s /\ L (here s) (here s') | (Err e, _) => e <> HUNG end.

Lemma within_ret {A} (a : A) : within (ret a).
Proof. intros s. by split. Qed.
Lemma within_fail {A} e : e <> HUNG -> within (fail (A := A) e).
Proof. intros H s. exact H. Qed.
Lemma within_gets {A} (f : tst P K -> A) : within (gets f).
Proof. intros s. by split. Qed.
Lemma within_bind {A B} (c : TM A) (k : A -> TM B) : within c -> (forall a, within (k a)) -> within (bind c k).
Proof.
  intros Hc Hk s. specialize (Hc s). unfold bind. destruct (c s) as [[e|a] s1]; [done|].
  specialize (Hk a s1). destruct (k a s1) as [[e|b] s2]; [done|]. destruct Hc as [K1 L1], Hk as [K2 L2].
  split; [by rewrite K2|by transitivity (here s1)].
Qed.
Lemma within_modify (f : tst P K -> tst P K) : (forall s, ts_kbd (f s) = ts_kbd s /\ ts_line (f s) = ts_line s) -> within (modify f).
Proof. intros H s. destruct (H s) as [E1 E2]. split; [done|]. by rewrite E2. Qed.
Lemma within_guard b e : e <> HUNG -> within (guard b e).
Proof. intros H. unfold guard. destruct b; [by apply within_fail|apply within_ret]. Qed.
Lemma within_updl f : (forall t, L t (f t)) -> within (updl tp f).
Proof. intros H s. split; [done|]. cbn. by rewrite Z.eqb_refl. Qed.
Lemma within_line : within (line tp).
Proof. apply within_gets. Qed.
Lemma within_on_screen f : within (on_screen f).
Proof. by apply within_modify. Qed.
Lemma within_on_kernel f : within (on_kernel f).
Proof. by apply within_modify. Qed.
Lemma within_processed ch : within (processed tp ch).
Proof.
  intros s. unfold processed, expand, out_process. destruct (out_loop _ _ _ _ _ _) as [[[? ?] ?] ?].
  split; [done|]. cbn. rewrite Z.eqb_refl. by apply quiet.
Qed.
Lemma within_loop {A B} n (body : A -> TM (turn A B)) done_ a :
  (forall a, within (body a)) -> (forall a, within (done_ a)) -> within (loop n body done_ a).
Proof.
  intros Hb Hd. revert a. induction n as [|n IH]; intros a; cbn [loop]; [apply Hd|].
  apply within_bind; [apply Hb|]. intros [a'|b]; [apply IH|apply within_ret].
Qed.
Lemma within_reply code replyee proc_nr status : within (tty_reply code replyee proc_nr status).
Proof.
  unfold tty_reply. apply within_bind; [apply within_gets|intros r].
  apply within_bind; [by apply within_guard|intros _; by apply within_modify].
Qed.

(** Through a computation; an update must keep the flag and the ioctl. *)
Ltac stay :=
  repeat first
    [ progress intros
    | solve [auto using within_ret, within_line, within_on_screen, within_on_kernel, within_processed, within_reply with within nocore]
    | apply within_gets
    | by apply within_fail
    | match goal with
      | |- within (bind _ _) => apply within_bind
      | |- within (updl _ _) => apply within_updl
      | |- within (loop _ _ _ _) => apply within_loop
      | |- within (modify _) => apply within_modify
      | |- within (if ?b then _ else _) => destruct b
      | |- within (match ?x with _ => _ end) => destruct x
      | |- L _ _ => apply quiet; repeat (done || match goal with |- context [if ?b then _ else _] => destruct b end)
      end ].

Lemma within_tty_echo ch : within (tty_echo tp ch).
Proof. unfold tty_echo, cp32_console_echo. stay. Qed.
#[local] Hint Resolve within_tty_echo : within.
Lemma within_echo_tab n len : within (echo_tab tp n len).
Proof. revert len. induction n as [|n IH]; intros len; cbn [echo_tab]; stay. Qed.
Lemma within_echo_back n : within (echo_back tp n).
Proof. induction n as [|n IH]; cbn [echo_back]; stay. Qed.
#[local] Hint Resolve within_echo_tab within_echo_back : within.
Lemma within_echo ch : within (echo tp ch).
Proof. unfold echo, echo_char. stay. Qed.
Lemma within_rawecho ch : within (rawecho tp ch).
Proof. unfold rawecho. stay. Qed.
#[local] Hint Resolve within_echo within_rawecho : within.
Lemma within_reprint_from n head : within (reprint_from tp n head).
Proof. revert head. induction n as [|n IH]; intros head; cbn [reprint_from]; stay. Qed.
#[local] Hint Resolve within_reprint_from : within.
Lemma within_reprint : within (reprint tp).
Proof. unfold reprint. stay. Qed.
Lemma within_rub_out n : within (rub_out tp n).
Proof. induction n as [|n IH]; cbn [rub_out]; stay. Qed.
#[local] Hint Resolve within_reprint within_rub_out : within.
Lemma within_back_over : within (back_over tp).
Proof. unfold back_over. stay. Qed.
#[local] Hint Resolve within_back_over : within.
Lemma within_kill_line n : within (kill_line tp n).
Proof. induction n as [|n IH]; cbn [kill_line]; stay. Qed.
#[local] Hint Resolve within_kill_line : within.
Lemma within_settimer on : within (settimer tp on).
Proof.
  unfold settimer. stay; [done..|]. match goal with |- context [if ?b then _ else _] => by destruct b end.
Qed.
#[local] Hint Resolve within_settimer : within.
Lemma within_tty_cause_sig pgrp sig : within (tty_cause_sig m_at pgrp sig).
Proof.
  intros s. unfold tty_cause_sig, tcall. pose proof (panics_cause_sig m_at pgrp sig (c_t (ts_c s))) as H.
  destruct (cause_sig _ _ _ _) as [[e|a] c]; [by subst|]. by split.
Qed.
Lemma within_in_transfer : within (in_transfer tp).
Proof. unfold in_transfer, take_entry, deliver, finish_read. stay. Qed.
#[local] Hint Resolve within_in_transfer : within.
Lemma within_extensions ch : within (extensions tp ch).
Proof. unfold extensions. stay. Qed.
Lemma within_canonical ch : within (canonical tp ch).
Proof. unfold canonical. stay. Qed.
Lemma within_enqueue_char ch timeset : within (enqueue_char tp ch timeset).
Proof. unfold enqueue_char. stay. Qed.
Lemma within_show_bytes bytes : within (show_bytes tp bytes).
Proof. induction bytes as [|ch bytes IH]; cbn [show_bytes]; stay. Qed.
#[local] Hint Resolve within_show_bytes : within.
Lemma within_console_write : within (cp32_console_write tp).
Proof. unfold cp32_console_write, console_turn. stay. Qed.
Lemma within_finish_read : within (finish_read tp).
Proof. unfold finish_read. stay. Qed.
End Within.

(** The relations: the ioctl stays, and also the event flag. *)
Definition same_ioctl (t t' : tty) : Prop := tty_io t' = tty_io t.
Definition same_events (t t' : tty) : Prop := tty_events t' = tty_events t /\ tty_io t' = tty_io t.
#[export] Instance same_ioctl_preorder : PreOrder same_ioctl.
Proof. unfold same_ioctl. split; [by intros t|]. intros t1 t2 t3. congruence. Qed.
#[export] Instance same_events_preorder : PreOrder same_events.
Proof. unfold same_events. split; [by intros t|]. intros t1 t2 t3 [] []. split; congruence. Qed.

Section Events.
Context {P K : Type} `{PANEL : Panel P} `{KBD : Keyboard K} `{TRAP : SendTrap} `{SIG : SigSet}.
Context (m_at tp : Z).
Abbreviation TM := (M (tst P K)).
Abbreviation here s := (ts_line s tp).
Abbreviation keeps_ioctl := (within (P := P) (K := K) tp same_ioctl).

Lemma quiet_ioctl t t' : tty_events t' = tty_events t -> tty_io t' = tty_io t -> same_ioctl t t'.
Proof. done. Qed.
Lemma quiet_events t t' : tty_events t' = tty_events t -> tty_io t' = tty_io t -> same_events t t'.
Proof. done. Qed.
#[local] Hint Extern 0 (PreOrder _) => typeclasses eauto : within.
#[local] Hint Resolve quiet_ioctl within_ret within_line within_echo within_tty_cause_sig within_extensions within_canonical
  within_enqueue_char within_settimer : within.

Ltac keep_ioctl :=
  repeat first
    [ progress intros
    | solve [auto with within nocore]
    | match goal with
      | |- within _ _ (bind _ _) => apply within_bind; [typeclasses eauto| |]
      | |- within _ _ (gets _) => apply within_gets; typeclasses eauto
      | |- within _ _ (updl _ _) => apply within_updl
      | |- within _ _ (if ?b then _ else _) => destruct b
      | |- within _ _ (match ?x with _ => _ end) => destruct x
      | |- same_ioctl _ _ => repeat (done || match goal with |- context [if ?b then _ else _] => destruct b end)
      end ].

Lemma io_sigchar sig : keeps_ioctl (sigchar m_at tp sig).
Proof. unfold sigchar. keep_ioctl. Qed.
#[local] Hint Resolve io_sigchar : within.
Lemma io_start_stop ch : keeps_ioctl (start_stop tp ch).
Proof. unfold start_stop. keep_ioctl. Qed.
Lemma io_signal_chars ch : keeps_ioctl (signal_chars m_at tp ch).
Proof. unfold signal_chars. keep_ioctl. Qed.
#[local] Hint Resolve io_start_stop io_signal_chars : within.
Lemma io_in_char ch timeset : keeps_ioctl (in_char m_at tp ch timeset).
Proof. unfold in_char. keep_ioctl. Qed.
#[local] Hint Resolve io_in_char : within.
Lemma io_in_process buf : keeps_ioctl (in_process m_at tp buf).
Proof.
  unfold in_process. generalize 0 false. induction buf as [|ch buf IH]; intros ct b; cbn [in_process_from]; keep_ioctl.
Qed.
Lemma io_setattr : keeps_ioctl (setattr m_at tp).
Proof. unfold setattr. keep_ioctl. Qed.
#[local] Hint Resolve io_setattr : within.
Lemma io_load_termios user_phys : keeps_ioctl (load_termios m_at tp user_phys).
Proof. unfold load_termios. keep_ioctl. Qed.

(** An ioctl that is not done leaves the flag; one that is done is gone. *)
Lemma dev_ioctl_spec (s : tst P K) :
  match dev_ioctl m_at tp s with
  | (Ok _, s') => ts_kbd s' = ts_kbd s /\ (s' = s \/ ioreq (tty_io (here s')) = 0)
  | (Err e, _) => e <> HUNG
  end.
Proof.
  unfold dev_ioctl, line. rewrite bind_gets. cbv zeta. destruct (0 <? left (tty_out (here s))); [by split; [|left]|].
  set (io := tty_io (here s)). set (c := if ioreq io !=? TCDRAIN then _ else _).
  assert (Hc : keeps_ioctl c).
  { unfold c. destruct (_ !=? _); [|by apply within_ret, _].
    apply within_bind; [typeclasses eauto|destruct (_ =? _); [unfold tty_icancel; keep_ioctl|by apply within_ret, _]|intros _].
    apply within_bind; [typeclasses eauto|apply within_gets, _|intros user_phys; apply io_load_termios]. }
  specialize (Hc s). unfold bind at 1. destruct (c s) as [[e|a] s1]; [done|]. destruct Hc as [K1 _].
  unfold updl. rewrite bind_modify. set (s2 := set_ts_line _ s1).
  pose proof (within_reply tp same_events REVIVE (iocaller io) (ioproc io) OK s2) as Hr.
  destruct (tty_reply _ _ _ _ s2) as [[e|u] s3]; [done|]. destruct Hr as [K3 [_ L3]]. split; [by rewrite K3|]. right.
  rewrite L3. cbn. by rewrite Z.eqb_refl.
Qed.
End Events.

Section Ends.
Context {P K : Type} `{PANEL : Panel P} `{KBD : Keyboard K} `{TRAP : SendTrap} `{SIG : SigSet} `{PEND : !PendingKeys K}.
Context (m_at tp : Z).
Abbreviation TM := (M (tst P K)).
Abbreviation here s := (ts_line s tp).

(** Keys are only used up, and without one the event flag stays. *)
Definition fed (s s' : tst P K) : Prop :=
  tty_io (here s') = tty_io (here s) /\ (pending (ts_kbd s') <= pending (ts_kbd s))%nat /\
  (pending (ts_kbd s') = pending (ts_kbd s) -> tty_events (here s') = tty_events (here s)).
Instance fed_preorder : PreOrder fed.
Proof.
  split; [by intros s|]. intros s1 s2 s3 (A1 & A2 & A3) (B1 & B2 & B3). split; [congruence|]. split; [lia|].
  intros E. rewrite B3, A3 by lia. done.
Qed.

Lemma console_keys_fed n (s : tst P K) :
  match console_keys m_at tp n s with (Ok _, s') => fed s s' | (Err e, _) => e <> HUNG end.
Proof.
  revert s. induction n as [|n IH]; intros s; cbn [console_keys]; [done|]. unfold bind at 1.
  pose proof (pending_asserted (ts_kbd s)) as H1. destruct (cardputer_keyboard_interrupt_asserted (ts_kbd s)) as [asserted k1].
  cbn [snd] in H1. assert (F1 : fed s (set_ts_kbd k1 s)) by (by split).
  destruct asserted; cbn [negb]; [|done]. unfold bind at 1. cbn [ts_kbd set_ts_kbd].
  pose proof (pending_event k1) as H2. destruct (cp32_read_keyboard_event k1) as [[r event] k2]. destruct H2 as [H2 H3].
  assert (F2 : fed s (set_ts_kbd k2 (set_ts_kbd k1 s))) by (split; [done|split; [cbn; lia|done]]).
  destruct (Z.leb_spec r 0) as [Hr|Hr]; [done|]. specialize (H3 Hr). unfold bind at 1.
  cbn [ts_keys set_ts_kbd]. destruct (cp32_cardputer_key event (ts_keys s)) as [o km]. cbn [fst snd].
  set (s2 := set_ts_keys km _). assert (Hlt : (pending (ts_kbd s2) < pending (ts_kbd s))%nat) by (cbn; lia).
  assert (L2 : here s2 = here s) by done. clearbody s2.
  match goal with |- context [bind ?c _ s2] => set (key := c) end.
  assert (Hin : match key s2 with
    | (Ok _, s') => ts_kbd s' = ts_kbd s2 /\ same_ioctl (here s2) (here s') | (Err e, _) => e <> HUNG end).
  { unfold key. destruct o as [ch|]; [|done]. unfold line. rewrite bind_gets. unfold bind.
    pose proof (io_in_process m_at tp [if (ch =? 8) && lflag (here s2) ICANON then cc (here s2) VERASE else ch] s2) as Hp.
    destruct (in_process _ _ _ s2) as [[e|a] s3]; done. }
  unfold bind at 1. destruct (key s2) as [[e|u] s3]; [done|]. destruct Hin as [K3 L3].
  specialize (IH s3). destruct (console_keys _ _ _ s3) as [[e|u'] s4]; [done|]. transitivity s3; [|done].
  rewrite <- K3 in Hlt. split; [by rewrite L3, L2|]. split; lia.
Qed.

(** The keys still to come and the ioctl still to do. *)
Definition work (s : tst P K) : nat := (pending (ts_kbd s) + if (ioreq (tty_io (here s)) =? 0)%Z then 0 else 1)%nat.

Lemma devread_fed (s : tst P K) : match devread m_at tp s with (Ok _, s') => fed s s' | (Err e, _) => e <> HUNG end.
Proof. unfold devread, line. rewrite bind_gets. destruct (tty_dev _); [done|apply console_keys_fed|done]. Qed.

Lemma within_devwrite : within (P := P) (K := K) tp same_events (devwrite tp).
Proof.
  unfold devwrite. apply within_bind; [typeclasses eauto|apply within_line, _|intros t].
  destruct (tty_dev t); [by apply within_fail|apply within_console_write; [typeclasses eauto|apply quiet_events]|apply within_ret, _].
Qed.

Lemma event_turn_works (s : tst P K) :
  match event_turn m_at tp tt s with
  | (Ok (Continue _), s') => (work s' < work s)%nat
  | (Ok (Break _), _) => True
  | (Err e, _) => e <> HUNG
  end.
Proof.
  unfold event_turn, updl, line. rewrite bind_modify. set (s1 := set_ts_line _ s).
  assert (H1 : tty_events (here s1) = false /\ tty_io (here s1) = tty_io (here s) /\ ts_kbd s1 = ts_kbd s).
  { cbn. by rewrite Z.eqb_refl. }
  clearbody s1. destruct H1 as (E1 & I1 & K1). unfold bind at 1. pose proof (devread_fed s1) as H2.
  destruct (devread _ _ s1) as [[e|u] s2]; [done|]. destruct H2 as (I2 & P2 & E2).
  unfold bind at 1. pose proof (within_devwrite s2) as H3. destruct (devwrite _ s2) as [[e|u'] s3]; [done|].
  destruct H3 as [K3 [E3 I3]]. rewrite bind_gets. rewrite K1 in *.
  destruct (Z.eqb_spec (ioreq (tty_io (here s3))) 0) as [Z3|Z3]; cbn [negb].
  - unfold bind at 1. cbn [ret]. rewrite bind_gets. unfold ret. destruct (tty_events (here s3)) eqn:E; [|done].
    unfold work. rewrite K3. rewrite <- I1, <- I2, <- I3, Z3. cbn.
    assert (pending (ts_kbd s2) <> pending (ts_kbd s)); [|lia]. intros Hp. specialize (E2 Hp). congruence.
  - unfold bind at 1. pose proof (dev_ioctl_spec m_at tp s3) as H4. destruct (dev_ioctl _ _ s3) as [[e|w] s4]; [done|].
    destruct H4 as [K4 H4]. rewrite bind_gets. unfold ret. destruct (tty_events (here s4)) eqn:E; [|done].
    unfold work. rewrite K4, K3. rewrite <- I1, <- I2, <- I3. destruct (Z.eqb_spec (ioreq (tty_io (here s3))) 0); [done|].
    destruct H4 as [-> | H4]; [|rewrite H4, Z.eqb_refl; lia]. destruct (Z.eqb_spec (ioreq (tty_io (here s3))) 0); [done|].
    assert (pending (ts_kbd s2) <> pending (ts_kbd s)); [|lia]. intros Hp. specialize (E2 Hp). congruence.
Qed.

Abbreviation event_loop n := (loop n (event_turn m_at tp) (fun _ => fail HUNG) tt).

Lemma event_loop_ends n n' (s : tst P K) :
  (work s < n)%nat -> (work s < n')%nat ->
  event_loop n' s = event_loop n s /\ match event_loop n s with (Ok _, _) => True | (Err e, _) => e <> HUNG end.
Proof.
  revert n' s. induction n as [|n IH]; intros [|n'] s Hn Hn'; [lia..|]. cbn [loop]. unfold bind.
  pose proof (event_turn_works s) as H. destruct (event_turn _ _ _ s) as [[e|[[]|[]]] s1]; [by split| |by split].
  apply IH; lia.
Qed.

(** C27: handling the events of a terminal ends.  The event loop goes round
    again only after using up a key of the keyboard or completing a waiting
    ioctl, so with more turns than there are keys still to come and ioctls to
    do, [handle_events] never exhausts its turns, and its result is the same
    for every larger number of turns. *)
Theorem handle_events_ends fuel (s : tst P K) :
  (work s < fuel)%nat ->
  fst (handle_events m_at fuel tp s) <> Err HUNG /\
  forall fuel', (work s < fuel')%nat -> handle_events m_at fuel' tp s = handle_events m_at fuel tp s.
Proof.
  intros Hf. split.
  - unfold handle_events. destruct (event_loop_ends fuel fuel s Hf Hf) as [_ H]. unfold bind at 1.
    destruct (event_loop fuel s) as [[e|u] s1]; [cbn; congruence|].
    assert (Ht : within (P := P) (K := K) tp same_events (in_transfer tp ;;; t <- line tp ;;
      let r := tty_in t in
      (if (tty_min t <=? cum r) && (0 <? left r) then
         tty_reply (repcode r) (caller r) (for_proc r) (cum r) ;;; finish_read tp else ret tt) ;;;
      if tp =? 0 then t <- line tp ;; now <- gets (fun s => get_uptime (ts_c s)) ;;
        on_screen (cardputer_display_cursor ((0 <? left (tty_in t)) && lflag t ECHO) (wrap32 now)) else ret tt)).
    { repeat first [ progress intros | progress cbv zeta
        | apply within_in_transfer; [typeclasses eauto|apply quiet_events] | apply within_finish_read; apply quiet_events
        | apply within_reply, _ | apply within_ret, _ | apply within_line, _ | apply within_gets, _ | apply within_on_screen, _
        | apply within_bind; [typeclasses eauto| |] | match goal with |- within _ _ (if ?b then _ else _) => destruct b end ]. }
    specialize (Ht s1). match goal with |- fst ?x <> _ => destruct x as [[e|a] s2] end; cbn; congruence.
  - intros fuel' Hf'. unfold handle_events, bind. by destruct (event_loop_ends fuel fuel' s Hf Hf') as [-> _].
Qed.
End Ends.

Module EventsDemo.
Import TtyDemo.
#[export] Instance queue_pending : PendingKeys (list Z) := {
  pending := fun k => length k;
  pending_asserted := fun k => le_n (length k);
  pending_event := fun k => match k with
    | [] => conj (le_n 0) (fun H : 0 < 0 => match Z.lt_irrefl 0 H with end)
    | _ :: k => conj (Nat.le_succ_diag_r (length k)) (fun _ => le_n (S (length k))) end }.

(** Five keys are pressed: six turns are enough. *)
Lemma handle_events_ends_witness :
  work 0 (boot typed) = 5%nat /\ fst (handle_events 0x3fcef000 6 0 (boot typed)) <> Err HUNG /\
  handle_events 0x3fcef000 1000 0 (boot typed) = handle_events 0x3fcef000 6 0 (boot typed).
Proof.
  assert (W : work 0 (boot typed) = 5%nat) by (vm_compute; reflexivity). split; [done|].
  destruct (handle_events_ends 0x3fcef000 0 6 (boot typed)) as [H1 H2]; [rewrite W; lia|]. split; [done|].
  apply H2. rewrite W. lia.
Defined.
End EventsDemo.
