(* ===== verification/Exec.v ===== *)
(** * The initial stack of a program: src/src/mm/exec.c

    Vectors are lists of strings; [None] is a null pointer.  A string is the
    list of its bytes, [s[n]] past the end is its terminator.  The staging
    buffer is a byte function of its offsets. *)
From S2P Require Import Prelude.

Definition CP32_EXEC_STACK_MAX := 4096.
Definition CP32_EXEC_VECTOR_MAX := 32.
Definition cstring := option (list Z).

(** The four bytes of a word, least significant first. *)
Definition le_bytes (value : Z) : list Z := map (fun i => wrap8 (Z.shiftr value (i * 8))) [0; 1; 2; 3].

Definition stack_word (p value : Z) (buffer : mem) : mem := mem_write buffer p (le_bytes value).

(** [for(n=0;n<limit && s[n];n++) {}] *)
Fixpoint scan_string (fuel : nat) (limit : Z) (s : list Z) (n : Z) : Z :=
  match fuel with
  | O => n
  | S fuel => if (n <? limit) && truthy (nthZ s n) then scan_string fuel limit s (n + 1) else n
  end.

(** The validation loop: the lengths and the total, or the status. *)
Fixpoint measure_strings (capacity total : Z) (strings : list cstring) : res (list Z * Z) :=
  match strings with
  | [] => Ok ([], total)
  | None :: _ => Err (-1)
  | Some s :: strings =>
      let limit := capacity -u total in
      let n := scan_string (Z.to_nat limit) limit s 0 in
      if n =? limit then Err (-2)
      else match measure_strings capacity (total +u (n + 1)) strings with
           | Err e => Err e
           | Ok (lengths, total) => Ok (n + 1 :: lengths, total)
           end
  end.

(** [for(n=0;n<length;n++) p[n]=(unsigned char)s[n];] *)
Definition put_string (p length : Z) (s : list Z) (buffer : mem) : mem :=
  mem_write buffer p (map (fun n => wrap8 (nthZ s (Z.of_nat n))) (seq 0 (Z.to_nat length))).

(** The publishing loop from vector entry [i]. *)
Fixpoint place_strings (start top argc i offset : Z) (strings : list cstring) (lengths : list Z)
  (buffer : mem) : mem :=
  match strings, lengths with
  | Some s :: strings, n :: lengths =>
      let slot := if i <? argc then i + 1 else i + 2 in
      let buffer := stack_word (start + slot * 4) (top + offset) buffer in
      place_strings start top argc (i + 1) (offset + n) strings lengths
        (put_string (start + offset) n s buffer)
  | _, _ => buffer
  end.

(** The staging arguments that are refused outright; the null tests of
    [buffer] and [sp] are the caller's. *)
Definition bad_stack (capacity base : Z) : bool :=
  truthy (Z.land base 15) || truthy (Z.land capacity 15) || (capacity =? 0) ||
  (CP32_EXEC_STACK_MAX <? capacity) || (4294967295 - capacity <? base).

Definition cp32_exec_stack (buffer : mem) (capacity base : Z) (argv envp : list cstring)
  : res (mem * Z) :=
  if bad_stack capacity base then Err (-1) else
  let argc := lenZ argv in
  let envc := lenZ envp in
  if (CP32_EXEC_VECTOR_MAX <? argc) || (CP32_EXEC_VECTOR_MAX - argc <? envc) then Err (-2) else
  let count := argc + envc in
  let total := (count + 3) * 4 in
  if capacity <? total then Err (-2) else
  match measure_strings capacity total (argv ++ envp) with
  | Err e => Err e
  | Ok (lengths, total) =>
      let total := Z.land (total +u 15) (4294967295 - 15) in
      if capacity <? total then Err (-2) else
      let start := capacity - total in
      let top := base + start in
      let buffer := mem_write buffer start (replicate (Z.to_nat (capacity - start)) 0) in
      let buffer := stack_word start argc buffer in
      Ok (place_strings start top argc 0 ((count + 3) * 4) (argv ++ envp) lengths buffer, top)
  end.

(** ** Specification: what the program's entry code finds at SP *)

(** The string from an offset of the buffer. *)
Definition string_at (b : mem) (p : Z) (s : list Z) : Prop :=
  mem_read b p (lenZ s) = s /\ b (p + lenZ s) = 0.

(** A C string: bytes without a zero. *)
Definition c_string (s : list Z) : Prop := Forall (fun c => 1 <= c < 256) s.

(** The vector at [p] points at [strings], in order, and is NULL-terminated;
    addresses are [base] plus the offset. *)
Fixpoint vector_at (b : mem) (base p : Z) (strings : list (list Z)) : Prop :=
  match strings with
  | [] => word_at b p = 0
  | s :: strings => (exists q, word_at b p = base + q /\ string_at b q s) /\ vector_at b base (p + 4) strings
  end.

(** The bytes of the strings with their terminators, and all that the stack
    holds before it is rounded to sixteen. *)
Definition total_bytes (strings : list (list Z)) : Z := fold_right (fun s n => lenZ s + 1 + n) 0 strings.

Definition stack_bytes (strings : list (list Z)) : Z :=
  (lenZ strings + 3) * 4 + total_bytes strings.

(** ** Lemmas *)
Lemma scan_string_spec fuel limit s n :
  c_string s -> 0 <= n <= lenZ s -> n <= limit -> limit - n <= Z.of_nat fuel ->
  scan_string fuel limit s n = Z.min limit (lenZ s).
Proof.
  intros Hs. revert n. induction fuel as [|fuel IH]; intros n Hn Hl Hf; cbn [scan_string]; [lia|].
  destruct (Z.ltb_spec n limit) as [Hlt|]; [|cbn [andb]; lia]. cbn [andb].
  destruct (Z.lt_ge_cases n (lenZ s)) as [Hi|Hi].
  - pose proof (nthZ_Forall _ _ _ Hs (conj (proj1 Hn) Hi)) as Hc. cbv beta in Hc.
    unfold truthy. rewrite (proj2 (Z.eqb_neq _ _)) by lia. apply IH; lia.
  - rewrite nthZ_oob by lia. change (truthy 0) with false. cbv iota. lia.
Qed.

Lemma total_bytes_cons s l : total_bytes (s :: l) = lenZ s + 1 + total_bytes l.
Proof. reflexivity. Qed.

Lemma total_bytes_nonneg strings : 0 <= total_bytes strings.
Proof.
  induction strings as [|s l IH]; [done|]. rewrite total_bytes_cons. pose proof (lenZ_nonneg s). lia.
Qed.

Lemma total_bytes_app l k : total_bytes (l ++ k) = total_bytes l + total_bytes k.
Proof.
  induction l as [|s l IH]; [done|]. change ((s :: l) ++ k) with (s :: (l ++ k)).
  rewrite !total_bytes_cons. lia.
Qed.

Lemma measure_strings_spec capacity total strings :
  Forall c_string strings -> 0 <= total <= capacity -> capacity < 4294967296 ->
  measure_strings capacity total (map Some strings) =
  if capacity <? total + total_bytes strings then Err (-2)
  else Ok (map (fun s => lenZ s + 1) strings, total + total_bytes strings).
Proof.
  intros Hs Ht Hc. revert total Ht. induction strings as [|s l IH]; intros total Ht; cbn.
  - rewrite Z.add_0_r. by destruct (Z.ltb_spec capacity total); [lia|].
  - inversion_clear Hs as [|? ? Hs1 Hs2]. pose proof (lenZ_nonneg s).
    pose proof (total_bytes_nonneg l) as Hnn. change (fold_right _ 0 l) with (total_bytes l).
    rewrite (wrap32_small (capacity - total)) by lia.
    rewrite scan_string_spec by (done || lia). destruct (Z.eqb_spec (Z.min (capacity - total) (lenZ s)) (capacity - total)).
    + by destruct (Z.ltb_spec capacity (total + (lenZ s + 1 + total_bytes l))); [|lia].
    + replace (Z.min (capacity - total) (lenZ s)) with (lenZ s) by lia.
      rewrite wrap32_small by lia. rewrite IH by (done || lia).
      replace (total + (lenZ s + 1) + total_bytes l) with (total + (lenZ s + 1 + total_bytes l)) by lia.
      by destruct (capacity <? _).
Qed.

Lemma lenZ_le_bytes v : lenZ (le_bytes v) = 4.
Proof. reflexivity. Qed.

Lemma word_at_stack_word b p v : is_u32 v -> word_at (stack_word p v b) p = v.
Proof.
  unfold is_u32. intros Hv. unfold word_at, stack_word.
  rewrite !mem_write_in by (rewrite lenZ_le_bytes; lia).
  replace (p - p) with 0 by lia. replace (p + 1 - p) with 1 by lia.
  replace (p + 2 - p) with 2 by lia. replace (p + 3 - p) with 3 by lia.
  change (nthZ (le_bytes v) 0) with (wrap8 (Z.shiftr v 0)). change (nthZ (le_bytes v) 1) with (wrap8 (Z.shiftr v 8)).
  change (nthZ (le_bytes v) 2) with (wrap8 (Z.shiftr v 16)). change (nthZ (le_bytes v) 3) with (wrap8 (Z.shiftr v 24)).
  rewrite !Z.shiftr_div_pow2 by lia. unfold wrap8.
  change (2 ^ 0) with 1. change (2 ^ 8) with 256. change (2 ^ 16) with 65536. change (2 ^ 24) with 16777216.
  Z.div_mod_to_equations. lia.
Qed.

Lemma stack_word_out b p v a : a < p \/ p + 4 <= a -> stack_word p v b a = b a.
Proof. intros. unfold stack_word. apply mem_write_out. rewrite lenZ_le_bytes. lia. Qed.

Lemma string_at_ext b b' p s :
  (forall a, p <= a < p + lenZ s + 1 -> b' a = b a) -> string_at b p s -> string_at b' p s.
Proof.
  pose proof (lenZ_nonneg s). intros Hx [H1 H2]. split.
  - etransitivity; [|exact H1]. apply mem_read_ext. intros a Ha. apply Hx. lia.
  - rewrite Hx by lia. done.
Qed.

Lemma put_string_out b p n s a : 0 <= n -> a < p \/ p + n <= a -> put_string p n s b a = b a.
Proof.
  intros Hn Ha. unfold put_string. apply mem_write_out. unfold lenZ. rewrite length_map, length_seq. lia.
Qed.

Lemma put_string_at b p s : c_string s -> string_at (put_string p (lenZ s + 1) s b) p s.
Proof.
  intros Hs. pose proof (lenZ_nonneg s) as Hl.
  set (bs := map (fun n => wrap8 (nthZ s (Z.of_nat n))) (seq 0 (Z.to_nat (lenZ s + 1)))).
  assert (Hlen : lenZ bs = lenZ s + 1) by (unfold bs, lenZ at 1; rewrite length_map, length_seq; lia).
  assert (Hb : forall i, 0 <= i < lenZ s + 1 -> put_string p (lenZ s + 1) s b (p + i) = wrap8 (nthZ s i)).
  { intros i Hi. unfold put_string. fold bs. rewrite mem_write_in by lia. replace (p + i - p) with i by lia.
    unfold nthZ at 1, bs. rewrite (nth_indep _ 0 (wrap8 (nthZ s (Z.of_nat 0)))) by (rewrite length_map, length_seq; lia).
    rewrite (map_nth (fun n => wrap8 (nthZ s (Z.of_nat n)))), seq_nth by lia. do 2 f_equal. lia. }
  split.
  - apply list_eq_nthZ; [rewrite length_mem_read; unfold lenZ; lia|]. rewrite lenZ_mem_read by lia.
    intros i Hi. rewrite nthZ_mem_read, Hb by lia. pose proof (nthZ_Forall _ _ _ Hs Hi) as Hc. cbv beta in Hc.
    unfold wrap8. apply Z.mod_small. lia.
  - rewrite Hb by lia. by rewrite nthZ_oob by lia.
Qed.

Lemma place_strings_app start top argc i offset a la strings lengths b :
  length a = length la ->
  place_strings start top argc i offset (map Some a ++ strings) (la ++ lengths) b =
  place_strings start top argc (i + lenZ a) (offset + fold_right Z.add 0 la) strings lengths
    (place_strings start top argc i offset (map Some a) la b).
Proof.
  revert i offset la b. induction a as [|s a IH]; intros i offset [|n la] b Hl; try done; cbn.
  - by rewrite !Z.add_0_r.
  - rewrite IH by (cbn in Hl; lia). f_equal; unfold lenZ; cbn; lia.
Qed.

Lemma sum_lengths strings : fold_right Z.add 0 (map (fun s => lenZ s + 1) strings) = total_bytes strings.
Proof. induction strings as [|s l IH]; cbn; [done|]. by rewrite IH. Qed.

(** Strings whose vector slots are consecutive: nothing else is written, and
    any buffer with those bytes and a null word after the slots has the vector. *)
Lemma place_strings_run start base argc d strings :
  Forall c_string strings ->
  forall i offset b,
  (forall j, i <= j < i + lenZ strings -> (if j <? argc then j + 1 else j + 2) = j + d) ->
  0 <= start -> 0 <= i + d -> (i + d + lenZ strings) * 4 <= offset ->
  0 <= base -> base + start + offset + total_bytes strings <= 4294967295 ->
  let b' := place_strings start (base + start) argc i offset (map Some strings)
              (map (fun s => lenZ s + 1) strings) b in
  let slots a := start + (i + d) * 4 <= a < start + (i + d + lenZ strings) * 4 in
  let bytes a := start + offset <= a < start + offset + total_bytes strings in
  (forall a, ~ slots a -> ~ bytes a -> b' a = b a) /\
  (forall c, (forall a, slots a \/ bytes a -> c a = b' a) ->
             word_at c (start + (i + d + lenZ strings) * 4) = 0 ->
             vector_at c base (start + (i + d) * 4) strings).
Proof.
  induction 1 as [|s strings Hs Hrest IH]; intros i offset b Hslot Hst Hid Hoff Hbase Hfit b' slots bytes.
  - split; [done|]. intros c _ Hw. cbn [vector_at]. rewrite <- Hw. f_equal. unfold lenZ. cbn. lia.
  - pose proof (lenZ_nonneg s) as Hn. pose proof (lenZ_nonneg strings) as Hm.
    pose proof (total_bytes_nonneg strings) as Ht.
    assert (HL : lenZ (s :: strings) = lenZ strings + 1) by (unfold lenZ; cbn; lia).
    assert (HT : total_bytes (s :: strings) = lenZ s + 1 + total_bytes strings) by done.
    unfold slots, bytes. rewrite HL in *. rewrite HT in *.
    set (p := start + (i + d) * 4) in *. set (q := start + offset) in *.
    set (b1 := put_string q (lenZ s + 1) s (stack_word p (base + start + offset) b)).
    assert (Hb' : b' = place_strings start (base + start) argc (i + 1) (offset + (lenZ s + 1))
                         (map Some strings) (map (fun s => lenZ s + 1) strings) b1).
    { unfold b', b1, p, q. cbn [place_strings map]. rewrite (Hslot i) by lia. done. }
    destruct (IH (i + 1) (offset + (lenZ s + 1)) b1) as [Hframe Hvec]; try lia.
    { intros j Hj. apply Hslot. lia. }
    rewrite <- Hb' in Hframe, Hvec. split.
    + intros a Ha1 Ha2. rewrite Hframe by lia. unfold b1.
      rewrite put_string_out, stack_word_out by lia. done.
    + intros c Hc Hw. cbn [vector_at]. split.
      * exists q. split.
        -- transitivity (word_at b1 p).
           ++ apply word_at_ext. intros a Ha. rewrite Hc by lia. apply Hframe; lia.
           ++ transitivity (word_at (stack_word p (base + start + offset) b) p).
              ** apply word_at_ext. intros a Ha. apply put_string_out; lia.
              ** rewrite word_at_stack_word by (unfold is_u32; lia). unfold q. lia.
        -- apply (string_at_ext b1); [|apply put_string_at; done].
           intros a Ha. rewrite Hc by lia. apply Hframe; lia.
      * replace (p + 4) with (start + (i + 1 + d) * 4) by lia. apply Hvec.
        -- intros a Ha. apply Hc. lia.
        -- rewrite <- Hw. f_equal. lia.
Qed.

Lemma align16 n : 0 <= n < 4294967296 -> Z.land n 15 = 0 <-> n mod 16 = 0.
Proof. intros. change 15 with (Z.ones 4). rewrite Z.land_ones by lia. done. Qed.

(** [(n+15)&~15U] is the least multiple of sixteen that is not below [n]. *)
Lemma round16 n : 0 <= n < 4294967000 -> Z.land (n +u 15) (4294967295 - 15) = (n + 15) / 16 * 16.
Proof.
  intros. rewrite wrap32_small by lia.
  change (4294967295 - 15) with (Z.shiftl (Z.ones 28) 4).
  replace (Z.land (n + 15) (Z.shiftl (Z.ones 28) 4)) with (Z.shiftl (Z.shiftr (n + 15) 4) 4).
  - rewrite Z.shiftl_mul_pow2, Z.shiftr_div_pow2 by lia. done.
  - apply Z.bits_inj'. intros i Hi. rewrite Z.land_spec.
    destruct (Z.lt_ge_cases i 4).
    + rewrite !Z.shiftl_spec_low by lia. by rewrite andb_false_r.
    + rewrite !Z.shiftl_spec by lia. rewrite Z.shiftr_spec by lia. replace (i - 4 + 4) with i by lia.
      destruct (Z.lt_ge_cases (i - 4) 28).
      * rewrite Z.ones_spec_low by lia. by rewrite andb_true_r.
      * rewrite Z.ones_spec_high by lia. rewrite andb_false_r.
        rewrite Z.bits_above_log2; [done|lia|].
        apply (Z.lt_le_trans _ 32); [|lia]. apply Z.log2_lt_pow2; lia.
Qed.

(** The stack that a program starts with: [argc], the argument vector and the
    environment vector, in that order from the stack pointer. *)
Definition stack_at (b : mem) (base p : Z) (argv envp : list (list Z)) : Prop :=
  word_at b p = lenZ argv /\ vector_at b base (p + 4) argv /\
  vector_at b base (p + 4 + (lenZ argv + 1) * 4) envp.

Lemma bad_stack_false capacity base :
  0 <= capacity < 4294967296 -> 0 <= base < 4294967296 -> bad_stack capacity base = false ->
  base mod 16 = 0 /\ capacity mod 16 = 0 /\ 0 < capacity <= 4096 /\ base + capacity <= 4294967295.
Proof.
  intros Hc Hb. unfold bad_stack, truthy, CP32_EXEC_STACK_MAX.
  rewrite !orb_false_iff, !negb_false_iff, Z.eqb_neq, !Z.ltb_ge, !Z.eqb_eq, !align16 by lia. lia.
Qed.

Lemma words_at_zero b c p : (forall a, p <= a < p + 4 -> c a = b a) -> (forall a, p <= a < p + 4 -> b a = 0) -> word_at c p = 0.
Proof. intros H1 H2. rewrite (word_at_ext b) by done. unfold word_at. rewrite !H2 by lia. done. Qed.

(** The published buffer, once the sizes fit. *)
Lemma place_stack start base b argv envp :
  Forall c_string argv -> Forall c_string envp -> 0 <= start -> 0 <= base ->
  base + start + stack_bytes (argv ++ envp) <= 4294967295 ->
  let count := lenZ (argv ++ envp) in
  (forall a, start <= a < start + stack_bytes (argv ++ envp) -> b a = 0) ->
  let b' := place_strings start (base + start) (lenZ argv) 0 ((count + 3) * 4) (map Some (argv ++ envp))
              (map (fun s => lenZ s + 1) (argv ++ envp)) (stack_word start (lenZ argv) b) in
  stack_at b' base start argv envp /\ (forall a, a < start -> b' a = b a).
Proof.
  intros Ha He Hst Hbase Hfit count Hz b'.
  pose proof (lenZ_nonneg argv) as Hna. pose proof (lenZ_nonneg envp) as Hne.
  pose proof (total_bytes_nonneg argv) as Hta. pose proof (total_bytes_nonneg envp) as Hte.
  unfold stack_bytes in *. rewrite total_bytes_app in *. fold count in Hfit, Hz.
  assert (Hcount : count = lenZ argv + lenZ envp) by (unfold count; apply lenZ_app).
  set (b1 := stack_word start (lenZ argv) b) in *.
  set (b2 := place_strings start (base + start) (lenZ argv) 0 ((count + 3) * 4) (map Some argv)
               (map (fun s => lenZ s + 1) argv) b1).
  assert (Hb' : b' = place_strings start (base + start) (lenZ argv) (lenZ argv)
                  ((count + 3) * 4 + total_bytes argv) (map Some envp) (map (fun s => lenZ s + 1) envp) b2).
  { unfold b', b2. rewrite !map_app, place_strings_app by (by rewrite length_map).
    by rewrite Z.add_0_l, sum_lengths. }
  destruct (place_strings_run start base (lenZ argv) 1 argv Ha 0 ((count + 3) * 4) b1) as [Hf1 Hv1]; try lia.
  { intros j Hj. by destruct (Z.ltb_spec j (lenZ argv)); [|lia]. }
  destruct (place_strings_run start base (lenZ argv) 2 envp He (lenZ argv)
              ((count + 3) * 4 + total_bytes argv) b2) as [Hf2 Hv2]; try lia.
  { intros j Hj. by destruct (Z.ltb_spec j (lenZ argv)); [lia|]. }
  fold b2 in Hf1, Hv1. rewrite <- Hb' in Hf2, Hv2.
  assert (Hb1 : forall a, a < start \/ start + 4 <= a -> b1 a = b a) by (intros; apply stack_word_out; lia).
  split; [split; [|split]|].
  - transitivity (word_at b1 start); [|apply word_at_stack_word; unfold is_u32; lia].
    apply word_at_ext. intros a Hr. rewrite Hf2, Hf1 by lia. done.
  - replace (start + 4) with (start + (0 + 1) * 4) by lia. apply Hv1.
    + intros a Hr. apply Hf2; lia.
    + apply (words_at_zero b); intros a Hr; [|apply Hz; lia]. rewrite Hf2, Hf1, Hb1 by lia. done.
  - replace (start + 4 + (lenZ argv + 1) * 4) with (start + (lenZ argv + 2) * 4) by lia. apply Hv2.
    + done.
    + apply (words_at_zero b); intros a Hr; [|apply Hz; lia]. rewrite Hf2, Hf1, Hb1 by lia. done.
  - intros a Hr. rewrite Hf2, Hf1, Hb1 by lia. done.
Qed.

(** ** Theorems *)

(** C14. For strings that are really terminated and a usable staging area the
    result is decided by sizes alone, and on success the new stack pointer is
    16-aligned inside the area and the memory from there is exactly the
    program's start contract: argc, both null-terminated vectors with pointers
    to copies of the strings; nothing below the stack pointer is written. *)
Theorem exec_stack_exact buffer capacity base argv envp :
  0 <= capacity < 4294967296 -> 0 <= base < 4294967296 -> bad_stack capacity base = false ->
  Forall c_string argv -> Forall c_string envp ->
  let needed := (stack_bytes (argv ++ envp) + 15) / 16 * 16 in
  let start := capacity - needed in
  let result := cp32_exec_stack buffer capacity base (map Some argv) (map Some envp) in
  if (CP32_EXEC_VECTOR_MAX <? lenZ (argv ++ envp)) || (capacity <? needed) then result = Err (-2)
  else exists buffer', result = Ok (buffer', base + start) /\
         (base + start) mod 16 = 0 /\ 0 <= start /\ stack_at buffer' base start argv envp /\
         forall a, a < start -> buffer' a = buffer a.
Proof.
  intros Hc Hb Hbad Ha He needed start result.
  destruct (bad_stack_false _ _ Hc Hb Hbad) as (Hb16 & Hc16 & Hcap & Hfit).
  assert (Hs : Forall c_string (argv ++ envp)) by (apply Forall_app; done).
  pose proof (total_bytes_nonneg (argv ++ envp)) as Ht. pose proof (lenZ_nonneg argv). pose proof (lenZ_nonneg envp).
  subst result start needed. unfold cp32_exec_stack, stack_bytes in *. rewrite Hbad.
  unfold CP32_EXEC_VECTOR_MAX. rewrite !lenZ_map, <- map_app.
  rewrite lenZ_app in *. set (count := lenZ argv + lenZ envp) in *.
  replace ((32 <? lenZ argv) || (32 - lenZ argv <? lenZ envp)) with (32 <? count)
    by (destruct (Z.ltb_spec 32 (lenZ argv)), (Z.ltb_spec (32 - lenZ argv) (lenZ envp)); cbn [orb]; lia).
  destruct (Z.ltb_spec 32 count) as [|Hcount]; [done|]. cbn [orb].
  set (total := (count + 3) * 4 + total_bytes (argv ++ envp)) in *.
  pose proof (Z.div_mod (total + 15) 16) as Hdiv. pose proof (Z.mod_pos_bound (total + 15) 16) as Hmod.
  destruct (Z.ltb_spec capacity ((count + 3) * 4)) as [|Hvec].
  { destruct (Z.ltb_spec capacity ((total + 15) / 16 * 16)); [done|lia]. }
  rewrite measure_strings_spec by (done || lia). fold total.
  destruct (Z.ltb_spec capacity total) as [|Htot].
  { destruct (Z.ltb_spec capacity ((total + 15) / 16 * 16)); [done|lia]. }
  rewrite round16 by lia.
  destruct (Z.ltb_spec capacity ((total + 15) / 16 * 16)) as [|Hneed]; [done|].
  eexists. split; [reflexivity|]. split; [|split; [lia|]].
  { Z.div_mod_to_equations. lia. }
  set (st := capacity - (total + 15) / 16 * 16) in *.
  set (b := mem_write buffer st (replicate (Z.to_nat (capacity - st)) 0)).
  assert (Hlen : lenZ (replicate (Z.to_nat (capacity - st)) 0) = capacity - st)
    by (unfold lenZ; rewrite length_replicate; lia).
  destruct (place_stack st base b argv envp Ha He) as [Hstack Hframe]; unfold stack_bytes; rewrite ?lenZ_app; try lia.
  { intros a Hr. unfold b. rewrite mem_write_in by lia. apply nthZ_replicate. }
  rewrite lenZ_app in Hstack, Hframe. split; [exact Hstack|].
  intros a Hr. etransitivity; [exact (Hframe a Hr)|]. apply mem_write_out. lia.
Qed.

(** Two arguments and one environment string in a 64-byte area. *)
Lemma exec_stack_exact_witness :
  bad_stack 64 4096 = false /\
  exists buffer', cp32_exec_stack (fun _ => 255) 64 4096 (map Some [[108; 115]; [45; 108]]) (map Some [[65; 61]])
    = Ok (buffer', 4096 + 16) /\ stack_at buffer' 4096 16 [[108; 115]; [45; 108]] [[65; 61]].
Proof.
  split; [reflexivity|].
  assert (H1 : Forall c_string [[108; 115]; [45; 108]]) by (repeat constructor; lia).
  assert (H2 : Forall c_string [[65; 61]]) by (repeat constructor; lia).
  pose proof (exec_stack_exact (fun _ => 255) 64 4096 [[108; 115]; [45; 108]] [[65; 61]]
    ltac:(lia) ltac:(lia) eq_refl H1 H2) as (b & E & _ & _ & Hs & _).
  exists b. split; [exact E | exact Hs].
Defined.
