(* ===== verification/Image.v ===== *)
(** * Executable images: src/src/mm/image.c

    [cp32_image_read] validates the ELF file of an application and
    [cp32_image_load] stages its two segments.  The reader callback and its
    context are parameters: [read off n] is a computation over the context
    that returns the bytes or a status. *)
From S2P Require Import Prelude Codec.

(** ** Constants of mm/image.h *)
Definition CP32_APP_TEXT := 1077772288.
Definition CP32_APP_TEXT_END := 1077788672.
Definition CP32_APP_DATA := 1070514176.
Definition CP32_APP_STACK := 1070526464.
Definition CP32_APP_TOP := 1070530560.

Record cp32_image_segment : Type := { offset : Z; address : Z; filesz : Z; memsz : Z }.
Record cp32_image : Type := { entry : Z; text : cp32_image_segment; data : cp32_image_segment }.

(** ** Little-endian fields *)
Definition u32 (p : list Z) : Z :=
  Z.lor (Z.lor (Z.lor (nthZ p 0) (nthZ p 1 <<u 8)) (nthZ p 2 <<u 16)) (nthZ p 3 <<u 24).
Definition u16 (p : list Z) : Z := Z.lor (nthZ p 0) (nthZ p 1 <<u 8).

(** The identification, type and flags of the file header. *)
Definition bad_header (h : list Z) : bool :=
  (nthZ h 0 !=? 127) || (nthZ h 1 !=? 69) || (nthZ h 2 !=? 76) || (nthZ h 3 !=? 70) ||
  (nthZ h 4 !=? 1) || (nthZ h 5 !=? 1) || (nthZ h 6 !=? 1) || (nthZ h 7 !=? 0) || (nthZ h 8 !=? 0) ||
  (u16 (ptr_add h 16) !=? 2) || (u16 (ptr_add h 18) !=? 94) || (u32 (ptr_add h 20) !=? 1) ||
  (u16 (ptr_add h 40) !=? 52) || (u16 (ptr_add h 42) !=? 32) || (u16 (ptr_add h 44) !=? 2).
Definition bad_flags (h : list Z) : bool := truthy (Z.land (u32 (ptr_add h 36)) (not32 768)).
Definition bad_phoff (phoff size : Z) : bool := (phoff <? 52) || (size <? phoff) || (size -u phoff <? 64).

(** Program header [i]: its segment and the tests it must pass. *)
Definition segment_limit (i : Z) : Z := if truthy i then CP32_APP_STACK else CP32_APP_TEXT_END.
Definition segment_of (p : list Z) : cp32_image_segment :=
  {| offset := u32 (ptr_add p 4); address := u32 (ptr_add p 8);
     filesz := u32 (ptr_add p 16); memsz := u32 (ptr_add p 20) |}.
Definition bad_align (align : Z) (s : cp32_image_segment) : bool :=
  (1 <? align) && (truthy (Z.land align (align -u 1)) ||
                   truthy (Z.land (address s -u offset s) (align -u 1))).
Definition bad_segment (i size phoff : Z) (p : list Z) (s : cp32_image_segment) : bool :=
  (u32 p !=? 1) || (u32 (ptr_add p 12) !=? address s) ||
  (u32 (ptr_add p 24) !=? (if truthy i then 6 else 5)) ||
  (address s !=? (if truthy i then CP32_APP_DATA else CP32_APP_TEXT)) ||
  negb (truthy (memsz s)) || (negb (truthy i) && negb (truthy (filesz s))) || (memsz s <? filesz s) ||
  (segment_limit i -u address s <? memsz s) || (offset s <? phoff +u 64) ||
  (size <? offset s) || (size -u offset s <? filesz s) || bad_align (u32 (ptr_add p 28)) s.

Definition segment_end (s : cp32_image_segment) : Z := offset s +u filesz s.
Definition overlapping (t d : cp32_image_segment) : bool :=
  (offset t <? segment_end d) && (offset d <? segment_end t).
Definition bad_entry (e : Z) (t : cp32_image_segment) : bool :=
  (e <? address t) || (filesz t <=? e -u address t).

(** ** The two buffers of a staging slot with the reader's context *)
Record staging (C : Type) : Type := { context : C; text_buf : mem; data_buf : mem }.
Arguments context {C}. Arguments text_buf {C}. Arguments data_buf {C}.

Definition with_text {C} (f : mem -> mem) (w : staging C) : staging C :=
  {| context := context w; text_buf := f (text_buf w); data_buf := data_buf w |}.
Definition with_data {C} (f : mem -> mem) (w : staging C) : staging C :=
  {| context := context w; text_buf := text_buf w; data_buf := f (data_buf w) |}.

(** A computation over the context, run in a staging state. *)
Definition in_context {C A} (c : M C A) : M (staging C) A := fun w =>
  let (r, x) := c (context w) in (r, {| context := x; text_buf := text_buf w; data_buf := data_buf w |}).

Definition clear (n : Z) (buffer : mem) : mem := mem_write buffer 0 (replicate (Z.to_nat n) 0).
Definition clear_image {C} : M (staging C) unit :=
  modify (with_text (clear (CP32_APP_TEXT_END - CP32_APP_TEXT))) ;;;
  modify (with_data (clear (CP32_APP_STACK - CP32_APP_DATA))).

Section Image.
Context {C : Type} (read : Z -> Z -> M C (list Z)).

(** [if(read(context,off,p,n)) return -2;] *)
Definition fetch (off n : Z) : M C (list Z) := fun c =>
  match read off n c with
  | (Ok bytes, c) => (Ok bytes, c)
  | (Err _, c) => (Err (-2), c)
  end.

Definition read_segment (size phoff i : Z) : M C cp32_image_segment :=
  p <- fetch (phoff +u i * 32) 32 ;;
  let s := segment_of p in
  guard (bad_segment i size phoff p s) (-1) ;;;
  ret s.

Definition cp32_image_read (size : Z) : M C cp32_image :=
  guard (size <? 52) (-1) ;;;
  h <- fetch 0 52 ;;
  guard (bad_header h) (-1) ;;;
  guard (bad_flags h) (-1) ;;;
  let phoff := u32 (ptr_add h 28) in
  guard (bad_phoff phoff size) (-1) ;;;
  let e := u32 (ptr_add h 24) in
  t <- read_segment size phoff 0 ;;
  d <- read_segment size phoff 1 ;;
  guard (overlapping t d) (-1) ;;;
  guard (bad_entry e t) (-1) ;;;
  ret {| entry := e; text := t; data := d |}.

(** The body of the copying loop at [offset]; the loop is at most [filesz]
    turns and its exit test. *)
Definition copy_chunk (with_dest : (mem -> mem) -> staging C -> staging C) (s : cp32_image_segment)
    (off : Z) : M (staging C) (turn Z unit) :=
  if off <? filesz s then
    let count := if 64 <? filesz s - off then 64 else filesz s - off in
    r <- try (in_context (read (offset s +u off) count)) ;;
    match r with
    | Err _ => clear_image ;;; fail (-2)
    | Ok bytes => modify (with_dest (fun dest => mem_write dest off bytes)) ;;; ret (Continue (off + count))
    end
  else ret (Break tt).

Definition copy_segment with_dest (s : cp32_image_segment) : M (staging C) unit :=
  loop (S (Z.to_nat (filesz s))) (copy_chunk with_dest s) (fun _ => ret tt) 0.

Definition cp32_image_load (size : Z) : M (staging C) cp32_image :=
  next <- in_context (cp32_image_read size) ;;
  clear_image ;;;
  copy_segment with_text (text next) ;;;
  copy_segment with_data (data next) ;;;
  ret next.
End Image.

(** ** Specification: the files that may be loaded *)
Record segment_ok (file : mem) (size phoff i : Z) (s : cp32_image_segment) : Prop := {
  so_type : word_at file (phoff + i * 32) = 1;
  so_fields : word_at file (phoff + i * 32 + 4) = offset s /\ word_at file (phoff + i * 32 + 8) = address s /\
    word_at file (phoff + i * 32 + 12) = address s /\
    word_at file (phoff + i * 32 + 16) = filesz s /\ word_at file (phoff + i * 32 + 20) = memsz s;
  so_flags : word_at file (phoff + i * 32 + 24) = if truthy i then 6 else 5;
  so_address : address s = if truthy i then CP32_APP_DATA else CP32_APP_TEXT;
  so_memory : 0 < memsz s /\ filesz s <= memsz s /\ address s + memsz s <= segment_limit i;
  so_text : i = 0 -> 0 < filesz s;
  so_file : phoff + 64 <= offset s /\ offset s + filesz s <= size;
  so_align : let align := word_at file (phoff + i * 32 + 28) in
    align <= 1 \/ exists k, 0 <= k /\ align = 2 ^ k /\ (address s - offset s) mod align = 0 }.

Record loadable (file : mem) (size : Z) (img : cp32_image) : Prop := {
  lo_ident : 52 <= size /\ mem_read file 0 9 = [127; 69; 76; 70; 1; 1; 1; 0; 0];
  lo_header : half_at file 16 = 2 /\ half_at file 18 = 94 /\ word_at file 20 = 1 /\
    half_at file 40 = 52 /\ half_at file 42 = 32 /\ half_at file 44 = 2;
  lo_flags : exists b, word_at file 36 = 256 * b /\ 0 <= b < 4;
  lo_phoff : 52 <= word_at file 28 /\ word_at file 28 + 64 <= size;
  lo_text : segment_ok file size (word_at file 28) 0 (text img);
  lo_data : segment_ok file size (word_at file 28) 1 (data img);
  lo_disjoint : offset (text img) + filesz (text img) <= offset (data img) \/
    offset (data img) + filesz (data img) <= offset (text img);
  lo_entry : word_at file 24 = entry img /\ address (text img) <= entry img < address (text img) + filesz (text img) }.

(** ** Fields *)
Lemma lor_bytes a b c d :
  is_byte a -> is_byte b -> is_byte c -> is_byte d ->
  Z.lor (Z.lor (Z.lor a (b <<u 8)) (c <<u 16)) (d <<u 24) = a + 256 * b + 65536 * c + 16777216 * d.
Proof.
  unfold is_byte. intros. rewrite !wrap32_small by (rewrite Z.shiftl_mul_pow2 by lia; lia).
  rewrite (Z.lor_comm a), lor_shift_add by lia. rewrite (Z.lor_comm (b * 2 ^ 8 + a)), lor_shift_add by lia.
  rewrite (Z.lor_comm (c * 2 ^ 16 + _)), lor_shift_add by lia. lia.
Qed.

Section Fields.
Context (file : mem) (Hfile : forall a, is_byte (file a)).

Lemma u32_word a n k :
  0 <= k -> k + 4 <= n -> u32 (ptr_add (mem_read file a n) k) = word_at file (a + k).
Proof.
  intros. unfold u32. rewrite !nthZ_ptr_add, !nthZ_mem_read by lia. rewrite lor_bytes by apply Hfile.
  unfold word_at. rewrite Z.add_0_r, !Z.add_assoc. lia.
Qed.

Lemma u16_half a n k :
  0 <= k -> k + 2 <= n -> u16 (ptr_add (mem_read file a n) k) = half_at file (a + k).
Proof.
  intros. unfold u16. rewrite !nthZ_ptr_add, !nthZ_mem_read by lia.
  pose proof (Hfile (a + (k + 0))) as H1. pose proof (Hfile (a + (k + 1))) as H2. unfold is_byte in *.
  rewrite wrap32_small by (rewrite Z.shiftl_mul_pow2 by lia; lia).
  rewrite Z.lor_comm, lor_shift_add by lia. unfold half_at. rewrite Z.add_0_r, !Z.add_assoc. lia.
Qed.

Lemma word_u32 a : is_u32 (word_at file a).
Proof. by apply word_at_range. Qed.
End Fields.

(** [align&(align-1)] is zero exactly at the powers of two. *)
Lemma pow2_test n : 1 < n -> Z.land n (n - 1) = 0 <-> exists k, 0 <= k /\ n = 2 ^ k.
Proof.
  intros Hn. split.
  - intros H. exists (Z.log2 n). split; [apply Z.log2_nonneg|].
    pose proof (Z.log2_spec n ltac:(lia)) as [Hl Hu].
    destruct (Z.eq_dec n (2 ^ Z.log2 n)) as [|Hne]; [done|exfalso].
    assert (Hk : 0 <= Z.log2 n) by apply Z.log2_nonneg.
    assert (Hb : Z.testbit (Z.land n (n - 1)) (Z.log2 n) = true).
    { rewrite Z.land_spec, Z.bit_log2 by lia. cbn [andb].
      rewrite <- (Z.log2_unique (n - 1) (Z.log2 n)) by lia. apply Z.bit_log2. lia. }
    by rewrite H, Z.bits_0 in Hb.
  - intros (k & Hk & ->). replace (2 ^ k - 1) with (Z.ones k) by (rewrite Z.ones_equiv; lia).
    rewrite Z.land_ones by done. by apply Z.mod_same, Z.pow_nonzero.
Qed.

Lemma align_test align s :
  is_u32 align -> bad_align align s = false <->
  (align <= 1 \/ exists k, 0 <= k /\ align = 2 ^ k /\ (address s - offset s) mod align = 0).
Proof.
  unfold is_u32, bad_align, truthy. intros Hr.
  destruct (Z.ltb_spec 1 align) as [H1|H1]; cbn [andb]; [|intuition lia].
  rewrite (wrap32_small (align - 1)) by lia. rewrite orb_false_iff, !negb_false_iff, !Z.eqb_eq, pow2_test by lia.
  assert (Hmod : forall k, 0 <= k -> align = 2 ^ k ->
    Z.land (address s -u offset s) (align - 1) = (address s - offset s) mod align).
  { intros k Hk ->. replace (2 ^ k - 1) with (Z.ones k) by (rewrite Z.ones_equiv; lia).
    rewrite Z.land_ones by done. unfold wrap32. change 4294967296 with (2 ^ 32) in *.
    assert (k < 32) by (apply (Z.pow_lt_mono_r_iff 2); lia).
    apply Z.mod_mod_divide. exists (2 ^ (32 - k)). rewrite <- Z.pow_add_r by lia. f_equal. lia. }
  split.
  - intros [(k & Hk & E) H]. right. exists k. rewrite <- (Hmod k) by done. done.
  - intros [?|(k & Hk & E & H)]; [lia|]. split; [by exists k|]. by rewrite (Hmod k).
Qed.

(** ** The tests decide the specification *)

Ltac tests := rewrite ?orb_false_iff, ?negb_false_iff, ?truthy_true, ?truthy_false, ?Z.eqb_eq, ?Z.ltb_ge, ?Z.leb_gt.

Section Tests.
Context (file : mem) (Hfile : forall a, is_byte (file a)) (size : Z) (Hsize : is_u32 size).

Lemma bad_phoff_spec phoff :
  is_u32 phoff -> bad_phoff phoff size = false <-> 52 <= phoff /\ phoff + 64 <= size.
Proof.
  unfold is_u32, bad_phoff in *. intros. tests. split.
  - intros [[? ?] H2]. rewrite wrap32_small in H2 by lia. lia.
  - intros. rewrite wrap32_small by lia. lia.
Qed.

Lemma bad_segment_spec phoff i :
  is_u32 phoff -> 52 <= phoff -> phoff + 64 <= size -> i = 0 \/ i = 1 ->
  let p := mem_read file (phoff + i * 32) 32 in
  bad_segment i size phoff p (segment_of p) = false <-> segment_ok file size phoff i (segment_of p).
Proof.
  intros Hph H52 H64 Hi p.
  assert (Hf : forall k, 0 <= k -> k + 4 <= 32 -> u32 (ptr_add p k) = word_at file (phoff + i * 32 + k))
    by (intros; apply u32_word; done).
  assert (H0 : u32 p = word_at file (phoff + i * 32)).
  { rewrite <- (Z.add_0_r (phoff + i * 32)), <- Hf by lia. done. }
  pose proof (word_u32 file Hfile) as Hr.
  assert (Ho : is_u32 (offset (segment_of p))) by (cbn; rewrite Hf by lia; apply Hr).
  assert (Hz : is_u32 (filesz (segment_of p))) by (cbn; rewrite Hf by lia; apply Hr).
  assert (Hm : is_u32 (memsz (segment_of p))) by (cbn; rewrite Hf by lia; apply Hr).
  unfold bad_segment. rewrite H0, !Hf by lia. unfold is_u32 in *.
  set (s := segment_of p) in *. rewrite (wrap32_small (phoff + 64)) by lia.
  assert (Hlim : address s = (if truthy i then CP32_APP_DATA else CP32_APP_TEXT) ->
                 segment_limit i -u address s = segment_limit i - address s).
  { intros ->. destruct Hi as [-> | ->]; reflexivity. }
  tests. rewrite andb_false_iff, !negb_false_iff, truthy_true, (truthy_true (filesz s)), align_test by apply Hr. split.
  - intros (((((((((((E1 & E2) & E3) & E4) & E5) & E6) & E7) & E8) & E9) & E10) & E11) & E12).
    rewrite Hlim in E8 by done. rewrite wrap32_small in E11 by lia.
    constructor; try done; try lia.
    + rewrite E2, <- !Hf by lia. done.
  - intros [E1 E2 E3 E4 E5 E6 E7 E8]. rewrite Hlim by done.
    rewrite (wrap32_small (size - offset s)) by lia.
    repeat split; try done; try lia.
Qed.

Lemma bad_flags_spec w :
  is_u32 w -> truthy (Z.land w (not32 768)) = false <-> exists b, w = 256 * b /\ 0 <= b < 4.
Proof.
  unfold is_u32. intros Hw. rewrite truthy_false. split.
  - intros H. exists (Z.land (Z.shiftr w 8) (Z.ones 2)).
    rewrite Z.land_ones by lia. split; [|apply Z.mod_pos_bound; lia].
    rewrite <- Z.land_ones, Z.mul_comm by lia. change 256 with (2 ^ 8). rewrite <- Z.shiftl_mul_pow2 by lia.
    apply Z.bits_inj'. intros i Hi. assert (Hb : Z.testbit (Z.land w (not32 768)) i = false) by (by rewrite H, Z.bits_0).
    rewrite Z.land_spec in Hb. unfold not32, wrap32 in Hb. change 4294967296 with (2 ^ 32) in *.
    destruct (Z.lt_ge_cases i 32) as [Hlt|Hge].
    + rewrite Z.mod_pow2_bits_low, Z.lnot_spec in Hb by lia. change 768 with (Z.shiftl (Z.ones 2) 8) in Hb.
      destruct (Z.lt_ge_cases i 8).
      * rewrite Z.shiftl_spec_low in * by lia. by rewrite andb_true_r in Hb.
      * rewrite Z.shiftl_spec in * by lia. rewrite Z.land_spec, Z.shiftr_spec by lia.
        replace (i - 8 + 8) with i by lia. by destruct (Z.testbit w i), (Z.testbit (Z.ones 2) (i - 8)).
    + rewrite Z.shiftl_spec, Z.land_spec, (Z.ones_spec_high 2) by lia. rewrite andb_false_r.
      destruct (Z.eq_dec w 0) as [->|]; [apply Z.bits_0|]. apply Z.bits_above_log2; [lia|].
      apply (Z.lt_le_trans _ 32); [|lia]. apply Z.log2_lt_pow2; lia.
  - intros (b & -> & Hb). assert (b = 0 \/ b = 1 \/ b = 2 \/ b = 3) as [-> | [-> | [-> | ->]]] by lia; reflexivity.
Qed.

Lemma bad_header_spec :
  let h := mem_read file 0 52 in
  bad_header h = false <->
  mem_read file 0 9 = [127; 69; 76; 70; 1; 1; 1; 0; 0] /\ half_at file 16 = 2 /\ half_at file 18 = 94 /\
  word_at file 20 = 1 /\ half_at file 40 = 52 /\ half_at file 42 = 32 /\ half_at file 44 = 2.
Proof.
  intros h. unfold bad_header, h. rewrite !u16_half, u32_word, !nthZ_mem_read by (done || lia).
  tests. change (mem_read file 0 9) with
    [file 0; file 1; file 2; file 3; file 4; file 5; file 6; file 7; file 8]. rewrite !Z.add_0_l. split.
  - intros (((((((((((((( -> & ->) & ->) & ->) & ->) & ->) & ->) & ->) & ->) & ?) & ?) & ?) & ?) & ?) & ?). done.
  - intros ([=] & ?). tauto.
Qed.
End Tests.

(** The image that a legal file holds. *)
Definition image_of (file : mem) : cp32_image :=
  {| entry := word_at file 24; text := segment_of (mem_read file (word_at file 28) 32);
     data := segment_of (mem_read file (word_at file 28 + 32) 32) |}.


(** All that [cp32_image_read] tests, on the bytes it reads. *)
Record tests_pass (file : mem) (size : Z) : Prop := {
  tp_size : (size <? 52) = false;
  tp_header : bad_header (mem_read file 0 52) = false;
  tp_flags : bad_flags (mem_read file 0 52) = false;
  tp_phoff : bad_phoff (word_at file 28) size = false;
  tp_text : bad_segment 0 size (word_at file 28) (mem_read file (word_at file 28) 32) (text (image_of file)) = false;
  tp_data : bad_segment 1 size (word_at file 28) (mem_read file (word_at file 28 + 32) 32) (data (image_of file)) = false;
  tp_disjoint : overlapping (text (image_of file)) (data (image_of file)) = false;
  tp_entry : bad_entry (word_at file 24) (text (image_of file)) = false }.

Section Decided.
Context (file : mem) (Hfile : forall a, is_byte (file a)) (size : Z) (Hsize : is_u32 size).

Lemma segment_of_ok phoff i s : segment_ok file size phoff i s -> s = segment_of (mem_read file (phoff + i * 32) 32).
Proof.
  intros [_ (E1 & E2 & E3 & E4 & E5) _ _ _ _ _ _]. unfold segment_of. rewrite !u32_word by (done || lia).
  destruct s; cbn in *. congruence.
Qed.

Lemma loadable_image img : loadable file size img -> img = image_of file.
Proof.
  intros [_ _ _ _ Ht Hd _ [He _]]. apply segment_of_ok in Ht, Hd.
  change (0 * 32) with 0 in Ht. change (1 * 32) with 32 in Hd. rewrite Z.add_0_r in Ht.
  unfold image_of. destruct img as [e t d]. cbn [entry text data] in *. congruence.
Qed.

Lemma disjoint_test t d :
  0 <= offset t -> 0 <= offset d -> 0 <= filesz t -> 0 <= filesz d ->
  offset t + filesz t <= size -> offset d + filesz d <= size ->
  overlapping t d = false <-> offset t + filesz t <= offset d \/ offset d + filesz d <= offset t.
Proof.
  unfold is_u32, overlapping, segment_end in *. intros. rewrite !wrap32_small by lia.
  rewrite andb_false_iff, !Z.ltb_ge. lia.
Qed.

Lemma entry_test e t :
  is_u32 e -> is_u32 (address t) -> bad_entry e t = false <-> address t <= e < address t + filesz t.
Proof.
  unfold is_u32, bad_entry. intros. rewrite orb_false_iff, Z.ltb_ge, Z.leb_gt. split.
  - intros [? H1]. rewrite wrap32_small in H1 by lia. lia.
  - intros. rewrite wrap32_small by lia. lia.
Qed.

Lemma segment_range a : is_u32 (offset (segment_of (mem_read file a 32))) /\
  is_u32 (address (segment_of (mem_read file a 32))) /\ is_u32 (filesz (segment_of (mem_read file a 32))).
Proof. cbn. rewrite !u32_word by (done || lia). split; [|split]; by apply word_u32. Qed.

Lemma loadable_iff img : loadable file size img <-> img = image_of file /\ tests_pass file size.
Proof.
  pose proof (word_u32 file Hfile) as Hr.
  pose proof (segment_range (word_at file 28)) as (Rt1 & Rt2 & Rt3).
  pose proof (segment_range (word_at file 28 + 32)) as (Rd1 & Rd2 & Rd3).
  pose proof (bad_segment_spec file Hfile size Hsize (word_at file 28) 0 (Hr 28)) as St.
  pose proof (bad_segment_spec file Hfile size Hsize (word_at file 28) 1 (Hr 28)) as Sd.
  cbv zeta in St, Sd. change (0 * 32) with 0 in St. change (1 * 32) with 32 in Sd. rewrite Z.add_0_r in St.
  pose proof (bad_phoff_spec size Hsize (word_at file 28) (Hr 28)) as Sp.
  pose proof (bad_header_spec file Hfile) as Sh. cbv zeta in Sh.
  assert (Sf : bad_flags (mem_read file 0 52) = false <-> exists b, word_at file 36 = 256 * b /\ 0 <= b < 4).
  { unfold bad_flags. rewrite u32_word by (done || lia). apply bad_flags_spec. apply Hr. }
  split.
  - intros L. pose proof (loadable_image _ L) as ->. split; [done|]. destruct L. cbn [text data entry image_of] in *.
    assert (Ot := so_file _ _ _ _ _ lo_text0). assert (Od := so_file _ _ _ _ _ lo_data0). unfold is_u32 in *.
    constructor; cbn [text data entry image_of]; [apply Z.ltb_ge; lia|apply Sh; tauto|by apply Sf|by apply Sp| | | |].
    + apply St; done || lia.
    + apply Sd; done || lia.
    + apply disjoint_test; done || lia.
    + apply entry_test; [apply Hr|apply Rt2|tauto].
  - intros [-> T]. destruct T. cbn [text data entry image_of] in *.
    apply Sp in tp_phoff0. apply Z.ltb_ge in tp_size0.
    apply St in tp_text0; [|lia..]. apply Sd in tp_data0; [|lia..].
    assert (Ot := so_file _ _ _ _ _ tp_text0). assert (Od := so_file _ _ _ _ _ tp_data0).
    apply Sh in tp_header0. apply Sf in tp_flags0. unfold is_u32 in *.
    apply disjoint_test in tp_disjoint0; [|lia..]. apply entry_test in tp_entry0; [|apply Hr|apply Rt2].
    constructor; cbn [text data entry image_of]; tauto || done.
Qed.
End Decided.

(** ** Loading *)

(** [n] bytes of the segment, then zeros. *)
Definition segment_bytes (file : mem) (s : cp32_image_segment) (n : Z) : mem :=
  fun a => if in_range 0 n a then file (offset s + a) else 0.

(** The two regions of the slot hold [t] and [d]; nothing outside them differs
    from [w0]. *)
Definition slot {C} (w0 : staging C) (t d : mem) (w : staging C) : Prop :=
  (forall a, text_buf w a = if in_range 0 (CP32_APP_TEXT_END - CP32_APP_TEXT) a then t a else text_buf w0 a) /\
  (forall a, data_buf w a = if in_range 0 (CP32_APP_STACK - CP32_APP_DATA) a then d a else data_buf w0 a).
Definition zeros : mem := fun _ => 0.

Lemma in_range_false n a : in_range 0 n a = false <-> a < 0 \/ n <= a.
Proof. pose proof (in_range_spec 0 n a) as H. destruct in_range; [|split; [|done]]; intuition (lia || done). Qed.

Ltac ranges := repeat case_match; rewrite ?in_range_spec, ?in_range_false in *; try lia; try done.

Lemma clear_at n b a : 0 <= n -> clear n b a = if in_range 0 n a then 0 else b a.
Proof.
  intros. assert (Hl : lenZ (replicate (Z.to_nat n) 0) = n) by (unfold lenZ; rewrite length_replicate; lia).
  unfold clear. destruct (in_range 0 n a) eqn:E.
  - apply in_range_spec in E. rewrite mem_write_in by lia. apply nthZ_replicate.
  - apply in_range_false in E. apply mem_write_out. lia.
Qed.

Lemma clear_slot {C} (w0 w : staging C) t d :
  slot w0 t d w ->
  slot w0 zeros zeros (with_data (clear (CP32_APP_STACK - CP32_APP_DATA)) (with_text (clear (CP32_APP_TEXT_END - CP32_APP_TEXT)) w)).
Proof.
  intros [Ht Hd]. split; intros a; cbn [text_buf data_buf with_text with_data]; rewrite clear_at by done; [rewrite Ht|rewrite Hd]; by case_match.
Qed.

Lemma segment_bytes_step file s off n a :
  0 <= off -> 0 <= n ->
  mem_write (segment_bytes file s off) off (mem_read file (offset s + off) n) a = segment_bytes file s (off + n) a.
Proof.
  intros. assert (Hl : lenZ (mem_read file (offset s + off) n) = n) by (apply lenZ_mem_read; lia).
  unfold segment_bytes. destruct (decide (off <= a < off + n)).
  - rewrite mem_write_in, nthZ_mem_read by lia. ranges. f_equal. lia.
  - rewrite mem_write_out by lia. ranges.
Qed.

Lemma slot_write {C} (w0 w : staging C) t d off bytes :
  slot w0 t d w -> 0 <= off ->
  (off + lenZ bytes <= CP32_APP_TEXT_END - CP32_APP_TEXT ->
   slot w0 (mem_write t off bytes) d (with_text (fun dest => mem_write dest off bytes) w)) /\
  (off + lenZ bytes <= CP32_APP_STACK - CP32_APP_DATA ->
   slot w0 t (mem_write d off bytes) (with_data (fun dest => mem_write dest off bytes) w)).
Proof.
  intros [Ht Hd] Ho. unfold slot. split; intros Hl; (split; intros a; [|try apply Hd]; try apply Ht);
    cbn [text_buf data_buf with_text with_data]; unfold mem_write; [rewrite Ht|rewrite Hd];
    destruct (in_range off (lenZ bytes) a) eqn:E; try done; apply in_range_spec in E; by ranges.
Qed.

Lemma slot_ext {C} (w0 w : staging C) t t' d d' :
  slot w0 t d w -> (forall a, t' a = t a) -> (forall a, d' a = d a) -> slot w0 t' d' w.
Proof. intros [Ht Hd] Et Ed. split; intros a; rewrite ?Et, ?Ed; done. Qed.

Section Load.
Context {C : Type} (read : Z -> Z -> M C (list Z)).
Context (file : mem) (Hfile : forall a, is_byte (file a)) (size : Z) (Hsize : is_u32 size).
Context (Inv Bad : C -> Prop).
(** Reads of at most 64 bytes inside the file keep [Inv] and return its bytes,
    or fail in a state that satisfies [Bad]. *)
Context (Hread : forall off n, 0 <= off -> 0 < n <= 64 -> off + n <= size ->
  hoare Inv (read off n) (fun bytes c => Inv c /\ bytes = mem_read file off n) (fun _ c => Bad c)).

Lemma fetch_spec off n : 0 <= off -> 0 < n <= 64 -> off + n <= size ->
  hoare Inv (fetch read off n) (fun bytes c => Inv c /\ bytes = mem_read file off n) (fun e c => e = -2 /\ Bad c).
Proof.
  intros H1 H2 H3 c Hc. pose proof (Hread off n H1 H2 H3 c Hc) as H. unfold fetch.
  by destruct (read off n c) as [[e|bytes] c'].
Qed.

(** What a refused image leaves. *)
Definition refused (e : Z) (c : C) : Prop :=
  (e = -1 /\ Inv c /\ forall img, ~ loadable file size img) \/ (e = -2 /\ Bad c).

Lemma guard_refused b :
  (tests_pass file size -> b = false) ->
  hoare Inv (guard b (-1)) (fun _ c => Inv c /\ b = false) refused.
Proof.
  intros H1. apply hoare_guard; intros c Hc E; [left|done].
  split; [done|split; [done|]]. intros img [_ T]%loadable_iff; [|done..]. rewrite H1 in E by done. done.
Qed.

Lemma fetch_refused off n : 0 <= off -> 0 < n <= 64 -> off + n <= size ->
  hoare Inv (fetch read off n) (fun bytes c => Inv c /\ bytes = mem_read file off n) refused.
Proof.
  intros. eapply hoare_conseq; [by apply fetch_spec| | |]; try done. intros e c [? ?]. by right.
Qed.

Lemma read_segment_spec i s :
  52 <= word_at file 28 -> word_at file 28 + 64 <= size -> i = 0 \/ i = 1 ->
  s = segment_of (mem_read file (word_at file 28 + i * 32) 32) ->
  (tests_pass file size -> bad_segment i size (word_at file 28) (mem_read file (word_at file 28 + i * 32) 32) s = false) ->
  hoare Inv (read_segment read size (word_at file 28) i)
    (fun r c => Inv c /\ r = s /\
       bad_segment i size (word_at file 28) (mem_read file (word_at file 28 + i * 32) 32) s = false) refused.
Proof.
  intros H1 H2 Hi Hs Ht. unfold read_segment, is_u32 in *. rewrite wrap32_small by lia.
  eapply hoare_bind; [apply fetch_refused; lia|]. intros p. apply hoare_pure. intros ->. rewrite <- Hs.
  eapply hoare_bind; [apply (guard_refused _ Ht)|].
  intros []. apply hoare_ret. intros c [? ?]. done.
Qed.

Lemma image_read_spec :
  hoare Inv (cp32_image_read read size) (fun img c => Inv c /\ loadable file size img) refused.
Proof.
  unfold cp32_image_read.
  eapply hoare_bind; [apply (guard_refused _ (tp_size _ _))|].
  intros []. apply hoare_pure. intros T1. assert (52 <= size) by (by apply Z.ltb_ge).
  eapply hoare_bind; [apply fetch_refused; lia|]. intros h. apply hoare_pure. intros ->.
  eapply hoare_bind; [apply (guard_refused _ (tp_header _ _))|].
  intros []. apply hoare_pure. intros T2.
  eapply hoare_bind; [apply (guard_refused _ (tp_flags _ _))|].
  intros []. apply hoare_pure. intros T3. rewrite !u32_word by (done || lia). rewrite !Z.add_0_l.
  eapply hoare_bind; [apply (guard_refused _ (tp_phoff _ _))|].
  intros []. apply hoare_pure. intros T4. pose proof T4 as Hp. apply bad_phoff_spec in Hp; [|done|by apply word_u32].
  eapply hoare_bind.
  { apply (read_segment_spec 0 (text (image_of file))); [lia|lia|by left| |].
    - by rewrite Z.add_0_r.
    - rewrite Z.add_0_r. apply tp_text. }
  intros t. apply hoare_pure. intros [-> T5]. change (0 * 32) with 0 in T5. rewrite Z.add_0_r in T5.
  eapply hoare_bind.
  { apply (read_segment_spec 1 (data (image_of file))); [lia|lia|by right|done|]. apply tp_data. }
  intros d. apply hoare_pure. intros [-> T6].
  eapply hoare_bind; [apply (guard_refused _ (tp_disjoint _ _))|].
  intros []. apply hoare_pure. intros T7.
  eapply hoare_bind; [apply (guard_refused _ (tp_entry _ _))|].
  intros []. apply hoare_pure. intros T8. apply hoare_ret. intros c Hc. split; [done|].
  apply loadable_iff; [done..|]. split; [done|]. by constructor.
Qed.

Lemma in_context_spec {A} (c : M C A) P Q R (W : mem -> mem -> Prop) :
  hoare P c Q R ->
  hoare (fun w => P (context w) /\ W (text_buf w) (data_buf w)) (in_context c)
    (fun a w => Q a (context w) /\ W (text_buf w) (data_buf w)) (fun e w => R e (context w) /\ W (text_buf w) (data_buf w)).
Proof.
  intros Hc w [Hp Hw]. pose proof (Hc (context w) Hp) as H. unfold in_context.
  by destruct (c (context w)) as [[e|a] x].
Qed.

(** The copying loop, for a buffer whose contents [P] describes and that has
    room for the segment. *)
Section Copy.
Context (with_dest : (mem -> mem) -> staging C -> staging C) (P : mem -> mem -> mem -> Prop) (limit : Z).
Context (w0 : staging C) (s : cp32_image_segment).
Let holds (t : mem) (w : staging C) : Prop := P t (text_buf w) (data_buf w).
Context (Pwrite : forall t off bytes w, holds t w -> 0 <= off -> off + lenZ bytes <= limit ->
  holds (mem_write t off bytes) (with_dest (fun dest => mem_write dest off bytes) w)).
Context (Pext : forall t t' w, holds t w -> (forall a, t' a = t a) -> holds t' w).
Context (Pcontext : forall f w, context (with_dest f w) = context w).
Context (Pclear : forall t w, holds t w -> slot w0 zeros zeros
  (with_data (clear (CP32_APP_STACK - CP32_APP_DATA)) (with_text (clear (CP32_APP_TEXT_END - CP32_APP_TEXT)) w))).
Context (Ho : 0 <= offset s) (Hz : 0 <= filesz s <= limit) (Hend : offset s + filesz s <= size).

Definition failed_load (e : Z) (w : staging C) : Prop := e = -2 /\ Bad (context w) /\ slot w0 zeros zeros w.

Lemma copy_chunk_spec off :
  0 <= off <= filesz s ->
  hoare (fun w => Inv (context w) /\ holds (segment_bytes file s off) w) (copy_chunk read with_dest s off)
    (fun t w => Inv (context w) /\
       match t with
       | Continue off' => off < off' <= filesz s /\ holds (segment_bytes file s off') w
       | Break _ => holds (segment_bytes file s (filesz s)) w
       end) failed_load.
Proof.
  intros Hoff. unfold copy_chunk. destruct (Z.ltb_spec off (filesz s)) as [Hlt|].
  - set (count := if 64 <? filesz s - off then 64 else filesz s - off).
    assert (Hc : 0 < count <= 64 /\ off + count <= filesz s)
      by (unfold count; destruct (Z.ltb_spec 64 (filesz s - off)); lia).
    unfold is_u32 in *. rewrite wrap32_small by lia.
    pose proof (in_context_spec _ _ _ _ (P (segment_bytes file s off))
      (Hread (offset s + off) count ltac:(lia) ltac:(lia) ltac:(lia))) as Hr.
    intros w Hw. specialize (Hr w Hw). unfold bind at 1, try.
    destruct (in_context (read (offset s + off) count) w) as [[e|bytes] w'].
    + destruct Hr as [HB HP]. split; [done|]. split; [done|]. exact (Pclear _ _ HP).
    + destruct Hr as [[HI ->] HP]. cbn. rewrite Pcontext. split; [done|]. split; [lia|].
      apply (Pext (mem_write (segment_bytes file s off) off (mem_read file (offset s + off) count))).
      * apply Pwrite; [done|lia|]. rewrite lenZ_mem_read by lia. lia.
      * intros a. symmetry. apply segment_bytes_step; lia.
  - apply hoare_ret. intros w [HI HP]. split; [done|]. by replace (filesz s) with off by lia.
Qed.

Lemma copy_segment_spec :
  hoare (fun w => Inv (context w) /\ holds zeros w) (copy_segment read with_dest s)
    (fun _ w => Inv (context w) /\ holds (segment_bytes file s (filesz s)) w) failed_load.
Proof.
  unfold copy_segment. eapply hoare_conseq.
  - apply (hoare_loop (fun n off w => (0 <= off <= filesz s /\ filesz s - off < Z.of_nat n) /\
      Inv (context w) /\ holds (segment_bytes file s off) w)).
    + intros n off w [Hn Hw]. pose proof (copy_chunk_spec off (proj1 Hn) w Hw) as H.
      destruct (copy_chunk read with_dest s off w) as [[e|[off'|b]] w']; [exact H| |exact H].
      destruct H as (HI & Hl & HP). split; [lia|done].
    + intros off w [Hn _]. lia.
  - intros w [HI HP]. split; [lia|]. split; [done|]. apply (Pext _ _ _ HP).
    intros a. unfold segment_bytes. ranges.
  - done.
  - done.
Qed.
End Copy.

Lemma segment_bounds phoff i s : segment_ok file size phoff i s ->
  0 <= offset s /\ (0 <= filesz s <= segment_limit i - (if truthy i then CP32_APP_DATA else CP32_APP_TEXT)) /\ offset s + filesz s <= size.
Proof.
  intros [_ (Eo & _ & _ & Ez & _) _ <- Hm _ Hf _].
  pose proof (word_u32 file Hfile (phoff + i * 32 + 4)). pose proof (word_u32 file Hfile (phoff + i * 32 + 16)).
  unfold is_u32 in *. lia.
Qed.

(** C13. A file is staged exactly when it is a legal image, whatever bytes it
    holds: then the slot holds the file bytes of both segments and zeros to the
    end of both regions, and nothing outside the regions changes.  A refusal
    leaves the slot as it was, or cleared when a read failed; only reads of at
    most 64 bytes inside the file are made. *)
Theorem image_load_exact w0 :
  Inv (context w0) ->
  match cp32_image_load read size w0 with
  | (Ok img, w) => Inv (context w) /\ loadable file size img /\
      slot w0 (segment_bytes file (text img) (filesz (text img))) (segment_bytes file (data img) (filesz (data img))) w
  | (Err e, w) =>
      (e = -1 /\ Inv (context w) /\ (forall img, ~ loadable file size img) /\
         text_buf w = text_buf w0 /\ data_buf w = data_buf w0) \/
      (e = -2 /\ Bad (context w) /\
         ((text_buf w = text_buf w0 /\ data_buf w = data_buf w0) \/ slot w0 zeros zeros w))
  end.
Proof.
  intros HI.
  enough (H : hoare (fun w => Inv (context w) /\ (text_buf w = text_buf w0 /\ data_buf w = data_buf w0))
    (cp32_image_load read size)
    (fun img w => Inv (context w) /\ loadable file size img /\
      slot w0 (segment_bytes file (text img) (filesz (text img))) (segment_bytes file (data img) (filesz (data img))) w)
    (fun e w => (refused e (context w) /\ text_buf w = text_buf w0 /\ data_buf w = data_buf w0) \/ failed_load w0 e w)).
  { specialize (H w0 (conj HI (conj eq_refl eq_refl))).
    destruct (cp32_image_load read size w0) as [[e|img] w]; [|exact H].
    destruct H as [[[(? & ? & ?)|(? & ?)] ?]|(? & ? & ?)]; tauto. }
  unfold cp32_image_load. eapply hoare_bind.
  { eapply hoare_conseq.
    - apply (in_context_spec _ _ _ _ (fun t d => t = text_buf w0 /\ d = data_buf w0) image_read_spec).
    - done.
    - intros img w H. exact H.
    - intros e w H. by left. }
  intros img. cbv beta.
  assert (Hclear : forall w, text_buf w = text_buf w0 /\ data_buf w = data_buf w0 -> slot w0 (text_buf w0) (data_buf w0) w).
  { intros w [Et Ed]. split; intros a; [rewrite Et|rewrite Ed]; by case_match. }
  eapply hoare_bind with (Q' := fun _ w => (Inv (context w) /\ slot w0 zeros zeros w) /\ loadable file size img).
  { intros w [[Hw HL] Hb]. cbn. split; [|done]. split; [done|]. by eapply clear_slot, Hclear. }
  intros []. apply hoare_pure. intros HL. destruct HL as [? ? ? ? HT HD ? ?] eqn:EL. clear EL.
  destruct (segment_bounds _ _ _ HT) as (Ht1 & Ht2 & Ht3). destruct (segment_bounds _ _ _ HD) as (Hd1 & Hd2 & Hd3).
  eapply hoare_bind.
  { eapply hoare_conseq.
    - apply (copy_segment_spec with_text (fun t tb db => slot w0 t zeros {| context := context w0; text_buf := tb; data_buf := db |})
        (CP32_APP_TEXT_END - CP32_APP_TEXT) w0 (text img)); [| | | |exact Ht1|exact Ht2|exact Ht3]; try done.
      + intros t off bytes w H1 H2 H3. by apply (slot_write _ _ _ _ _ _ H1 H2).
      + intros t t' w H E. by apply (slot_ext _ _ _ _ _ _ H).
      + intros t w H. exact (clear_slot _ _ _ _ H).
    - done.
    - intros a w H. exact H.
    - intros e w H. by right. }
  intros []. cbv beta. eapply hoare_bind.
  { eapply hoare_conseq.
    - apply (copy_segment_spec with_data (fun d tb db => slot w0 (segment_bytes file (text img) (filesz (text img))) d
        {| context := context w0; text_buf := tb; data_buf := db |})
        (CP32_APP_STACK - CP32_APP_DATA) w0 (data img)); [| | | |exact Hd1|exact Hd2|exact Hd3]; try done.
      + intros t off bytes w H1 H2 H3. by apply (slot_write _ _ _ _ _ _ H1 H2).
      + intros t t' w H E. by apply (slot_ext _ _ _ _ _ _ H).
      + intros t w H. exact (clear_slot _ _ _ _ H).
    - done.
    - intros a w H. exact H.
    - intros e w H. by right. }
  intros []. apply hoare_ret. intros w [? ?]. done.
Qed.
End Load.

(** ** A concrete image: four bytes of code, two of data *)
Definition demo_file : list Z :=
   [127; 69; 76; 70; 1; 1; 1; 0; 0; 0; 0; 0; 0; 0; 0; 0; 2; 0; 94; 0; 1; 0; 0; 0; 0; 128; 61; 64; 52; 0;
    0; 0; 0; 0; 0; 0; 0; 3; 0; 0; 52; 0; 32; 0; 2; 0; 0; 0; 0; 0; 0; 0; 1; 0; 0; 0; 116; 0; 0; 0; 0;
    128; 61; 64; 0; 128; 61; 64; 4; 0; 0; 0; 4; 0; 0; 0; 5; 0; 0; 0; 4; 0; 0; 0; 1; 0; 0; 0; 120; 0; 0;
    0; 0; 192; 206; 63; 0; 192; 206; 63; 2; 0; 0; 0; 16; 0; 0; 0; 6; 0; 0; 0; 4; 0; 0; 0; 1; 2; 3; 4; 5;
    6].
Definition demo_size : Z := 122.
Definition demo_slot {C} (c : C) : staging C := {| context := c; text_buf := fun _ => 255; data_buf := fun _ => 255 |}.

(** A reader that logs its calls and never fails. *)
Definition demo_read (off n : Z) : M (list (Z * Z)) (list Z) := fun calls =>
  (Ok (mem_read (nthZ demo_file) off n), (off, n) :: calls).
Definition calls_inside (calls : list (Z * Z)) : Prop :=
  Forall (fun call => 0 <= fst call /\ fst call + snd call <= demo_size) calls.

Lemma demo_bytes a : is_byte (nthZ demo_file a).
Proof.
  assert (HF : Forall is_byte demo_file) by (unfold demo_file, is_byte; repeat constructor; lia).
  unfold nthZ. destruct (nth_in_or_default (Z.to_nat a) demo_file 0) as [Hin|E].
  - rewrite Forall_forall in HF. by apply HF.
  - rewrite E. done.
Qed.

Lemma demo_read_spec off n : 0 <= off -> 0 < n <= 64 -> off + n <= demo_size ->
  hoare calls_inside (demo_read off n) (fun bytes c => calls_inside c /\ bytes = mem_read (nthZ demo_file) off n) (fun _ _ => False).
Proof. intros H1 H2 H3 calls Hc. split; [|done]. constructor; [cbn; lia|exact Hc]. Qed.

Lemma demo_loadable : loadable (nthZ demo_file) demo_size (image_of (nthZ demo_file)).
Proof.
  apply loadable_iff; [exact demo_bytes|unfold is_u32, demo_size; lia|]. split; [done|].
  constructor; vm_compute; reflexivity.
Qed.

Lemma image_load_exact_witness :
  exists img w, cp32_image_load demo_read demo_size (demo_slot []) = (Ok img, w) /\
    calls_inside (context w) /\ loadable (nthZ demo_file) demo_size img /\
    map (text_buf w) [0; 3; 4; 16384] = [1; 4; 0; 255] /\ map (data_buf w) [0; 1; 2; 12288] = [5; 6; 0; 255].
Proof.
  pose proof (image_load_exact demo_read (nthZ demo_file) demo_bytes demo_size ltac:(unfold is_u32, demo_size; lia)
    calls_inside (fun _ => False) demo_read_spec (demo_slot []) (Forall_nil _)) as H.
  destruct (cp32_image_load demo_read demo_size (demo_slot [])) as [[e|img] w] eqn:E.
  - exfalso. destruct H as [(_ & _ & H & _)|(_ & [] & _)]. exact (H _ demo_loadable).
  - exists img, w. destruct H as (H1 & H2 & Ht & Hd). split; [done|]. split; [exact H1|]. split; [exact H2|].
    pose proof (loadable_image _ demo_bytes _ _ H2) as ->. cbn [map]. rewrite !Ht, !Hd. split; vm_compute; reflexivity.
Defined.
