(* ===== verification/Process.v ===== *)
(** * Process slots: src/src/kernel/process.c and context.c

    Reservation, cloning, publication and release of user process slots.  The
    caller holds the scheduler lock, so each operation is one step. *)
From S2P Require Import Prelude Codec Kconst Ktypes Sched Ipc IpcSpec.

(** [for (q = head, hops = 0; q && hops++ < ...; q = q->next) if (q == p) return 0; if (q) return 0;] *)
Fixpoint walk_clear (next : Z -> Z) (p : Z) (n : nat) (q : Z) : bool :=
  if q =? NIL_PROC then true
  else match n with
  | O => false
  | S n => negb (q =? p) && walk_clear next p n (next q)
  end.

Definition process_detached (k : kst) (p : Z) : bool :=
  let rp := k_proc k p in
  negb ((p =? k_current k) || (p =? k_proc_ptr k) || truthy (p_nextready rp) || truthy (p_nextheld rp) ||
        truthy (p_int_held rp) || truthy (p_int_blocked rp) || truthy (p_callerq rp) || truthy (p_sendlink rp)) &&
  forallb (fun i => walk_clear (fun q => p_nextready (k_proc k q)) p HOPS_LT (k_rdy_head k i)) [0; 1; 2] &&
  walk_clear (fun q => p_nextheld (k_proc k q)) p HOPS_LT (k_held_head k).

(** The numbers from [a] up to, but not including, [b]. *)
Definition upto (a b : Z) : list Z := map (fun i => a + Z.of_nat i) (seq 0 (Z.to_nat (b - a))).

Definition has_pid (k : kst) (pid n : Z) : bool :=
  negb (has (p_flags (k_proc k (proc_addr k n))) P_SLOT_FREE) && (p_pid (k_proc k (proc_addr k n)) =? pid).

Definition process_pid_free (k : kst) (pid : Z) : bool :=
  if pid <=? 0 then false else negb (existsb (has_pid k pid) (upto 0 NR_PROCS)).

(** A user slot that may be taken. *)
Definition reservable (k : kst) (n : Z) : bool :=
  (p_flags (k_proc k (proc_addr k n)) =? P_SLOT_FREE) && process_detached k (proc_addr k n).

Definition reserved (n pid : Z) : proc :=
  set_p_getfrom ANY (set_p_flags NO_MAP (set_p_pid pid (set_p_nr n zero_proc))).

Definition cp32_proc_reserve (pid : Z) (k : kst) : Z * kst :=
  if negb (process_pid_free k pid) then (NIL_PROC, k) else
  match List.find (reservable k) (upto (LOW_USER + 1) NR_PROCS) with
  | Some n => (proc_addr k n, set_proc (proc_addr k n) (reserved n pid) k)
  | None => (NIL_PROC, k)
  end.

(** The descriptor of a clone of [p]. *)
Definition cloned (child pid : Z) (p : proc) : proc :=
  let c := set_p_flags (Z.lor NO_MAP RECEIVING) (set_p_pid pid (set_p_nr child p)) in
  let c := set_p_pendcount 0 (set_p_pending 0 (set_p_alarm 0 (set_reg_a 2 0 c))) in
  let c := set_p_sendlink NIL_PROC (set_p_callerq NIL_PROC (set_p_nextheld NIL_PROC (set_p_nextready NIL_PROC c))) in
  let c := set_p_int_blocked 0 (set_p_int_held 0 c) in
  let c := set_p_blocked_frame_result 0 (set_p_shadow 0 (set_p_stguard 0 c)) in
  set_child_stime 0 (set_child_utime 0 (set_sys_time 0 (set_user_time 0 c))).

Definition bad_clone (k : kst) (parent child pid broker : Z) : bool :=
  let p := k_proc k (proc_addr k parent) in
  let c := k_proc k (proc_addr k child) in
  (negb (broker =? MM_PROC_NR) && negb (broker =? FS_PROC_NR)) ||
  ((parent <=? LOW_USER) || (NR_PROCS <=? parent) || (child <=? LOW_USER) || (NR_PROCS <=? child) ||
   (parent =? child) || (pid <=? 0)) ||
  ((p_pid p <=? 0) || (p_flags p !=? RECEIVING) || (p_getfrom p !=? broker) ||
   negb (truthy (p_messbuf p)) || negb (truthy (r_pc (p_reg p))) || negb (truthy (r_sp (p_reg p))) ||
   (p_flags c !=? P_SLOT_FREE) || negb (process_detached k (proc_addr k child))) ||
  negb (process_pid_free k pid).

Definition cp32_proc_clone (parent child pid broker : Z) : KM unit :=
  bad <- gets (fun k => bad_clone k parent child pid broker) ;;
  guard bad EINVAL ;;;
  modify (fun k => set_proc (proc_addr k child) (cloned child pid (k_proc k (proc_addr k parent))) k).

(** Segment [m] of a process whose stack pointer is [sp] is not flat memory
    that holds [sp]. *)
Definition bad_segment (sp : Z) (m : mem_map) : bool :=
  let base := mem_vir m in
  let bytes := mem_len m <<u CLICK_SHIFT in
  truthy (Z.land base (CLICK_SIZE - 1)) || (mem_phys m !=? Z.shiftr base CLICK_SHIFT) ||
  (Z.shiftr 0xffffffff CLICK_SHIFT <? mem_len m) ||
  (bytes =? 0) || (0xffffffff -u base <? bytes -u 1) || (sp <? base) || (bytes <=? sp -u base).

Definition bad_slot (k : kst) (p : Z) : bool :=
  (p =? NIL_PROC) || (p_nr (k_proc k p) <=? LOW_USER) || (NR_PROCS <=? p_nr (k_proc k p)) ||
  (proc_addr k (p_nr (k_proc k p)) !=? p).

Definition D := 1.
Definition S := 2.
Definition segment (rp : proc) (i : Z) : mem_map := nth (Z.to_nat i) (p_map rp) empty_map.

Definition bad_publication (k : kst) (p : Z) : bool :=
  let rp := k_proc k p in
  let sp := r_sp (p_reg rp) in
  bad_slot k p || (p_flags rp !=? NO_MAP) || (p_pid rp <=? 0) || negb (process_detached k p) ||
  bad_segment sp (segment rp D) || bad_segment sp (segment rp S) ||
  (r_pc (p_reg rp) =? 0) || truthy (Z.land sp 15) || (nthZ (r_a (p_reg rp)) 1 !=? sp) ||
  (nthZ (r_a (p_reg rp)) 15 !=? sp) || (r_psw (p_reg rp) !=? 0x100).

Definition cp32_proc_publish (p : Z) : KM unit :=
  bad <- gets (fun k => bad_publication k p) ;;
  guard bad EINVAL ;;;
  modify (fun k => lock_ready p (upd p (set_p_flags 0) k)).

(** The time of an exited process goes to the foreground broker. *)
Definition account (p : Z) (k : kst) : kst :=
  if p_flags (k_proc k p) =? RECEIVING then
    let rp := k_proc k p in
    upd (proc_addr k FS_PROC_NR) (fun parent =>
      set_child_stime (to_int (child_stime parent + to_int (sys_time rp + child_stime rp)))
        (set_child_utime (to_int (child_utime parent + to_int (user_time rp + child_utime rp))) parent)) k
  else k.

(** No kernel pointer refers to [p] any more. *)
Definition forget (p : Z) (k : kst) : kst :=
  let k := if k_bill_ptr k =? p then set_k_bill_ptr (proc_addr k FS_PROC_NR) k else k in
  let k := if k_irq_return k =? p then set_k_irq_return NIL_PROC k else k in
  let k := if k_blocked_return k =? p then set_k_blocked_return NIL_PROC k else k in
  if k_irq_saved_owner k =? p then set_k_irq_saved_owner NIL_PROC k else k.

Definition free_slot (nr : Z) : proc := set_p_flags P_SLOT_FREE (set_p_nr nr zero_proc).

Definition bad_release (k : kst) (p : Z) : bool :=
  let rp := k_proc k p in
  bad_slot k p || negb (process_detached k p) ||
  ((p_flags rp !=? NO_MAP) && negb ((p_flags rp =? RECEIVING) && (p_getfrom rp =? FS_PROC_NR))).

Definition cp32_proc_release (p : Z) : KM unit :=
  bad <- gets (fun k => bad_release k p) ;;
  guard bad EINVAL ;;;
  nr <- gets (fun k => p_nr (k_proc k p)) ;;
  modify (account p) ;;;
  modify (forget p) ;;;
  modify (set_proc p (free_slot nr)).

(** ** Diagnostics *)
Record cp32_proc_info_row := Info {
  i_endpoint : Z; i_pid : Z; i_flags : Z; i_running : Z; i_user_ticks : Z; i_system_ticks : Z;
  i_child_user_ticks : Z; i_child_system_ticks : Z; i_name : list Z }.

(** The printable name: at most fifteen characters, a control or non-ASCII
    byte as a question mark, zeros to the end. *)
Fixpoint info_name (n : nat) (name : list Z) : list Z :=
  match n, name with
  | Datatypes.S n, c :: name =>
      if c =? 0 then [] else (if (32 <=? c) && (c <? 127) then c else 63) :: info_name n name
  | _, _ => []
  end.

Definition default_name (endpoint : Z) : list Z :=
  if endpoint =? - NR_TASKS then [116; 116; 121]
  else if endpoint =? -4 then [100; 105; 115; 107]
  else if endpoint =? -3 then [99; 108; 111; 99; 107]
  else if endpoint =? SYSTASK then [115; 121; 115; 116; 101; 109]
  else if endpoint =? MM_PROC_NR then [109; 109]
  else if endpoint =? FS_PROC_NR then [115; 104; 101; 108; 108]
  else if endpoint =? IDLE then [105; 100; 108; 101]
  else if endpoint =? HARDWARE then [104; 97; 114; 100; 119; 97; 114; 101]
  else [114; 101; 115; 101; 114; 118; 101; 100].

Definition pad16 (name : list Z) : list Z := name ++ replicate (16 - length name) 0.

(** [None] for a free row. *)
Definition cp32_proc_info (k : kst) (endpoint : Z) : res (option cp32_proc_info_row) :=
  if (endpoint <? - NR_TASKS) || (NR_PROCS <=? endpoint) then Err EINVAL else
  let p := proc_addr k endpoint in
  let rp := k_proc k p in
  if has (p_flags rp) P_SLOT_FREE then Ok None else
  let name := info_name 15 (p_name rp) in
  Ok (Some (Info endpoint (p_pid rp) (p_flags rp) (of_bool (p =? k_current k))
    (wrap32 (user_time rp)) (wrap32 (sys_time rp)) (wrap32 (child_utime rp)) (wrap32 (child_stime rp))
    (pad16 (match name with [] => default_name endpoint | _ => name end)))).

(** ** context.c *)
Definition frame_of (pc sp argument : Z) : stackframe_s :=
  Frame (updZ (updZ (updZ (replicate 16 0) 1 sp) 15 sp) 2 argument) pc 0x100 sp 0 0 0 0.

Definition cp32_exec_frame (rp pc sp argument : Z) : KM unit :=
  guard ((rp =? NIL_PROC) || (pc =? 0) || (sp =? 0) || truthy (Z.land sp 15)) EINVAL ;;;
  modify (upd rp (set_p_reg (frame_of pc sp argument))).

(** ** Specification

    The whole table: message passing ([C]), ready queues ([Q]), the held
    notifications ([H]) and unique process identifiers. *)
Definition held_ok (k : kst) (H : list Z) : Prop :=
  lchain (fun q => p_nextheld (k_proc k q)) (k_held_head k) H /\ NoDup H /\ Forall valid_proc H.

Definition pids_ok (k : kst) : Prop :=
  forall m n pid, 0 <= m < NR_PROCS -> 0 <= n < NR_PROCS -> 0 < pid ->
    has_pid k pid m = true -> has_pid k pid n = true -> m = n.

Record procs_ok (k : kst) (C Q : Z -> list Z) (H : list Z) : Prop := {
  po_ipc : ipc_ok k C; po_ready : ready_ok k Q; po_held : held_ok k H; po_pids : pids_ok k }.

(** Nothing in the kernel links or runs [p]. *)
Definition detached (k : kst) (C Q : Z -> list Z) (H : list Z) (p : Z) : Prop :=
  p <> k_current k /\ p <> k_proc_ptr k /\ ~ (exists q, 0 <= q < 3 /\ In p (Q q)) /\ ~ In p H /\ C p = [] /\
  p_callerq (k_proc k p) = 0 /\ p_sendlink (k_proc k p) = 0.

(** ** Lemmas *)
Lemma walk_clear_spec next p n q l :
  lchain next q l -> Forall valid_proc l -> (length l <= n)%nat -> walk_clear next p n q = true <-> ~ In p l.
Proof.
  revert q n. induction l as [|x l IH]; intros q n Hc Hv Hn; cbn [length In lchain] in *.
  - subst q. destruct n; cbn; tauto.
  - destruct Hc as [-> Hc]. inversion_clear Hv as [|? ? Hx Hv']. unfold valid_proc, NIL_PROC in Hx.
    destruct n as [|n]; [lia|]. cbn [walk_clear]. change NIL_PROC with 0.
    destruct (Z.eqb_spec x 0); [lia|]. rewrite andb_true_iff, negb_true_iff, Z.eqb_neq, IH by (done || lia).
    intuition congruence.
Qed.

Lemma callerq_nil k C p : ipc_ok k C -> valid_proc p -> p_callerq (k_proc k p) = 0 -> C p = [].
Proof.
  intros HI Hp H0. pose proof (io_chain _ _ HI p Hp) as Hc. rewrite H0 in Hc.
  destruct (C p) as [|x l] eqn:E; [done|]. destruct Hc as [E0 _].
  destruct (io_sender _ _ HI p x Hp) as [Hx _]; [rewrite E; by left|]. unfold valid_proc in Hx. lia.
Qed.

Lemma detached_spec k C Q H p :
  procs_ok k C Q H -> valid_proc p -> process_detached k p = true -> detached k C Q H p.
Proof.
  intros [HI [HQ _] (Hh1 & Hh2 & Hh3) _] Hp. unfold process_detached.
  rewrite !andb_true_iff, negb_true_iff, !orb_false_iff, !Z.eqb_neq, !truthy_false.
  intros [[(((((((Hcur & Hptr) & Hnr) & Hnh) & Hih) & Hib) & Hcq) & Hsl) Hr] Hheld].
  unfold detached. split_and!; try done.
  - intros (q & Hq & Hin). rewrite forallb_forall in Hr.
    assert (Hw : walk_clear (next_of k) p HOPS_LT (k_rdy_head k q) = true).
    { apply Hr. assert (q = 0 \/ q = 1 \/ q = 2) as [->|[->| ->]] by lia; simpl; auto. }
    destruct (HQ q Hq) as [Hc _ Hn Hv]. apply (walk_clear_spec _ _ _ _ (Q q)) in Hw; try done.
    + eapply Forall_impl; [|exact Hv]. by intros x [? _].
    + apply (queue_length _ _ _ (HQ q Hq)).
  - apply (walk_clear_spec _ _ _ _ H) in Hheld; try done. by apply pigeonhole.
  - by apply (callerq_nil k).
Qed.

(** The descriptor of a detached process that does not send can be replaced. *)
Lemma replace_ipc k C p rp :
  ipc_ok k C -> valid_proc p -> C p = [] -> is_sending k p = false ->
  p_nr rp = p_nr (k_proc k p) -> p_callerq rp = 0 -> has (p_flags rp) SENDING = false ->
  (truthy (p_blocked_frame_valid rp) = true -> blocked_frame_matches rp = true) ->
  ipc_ok (set_proc p rp k) C.
Proof.
  intros HI Hp HC Hs Hnr Hcq Hsend Hfr. destruct HI as [[Ta Tn] Hch Hnd Hse Hqu Hen Hbo Hma Hf].
  assert (Hin : forall r x, valid_proc r -> In x (C r) -> x <> p /\ r <> p).
  { intros r x Hr Hx. split; intros ->; [|by rewrite HC in Hx].
    destruct (Hse r p Hr Hx) as (_ & _ & Hb). unfold bad_sender in Hb.
    change (has (p_flags (k_proc k p)) SENDING) with (is_sending k p) in Hb. by rewrite Hs in Hb. }
  assert (Hne : forall x, x <> p -> k_proc (set_proc p rp k) x = k_proc k x).
  { intros x Hx. cbn. by rewrite (proj2 (Z.eqb_neq _ _) Hx). }
  assert (Heq : k_proc (set_proc p rp k) p = rp) by (cbn; by rewrite Z.eqb_refl).
  assert (Hsn : forall x, is_sending (set_proc p rp k) x = true -> x <> p /\ is_sending k x = true).
  { intros x. unfold is_sending. destruct (Z.eq_dec x p) as [->|Hx]; [by rewrite Heq, Hsend|by rewrite Hne]. }
  assert (Hpn : forall x, p_nr (k_proc (set_proc p rp k) x) = p_nr (k_proc k x)).
  { intros x. destruct (Z.eq_dec x p) as [->|Hx]; [by rewrite Heq|by rewrite Hne]. }
  constructor.
  - constructor; intros x Hx; rewrite Hpn; [by apply Ta|by apply Tn].
  - intros r Hr. destruct (Z.eq_dec r p) as [->|Hrp]; [by rewrite Heq, Hcq, HC|]. rewrite Hne by done.
    apply (chain_ext (sendlink_of k)); [|by apply Hch]. intros x Hx. rewrite Hne; [done|]. by apply (Hin r).
  - done.
  - intros r x Hr Hx. destruct (Hin r x Hr Hx) as [Hxp Hrp]. unfold is_free. rewrite !Hne by done. by apply Hse.
  - intros x Hv Hx. destruct (Hsn x Hx) as [Hxp Hx']. destruct (Hqu x Hv Hx') as (He & Hi & Hfree).
    unfold target. rewrite Hne by done. change (proc_addr (set_proc p rp k)) with (proc_addr k).
    split_and!; [done|done|]. destruct (Hin (target k x) x) as [_ Ht]; [by apply Ta|done|].
    unfold is_free. rewrite Hne; done.
  - intros x Hv. apply (ends_mono k); [|by apply Hen]. intros y Hy. destruct (Hsn y Hy) as [Hyp Hy'].
    split; [done|]. unfold target. rewrite Hne; done.
  - intros x Hv Hx. destruct (Hsn x Hx) as [Hxp Hx']. unfold is_receiving. rewrite !Hne by done. by apply Hbo.
  - intros r x Hr Hx. destruct (Hin r x Hr Hx) as [Hxp Hrp]. unfold waits_for, is_receiving.
    rewrite !Hne by done. by apply Hma.
  - intros x Hv. destruct (Z.eq_dec x p) as [->|Hx]; [by rewrite Heq|]. rewrite Hne by done. by apply Hf.
Qed.

Lemma set_proc_same p rp k : k_proc (set_proc p rp k) p = rp.
Proof. cbn. by rewrite Z.eqb_refl. Qed.

Lemma set_proc_other p rp k x : x <> p -> k_proc (set_proc p rp k) x = k_proc k x.
Proof. intros. cbn. by rewrite (proj2 (Z.eqb_neq _ _)). Qed.

(** [pid] names no live process other than [p]. *)
Definition fresh_pid (k : kst) (p pid : Z) : Prop :=
  forall n, 0 <= n < NR_PROCS -> proc_addr k n <> p -> has_pid k pid n = false.

Lemma in_upto a b n : In n (upto a b) <-> a <= n < b.
Proof.
  unfold upto. rewrite in_map_iff. split.
  - intros (i & <- & Hi%in_seq). lia.
  - intros. exists (Z.to_nat (n - a)). rewrite in_seq. lia.
Qed.

Lemma pid_free_spec k pid :
  process_pid_free k pid = true <-> 0 < pid /\ forall n, 0 <= n < NR_PROCS -> has_pid k pid n = false.
Proof.
  unfold process_pid_free. destruct (Z.leb_spec pid 0); [split; [done|lia]|].
  rewrite negb_true_iff, <- not_true_iff_false, existsb_exists. split.
  - intros Hn. split; [lia|]. intros n Hr. apply not_true_iff_false. intros E. apply Hn. exists n.
    by rewrite in_upto.
  - intros [_ Hf] (n & Hr%in_upto & E). by rewrite Hf in E.
Qed.

Lemma pid_fresh k p pid : process_pid_free k pid = true -> fresh_pid k p pid.
Proof. intros [_ H]%pid_free_spec n Hn _. by apply H. Qed.

Lemma addr_inj k m n : table_ok k -> endpoint m -> endpoint n -> proc_addr k m = proc_addr k n -> m = n.
Proof. intros T Hm Hn E. rewrite <- (proj2 (to_addr k T m Hm)), <- (proj2 (to_addr k T n Hn)). by rewrite E. Qed.

Lemma replace_pids k p rp :
  pids_ok k -> table_ok k ->
  has (p_flags rp) P_SLOT_FREE = true \/ p_pid rp <= 0 \/ fresh_pid k p (p_pid rp) ->
  pids_ok (set_proc p rp k).
Proof.
  intros HP HT Hor. unfold pids_ok.
  assert (Ho : forall n, proc_addr k n <> p -> forall pid, has_pid (set_proc p rp k) pid n = has_pid k pid n).
  { intros n Hn pid. unfold has_pid. change (proc_addr (set_proc p rp k)) with (proc_addr k).
    by rewrite set_proc_other. }
  assert (Hs : forall n pid, proc_addr k n = p -> 0 < pid -> has_pid (set_proc p rp k) pid n = true ->
    pid = p_pid rp /\ fresh_pid k p pid).
  { intros n pid Hn Hpid. unfold has_pid. change (proc_addr (set_proc p rp k)) with (proc_addr k).
    rewrite Hn, set_proc_same, andb_true_iff, negb_true_iff, Z.eqb_eq. intros [Hf He]. rewrite <- He.
    rewrite He in *. destruct Hor as [?|[?|?]]; [congruence|lia|done]. }
  assert (Hend : forall n, 0 <= n < NR_PROCS -> endpoint n) by (unfold endpoint, NR_TASKS; lia).
  intros m n pid Hm Hn Hpid H1 H2.
  destruct (Z.eq_dec (proc_addr k m) p) as [Em|Em], (Z.eq_dec (proc_addr k n) p) as [En|En].
  - apply (addr_inj k); auto. congruence.
  - destruct (Hs m pid Em Hpid H1) as [_ Hf]. rewrite (Ho n En), Hf in H2; done.
  - destruct (Hs n pid En Hpid H2) as [_ Hf]. rewrite (Ho m Em), Hf in H1; done.
  - rewrite Ho in H1, H2 by done. by apply (HP m n pid).
Qed.

(** A sound table stays sound when a detached descriptor is replaced. *)
Lemma replace_ok k C Q H p rp :
  procs_ok k C Q H -> valid_proc p -> detached k C Q H p -> is_sending k p = false ->
  p_nr rp = p_nr (k_proc k p) -> p_callerq rp = 0 -> has (p_flags rp) SENDING = false ->
  (truthy (p_blocked_frame_valid rp) = true -> blocked_frame_matches rp = true) ->
  has (p_flags rp) P_SLOT_FREE = true \/ p_pid rp <= 0 \/ fresh_pid k p (p_pid rp) ->
  procs_ok (set_proc p rp k) C Q H.
Proof.
  intros [HI [HQ Hz] (Hh1 & Hh2 & Hh3) HP] Hp (_ & _ & HnQ & HnH & HC & _) Hs Hnr Hcq Hsend Hfr Hpid.
  assert (Hx : forall q x, 0 <= q < 3 -> In x (Q q) -> x <> p) by (intros q x Hq Hi ->; apply HnQ; eauto).
  constructor.
  - by apply replace_ipc.
  - split.
    + intros q Hq. apply (queue_ok_ext k); [by apply HQ|done|done| |]; intros x Hi;
        rewrite set_proc_other by (by apply (Hx q)); done.
    + intros q x Hq Hi. rewrite set_proc_other by (by apply (Hx q)). by apply (Hz q).
  - split_and!; [|done|done]. change (k_held_head (set_proc p rp k)) with (k_held_head k).
    apply (chain_ext (fun q => p_nextheld (k_proc k q))); [|done].
    intros x Hi. rewrite set_proc_other; [done|]. by intros ->.
  - apply replace_pids; [done| |done]. apply HI.
Qed.

(** What the invariant, apart from the ready queues, does not look at: ready
    links, the times of children and the pointers outside the table. *)
Definition core (rp : proc) : proc := set_p_nextready 0 (set_child_utime 0 (set_child_stime 0 rp)).

Lemma core_field {A} (f : proc -> A) a b : (forall rp, f (core rp) = f rp) -> core a = core b -> f a = f b.
Proof. intros Hf E. by rewrite <- (Hf a), E. Qed.

(** The same, without the times of the process itself. *)
Definition timeless (rp : proc) : proc := set_user_time 0 (set_sys_time 0 (core rp)).

Lemma timeless_field {A} (f : proc -> A) a b : (forall rp, f (timeless rp) = f rp) -> timeless a = timeless b -> f a = f b.
Proof. intros Hf E. by rewrite <- (Hf a), E. Qed.

Lemma procs_ok_timeless k k' C Q Q' H :
  procs_ok k C Q H -> (forall x, timeless (k_proc k' x) = timeless (k_proc k x)) -> k_addr k' = k_addr k ->
  k_held_head k' = k_held_head k -> ready_ok k' Q' -> procs_ok k' C Q' H.
Proof.
  intros [HI _ Hh HP] Ep Ea Eh HR.
  assert (F : forall A (f : proc -> A) x, (forall rp, f (timeless rp) = f rp) -> f (k_proc k' x) = f (k_proc k x))
    by (intros A f x Hf; by apply timeless_field).
  assert (Hpa : forall n, proc_addr k' n = proc_addr k n) by (intros; unfold proc_addr; by rewrite Ea).
  constructor; [|done| |].
  - apply (ipc_ok_ext k); [done|done| | | | |].
    + intros x. unfold is_sending, is_free. by rewrite (F _ p_nr), (F _ p_sendlink), (F _ p_callerq), (F _ p_flags).
    + intros x _. by rewrite (F _ p_sendto), (F _ p_messbuf).
    + intros x Hx Hs. unfold is_receiving. rewrite (F _ p_flags), (F _ p_getfrom) by done. by apply (io_both _ _ HI).
    + intros r x Hr Hx. unfold waits_for, is_receiving. rewrite (F _ p_flags), (F _ p_getfrom), (F _ p_nr) by done.
      by apply (io_match _ _ HI).
    + intros x Hx. rewrite (F _ p_blocked_frame_valid), (F _ blocked_frame_matches) by done. by apply (io_frames _ _ HI).
  - destruct Hh as (Hh1 & Hh2). split; [|done]. rewrite Eh. apply (chain_ext (fun q => p_nextheld (k_proc k q))); [|done].
    intros x _. by rewrite (F _ p_nextheld).
  - intros m n pid. unfold has_pid. rewrite !Hpa, !(F _ p_flags), !(F _ p_pid) by done. by apply HP.
Qed.

Lemma procs_ok_core k k' C Q Q' H :
  procs_ok k C Q H -> (forall x, core (k_proc k' x) = core (k_proc k x)) -> k_addr k' = k_addr k ->
  k_held_head k' = k_held_head k -> ready_ok k' Q' -> procs_ok k' C Q' H.
Proof. intros HP Ep. apply (procs_ok_timeless k _ C Q); [done|]. intros x. unfold timeless. by rewrite Ep. Qed.

(** The ready queues only need their links, classes and flags. *)
Lemma ready_ok_ext k k' Q :
  ready_ok k Q -> k_rdy_head k' = k_rdy_head k -> k_rdy_tail k' = k_rdy_tail k ->
  (forall x, p_nextready (k_proc k' x) = p_nextready (k_proc k x) /\ p_nr (k_proc k' x) = p_nr (k_proc k x) /\
             p_flags (k_proc k' x) = p_flags (k_proc k x)) -> ready_ok k' Q.
Proof.
  intros [HQ Hz] Er Et Hx. split.
  - apply (queues_links k); try done. intros x. destruct (Hx x) as (? & ? & _). done.
  - intros q x Hq Hi. destruct (Hx x) as (_ & _ & ->). by apply (Hz q).
Qed.

Lemma find_upto (f : Z -> bool) a b :
  match List.find f (upto a b) with
  | Some n => a <= n < b /\ f n = true /\ forall m, a <= m < n -> f m = false
  | None => forall m, a <= m < b -> f m = false
  end.
Proof.
  unfold upto. set (len := Z.to_nat (b - a)). assert (Hl : Z.of_nat len = Z.max 0 (b - a)) by lia. clearbody len.
  enough (E : forall s, match List.find f (map (fun i => a + Z.of_nat i) (seq s len)) with
    | Some n => a + Z.of_nat s <= n < a + Z.of_nat s + Z.of_nat len /\ f n = true /\
                forall m, a + Z.of_nat s <= m < n -> f m = false
    | None => forall m, a + Z.of_nat s <= m < a + Z.of_nat s + Z.of_nat len -> f m = false end).
  { specialize (E 0%nat). destruct (List.find f _) as [n|].
    - destruct E as (E1 & E2 & E3). split; [lia|]. split; [done|]. intros m Hm. apply E3. lia.
    - intros m Hm. apply E. lia. }
  clear Hl. induction len as [|len IH]; intros s; cbn [seq map List.find]; [intros; lia|].
  destruct (f (a + Z.of_nat s)) eqn:E0; [split; [lia|split; [done|intros; lia]]|].
  specialize (IH (Datatypes.S s)). destruct (List.find f _) as [n|].
  - destruct IH as (E1 & E2 & E3). split; [lia|]. split; [done|]. intros m Hm.
    destruct (Z.eq_dec m (a + Z.of_nat s)) as [->|]; [done|]. apply E3. lia.
  - intros m Hm. destruct (Z.eq_dec m (a + Z.of_nat s)) as [->|]; [done|]. apply IH. lia.
Qed.

Lemma user_slot k n : table_ok k -> LOW_USER < n < NR_PROCS ->
  valid_proc (proc_addr k n) /\ p_nr (k_proc k (proc_addr k n)) = n.
Proof. intros HT Hn. apply (to_addr k HT). unfold endpoint, NR_TASKS, LOW_USER in *. lia. Qed.

Lemma not_sending k p : p_flags (k_proc k p) = P_SLOT_FREE \/ p_flags (k_proc k p) = NO_MAP \/
  p_flags (k_proc k p) = RECEIVING -> is_sending k p = false.
Proof. unfold is_sending. by intros [-> | [-> | ->]]. Qed.

(** ** Reservation *)

(** C15. Reservation takes the first free detached user slot for a positive pid
    that no live process has, and refuses otherwise; only that descriptor
    changes and the whole table stays sound. *)
Theorem reserve_exact k C Q H pid :
  procs_ok k C Q H ->
  let (p, k') := cp32_proc_reserve pid k in
  (p = NIL_PROC /\ k' = k /\
   (pid <= 0 \/ (exists n, 0 <= n < NR_PROCS /\ has_pid k pid n = true) \/
    forall n, LOW_USER < n < NR_PROCS -> reservable k n = false)) \/
  (exists n, LOW_USER < n < NR_PROCS /\ p = proc_addr k n /\ reservable k n = true /\
     (forall m, LOW_USER < m < n -> reservable k m = false) /\ 0 < pid /\
     (forall m, 0 <= m < NR_PROCS -> has_pid k pid m = false) /\
     k' = set_proc p (reserved n pid) k /\ procs_ok k' C Q H).
Proof.
  intros HP. unfold cp32_proc_reserve. destruct (process_pid_free k pid) eqn:Ep; cbn [negb].
  - pose proof (find_upto (reservable k) (LOW_USER + 1) NR_PROCS) as Hf.
    destruct (List.find (reservable k) _) as [n|].
    + right. destruct Hf as (Hn & Hr & Hmin). exists n. pose proof Ep as [Hpos Hfree]%pid_free_spec.
      assert (HT : table_ok k) by apply HP.
      destruct (user_slot k n HT) as [Hv Hnr]; [lia|]. pose proof Hr as Hr'. unfold reservable in Hr'.
      apply andb_true_iff in Hr' as [Hflag%Z.eqb_eq Hdet].
      split_and!; try done; try lia. { intros m Hm. apply Hmin. lia. }
      apply replace_ok; try done.
      * by apply detached_spec.
      * apply not_sending. by left.
      * right. right. by apply pid_fresh.
    + left. split; [done|]. split; [done|]. right. right. intros n Hn. apply Hf. lia.
  - left. split; [done|]. split; [done|]. destruct (Z.leb_spec pid 0) as [|Hpos]; [by left|right; left].
    unfold process_pid_free in Ep. rewrite (proj2 (Z.leb_gt _ _)) in Ep by lia.
    apply negb_false_iff, existsb_exists in Ep as (n & Hn%in_upto & Ep). by exists n.
Qed.

(** ** Cloning *)
Lemma bad_clone_false k parent child pid broker :
  bad_clone k parent child pid broker = false ->
  (broker = MM_PROC_NR \/ broker = FS_PROC_NR) /\ LOW_USER < parent < NR_PROCS /\ LOW_USER < child < NR_PROCS /\
  parent <> child /\ p_flags (k_proc k (proc_addr k parent)) = RECEIVING /\
  p_getfrom (k_proc k (proc_addr k parent)) = broker /\
  p_flags (k_proc k (proc_addr k child)) = P_SLOT_FREE /\ process_detached k (proc_addr k child) = true /\
  process_pid_free k pid = true.
Proof.
  unfold bad_clone. rewrite !orb_false_iff, andb_false_iff, !negb_false_iff, !Z.leb_gt, !Z.eqb_neq, !Z.eqb_eq.
  intros (((Hb & ((((Hp & Hp') & Hc) & Hc') & Hne) & Hpid) & (((((((Hpp & Hpf) & Hpg) & _) & _) & _) & Hcf) & Hcd)) & Hfree). tauto.
Qed.

Lemma clone_ok k C Q H parent child pid broker :
  procs_ok k C Q H -> bad_clone k parent child pid broker = false ->
  procs_ok (set_proc (proc_addr k child) (cloned child pid (k_proc k (proc_addr k parent))) k) C Q H.
Proof.
  intros HP E. apply bad_clone_false in E as (_ & Hp & Hc & Hne & Hpf & Hpg & Hcf & Hcd & Hpid).
  assert (HT : table_ok k) by apply HP. destruct (user_slot k child HT Hc) as [Hv Hnr].
  destruct (user_slot k parent HT Hp) as [Hvp _]. apply replace_ok; try done.
  - by apply detached_spec.
  - apply not_sending. by left.
  - intros Hf. apply (io_frames _ _ (po_ipc _ _ _ _ HP) _ Hvp) in Hf. exact Hf.
  - right. right. by apply pid_fresh.
Qed.

(** C17. A clone is made only of a process that waits for the broker, in a free
    detached user slot and under an unused pid.  The child has the parent's
    map, registers and pending receive except that the call returns 0 in it,
    starts with no time, alarm or signals and cannot run; the parent and every
    other descriptor are untouched and the table stays sound. *)
Theorem clone_exact k C Q H parent child pid broker :
  procs_ok k C Q H ->
  match cp32_proc_clone parent child pid broker k with
  | (Ok _, k') =>
      let p := k_proc k (proc_addr k parent) in
      let c := k_proc k' (proc_addr k child) in
      bad_clone k parent child pid broker = false /\ procs_ok k' C Q H /\
      (forall x, x <> proc_addr k child -> k_proc k' x = k_proc k x) /\
      p_nr c = child /\ p_pid c = pid /\ p_flags c = Z.lor NO_MAP RECEIVING /\
      p_map c = p_map p /\ p_messbuf c = p_messbuf p /\ p_getfrom c = broker /\
      r_a (p_reg c) = updZ (r_a (p_reg p)) 2 0 /\ r_pc (p_reg c) = r_pc (p_reg p) /\ r_sp (p_reg c) = r_sp (p_reg p) /\
      user_time c = 0 /\ sys_time c = 0 /\ p_alarm c = 0 /\ p_pending c = 0
  | (Err e, k') => e = EINVAL /\ k' = k /\ bad_clone k parent child pid broker = true
  end.
Proof.
  intros HP. unfold cp32_proc_clone. unfold bind, gets, guard. destruct (bad_clone k parent child pid broker) eqn:E; [done|].
  cbn [ret modify]. pose proof (clone_ok k C Q H parent child pid broker HP E) as HP'.
  apply bad_clone_false in E as (_ & Hp & Hc & Hne & Hpf & Hpg & Hcf & Hcd & Hpid).
  split_and!; try done; try (rewrite set_proc_same; try done).
  - intros x Hx. by apply set_proc_other.
Qed.

(** ** Publication *)

(** A segment of identity-mapped memory that holds [sp]. *)
Definition flat_segment (sp : Z) (m : mem_map) : Prop :=
  mem_vir m = mem_phys m * CLICK_SIZE /\ mem_vir m <= sp < mem_vir m + mem_len m * CLICK_SIZE /\
  mem_vir m + mem_len m * CLICK_SIZE <= 4294967296 /\ mem_len m < 1048576.
Definition u32_map (m : mem_map) : Prop := is_u32 (mem_vir m) /\ is_u32 (mem_phys m) /\ is_u32 (mem_len m).

Lemma segment_flat_spec sp m : is_u32 sp -> u32_map m -> bad_segment sp m = false <-> flat_segment sp m.
Proof.
  unfold is_u32, u32_map, bad_segment, flat_segment, CLICK_SIZE, CLICK_SHIFT, is_u32. intros Hsp (Hv & Hp & Hl).
  rewrite !orb_false_iff, negb_false_iff, truthy_false, !Z.ltb_ge, Z.leb_gt, Z.eqb_eq, Z.eqb_neq.
  change (4096 - 1) with (Z.ones 12). rewrite Z.land_ones by lia. rewrite !Z.shiftr_div_pow2 by lia.
  rewrite Z.shiftl_mul_pow2 by lia. change (2 ^ 12) with 4096. change (0xffffffff / 4096) with 1048575.
  assert (mem_vir m mod 4096 = mem_vir m - 4096 * (mem_vir m / 4096)) by (Z.div_mod_to_equations; lia).
  split.
  - intros ((((((H1 & H2) & H3) & H4) & H5) & H6) & H7).
    rewrite (wrap32_small (mem_len m * 4096)) in * by lia.
    rewrite wrap32_small in H7 by lia. rewrite !wrap32_small in H5 by lia. lia.
  - intros (H1 & H2 & H3 & H4). rewrite H1, Z.div_mul, Z.mod_mul in * by lia.
    rewrite !wrap32_small; lia.
Qed.

Lemma bad_slot_false k p :
  bad_slot k p = false -> exists n, LOW_USER < n < NR_PROCS /\ p = proc_addr k n /\ p_nr (k_proc k p) = n.
Proof.
  unfold bad_slot. rewrite !orb_false_iff, !Z.leb_gt, negb_false_iff, !Z.eqb_eq.
  intros [[[_ H1] H2] H3]. exists (p_nr (k_proc k p)). done.
Qed.

(** Readying a detached descriptor whose flags are clear. *)
Lemma lock_ready_ok k C Q H p :
  procs_ok k C Q H -> valid_proc p -> p_flags (k_proc k p) = 0 -> ~ (exists q, 0 <= q < 3 /\ In p (Q q)) ->
  procs_ok (lock_ready p k) C (enqueue Q (proc_queue (k_proc k p)) p) H /\
  (forall x, set_p_nextready 0 (k_proc (lock_ready p k) x) = set_p_nextready 0 (k_proc k x)) /\
  forall n, proc_addr (lock_ready p k) n = proc_addr k n.
Proof.
  intros HP Hv Hf Hout. unfold lock_ready, locked. set (k2 := set_k_switching true k).
  pose proof (ready_links p k2) as HL. pose proof (proc_queue_range (k_proc k p)) as Hq.
  assert (HQ : queues k2 Q) by (apply (queues_ext k); try done; apply HP).
  pose proof (ready_queues k2 Q p HQ Hv (eligible_blocked k2 p Hf)) as HR. cbv zeta in HR.
  change (k_proc k2 p) with (k_proc k p) in HR.
  rewrite decide_False in HR by (rewrite list_elem_of_In; intros ?; apply Hout; eauto).
  assert (E : forall x, set_p_nextready 0 (k_proc (ready p k2) x) = set_p_nextready 0 (k_proc k x)) by apply HL.
  split; [|split; [exact E|]].
  - apply (procs_ok_core k _ C Q); [done| |apply (sl_addr _ _ HL)|apply (sl_held _ _ HL)|].
    + intros x. pose proof (f_equal (fun rp => set_child_utime 0 (set_child_stime 0 rp)) (E x)) as Hx. exact Hx.
    + split; [by apply (queues_ext (ready p k2))|]. intros q x Hqr Hx.
      change (p_flags (k_proc (ready p k2) x) = 0). rewrite (links_field p_flags k2 _ x) by done.
      unfold enqueue in Hx. destruct (q =? proc_queue (k_proc k p)); [|apply (proj2 (po_ready _ _ _ _ HP) q x); done].
      apply in_app_iff in Hx as [Hx|[<-|[]]]; [|done]. by apply (proj2 (po_ready _ _ _ _ HP) _ x Hq).
  - intros n. unfold proc_addr. exact (f_equal (fun a => a (n + NR_TASKS)) (sl_addr _ _ HL)).
Qed.

(** Publication makes a reserved slot runnable exactly when its data and
    stack segments are flat memory around an aligned stack pointer and the
    frame can be returned to: then it is last in the user queue, the
    scheduler accepts its frame unless the stack pointer is zero, and the table stays sound; a refusal
    changes nothing. *)
Theorem publish_exact k C Q H p :
  procs_ok k C Q H -> Forall u32_map (p_map (k_proc k p)) -> is_u32 (r_sp (p_reg (k_proc k p))) ->
  match cp32_proc_publish p k with
  | (Ok _, k') =>
      let rp := k_proc k p in
      exists n, LOW_USER < n < NR_PROCS /\ p = proc_addr k n /\ p_flags rp = NO_MAP /\ 0 < p_pid rp /\
      flat_segment (r_sp (p_reg rp)) (segment rp D) /\ flat_segment (r_sp (p_reg rp)) (segment rp S) /\
      procs_ok k' C (enqueue Q USER_Q p) H /\ p_flags (k_proc k' p) = 0 /\
      bad_user_frame USER_Q (k_proc k' p) = (r_sp (p_reg rp) =? 0) /\
      (forall x, x <> p -> set_p_nextready 0 (k_proc k' x) = set_p_nextready 0 (k_proc k x))
  | (Err e, k') => e = EINVAL /\ k' = k /\ bad_publication k p = true
  end.
Proof.
  intros HP Hmap Hsp. unfold cp32_proc_publish, bind, gets, guard.
  destruct (bad_publication k p) eqn:E; [done|]. cbn [ret modify].
  unfold bad_publication in E. rewrite !orb_false_iff in E.
  destruct E as ((((((((((Hslot & Hfl) & Hpid) & Hdet) & HD) & HS) & Hpc) & Hal) & Ha1) & Ha15) & Hpsw).
  apply bad_slot_false in Hslot as (n & Hn & Hp & Hnr). apply negb_false_iff in Hfl, Hdet, Ha1.
  apply Z.eqb_eq in Hfl, Ha1. apply Z.leb_gt in Hpid.
  assert (Hu : forall i, u32_map (segment (k_proc k p) i)).
  { intros i. unfold segment. destruct (nth_in_or_default (Z.to_nat i) (p_map (k_proc k p)) empty_map) as [Hi|Hi].
    - rewrite Forall_forall in Hmap. by apply Hmap.
    - rewrite Hi. by repeat split. }
  apply segment_flat_spec in HD, HS; try done.
  assert (HT : table_ok k) by apply HP. destruct (user_slot k n HT Hn) as [Hv _]. rewrite <- Hp in Hv.
  pose proof (detached_spec _ _ _ _ _ HP Hv Hdet) as Hd. pose proof Hd as (_ & _ & Hout & _ & _ & Hcq & _).
  set (k1 := upd p (set_p_flags 0) k).
  assert (HP1 : procs_ok k1 C Q H).
  { apply replace_ok; try done.
    - apply not_sending. auto.
    - intros Hf. apply (io_frames _ _ (po_ipc _ _ _ _ HP) _ Hv) in Hf. exact Hf.
    - right. right. intros m Hm Hne. apply not_true_iff_false. intros Hh. apply Hne. rewrite Hp. f_equal.
      apply (po_pids _ _ _ _ HP m n (p_pid (k_proc k p))); [done|unfold LOW_USER in *; lia|done|done|].
      unfold has_pid. rewrite <- Hp, Hfl. apply Z.eqb_refl. }
  assert (Hk1 : k_proc k1 p = set_p_flags 0 (k_proc k p)) by (unfold k1; apply upd_same).
  destruct (lock_ready_ok k1 C Q H p HP1 Hv) as (HP2 & HL & _); [by rewrite Hk1|done|].
  assert (Hq : proc_queue (k_proc k1 p) = USER_Q).
  { rewrite Hk1. unfold proc_queue. cbn [p_nr set_p_flags]. rewrite Hnr. unfold LOW_USER in *.
    rewrite !(proj2 (Z.ltb_ge _ _)) by lia. done. }
  rewrite Hq in HP2.
  assert (F : forall A (f : proc -> A), (forall rp, f (set_p_nextready 0 rp) = f rp) ->
    f (k_proc (lock_ready p k1) p) = f (set_p_flags 0 (k_proc k p))).
  { intros A f Hf. by rewrite <- Hf, HL, Hf, Hk1. }
  exists n. split_and!; try done; try lia.
  - by rewrite (F _ p_flags).
  - unfold bad_user_frame. rewrite (F _ (fun rp => r_pc (p_reg rp))), (F _ call0_frame) by done. cbn [p_reg set_p_flags].
    change (USER_Q =? USER_Q) with true. cbn [andb]. rewrite Hpc. cbn [orb]. unfold call0_frame. cbn [p_reg set_p_flags].
    rewrite Ha1, Z.eqb_refl, andb_true_r. apply truthy_false in Hal. change 0x0F with 15. rewrite Hal.
    by destruct (r_sp (p_reg (k_proc k p)) =? 0).
  - intros x Hx. rewrite HL. unfold k1. by rewrite upd_other.
Qed.

(** ** Release *)
Lemma detached_complete k C Q H p :
  procs_ok k C Q H -> detached k C Q H p ->
  p_nextready (k_proc k p) = 0 -> p_nextheld (k_proc k p) = 0 -> p_int_held (k_proc k p) = 0 ->
  p_int_blocked (k_proc k p) = 0 -> process_detached k p = true.
Proof.
  intros [HI [HQ _] (Hh1 & Hh2 & Hh3) _] (Hc & Hpp & HnQ & HnH & _ & Hcq & Hsl) E1 E2 E3 E4.
  unfold process_detached. rewrite E1, E2, E3, E4, Hcq, Hsl, (proj2 (Z.eqb_neq _ _) Hc), (proj2 (Z.eqb_neq _ _) Hpp).
  cbn [orb negb truthy andb]. change (truthy 0) with false. cbn [orb negb andb].
  apply andb_true_iff. split.
  - apply forallb_forall. intros q Hq. assert (Hr : 0 <= q < 3) by (simpl in Hq; lia).
    destruct (HQ q Hr) as [Hch _ Hn Hv]. apply (walk_clear_spec _ _ _ _ (Q q)); [done| | |].
    + eapply Forall_impl; [|exact Hv]. by intros x [? _].
    + apply (queue_length _ _ _ (HQ q Hr)).
    + intros Hi. apply HnQ. eauto.
  - apply (walk_clear_spec _ _ _ _ H); [done|done| |done]. by apply pigeonhole.
Qed.

Lemma account_spec k p :
  let k' := account p k in
  let fs := proc_addr k FS_PROC_NR in
  (forall x, core (k_proc k' x) = core (k_proc k x)) /\ (forall x, x <> fs -> k_proc k' x = k_proc k x) /\
  (forall x, p_nextready (k_proc k' x) = p_nextready (k_proc k x)) /\
  k' = set_k_proc (k_proc k') k.
Proof.
  unfold account. cbv zeta. destruct (_ =? RECEIVING); [|by destruct k].
  split_and!; [| | |done]; intros x.
  - destruct (Z.eq_dec x (proc_addr k FS_PROC_NR)) as [->|]; [by rewrite upd_same|by rewrite upd_other].
  - intros. by rewrite upd_other.
  - destruct (Z.eq_dec x (proc_addr k FS_PROC_NR)) as [->|]; [by rewrite upd_same|by rewrite upd_other].
Qed.

Lemma forget_spec k p :
  p <> 0 -> proc_addr k FS_PROC_NR <> p ->
  let k' := forget p k in
  k_proc k' = k_proc k /\ k_addr k' = k_addr k /\ k_rdy_head k' = k_rdy_head k /\ k_rdy_tail k' = k_rdy_tail k /\
  k_held_head k' = k_held_head k /\ k_current k' = k_current k /\ k_proc_ptr k' = k_proc_ptr k /\
  k_bill_ptr k' <> p /\ k_irq_return k' <> p /\ k_blocked_return k' <> p /\ k_irq_saved_owner k' <> p.
Proof.
  intros H0 Hfs. unfold forget. cbv zeta. change NIL_PROC with 0.
  destruct (Z.eqb_spec (k_bill_ptr k) p); cbn [k_irq_return set_k_bill_ptr];
  (destruct (Z.eqb_spec (k_irq_return k) p); cbn [k_blocked_return set_k_irq_return set_k_bill_ptr]);
  (destruct (Z.eqb_spec (k_blocked_return k) p); cbn [k_irq_saved_owner set_k_blocked_return set_k_irq_return set_k_bill_ptr]);
  destruct (Z.eqb_spec (k_irq_saved_owner k) p); split_and!; done || (cbn; congruence).
Qed.

(** The accounting and the cleared pointers keep the table sound. *)
Lemma settle_ok k C Q H p :
  procs_ok k C Q H -> proc_addr k FS_PROC_NR <> p -> detached k C Q H p -> valid_proc p ->
  let k2 := forget p (account p k) in
  procs_ok k2 C Q H /\ detached k2 C Q H p /\ k_addr k2 = k_addr k /\ k_proc k2 = k_proc (account p k) /\
  k_bill_ptr k2 <> p /\ k_irq_return k2 <> p /\ k_blocked_return k2 <> p /\ k_irq_saved_owner k2 <> p.
Proof.
  intros HP Hfs Hd Hv. destruct (account_spec k p) as (Hcore & Hsame & Hnext & Hacc). set (k1 := account p k) in *.
  assert (Ha1 : k_addr k1 = k_addr k) by (by rewrite Hacc).
  assert (Hpa : proc_addr k1 FS_PROC_NR = proc_addr k FS_PROC_NR) by (unfold proc_addr; by rewrite Ha1).
  destruct (forget_spec k1 p) as (Fp & Fa & Fh & Ft & Fhh & Fc & Fo & Fb & Fi & Fr & Fs);
    [unfold valid_proc in Hv; lia|by rewrite Hpa|]. cbv zeta. set (k2 := forget p k1) in *.
  split_and!; try done; [| |congruence].
  - apply (procs_ok_core k _ C Q); [done| |congruence|by rewrite Fhh, Hacc|].
    + intros x. by rewrite Fp.
    + apply (ready_ok_ext k); [apply HP|by rewrite Fh, Hacc|by rewrite Ft, Hacc|].
      intros x. rewrite Fp, Hnext. split_and!; [done| |]; apply (core_field); done || apply Hcore.
  - unfold detached in *. rewrite Fc, Fo, Fp, Hsame, Hacc by done. exact Hd.
Qed.

(** The state that a release leaves. *)
Definition settled (n p : Z) (k : kst) : kst := set_proc p (free_slot n) (forget p (account p k)).

Lemma release_ok k C Q H p :
  procs_ok k C Q H -> bad_release k p = false ->
  exists n, LOW_USER < n < NR_PROCS /\ p = proc_addr k n /\ p_nr (k_proc k p) = n /\
  (p_flags (k_proc k p) = NO_MAP \/ p_flags (k_proc k p) = RECEIVING /\ p_getfrom (k_proc k p) = FS_PROC_NR) /\
  proc_addr k FS_PROC_NR <> p /\ valid_proc p /\ detached k C Q H p /\ procs_ok (settled n p k) C Q H.
Proof.
  intros HP E. unfold bad_release in E. rewrite !orb_false_iff in E. destruct E as [[Hslot Hdet%negb_false_iff] Hfl].
  apply bad_slot_false in Hslot as (n & Hn & Hp & Hnr).
  assert (Hflags : p_flags (k_proc k p) = NO_MAP \/ p_flags (k_proc k p) = RECEIVING /\ p_getfrom (k_proc k p) = FS_PROC_NR).
  { destruct (Z.eqb_spec (p_flags (k_proc k p)) NO_MAP); [by left|right]. cbn [negb andb] in Hfl.
    apply negb_false_iff, andb_true_iff in Hfl as [->%Z.eqb_eq ->%Z.eqb_eq]. done. }
  assert (HT : table_ok k) by apply HP. destruct (user_slot k n HT Hn) as [Hv _]. rewrite <- Hp in Hv.
  pose proof (detached_spec _ _ _ _ _ HP Hv Hdet) as Hd.
  assert (Hfs : proc_addr k FS_PROC_NR <> p).
  { rewrite Hp. intros Ef%addr_inj; try done; unfold endpoint, LOW_USER, FS_PROC_NR, NR_TASKS, NR_PROCS in *; lia. }
  exists n. split_and!; try done; try lia.
  destruct (settle_ok k C Q H p HP Hfs Hd Hv) as (HP2 & Hd2 & Ea & Fp & Hptr).
  destruct (account_spec k p) as (_ & Hsame & _).
  assert (Hold : k_proc (forget p (account p k)) p = k_proc k p) by (by rewrite Fp, Hsame).
  apply replace_ok; try done; [|by rewrite Hold, Hnr|by left].
  apply not_sending. rewrite Hold. destruct Hflags as [?|[? _]]; auto.
Qed.

(** C16. Release frees exactly a detached user slot that was never published or
    whose process waits for the broker.  Afterwards nothing in the kernel
    refers to the slot, it can be reserved again, the time of an exited process
    and its children was added to the broker's children and nothing else
    changed; a refusal changes nothing. *)
Theorem release_exact k C Q H p :
  procs_ok k C Q H ->
  match cp32_proc_release p k with
  | (Ok _, k') =>
      let rp := k_proc k p in
      let fs := proc_addr k FS_PROC_NR in
      exists n, LOW_USER < n < NR_PROCS /\ p = proc_addr k n /\
      (p_flags rp = NO_MAP \/ p_flags rp = RECEIVING /\ p_getfrom rp = FS_PROC_NR) /\
      procs_ok k' C Q H /\ k_proc k' p = free_slot n /\ reservable k' n = true /\
      k_bill_ptr k' <> p /\ k_irq_return k' <> p /\ k_blocked_return k' <> p /\ k_irq_saved_owner k' <> p /\
      (forall x, x <> p -> x <> fs -> k_proc k' x = k_proc k x) /\
      core (k_proc k' fs) = core (k_proc k fs) /\
      child_utime (k_proc k' fs) = (if p_flags rp =? RECEIVING
        then to_int (child_utime (k_proc k fs) + to_int (user_time rp + child_utime rp)) else child_utime (k_proc k fs)) /\
      child_stime (k_proc k' fs) = (if p_flags rp =? RECEIVING
        then to_int (child_stime (k_proc k fs) + to_int (sys_time rp + child_stime rp)) else child_stime (k_proc k fs))
  | (Err e, k') => e = EINVAL /\ k' = k /\ bad_release k p = true
  end.
Proof.
  intros HP. unfold cp32_proc_release, bind, gets, guard. destruct (bad_release k p) eqn:E; [done|]. cbn [ret modify].
  destruct (release_ok k C Q H p HP E) as (n & Hn & Hp & Hnr & Hflags & Hfs & Hv & Hd & HP3). rewrite Hnr.
  destruct (settle_ok k C Q H p HP Hfs Hd Hv) as (HP2 & Hd2 & Ea & Fp & Hptr).
  destruct (account_spec k p) as (Hcore & Hsame & _). unfold settled in HP3. set (k2 := forget p (account p k)) in *.
  destruct Hptr as (? & ? & ? & ?). exists n. split_and!; try done; try lia.
  - by rewrite set_proc_same.
  - unfold reservable. replace (proc_addr (set_proc p (free_slot n) k2) n) with p
      by (rewrite Hp; unfold proc_addr; cbn; by rewrite Ea).
    rewrite set_proc_same. cbn [p_flags free_slot set_p_flags]. change (P_SLOT_FREE =? P_SLOT_FREE) with true. cbn [andb].
    apply (detached_complete _ C Q H); [done| |by rewrite set_proc_same..].
    destruct Hd2 as (D1 & D2 & D3 & D4 & D5 & _). unfold detached. rewrite set_proc_same. done.
  - intros x Hx Hxf. rewrite set_proc_other, Fp by done. by apply Hsame.
  - rewrite set_proc_other, Fp by done. apply Hcore.
  - rewrite set_proc_other, Fp by done. unfold account. case_match; [by rewrite upd_same|done].
  - rewrite set_proc_other, Fp by done. unfold account. case_match; [by rewrite upd_same|done].
Qed.

(** ** Witnesses

    User slot 5 (descriptor 15) is free; process 6 waits for the broker; then
    slot 5 is reserved with a map and a frame. *)
Module PDemo.
Definition segments : list mem_map := [empty_map; Map 0x3fcec000 0x3fcec 4; Map 0x3fcef000 0x3fcef 1].
Definition free : kst := set_proc 15 (free_slot 5) KDemo.state.
Definition waiting : proc :=
  set_p_messbuf 0x3fcef100 (set_p_getfrom FS_PROC_NR (set_p_flags RECEIVING (set_p_pid 9 (KDemo.rp 6)))).
Definition parent : kst := set_proc 16 waiting free.
Definition mapped : kst :=
  set_proc 15 (set_p_reg (frame_of 0x403d8000 0x3fcefe00 0) (set_p_map segments (reserved 5 7))) free.
End PDemo.

Abbreviation demo_sound k := (procs_ok k (fun _ => []) KDemo.Q []).

Lemma demo_pid x : p_pid (k_proc KDemo.state x) = 0.
Proof. unfold KDemo.state. by rewrite !(links_field p_pid _ _ x (fun _ => eq_refl) (ready_links _ _)). Qed.

Lemma no_pids k : (forall x, p_pid (k_proc k x) = 0) -> pids_ok k.
Proof.
  intros H0 m n pid _ _ Hpid H. exfalso. unfold has_pid in H. apply andb_true_iff in H as [_ H%Z.eqb_eq].
  rewrite H0 in H. lia.
Qed.

Lemma demo_held : held_ok KDemo.state [].
Proof.
  assert (E : k_held_head KDemo.state = 0) by (unfold KDemo.state; by rewrite !(proj1 (sl_held _ _ (ready_links _ _)))).
  unfold held_ok. cbn [lchain]. rewrite E. split_and!; [done|apply NoDup_nil_2|constructor].
Qed.

Lemma demo_procs_ok : demo_sound KDemo.state.
Proof. constructor; [exact demo_ipc_ok|exact demo_ready_ok|exact demo_held|apply no_pids, demo_pid]. Qed.

Lemma demo_replace k p rp :
  demo_sound k -> valid_proc p -> process_detached k p = true -> is_sending k p = false ->
  p_nr rp = p_nr (k_proc k p) -> p_callerq rp = 0 -> has (p_flags rp) SENDING = false ->
  p_blocked_frame_valid rp = 0 -> has (p_flags rp) P_SLOT_FREE = true \/ process_pid_free k (p_pid rp) = true ->
  demo_sound (set_proc p rp k).
Proof.
  intros HP Hv Hd Hs Hnr Hcq Hf Hb Hpid. apply replace_ok; try done.
  - by apply detached_spec.
  - by rewrite Hb.
  - destruct Hpid as [?|?]; [by left|]. right. right. by apply pid_fresh.
Qed.

Lemma demo_free_ok : demo_sound PDemo.free.
Proof.
  apply demo_replace; [exact demo_procs_ok|unfold valid_proc; lia|vm_compute; reflexivity..|by left].
Qed.

Lemma demo_parent_ok : demo_sound PDemo.parent.
Proof.
  apply demo_replace; [exact demo_free_ok|unfold valid_proc; lia|vm_compute; reflexivity..|right; vm_compute; reflexivity].
Qed.

Lemma demo_mapped_ok : demo_sound PDemo.mapped.
Proof.
  apply demo_replace; [exact demo_free_ok|unfold valid_proc; lia|vm_compute; reflexivity..|right; vm_compute; reflexivity].
Qed.

Lemma reserve_exact_witness : demo_sound (snd (cp32_proc_reserve 7 PDemo.free)) /\ fst (cp32_proc_reserve 7 PDemo.free) = 15.
Proof.
  pose proof (reserve_exact PDemo.free _ _ _ 7 demo_free_ok) as H.
  assert (E : fst (cp32_proc_reserve 7 PDemo.free) = 15) by (vm_compute; reflexivity).
  destruct (cp32_proc_reserve 7 PDemo.free) as [p k']. cbn [fst snd] in *. subst p.
  destruct H as [[H _]|H]; [exfalso; clear -H; unfold NIL_PROC in H; lia|].
  destruct H as (n & _ & _ & _ & _ & _ & _ & _ & H). split; [exact H|reflexivity].
Defined.

Lemma clone_exact_witness :
  fst (cp32_proc_clone 6 5 11 FS_PROC_NR PDemo.parent) = Ok tt /\
  demo_sound (snd (cp32_proc_clone 6 5 11 FS_PROC_NR PDemo.parent)).
Proof.
  pose proof (clone_exact PDemo.parent _ _ _ 6 5 11 FS_PROC_NR demo_parent_ok) as H.
  assert (E : fst (cp32_proc_clone 6 5 11 FS_PROC_NR PDemo.parent) = Ok tt) by (vm_compute; reflexivity).
  destruct (cp32_proc_clone 6 5 11 FS_PROC_NR PDemo.parent) as [r k']. cbn [fst snd] in *. subst r.
  destruct H as (_ & H & _). split; [reflexivity|exact H].
Defined.

Lemma publish_exact_witness :
  fst (cp32_proc_publish 15 PDemo.mapped) = Ok tt /\
  procs_ok (snd (cp32_proc_publish 15 PDemo.mapped)) (fun _ => []) (enqueue KDemo.Q USER_Q 15) [].
Proof.
  pose proof (publish_exact PDemo.mapped _ _ _ 15 demo_mapped_ok) as H.
  assert (E : fst (cp32_proc_publish 15 PDemo.mapped) = Ok tt) by (vm_compute; reflexivity).
  destruct (cp32_proc_publish 15 PDemo.mapped) as [r k']. cbn [fst snd] in *. subst r.
  destruct H as (n & H); [unfold u32_map, is_u32; repeat constructor; vm_compute; discriminate|
    split; vm_compute; discriminate || reflexivity|].
  split; [reflexivity|apply H].
Defined.

Lemma release_exact_witness :
  fst (cp32_proc_release 15 PDemo.mapped) = Ok tt /\ demo_sound (snd (cp32_proc_release 15 PDemo.mapped)).
Proof.
  pose proof (release_exact PDemo.mapped _ _ _ 15 demo_mapped_ok) as H.
  assert (E : fst (cp32_proc_release 15 PDemo.mapped) = Ok tt) by (vm_compute; reflexivity).
  destruct (cp32_proc_release 15 PDemo.mapped) as [r k']. cbn [fst snd] in *. subst r.
  destruct H as (n & _ & _ & _ & H & _). split; [reflexivity|exact H].
Defined.
