(* ===== verification/System.v ===== *)
(** * The system task: src/src/kernel/system.c

    The requests of MM and FS to the kernel ([sys_task] and its handlers) and
    the address translation [umap].  The static message [m] lies in kernel
    memory at [m_at], where [inform] writes too: the handlers read and store its
    words there.  A local structure is the list of its words; [vir2phys] of a
    local is its value.  The trace output and the [receive] and [send] calls
    around a request, which the message-passing components model, are left out. *)
From S2P Require Import Prelude Codec Kconst Ktypes Sched Ipc IpcSpec Message Signals Clock Exec Process.

Definition E_BAD_FCN := -1009.
Definition T := 0.
Definition ABS := -999.
Definition CPVEC_NR := 16.
Definition RBT_HALT := 0.
Definition RBT_REBOOT := 1.
Definition RBT_RESET := 4.
Definition SC_SIGCONTEXT := 2.
Definition SC_NOREGLOCALS := 4.
Definition TRACEBIT := 0.
(** The machine is stopped; a local array was overrun; a list has a cycle. *)
Definition HALTED := 999996.
Definition OVERRUN := 999995.
Definition CYCLE := 999994.

(** ** Words, frames and maps *)
Definition bytes_of_words (ws : list Z) : list Z := concat (map le_bytes ws).
(** The [n] words from [a]. *)
Definition words_at (m : mem) (a : Z) (n : nat) : list Z := map (fun i => word_at m (a + 4 * Z.of_nat i)) (seq 0 n).

Definition frame_words (f : stackframe_s) : list Z :=
  r_a f ++ [r_pc f; r_psw f; r_sp f; r_sar f; r_lbeg f; r_lend f; r_lcount f].
Definition frame_of_words (w : list Z) : stackframe_s :=
  Frame (take 16 w) (nthZ w 16) (nthZ w 17) (nthZ w 18) (nthZ w 19) (nthZ w 20) (nthZ w 21) (nthZ w 22).

Definition map_words (ms : list mem_map) : list Z := concat (map (fun m => [mem_vir m; mem_phys m; mem_len m]) ms).
Definition maps_of_words (w : list Z) : list mem_map :=
  map (fun i => Map (nthZ w (3 * i)) (nthZ w (3 * i + 1)) (nthZ w (3 * i + 2))) [0; 1; 2].

(** ** [umap] *)
Definition umap (k : kst) (rp seg vir_addr bytes : Z) : Z :=
  if bytes =? 0 then 0 else
  let p := k_proc k rp in
  let vc := Z.shiftr (vir_addr +u bytes -u 1) CLICK_SHIFT in
  let seg := if seg =? T then T else if vc <? mem_vir (segment p S) then D else S in
  let m := segment p seg in
  if mem_vir m +u mem_len m <=? Z.shiftr vir_addr CLICK_SHIFT then 0 else
  (mem_phys m <<u CLICK_SHIFT) +u (vir_addr -u (mem_vir m <<u CLICK_SHIFT)).

(** ** The state: the tasks, the chunks of memory and the boot parameters *)
Record sys := Sys { y_c : cst; y_mem : list (Z * Z); y_tot : Z; y_boot : list Z }.
Definition set_y_c (x : cst) (s : sys) : sys := Sys x (y_mem s) (y_tot s) (y_boot s).
Definition set_y_mem (x : list (Z * Z)) (s : sys) : sys := Sys (y_c s) x (y_tot s) (y_boot s).
Definition y_k (s : sys) : kst := c_k (y_c s).
Definition on_k (f : kst -> kst) (s : sys) : sys := set_y_c (kproc f (y_c s)) s.
Definition on_sig (f : Z -> Z) (s : sys) : sys :=
  set_y_c (set_c_t (set_sig_procs (f (sig_procs (c_t (y_c s)))) (c_t (y_c s))) (y_c s)) s.

Section System.
Context `{SIG : SigSet}.
Context (m_at proc_at : Z).
Abbreviation SM := (M sys).

Definition ycall {A} (c : M tasks A) : SM A := fun s => let (r, x) := tcall c (y_c s) in (r, set_y_c x s).
Definition kstep (f : kst -> kst) : SM unit := modify (on_k f).
Definition kget {A} (f : kst -> A) : SM A := gets (fun s => f (y_k s)).
(** A word of [m], read as an unsigned or pointer and as an int; a store to it. *)
Definition uword (w : Z) : SM Z := kget (fun k => word_at (k_mem k) (m_at + 4 * w)).
Definition iword (w : Z) : SM Z := x <- uword w ;; ret (to_int x).
Definition put_word (w x : Z) : SM unit := kstep (store_mem (m_at + 4 * w) (word_bytes x)).
Definition the_proc (rp : Z) : SM proc := kget (fun k => k_proc k rp).
Definition upd_proc (rp : Z) (f : proc -> proc) : SM unit := kstep (upd rp f).
Definition addr (n : Z) : SM Z := kget (fun k => proc_addr k n).

Definition m_source' : SM Z := iword 0.
Definition PROC1 : SM Z := iword 2.
Definition PROC2 : SM Z := iword 3.
Definition PID : SM Z := iword 4.
(** The byte at offset [i] of the union, a [char]. *)
Definition m5_char (i : Z) : SM Z := kget (fun k => k_mem k (m_at + 8 + i)).

(** A status of code that returns one. *)
Definition status (c : SM unit) : SM Z :=
  r <- try c ;; match r with Ok _ => ret OK | Err e => ret e end.

(** ** Processes *)
Definition do_fork : SM Z :=
  source <- m_source' ;;
  if source !=? MM_PROC_NR then ret EACCES else
  parent <- PROC1 ;; child <- PROC2 ;; pid <- PID ;;
  status (ycall (kcall (cp32_proc_clone parent child pid MM_PROC_NR))).

(** [if (old_flags != 0 && rp->p_flags == 0) lock_ready(rp);] after [~bit] *)
Definition clear_flag (rp bit : Z) : SM unit := upd_proc rp (fun p => set_p_flags (clear (p_flags p) bit) p).
Definition ready_if_clear (rp : Z) : SM unit :=
  p <- the_proc rp ;; if p_flags p =? 0 then kstep (lock_ready rp) else ret tt.

Definition do_newmap : SM Z :=
  caller <- m_source' ;; k <- PROC1 ;; map_ptr <- uword 5 ;;
  if negb (isokprocn k) then ret E_BAD_PROC else
  rp <- addr k ;;
  src_phys <- kget (fun k => umap k (proc_addr k caller) D map_ptr 36) ;;
  guard (src_phys =? 0) PANIC ;;;
  map <- kget (fun k => maps_of_words (words_at (k_mem k) src_phys 9)) ;;
  upd_proc rp (set_p_map map) ;;;
  p <- the_proc rp ;;
  clear_flag rp NO_MAP ;;;
  (if p_flags p !=? 0 then ready_if_clear rp else ret tt) ;;;
  ret OK.

Definition do_getmap : SM Z :=
  caller <- m_source' ;; k <- PROC1 ;; map_ptr <- uword 5 ;;
  guard (negb (isokprocn k)) PANIC ;;;
  rp <- addr k ;;
  dst_phys <- kget (fun k => umap k (proc_addr k caller) D map_ptr 36) ;;
  guard (dst_phys =? 0) PANIC ;;;
  p <- the_proc rp ;;
  kstep (store_mem dst_phys (bytes_of_words (map_words (p_map p)))) ;;;
  ret OK.

(** [isoksusern(n)] *)
Definition isoksusern (n : Z) : bool := wrap32 n <? NR_PROCS.

Definition clear_blocked (p : proc) : proc :=
  set_p_getfrom ANY (set_p_messbuf 0 (set_p_blocked_frame_sp 0 (set_p_blocked_frame_psw 0 (set_p_blocked_frame_pc 0
    (set_p_blocked_frame_result 0 (set_p_blocked_frame_valid 0 p)))))).

(** [p_name] after the copy: cut at the first control character. *)
Fixpoint name_length (name : list Z) : Z :=
  match name with [] => 0 | c :: name => if 32 <=? wrap8 c then 1 + name_length name else 0 end.
Definition command_name (bytes : list Z) : list Z := updZ (bytes ++ [0]) (name_length bytes) 0.

Definition do_exec : SM Z :=
  proc1 <- PROC1 ;;
  if negb (isoksusern proc1) then ret E_BAD_PROC else
  source <- m_source' ;;
  if source !=? MM_PROC_NR then ret EACCES else
  sp <- uword 5 ;;
  rp <- addr proc1 ;;
  p <- the_proc rp ;;
  if has (p_flags p) (Z.lor P_SLOT_FREE SENDING) then ret E_BAD_PROC else
  if negb (has (p_flags p) RECEIVING) then ret EINVAL else
  pc <- uword 7 ;;
  framed <- status (ycall (kcall (cp32_exec_frame rp pc sp 0))) ;;
  if framed !=? OK then ret EINVAL else
  upd_proc rp clear_blocked ;;;
  traced <- PROC2 ;;
  (if traced !=? 0 then proc1 <- PROC1 ;; ycall (cause_sig m_at proc1 SIGTRAP) else ret tt) ;;;
  upd_proc rp (set_p_alarm 0) ;;;
  source <- m_source' ;;
  name_ptr <- uword 6 ;;
  phys_name <- kget (fun k => numap k source name_ptr 15) ;;
  (if phys_name !=? 0 then
     bytes <- kget (fun k => mem_read (k_mem k) phys_name 15) ;; upd_proc rp (set_p_name (command_name bytes))
   else ret tt) ;;;
  clear_flag rp RECEIVING ;;;
  ready_if_clear rp ;;;
  ret OK.

(** [while ((xp = np->p_sendlink) != NIL_PROC) if (xp == rc) ...] *)
Fixpoint unlink_after (n : nat) (np rc : Z) (k : kst) : option kst :=
  let xp := p_sendlink (k_proc k np) in
  if xp =? NIL_PROC then Some k
  else if xp =? rc then Some (upd np (set_p_sendlink (p_sendlink (k_proc k xp))) k)
  else match n with O => None | Datatypes.S n => unlink_after n xp rc k end.

(** The slots [rp], [rp + 1], ...: [None] is a walk that never ends. *)
Fixpoint unqueue (n : nat) (rp rc : Z) (k : kst) : option kst :=
  match n with
  | O => Some k
  | Datatypes.S n =>
      let first := p_callerq (k_proc k rp) in
      if first =? NIL_PROC then unqueue n (rp + 1) rc k
      else if first =? rc then Some (upd rp (set_p_callerq (p_sendlink (k_proc k rc))) k)
      else match unlink_after HOPS_LE first rc k with Some k => unqueue n (rp + 1) rc k | None => None end
  end.

(** "<noname>" over the old name *)
Definition noname : list Z := [60; 110; 111; 110; 97; 109; 101; 62; 0].

Definition add_times (rc p : proc) : proc :=
  set_child_stime (to_int (child_stime p + to_int (sys_time rc + child_stime rc)))
    (set_child_utime (to_int (child_utime p + to_int (user_time rc + child_utime rc))) p).

Definition do_xit : SM Z :=
  parent <- PROC1 ;; proc_nr <- PROC2 ;;
  if negb (isoksusern parent) || negb (isoksusern proc_nr) then ret E_BAD_PROC else
  rp <- addr parent ;; rc <- addr proc_nr ;;
  c <- the_proc rc ;;
  upd_proc rp (add_times c) ;;;
  upd_proc rc (set_p_alarm 0) ;;;
  (if p_flags c =? 0 then kstep (lock_unready rc) else ret tt) ;;;
  upd_proc rc (fun p => set_p_name (splice (p_name p) 0 noname) p) ;;;
  (if has (p_flags c) SENDING then
     r <- kget (unqueue (Z.to_nat (NR_TASKS + NR_PROCS)) 1 rc) ;;
     match r with None => fail CYCLE | Some k => kstep (fun _ => k) end
   else ret tt) ;;;
  (if has (p_flags c) PENDING then modify (on_sig (fun n => n - 1)) else ret tt) ;;;
  upd_proc rc (fun p => set_p_flags P_SLOT_FREE (set_p_pendcount 0 (set_p_pending sigemptyset p))) ;;;
  ret OK.

Definition do_getsp : SM Z :=
  proc1 <- PROC1 ;;
  if negb (isoksusern proc1) then ret E_BAD_PROC else
  rp <- addr proc1 ;; p <- the_proc rp ;;
  if has (p_flags p) P_SLOT_FREE then ret E_BAD_PROC else
  put_word 5 (r_sp (p_reg p)) ;;; ret OK.

Definition do_times : SM Z :=
  proc1 <- PROC1 ;;
  if negb (isoksusern proc1) then ret E_BAD_PROC else
  rp <- addr proc1 ;; p <- the_proc rp ;;
  if has (p_flags p) P_SLOT_FREE then ret E_BAD_PROC else
  put_word 2 (user_time p) ;;; put_word 3 (sys_time p) ;;;
  put_word 4 (child_utime p) ;;; put_word 5 (child_stime p) ;;;
  now <- gets (fun s => get_uptime (y_c s)) ;;
  put_word 6 now ;;; ret OK.

Definition do_abort : SM Z :=
  how <- iword 2 ;;
  fail (if (how =? RBT_HALT) || (how =? RBT_REBOOT) || (how =? RBT_RESET) then HALTED else PANIC).

(** ** Signals *)

(** [memcpy(&sc.sc_regs, &rp->p_reg, sizeof(struct sigregs))] copies the first
    six words of the frame, whatever [struct sigregs] calls them. *)
Definition sigregs_of (f : stackframe_s) : list Z := take 6 (frame_words f).
Definition restore_sigregs (regs : list Z) (f : stackframe_s) : stackframe_s :=
  frame_of_words (regs ++ drop 6 (frame_words f)).

Definition set_reg_sp (x : Z) (rp : proc) : proc :=
  let r := p_reg rp in
  set_p_reg (Frame (r_a r) (r_pc r) (r_psw r) x (r_sar r) (r_lbeg r) (r_lend r) (r_lcount r)) rp.

Definition do_sendsig : SM Z :=
  proc1 <- PROC1 ;;
  if negb (isokusern proc1) then ret E_BAD_PROC else
  rp <- addr proc1 ;;
  msg_ptr <- uword 5 ;;
  src_phys <- kget (fun k => umap k (proc_addr k MM_PROC_NR) D msg_ptr 20) ;;
  guard (src_phys =? 0) PANIC ;;;
  smsg <- kget (fun k => words_at (k_mem k) src_phys 5) ;;
  let scp := nthZ smsg 4 -u 32 in
  p <- the_proc rp ;;
  let sc := SC_SIGCONTEXT :: nthZ smsg 1 :: sigregs_of (p_reg p) in
  dst_phys <- kget (fun k => umap k rp D scp 32) ;;
  if dst_phys =? 0 then ret EFAULT else
  kstep (store_mem dst_phys (bytes_of_words sc)) ;;;
  let frp := scp -u 28 in
  let fr := [nthZ smsg 3; nthZ smsg 0; 0; scp; nthZ (r_a (p_reg p)) 2; r_pc (p_reg p); scp] in
  upd_proc rp (set_reg_a 2 (frp +u 16)) ;;;
  dst_phys <- kget (fun k => umap k rp D frp 28) ;;
  if dst_phys =? 0 then ret EFAULT else
  kstep (store_mem dst_phys (bytes_of_words fr)) ;;;
  upd_proc rp (set_reg_sp frp) ;;;
  upd_proc rp (set_reg_pc (nthZ smsg 2)) ;;;
  ret OK.

Definition do_sigreturn : SM Z :=
  proc1 <- PROC1 ;;
  if negb (isokusern proc1) then ret E_BAD_PROC else
  rp <- addr proc1 ;;
  ctxt <- uword 5 ;;
  src_phys <- kget (fun k => umap k rp D ctxt 32) ;;
  if src_phys =? 0 then ret EFAULT else
  sc <- kget (fun k => words_at (k_mem k) src_phys 8) ;;
  let regs := drop 2 sc in
  if negb (has (nthZ sc 0) SC_SIGCONTEXT) then ret EINVAL else
  if has (nthZ sc 0) SC_NOREGLOCALS then
    upd_proc rp (fun p => set_reg_sp (nthZ regs 4) (set_reg_pc (nthZ regs 3)
      (set_reg_a 2 (nthZ regs 2) (set_reg_a 1 (nthZ regs 1) p)))) ;;;
    ret OK
  else
    p <- the_proc rp ;;
    upd_proc rp (set_p_reg (restore_sigregs (updZ regs 5 (r_psw (p_reg p))) (p_reg p))) ;;;
    ret OK.

(** ** Copies *)
Definition map_or_abs (proc_nr seg vir bytes : Z) : SM Z :=
  if proc_nr =? ABS then ret vir else kget (fun k => umap k (proc_addr k proc_nr) seg vir bytes).

Definition do_copy : SM Z :=
  src_proc <- iword 3 ;; dst_proc <- iword 4 ;;
  src_space <- m5_char 0 ;; dst_space <- m5_char 1 ;;
  src_vir <- uword 5 ;; dst_vir <- uword 6 ;; bytes <- uword 7 ;;
  src_phys <- map_or_abs src_proc src_space src_vir bytes ;;
  dst_phys <- map_or_abs dst_proc dst_space dst_vir bytes ;;
  if (src_phys =? 0) || (dst_phys =? 0) then ret EFAULT else
  kstep (phys_copy src_phys dst_phys bytes) ;;; ret OK.

Definition copy_entry (src_proc dst_proc : Z) (table : list Z) (i : Z) (_ : unit) : SM unit :=
  let src_vir := nthZ table (3 * i) in
  let dst_vir := nthZ table (3 * i + 1) in
  let bytes := nthZ table (3 * i + 2) in
  src_phys <- kget (fun k => numap k src_proc src_vir bytes) ;;
  dst_phys <- kget (fun k => numap k dst_proc dst_vir bytes) ;;
  guard ((src_phys =? 0) || (dst_phys =? 0)) EFAULT ;;;
  kstep (phys_copy src_phys dst_phys bytes).

(** A negative [vect_s] passes the test; its bytes overrun [cpvec_table]. *)
Definition do_vcopy : SM Z :=
  src_proc <- iword 2 ;; dst_proc <- iword 3 ;; vect_s <- iword 4 ;; vect_addr <- uword 5 ;;
  if CPVEC_NR <? vect_s then ret EDOM else
  source <- m_source' ;;
  src_phys <- kget (fun k => numap k source vect_addr (wrap32 (vect_s * 12))) ;;
  if src_phys =? 0 then ret EFAULT else
  guard (vect_s <? 0) OVERRUN ;;;
  table <- kget (fun k => words_at (k_mem k) src_phys (Z.to_nat (3 * vect_s))) ;;
  status (for_ (Z.to_nat vect_s) 0 (copy_entry src_proc dst_proc table) tt).

Definition do_gboot : SM Z :=
  proc1 <- PROC1 ;; ptr <- uword 5 ;;
  boot_parameters <- gets y_boot ;;
  dst_phys <- kget (fun k => umap k (proc_addr k proc1) D ptr (lenZ boot_parameters)) ;;
  guard (dst_phys =? 0) PANIC ;;;
  kstep (store_mem dst_phys boot_parameters) ;;; ret OK.

(** The loop over [mem]: the chunks that are not yet visited. *)
Fixpoint next_chunk (visited chunks : list (Z * Z)) : SM unit :=
  match chunks with
  | [] => ret tt
  | (base, size) :: chunks =>
      put_word 2 base ;;; put_word 3 size ;;;
      tot <- gets y_tot ;; put_word 4 tot ;;;
      let visited := visited ++ [(base, 0)] in
      modify (set_y_mem (visited ++ chunks)) ;;;
      left <- iword 3 ;;
      if left !=? 0 then ret tt else next_chunk visited chunks
  end.
Definition do_mem : SM Z := chunks <- gets y_mem ;; next_chunk [] chunks ;;; ret OK.

Definition do_umap : SM Z :=
  proc_nr <- iword 3 ;; space <- m5_char 0 ;; vir <- uword 5 ;; bytes <- uword 7 ;;
  phys <- kget (fun k => umap k (proc_addr k proc_nr) space vir bytes) ;;
  put_word 5 phys ;;; ret OK.


(** ** [do_trace] *)
Definition T_STOP := -1.
Definition T_GETINS := 1.
Definition T_GETDATA := 2.
Definition T_GETUSER := 3.
Definition T_SETINS := 4.
Definition T_SETDATA := 5.
Definition T_SETUSER := 6.
Definition T_RESUME := 7.
Definition T_STEP := 9.
(** [vir2phys(&TR_DATA)] *)
Definition TR_DATA_AT : Z := m_at + 4 * 6.

(** The words of [*rp]: 248 bytes, with [proc] at [proc_at]. *)
Definition proc_pointer (rp : Z) : Z := if rp =? NIL_PROC then 0 else proc_at +u (rp - 1) * 248.
Definition name_words (name : list Z) : list Z := map (fun i => word_at (nthZ name) (4 * i)) [0; 1; 2; 3].
Definition proc_words (p : proc) : list Z :=
  frame_words (p_reg p) ++
  [p_stguard p; p_shadow p; p_nr p; p_int_blocked p; p_int_held p; proc_pointer (p_nextheld p); p_flags p] ++
  map_words (p_map p) ++
  [p_pid p; user_time p; sys_time p; child_utime p; child_stime p; p_alarm p;
   proc_pointer (p_callerq p); proc_pointer (p_sendlink p); p_messbuf p; p_getfrom p; p_sendto p;
   proc_pointer (p_nextready p); p_pending p; p_pendcount p;
   p_blocked_frame_valid p; p_blocked_frame_result p; p_blocked_frame_pc p;
   p_blocked_frame_psw p; p_blocked_frame_sp p] ++
  name_words (p_name p).

Definition set_reg_psw (x : Z) (rp : proc) : proc :=
  let r := p_reg rp in
  set_p_reg (Frame (r_a r) (r_pc r) x (r_sp r) (r_sar r) (r_lbeg r) (r_lend r) (r_lcount r)) rp.
Definition set_reg_word (i x : Z) (rp : proc) : proc :=
  set_p_reg (frame_of_words (updZ (frame_words (p_reg rp)) i x)) rp.

Definition trace_get (rp seg : Z) : SM Z :=
  tr_addr <- uword 5 ;;
  src <- kget (fun k => umap k rp seg tr_addr 4) ;;
  if src =? 0 then ret EIO else kstep (phys_copy src TR_DATA_AT 4) ;;; ret OK.
Definition trace_set (rp seg : Z) : SM Z :=
  tr_addr <- uword 5 ;;
  dst <- kget (fun k => umap k rp seg tr_addr 4) ;;
  if dst =? 0 then ret EIO else kstep (phys_copy TR_DATA_AT dst 4) ;;; put_word 6 0 ;;; ret OK.
(** With no text segment the text is in the data segment. *)
Definition text_segment (p : proc) : Z := if mem_len (segment p T) =? 0 then D else T.
Definition trace_resume (rp : Z) : SM Z :=
  clear_flag rp P_STOP ;;; ready_if_clear rp ;;; put_word 6 0 ;;; ret OK.

Definition do_trace : SM Z :=
  tr_procnr <- iword 2 ;; rp <- addr tr_procnr ;; p <- the_proc rp ;;
  if has (p_flags p) P_SLOT_FREE then ret EIO else
  tr_request <- iword 3 ;; tr_addr <- uword 5 ;; tr_data <- uword 6 ;;
  if tr_request =? T_STOP then
    (if p_flags p =? 0 then kstep (lock_unready rp) else ret tt) ;;;
    upd_proc rp (fun p => set_p_flags (Z.lor (p_flags p) P_STOP) p) ;;;
    upd_proc rp (fun p => set_reg_psw (Z.land (r_psw (p_reg p)) (not32 TRACEBIT)) p) ;;; ret OK
  else if tr_request =? T_GETINS then trace_get rp (text_segment p)
  else if tr_request =? T_GETDATA then trace_get rp D
  else if tr_request =? T_GETUSER then
    if (Z.land tr_addr 3 !=? 0) || (248 - 4 <? tr_addr) then ret EIO else
    put_word 6 (nthZ (proc_words p) (tr_addr / 4)) ;;; ret OK
  else if tr_request =? T_SETINS then trace_set rp (text_segment p)
  else if tr_request =? T_SETDATA then trace_set rp D
  else if tr_request =? T_SETUSER then
    if (Z.land tr_addr 3 !=? 0) || (92 - 4 <? tr_addr) then ret EIO else
    (if tr_addr =? 68 then upd_proc rp (set_reg_psw tr_data)
     else upd_proc rp (set_reg_word (tr_addr / 4) tr_data)) ;;;
    put_word 6 0 ;;; ret OK
  else if tr_request =? T_RESUME then trace_resume rp
  else if tr_request =? T_STEP then
    upd_proc rp (fun p => set_reg_psw (Z.lor (r_psw (p_reg p)) TRACEBIT) p) ;;; trace_resume rp
  else ret EIO.

(** ** [sys_task] *)
Definition sys_kill : SM Z := pr <- iword 2 ;; signum <- iword 3 ;; ycall (do_kill m_at pr signum).
Definition sys_endsig : SM Z := proc1 <- PROC1 ;; ycall (do_endsig proc1).

Definition dispatch (m_type : Z) : SM Z :=
  match m_type with
  | 4 => do_fork | 5 => do_newmap | 20 => do_getmap | 7 => do_exec | 1 => do_xit
  | 2 => do_getsp | 8 => do_times | 9 => do_abort | 17 => do_sendsig | 18 => do_sigreturn
  | 11 => sys_kill | 19 => sys_endsig | 6 => do_copy | 16 => do_vcopy | 12 => do_gboot
  | 14 => do_mem | 13 => do_umap | 15 => do_trace | _ => ret E_BAD_FCN
  end.
(** A message received and its reply made: the loop's body but [receive] and [send]. *)
Definition sys_task : SM unit := m_type <- iword 1 ;; r <- dispatch m_type ;; put_word 1 r.
End System.
