(* ===== verification/SystemSpec.v ===== *)
(** * The system task: what an exit does to the rest of the system

    [do_xit] of System.v against the invariants of message passing (IpcSpec)
    and of the ready queues (Sched). *)
From S2P Require Import Prelude Codec Kconst Ktypes Sched Ipc IpcSpec Message Signals Clock Exec Process System.

(** ** The walk that takes an exiting sender out of its queue *)

(** The descriptor whose link led to [rc] is relinked. *)
Definition relink (p : Z) (pre : list Z) (rc : Z) (k : kst) : kst :=
  match pre with
  | [] => upd p (set_p_callerq (p_sendlink (k_proc k rc))) k
  | _ => upd (List.last pre NIL_PROC) (set_p_sendlink (p_sendlink (k_proc k rc))) k
  end.

(** [x] is a descriptor other than [rc], which a list from [x] does not hold. *)
Ltac skip x rc H :=
  rewrite (proj2 (Z.eqb_neq x NIL_PROC)), (proj2 (Z.eqb_neq x rc)) by
    (unfold NIL_PROC; (lia || (intros ->; apply H; by left))).

Lemma last_cons (x : Z) pre d : List.last (x :: pre) d = List.last pre x.
Proof.
  destruct pre as [|y pre]; [done|]. change (List.last (x :: y :: pre) d) with (List.last (y :: pre) d).
  revert y. induction pre as [|w pre IH]; intros y; [done|]. apply (IH w).
Qed.

Lemma unlink_after_absent k rc n np l :
  lchain (sendlink_of k) (p_sendlink (k_proc k np)) l -> Forall valid_proc l -> ~ In rc l -> (length l <= n)%nat ->
  unlink_after n np rc k = Some k.
Proof.
  revert n np. induction l as [|x l IH]; intros n np Hc Hv Hi Hn.
  - cbn in Hc. unfold unlink_after. destruct n; by rewrite Hc.
  - destruct Hc as [Hx Hc]. inversion_clear Hv as [|? ? Hvx Hvl]. unfold valid_proc in Hvx.
    destruct n as [|n]; [cbn in Hn; lia|]. cbn [unlink_after]. cbv zeta. rewrite Hx.
    skip x rc Hi.
    apply IH; [done|done|by intros ?; apply Hi; right|cbn in Hn; lia].
Qed.

Lemma unlink_after_found k rc n np pre post :
  lchain (sendlink_of k) (p_sendlink (k_proc k np)) (pre ++ rc :: post) -> Forall valid_proc (pre ++ [rc]) ->
  ~ In rc pre -> (length pre <= n)%nat ->
  unlink_after n np rc k = Some (upd (List.last pre np) (set_p_sendlink (p_sendlink (k_proc k rc))) k).
Proof.
  revert n np. induction pre as [|x pre IH]; intros n np Hc Hv Hi Hn.
  - destruct Hc as [Hx _]. apply Forall_inv in Hv. unfold valid_proc in Hv.
    unfold unlink_after. destruct n; rewrite Hx, Z.eqb_refl, (proj2 (Z.eqb_neq rc NIL_PROC)) by (unfold NIL_PROC; lia); done.
  - destruct Hc as [Hx Hc]. inversion_clear Hv as [|? ? Hvx Hvl]. unfold valid_proc in Hvx.
    destruct n as [|n]; [cbn in Hn; lia|]. cbn [unlink_after]. cbv zeta. rewrite Hx.
    skip x rc Hi.
    rewrite (IH n x); [|done|done|by intros ?; apply Hi; right|cbn in Hn; lia].
    by rewrite last_cons.
Qed.

(** Sender queues as the walk needs them. *)
Definition walkable (k : kst) (C : Z -> list Z) (p : Z) : Prop :=
  lchain (sendlink_of k) (p_callerq (k_proc k p)) (C p) /\ Forall valid_proc (C p) /\ (length (C p) <= 41)%nat.

Lemma unqueue_absent k C rc n rp :
  (forall p, rp <= p < rp + Z.of_nat n -> walkable k C p /\ ~ In rc (C p)) -> unqueue n rp rc k = Some k.
Proof.
  revert rp. induction n as [|n IH]; intros rp H; [done|]. cbn [unqueue]. cbv zeta.
  destruct (H rp ltac:(lia)) as ((Hc & Hv & Hl) & Hi).
  assert (Hrest : unqueue n (rp + 1) rc k = Some k) by (apply IH; intros; apply H; lia).
  destruct (C rp) as [|x l]; [cbn in Hc; by rewrite Hc|]. destruct Hc as [-> Hc].
  inversion_clear Hv as [|? ? Hvx Hvl]. unfold valid_proc in Hvx.
  skip x rc Hi.
  rewrite (unlink_after_absent k rc HOPS_LE x l); [done|done|done|by intros ?; apply Hi; right|].
  unfold HOPS_LE. cbn in Hl. lia.
Qed.

(** The other queues are the same after the relink. *)
Lemma relink_walkable k C rc p pre post q :
  C p = pre ++ rc :: post -> pre <> [] -> walkable k C q -> (forall y, In y (C q) -> ~ In y (C p)) ->
  walkable (relink p pre rc k) C q /\ ~ In rc (C q).
Proof.
  intros HC Hpre (Hqc & Hqv & Hql) Hqp.
  split; [|intros Hq1; apply (Hqp rc Hq1); rewrite HC; apply in_or_app; right; by left]. split_and!; [|done|done].
  assert (Ht : In (List.last pre NIL_PROC) (C p)) by (rewrite HC; apply in_or_app; left; by apply last_in).
  assert (Hrel : relink p pre rc k = upd (List.last pre NIL_PROC) (set_p_sendlink (p_sendlink (k_proc k rc))) k)
    by (by destruct pre). rewrite Hrel. set (t := List.last pre NIL_PROC) in *.
  replace (p_callerq _) with (p_callerq (k_proc k q)).
  - apply (chain_ext (sendlink_of k)); [|done]. intros y Hy. rewrite upd_other; [done|]. intros ->. by apply (Hqp _ Hy).
  - destruct (Z.eq_dec q t) as [->|]; [by rewrite upd_same|by rewrite upd_other].
Qed.

Lemma unqueue_found k C rc n rp p pre post :
  (forall q, rp <= q < rp + Z.of_nat n -> walkable k C q) ->
  (forall q x, rp <= q < rp + Z.of_nat n -> In x (C q) -> In x (C p) -> q = p) ->
  rp <= p < rp + Z.of_nat n -> C p = pre ++ rc :: post -> ~ In rc pre ->
  unqueue n rp rc k = Some (relink p pre rc k).
Proof.
  intros Hw Hd. revert rp Hw Hd. induction n as [|n IH]; intros rp Hw Hd Hp HC Hpre; [lia|]. cbn [unqueue]. cbv zeta.
  destruct (Hw rp ltac:(lia)) as (Hc & Hv & Hl). assert (Hrc : In rc (C p)) by (rewrite HC; apply in_or_app; right; by left).
  destruct (Z.eq_dec rp p) as [->|Hne].
  - rewrite HC in Hc, Hv, Hl. destruct pre as [|x pre].
    + destruct Hc as [-> _]. inversion_clear Hv as [|? ? Hvx Hvl]. unfold valid_proc in Hvx.
      rewrite Z.eqb_refl, (proj2 (Z.eqb_neq rc NIL_PROC)) by (unfold NIL_PROC; lia). done.
    + destruct Hc as [-> Hc]. inversion_clear Hv as [|? ? Hvx Hvl]. unfold valid_proc in Hvx.
      skip x rc Hpre.
      rewrite (unlink_after_found k rc HOPS_LE x pre post); [|done| |by intros ?; apply Hpre; right|].
      2:{ apply Forall_app in Hvl as [Hvl Hvr]. apply Forall_app. split; [done|]. by inversion_clear Hvr; constructor. }
      2:{ unfold HOPS_LE. cbn [app length] in Hl. rewrite length_app in Hl. lia. }
      rewrite <- (last_cons x pre NIL_PROC). change (upd (List.last (x :: pre) NIL_PROC) (set_p_sendlink (p_sendlink (k_proc k rc))) k)
        with (relink p (x :: pre) rc k). set (k' := relink p (x :: pre) rc k).
      apply (unqueue_absent k' C). intros q Hq.
      apply (relink_walkable k C rc p (x :: pre) post q HC ltac:(done)); [apply Hw; lia|].
      intros y H1 H2. specialize (Hd q y ltac:(lia) H1 H2). lia.
  - assert (Habs : ~ In rc (C rp)) by (intros Hi; apply Hne; by apply (Hd rp rc ltac:(lia))).
    assert (Hrest : unqueue n (rp + 1) rc k = Some (relink p pre rc k)).
    { apply IH; try done; [intros q Hq; apply Hw; lia|intros q y Hq; apply Hd; lia|lia]. }
    destruct (C rp) as [|x l]; [cbn in Hc; by rewrite Hc|]. destruct Hc as [-> Hc].
    inversion_clear Hv as [|? ? Hvx Hvl]. unfold valid_proc in Hvx.
    skip x rc Habs.
    rewrite (unlink_after_absent k rc HOPS_LE x l); [done|done|done|by intros ?; apply Habs; right|].
    unfold HOPS_LE. cbn in Hl. lia.
Qed.

(** ** The table after an exit *)

(** The senders of each process but [rc]. *)
Definition without_sender (C : Z -> list Z) (rc : Z) : Z -> list Z := fun p => List.filter (fun x => negb (x =? rc)) (C p).

Lemma ipc_ok_queues k C C' : ipc_ok k C -> (forall p, valid_proc p -> C p = C' p) -> ipc_ok k C'.
Proof.
  intros HI E. pose proof (io_table k C HI) as HT. constructor; try apply HI.
  - intros p Hp. rewrite <- E by done. by apply (io_chain k C HI).
  - intros p Hp. rewrite <- E by done. by apply (io_nodup k C HI).
  - intros p x Hp. rewrite <- E by done. by apply (io_sender k C HI).
  - intros x Hx Hs. destruct (io_queued k C HI x Hx Hs) as (He & Hi & Hf).
    split_and!; [done| |done]. rewrite <- E; [done|]. by apply (to_addr k HT).
  - intros r x Hr. rewrite <- E by done. by apply (io_match k C HI).
Qed.

Lemma filter_one (rc : Z) pre post : NoDup (pre ++ rc :: post) ->
  List.filter (fun x => negb (x =? rc)) (pre ++ rc :: post) = pre ++ post.
Proof.
  intros (_ & Hd & Hn)%list.NoDup_app. apply list.NoDup_cons in Hn as [Hn _]. rewrite list_elem_of_In in Hn.
  rewrite List.filter_app. cbn [List.filter]. rewrite Z.eqb_refl. cbn [negb].
  rewrite !filter_absent; [done|done|]. intros Hi. apply (Hd rc); [by apply list_elem_of_In|by left].
Qed.

(** The flag [SENDING] gone from an unlinked sender. *)
Definition withdrawn (p : Z) (pre : list Z) (rc : Z) (k : kst) : kst :=
  upd rc (fun p => set_p_flags (clear (p_flags p) SENDING) p) (unlink_sender p (List.last pre NIL_PROC) rc k).

Lemma withdrawn_leaves k C p pre rc post :
  ipc_ok k C -> valid_proc p -> C p = pre ++ rc :: post -> leaves k (withdrawn p pre rc k) p rc pre post.
Proof.
  intros HI Hp HC. pose proof (io_chain k C HI p Hp) as Hch. pose proof (io_nodup k C HI p Hp) as Hnd.
  rewrite HC in Hch, Hnd. destruct (unlink_sender_spec k p rc pre post Hch Hnd) as (HU & Hc & Hq & Hs).
  unfold withdrawn. set (k1 := unlink_sender _ _ _ _) in *. set (k2 := upd rc _ k1).
  assert (F : forall A (f : proc -> A) x, (forall rp, f (set_p_callerq 0 (set_p_sendlink 0 rp)) = f rp) ->
    f (k_proc k1 x) = f (k_proc k x)) by (intros; by apply callers_field).
  assert (G : forall A (f : proc -> A) x, (forall y rp, f (set_p_flags y rp) = f rp) -> f (k_proc k2 x) = f (k_proc k1 x)).
  { intros A f x Hf. subst k2. destruct (Z.eq_dec x rc) as [->|]; [by rewrite upd_same|by rewrite upd_other]. }
  destruct (sent_flags (p_flags (k_proc k1 rc))) as (F1 & F2 & F3).
  constructor.
  - intros n. unfold proc_addr. change (k_addr k2) with (k_addr k1). by rewrite (sc_addr _ _ HU).
  - intros x. by rewrite (G _ p_nr), (F _ p_nr).
  - intros x. by rewrite (G _ p_sendto), (F _ p_sendto), (G _ p_getfrom), (F _ p_getfrom), (G _ p_messbuf), (F _ p_messbuf).
  - intros x Hx. subst k2. rewrite upd_other by done. by apply F.
  - unfold is_sending, is_free, is_receiving. subst k2. rewrite !upd_same, <- (F _ p_flags) by done. done.
  - intros x Hx. rewrite (G _ p_blocked_frame_valid), (F _ p_blocked_frame_valid), (G _ blocked_frame_matches),
      (F _ blocked_frame_matches) by done. by apply (io_frames k C HI).
  - rewrite (G _ p_callerq) by done. apply (chain_ext (sendlink_of k1)); [|done]. intros x _. by apply (G _ p_sendlink).
  - intros x Hx. rewrite (G _ p_callerq) by done. by apply Hq.
  - intros x Hx. rewrite (G _ p_sendlink) by done. by apply Hs.
Qed.

(** What an exit, message passing and the ready queues do not look at. *)
Definition quiet (rp : proc) : proc := set_p_nextready 0 (set_p_alarm 0 (set_p_name [] (core rp))).

Lemma quiet_field {A} (f : proc -> A) a b : (forall rp, f (quiet rp) = f rp) -> quiet a = quiet b -> f a = f b.
Proof. intros Hf E. by rewrite <- (Hf a), <- (Hf b), E. Qed.

(** The states agree on what message passing looks at. *)
Lemma ipc_ok_quiet k k' C :
  ipc_ok k C -> k_addr k' = k_addr k -> (forall x, quiet (k_proc k' x) = quiet (k_proc k x)) -> ipc_ok k' C.
Proof.
  intros HI Ha E.
  assert (F : forall A (f : proc -> A) x, (forall rp, f (quiet rp) = f rp) -> f (k_proc k' x) = f (k_proc k x))
    by (intros A f x Hf; by apply quiet_field).
  apply (ipc_ok_ext k); try done.
  - intros x. unfold is_sending, is_free. by rewrite (F _ p_nr), (F _ p_sendlink), (F _ p_callerq), (F _ p_flags).
  - intros x _. by rewrite (F _ p_sendto), (F _ p_messbuf).
  - intros x Hx Hs. unfold is_receiving. rewrite (F _ p_flags), (F _ p_getfrom) by done. by apply (io_both _ _ HI).
  - intros r x Hr Hx. unfold waits_for, is_receiving. rewrite (F _ p_flags), (F _ p_getfrom), (F _ p_nr) by done.
    by apply (io_match _ _ HI).
  - intros x Hx. rewrite (F _ p_blocked_frame_valid), (F _ blocked_frame_matches) by done. by apply (io_frames _ _ HI).
Qed.

Lemma no_callers k C p : ipc_ok k C -> valid_proc p -> C p = [] -> p_callerq (k_proc k p) = 0.
Proof. intros HI Hp HC. pose proof (io_chain _ _ HI p Hp) as H. rewrite HC in H. done. Qed.

(** An exited sender: its slot holds [rp], which sends nothing. *)
Lemma exit_sender k C p pre rc post rp :
  ipc_ok k C -> valid_proc p -> valid_proc rc -> C p = pre ++ rc :: post -> C rc = [] ->
  p_nr rp = p_nr (k_proc k rc) -> p_callerq rp = 0 -> has (p_flags rp) SENDING = false ->
  (truthy (p_blocked_frame_valid rp) = true -> blocked_frame_matches rp = true) ->
  ipc_ok (set_proc rc rp (relink p pre rc k)) (without_sender C rc).
Proof.
  intros HI Hp Hv HC Hrc Hnr Hcq Hs Hf.
  assert (Hprc : p <> rc) by (intros ->; rewrite Hrc in HC; by destruct pre).
  pose proof (withdrawn_leaves k C p pre rc post HI Hp HC) as HL. set (ka := withdrawn p pre rc k) in *.
  pose proof (leaves_ipc k ka C p rc pre post HI Hp HC HL) as HA.
  assert (HB : ipc_ok (set_proc rc rp ka) (without C p (pre ++ post))).
  { apply replace_ipc; [done|done| |apply (l_self _ _ _ _ _ _ HL)| |done|done|done].
    - unfold without. by rewrite (proj2 (Z.eqb_neq rc p)).
    - by rewrite (l_nr _ _ _ _ _ _ HL). }
  apply (ipc_ok_queues _ (without C p (pre ++ post))).
  - apply (ipc_ok_quiet (set_proc rc rp ka)); [done| |].
    + unfold ka, withdrawn, unlink_sender, relink. destruct pre; case_match; done.
    + intros x. f_equal. destruct (Z.eq_dec x rc) as [->|Hx]; [by rewrite !set_proc_same|].
      rewrite !set_proc_other by done. unfold ka, withdrawn, unlink_sender, relink. cbv zeta. rewrite !upd_other by done.
      pose proof (io_chain k C HI p Hp) as Hch. pose proof (io_nodup k C HI p Hp) as Hnd. rewrite HC in Hch, Hnd.
      destruct pre as [|y pre]; destruct Hch as [-> _]; [by rewrite Z.eqb_refl|].
      rewrite (proj2 (Z.eqb_neq rc y)); [done|]. intros ->. apply list.NoDup_cons in Hnd as [Hnd _].
      apply Hnd, list_elem_of_In, in_or_app. right. by left.
  - intros q Hq. unfold without, without_sender. destruct (Z.eqb_spec q p) as [->|Hqp].
    + rewrite HC. symmetry. apply filter_one. rewrite <- HC. by apply (io_nodup k C HI).
    + symmetry. apply filter_absent. intros Hi. apply Hqp.
      destruct (caller_sending k C q rc HI Hq Hi) as (_ & _ & E1 & _).
      destruct (caller_sending k C p rc HI Hp) as (_ & _ & E2 & _); [rewrite HC; apply in_or_app; right; by left|congruence].
Qed.

Lemma stopped_absent k Q c q : ready_ok k Q -> 0 <= q < 3 -> ~ In c (stopped k c Q q).
Proof.
  intros [HQ Hz] Hq. unfold stopped. destruct (Z.eqb_spec (p_flags (k_proc k c)) 0) as [H0|H0].
  - unfold dequeue. destruct (Z.eqb_spec q (proc_queue (k_proc k c))) as [->|Hne].
    + intros [_ Hi]%filter_In. by rewrite Z.eqb_refl in Hi.
    + intros Hi. apply Hne. symmetry. by apply (queue_valid k q (Q q)); [apply HQ|].
  - intros Hi. by apply H0, (Hz q).
Qed.

(** A process that is to exit leaves the ready queues. *)
Definition descheduled (c : Z) (k : kst) : kst := if p_flags (k_proc k c) =? 0 then lock_unready c k else k.

Lemma descheduled_ok k Q c :
  ready_ok k Q -> valid_proc c ->
  let k' := descheduled c k in
  ready_ok k' (stopped k c Q) /\ k_addr k' = k_addr k /\ k_mem k' = k_mem k /\
  forall x, set_p_nextready 0 (k_proc k' x) = set_p_nextready 0 (k_proc k x).
Proof.
  intros HR Hv k'. pose proof (stopped_absent k Q c) as Habs. subst k'. unfold descheduled, stopped in *.
  destruct (Z.eqb_spec (p_flags (k_proc k c)) 0) as [H0|H0]; [|done].
  unfold lock_unready, locked. set (k2 := set_k_switching true k).
  pose proof (unready_links c k2) as HL.
  assert (HQ : queues k2 Q) by (apply (queues_ext k); try done; apply HR).
  pose proof (unready_queues k2 Q c HQ Hv) as HU. split_and!; [|apply (sl_addr _ _ HL)|apply (sl_mem _ _ HL)|apply (sl_proc _ _ HL)].
  split; [by apply (queues_ext (unready c k2))|]. intros q x Hq Hx.
  change (p_flags (k_proc (unready c k2) x) = 0). rewrite (links_field p_flags k2 _ x) by done.
  apply (proj2 HR q); [done|]. unfold dequeue in Hx.
  destruct (Z.eqb_spec q (proc_queue (k_proc k c))) as [->|]; [by apply filter_In in Hx as [? _]|done].
Qed.

(** ** [do_xit] *)
Definition freed `{SigSet} (p : proc) : proc := set_p_flags P_SLOT_FREE (set_p_pendcount 0 (set_p_pending sigemptyset p)).
Definition renamed (p : proc) : proc := set_p_name (splice (p_name p) 0 noname) p.
(** Up to the walk over the sender queues. *)
Definition exiting (rp rc : Z) (k : kst) : kst :=
  upd rc renamed (descheduled rc (upd rc (set_p_alarm 0) (upd rp (add_times (k_proc k rc)) k))).

Lemma bind_ret {W A B} (a : A) (k : A -> M W B) w : bind (ret a) k w = k a w.
Proof. done. Qed.

Lemma bind_if_modify {W B} (b : bool) (f : W -> W) (k : unit -> M W B) w :
  bind (if b then modify f else ret tt) k w = k tt (if b then f w else w).
Proof. by destruct b. Qed.

Section Exit.
Context `{SIG : SigSet}.
Context (m_at : Z).

(** The words of the request. *)
Definition request_word (s : sys) (w : Z) : Z := to_int (word_at (k_mem (y_k s)) (m_at + 4 * w)).

Lemma bind_iword {B} s w (k : Z -> M sys B) : bind (iword m_at w) k s = k (request_word s w) s.
Proof. done. Qed.
Lemma bind_kget {A B} s (f : kst -> A) (k : A -> M sys B) : bind (kget f) k s = k (f (y_k s)) s.
Proof. done. Qed.
Lemma bind_addr {B} s n (k : Z -> M sys B) : bind (addr n) k s = k (proc_addr (y_k s) n) s.
Proof. done. Qed.
Lemma bind_proc {B} s n (k : proc -> M sys B) : bind (the_proc n) k s = k (k_proc (y_k s) n) s.
Proof. done. Qed.

Lemma do_xit_run s k :
  let rp := proc_addr (y_k s) (request_word s 2) in
  let rc := proc_addr (y_k s) (request_word s 3) in
  let c := k_proc (y_k s) rc in
  isoksusern (request_word s 2) = true -> isoksusern (request_word s 3) = true ->
  (if has (p_flags c) SENDING then unqueue 41 1 rc (exiting rp rc (y_k s)) = Some k else k = exiting rp rc (y_k s)) ->
  do_xit m_at s = (Ok OK, on_k (fun _ => upd rc freed k) (on_sig (fun n => if has (p_flags c) PENDING then n - 1 else n) s)).
Proof.
  intros rp rc c H1 H2 H3. unfold do_xit. rewrite (bind_iword s 2), (bind_iword s 3), H1, H2. cbn [negb orb].
  rewrite !bind_addr. fold rp rc. rewrite bind_proc. fold c. unfold upd_proc, kstep. rewrite !bind_modify, bind_if_modify, bind_modify.
  set (s3 := on_k _ _). assert (E3 : s3 = on_k (fun _ => exiting rp rc (y_k s)) s).
  { subst s3. unfold exiting, descheduled. replace (p_flags (k_proc (upd rc _ _) rc)) with (p_flags c).
    - by destruct (p_flags c =? 0).
    - rewrite upd_same. destruct (Z.eq_dec rc rp) as [->|]; [by rewrite upd_same|by rewrite upd_other]. }
  rewrite E3. destruct (has (p_flags c) SENDING).
  - rewrite bind_assoc, bind_kget. change (y_k (on_k (fun _ => ?x) s)) with x.
    change (Z.to_nat (NR_TASKS + NR_PROCS)) with 41%nat. rewrite H3, bind_modify. rewrite bind_if_modify, bind_modify.
    by destruct (has (p_flags c) PENDING), s as [[[? ?] ?]].
  - rewrite H3. rewrite bind_ret, bind_if_modify, bind_modify.
    by destruct (has (p_flags c) PENDING), s as [[[? ?] ?]].
Qed.


(** What the walk finds: the links of the senders. *)
Definition unlinked (k : kst) (C : Z -> list Z) (rc : Z) (k' : kst) : Prop :=
  same_but_callers k k' /\ p_callerq (k_proc k' rc) = 0 /\ (forall rp, p_nr rp = p_nr (k_proc k rc) -> p_callerq rp = 0 ->
    has (p_flags rp) SENDING = false -> (truthy (p_blocked_frame_valid rp) = true -> blocked_frame_matches rp = true) ->
    ipc_ok (set_proc rc rp k') (without_sender C rc)).

Lemma unqueue_ok k C rc :
  ipc_ok k C -> valid_proc rc -> C rc = [] -> is_sending k rc = true ->
  exists k', unqueue 41 1 rc k = Some k' /\ unlinked k C rc k'.
Proof.
  intros HI Hv Hrc Hs. destruct (io_queued k C HI rc Hv Hs) as (He & Hi & _). set (p := target k rc) in *.
  assert (Hp : valid_proc p) by (by apply (to_addr k (io_table k C HI))).
  apply in_split in Hi as (pre & post & HC). pose proof (io_nodup k C HI p Hp) as Hnd. rewrite HC in Hnd.
  assert (Hpre : ~ In rc pre).
  { apply list.NoDup_app in Hnd as (_ & Hd & _). intros Hi. apply (Hd rc); [by apply list_elem_of_In|by left]. }
  exists (relink p pre rc k). split; [|split; [|split]].
  - assert (Hr : forall q, 1 <= q < 1 + Z.of_nat 41 -> valid_proc q) by (unfold valid_proc; lia).
    apply (unqueue_found k C rc 41 1 p pre post); [| | |done|done].
    + intros q Hq%Hr. split_and!; [by apply (io_chain k C HI)|by apply (callers_valid k)|by apply (callers_length k)].
    + intros q x Hq%Hr H1 H2. destruct (caller_sending k C q x HI Hq H1) as (_ & _ & E1 & _).
      destruct (caller_sending k C p x HI Hp H2) as (_ & _ & E2 & _). congruence.
    + unfold valid_proc in Hp. lia.
  - unfold relink. destruct pre; [apply same_callers_upd|apply same_sendlink_upd].
  - assert (Hne : rc <> p) by (intros Ep; rewrite <- Ep, Hrc in HC; by destruct pre).
    transitivity (p_callerq (k_proc k rc)); [|by apply (no_callers k C)]. unfold relink.
    destruct pre as [|y pre]; [by rewrite upd_other|]. set (t := List.last _ _).
    destruct (Z.eq_dec rc t) as [->|]; [by rewrite upd_same|by rewrite upd_other].
  - intros rp Hnr Hcq Hsend Hf. by apply (exit_sender k C p pre rc post).
Qed.

Lemma unlinked_same k C rc :
  ipc_ok k C -> valid_proc rc -> C rc = [] -> is_sending k rc = false -> unlinked k C rc k.
Proof.
  intros HI Hv Hrc Hs. split; [by constructor|]. split; [by apply (no_callers k C)|]. intros rp Hnr Hcq Hsend Hf.
  apply (ipc_ok_queues _ C); [by apply replace_ipc|]. intros p Hp. symmetry. apply filter_absent.
  intros Hi. destruct (caller_sending k C p rc HI Hp Hi) as (_ & E & _). congruence.
Qed.

Lemma user_endpoint n : int_value n -> isoksusern n = true -> endpoint n.
Proof.
  unfold int_value, endpoint, isoksusern, wrap32, NR_TASKS, NR_PROCS. intros H E%Z.ltb_lt.
  Z.div_mod_to_equations. lia.
Qed.

Lemma ready_ok_replace k Q p rp :
  ready_ok k Q -> (forall q, 0 <= q < 3 -> ~ In p (Q q)) -> ready_ok (set_proc p rp k) Q.
Proof.
  intros [HQ Hz] HnQ. assert (Hx : forall q x, 0 <= q < 3 -> In x (Q q) -> x <> p) by (intros q x Hq Hi ->; by apply (HnQ q)).
  split.
  - intros q Hq. apply (queue_ok_ext k); [by apply HQ|done|done| |]; intros x Hi;
      rewrite set_proc_other by (by apply (Hx q)); done.
  - intros q x Hq Hi. rewrite set_proc_other by (by apply (Hx q)). by apply (Hz q).
Qed.

(** What an exit changes before the walk. *)
Lemma exiting_ok k C Q rp rc :
  ipc_ok k C -> ready_ok k Q -> valid_proc rc ->
  let k3 := exiting rp rc k in
  ipc_ok k3 C /\ ready_ok k3 (stopped k rc Q) /\ k_addr k3 = k_addr k /\ k_mem k3 = k_mem k /\
  (forall x, quiet (k_proc k3 x) = quiet (k_proc k x)) /\
  (forall x, x <> rc -> set_p_nextready 0 (k_proc k3 x) =
     set_p_nextready 0 (if x =? rp then add_times (k_proc k rc) (k_proc k x) else k_proc k x)) /\
  p_alarm (k_proc k3 rc) = 0.
Proof.
  intros HI HR Hv k3. set (k1 := upd rc (set_p_alarm 0) (upd rp (add_times (k_proc k rc)) k)).
  assert (E1 : forall x, quiet (k_proc k1 x) = quiet (k_proc k x) /\ p_nextready (k_proc k1 x) = p_nextready (k_proc k x)).
  { intros x. unfold k1. destruct (Z.eq_dec x rc) as [->|]; [rewrite upd_same|rewrite upd_other by done];
      [destruct (Z.eq_dec rc rp) as [->|]|destruct (Z.eq_dec x rp) as [->|]]; rewrite ?upd_same, ?upd_other by done; done. }
  assert (F1 : forall A (f : proc -> A) x, (forall p, f (quiet p) = f p) -> f (k_proc k1 x) = f (k_proc k x))
    by (intros A f x Hf; apply quiet_field; [done|apply E1]).
  assert (HR1 : ready_ok k1 Q).
  { apply (ready_ok_ext k); [done..|]. intros x. split_and!; [apply E1|by apply (F1 _ p_nr)|by apply (F1 _ p_flags)]. }
  destruct (descheduled_ok k1 Q rc HR1 Hv) as (HR2 & Ha2 & Hm2 & E2).
  assert (Hst : stopped k1 rc Q = stopped k rc Q) by (unfold stopped; by rewrite (F1 _ p_flags), (F1 _ proc_queue)).
  rewrite Hst in HR2. change k3 with (upd rc renamed (descheduled rc k1)). set (k2 := descheduled rc k1) in *.
  assert (E3 : forall x, quiet (k_proc (upd rc renamed k2) x) = quiet (k_proc k x)).
  { intros x. transitivity (quiet (k_proc k2 x)).
    - destruct (Z.eq_dec x rc) as [->|]; [by rewrite upd_same|by rewrite upd_other].
    - rewrite <- (proj1 (E1 x)). apply (f_equal (fun p => quiet p) (E2 x)). }
  split_and!; [by apply (ipc_ok_quiet k)| |done|done|done| |].
  - apply (ready_ok_ext k2); [done..|]. intros x.
    destruct (Z.eq_dec x rc) as [->|]; [by rewrite upd_same|by rewrite upd_other].
  - intros x Hx. rewrite upd_other, E2 by done. unfold k1. rewrite upd_other by done.
    destruct (Z.eqb_spec x rp) as [->|]; [by rewrite upd_same|by rewrite upd_other].
  - rewrite upd_same. change (p_alarm (k_proc k2 rc) = 0).
    transitivity (p_alarm (k_proc k1 rc)); [exact (f_equal p_alarm (E2 rc))|unfold k1; by rewrite upd_same].
Qed.

Definition linkless (p : proc) : proc := set_p_nextready 0 (set_p_callerq 0 (set_p_sendlink 0 p)).

(** C39. The exit of a process nobody is sending to: it is withdrawn from the
    ready queue or the sender queue it was in, the queues of all others keep
    their order, its slot is free with no alarm and no signals, a signal it had
    pending is no longer counted, its time and its children's went to the
    parent, and nothing else changed.  A number that is no server or user
    process is refused without effect, and no walk runs into a cycle. *)
Theorem do_xit_exact s C Q :
  let k := y_k s in
  let rp := proc_addr k (request_word s 2) in
  let rc := proc_addr k (request_word s 3) in
  ipc_ok k C -> ready_ok k Q -> C rc = [] ->
  match do_xit m_at s with
  | (Ok r, s') =>
      let k' := y_k s' in
      if isoksusern (request_word s 2) && isoksusern (request_word s 3) then
        r = OK /\ ipc_ok k' (without_sender C rc) /\ ready_ok k' (stopped k rc Q) /\
        p_flags (k_proc k' rc) = P_SLOT_FREE /\ p_alarm (k_proc k' rc) = 0 /\
        p_pending (k_proc k' rc) = sigemptyset /\ p_pendcount (k_proc k' rc) = 0 /\
        sig_procs (c_t (y_c s')) = sig_procs (c_t (y_c s)) - (if has (p_flags (k_proc k rc)) PENDING then 1 else 0) /\
        (forall x, x <> rc -> linkless (k_proc k' x) =
           linkless (if x =? rp then add_times (k_proc k rc) (k_proc k x) else k_proc k x)) /\
        k_mem k' = k_mem k /\ k_addr k' = k_addr k
      else r = E_BAD_PROC /\ s' = s
  | (Err _, _) => False
  end.
Proof.
  intros k rp rc HI HR Hrc. destruct (isoksusern (request_word s 2) && isoksusern (request_word s 3)) eqn:E.
  2:{ unfold do_xit. rewrite (bind_iword s 2), (bind_iword s 3), <- negb_andb, E. done. }
  apply andb_true_iff in E as [H1 H2]. assert (Hv : valid_proc rc).
  { apply (to_addr k (io_table k C HI)). by apply user_endpoint; [apply to_int_range|]. }
  destruct (exiting_ok k C Q rp rc HI HR Hv) as (HI3 & HR3 & Ha3 & Hm3 & Eq3 & E3 & Hal).
  set (k3 := exiting rp rc k) in *.
  assert (F3 : forall A (f : proc -> A) x, (forall p, f (quiet p) = f p) -> f (k_proc k3 x) = f (k_proc k x))
    by (intros A f x Hf; by apply quiet_field).
  assert (Hk4 : exists k4, (if has (p_flags (k_proc k rc)) SENDING then unqueue 41 1 rc k3 = Some k4 else k4 = k3) /\
    unlinked k3 C rc k4).
  { rewrite <- (F3 _ p_flags) by done. destruct (has (p_flags (k_proc k3 rc)) SENDING) eqn:Es; [by apply unqueue_ok|].
    exists k3. split; [done|]. by apply unlinked_same. }
  destruct Hk4 as (k4 & Hrun & HU & Hcq4 & HI4). rewrite (do_xit_run s k4) by done. cbv zeta.
  assert (F4 : forall A (f : proc -> A) x, (forall p, f (linkless p) = f p) -> f (k_proc k4 x) = f (k_proc k3 x)).
  { intros A f x Hf. rewrite <- (Hf (k_proc k4 x)), <- (Hf (k_proc k3 x)). unfold linkless. by rewrite (sc_proc _ _ HU). }
  change (y_k (on_k (fun _ => ?x) _)) with x. rewrite upd_same. split_and!; try done.
  - change (upd rc freed k4) with (set_proc rc (freed (k_proc k4 rc)) k4). apply HI4; try done.
    + by rewrite <- (F4 _ p_nr).
    + change (truthy (p_blocked_frame_valid (k_proc k4 rc)) = true -> blocked_frame_matches (k_proc k4 rc) = true).
      rewrite (F4 _ p_blocked_frame_valid), (F4 _ blocked_frame_matches) by done. by apply (io_frames _ _ HI3).
  - apply (ready_ok_replace k4); [by apply (ready_ok_callers k3)|]. intros q Hq. by apply stopped_absent.
  - change (p_alarm (k_proc k4 rc) = 0). by rewrite (F4 _ p_alarm).
  - transitivity (if has (p_flags (k_proc k rc)) PENDING then sig_procs (c_t (y_c s)) - 1 else sig_procs (c_t (y_c s))); [done|].
    destruct (has _ PENDING); lia.
  - intros x Hx. rewrite upd_other by done. unfold linkless at 1. rewrite (sc_proc _ _ HU).
    change (linkless (k_proc k3 x) = linkless (if x =? rp then add_times (k_proc k rc) (k_proc k x) else k_proc k x)).
    pose proof (f_equal linkless (E3 x Hx)) as E. destruct (x =? rp); exact E.
  - change (k_mem k4 = k_mem k). by rewrite (sc_mem _ _ HU).
  - change (k_addr k4 = k_addr k). by rewrite (sc_addr _ _ HU).
Qed.

(** ** [do_sigreturn]

    With the registers of the handler's process restored, the program counter
    and the stack pointer are the old ones: the context holds neither. *)
Lemma nth_replaced (regs l : list Z) i : length regs = 6%nat -> 6 <= i -> nthZ (regs ++ drop 6 l) i = nthZ l i.
Proof.
  intros Hr Hi. unfold nthZ. rewrite app_nth2 by lia. rewrite Hr, nth_skipn. f_equal. lia.
Qed.

Lemma restored_pc_sp regs f :
  length regs = 6%nat -> length (r_a f) = 16%nat ->
  r_pc (restore_sigregs regs f) = r_pc f /\ r_sp (restore_sigregs regs f) = r_sp f.
Proof.
  intros Hr Ha. unfold restore_sigregs, frame_of_words. cbn [r_pc r_sp]. rewrite !nth_replaced by (done || lia).
  unfold frame_words, nthZ. rewrite !app_nth2, Ha by lia. done.
Qed.

Lemma sigreturn_keeps_pc s :
  let k := y_k s in
  let rp := proc_addr k (request_word s 2) in
  let src := umap k rp D (word_at (k_mem k) (m_at + 4 * 5)) 32 in
  isokusern (request_word s 2) = true -> src <> 0 -> length (r_a (p_reg (k_proc k rp))) = 16%nat ->
  has (word_at (k_mem k) src) SC_SIGCONTEXT = true -> has (word_at (k_mem k) src) SC_NOREGLOCALS = false ->
  exists s', do_sigreturn m_at s = (Ok OK, s') /\
    r_pc (p_reg (k_proc (y_k s') rp)) = r_pc (p_reg (k_proc k rp)) /\
    r_sp (p_reg (k_proc (y_k s') rp)) = r_sp (p_reg (k_proc k rp)).
Proof.
  intros k rp src Hu Hsrc Hlen Hc Hn. unfold do_sigreturn. rewrite (bind_iword s 2), Hu. cbn [negb].
  rewrite bind_addr. change (proc_addr _ _) with rp. unfold uword. rewrite !bind_kget. change (umap _ _ _ _ 32) with src.
  rewrite (proj2 (Z.eqb_neq src 0) Hsrc), bind_kget. set (sc := words_at _ _ _).
  assert (E0 : nthZ sc 0 = word_at (k_mem k) src) by (cbn; f_equal; lia). rewrite E0, Hc, Hn. cbn [negb].
  rewrite bind_proc. unfold upd_proc, kstep. rewrite bind_modify. eexists. split; [reflexivity|].
  change (y_k (on_k (upd rp ?f) s)) with (upd rp f (y_k s)). rewrite upd_same. apply restored_pc_sp; [|done].
  unfold updZ. by rewrite length_insert.
Qed.
End Exit.

(** ** A process exits while it is sending

    Process 3 is blocked sending to MM; the request, in the memory of the
    kernel, names FS as its parent. *)
Module ExitDemo.
Definition m_at : Z := 0x3fcef000.
Definition request : list Z := bytes_of_words [0; 1; 1; 3; 0; 0; 0; 0; 0].
Definition queued : kst := block_sender 13 10 0 demo_buffer KDemo.state.
Definition table : kst := set_k_mem (mem_write (k_mem queued) m_at request) queued.
Definition start : sys := Sys (set_c_t (Tasks table 0) AlarmDemo.start) [] 0 [].
Definition C : Z -> list Z := enqueue (fun _ => []) 10 13.
Definition Q : Z -> list Z := dequeue KDemo.Q 2 13.
Abbreviation exit := (do_xit m_at start).
End ExitDemo.

Lemma exit_demo_ok : ipc_ok ExitDemo.table ExitDemo.C /\ ready_ok ExitDemo.table ExitDemo.Q.
Proof.
  assert (Hv : valid_proc 13 /\ valid_proc 10) by (unfold valid_proc; lia).
  destruct (block_sender_joins KDemo.state (fun _ => []) KDemo.Q 13 10 0 demo_buffer demo_ipc_ok demo_ready_ok)
    as (J & HR & _); [apply Hv|reflexivity|apply Hv|done|].
  assert (HI : ipc_ok ExitDemo.queued ExitDemo.C).
  { apply (joins_ipc KDemo.state _ (fun _ => []) 13 10 0 demo_ipc_ok J); try done; try apply Hv.
    - by apply ends_off_here.
    - intros [H _]. vm_compute in H. done. }
  split; [by apply (ipc_ok_quiet ExitDemo.queued)|by apply ready_ok_mem].
Qed.

Lemma do_xit_exact_witness :
  has (p_flags (k_proc (y_k ExitDemo.start) 13)) SENDING = true /\
  fst ExitDemo.exit = Ok OK /\ ipc_ok (y_k (snd ExitDemo.exit)) (without_sender ExitDemo.C 13) /\
  without_sender ExitDemo.C 13 10 = [] /\ p_flags (k_proc (y_k (snd ExitDemo.exit)) 13) = P_SLOT_FREE.
Proof.
  assert (E1 : request_word ExitDemo.m_at ExitDemo.start 2 = 1) by (vm_compute; reflexivity).
  assert (E2 : request_word ExitDemo.m_at ExitDemo.start 3 = 3) by (vm_compute; reflexivity).
  assert (E3 : proc_addr (y_k ExitDemo.start) 3 = 13) by (vm_compute; reflexivity).
  pose proof (do_xit_exact ExitDemo.m_at ExitDemo.start ExitDemo.C ExitDemo.Q
    (proj1 exit_demo_ok) (proj2 exit_demo_ok)) as H. cbv zeta in H.
  rewrite E1, E2, E3 in H. change (isoksusern 1 && isoksusern 3) with true in H. specialize (H eq_refl).
  destruct ExitDemo.exit as [[e|r] s'] eqn:E; [destruct H|]. destruct H as (Hr & HI & _ & Hf & _). cbn [fst snd].
  refine (conj _ (conj (f_equal Ok Hr) (conj HI (conj eq_refl Hf)))). vm_compute. reflexivity.
Defined.
