(* ===== verification/Mm.v ===== *)
(** * The memory service: src/src/mm/main.c

    [mm_task] receives a request, [cp32_mm_handle_request] answers it in place
    and the reply goes back to the sender, whose identity is the kernel's.  The
    heap is [heap_size] clicks from [heap_base]; the trace output is left out. *)
From S2P Require Import Prelude Kconst Alloc.
From S2P Require Import Codec Ktypes Sched Ipc IpcSpec.

Definition CP32_MM_ALLOCATE := 1001.
Definition CP32_MM_RELEASE := 1002.
Definition E_BAD_FCN := -1009.

Record message := Message { m_source : Z; m_type : Z; m1_i1 : Z }.

Definition cp32_mm_source_valid (k : kst) (source : Z) : bool :=
  isokprocn source &&
  let rp := proc_addr k source in
  negb (rp =? NIL_PROC) && negb (has (p_flags (k_proc k rp)) P_SLOT_FREE) && (p_nr (k_proc k rp) =? source).

Section Mm.
Context (heap_base heap_size : Z).

(** The status, the answered message and the allocator; [None] if the release
    did not end. *)
Definition cp32_mm_handle_request (k : kst) (m : message) (a : allocator) : option (Z * message * allocator) :=
  if negb (cp32_mm_source_valid k (m_source m)) then Some (EINVAL, m, a)
  else if m_type m =? CP32_MM_ALLOCATE then
    let (r, a) := cp32_mem_alloc heap_base heap_size a (wrap32 (m1_i1 m)) (m_source m) in
    let r := to_int r in
    let type := if r =? 0 then ENOMEM else OK in
    Some (type, Message (m_source m) type r, a)
  else if m_type m =? CP32_MM_RELEASE then
    match cp32_mem_free a (wrap32 (m1_i1 m)) (m_source m) with
    | Some (type, a) => Some (type, Message (m_source m) type (m1_i1 m), a)
    | None => None
    end
  else Some (E_BAD_FCN, Message (m_source m) E_BAD_FCN (m1_i1 m), a).

(** A turn of [mm_task] after the receive: the reply, if one is sent. *)
Definition mm_turn (k : kst) (m : message) (a : allocator) : option (option message * allocator) :=
  if negb (cp32_mm_source_valid k (m_source m)) then Some (None, a)
  else match cp32_mm_handle_request k m a with
       | Some (_, m, a) => Some (Some m, a)
       | None => None
       end.

(** The requests [ms], in the order of their receipt, and the replies. *)
Fixpoint mm_task (k : kst) (ms : list message) (a : allocator) : option (list (option message) * allocator) :=
  match ms with
  | [] => Some ([], a)
  | m :: ms =>
      match mm_turn k m a with
      | None => None
      | Some (reply, a) =>
          match mm_task k ms a with
          | None => None
          | Some (replies, a) => Some (reply :: replies, a)
          end
      end
  end.
End Mm.

(** ** Specification *)

(** A sound heap: not yet used, or a sound table. *)
Definition heap_ok (base size : Z) (a : allocator) : Prop := a = boot_allocator \/ alloc_wf base size a.

Definition same_held (a a' : allocator) : Prop := forall b s o, held a' b s o <-> held a b s o.

(** [owner] gained the region of [n] clicks at [r], disjoint from all others. *)
Definition gained (base size : Z) (a a' : allocator) (r n owner : Z) : Prop :=
  base <= r /\ r + n <= base + size /\ 0 < n /\
  (forall b s o, held a b s o -> b + s <= r \/ r + n <= b) /\
  forall b s o, held a' b s o <-> held a b s o \/ (b = r /\ s = n /\ o = owner).

(** ** Lemmas *)
Lemma boot_held b s o : ~ held boot_allocator b s o.
Proof.
  intros (i & Hi & E). cbn [al_blocks boot_allocator] in E.
  rewrite lookup_total_replicate_2 in E by done. discriminate.
Qed.

Section Heap.
Context (base size : Z) (Hb : 0 < base) (Hs : 0 <= size) (He : base + size < 2147483648).

Lemma init_ok : alloc_wf base size (Allocator (cp32_mem_allocator_init base size) true).
Proof. split; [done|]. split; [apply init_table_wf|apply init_coalesced]; lia. Qed.

Lemma init_held b s o : ~ held (Allocator (cp32_mem_allocator_init base size) true) b s o.
Proof.
  intros (i & Hi & E). cbn [al_blocks] in E. rewrite init_lookup in E by done.
  destruct (Nat.eqb 0 i); discriminate.
Qed.

Lemma alloc_ok a clicks owner :
  alloc_wf base size a -> 0 <= clicks ->
  let (r, a') := cp32_mem_alloc base size a clicks owner in
  heap_ok base size a' /\ (r = 0 /\ same_held a a' \/ gained base size a a' r clicks owner).
Proof.
  intros W Hc. pose proof (mem_alloc_correct base size a clicks owner Hb Hs ltac:(lia) W Hc) as H.
  destruct (cp32_mem_alloc base size a clicks owner) as [r a'] eqn:E. destruct H as (W' & H).
  split; [by right|]. destruct H as [(-> & -> & _)|(H1 & H2 & H3 & H4)]; [by left|right].
  split_and!; try done. destruct (Z.eq_dec clicks 0) as [->|]; [|lia].
  exfalso. unfold cp32_mem_alloc in E. cbn [Z.eqb orb] in E. injection E as <- _. lia.
Qed.

Lemma heap_alloc a clicks owner :
  heap_ok base size a -> 0 <= clicks ->
  let (r, a') := cp32_mem_alloc base size a clicks owner in
  heap_ok base size a' /\ (r = 0 /\ same_held a a' \/ gained base size a a' r clicks owner).
Proof.
  intros [->|W] Hc; [|by apply alloc_ok]. rewrite alloc_init by done. destruct (_ || _).
  { split; [by left|]. by left. }
  pose proof (alloc_ok _ clicks owner init_ok Hc) as H.
  destruct (cp32_mem_alloc base size _ clicks owner) as [r a']. destruct H as [H1 H]. split; [done|].
  assert (Hsame : forall b s o, held boot_allocator b s o <-> held (Allocator (cp32_mem_allocator_init base size) true) b s o)
    by (intros b s o; split; intros H0; [by apply boot_held in H0|by apply init_held in H0]).
  destruct H as [[-> H]|(G1 & G2 & G3 & G4 & G5)]; [left|right].
  - split; [done|]. intros b s o. rewrite (H b s o). symmetry. apply Hsame.
  - split_and!; try done.
    + intros b s o Hh. by apply boot_held in Hh.
    + intros b s o. rewrite (G5 b s o). by rewrite Hsame.
Qed.

Lemma heap_free a b owner :
  heap_ok base size a ->
  exists r a', cp32_mem_free a b owner = Some (r, a') /\ heap_ok base size a' /\
  ((r = OK /\ (exists s, held a b s owner) /\ forall b' s' o', held a' b' s' o' <-> held a b' s' o' /\ b' <> b) \/
   (r = EACCES /\ same_held a a' /\ exists s o, o <> owner /\ held a b s o) \/
   (r = EINVAL /\ same_held a a' /\ forall s o, ~ held a b s o)).
Proof.
  intros [->|W].
  - exists EINVAL, boot_allocator. rewrite boot_free. split; [done|]. split; [by left|].
    right. right. split_and!; [done|done|]. intros s o. apply boot_held.
  - destruct (mem_free_correct base size a b owner Hb Hs ltac:(lia) W) as (r & a' & E & W' & H).
    exists r, a'. split; [done|]. split; [by right|].
    destruct H as [H|[(-> & -> & H)|(-> & -> & H)]]; [by left| |]; right; [left|right]; by split_and!.
Qed.

(** A held region is known by its first click. *)
Lemma held_first a b s o s' o' : heap_ok base size a -> held a b s o -> held a b s' o' -> s = s' /\ o = o'.
Proof.
  intros [->|(_ & W & _)] H1 H2; [by apply boot_held in H1|].
  destruct H1 as (i & Hi & E1), H2 as (j & Hj & E2).
  destruct (Nat.eq_dec i j) as [->|Hne]; [rewrite E1 in E2; by injection E2|]. exfalso.
  block_facts W i. block_facts W j. rewrite E1, E2 in *. cbn [mb_used mb_base mb_size] in *.
  destruct (H1 eq_refl) as [L1 _]. destruct (H4 eq_refl) as [L2 _].
  pose proof (tw_apart _ _ _ W i j Hi Hj Hne) as Hap. rewrite E1, E2 in Hap. specialize (Hap L1 L2).
  unfold apart, live in *. cbn in *. lia.
Qed.
End Heap.

(** ** Theorems *)
Section Service.
Context (base size : Z) (Hb : 0 < base) (Hs : 0 <= size) (He : base + size < 2147483648).

Lemma request_spec k m a :
  heap_ok base size a -> cp32_mm_source_valid k (m_source m) = true ->
  exists type r a', cp32_mm_handle_request base size k m a = Some (type, Message (m_source m) type r, a') /\
  heap_ok base size a' /\
  ((m_type m = CP32_MM_ALLOCATE /\
      (type = ENOMEM /\ r = 0 /\ same_held a a' \/
       type = OK /\ gained base size a a' r (wrap32 (m1_i1 m)) (m_source m))) \/
   (m_type m = CP32_MM_RELEASE /\ r = m1_i1 m /\
      ((type = OK /\ (exists s, held a (wrap32 r) s (m_source m)) /\
          forall b' s' o', held a' b' s' o' <-> held a b' s' o' /\ b' <> wrap32 r) \/
       (type = EACCES /\ same_held a a' /\ exists s o, o <> m_source m /\ held a (wrap32 r) s o) \/
       (type = EINVAL /\ same_held a a' /\ forall s o, ~ held a (wrap32 r) s o))) \/
   (m_type m <> CP32_MM_ALLOCATE /\ m_type m <> CP32_MM_RELEASE /\ type = E_BAD_FCN /\ r = m1_i1 m /\ a' = a)).
Proof.
  intros Ha Hv. unfold cp32_mm_handle_request. rewrite Hv. cbn [negb].
  destruct (Z.eqb_spec (m_type m) CP32_MM_ALLOCATE) as [Et|Et].
  - pose proof (heap_alloc base size Hb Hs He a (wrap32 (m1_i1 m)) (m_source m) Ha) as H.
    pose proof (wrap32_range (m1_i1 m)). destruct (cp32_mem_alloc _ _ _ _ _) as [r a'].
    destruct H as [Ha' H]; [lia|]. exists (if to_int r =? 0 then ENOMEM else OK), (to_int r), a'.
    split; [done|]. split; [done|]. left. split; [done|]. destruct H as [[-> H]|H]; [by left|right].
    pose proof H as (H1 & H2 & H3 & _). rewrite to_int_small by lia.
    by rewrite (proj2 (Z.eqb_neq _ _)) by lia.
  - destruct (Z.eqb_spec (m_type m) CP32_MM_RELEASE) as [Er|Er].
    + destruct (heap_free base size Hb Hs He a (wrap32 (m1_i1 m)) (m_source m) Ha) as (r & a' & -> & Ha' & H).
      exists r, (m1_i1 m), a'. split; [done|]. split; [done|]. right. left. done.
    + exists E_BAD_FCN, (m1_i1 m), a. split; [done|]. split; [done|]. right. right. done.
Qed.

(** Every request of a live process is answered.  An allocation gives the
    sender a region of exactly the length asked for, disjoint from every held
    region, or ENOMEM and nothing changes; a release gives back exactly the
    region of the sender that starts there and is refused when another holds it
    or nobody does; an unknown request changes nothing. *)
Theorem mm_request_exact k m a :
  heap_ok base size a -> cp32_mm_source_valid k (m_source m) = true ->
  exists type r a', cp32_mm_handle_request base size k m a = Some (type, Message (m_source m) type r, a') /\
  heap_ok base size a' /\
  ((m_type m = CP32_MM_ALLOCATE /\
      (type = ENOMEM /\ r = 0 /\ same_held a a' \/
       type = OK /\ gained base size a a' r (wrap32 (m1_i1 m)) (m_source m))) \/
   (m_type m = CP32_MM_RELEASE /\ r = m1_i1 m /\
      ((type = OK /\ (exists s, held a (wrap32 r) s (m_source m)) /\
          forall b' s' o', held a' b' s' o' <-> held a b' s' o' /\ b' <> wrap32 r) \/
       (type = EACCES /\ same_held a a' /\ exists s o, o <> m_source m /\ held a (wrap32 r) s o) \/
       (type = EINVAL /\ same_held a a' /\ forall s o, ~ held a (wrap32 r) s o))) \/
   (m_type m <> CP32_MM_ALLOCATE /\ m_type m <> CP32_MM_RELEASE /\ type = E_BAD_FCN /\ r = m1_i1 m /\ a' = a)).
Proof. apply request_spec. Qed.

(** A turn leaves the regions of every other process alone. *)
(** The reply to [m]: to its sender, one of the statuses of its function, with the
    address of the region or the argument; none if the sender is not a process. *)
Definition answered (k : kst) (m : message) (reply : option message) : Prop :=
  if cp32_mm_source_valid k (m_source m) then
    exists type r, reply = Some (Message (m_source m) type r) /\
      ((m_type m = CP32_MM_ALLOCATE /\ (type = ENOMEM /\ r = 0 \/ type = OK /\ base <= r < base + size)) \/
       (m_type m = CP32_MM_RELEASE /\ r = m1_i1 m /\ (type = OK \/ type = EACCES \/ type = EINVAL)) \/
       (m_type m <> CP32_MM_ALLOCATE /\ m_type m <> CP32_MM_RELEASE /\ type = E_BAD_FCN /\ r = m1_i1 m))
  else reply = None.

Lemma turn_isolation k m a p :
  heap_ok base size a -> m_source m <> p ->
  exists reply a', mm_turn base size k m a = Some (reply, a') /\ heap_ok base size a' /\ answered k m reply /\
    forall b s, held a' b s p <-> held a b s p.
Proof.
  intros Ha Hp. unfold mm_turn, answered. destruct (cp32_mm_source_valid k (m_source m)) eqn:Hv; cbn [negb].
  2: { exists None, a. done. }
  destruct (request_spec k m a Ha Hv) as (type & r & a' & -> & Ha' & H).
  eexists _, a'. split; [done|]. split; [done|]. split.
  - exists type, r. split; [done|]. destruct H as [(Ht & H)|[(Ht & Hr & H)|(Ht1 & Ht2 & H1 & H2 & _)]].
    + left. split; [done|]. destruct H as [(H1 & H2 & _)|(H1 & H2)]; [by left|right]. split; [done|].
      destruct H2 as (G1 & G2 & G3 & _). lia.
    + right. left. split; [done|]. split; [done|]. tauto.
    + by right; right.
  - intros b s. destruct H as [(_ & [(_ & _ & H)|(_ & _ & _ & _ & _ & H)])|[(_ & _ & H)|(_ & _ & _ & _ & ->)]]; [apply H| | |done].
    + rewrite H. split; [|by left]. intros [?|(_ & _ & ->)]; [done|]. by destruct Hp.
    + destruct H as [(_ & (s0 & Hs0) & H)|[(_ & H & _)|(_ & H & _)]]; [|apply H..].
      rewrite H. split; [by intros []|]. intros Hh. split; [done|]. intros ->.
      destruct (held_first base size a _ _ _ _ _ Ha Hs0 Hh) as [_ E]. congruence.
Qed.

(** C20. The service never stops: every request from a process is answered, to its
    sender and with a status of its function, a message from anything else gets no
    reply; and whatever requests other processes send, in any order and number,
    the regions that a process holds stay its own: none is lost, moved or
    shared. *)
Theorem mm_isolation k p ms a :
  heap_ok base size a -> Forall (fun m => m_source m <> p) ms ->
  exists replies a', mm_task base size k ms a = Some (replies, a') /\ Forall2 (answered k) ms replies /\
    heap_ok base size a' /\ forall b s, held a' b s p <-> held a b s p.
Proof.
  intros Ha HF. revert a Ha. induction HF as [|m ms Hm HF IH]; intros a Ha; cbn [mm_task].
  - by exists [], a.
  - destruct (turn_isolation k m a p Ha Hm) as (reply & a1 & -> & Ha1 & Hr & H1).
    destruct (IH a1 Ha1) as (replies & a2 & -> & Hlen & Ha2 & H2).
    exists (reply :: replies), a2. split_and!; [done|by constructor|done|].
    intros b s. by rewrite H2.
Qed.
End Service.

Lemma mm_request_exact_witness :
  exists a', cp32_mm_handle_request 16 100 KDemo.state (Message 3 CP32_MM_ALLOCATE 7) demo_heap1 =
    Some (OK, Message 3 OK 20, a') /\ held a' 20 7 3.
Proof.
  destruct (mm_request_exact 16 100 ltac:(lia) ltac:(lia) ltac:(lia) KDemo.state (Message 3 CP32_MM_ALLOCATE 7)
    demo_heap1 (or_intror demo_heap1_wf) ltac:(vm_compute; reflexivity)) as (type & r & a' & E & _ & H).
  assert (Er : option_map fst (cp32_mm_handle_request 16 100 KDemo.state (Message 3 CP32_MM_ALLOCATE 7) demo_heap1)
    = Some (OK, Message 3 OK 20)) by (vm_compute; reflexivity).
  rewrite E in Er. cbn [option_map fst] in Er. assert (type = OK /\ r = 20) as [-> ->] by (split; congruence). exists a'. split; [exact E|].
  destruct H as [(_ & [(H & _)|(_ & _ & _ & _ & _ & H)])|[(H & _)|(H & _)]]; [discriminate| |discriminate|by destruct H].
  apply H. right. split; [reflexivity|split; reflexivity].
Defined.

Lemma mm_isolation_witness :
  exists replies a', mm_task 16 100 KDemo.state [Message 3 CP32_MM_ALLOCATE 7; Message 3 CP32_MM_RELEASE 16] demo_heap1
    = Some (replies, a') /\ held a' 16 4 2.
Proof.
  destruct (mm_isolation 16 100 ltac:(lia) ltac:(lia) ltac:(lia) KDemo.state 2
    [Message 3 CP32_MM_ALLOCATE 7; Message 3 CP32_MM_RELEASE 16] demo_heap1 (or_intror demo_heap1_wf))
    as (replies & a' & E & _ & _ & H); [repeat constructor; discriminate|].
  exists replies, a'. split; [exact E|]. apply H. exists 0%nat. split; [lia|reflexivity].
Defined.
