(* ===== verification/Fork.v ===== *)
(** * Forks of the foreground program: src/src/kernel/fork.c and the file
    bridge of src/src/kernel/cp32-shell.c

    Every image runs at the same addresses, so a fork copies the parent's image
    aside, runs the child in place and puts the image back when the child has
    exited.  The state is the broker's: the kernel with the memory, the file
    service, the allocator of the memory service, and the statics and locals of
    application.c that a fork changes.  The parent's file record, which the code
    keeps behind the copied image, is entry [SAVED] of the store of records. *)
From S2P Require Import Prelude Codec Kconst FsTypes FdTable Alloc Ktypes Sched Ipc IpcSpec Process Mm Storage.
From S2P Require Import Fproc Signals.
From S2P Require Image.

(** The records [cp32_app_state], [cp32_shell_state] and the saved parent. *)
Definition APP := 0.
Definition SHELL := 1.
Definition SAVED := 2.

Definition IMAGE_BYTES := 32768.
Definition IMAGE_BASE := Image.CP32_APP_TEXT - 0x6f0000.
(** [sizeof(struct cp32_fproc)] *)
Definition FPROC_BYTES := 296.

(** The statics of fork.c; an entry of [f_waits] is a pid and its status. *)
Record forked := Forked {
  f_parent : Z; f_base : Z; f_floor : Z; f_brk : Z; f_ppid : Z; f_slot : Z; f_waits : list (Z * Z) }.
Definition boot_forked : forked := Forked 0 0 0 0 0 0 (replicate 8 (0, 0)).

(** [b_child], [b_ppid], [b_floor] and [b_brk] are the locals [child],
    [parent_pid], [heap_floor] and [heap_break] of [cp32_application_run]. *)
Record broker (E : Type) := Broker {
  b_k : kst; b_files : fsproc E; b_heap : allocator; b_forked : forked;
  b_child : Z; b_ppid : Z; b_floor : Z; b_brk : Z }.
Arguments Broker {E}. Arguments b_k {E}. Arguments b_files {E}. Arguments b_heap {E}.
Arguments b_forked {E}. Arguments b_child {E}. Arguments b_ppid {E}. Arguments b_floor {E}. Arguments b_brk {E}.

Section Setters.
Context {E : Type}.
Definition set_k (k : kst) (w : broker E) : broker E :=
  Broker k (b_files w) (b_heap w) (b_forked w) (b_child w) (b_ppid w) (b_floor w) (b_brk w).
Definition set_files (f : fsproc E) (w : broker E) : broker E :=
  Broker (b_k w) f (b_heap w) (b_forked w) (b_child w) (b_ppid w) (b_floor w) (b_brk w).
Definition set_heap (a : allocator) (w : broker E) : broker E :=
  Broker (b_k w) (b_files w) a (b_forked w) (b_child w) (b_ppid w) (b_floor w) (b_brk w).
Definition set_forked (f : forked) (w : broker E) : broker E :=
  Broker (b_k w) (b_files w) (b_heap w) f (b_child w) (b_ppid w) (b_floor w) (b_brk w).
Definition set_run (child ppid floor brk : Z) (w : broker E) : broker E :=
  Broker (b_k w) (b_files w) (b_heap w) (b_forked w) child ppid floor brk.
Definition set_waits (l : list (Z * Z)) (f : forked) : forked :=
  Forked (f_parent f) (f_base f) (f_floor f) (f_brk f) (f_ppid f) (f_slot f) l.
End Setters.

(** The wait table: is [pid] in it, the entry that [cp32_fork_start] takes (the
    last free one, -1 if none). *)
Definition waiting (l : list (Z * Z)) (pid : Z) : bool := existsb (fun e => fst e =? pid) l.
Definition wait_at (l : list (Z * Z)) (n : Z) : Z * Z := nth (Z.to_nat n) l (0, 0).
Definition free_wait (l : list (Z * Z)) : Z :=
  fold_left (fun slot n => if fst (wait_at l n) =? 0 then n else slot) (upto 0 8) (-1).

Section Fork.
Context {E : Type} `{DSK : Disk E} `{TRAP : Transport} (heap_base heap_size : Z).
Abbreviation BM := (M (broker E)).

Definition kernel {A} (c : KM A) : BM A := fun w => let (r, k) := c (b_k w) in (r, set_k k w).
Definition files {A} (c : M (fsproc E) A) : BM A := fun w => let (r, f) := c (b_files w) in (r, set_files f w).

(** [_sendrec(MM_PROC_NR, &m)]: the status and the message afterwards. *)
Definition sendrec_mm (m : message) : BM (Z * message) := fun w =>
  let status := sendrec_status (b_k w) MM_PROC_NR in
  if status !=? OK then (Ok (status, m), w) else
  match mm_turn heap_base heap_size (b_k w) (Message FS_PROC_NR (m_type m) (m1_i1 m)) (b_heap w) with
  | Some (Some m', a) => (Ok (OK, Message MM_PROC_NR (m_type m') (m1_i1 m')), set_heap a w)
  | Some (None, a) => (Ok (ELOCKED, m), set_heap a w)
  | None => (Ok (ELOCKED, m), w)
  end.

Definition bad_reply (r : Z * message) : bool :=
  (fst r !=? OK) || (m_source (snd r) !=? MM_PROC_NR) || (m_type (snd r) !=? OK).

(** [static void fork_free(unsigned base)] *)
Definition fork_free (base : Z) : BM unit :=
  r <- sendrec_mm (Message 0 CP32_MM_RELEASE (to_int base)) ;;
  guard (bad_reply r) PANIC.

Definition cp32_fork_pid_used (pid : Z) : BM bool := gets (fun w => waiting (f_waits (b_forked w)) pid).
Definition cp32_fork_active : BM bool := gets (fun w => f_parent (b_forked w) !=? NIL_PROC).
Definition cp32_fork_reset : BM unit :=
  modify (fun w => set_forked (set_waits (replicate 8 (0, 0)) (b_forked w)) w).

(** ** The file records (cp32-shell.c) *)
Definition set_suspended (s : option Z) : BM unit :=
  files (modify (fun f => Fsproc (pw_fs f) (pw_procs f) s)).

Definition cp32_shell_app_files_reset : BM unit := files (cp32_fproc_exit APP).

Definition cp32_shell_app_files_fork (pid : Z) : BM unit :=
  x <- files (proc APP) ;;
  files (on_proc SAVED (fun _ => x)) ;;;
  files (on_proc APP (fun _ => empty_fproc)) ;;;
  r <- try (files (cp32_fproc_clone APP SAVED pid)) ;;
  match r with
  | Err e => x <- files (proc SAVED) ;; files (on_proc APP (fun _ => x)) ;;; fail (cp32_fs_errno e)
  | Ok _ => set_suspended (Some SAVED)
  end.

Definition cp32_shell_app_files_restore : BM unit :=
  files (cp32_fproc_exit APP) ;;;
  x <- files (proc SAVED) ;;
  files (on_proc APP (fun _ => x)) ;;;
  set_suspended None.

(** ** fork.c *)

(** [for(n=LOW_USER+1;n<NR_PROCS;n++) if(free) { if(cp32_proc_clone(...)==OK) ... break; }]:
    the child's descriptor, or null. *)
Fixpoint clone_first (parent pid : Z) (slots : list Z) : KM Z :=
  match slots with
  | [] => ret NIL_PROC
  | n :: slots =>
      free <- gets (fun k => p_flags (k_proc k (proc_addr k n)) =? P_SLOT_FREE) ;;
      if negb free then clone_first parent pid slots else
      nr <- gets (fun k => p_nr (k_proc k parent)) ;;
      r <- try (cp32_proc_clone nr n pid FS_PROC_NR) ;;
      match r with
      | Ok _ => gets (fun k => proc_addr k n)
      | Err _ => clone_first parent pid slots
      end
  end.

(** The clicks of the copied image and the file record. *)
Definition FORK_CLICKS := Z.shiftr (IMAGE_BYTES + FPROC_BYTES + 2 ^ CLICK_SHIFT - 1) CLICK_SHIFT.

Definition cp32_fork_start (pid : Z) : BM unit :=
  parent <- gets b_child ;;
  f <- gets b_forked ;;
  guard (negb (f_parent f =? NIL_PROC) || (pid <=? 0)) (-11) ;;;
  guard (waiting (f_waits f) pid) (-11) ;;;
  let slot := free_wait (f_waits f) in
  guard (slot <? 0) (-11) ;;;
  r <- sendrec_mm (Message 0 CP32_MM_ALLOCATE FORK_CLICKS) ;;
  guard (bad_reply r || (m1_i1 (snd r) =? 0)) (-12) ;;;
  let base := wrap32 (m1_i1 (snd r)) in
  let image := base <<u CLICK_SHIFT in
  kernel (modify (phys_copy IMAGE_BASE image IMAGE_BYTES)) ;;;
  r <- try (cp32_shell_app_files_fork pid) ;;
  match r with Err e => fork_free base ;;; fail e | Ok _ =>
  child <- kernel (clone_first parent pid (upto (LOW_USER + 1) NR_PROCS)) ;;
  if child =? NIL_PROC then
    cp32_shell_app_files_restore ;;; fork_free base ;;; fail (-11)
  else
    modify (fun w => set_forked (Forked parent base (b_floor w) (b_brk w) (b_ppid w) slot (f_waits (b_forked w))) w) ;;;
    modify (fun w => set_run child (Ktypes.p_pid (k_proc (b_k w) parent)) (b_floor w) (b_brk w) w) ;;;
    kernel (modify (upd child (set_p_flags RECEIVING)))
  end.

(** The times of the child go to the parent. *)
Definition add_child_times (parent child : Z) (k : kst) : kst :=
  let c := k_proc k child in
  let k := upd parent (fun p =>
    set_child_stime (to_int (child_stime p + to_int (sys_time c + child_stime c)))
      (set_child_utime (to_int (child_utime p + to_int (user_time c + child_utime c))) p)) k in
  upd child (fun c => set_child_stime 0 (set_child_utime 0 (set_sys_time 0 (set_user_time 0 c)))) k.

(** [((unsigned)status & 255U) << 8] *)
Definition wait_status (status : Z) : Z := Z.land (wrap32 status) 255 <<u 8.

Definition cp32_fork_finish (status : Z) : BM Z :=
  child <- gets b_child ;;
  f <- gets b_forked ;;
  let parent := f_parent f in
  let base := f_base f in
  let image := base <<u CLICK_SHIFT in
  pid <- gets (fun w => Ktypes.p_pid (k_proc (b_k w) child)) ;;
  modify (fun w => set_forked (set_waits (updZ (f_waits (b_forked w)) (f_slot f) (pid, wait_status status)) (b_forked w)) w) ;;;
  cp32_shell_app_files_restore ;;;
  kernel (modify (add_child_times parent child)) ;;;
  r <- try (kernel (cp32_proc_release child)) ;;
  match r with Err _ => fail PANIC | Ok _ =>
  kernel (modify (phys_copy image IMAGE_BASE IMAGE_BYTES)) ;;;
  modify (set_run parent (f_ppid f) (f_floor f) (f_brk f)) ;;;
  modify (fun w => set_forked (Forked NIL_PROC 0 (f_floor (b_forked w)) (f_brk (b_forked w)) (f_ppid (b_forked w))
                                 (f_slot (b_forked w)) (f_waits (b_forked w))) w) ;;;
  fork_free base ;;;
  ret pid
  end.

(** The first entry that [pid] asks for; -1 asks for any child. *)
Definition wait_slot (l : list (Z * Z)) (pid : Z) : option Z :=
  List.find (fun n => truthy (fst (wait_at l n)) && ((pid =? -1) || (pid =? fst (wait_at l n)))) (upto 0 8).

(** [p] is the address of the status, 0 for none. *)
Definition cp32_fork_wait (pid p options : Z) : BM Z :=
  guard (truthy (Z.land (wrap32 options) (not32 1))) (-22) ;;;
  guard ((pid !=? -1) && (pid <=? 0)) (-22) ;;;
  f <- gets b_forked ;;
  guard (negb (f_parent f =? NIL_PROC)) (-10) ;;;
  match wait_slot (f_waits f) pid with
  | None => fail (-10)
  | Some n =>
      let (child, status) := wait_at (f_waits f) n in
      guard (truthy p && ((p <? Image.CP32_APP_DATA) || (Image.CP32_APP_TOP <? p) || (Image.CP32_APP_TOP - p <? 4))) (-14) ;;;
      (if truthy p then kernel (modify (store_mem p (word_bytes status))) else ret tt) ;;;
      modify (fun w => set_forked (set_waits (updZ (f_waits f) n (0, status)) f) w) ;;;
      ret child
  end.
End Fork.
