(* ===== verification/ForkFiles.v ===== *)
(** * Who owns the open descriptors

    A process record of src/src/fs/fproc.c holds descriptors of the shared table.
    [owned] accounts for every open descriptor: those of the running program,
    without repetition, and the rest.  Whatever file requests a program makes,
    the descriptors that are not its own keep the description they have. *)
From S2P Require Import Prelude Codec FsTypes FdTable MemDisk Super Timestamp Inode Read Path.
From S2P Require Import Bitmap Zones Dirent Namespace Filedes Resolve FdSpec Fproc Appfile.

(** ** Tables and their owners *)

(** [own] and [rest] are all open descriptors, each once. *)
Record owned (T : tables) (own rest : list Z) : Prop := {
  ow_refs : refs_ok T;
  ow_once : NoDup (own ++ rest);
  ow_all : forall d, live T d <-> In d (own ++ rest) }.
Definition same_at (l : list Z) (T T' : tables) : Prop := forall d, In d l -> nthZ (snd T') d = nthZ (snd T) d.

#[export] Instance same_at_preorder l : PreOrder (same_at l).
Proof. split; [done|]. intros T1 T2 T3 H1 H2 d Hd. by rewrite H2, H1. Qed.

Lemma owned_perm T own own' rest : Permutation own own' -> owned T own rest -> owned T own' rest.
Proof.
  intros HP [H1 H2 H3]. constructor; [done|by rewrite <- HP|]. intros d. rewrite H3, !in_app_iff. by rewrite HP.
Qed.

Lemma owned_shift T own rest : owned T [] (own ++ rest) <-> owned T own rest.
Proof. by split; intros [H1 H2 H3]; constructor. Qed.

Lemma owned_is_live T own rest d : owned T own rest -> In d (own ++ rest) -> live T d.
Proof. intros H. apply (ow_all _ _ _ H). Qed.

Lemma live_upd T r fd x d : lenZ (snd T) = 8 -> 0 <= fd < 8 -> x <> 0 ->
  live (r, updZ (snd T) fd x) d <-> d = fd \/ live T d.
Proof.
  intros Hl Hf Hx. unfold live. cbn [snd]. split.
  - intros [Hd Hn]. destruct (Z.eq_dec d fd) as [->|Hne]; [by left|right]. split; [done|]. by rewrite nthZ_upd_ne in Hn by lia.
  - intros [->|[Hd Hn]]; [split; [done|rewrite nthZ_upd_eq; lia]|]. split; [done|].
    destruct (Z.eq_dec d fd) as [->|Hne]; [rewrite nthZ_upd_eq; lia|by rewrite nthZ_upd_ne by lia].
Qed.

(** A new descriptor joins the owner's. *)
Lemma owned_new T r fd x own rest :
  owned T own rest -> refs_ok (r, updZ (snd T) fd x) -> 0 <= fd < 8 -> nthZ (snd T) fd = 0 -> x <> 0 ->
  owned (r, updZ (snd T) fd x) (fd :: own) rest /\ same_at (own ++ rest) T (r, updZ (snd T) fd x).
Proof.
  intros [H1 H2 H3] HR Hf H0 Hx. destruct (ro_length _ H1) as [_ Hl].
  assert (Hn : ~ In fd (own ++ rest)) by (intros [_ Hn]%H3; done). split; [constructor; [done| |]|].
  - cbn [app]. apply NoDup_cons_2; [by rewrite list_elem_of_In|done].
  - intros d. rewrite live_upd, H3 by done. cbn [app In]. intuition.
  - intros d Hd. cbn [snd]. apply H3 in Hd as Hd'. destruct Hd'. apply nthZ_upd_ne; [lia|lia|]. by intros ->.
Qed.

Lemma owned_opened T fd slot own rest :
  owned T own rest -> 0 <= fd < 8 -> 0 <= slot < 8 -> nthZ (snd T) fd = 0 -> nthZ (fst T) slot = 0 ->
  owned (opened fd slot T) (fd :: own) rest /\ same_at (own ++ rest) T (opened fd slot T).
Proof. intros H Hf Hs H0 H1. apply owned_new; try done; [|lia]. apply opened_ok; try done. apply H. Qed.

Lemma owned_shared T source fd own rest :
  owned T own rest -> live T source -> 0 <= fd < 8 -> nthZ (snd T) fd = 0 ->
  owned (shared fd (description T source) T) (fd :: own) rest /\ same_at (own ++ rest) T (shared fd (description T source) T).
Proof.
  intros H Hl Hf H0. pose proof (live_slot T source (ow_refs _ _ _ H) Hl) as Hs.
  apply owned_new; try done; [|lia]. apply shared_ok; try done. apply H.
Qed.

Lemma owned_closed T fd own rest :
  owned T (fd :: own) rest -> owned (closed fd T) own rest /\ same_at (own ++ rest) T (closed fd T).
Proof.
  intros H. pose proof (owned_is_live _ _ _ fd H (or_introl eq_refl)) as Hl. destruct H as [H1 H2 H3].
  destruct (ro_length _ H1) as [_ Hlen]. cbn [app] in *. apply list.NoDup_cons in H2 as [Hn H2]. rewrite list_elem_of_In in Hn.
  assert (Hsame : same_at (own ++ rest) T (closed fd T)).
  { intros d Hd. unfold closed. cbn [snd]. destruct Hl as [Hf _]. destruct (proj2 (H3 d) (or_intror Hd)) as [Hd8 _].
    apply nthZ_upd_ne; [lia|lia|]. by intros ->. }
  split; [constructor|done]; [by apply closed_ok|done|]. intros d. split.
  - intros [Hd Hdn]. unfold closed in Hdn. cbn [snd] in Hdn. destruct Hl as [Hf _].
    destruct (Z.eq_dec d fd) as [->|Hne]; [rewrite nthZ_upd_eq in Hdn by lia; done|]. rewrite nthZ_upd_ne in Hdn by lia.
    destruct (proj1 (H3 d)); [done|congruence|done].
  - intros Hd. destruct (proj2 (H3 d) (or_intror Hd)) as [Hd8 Hdn]. split; [done|]. by rewrite Hsame.
Qed.

(** Replacing the description of a descriptor of the owner *)
Lemma owned_replaced T source fd own rest :
  owned T (fd :: own) rest -> live T source ->
  owned (shared fd (description T source) (closed fd T)) (fd :: own) rest /\
  same_at (own ++ rest) T (shared fd (description T source) (closed fd T)).
Proof.
  intros H Hl. destruct (owned_is_live _ _ _ fd H (or_introl eq_refl)) as [Hf _]. pose proof (live_slot T source (ow_refs _ _ _ H) Hl) as Hs.
  destruct (owned_closed _ _ _ _ H) as [Hc Hsame]. destruct (ro_length _ (ow_refs _ _ _ H)) as [_ Hlen].
  assert (H0 : nthZ (snd (closed fd T)) fd = 0) by (unfold closed; cbn [snd]; apply nthZ_upd_eq; lia).
  destruct (owned_new (closed fd T) (fst (shared fd (description T source) (closed fd T))) fd (description T source + 1) own rest Hc) as [Hn Hsame2];
    try done; [|lia|].
  - apply (shared_ok (closed fd T)); try done. apply Hc.
  - split; [exact Hn|]. etransitivity; [exact Hsame|exact Hsame2].
Qed.

(** Tables with the same owners and the same entries are the same. *)
Lemma owned_same T T' own rest :
  owned T own rest -> owned T' own rest -> same_at (own ++ rest) T T' -> T' = T.
Proof.
  intros [H1 H2 H3] [G1 G2 G3] Hs. destruct (ro_length _ H1) as [L1 L2], (ro_length _ G1) as [K1 K2].
  assert (E2 : snd T' = snd T).
  { apply list_eq_nthZ; [unfold lenZ in *; lia|]. intros i Hi. rewrite K2 in Hi.
    destruct (Z.eq_dec (nthZ (snd T) i) 0) as [E|E]; [|apply Hs, H3; by split].
    rewrite E. destruct (Z.eq_dec (nthZ (snd T') i) 0) as [E'|E']; [done|]. exfalso.
    assert (Hl : live T i) by (by apply H3, G3). destruct Hl as [_ Hl]. done. }
  assert (E1 : fst T' = fst T).
  { apply list_eq_nthZ; [unfold lenZ in *; lia|]. intros i Hi. rewrite K1 in Hi. rewrite (ro_count _ H1), (ro_count _ G1), E2 by done. done. }
  destruct T, T'. cbn in *. congruence.
Qed.

(** ** Records and the descriptors they hold *)
Section Records.
Context {E : Type} `{DSK : Disk E}.

Definition record (f : fsproc E) (i : Z) : cp32_fproc := nth (Z.to_nat i) (pw_procs f) empty_fproc.
Definition fd_tables (f : fsproc E) : tables := refs_of (fs_tab (pw_fs f)).
Definition handles (x : cp32_fproc) : list Z := map (fun h => h - 1) (List.filter truthy (p_fds x ++ [p_input x])).

Lemma record_upd (f : fsproc E) i j x :
  0 <= i -> 0 <= j -> i <> j -> nth (Z.to_nat j) (updZ (pw_procs f) i x) empty_fproc = record f j.
Proof.
  intros Hi Hj Hne. unfold record, updZ. rewrite !nth_lookup, list_lookup_insert_ne by lia. done.
Qed.

Lemma record_same (f : fsproc E) i x : 0 <= i < lenZ (pw_procs f) -> nth (Z.to_nat i) (updZ (pw_procs f) i x) empty_fproc = x.
Proof. intros Hi. unfold updZ, lenZ in *. rewrite nth_lookup, list_lookup_insert_eq by lia. done. Qed.

(** The handle of an entry; none for 0 *)
Definition handle (h : Z) : list Z := if h =? 0 then [] else [h - 1].

Lemma handles_cons h l : map (fun h => h - 1) (List.filter truthy (h :: l)) = handle h ++ map (fun h => h - 1) (List.filter truthy l).
Proof. unfold handle, truthy. cbn [List.filter]. by destruct (h =? 0). Qed.

Lemma handles_fd x i : length (p_fds x) = 4%nat -> 0 <= i < 4 ->
  exists L, forall y, Permutation (handles (p_set_fd i y x)) (handle y ++ L) /\ Permutation (handles x) (handle (nthZ (p_fds x) i) ++ L).
Proof.
  intros Hl Hi. destruct (nth_split (p_fds x) 0 (n := Z.to_nat i)) as (l1 & l2 & E1 & E2); [lia|].
  exists (map (fun h => h - 1) (List.filter truthy (l1 ++ l2 ++ [p_input x]))). intros y.
  assert (HP : forall z, Permutation (map (fun h => h - 1) (List.filter truthy ((l1 ++ z :: l2) ++ [p_input x])))
    (handle z ++ map (fun h => h - 1) (List.filter truthy (l1 ++ l2 ++ [p_input x])))).
  { intros z. rewrite <- handles_cons, <- app_assoc. cbn [app].
    assert (HF : forall A (g : A -> bool) l l', Permutation l l' -> Permutation (List.filter g l) (List.filter g l')).
    { clear. induction 1; cbn [List.filter]; repeat case_match; eauto using Permutation. }
    apply Permutation_map, HF. symmetry. apply Permutation_middle. }
  split.
  - unfold handles. cbn [p_set_fd p_set_fds p_fds p_input]. unfold updZ. rewrite E1. rewrite <- E2. rewrite insert_app_r_alt, Nat.sub_diag by lia. apply (HP y).
  - unfold handles. rewrite E1 at 1. apply HP.
Qed.

Lemma handles_input x y : Permutation (handles (p_set_input y x)) (handle y ++ handles (p_set_input 0 x)).
Proof.
  unfold handles. cbn [p_set_input p_fds p_input]. rewrite !List.filter_app, !map_app. change (List.filter truthy [0]) with (@nil Z).
  cbn [map]. rewrite app_nil_r, Permutation_app_comm. f_equiv. unfold handle, truthy. cbn [List.filter]. by destruct (y =? 0).
Qed.

Lemma handle_pos d : 0 <= d -> handle (d + 1) = [d].
Proof. intros H. unfold handle. rewrite (proj2 (Z.eqb_neq _ _)) by lia. f_equal. lia. Qed.

Lemma handle_nonzero h : h <> 0 -> handle h = [h - 1].
Proof. intros H. unfold handle. by rewrite (proj2 (Z.eqb_neq _ _)). Qed.

Lemma handle_in x i : length (p_fds x) = 4%nat -> 0 <= i < 4 -> nthZ (p_fds x) i <> 0 -> In (nthZ (p_fds x) i - 1) (handles x).
Proof.
  intros Hl Hi Hn. destruct (handles_fd x i Hl Hi) as [L HL]. rewrite (proj2 (HL 0)), handle_nonzero by done. by left.
Qed.

Lemma set_fd_length i y x : length (p_fds (p_set_fd i y x)) = length (p_fds x).
Proof. apply length_insert. Qed.

(** ** What a program's file requests leave alone *)
Context (p : Z) (rest : list Z).

(** Other records change only their directory, which a rename may carry along. *)
Definition others (f f' : fsproc E) : Prop :=
  length (pw_procs f') = length (pw_procs f) /\ pw_suspended f' = pw_suspended f /\
  forall i, 0 <= i -> i <> p -> record f' i = p_set_cwd (p_cwd (record f' i)) (record f i).

Record good (f : fsproc E) : Prop := {
  gd_range : 0 <= p < lenZ (pw_procs f);
  gd_fds : length (p_fds (record f p)) = 4%nat;
  gd_owned : owned (fd_tables f) (handles (record f p)) rest }.
Definition leaves (f f' : fsproc E) : Prop :=
  good f -> good f' /\ others f f' /\ same_at rest (fd_tables f) (fd_tables f').

#[local] Instance others_preorder : PreOrder others.
Proof.
  split; [intros f; split_and!; try done; intros i _ _; by destruct (record f i)|].
  intros f g h (H1 & H2 & H3) (G1 & G2 & G3). split_and!; [congruence..|].
  intros i Hi Hne. rewrite (G3 i Hi Hne) at 1. rewrite (H3 i Hi Hne) at 1. by destruct (record f i).
Qed.

#[local] Instance leaves_preorder : PreOrder leaves.
Proof.
  split; [by intros f Hf|]. intros f g h H1 H2 Hf. destruct (H1 Hf) as (G1 & O1 & S1). destruct (H2 G1) as (G2 & O2 & S2).
  split; [done|]. split; by etransitivity.
Qed.

(** The state between [f0] and the end of a request: the program's record is [x]
    and it owns [own]. *)
Record holding (f0 : fsproc E) (own : list Z) (x : cp32_fproc) (f : fsproc E) : Prop := {
  hd_record : record f p = x;
  hd_range : 0 <= p < lenZ (pw_procs f);
  hd_fds : length (p_fds x) = 4%nat;
  hd_owned : owned (fd_tables f) own rest;
  hd_others : others f0 f;
  hd_same : same_at rest (fd_tables f0) (fd_tables f) }.

Lemma holding_perm f0 own own' x f : Permutation own own' -> holding f0 own x f -> holding f0 own' x f.
Proof. intros HP [H1 H2 H3 H4 H5 H6]. constructor; try done. by apply (owned_perm _ own). Qed.

Lemma good_holding f : good f -> holding f (handles (record f p)) (record f p) f.
Proof. intros [H1 H2 H3]. by constructor. Qed.

Lemma holding_leaves f0 x f : holding f0 (handles x) x f -> good f /\ others f0 f /\ same_at rest (fd_tables f0) (fd_tables f).
Proof. intros [<- H2 H3 H4 H5 H6]. done. Qed.

(** Requests that begin in a state whose record is [x] *)
Definition settled_at (f0 : fsproc E) (f : fsproc E) : Prop := exists x, holding f0 (handles x) x f.
Definition keeps_at {A} (x : cp32_fproc) (c : M (fsproc E) A) : Prop := forall f, record f p = x -> leaves f (snd (c f)).

Lemma at_hoare {A} x (c : M (fsproc E) A) :
  (forall f0, hoare (holding f0 (handles x) x) c (fun _ => settled_at f0) (fun _ => settled_at f0)) -> keeps_at x c.
Proof.
  intros H f Hx Hf. specialize (H f f). pose proof (good_holding f Hf) as Hg. rewrite Hx in Hg. specialize (H Hg).
  destruct (c f) as [[e|a] f']; destruct H as [x' Hh]; exact (holding_leaves _ _ _ Hh).
Qed.

Lemma hoare_at {A} f0 x (c : M (fsproc E) A) : keeps_at x c ->
  hoare (holding f0 (handles x) x) c (fun _ => settled_at f0) (fun _ => settled_at f0).
Proof.
  intros H f Hh. pose proof (hd_record _ _ _ _ Hh) as Hx. destruct (holding_leaves _ _ _ Hh) as (Hg & Ho & Hs).
  destruct (H f Hx Hg) as (Hg' & Ho' & Hs').
  assert (HS : settled_at f0 (snd (c f))).
  { exists (record (snd (c f)) p). destruct (good_holding _ Hg'). constructor; try done; by etransitivity. }
  by destruct (c f) as [[e|a] f'].
Qed.

Lemma at_keeps {A} x (c : M (fsproc E) A) : keeps leaves c -> keeps_at x c.
Proof. intros H f _. apply H. Qed.

Lemma keeps_from {A} (k : cp32_fproc -> M (fsproc E) A) : (forall x, keeps_at x (k x)) -> keeps leaves (bind (proc p) k).
Proof. intros H f. change (bind (proc p) k f) with (k (record f p) f). by apply H. Qed.

Lemma at_from {A} x (k : cp32_fproc -> M (fsproc E) A) : keeps_at x (k x) -> keeps_at x (bind (proc p) k).
Proof. intros H f Hx. change (bind (proc p) k f) with (k (record f p) f). rewrite Hx. by apply H. Qed.

Lemma at_guard {A} x b e (c : M (fsproc E) A) : (b = false -> keeps_at x c) -> keeps_at x (guard b e ;;; c).
Proof. intros H f Hx. rewrite bind_guard. destruct b; [cbn; reflexivity|by apply H]. Qed.

(** ** The steps of a request *)
Lemma fs_run {A} (c : M (fsw E) A) f :
  fs c f = (fst (c (pw_fs f)), Fsproc (snd (c (pw_fs f))) (pw_procs f) (pw_suspended f)).
Proof. unfold fs. by destruct (c (pw_fs f)). Qed.

(** The tables change, the records do not. *)
Lemma hold_tables f0 own own' x f w :
  holding f0 own x f ->
  owned (refs_of (fs_tab w)) own' rest /\ same_at rest (fd_tables f) (refs_of (fs_tab w)) ->
  holding f0 own' x (Fsproc w (pw_procs f) (pw_suspended f)).
Proof. intros [H1 H2 H3 H4 H5 H6] [G1 G2]. constructor; try done. by etransitivity. Qed.

Lemma same_own own l T T' : same_at (own ++ l) T T' -> same_at l T T'.
Proof. intros H d Hd. apply H, in_or_app. by right. Qed.

Lemma hold_fs {A} f0 own x (c : M (fsw E) A) (own' : A -> list Z) (ownE : list Z) :
  (forall T, owned T own rest -> hoare (at_tables T) c
     (fun a w => owned (refs_of (fs_tab w)) (own' a) rest /\ same_at rest T (refs_of (fs_tab w)))
     (fun _ w => owned (refs_of (fs_tab w)) ownE rest /\ same_at rest T (refs_of (fs_tab w)))) ->
  hoare (holding f0 own x) (fs c) (fun a => holding f0 (own' a) x) (fun _ => holding f0 ownE x).
Proof.
  intros H f Hh. specialize (H (fd_tables f) (hd_owned _ _ _ _ Hh) (pw_fs f) eq_refl). rewrite fs_run.
  destruct (c (pw_fs f)) as [[e|a] w]; cbn [fst snd]; by apply (hold_tables _ own).
Qed.

Lemma hold_keep {A} f0 own x (c : M (fsw E) A) :
  keeps same_refs c -> hoare (holding f0 own x) (fs c) (fun _ => holding f0 own x) (fun _ => holding f0 own x).
Proof.
  intros H. apply hold_fs. intros T HT w Hw. pose proof (keeps_hoare c T H w Hw) as Hc.
  destruct (c w) as [[e|a] w']; unfold at_tables in Hc; rewrite Hc; done.
Qed.

Lemma hold_open f0 own x (c : M (fsw E) Z) :
  (forall T, refs_ok T -> hoare (at_tables T) c (open_post T) (fun _ => at_tables T)) ->
  hoare (holding f0 own x) (fs c) (fun fd => holding f0 (fd :: own) x) (fun _ => holding f0 own x).
Proof.
  intros H. apply hold_fs. intros T HT. eapply hoare_conseq; [apply (H T), HT|done|..].
  - intros fd w (slot & Hf & Hs & H0 & H1 & Hw). unfold at_tables in Hw. rewrite Hw.
    destruct (owned_opened T fd slot own rest) as [G1 G2]; try done. split; [done|]. by apply (same_own own).
  - intros e w Hw. unfold at_tables in Hw. by rewrite Hw.
Qed.

Lemma hold_close f0 fd own x :
  hoare (holding f0 (fd :: own) x) (fs (cp32_fd_close fd)) (fun _ => holding f0 own x) (fun _ => holding f0 own x).
Proof.
  apply hold_fs. intros T HT. destruct (owned_closed T fd own rest HT) as [G1 G2]. apply same_own in G2.
  eapply hoare_conseq; [apply (close_spec fd T)|done|..].
  - intros [] w [_ Hw]. unfold at_tables in Hw. by rewrite Hw.
  - intros e w [[_ Hw]|[Hl _]]; [unfold at_tables in Hw; by rewrite Hw|]. destruct Hl. apply (ow_all _ _ _ HT). by left.
Qed.

(** The result of [cp32_fd_share] is the target it is given. *)
Lemma share_result source target w fd w' : target <> -1 -> cp32_fd_share (E := E) source target w = (Ok fd, w') -> fd = target.
Proof.
  intros Ht. unfold cp32_fd_share, bind at 1. destruct (need_file source w) as [[e|slot] w1]; [done|].
  unfold tab. rewrite bind_gets, (proj2 (Z.eqb_neq _ _)) by done. rewrite bind_assoc, bind_guard. destruct (_ || _); [done|].
  change (bind (ret target) ?k) with (k target). cbv beta. destruct (target =? source); [by intros [= ->]|].
  unfold bind, update, modify, ret, try. destruct (truthy _); [destruct (cp32_fd_close target w1) as [r w2]|]; by intros [= ->].
Qed.

(** Duplicating takes a closed descriptor. *)
Lemma dup_spec source T :
  refs_ok T -> live T source ->
  hoare (at_tables T) (cp32_fd_dup (E := E) source)
    (fun fd w => 0 <= fd < 8 /\ nthZ (snd T) fd = 0 /\ at_tables (shared fd (description T source) T) w) (fun _ => at_tables T).
Proof.
  intros HT Hl w Hw. unfold cp32_fd_dup, cp32_fd_fcntl. unfold bind at 1.
  pose proof (need_file_spec source T w Hw) as Hn. destruct (need_file source w) as [[e|slot] w1]; [by destruct Hn|].
  destruct Hn as (Hw1 & _ & _). unfold tab. rewrite bind_gets. change (CP32_F_DUPFD =? CP32_F_DUPFD) with true. cbv iota.
  rewrite bind_guard. change (_ || _) with false at 1. cbv iota zeta. change (drop (Z.to_nat 0) ?l) with l.
  assert (Ed : t_descriptors (fs_tab w1) = snd T) by (by rewrite <- Hw1). rewrite Ed.
  destruct (first_zero_spec (snd T) 0) as [F1 F2]. set (fd := first_zero (snd T) 0) in *. rewrite (proj2 (ro_length _ HT)), Z.sub_0_r in *.
  rewrite bind_guard. change CP32_OPEN_MAX with 8. destruct (Z.eqb_spec fd 8); [done|].
  pose proof (share_spec source fd T HT w1 Hw1) as Hs. destruct (cp32_fd_share source fd w1) as [[e|r] w2] eqn:Es; [done|].
  apply share_result in Es; [|lia]. subst r. assert (H0 : nthZ (snd T) fd = 0) by (apply F2; lia).
  destruct Hs as [_ [[Hfd _]|(_ & _ & Hs)]]; [destruct Hl as [_ Hl]; by rewrite <- Hfd in Hl|].
  rewrite H0 in Hs. split; [lia|]. by split.
Qed.

(** A duplicate refers to the description of its source; the others keep theirs. *)
Lemma dup_at f0 own x source f :
  holding f0 own x f -> In source (own ++ rest) ->
  match fs (cp32_fd_dup source) f with
  | (Ok fd, f') => holding f0 (fd :: own) x f' /\ same_at (own ++ rest) (fd_tables f) (fd_tables f') /\
                   nthZ (snd (fd_tables f')) fd = nthZ (snd (fd_tables f)) source
  | (Err _, f') => holding f0 own x f'
  end.
Proof.
  intros Hh Hs. pose proof (hd_owned _ _ _ _ Hh) as HT. set (T := fd_tables f) in *. pose proof (owned_is_live _ _ _ _ HT Hs) as Hl.
  pose proof (dup_spec source T (ow_refs _ _ _ HT) Hl (pw_fs f) eq_refl) as Hd. rewrite fs_run.
  destruct (cp32_fd_dup source (pw_fs f)) as [[e|fd] w]; cbn [fst snd].
  - apply (hold_tables _ own); [done|]. unfold at_tables in Hd. by rewrite Hd.
  - destruct Hd as (Hf & H0 & Hw). unfold at_tables in Hw. destruct (owned_shared T source fd own rest) as [G1 G2]; try done.
    split_and!; [apply (hold_tables _ own); [done|]; rewrite Hw; split; [done|by apply (same_own own)]|..].
    + unfold fd_tables at 1. cbn [pw_fs]. by rewrite Hw.
    + unfold fd_tables. cbn [pw_fs]. rewrite Hw. unfold shared. cbn [snd]. rewrite nthZ_upd_eq by (destruct (ro_length _ (ow_refs _ _ _ HT)); lia).
      unfold description. fold (fd_tables f). fold T. lia.
Qed.

Lemma hold_dup f0 own x source :
  In source (own ++ rest) ->
  hoare (holding f0 own x) (fs (cp32_fd_dup source)) (fun fd => holding f0 (fd :: own) x) (fun _ => holding f0 own x).
Proof. intros Hs f Hh. pose proof (dup_at f0 own x source f Hh Hs) as H. by destruct (fs _ f) as [[e|fd] f']; [|destruct H]. Qed.

(** [cp32_fd_dup2] onto a descriptor of the program *)
Lemma hold_dup2 f0 own x source fd :
  In source (fd :: own ++ rest) ->
  hoare (holding f0 (fd :: own) x) (fs (cp32_fd_dup2 source fd)) (fun r => holding f0 (fd :: own) x) (fun _ => holding f0 (fd :: own) x).
Proof.
  intros Hs. apply hold_fs. intros T HT. pose proof (owned_is_live _ _ _ source HT Hs) as Hl.
  intros w Hw. unfold cp32_fd_dup2. rewrite bind_guard. destruct (_ || _); [unfold at_tables in Hw; cbn; by rewrite Hw|].
  pose proof (share_spec source fd T (ow_refs _ _ _ HT) w Hw) as Hsh.
  destruct (owned_is_live _ _ _ fd HT (or_introl eq_refl)) as [Hf Hn].
  destruct (cp32_fd_share source fd w) as [[e|r] w2] eqn:Es; [unfold at_tables in Hsh; by rewrite Hsh|].
  apply share_result in Es; [|lia]. subst r. unfold share_post, at_tables in Hsh. destruct Hsh as [_ [[_ ->]|(Hne & _ & ->)]]; [done|].
  rewrite (proj2 (Z.eqb_neq _ _)) by done. destruct (owned_replaced T source fd own rest HT Hl) as [G1 G2].
  split; [done|]. by apply (same_own own).
Qed.

(** The result of [cp32_fd_dup2] *)
Lemma dup2_result source target w fd w' : cp32_fd_dup2 (E := E) source target w = (Ok fd, w') -> fd = target.
Proof. unfold cp32_fd_dup2. rewrite bind_guard. destruct (_ || _) eqn:E1; [done|]. apply share_result. lia. Qed.

(** The record is updated. *)
Lemma hold_on f0 own own' x g (R : Z -> fsproc E -> Prop) :
  Permutation own own' -> length (p_fds (g x)) = length (p_fds x) ->
  hoare (holding f0 own x) (on_proc p g) (fun _ => holding f0 own' (g x)) R.
Proof.
  intros HP Hg. apply hoare_modify. intros f Hh. apply (holding_perm _ _ _ _ _ HP) in Hh. destruct Hh as [H1 H2 H3 H4 H5 H6].
  constructor; try done.
  - unfold record. cbn [pw_procs]. rewrite record_same by done. by rewrite <- H1.
  - cbn [pw_procs]. by rewrite lenZ_upd.
  - by rewrite Hg.
  - etransitivity; [exact H5|]. split_and!; [apply length_insert|done|]. intros i Hi Hne. unfold record. cbn [pw_procs].
    rewrite record_upd by lia. unfold record. by destruct (nth (Z.to_nat i) (pw_procs f) empty_fproc).
Qed.

Lemma holding_settled f0 x f : holding f0 (handles x) x f -> settled_at f0 f.
Proof. by exists x. Qed.

Lemma hold_ret {A} (P : fsproc E -> Prop) (a : A) R : hoare P (ret a) (fun _ => P) R.
Proof. by apply hoare_ret. Qed.

Lemma hold_fail {A} (P : fsproc E -> Prop) e (Q : A -> fsproc E -> Prop) : hoare P (fail e) Q (fun _ => P).
Proof. by apply hoare_fail. Qed.

Lemma hold_guard f0 own x b e :
  hoare (holding f0 own x) (guard b e) (fun _ f => holding f0 own x f /\ b = false) (fun _ => holding f0 own x).
Proof. apply hoare_guard; done. Qed.

Lemma hold_proc f0 own x (R : Z -> fsproc E -> Prop) :
  hoare (holding f0 own x) (proc p) (fun y f => holding f0 own x f /\ y = x) R.
Proof. apply hoare_gets. intros f Hh. split; [done|]. apply Hh. Qed.

Lemma hold_errno {A} P (c : M (fsproc E) A) Q (R : fsproc E -> Prop) : hoare P c Q (fun _ => R) -> hoare P (errno c) Q (fun _ => R).
Proof. intros H f Hf. specialize (H f Hf). unfold errno. by destruct (c f) as [[e|a] f']. Qed.

Lemma hold_try {A} (P : fsproc E -> Prop) (c : M (fsproc E) A) Q R R' :
  hoare P c Q R -> hoare P (try c) (fun r f => match r with Ok a => Q a f | Err e => R e f end) R'.
Proof. intros H f Hf. specialize (H f Hf). unfold try. by destruct (c f) as [[e|a] f']. Qed.

(** A step after which an error leaves a sound state *)
Lemma step_bind {A B} f0 x (P : fsproc E -> Prop) (c : M (fsproc E) A) (k : A -> M (fsproc E) B) Q Q' :
  hoare P c Q' (fun _ => holding f0 (handles x) x) -> (forall a, hoare (Q' a) (k a) Q (fun _ => settled_at f0)) ->
  hoare P (bind c k) Q (fun _ => settled_at f0).
Proof.
  intros Hc Hk. eapply hoare_bind; [|exact Hk]. eapply hoare_conseq; [exact Hc|done|done|]. intros e f. apply holding_settled.
Qed.

Lemma step_guard {B} f0 x b e (c : M (fsproc E) B) Q :
  hoare (holding f0 (handles x) x) c Q (fun _ => settled_at f0) ->
  hoare (holding f0 (handles x) x) (guard b e ;;; c) Q (fun _ => settled_at f0).
Proof.
  intros H. eapply (step_bind f0 x); [apply hold_guard|]. intros []. eapply hoare_conseq; [exact H|by intros f []|done|done].
Qed.

Lemma step_keep {A B} f0 x (c : M (fsw E) A) (k : A -> M (fsproc E) B) Q :
  keeps same_refs c -> (forall a, hoare (holding f0 (handles x) x) (k a) Q (fun _ => settled_at f0)) ->
  hoare (holding f0 (handles x) x) (bind (fs c) k) Q (fun _ => settled_at f0).
Proof. intros Hc Hk. eapply (step_bind f0 x); [by apply hold_keep|exact Hk]. Qed.

Lemma step_abspath {B} f0 x path (k : list Z -> M (fsproc E) B) Q :
  (forall a, hoare (holding f0 (handles x) x) (k a) Q (fun _ => settled_at f0)) ->
  hoare (holding f0 (handles x) x) (bind (errno (abspath p path)) k) Q (fun _ => settled_at f0).
Proof.
  intros Hk. eapply (step_bind f0 x); [apply hold_errno|exact Hk]. unfold abspath. eapply hoare_bind; [apply hold_proc|]. intros y.
  eapply hoare_conseq; [apply (hold_keep f0 (handles x) x (cp32_minix_abspath (Some (cwd_of y)) (Some path)))|by intros f []|done|done].
  keeps_solve.
Qed.

Lemma step_proc {B} f0 own x (k : cp32_fproc -> M (fsproc E) B) Q R :
  hoare (holding f0 own x) (k x) Q R -> hoare (holding f0 own x) (bind (proc p) k) Q R.
Proof. intros H f Hh. change (bind (proc p) k f) with (k (record f p) f). rewrite (hd_record _ _ _ _ Hh). by apply H. Qed.

Lemma own_range f0 fd own x f : holding f0 (fd :: own) x f -> 0 <= fd < 8.
Proof. intros H. destruct (owned_is_live _ _ _ fd (hd_owned _ _ _ _ H) (or_introl eq_refl)). done. Qed.

(** A new descriptor enters the record, a closed one leaves it. *)
Lemma hold_adopt f0 fd x i g R :
  0 <= i < 4 -> nthZ (p_fds x) i = 0 -> handles (g x) = handles (p_set_fd i (fd + 1) x) -> length (p_fds (g x)) = length (p_fds x) ->
  hoare (holding f0 (fd :: handles x) x) (on_proc p g) (fun _ => settled_at f0) R.
Proof.
  intros Hi H0 Hg Hl f Hh. pose proof (own_range _ _ _ _ _ Hh) as Hfd. destruct (handles_fd x i (hd_fds _ _ _ _ Hh) Hi) as [L HL].
  assert (HP : Permutation (fd :: handles x) (handles (g x))).
  { destruct (HL (fd + 1)) as [P1 P2]. rewrite Hg, P1, P2, H0, handle_pos by lia. done. }
  exact (holding_settled f0 _ _ (hold_on f0 _ _ x g R HP Hl f Hh)).
Qed.

Lemma drop_perm x i : length (p_fds x) = 4%nat -> 0 <= i < 4 -> nthZ (p_fds x) i <> 0 ->
  Permutation (handles x) ((nthZ (p_fds x) i - 1) :: handles (p_set_fd i 0 x)).
Proof. intros Hl Hi Hn. destruct (handles_fd x i Hl Hi) as [L HL]. destruct (HL 0) as [P1 P2]. by rewrite P2, P1, handle_nonzero by done. Qed.

Lemma hold_drop f0 x i g R :
  handles (g x) = handles (p_set_fd i 0 x) -> length (p_fds (g x)) = length (p_fds x) ->
  hoare (holding f0 (handles (p_set_fd i 0 x)) x) (on_proc p g) (fun _ => settled_at f0) R.
Proof.
  intros Hg Hl. eapply hoare_conseq; [apply (hold_on f0 (handles (p_set_fd i 0 x)) (handles (g x)) x g R); [by rewrite Hg|done]|done| |done].
  intros []. apply holding_settled.
Qed.

Lemma hold_close_fd f0 x i :
  0 <= i < 4 -> nthZ (p_fds x) i <> 0 ->
  hoare (holding f0 (handles x) x) (fs (cp32_fd_close (nthZ (p_fds x) i - 1)))
    (fun _ => holding f0 (handles (p_set_fd i 0 x)) x) (fun _ => holding f0 (handles (p_set_fd i 0 x)) x).
Proof.
  intros Hi Hn f Hh. apply (hold_close f0 (nthZ (p_fds x) i - 1) (handles (p_set_fd i 0 x)) x f).
  eapply holding_perm; [|exact Hh]. by apply drop_perm; [apply Hh| |].
Qed.

Lemma hold_local f0 own x :
  hoare (holding f0 own x) (free_local p) (fun slot f => holding f0 own x f /\ 0 <= slot < 4 /\ nthZ (p_fds x) slot = 0)
    (fun _ => holding f0 own x).
Proof.
  unfold free_local. apply step_proc. intros f Hh. rewrite bind_guard. change CP32_APP_FILE_MAX with 4.
  destruct (first_zero_spec (p_fds x) 0) as [F1 F2]. rewrite Z.sub_0_r in F2. unfold lenZ in *. rewrite (hd_fds _ _ _ _ Hh) in *.
  destruct (Z.eqb_spec (first_zero (p_fds x) 0) 4); cbn; [done|]. split; [done|]. split; [lia|]. apply F2. lia.
Qed.

(** ** The requests *)
Lemma at_all {A} (c : M (fsproc E) A) : (forall x, keeps_at x c) -> keeps leaves c.
Proof. intros H f. by apply (H (record f p)). Qed.

(** A step that keeps the state, followed by one that starts in it *)
Lemma at_bind {A B} x (c : M (fsw E) A) (k : A -> M (fsproc E) B) :
  keeps same_refs c -> (forall a, keeps_at x (k a)) -> keeps_at x (bind (fs c) k).
Proof.
  intros Hc Hk. apply at_hoare. intros f0. apply step_keep; [done|]. intros a. by apply hoare_at.
Qed.

Lemma leaves_fs {A} (c : M (fsw E) A) : keeps same_refs c -> keeps leaves (fs c).
Proof.
  intros H. apply at_all. intros x. apply at_hoare. intros f0. eapply hoare_conseq; [apply (hold_keep f0 (handles x) x c H)|done|..];
    intros ? f; apply holding_settled.
Qed.

Lemma leaves_proc i : keeps leaves (proc (E := E) i).
Proof. intros f. reflexivity. Qed.
Lemma leaves_suspended : keeps leaves (gets (pw_suspended (E := E))).
Proof. intros f. reflexivity. Qed.
Lemma leaves_errno {A} (c : M (fsproc E) A) : keeps leaves c -> keeps leaves (errno c).
Proof. intros H f. specialize (H f). unfold errno. by destruct (c f) as [[e|a] f']. Qed.
Lemma leaves_ignore {A} (c : M (fsproc E) A) : keeps leaves c -> keeps leaves (ignore c).
Proof. intros H. unfold ignore. apply keeps_bind; [exact _|apply keeps_try; done|]. intros r. apply keeps_ret; exact _. Qed.

(** Updates that keep the descriptors *)
Lemma leaves_on g : (forall x, handles (g x) = handles x /\ length (p_fds (g x)) = length (p_fds x)) -> keeps leaves (on_proc p g).
Proof.
  intros Hg. apply at_all. intros x. apply at_hoare. intros f0. destruct (Hg x) as [H1 H2].
  eapply hoare_conseq; [apply (hold_on f0 (handles x) (handles (g x)) x g (fun _ => settled_at f0)); [by rewrite H1|done]|done| |done].
  intros []. apply holding_settled.
Qed.

Lemma leaves_cwd i cwd : keeps leaves (on_proc i (p_set_cwd cwd)).
Proof.
  intros f Hf. assert (HR : forall j, record (snd (on_proc i (p_set_cwd cwd) f)) j = record f j \/
    record (snd (on_proc i (p_set_cwd cwd) f)) j = p_set_cwd cwd (record f j)).
  { intros j. unfold on_proc, modify, record. cbn [snd pw_procs]. unfold updZ. rewrite !nth_lookup.
    destruct (decide (Z.to_nat j = Z.to_nat i)) as [->|Hne]; [|left; by rewrite list_lookup_insert_ne by done].
    destruct (decide (Z.to_nat i < length (pw_procs f))%nat) as [Hl|Hl].
    - right. rewrite list_lookup_insert_eq by done. done.
    - left. by rewrite list_insert_ge by lia. }
  assert (HG : handles (record (snd (on_proc i (p_set_cwd cwd) f)) p) = handles (record f p) /\
    p_fds (record (snd (on_proc i (p_set_cwd cwd) f)) p) = p_fds (record f p)) by (by destruct (HR p) as [->| ->]).
  destruct HG as [G1 G2]. destruct Hf as [H1 H2 H3]. split; [constructor|split].
  - cbn. by rewrite lenZ_upd.
  - by rewrite G2.
  - rewrite G1. exact H3.
  - split_and!; [apply length_insert|done|]. intros j Hj Hne. destruct (HR j) as [->| ->]; by destruct (record f j).
  - done.
Qed.

Hint Resolve keeps_fd_read keeps_fd_pread keeps_fd_write keeps_fd_pwrite keeps_fd_truncate keeps_fd_readdir keeps_fd_seek keeps_fd_fstat : keeps.
Hint Resolve leaves_proc leaves_suspended leaves_errno leaves_ignore leaves_cwd leaves_preorder : keeps.
Ltac leaves_solve :=
  repeat first [ solve [auto with keeps nocore] | apply leaves_fs; solve [keeps_solve] | apply leaves_errno | apply leaves_ignore
               | progress cbv beta zeta | keeps_step ].

Lemma leaves_free_local : keeps leaves (free_local p).
Proof. unfold free_local. leaves_solve. Qed.
Lemma leaves_abspath path : keeps leaves (abspath p path).
Proof. unfold abspath. leaves_solve. Qed.
Hint Resolve leaves_free_local leaves_abspath : keeps.

Lemma leaves_open_mode read write capacity buffer : keeps leaves (app_open_mode p read write capacity buffer).
Proof.
  apply at_all. intros x. apply at_hoare. intros f0. unfold app_open_mode. apply step_guard.
  eapply (step_bind f0 x); [apply hold_local|]. intros slot. apply hoare_pure. intros [Hi H0].
  apply step_abspath. intros path. apply step_proc.
  eapply (step_bind f0 x); [apply hold_errno, hold_open; intros T HT; by apply open_mode_spec|]. intros fd.
  eapply hoare_bind; [apply (hold_adopt f0 fd x slot); [done..|apply set_fd_length]|]. intros []. apply hold_ret.
Qed.

Lemma hold_closing {A} f0 fd x e (Q : A -> fsproc E -> Prop) :
  hoare (holding f0 (fd :: handles x) x) (ignore (fs (cp32_fd_close fd)) ;;; fail e) Q (fun _ => settled_at f0).
Proof.
  eapply hoare_bind with (Q' := fun _ => settled_at f0); [|intros []; apply hold_fail].
  unfold ignore. eapply hoare_bind; [apply hold_try, hold_close|]. intros r f Hf. exists x. by destruct r.
Qed.

Lemma leaves_open read write capacity op buffer : keeps leaves (app_open p read write capacity op buffer).
Proof.
  apply at_all. intros x. apply at_hoare. intros f0. unfold app_open. apply step_guard.
  eapply (step_bind f0 x); [apply hold_local|]. intros slot. apply hoare_pure. intros [Hi H0]. apply step_abspath. intros path.
  eapply (step_bind f0 x).
  { apply hold_errno, hold_open. intros T HT. destruct (op =? CP32_APP_OPENDIR); [by apply open_spec|by apply open_mode_spec]. }
  intros fd. eapply hoare_bind with (Q' := fun _ => holding f0 (fd :: handles x) x).
  { intros f Hh. assert (Hk : keeps same_refs (cp32_fd_fstat (E := E) fd nonnull)) by apply keeps_fd_fstat.
    pose proof (hold_keep f0 (fd :: handles x) x _ Hk f Hh) as H. unfold try. by destruct (fs _ f) as [[e|a] f']. }
  intros r. cbv zeta.
  destruct r as [e|info]; [apply hold_closing|]. destruct ((op =? CP32_APP_OPENDIR) && _); [apply hold_closing|].
  destruct ((op =? CP32_APP_OPEN) && _); [apply hold_closing|]. destruct (_ =? 0); [apply hold_closing|]. eapply hoare_bind; [apply (hold_adopt f0 fd x slot); [done..|apply set_fd_length]|]. intros []. apply hold_ret.
Qed.

(** A duplicate in a free entry of the record *)
Lemma hold_copy f0 x i source g (a : Z -> Z) :
  0 <= i < 4 -> nthZ (p_fds x) i = 0 -> In source (handles x) ->
  (forall fd y, handles (g fd y) = handles (p_set_fd i (fd + 1) y) /\ length (p_fds (g fd y)) = length (p_fds y)) ->
  hoare (holding f0 (handles x) x) (r <- fs (cp32_fd_dup source) ;; on_proc p (g r) ;;; ret (a r)) (fun _ => settled_at f0) (fun _ => settled_at f0).
Proof.
  intros Hi H0 Hs Hg. eapply (step_bind f0 x); [apply hold_dup; apply in_or_app; by left|]. intros fd.
  destruct (Hg fd x). eapply hoare_bind with (Q' := fun _ => settled_at f0); [by apply (hold_adopt f0 fd x i)|]. intros []. apply hold_ret.
Qed.

Lemma local_handle x fd : bad_local x fd = false -> length (p_fds x) = 4%nat -> In (nthZ (p_fds x) (fd - 3) - 1) (handles x).
Proof.
  unfold bad_local. change CP32_FPROC_FDS with 4. intros [[H1 H2]%orb_false_iff H3]%orb_false_iff Hl. apply handle_in; lia.
Qed.

(** Facts about the record of a sound state *)
Lemma hold_length {A} f0 own x (c : M (fsproc E) A) Q R :
  (length (p_fds x) = 4%nat -> hoare (holding f0 own x) c Q R) -> hoare (holding f0 own x) c Q R.
Proof. intros H f Hh. apply H; [apply Hh|done]. Qed.

Lemma leaves_dupfd source minimum : keeps leaves (cp32_fproc_dupfd p source minimum).
Proof.
  apply keeps_from. intros x. apply at_guard. intros [_ Hb]%orb_false_iff. apply at_guard. intros Hm. apply at_guard. intros Hs.
  apply at_hoare. intros f0. apply hold_length. intros Hl. set (m := (if minimum <? 3 then 3 else minimum) - 3) in *.
  assert (Hm4 : 0 <= m < 4) by (unfold m; change CP32_FPROC_FDS with 4 in *; case_match; lia).
  destruct (first_zero_spec (drop (Z.to_nat m) (p_fds x)) m) as [F1 F2]. set (slot := first_zero _ m) in *.
  assert (Hd : lenZ (drop (Z.to_nat m) (p_fds x)) = 4 - m) by (unfold lenZ; rewrite length_drop, Hl; lia).
  change CP32_FPROC_FDS with 4 in Hs. apply hold_copy with (i := slot); [lia| |by apply local_handle|by intros; split; [|apply set_fd_length]].
  rewrite <- F2 by lia. change (drop (Z.to_nat m) (p_fds x)) with (ptr_add (p_fds x) m). rewrite nthZ_ptr_add by lia. f_equal. lia.
Qed.

Lemma leaves_dup2 source target : keeps leaves (cp32_fproc_dup2 p source target).
Proof.
  apply keeps_from. intros x. apply at_guard. intros [[[_ H1]%orb_false_iff H2]%orb_false_iff Hb]%orb_false_iff.
  change CP32_FPROC_FDS with 4 in *. destruct (source =? target); [apply at_keeps, keeps_ret; exact _|].
  apply at_hoare. intros f0. apply hold_length. intros Hl. pose proof (local_handle x source Hb Hl) as Hin.
  unfold truthy. destruct (Z.eqb_spec (nthZ (p_fds x) (target - 3)) 0) as [E0|E0]; cbn [negb].
  - apply (hold_copy f0 x (target - 3)); [lia|done|done|by intros; split; [|apply set_fd_length]].
  - pose proof (drop_perm x (target - 3) Hl ltac:(lia) E0) as HP. set (from := nthZ (p_fds x) (source - 3) - 1) in *.
    set (old := nthZ (p_fds x) (target - 3)) in *. set (own := handles (p_set_fd (target - 3) 0 x)) in *.
    intros f Hh. apply (holding_perm _ _ _ _ _ HP) in Hh. unfold bind at 1. rewrite fs_run.
    assert (Hs : In from ((old - 1) :: own ++ rest)) by (rewrite HP in Hin; destruct Hin; [by left|right; apply in_or_app; by left]).
    pose proof (hold_dup2 f0 own x from (old - 1) Hs f Hh) as H. rewrite fs_run in H.
    destruct (cp32_fd_dup2 from (old - 1) (pw_fs f)) as [[e|r] w] eqn:Ed; cbn [fst snd] in *.
    + exists x. by apply (holding_perm _ _ _ _ _ (Permutation_sym HP)).
    + apply dup2_result in Ed. subst r. unfold on_proc, bind, modify, ret.
      pose proof (hold_on f0 ((old - 1) :: own) (handles (clear_cloexec (target - 3) (p_set_fd (target - 3) (old - 1 + 1) x))) x
        (fun x => clear_cloexec (target - 3) (p_set_fd (target - 3) (old - 1 + 1) x)) (fun _ => settled_at f0)) as Ho.
      specialize (Ho ltac:(destruct (handles_fd x (target - 3) Hl ltac:(lia)) as [L HL]; destruct (HL (old - 1 + 1)) as [P1 P2];
        change (handles (clear_cloexec ?i ?y)) with (handles y); rewrite P1, handle_nonzero by lia; destruct (HL 0) as [P3 _];
        unfold own; rewrite P3; cbn [handle Z.eqb app]; f_equiv; lia) (set_fd_length _ _ _) _ H).
      exists (clear_cloexec (target - 3) (p_set_fd (target - 3) (old - 1 + 1) x)). exact Ho.
Qed.

Lemma leaves_flags fd command arg : keeps leaves (cp32_fproc_flags p fd command arg).
Proof.
  apply keeps_from. intros x. apply at_keeps. apply keeps_bind; [exact _|apply keeps_guard; exact _|]. intros []. cbv zeta.
  case_match; [apply keeps_ret; exact _|]. case_match.
  - apply keeps_bind; [exact _|apply keeps_guard; exact _|]. intros []. apply keeps_bind; [exact _|by apply leaves_on|].
    intros []. apply keeps_ret; exact _.
  - destruct ((command !=? CP32_F_GETFL) && (command !=? CP32_F_SETFL)) eqn:Ec; [apply keeps_fail; exact _|].
    apply keeps_bind; [exact _|apply keeps_ret; exact _|]. intros []. apply leaves_fs. unfold cp32_fd_fcntl.
    apply andb_false_iff in Ec. rewrite !negb_false_iff, !Z.eqb_eq in Ec.
    assert (E1 : (command =? CP32_F_DUPFD) = false) by (destruct Ec as [->| ->]; done). rewrite E1. keeps_solve.
Qed.

(** Closing a local descriptor *)
Lemma at_close x slot g (k : res unit -> M (fsproc E) (Z * list Z)) :
  0 <= slot < 4 -> nthZ (p_fds x) slot <> 0 ->
  (forall y, handles (g y) = handles (p_set_fd slot 0 y) /\ length (p_fds (g y)) = length (p_fds y)) ->
  (forall r, keeps leaves (k r)) ->
  keeps_at x (r <- try (fs (cp32_fd_close (nthZ (p_fds x) slot - 1))) ;; on_proc p g ;;; k r).
Proof.
  intros Hi Hn Hg Hk. apply at_hoare. intros f0.
  eapply hoare_bind with (Q' := fun _ => holding f0 (handles (p_set_fd slot 0 x)) x).
  { intros f Hh. pose proof (hold_close_fd f0 x slot Hi Hn f Hh) as H. unfold try. by destruct (fs _ f) as [[e|a] f']. }
  intros r. destruct (Hg x) as [H1 H2]. eapply hoare_bind; [by apply hold_drop|]. intros [] f [y Hy].
  exact (hoare_at f0 y (k r) (at_keeps y (k r) (Hk r)) f Hy).
Qed.

Lemma at_on_fd x write slot op buffer arg :
  0 <= slot < 4 -> nthZ (p_fds x) slot <> 0 -> keeps_at x (app_on_fd p write slot (nthZ (p_fds x) slot - 1) op buffer arg).
Proof.
  intros Hi Hn. unfold app_on_fd. set (fd := nthZ (p_fds x) slot - 1).
  destruct (_ || _); [apply at_keeps; unfold app_position, done; leaves_solve|].
  destruct (op =? CP32_APP_FCHMOD).
  { apply at_keeps. unfold done. apply keeps_bind; [exact _|apply leaves_fs; keeps_solve|]. intros t. destruct (cp32_fd_file t fd); leaves_solve. }
  destruct (op =? CP32_APP_FTRUNCATE); [apply at_keeps; unfold done; leaves_solve|].
  destruct (op =? CP32_APP_WRITE); [apply at_keeps; unfold done; leaves_solve|].
  destruct (op =? CP32_APP_FSTAT); [apply at_keeps; unfold done; leaves_solve|].
  destruct (op =? CP32_APP_READDIR).
  { apply at_keeps. unfold done. apply keeps_bind; [exact _|leaves_solve|]. intros [[]|]; leaves_solve. }
  destruct (op =? CP32_APP_CLOSE).
  { apply at_close; try done; [intros y; split; [done|apply set_fd_length]|]. intros [e|[]]; unfold done; leaves_solve. }
  destruct (op =? CP32_APP_READ); [apply at_keeps; unfold done; leaves_solve|].
  destruct (_ && _); apply at_keeps; unfold done; leaves_solve.
Qed.

Lemma leaves_rename other previous read write capacity source destination :
  keeps leaves (cp32_fproc_move p other previous read write capacity source destination).
Proof.
  assert (Heach : forall {A} (g : A -> M (fsproc E) unit) l, (forall a, keeps leaves (g a)) -> keeps leaves (each g l)).
  { intros A g l Hg. induction l as [|a l IH]; cbn [each]; leaves_solve. }
  assert (Hm : forall old next, keeps same_refs (move_names (E := E) read capacity old next)) by (intros; unfold move_names; keeps_solve).
  unfold cp32_fproc_move, move_clients, rebase_previous, cwd_busy, rebase_check, rebase_commit.
  repeat first [ apply Heach; intros ? | apply leaves_fs; solve [auto] | progress leaves_solve | case_match ].
Qed.

Lemma leaves_rmdir guarded read write capacity name : keeps leaves (cp32_fproc_rmdir p guarded read write capacity name).
Proof. unfold cp32_fproc_rmdir, guard_cwd. repeat first [ progress leaves_solve | case_match ]. Qed.

Lemma leaves_file read write capacity op fd buffer arg : keeps leaves (cp32_fproc_file p read write capacity op fd buffer arg).
Proof.
  apply keeps_from. intros x. apply at_guard. intros _. unfold done.
  destruct (op =? CP32_APP_SYNC); [apply at_keeps; leaves_solve|].
  destruct (op =? CP32_APP_FSINFO); [apply at_keeps; leaves_solve|].
  destruct (op =? CP32_APP_DUPFD); [apply at_keeps; pose proof leaves_dupfd; leaves_solve|].
  destruct (op =? CP32_APP_DUP2); [apply at_keeps; pose proof leaves_dup2; leaves_solve|].
  destruct (op =? CP32_APP_RENAME); [apply at_keeps; pose proof leaves_rename; leaves_solve|].
  destruct (op =? CP32_APP_RMDIR); [apply at_keeps; pose proof leaves_rmdir; leaves_solve|].
  destruct (_ || _); [apply at_keeps; unfold app_link; repeat first [progress leaves_solve|case_match]|].
  destruct (_ || _); [apply at_keeps; unfold app_mkdir; repeat first [progress leaves_solve|case_match]|].
  destruct (op =? CP32_APP_UNLINK); [apply at_keeps; leaves_solve|].
  destruct (op =? CP32_APP_CHDIR); [apply at_keeps; unfold cp32_fproc_chdir; leaves_solve|].
  destruct (op =? CP32_APP_GETCWD); [apply at_keeps; leaves_solve|].
  destruct (op =? CP32_APP_UMASK); [apply at_keeps; apply keeps_bind; [exact _|by apply leaves_on|intros []; leaves_solve]|].
  destruct (_ && _); [apply at_keeps; pose proof leaves_flags; leaves_solve|].
  destruct (op =? CP32_APP_STAT); [apply at_keeps; leaves_solve|].
  destruct (op =? CP32_APP_OPEN_MODE); [apply at_keeps; pose proof leaves_open_mode; leaves_solve|].
  destruct (_ || _); [apply at_keeps; pose proof leaves_open; leaves_solve|].
  apply at_guard. intros Hb. assert (Hi : 0 <= fd - 3 < 4 /\ nthZ (p_fds x) (fd - 3) <> 0).
  { unfold bad_local in Hb. change CP32_FPROC_FDS with 4 in *. lia. }
  destruct Hi as [Hi Hn]. destruct (op =? CP32_APP_FSYNC).
  { apply at_keeps. apply keeps_bind; [exact _|apply leaves_fs; keeps_solve|]. intros t. destruct (cp32_fd_file t _); leaves_solve. }
  destruct (op =? CP32_APP_DUP); [|by apply at_on_fd].
  apply at_hoare. intros f0. apply hold_length. intros Hl. eapply (step_bind f0 x); [apply hold_local|]. intros slot. apply hoare_pure. intros [Hs H0].
  eapply (step_bind f0 x); [apply hold_errno, hold_dup, in_or_app; left; by apply local_handle|]. intros r.
  eapply hoare_bind; [apply (hold_adopt f0 r x slot); [done..|apply set_fd_length]|]. intros []. apply hold_ret.
Qed.

(** ** Exit, exec and clone *)
Lemma hold_ignore {A} (P Q : fsproc E -> Prop) (c : M (fsproc E) A) R :
  hoare P c (fun _ => Q) (fun _ => Q) -> hoare P (ignore c) (fun _ => Q) R.
Proof.
  intros H. unfold ignore. eapply hoare_bind; [apply hold_try, H|]. intros r f Hf. by destruct r.
Qed.

Lemma set_fd_same x i y : nthZ (p_fds x) i = y -> length (p_fds x) = 4%nat -> 0 <= i < 4 -> p_set_fd i y x = x.
Proof.
  intros <- Hl Hi. unfold p_set_fd, updZ, nthZ. rewrite list_insert_id; [by destruct x|].
  destruct (lookup_lt_is_Some_2 (p_fds x) (Z.to_nat i)) as [z Hz]; [lia|]. by rewrite Hz, nth_lookup, Hz.
Qed.

(** Closing entry [i] *)
Lemma hold_clear f0 x i R :
  0 <= i < 4 ->
  hoare (holding f0 (handles x) x)
    (y <- proc p ;; (if truthy (nthZ (p_fds y) i) then ignore (fs (cp32_fd_close (nthZ (p_fds y) i - 1))) else ret tt) ;;; on_proc p (p_set_fd i 0))
    (fun _ => holding f0 (handles (p_set_fd i 0 x)) (p_set_fd i 0 x)) R.
Proof.
  intros Hi. apply step_proc. eapply hoare_bind with (Q' := fun _ => holding f0 (handles (p_set_fd i 0 x)) x).
  - destruct (truthy (nthZ (p_fds x) i)) eqn:E1.
    + apply hold_ignore, hold_close_fd; [done|]. by apply truthy_true.
    + apply hoare_ret. intros f Hh. apply truthy_false in E1. rewrite (set_fd_same x i 0); [done|done|apply Hh|done].
  - intros []. apply hold_on; [done|apply set_fd_length].
Qed.

(** The record of a program that has ended *)
Definition ended (x : cp32_fproc) : cp32_fproc :=
  p_set_pid 0 (p_set_cloexec 0 (p_set_input 0 (p_set_fds (replicate 4 0) x))).

Lemma handles_ended x : handles (ended x) = [].
Proof. done. Qed.

Lemma cleared_fds x : length (p_fds x) = 4%nat -> p_set_fd 3 0 (p_set_fd 2 0 (p_set_fd 1 0 (p_set_fd 0 0 x))) = p_set_fds (replicate 4 0) x.
Proof.
  intros Hl. destruct x as [? ? ? ? ? ? ? ? fds ? ?]. cbn in Hl. destruct fds as [|a [|b [|c [|d [|]]]]]; done.
Qed.

Lemma hold_exit f0 x R :
  hoare (holding f0 (handles x) x) (cp32_fproc_exit p) (fun _ => holding f0 [] (ended x)) R.
Proof.
  apply hold_length. intros Hl. unfold cp32_fproc_exit. cbn [for_].
  eapply hoare_bind with (Q' := fun _ => holding f0 (handles (p_set_fds (replicate 4 0) x)) (p_set_fds (replicate 4 0) x)).
  - rewrite <- cleared_fds by done.
    eapply hoare_bind; [by apply hold_clear|]. intros []. eapply hoare_bind; [by apply hold_clear|]. intros [].
    eapply hoare_bind; [by apply hold_clear|]. intros []. eapply hoare_bind; [by apply hold_clear|]. intros []. by apply hoare_ret.
  - intros []. set (y := p_set_fds _ x). apply step_proc. change (p_input y) with (p_input x).
    eapply hoare_bind with (Q' := fun _ => holding f0 [] y).
    + assert (HP : Permutation (handles y) (handle (p_input x) ++ [])) by exact (handles_input y (p_input x)).
      unfold handle, truthy in *. destruct (Z.eqb_spec (p_input x) 0) as [E0|E0]; cbn [negb].
      * apply hoare_ret. intros f. by apply holding_perm.
      * apply hold_ignore. eapply hoare_conseq; [apply (hold_close f0 (p_input x - 1) [] y)| |done|done].
        intros f. by apply holding_perm.
    + intros []. exact (hold_on f0 [] [] y (fun x => p_set_pid 0 (p_set_cloexec 0 (p_set_input 0 x))) R (Permutation_refl _) eq_refl).
Qed.

Lemma leaves_exit : keeps leaves (cp32_fproc_exit p).
Proof.
  apply at_all. intros x. apply at_hoare. intros f0. eapply hoare_conseq; [apply (hold_exit f0 x (fun _ => settled_at f0))|done| |done].
  intros [] f Hf. by exists (ended x).
Qed.

Lemma leaves_exec : keeps leaves (cp32_fproc_exec p).
Proof.
  unfold cp32_fproc_exec. apply keeps_bind; [exact _| |intros []; by apply leaves_on]. cbn [for_].
  assert (Hi : forall i, 0 <= i < 4 -> keeps leaves (x <- proc p ;;
    if truthy (Z.land (p_cloexec x) (1 <<u i)) && truthy (nthZ (p_fds x) i) then
      ignore (fs (cp32_fd_close (nthZ (p_fds x) i - 1))) ;;; on_proc p (p_set_fd i 0) else ret tt)).
  { intros i Hi. apply keeps_from. intros x. destruct (_ && _) eqn:E1; [|apply at_keeps, keeps_ret; exact _].
    apply andb_true_iff in E1 as [_ E1%truthy_true]. apply at_hoare. intros f0.
    eapply hoare_bind; [apply hold_ignore, hold_close_fd; [done|exact E1]|]. intros []. apply (hold_drop f0 x i); [done|apply set_fd_length]. }
  repeat (apply keeps_bind; [exact _|apply Hi; lia|intros []]). apply keeps_ret; exact _.
Qed.

(** A child's entries against its parent's, up to entry [n]: each used entry is
    a descriptor of its own for the same description. *)
Definition shares (T : tables) (xs ys : list Z) : Prop :=
  Forall2 (fun h h' => (h = 0 <-> h' = 0) /\ (h <> 0 -> nthZ (snd T) (h' - 1) = nthZ (snd T) (h - 1))) xs ys.
Definition entries (x : cp32_fproc) : list Z := p_fds x ++ [p_input x].
Definition mirrors (T : tables) (xs ys : list Z) (n : Z) : Prop :=
  forall i, 0 <= i < 4 -> if (n <=? i) || (nthZ xs i =? 0) then nthZ ys i = 0
                          else nthZ ys i <> 0 /\ nthZ (snd T) (nthZ ys i - 1) = nthZ (snd T) (nthZ xs i - 1).

Section Clone.
Context (f0 : fsproc E) (parent : Z) (X : cp32_fproc).
Hypothesis Hparent : 0 <= parent /\ parent <> p.
Hypothesis HX : record f0 parent = X.
Hypothesis Hfds : length (p_fds X) = 4%nat.
Hypothesis Hrest : forall d, In d (handles X) -> In d rest.

Record cloning (n : Z) (y : cp32_fproc) (f : fsproc E) : Prop := {
  cg_hold : holding f0 (handles y) y f;
  cg_fds : mirrors (fd_tables f) (p_fds X) (p_fds y) n;
  cg_same : y = p_set_fds (p_fds y) (p_set_input 0 X) }.

Lemma parent_record own y f : holding f0 own y f -> p_fds (record f parent) = p_fds X /\ p_input (record f parent) = p_input X.
Proof. intros H. destruct (hd_others _ _ _ _ H) as (_ & _ & Ho). destruct Hparent. rewrite (Ho parent), HX by done. done. Qed.

Lemma clone_step n y f :
  0 <= n < 4 -> cloning n y f ->
  match (x <- proc parent ;; if nthZ (p_fds x) n =? 0 then ret tt else
         fd <- fs (cp32_fd_dup (nthZ (p_fds x) n - 1)) ;; on_proc p (p_set_fd n (fd + 1))) f with
  | (Ok _, f') => exists y, cloning (n + 1) y f'
  | (Err _, f') => settled_at f0 f'
  end.
Proof.
  intros Hn [Hh Hm Hs]. unfold bind at 1. change (proc parent f) with (@Ok cp32_fproc (record f parent), f). cbv iota beta.
  rewrite (proj1 (parent_record _ _ _ Hh)). pose proof (Hm n Hn) as Hyn. rewrite (proj2 (Z.leb_le n n)) in Hyn by lia. cbn [orb] in Hyn.
  destruct (Z.eqb_spec (nthZ (p_fds X) n) 0) as [E0|E0].
  - exists y. constructor; [done| |done]. intros i Hi. specialize (Hm i Hi). destruct (Z.eq_dec i n) as [->|Hne].
    + rewrite E0. by rewrite orb_true_r.
    + replace (n + 1 <=? i) with (n <=? i) by lia. done.
  - assert (Hx : forall i, 0 <= i < 4 -> nthZ (p_fds X) i <> 0 -> In (nthZ (p_fds X) i - 1) rest).
    { intros i Hi Hne. apply Hrest. by apply handle_in. }
    unfold bind at 1. pose proof (dup_at f0 (handles y) y (nthZ (p_fds X) n - 1) f Hh) as Hd. 
    specialize (Hd (in_or_app _ _ _ (or_intror (Hx n Hn E0)))). destruct (fs _ f) as [[e|fd] f1]; [by apply holding_settled in Hd|].
    destruct Hd as (Hh1 & Hsame & Hfd). pose proof (own_range _ _ _ _ _ Hh1) as Hr. pose proof (hd_fds _ _ _ _ Hh1) as Hl.
    unfold on_proc, modify. exists (p_set_fd n (fd + 1) y). constructor.
    + destruct (handles_fd y n Hl Hn) as [L HL]. destruct (HL (fd + 1)) as [P1 P2]. rewrite Hyn in P2.
      refine (hold_on f0 (fd :: handles y) _ y (p_set_fd n (fd + 1)) (fun _ => settled_at f0) _ (set_fd_length _ _ _) f1 Hh1).
      rewrite P1, P2, handle_pos by lia. done.
    + intros i Hi. specialize (Hm i Hi). change (p_fds (p_set_fd n (fd + 1) y)) with (updZ (p_fds y) n (fd + 1)). change (fd_tables (Fsproc _ _ _)) with (fd_tables f1).
      destruct (Z.eq_dec i n) as [->|Hne].
      * rewrite nthZ_upd_eq by (unfold lenZ; lia). rewrite (proj2 (Z.leb_gt _ _)), (proj2 (Z.eqb_neq _ _)) by (lia || done). cbn [orb]. split; [lia|].
        replace (fd + 1 - 1) with fd by lia. rewrite Hfd. symmetry. apply Hsame, in_or_app. right. by apply Hx.
      * rewrite nthZ_upd_ne by lia. replace (n + 1 <=? i) with (n <=? i) by lia. destruct (_ || _) eqn:Eb; [done|]. destruct Hm as [Hm1 Hm2].
        apply orb_false_iff in Eb as [_ Eb]. split; [done|]. rewrite !Hsame; [done|apply in_or_app..].
        -- right. apply Hx; [done|lia].
        -- left. by apply handle_in.
    + rewrite Hs at 1. by destruct X.
Qed.

Lemma clone_entries y f :
  cloning 0 y f ->
  match for_ 4 0 (fun i _ => x <- proc parent ;; if nthZ (p_fds x) i =? 0 then ret tt else
          fd <- fs (cp32_fd_dup (nthZ (p_fds x) i - 1)) ;; on_proc p (p_set_fd i (fd + 1))) tt f with
  | (Ok _, f') => exists y, cloning 4 y f'
  | (Err _, f') => settled_at f0 f'
  end.
Proof.
  intros Hy. apply (hoare_for (fun n _ f => exists y, cloning n y f) 4 0 _ (fun _ => settled_at f0) tt); [|by exists y].
  intros n [] Hn g [z Hz]. pose proof (clone_step n z g ltac:(lia) Hz) as H. by destruct (bind _ _ g) as [[e|[]] g'].
Qed.

(** The child's record after a clone *)
Record child_of (pid : Z) (T : tables) (y : cp32_fproc) : Prop := {
  co_same : y = p_set_pid pid (p_set_input (p_input y) (p_set_fds (p_fds y) X));
  co_shares : shares T (entries X) (entries y) }.

Lemma mirrors_shares T ys i j :
  length ys = 4%nat -> mirrors T (p_fds X) ys 4 ->
  (p_input X = 0 <-> j = 0) -> (p_input X <> 0 -> nthZ (snd T) (j - 1) = nthZ (snd T) (p_input X - 1)) -> j = i ->
  shares T (entries X) (ys ++ [i]).
Proof.
  intros Hl Hm Hi0 Hi1 <-. unfold entries, shares. apply Forall2_app; [|by constructor].
  assert (Hstep : forall n, 0 <= n < 4 -> (nthZ (p_fds X) n = 0 <-> nthZ ys n = 0) /\
    (nthZ (p_fds X) n <> 0 -> nthZ (snd T) (nthZ ys n - 1) = nthZ (snd T) (nthZ (p_fds X) n - 1))).
  { intros n Hn. specialize (Hm n Hn). rewrite (proj2 (Z.leb_gt _ _)) in Hm by lia. cbn [orb] in Hm.
    destruct (Z.eqb_spec (nthZ (p_fds X) n) 0) as [E0|E0]; [done|]. destruct Hm as [H1 H2]. split; [done|]. by intros _. }
  pose proof (Hstep 0 ltac:(lia)) as S0. pose proof (Hstep 1 ltac:(lia)) as S1. pose proof (Hstep 2 ltac:(lia)) as S2. pose proof (Hstep 3 ltac:(lia)) as S3.
  destruct (p_fds X) as [|x0 [|x1 [|x2 [|x3 [|]]]]]; try done. destruct ys as [|y0 [|y1 [|y2 [|y3 [|]]]]]; try done.
  by repeat constructor; apply S0 || apply S1 || apply S2 || apply S3.
Qed.

Lemma clone_fds_run y f :
  cloning 0 y f -> p_input y = 0 ->
  match clone_fds p parent f with
  | (Ok _, f') => exists y, holding f0 (handles y) y f' /\ y = p_set_input (p_input y) (p_set_fds (p_fds y) X) /\ shares (fd_tables f') (entries X) (entries y)
  | (Err _, f') => settled_at f0 f'
  end.
Proof.
  intros Hy Hy0. unfold clone_fds. unfold bind at 1. pose proof (clone_entries y f Hy) as H. destruct (for_ _ _ _ _ f) as [[e|[]] f1]; [done|].
  clear y f Hy Hy0. destruct H as (y & [Hh Hm Hs]). pose proof (hd_fds _ _ _ _ Hh) as Hl.
  unfold bind at 1. change (proc parent f1) with (@Ok cp32_fproc (record f1 parent), f1). cbv iota beta.
  rewrite (proj2 (parent_record _ _ _ Hh)). assert (Hy0 : p_input y = 0) by (rewrite Hs; done).
  destruct (Z.eqb_spec (p_input X) 0) as [E0|E0].
  - exists y. split; [done|]. split; [rewrite Hs at 1; rewrite Hy0; by destruct X|]. by apply (mirrors_shares _ _ _ 0).
  - assert (Hin : In (p_input X - 1) rest).
    { apply Hrest. pose proof (handles_input X (p_input X)) as HP. replace (p_set_input (p_input X) X) with X in HP by (by destruct X).
      rewrite HP, handle_nonzero by done. by left. }
    unfold bind at 1. pose proof (dup_at f0 (handles y) y (p_input X - 1) f1 Hh (in_or_app _ _ _ (or_intror Hin))) as Hd.
    destruct (fs _ f1) as [[e|fd] f2]; [by apply holding_settled in Hd|]. destruct Hd as (Hh2 & Hsame & Hfd).
    pose proof (own_range _ _ _ _ _ Hh2) as Hr. unfold on_proc, modify. exists (p_set_input (fd + 1) y). split_and!.
    + refine (hold_on f0 (fd :: handles y) _ y (p_set_input (fd + 1)) (fun _ => settled_at f0) _ eq_refl f2 Hh2).
      rewrite (handles_input y (fd + 1)), handle_pos by lia. replace (p_set_input 0 y) with y by (destruct y; cbn in *; by rewrite Hy0). done.
    + rewrite Hs at 1. by destruct X.
    + change (fd_tables (Fsproc _ _ _)) with (fd_tables f2). unfold entries at 2. apply (mirrors_shares _ _ _ (fd + 1)); try done.
      * intros i Hi. specialize (Hm i Hi). destruct (_ || _) eqn:Eb; [done|]. destruct Hm as [Hm1 Hm2]. split; [done|].
        apply orb_false_iff in Eb as [_ Eb]. rewrite !Hsame; [done|apply in_or_app..]; [right; apply Hrest; apply handle_in; [done|done|lia]|].
        left. by apply (handle_in y).
      * lia.
      * intros _. replace (fd + 1 - 1) with fd by lia. rewrite Hfd. symmetry. apply Hsame, in_or_app. by right.
Qed.
End Clone.

Lemma clone_run pid parent f :
  good f -> handles (record f p) = [] -> 0 <= parent -> parent <> p -> length (p_fds (record f parent)) = 4%nat ->
  (forall d, In d (handles (record f parent)) -> In d rest) ->
  match cp32_fproc_clone p parent pid f with
  | (Ok _, f') => (good f' /\ others f f' /\ same_at rest (fd_tables f) (fd_tables f')) /\
                  child_of (record f parent) pid (fd_tables f') (record f' p)
  | (Err _, f') => (good f' /\ others f f' /\ same_at rest (fd_tables f) (fd_tables f')) /\ handles (record f' p) = []
  end.
Proof.
  intros Hg Hnone Hp0 Hne Hl Hin. pose proof (good_holding f Hg) as Hh. rewrite Hnone in Hh. unfold cp32_fproc_clone.
  set (X := record f parent) in *. unfold bind at 1. change (proc p f) with (@Ok cp32_fproc (record f p), f). cbv iota beta.
  unfold bind at 1. change (proc parent f) with (@Ok cp32_fproc X, f). cbv iota beta. rewrite bind_guard.
  destruct (_ || _); [split; [by cbn|exact Hnone]|]. unfold bind at 1. set (y := p_set_input 0 (p_set_fds (replicate 4 0) X)).
  pose proof (hold_on f [] [] (record f p) (fun _ => y) (fun _ _ => False) (Permutation_refl _) (eq_sym (gd_fds _ Hg)) f Hh) as Hy.
  destruct (on_proc p (fun _ => y) f) as [[e|[]] f1]; [done|].
  assert (Hc : cloning f X 0 y f1).
  { constructor; [exact Hy| |by destruct X]. intros i Hi. rewrite (proj2 (Z.leb_le 0 i)) by lia. cbn [orb].
    change (p_fds y) with [0; 0; 0; 0]. assert (Hi4 : i = 0 \/ i = 1 \/ i = 2 \/ i = 3) by lia. by destruct Hi4 as [->|[->|[->| ->]]]. }
  pose proof (clone_fds_run f parent X (conj Hp0 Hne) eq_refl Hl Hin y f1 Hc eq_refl) as Hr. rewrite bind_try.
  destruct (clone_fds p parent f1) as [[e|[]] f2].
  - destruct Hr as [z Hz]. unfold bind at 1. pose proof (hold_exit f z (fun _ _ => False) f2 Hz) as He.
    destruct (cp32_fproc_exit p f2) as [[e'|[]] f3]; [done|]. rewrite <- (handles_ended z) in He.
    split; [exact (holding_leaves _ _ _ He)|]. cbn [snd]. by rewrite (hd_record _ _ _ _ He).
  - destruct Hr as (z & Hz & Hs & Hsh).
    pose proof (hold_on f (handles z) (handles (p_set_pid pid z)) z (p_set_pid pid) (fun _ _ => False) (Permutation_refl _) eq_refl f2 Hz) as Hz'.
    unfold on_proc, modify in *. split; [exact (holding_leaves _ _ _ Hz')|]. rewrite (hd_record _ _ _ _ Hz').
    constructor; [rewrite Hs at 1; by destruct X|exact Hsh].
Qed.

Lemma leaves_utime read write capacity name atime mtime now current :
  keeps leaves (cp32_fproc_utime (Some p) read write capacity name atime mtime now current).
Proof. unfold cp32_fproc_utime. repeat first [ progress leaves_solve | case_match ]. Qed.

(** Opening a program's file for exec takes one more descriptor. *)
Lemma hold_exec_open f0 x read capacity name :
  hoare (holding f0 (handles x) x) (cp32_fproc_exec_open p read capacity name)
    (fun r => holding f0 (fst r :: handles x) x) (fun _ => settled_at f0).
Proof.
  unfold cp32_fproc_exec_open. apply step_proc. do 2 apply step_guard.
  eapply (step_bind f0 x); [apply hold_errno, hold_keep; keeps_solve|]. intros path.
  eapply hoare_bind; [apply hold_try, hold_open; intros T HT; by apply open_mode_spec|]. intros [e|fd].
  { intros f Hf. by exists x. }
  eapply hoare_bind with (Q' := fun _ => holding f0 (fd :: handles x) x).
  { intros f Hh. assert (Hk : keeps same_refs (cp32_fd_fstat (E := E) fd nonnull)) by apply keeps_fd_fstat.
    pose proof (hold_keep f0 (fd :: handles x) x _ Hk f Hh) as H. unfold try. by destruct (fs _ f) as [[e|a] f']. }
  intros [e|info]; [apply hold_closing|]. destruct (_ || _); [apply hold_closing|]. by apply hoare_ret.
Qed.
End Records.

#[export] Existing Instance others_preorder.
#[export] Existing Instance leaves_preorder.
