(* ===== verification/ForkSpec.v ===== *)
(** * What a fork promises

    A fork that succeeds leaves a copy of the image and of the file record
    aside, and the exit of the child brings both back: the parent goes on with
    the memory, descriptors, break and parent pid it had. *)
From S2P Require Import Prelude Codec Kconst FsTypes FdTable Alloc Ktypes Sched Ipc IpcSpec Process Mm Storage.
From S2P Require Import Fproc Signals Fork ForkFiles.
From S2P Require Image.

(** ** The memory service as the broker sees it *)
Definition fs_valid (k : kst) : Prop := cp32_mm_source_valid k FS_PROC_NR = true.

Section Service.
Context {E : Type} `{TRAP : Transport} (heap_base heap_size : Z).
Hypothesis Hb : 0 < heap_base.
Hypothesis Hs : 0 <= heap_size.
Hypothesis He : heap_base + heap_size <= 0x100000.
Hypothesis Hmm : forall k, sendrec_status k MM_PROC_NR = OK.
Abbreviation heap_ok := (heap_ok heap_base heap_size).
Abbreviation gained := (gained heap_base heap_size).
Abbreviation BM := (M (broker E)).

Lemma sendrec_allocate n (w : broker E) :
  heap_ok (b_heap w) -> fs_valid (b_k w) -> 0 < n < 0x100000 ->
  exists r m a, sendrec_mm heap_base heap_size (Message 0 CP32_MM_ALLOCATE n) w = (Ok (OK, Message MM_PROC_NR r m), set_heap a w) /\
  heap_ok a /\ (r = ENOMEM /\ same_held (b_heap w) a \/ r = OK /\ m <> 0 /\ wrap32 m = m /\ gained (b_heap w) a m n FS_PROC_NR).
Proof.
  intros Ha Hv Hn. unfold sendrec_mm. rewrite Hmm. change (OK !=? OK) with false. cbv iota.
  unfold mm_turn. cbn [m_source m_type m1_i1]. rewrite Hv. cbn [negb].
  destruct (request_spec heap_base heap_size Hb Hs ltac:(lia) (b_k w) (Message FS_PROC_NR CP32_MM_ALLOCATE n) (b_heap w) Ha Hv)
    as (r & m & a & -> & Ha' & H).
  exists r, m, a. split; [done|]. split; [done|]. cbn [m_type m1_i1 m_source] in H.
  destruct H as [(_ & [(-> & _ & H)|(-> & H)])|[(Hc & _)|(Hc & _)]]; [by left| |done|done].
  right. rewrite wrap32_small in H by lia. pose proof H as (H1 & H2 & H3 & _).
  split_and!; [done|lia|apply wrap32_small; lia|done].
Qed.

Lemma fork_free_spec base n (w : broker E) :
  heap_ok (b_heap w) -> fs_valid (b_k w) -> held (b_heap w) base n FS_PROC_NR -> 0 <= base < 0x100000 ->
  exists a, fork_free heap_base heap_size base w = (Ok tt, set_heap a w) /\ heap_ok a /\
  forall b s o, held a b s o <-> held (b_heap w) b s o /\ b <> base.
Proof.
  intros Ha Hv Hh Hr. unfold fork_free, sendrec_mm, bind. rewrite Hmm. change (OK !=? OK) with false. cbv iota.
  unfold mm_turn. cbn [m_source m_type m1_i1]. rewrite Hv. cbn [negb]. rewrite to_int_small by lia.
  destruct (request_spec heap_base heap_size Hb Hs ltac:(lia) (b_k w) (Message FS_PROC_NR CP32_MM_RELEASE base) (b_heap w) Ha Hv)
    as (r & m & a & -> & Ha' & H). cbn [m_type m1_i1 m_source] in H.
  destruct H as [(Hc & _)|[(_ & -> & H)|(_ & Hc & _)]]; [done| |done]. rewrite wrap32_small in H by lia.
  assert (Hok : r = OK /\ forall b s o, held a b s o <-> held (b_heap w) b s o /\ b <> base).
  { destruct H as [(-> & _ & H)|[(_ & _ & s & o & Hne & H)|(_ & _ & H)]]; [done| |].
    - destruct (held_first heap_base heap_size (b_heap w) _ _ _ _ _ Ha Hh H) as [_ <-]. done.
    - by destruct (H n FS_PROC_NR). }
  destruct Hok as [-> H']. exists a. done.
Qed.
End Service.

(** ** The file records *)
Section Records.
Context {E : Type} `{DSK : Disk E}.

(** Only the record [APP] has changed. *)
Definition app_only (f f' : fsproc E) : Prop :=
  length (pw_procs f') = length (pw_procs f) /\ pw_suspended f' = pw_suspended f /\
  forall i, 0 <= i -> i <> APP -> record f' i = record f i.

#[local] Instance app_only_preorder : PreOrder app_only.
Proof.
  split; [done|]. intros f g h (H1 & H2 & H3) (G1 & G2 & G3). split_and!; [congruence..|].
  intros i Hi Hne. by rewrite G3, H3.
Qed.

Lemma app_only_fs {A} (c : M (fsw E) A) : keeps app_only (fs c).
Proof. intros f. unfold fs. destruct (c (pw_fs f)) as [r s]. done. Qed.

Lemma app_only_proc i : keeps app_only (proc (E := E) i).
Proof. intros f. done. Qed.

Lemma app_only_on g : keeps app_only (on_proc (E := E) APP g).
Proof.
  intros f. unfold on_proc, modify. cbn. split_and!; [apply length_insert|done|]. intros i Hi Hne.
  unfold record. cbn [pw_procs]. by apply record_upd.
Qed.

Lemma app_only_ignore {A} (c : M (fsproc E) A) : keeps app_only c -> keeps app_only (ignore c).
Proof. intros H. unfold ignore. keeps_solve. Qed.

Hint Resolve app_only_fs app_only_proc app_only_on app_only_ignore : keeps.

Lemma app_only_exit : keeps app_only (cp32_fproc_exit (E := E) APP).
Proof. unfold cp32_fproc_exit. keeps_solve. Qed.

Lemma app_only_clone parent pid : keeps app_only (cp32_fproc_clone (E := E) APP parent pid).
Proof. unfold cp32_fproc_clone, clone_fds. pose proof app_only_exit. keeps_solve. Qed.

(** Closing the descriptors of a record cannot fail. *)
Definition total {W A} (c : M W A) : Prop := forall w, exists a, fst (c w) = Ok a.

Lemma total_bind {W A B} (c : M W A) (k : A -> M W B) : total c -> (forall a, total (k a)) -> total (bind c k).
Proof.
  intros Hc Hk w. unfold bind. destruct (Hc w) as [a Ha]. destruct (c w) as [r w']. cbn in Ha. subst r. apply Hk.
Qed.
Lemma total_ret {W A} (a : A) : total (W := W) (ret a).
Proof. intros w. by exists a. Qed.
Lemma total_try {W A} (c : M W A) : total (try c).
Proof. intros w. unfold try. destruct (c w) as [r w']. by exists r. Qed.
Lemma total_for {W A} n i (body : Z -> A -> M W A) a : (forall j a, total (body j a)) -> total (for_ n i body a).
Proof. intros H. revert i a. induction n as [|n IH]; intros i a; cbn [for_]; [apply total_ret|]. by apply total_bind. Qed.
Lemma total_ignore {A} (c : M (fsproc E) A) : total (ignore c).
Proof. apply total_bind; [apply total_try|intros; apply total_ret]. Qed.

Lemma total_exit p : total (cp32_fproc_exit (E := E) p).
Proof.
  assert (Hp : total (proc (E := E) p)) by (intros w; by eexists).
  assert (Hu : forall g, total (on_proc (E := E) p g)) by (intros g w; by eexists).
  apply total_bind; [apply total_for; intros j []; apply total_bind; [done|]; intros x|intros []].
  - apply total_bind; [case_match; [apply total_ignore|apply total_ret]|done].
  - apply total_bind; [done|]. intros x. apply total_bind; [case_match; [apply total_ignore|apply total_ret]|done].
Qed.

Lemma exit_run (f : fsproc E) : exists f', cp32_fproc_exit APP f = (Ok tt, f') /\ app_only f f'.
Proof.
  destruct (total_exit APP f) as [[] Ha]. pose proof (app_only_exit f) as Hk.
  destruct (cp32_fproc_exit APP f) as [r f']. cbn in Ha, Hk. subst r. by exists f'.
Qed.

Lemma bind_files {A B} (c : M (fsproc E) A) (k : A -> M (broker E) B) w :
  bind (files c) k w = let (r, f) := c (b_files w) in match r with Err e => (Err e, set_files f w) | Ok a => k a (set_files f w) end.
Proof. unfold bind, files. by destruct (c (b_files w)) as [[e|a] f]. Qed.

(** The descriptors of the program and the rest of the table *)
Abbreviation good := (good (E := E) APP).

(** Restoring the parent's record. *)
Lemma files_restore_spec (w : broker E) :
  3 <= lenZ (pw_procs (b_files w)) ->
  exists f, cp32_shell_app_files_restore w = (Ok tt, set_files f w) /\
  record f APP = record (b_files w) SAVED /\ pw_suspended f = None /\ lenZ (pw_procs f) = lenZ (pw_procs (b_files w)) /\
  forall i, 0 <= i -> i <> APP -> record f i = record (b_files w) i.
Proof.
  intros Hl. unfold cp32_shell_app_files_restore, files, bind. destruct (exit_run (b_files w)) as (f1 & -> & H1 & H2 & H3).
  cbn. eexists. split; [done|]. unfold record at 1. cbn [pw_procs pw_suspended]. split_and!.
  - rewrite record_same by (unfold lenZ, APP in *; rewrite H1; lia). by apply H3.
  - done.
  - unfold lenZ in *. unfold updZ. rewrite length_insert. lia.
  - intros i Hi Hne. unfold record at 1. cbn [pw_procs]. rewrite record_upd by (unfold APP in *; lia). by apply H3.
Qed.

(** Cloning the record for the child. *)
Lemma files_fork_spec pid (w : broker E) :
  3 <= lenZ (pw_procs (b_files w)) ->
  let (r, w') := cp32_shell_app_files_fork pid w in
  exists f, w' = set_files f w /\ lenZ (pw_procs f) = lenZ (pw_procs (b_files w)) /\
  match r with
  | Ok _ => record f SAVED = record (b_files w) APP /\ pw_suspended f = Some SAVED
  | Err _ => record f APP = record (b_files w) APP /\ pw_suspended f = pw_suspended (b_files w)
  end.
Proof.
  intros Hl. unfold cp32_shell_app_files_fork. rewrite bind_files. cbn [proc gets]. rewrite bind_files. cbn [on_proc modify].
  rewrite bind_files. cbn [on_proc modify]. rewrite bind_try. unfold files at 1. cbn [b_files set_files pw_fs pw_procs pw_suspended].
  set (f0 := b_files w) in *. set (l1 := updZ (pw_procs f0) SAVED _). set (f1 := Fsproc (pw_fs f0) (updZ l1 APP empty_fproc) (pw_suspended f0)).
  assert (Hl1 : length l1 = length (pw_procs f0)) by apply length_insert.
  assert (Hsv : record f1 SAVED = record f0 APP).
  { unfold record at 1, f1. cbn [pw_procs]. change l1 with (pw_procs (Fsproc (pw_fs f0) l1 (pw_suspended f0))).
    rewrite record_upd by (unfold APP, SAVED; lia). apply record_same. unfold SAVED. lia. }
  pose proof (app_only_clone SAVED pid f1) as Hk. destruct (cp32_fproc_clone APP SAVED pid f1) as [[e|[]] f2]; cbn [snd] in Hk;
    destruct Hk as (K1 & K2 & K3); cbn [pw_procs f1] in K1; unfold updZ in K1; rewrite length_insert in K1.
  - rewrite bind_files. cbn [proc gets]. rewrite bind_files. cbn [on_proc modify]. eexists. split; [reflexivity|].
    cbn [pw_procs pw_suspended pw_fs b_files set_files]. split; [unfold lenZ, updZ; rewrite length_insert; lia|]. split; [|done].
    unfold record at 1. cbn [pw_procs]. rewrite record_same by (unfold lenZ, APP in *; lia).
    rewrite <- Hsv. by apply (K3 SAVED).
  - eexists. split; [reflexivity|]. cbn [pw_procs pw_suspended pw_fs b_files set_files]. split; [unfold lenZ; lia|]. split; [|done].
    rewrite <- Hsv. by apply (K3 SAVED).
Qed.

(** The restore closes the child's descriptors: the table is the parent's and the
    rest's again. *)
Lemma files_restore_owned rest (w : broker E) :
  3 <= lenZ (pw_procs (b_files w)) -> length (p_fds (record (b_files w) SAVED)) = 4%nat ->
  let h := handles (record (b_files w) SAVED) in
  good (h ++ rest) (b_files w) ->
  let w1 := snd (cp32_shell_app_files_restore w) in
  good rest (b_files w1) /\ same_at (h ++ rest) (fd_tables (b_files w)) (fd_tables (b_files w1)).
Proof.
  intros Hl Hfds h Hg. set (f0 := b_files w) in *. pose proof (good_holding APP (h ++ rest) f0 Hg) as Hh.
  pose proof (hold_exit APP (h ++ rest) f0 (record f0 APP) (fun _ _ => False) f0 Hh) as He.
  destruct (exit_run f0) as (f1 & E1 & A1 & A2 & A3). rewrite E1 in He. destruct He as [H1 H2 H3 H4 H5 H6].
  unfold cp32_shell_app_files_restore, files, bind. fold f0. rewrite E1. cbn [proc gets on_proc modify set_suspended files snd b_files set_files pw_fs pw_procs].
  set (f2 := Fsproc _ _ _). change (fd_tables f2) with (fd_tables f1).
  assert (ER : record f2 APP = record f0 SAVED).
  { unfold f2, record at 1. cbn [pw_procs]. rewrite record_same by done. by apply A3. }
  split; [constructor|exact H6].
  - unfold f2. cbn [pw_procs]. by rewrite lenZ_upd.
  - by rewrite ER.
  - rewrite ER. by apply owned_shift.
Qed.

(** The clone of a fork takes descriptors for the child; a refused one takes none. *)
Lemma files_fork_owned pid rest (w : broker E) :
  3 <= lenZ (pw_procs (b_files w)) -> good rest (b_files w) ->
  let X := record (b_files w) APP in
  let (r, w1) := cp32_shell_app_files_fork pid w in
  match r with
  | Ok _ => good (handles X ++ rest) (b_files w1) /\ same_at (handles X ++ rest) (fd_tables (b_files w)) (fd_tables (b_files w1)) /\
            child_of X pid (fd_tables (b_files w1)) (record (b_files w1) APP)
  | Err _ => good rest (b_files w1) /\ fd_tables (b_files w1) = fd_tables (b_files w)
  end.
Proof.
  intros Hl [Gr Gf Go] X. pose proof (files_fork_spec pid w Hl) as HF. unfold cp32_shell_app_files_fork in *.
  rewrite bind_files in *. cbn [proc gets] in *. rewrite bind_files in *. cbn [on_proc modify] in *.
  rewrite bind_files in *. cbn [on_proc modify] in *. rewrite bind_try in *. unfold files at 1 in HF. unfold files at 1. cbn [b_files set_files pw_fs pw_procs pw_suspended] in *.
  set (f0 := b_files w) in *. set (l1 := updZ (pw_procs f0) SAVED _) in *. set (f1 := Fsproc (pw_fs f0) (updZ l1 APP empty_fproc) (pw_suspended f0)) in *.
  assert (Hl1 : length l1 = length (pw_procs f0)) by apply length_insert.
  assert (Hsv : record f1 SAVED = X).
  { unfold record at 1, f1. cbn [pw_procs]. change l1 with (pw_procs (Fsproc (pw_fs f0) l1 (pw_suspended f0))).
    rewrite record_upd by (unfold APP, SAVED; lia). apply record_same. unfold SAVED. lia. }
  assert (Hap : record f1 APP = empty_fproc).
  { unfold record, f1. cbn [pw_procs]. apply (record_same (Fsproc (pw_fs f0) l1 None)). unfold lenZ, APP in *. cbn [pw_procs]. lia. }
  assert (Hg : good (handles X ++ rest) f1).
  { constructor; [unfold lenZ, f1 in *; cbn [pw_procs]; unfold updZ; rewrite length_insert; lia|by rewrite Hap|]. rewrite Hap. by apply owned_shift. }
  pose proof (clone_run APP (handles X ++ rest) pid SAVED f1 Hg) as Hc. rewrite Hap, Hsv in Hc.
  specialize (Hc eq_refl ltac:(unfold SAVED; lia) ltac:(done) Gf ltac:(intros d Hd; apply in_or_app; by left)).
  destruct (cp32_fproc_clone APP SAVED pid f1) as [[e|[]] f2].
  - destruct Hc as [([G1 G2 G3] & _ & Hsame) Hnone]. rewrite bind_files in *. cbn [proc gets] in *. rewrite bind_files in *. cbn [on_proc modify] in *.
    destruct HF as (f & Ef & Hlf & HR & _). apply (f_equal b_files) in Ef. cbn [b_files set_files] in *. rewrite Ef. rewrite Hnone in G3. apply (proj1 (owned_shift _ _ _)) in G3.
    assert (Et : fd_tables f = fd_tables f2) by (by rewrite <- Ef). change (good rest f /\ fd_tables f = fd_tables f0). split.
    + constructor; [unfold APP, lenZ in *; lia|by rewrite HR|by rewrite HR, Et].
    + rewrite Et. exact (owned_same _ _ _ _ Go G3 Hsame).
  - destruct Hc as [([G1 G2 G3] & _ & Hsame) Hch]. refine (conj _ (conj Hsame Hch)).
    constructor; [exact G1|exact G2|exact G3].
Qed.
End Records.

#[export] Existing Instance app_only_preorder.
#[export] Hint Resolve app_only_fs app_only_proc app_only_on app_only_ignore : keeps.

(** ** Starting a fork *)
Section Start.
Context {E : Type} `{DSK : Disk E} `{TRAP : Transport} (heap_base heap_size : Z).
Hypothesis Hb : 0 < heap_base.
Hypothesis Hs : 0 <= heap_size.
Hypothesis He : heap_base + heap_size <= 0x100000.
Hypothesis Hmm : forall k, sendrec_status k MM_PROC_NR = OK.
(** The heap of the memory service does not overlap the image. *)
Hypothesis Hdisjoint : (heap_base + heap_size) * 4096 <= IMAGE_BASE \/ IMAGE_BASE + IMAGE_BYTES <= heap_base * 4096.
Abbreviation heap_ok := (heap_ok heap_base heap_size).
Abbreviation gained := (gained heap_base heap_size).
Abbreviation cp32_fork_start := (cp32_fork_start (E := E) heap_base heap_size).
Abbreviation fork_free := (fork_free (E := E) heap_base heap_size).

(** The broker between two requests of the foreground program. *)
Record broker_ok (w : broker E) (C Q : Z -> list Z) (H : list Z) : Prop := {
  bo_procs : procs_ok (b_k w) C Q H;
  bo_heap : heap_ok (b_heap w);
  bo_fs : fs_valid (b_k w);
  bo_records : 3 <= lenZ (pw_procs (b_files w));
  bo_waits : lenZ (f_waits (b_forked w)) = 8;
  bo_child : exists n, LOW_USER < n < NR_PROCS /\ b_child w = proc_addr (b_k w) n }.

(** The image of the program, and its copy in the region at click [base]. *)
Definition image_of (k : kst) (a : Z) : Z := k_mem k (IMAGE_BASE + a).
Definition copy_at (base : Z) (k : kst) (a : Z) : Z := k_mem k (base * CLICK_SIZE + a).

Lemma bind_kernel {A B} (c : KM A) (k : A -> M (broker E) B) w :
  bind (kernel c) k w = let (r, x) := c (b_k w) in match r with Err e => (Err e, set_k x w) | Ok a => k a (set_k x w) end.
Proof. unfold bind, kernel. by destruct (c (b_k w)) as [[e|a] x]. Qed.

Lemma clone_first_spec parent pid slots k :
  (exists n, LOW_USER < n < NR_PROCS /\ parent = proc_addr k n /\ p_nr (k_proc k parent) = n) ->
  exists c k', clone_first parent pid slots k = (Ok c, k') /\
  (c = NIL_PROC /\ k' = k \/
   exists n, In n slots /\ c = proc_addr k n /\ bad_clone k (p_nr (k_proc k parent)) n pid FS_PROC_NR = false /\
     k' = set_proc c (cloned n pid (k_proc k parent)) k).
Proof.
  intros (np & Hnp & Hp & Hnr). induction slots as [|n slots IH]; cbn [clone_first].
  { exists NIL_PROC, k. split; [done|by left]. }
  rewrite bind_gets. destruct (p_flags _ =? P_SLOT_FREE); cbn [negb].
  2: { destruct IH as (c & k' & -> & H). exists c, k'. split; [done|]. destruct H as [?|(m & ? & ?)]; [by left|right].
       exists m. split; [by right|done]. }
  rewrite bind_gets, bind_try. unfold cp32_proc_clone. rewrite bind_gets, bind_guard.
  destruct (bad_clone _ _ _ _ _) eqn:Ebad.
  - destruct IH as (c & k' & -> & H). exists c, k'. split; [done|]. destruct H as [?|(m & ? & ?)]; [by left|right].
    exists m. split; [by right|done].
  - cbn. eexists _, _. split; [done|]. right. exists n. split; [by left|]. split; [done|]. split; [done|].
    rewrite Hnr, <- Hp. done.
Qed.

(** What a successful fork leaves; slot [n] is the child's. *)
Record started (w w1 : broker E) (pid base n slot : Z) : Prop := {
  st_pid : 0 < pid /\ waiting (f_waits (b_forked w)) pid = false;
  st_slot : slot = free_wait (f_waits (b_forked w)) /\ 0 <= slot;
  st_idle : f_parent (b_forked w) = NIL_PROC;
  st_forked : b_forked w1 = Forked (b_child w) base (b_floor w) (b_brk w) (b_ppid w) slot (f_waits (b_forked w));
  st_region : gained (b_heap w) (b_heap w1) base FORK_CLICKS FS_PROC_NR;
  st_heap : heap_ok (b_heap w1);
  st_copy : forall a, 0 <= a < IMAGE_BYTES -> copy_at base (b_k w1) a = image_of (b_k w) a;
  st_mem : forall a, a < base * CLICK_SIZE \/ base * CLICK_SIZE + IMAGE_BYTES <= a -> k_mem (b_k w1) a = k_mem (b_k w) a;
  st_record : record (b_files w1) SAVED = record (b_files w) APP /\ pw_suspended (b_files w1) = Some SAVED /\
              lenZ (pw_procs (b_files w1)) = lenZ (pw_procs (b_files w));
  st_child : LOW_USER < n < NR_PROCS /\ b_child w1 = proc_addr (b_k w) n /\ b_child w1 <> b_child w /\
             k_proc (b_k w1) (b_child w1) = set_p_flags RECEIVING (cloned n pid (k_proc (b_k w) (b_child w)));
  st_others : k_addr (b_k w1) = k_addr (b_k w) /\
              forall x, x <> b_child w1 -> k_proc (b_k w1) x = k_proc (b_k w) x;
  st_run : b_ppid w1 = Ktypes.p_pid (k_proc (b_k w) (b_child w)) /\ b_floor w1 = b_floor w /\ b_brk w1 = b_brk w }.

(** A refused fork: what the program can see is as before, and no memory is lost. *)
Record refused (w w1 : broker E) : Prop := {
  rf_forked : b_forked w1 = b_forked w;
  rf_run : b_child w1 = b_child w /\ b_ppid w1 = b_ppid w /\ b_floor w1 = b_floor w /\ b_brk w1 = b_brk w;
  rf_procs : k_proc (b_k w1) = k_proc (b_k w) /\ k_addr (b_k w1) = k_addr (b_k w);
  rf_image : forall a, 0 <= a < IMAGE_BYTES -> image_of (b_k w1) a = image_of (b_k w) a;
  rf_record : record (b_files w1) APP = record (b_files w) APP;
  rf_heap : heap_ok (b_heap w1) /\ same_held (b_heap w) (b_heap w1) }.

Lemma region_range a a' r :
  gained a a' r FORK_CLICKS FS_PROC_NR ->
  0 < r < 0x100000 /\ r <<u CLICK_SHIFT = r * CLICK_SIZE /\ r * CLICK_SIZE + IMAGE_BYTES <= 4294967296 /\
  (r * CLICK_SIZE + IMAGE_BYTES <= IMAGE_BASE \/ IMAGE_BASE + IMAGE_BYTES <= r * CLICK_SIZE).
Proof.
  intros (H1 & H2 & _). change FORK_CLICKS with 9 in *. unfold CLICK_SHIFT, CLICK_SIZE, IMAGE_BYTES in *.
  rewrite Z.shiftl_mul_pow2 by lia. change (2 ^ 12) with 4096. rewrite wrap32_small by lia. lia.
Qed.

Lemma copied base k :
  base * CLICK_SIZE + IMAGE_BYTES <= IMAGE_BASE \/ IMAGE_BASE + IMAGE_BYTES <= base * CLICK_SIZE ->
  let k' := phys_copy IMAGE_BASE (base * CLICK_SIZE) IMAGE_BYTES k in
  (forall a, 0 <= a < IMAGE_BYTES -> copy_at base k' a = image_of k a) /\
  (forall a, a < base * CLICK_SIZE \/ base * CLICK_SIZE + IMAGE_BYTES <= a -> k_mem k' a = k_mem k a) /\
  (forall a, 0 <= a < IMAGE_BYTES -> image_of k' a = image_of k a).
Proof.
  intros Hd k'. assert (Hl : lenZ (mem_read (k_mem k) IMAGE_BASE IMAGE_BYTES) = IMAGE_BYTES) by (by apply lenZ_mem_read).
  unfold k', phys_copy, copy_at, image_of. cbn [k_mem set_k_mem]. split_and!; intros a Ha.
  - rewrite mem_write_in by lia. rewrite nthZ_mem_read by lia. f_equal. lia.
  - apply mem_write_out. rewrite Hl. lia.
  - apply mem_write_out. rewrite Hl. lia.
Qed.

Lemma procs_ok_same k k' C Q H :
  procs_ok k C Q H -> (forall x, k_proc k' x = k_proc k x) -> k_addr k' = k_addr k -> k_held_head k' = k_held_head k ->
  k_rdy_head k' = k_rdy_head k -> k_rdy_tail k' = k_rdy_tail k -> procs_ok k' C Q H.
Proof.
  intros HP Hx Ha Hh H1 H2. apply (procs_ok_core k _ C Q); try done; [intros x; by rewrite Hx|].
  apply (ready_ok_ext k); try done; [apply HP|]. intros x. by rewrite Hx.
Qed.

(** The allocator after the region it gave was taken back. *)
Lemma gained_back n a a' a2 base :
  heap_ok a' -> gained a a' base n FS_PROC_NR ->
  (forall b s o, held a2 b s o <-> held a' b s o /\ b <> base) -> same_held a a2.
Proof.
  intros Ha (_ & _ & Hn & Hd & Hh) H' b s o. rewrite H', Hh. split; [intros [[?|(-> & _)] Hne]; done|].
  intros H0. split; [by left|]. intros ->. pose proof (Hd _ _ _ H0) as Hor.
  destruct (held_first heap_base heap_size a' base s o n FS_PROC_NR Ha) as [-> _]; [apply Hh; by left|apply Hh; by right|lia].
Qed.

(** A refusal after the region was taken: it is given back. *)
Lemma give_back n base (w : broker E) a0 :
  heap_ok (b_heap w) -> fs_valid (b_k w) -> gained a0 (b_heap w) base n FS_PROC_NR ->
  exists a, fork_free base w = (Ok tt, set_heap a w) /\ heap_ok a /\ same_held a0 a.
Proof.
  intros Ha Hv Hg. pose proof Hg as (Hlow & Htop & Hn & _ & Hh).
  destruct (fork_free_spec heap_base heap_size Hb Hs He Hmm base n w Ha Hv) as (a & E1 & Ha' & H'); [|lia|].
  { apply Hh. by right. }
  exists a. split; [done|]. split; [done|]. by apply (gained_back n _ (b_heap w) _ base).
Qed.

(** The first free entry of the wait table lies in it. *)
Lemma free_wait_spec l : - 1 <= free_wait l < 8 /\ (0 <= free_wait l -> fst (wait_at l (free_wait l)) = 0).
Proof.
  unfold free_wait. change (upto 0 8) with [0; 1; 2; 3; 4; 5; 6; 7].
  assert (H : forall ns slot, Forall (fun n => 0 <= n < 8) ns -> -1 <= slot < 8 -> (0 <= slot -> fst (wait_at l slot) = 0) ->
    let s := fold_left (fun slot n => if fst (wait_at l n) =? 0 then n else slot) ns slot in
    -1 <= s < 8 /\ (0 <= s -> fst (wait_at l s) = 0)).
  { induction ns as [|n ns IH]; intros slot HF Hs0 H0; cbn [fold_left]; [done|]. inversion_clear HF as [|? ? Hn HF'].
    destruct (Z.eqb_spec (fst (wait_at l n)) 0); apply IH; done || lia. }
  apply H; [repeat constructor; lia|lia|lia].
Qed.

(** The whole table after the child's slot was filled. *)
Lemma child_ok k C Q H np n pid :
  procs_ok k C Q H -> bad_clone k np n pid FS_PROC_NR = false ->
  procs_ok (set_proc (proc_addr k n) (set_p_flags RECEIVING (cloned n pid (k_proc k (proc_addr k np)))) k) C Q H.
Proof.
  intros HP E0. apply bad_clone_false in E0 as (_ & Hp & Hc & Hne & Hpf & Hpg & Hcf & Hcd & Hpid).
  assert (HT : table_ok k) by apply HP. destruct (user_slot k n HT Hc) as [Hv Hnr]. destruct (user_slot k np HT Hp) as [Hvp _].
  apply replace_ok; try done.
  - by apply detached_spec.
  - apply not_sending. by left.
  - intros Hf. apply (io_frames _ _ (po_ipc _ _ _ _ HP) _ Hvp) in Hf. exact Hf.
  - right. right. by apply pid_fresh.
Qed.

Lemma fs_valid_ext k k' :
  k_addr k' = k_addr k -> k_proc k' (proc_addr k FS_PROC_NR) = k_proc k (proc_addr k FS_PROC_NR) -> fs_valid k -> fs_valid k'.
Proof.
  intros Ea Ep. unfold fs_valid, cp32_mm_source_valid. replace (proc_addr k' FS_PROC_NR) with (proc_addr k FS_PROC_NR) by (unfold proc_addr; by rewrite Ea).
  by rewrite Ep.
Qed.

(** The child after the broker let it wait for its reply. *)
Lemma new_child k C Q H np n pid :
  procs_ok k C Q H -> fs_valid k -> bad_clone k np n pid FS_PROC_NR = false ->
  let c := proc_addr k n in
  let k' := upd c (set_p_flags RECEIVING) (set_proc c (cloned n pid (k_proc k (proc_addr k np))) k) in
  procs_ok k' C Q H /\ fs_valid k' /\ (c =? NIL_PROC) = false /\ c <> proc_addr k np /\
  k_proc k' c = set_p_flags RECEIVING (cloned n pid (k_proc k (proc_addr k np))) /\
  forall x, x <> c -> k_proc k' x = k_proc k x.
Proof.
  intros HP Hfs Hbad c k'. assert (HT : table_ok k) by apply HP.
  destruct (bad_clone_false _ _ _ _ _ Hbad) as (_ & Hp & Hn & Hne & _). destruct (user_slot k n HT Hn) as [Hv _].
  assert (Hother : forall x, x <> c -> k_proc k' x = k_proc k x) by (intros x Hx; unfold k'; by rewrite upd_other, set_proc_other).
  assert (Hsame : k_proc k' c = set_p_flags RECEIVING (cloned n pid (k_proc k (proc_addr k np))))
    by (unfold k'; by rewrite upd_same, set_proc_same).
  split_and!; try done.
  - apply (procs_ok_same _ _ C Q H (child_ok k C Q H np n pid HP Hbad)); try done.
    intros x. destruct (Z.eq_dec x c) as [->|Hx]; [by rewrite Hsame, set_proc_same|by rewrite Hother, set_proc_other].
  - apply (fs_valid_ext k); [done| |done]. apply Hother.
    intros E1%(addr_inj k); try done; unfold endpoint, LOW_USER, FS_PROC_NR, NR_TASKS, NR_PROCS in *; lia.
  - unfold valid_proc, NIL_PROC in *. subst c. lia.
  - intros E1%(addr_inj k); try done; unfold endpoint, LOW_USER, NR_TASKS in *; lia.
Qed.

Lemma fork_start_spec pid (w : broker E) C Q H :
  broker_ok w C Q H ->
  match cp32_fork_start pid w with
  | (Ok _, w1) => exists base n slot, started w w1 pid base n slot /\ broker_ok w1 C Q H
  | (Err _, w1) => refused w w1
  end.
Proof.
  intros [HP Ha Hfs Hrec Hwaits (np & Hnp & Hchild)]. unfold Fork.cp32_fork_start. rewrite !bind_gets.
  assert (Hself : refused w w) by (by constructor).
  rewrite bind_guard. destruct (negb (f_parent (b_forked w) =? NIL_PROC) || (pid <=? 0)) eqn:E1; [done|].
  rewrite bind_guard. destruct (waiting (f_waits (b_forked w)) pid) eqn:E2; [done|]. cbv zeta.
  rewrite bind_guard. destruct (free_wait (f_waits (b_forked w)) <? 0) eqn:E3; [done|].
  destruct (sendrec_allocate heap_base heap_size Hb Hs He Hmm FORK_CLICKS w Ha Hfs) as (r & m & a & ES & Ha' & Hout); [done|].
  unfold bind at 1. rewrite ES. rewrite bind_guard. unfold bad_reply. cbn [fst snd m_source m_type m1_i1].
  destruct Hout as [(-> & Hsame)|(-> & Hm0 & Hm & Hg)]; [by constructor|].
  change ((OK !=? OK) || (MM_PROC_NR !=? MM_PROC_NR) || (OK !=? OK)) with false. rewrite (proj2 (Z.eqb_neq m 0) Hm0). cbn [orb].
  rewrite Hm. pose proof (region_range _ _ _ Hg) as (Hr & Himg & Htop & Hdis). rewrite Himg. rewrite bind_kernel. cbn [modify b_k set_heap].
  pose proof (copied m (b_k w) Hdis) as HC. cbv zeta in HC. set (k1 := phys_copy IMAGE_BASE (m * CLICK_SIZE) IMAGE_BYTES (b_k w)) in *.
  destruct HC as (Hcopy & Hmem & Himage). set (w1 := set_k k1 (set_heap a w)). rewrite bind_try.
  pose proof (files_fork_spec pid w1 Hrec) as HF. destruct (cp32_shell_app_files_fork pid w1) as [[e|[]] w2];
    destruct HF as (f & -> & Hlen & HF1 & HF2).
  - destruct (give_back FORK_CLICKS m (set_files f w1) (b_heap w) Ha' Hfs Hg) as (a2 & E4 & Ha2 & Hs2).
    unfold bind. rewrite E4. cbn. by constructor.
  - rewrite bind_kernel. cbn [b_k set_files w1 set_k].
    assert (HP1 : procs_ok k1 C Q H) by (by apply (procs_ok_same (b_k w))).
    assert (HT : table_ok k1) by apply HP1. destruct (user_slot k1 np HT Hnp) as [Hvp Hnrp].
    destruct (clone_first_spec (b_child w) pid (upto (LOW_USER + 1) NR_PROCS) k1) as (c & k2 & -> & Hc).
    { exists np. split; [done|]. split; [exact Hchild|]. by rewrite Hchild. }
    destruct Hc as [[-> ->]|(n & Hn%in_upto & -> & Hbad & ->)].
    + change (NIL_PROC =? NIL_PROC) with true. cbv iota. unfold bind at 1.
      destruct (files_restore_spec (set_k k1 (set_files f w1))) as (f2 & -> & R1 & R2 & R3 & R4).
      { unfold w1. cbn [b_files set_files set_k] in *. change (b_files w1) with (b_files w) in Hlen. lia. }
      destruct (give_back FORK_CLICKS m (set_files f2 (set_k k1 (set_files f w1))) (b_heap w) Ha' Hfs Hg) as (a2 & E4 & Ha2 & Hs2).
      unfold bind. rewrite E4. cbn. constructor; try done. cbn [b_files set_heap set_files set_k] in *. by rewrite R1, HF1.
    + change (proc_addr (b_k w) np) with (proc_addr k1 np) in Hchild. rewrite Hchild in Hbad |- *. rewrite Hnrp in Hbad.
      destruct (new_child k1 C Q H np n pid HP1 Hfs Hbad) as (HP2 & Hf2 & -> & Hne & Hc & Ho). 
      rewrite !bind_modify. unfold kernel, modify. cbn [b_k set_k set_run set_forked].
      exists m, n, (free_wait (f_waits (b_forked w))). split; [constructor|constructor]; try done; rewrite ?Hchild; try done.
      * apply orb_false_iff in E1 as [_ E1]. split; [lia|done].
      * split; [done|lia].
      * apply orb_false_iff in E1 as [E1 _]. apply negb_false_iff in E1. lia.
      * cbn [b_child b_k set_k set_run set_forked b_files b_heap]. split_and!; try done; lia.
      * cbn [b_child b_k set_k set_run set_forked b_files b_heap set_files w1 set_heap b_floor b_brk]. split_and!; try done. rewrite set_proc_other; done.
      * change (3 <= lenZ (pw_procs f)). change (b_files w1) with (b_files w) in Hlen. lia.
      * exists n. split; [lia|done].
Qed.

(** ** The descriptors across a fork *)
Lemma sendrec_files m (w : broker E) : b_files (snd (sendrec_mm heap_base heap_size m w)) = b_files w.
Proof. unfold sendrec_mm. cbv zeta. repeat case_match; done. Qed.

Lemma fork_free_files base (w : broker E) : b_files (snd (fork_free base w)) = b_files w.
Proof.
  unfold fork_free, Fork.fork_free, bind. pose proof (sendrec_files (Message 0 CP32_MM_RELEASE (to_int base)) w) as H.
  destruct (sendrec_mm _ _ _ w) as [[e|r] w1]; [done|]. unfold guard. by case_match.
Qed.

Lemma total_clone_first parent pid slots : total (clone_first parent pid slots).
Proof.
  induction slots as [|n slots IH]; cbn [clone_first]; [apply total_ret|]. intros k. rewrite bind_gets. case_match; [apply IH|].
  rewrite bind_gets, bind_try. destruct (cp32_proc_clone _ _ _ _ k) as [[e|[]] k']; [apply IH|by eexists].
Qed.

(** A fork gives the child descriptors of its own for the descriptions of its
    parent, whose descriptors stay; a refused one leaves the table as it was. *)
Lemma fork_start_files pid rest (w : broker E) :
  3 <= lenZ (pw_procs (b_files w)) -> good APP rest (b_files w) ->
  let X := record (b_files w) APP in
  match cp32_fork_start pid w with
  | (Ok _, w1) => good APP (handles X ++ rest) (b_files w1) /\ same_at (handles X ++ rest) (fd_tables (b_files w)) (fd_tables (b_files w1)) /\
                  child_of X pid (fd_tables (b_files w1)) (record (b_files w1) APP)
  | (Err _, w1) => good APP rest (b_files w1) /\ fd_tables (b_files w1) = fd_tables (b_files w)
  end.
Proof.
  intros Hl Hg X. pose proof Hg as [Gr Gf Go]. unfold Fork.cp32_fork_start. rewrite !bind_gets, bind_guard. destruct (_ || _); [done|].
  rewrite bind_guard. destruct (waiting _ _); [done|]. cbv zeta. rewrite bind_guard. destruct (_ <? 0); [done|].
  unfold bind at 1. pose proof (sendrec_files (Message 0 CP32_MM_ALLOCATE FORK_CLICKS) w) as H1.
  destruct (sendrec_mm _ _ _ w) as [[e|r] w1]; cbn [snd] in H1; [by rewrite H1|]. rewrite bind_guard. destruct (_ || _); [cbn [fst snd]; by rewrite H1|].
  rewrite bind_kernel. cbn [modify]. set (w2 := set_k _ w1). assert (H2 : b_files w2 = b_files w) by exact H1. rewrite bind_try.
  pose proof (files_fork_owned pid rest w2) as HF. pose proof (files_fork_spec pid w2) as HS. rewrite H2 in HF, HS. specialize (HF Hl Hg). specialize (HS Hl).
  destruct (cp32_shell_app_files_fork pid w2) as [[e|[]] w3]; cbv zeta in HF.
  - unfold bind. pose proof (fork_free_files (wrap32 (m1_i1 r.2)) w3) as H3. destruct (fork_free _ w3) as [[e'|[]] w4]; cbn [snd] in H3; cbn [fail]; by rewrite H3.
  - destruct HS as (f & Ef & Hlf & HR & _). assert (H3 : b_files w3 = f) by (by rewrite Ef).
    rewrite bind_kernel. destruct (total_clone_first (b_child w) pid (upto (LOW_USER + 1) NR_PROCS) (b_k w3)) as [c Hc].
    destruct (clone_first _ _ _ (b_k w3)) as [rc k4]. cbn [fst] in Hc. subst rc. destruct (c =? NIL_PROC); [|exact HF].
    destruct HF as (HG & Hsame & _). set (w4 := set_k k4 w3). change (b_files w3) with (b_files w4) in *.
    pose proof (files_restore_owned rest w4) as HR4. rewrite H3, HR in HR4. rewrite H3 in HG. specialize (HR4 ltac:(lia) Gf HG).
    destruct (files_restore_spec w4) as (f5 & E5 & R5 & _); [rewrite H3; lia|]. rewrite E5 in HR4. destruct HR4 as [HG5 HS5].
    unfold bind. rewrite E5. pose proof (fork_free_files (wrap32 (m1_i1 r.2)) (set_files f5 w4)) as H6.
    destruct (fork_free _ _) as [[e'|[]] w6]; cbn [snd] in H6; cbn [fail]; rewrite H6.
    all: split; [exact HG5|]; pose proof (gd_owned _ _ _ HG5) as G5; cbn [b_files set_files snd] in *; rewrite R5, H3, HR in G5;
      apply (owned_same _ _ _ _ Go G5); etransitivity; [exact Hsame|by rewrite H3].
Qed.
End Start.
