(* ===== verification/ForkJoin.v ===== *)
(** * The exit of a forked child and the wait of its parent

    [fork_finish_spec] says what the exit brings back, [fork_round_trip] joins it
    to the start: whatever the child did in between, the parent goes on with the
    image, descriptors, break and parent pid it had, the child's descriptors are
    closed, the copy's memory is free and one [wait] reports the child. *)
From S2P Require Import Prelude Codec Kconst FsTypes MemDisk FdTable Alloc Ktypes Sched Ipc IpcSpec Process Mm Storage.
From S2P Require Import Fproc Appfile Signals Fork ForkFiles ForkSpec.
From S2P Require Image.

(** ** The child's descriptor *)
Definition detached_links (rp : Ktypes.proc) : Prop :=
  p_nextready rp = 0 /\ p_nextheld rp = 0 /\ p_int_held rp = 0 /\ p_int_blocked rp = 0.

Lemma detached_fields k p : process_detached k p = true -> detached_links (k_proc k p).
Proof.
  unfold process_detached, detached_links. rewrite !andb_true_iff, negb_true_iff, !orb_false_iff, !truthy_false. tauto.
Qed.

(** A change of times leaves a slot that can be released releasable. *)
Lemma timeless_release k k' C Q H p :
  procs_ok k C Q H -> procs_ok k' C Q H ->
  (forall x, timeless (k_proc k' x) = timeless (k_proc k x) /\ p_nextready (k_proc k' x) = p_nextready (k_proc k x)) ->
  k_addr k' = k_addr k -> k_current k' = k_current k -> k_proc_ptr k' = k_proc_ptr k ->
  bad_release k p = false -> bad_release k' p = false.
Proof.
  intros HP HP' Hx Ea Ec Eo Hbad. destruct (release_ok k C Q H p HP Hbad) as (n & _ & _ & _ & _ & _ & _ & Hd & _).
  unfold bad_release, bad_slot, proc_addr in *. rewrite Ea. destruct (Hx p) as [Ht Hn].
  rewrite !(timeless_field p_nr _ _ (fun _ => eq_refl) Ht), !(timeless_field p_flags _ _ (fun _ => eq_refl) Ht),
    (timeless_field p_getfrom _ _ (fun _ => eq_refl) Ht).
  rewrite !orb_false_iff in *. destruct Hbad as [[Hs Hdet%negb_false_iff] Hf]. split; [split; [done|]|done]. apply negb_false_iff.
  destruct (detached_fields _ _ Hdet) as (F1 & F2 & F3 & F4). apply (detached_complete k' C Q H); [done|..].
  - destruct Hd as (D1 & D2 & D3 & D4 & D5 & D6 & D7). unfold detached.
    rewrite Ec, Eo, (timeless_field p_callerq _ _ (fun _ => eq_refl) Ht), (timeless_field p_sendlink _ _ (fun _ => eq_refl) Ht). done.
  - by rewrite Hn.
  - by rewrite (timeless_field p_nextheld _ _ (fun _ => eq_refl) Ht).
  - by rewrite (timeless_field p_int_held _ _ (fun _ => eq_refl) Ht).
  - by rewrite (timeless_field p_int_blocked _ _ (fun _ => eq_refl) Ht).
Qed.

(** The parent with the times of its child. *)
Definition with_times (c p : Ktypes.proc) : Ktypes.proc :=
  set_child_stime (to_int (child_stime p + to_int (sys_time c + child_stime c)))
    (set_child_utime (to_int (child_utime p + to_int (user_time c + child_utime c))) p).

Lemma child_times_ok k C Q H parent child :
  procs_ok k C Q H -> bad_release k child = false -> parent <> child ->
  let k' := add_child_times parent child k in
  procs_ok k' C Q H /\ bad_release k' child = false /\ k' = set_k_proc (k_proc k') k /\
  (forall x, x <> parent -> x <> child -> k_proc k' x = k_proc k x) /\
  k_proc k' child = set_child_stime 0 (set_child_utime 0 (set_sys_time 0 (set_user_time 0 (k_proc k child)))) /\
  k_proc k' parent = with_times (k_proc k child) (k_proc k parent).
Proof.
  intros HP Hbad Hne k'.
  assert (Ho : forall x, x <> parent -> x <> child -> k_proc k' x = k_proc k x)
    by (intros x H1 H2; unfold k', add_child_times; by rewrite !upd_other).
  assert (Hc : k_proc k' child = set_child_stime 0 (set_child_utime 0 (set_sys_time 0 (set_user_time 0 (k_proc k child)))))
    by (unfold k', add_child_times; by rewrite upd_same, upd_other by done).
  assert (Hp : k_proc k' parent = with_times (k_proc k child) (k_proc k parent))
    by (unfold k', add_child_times; by rewrite upd_other, upd_same by done).
  assert (Hx : forall x, timeless (k_proc k' x) = timeless (k_proc k x) /\ p_nextready (k_proc k' x) = p_nextready (k_proc k x)).
  { intros x. destruct (Z.eq_dec x child) as [->|H1]; [by rewrite Hc|]. destruct (Z.eq_dec x parent) as [->|H2]; [by rewrite Hp|by rewrite Ho]. }
  assert (HP' : procs_ok k' C Q H).
  { apply (procs_ok_timeless k _ C Q); try done; [apply Hx|]. apply (ready_ok_ext k); try done; [apply HP|].
    intros x. destruct (Hx x) as [Ht Hn]. split_and!; [done| |]; by apply timeless_field. }
  split_and!; try done. by apply (timeless_release k k' C Q H).
Qed.

Lemma release_run k p :
  bad_release k p = false -> cp32_proc_release p k = (Ok tt, settled (p_nr (k_proc k p)) p k).
Proof. intros E. unfold cp32_proc_release. rewrite bind_gets, bind_guard, E. done. Qed.

Lemma account_off_table p k : account p k = set_k_proc (k_proc (account p k)) k.
Proof. by destruct (account_spec k p) as (_ & _ & _ & ?). Qed.

Lemma forget_mem p k : k_mem (forget p k) = k_mem k.
Proof. unfold forget. cbv zeta. repeat case_match; done. Qed.

Lemma settled_mem n p k : k_mem (settled n p k) = k_mem k.
Proof. unfold settled. change (k_mem (set_proc p (free_slot n) ?k)) with (k_mem k). rewrite forget_mem. by rewrite account_off_table. Qed.

(** What releasing a waiting child leaves of the table. *)
Lemma settled_spec k C Q H p :
  procs_ok k C Q H -> bad_release k p = false ->
  let n := p_nr (k_proc k p) in
  let k' := settled n p k in
  LOW_USER < n < NR_PROCS /\ p = proc_addr k n /\ procs_ok k' C Q H /\ k_addr k' = k_addr k /\ k_proc k' p = free_slot n /\
  (forall x, x <> p -> x <> proc_addr k FS_PROC_NR -> k_proc k' x = k_proc k x) /\
  core (k_proc k' (proc_addr k FS_PROC_NR)) = core (k_proc k (proc_addr k FS_PROC_NR)).
Proof.
  intros HP Hbad. destruct (release_ok k C Q H p HP Hbad) as (n & Hn & Hp & Hnr & _ & Hfs & Hv & Hd & HP').
  rewrite Hnr. cbv zeta. destruct (settle_ok k C Q H p HP Hfs Hd Hv) as (_ & _ & Ea & Fp & _).
  destruct (account_spec k p) as (Hcore & Hsame & _). split_and!; try done; try lia; unfold settled.
  - by rewrite set_proc_same.
  - intros x H1 H2. rewrite set_proc_other, Fp by done. by apply Hsame.
  - rewrite set_proc_other, Fp by done. apply Hcore.
Qed.

Lemma fs_valid_core k k' :
  k_addr k' = k_addr k -> core (k_proc k' (proc_addr k FS_PROC_NR)) = core (k_proc k (proc_addr k FS_PROC_NR)) ->
  fs_valid k -> fs_valid k'.
Proof.
  intros Ea Ep. unfold fs_valid, cp32_mm_source_valid, proc_addr in *. rewrite Ea.
  by rewrite (core_field p_flags _ _ (fun _ => eq_refl) Ep), (core_field p_nr _ _ (fun _ => eq_refl) Ep).
Qed.

(** The kernel after the exit of [child]: times added, slot released, image back. *)
Definition reaped (parent child base : Z) (k : kst) : kst :=
  let k := add_child_times parent child k in
  phys_copy (base * CLICK_SIZE) IMAGE_BASE IMAGE_BYTES (settled (p_nr (k_proc k child)) child k).

Lemma reaped_spec k C Q H np child base :
  procs_ok k C Q H -> fs_valid k -> bad_release k child = false -> LOW_USER < np < NR_PROCS -> proc_addr k np <> child ->
  let parent := proc_addr k np in
  let k' := reaped parent child base k in
  bad_release (add_child_times parent child k) child = false /\
  procs_ok k' C Q H /\ fs_valid k' /\ k_addr k' = k_addr k /\
  (forall a, 0 <= a < IMAGE_BYTES -> image_of k' a = copy_at base k a) /\
  k_proc k' child = free_slot (p_nr (k_proc k child)) /\ k_proc k' parent = with_times (k_proc k child) (k_proc k parent).
Proof.
  intros HP Hfs Hbad Hnp Hne. cbv zeta. unfold reaped. set (parent := proc_addr k np) in *.
  destruct (child_times_ok k C Q H parent child HP Hbad Hne) as (HP1 & Hbad1 & Hk1 & Ho1 & Hc1 & Hp1). cbv zeta in *.
  set (k1 := add_child_times parent child k) in *.
  destruct (settled_spec k1 C Q H child HP1 Hbad1) as (Hn & Hp & HP2 & Ea2 & Hc2 & Ho2 & Hcore). cbv zeta in *.
  assert (HT : table_ok k) by apply HP. assert (Ea1 : k_addr k1 = k_addr k) by (by rewrite Hk1).
  assert (Hpa : forall n, proc_addr k1 n = proc_addr k n) by (intros; unfold proc_addr; by rewrite Ea1).
  rewrite Hpa in *. assert (Hfp : proc_addr k FS_PROC_NR <> parent /\ proc_addr k FS_PROC_NR <> child).
  { rewrite Hp. unfold parent. split; intros E1%(addr_inj k); try done; unfold endpoint, LOW_USER, FS_PROC_NR, NR_TASKS, NR_PROCS in *; lia. }
  destruct Hfp as [Hf1 Hf2]. assert (Hm : k_mem (settled (p_nr (k_proc k1 child)) child k1) = k_mem k) by (rewrite settled_mem; by rewrite Hk1).
  set (k2 := settled (p_nr (k_proc k1 child)) child k1) in *.
  split_and!; try done.
  - by apply (procs_ok_same k2).
  - change (fs_valid k2). apply (fs_valid_core k1); [done|by rewrite Hpa|]. by apply (fs_valid_ext k); [|apply Ho1|].
  - intros a Ha. unfold image_of, phys_copy, copy_at. cbn [k_mem set_k_mem].
    rewrite mem_write_in by (rewrite lenZ_mem_read by done; lia). rewrite nthZ_mem_read by lia. rewrite Hm. f_equal. lia.
  - change (k_proc k2 child = free_slot (p_nr (k_proc k child))). by rewrite Hc2, Hc1.
  - change (k_proc k2 parent = with_times (k_proc k child) (k_proc k parent)). by rewrite Ho2, Hp1.
Qed.

(** ** The wait table *)
Lemma wait_at_same l n e : 0 <= n < lenZ l -> wait_at (updZ l n e) n = e.
Proof. intros Hn. unfold wait_at, updZ, lenZ in *. rewrite nth_lookup, list_lookup_insert_eq by lia. done. Qed.

Lemma wait_at_other l n m e : 0 <= n -> 0 <= m -> n <> m -> wait_at (updZ l n e) m = wait_at l m.
Proof. intros Hn Hm Hne. unfold wait_at, updZ. rewrite !nth_lookup, list_lookup_insert_ne by lia. done. Qed.

Lemma not_waiting l pid n : 0 < pid -> waiting l pid = false -> fst (wait_at l n) <> pid.
Proof.
  intros Hpid Hw E1. unfold wait_at in E1. destruct (Nat.lt_ge_cases (Z.to_nat n) (length l)) as [Hn|Hn].
  - apply not_true_iff_false in Hw. apply Hw. unfold waiting. apply existsb_exists. eexists. split; [by apply nth_In|].
    apply Z.eqb_eq. exact E1.
  - rewrite nth_overflow in E1 by done. cbn in E1. lia.
Qed.

(** One entry for [pid]: a wait for it finds it. *)
Lemma wait_found l n pid :
  0 < pid -> 0 <= n < 8 -> fst (wait_at l n) = pid -> (forall m, 0 <= m -> m <> n -> fst (wait_at l m) <> pid) ->
  wait_slot l pid = Some n.
Proof.
  intros Hpid Hn E1 Ho. unfold wait_slot. match goal with |- List.find ?f _ = _ => pose proof (find_upto f 0 8) as Hf end.
  destruct (List.find _ _) as [m|].
  - destruct Hf as (Hm & Hf & _). f_equal. destruct (Z.eq_dec m n) as [|Hne]; [done|]. exfalso. apply (Ho m); [lia|done|].
    apply andb_true_iff in Hf as [_ Hf]. apply orb_true_iff in Hf. lia.
  - specialize (Hf n Hn). cbv beta in Hf. rewrite E1, (proj2 (truthy_true pid)), Z.eqb_refl, orb_true_r in Hf by lia. done.
Qed.

Lemma wait_none l pid : 0 < pid -> (forall m, 0 <= m -> fst (wait_at l m) <> pid) -> wait_slot l pid = None.
Proof.
  intros Hpid Ho. unfold wait_slot. match goal with |- List.find ?f _ = _ => pose proof (find_upto f 0 8) as Hf end.
  destruct (List.find _ _) as [m|]; [|done]. destruct Hf as (Hm & Hf & _). exfalso. apply (Ho m); [lia|].
  apply andb_true_iff in Hf as [_ Hf]. apply orb_true_iff in Hf. lia.
Qed.

Section Finish.
Context {E : Type} `{DSK : Disk E} `{TRAP : Transport} (heap_base heap_size : Z).
Hypothesis Hb : 0 < heap_base.
Hypothesis Hs : 0 <= heap_size.
Hypothesis He : heap_base + heap_size <= 0x100000.
Hypothesis Hmm : forall k, sendrec_status k MM_PROC_NR = OK.
Hypothesis Hdisjoint : (heap_base + heap_size) * 4096 <= IMAGE_BASE \/ IMAGE_BASE + IMAGE_BYTES <= heap_base * 4096.
Abbreviation heap_ok := (heap_ok heap_base heap_size).
Abbreviation gained := (gained heap_base heap_size).
Abbreviation cp32_fork_start := (cp32_fork_start (E := E) heap_base heap_size).
Abbreviation cp32_fork_finish := (cp32_fork_finish (E := E) heap_base heap_size).
Abbreviation broker_ok := (broker_ok (E := E) heap_base heap_size).
Abbreviation started := (started (E := E) heap_base heap_size).

(** The child of user slot [n] has called exit: it waits for the broker, and its
    parent in slot [np] and the copied image at [base] are still there. *)
Record exiting (w : broker E) (base np : Z) : Prop := {
  ex_parent : LOW_USER < np < NR_PROCS /\ f_parent (b_forked w) = proc_addr (b_k w) np /\
              f_parent (b_forked w) <> b_child w;
  ex_base : f_base (b_forked w) = base /\ held (b_heap w) base FORK_CLICKS FS_PROC_NR;
  ex_region : 0 < base < 0x100000 /\ base <<u CLICK_SHIFT = base * CLICK_SIZE;
  ex_child : bad_release (b_k w) (b_child w) = false }.

(** The broker after the exit with [status] of the child. *)
Record resumed (w w1 : broker E) (base status : Z) : Prop := {
  rs_run : b_child w1 = f_parent (b_forked w) /\ b_ppid w1 = f_ppid (b_forked w) /\ b_floor w1 = f_floor (b_forked w) /\
           b_brk w1 = f_brk (b_forked w);
  rs_idle : f_parent (b_forked w1) = NIL_PROC;
  rs_waits : f_waits (b_forked w1) =
    updZ (f_waits (b_forked w)) (f_slot (b_forked w)) (Ktypes.p_pid (k_proc (b_k w) (b_child w)), wait_status status);
  rs_image : forall a, 0 <= a < IMAGE_BYTES -> image_of (b_k w1) a = copy_at base (b_k w) a;
  rs_record : record (b_files w1) APP = record (b_files w) SAVED /\ pw_suspended (b_files w1) = None;
  rs_free : forall b s o, held (b_heap w1) b s o <-> held (b_heap w) b s o /\ b <> base;
  rs_child : k_proc (b_k w1) (b_child w) = free_slot (p_nr (k_proc (b_k w) (b_child w)));
  rs_parent : k_proc (b_k w1) (f_parent (b_forked w)) =
    with_times (k_proc (b_k w) (b_child w)) (k_proc (b_k w) (f_parent (b_forked w))) }.

Lemma fork_finish_spec status (w : broker E) C Q H base np :
  broker_ok w C Q H -> exiting w base np ->
  exists w1, cp32_fork_finish status w = (Ok (Ktypes.p_pid (k_proc (b_k w) (b_child w))), w1) /\
  broker_ok w1 C Q H /\ resumed w w1 base status.
Proof.
  intros [HP Ha Hfs Hrec Hwaits Hchild] [(Hnp & Hpar & Hne) (Hbase & Hheld) (Hr & Himg) Hbad].
  unfold Fork.cp32_fork_finish. rewrite !bind_gets, Hbase, Himg, bind_modify. unfold bind at 1.
  destruct (files_restore_spec (set_forked (set_waits (updZ (f_waits (b_forked w)) (f_slot (b_forked w))
    (Ktypes.p_pid (k_proc (b_k w) (b_child w)), wait_status status)) (b_forked w)) w)) as (f & -> & R1 & R2 & R3 & R4); [done|].
  rewrite bind_kernel. cbn [modify b_k set_k set_files set_forked]. rewrite bind_try. unfold kernel at 1. cbn [b_k set_k].
  rewrite Hpar in *.
  destruct (reaped_spec (b_k w) C Q H np (b_child w) base HP Hfs Hbad Hnp Hne) as (Hbad1 & HP3 & Hf3 & Ea3 & Him & Hc3 & Hp3).
  rewrite release_run by done. rewrite bind_kernel. cbn [modify b_k set_k]. rewrite !bind_modify.
  fold (reaped (proc_addr (b_k w) np) (b_child w) base (b_k w)) in *. set (k3 := reaped _ _ _ _) in *.
  change (phys_copy _ _ _ _) with k3. cbn [b_k b_files b_heap b_forked b_child b_ppid b_floor b_brk set_k set_run set_forked set_files set_waits f_floor f_brk f_ppid f_slot f_waits].
  match goal with |- context [bind _ _ ?w3] => set (w3' := w3) end.
  destruct (fork_free_spec heap_base heap_size Hb Hs He Hmm base FORK_CLICKS w3' Ha Hf3 Hheld) as (a & E1 & Ha' & Hfree); [lia|].
  unfold bind. rewrite E1. eexists. split; [reflexivity|]. split.
  - constructor; try done.
    + change (3 <= lenZ (pw_procs f)). rewrite R3. done.
    + change (lenZ (updZ (f_waits (b_forked w)) (f_slot (b_forked w)) (Ktypes.p_pid (k_proc (b_k w) (b_child w)), wait_status status)) = 8). by rewrite lenZ_upd.
    + exists np. split; [done|]. change (proc_addr (b_k w) np = proc_addr k3 np). unfold proc_addr. by rewrite Ea3.
  - constructor; rewrite ?Hpar; try done.
Qed.

(** The exit closes the descriptors of the child and no other. *)
Lemma fork_finish_files status rest (w : broker E) :
  3 <= lenZ (pw_procs (b_files w)) -> length (p_fds (record (b_files w) SAVED)) = 4%nat ->
  let h := handles (record (b_files w) SAVED) in
  good APP (h ++ rest) (b_files w) ->
  match cp32_fork_finish status w with
  | (Ok _, w1) => good APP rest (b_files w1) /\ same_at (h ++ rest) (fd_tables (b_files w)) (fd_tables (b_files w1))
  | (Err _, _) => True
  end.
Proof.
  intros Hl Hf h Hg. unfold Fork.cp32_fork_finish. rewrite !bind_gets, bind_modify. set (w0 := set_forked _ w). change (b_files w) with (b_files w0) in *.
  pose proof (files_restore_owned rest w0 Hl Hf Hg) as HR. destruct (files_restore_spec w0 Hl) as (f & E1 & _). rewrite E1 in HR. unfold bind at 1. rewrite E1.
  rewrite bind_kernel. cbn [modify]. rewrite bind_try. unfold kernel at 1. destruct (cp32_proc_release _ _) as [[e|[]] k]; [done|].
  rewrite bind_kernel. cbn [modify]. rewrite !bind_modify. unfold bind. match goal with |- context [fork_free _ _ ?b ?w3] =>
    pose proof (fork_free_files (E := E) heap_base heap_size b w3) as H6; destruct (fork_free _ _ b w3) as [[e|[]] w6] end; [done|].
  cbn [snd ret] in *. rewrite H6. exact HR.
Qed.

(** What the run of the child leaves alone: the broker's record of the fork, the
    child's slot and pid, the descriptor of the parent, which waits for the
    reply to its fork, and the copied image.  Of the files it leaves alone what
    every request of a program leaves alone, by [leaves_file] for the file calls
    and [turn_leaves] of ForkChild for the whole turn of the broker: the
    descriptors of the saved record and the [rest]. *)
Record meanwhile (rest : list Z) (w1 w2 : broker E) (C Q : Z -> list Z) (H : list Z) : Prop := {
  mw_ok : broker_ok w2 C Q H;
  mw_forked : b_forked w2 = b_forked w1 /\ b_child w2 = b_child w1 /\ k_addr (b_k w2) = k_addr (b_k w1);
  mw_pid : Ktypes.p_pid (k_proc (b_k w2) (b_child w1)) = Ktypes.p_pid (k_proc (b_k w1) (b_child w1));
  mw_parent : k_proc (b_k w2) (f_parent (b_forked w1)) = k_proc (b_k w1) (f_parent (b_forked w1));
  mw_copy : forall a, 0 <= a < IMAGE_BYTES -> copy_at (f_base (b_forked w1)) (b_k w2) a = copy_at (f_base (b_forked w1)) (b_k w1) a;
  mw_files : leaves APP (handles (record (b_files w1) SAVED) ++ rest) (b_files w1) (b_files w2);
  mw_held : same_held (b_heap w1) (b_heap w2);
  mw_exit : bad_release (b_k w2) (b_child w2) = false }.

(** A child that only wrote to its image and made file requests. *)
Lemma meanwhile_store rest w1 C Q H a bs f :
  broker_ok w1 C Q H -> IMAGE_BASE <= a -> a + lenZ bs <= IMAGE_BASE + IMAGE_BYTES ->
  (let base := f_base (b_forked w1) in
   base * CLICK_SIZE + IMAGE_BYTES <= IMAGE_BASE \/ IMAGE_BASE + IMAGE_BYTES <= base * CLICK_SIZE) ->
  leaves APP (handles (record (b_files w1) SAVED) ++ rest) (b_files w1) f -> 3 <= lenZ (pw_procs f) ->
  bad_release (b_k w1) (b_child w1) = false -> meanwhile rest w1 (set_files f (set_k (store_mem a bs (b_k w1)) w1)) C Q H.
Proof.
  intros [HP Ha Hfs Hrec Hw Hc] H1 H2 Hd Hf Hl Hx. constructor; try done.
  - constructor; try done. by apply (procs_ok_same (b_k w1)).
  - intros x Hin. unfold copy_at. cbn [b_k set_files set_k store_mem k_mem set_k_mem]. apply mem_write_out. cbv zeta in Hd. lia.
Qed.

(** The files from the start of the fork to the exit of the child *)
Lemma files_across rest (w w1 : broker E) f2 :
  good APP rest (b_files w) -> record (b_files w1) SAVED = record (b_files w) APP ->
  let h := handles (record (b_files w) APP) in
  good APP (h ++ rest) (b_files w1) -> same_at (h ++ rest) (fd_tables (b_files w)) (fd_tables (b_files w1)) ->
  leaves APP (handles (record (b_files w1) SAVED) ++ rest) (b_files w1) f2 ->
  good APP (h ++ rest) f2 /\ same_at (h ++ rest) (fd_tables (b_files w)) (fd_tables f2) /\
  record f2 SAVED = p_set_cwd (p_cwd (record f2 SAVED)) (record (b_files w) APP).
Proof.
  intros Hg Er h HG HS Hl. rewrite Er in Hl. destruct (Hl HG) as (HG2 & (_ & _ & Ho) & HS2). split; [done|]. split; [by etransitivity|].
  rewrite <- Er. by apply Ho.
Qed.

(** A wait without a status address. *)
Lemma fork_wait_run pid n (w : broker E) :
  0 < pid -> f_parent (b_forked w) = NIL_PROC -> wait_slot (f_waits (b_forked w)) pid = Some n ->
  fst (wait_at (f_waits (b_forked w)) n) = pid ->
  cp32_fork_wait pid 0 0 w = (Ok pid, set_forked (set_waits (updZ (f_waits (b_forked w)) n
    (0, snd (wait_at (f_waits (b_forked w)) n))) (b_forked w)) w).
Proof.
  intros Hpid Hidle E1 E2. unfold cp32_fork_wait. rewrite !bind_guard. change (truthy _) with false. cbv iota.
  rewrite (proj2 (Z.leb_gt pid 0)), andb_false_r by lia. rewrite bind_gets, bind_guard, Hidle. change (NIL_PROC =? NIL_PROC) with true.
  cbv iota. cbn [negb]. rewrite E1. destruct (wait_at _ n) as [c st]. cbn [fst snd] in *. subst c. done.
Qed.

Lemma fork_wait_none pid (w : broker E) :
  0 < pid -> wait_slot (f_waits (b_forked w)) pid = None -> cp32_fork_wait pid 0 0 w = (Err (-10), w).
Proof.
  intros Hpid E1. unfold cp32_fork_wait. rewrite !bind_guard. change (truthy _) with false. cbv iota.
  rewrite (proj2 (Z.leb_gt pid 0)), andb_false_r by lia. rewrite bind_gets, bind_guard, E1. by case_match.
Qed.

(** The first wait for a new entry returns it and clears it. *)
Lemma wait_once l n pid st (w : broker E) :
  0 < pid -> waiting l pid = false -> lenZ l = 8 -> 0 <= n < 8 -> f_parent (b_forked w) = NIL_PROC ->
  f_waits (b_forked w) = updZ l n (pid, st) ->
  fst (cp32_fork_wait pid 0 0 w) = Ok pid /\ fst (cp32_fork_wait pid 0 0 (snd (cp32_fork_wait pid 0 0 w))) = Err (-10).
Proof.
  intros Hpid Hw Hl Hn Hidle El.
  assert (Hsame : wait_at (f_waits (b_forked w)) n = (pid, st)) by (rewrite El; apply wait_at_same; lia).
  assert (Hother : forall m e, 0 <= m -> m <> n -> fst (wait_at (updZ (f_waits (b_forked w)) n e) m) <> pid).
  { intros m e Hm Hne. rewrite El, !wait_at_other by lia. by apply not_waiting. }
  rewrite (fork_wait_run pid n w); try done; [|apply wait_found; try done; [by rewrite Hsame|]|by rewrite Hsame].
  - split; [done|]. cbn [snd]. rewrite fork_wait_none; [done|done|]. apply wait_none; [done|]. intros m Hm.
    cbn [b_forked set_forked set_waits f_waits]. destruct (Z.eq_dec m n) as [->|Hne]; [|by apply Hother].
    rewrite wait_at_same by (rewrite El, lenZ_upd; lia). cbn. lia.
  - intros m Hm Hne. rewrite El, wait_at_other by lia. by apply not_waiting.
Qed.

(** C6. The program owns its descriptors, and [rest] are the other open ones.  A
    fork gives the child a record that is its parent's, with descriptors of its
    own for the same open descriptions.  Whatever the child does before
    it exits - write to its image, open, close and duplicate descriptors, exec -
    the parent is then as it was: the image byte for byte, its file record but
    for the directory (which a rename may carry along), its process descriptor
    but for the times it gets from the child, parent pid, heap floor and break,
    and the whole descriptor table with its reference counts, so the child's
    descriptors are closed and no other.  The descriptions themselves are
    shared, so the offset may have moved.  The memory of the copy and the
    child's slot are free again, and exactly one wait reports the child, with
    its status in the table until then. *)
Theorem fork_round_trip pid status rest w w1 w2 C Q H C' Q' H' :
  broker_ok w C Q H -> good APP rest (b_files w) ->
  cp32_fork_start pid w = (Ok tt, w1) -> meanwhile rest w1 w2 C' Q' H' ->
  child_of (record (b_files w) APP) pid (fd_tables (b_files w1)) (record (b_files w1) APP) /\
  exists w3 n, cp32_fork_finish status w2 = (Ok pid, w3) /\ broker_ok w3 C' Q' H' /\
  (forall a, 0 <= a < IMAGE_BYTES -> image_of (b_k w3) a = image_of (b_k w) a) /\
  record (b_files w3) APP = p_set_cwd (p_cwd (record (b_files w2) SAVED)) (record (b_files w) APP) /\
  fd_tables (b_files w3) = fd_tables (b_files w) /\
  b_child w3 = b_child w /\ b_ppid w3 = b_ppid w /\ b_floor w3 = b_floor w /\ b_brk w3 = b_brk w /\
  same_held (b_heap w) (b_heap w3) /\
  p_flags (k_proc (b_k w3) (b_child w1)) = P_SLOT_FREE /\
  k_proc (b_k w3) (b_child w) = with_times (k_proc (b_k w2) (b_child w1)) (k_proc (b_k w) (b_child w)) /\
  wait_at (f_waits (b_forked w3)) n = (pid, wait_status status) /\
  fst (cp32_fork_wait pid 0 0 w3) = Ok pid /\
  fst (cp32_fork_wait pid 0 0 (snd (cp32_fork_wait pid 0 0 w3))) = Err (-10).
Proof.
  intros HB Hgood E1 [HB2 (Hf & Hc & Hka) Hpid Hpar Hcopy Hfiles Hheld Hexit].
  pose proof (fork_start_spec heap_base heap_size Hb Hs He Hmm Hdisjoint pid w C Q H HB) as HS. rewrite E1 in HS.
  destruct HS as (base & cn & slot & [Ip Is Ii If Ig Ih Ic Im Ir Ichild Io Irun] & HB1).
  pose proof (fork_start_files heap_base heap_size pid rest w (bo_records _ _ _ _ _ _ HB) Hgood) as HF. rewrite E1 in HF. destruct HF as (HG1 & HS1 & Hch).
  split; [done|].
  destruct (bo_child _ _ _ _ _ _ HB) as (np & Hnp & Hchild). destruct Ichild as (Hcn & Hca & Hcne & Hcp). destruct Io as [Iaddr Iother].
  assert (Hpa : forall k k' n, k_addr k' = k_addr k -> proc_addr k' n = proc_addr k n) by (intros k k' m Ek; unfold proc_addr; by rewrite Ek).
  assert (Hbase : f_base (b_forked w1) = base /\ f_parent (b_forked w1) = b_child w /\ f_slot (b_forked w1) = slot) by (by rewrite If).
  destruct Hbase as (Hbase & Hparent & Hslot).
  destruct (region_range heap_base heap_size Hb He Hdisjoint _ _ _ Ig) as (Hr & Himg & _).
  assert (HX : exiting w2 base np).
  { constructor; rewrite ?Hf, ?Hc; try done.
    - rewrite Hparent. split_and!; try lia; try done. rewrite Hchild. symmetry. apply Hpa. congruence.
    - rewrite Hbase. split; [done|]. apply Hheld. destruct Ig as (_ & _ & _ & _ & Hg). apply Hg. by right.
    - by rewrite <- Hc. }
  destruct (files_across rest w w1 (b_files w2) Hgood (proj1 Ir) HG1 HS1 Hfiles) as (HG2 & HS2 & Hsv).
  pose proof (fork_finish_files status rest w2 (bo_records _ _ _ _ _ _ HB2)) as HF. rewrite Hsv in HF. specialize (HF (gd_fds _ _ _ Hgood) HG2).
  destruct (fork_finish_spec status w2 C' Q' H' base np HB2 HX) as (w3 & E3 & HB3 & [Rrun Ridle Rw Rim Rrec Rfree Rch Rpar]).
  rewrite E3 in HF. destruct HF as [HG3 HS3].
  rewrite Hf, Hc, Hparent, Hpid, Hcp in *. change (Ktypes.p_pid (set_p_flags _ (cloned cn pid _))) with pid in *.
  rewrite If in Rrun, Rw. cbn [f_ppid f_floor f_brk f_slot f_waits] in Rrun, Rw. destruct Rrun as (R1 & R2 & R3 & R4).
  assert (Hslots : 0 <= slot < 8) by (pose proof (free_wait_spec (f_waits (b_forked w))); lia).
  destruct (wait_once _ _ _ _ _ (proj1 Ip) (proj2 Ip) (bo_waits _ _ _ _ _ _ HB) Hslots Ridle Rw) as [W1 W2].
  exists w3, slot. split_and!; try done.
  - intros a Ha. by rewrite Rim, <- Hbase, Hcopy, Hbase, Ic.
  - by rewrite (proj1 Rrec), Hsv.
  - apply (owned_same _ _ _ _ (gd_owned _ _ _ Hgood)); [|by etransitivity].
    pose proof (gd_owned _ _ _ HG3) as G3. by rewrite (proj1 Rrec), Hsv in G3.
  - apply (gained_back heap_base heap_size FORK_CLICKS (b_heap w) (b_heap w1) _ base); try done. intros b s o. by rewrite Rfree, (Hheld b s o).
  - by rewrite Rch.
  - by rewrite Rpar, Hpar, Iother.
  - rewrite Rw. apply wait_at_same. rewrite (bo_waits _ _ _ _ _ _ HB). lia.
Qed.
End Finish.

(** ** Witness

    Process 6 holds descriptor 3, number 0 of the table, and forks process 5.
    The child writes over the image, duplicates its descriptor, closes it and
    exits. *)
Module ForkDemo.
Definition prompt : Transport := StorageDemo.prompt.
Definition heap_base := 0x3fc90.
Definition heap_size := 16.
Definition files : fsproc memdisk := Fsproc (boot_fsw Demo.disk) [Fproc.p_set_pid 9 empty_fproc; empty_fproc; empty_fproc] None.
Definition w : broker memdisk := Broker PDemo.parent files boot_allocator boot_forked 16 3 0x3fcec000 0x3fcec400.

Definition table : fdtab :=
  Fdtab (t_files empty_fdtab) [1; 0; 0; 0; 0; 0; 0; 0] (t_directories empty_fdtab) [1; 0; 0; 0; 0; 0; 0; 0]
    (t_descriptor_flags empty_fdtab) (t_status_flags empty_fdtab) (t_writers empty_fdtab) (t_pending_unlink empty_fdtab).
Definition open_files : fsproc memdisk :=
  Fsproc (set_tab table (boot_fsw Demo.disk)) [p_set_fd 0 1 (Fproc.p_set_pid 9 empty_fproc); empty_fproc; empty_fproc] None.
Definition w_open : broker memdisk := set_files open_files w.
Definition start := Fork.cp32_fork_start (TRAP := prompt) heap_base heap_size 11 w_open.
Definition forked : broker memdisk := snd start.
Definition request (op : Z) (f : fsproc memdisk) : fsproc memdisk := snd (cp32_fproc_file APP 1 1 64 op 3 [] 0 f).
Definition child_files : fsproc memdisk := request CP32_APP_CLOSE (request CP32_APP_DUP (b_files forked)).
Definition scribbled : broker memdisk := set_files child_files (set_k (store_mem IMAGE_BASE [1; 2; 3] (b_k forked)) forked).
End ForkDemo.

Lemma demo_heap : 0 < ForkDemo.heap_base /\ 0 <= ForkDemo.heap_size /\ ForkDemo.heap_base + ForkDemo.heap_size <= 0x100000 /\
  ((ForkDemo.heap_base + ForkDemo.heap_size) * 4096 <= IMAGE_BASE \/ IMAGE_BASE + IMAGE_BYTES <= ForkDemo.heap_base * 4096).
Proof. split_and!; [| | |left]; vm_compute; discriminate || reflexivity. Qed.

Lemma demo_broker : ForkSpec.broker_ok ForkDemo.heap_base ForkDemo.heap_size ForkDemo.w (fun _ => []) KDemo.Q [].
Proof.
  constructor; [exact demo_parent_ok|by left|vm_compute; reflexivity|vm_compute; discriminate|vm_compute; reflexivity|].
  exists 6. split; [unfold LOW_USER, NR_PROCS; lia|vm_compute; reflexivity].
Qed.

Lemma demo_broker_open : ForkSpec.broker_ok ForkDemo.heap_base ForkDemo.heap_size ForkDemo.w_open (fun _ => []) KDemo.Q [].
Proof. destruct demo_broker as [H1 H2 H3 _ H5 H6]. constructor; try done. Qed.

(** The program owns the only open descriptor. *)
Lemma demo_good : good APP [] (b_files ForkDemo.w_open).
Proof.
  constructor; [vm_compute; split; discriminate || reflexivity|done|]. constructor.
  - constructor; [done|by repeat constructor|]. intros slot Hs.
    assert (Hn : slot = 0 \/ slot = 1 \/ slot = 2 \/ slot = 3 \/ slot = 4 \/ slot = 5 \/ slot = 6 \/ slot = 7) by lia.
    by repeat (destruct Hn as [->|Hn]; [done|]); subst slot.
  - by apply NoDup_singleton.
  - intros d. unfold live. split.
    + intros [Hd Hn]. left. destruct (Z.eq_dec 0 d) as [|Hne]; [done|]. exfalso. apply Hn.
      assert (Hd' : d = 1 \/ d = 2 \/ d = 3 \/ d = 4 \/ d = 5 \/ d = 6 \/ d = 7) by lia.
      by repeat (destruct Hd' as [->|Hd']; [done|]); subst d.
    + intros [<-|[]]. done.
Qed.

Lemma demo_start : Fork.cp32_fork_start (TRAP := ForkDemo.prompt) ForkDemo.heap_base ForkDemo.heap_size 11 ForkDemo.w_open = (Ok tt, ForkDemo.forked).
Proof. unfold ForkDemo.forked, ForkDemo.start. refine (run_ok (Fork.cp32_fork_start (TRAP := ForkDemo.prompt) _ _ _) _ tt _). lazy. reflexivity. Qed.

Lemma demo_forked : ForkSpec.broker_ok ForkDemo.heap_base ForkDemo.heap_size ForkDemo.forked (fun _ => []) KDemo.Q [].
Proof.
  destruct demo_heap as (Hb & Hs & He & Hd).
  pose proof (fork_start_spec (TRAP := ForkDemo.prompt) _ _ Hb Hs He (fun _ => eq_refl) Hd 11 ForkDemo.w_open _ _ _ demo_broker_open) as H.
  rewrite demo_start in H. by destruct H as (base & n & slot & _ & H).
Qed.

Lemma demo_meanwhile :
  meanwhile ForkDemo.heap_base ForkDemo.heap_size [] ForkDemo.forked ForkDemo.scribbled (fun _ => []) KDemo.Q [].
Proof.
  apply meanwhile_store; [exact demo_forked|lia|vm_compute; discriminate| | |lazy; discriminate|lazy; reflexivity].
  - assert (E1 : f_base (b_forked ForkDemo.forked) = ForkDemo.heap_base) by (lazy; reflexivity).
    rewrite E1. left. vm_compute. discriminate.
  - unfold ForkDemo.child_files, ForkDemo.request. etransitivity; apply leaves_file.
Qed.

(** The child held a descriptor of its own, which is closed again. *)
Lemma fork_round_trip_witness :
  (snd (fd_tables (b_files ForkDemo.w_open)) = [1; 0; 0; 0; 0; 0; 0; 0] /\
   snd (fd_tables (b_files ForkDemo.forked)) = [1; 1; 0; 0; 0; 0; 0; 0] /\
   snd (fd_tables (b_files ForkDemo.scribbled)) = [1; 0; 1; 0; 0; 0; 0; 0]) /\
  exists w3, Fork.cp32_fork_finish (TRAP := ForkDemo.prompt) ForkDemo.heap_base ForkDemo.heap_size 3 ForkDemo.scribbled = (Ok 11, w3) /\
  image_of (b_k ForkDemo.scribbled) 0 = 1 /\
  (forall a, 0 <= a < IMAGE_BYTES -> image_of (b_k w3) a = image_of (b_k ForkDemo.w_open) a) /\
  fd_tables (b_files w3) = fd_tables (b_files ForkDemo.w_open) /\
  fst (cp32_fork_wait 11 0 0 w3) = Ok 11.
Proof.
  split; [split; [lazy; reflexivity|split; lazy; reflexivity]|].
  destruct demo_heap as (Hb & Hs & He & Hd).
  destruct (fork_round_trip (TRAP := ForkDemo.prompt) _ _ Hb Hs He (fun _ => eq_refl) Hd 11 3 [] ForkDemo.w_open _ _ _ _ _ _ _ _
    demo_broker_open demo_good demo_start demo_meanwhile)
    as (_ & w3 & n & H1 & _ & H2 & _ & H4 & _ & _ & _ & _ & _ & _ & _ & _ & H3 & _).
  exists w3. refine (conj H1 (conj _ (conj H2 (conj H4 H3)))). lazy. reflexivity.
Defined.
