(* ===== verification/App.v ===== *)
(** * The foreground program: src/src/kernel/application.c and its bridge in
    src/src/kernel/cp32-shell.c

    [cp32_application_start] builds a process from an image, [application_turn]
    serves one request of it: identity, break, console, files, fork, wait, exec and
    exit.  The state is that of [Fork] with the statics of the runner.  The receive
    and send of the loop are the kernel's ([Ipc]): a turn takes the message that
    was received and gives the one to send. *)
From S2P Require Import Prelude Codec Kconst FsTypes FdTable Dirent Alloc Ktypes Sched Ipc IpcSpec Process Mm Storage.
From S2P Require Import Path Filedes Fproc Appfile Signals Fork.
From S2P Require Image Exec.

Definition APP_WRITE := 2001.
Definition APP_EXIT := 2002.
Definition APP_GETPID := 2003.
Definition APP_GETPPID := 2004.
Definition APP_SBRK := 2005.
Definition APP_READ := 2006.
Definition APP_FILE := 2007.
Definition APP_TEXT_DATA := Image.CP32_APP_TEXT - 0x6f0000.
Definition CP32_APP_FORK := 40.
Definition CP32_APP_WAITPID := 41.

(** The words of a message that the runner and the program use. *)
Record request := Request { q_type : Z; q_i1 : Z; q_i2 : Z; q_i3 : Z; q_p1 : Z }.
Definition with_type (x : Z) (m : request) : request := Request x (q_i1 m) (q_i2 m) (q_i3 m) (q_p1 m).
Definition with_p1 (x : Z) (m : request) : request := Request (q_type m) (q_i1 m) (q_i2 m) (q_i3 m) x.

(** The console and the services of the shell that a request reaches:
    [cp32_shell_tty_io(DEV_READ, input, n)] with the bytes it put in [input],
    [cp32_shell_clock(1, &seconds)], [cp32_shell_disk_io(CP32_DEV_SYNC, 0, 0, 0)]
    and [cp32_root_capacity()]. *)
Class Console (E : Type) := {
  co_read : Z -> E -> (Z * list Z) * E;
  co_set_time : Z -> E -> Z * E;
  co_sync : E -> Z * E;
  co_capacity : E -> Z }.

(** [a_busy], [a_endpoint] and [a_next] are the statics [app_busy], [app_endpoint]
    and [next_pid]; [a_previous] and [a_input] are [cp32_shell_previous] and
    [cp32_shell_input_fd]; [a_output] is what the callback [output] was given. *)
Record app (E : Type) := App {
  a_w : broker E; a_busy : Z; a_endpoint : Z; a_next : Z; a_previous : list Z; a_input : Z; a_output : list (list Z) }.
Arguments App {E}. Arguments a_w {E}. Arguments a_busy {E}. Arguments a_endpoint {E}. Arguments a_next {E}.
Arguments a_previous {E}. Arguments a_input {E}. Arguments a_output {E}.

Section Setters.
Context {E : Type}.
Definition set_w (w : broker E) (s : app E) : app E :=
  App w (a_busy s) (a_endpoint s) (a_next s) (a_previous s) (a_input s) (a_output s).
Definition set_slot (busy endpoint : Z) (s : app E) : app E :=
  App (a_w s) busy endpoint (a_next s) (a_previous s) (a_input s) (a_output s).
Definition set_next (x : Z) (s : app E) : app E :=
  App (a_w s) (a_busy s) (a_endpoint s) x (a_previous s) (a_input s) (a_output s).
Definition set_previous (x : list Z) (s : app E) : app E :=
  App (a_w s) (a_busy s) (a_endpoint s) (a_next s) x (a_input s) (a_output s).
Definition set_output (x : list (list Z)) (s : app E) : app E :=
  App (a_w s) (a_busy s) (a_endpoint s) (a_next s) (a_previous s) (a_input s) x.
End Setters.

(** ** Process identifiers *)
Definition PID_TRIES := 29901.
Definition next_pid (x : Z) : Z := if x <? 30000 then x + 1 else 100.

(** The result and the static [next_pid] afterwards. *)
Fixpoint try_pids (tries : nat) (used : Z -> bool) (next : Z) : Z * Z :=
  match tries with
  | O => (-1, next)
  | Datatypes.S tries => let next := next_pid next in if used next then try_pids tries used next else (next, next)
  end.

Definition pid_used {E} (w : broker E) (pid : Z) : bool :=
  existsb (has_pid (b_k w) pid) (upto 0 NR_PROCS) || waiting (f_waits (b_forked w)) pid.

Definition application_pid {E} : M (app E) Z := fun s =>
  let (pid, next) := try_pids (Z.to_nat PID_TRIES) (pid_used (a_w s)) (a_next s) in (Ok pid, set_next next s).

(** ** The break: the new break, or -1 *)
Definition application_break (floor brk increment : Z) : res Z :=
  if (brk <? floor) || (Image.CP32_APP_STACK <? brk) then Err (-1) else
  if 0 <=? increment then
    let amount := wrap32 increment in
    if Image.CP32_APP_STACK -u brk <? amount then Err (-1) else Ok (brk +u amount)
  else
    let amount := wrap32 (- (increment + 1)) +u 1 in
    if brk -u floor <? amount then Err (-1) else Ok (brk -u amount).

Section App.
Context {E : Type} `{DSK : Disk E} `{TRAP : Transport} `{CON : Console E}.
(** The heap of the memory service, the disk and clock callbacks and the address
    of the table of services. *)
Context (heap_base heap_size : Z) (read write clock : fptr) (services : Z).
Abbreviation BM := (M (broker E)).
Abbreviation AM := (M (app E)).
Abbreviation PM := (M (fsproc E)).
Abbreviation fork_start := (cp32_fork_start heap_base heap_size).
Abbreviation fork_finish := (cp32_fork_finish heap_base heap_size).

Definition broker_call {A} (c : BM A) : AM A := fun s => let (r, w) := c (a_w s) in (r, set_w w s).
Definition file_call {A} (c : PM A) : AM A := broker_call (files c).
Definition kernel_call {A} (c : KM A) : AM A := broker_call (kernel c).
Definition env_call {A} (c : E -> A * E) : PM A := fs (fun w => let (x, e) := c (fs_env w) in (Ok x, set_env e w)).
Definition on_kernel (f : kst -> kst) : BM unit := kernel (modify f).

(** The value of a status: a panic goes on. *)
Definition status {A} (ok : A -> Z) (r : res A) : AM Z :=
  match r with Ok a => ret (ok a) | Err e => if e =? PANIC then fail PANIC else ret e end.

Definition capacity : PM Z := env_call (fun e => (co_capacity e, e)).

(** ** The file bridge (cp32-shell.c) *)
Definition cp32_shell_app_files_start (pid : Z) : AM unit :=
  input <- gets a_input ;;
  file_call (on_proc SHELL (p_set_input (input + 1))) ;;;
  r <- try (file_call (cp32_fproc_clone APP SHELL pid)) ;;
  file_call (on_proc SHELL (p_set_input 0)) ;;;
  match r with Ok _ => ret tt | Err e => fail e end.

Definition cp32_shell_app_files_exec : BM unit := files (cp32_fproc_exec APP).

Definition cp32_shell_app_files_owner (pid : Z) : BM bool :=
  x <- files (proc APP) ;; ret (truthy pid && (Fproc.p_pid x =? pid)).

(** [while(done<count) ...] *)
Definition app_read_turn (fd count : Z) (acc : list Z) : PM (turn (list Z) (list Z)) :=
  if lenZ acc <? count then
    r <- try (fs (cp32_fd_read fd nonnull (count - lenZ acc))) ;;
    match r with
    | Err _ => fail (-1)
    | Ok bytes =>
        guard ((lenZ bytes =? 0) || (count - lenZ acc <? lenZ bytes)) (-1) ;;;
        ret (Continue (acc ++ bytes))
    end
  else ret (Break acc).

Definition cp32_shell_app_read (fd offset count : Z) : PM (list Z) :=
  r <- try (fs (cp32_fd_seek fd (to_int offset) 0)) ;;
  match r with
  | Err _ => fail (-1)
  | Ok _ => loop (Datatypes.S (Z.to_nat count)) (app_read_turn fd count) ret []
  end.

(** The result and the bytes for the program. *)
Definition cp32_shell_app_input (count : Z) : PM (Z * list Z) :=
  guard (64 <? count) (-1) ;;;
  x <- proc APP ;;
  let* (r, bytes) := (if truthy (p_input x) then bytes <- fs (cp32_fd_read (p_input x - 1) nonnull count) ;; ret (lenZ bytes, bytes)
    else env_call (co_read count)) in
  ret (r, if (0 <? r) && (r <=? count) then take (Z.to_nat r) bytes else []).

(** The clock: its status is an error. *)
Definition get_time : PM Z :=
  x <- fs (call_clock clock) ;;
  if fst x =? 0 then ret (snd x) else fail (fst x).

Definition clock_request (op : Z) (buffer : list Z) : PM (Z * list Z) :=
  if op =? CP32_APP_STIME then
    x <- proc APP ;;
    guard (truthy (p_euid x)) (-1) ;;;
    r <- env_call (co_set_time (u32_field buffer 0)) ;;
    done r buffer
  else now <- get_time ;; done 0 (splice buffer 0 (le_words [now])).

Definition sync_request (cap op fd : Z) (buffer : list Z) (arg : Z) : PM (Z * list Z) :=
  x <- cp32_fproc_file APP read write cap op fd buffer arg ;;
  if truthy (fst x) then ret x else
  r <- env_call co_sync ;;
  done (if r =? OK then 0 else -5) (snd x).

(** [cp32_shell_app_file(op, fd, buffer, arg)]: the result and the buffer. *)
Definition cp32_shell_app_file (op fd : Z) (buffer : list Z) (arg : Z) : AM (Z * list Z) :=
  cap <- file_call capacity ;;
  if (op =? CP32_APP_TIME) || (op =? CP32_APP_STIME) then file_call (clock_request op buffer) else
  if op =? CP32_APP_UTIME then
    file_call (now <- get_time ;;
      cp32_fproc_utime (Some APP) read write cap (Some (str_field buffer 0 256)) (u32_field buffer 256)
        (u32_field buffer 260) now (truthy (u32_field buffer 264)) ;;;
      done 0 buffer) else
  if (op =? CP32_APP_SYNC) || (op =? CP32_APP_FSYNC) then file_call (sync_request cap op fd buffer arg) else
  if op =? CP32_APP_RENAME then
    previous <- gets a_previous ;;
    moved <- file_call (errno (cp32_fproc_move APP (Some SHELL) (Some previous) read write cap
      (Some (str_field buffer 0 256)) (Some (str_field buffer 256 256)))) ;;
    modify (set_previous (default previous moved)) ;;;
    ret (0, buffer) else
  if op =? CP32_APP_RMDIR then
    file_call (cp32_fproc_rmdir APP (Some SHELL) read write cap (c_string buffer)) ;;; ret (0, buffer) else
  file_call (cp32_fproc_file APP read write cap op fd buffer arg).

(** ** Requests *)

(** The bytes at the pointer of a file request that passes a buffer. *)
Definition buffer_size (op arg : Z) : Z :=
  if op_in op (CP32_APP_TIME :: CP32_APP_STIME :: CP32_APP_UTIME :: buffer_ops) then arg else 0.

Definition application_file_request (m : request) : AM Z :=
  k <- gets (fun s => b_k (a_w s)) ;;
  let op := wrap32 (q_i1 m) in
  let arg := wrap32 (q_i3 m) in
  let r := cp32_fproc_validate (k_mem k) op (q_p1 m) arg Image.CP32_APP_DATA Image.CP32_APP_TOP in
  guard (truthy r) r ;;;
  let* (r, buffer) := cp32_shell_app_file op (q_i2 m) (mem_read (k_mem k) (q_p1 m) (buffer_size op arg)) arg in
  kernel_call (modify (store_mem (q_p1 m) buffer)) ;;;
  ret r.

(** [p<CP32_APP_DATA || p>CP32_APP_TOP || n>CP32_APP_TOP-p] *)
Definition bad_span (p n : Z) : bool := outside p n Image.CP32_APP_DATA Image.CP32_APP_TOP.

Definition app_sbrk (m : request) : AM request :=
  w <- gets a_w ;;
  match application_break (b_floor w) (b_brk w) (q_i1 m) with
  | Err e => ret (with_type e m)
  | Ok brk =>
      let old := b_brk w in
      broker_call (modify (set_run (b_child w) (b_ppid w) (b_floor w) brk)) ;;;
      (if old <? brk then kernel_call (modify (store_mem old (replicate (Z.to_nat (brk -u old)) 0))) else ret tt) ;;;
      ret (with_type 0 (with_p1 old m))
  end.

Definition app_read (m : request) : AM Z :=
  let p := q_p1 m in
  let n := q_i1 m in
  if (n <? 0) || (64 <? n) || bad_span p n then ret (-1) else
  if n =? 0 then ret 0 else
  r <- try (file_call (cp32_shell_app_input n)) ;;
  match r with
  | Err e => ret e
  | Ok (r, bytes) => kernel_call (modify (store_mem p bytes)) ;;; ret r
  end.

Definition app_write (m : request) : AM Z :=
  let p := q_p1 m in
  let n := q_i1 m in
  if (n <? 0) || (256 <? n) || bad_span p n then ret (-1) else
  modify (fun s => set_output (a_output s ++ [mem_read (k_mem (b_k (a_w s))) p n]) s) ;;;
  ret n.

(** ** exec: [application_replace] *)
Definition environment : list (list Z) :=
  [[72; 79; 77; 69; 61; 47];                            (* HOME=/ *)
   [80; 65; 84; 72; 61; 47; 98; 111; 111; 116];         (* PATH=/boot *)
   [85; 83; 69; 82; 61; 114; 111; 111; 116]].           (* USER=root *)

(** The [argc] strings of the array [args] from index [n]. *)
Fixpoint split_args (argc : nat) (args : list Z) (n : Z) : res (list (list Z)) :=
  match argc with
  | O => Ok []
  | Datatypes.S argc =>
      if lenZ args <=? n then Err (-7) else
      let s := c_string (ptr_add args n) in
      if n + lenZ s =? lenZ args then Err (-7) else
      match split_args argc args (n + lenZ s + 1) with Ok l => Ok (s :: l) | Err e => Err e end
  end.

(** The [n] bytes from [base] are those of [f]. *)
Definition overlay (base n : Z) (f : mem) (m : mem) : mem := fun a => if in_range base n a then f (a - base) else m a.

(** [cp32_image_load(cp32_shell_app_read, &fd, size, text, data, &image)] *)
Definition load_image (reader : Z -> Z -> PM (list Z)) (size text data : Z) : BM Image.cp32_image := fun w =>
  let m := k_mem (b_k w) in
  let (r, st) := Image.cp32_image_load reader size
    {| Image.context := b_files w; Image.text_buf := fun a => m (text + a); Image.data_buf := fun a => m (data + a) |} in
  (r, set_k (set_k_mem (overlay data 16384 (Image.data_buf st) (overlay text 16384 (Image.text_buf st) m)) (b_k w))
        (set_files (Image.context st) w)).

(** [cp32_exec_stack(at, 512, CP32_APP_TOP-512, argc, argv, 3, environment, &sp)] *)
Definition stack_image (at_ : Z) (argv : list (list Z)) : BM Z := fun w =>
  let m := k_mem (b_k w) in
  match Exec.cp32_exec_stack (fun a => m (at_ + a)) 512 (Image.CP32_APP_TOP - 512) (map Some argv) (map Some environment) with
  | Err e => (Err e, w)
  | Ok (buffer, sp) => (Ok sp, set_k (set_k_mem (overlay at_ 512 buffer m) (b_k w)) w)
  end.

(** [(CP32_APP_DATA+image.data.memsz+15U)&~15U] *)
Definition heap_floor (image : Image.cp32_image) : Z :=
  Z.land (Image.CP32_APP_DATA +u Image.memsz (Image.data image) +u 15) (not32 15).

(** [for(...) child->p_name[i]=name[i]; child->p_name[i]=0;] *)
Definition put_name (path : list Z) (p : Ktypes.proc) : Ktypes.proc :=
  set_p_name (splice (p_name p) 0 (take 15 (last_component path) ++ [0])) p.

(** Lines 176-182: the staged image and the stack pointer. *)
Definition stage_image (fd size stage : Z) (argv : list (list Z)) : BM (Image.cp32_image * Z) :=
  r <- try (load_image (cp32_shell_app_read fd) size stage (stage +u 16384)) ;;
  files (ignore (fs (cp32_fd_close fd))) ;;;
  match r with
  | Err e => fail (if e =? -1 then -8 else -5)
  | Ok image =>
      on_kernel (store_mem (stage +u 28672) (replicate 4096 0)) ;;;
      r <- try (stack_image (stage +u 32256) argv) ;;
      match r with Err _ => fail (-7) | Ok sp => ret (image, sp) end
  end.

(** The child waits for the reply of the broker and nobody waits for it. *)
Definition bad_blocked (k : kst) (child : Z) : bool :=
  let c := k_proc k child in
  (p_flags c !=? RECEIVING) || (p_getfrom c !=? FS_PROC_NR) || (p_callerq c !=? NIL_PROC) || (p_sendlink c !=? NIL_PROC).

(** The child without its blocked request. *)
Definition unblocked (c : Ktypes.proc) : Ktypes.proc :=
  let c := set_p_blocked_frame_result 0 (set_p_blocked_frame_valid 0 c) in
  let c := set_p_blocked_frame_sp 0 (set_p_blocked_frame_psw 0 (set_p_blocked_frame_pc 0 c)) in
  set_p_sendto 0 (set_p_getfrom ANY (set_p_messbuf 0 c)).

(** Lines 186-204. *)
Definition commit_image (child stage : Z) (path : list Z) (image : Image.cp32_image) (sp : Z) : BM unit :=
  k <- gets b_k ;;
  guard (bad_blocked k child) PANIC ;;;
  cp32_shell_app_files_exec ;;;
  on_kernel (phys_copy stage APP_TEXT_DATA 16384) ;;;
  on_kernel (phys_copy (stage +u 16384) Image.CP32_APP_DATA 16384) ;;;
  let floor := heap_floor image in
  modify (fun w => set_run (b_child w) (b_ppid w) floor floor w) ;;;
  r <- try (kernel (cp32_exec_frame child (Image.entry image) sp services)) ;;
  match r with Err _ => fail PANIC | Ok _ =>
  on_kernel (upd child unblocked) ;;;
  on_kernel (upd child (put_name path)) ;;;
  on_kernel (upd child (set_p_flags 0)) ;;;
  on_kernel (lock_ready child)
  end.

Definition exec_request_size := 516.

Definition application_replace (child : Z) (m : request) : BM unit :=
  let p := q_p1 m in
  guard (wrap32 (q_i3 m) !=? exec_request_size) (-22) ;;;
  guard (bad_span p exec_request_size) (-14) ;;;
  copy <- gets (fun w => mem_read (k_mem (b_k w)) p exec_request_size) ;;
  guard (truthy (nthZ copy 255)) (-36) ;;;
  let argc := u32_field copy 512 in
  guard ((argc =? 0) || (9 <? argc)) (-7) ;;;
  match split_args (Z.to_nat argc) (take 256 (ptr_add copy 256)) 0 with
  | Err e => fail e
  | Ok argv =>
      let path := str_field copy 0 256 in
      cap <- files capacity ;;
      let* (fd, size) := files (cp32_fproc_exec_open APP read cap path) in
      r <- sendrec_mm heap_base heap_size (Message 0 CP32_MM_ALLOCATE (Z.shiftr 32768 CLICK_SHIFT)) ;;
      if bad_reply r || (m1_i1 (snd r) =? 0) then files (ignore (fs (cp32_fd_close fd))) ;;; fail (-12) else
      let base := wrap32 (m1_i1 (snd r)) in
      let stage := base <<u CLICK_SHIFT in
      r <- try (let* (image, sp) := stage_image fd size stage argv in commit_image child stage path image sp) ;;
      match r with
      | Err e => if e =? PANIC then fail PANIC else fork_free heap_base heap_size base ;;; fail e
      | Ok _ => fork_free heap_base heap_size base
      end
  end.

(** ** One request of the loop *)
Inductive outcome := Reply (m : request) | Running | Exited (status : Z).

(** The exit of the program: lines 270-285. *)
Definition app_exit (m : request) : AM outcome :=
  child <- gets (fun s => b_child (a_w s)) ;;
  broker_call cp32_fork_reset ;;;
  broker_call cp32_shell_app_files_reset ;;;
  k <- gets (fun s => b_k (a_w s)) ;;
  guard (bad_blocked k child) PANIC ;;;
  r <- try (kernel_call (cp32_proc_release child)) ;;
  match r with Err _ => fail PANIC | Ok _ =>
  modify (set_slot 0 (-1)) ;;;
  ret (Exited (Z.land (wrap32 (q_i1 m)) 255))
  end.

(** [app_endpoint=child->p_nr;] *)
Definition follow_child : AM unit := modify (fun s => set_slot (a_busy s) (p_nr (k_proc (b_k (a_w s)) (b_child (a_w s)))) s).

Definition app_fork (m : request) : AM Z :=
  pid <- application_pid ;;
  r <- (if truthy (q_i2 m) || truthy (q_p1 m) || truthy (q_i3 m) then ret (-22)
        else r <- try (broker_call (fork_start pid)) ;; status (fun _ => 0) r) ;;
  follow_child ;;;
  ret r.

(** Lines 286-317: the value of [result] and the message, [None] after an exec. *)
Definition app_serve (m : request) : AM (option request) :=
  w <- gets a_w ;;
  let reply r := ret (Some (with_type r m)) in
  if q_type m =? APP_GETPID then reply (Ktypes.p_pid (k_proc (b_k w) (b_child w))) else
  if q_type m =? APP_GETPPID then reply (b_ppid w) else
  if q_type m =? APP_FILE then
    if q_i1 m =? CP32_APP_FORK then r <- app_fork m ;; reply r else
    if q_i1 m =? CP32_APP_WAITPID then
      r <- try (broker_call (cp32_fork_wait (q_i2 m) (q_p1 m) (q_i3 m))) ;; r <- status (fun x => x) r ;; reply r else
    if q_i1 m =? CP32_APP_EXEC then
      r <- try (broker_call (application_replace (b_child w) m)) ;; r <- status (fun _ => 0) r ;;
      if r =? 0 then ret None else reply r else
    r <- try (application_file_request m) ;; r <- status (fun x => x) r ;; reply r else
  if q_type m =? APP_SBRK then r <- app_sbrk m ;; ret (Some r) else
  if q_type m =? APP_READ then r <- app_read m ;; reply r else
  if q_type m =? APP_WRITE then r <- app_write m ;; reply r else
  reply (-1).

Definition application_turn (m : request) : AM outcome :=
  w <- gets a_w ;;
  owner <- broker_call (cp32_shell_app_files_owner (Ktypes.p_pid (k_proc (b_k w) (b_child w)))) ;;
  guard (negb owner) PANIC ;;;
  active <- broker_call cp32_fork_active ;;
  if (q_type m =? APP_EXIT) && active then
    pid <- broker_call (fork_finish (q_i1 m)) ;;
    follow_child ;;;
    ret (Reply (with_type pid m))
  else if q_type m =? APP_EXIT then app_exit m
  else
    r <- app_serve m ;;
    ret (match r with Some m => Reply m | None => Running end).

(** The turns for the requests [ms], until the program exits. *)
Fixpoint application_loop (ms : list request) : AM (list outcome) :=
  match ms with
  | [] => ret []
  | m :: ms =>
      o <- application_turn m ;;
      match o with
      | Exited _ => ret [o]
      | _ => os <- application_loop ms ;; ret (o :: os)
      end
  end.

(** ** Start: [cp32_application_run] up to its loop *)
Definition data_map : mem_map :=
  Map Image.CP32_APP_DATA (Z.shiftr Image.CP32_APP_DATA CLICK_SHIFT) (Z.shiftr (Image.CP32_APP_TOP - Image.CP32_APP_DATA) CLICK_SHIFT).
Definition stack_map : mem_map :=
  Map Image.CP32_APP_STACK (Z.shiftr Image.CP32_APP_STACK CLICK_SHIFT) (Z.shiftr (Image.CP32_APP_TOP - Image.CP32_APP_STACK) CLICK_SHIFT).

(** [failed:] *)
Definition app_cancel {A} (child e : Z) : AM A :=
  r <- try (kernel_call (cp32_proc_release child)) ;;
  match r with Err _ => fail PANIC | Ok _ => modify (set_slot 0 (-1)) ;;; fail e end.

Definition app_publish (child : Z) (image : Image.cp32_image) (sp : Z) (name : list Z) : AM unit :=
  r <- try (kernel_call (cp32_exec_frame child (Image.entry image) sp services)) ;;
  match r with Err _ => fail PANIC | Ok _ =>
  kernel_call (modify (upd child (fun c => set_p_map (updZ (updZ (p_map c) D data_map) Process.S stack_map) c))) ;;;
  kernel_call (modify (upd child (put_name name))) ;;;
  r <- try (kernel_call (cp32_proc_publish child)) ;;
  match r with Err _ => fail PANIC | Ok _ => ret tt end
  end.

(** Lines 228-242 *)
Definition app_build (reader : Z -> Z -> PM (list Z)) (size pid : Z) (argv : list (list Z)) : AM (Image.cp32_image * Z) :=
  image <- broker_call (load_image reader size APP_TEXT_DATA Image.CP32_APP_DATA) ;;
  modify (fun s => set_w (set_run (b_child (a_w s)) (b_ppid (a_w s)) (heap_floor image) (heap_floor image) (a_w s)) s) ;;;
  kernel_call (modify (store_mem Image.CP32_APP_STACK (replicate 4096 0))) ;;;
  sp <- broker_call (stack_image (Image.CP32_APP_TOP - 512) argv) ;;
  broker_call cp32_shell_app_files_reset ;;;
  r <- try (cp32_shell_app_files_start pid) ;;
  match r with Err _ => fail (-1) | Ok _ => ret (image, sp) end.

Definition cp32_application_start (reader : Z -> Z -> PM (list Z)) (size : Z) (argv : list (list Z)) : AM unit :=
  s <- gets (fun s => s) ;;
  let k := b_k (a_w s) in
  guard ((lenZ argv =? 0) || (k_current k !=? proc_addr k FS_PROC_NR) || truthy (a_busy s)) (-1) ;;;
  let parent_pid := Ktypes.p_pid (k_proc k (k_current k)) in
  guard (parent_pid <=? 0) (-1) ;;;
  pid <- application_pid ;;
  child <- (if pid <? 0 then ret NIL_PROC else kernel_call (fun k => let (p, k) := cp32_proc_reserve pid k in (Ok p, k))) ;;
  guard (child =? NIL_PROC) (-1) ;;;
  nr <- gets (fun s => p_nr (k_proc (b_k (a_w s)) child)) ;;
  modify (set_slot 1 nr) ;;;
  modify (fun s => set_w (set_run child parent_pid (b_floor (a_w s)) (b_brk (a_w s)) (a_w s)) s) ;;;
  r <- try (app_build reader size pid argv) ;;
  match r with
  | Err e => app_cancel child e
  | Ok (image, sp) => app_publish child image sp (nth 0 argv [])
  end.
(** ** The services that the program calls

    [trap m] is [_sendrec(FS_PROC_NR, &m)]: its status, the source and the
    message afterwards. *)
Section Services.
Context (trap : request -> AM (Z * Z * request)).

Definition foreground : AM bool :=
  gets (fun s => let k := b_k (a_w s) in truthy (a_busy s) && (k_current k =? proc_addr k (a_endpoint s))).

(** The program's trap for [m], its answer [result] of the reply, or [bad]. *)
Definition service (refused bad : Z) (result : request -> Z) (m : request) : AM Z :=
  b <- foreground ;;
  if negb b then ret refused else
  let* (status, source, reply) := trap m in
  ret (if (status !=? OK) || (source !=? FS_PROC_NR) then bad else result reply).

Definition application_getpid : AM Z := service (-1) (-1) q_type (Request APP_GETPID 0 0 0 0).
Definition application_getppid : AM Z := service (-1) (-1) q_type (Request APP_GETPPID 0 0 0 0).
(** [(void * )-1] *)
Definition NO_BREAK := 4294967295.
Definition application_sbrk (increment : Z) : AM Z :=
  service NO_BREAK NO_BREAK (fun m => if q_type m !=? OK then NO_BREAK else q_p1 m) (Request APP_SBRK increment 0 0 0).
Definition application_write (buffer count : Z) : AM Z :=
  if 256 <? count then ret (-1) else service (-1) (-1) q_type (Request APP_WRITE count 0 0 buffer).
Definition application_read (buffer count : Z) : AM Z :=
  if 64 <? count then ret (-1) else service (-1) (-1) q_type (Request APP_READ count 0 0 buffer).
Definition application_file (op fd buffer arg : Z) : AM Z :=
  service (-9) (-5) q_type (Request APP_FILE op fd arg buffer).
(** The trap never returns to it. *)
Definition application_exit (status : Z) : AM unit := trap (Request APP_EXIT status 0 0 0) ;;; fail PANIC.
End Services.
End App.
