(* ===== verification/AppBuf.v ===== *)
(** * The buffers of file requests

    Whatever a request of a program does, the buffer that goes back to its memory
    has the size that [cp32_fproc_validate] checked.  The one assumption is that a
    reader that reports [n] bytes filled [n] bytes. *)
From S2P Require Import Prelude Codec FsTypes FdTable MemDisk Super Timestamp Inode Read Path Dirent Namespace.
From S2P Require Import Filedes Fproc Appfile Kconst Ktypes App.
From S2P Require Image.

(** A reader fills what it reports; the count is unsigned. *)
Definition fills (E : Type) `{Disk E} : Prop :=
  forall rd off n (e : E), fst (fst (dk_read rd off n e)) = n ->
    lenZ (snd (fst (dk_read rd off n e))) = Z.max 0 n /\ Forall is_byte (snd (fst (dk_read rd off n e))).

Lemma lenZ_splice l at_ bs : 0 <= at_ -> at_ + lenZ bs <= lenZ l -> lenZ (splice l at_ bs) = lenZ l.
Proof.
  unfold lenZ, splice. intros H0 H1. rewrite !length_app, length_take, length_drop. lia.
Qed.

Lemma lenZ_le_words ws : lenZ (le_words ws) = 4 * lenZ ws.
Proof.
  unfold le_words, lenZ. induction ws as [|x ws IH]; [done|]. cbn [flat_map length]. rewrite length_app.
  replace (length (put32 (replicate 4 0) 0 x 0)) with 4%nat by done. lia.
Qed.

Section Buffers.
Context {E : Type} `{DSK : Disk E}.
Hypothesis Hfill : fills E.
Abbreviation PM := (M (fsproc E)).

Lemma yields_read_or st rd off n : yields (fun bs => lenZ bs = Z.max 0 n /\ Forall is_byte bs) (read_or (E := E) st rd off n).
Proof.
  intros w. unfold read_or, bind, call_read. pose proof (Hfill rd off n (fs_env w)) as H.
  destruct (dk_read rd off n (fs_env w)) as [[r bs] e]. cbn [fst snd] in *. destruct (Z.eqb_spec r n); [by apply H|exact I].
Qed.

Lemma yields_file_read f buffer count :
  yields (fun x => lenZ (fst x) <= Z.max 0 count /\ Forall is_byte (fst x)) (cp32_minix_file_read (E := E) f buffer count).
Proof.
  unfold cp32_minix_file_read. yields_step. destruct (count =? 0); [apply yields_ret; split; [change (0 <= Z.max 0 count); lia|constructor]|].
  destruct (f_size f <=? f_position f); [apply yields_bind; intros; apply yields_ret; split; [change (0 <= Z.max 0 count); lia|constructor]|].
  match goal with |- yields _ (_ <- _ ;; bytes <- (if _ then ret (replicate (Z.to_nat ?c) 0) else _) ;; _) => set (chunk := c) end.
  assert (chunk <= Z.max 0 count).
  { pose proof (wrap32_range (f_size f - f_position f)). pose proof (wrap32_range (f_zone_bytes f - f_position f mod f_zone_bytes f)).
    subst chunk. repeat case_match; lia. }
  apply yields_bind. intros zone. apply (yields_val (fun bs => lenZ bs = Z.max 0 chunk /\ Forall is_byte bs)).
  - destruct (zone =? 0); [apply yields_ret|apply yields_read_or].
    split; [unfold lenZ; rewrite length_replicate; lia|]. apply Forall_replicate. unfold is_byte. lia.
  - intros bs [Hbs Hb]. apply yields_bind. intros. apply yields_ret. cbn [fst]. split; [lia|done].
Qed.

Lemma yields_fd_read fd out count : yields (fun bs => lenZ bs <= Z.max 0 count /\ Forall is_byte bs) (cp32_fd_read (E := E) fd out count).
Proof.
  unfold cp32_fd_read. do 5 yields_step. apply yields_bind. intros _.
  eapply yields_val; [by apply yields_file_read|]. intros [bs f] Hb. apply yields_bind. intros _. by apply yields_ret.
Qed.

Lemma yields_fd_pread fd out count offset : yields (fun bs => lenZ bs <= Z.max 0 count /\ Forall is_byte bs) (cp32_fd_pread (E := E) fd out count offset).
Proof.
  unfold cp32_fd_pread. do 7 yields_step. 
  eapply yields_val; [by apply yields_file_read|]. intros [bs f] Hb. by apply yields_ret.
Qed.

(** A directory record: the name is the fourteen bytes of its entry. *)
Definition name14 (x : option (Z * list Z)) : Prop := match x with Some (_, name) => lenZ name = 14 | None => True end.

Lemma yields_root_next dir inode name : yields (fun x => name14 (fst x)) (cp32_minix_root_next (E := E) dir inode name).
Proof.
  unfold cp32_minix_root_next. yields_step. apply (yields_loop (fun _ => True)); [|intros; by apply yields_ret|done].
  intros d _. unfold next_turn. destruct (d_position d <? d_size d); [|by apply yields_ret]. yields_step.
  eapply yields_val; [by apply yields_read_or|]. intros raw [Hraw _]. cbv zeta. yields_step; [by apply yields_ret|]. do 3 yields_step.
  apply yields_ret. cbn [fst name14]. unfold lenZ, ptr_add in *. rewrite length_take, length_drop. lia.
Qed.

Lemma yields_fd_readdir fd inode name : yields name14 (cp32_fd_readdir (E := E) fd inode name).
Proof.
  unfold cp32_fd_readdir. do 6 yields_step. eapply yields_val; [apply yields_root_next|]. intros [x d] Hx.
  do 2 (apply yields_bind; intros ?). by apply yields_ret.
Qed.

Lemma yields_fs {A} (Q : A -> Prop) (c : M (fsw E) A) : yields Q c -> yields Q (fs c).
Proof. intros H w. specialize (H (pw_fs w)). unfold fs. destruct (c (pw_fs w)) as [[e|a] s]; [exact I|exact H]. Qed.

Lemma yields_errno {A} (Q : A -> Prop) (c : PM A) : yields Q c -> yields Q (errno c).
Proof. intros H w. specialize (H w). unfold errno. destruct (c w) as [[e|a] s]; [exact I|exact H]. Qed.
End Buffers.

(** ** What validation guarantees *)
Section Validated.
Context (m : mem) (op p n base top : Z).
Hypothesis Hv : cp32_fproc_validate m op p n base top = 0.

Lemma if_err (b : bool) (e x : Z) : e <> 0 -> (if b then e else x) = 0 -> b = false /\ x = 0.
Proof. intros He. by destruct b. Qed.

Lemma validated_size :
  (op = CP32_APP_FSINFO -> n = 24) /\ (op = CP32_APP_FSTAT -> n = 36) /\ (op = CP32_APP_READDIR -> n = 20) /\
  (op = CP32_APP_STAT -> n = 292) /\ (op = CP32_APP_PREAD -> n = 72) /\ (op = CP32_APP_TIME -> n = 4).
Proof.
  split_and!; intros ->; revert Hv; unfold cp32_fproc_validate; cbn -[Z.land mem_read outside];
    repeat (case_match; [done|]); repeat case_match; lia.
Qed.

Lemma validated_span : buffer_size op n <> 0 -> outside p n base top = false.
Proof.
  revert Hv. unfold buffer_size, cp32_fproc_validate. cbv zeta. change (op_in op (CP32_APP_TIME :: CP32_APP_STIME :: CP32_APP_UTIME :: buffer_ops))
    with ((op =? CP32_APP_TIME) || ((op =? CP32_APP_STIME) || ((op =? CP32_APP_UTIME) || op_in op buffer_ops))).
  rewrite orb_assoc. destruct ((op =? CP32_APP_TIME) || (op =? CP32_APP_STIME)).
  { cbn [orb]. intros (H & _)%if_err; [|done]. rewrite !orb_false_iff, negb_false_iff, Z.eqb_eq in H. by destruct H as [[-> _] H]. }
  destruct (op =? CP32_APP_UTIME).
  { cbn [orb]. intros H _. apply if_err in H as [_ H]; [|done]. apply if_err in H as [H _]; [|done]. by apply orb_false_iff in H as [_ H]. }
  cbn [orb]. intros H. do 2 (apply if_err in H as [_ H]; [|done]). revert H. destruct (op_in op buffer_ops); [|done]. intros H Hn.
  do 10 (apply if_err in H as [_ H]; [|done]). apply if_err in H as [H _]; [|done].
  apply andb_false_iff in H as [H%truthy_false|H]; done.
Qed.
End Validated.

Section FileBuffers.
Context {E : Type} `{DSK : Disk E} `{CON : Console E}.
Hypothesis Hfill : fills E.
Abbreviation PM := (M (fsproc E)).
(** A request that was validated, and its buffer. *)
Context (m : mem) (op ptr arg base top : Z) (buffer : list Z).
Hypothesis Harg : 0 <= arg.
Hypothesis Hv : cp32_fproc_validate m op ptr arg base top = 0.
Hypothesis Hlen : lenZ buffer = buffer_size op arg.

(** The value of a request: its buffer has kept its size. *)
Abbreviation sized := (fun x : Z * list Z => lenZ (snd x) = lenZ buffer).

Lemma sized_done r : yields (W := fsproc E) sized (done r buffer).
Proof. by apply yields_ret. Qed.

Lemma sized_put r at_ bs : 0 <= at_ -> at_ + lenZ bs <= lenZ buffer -> yields (W := fsproc E) sized (done r (splice buffer at_ bs)).
Proof. intros. apply yields_ret. by apply lenZ_splice. Qed.

Lemma size_of_op l : op_in op (CP32_APP_TIME :: CP32_APP_STIME :: CP32_APP_UTIME :: buffer_ops) = l -> lenZ buffer = if l then arg else 0.
Proof. intros <-. exact Hlen. Qed.

(** Requests that give the buffer back as it was. *)
Ltac same_buffer := repeat first [ apply sized_done | apply yields_fail | apply yields_guard; intros _ | apply yields_bind; intros ? | case_match ].

Lemma sized_position fd : op = CP32_APP_PREAD \/ op = CP32_APP_PWRITE -> yields sized (app_position fd op buffer).
Proof.
  intros Hop. unfold app_position. apply yields_guard. intros Hg. destruct (Z.eqb_spec op CP32_APP_PWRITE) as [|Hne]; [same_buffer|].
  destruct Hop as [Hop|]; [|done]. assert (Harg72 : arg = 72) by by apply (validated_size m op ptr arg base top Hv).
  assert (Hb : lenZ buffer = arg) by (rewrite (size_of_op true); [done|by rewrite Hop]).
  rewrite !orb_false_iff, !Z.ltb_ge in Hg. destruct Hg as [[Hc _] _].
  eapply yields_val; [by apply yields_errno, yields_fs, yields_fd_pread|].
  intros bytes [Hbytes _]. apply sized_put; lia.
Qed.

Lemma sized_on_fd p write slot fd : yields sized (app_on_fd p write slot fd op buffer arg).
Proof.
  destruct (validated_size m op ptr arg base top Hv) as (Hinfo & Hstat & Hdir & Hpath & Hpread & Htime).
  unfold app_on_fd. destruct ((op =? CP32_APP_PREAD) || (op =? CP32_APP_PWRITE)) eqn:Epos.
  { apply sized_position. apply orb_true_iff in Epos. lia. }
  destruct (op =? CP32_APP_FCHMOD); [same_buffer|]. destruct (op =? CP32_APP_FTRUNCATE); [same_buffer|].
  destruct (op =? CP32_APP_WRITE); [same_buffer|]. destruct (Z.eqb_spec op CP32_APP_FSTAT) as [Hop|_].
  { apply yields_bind. intros info. apply sized_put; [done|]. rewrite (size_of_op true) by (by rewrite Hop).
    unfold stat_record. rewrite lenZ_le_words, Hstat by done. done. }
  destruct (Z.eqb_spec op CP32_APP_READDIR) as [Hop|_].
  { eapply yields_val; [by apply yields_errno, yields_fs, yields_fd_readdir|]. intros [[inode name]|] Hname; [|apply sized_done].
    apply sized_put; [done|]. rewrite (size_of_op true), Hdir by (done || by rewrite Hop). cbn [name14] in Hname. unfold lenZ in *. rewrite !length_app.
    change (length (le_words [inode])) with 4%nat. cbn [length]. lia. }
  destruct (op =? CP32_APP_CLOSE); [same_buffer|]. destruct (Z.eqb_spec op CP32_APP_READ) as [Hop|_]; [|same_buffer].
  apply yields_guard. intros _. eapply yields_val; [by apply yields_errno, yields_fs, yields_fd_read|].
  intros bytes [Hbytes _]. apply sized_put; [done|]. rewrite (size_of_op true) by (by rewrite Hop). lia.
Qed.

Lemma sized_file p read write capacity fd : yields sized (cp32_fproc_file p read write capacity op fd buffer arg).
Proof.
  destruct (validated_size m op ptr arg base top Hv) as (Hinfo & Hstat & Hdir & Hpath & Hpread & Htime).
  unfold cp32_fproc_file. apply yields_bind. intros x. apply yields_guard. intros _.
  destruct (op =? CP32_APP_SYNC); [apply sized_done|]. destruct (Z.eqb_spec op CP32_APP_FSINFO) as [Hop|_].
  { apply yields_bind. intros info. apply sized_put; [done|]. rewrite (size_of_op true), Hinfo by (done || by rewrite Hop). done. }
  do 8 (case_match; [same_buffer|]). destruct (Z.eqb_spec op CP32_APP_GETCWD) as [Hop|_].
  { apply yields_guard. intros Hg. apply sized_put; [done|]. rewrite (size_of_op true) by (by rewrite Hop).
    apply Z.ltb_ge in Hg. clear -Hg. unfold lenZ in *. rewrite length_app. cbn [length]. lia. }
  do 2 (case_match; [same_buffer|]). destruct (Z.eqb_spec op CP32_APP_STAT) as [Hop|_].
  { apply yields_guard. intros _. apply yields_bind. intros info. apply sized_put; [done|].
    rewrite (size_of_op true), Hpath by (done || by rewrite Hop). unfold stat_record. by rewrite lenZ_le_words. }
  do 2 (case_match; [same_buffer|]). apply yields_guard. intros _. cbv zeta.
  do 2 (case_match; [same_buffer|]). apply sized_on_fd.
Qed.

Lemma yields_files {A} (Q : A -> Prop) (c : PM A) : yields Q c -> yields Q (file_call c).
Proof.
  intros H s. specialize (H (Fork.b_files (a_w s))). unfold file_call, broker_call, Fork.files.
  destruct (c (Fork.b_files (a_w s))) as [[e|a] f]; [exact I|exact H].
Qed.

Lemma sized_clock clock : op = CP32_APP_TIME \/ op = CP32_APP_STIME -> yields sized (clock_request clock op buffer).
Proof.
  intros Hop. unfold clock_request. destruct (Z.eqb_spec op CP32_APP_STIME) as [|Hne]; [same_buffer|].
  assert (Ht : op = CP32_APP_TIME) by tauto. apply yields_bind. intros now. apply sized_put; [done|].
  rewrite (size_of_op true) by (by rewrite Ht). assert (arg = 4) by by apply (validated_size m op ptr arg base top Hv).
  rewrite lenZ_le_words. cbn [lenZ length]. unfold lenZ. cbn [length]. lia.
Qed.

Lemma sized_sync read write cap fd : yields sized (sync_request read write cap op fd buffer arg).
Proof.
  unfold sync_request. eapply yields_val; [apply sized_file|]. intros [r b] Hb. cbn [fst snd] in *.
  case_match; [by apply yields_ret|]. apply yields_bind. intros z. by apply yields_ret.
Qed.

Lemma sized_app_file read write clock fd : yields sized (cp32_shell_app_file read write clock op fd buffer arg).
Proof.
  unfold cp32_shell_app_file. apply yields_bind. intros cap.
  destruct ((op =? CP32_APP_TIME) || (op =? CP32_APP_STIME)) eqn:Et; [apply yields_files, sized_clock; apply orb_true_iff in Et; lia|].
  destruct (op =? CP32_APP_UTIME); [apply yields_files; same_buffer|].
  destruct ((op =? CP32_APP_SYNC) || (op =? CP32_APP_FSYNC)); [apply yields_files, sized_sync|]. destruct (op =? CP32_APP_RENAME).
  { repeat (apply yields_bind; intros ?). by apply yields_ret. }
  destruct (op =? CP32_APP_RMDIR); [apply yields_bind; intros _; by apply yields_ret|]. apply yields_files, sized_file.
Qed.
End FileBuffers.
