(* ===== verification/AppSpec.v ===== *)
(** * What the requests of the foreground program may change

    [turn_confined]: no request, whatever its arguments, writes outside the
    program's image and the heap of the memory service; all but fork and exec
    leave even the program's text alone, and the break stays between the end of
    the data and the stack.  [application_pid_fresh]: a process identifier is always found. *)
From S2P Require Import Prelude Codec Kconst FsTypes FdTable Alloc Ktypes Sched Ipc IpcSpec Process Mm Storage.
From S2P Require Import MemDisk Path Filedes Fproc Appfile Signals Fork ForkFiles ForkSpec ForkJoin App AppBuf.
From S2P Require Image Exec.

Definition data_area (a : Z) : Prop := Image.CP32_APP_DATA <= a < Image.CP32_APP_TOP.
Definition image_area (a : Z) : Prop := IMAGE_BASE <= a < Image.CP32_APP_TOP.

Definition break_in (floor brk : Z) : Prop := Image.CP32_APP_DATA <= floor <= brk /\ brk <= Image.CP32_APP_STACK.

(** ** Frames *)
Section Frames.
Context {E : Type}.

(** The break of the running program and that of a parent that waits. *)
Definition break_ok (w : broker E) : Prop :=
  break_in (b_floor w) (b_brk w) /\
  (f_parent (b_forked w) <> NIL_PROC -> break_in (f_floor (b_forked w)) (f_brk (b_forked w))).

Record frame (R : Z -> Prop) (w w' : broker E) : Prop := {
  fr_mem : forall a, ~ R a -> k_mem (b_k w') a = k_mem (b_k w) a;
  fr_break : break_ok w -> break_ok w' }.

#[local] Instance frame_preorder_app R : PreOrder (frame R).
Proof.
  split; [done|]. intros w1 w2 w3 [M1 B1] [M2 B2]. split; [|auto]. intros a Ha. by rewrite M2, M1.
Qed.

Lemma frame_weaken (R R' : Z -> Prop) w w' : (forall a, R a -> R' a) -> frame R w w' -> frame R' w w'.
Proof. intros HR [M1 B1]. split; [|done]. intros a Ha. apply M1. auto. Qed.

(** The same for the state of the runner. *)
Definition aframe (R : Z -> Prop) (s s' : app E) : Prop := frame R (a_w s) (a_w s').

#[local] Instance aframe_preorder R : PreOrder (aframe R).
Proof. split; [intros s; apply frame_preorder_app|intros s1 s2 s3; apply frame_preorder_app]. Qed.

Definition mem_same (k k' : kst) : Prop := k_mem k' = k_mem k.
#[local] Instance mem_same_preorder : PreOrder mem_same.
Proof. split; [done|]. intros k1 k2 k3 H1 H2. unfold mem_same in *. congruence. Qed.

Lemma frame_files {A} R (c : M (fsproc E) A) : keeps (frame R) (files c).
Proof. intros w. unfold files. destruct (c (b_files w)) as [r f]. done. Qed.

Lemma frame_kernel {A} R (c : KM A) : keeps mem_same c -> keeps (frame R) (kernel c).
Proof.
  intros H w. specialize (H (b_k w)). unfold kernel. destruct (c (b_k w)) as [r k]. cbn [snd] in *.
  split; [|done]. intros a _. cbn. by rewrite H.
Qed.

Lemma frame_modify R (f : broker E -> broker E) :
  (forall w, k_mem (b_k (f w)) = k_mem (b_k w) /\ b_floor (f w) = b_floor w /\ b_brk (f w) = b_brk w /\
    f_parent (b_forked (f w)) = f_parent (b_forked w) /\ f_floor (b_forked (f w)) = f_floor (b_forked w) /\
    f_brk (b_forked (f w)) = f_brk (b_forked w)) -> keeps (frame R) (modify f).
Proof.
  intros H w. destruct (H w) as (H1 & H2 & H3 & H4 & H5 & H6). split; cbn [snd modify].
  - intros a _. by rewrite H1.
  - unfold break_ok. by rewrite H2, H3, H4, H5, H6.
Qed.

(** Bytes stored inside [R]. *)
Lemma frame_store (R : Z -> Prop) p bs w :
  (forall a, p <= a < p + lenZ bs -> R a) -> frame R w (snd (kernel (modify (store_mem p bs)) w)).
Proof.
  intros H. split; [|done]. intros a Ha. unfold kernel, modify, store_mem. cbn. apply mem_write_out.
  destruct (Z.lt_ge_cases a p); [by left|right]. destruct (Z.lt_ge_cases a (p + lenZ bs)); [|done]. exfalso. apply Ha. apply H. lia.
Qed.

Lemma aframe_broker {A} R (c : M (broker E) A) : keeps (frame R) c -> keeps (aframe R) (broker_call c).
Proof. intros H s. specialize (H (a_w s)). unfold broker_call. by destruct (c (a_w s)) as [r w]. Qed.

Lemma aframe_files {A} R (c : M (fsproc E) A) : keeps (aframe R) (file_call c).
Proof. apply aframe_broker, frame_files. Qed.

Lemma aframe_kernel {A} R (c : KM A) : keeps mem_same c -> keeps (aframe R) (kernel_call c).
Proof. intros. by apply aframe_broker, frame_kernel. Qed.

Lemma aframe_store (R : Z -> Prop) p bs s :
  (forall a, p <= a < p + lenZ bs -> R a) -> aframe R s (snd (kernel_call (modify (store_mem p bs)) s)).
Proof. intros H. apply (frame_store R p bs (a_w s) H). Qed.

Lemma aframe_status {A} R (ok : A -> Z) r : keeps (aframe R) (status ok r).
Proof. unfold status. keeps_solve. Qed.

(** A statement about one state composes along a computation. *)
Lemma run_bind {W A B} (I : W -> W -> Prop) `{!PreOrder I} (c : M W A) (k : A -> M W B) w :
  I w (snd (c w)) -> (forall a w', c w = (Ok a, w') -> I w' (snd (k a w'))) -> I w (snd (bind c k w)).
Proof.
  intros Hc Hk. unfold bind. destruct (c w) as [[e|a] w'] eqn:Ec; [done|]. cbn [snd] in *. etransitivity; [done|]. by apply Hk.
Qed.
End Frames.

#[export] Existing Instance frame_preorder_app.
#[export] Existing Instance aframe_preorder.
#[export] Existing Instance mem_same_preorder.
#[export] Hint Resolve frame_files aframe_files aframe_status : keeps.

(** ** The kernel's part *)
Lemma mem_same_release p : keeps mem_same (cp32_proc_release p).
Proof.
  intros k. unfold cp32_proc_release. rewrite bind_gets, bind_guard. destruct (bad_release k p); [done|].
  cbn. unfold mem_same. apply (ForkJoin.settled_mem (p_nr (k_proc k p)) p k).
Qed.

Lemma mem_same_clone parent child pid b : keeps mem_same (cp32_proc_clone parent child pid b).
Proof. unfold cp32_proc_clone. keeps_solve. Qed.

Lemma mem_same_frame rp pc sp arg : keeps mem_same (cp32_exec_frame rp pc sp arg).
Proof. unfold cp32_exec_frame. keeps_solve. Qed.

Lemma mem_same_ready p : keeps mem_same (modify (lock_ready p)).
Proof. intros k. cbn. unfold lock_ready, locked, mem_same. cbn [k_mem set_k_switching]. by rewrite (sl_mem _ _ (ready_links _ _)). Qed.

#[export] Hint Resolve mem_same_release mem_same_clone mem_same_frame mem_same_ready : keeps.

Lemma span_in p n a : bad_span p n = false -> p <= a < p + n -> data_area a.
Proof. unfold bad_span, outside, data_area. rewrite !orb_false_iff, !Z.ltb_ge. lia. Qed.

Lemma break_exact floor brk increment :
  break_in floor brk ->
  match application_break floor brk increment with
  | Ok brk' => break_in floor brk'
  | Err e => e = -1
  end.
Proof.
  intros [H1 H2]. unfold application_break. rewrite (proj2 (Z.ltb_ge brk floor)), (proj2 (Z.ltb_ge _ brk)) by lia. cbn [orb].
  unfold break_in, Image.CP32_APP_STACK, Image.CP32_APP_DATA in *. rewrite !(wrap32_small (_ - _)) by lia.
  destruct (0 <=? increment).
  - pose proof (wrap32_range increment). destruct (Z.ltb_spec (1070526464 - brk) (wrap32 increment)); [done|]. rewrite wrap32_small by lia. lia.
  - pose proof (wrap32_range (wrap32 (- (increment + 1)) + 1)). destruct (Z.ltb_spec (brk - floor) (wrap32 (- (increment + 1)) +u 1)); [done|]. rewrite (wrap32_small (brk - _)) by lia. lia.
Qed.

Section Requests.
Context {E : Type} `{DSK : Disk E} `{TRAP : Transport} `{CON : Console E}.
Context (heap_base heap_size : Z) (read write clock : fptr) (services : Z).
Hypothesis Hfill : fills E.
Abbreviation dframe := (aframe (E := E) data_area).

Lemma frame_wait pid p options : keeps (frame data_area) (cp32_fork_wait (E := E) pid p options).
Proof.
  intros w. unfold cp32_fork_wait. rewrite !bind_guard. do 2 (case_match; [done|]).
  rewrite bind_gets, bind_guard. case_match; [done|]. destruct (wait_slot _ pid) as [n|]; [|done].
  destruct (wait_at _ n) as [c st]. rewrite bind_guard. destruct (truthy p && _) eqn:Ep; [done|].
  apply (run_bind (frame data_area)).
  - destruct (truthy p); [|done]. apply frame_store. intros a Ha. change (lenZ (word_bytes st)) with 4 in Ha. cbn [andb] in Ep.
    rewrite !orb_false_iff, !Z.ltb_ge in Ep. unfold data_area. lia.
  - intros [] w' Hw. assert (Hf : b_forked w' = b_forked w) by (destruct (truthy p); by injection Hw as <-).
    rewrite <- Hf. done.
Qed.

Lemma aframe_sbrk m s : break_ok (a_w s) -> dframe s (snd (app_sbrk m s)).
Proof.
  intros [Hb Hp]. unfold app_sbrk. rewrite bind_gets. pose proof (break_exact _ _ (q_i1 m) Hb) as He.
  destruct (application_break _ _ _) as [e|brk]; [done|].
  apply (run_bind dframe); [by split|]. intros _ s1 [= <-].
  apply (run_bind dframe); [|intros; done]. cbn [a_w set_w]. destruct (Z.ltb_spec (b_brk (a_w s)) brk); [|done].
  apply aframe_store. intros a Ha. unfold lenZ in Ha. rewrite length_replicate in Ha. destruct He, Hb.
  unfold break_in, data_area, Image.CP32_APP_DATA, Image.CP32_APP_STACK, Image.CP32_APP_TOP in *.
  rewrite wrap32_small in Ha by lia. lia.
Qed.

Lemma input_length n : yields (fun x => lenZ (snd x) <= Z.max 0 n) (cp32_shell_app_input (E := E) n).
Proof.
  unfold cp32_shell_app_input. apply yields_guard. intros _. apply yields_bind. intros x. apply yields_bind. intros [r bytes].
  apply yields_ret. cbn [snd]. destruct ((0 <? r) && (r <=? n)) eqn:Er; [|change (0 <= Z.max 0 n); lia].
  apply andb_true_iff in Er. unfold lenZ. rewrite length_take. lia.
Qed.

Lemma aframe_read m s : dframe s (snd (app_read m s)).
Proof.
  unfold app_read. destruct (_ || bad_span _ _) eqn:Eb; [done|]. destruct (q_i1 m =? 0) eqn:E0; [done|].
  rewrite !orb_false_iff in Eb. destruct Eb as [[Hn _] Hspan]. rewrite bind_try.
  pose proof (yields_files _ _ (input_length (q_i1 m)) s) as Hy. pose proof (aframe_files (E := E) data_area (cp32_shell_app_input (q_i1 m)) s) as Hk.
  destruct (file_call _ s) as [[e|[r bytes]] s1]; cbn [snd] in *; [done|].
  etransitivity; [exact Hk|]. apply (run_bind dframe); [|intros; done]. apply aframe_store. intros a Ha.
  apply (span_in _ _ _ Hspan). lia.
Qed.

Lemma aframe_write m s : dframe s (snd (app_write m s)).
Proof. unfold app_write. by destruct (_ || bad_span _ _). Qed.

Lemma aframe_app_file op fd buffer arg : keeps dframe (cp32_shell_app_file read write clock op fd buffer arg).
Proof.
  unfold cp32_shell_app_file. 
  assert (Hm : forall x, keeps dframe (modify (set_previous x))) by (intros x s; done).
  keeps_solve.
Qed.

Lemma aframe_file_request m s : dframe s (snd (application_file_request read write clock m s)).
Proof.
  unfold application_file_request. rewrite bind_gets. cbv zeta. rewrite bind_guard.
  destruct (truthy _) eqn:Er; [done|]. apply truthy_false in Er.
  pose proof (wrap32_range (q_i3 m)) as Harg. set (arg := wrap32 (q_i3 m)) in *. set (op := wrap32 (q_i1 m)) in *. set (mm := k_mem (b_k (a_w s))) in *.
  set (buffer := mem_read mm (q_p1 m) (buffer_size op arg)).
  assert (Hlen : lenZ buffer = buffer_size op arg).
  { unfold buffer. apply lenZ_mem_read. unfold buffer_size. case_match; lia. }
  pose proof (sized_app_file Hfill mm op (q_p1 m) arg _ _ buffer ltac:(lia) Er Hlen read write clock (q_i2 m) s) as Hy.
  apply (run_bind dframe); [apply aframe_app_file|]. intros [r b] s1 Hs1. rewrite Hs1 in Hy. cbn [snd] in Hy.
  apply (run_bind dframe); [|intros; done]. apply aframe_store. intros a Ha. rewrite Hy, Hlen in Ha.
  assert (Hne : buffer_size op arg <> 0) by lia. pose proof (validated_span _ _ _ _ _ _ Er Hne) as Hspan.
  apply (span_in (q_p1 m) arg); [exact Hspan|]. unfold buffer_size in Ha. case_match; lia.
Qed.

(** ** The image of exec *)
Lemma app_read_bytes fd off n : yields (Forall is_byte) (cp32_shell_app_read (E := E) fd off n).
Proof.
  unfold cp32_shell_app_read. apply yields_bind. intros [e|x]; [apply yields_fail|].
  apply (yields_loop (Forall is_byte)); [|intros a Ha; by apply yields_ret|constructor].
  intros acc Hacc. unfold app_read_turn. destruct (lenZ acc <? n); [|by apply yields_ret].
  apply (yields_val (fun r => match r with Ok bs => Forall is_byte bs | Err _ => True end)).
  - intros w. unfold try, fs. pose proof (yields_fd_read Hfill fd nonnull (n - lenZ acc) (pw_fs w)) as H.
    destruct (cp32_fd_read _ _ _ _) as [[e|bs] s]; [done|apply H].
  - intros [e|bs] Hbs; [apply yields_fail|]. apply yields_guard. intros _. apply yields_ret. by apply Forall_app.
Qed.
End Requests.

(** The data segment of an image that was accepted fits below the stack. *)
Definition data_fits (image : Image.cp32_image) : Prop := 0 <= Image.memsz (Image.data image) <= Image.CP32_APP_STACK - Image.CP32_APP_DATA.

Section ImageBounds.
Context {C : Type} (reader : Z -> Z -> M C (list Z)).
Hypothesis Hbytes : forall off n, yields (Forall is_byte) (reader off n).

Lemma yields_fetch off n : yields (Forall is_byte) (Image.fetch reader off n).
Proof. intros w. unfold Image.fetch. pose proof (Hbytes off n w) as H. by destruct (reader off n w) as [[e|bs] c]. Qed.

Lemma u32_nonneg p : Forall is_byte p -> 0 <= Image.u32 p.
Proof.
  intros Hp. assert (H : forall i, 0 <= nthZ p i).
  { intros i. unfold nthZ. rewrite nth_lookup. destruct (p !! Z.to_nat i) as [x|] eqn:Hx; cbn; [|lia].
    eapply Forall_lookup_1 in Hx; [|exact Hp]. unfold is_byte in Hx. lia. }
  unfold Image.u32. rewrite !Z.lor_nonneg. split_and!; try apply H; apply wrap32_range.
Qed.

Lemma Forall_ptr_add p n : Forall is_byte p -> Forall is_byte (ptr_add p n).
Proof. intros. unfold ptr_add. by apply Forall_drop. Qed.

Lemma yields_data size phoff :
  yields (fun s => 0 <= Image.memsz s <= Image.CP32_APP_STACK - Image.CP32_APP_DATA) (Image.read_segment reader size phoff 1).
Proof.
  unfold Image.read_segment. eapply yields_val; [apply yields_fetch|]. intros p Hp. cbv zeta. apply yields_guard. intros Hbad.
  apply yields_ret. unfold Image.bad_segment in Hbad. rewrite !orb_false_iff in Hbad. destruct Hbad as [[[[[[[[[[[_ _] _] Ha] _] _] _] Hl] _] _] _] _].
  apply negb_false_iff in Ha. change (truthy 1) with true in *. cbv iota in Ha. apply Z.eqb_eq in Ha. rewrite Ha in Hl.
  split; [apply u32_nonneg; by apply Forall_ptr_add|]. apply Z.ltb_ge in Hl. exact Hl.
Qed.

Lemma yields_image size : yields data_fits (Image.cp32_image_load reader size).
Proof.
  unfold Image.cp32_image_load. apply (yields_val data_fits).
  - intros w. unfold Image.in_context.
    assert (H : yields data_fits (Image.cp32_image_read reader size)); [|specialize (H (Image.context w)); by destruct (Image.cp32_image_read _ _ _) as [[e|a] x]].
    unfold Image.cp32_image_read. do 5 yields_step. cbv zeta. apply yields_bind. intros t.
    eapply yields_val; [apply yields_data|]. intros d Hd. do 2 yields_step. by apply yields_ret.
  - intros image Hi. do 3 (apply yields_bind; intros _). by apply yields_ret.
Qed.
End ImageBounds.

Lemma heap_floor_in image : data_fits image -> break_in (heap_floor image) (heap_floor image).
Proof.
  unfold data_fits, heap_floor, break_in. set (n := Image.memsz _). unfold Image.CP32_APP_DATA, Image.CP32_APP_STACK. intros Hn.
  rewrite (wrap32_small (_ + n)) by lia. change (not32 15) with (4294967295 - 15). rewrite Exec.round16 by lia.
  Z.div_mod_to_equations. lia.
Qed.

(** ** fork, exec and exit *)
Section Broker.
Context {E : Type} `{DSK : Disk E} `{TRAP : Transport} `{CON : Console E}.
Context (heap_base heap_size : Z) (read write clock : fptr) (services : Z).
Hypothesis Hfill : fills E.
Hypothesis Hb : 0 < heap_base.
Hypothesis Hs : 0 <= heap_size.
Hypothesis He : heap_base + heap_size <= 0x100000.
Hypothesis Hmm : forall k, sendrec_status k MM_PROC_NR = OK.
Abbreviation heap_ok := (heap_ok heap_base heap_size).
Abbreviation gained := (gained heap_base heap_size).

(** What a request may write: the image, and the heap for staging and copies. *)
Definition broker_area (a : Z) : Prop :=
  image_area a \/ heap_base * CLICK_SIZE <= a < (heap_base + heap_size) * CLICK_SIZE.
Abbreviation bframe := (frame (E := E) broker_area).

Lemma frame_sendrec (m : Mm.message) : keeps bframe (sendrec_mm heap_base heap_size m).
Proof. intros w. unfold sendrec_mm. case_match; [done|]. case_match; [|done]. by destruct p as [[|] ?]. Qed.

Lemma frame_free base : keeps bframe (fork_free heap_base heap_size base).
Proof. unfold fork_free. pose proof frame_sendrec. keeps_solve. Qed.

Lemma frame_copy src dst n (w : broker E) :
  0 <= n -> (forall a, dst <= a < dst + n -> broker_area a) -> bframe w (snd (kernel (modify (phys_copy src dst n)) w)).
Proof. intros Hn H. apply frame_store. by rewrite lenZ_mem_read. Qed.

Lemma frame_suspend s : keeps bframe (set_suspended s).
Proof. apply frame_files. Qed.

Lemma frame_clone parent pid slots : keeps mem_same (clone_first parent pid slots).
Proof. induction slots as [|n slots IH]; cbn [clone_first]; keeps_solve. Qed.

Hint Resolve frame_sendrec frame_free frame_suspend frame_clone frame_files : keeps.

Lemma frame_files_fork pid : keeps bframe (cp32_shell_app_files_fork (E := E) pid).
Proof. unfold cp32_shell_app_files_fork. keeps_solve. Qed.
Lemma frame_files_restore : keeps bframe (cp32_shell_app_files_restore (E := E)).
Proof. unfold cp32_shell_app_files_restore. keeps_solve. Qed.

(** The region of an allocation lies in the heap. *)
Lemma region_in base n (a a' : allocator) x :
  gained a a' base n FS_PROC_NR -> base * CLICK_SIZE <= x < base * CLICK_SIZE + n * CLICK_SIZE -> broker_area x.
Proof. intros (H1 & H2 & _) Hx. right. unfold CLICK_SIZE in *. lia. Qed.

Lemma frame_upd p f : keeps bframe (kernel (modify (upd p f))).
Proof. apply frame_kernel. by intros k. Qed.

(** The break of the program that runs next. *)
Lemma frame_run child ppid floor brk : break_in floor brk -> keeps bframe (modify (set_run child ppid floor brk)).
Proof. intros Hin w. split; [done|]. by intros [_ Hp]. Qed.

(** The parent's break goes to the record of the fork. *)
Lemma frame_forked parent base slot :
  keeps bframe (modify (fun w => set_forked (Forked parent base (b_floor w) (b_brk w) (b_ppid w) slot (f_waits (b_forked w))) w)).
Proof. intros w. split; [done|]. by intros [Hin _]. Qed.

Lemma frame_started child (ppid : broker E -> Z) : keeps bframe (modify (fun w => set_run child (ppid w) (b_floor w) (b_brk w) w)).
Proof. intros w. done. Qed.

Hint Resolve frame_upd frame_run frame_forked frame_started frame_files_fork frame_files_restore : keeps.

Lemma frame_fork_start pid (w : broker E) C Q H :
  broker_ok heap_base heap_size w C Q H -> break_ok w -> bframe w (snd (cp32_fork_start heap_base heap_size pid w)).
Proof.
  intros [HP Ha Hfs Hrec Hwaits _] [Hbrk _]. unfold cp32_fork_start. rewrite !bind_gets, bind_guard. case_match; [done|].
  rewrite bind_guard. case_match; [done|]. rewrite bind_guard. case_match; [done|].
  destruct (sendrec_allocate heap_base heap_size Hb Hs He Hmm FORK_CLICKS w Ha Hfs) as (r & m & a & ES & Ha' & Hout); [done|].
  unfold bind at 1. rewrite ES. rewrite bind_guard. case_match; [done|]. unfold bad_reply in *. cbn [fst snd m_source m_type m1_i1] in *.
  destruct Hout as [(-> & _)|(-> & Hm0 & Hm & Hg)]; [done|]. rewrite Hm.
  assert (Himg : m <<u CLICK_SHIFT = m * CLICK_SIZE).
  { destruct Hg as (? & ? & ? & _). unfold CLICK_SHIFT, CLICK_SIZE. rewrite Z.shiftl_mul_pow2 by lia. change FORK_CLICKS with 9 in *. apply wrap32_small. lia. }
  rewrite Himg. set (w0 := set_heap a w). transitivity w0; [done|].
  apply (run_bind bframe); [apply frame_copy; [done|]; intros x Hx; apply (region_in m FORK_CLICKS (b_heap w) a); [done|]; change FORK_CLICKS with 9; unfold IMAGE_BYTES, CLICK_SIZE in *; lia|].
  intros _ w1 _. apply (keeps_bind bframe); [apply keeps_try, frame_files_fork|]. intros [e|_].
  - keeps_solve.
  - apply (keeps_bind bframe); [apply frame_kernel, frame_clone|]. intros c. case_match; keeps_solve.
Qed.

Lemma frame_finish status (w : broker E) :
  break_ok w -> f_parent (b_forked w) <> NIL_PROC -> bframe w (snd (cp32_fork_finish heap_base heap_size status w)).
Proof.
  intros [_ Hp] Hact. specialize (Hp Hact). unfold cp32_fork_finish. rewrite !bind_gets.
  assert (Hcopy : forall src, keeps bframe (kernel (modify (phys_copy src IMAGE_BASE IMAGE_BYTES)))).
  { intros src w'. apply frame_copy; [done|]. intros a Ha. left. unfold image_area. change Image.CP32_APP_TOP with (IMAGE_BASE + IMAGE_BYTES). lia. }
  assert (Hidle : keeps bframe (modify (fun w => set_forked (Forked NIL_PROC 0 (f_floor (b_forked w)) (f_brk (b_forked w)) (f_ppid (b_forked w))
                                 (f_slot (b_forked w)) (f_waits (b_forked w))) w))) by (intros w'; split; [done|]; by intros [Hin _]).
  assert (Htimes : forall p c, keeps bframe (kernel (modify (add_child_times p c)))) by (intros; apply frame_kernel; by intros k).
  apply (keeps_bind bframe); [by apply frame_modify|]. intros _. apply (keeps_bind bframe); [apply frame_files_restore|]. intros _.
  apply (keeps_bind bframe); [apply Htimes|]. intros _. apply (keeps_bind bframe); [apply keeps_try, frame_kernel, mem_same_release|].
  intros [e|_]; [keeps_solve|]. pose proof frame_free. keeps_solve.
Qed.

(** Loading and building the stack write the staged image. *)
Lemma frame_overlay text data f g (w : broker E) w1 :
  (forall a, text <= a < text + 16384 -> broker_area a) -> (forall a, data <= a < data + 16384 -> broker_area a) ->
  b_k w1 = set_k_mem (overlay data 16384 g (overlay text 16384 f (k_mem (b_k w)))) (b_k w) ->
  b_floor w1 = b_floor w -> b_brk w1 = b_brk w -> b_forked w1 = b_forked w -> bframe w w1.
Proof.
  intros Ht Hd Ek E1 E2 E3. split; [|unfold break_ok; by rewrite E1, E2, E3].
  intros a Ha. rewrite Ek. cbn [k_mem set_k_mem]. unfold overlay, in_range.
  destruct (Z.leb_spec data a), (Z.ltb_spec a (data + 16384)); cbn [andb]; try (exfalso; apply Ha, Hd; lia);
  destruct (Z.leb_spec text a), (Z.ltb_spec a (text + 16384)); cbn [andb]; try done; exfalso; apply Ha, Ht; lia.
Qed.

Lemma frame_load reader size text data :
  (forall a, text <= a < text + 16384 -> broker_area a) -> (forall a, data <= a < data + 16384 -> broker_area a) ->
  keeps bframe (load_image (E := E) reader size text data).
Proof.
  intros Ht Hd w. unfold load_image. destruct (Image.cp32_image_load _ _ _) as [r st]. cbn [snd].
  by eapply (frame_overlay text data).
Qed.

Lemma frame_stack at_ argv :
  (forall a, at_ <= a < at_ + 512 -> broker_area a) -> keeps bframe (stack_image (E := E) at_ argv).
Proof.
  intros H w. unfold stack_image. destruct (Exec.cp32_exec_stack _ _ _ _ _) as [e|[b sp]]; [done|]. split; [|done].
  intros a Ha. cbn [b_k set_k k_mem set_k_mem snd]. unfold overlay, in_range.
  destruct (Z.leb_spec at_ a), (Z.ltb_spec a (at_ + 512)); cbn [andb]; try done. exfalso. apply Ha, H. lia.
Qed.

(** Staging at [stage], eight clicks of the heap. *)
Lemma frame_stage fd size stage argv :
  0 <= stage <= 4294967296 - 32768 -> (forall a, stage <= a < stage + 32768 -> broker_area a) ->
  keeps bframe (stage_image (E := E) fd size stage argv).
Proof.
  intros Hr H. unfold stage_image. rewrite !(wrap32_small (stage + _)) by lia.
  apply (keeps_bind bframe); [apply keeps_try, frame_load; intros; apply H; lia|]. intros r.
  apply (keeps_bind bframe); [apply frame_files|]. intros _. destruct r as [e|image]; [keeps_solve|].
  apply (keeps_bind bframe).
  { intros w. apply frame_store. intros a Ha. apply H. unfold lenZ in Ha. rewrite length_replicate in Ha. lia. }
  intros _. apply (keeps_bind bframe); [apply keeps_try, frame_stack; intros; apply H; lia|]. intros [e|sp]; keeps_solve.
Qed.

Lemma stage_fits fd size stage argv : yields (fun x => data_fits (fst x)) (stage_image (E := E) fd size stage argv).
Proof.
  unfold stage_image. apply (yields_val (fun r => match r with Ok image => data_fits image | Err _ => True end)).
  - intros w. unfold try, load_image. match goal with |- context [Image.cp32_image_load ?r ?s ?w0] =>
      pose proof (yields_image r (fun off n => app_read_bytes Hfill fd off n) s w0) as Hi; destruct (Image.cp32_image_load r s w0) as [[e|i] st] end; done.
  - intros r Hr. apply yields_bind. intros _. destruct r as [e|image]; [apply yields_fail|]. apply yields_bind. intros _.
    apply yields_bind. intros [e|sp]; [apply yields_fail|by apply yields_ret].
Qed.

Lemma frame_commit child stage path image sp :
  data_fits image -> keeps bframe (commit_image (E := E) services child stage path image sp).
Proof.
  intros Hfit. unfold commit_image. apply (keeps_bind bframe); [keeps_solve|]. intros k.
  apply (keeps_bind bframe); [keeps_solve|]. intros _. apply (keeps_bind bframe); [apply frame_files|]. intros _.
  apply (keeps_bind bframe); [intros w; apply frame_copy; [done|]; intros a Ha; left; unfold image_area, APP_TEXT_DATA, IMAGE_BASE, Image.CP32_APP_TEXT, Image.CP32_APP_TOP in *; lia|]. intros _.
  apply (keeps_bind bframe); [intros w; apply frame_copy; [done|]; intros a Ha; left; unfold image_area, IMAGE_BASE, Image.CP32_APP_DATA, Image.CP32_APP_TEXT, Image.CP32_APP_TOP in *; lia|]. intros _. cbv zeta.
  apply (keeps_bind bframe); [intros w; split; [done|]; intros [_ Hp]; split; [by apply heap_floor_in|exact Hp]|]. intros _.
  apply (keeps_bind bframe); [apply keeps_try, frame_kernel, mem_same_frame|]. intros [e|_]; [keeps_solve|]. unfold on_kernel.
  repeat (apply (keeps_bind bframe); [apply frame_upd|intros _]). apply frame_kernel, mem_same_ready.
Qed.

Lemma files_run {A} (c : M (fsproc E) A) (w : broker E) r w1 : files c w = (r, w1) -> w1 = set_files (b_files w1) w.
Proof. unfold files. destruct (c (b_files w)) as [x f]. by intros [= <- <-]. Qed.

Lemma frame_replace child m (w : broker E) C Q H :
  broker_ok heap_base heap_size w C Q H -> bframe w (snd (application_replace heap_base heap_size read services child m w)).
Proof.
  intros HB. unfold application_replace. cbv zeta. rewrite bind_guard. case_match; [done|]. rewrite bind_guard. case_match; [done|].
  rewrite bind_gets, bind_guard. case_match; [done|]. rewrite bind_guard. case_match; [done|].
  destruct (split_args _ _ _) as [e|argv]; [done|].
  apply (run_bind bframe); [apply frame_files|]. intros cap w1 Hw1. apply files_run in Hw1.
  apply (run_bind bframe); [apply frame_files|]. intros [fd size] w2 Hw2. apply files_run in Hw2.
  assert (Ha : heap_ok (b_heap w2)) by (rewrite Hw2, Hw1; apply HB). assert (Hfs : fs_valid (b_k w2)) by (rewrite Hw2, Hw1; apply HB).
  destruct (sendrec_allocate heap_base heap_size Hb Hs He Hmm (Z.shiftr 32768 CLICK_SHIFT) w2 Ha Hfs) as (r & n & a & ES & Ha' & Hout); [done|].
  unfold bind at 1. rewrite ES. unfold bad_reply. cbn [fst snd m_source m_type m1_i1]. set (w3 := set_heap a w2).
  transitivity w3; [done|].
  destruct Hout as [(-> & _)|(-> & Hn0 & Hn & Hg)]; [apply (keeps_bind bframe); [apply frame_files|intros; apply keeps_fail, _]|].
  change ((OK !=? OK) || (MM_PROC_NR !=? MM_PROC_NR) || (OK !=? OK)) with false. rewrite (proj2 (Z.eqb_neq n 0) Hn0). cbn [orb]. rewrite Hn.
  assert (Himg : 0 <= n <<u CLICK_SHIFT <= 4294967296 - 32768 /\ forall x, n <<u CLICK_SHIFT <= x < n <<u CLICK_SHIFT + 32768 -> broker_area x).
  { destruct Hg as (G1 & G2 & _). change (Z.shiftr 32768 CLICK_SHIFT) with 8 in *. unfold CLICK_SHIFT. rewrite Z.shiftl_mul_pow2 by lia.
    change (2 ^ 12) with 4096. rewrite wrap32_small by lia. split; [lia|]. intros x Hx. right. unfold CLICK_SIZE. lia. }
  destruct Himg as [Hrange Harea]. apply (keeps_bind bframe).
  - apply keeps_try, (keeps_bind_val bframe (fun x => data_fits (fst x))); [by apply frame_stage| |].
    + intros w' x w'' Hx. pose proof (stage_fits fd size (n <<u CLICK_SHIFT) argv w') as Hf. by rewrite Hx in Hf.
    + intros [image sp] Hfit. by apply frame_commit.
  - pose proof frame_free. intros [e|_]; keeps_solve.
Qed.

(** ** One turn *)
Lemma aframe_exit m : keeps (aframe (E := E) data_area) (app_exit m).
Proof.
  unfold app_exit, cp32_fork_reset, cp32_shell_app_files_reset.
  apply (keeps_bind (aframe data_area)); [keeps_solve|]. intros child.
  apply (keeps_bind (aframe data_area)); [by apply aframe_broker, frame_modify|]. intros _.
  apply (keeps_bind (aframe data_area)); [apply aframe_broker, frame_files|]. intros _.
  apply (keeps_bind (aframe data_area)); [keeps_solve|]. intros k.
  apply (keeps_bind (aframe data_area)); [keeps_solve|]. intros _.
  apply (keeps_bind (aframe data_area)); [apply keeps_try, aframe_kernel, mem_same_release|]. intros [e|_]; [keeps_solve|].
  apply (keeps_bind (aframe data_area)); [by intros s|]. intros _. keeps_solve.
Qed.

(** A request that runs no other program: not fork, exec or the exit of a child. *)
Definition ordinary (s : app E) (m : request) : Prop :=
  ~ (q_type m = APP_FILE /\ (q_i1 m = CP32_APP_FORK \/ q_i1 m = CP32_APP_EXEC)) /\
  (q_type m = APP_EXIT -> f_parent (b_forked (a_w s)) = NIL_PROC).

Abbreviation serve := (app_serve heap_base heap_size read write clock services).
Abbreviation turn_of := (application_turn heap_base heap_size read write clock services).

Lemma aframe_reply {A B} R (c : M (app E) A) (f : A -> M (app E) B) s :
  aframe R s (snd (c s)) -> (forall a, keeps (aframe R) (f a)) -> aframe R s (snd (bind c f s)).
Proof. intros Hc Hf. apply (run_bind (aframe R)); [done|]. intros a s' _. apply Hf. Qed.

Lemma data_in_broker a : data_area a -> broker_area a.
Proof. intros Ha. left. unfold data_area, image_area, IMAGE_BASE, Image.CP32_APP_DATA, Image.CP32_APP_TEXT in *. lia. Qed.

Lemma serve_data m s :
  break_ok (a_w s) -> ~ (q_type m = APP_FILE /\ (q_i1 m = CP32_APP_FORK \/ q_i1 m = CP32_APP_EXEC)) ->
  aframe data_area s (snd (serve m s)).
Proof.
  intros Hbrk Hm. unfold app_serve. rewrite bind_gets. cbv zeta. do 2 (case_match; [done|]).
  destruct (Z.eqb_spec (q_type m) APP_FILE) as [Hf|_].
  - destruct (Z.eqb_spec (q_i1 m) CP32_APP_FORK); [tauto|]. destruct (q_i1 m =? CP32_APP_WAITPID).
    { apply aframe_reply; [apply (keeps_try (aframe data_area)), aframe_broker, frame_wait|]. intros r. keeps_solve. }
    destruct (Z.eqb_spec (q_i1 m) CP32_APP_EXEC); [tauto|].
    apply aframe_reply; [|intros r; keeps_solve].
    pose proof (aframe_file_request read write clock Hfill m s) as Hreq. unfold try. by destruct (application_file_request _ _ _ _ _).
  - case_match; [apply aframe_reply; [by apply aframe_sbrk|intros; keeps_solve]|].
    case_match; [apply aframe_reply; [apply aframe_read|intros; keeps_solve]|].
    case_match; [apply aframe_reply; [apply aframe_write|intros; keeps_solve]|done].
Qed.

Lemma aframe_pid R : keeps (aframe (E := E) R) application_pid.
Proof. intros s. unfold application_pid. by destruct (try_pids _ _ _). Qed.

Lemma aframe_follow R : keeps (aframe (E := E) R) follow_child.
Proof. by intros s. Qed.

(** A call of the broker from a state of the runner. *)
Lemma aframe_at {A} R (c : M (broker E) A) s : frame R (a_w s) (snd (c (a_w s))) -> aframe R s (snd (try (broker_call c) s)).
Proof. intros Hc. unfold try, broker_call. by destruct (c (a_w s)) as [r w]. Qed.

Lemma serve_broker m s C Q H :
  broker_ok heap_base heap_size (a_w s) C Q H -> break_ok (a_w s) -> aframe broker_area s (snd (serve m s)).
Proof.
  intros HB Hbrk. destruct (decide (q_type m = APP_FILE /\ (q_i1 m = CP32_APP_FORK \/ q_i1 m = CP32_APP_EXEC))) as [[Ht Hop]|Hn].
  2: { eapply frame_weaken; [apply data_in_broker|]. by apply serve_data. }
  unfold app_serve. rewrite bind_gets. cbv zeta. rewrite Ht. change (APP_FILE =? APP_GETPID) with false.
  change (APP_FILE =? APP_GETPPID) with false. change (APP_FILE =? APP_FILE) with true. cbv iota.
  pose proof (aframe_follow broker_area) as Hfollow. destruct Hop as [Hop|Hop]; rewrite Hop.
  - change (CP32_APP_FORK =? CP32_APP_FORK) with true. cbv iota. unfold app_fork. rewrite !bind_assoc.
    apply (run_bind (aframe broker_area)); [apply aframe_pid|]. intros pid s1 Hs1. rewrite bind_assoc.
    assert (Hw : a_w s1 = a_w s) by (unfold application_pid in Hs1; destruct (try_pids _ _ _); by injection Hs1 as <- <-).
    apply aframe_reply; [|intros r; keeps_solve]. case_match; [done|].
    apply aframe_reply; [|intros r; keeps_solve]. apply aframe_at. rewrite Hw. by apply (frame_fork_start pid (a_w s) C Q H).
  - change (CP32_APP_EXEC =? CP32_APP_FORK) with false. change (CP32_APP_EXEC =? CP32_APP_WAITPID) with false.
    change (CP32_APP_EXEC =? CP32_APP_EXEC) with true. cbv iota.
    apply aframe_reply; [apply aframe_at; by apply (frame_replace _ m (a_w s) C Q H)|]. intros r. keeps_solve.
Qed.

(** C8. No request of the foreground program, whatever its arguments, writes
    outside the program's image and the heap of the memory service.  A request
    other than fork, exec and the exit of a forked child writes only in the data
    segment: not in the text, not in the kernel.  The break of the program, and of
    a parent that waits for its child, stays between the data and the stack. *)
Theorem turn_confined m s C Q H :
  broker_ok heap_base heap_size (a_w s) C Q H -> break_ok (a_w s) ->
  let s' := snd (turn_of m s) in
  break_ok (a_w s') /\
  (forall a, ~ broker_area a -> k_mem (b_k (a_w s')) a = k_mem (b_k (a_w s)) a) /\
  (ordinary s m -> forall a, ~ data_area a -> k_mem (b_k (a_w s')) a = k_mem (b_k (a_w s)) a).
Proof.
  intros HB Hbrk s'. enough (Hf : aframe broker_area s s' /\ (ordinary s m -> aframe data_area s s')).
  { destruct Hf as [[M1 B1] Hd]. split_and!; [by apply B1|exact M1|]. intros Ho. apply (Hd Ho). }
  subst s'. unfold application_turn. rewrite bind_gets. unfold cp32_shell_app_files_owner.
  set (owner := broker_call (x <- files (proc APP);; ret (truthy _ && _))).
  assert (Howner : exists b, owner s = (Ok b, s)) by (destruct s as [w ? ? ? ? ? ?]; destruct w; by eexists).
  destruct Howner as [b Eb]. rewrite (bind_ok _ _ _ _ _ Eb), bind_guard. destruct (negb b); [done|].
  assert (Eact : broker_call cp32_fork_active s = (Ok (f_parent (b_forked (a_w s)) !=? NIL_PROC), s))
    by (by destruct s as [w ? ? ? ? ? ?]).
  rewrite (bind_ok _ _ _ _ _ Eact). pose proof (aframe_follow broker_area) as Hfollow.
  destruct (Z.eqb_spec (q_type m) APP_EXIT) as [Hexit|Hexit]; cbn [andb].
  - destruct (Z.eqb_spec (f_parent (b_forked (a_w s))) NIL_PROC) as [Hidle|Hact]; cbn [negb].
    + pose proof (aframe_exit m s) as Hx. split; [|done]. eapply frame_weaken; [apply data_in_broker|exact Hx].
    + split; [|intros [_ Ho]; tauto]. apply aframe_reply; [|intros pid; keeps_solve].
      pose proof (frame_finish (q_i1 m) (a_w s) Hbrk Hact) as Hx. unfold broker_call. by destruct (cp32_fork_finish _ _ _ _) as [r w].
  - split; [|intros [Ho _]]; (apply aframe_reply; [|intros r; keeps_solve]); [by apply (serve_broker m s C Q H)|by apply serve_data].
Qed.
End Broker.

(** ** Process identifiers *)

(** The [i]-th identifier after [x]. *)
Definition pid_after (x i : Z) : Z := 100 + (x - 99 + i) mod PID_TRIES.

Lemma next_pid_after x : 99 <= x <= 30000 -> next_pid x = pid_after x 0.
Proof.
  intros Hx. unfold next_pid, pid_after, PID_TRIES. destruct (Z.ltb_spec x 30000).
  - rewrite Z.mod_small by lia. lia.
  - replace x with 30000 by lia. done.
Qed.

Lemma pid_after_next x i : 99 <= x <= 30000 -> 0 <= i -> pid_after (next_pid x) i = pid_after x (i + 1).
Proof.
  intros Hx Hi. rewrite next_pid_after by done. unfold pid_after, PID_TRIES. f_equal.
  replace (100 + (x - 99 + 0) mod 29901 - 99 + i) with ((x - 99 + 0) mod 29901 + (1 + i)) by lia.
  rewrite Zplus_mod_idemp_l. f_equal. lia.
Qed.

Lemma pid_after_inj x i j : 0 <= i < PID_TRIES -> 0 <= j < PID_TRIES -> pid_after x i = pid_after x j -> i = j.
Proof. unfold pid_after, PID_TRIES. intros Hi Hj Heq. Z.div_mod_to_equations. lia. Qed.

Lemma next_pid_range x : 99 <= x <= 30000 -> 100 <= next_pid x <= 30000.
Proof. unfold next_pid. destruct (Z.ltb_spec x 30000); lia. Qed.

(** The search stops at the first unused identifier. *)
Lemma try_pids_spec tries used x :
  99 <= x <= 30000 ->
  let (pid, next) := try_pids tries used x in
  (100 <= pid <= 30000 /\ used pid = false /\ next = pid) \/
  (pid = -1 /\ forall i, 0 <= i < Z.of_nat tries -> used (pid_after x i) = true).
Proof.
  revert x. induction tries as [|tries IH]; intros x Hx; cbn [try_pids]; [right; split; [done|lia]|].
  pose proof (next_pid_range x Hx) as Hn. destruct (used (next_pid x)) eqn:Hu; [|by left].
  specialize (IH (next_pid x) ltac:(lia)). destruct (try_pids tries used (next_pid x)) as [pid next].
  destruct IH as [?|[-> IH]]; [by left|right]. split; [done|]. intros i Hi.
  destruct (Z.eq_dec i 0) as [->|]; [by rewrite <- next_pid_after|].
  replace i with (i - 1 + 1) by lia. rewrite <- pid_after_next by lia. apply IH. lia.
Qed.

(** The identifiers that live processes and waiting children have. *)
Definition used_pids {E} (w : broker E) : list Z :=
  map (fun n => Ktypes.p_pid (k_proc (b_k w) (proc_addr (b_k w) n))) (upto 0 NR_PROCS) ++ map fst (f_waits (b_forked w)).

Lemma pid_used_in {E} (w : broker E) pid : pid_used w pid = true -> In pid (used_pids w).
Proof.
  unfold pid_used, used_pids. rewrite in_app_iff, !in_map_iff. intros [Hp|Hp]%orb_true_iff.
  - left. apply existsb_exists in Hp as (n & Hn & Hp). exists n. split; [|done]. apply andb_true_iff in Hp as [_ Hp]. lia.
  - right. apply existsb_exists in Hp as (e & He & Hp). exists e. split; [lia|done].
Qed.

(** C35. A process identifier is always found, whatever processes live and whatever
    exited children wait: it lies in 100..30000, no live process and no waiting
    child has it, and the search goes on behind it the next time. *)
Theorem application_pid_fresh {E} (s : app E) :
  99 <= a_next s <= 30000 -> lenZ (f_waits (b_forked (a_w s))) = 8 ->
  exists pid, application_pid s = (Ok pid, set_next pid s) /\ 100 <= pid <= 30000 /\
  process_pid_free (b_k (a_w s)) pid = true /\ waiting (f_waits (b_forked (a_w s))) pid = false.
Proof.
  intros Hx Hw. unfold application_pid. pose proof (try_pids_spec (Z.to_nat PID_TRIES) (pid_used (a_w s)) (a_next s) Hx) as Ht.
  destruct (try_pids _ _ _) as [pid next]. destruct Ht as [(Hr & Hu & ->)|[_ Hall]].
  - exists pid. split; [done|]. split; [done|]. apply orb_false_iff in Hu as [Hp Hq]. split; [|done].
    unfold process_pid_free. rewrite (proj2 (Z.leb_gt pid 0)) by lia. by rewrite Hp.
  - exfalso. set (l := map (fun i => pid_after (a_next s) (Z.of_nat i)) (seq 0 (Z.to_nat PID_TRIES))).
    assert (Hlen : (length l <= length (used_pids (a_w s)))%nat).
    { apply List.NoDup_incl_length.
      - apply NoDup_ListNoDup, NoDup_fmap_2_strong; [|apply NoDup_seq]. intros i j Hi Hj Heq.
        apply elem_of_seq in Hi, Hj. apply pid_after_inj in Heq; lia.
      - intros y (i & <- & Hi%in_seq)%in_map_iff. apply pid_used_in, Hall. lia. }
    unfold l, used_pids in Hlen. rewrite length_app, !length_map, length_seq in Hlen. unfold upto, lenZ, PID_TRIES, NR_PROCS in *.
    rewrite length_map, length_seq in Hlen. lia.
Qed.

(** ** A service through the broker *)
Section Sbrk.
Context {E : Type} `{DSK : Disk E} `{TRAP : Transport} `{CON : Console E}.
Context (heap_base heap_size : Z) (read write clock : fptr) (services : Z).

(** The trap of the program: the broker's turn and its reply. *)
Definition broker_trap (m : request) : M (app E) (Z * Z * request) :=
  o <- application_turn heap_base heap_size read write clock services m ;;
  match o with Reply m => ret (OK, FS_PROC_NR, m) | _ => fail PANIC end.

(** The program runs in the foreground, and the broker knows it. *)
Record running (s : app E) : Prop := {
  rn_busy : a_busy s <> 0;
  rn_current : k_current (b_k (a_w s)) = proc_addr (b_k (a_w s)) (a_endpoint s);
  rn_pid : Ktypes.p_pid (k_proc (b_k (a_w s)) (b_child (a_w s))) <> 0;
  rn_owner : Fproc.p_pid (record (b_files (a_w s)) APP) = Ktypes.p_pid (k_proc (b_k (a_w s)) (b_child (a_w s))) }.

Lemma turn_sbrk s n :
  running s -> application_turn heap_base heap_size read write clock services (Request APP_SBRK n 0 0 0) s =
  (m <- app_sbrk (Request APP_SBRK n 0 0 0) ;; ret (Reply m)) s.
Proof.
  intros [_ _ Hp Ho]. unfold application_turn. rewrite bind_gets. unfold cp32_shell_app_files_owner.
  match goal with |- bind ?c _ s = _ => assert (Hc : c s = (Ok true, s)) end.
  { destruct s as [[k f ? ? ? ? ? ?] ? ? ? ? ? ?]. unfold broker_call, bind, files, proc, gets, ret. cbn in Hp, Ho |- *.
    unfold record in Ho. destruct f as [fs procs sus]. cbn in Ho |- *. rewrite Ho, Z.eqb_refl.
    by rewrite (proj2 (truthy_true _) Hp). }
  rewrite (bind_ok _ _ _ _ _ Hc), bind_guard. cbn [negb].
  assert (Ha : broker_call cp32_fork_active s = (Ok (f_parent (b_forked (a_w s)) !=? NIL_PROC), s)) by (by destruct s).
  rewrite (bind_ok _ _ _ _ _ Ha). unfold app_serve, bind, gets. cbn -[app_sbrk]. by destruct (app_sbrk _ s) as [[e|m] s1].
Qed.

(** The break moves by any [int], or stays. *)
Lemma break_moved floor brk n :
  break_in floor brk -> - 2 ^ 31 <= n < 2 ^ 31 ->
  application_break floor brk n = if (floor <=? brk + n) && (brk + n <=? Image.CP32_APP_STACK) then Ok (brk + n) else Err (-1).
Proof.
  intros [H1 H2] Hn. unfold application_break. rewrite (proj2 (Z.ltb_ge brk floor)), (proj2 (Z.ltb_ge _ brk)) by lia. cbn [orb].
  unfold Image.CP32_APP_STACK, Image.CP32_APP_DATA in *. rewrite !(wrap32_small (_ - _)) by lia.
  destruct (Z.leb_spec 0 n).
  - rewrite !(wrap32_small n), (proj2 (Z.leb_le floor _)) by lia. cbn [andb].
    destruct (Z.ltb_spec (1070526464 - brk) n), (Z.leb_spec (brk + n) 1070526464); try lia; [done|]. by rewrite wrap32_small by lia.
  - rewrite !(wrap32_small (- (n + 1))), !(wrap32_small (- (n + 1) + 1)) by lia. rewrite (proj2 (Z.leb_le (brk + n) _)), andb_true_r by lia.
    destruct (Z.ltb_spec (brk - floor) (- (n + 1) + 1)), (Z.leb_spec floor (brk + n)); try lia; [done|]. rewrite wrap32_small by lia. f_equal. lia.
Qed.

(** The state after the break has moved. *)
Definition moved (n : Z) (s : app E) : app E :=
  let w := set_run (b_child (a_w s)) (b_ppid (a_w s)) (b_floor (a_w s)) (b_brk (a_w s) + n) (a_w s) in
  set_w (if 0 <? n then set_k (store_mem (b_brk (a_w s)) (replicate (Z.to_nat n) 0) (b_k w)) w else w) s.

Lemma sbrk_moves n s :
  break_in (b_floor (a_w s)) (b_brk (a_w s)) -> - 2 ^ 31 <= n < 2 ^ 31 ->
  app_sbrk (Request APP_SBRK n 0 0 0) s =
  (if (b_floor (a_w s) <=? b_brk (a_w s) + n) && (b_brk (a_w s) + n <=? Image.CP32_APP_STACK)
   then (Ok (Request 0 n 0 0 (b_brk (a_w s))), moved n s) else (Ok (Request (-1) n 0 0 0), s)).
Proof.
  intros Hb Hn. unfold app_sbrk, moved. rewrite bind_gets. cbn [q_i1]. rewrite (break_moved _ _ n Hb Hn).
  assert (Hlt : (b_brk (a_w s) <? b_brk (a_w s) + n) = (0 <? n)) by (destruct (Z.ltb_spec 0 n); [apply Z.ltb_lt|apply Z.ltb_ge]; lia).
  destruct (_ && _) eqn:Ef; [|done]. rewrite Hlt. unfold broker_call, kernel_call, kernel, modify, bind, ret.
  apply andb_true_iff in Ef. destruct Hb as [Hb1 Hb2]. unfold Image.CP32_APP_DATA, Image.CP32_APP_STACK in *.
  destruct (Z.ltb_spec 0 n); [|done]. unfold broker_call. rewrite (wrap32_small (_ - _)), Z.add_simpl_l by lia. reflexivity.
Qed.

Lemma sbrk_service n s :
  running s -> break_in (b_floor (a_w s)) (b_brk (a_w s)) -> - 2 ^ 31 <= n < 2 ^ 31 ->
  application_sbrk broker_trap n s =
  if (b_floor (a_w s) <=? b_brk (a_w s) + n) && (b_brk (a_w s) + n <=? Image.CP32_APP_STACK)
  then (Ok (b_brk (a_w s)), moved n s) else (Ok NO_BREAK, s).
Proof.
  intros HR Hb Hn. unfold application_sbrk, service, foreground. rewrite bind_gets.
  pose proof HR as [H1 H2 _ _]. rewrite (proj2 (truthy_true _) H1), H2, Z.eqb_refl. cbn [andb negb].
  unfold broker_trap, bind. rewrite (turn_sbrk s n HR). unfold bind. rewrite (sbrk_moves n s Hb Hn). by destruct (_ && _).
Qed.

Lemma moved_spec n s :
  running s ->
  b_brk (a_w (moved n s)) = b_brk (a_w s) + n /\ b_floor (a_w (moved n s)) = b_floor (a_w s) /\ running (moved n s) /\
  forall a, k_mem (b_k (a_w (moved n s))) a =
    if (b_brk (a_w s) <=? a) && (a <? b_brk (a_w s) + n) then 0 else k_mem (b_k (a_w s)) a.
Proof.
  intros HR. unfold moved. split; [by case_match|]. split; [by case_match|]. split; [destruct HR; by case_match; constructor|].
  intros a. set (brk := b_brk (a_w s)). cbn [a_w set_w]. destruct (Z.ltb_spec 0 n).
  - cbn [b_k set_k]. unfold store_mem. cbn [k_mem set_k_mem b_k set_run].
    destruct (Z.leb_spec brk a), (Z.ltb_spec a (brk + n)); cbn [andb]; try (apply mem_write_out; unfold lenZ; rewrite length_replicate; lia).
    rewrite mem_write_in by (unfold lenZ; rewrite length_replicate; lia). apply nthZ_replicate.
  - destruct (Z.leb_spec brk a), (Z.ltb_spec a (brk + n)); cbn [andb]; try done. lia.
Qed.

(** C36. A program that moves its break by any amount gets the old break, and the
    break has moved by it and the new bytes are zero, if it stays between the end of
    the data and the stack; otherwise it gets (void * )-1 and nothing has changed. *)
Theorem sbrk_exact n s :
  running s -> break_in (b_floor (a_w s)) (b_brk (a_w s)) -> - 2 ^ 31 <= n < 2 ^ 31 ->
  let brk := b_brk (a_w s) in
  let fits := (b_floor (a_w s) <=? brk + n) && (brk + n <=? Image.CP32_APP_STACK) in
  let s' := snd (application_sbrk broker_trap n s) in
  fst (application_sbrk broker_trap n s) = Ok (if fits then brk else NO_BREAK) /\
  b_brk (a_w s') = (if fits then brk + n else brk) /\
  (forall a, k_mem (b_k (a_w s')) a = if fits && (brk <=? a) && (a <? brk + n) then 0 else k_mem (b_k (a_w s)) a) /\
  b_floor (a_w s') = b_floor (a_w s) /\ running s'.
Proof.
  intros HR Hb Hn brk fits s'. subst s'. rewrite (sbrk_service n s HR Hb Hn). fold brk fits.
  destruct fits; cbn [fst snd andb]; [|done]. by destruct (moved_spec n s HR) as (H1 & H2 & H3 & H4).
Qed.
End Sbrk.

(** ** A program that asks for 64 bytes more *)
Module AppDemo.
#[export] Instance console : Console memdisk := {|
  co_read _ e := (0, [], e); co_set_time _ e := (0, e); co_sync e := (0, e); co_capacity := md_cap |}.
Definition s : app memdisk := App ForkDemo.w 0 6 99 [] 0 [].
Definition more : request := Request APP_SBRK 64 0 0 0.
Definition turn : res outcome * app memdisk :=
  application_turn (TRAP := ForkDemo.prompt) ForkDemo.heap_base ForkDemo.heap_size MD_READ MD_WRITE MD_CLOCK 0x40380000 more s.
(** The program runs: process 6. *)
Definition running_s : app memdisk := App (set_k (set_k_current 16 (b_k ForkDemo.w)) ForkDemo.w) 1 6 99 [] 0 [].
End AppDemo.
#[export] Existing Instance AppDemo.console.

Lemma memdisk_fills : fills memdisk.
Proof.
  intros rd off n e. cbn [dk_read memdisk_disk]. unfold md_read. case_match eqn:Hr; cbn [fst snd].
  - intros _. unfold lenZ. rewrite length_map. rewrite !andb_true_iff in Hr. fold (lenZ (mem_read (md_bytes e) off n)).
    rewrite lenZ_mem_read by lia. split; [lia|]. apply Forall_map, Forall_forall. intros x _. unfold is_byte, wrap8. apply Z.mod_pos_bound. lia.
  - intros <-. done.
Qed.

Lemma demo_break : break_ok ForkDemo.w.
Proof. split; [split_and!; vm_compute; discriminate|intros H; exfalso; apply H; vm_compute; reflexivity]. Qed.

Lemma turn_confined_witness :
  fst AppDemo.turn = Ok (Reply (Request 0 64 0 0 0x3fcec400)) /\ b_brk (a_w (snd AppDemo.turn)) = 0x3fcec440 /\
  break_ok (a_w (snd AppDemo.turn)) /\
  forall a, ~ data_area a -> k_mem (b_k (a_w (snd AppDemo.turn))) a = k_mem (b_k ForkDemo.w) a.
Proof.
  destruct demo_heap as (Hb & Hs & He & _). split; [lazy; reflexivity|]. split; [lazy; reflexivity|].
  destruct (turn_confined (TRAP := ForkDemo.prompt) ForkDemo.heap_base ForkDemo.heap_size MD_READ MD_WRITE MD_CLOCK 0x40380000
    memdisk_fills Hb Hs He (fun _ => eq_refl) AppDemo.more AppDemo.s _ _ _ demo_broker demo_break) as (H1 & _ & H2).
  split; [exact H1|]. apply H2. split; vm_compute; intuition discriminate.
Defined.

Lemma sbrk_exact_witness :
  let s' := snd (application_sbrk (broker_trap (TRAP := ForkDemo.prompt) ForkDemo.heap_base ForkDemo.heap_size MD_READ MD_WRITE MD_CLOCK 0x40380000) 64 AppDemo.running_s) in
  b_brk (a_w s') = 0x3fcec440 /\ (forall a, 0x3fcec400 <= a < 0x3fcec440 -> k_mem (b_k (a_w s')) a = 0).
Proof.
  destruct (sbrk_exact (TRAP := ForkDemo.prompt) ForkDemo.heap_base ForkDemo.heap_size MD_READ MD_WRITE MD_CLOCK 0x40380000 64
    AppDemo.running_s) as (_ & H1 & H2 & _).
  - constructor; [discriminate|vm_compute; reflexivity|vm_compute; discriminate|vm_compute; reflexivity].
  - split_and!; vm_compute; discriminate.
  - lia.
  - split; [exact H1|]. intros a Ha. rewrite (H2 a). change (b_brk (a_w AppDemo.running_s)) with 0x3fcec400.
    rewrite (proj2 (Z.leb_le 0x3fcec400 a)), (proj2 (Z.ltb_lt a (0x3fcec400 + 64))) by lia. reflexivity.
Defined.

Lemma application_pid_fresh_witness : application_pid (set_next 30000 AppDemo.s) = (Ok 100, set_next 100 AppDemo.s) /\
  waiting (f_waits (b_forked ForkDemo.w)) 100 = false.
Proof.
  destruct (application_pid_fresh (set_next 30000 AppDemo.s) ltac:(cbn; lia) ltac:(vm_compute; reflexivity)) as (pid & E & _ & _ & Hw).
  assert (pid = 100) as -> by (assert (Ef : fst (application_pid (set_next 30000 AppDemo.s)) = Ok 100) by (lazy; reflexivity);
    rewrite E in Ef; cbn in Ef; congruence).
  split; [exact E|exact Hw].
Defined.
