(* ===== verification/Replace.v ===== *)
(** * What exec promises

    [exec_exact]: a refused exec leaves the program as it was, its memory,
    descriptors, break and descriptor table; an accepted one leaves the file's
    segments, a clean stack with the arguments and a descriptor that is ready
    at the entry point.  Either way the staging memory is free again. *)
From S2P Require Import Prelude Codec Kconst FsTypes FdTable Alloc Ktypes Sched Ipc IpcSpec Process Mm Storage.
From S2P Require Import MemDisk Path Filedes Fproc Appfile Signals Fork ForkFiles ForkSpec ForkJoin App AppBuf AppSpec.
From S2P Require Image Exec.

(** The stack pointer is aligned and in the area. *)
Lemma exec_stack_sp buffer argv envp b sp :
  Exec.cp32_exec_stack buffer 512 (Image.CP32_APP_TOP - 512) argv envp = Ok (b, sp) ->
  Z.land sp 15 = 0 /\ Image.CP32_APP_TOP - 512 <= sp <= Image.CP32_APP_TOP.
Proof.
  unfold Exec.cp32_exec_stack. change (Exec.bad_stack 512 (Image.CP32_APP_TOP - 512)) with false. cbv iota zeta.
  case_match; [done|]. case_match; [done|]. case_match; [done|]. case_match. set (total := Z.land (z +u 15) (4294967295 - 15)).
  destruct (Z.ltb_spec 512 total); [done|]. intros [= _ <-].
  assert (Hal : Z.land total 15 = 0) by (unfold total; rewrite <- Z.land_assoc; apply Z.land_0_r).
  assert (0 <= total) by (unfold total; apply Z.land_nonneg; right; lia).
  unfold Image.CP32_APP_TOP. split; [|lia]. change 15 with (Z.ones 4) in *. rewrite Z.land_ones in * by lia.
  change (2 ^ 4) with 16 in *. Z.div_mod_to_equations. lia.
Qed.

(** ** The file side *)
Section Files.
Context {E : Type} `{DSK : Disk E}.

(** Only the filesystem under the records has changed. *)
Definition same_records (f f' : fsproc E) : Prop := pw_procs f' = pw_procs f /\ pw_suspended f' = pw_suspended f.
#[local] Instance same_records_preorder : PreOrder same_records.
Proof. split; [done|]. intros f g h [A1 B1] [A2 B2]. split; congruence. Qed.

Lemma records_fs {A} (c : M (fsw E) A) : keeps same_records (fs c).
Proof. intros f. unfold fs. by destruct (c (pw_fs f)). Qed.

Lemma records_errno {A} (c : M (fsproc E) A) : keeps same_records c -> keeps same_records (errno c).
Proof. intros H f. specialize (H f). unfold errno. by destruct (c f) as [[e|a] f']. Qed.

Lemma records_ignore {A} (c : M (fsproc E) A) : keeps same_records c -> keeps same_records (ignore c).
Proof. intros H. unfold ignore. keeps_solve. Qed.

Hint Resolve records_fs records_errno records_ignore : keeps.

Lemma records_exec_open p rd cap name : keeps same_records (cp32_fproc_exec_open (E := E) p rd cap name).
Proof. unfold cp32_fproc_exec_open, proc. keeps_solve. Qed.

Lemma records_app_read fd off n : keeps same_records (cp32_shell_app_read (E := E) fd off n).
Proof. unfold cp32_shell_app_read, app_read_turn. keeps_solve. Qed.

Lemma records_capacity `{CON : Console E} : keeps same_records (capacity (E := E)).
Proof. intros f. by unfold capacity, env_call. Qed.

(** Closing ends, whatever it returns. *)
Lemma ignore_ok {A} (c : M (fsw E) A) f : exists f', ignore (fs c) f = (Ok tt, f') /\ same_records f f'.
Proof.
  unfold ignore. rewrite bind_try. pose proof (records_fs c f) as H. destruct (fs c f) as [r f'] eqn:Ec. by exists f'.
Qed.
End Files.

#[export] Existing Instance same_records_preorder.

(** Loading reads through the context and writes the two buffers only. *)
Lemma load_context {C} (R : C -> C -> Prop) `{!PreOrder R} (reader : Z -> Z -> M C (list Z)) size :
  (forall off n, keeps R (reader off n)) ->
  keeps (fun w w' => R (Image.context w) (Image.context w')) (Image.cp32_image_load reader size).
Proof.
  intros H. set (RR := fun w w' : Image.staging C => R (Image.context w) (Image.context w')).
  assert (HRR : PreOrder RR) by (split; [intros w; unfold RR; reflexivity|intros a b c; unfold RR; apply PreOrder_Transitive]).
  assert (Hin : forall A (c : M C A), keeps R c -> keeps RR (Image.in_context c)).
  { intros A c Hc w. specialize (Hc (Image.context w)). unfold Image.in_context. by destruct (c (Image.context w)). }
  assert (Hfetch : forall off n, keeps R (Image.fetch reader off n)).
  { intros off n c. specialize (H off n c). unfold Image.fetch. by destruct (reader off n c) as [[e|b] c']. }
  assert (Hread : keeps R (Image.cp32_image_read reader size)) by (unfold Image.cp32_image_read, Image.read_segment; keeps_solve).
  assert (Ht : forall f, keeps RR (modify (Image.with_text f))) by (intros f w; unfold RR; reflexivity).
  assert (Hd : forall f, keeps RR (modify (Image.with_data f))) by (intros f w; unfold RR; reflexivity).
  assert (Hclear : keeps RR Image.clear_image) by (unfold Image.clear_image; keeps_solve).
  assert (Hcopy : forall wd s, (forall f, keeps RR (modify (wd f))) -> keeps RR (Image.copy_segment reader wd s)).
  { intros wd s Hwd. unfold Image.copy_segment, Image.copy_chunk. keeps_solve. }
  unfold Image.cp32_image_load. keeps_solve.
Qed.

(** ** Staging *)
Section Stage.
Context {E : Type} `{DSK : Disk E} `{TRAP : Transport} `{CON : Console E}.
Abbreviation broker := (broker E).

Lemma files_bind {A B D} (c : M (fsproc E) A) (d : A -> M (fsproc E) B) (k : B -> M broker D) w :
  bind (files c) (fun a => bind (files (d a)) k) w = bind (files (bind c d)) k w.
Proof. unfold bind, files. destruct (c (b_files w)) as [[e|a] f]; [done|]. cbn [b_files set_files]. by destruct (d a f) as [[e|b] f']. Qed.

(** Nothing the program can see has changed: only memory from [stage], eight
    clicks, and the filesystem under the file records. *)
Record staged (stage : Z) (w w1 : broker) : Prop := {
  sg_kernel : b_k w1 = set_k_mem (k_mem (b_k w1)) (b_k w);
  sg_mem : forall a, a < stage \/ stage + 32768 <= a -> k_mem (b_k w1) a = k_mem (b_k w) a;
  sg_files : same_records (b_files w) (b_files w1);
  sg_heap : b_heap w1 = b_heap w;
  sg_rest : b_forked w1 = b_forked w /\ b_child w1 = b_child w /\ b_ppid w1 = b_ppid w /\ b_floor w1 = b_floor w /\ b_brk w1 = b_brk w }.

(** The staged program: segments, zeros up to the arguments, and the stack. *)
Record staged_image (m : mem) (stage : Z) (st : Image.staging (fsproc E)) (stack : mem) : Prop := {
  si_text : forall a, 0 <= a < 16384 -> m (stage + a) = Image.text_buf st a;
  si_data : forall a, 0 <= a < 12288 -> m (stage + 16384 + a) = Image.data_buf st a;
  si_zero : forall a, 28672 <= a < 32256 -> m (stage + a) = 0;
  si_stack : forall a, 0 <= a < 512 -> m (stage + 32256 + a) = stack a }.

(** From the files [f] the image [image] was loaded through [fd], and [stack] built for [argv] with the
    stack pointer [sp]. *)
Definition built (f : fsproc E) (fd size : Z) (argv : list (list Z)) (image : Image.cp32_image) (sp : Z)
    (st : Image.staging (fsproc E)) (stack : mem) : Prop :=
  (exists st0, Image.context st0 = f /\ Image.cp32_image_load (cp32_shell_app_read fd) size st0 = (Ok image, st)) /\
  exists b0, (forall a, 0 <= a < 512 -> b0 a = 0) /\
    Exec.cp32_exec_stack b0 512 (Image.CP32_APP_TOP - 512) (map Some argv) (map Some environment) = Ok (stack, sp).

Lemma overlay_in base n f m a : base <= a < base + n -> overlay base n f m a = f (a - base).
Proof. intros Ha. unfold overlay, in_range. by rewrite (proj2 (Z.leb_le _ _)), (proj2 (Z.ltb_lt _ _)) by lia. Qed.

Lemma overlay_out base n f m a : a < base \/ base + n <= a -> overlay base n f m a = m a.
Proof.
  intros Ha. unfold overlay, in_range. destruct (Z.leb_spec base a), (Z.ltb_spec a (base + n)); cbn [andb]; try done. lia.
Qed.

Lemma zeros_in m p n a : p <= a < p + Z.of_nat n -> mem_write m p (replicate n 0) a = 0.
Proof.
  intros Ha. rewrite mem_write_in by (unfold lenZ; rewrite length_replicate; lia). apply nthZ_replicate.
Qed.

Lemma zeros_out m p n a : a < p \/ p + Z.of_nat n <= a -> mem_write m p (replicate n 0) a = m a.
Proof. intros Ha. apply mem_write_out. unfold lenZ. rewrite length_replicate. lia. Qed.

Lemma stage_exact fd size stage argv (w : broker) :
  0 <= stage <= 4294967296 - 32768 ->
  match stage_image fd size stage argv w with
  | (Err e, w1) => e <> PANIC /\ staged stage w w1
  | (Ok (image, sp), w1) => staged stage w w1 /\
      exists st stack, built (b_files w) fd size argv image sp st stack /\ staged_image (k_mem (b_k w1)) stage st stack
  end.
Proof.
  intros Hr. unfold stage_image. rewrite !(wrap32_small (stage + _)) by lia. rewrite bind_try. unfold load_image.
  set (st0 := {| Image.context := b_files w; Image.text_buf := fun a => k_mem (b_k w) (stage + a);
                 Image.data_buf := fun a => k_mem (b_k w) (stage + 16384 + a) |}).
  pose proof (load_context same_records (cp32_shell_app_read fd) size (records_app_read fd) st0) as Hctx.
  destruct (Image.cp32_image_load (cp32_shell_app_read fd) size st0) as [r st] eqn:El. cbn [snd st0 Image.context] in Hctx.
  set (m1 := overlay (stage + 16384) 16384 (Image.data_buf st) (overlay stage 16384 (Image.text_buf st) (k_mem (b_k w)))).
  assert (Hm1 : forall a, a < stage \/ stage + 32768 <= a -> m1 a = k_mem (b_k w) a) by (intros a Ha; unfold m1; by rewrite !overlay_out by lia).
  rewrite bind_files. cbn [b_files set_files set_k].
  destruct (ignore_ok (cp32_fd_close fd) (Image.context st)) as (f2 & -> & Hf2).
  assert (Hrec : same_records (b_files w) f2) by (by transitivity (Image.context st)).
  destruct r as [e|image]; [split; [case_match; done|]; by constructor|].
  unfold on_kernel. rewrite bind_kernel. unfold store_mem. cbn [modify b_k set_k set_files]. rewrite bind_try. unfold stack_image. cbn [b_k set_k k_mem set_k_mem].
  set (m2 := mem_write m1 (stage + 28672) (replicate 4096 0)).
  assert (Hm2 : forall a, a < stage \/ stage + 32768 <= a -> m2 a = k_mem (b_k w) a) by (intros a Ha; unfold m2; rewrite zeros_out by lia; by apply Hm1).
  destruct (Exec.cp32_exec_stack _ _ _ _ _) as [e|[stack sp]] eqn:Es; [split; [done|]; by constructor|].
  split; [constructor; try done; cbn [b_k set_k k_mem set_k_mem]; intros a Ha; rewrite overlay_out by lia; by apply Hm2|].
  exists st, stack. split.
  - split; [by exists st0|]. eexists. split; [|exact Es]. intros a Ha. unfold m2. apply zeros_in. lia.
  - cbn [b_k set_k k_mem set_k_mem]. constructor; intros a Ha.
    + rewrite overlay_out by lia. unfold m2. rewrite zeros_out by lia. unfold m1. rewrite overlay_out, overlay_in by lia. f_equal. lia.
    + rewrite overlay_out by lia. unfold m2. rewrite zeros_out by lia. unfold m1. rewrite overlay_in by lia. f_equal. lia.
    + rewrite overlay_out by lia. unfold m2. apply zeros_in. lia.
    + rewrite overlay_in by lia. f_equal. lia.
Qed.
End Stage.

(** ** Committing *)
Section Commit.
Context {E : Type} `{DSK : Disk E} `{TRAP : Transport} `{CON : Console E} (services : Z).
Context (heap_base heap_size : Z).
Abbreviation broker_ok := (ForkSpec.broker_ok (E := E) heap_base heap_size).

Lemma fproc_exec_run (f : fsproc E) : exists f', cp32_fproc_exec APP f = (Ok tt, f') /\ app_only f f'.
Proof.
  assert (Ht : total (cp32_fproc_exec (E := E) APP)).
  { assert (Hp : total (proc (E := E) APP)) by (intros w; by eexists). assert (Hu : forall g, total (on_proc (E := E) APP g)) by (intros g w; by eexists).
    apply total_bind; [|intros []; apply Hu]. apply total_for. intros j []. apply total_bind; [done|]. intros x. case_match; [|apply total_ret].
    apply total_bind; [apply total_ignore|intros; apply Hu]. }
  assert (Hk : keeps app_only (cp32_fproc_exec (E := E) APP)) by (unfold cp32_fproc_exec; keeps_solve).
  destruct (Ht f) as [[] Ha]. specialize (Hk f). destruct (cp32_fproc_exec APP f) as [r f']. cbn in Ha, Hk. subst r. by exists f'.
Qed.

(** The descriptor of the program at its entry point. *)
Definition entered (path : list Z) (image : Image.cp32_image) (sp : Z) (c : Ktypes.proc) : Ktypes.proc :=
  set_p_flags 0 (put_name path (unblocked (set_p_reg (frame_of (Image.entry image) sp services) c))).

(** The child waits for the broker and nothing links it. *)
Definition waits (k : kst) (C Q : Z -> list Z) (H : list Z) (child : Z) : Prop :=
  detached k C Q H child /\ p_flags (k_proc k child) = RECEIVING /\ p_getfrom (k_proc k child) = FS_PROC_NR.

Lemma waits_not_bad k C Q H child : waits k C Q H child -> bad_blocked k child = false.
Proof. intros ((_ & _ & _ & _ & _ & Hc & Hl) & Hf & Hg). unfold bad_blocked. by rewrite Hf, Hg, Hc, Hl. Qed.

Lemma entered_procs k C Q H n path image sp :
  procs_ok k C Q H -> LOW_USER < n < NR_PROCS -> waits k C Q H (proc_addr k n) ->
  procs_ok (set_proc (proc_addr k n) (entered path image sp (k_proc k (proc_addr k n))) k) C Q H.
Proof.
  intros HP Hn (Hd & Hf & Hg). set (child := proc_addr k n) in *. assert (HT : table_ok k) by apply HP.
  destruct (user_slot k n HT Hn) as [Hv Hnr]. fold child in Hv, Hnr. apply replace_ok; try done.
  - apply not_sending. auto.
  - apply Hd.
  - right. destruct (Z.le_gt_cases (Ktypes.p_pid (k_proc k child)) 0) as [Hneg|Hpos]; [by left|right].
    intros m Hm Hne. apply not_true_iff_false. intros Hh. apply Hne. unfold child. f_equal.
    apply (po_pids _ _ _ _ HP m n (Ktypes.p_pid (k_proc k child))); [done|unfold LOW_USER in *; lia|done|done|].
    unfold has_pid. fold child. rewrite Hf. apply Z.eqb_refl.
Qed.

(** Readying the child of a table [k1] with the entered program. *)
Lemma entered_ok k k1 C Q H n path image sp :
  procs_ok k C Q H -> LOW_USER < n < NR_PROCS -> let child := proc_addr k n in
  waits k C Q H child ->
  (forall x, k_proc k1 x = k_proc (set_proc child (entered path image sp (k_proc k child)) k) x) ->
  k_addr k1 = k_addr k -> k_held_head k1 = k_held_head k -> k_rdy_head k1 = k_rdy_head k -> k_rdy_tail k1 = k_rdy_tail k ->
  let k' := lock_ready child k1 in
  procs_ok k' C (enqueue Q USER_Q child) H /\ k_addr k' = k_addr k /\ k_mem k' = k_mem k1 /\
  (forall x, set_p_nextready 0 (k_proc k' x) =
     set_p_nextready 0 (if x =? child then entered path image sp (k_proc k child) else k_proc k x)).
Proof.
  intros HP Hn child Hw Hx Ea Eh Er Et k'. assert (HT : table_ok k) by apply HP.
  destruct (user_slot k n HT Hn) as [Hv Hnr]. fold child in Hv, Hnr.
  assert (HP1 : procs_ok k1 C Q H) by (by apply (procs_ok_same _ _ _ _ _ (entered_procs k C Q H n path image sp HP Hn Hw))).
  assert (Hk1 : k_proc k1 child = entered path image sp (k_proc k child)) by (rewrite Hx; apply set_proc_same).
  destruct (lock_ready_ok k1 C Q H child HP1 Hv) as (HP2 & HL & _); [by rewrite Hk1|apply Hw|].
  assert (Hq : proc_queue (k_proc k1 child) = USER_Q).
  { rewrite Hk1. unfold proc_queue. change (p_nr (entered _ _ _ _)) with (p_nr (k_proc k child)). rewrite Hnr. unfold LOW_USER in *.
    rewrite !(proj2 (Z.ltb_ge _ _)) by lia. done. }
  rewrite Hq in HP2. split_and!; [exact HP2| | |].
  - etransitivity; [exact (sl_addr _ _ (ready_links child (set_k_switching true k1)))|exact Ea].
  - exact (sl_mem _ _ (ready_links child (set_k_switching true k1))).
  - intros x. etransitivity; [apply HL|]. f_equal. rewrite Hx. destruct (Z.eqb_spec x child) as [->|Hne]; [apply set_proc_same|by apply set_proc_other].
Qed.

(** The program runs the staged image. *)
Record entered_image (w w1 : broker E) (stage : Z) (path : list Z) (image : Image.cp32_image) (sp : Z) : Prop := {
  ei_procs : forall x, set_p_nextready 0 (k_proc (b_k w1) x) =
    set_p_nextready 0 (if x =? b_child w then entered path image sp (k_proc (b_k w) (b_child w)) else k_proc (b_k w) x);
  ei_image : forall a, 0 <= a < IMAGE_BYTES -> image_of (b_k w1) a = k_mem (b_k w) (stage + a);
  ei_files : b_files w1 = snd (cp32_fproc_exec APP (b_files w));
  ei_heap : b_heap w1 = b_heap w;
  ei_run : b_child w1 = b_child w /\ b_ppid w1 = b_ppid w /\ b_floor w1 = heap_floor image /\ b_brk w1 = heap_floor image;
  ei_forked : b_forked w1 = b_forked w }.

(** The two copies of the commit put the staged program in place. *)
Lemma commit_copy stage k :
  0 <= stage <= 4294967296 - 32768 -> stage + 32768 <= IMAGE_BASE \/ IMAGE_BASE + IMAGE_BYTES <= stage ->
  let k' := phys_copy (stage +u 16384) Image.CP32_APP_DATA 16384 (phys_copy stage APP_TEXT_DATA 16384 k) in
  forall a, 0 <= a < IMAGE_BYTES -> image_of k' a = k_mem k (stage + a).
Proof.
  intros Hr Hd k' a Ha. unfold k'. rewrite wrap32_small by lia. unfold phys_copy, image_of. cbn [k_mem set_k_mem].
  change APP_TEXT_DATA with IMAGE_BASE. change Image.CP32_APP_DATA with (IMAGE_BASE + 16384).
  assert (Hl : forall m o, lenZ (mem_read m o 16384) = 16384) by (intros; by apply lenZ_mem_read). change IMAGE_BYTES with 32768 in *.
  destruct (Z.lt_ge_cases a 16384) as [Hlow|Hhigh].
  - rewrite mem_write_out by lia. rewrite mem_write_in by (rewrite Hl; lia). rewrite nthZ_mem_read by lia. f_equal. lia.
  - rewrite mem_write_in by (rewrite Hl; lia). rewrite nthZ_mem_read by lia. rewrite mem_write_out by (rewrite Hl; lia). f_equal. lia.
Qed.

Lemma upd_upd p f g k : upd p g (upd p f k) = set_proc p (g (f (k_proc k p))) (upd p f k).
Proof. unfold upd at 1. by rewrite upd_same. Qed.

(** The four updates of the commit. *)
Lemma entered_upd p path image sp k :
  let k' := upd p (set_p_flags 0) (upd p (put_name path) (upd p unblocked (upd p (set_p_reg (frame_of (Image.entry image) sp services)) k))) in
  forall x, k_proc k' x = k_proc (set_proc p (entered path image sp (k_proc k p)) k) x.
Proof.
  intros k' x. unfold k'. destruct (Z.eq_dec x p) as [->|Hne].
  - rewrite !upd_same, set_proc_same. done.
  - by rewrite !upd_other, set_proc_other.
Qed.

Lemma commit_exact stage path image sp (w : broker E) C Q H :
  broker_ok w C Q H -> waits (b_k w) C Q H (b_child w) ->
  Image.entry image <> 0 -> sp <> 0 -> Z.land sp 15 = 0 ->
  0 <= stage <= 4294967296 - 32768 -> stage + 32768 <= IMAGE_BASE \/ IMAGE_BASE + IMAGE_BYTES <= stage ->
  exists w1, commit_image services (b_child w) stage path image sp w = (Ok tt, w1) /\
  broker_ok w1 C (enqueue Q USER_Q (b_child w)) H /\ entered_image w w1 stage path image sp.
Proof.
  intros [HP Ha Hfs Hrec Hwaits (n & Hn & Hchild)] Hw He Hsp Hal Hr Hd. unfold commit_image.
  rewrite bind_gets, bind_guard, (waits_not_bad _ _ _ _ _ Hw). unfold cp32_shell_app_files_exec. rewrite bind_files.
  destruct (fproc_exec_run (b_files w)) as (f & Ef & Hf). rewrite Ef. unfold on_kernel.
  do 2 (rewrite bind_kernel; cbn [modify b_k set_k set_files]). cbv zeta. rewrite bind_modify, bind_try. unfold kernel at 1. cbn [b_k set_k set_run].
  set (ka := phys_copy (stage +u 16384) _ _ _).
  unfold cp32_exec_frame. assert (Hv : valid_proc (b_child w)) by (rewrite Hchild; apply (user_slot (b_k w) n); [apply HP|done]).
  rewrite bind_guard, (proj2 (Z.eqb_neq (b_child w) _)), (proj2 (Z.eqb_neq (Image.entry image) 0)), (proj2 (Z.eqb_neq sp 0)), Hal by (done || unfold valid_proc, NIL_PROC in *; lia).
  change (truthy 0) with false. cbn [orb modify]. do 3 (rewrite bind_kernel; cbn [modify b_k set_k]). unfold kernel, modify. cbn [b_k set_k].
  set (k1 := upd (b_child w) (set_p_flags 0) _). 
  assert (Hupd : forall x, k_proc k1 x = k_proc (set_proc (proc_addr (b_k w) n) (entered path image sp (k_proc (b_k w) (proc_addr (b_k w) n))) (b_k w)) x)
    by (rewrite <- Hchild; exact (entered_upd (b_child w) path image sp ka)).
  rewrite Hchild in Hw.
  destruct (entered_ok (b_k w) k1 C Q H n path image sp HP Hn Hw) as (HP2 & Ea & Em & Hx); try done.
  rewrite <- Hchild in *. eexists. split; [reflexivity|].
  assert (Hcopy : forall a, 0 <= a < IMAGE_BYTES -> image_of ka a = k_mem (b_k w) (stage + a)) by (by apply commit_copy).
  split.
  - constructor; try done.
    + apply (fs_valid_core (b_k w)); [exact Ea| |exact Hfs].
      assert (Hne : proc_addr (b_k w) FS_PROC_NR <> b_child w).
      { rewrite Hchild. intros Ef2%addr_inj; [|apply HP|..]; unfold endpoint, LOW_USER, FS_PROC_NR, NR_TASKS, NR_PROCS in *; lia. }
      specialize (Hx (proc_addr (b_k w) FS_PROC_NR)). rewrite (proj2 (Z.eqb_neq _ _) Hne) in Hx.
      exact (f_equal (fun rp => set_child_utime 0 (set_child_stime 0 rp)) Hx).
    + change (3 <= lenZ (pw_procs f)). unfold lenZ. rewrite (proj1 Hf). exact Hrec.
    + exists n. split; [done|]. exact (eq_trans Hchild (f_equal (fun a => a (n + NR_TASKS)) (eq_sym Ea))).
  - constructor; try done.
    + intros a Hin. rewrite <- (Hcopy a Hin). exact (f_equal (fun m => m (IMAGE_BASE + a)) Em).
    + by rewrite Ef.
Qed.
End Commit.

(** The entry point of an accepted image lies in the text. *)
Section Entry.
Context {C : Type} (reader : Z -> Z -> M C (list Z)).

Lemma yields_text size phoff : yields (fun s => Image.address s = Image.CP32_APP_TEXT) (Image.read_segment reader size phoff 0).
Proof.
  unfold Image.read_segment. apply yields_bind. intros p. cbv zeta. apply yields_guard. intros Hbad.
  apply yields_ret. unfold Image.bad_segment in Hbad. rewrite !orb_false_iff in Hbad. destruct Hbad as [[[[[[[[[[[_ _] _] Ha] _] _] _] _] _] _] _] _].
  change (truthy 0) with false in Ha. cbv iota in Ha. apply negb_false_iff, Z.eqb_eq in Ha. exact Ha.
Qed.

Lemma yields_entry size : yields (fun image => Image.entry image <> 0) (Image.cp32_image_load reader size).
Proof.
  unfold Image.cp32_image_load. apply (yields_val (fun image => Image.entry image <> 0)).
  - intros w. unfold Image.in_context.
    assert (H : yields (fun image => Image.entry image <> 0) (Image.cp32_image_read reader size));
      [|specialize (H (Image.context w)); by destruct (Image.cp32_image_read _ _ _) as [[e|a] x]].
    unfold Image.cp32_image_read. do 5 yields_step. cbv zeta. eapply yields_val; [apply yields_text|]. intros t Ht. cbv beta in Ht.
    apply yields_bind. intros d. apply yields_guard. intros _. apply yields_guard. intros He. apply yields_ret. cbn [Image.entry].
    unfold Image.bad_entry in He. apply orb_false_iff in He as [He _]. rewrite Ht in He. unfold Image.CP32_APP_TEXT in *. lia.
  - intros image Hi. do 3 (apply yields_bind; intros _). by apply yields_ret.
Qed.
End Entry.

Section Exec.
Context {E : Type} `{DSK : Disk E} `{TRAP : Transport} `{CON : Console E}.
Context (heap_base heap_size : Z) (read : fptr) (services : Z).
Hypothesis Hb : 0 < heap_base.
Hypothesis Hs : 0 <= heap_size.
Hypothesis He : heap_base + heap_size <= 0x100000.
Hypothesis Hmm : forall k, sendrec_status k MM_PROC_NR = OK.
Hypothesis Hdisjoint : (heap_base + heap_size) * 4096 <= IMAGE_BASE \/ IMAGE_BASE + IMAGE_BYTES <= heap_base * 4096.
Abbreviation heap_ok := (heap_ok heap_base heap_size).
Abbreviation gained := (gained heap_base heap_size).
Abbreviation broker_ok := (ForkSpec.broker_ok (E := E) heap_base heap_size).
Abbreviation replace_program := (application_replace heap_base heap_size read services).

(** What the program and its parent can see is as before, and no memory is lost. *)
Record unchanged (w w1 : broker E) : Prop := {
  un_procs : k_proc (b_k w1) = k_proc (b_k w) /\ k_addr (b_k w1) = k_addr (b_k w);
  un_image : forall a, 0 <= a < IMAGE_BYTES -> image_of (b_k w1) a = image_of (b_k w) a;
  un_records : same_records (b_files w) (b_files w1);
  un_run : b_forked w1 = b_forked w /\ b_child w1 = b_child w /\ b_ppid w1 = b_ppid w /\ b_floor w1 = b_floor w /\ b_brk w1 = b_brk w;
  un_heap : heap_ok (b_heap w1) /\ same_held (b_heap w) (b_heap w1) }.

(** The program [path] with the arguments [argv] runs. *)
Record exec_done (w w1 : broker E) (path : list Z) (argv : list (list Z)) : Prop := {
  ed_heap : heap_ok (b_heap w1) /\ same_held (b_heap w) (b_heap w1);
  ed_run : b_forked w1 = b_forked w /\ b_child w1 = b_child w /\ b_ppid w1 = b_ppid w;
  ed_others : forall i, 0 <= i -> i <> APP -> record (b_files w1) i = record (b_files w) i;
  ed_image : exists f fd size image sp st stack,
    bind capacity (fun cap => cp32_fproc_exec_open APP read cap path) (b_files w) = (Ok (fd, size), f) /\
    built f fd size argv image sp st stack /\
    (forall a, 0 <= a < 16384 -> image_of (b_k w1) a = Image.text_buf st a) /\
    (forall a, 0 <= a < 12288 -> image_of (b_k w1) (16384 + a) = Image.data_buf st a) /\
    (forall a, 28672 <= a < 32256 -> image_of (b_k w1) a = 0) /\
    (forall a, 0 <= a < 512 -> image_of (b_k w1) (32256 + a) = stack a) /\
    b_floor w1 = heap_floor image /\ b_brk w1 = heap_floor image /\
    forall x, set_p_nextready 0 (k_proc (b_k w1) x) =
      set_p_nextready 0 (if x =? b_child w then entered services path image sp (k_proc (b_k w) (b_child w)) else k_proc (b_k w) x) }.

Lemma staged_fs stage (w w1 : broker E) : staged stage w w1 -> fs_valid (b_k w) -> fs_valid (b_k w1).
Proof. intros [Sk _ _ _ _] Hf. by rewrite Sk. Qed.

Lemma staged_unchanged stage w w1 f a a' :
  staged stage (set_heap a (set_files f w)) w1 -> stage + 32768 <= IMAGE_BASE \/ IMAGE_BASE + IMAGE_BYTES <= stage ->
  same_records (b_files w) f -> heap_ok a' -> same_held (b_heap w) a' -> unchanged w (set_heap a' w1).
Proof.
  intros [Sk Sm Sf Sh Sr] Hd Hf Ha Hsame. constructor; try done.
  - cbn [b_k set_heap]. by rewrite Sk.
  - intros x Hx. apply Sm. lia.
  - by transitivity f.
Qed.

Lemma staged_done stage (w w3 w4 : broker E) f fd size a a' path argv image sp st stack :
  bind capacity (fun cap => cp32_fproc_exec_open APP read cap path) (b_files w) = (Ok (fd, size), f) ->
  same_records (b_files w) f -> staged stage (set_heap a (set_files f w)) w3 ->
  built f fd size argv image sp st stack -> staged_image (k_mem (b_k w3)) stage st stack ->
  entered_image services w3 w4 stage path image sp -> heap_ok a' -> same_held (b_heap w) a' ->
  exec_done w (set_heap a' w4) path argv.
Proof.
  intros Eo [F1 F2] [Sk Sm [S1 S2] Sh (R1 & R2 & R3 & R4 & R5)] HB HI [Ep Ei Ef Eh (E1 & E2 & E3 & E4) E5] Ha Hs2.
  constructor; [done|..].
  - cbn [b_forked b_child b_ppid set_heap]. by rewrite E5, E1, E2.
  - intros i Hi Hne. destruct (fproc_exec_run (b_files w3)) as (f4 & E6 & _ & _ & Ho). cbn [b_files set_heap].
    rewrite Ef, E6. cbn [snd]. rewrite (Ho i Hi Hne). unfold record. rewrite S1. cbn [b_files set_heap set_files]. by rewrite F1.
  - exists f, fd, size, image, sp, st, stack. split; [done|]. split; [done|]. cbn [b_k set_heap b_floor b_brk].
    destruct HI as [I1 I2 I3 I4]. change IMAGE_BYTES with 32768 in Ei.
    split; [intros x Hx; rewrite Ei by lia; by apply I1|]. split; [intros x Hx; rewrite Ei, Z.add_assoc by lia; by apply I2|].
    split; [intros x Hx; rewrite Ei by lia; by apply I3|]. split; [intros x Hx; rewrite Ei, Z.add_assoc by lia; by apply I4|].
    split; [done|]. split; [done|]. intros x. rewrite (Ep x). change (b_child (set_heap a (set_files f w))) with (b_child w) in R2.
    rewrite R2. set (mm := k_mem (b_k w3)) in Sk. clearbody mm. by rewrite Sk.
Qed.

Lemma built_facts f fd size argv image sp st stack :
  built (E := E) f fd size argv image sp st stack -> Image.entry image <> 0 /\ sp <> 0 /\ Z.land sp 15 = 0.
Proof.
  intros ((st0 & _ & El) & b0 & _ & Es). pose proof (yields_entry (cp32_shell_app_read fd) size st0) as Hy. rewrite El in Hy.
  apply exec_stack_sp in Es as [Hal Hsp]. unfold Image.CP32_APP_TOP in Hsp. split_and!; [exact Hy|lia|exact Hal].
Qed.

(** The program and its table are untouched by the staging. *)
Lemma staged_ok stage w w1 C Q H :
  staged stage w w1 -> heap_ok (b_heap w1) -> 3 <= lenZ (pw_procs (b_files w)) -> procs_ok (b_k w) C Q H -> fs_valid (b_k w) ->
  lenZ (f_waits (b_forked w)) = 8 -> (exists n, LOW_USER < n < NR_PROCS /\ b_child w = proc_addr (b_k w) n) ->
  waits (b_k w) C Q H (b_child w) ->
  broker_ok w1 C Q H /\ waits (b_k w1) C Q H (b_child w1).
Proof.
  intros [Sk _ [Sf _] _ (R1 & R2 & _)] Ha Hr HP Hfs Hl Hc Hw. rewrite R2. set (m := k_mem (b_k w1)) in Sk. clearbody m.
  split; [constructor; rewrite ?R1, ?R2, ?Sk, ?Sf; try done; by apply (procs_ok_same (b_k w))|by rewrite Sk].
Qed.

(** With the staging region: it is filled, the program replaced, and the region
    given back. *)
Lemma replace_region path argv fd size f base a (w : broker E) C Q H :
  broker_ok w C Q H -> waits (b_k w) C Q H (b_child w) ->
  bind capacity (fun cap => cp32_fproc_exec_open APP read cap path) (b_files w) = (Ok (fd, size), f) ->
  same_records (b_files w) f -> heap_ok a -> gained (b_heap w) a base 8 FS_PROC_NR ->
  let stage := base <<u CLICK_SHIFT in
  match (r <- try (let* (image, sp) := stage_image fd size stage argv in commit_image services (b_child w) stage path image sp) ;;
         match r with
         | Err e => if e =? PANIC then fail PANIC else fork_free heap_base heap_size base ;;; fail e
         | Ok _ => fork_free heap_base heap_size base
         end) (set_heap a (set_files f w)) with
  | (Err _, w1) => unchanged w w1
  | (Ok _, w1) => broker_ok w1 C (enqueue Q USER_Q (b_child w)) H /\ exec_done w w1 path argv
  end.
Proof.
  intros [HP Ha0 Hfs Hrec Hwaits Hchild] Hw Eo Hf Ha Hg stage. pose proof Hg as (Hlow & Htop & _).
  assert (Hst : stage = base * 4096).
  { unfold stage, CLICK_SHIFT. rewrite Z.shiftl_mul_pow2 by lia. apply wrap32_small. change (2 ^ 12) with 4096. lia. }
  clearbody stage. assert (Hr : 0 <= stage <= 4294967296 - 32768) by lia.
  assert (Hd : stage + 32768 <= IMAGE_BASE \/ IMAGE_BASE + IMAGE_BYTES <= stage) by lia.
  set (w2 := set_heap a (set_files f w)). rewrite bind_try. unfold bind at 1.
  pose proof (stage_exact fd size stage argv w2 Hr) as HS. destruct (stage_image fd size stage argv w2) as [[e|[image sp]] w3].
  - destruct HS as [Hp HS]. rewrite (proj2 (Z.eqb_neq _ _) Hp). rewrite <- (sg_heap _ _ _ HS : b_heap w3 = a) in Hg, Ha.
    destruct (give_back heap_base heap_size Hb Hs He Hmm 8 base w3 (b_heap w) Ha (staged_fs _ _ _ HS Hfs) Hg) as (a2 & E4 & Ha2 & Hs2).
    unfold bind. rewrite E4. by apply (staged_unchanged stage _ _ f a).
  - destruct HS as [HS (st & stack & HB & HI)]. destruct (built_facts _ _ _ _ _ _ _ _ HB) as (H1 & H2 & H3).
    destruct (staged_ok stage w2 w3 C Q H HS) as [HB3 Hw3]; try done.
    { by rewrite (sg_heap _ _ _ HS). } { cbn [b_files w2 set_heap set_files]. by rewrite (proj1 Hf). }
    destruct (commit_exact services heap_base heap_size stage path image sp w3 C Q H HB3 Hw3 H1 H2 H3 Hr Hd) as (w4 & E4 & HB4 & HE4).
    destruct (sg_rest _ _ _ HS) as (_ & R2 & _). change (b_child w2) with (b_child w) in R2. rewrite R2 in E4, HB4. rewrite E4.
    destruct (give_back heap_base heap_size Hb Hs He Hmm 8 base w4 (b_heap w) (bo_heap _ _ _ _ _ _ HB4) (bo_fs _ _ _ _ _ _ HB4)) as (a2 & E5 & Ha2 & Hs2).
    { by rewrite (ei_heap _ _ _ _ _ _ _ HE4), (sg_heap _ _ _ HS). }
    rewrite E5. split; [by destruct HB4; constructor|].
    by apply (staged_done stage w w3 w4 f fd size a a2 path argv image sp st stack).
Qed.

(** C7. An exec either is refused and the program goes on as it was, with its
    image, descriptors, file records and break, or the descriptor of the program
    is ready at the entry point of the new image: text and data are the loaded
    file, the stack holds the arguments and zeros, the heap is empty, no other
    descriptor or record changed.  The staging memory is free either way. *)
Theorem exec_exact m w C Q H :
  broker_ok w C Q H -> waits (b_k w) C Q H (b_child w) ->
  let copy := mem_read (k_mem (b_k w)) (q_p1 m) exec_request_size in
  match replace_program (b_child w) m w with
  | (Err _, w1) => unchanged w w1
  | (Ok _, w1) => broker_ok w1 C (enqueue Q USER_Q (b_child w)) H /\
      exists argv, split_args (Z.to_nat (u32_field copy 512)) (take 256 (ptr_add copy 256)) 0 = Ok argv /\
        exec_done w w1 (str_field copy 0 256) argv
  end.
Proof.
  intros HB Hw copy.
  assert (Hself : forall w1, b_k w1 = b_k w -> same_records (b_files w) (b_files w1) -> b_heap w1 = b_heap w ->
      b_forked w1 = b_forked w /\ b_child w1 = b_child w /\ b_ppid w1 = b_ppid w /\ b_floor w1 = b_floor w /\ b_brk w1 = b_brk w ->
      unchanged w w1).
  { intros w1 Ek Hr Eh Hrun. constructor; rewrite ?Ek, ?Eh; try done. split; [apply HB|done]. }
  unfold application_replace. cbv zeta. rewrite bind_guard. destruct (wrap32 (q_i3 m) !=? _); [by apply Hself|].
  rewrite bind_guard. destruct (bad_span _ _); [by apply Hself|].
  rewrite bind_gets. fold copy. rewrite bind_guard. destruct (truthy _); [by apply Hself|].
  rewrite bind_guard. destruct (_ || _); [by apply Hself|].
  destruct (split_args _ _ _) as [e|argv]; [by apply Hself|].
  rewrite files_bind, bind_files. destruct (bind capacity _ (b_files w)) as [r f] eqn:Eo.
  assert (Hf : same_records (b_files w) f).
  { assert (Hk : keeps same_records (bind capacity (fun cap => cp32_fproc_exec_open APP read cap (str_field copy 0 256))))
      by (apply keeps_bind; [exact _|apply records_capacity|intros; apply records_exec_open]).
    specialize (Hk (b_files w)). by rewrite Eo in Hk. }
  destruct r as [e|[fd size]]; [by apply Hself|]. change (Z.shiftr 32768 CLICK_SHIFT) with 8.
  destruct (sendrec_allocate heap_base heap_size Hb Hs He Hmm 8 (set_files f w)) as (r & base & a & E2 & Ha & Hor); [apply HB|apply HB|lia|].
  unfold bind at 1. rewrite E2. cbn [snd m1_i1]. unfold bad_reply. cbn [fst snd m_source m_type].
  destruct Hor as [[-> Hs2]|(-> & Hne & Hw32 & Hg)].
  - change (ENOMEM !=? OK) with true. rewrite orb_true_r. cbn [orb]. rewrite bind_files. cbn [b_files set_heap set_files].
    destruct (ignore_ok (cp32_fd_close fd) f) as (f2 & -> & Hf2). cbn [fail]. constructor; try done. by transitivity f.
  - rewrite (proj2 (Z.eqb_neq _ _) Hne), Hw32. change (OK !=? OK) with false. rewrite Z.eqb_refl. cbn [negb orb].
    pose proof (replace_region (str_field copy 0 256) argv fd size f base a w C Q H HB Hw Eo Hf Ha Hg) as HR. cbv zeta in HR.
    match type of HR with match ?c ?s with _ => _ end => destruct (c s) as [[e|u] w1] end; [exact HR|].
    destruct HR as [HB1 HD]. split; [exact HB1|]. by exists argv.
Qed.
End Exec.

(** ** A program on a disk: the image of [Image.demo_file] behind "/README" *)
Module ExecDemo.
Definition disk : memdisk :=
  memdisk_of 65536 (Demo.volume ++ [(4160, Demo.inode 33261 1 Image.demo_size [7]); (7168, Image.demo_file)]).
Definition path : list Z := 47 :: Demo.README.
Definition argv : list (list Z) := [Demo.README; [120]].
Definition request_bytes : list Z :=
  put32 (splice (splice (replicate 516 0) 0 path) 256 (Demo.README ++ [0; 120; 0])) 512 2 0.
Definition buffer : Z := Image.CP32_APP_DATA + 4096.
Definition files : fsproc memdisk := Fsproc (boot_fsw disk) (map (p_set_cwd (put_string (replicate 256 0) [47])) (pw_procs ForkDemo.files)) None.
Definition w : broker memdisk :=
  set_files files (set_k (store_mem buffer request_bytes (b_k ForkDemo.w)) ForkDemo.w).
Definition message : request := Request APP_FILE 0 0 516 buffer.
Definition run := application_replace (TRAP := ForkDemo.prompt) ForkDemo.heap_base ForkDemo.heap_size 1 0x40380000 (b_child w) message w.
End ExecDemo.

Lemma store_procs_ok p bs k C Q H : procs_ok k C Q H -> procs_ok (store_mem p bs k) C Q H.
Proof. intros HP. by apply (procs_ok_same k). Qed.

Lemma demo_exec_ok : ForkSpec.broker_ok ForkDemo.heap_base ForkDemo.heap_size ExecDemo.w (fun _ => []) KDemo.Q [].
Proof.
  destruct demo_broker as [HP Ha Hfs Hrec Hwaits Hchild]. constructor; [|exact Ha|exact Hfs|vm_compute; discriminate|exact Hwaits|exact Hchild].
  change (b_k ExecDemo.w) with (store_mem ExecDemo.buffer ExecDemo.request_bytes (b_k ForkDemo.w)). by apply store_procs_ok.
Qed.

Lemma demo_exec_waits : waits (b_k ExecDemo.w) (fun _ => []) KDemo.Q [] (b_child ExecDemo.w).
Proof.
  split; [|split; vm_compute; reflexivity].
  apply (detached_spec (b_k ExecDemo.w)); [apply demo_exec_ok|unfold valid_proc; cbn; lia|vm_compute; reflexivity].
Qed.

Lemma demo_exec_run :
  application_replace (TRAP := ForkDemo.prompt) ForkDemo.heap_base ForkDemo.heap_size 1 0x40380000 (b_child ExecDemo.w) ExecDemo.message
    ExecDemo.w = (Ok tt, snd ExecDemo.run).
Proof. refine (run_ok (application_replace (TRAP := ForkDemo.prompt) _ _ _ _ _ _) _ tt _). lazy. reflexivity. Qed.

Lemma demo_exec_image : map (image_of (b_k (snd ExecDemo.run))) [0; 3; 4; 16384] = [1; 4; 0; 5].
Proof. lazy. reflexivity. Qed.

Lemma demo_exec_args :
  split_args (Z.to_nat (u32_field (mem_read (k_mem (b_k ExecDemo.w)) (q_p1 ExecDemo.message) exec_request_size) 512))
    (take 256 (ptr_add (mem_read (k_mem (b_k ExecDemo.w)) (q_p1 ExecDemo.message) exec_request_size) 256)) 0 = Ok ExecDemo.argv /\
  str_field (mem_read (k_mem (b_k ExecDemo.w)) (q_p1 ExecDemo.message) exec_request_size) 0 256 = ExecDemo.path.
Proof. split; lazy; reflexivity. Qed.

Lemma exec_exact_witness :
  map (image_of (b_k (snd ExecDemo.run))) [0; 3; 4; 16384] = [1; 4; 0; 5] /\
  ForkSpec.broker_ok ForkDemo.heap_base ForkDemo.heap_size (snd ExecDemo.run) (fun _ => []) (enqueue KDemo.Q USER_Q (b_child ExecDemo.w)) [] /\
  exec_done ForkDemo.heap_base ForkDemo.heap_size 1 0x40380000 ExecDemo.w (snd ExecDemo.run) ExecDemo.path ExecDemo.argv.
Proof.
  destruct demo_heap as (Hb & Hs & He & Hd). split; [exact demo_exec_image|].
  pose proof (exec_exact (TRAP := ForkDemo.prompt) _ _ 1 0x40380000 Hb Hs He (fun _ => eq_refl) Hd ExecDemo.message ExecDemo.w _ _ _
    demo_exec_ok demo_exec_waits) as H. cbv zeta in H. destruct demo_exec_args as [Ea Ep].
  rewrite demo_exec_run, Ep in H. destruct H as (H1 & argv & Ea' & H2). split; [exact H1|].
  rewrite Ea in Ea'. injection Ea' as <-. exact H2.
Defined.
