(* ===== verification/ForkChild.v ===== *)
(** * What the requests of a forked child leave alone

    While a fork is active the foreground program is the child.  [turn_leaves]:
    none of its requests but the exit touches a descriptor that is not its own,
    so a run of the child is a [meanwhile] of the fork as far as files go. *)
From S2P Require Import Prelude Codec Kconst FsTypes FdTable Alloc Ktypes Sched Ipc IpcSpec Process Mm Storage Super Inode.
From S2P Require Import MemDisk Path Filedes FdSpec Fproc Appfile Signals Fork ForkFiles ForkSpec ForkJoin App AppSpec Replace.
From S2P Require Image.

Section Child.
Context {E : Type} `{DSK : Disk E} `{TRAP : Transport} `{CON : Console E}.
Context (heap_base heap_size : Z) (read write clock : fptr) (services : Z) (rest : list Z).
Abbreviation leaves := (leaves (E := E) APP rest).
Abbreviation holding := (holding (E := E) APP rest).
Abbreviation settled_at := (settled_at (E := E) APP rest).

(** The same for the broker and for the state of application.c *)
Definition bleaves (w w' : broker E) : Prop := leaves (b_files w) (b_files w').
Definition aleaves (s s' : app E) : Prop := bleaves (a_w s) (a_w s').

#[local] Instance bleaves_preorder : PreOrder bleaves.
Proof. split; [intros w; unfold bleaves; reflexivity|intros a b c; unfold bleaves; apply PreOrder_Transitive]. Qed.
#[local] Instance aleaves_preorder : PreOrder aleaves.
Proof. split; [intros w; unfold aleaves; reflexivity|intros a b c; unfold aleaves; apply PreOrder_Transitive]. Qed.

Lemma b_files_call {A} (c : M (fsproc E) A) : keeps leaves c -> keeps bleaves (files c).
Proof. intros H w. specialize (H (b_files w)). unfold files. by destruct (c (b_files w)). Qed.
Lemma b_kernel_call {A} (c : KM A) : keeps bleaves (kernel c).
Proof. intros w. unfold kernel. destruct (c (b_k w)). unfold bleaves. cbn. reflexivity. Qed.
Lemma b_same {A} (c : M (broker E) A) : (forall w, b_files (snd (c w)) = b_files w) -> keeps bleaves c.
Proof. intros H w. unfold bleaves. rewrite H. reflexivity. Qed.
Lemma a_call {A} (c : M (broker E) A) : keeps bleaves c -> keeps aleaves (broker_call c).
Proof. intros H s. specialize (H (a_w s)). unfold broker_call. by destruct (c (a_w s)). Qed.
Lemma a_files {A} (c : M (fsproc E) A) : keeps leaves c -> keeps aleaves (file_call c).
Proof. intros H. by apply a_call, b_files_call. Qed.
Lemma a_kernel {A} (c : KM A) : keeps aleaves (kernel_call c).
Proof. apply a_call, b_kernel_call. Qed.
Lemma a_modify f : (forall s, b_files (a_w (f s)) = b_files (a_w s)) -> keeps aleaves (modify f).
Proof. intros H s. unfold aleaves, bleaves. cbn. rewrite H. reflexivity. Qed.
Lemma leaves_env {A} (c : E -> A * E) : keeps leaves (env_call c).
Proof. apply leaves_fs. intros w. by destruct (c (fs_env w)) as [x e]. Qed.

Hint Resolve b_kernel_call a_kernel leaves_env leaves_proc leaves_file leaves_rename leaves_rmdir leaves_utime leaves_errno leaves_exec : keeps.
Ltac files_solve :=
  repeat first [ solve [auto with keeps nocore] | apply leaves_fs; solve [keeps_solve] | apply leaves_errno | progress cbv beta zeta | keeps_step ].

(** ** The file bridge *)
Lemma leaves_time : keeps leaves (get_time clock).
Proof. unfold get_time. files_solve. Qed.
Lemma leaves_clock op buffer : keeps leaves (clock_request clock op buffer).
Proof. unfold clock_request, done. pose proof leaves_time. files_solve. Qed.
Lemma leaves_sync cap op fd buffer arg : keeps leaves (sync_request read write cap op fd buffer arg).
Proof. unfold sync_request, done. files_solve. Qed.
Lemma leaves_input n : keeps leaves (cp32_shell_app_input n).
Proof. unfold cp32_shell_app_input. assert (H : forall fd b n, keeps same_refs (cp32_fd_read (E := E) fd b n)) by apply keeps_fd_read. files_solve. Qed.

Lemma bridge_leaves op fd buffer arg : keeps aleaves (cp32_shell_app_file read write clock op fd buffer arg).
Proof.
  unfold cp32_shell_app_file, capacity. pose proof leaves_time. pose proof leaves_clock. pose proof leaves_sync.
  assert (Hp : forall x, keeps aleaves (modify (set_previous x))) by (intros; by apply a_modify).
  repeat first [ apply a_files; unfold done; solve [files_solve] | apply Hp | keeps_step ].
Qed.

(** ** exec

    The file of the image is open while it is loaded. *)
Definition quiet (f f' : fsproc E) : Prop :=
  fd_tables f' = fd_tables f /\ pw_procs f' = pw_procs f /\ pw_suspended f' = pw_suspended f.
#[local] Instance quiet_preorder : PreOrder quiet.
Proof. split; [done|]. intros a b c (H1 & H2 & H3) (G1 & G2 & G3). split_and!; congruence. Qed.

Lemma quiet_fs {A} (c : M (fsw E) A) : keeps same_refs c -> keeps quiet (fs c).
Proof. intros H f. specialize (H (pw_fs f)). unfold fs. by destruct (c (pw_fs f)). Qed.

Lemma quiet_app_read fd off n : keeps quiet (cp32_shell_app_read (E := E) fd off n).
Proof.
  unfold cp32_shell_app_read, app_read_turn.
  assert (H : forall fd b n, keeps same_refs (cp32_fd_read (E := E) fd b n)) by apply keeps_fd_read.
  assert (H' : forall fd o b, keeps same_refs (cp32_fd_seek (E := E) fd o b)) by apply keeps_fd_seek.
  repeat first [ apply quiet_fs; solve [auto] | keeps_step ].
Qed.

Lemma quiet_holding f0 own x f f' : quiet f f' -> holding f0 own x f -> holding f0 own x f'.
Proof.
  intros (H1 & H2 & H3) [G1 G2 G3 G4 [O1 [O2 O3]] G6]. assert (Hr : forall i, record f' i = record f i) by (intros; unfold record; by rewrite H2).
  constructor; rewrite ?H1, ?H2, ?Hr; try done. split_and!; [congruence..|]. intros i Hi Hne. rewrite Hr. by apply O3.
Qed.

(** Triples over the files of the broker *)
Definition with_files (P : fsproc E -> Prop) (w : broker E) : Prop := P (b_files w).

Lemma hoare_files {A} P (c : M (fsproc E) A) Q R :
  hoare P c Q R -> hoare (with_files P) (files c) (fun a => with_files (Q a)) (fun e => with_files (R e)).
Proof. intros H w Hw. specialize (H (b_files w) Hw). unfold files. by destruct (c (b_files w)) as [[e|a] f]. Qed.

Lemma hoare_same {A} P (c : M (broker E) A) : (forall w, b_files (snd (c w)) = b_files w) ->
  hoare (with_files P) c (fun _ => with_files P) (fun _ => with_files P).
Proof. intros H w Hw. specialize (H w). destruct (c w) as [[e|a] w']; unfold with_files in *; cbn in H; by rewrite H. Qed.

Lemma settled_keeps {A} f0 (c : M (broker E) A) : keeps bleaves c ->
  hoare (with_files (settled_at f0)) c (fun _ => with_files (settled_at f0)) (fun _ => with_files (settled_at f0)).
Proof.
  intros H w [x Hx]. destruct (holding_leaves _ _ _ _ _ Hx) as (Hg & Ho & Hs). destruct (H w Hg) as (Hg' & Ho' & Hs').
  assert (HS : settled_at f0 (b_files (snd (c w)))).
  { exists (record (b_files (snd (c w))) APP). destruct (good_holding _ _ _ Hg'). constructor; try done; by etransitivity. }
  by destruct (c w) as [[e|a] w'].
Qed.

Lemma keeps_settled {A} (c : M (broker E) A) :
  (forall f0 x, hoare (with_files (holding f0 (handles x) x)) c (fun _ => with_files (settled_at f0)) (fun _ => with_files (settled_at f0))) ->
  keeps bleaves c.
Proof.
  intros H w Hw. specialize (H (b_files w) (record (b_files w) APP) w (good_holding _ _ _ Hw)).
  destruct (c w) as [[e|a] w']; destruct H as [x Hx]; exact (holding_leaves _ _ _ _ _ Hx).
Qed.

Lemma try_same {A} (P S : broker E -> Prop) (c : M (broker E) A) R :
  hoare P c (fun _ => S) (fun _ => S) -> hoare P (try c) (fun _ => S) R.
Proof. intros H w Hw. specialize (H w Hw). unfold try. by destruct (c w) as [[e|a] w']. Qed.

Lemma load_quiet f0 own x fd size text data :
  let P := with_files (holding f0 own x) in
  hoare P (load_image (cp32_shell_app_read fd) size text data) (fun _ => P) (fun _ => P).
Proof.
  intros P w Hw. unfold load_image. set (st0 := {| Image.context := b_files w; Image.text_buf := _; Image.data_buf := _ |}).
  pose proof (load_context quiet (cp32_shell_app_read fd) size (quiet_app_read fd) st0) as Hctx.
  destruct (Image.cp32_image_load _ size st0) as [r st]. cbn [snd st0 Image.context] in Hctx.
  assert (HP : holding f0 own x (Image.context st)) by (by eapply quiet_holding).
  by destruct r.
Qed.

Lemma close_window f0 fd x R :
  hoare (with_files (holding f0 (fd :: handles x) x)) (files (ignore (fs (cp32_fd_close fd)))) (fun _ => with_files (settled_at f0)) R.
Proof.
  eapply hoare_conseq; [apply (hoare_files (holding f0 (fd :: handles x) x) _ (fun _ => holding f0 (handles x) x) (fun _ _ => False))|done| |done].
  - apply (hold_ignore (holding f0 (fd :: handles x) x)), hold_close.
  - intros [] w Hw. by exists x.
Qed.

Lemma b_stack at_ argv : keeps bleaves (stack_image (E := E) at_ argv).
Proof. apply b_same. intros w. unfold stack_image. by repeat case_match. Qed.

Lemma b_commit child stage path image sp : keeps bleaves (commit_image (E := E) services child stage path image sp).
Proof.
  unfold commit_image, on_kernel, cp32_shell_app_files_exec.
  assert (H1 : keeps bleaves (files (cp32_fproc_exec APP))) by (apply b_files_call, leaves_exec).
  assert (H2 : forall c p f b, keeps bleaves (modify (set_run (E := E) c p f b))) by (intros; by apply b_same).
  assert (H3 : forall f b, keeps bleaves (modify (fun w => set_run (E := E) (b_child w) (b_ppid w) f b w))) by (intros; by apply b_same).
  keeps_solve.
Qed.

Lemma b_free base : keeps bleaves (fork_free (E := E) heap_base heap_size base).
Proof. apply b_same. intros w. apply fork_free_files. Qed.

Lemma stage_window f0 x fd size stage argv :
  hoare (with_files (holding f0 (fd :: handles x) x)) (stage_image fd size stage argv)
    (fun _ => with_files (settled_at f0)) (fun _ => with_files (settled_at f0)).
Proof.
  unfold stage_image. eapply hoare_bind with (Q' := fun _ => with_files (holding f0 (fd :: handles x) x)).
  { apply try_same, load_quiet. }
  intros r. eapply hoare_bind; [apply close_window|]. intros []. apply settled_keeps.
  unfold on_kernel. pose proof b_stack. keeps_solve.
Qed.

Lemma sendrec_total m (w : broker E) : exists r, fst (sendrec_mm heap_base heap_size m w) = Ok r.
Proof. unfold sendrec_mm. cbv zeta. repeat case_match; by eexists. Qed.

Lemma b_replace child m : keeps bleaves (application_replace heap_base heap_size read services child m).
Proof.
  unfold application_replace. cbv zeta. do 2 (keeps_step; [keeps_step|]). keeps_step; [keeps_step|]. do 2 (keeps_step; [keeps_step|]).
  keeps_step; [keeps_step|]. keeps_step; [apply b_files_call, leaves_env|]. apply keeps_settled. intros f0 x.
  eapply hoare_bind; [apply hoare_files, hold_exec_open|]. intros [fd size]. cbn [fst].
  intros w Hw. unfold bind at 1. match goal with |- context [sendrec_mm _ _ ?m w] => destruct (sendrec_total m w) as [r Hr];
    pose proof (sendrec_files heap_base heap_size m w) as Hf; destruct (sendrec_mm _ _ m w) as [r' w1] end.
  cbn [fst snd] in *. subst r'. assert (Hw1 : with_files (holding f0 (fd :: handles x) x) w1) by (unfold with_files; by rewrite Hf).
  clear w Hw Hf. revert w1 Hw1. destruct (_ || _).
  - eapply hoare_bind; [apply close_window|]. intros []. by apply hoare_fail.
  - eapply hoare_bind with (Q' := fun _ => with_files (settled_at f0)).
    + apply try_same. eapply hoare_bind; [apply stage_window|]. intros [image sp]. apply settled_keeps, b_commit.
    + intros r'. apply settled_keeps. pose proof b_free. keeps_solve.
Qed.

(** ** A turn of the child *)
Lemma a_status {A} (ok : A -> Z) r : keeps aleaves (status ok r).
Proof. unfold status. keeps_solve. Qed.

Lemma a_fork_wait pid p options : keeps aleaves (broker_call (cp32_fork_wait pid p options)).
Proof. apply a_call. unfold cp32_fork_wait. keeps_solve; by apply b_same. Qed.

Lemma file_request_leaves m : keeps aleaves (application_file_request read write clock m).
Proof. unfold application_file_request. pose proof bridge_leaves. keeps_solve. Qed.

(** A fork while one is active is refused at once. *)
Lemma active_start pid (w : broker E) : f_parent (b_forked w) <> NIL_PROC -> cp32_fork_start heap_base heap_size pid w = (Err (-11), w).
Proof.
  intros H. unfold cp32_fork_start. rewrite !bind_gets, bind_guard. by rewrite (proj2 (Z.eqb_neq _ _)) by done.
Qed.

Lemma a_follow : keeps aleaves follow_child.
Proof. by apply a_modify. Qed.
Lemma a_sbrk m : keeps aleaves (app_sbrk m).
Proof. unfold app_sbrk. assert (H : forall f b, keeps aleaves (broker_call (modify (set_run (E := E) f b 0 0)))) by (intros; by apply a_call, b_same).
  keeps_solve. by apply a_call, b_same. Qed.
Lemma a_read m : keeps aleaves (app_read m).
Proof. unfold app_read. assert (H : forall n, keeps aleaves (file_call (cp32_shell_app_input n))) by (intros; apply a_files, leaves_input). keeps_solve. Qed.
Lemma a_write m : keeps aleaves (app_write m).
Proof. unfold app_write. keeps_solve. by apply a_modify. Qed.

Abbreviation active s := (f_parent (b_forked (a_w s)) <> NIL_PROC).

Lemma fork_refused m s : active s -> aleaves s (snd (app_fork heap_base heap_size m s)).
Proof.
  intros Ha. unfold app_fork. apply (run_bind aleaves); [unfold application_pid; destruct (try_pids _ _ _); unfold aleaves, bleaves; cbn; reflexivity|].
  intros pid s1 Hs1. assert (Hw : a_w s1 = a_w s) by (unfold application_pid in Hs1; destruct (try_pids _ _ _); by injection Hs1 as <- <-).
  apply (run_bind aleaves); [|intros r s2 _; revert s2; pose proof a_follow; keeps_solve].
  case_match; [cbn; reflexivity|]. apply (run_bind aleaves); [|intros r s2 _; apply a_status].
  unfold try, broker_call. rewrite active_start by (by rewrite Hw). destruct s1. unfold aleaves. cbn. reflexivity.
Qed.

(** The state does not matter. *)
Ltac any_state := match goal with |- aleaves ?s (snd (?c ?s)) => cut (keeps aleaves c); [intros Hc; apply Hc|keeps_solve] end.

Lemma serve_leaves m s : active s -> aleaves s (snd (app_serve heap_base heap_size read write clock services m s)).
Proof.
  intros Ha. unfold app_serve. rewrite bind_gets. cbv zeta. pose proof a_sbrk. pose proof a_read. pose proof a_write.
  pose proof a_fork_wait. pose proof file_request_leaves. assert (Hst : forall A (ok : A -> Z) r, keeps aleaves (status ok r)) by (intros; apply a_status).
  destruct (q_type m =? APP_GETPID); [cbn; reflexivity|]. destruct (q_type m =? APP_GETPPID); [cbn; reflexivity|].
  destruct (q_type m =? APP_FILE).
  - destruct (q_i1 m =? CP32_APP_FORK).
    { apply (run_bind aleaves); [by apply fork_refused|]. intros r s1 _. cbn. reflexivity. }
    destruct (q_i1 m =? CP32_APP_WAITPID); [any_state|].
    destruct (q_i1 m =? CP32_APP_EXEC).
    { assert (Hr : forall c, keeps aleaves (broker_call (application_replace heap_base heap_size read services c m))) by (intros; apply a_call, b_replace). any_state. }
    any_state.
  - any_state.
Qed.

(** While a fork is active, no request of the child but its exit touches a
    descriptor that is not the child's, or a file record but for directories. *)
Lemma turn_leaves m s :
  active s -> q_type m <> APP_EXIT ->
  leaves (b_files (a_w s)) (b_files (a_w (snd (application_turn heap_base heap_size read write clock services m s)))).
Proof.
  intros Ha Hm. unfold application_turn. rewrite bind_gets. unfold cp32_shell_app_files_owner.
  set (owner := broker_call (x <- files (proc APP);; ret (truthy _ && _))).
  assert (Howner : exists b, owner s = (Ok b, s)) by (destruct s as [w ? ? ? ? ? ?]; destruct w; by eexists).
  destruct Howner as [b Eb]. rewrite (bind_ok _ _ _ _ _ Eb), bind_guard. destruct (negb b); [cbn; reflexivity|].
  assert (Eact : broker_call cp32_fork_active s = (Ok (f_parent (b_forked (a_w s)) !=? NIL_PROC), s))
    by (by destruct s as [w ? ? ? ? ? ?]).
  rewrite (bind_ok _ _ _ _ _ Eact). rewrite (proj2 (Z.eqb_neq _ _) Hm). cbn [andb].
  change (aleaves s (snd ((r <- app_serve heap_base heap_size read write clock services m ;; ret (match r with Some m => Reply m | None => Running end)) s))).
  apply (run_bind aleaves); [by apply serve_leaves|]. intros r s1 _. cbn. reflexivity.
Qed.
End Child.
