(* ===== verification/Heap.v ===== *)
(** * The allocator of programs: src/src/apps/lib/heap.c

    A first-fit list of blocks in the program's own memory, behind 16-byte
    headers (size, free, next), that grows and shrinks with the break.  The
    service [sbrk] and the memory are the interface [Sbrk]; the statics [first],
    [last] and [api] (is it set) are the other fields of the state. *)
From S2P Require Import Prelude Codec.
From S2P Require Exec.

Class Sbrk (W : Type) := {
  sb_sbrk : Z -> M W Z;
  sb_mem : W -> mem;
  sb_store : Z -> list Z -> W -> W }.

Record heap (W : Type) := Heap { h_first : Z; h_last : Z; h_api : bool; h_w : W }.
Arguments Heap {W}. Arguments h_first {W}. Arguments h_last {W}. Arguments h_api {W}. Arguments h_w {W}.

(** [((sizeof(struct block)+15U)&~15U)], and [(void * )-1]. *)
Definition HEADER := 16.
Definition NO_SPACE := 4294967295.

(** The blocks that fit between the data and the stack of a program, and the
    status of a search that has visited more: it never ends. *)
Definition BLOCKS : nat := 400.
Definition STUCK := -1000.

Section Setters.
Context {W : Type}.
Definition set_first (x : Z) (h : heap W) : heap W := Heap x (h_last h) (h_api h) (h_w h).
Definition set_last (x : Z) (h : heap W) : heap W := Heap (h_first h) x (h_api h) (h_w h).
Definition set_api (x : bool) (h : heap W) : heap W := Heap (h_first h) (h_last h) x (h_w h).
Definition set_world (x : W) (h : heap W) : heap W := Heap (h_first h) (h_last h) (h_api h) x.
End Setters.

(** ** Blocks in memory *)
Definition b_size (m : mem) (b : Z) : Z := word_at m b.
Definition b_free (m : mem) (b : Z) : bool := truthy (word_at m (b + 4)).
Definition b_next (m : mem) (b : Z) : Z := word_at m (b + 8).

(** [for(b=first;b;b=b->next)if(test)break;]: the block or null, [None] when it
    has not ended. *)
Fixpoint find_block (fuel : nat) (test : Z -> bool) (m : mem) (b : Z) : option Z :=
  match fuel with
  | O => None
  | S fuel => if b =? 0 then Some 0 else if test b then Some b else find_block fuel test m (b_next m b)
  end.

(** [for(b=first;b && b!=last;b=b->next)previous=b;] *)
Fixpoint find_previous (fuel : nat) (last : Z) (m : mem) (previous b : Z) : option Z :=
  match fuel with
  | O => None
  | S fuel => if (b =? 0) || (b =? last) then Some previous else find_previous fuel last m b (b_next m b)
  end.

Section Heap.
Context {W : Type} `{SBRK : Sbrk W}.
Abbreviation HM := (M (heap W)).

Definition memory : HM mem := gets (fun h => sb_mem (h_w h)).
Definition store (a : Z) (bs : list Z) : HM unit := modify (fun h => set_world (sb_store a bs (h_w h)) h).
Definition store_word (a x : Z) : HM unit := store a (Exec.le_bytes x).
Definition set_size (b x : Z) : HM unit := store_word b x.
Definition set_free (b x : Z) : HM unit := store_word (b + 4) x.
Definition set_next (b x : Z) : HM unit := store_word (b + 8) x.
Definition sbrk (n : Z) : HM Z := fun h => let (r, w) := sb_sbrk n (h_w h) in (r, set_world w h).
Definition ended {A} (x : option A) : HM A := match x with Some a => ret a | None => fail STUCK end.
Definition search (test : mem -> Z -> bool) : HM Z :=
  m <- memory ;; first <- gets h_first ;; ended (find_block BLOCKS (test m) m first).

(** [int cp32_heap_init(services)]: the version and the [sbrk] of the table, if any. *)
Definition cp32_heap_init (services : option (Z * Z)) : HM unit :=
  api <- gets h_api ;;
  guard api (-1) ;;;
  match services with
  | None => fail (-1)
  | Some (version, sbrk_ptr) =>
      guard ((version <? 4) || (sbrk_ptr =? 0)) (-1) ;;;
      base <- sbrk 0 ;;
      guard ((base =? NO_SPACE) || truthy (Z.land base 15)) (-1) ;;;
      modify (set_api true)
  end.

Definition rounded (size : Z) : Z := Z.land (size +u 15) (not32 15).
Definition too_large (size : Z) : bool := 0x7fffffff - HEADER - 15 <? size.

(** The tail of [b] behind [need] bytes; [free] is the flag it gets. *)
Definition split_block (b need free : Z) : HM Z :=
  m <- memory ;;
  let tail := b +u HEADER +u need in
  set_size tail (b_size m b -u need -u HEADER) ;;;
  set_free tail free ;;;
  m <- memory ;;
  set_next tail (b_next m b) ;;;
  set_size b need ;;;
  set_next b tail ;;;
  modify (fun h => if h_last h =? b then set_last tail h else h) ;;;
  ret tail.
Definition splits (m : mem) (b need : Z) : bool := HEADER + 16 <=? b_size m b -u need.

(** A new block at the break *)
Definition append_block (b need : Z) : HM unit :=
  set_size b need ;;;
  set_next b 0 ;;;
  last <- gets h_last ;;
  (if truthy last then set_next last b else modify (set_first b)) ;;;
  modify (set_last b).

Definition cp32_malloc (size : Z) : HM Z :=
  api <- gets h_api ;;
  if negb api || (size =? 0) || too_large size then ret 0 else
  let need := rounded size in
  b <- search (fun m b => b_free m b && (need <=? b_size m b)) ;;
  b <- (if b =? 0 then
          b <- sbrk (to_int (HEADER +u need)) ;;
          (if b =? NO_SPACE then ret 0 else append_block b need ;;; ret b)
        else
          m <- memory ;;
          (if splits m b need then split_block b need 1 ;;; ret b else ret b)) ;;
  if b =? 0 then ret 0 else
  set_free b 0 ;;;
  ret (b +u HEADER).

(** [b->size+=HEADER+next->size; b->next=next->next; if(last==next)last=b;] *)
Definition absorb (b : Z) : HM unit :=
  m <- memory ;;
  let next := b_next m b in
  set_size b (b_size m b +u (HEADER +u b_size m next)) ;;;
  m <- memory ;;
  set_next b (b_next m next) ;;;
  modify (fun h => if h_last h =? next then set_last b h else h).
Definition adjoins (m : mem) (b next : Z) : bool := b +u HEADER +u b_size m b =? next.

Definition coalesce_turn (b : Z) : HM (turn Z unit) :=
  m <- memory ;;
  if (b =? 0) || (b_next m b =? 0) then ret (Break tt) else
  let next := b_next m b in
  if b_free m b && b_free m next && adjoins m b next then absorb b ;;; ret (Continue b)
  else ret (Continue next).

Definition cp32_free (pointer : Z) : HM unit :=
  if pointer =? 0 then ret tt else
  b <- search (fun _ b => b +u HEADER =? pointer) ;;
  m <- memory ;;
  if (b =? 0) || b_free m b then ret tt else
  set_free b 1 ;;;
  first <- gets h_first ;;
  loop BLOCKS coalesce_turn (fun _ => fail STUCK) first.

Definition cp32_calloc (count size : Z) : HM Z :=
  if (count =? 0) || (size =? 0) || (4294967295 / size <? count) then ret 0 else
  let total := count *u size in
  p <- cp32_malloc total ;;
  (if truthy p then store p (replicate (Z.to_nat total) 0) else ret tt) ;;;
  ret p.

(** The request is met by the block and its free neighbour. *)
Definition grows (m : mem) (b need : Z) : bool :=
  let next := b_next m b in
  (b_size m b <? need) && truthy next && b_free m next && adjoins m b next &&
  (need <=? b_size m b +u HEADER +u b_size m next).

Definition cp32_realloc (pointer size : Z) : HM Z :=
  if pointer =? 0 then cp32_malloc size else
  b <- search (fun _ b => b +u HEADER =? pointer) ;;
  m <- memory ;;
  if (b =? 0) || b_free m b then ret 0 else
  if size =? 0 then cp32_free pointer ;;; ret 0 else
  if too_large size then ret 0 else
  let need := rounded size in
  (if grows m b need then absorb b else ret tt) ;;;
  m <- memory ;;
  if need <=? b_size m b then
    (if splits m b need then tail <- split_block b need 0 ;; cp32_free (tail +u HEADER) else ret tt) ;;;
    ret pointer
  else
    p <- cp32_malloc size ;;
    if p =? 0 then ret 0 else
    m <- memory ;;
    store p (mem_read m pointer (b_size m b)) ;;;
    cp32_free pointer ;;;
    ret p.

Definition cp32_heap_trim : HM Z :=
  h <- gets (fun h => h) ;;
  if negb (h_api h) then ret (-1) else
  let m := sb_mem (h_w h) in
  let last := h_last h in
  if (last =? 0) || negb (b_free m last) then ret 0 else
  previous <- ended (find_previous BLOCKS last m 0 (h_first h)) ;;
  let bytes := HEADER +u b_size m last in
  top <- sbrk 0 ;;
  if top !=? last +u bytes then ret (-1) else
  r <- sbrk (to_int (0 -u bytes)) ;;
  if r =? NO_SPACE then ret (-1) else
  (if truthy previous then set_next previous 0 else modify (set_first 0)) ;;;
  modify (set_last previous) ;;;
  ret (to_int bytes).
End Heap.
