(* ===== verification/HeapSpec.v ===== *)
(** * The blocks of a program's heap

    The list in memory tiles the heap from its base to the break: [chain].  The
    payloads of the blocks in use are [live], and [merge] is the list after a
    pass of coalescing.  The lemmas say what the operations of [Heap] do to
    chains; HeapRefine states what they promise. *)
From S2P Require Import Prelude Codec Heap.
From S2P Require Exec.

(** A block: the size of its payload and whether it is free. *)
Abbreviation block := (Z * bool)%type.

Definition extent (k : block) : Z := HEADER + fst k.
Definition end_of (a : Z) (bl : list block) : Z := fold_left (fun a k => a + extent k) bl a.
Definition legal (k : block) : Prop := 16 <= fst k /\ fst k mod 16 = 0.

(** The pointer [p] leads through the blocks [bl], which start at [a], to [q]. *)
Fixpoint seg (m : mem) (p a : Z) (bl : list block) (q : Z) : Prop :=
  match bl with
  | [] => p = q
  | k :: bl => p = a /\ legal k /\ b_size m a = fst k /\ b_free m a = snd k /\ seg m (b_next m a) (a + extent k) bl q
  end.

(** The address of the last block, null for none. *)
Definition last_of (a : Z) (bl : list block) : Z :=
  match bl with [] => 0 | _ => end_of a (removelast bl) end.

(** The payloads of the blocks in use: address and size. *)
Fixpoint live (a : Z) (bl : list block) : list (Z * Z) :=
  match bl with
  | [] => []
  | (s, true) :: bl => live (a + HEADER + s) bl
  | (s, false) :: bl => (a + HEADER, s) :: live (a + HEADER + s) bl
  end.

(** Coalescing: each run of free blocks becomes one. *)
Fixpoint merge_from (k : block) (bl : list block) : list block :=
  match bl with
  | [] => [k]
  | n :: bl => if snd k && snd n then merge_from (fst k + extent n, true) bl else k :: merge_from n bl
  end.
Definition merge (bl : list block) : list block := match bl with [] => [] | k :: bl => merge_from k bl end.

(** No two free blocks meet. *)
Fixpoint coalesced (bl : list block) : Prop :=
  match bl with
  | k :: (n :: _) as bl' => snd k && snd n = false /\ coalesced bl'
  | _ => True
  end.

(** ** Lists *)
Lemma end_of_app a l1 l2 : end_of a (l1 ++ l2) = end_of (end_of a l1) l2.
Proof. apply fold_left_app. Qed.

Lemma end_of_cons a k l : end_of a (k :: l) = end_of (a + extent k) l.
Proof. done. Qed.

Lemma end_of_ge a l : Forall legal l -> a + 32 * lenZ l <= end_of a l.
Proof.
  intros H. revert a. induction H as [|k l [Hk _] _ IH]; intros a; [unfold lenZ; cbn; lia|].
  rewrite end_of_cons. specialize (IH (a + extent k)). unfold extent, HEADER in *. unfold lenZ in *. cbn [length]. lia.
Qed.

Lemma end_of_shift a d l : end_of (a + d) l = end_of a l + d.
Proof. revert a. induction l as [|k l IH]; intros a; [done|]. rewrite !end_of_cons, <- IH. f_equal. lia. Qed.

Lemma seg_app m p a l1 l2 q : seg m p a (l1 ++ l2) q <-> exists r, seg m p a l1 r /\ seg m r (end_of a l1) l2 q.
Proof.
  revert p a. induction l1 as [|k l1 IH]; intros p a; cbn [app seg].
  - split; [intros H; by exists p|]. by intros (r & -> & H).
  - rewrite IH, end_of_cons. split.
    + intros (H1 & H2 & H3 & H4 & r & H5 & H6). by exists r.
    + intros (r & (H1 & H2 & H3 & H4 & H5) & H6). do 4 (split; [done|]). by exists r.
Qed.

Lemma seg_legal m p a l q : seg m p a l q -> Forall legal l.
Proof. revert p a. induction l as [|k l IH]; intros p a; cbn [seg]; [constructor|]. intros (_ & H & _ & _ & H'). constructor; eauto. Qed.

Lemma seg_first m p a k l q : seg m p a (k :: l) q -> p = a.
Proof. by intros (H & _). Qed.

(** A segment depends on its headers only. *)
Lemma seg_frame m m' p a l q :
  (forall x, a <= x < end_of a l -> m' x = m x) -> seg m p a l q -> seg m' p a l q.
Proof.
  intros H Hs. pose proof (seg_legal _ _ _ _ _ Hs) as Hl. revert p a H Hs.
  induction Hl as [|k l [Hk Hk16] Hl IH]; intros p a H Hs; [done|]. cbn [seg] in *. destruct Hs as (-> & H2 & H3 & H4 & H5).
  pose proof (end_of_ge (a + extent k) l Hl) as He. pose proof (lenZ_nonneg l). rewrite end_of_cons in H. unfold extent, HEADER in *.
  unfold b_size, b_free, b_next in *. rewrite !(word_at_ext m m') by (intros x Hx; apply H; lia).
  do 4 (split; [done|]). apply IH; [|done]. intros x Hx. apply H. lia.
Qed.

Lemma coalesced_app_r l1 l2 : coalesced (l1 ++ l2) -> coalesced l2.
Proof. induction l1 as [|k l1 IH]; [done|]. intros H. apply IH. cbn [app coalesced] in H. destruct (l1 ++ l2); [done|apply H]. Qed.

Lemma last_of_snoc a l k : last_of a (l ++ [k]) = end_of a l.
Proof. unfold last_of. destruct (l ++ [k]) eqn:E; [by destruct l|]. by rewrite <- E, removelast_last. Qed.

Lemma last_of_app a l1 k l2 : last_of a (l1 ++ k :: l2) = last_of (end_of a l1) (k :: l2).
Proof.
  unfold last_of at 1. destruct (l1 ++ k :: l2) eqn:E; [by destruct l1|]. rewrite <- E, removelast_app, end_of_app by done. done.
Qed.

Lemma last_of_cons a k l : last_of a (k :: l) = match l with [] => a | _ => last_of (a + extent k) l end.
Proof. by destruct l. Qed.

Lemma last_of_ge a k l : Forall legal (k :: l) -> a <= last_of a (k :: l).
Proof.
  intros H. unfold last_of. assert (Hl : Forall legal (removelast (k :: l))).
  { rewrite (app_removelast_last (0, true) (l := k :: l)) in H by done. by apply Forall_app in H as [H _]. }
  apply (end_of_ge a) in Hl. pose proof (lenZ_nonneg (removelast (k :: l))). lia.
Qed.

Lemma live_cons a k l : live a (k :: l) = (if snd k then [] else [(a + HEADER, fst k)]) ++ live (a + extent k) l.
Proof. destruct k as [s [|]]; cbn [live snd fst app]; unfold extent; cbn [fst]; by rewrite Z.add_assoc. Qed.

Lemma live_app a l1 l2 : live a (l1 ++ l2) = live a l1 ++ live (end_of a l1) l2.
Proof.
  revert a. induction l1 as [|k l1 IH]; intros a; [done|]. cbn [app]. by rewrite !live_cons, IH, end_of_cons, app_assoc.
Qed.

(** The payloads lie in the heap, behind a header. *)
Lemma live_range a l p s : Forall legal l -> In (p, s) (live a l) -> a + HEADER <= p /\ p + s <= end_of a l /\ 16 <= s.
Proof.
  intros H. revert a. induction H as [|k l [Hk Hk16] Hl IH]; intros a; [done|].
  pose proof (end_of_ge (a + extent k) l Hl) as He. pose proof (lenZ_nonneg l). rewrite live_cons, end_of_cons, in_app_iff.
  unfold extent, HEADER in *. intros [Hin|Hin%IH]; [|lia]. destruct (snd k); [done|]. destruct Hin as [[= <- <-]|[]]. lia.
Qed.

(** Coalescing keeps the extent, the payloads and the legality. *)
Lemma merge_from_spec k l : forall a, Forall legal (k :: l) ->
  end_of a (merge_from k l) = end_of a (k :: l) /\ live a (merge_from k l) = live a (k :: l) /\
  Forall legal (merge_from k l) /\ coalesced (merge_from k l) /\
  exists k' l', merge_from k l = k' :: l' /\ snd k' = snd k.
Proof.
  revert k. induction l as [|n l IH]; intros k a HF; cbn [merge_from].
  { split_and!; try done. by exists k, []. }
  inversion_clear HF as [|? ? [Hk Hk16] HF']. pose proof HF' as [[Hn Hn16] HFl]%Forall_cons_1.
  destruct (snd k && snd n) eqn:E.
  - apply andb_true_iff in E as [Ek En]. destruct k as [s f], n as [s' f']. cbn [fst snd] in *. subst.
    assert (HL : legal (s + extent (s', true), true)) by (unfold legal, extent, HEADER; cbn [fst]; split; [lia|]; Z.div_mod_to_equations; lia).
    destruct (IH (s + extent (s', true), true) a) as (H1 & H2 & H3 & H4 & k' & l' & H5 & H6); [by constructor|].
    rewrite H1, H2. unfold extent. split_and!; try done.
    + rewrite !end_of_cons. f_equal. unfold extent. cbn [fst]. lia.
    + rewrite !live_cons. cbn [snd app]. f_equal. unfold extent. cbn [fst]. lia.
    + by exists k', l'.
  - destruct (IH n (a + extent k) HF') as (H1 & H2 & H3 & H4 & k' & l' & H5 & H6). split_and!.
    + by rewrite !end_of_cons, H1.
    + by rewrite live_cons, H2, <- live_cons.
    + by constructor.
    + rewrite H5 in H4 |- *. split; [by rewrite H6|exact H4].
    + by exists k, (merge_from n l).
Qed.

(** ** Searches *)
Section Search.
Context (m : mem).

Lemma find_block_spec test fuel p a l :
  0 < a -> seg m p a l 0 -> (length l < fuel)%nat ->
  (find_block fuel test m p = Some 0 /\ forall l1 k l2, l = l1 ++ k :: l2 -> test (end_of a l1) = false) \/
  exists l1 k l2, l = l1 ++ k :: l2 /\ find_block fuel test m p = Some (end_of a l1) /\ test (end_of a l1) = true /\
    forall l3 k' l4, l1 = l3 ++ k' :: l4 -> test (end_of a l3) = false.
Proof.
  revert fuel p a. induction l as [|k l IH]; intros [|fuel] p a Ha Hs Hf; cbn [length] in Hf; try lia; cbn [find_block].
  - cbn [seg] in Hs. subst p. left. split; [done|]. by intros [].
  - cbn [seg] in Hs. destruct Hs as (-> & [Hk _] & _ & _ & Hs). rewrite (proj2 (Z.eqb_neq a 0)) by lia.
    destruct (test a) eqn:Ht.
    { right. exists [], k, l. split; [done|]. split; [done|]. split; [done|]. by intros []. }
    destruct (IH fuel (b_next m a) (a + extent k)) as [[H1 H2]|(l1 & k' & l2 & -> & H2 & H3 & H4)]; [unfold extent, HEADER; lia|done|lia|left|right].
    + split; [done|]. intros [|k1 l1] k2 l2 [= -> E]; [done|]. rewrite end_of_cons. by apply (H2 l1 k2 l2).
    + exists (k :: l1), k', l2. split; [done|]. split; [done|]. split; [done|].
      intros [|k1 l3] k2 l4 [= -> E]; [done|]. rewrite end_of_cons. by apply (H4 l3 k2 l4).
Qed.

Lemma find_previous_spec fuel p a l k q prev :
  0 < a -> seg m p a (l ++ [k]) q -> (length l < fuel)%nat ->
  find_previous fuel (end_of a l) m prev p = Some (match l with [] => prev | _ => last_of a l end).
Proof.
  revert fuel p a prev. induction l as [|n l IH]; intros [|fuel] p a prev Ha Hs Hf; cbn [length] in Hf; try lia; cbn [find_previous].
  - cbn [app] in Hs. rewrite (seg_first _ _ _ _ _ _ Hs). cbn [end_of fold_left]. by rewrite Z.eqb_refl, orb_true_r.
  - cbn [app seg] in Hs. destruct Hs as (-> & Hn & _ & _ & Hs). pose proof (seg_legal _ _ _ _ _ Hs) as Hl.
    apply Forall_app in Hl as [Hl _]. pose proof (end_of_ge (a + extent n) l Hl). pose proof (lenZ_nonneg l).
    destruct Hn as [Hn _]. rewrite end_of_cons. unfold extent, HEADER in *. rewrite !(proj2 (Z.eqb_neq a _)) by lia. cbn [orb].
    rewrite IH by (done || lia). f_equal. destruct l as [|k' l]; [done|]. unfold last_of. cbn [removelast]. by rewrite end_of_cons.
Qed.
End Search.

(** ** The world of the heap

    [sb_brk] is the break; it moves between [sb_floor] and [sb_top], new bytes
    are zero, and a refusal changes nothing. *)
Class SbrkSpec (W : Type) `{Sbrk W} := {
  sb_ok : W -> Prop;
  sb_brk : W -> Z;
  sb_floor : W -> Z;
  sb_top : Z;
  sb_bounds : forall w, sb_ok w -> 0 < sb_floor w /\ sb_floor w <= sb_brk w <= sb_top /\ sb_top <= sb_floor w + 12288;
  sb_top_small : sb_top < 0x7fff0000;
  sb_store_mem : forall a bs w, sb_mem (sb_store a bs w) ≡m mem_write (sb_mem w) a bs;
  sb_store_same : forall a bs w, sb_ok w ->
    sb_ok (sb_store a bs w) /\ sb_brk (sb_store a bs w) = sb_brk w /\ sb_floor (sb_store a bs w) = sb_floor w;
  sb_sbrk_exact : forall n w, sb_ok w -> - 2 ^ 31 <= n < 2 ^ 31 ->
    let fits := (sb_floor w <=? sb_brk w + n) && (sb_brk w + n <=? sb_top) in
    exists w', sb_sbrk n w = (Ok (if fits then sb_brk w else NO_SPACE), w') /\ sb_ok w' /\
      sb_floor w' = sb_floor w /\ sb_brk w' = (if fits then sb_brk w + n else sb_brk w) /\
      forall a, sb_mem w' a = if fits && (sb_brk w <=? a) && (a <? sb_brk w + n) then 0 else sb_mem w a }.

Section World.
Context {W : Type} {SB : Sbrk W} {SPEC : SbrkSpec W}.
Abbreviation hmem h := (sb_mem (h_w h)).

(** Everything but the memory and the list is as before. *)
Record grounded (h h' : heap W) : Prop := {
  gr_ok : sb_ok (h_w h) -> sb_ok (h_w h');
  gr_api : h_api h' = h_api h;
  gr_brk : sb_ok (h_w h) -> sb_brk (h_w h') = sb_brk (h_w h);
  gr_floor : sb_ok (h_w h) -> sb_floor (h_w h') = sb_floor (h_w h) }.

#[local] Instance grounded_preorder : PreOrder grounded.
Proof.
  split; [done|]. intros h1 h2 h3 [A1 B1 C1 D1] [A2 B2 C2 D2]. constructor; [auto|congruence| |]; intros Hw.
  - rewrite C2; auto.
  - rewrite D2; auto.
Qed.

Lemma grounded_store a bs (h : heap W) : grounded h (set_world (sb_store a bs (h_w h)) h).
Proof. constructor; cbn [h_w h_api set_world]; [intros Hw; by apply sb_store_same|done|..]; intros Hw; by apply sb_store_same. Qed.

(** The heap from [base] consists of the blocks [bl]. *)
Record heap_at (h : heap W) (base : Z) (bl : list block) : Prop := {
  ha_ok : sb_ok (h_w h);
  ha_api : h_api h = true;
  ha_base : sb_floor (h_w h) <= base /\ base mod 16 = 0;
  ha_seg : seg (hmem h) (h_first h) base bl 0;
  ha_last : h_last h = last_of base bl;
  ha_brk : sb_brk (h_w h) = end_of base bl }.

Lemma ha_legal h base bl : heap_at h base bl -> Forall legal bl.
Proof. intros H. eapply seg_legal, ha_seg, H. Qed.

(** Where the blocks of a heap lie. *)
Lemma ha_range h base l1 l2 : heap_at h base (l1 ++ l2) ->
  0 < base /\ base + 32 * lenZ l1 <= end_of base l1 /\ end_of base l1 + 32 * lenZ l2 <= end_of base (l1 ++ l2) /\
  end_of base (l1 ++ l2) <= sb_top /\ sb_top < 0x7fff0000 /\ lenZ (l1 ++ l2) <= 384.
Proof.
  intros H. pose proof (ha_legal _ _ _ H) as Hl. pose proof (end_of_ge base _ Hl) as H0. apply Forall_app in Hl as [Hl1 Hl2].
  pose proof (end_of_ge base _ Hl1) as H1. pose proof (end_of_ge (end_of base l1) _ Hl2) as H2. rewrite <- end_of_app in H2.
  destruct (sb_bounds _ (ha_ok _ _ _ H)) as (B1 & B2 & B3). rewrite (ha_brk _ _ _ H) in B2. pose proof sb_top_small.
  destruct (ha_base _ _ _ H). split_and!; try done; lia.
Qed.

(** Replacing the blocks [mid] by [mid'] on the same bytes. *)
Lemma heap_replace h h' base l1 mid mid' l2 :
  heap_at h base (l1 ++ mid ++ l2) -> mid <> [] -> mid' <> [] ->
  let a := end_of base l1 in
  end_of a mid' = end_of a mid ->
  (forall x, x < a \/ end_of a mid <= x -> hmem h' x = hmem h x) ->
  (forall r, seg (hmem h) a a mid r -> (l2 = [] -> r = 0) -> (l2 <> [] -> r = end_of a mid) -> seg (hmem h') a a mid' r) ->
  h_first h' = h_first h -> h_last h' = last_of base (l1 ++ mid' ++ l2) -> grounded h h' ->
  heap_at h' base (l1 ++ mid' ++ l2).
Proof.
  intros H Hm Hm' a He Hout Hseg Hf Hlast [G1 G2 G3 G4]. pose proof H as [Hok Hapi Hbase Hs _ Hbrk].
  constructor; [auto|congruence|by rewrite G4| |done|].
  - rewrite Hf. apply seg_app in Hs as (r & Hs1 & Hs2). apply seg_app in Hs2 as (r2 & Hs2 & Hs3). fold a in Hs2, Hs3.
    destruct mid as [|k mid]; [done|]. pose proof (seg_first _ _ _ _ _ _ Hs2) as ->.
    apply seg_app. exists a. split; [apply (seg_frame (hmem h)); [intros x Hx; apply Hout; by left; unfold a; lia|done]|].
    apply seg_app. exists r2. fold a. split.
    + apply Hseg; [done|intros ->; exact Hs3|]. intros Hne. destruct l2 as [|n l2]; [done|]. exact (seg_first _ _ _ _ _ _ Hs3).
    + rewrite He. apply (seg_frame (hmem h)); [|done]. intros x Hx. apply Hout. lia.
  - rewrite G3, Hbrk by done. rewrite !end_of_app. fold a. by rewrite He.
Qed.

(** Writing a word *)
Definition put (a x : Z) (h : heap W) : heap W := set_world (sb_store a (Exec.le_bytes x) (h_w h)) h.

Lemma put_out a x h y : y < a \/ a + 4 <= y -> hmem (put a x h) y = hmem h y.
Proof. intros Hy. cbn [put h_w set_world]. rewrite sb_store_mem. apply mem_write_out. rewrite Exec.lenZ_le_bytes. lia. Qed.

Lemma put_same a x h : is_u32 x -> word_at (hmem (put a x h)) a = x.
Proof.
  intros Hx. rewrite (word_at_ext (Exec.stack_word a x (hmem h))); [by apply Exec.word_at_stack_word|]. intros z _. apply sb_store_mem.
Qed.

Lemma put_other a x h y : y + 4 <= a \/ a + 4 <= y -> word_at (hmem (put a x h)) y = word_at (hmem h) y.
Proof. intros Hy. apply word_at_ext. intros z Hz. apply put_out. lia. Qed.

Lemma grounded_put a x h : grounded h (put a x h).
Proof. apply grounded_store. Qed.

End World.

#[export] Existing Instance grounded_preorder.

(** Reads a word behind writes of words. *)
Ltac words :=
  repeat match goal with |- context [word_at (sb_mem (h_w (put ?a ?x ?h))) ?y] =>
    first [rewrite (put_other a x h y) by lia | replace y with a by lia; rewrite (put_same a x h) by (done || unfold is_u32; lia)] end.

Section Heap.
Context {W : Type} {SB : Sbrk W} {SPEC : SbrkSpec W}.
Abbreviation hmem h := (sb_mem (h_w h)).

(** What the operations do to the list.  Payloads keep their bytes. *)
Definition payload (lv : list (Z * Z)) (x : Z) : Prop := exists p s, In (p, s) lv /\ p <= x < p + s.
Definition kept (lv : list (Z * Z)) (h h' : heap W) : Prop := forall x, payload lv x -> hmem h' x = hmem h x.

Lemma kept_trans lv h1 h2 h3 : kept lv h1 h2 -> kept lv h2 h3 -> kept lv h1 h3.
Proof. intros H1 H2 x Hx. rewrite H2, H1; done. Qed.

(** A payload lies before a block, in it behind its header, or after it. *)
Lemma payload_out base l1 k l2 x : Forall legal (l1 ++ k :: l2) -> payload (live base (l1 ++ k :: l2)) x ->
  x < end_of base l1 \/ (snd k = false /\ end_of base l1 + 16 <= x < end_of base l1 + extent k) \/ end_of base l1 + extent k <= x.
Proof.
  intros Hl (p & s & Hin & Hx). apply Forall_app in Hl as [Hl1 Hl]. inversion_clear Hl as [|? ? Hk Hl2].
  rewrite live_app, live_cons, !in_app_iff in Hin. destruct Hin as [Hin|[Hin|Hin]].
  - apply (live_range _ _ _ _ Hl1) in Hin. lia.
  - right. left. destruct (snd k); [done|]. destruct Hin as [[= <- <-]|[]]. split; [done|]. unfold extent, HEADER in *. lia.
  - apply (live_range _ _ _ _ Hl2) in Hin. unfold HEADER in *. lia.
Qed.

Lemma set_free_spec base l1 s f l2 g h :
  heap_at h base (l1 ++ (s, f) :: l2) -> g = 0 \/ g = 1 ->
  exists h', set_free (end_of base l1) g h = (Ok tt, h') /\ heap_at h' base (l1 ++ (s, truthy g) :: l2) /\
  grounded h h' /\ kept (live base (l1 ++ (s, f) :: l2)) h h'.
Proof.
  intros H Hg. set (a := end_of base l1). exists (put (a + 4) g h). split; [done|].
  assert (Hu : is_u32 g) by (unfold is_u32; lia). pose proof (grounded_put (a + 4) g h) as Hgr.
  pose proof (ha_legal _ _ _ H) as Hl. pose proof Hl as [_ [Hs _]%Forall_cons_1]%Forall_app. destruct Hs as [Hs _]. cbn [fst] in Hs.
  split_and!; [|done|].
  - apply (heap_replace h _ base l1 [(s, f)] [(s, truthy g)] l2); try done.
    + intros x Hx. rewrite end_of_cons in Hx. cbn [end_of fold_left] in Hx. fold a in Hx. unfold extent, HEADER in Hx. cbn [fst] in Hx.
      apply put_out. lia.
    + intros r. fold a. intros (_ & H1 & H2 & H3 & H4) _ _. split; [done|]. split; [done|]. cbn [fst snd seg] in *.
      unfold b_size, b_free, b_next in *. words. done.
    + cbn [app]. rewrite last_of_app, last_of_cons. cbn [put set_world h_last]. by rewrite (ha_last _ _ _ H), last_of_app, last_of_cons.
  - intros x Hx. apply put_out. apply payload_out in Hx; [|done]. fold a in Hx. unfold extent, HEADER in Hx. cbn [fst] in Hx. lia.
Qed.

Definition move_last (b x : Z) (h : heap W) : heap W := if h_last h =? b then set_last x h else h.

Lemma grounded_move b x h : grounded h (move_last b x h).
Proof. unfold move_last. by case_match. Qed.

Lemma mem_move b x h : hmem (move_last b x h) = hmem h.
Proof. unfold move_last. by case_match. Qed.

Lemma first_move b x h : h_first (move_last b x h) = h_first h.
Proof. unfold move_last. by case_match. Qed.

Lemma absorb_spec base l1 s f s' f' l2 h :
  heap_at h base (l1 ++ (s, f) :: (s', f') :: l2) ->
  exists h', absorb (end_of base l1) h = (Ok tt, h') /\ heap_at h' base (l1 ++ (s + extent (s', f'), f) :: l2) /\
  grounded h h' /\ kept (live base (l1 ++ (s, f) :: (s', f') :: l2)) h h'.
Proof.
  intros H. pose proof (ha_legal _ _ _ H) as Hl. pose proof Hl as [_ [Hs [Hs' Hl2]%Forall_cons_1]%Forall_cons_1]%Forall_app.
  destruct (ha_range _ _ _ _ H) as (R1 & R2 & R3 & R4 & R5 & _). pose proof (lenZ_nonneg l1). pose proof (ha_seg _ _ _ H) as Hseg.
  apply seg_app in Hseg as (r & _ & Hseg). rewrite end_of_app, !end_of_cons in R3, R4. set (a := end_of base l1) in *.
  pose proof (end_of_ge (a + extent (s, f) + extent (s', f')) l2 Hl2) as R6. pose proof (lenZ_nonneg l2).
  destruct Hs as [Hs Hs16], Hs' as [Hs' Hs16']. cbn [fst] in *. unfold extent, HEADER in *. cbn [fst] in *.
  cbn [seg] in Hseg. unfold extent, HEADER in Hseg. cbn [fst snd] in Hseg. destruct Hseg as (-> & _ & Hsz & Hfr & Hnx & _ & Hsz' & Hfr' & Hnx').
  unfold absorb, memory. rewrite bind_gets. cbv zeta. rewrite Hnx, Hsz, Hsz'. unfold HEADER.
  rewrite !wrap32_small by (rewrite ?wrap32_small; lia).
  set (h1 := put a (s + (16 + s')) h). set (x := b_next (hmem h1) (a + (16 + s))). set (h2 := put (a + 8) x h1).
  exists (move_last (a + (16 + s)) a h2). split; [done|].
  assert (Hu : is_u32 (s + (16 + s'))) by (unfold is_u32; lia).
  assert (Hx : x = b_next (hmem h) (a + (16 + s))) by (unfold x, b_next, h1; apply put_other; lia).
  assert (Hg : grounded h (move_last (a + (16 + s)) a h2)).
  { etransitivity; [|apply grounded_move]. etransitivity; [|apply grounded_put]. apply grounded_put. }
  assert (Ho : forall y, y < a \/ a + 16 <= y -> hmem (move_last (a + (16 + s)) a h2) y = hmem h y).
  { intros y Hy. rewrite mem_move. unfold h2, h1. rewrite !put_out by lia. done. }
  assert (Hxu : is_u32 x).
  { rewrite Hx. unfold is_u32. destruct l2 as [|k2 l2]; cbn [seg] in Hnx'; [lia|]. destruct Hnx' as (-> & _). unfold lenZ in R6. cbn [length] in R6. lia. }
  split_and!; [|done|].
  - apply (heap_replace h _ base l1 [(s, f); (s', f')] [(s + (16 + s'), f)] l2); try done.
    + rewrite !end_of_cons. cbn [end_of fold_left]. unfold extent, HEADER. cbn [fst]. lia.
    + intros y Hy. apply Ho. fold a in Hy. rewrite !end_of_cons in Hy. cbn [end_of fold_left] in Hy. unfold extent, HEADER in Hy. cbn [fst] in Hy. lia.
    + intros r. fold a. cbn [seg]. unfold extent, HEADER. cbn [fst snd]. intros (_ & _ & _ & _ & _ & _ & _ & _ & Hr) _ _.
      rewrite mem_move. split; [done|]. split; [split; cbn [fst]; [lia|Z.div_mod_to_equations; lia]|].
      unfold b_size, b_free, b_next in *. unfold h2, h1. words.
      split; [done|]. split; [done|]. by rewrite Hx.
    + by rewrite first_move.
    + unfold move_last. change (h_last h2) with (h_last h). rewrite (ha_last _ _ _ H). cbn [app]. rewrite !last_of_app. fold a. rewrite !last_of_cons.
      unfold extent, HEADER. cbn [fst]. destruct l2 as [|k2 l2].
      * by rewrite Z.eqb_refl.
      * pose proof (last_of_ge (a + (16 + s) + (16 + s')) k2 l2 Hl2). rewrite (proj2 (Z.eqb_neq _ _)) by lia.
        change (h_last h2) with (h_last h). rewrite (ha_last _ _ _ H), last_of_app, (last_of_cons _ (s, f)), (last_of_cons _ (s', f')). fold a.
        unfold extent, HEADER. cbn [fst]. f_equal. lia.
  - intros y Hy. apply Ho. apply payload_out in Hy; [|done]. fold a in Hy. unfold extent, HEADER in Hy. cbn [fst] in Hy. lia.
Qed.

Lemma split_spec base l1 s f l2 need g h :
  heap_at h base (l1 ++ (s, f) :: l2) -> legal (need, f) -> need + 32 <= s -> g = 0 \/ g = 1 ->
  let tail := end_of base l1 + extent (need, f) in
  exists h', split_block (end_of base l1) need g h = (Ok tail, h') /\
  heap_at h' base (l1 ++ (need, f) :: (s - need - 16, truthy g) :: l2) /\ grounded h h' /\
  (forall y, y < end_of base l1 \/ end_of base l1 + 16 <= y < tail \/ tail + 16 <= y -> hmem h' y = hmem h y).
Proof.
  intros H [Hn Hn16] Hfit Hg tail. pose proof (ha_legal _ _ _ H) as Hl. pose proof Hl as [_ [Hs Hl2]%Forall_cons_1]%Forall_app.
  destruct (ha_range _ _ _ _ H) as (R1 & R2 & R3 & R4 & R5 & _). pose proof (lenZ_nonneg l1). pose proof (ha_seg _ _ _ H) as Hseg.
  apply seg_app in Hseg as (r & _ & Hseg). rewrite end_of_app, !end_of_cons in R3, R4. set (a := end_of base l1) in *.
  pose proof (end_of_ge (a + extent (s, f)) l2 Hl2) as R6. pose proof (lenZ_nonneg l2).
  destruct Hs as [Hs Hs16]. unfold extent, HEADER in *. cbn [fst] in *.
  cbn [seg] in Hseg. unfold extent, HEADER in Hseg. cbn [fst snd] in Hseg. destruct Hseg as (-> & _ & Hsz & Hfr & Hnx).
  unfold split_block, memory. rewrite bind_gets. cbv zeta. rewrite Hsz. unfold HEADER.
  rewrite (wrap32_small (a + 16)), (wrap32_small (a + 16 + need)), (wrap32_small (s - need)), (wrap32_small (s - need - 16)) by lia.
  replace (a + 16 + need) with tail by (unfold tail; lia). 
  set (h1 := put tail (s - need - 16) h). set (h2 := put (tail + 4) g h1). set (x := b_next (hmem h2) a).
  set (h3 := put (tail + 8) x h2). set (h4 := put a need h3). set (h5 := put (a + 8) tail h4).
  exists (move_last a tail h5). split; [done|].
  assert (Hx : x = b_next (hmem h) a) by (unfold x, b_next, h2, h1; words; done).
  assert (Hgr : grounded h (move_last a tail h5)).
  { etransitivity; [|apply grounded_move]. do 4 (etransitivity; [|apply grounded_put]). apply grounded_put. }
  assert (Ho : forall y, y < a \/ a + 16 <= y < tail \/ tail + 16 <= y -> hmem (move_last a tail h5) y = hmem h y).
  { intros y Hy. rewrite mem_move. unfold h5, h4, h3, h2, h1. rewrite !put_out by lia. done. }
  assert (Hxu : is_u32 x).
  { rewrite Hx. unfold is_u32. destruct l2 as [|k2 l2]; cbn [seg] in Hnx; [lia|]. destruct Hnx as (-> & _). unfold lenZ in R6. cbn [length] in R6. lia. }
  split_and!; [|done|exact Ho].
  apply (heap_replace h _ base l1 [(s, f)] [(need, f); (s - need - 16, truthy g)] l2); try done.
  - rewrite !end_of_cons. cbn [end_of fold_left]. unfold extent, HEADER. cbn [fst]. lia.
  - intros y Hy. apply Ho. fold a in Hy. rewrite !end_of_cons in Hy. cbn [end_of fold_left] in Hy. unfold extent, HEADER in Hy. cbn [fst] in Hy. lia.
  - intros r. fold a. cbn [seg]. unfold extent, HEADER. cbn [fst snd]. intros (_ & _ & _ & _ & Hr) _ _.
    rewrite mem_move. fold tail. unfold b_size, b_free, b_next in *. unfold h5, h4, h3, h2, h1. words.
    do 2 (split; [done|]). split; [done|]. split; [done|]. split; [done|]. 
    split; [split; cbn [fst]; [lia|Z.div_mod_to_equations; lia]|]. do 2 (split; [done|]). by rewrite Hx.
  - by rewrite first_move.
  - unfold move_last. change (h_last h5) with (h_last h). rewrite (ha_last _ _ _ H). cbn [app]. rewrite !last_of_app. fold a. rewrite !last_of_cons.
    unfold extent, HEADER. cbn [fst]. destruct l2 as [|k2 l2].
    + by rewrite Z.eqb_refl.
    + pose proof (last_of_ge (a + (16 + s)) k2 l2 Hl2). rewrite (proj2 (Z.eqb_neq _ _)) by lia.
      change (h_last h5) with (h_last h). rewrite (ha_last _ _ _ H), last_of_app, (last_of_cons _ (s, f)). fold a. unfold extent, HEADER. cbn [fst]. f_equal. lia.
Qed.

Lemma word_zero (m : mem) p : (forall x, p <= x < p + 4 -> m x = 0) -> word_at m p = 0.
Proof. intros Hz. unfold word_at. by rewrite !Hz by lia. Qed.

(** The new block [b] becomes the last one. *)
Lemma append_last base bl need (h h2 : heap W) :
  let b := end_of base bl in
  Forall legal bl -> seg (hmem h) (h_first h) base bl 0 -> h_last h = last_of base bl ->
  (forall x, x < b -> hmem h2 x = hmem h x) ->
  (forall h3, (forall x, b <= x < b + 16 -> hmem h3 x = hmem h2 x) -> seg (hmem h3) b b [(need, false)] 0) ->
  0 < base -> b < 0x7fff0000 -> h_first h2 = h_first h ->
  exists h', (((if truthy (h_last h) then modify (fun h3 => set_world (sb_store (h_last h + 8) (Exec.le_bytes b) (h_w h3)) h3)
      else modify (set_first b)) ;;; modify (set_last b)) h2) = (Ok tt, h') /\
    seg (hmem h') (h_first h') base (bl ++ [(need, false)]) 0 /\ h_last h' = last_of base (bl ++ [(need, false)]) /\
    grounded h2 h' /\ kept (live base bl) h h'.
Proof.
  intros b Hl Hseg Hlast Hold Hnew Hbase Hb Hf. rewrite last_of_snoc. destruct bl as [|k l1 _] using rev_ind.
  - rewrite Hlast. cbn [last_of]. change (truthy 0) with false. exists (set_last b (set_first b h2)). split; [done|].
    split; [by apply Hnew|]. split; [done|]. split; [done|]. by intros x (p & s & [] & _).
  - rewrite last_of_snoc in Hlast. apply Forall_app in Hl as [Hl1 Hk]. apply Forall_cons_1 in Hk as [[Hk _] _].
    pose proof (end_of_ge base l1 Hl1) as R1. pose proof (lenZ_nonneg l1). apply seg_app in Hseg as (r & Hs1 & Hs2).
    cbn [seg] in Hs2. destruct Hs2 as (-> & HLk & Hsz & Hfr & Hnx). set (c := end_of base l1) in *.
    assert (Hbc : b = c + extent k) by (unfold b; by rewrite end_of_app, end_of_cons). pose proof Hbc as Hbc'. unfold extent, HEADER in Hbc.
    rewrite Hlast, (proj2 (truthy_true c)) by lia. exists (set_last b (put (c + 8) b h2)). split; [done|].
    assert (Ho : forall x, x < c + 8 \/ c + 12 <= x < b -> hmem (put (c + 8) b h2) x = hmem h x).
    { intros x Hx. rewrite put_out by lia. apply Hold. lia. }
    change (hmem (set_last b (put (c + 8) b h2))) with (hmem (put (c + 8) b h2)).
    change (h_first (set_last b (put (c + 8) b h2))) with (h_first h2). rewrite Hf. split_and!; [|done|transitivity (put (c + 8) b h2); [apply grounded_put|done]|].
    + rewrite <- app_assoc. apply seg_app. exists c. fold c. split; [apply (seg_frame (hmem h)); [intros x Hx; apply Ho; fold c in Hx; lia|done]|].
      cbn [app seg]. split; [done|]. split; [done|]. unfold b_size, b_free, b_next in *. words.
      rewrite (word_at_ext (hmem h) (hmem h2) c), (word_at_ext (hmem h) (hmem h2) (c + 4)) by (intros x Hx; apply Hold; lia).
      split; [exact Hsz|]. split; [exact Hfr|]. rewrite <- Hbc'. by apply Hnew.
    + intros x Hx. apply Ho. assert (HF : Forall legal (l1 ++ [k])) by (by apply Forall_app; split; [|constructor]).
      pose proof Hx as (p & s & Hin & Hps). apply (live_range _ _ _ _ HF) in Hin. fold b in Hin.
      apply (payload_out base l1 k []) in Hx; [|done]. fold c in Hx. unfold extent, HEADER in Hx. lia.
Qed.

(** The heap with a new block at the old break; [w1] is the world that [sbrk] left. *)
Lemma append_spec base bl need (h : heap W) w1 :
  heap_at h base bl -> legal (need, false) -> sb_ok w1 -> sb_floor w1 = sb_floor (h_w h) ->
  sb_brk w1 = end_of base bl + 16 + need ->
  (forall x, sb_mem w1 x = if (end_of base bl <=? x) && (x <? end_of base bl + 16 + need) then 0 else hmem h x) ->
  exists h', append_block (end_of base bl) need (set_world w1 h) = (Ok tt, h') /\
  heap_at h' base (bl ++ [(need, false)]) /\ kept (live base bl) h h'.
Proof.
  intros H HL Hok1 Hfl Hbrk Hm. pose proof (ha_legal _ _ _ H) as Hl. pose proof H as [Hok Hapi Hbase Hseg Hlast Hb].
  destruct (ha_range h base bl []) as (R1 & R2 & _ & R4 & R5 & _); [by rewrite app_nil_r|]. rewrite app_nil_r in R4.
  pose proof (sb_bounds _ Hok1) as (_ & B2 & _). rewrite Hbrk in B2. set (b := end_of base bl) in *. pose proof (lenZ_nonneg bl).
  destruct HL as [Hn Hn16]. cbn [fst] in *. assert (Hun : is_u32 need) by (unfold is_u32; lia).
  assert (Hold : forall x, x < b -> sb_mem w1 x = hmem h x) by (intros x Hx; rewrite Hm, (proj2 (Z.leb_gt b x)) by lia; done).
  assert (Hzero : word_at (sb_mem w1) (b + 4) = 0).
  { apply word_zero. intros x Hx. rewrite Hm, (proj2 (Z.leb_le b x)), (proj2 (Z.ltb_lt x _)) by lia. done. }
  unfold append_block. unfold set_size, set_next, store_word, store. rewrite !bind_modify, bind_gets.
  change (h_last (set_world _ _)) with (h_last h).
  set (h0 := set_world w1 h). change (set_world _ h0) with (put b need h0). set (h1 := put b need h0).
  change (set_world _ h1) with (put (b + 8) 0 h1). set (h2 := put (b + 8) 0 h1).
  assert (Hnew : forall h3, (forall x, b <= x < b + 16 -> hmem h3 x = hmem h2 x) -> seg (hmem h3) b b [(need, false)] 0).
  { intros h3 H3. cbn [seg]. unfold b_size, b_free, b_next. rewrite !(word_at_ext (hmem h2) (hmem h3)) by (intros x Hx; apply H3; lia).
    unfold h2, h1. words. change (hmem h0) with (sb_mem w1). rewrite Hzero. done. }
  assert (Hold2 : forall x, x < b -> hmem h2 x = hmem h x).
  { intros x Hx. unfold h2, h1. rewrite !put_out by lia. by apply Hold. }
  assert (Hg : grounded h0 h2) by (etransitivity; [|apply grounded_put]; apply grounded_put).
  assert (Hend : end_of base (bl ++ [(need, false)]) = b + 16 + need) by (rewrite end_of_app, end_of_cons; fold b; cbn [end_of fold_left]; unfold extent, HEADER; cbn [fst]; lia).
  destruct (append_last base bl need h h2 Hl Hseg Hlast Hold2 Hnew) as (h' & E & Hs' & Hl' & Hg' & Hk'); [done|fold b; lia|done|].
  exists h'. split; [exact E|]. assert (Hg2 : grounded h0 h') by (by etransitivity). destruct Hg2 as [G1 G2 G3 G4]. split.
  - constructor; [by apply G1|by rewrite G2|rewrite G4 by done; change (h_w h0) with w1; by rewrite Hfl|done|done|].
    rewrite G3 by done. change (h_w h0) with w1. by rewrite Hbrk, Hend.
  - exact Hk'.
Qed.
End Heap.
