(* ===== verification/HeapRefine.v ===== *)
(** * What malloc, free, calloc, realloc and trim promise *)
From S2P Require Import Prelude Codec Heap HeapSpec.
From S2P Require Exec.

(** Rounding up to 16 bytes *)
Lemma land_clear4 x : 0 <= x < 4294967296 -> Z.land x (not32 15) = x - x mod 16.
Proof.
  intros Hx. change (not32 15) with (Z.shiftl (Z.ones 28) 4).
  assert (E : Z.land x (Z.shiftl (Z.ones 28) 4) = Z.shiftl (Z.shiftr x 4) 4).
  { apply Z.bits_inj'. intros i Hi. rewrite Z.land_spec. destruct (Z.lt_ge_cases i 4) as [Hlow|Hhigh].
    - by rewrite !Z.shiftl_spec_low, andb_false_r by lia.
    - rewrite !Z.shiftl_spec_high, Z.shiftr_spec by lia. replace (i - 4 + 4) with i by lia.
      destruct (Z.lt_ge_cases i 32).
      + by rewrite Z.ones_spec_low, andb_true_r by lia.
      + rewrite Z.ones_spec_high, andb_false_r by lia. symmetry. destruct (Z.eq_dec x 0) as [->|Hne]; [apply Z.bits_0|].
        apply Z.bits_above_log2; [lia|]. apply (Z.lt_le_trans _ 32); [|lia]. apply Z.log2_lt_pow2; lia. }
  rewrite E, Z.shiftl_mul_pow2, Z.shiftr_div_pow2 by lia. change (2 ^ 4) with 16. Z.div_mod_to_equations. lia.
Qed.

Lemma rounded_spec size f : 0 < size -> too_large size = false -> legal (rounded size, f) /\ size <= rounded size < size + 16.
Proof.
  unfold too_large, HEADER. intros H0 H1%Z.ltb_ge. unfold rounded. rewrite wrap32_small, land_clear4 by lia.
  split; [split; cbn [fst]|]; Z.div_mod_to_equations; lia.
Qed.

(** ** Coalesced lists *)
Lemma coalesced_app l1 k l2 : coalesced (l1 ++ k :: l2) <-> coalesced (l1 ++ [k]) /\ coalesced (k :: l2).
Proof.
  induction l1 as [|n l1 IH]; cbn [app]; [split; [by split|by intros [_ H]]|].
  destruct l1 as [|n' l1]; cbn [app] in *.
  - change (coalesced (n :: k :: l2)) with (snd n && snd k = false /\ coalesced (k :: l2)). cbn [coalesced]. tauto.
  - change (coalesced (n :: n' :: l1 ++ k :: l2)) with (snd n && snd n' = false /\ coalesced (n' :: l1 ++ k :: l2)).
    change (coalesced (n :: n' :: l1 ++ [k])) with (snd n && snd n' = false /\ coalesced (n' :: l1 ++ [k])). rewrite IH. tauto.
Qed.

Lemma coalesced_snoc l1 k k' : coalesced (l1 ++ [k]) -> (snd k' = true -> snd k = true) -> coalesced (l1 ++ [k']).
Proof.
  intros H Hk. induction l1 as [|n l1 IH]; [done|]. destruct l1 as [|n' l1]; cbn [app] in *.
  - destruct H as [H _]. split; [|done]. destruct (snd n), (snd k'), (snd k); try done. by discriminate Hk.
  - destruct H as [H1 H2]. split; [done|]. by apply IH.
Qed.

(** The first block of [l2] stays, or becomes used. *)
Lemma coalesced_replace l1 k k' l2 : coalesced (l1 ++ k :: l2) -> (snd k' = true -> snd k = true) -> coalesced (l1 ++ k' :: l2).
Proof.
  rewrite (coalesced_app l1 k), (coalesced_app l1 k'). intros [H1 H2] Hk. split; [by apply (coalesced_snoc l1 k)|]. destruct l2 as [|n l2]; [done|].
  destruct H2 as [H2 H3]. split; [|done]. destruct (snd k'), (snd k); try done. by discriminate Hk.
Qed.

Lemma coalesced_split l1 s n t l2 : coalesced (l1 ++ (s, true) :: l2) -> coalesced (l1 ++ (n, false) :: (t, true) :: l2).
Proof.
  rewrite (coalesced_app l1 (s, true)), (coalesced_app l1 (n, false)). intros [H1 H2].
  split; [by apply (coalesced_snoc l1 (s, true))|]. by split.
Qed.

Lemma coalesced_grow l n : coalesced l -> coalesced (l ++ [(n, false)]).
Proof.
  destruct l as [|k l _] using rev_ind; [done|]. intros H. rewrite <- app_assoc. apply coalesced_app. split; [done|].
  split; [by rewrite andb_false_r|done].
Qed.

(** Addresses determine blocks. *)
Lemma split_unique a l1 k l2 l1' k' l2' :
  Forall legal (l1 ++ k :: l2) -> l1 ++ k :: l2 = l1' ++ k' :: l2' -> end_of a l1 = end_of a l1' -> l1 = l1' /\ k = k' /\ l2 = l2'.
Proof.
  revert a l1'. induction l1 as [|n l1 IH]; intros a [|n' l1'] HF E He; cbn [app] in *.
  - by injection E as -> ->.
  - exfalso. injection E as -> E. apply Forall_cons_1 in HF as [[Hn _] HF]. rewrite E in HF. apply Forall_app in HF as [HF _].
    rewrite end_of_cons in He. pose proof (end_of_ge (a + extent n') l1' HF). pose proof (lenZ_nonneg l1'). unfold extent, HEADER in *. cbn [end_of fold_left] in He. lia.
  - exfalso. apply Forall_cons_1 in HF as [[Hn _] HF]. apply Forall_app in HF as [HF _]. rewrite end_of_cons in He.
    pose proof (end_of_ge (a + extent n) l1 HF). pose proof (lenZ_nonneg l1). unfold extent, HEADER in *. cbn [end_of fold_left] in He. lia.
  - injection E as <- E. apply Forall_cons_1 in HF as [_ HF]. rewrite !end_of_cons in He.
    destruct (IH (a + extent n) l1' HF E He) as (-> & -> & ->). done.
Qed.

Lemma live_in a bl p n : In (p, n) (live a bl) -> exists l1 l2, bl = l1 ++ (n, false) :: l2 /\ p = end_of a l1 + 16.
Proof.
  revert a. induction bl as [|[s f] bl IH]; intros a; [done|]. rewrite live_cons, in_app_iff. cbn [snd fst]. intros [Hin|Hin].
  - destruct f; [done|]. destruct Hin as [[= <- <-]|[]]. by exists [], bl.
  - destruct (IH _ Hin) as (l1 & l2 & -> & ->). exists ((s, f) :: l1), l2. split; [done|]. by rewrite end_of_cons.
Qed.

Section Heap.
Context {W : Type} {SB : Sbrk W} {SPEC : SbrkSpec W}.
Abbreviation hmem h := (sb_mem (h_w h)).
Abbreviation heap_at := (heap_at (W := W)).

(** ** Coalescing *)
Lemma coalesced_spec base l2 : forall k l1 fuel (h : heap W),
  heap_at h base (l1 ++ k :: l2) -> (length l2 < fuel)%nat ->
  exists h', loop fuel coalesce_turn (fun _ => fail STUCK) (end_of base l1) h = (Ok tt, h') /\
  heap_at h' base (l1 ++ merge_from k l2) /\ grounded h h' /\ kept (live base (l1 ++ k :: l2)) h h'.
Proof.
  induction l2 as [|n l2 IH]; intros k l1 [|fuel] h H Hf; cbn [length] in Hf; try lia.
  - destruct (ha_range _ _ _ _ H) as (R1 & R2 & _). pose proof (lenZ_nonneg l1).
    pose proof (ha_seg _ _ _ H) as Hs. apply seg_app in Hs as (r & _ & Hs). cbn [seg] in Hs. destruct Hs as (-> & _ & _ & _ & Hn).
    exists h. cbn [loop merge_from]. unfold coalesce_turn, memory. rewrite bind_assoc, bind_gets, Hn, Z.eqb_refl, orb_true_r.
    split; [done|]. split; [done|]. split; [reflexivity|by intros x _].
  - pose proof (ha_legal _ _ _ H) as Hl. apply Forall_app in Hl as [Hl1 Hl]. apply Forall_cons_1 in Hl as [Hk Hl].
    destruct (ha_range _ _ _ _ H) as (R1 & R2 & R3 & R4 & R5 & _). pose proof (lenZ_nonneg l1).
    rewrite end_of_app, !end_of_cons in R3, R4. pose proof (end_of_ge (end_of base l1 + extent k) (n :: l2) Hl) as R6.
    rewrite end_of_cons in R6. pose proof (lenZ_nonneg (n :: l2)).
    pose proof (ha_seg _ _ _ H) as Hs. apply seg_app in Hs as (r & _ & Hs). cbn [seg] in Hs.
    destruct Hs as (-> & _ & Hsz & Hfr & Hnx & _ & _ & Hfr' & _). set (a := end_of base l1) in *. destruct Hk as [Hk _].
    assert (Hek : extent k = 16 + fst k) by done.
    cbn [loop]. unfold coalesce_turn at 1, memory. rewrite bind_assoc, bind_gets, Hnx.
    rewrite (proj2 (Z.eqb_neq a 0)), (proj2 (Z.eqb_neq (a + extent k) 0)) by lia. cbn [orb]. cbv zeta. rewrite Hfr, Hfr'.
    unfold adjoins. rewrite Hsz. unfold HEADER. rewrite (wrap32_small (a + 16)), wrap32_small by (rewrite ?wrap32_small; lia).
    rewrite (proj2 (Z.eqb_eq _ _)) by lia. rewrite andb_true_r. cbn [merge_from]. destruct (snd k && snd n) eqn:E.
    + destruct k as [s f], n as [s' f']. cbn [fst snd] in *. destruct (absorb_spec base l1 s f s' f' l2 h H) as (h1 & E1 & HA1 & G1 & K1).
      rewrite bind_assoc. fold a in E1. rewrite (bind_ok _ _ _ _ _ E1). unfold bind at 1. cbn [ret].
      apply andb_true_iff in E as [-> ->]. destruct (IH _ _ fuel h1 HA1) as (h2 & E2 & HA2 & G2 & K2); [lia|].
      exists h2. split; [exact E2|]. split; [exact HA2|]. split; [by transitivity h1|]. eapply kept_trans; [exact K1|].
      replace (live base (l1 ++ (s, true) :: (s', true) :: l2)) with (live base (l1 ++ (s + extent (s', true), true) :: l2)); [done|].
      rewrite !live_app, !live_cons. cbn [snd app]. do 2 f_equal. unfold extent. cbn [fst]. lia.
    + unfold bind at 1. cbn [ret]. destruct (IH n (l1 ++ [k]) fuel h) as (h2 & E2 & H2 & G2 & K2); [by rewrite <- app_assoc|lia|].
      rewrite end_of_app, end_of_cons in E2. exists h2. split; [exact E2|]. rewrite <- !app_assoc in *. done.
Qed.

(** ** The blocks a search finds *)
Lemma block_at h base l1 k l2 : heap_at h base (l1 ++ k :: l2) ->
  b_size (hmem h) (end_of base l1) = fst k /\ b_free (hmem h) (end_of base l1) = snd k /\
  seg (hmem h) (b_next (hmem h) (end_of base l1)) (end_of base l1 + extent k) l2 0.
Proof.
  intros H. pose proof (ha_seg _ _ _ H) as Hs. apply seg_app in Hs as (r & _ & Hs). cbn [seg] in Hs.
  by destruct Hs as (-> & _ & H1 & H2 & H3).
Qed.

Lemma search_spec test h base bl : heap_at h base bl ->
  (search test h = (Ok 0, h) /\ forall l1 k l2, bl = l1 ++ k :: l2 -> test (hmem h) (end_of base l1) = false) \/
  exists l1 k l2, bl = l1 ++ k :: l2 /\ search test h = (Ok (end_of base l1), h) /\ test (hmem h) (end_of base l1) = true /\
    0 < end_of base l1.
Proof.
  intros H. destruct (ha_range h base bl []) as (R1 & _ & _ & _ & _ & R6); [by rewrite app_nil_r|]. rewrite app_nil_r in R6.
  unfold search, memory. rewrite !bind_gets. destruct (find_block_spec (hmem h) (test (hmem h)) BLOCKS (h_first h) base bl R1 (ha_seg _ _ _ H))
    as [[-> Hn]|(l1 & k & l2 & -> & -> & Ht & _)]; [unfold lenZ, BLOCKS in *; lia|by left|right].
  exists l1, k, l2. split; [done|]. split; [done|]. split; [done|]. destruct (ha_range _ _ _ _ H) as (_ & R2 & _).
  pose proof (lenZ_nonneg l1). lia.
Qed.

(** A search for a payload finds exactly the block in front of it. *)
Lemma search_payload h base bl p : heap_at h base bl -> is_u32 p ->
  let found := search (fun _ b => b +u HEADER =? p) h in
  (found = (Ok 0, h) /\ forall l1 k l2, bl = l1 ++ k :: l2 -> p <> end_of base l1 + 16) \/
  exists l1 k l2, bl = l1 ++ k :: l2 /\ found = (Ok (end_of base l1), h) /\ p = end_of base l1 + 16 /\ 0 < end_of base l1.
Proof.
  intros H Hp found. assert (Hw : forall l1 k l2, bl = l1 ++ k :: l2 -> end_of base l1 +u HEADER = end_of base l1 + 16).
  { intros l1 k l2 ->. destruct (ha_range _ _ _ _ H) as (R1 & R2 & R3 & R4 & R5 & _). pose proof (lenZ_nonneg l1). pose proof (lenZ_nonneg (k :: l2)).
    unfold HEADER. apply wrap32_small. lia. }
  destruct (search_spec (fun _ b => b +u HEADER =? p) h base bl H) as [[E Hn]|(l1 & k & l2 & -> & E & Ht & H0)]; [left|right].
  - split; [exact E|]. intros l1 k l2 Hbl ->. specialize (Hn l1 k l2 Hbl). rewrite (Hw _ _ _ Hbl) in Hn. lia.
  - exists l1, k, l2. split; [done|]. split; [exact E|]. rewrite (Hw l1 k l2 eq_refl) in Ht. split; [lia|done].
Qed.

(** Taking the free block behind [l1]. *)
Lemma live_free base l1 s l2 : live base (l1 ++ (s, true) :: l2) = live base l1 ++ live (end_of base l1 + 16 + s) l2.
Proof. rewrite live_app, live_cons. cbn [snd app]. do 2 f_equal. unfold extent, HEADER. cbn [fst]. lia. Qed.

Lemma live_used base l1 s l2 : live base (l1 ++ (s, false) :: l2) = live base l1 ++ (end_of base l1 + 16, s) :: live (end_of base l1 + 16 + s) l2.
Proof. rewrite live_app, live_cons. cbn [snd fst app]. do 3 f_equal. unfold extent, HEADER. cbn [fst]. lia. Qed.

Lemma take_block h base l1 s l2 need :
  heap_at h base (l1 ++ (s, true) :: l2) -> coalesced (l1 ++ (s, true) :: l2) -> legal (need, true) -> need <= s ->
  let b := end_of base l1 in
  exists h' n bl', (b <- (m <- memory ;; (if splits m b need then split_block b need 1 ;;; ret b else ret b)) ;;
    if b =? 0 then ret 0 else set_free b 0 ;;; ret (b +u HEADER)) h = (Ok (b + 16), h') /\
  heap_at h' base bl' /\ coalesced bl' /\ need <= n /\ live base bl' ≡ₚ (b + 16, n) :: live base (l1 ++ (s, true) :: l2) /\
  kept (live base (l1 ++ (s, true) :: l2)) h h'.
Proof.
  intros H Hc HL Hfit b. destruct (block_at _ _ _ _ _ H) as (Hsz & _ & _). fold b in Hsz. cbn [fst] in Hsz.
  pose proof (ha_legal _ _ _ H) as Hl. pose proof Hl as [_ [[Hs _] _]%Forall_cons_1]%Forall_app. cbn [fst] in Hs.
  destruct (ha_range _ _ _ _ H) as (R1 & R2 & R3 & R4 & R5 & _). pose proof (lenZ_nonneg l1).
  rewrite end_of_app, end_of_cons in R3, R4. fold b in R2, R3, R4. destruct HL as [Hn Hn16]. cbn [fst] in *.
  assert (Hs2 : s < 0x7fff0000).
  { pose proof Hl as [_ [_ Hl2]%Forall_cons_1]%Forall_app. pose proof (end_of_ge (b + extent (s, true)) l2 Hl2). pose proof (lenZ_nonneg l2).
    unfold extent, HEADER in *. cbn [fst] in *. lia. }
  pose proof (lenZ_nonneg ((s, true) :: l2)).
  assert (Hend : forall c h1 h2, set_free b 0 h1 = (Ok tt, h2) -> c h = (Ok b, h1) ->
    (b <- c ;; if b =? 0 then ret 0 else set_free b 0 ;;; ret (b +u HEADER)) h = (Ok (b + 16), h2)).
  { intros c h1 h2 E1 E2. rewrite (bind_ok _ _ _ _ _ E2), (proj2 (Z.eqb_neq b 0)), (bind_ok _ _ _ _ _ E1) by lia.
    unfold HEADER. by rewrite wrap32_small by lia. }
  assert (Hsp : splits (hmem h) b need = (16 + 16 <=? s - need)) by (unfold splits; rewrite Hsz, wrap32_small by lia; done).
  destruct (Z.leb_spec (16 + 16) (s - need)).
  - destruct (split_spec base l1 s true l2 need 1 h H) as (h1 & E1 & HA1 & _ & K1); [done|lia|by right|]. fold b in E1, K1.
    destruct (set_free_spec base l1 need true _ 0 h1 HA1) as (h2 & E2 & HA2 & _ & K2); [by left|]. fold b in E2.
    exists h2, need. eexists. split; [apply (Hend _ h1 h2 E2); unfold memory; rewrite bind_gets, Hsp; by rewrite (bind_ok _ _ _ _ _ E1)|]. split; [exact HA2|]. change (truthy 0) with false. change (truthy 1) with true.
    assert (Hlv : live base (l1 ++ (need, true) :: (s - need - 16, true) :: l2) = live base (l1 ++ (s, true) :: l2)).
    { rewrite !live_free. f_equal. rewrite live_cons. cbn [snd app]. f_equal. unfold extent, HEADER. cbn [fst]. lia. }
    change (truthy 1) with true in K2. rewrite Hlv in K2. split_and!; [|lia| |].
    + by apply (coalesced_split l1 s).
    + rewrite <- Hlv, live_used, live_free. by rewrite <- Permutation_middle.
    + eapply kept_trans; [|exact K2]. intros x Hx. apply K1. apply payload_out in Hx; [|done]. fold b in Hx.
      unfold extent, HEADER in *. cbn [fst snd] in *. lia.
  - destruct (set_free_spec base l1 s true l2 0 h H) as (h2 & E2 & HA2 & _ & K2); [by left|]. fold b in E2.
    exists h2, s. eexists. split; [apply (Hend _ h h2 E2); unfold memory; by rewrite bind_gets, Hsp|]. split; [exact HA2|]. change (truthy 0) with false. split_and!; [|lia| |done].
    + by apply (coalesced_replace l1 (s, true)).
    + rewrite live_used, live_free. by rewrite <- Permutation_middle.
Qed.

(** ** malloc *)
Definition no_room (base : Z) (bl : list block) (size : Z) : Prop :=
  size = 0 \/ too_large size = true \/
  (Forall (fun k => snd k = true -> fst k < rounded size) bl /\ sb_top < end_of base bl + 16 + rounded size).

(** All of memory is as before. *)
Definition same_memory (h h' : heap W) : Prop := forall x, hmem h' x = hmem h x.

Lemma grow_heap h base bl need : heap_at h base bl -> legal (need, true) -> need < 0x80000000 - 16 ->
  let grow := (b <- sbrk (to_int (HEADER +u need)) ;; if b =? NO_SPACE then ret 0 else append_block b need ;;; ret b) in
  (exists h', grow h = (Ok 0, h') /\ heap_at h' base bl /\ same_memory h h' /\ sb_top < end_of base bl + 16 + need) \/
  (exists h', grow h = (Ok (end_of base bl), h') /\ heap_at h' base (bl ++ [(need, false)]) /\ kept (live base bl) h h').
Proof.
  intros H [Hn Hn16] Hlim grow. cbn [fst] in *. pose proof H as [Hok Hapi Hbase Hseg Hlast Hbrk].
  destruct (ha_range h base bl []) as (R1 & R2 & _ & R4 & R5 & _); [by rewrite app_nil_r|]. rewrite app_nil_r in R4. pose proof (lenZ_nonneg bl).
  destruct (sb_bounds _ Hok) as (B1 & B2 & B3). destruct (sb_sbrk_exact (16 + need) (h_w h) Hok) as (w1 & E & Hok1 & Hfl & Hb1 & Hm); [lia|].
  rewrite Hbrk in *. rewrite (proj2 (Z.leb_le (sb_floor (h_w h)) _)) in E, Hb1, Hm by lia. cbn [andb] in E, Hb1, Hm.
  assert (Eg : sbrk (to_int (HEADER +u need)) h = (Ok (if end_of base bl + (16 + need) <=? sb_top then end_of base bl else NO_SPACE), set_world w1 h)).
  { unfold sbrk, HEADER. rewrite wrap32_small, to_int_small by lia. by rewrite E. }
  unfold grow. rewrite (bind_ok _ _ _ _ _ Eg). destruct (Z.leb_spec (end_of base bl + (16 + need)) sb_top) as [Hfit|Hno].
  - right. rewrite (proj2 (Z.eqb_neq _ NO_SPACE)) by (unfold NO_SPACE; lia).
    destruct (append_spec base bl need h w1 H) as (h' & E2 & H2 & Hk); try done; [lia| |].
    + intros x. rewrite Hm. cbn [andb]. by rewrite Z.add_assoc.
    + exists h'. by rewrite (bind_ok _ _ _ _ _ E2).
  - left. exists (set_world w1 h). rewrite Z.eqb_refl. split; [done|]. split; [|split; [exact Hm|lia]].
    assert (Hsame : forall x, sb_mem w1 x = hmem h x) by exact Hm.
    constructor; cbn [h_w h_api h_first h_last set_world]; try done; [by rewrite Hfl|]. apply (seg_frame (hmem h)); [|done]. intros x _. apply Hsame.
Qed.

Lemma malloc_exact h base bl size :
  heap_at h base bl -> coalesced bl -> is_u32 size ->
  exists r h', cp32_malloc size h = (Ok r, h') /\
  (r = 0 /\ no_room base bl size /\ heap_at h' base bl /\ same_memory h h' \/
   r <> 0 /\ exists n bl', heap_at h' base bl' /\ coalesced bl' /\ size <= n /\
     live base bl' ≡ₚ (r, n) :: live base bl /\ kept (live base bl) h h').
Proof.
  intros H Hc Hu. unfold cp32_malloc. rewrite bind_gets, (ha_api _ _ _ H). cbn [negb orb].
  destruct (Z.eqb_spec size 0) as [->|Hne]; cbn [orb]; [exists 0, h; split; [done|]; left; split; [done|]; split; [by left|done]|].
  destruct (too_large size) eqn:El; [exists 0, h; split; [done|]; left; split; [done|]; split; [right; by left|done]|].
  cbv zeta. assert (Hpos : 0 < size) by (unfold is_u32 in Hu; lia). destruct (rounded_spec size true Hpos El) as [HL [Hr1 Hr2]].
  set (need := rounded size) in *. assert (Hneed : need < 0x80000000 - 16) by (apply Z.ltb_ge in El; unfold HEADER in El; lia).
  destruct (search_spec (fun m b => b_free m b && (need <=? b_size m b)) h base bl H) as [[E Hn]|(l1 & k & l2 & -> & E & Ht & H0)];
    rewrite (bind_ok _ _ _ _ _ E).
  - change (0 =? 0) with true. cbv iota. 
    destruct (grow_heap h base bl need H HL) as [(h' & E2 & H2 & Hm & Htop)|(h' & E2 & H2 & Hk)]; [lia|..].
    + rewrite (bind_ok _ _ _ _ _ E2). exists 0, h'. split; [done|]. left. split; [done|]. split; [|done].
      right. right. split; [|done]. apply Forall_forall. intros k Hk Hfree. apply in_split in Hk as (l1 & l2 & ->).
      specialize (Hn l1 k l2 eq_refl). cbv beta in Hn. destruct (block_at _ _ _ _ _ H) as (B1 & B2 & _). rewrite B1, B2, Hfree in Hn. cbn [andb] in Hn. fold need. lia.
    + rewrite (bind_ok _ _ _ _ _ E2). destruct (ha_range _ _ _ _ H2) as (R1 & R2 & R3 & R4 & R5 & _). pose proof (lenZ_nonneg bl).
      change (lenZ [(need, false)]) with 1 in R3. rewrite (proj2 (Z.eqb_neq _ 0)) by lia.
      destruct (set_free_spec base bl need false [] 0 h' H2) as (h2 & E3 & H3 & _ & K3); [by left|]. rewrite (bind_ok _ _ _ _ _ E3).
      unfold HEADER. rewrite wrap32_small by lia. exists (end_of base bl + 16), h2. split; [done|]. right. split; [lia|].
      exists need, (bl ++ [(need, false)]). split; [exact H3|]. split; [by apply coalesced_grow|]. split; [lia|].
      rewrite live_used, Permutation_app_comm. split; [done|]. intros x Hx. rewrite K3; [by apply Hk|].
      destruct Hx as (p & s & Hin & Hx). exists p, s. split; [|done]. rewrite live_used. apply in_app_iff. by left.
  - rewrite (proj2 (Z.eqb_neq _ 0)) by lia. destruct (block_at _ _ _ _ _ H) as (B1 & B2 & _). rewrite B1, B2 in Ht.
    apply andb_true_iff in Ht as [Hf Hfit]. destruct k as [s f]. cbn [fst snd] in *. subst f.
    destruct (take_block h base l1 s l2 need H Hc HL) as (h' & n & bl' & E2 & H2 & Hc2 & Hn & Hp & Hk); [lia|].
    exists (end_of base l1 + 16), h'. split; [exact E2|]. right. split; [lia|]. exists n, bl'. split_and!; try done. lia.
Qed.

(** ** free *)

(** The payload [p] of a block: its size, and [p] names no other. *)
Lemma live_at base l1 k l2 n : Forall legal (l1 ++ k :: l2) ->
  In (end_of base l1 + 16, n) (live base (l1 ++ k :: l2)) <-> k = (n, false).
Proof.
  intros HF. split.
  - intros (l1' & l2' & E & He)%live_in. destruct (split_unique base l1 k l2 l1' (n, false) l2' HF E) as (_ & -> & _); [lia|done].
  - intros ->. rewrite live_used. apply in_app_iff. right. by left.
Qed.

Lemma free_block h base l1 s l2 : heap_at h base (l1 ++ (s, false) :: l2) ->
  exists h' bl', (set_free (end_of base l1) 1 ;;; first <- gets h_first ;; loop BLOCKS coalesce_turn (fun _ => fail STUCK) first) h = (Ok tt, h') /\
  heap_at h' base bl' /\ coalesced bl' /\ live base (l1 ++ (s, false) :: l2) ≡ₚ (end_of base l1 + 16, s) :: live base bl' /\
  kept (live base bl') h h' /\ grounded h h'.
Proof.
  intros H. destruct (set_free_spec base l1 s false l2 1 h H) as (h1 & E1 & H1 & G1 & K1); [by right|]. rewrite (bind_ok _ _ _ _ _ E1), bind_gets.
  change (truthy 1) with true in H1. set (bl1 := l1 ++ (s, true) :: l2) in *. pose proof (ha_legal _ _ _ H1) as Hl.
  destruct (ha_range h1 base bl1 []) as (_ & _ & _ & _ & _ & R6); [by rewrite app_nil_r|]. rewrite app_nil_r in R6.
  assert (Hlive : live base (l1 ++ (s, false) :: l2) ≡ₚ (end_of base l1 + 16, s) :: live base bl1).
  { unfold bl1. rewrite live_used, live_free. by rewrite <- Permutation_middle. }
  assert (Hne : bl1 <> []) by (unfold bl1; by destruct l1). clearbody bl1. destruct bl1 as [|k bl1]; [done|]. pose proof (seg_first _ _ _ _ _ _ (ha_seg _ _ _ H1)) as ->.
  destruct (coalesced_spec base bl1 k [] BLOCKS h1) as (h2 & E2 & H2 & G2 & K2); [done|unfold lenZ, BLOCKS in *; cbn [length] in R6; lia|].
  destruct (merge_from_spec k bl1 base Hl) as (_ & M2 & _ & M4 & _). cbn [app] in *.
  exists h2, (merge_from k bl1). rewrite M2. split; [exact E2|]. split; [exact H2|]. split; [exact M4|]. split; [exact Hlive|].
  split; [|by transitivity h1]. intros x Hx. rewrite K2 by done. apply K1. destruct Hx as (p & n & Hin & Hx). exists p, n. split; [|done].
  eapply Permutation_in; [symmetry; exact Hlive|]. by right.
Qed.

Lemma free_exact h base bl p :
  heap_at h base bl -> coalesced bl -> is_u32 p ->
  exists h', cp32_free p h = (Ok tt, h') /\
  ((exists n bl', In (p, n) (live base bl) /\ heap_at h' base bl' /\ coalesced bl' /\ live base bl ≡ₚ (p, n) :: live base bl' /\
     kept (live base bl') h h') \/
   h' = h /\ forall n, ~ In (p, n) (live base bl)).
Proof.
  intros H Hc Hp. pose proof (ha_legal _ _ _ H) as Hl. unfold cp32_free. destruct (Z.eqb_spec p 0) as [->|Hne].
  { exists h. split; [done|]. right. split; [done|]. intros n Hin. apply (live_range _ _ _ _ Hl) in Hin.
    destruct (ha_range h base bl []) as (R1 & _); [by rewrite app_nil_r|]. unfold HEADER in *. lia. }
  unfold memory. destruct (search_payload h base bl p H Hp) as [[E Hn]|(l1 & k & l2 & -> & E & -> & H0)]; rewrite (bind_ok _ _ _ _ _ E), bind_gets.
  - exists h. split; [done|]. right. split; [done|]. intros n (l1 & l2 & -> & ->)%live_in. by apply (Hn l1 (n, false) l2).
  - rewrite (proj2 (Z.eqb_neq _ 0)) by lia. destruct (block_at _ _ _ _ _ H) as (_ & Hf & _). rewrite Hf. cbn [orb].
    destruct k as [s [|]]; cbn [snd].
    + exists h. split; [done|]. right. split; [done|]. by intros n [=]%live_at.
    + destruct (free_block h base l1 s l2 H) as (h' & bl' & E2 & H2 & Hc2 & Hp2 & Hk & _). exists h'. split; [exact E2|]. left.
      exists s, bl'. split; [by apply live_at|done].
Qed.

(** ** Writing to a payload *)
Lemma live_others base l1 n l2 q k : Forall legal (l1 ++ (n, false) :: l2) ->
  In (q, k) (live base l1 ++ live (end_of base l1 + 16 + n) l2) -> q + k <= end_of base l1 \/ end_of base l1 + 16 + n <= q.
Proof.
  intros [Hl1 [_ Hl2]%Forall_cons_1]%Forall_app. rewrite in_app_iff. intros [Hin|Hin].
  - apply (live_range _ _ _ _ Hl1) in Hin. lia.
  - apply (live_range _ _ _ _ Hl2) in Hin. unfold HEADER in *. lia.
Qed.

Lemma payload_perm l l' x : l ≡ₚ l' -> payload l' x -> payload l x.
Proof. intros Hp (p & s & Hin & Hx). exists p, s. split; [|done]. eapply Permutation_in; [symmetry; exact Hp|done]. Qed.

#[local] Instance payload_proper : Proper (Permutation ==> eq ==> iff) payload.
Proof. intros l l' Hp x _ <-. split; apply payload_perm; [by symmetry|done]. Qed.

Lemma live_split base bl p n : In (p, n) (live base bl) -> exists L, live base bl ≡ₚ (p, n) :: L.
Proof. intros (l1 & l2 & E)%in_split. exists (l1 ++ l2). rewrite E. symmetry. apply Permutation_middle. Qed.

Lemma live_inj base bl p n n' : Forall legal bl -> In (p, n) (live base bl) -> In (p, n') (live base bl) -> n = n'.
Proof.
  intros Hl (l1 & l2 & -> & ->)%live_in Hin. apply live_at in Hin; [|done]. congruence.
Qed.

Lemma payload_cons p n L x : payload ((p, n) :: L) x <-> p <= x < p + n \/ payload L x.
Proof.
  split.
  - intros (q & k & [[= <- <-]|Hin] & Hx); [by left|right]. by exists q, k.
  - intros [Hx|(q & k & Hin & Hx)]; [exists p, n|exists q, k]; (split; [|done]); [by left|by right].
Qed.

(** A payload lies apart from the other ones. *)
Lemma apart base bl r n L x : Forall legal bl -> live base bl ≡ₚ (r, n) :: L -> payload L x -> x < r \/ r + n <= x.
Proof.
  intros Hl Hp (q & k & Hq & Hx). assert (Hin : In (r, n) (live base bl)) by (eapply Permutation_in; [symmetry; exact Hp|by left]).
  apply live_in in Hin as (l1 & l2 & -> & ->). rewrite live_used, <- Permutation_middle in Hp. apply Permutation_cons_inv in Hp.
  eapply Permutation_in in Hq; [|symmetry; exact Hp]. apply live_others in Hq; [|done]. lia.
Qed.

Lemma poke_exact h base bl p n a bs :
  heap_at h base bl -> In (p, n) (live base bl) -> p <= a -> a + lenZ bs <= p + n ->
  let h' := set_world (sb_store a bs (h_w h)) h in
  heap_at h' base bl /\ forall x, hmem h' x = mem_write (hmem h) a bs x.
Proof.
  intros H Hin Ha Hb h'. pose proof (lenZ_nonneg bs). assert (Hm : forall x, hmem h' x = mem_write (hmem h) a bs x) by (intros x; apply sb_store_mem).
  split; [|exact Hm]. apply live_in in Hin as (l1 & l2 & -> & ->).
  apply (heap_replace h h' base l1 [(n, false)] [(n, false)] l2); try done.
  - intros x Hx. rewrite Hm. apply mem_write_out. rewrite end_of_cons in Hx. cbn [end_of fold_left] in Hx. unfold extent, HEADER in Hx. cbn [fst] in Hx. lia.
  - intros r. cbn [seg]. unfold b_size, b_free, b_next.
    rewrite !(word_at_ext (hmem h) (hmem h')) by (intros x Hx; rewrite Hm; apply mem_write_out; lia). done.
  - exact (ha_last _ _ _ H).
  - apply grounded_store.
Qed.

(** ** calloc *)
Lemma calloc_exact h base bl count size :
  heap_at h base bl -> coalesced bl -> is_u32 count -> is_u32 size ->
  exists r h', cp32_calloc count size h = (Ok r, h') /\
  (r = 0 /\ heap_at h' base bl /\ same_memory h h' \/
   r <> 0 /\ exists n bl', heap_at h' base bl' /\ coalesced bl' /\ count * size <= n /\
     live base bl' ≡ₚ (r, n) :: live base bl /\ kept (live base bl) h h' /\ forall x, r <= x < r + count * size -> hmem h' x = 0).
Proof.
  intros H Hc Hcu Hsu. unfold is_u32 in *. unfold cp32_calloc.
  destruct (Z.eqb_spec count 0) as [->|Hc0]; cbn [orb]; [exists 0, h; split; [done|by left]|].
  destruct (Z.eqb_spec size 0) as [->|Hs0]; cbn [orb]; [exists 0, h; split; [done|by left]|].
  destruct (Z.ltb_spec (4294967295 / size) count) as [Hov|Hfit]; [exists 0, h; split; [done|by left]|]. cbv zeta.
  assert (Hprod : count * size < 4294967296) by (Z.div_mod_to_equations; nia). assert (0 < count * size) by nia.
  rewrite (wrap32_small (count * size)) by lia. set (total := count * size) in *.
  destruct (malloc_exact h base bl total H Hc) as (r & h1 & E & [(-> & _ & H1 & Hm)|(Hr & n & bl' & H1 & Hc1 & Hn & Hp & Hk)]); [unfold is_u32; lia|..];
    rewrite (bind_ok _ _ _ _ _ E).
  - exists 0, h1. change (truthy 0) with false. split; [done|by left].
  - rewrite (proj2 (truthy_true r) Hr). assert (Hin : In (r, n) (live base bl')) by (eapply Permutation_in; [symmetry; exact Hp|by left]).
    destruct (poke_exact h1 base bl' r n r (replicate (Z.to_nat total) 0) H1 Hin) as [H2 Hm2]; [lia|unfold lenZ; rewrite length_replicate; lia|].
    exists r. eexists. split; [reflexivity|]. right. split; [done|]. exists n, bl'. split_and!; try done.
    + intros x Hx. rewrite Hm2, mem_write_out; [by apply Hk|]. unfold lenZ. rewrite length_replicate.
      pose proof (apart base bl' r n _ x (ha_legal _ _ _ H1) Hp Hx). lia.
    + intros x Hx. rewrite Hm2, mem_write_in by (unfold lenZ; rewrite length_replicate; lia). apply nthZ_replicate.
Qed.

(** ** realloc *)

(** The block of [p], large enough, gives its tail back. *)
Lemma shrink_block h base l1 s l2 need :
  heap_at h base (l1 ++ (s, false) :: l2) -> coalesced (l1 ++ (s, false) :: l2) -> legal (need, false) -> need <= s ->
  let b := end_of base l1 in let L := live base l1 ++ live (b + 16 + s) l2 in
  exists h' n bl', (if splits (hmem h) b need then tail <- split_block b need 0 ;; cp32_free (tail +u HEADER) else ret tt) h = (Ok tt, h') /\
  heap_at h' base bl' /\ coalesced bl' /\ need <= n <= s /\ live base bl' ≡ₚ (b + 16, n) :: L /\ kept ((b + 16, n) :: L) h h'.
Proof.
  intros H Hc HL Hfit b L. destruct (block_at _ _ _ _ _ H) as (Hsz & _ & _). fold b in Hsz. cbn [fst] in Hsz.
  pose proof (ha_legal _ _ _ H) as Hl. pose proof Hl as [_ [[Hs Hs16] Hl2]%Forall_cons_1]%Forall_app. cbn [fst] in Hs.
  destruct (ha_range _ _ _ _ H) as (R1 & R2 & R3 & R4 & R5 & _). pose proof (lenZ_nonneg l1).
  rewrite end_of_app, end_of_cons in R3, R4. fold b in R2, R3, R4. pose proof HL as [Hn Hn16]. cbn [fst] in *.
  pose proof (end_of_ge (b + extent (s, false)) l2 Hl2) as R6. pose proof (lenZ_nonneg l2). unfold extent, HEADER in R6. cbn [fst] in R6.
  unfold extent, HEADER in R4. cbn [fst] in R4.
  assert (Hsp : splits (hmem h) b need = (16 + 16 <=? s - need)) by (unfold splits; rewrite Hsz, wrap32_small by lia; done).
  rewrite Hsp. destruct (Z.leb_spec (16 + 16) (s - need)); cycle 1.
  { exists h, s. eexists. split; [done|]. split; [exact H|]. split; [done|]. split; [lia|]. rewrite live_used. fold b.
    split; [by rewrite <- Permutation_middle|by intros x _]. }
  destruct (split_spec base l1 s false l2 need 0 h H) as (h1 & E1 & HA1 & _ & K1); [done|lia|by left|]. fold b in E1, K1.
  rewrite (bind_ok _ _ _ _ _ E1). change (truthy 0) with false in HA1. unfold extent, HEADER in K1 |- *. cbn [fst] in K1 |- *.
  set (tail := b + (16 + need)) in *. assert (Ht : tail = end_of base (l1 ++ [(need, false)])).
  { rewrite end_of_app, end_of_cons. fold b. done. }
  rewrite wrap32_small by (unfold tail; lia). unfold cp32_free. rewrite (proj2 (Z.eqb_neq _ 0)) by (unfold tail; lia).
  replace (l1 ++ (need, false) :: (s - need - 16, false) :: l2) with ((l1 ++ [(need, false)]) ++ (s - need - 16, false) :: l2) in HA1 by by rewrite <- app_assoc.
  destruct (search_payload h1 base _ (tail + 16) HA1) as [[_ Hno]|(l3 & k & l4 & Hbl & E2 & He & H3)]; [unfold is_u32, tail; lia| |].
  { exfalso. apply (Hno (l1 ++ [(need, false)]) (s - need - 16, false) l2); [done|]. by rewrite <- Ht. }
  destruct (split_unique base _ _ _ _ _ _ (ha_legal _ _ _ HA1) Hbl) as (Hl3 & Hk & Hl4); [rewrite <- Ht; lia|]. subst l3 k l4.
  unfold memory. rewrite (bind_ok _ _ _ _ _ E2), bind_gets. rewrite (proj2 (Z.eqb_neq _ 0)) by lia.
  destruct (block_at _ _ _ _ _ HA1) as (_ & -> & _). cbn [orb snd].
  destruct (free_block h1 base (l1 ++ [(need, false)]) (s - need - 16) l2 HA1) as (h2 & bl' & E3 & HA2 & Hc2 & Hp2 & K2 & _).
  rewrite E3. exists h2, need, bl'.
  assert (Hp : live base bl' ≡ₚ (b + 16, need) :: L).
  { rewrite live_app, live_cons in Hp2. cbn [snd fst app] in Hp2. rewrite <- Permutation_middle in Hp2. rewrite <- Ht in Hp2.
    unfold HEADER in Hp2. apply Permutation_cons_inv in Hp2. rewrite <- Hp2. rewrite live_app, live_cons. cbn [snd fst app]. fold b.
    unfold L. rewrite <- app_assoc. cbn [app]. rewrite <- Permutation_middle. unfold HEADER.
    replace (tail + extent (s - need - 16, false)) with (b + 16 + s) by (unfold tail, extent, HEADER; cbn [fst]; lia). done. }
  split; [done|]. split; [exact HA2|]. split; [exact Hc2|]. split; [lia|]. split; [exact Hp|].
  intros x Hx. rewrite K2; [apply K1|by apply (payload_perm _ _ x Hp)].
  apply payload_cons in Hx as [Hx|(q & k & Hq & Hx)]; [unfold tail; lia|].
  apply live_others in Hq; [|done]. fold b in Hq. unfold tail. lia.
Qed.

(** The block of [p] moves to a new one. *)
Lemma move_block h base bl p n size :
  heap_at h base bl -> coalesced bl -> is_u32 size -> is_u32 p -> In (p, n) (live base bl) -> n < size ->
  exists r h', (q <- cp32_malloc size ;; if q =? 0 then ret 0 else
     m <- memory ;; store q (mem_read m p (b_size m (p - 16))) ;;; cp32_free p ;;; ret q) h = (Ok r, h') /\
  (r = 0 /\ no_room base bl size /\ heap_at h' base bl /\ same_memory h h' \/
   r <> 0 /\ exists n' bl' L, heap_at h' base bl' /\ coalesced bl' /\ size <= n' /\
     live base bl ≡ₚ (p, n) :: L /\ live base bl' ≡ₚ (r, n') :: L /\ kept L h h' /\
     forall i, 0 <= i < n -> hmem h' (r + i) = hmem h (p + i)).
Proof.
  intros H Hc Hsz Hpu Hin Hlt. destruct (malloc_exact h base bl size H Hc Hsz) as (r & h1 & E & [(-> & Hno & H1 & Hm)|(Hr & n1 & bl1 & H1 & Hc1 & Hn1 & Hp1 & Hk1)]);
    rewrite (bind_ok _ _ _ _ _ E).
  { exists 0, h1. change (0 =? 0) with true. cbv iota. split; [done|by left]. }
  rewrite (proj2 (Z.eqb_neq r 0) Hr). unfold memory. rewrite bind_gets.
  assert (Hin1 : In (p, n) (live base bl1)) by (eapply Permutation_in; [symmetry; exact Hp1|by right]).
  assert (Hbsz : b_size (hmem h1) (p - 16) = n).
  { pose proof Hin1 as (l1 & l2 & -> & ->)%live_in. replace (end_of base l1 + 16 - 16) with (end_of base l1) by lia. apply (block_at _ _ _ _ _ H1). }
  rewrite Hbsz. pose proof (live_range _ _ _ _ (ha_legal _ _ _ H) Hin) as (_ & _ & Hn16).
  assert (Hinr : In (r, n1) (live base bl1)) by (eapply Permutation_in; [symmetry; exact Hp1|by left]).
  destruct (poke_exact h1 base bl1 r n1 r (mem_read (hmem h1) p n) H1 Hinr) as [H2 Hm2]; [lia|rewrite lenZ_mem_read by lia; lia|].
  set (h2 := set_world (sb_store r (mem_read (hmem h1) p n) (h_w h1)) h1) in *.
  assert (E2 : store r (mem_read (hmem h1) p n) h1 = (Ok tt, h2)) by done. rewrite (bind_ok _ _ _ _ _ E2).
  destruct (free_exact h2 base bl1 p H2 Hc1 Hpu) as (h3 & E3 & [(n' & bl3 & Hin3 & H3 & Hc3 & Hp3 & Hk3)|[_ Hno]]); [|exfalso; by apply (Hno n)].
  rewrite (bind_ok _ _ _ _ _ E3). exists r, h3. split; [done|]. right. split; [done|].
  assert (Hnn : n' = n) by (by apply (live_inj base bl1 p); [eapply ha_legal|..]). subst n'.
  destruct (live_split base bl p n Hin) as [L HL]. exists n1, bl3, L.
  assert (Hp4 : live base bl3 ≡ₚ (r, n1) :: L).
  { apply (Permutation_cons_inv (a := (p, n))). rewrite <- Hp3, Hp1, HL. apply perm_swap. }
  split_and!; try done.
  - intros x Hx. assert (Hx0 : payload (live base bl) x) by (by rewrite HL; apply payload_cons; right).
    rewrite Hk3 by (rewrite Hp4; apply payload_cons; by right). rewrite Hm2, mem_write_out; [by apply Hk1|].
    rewrite lenZ_mem_read by lia. pose proof (apart base bl1 r n1 _ x (ha_legal _ _ _ H1) Hp1 Hx0). lia.
  - intros i Hi. rewrite Hk3 by (rewrite Hp4; apply payload_cons; left; lia). rewrite Hm2, mem_write_in by (rewrite lenZ_mem_read by lia; lia).
    rewrite Z.add_simpl_l, nthZ_mem_read by done. apply Hk1. exists p, n. split; [done|lia].
Qed.

(** The block of [p] takes its free neighbour if that is enough. *)
Lemma grow_block h base l1 n l2 need :
  heap_at h base (l1 ++ (n, false) :: l2) -> coalesced (l1 ++ (n, false) :: l2) -> need < 0x80000000 ->
  let b := end_of base l1 in let L := live base l1 ++ live (b + 16 + n) l2 in
  exists h' n' l2', (if grows (hmem h) b need then absorb b else ret tt) h = (Ok tt, h') /\
  heap_at h' base (l1 ++ (n', false) :: l2') /\ coalesced (l1 ++ (n', false) :: l2') /\
  live base l1 ++ live (b + 16 + n') l2' = L /\ kept ((b + 16, n) :: L) h h' /\ n <= n' /\ (n' < need -> h' = h /\ n' = n /\ l2' = l2).
Proof.
  intros H Hc Hneed b L. destruct (block_at _ _ _ _ _ H) as (Hsz & _ & Hnext). fold b in Hsz, Hnext. cbn [fst] in Hsz.
  pose proof (ha_legal _ _ _ H) as Hl. destruct (ha_range _ _ _ _ H) as (R1 & R2 & R3 & R4 & R5 & _). pose proof (lenZ_nonneg l1).
  destruct (grows (hmem h) b need) eqn:Hg; cycle 1.
  { exists h, n, l2. split; [done|]. split; [exact H|]. split; [done|]. split; [done|]. split; [by intros x _|]. split; [lia|done]. }
  unfold grows in Hg. rewrite !andb_true_iff, Hsz in Hg. destruct Hg as [[[[Hlt Hnz] Hfree] _] Hfit]. destruct l2 as [|[s' f'] l2].
  { cbn [seg] in Hnext. rewrite Hnext in Hnz. done. }
  pose proof Hl as [_ [[Hn _] [[Hs' _] Hl2]%Forall_cons_1]%Forall_cons_1]%Forall_app. cbn [fst] in *.
  cbn [seg] in Hnext. destruct Hnext as (Hnx & _ & Hsz' & Hfr' & _). rewrite Hnx in *. rewrite Hsz' in Hfit. cbn [fst snd] in *. rewrite Hfr' in Hfree. clear Hfr'. subst f'.
  rewrite end_of_app, !end_of_cons in R4. fold b in R4, R2. unfold extent, HEADER in *. cbn [fst] in *.
  pose proof (end_of_ge (b + (16 + n) + (16 + s')) l2 Hl2) as R6. pose proof (lenZ_nonneg l2). rewrite !wrap32_small in Hfit by (rewrite ?wrap32_small; lia).
  destruct (absorb_spec base l1 n false s' true l2 h H) as (h' & E & H' & _ & K). fold b in E.
  unfold extent, HEADER in H'. cbn [fst] in H'. exists h', (n + (16 + s')), l2. split; [exact E|]. split; [exact H'|].
  assert (HLive : live base (l1 ++ (n, false) :: (s', true) :: l2) ≡ₚ (b + 16, n) :: L) by (rewrite live_used; fold b; by rewrite <- Permutation_middle).
  split; [|split; [|split; [|split; [lia|lia]]]].
  - apply coalesced_app in Hc as [Hc1 Hc2]. apply coalesced_app. split; [by apply (coalesced_snoc l1 (n, false))|].
    destruct Hc2 as [_ Hc2]. destruct l2 as [|k l2]; [done|]. by destruct Hc2 as [_ Hc2].
  - unfold L. f_equal. rewrite live_cons. cbn [snd app]. f_equal. unfold extent, HEADER. cbn [fst]. lia.
  - intros x Hx. apply K. by apply (payload_perm _ _ x HLive).
Qed.

Lemma realloc_exact h base bl p size :
  heap_at h base bl -> coalesced bl -> is_u32 p -> is_u32 size -> p <> 0 ->
  exists r h', cp32_realloc p size h = (Ok r, h') /\
  ((r = 0 /\ h' = h /\ forall n, ~ In (p, n) (live base bl)) \/
   exists n L, live base bl ≡ₚ (p, n) :: L /\
   ((size = 0 /\ r = 0 /\ exists bl', heap_at h' base bl' /\ coalesced bl' /\ live base bl' ≡ₚ L /\ kept L h h') \/
    (size <> 0 /\ r = 0 /\ no_room base bl size /\ heap_at h' base bl /\ same_memory h h') \/
    (size <> 0 /\ r <> 0 /\ exists n' bl', heap_at h' base bl' /\ coalesced bl' /\ size <= n' /\ live base bl' ≡ₚ (r, n') :: L /\ kept L h h' /\
       forall i, 0 <= i < Z.min n size -> hmem h' (r + i) = hmem h (p + i)))).
Proof.
  intros H Hc Hp Hsz Hne. unfold cp32_realloc. rewrite (proj2 (Z.eqb_neq p 0) Hne). unfold memory.
  destruct (search_payload h base bl p H Hp) as [[E Hno]|(l1 & [n f] & l2 & -> & E & -> & H0)]; rewrite (bind_ok _ _ _ _ _ E), bind_gets.
  { exists 0, h. split; [done|]. left. split; [done|]. split; [done|]. intros n (l1 & l2 & -> & ->)%live_in. by apply (Hno l1 (n, false) l2). }
  rewrite (proj2 (Z.eqb_neq _ 0)) by lia. pose proof (ha_legal _ _ _ H) as Hl. destruct (block_at _ _ _ _ _ H) as (Hsn & Hfr & _). rewrite Hfr. cbn [fst snd orb] in *.
  destruct f. { exists 0, h. split; [done|]. left. split; [done|]. split; [done|]. by intros n' [=]%live_at. }
  set (b := end_of base l1) in *. set (L := live base l1 ++ live (b + 16 + n) l2).
  assert (HL : live base (l1 ++ (n, false) :: l2) ≡ₚ (b + 16, n) :: L) by (rewrite live_used; fold b; by rewrite <- Permutation_middle).
  assert (Hin : In (b + 16, n) (live base (l1 ++ (n, false) :: l2))) by (rewrite HL; by left).
  destruct (Z.eqb_spec size 0) as [->|Hs0].
  { destruct (free_exact h base _ (b + 16) H Hc Hp) as (h' & E2 & [(n' & bl' & _ & H2 & Hc2 & Hp2 & Hk2)|[_ Hno]]); [|exfalso; by apply (Hno n)].
    rewrite (bind_ok _ _ _ _ _ E2). exists 0, h'. split; [done|]. right. exists n, L. split; [exact HL|]. left. split; [done|]. split; [done|].
    exists bl'. assert (Hp3 : live base bl' ≡ₚ L).
    { rewrite HL in Hp2. assert (n' = n) as ->; [|by apply Permutation_cons_inv in Hp2].
      apply (live_inj base _ (b + 16) n' n Hl); [|done]. rewrite HL, Hp2. by left. }
    split; [exact H2|]. split; [exact Hc2|]. split; [exact Hp3|]. intros x Hx. apply Hk2. by rewrite Hp3. }
  destruct (too_large size) eqn:El.
  { exists 0, h. split; [done|]. right. exists n, L. split; [exact HL|]. right. left. split; [done|]. split; [done|]. split; [right; by left|done]. }
  cbv zeta. assert (Hpos : 0 < size) by (unfold is_u32 in Hsz; lia). destruct (rounded_spec size false Hpos El) as [HLn [Hr1 Hr2]].
  set (need := rounded size) in *. assert (Hneed : need < 0x80000000) by (apply Z.ltb_ge in El; unfold HEADER in El; lia).
  destruct (grow_block h base l1 n l2 need H Hc Hneed) as (h1 & n1 & l3 & E1 & H1 & Hc1 & HL1 & K1 & Hn1 & Hsame). fold b in E1, HL1, K1. fold L in HL1, K1.
  rewrite (bind_ok _ _ _ _ _ E1), bind_gets. destruct (block_at _ _ _ _ _ H1) as (Hs1 & _ & _). fold b in Hs1. cbn [fst] in Hs1. rewrite Hs1.
  destruct (Z.leb_spec need n1) as [Hfit|Hno].
  - destruct (shrink_block h1 base l1 n1 l3 need H1 Hc1 HLn Hfit) as (h2 & n2 & bl' & E2 & H2 & Hc2 & Hn2 & Hp2 & K2). fold b in E2, Hp2, K2. rewrite HL1 in Hp2, K2.
    rewrite (bind_ok _ _ _ _ _ E2). exists (b + 16), h2. split; [done|]. right. exists n, L. split; [exact HL|]. right. right. split; [done|]. split; [lia|].
    exists n2, bl'. split_and!; try done; [lia| |].
    + intros x Hx. rewrite K2, K1; [done|apply payload_cons; by right|apply payload_cons; by right].
    + intros i Hi. rewrite K2, K1; [done|apply payload_cons; left; lia|apply payload_cons; left; lia].
  - destruct (Hsame Hno) as (-> & -> & ->). 
    assert (Hlt : n < size) by (pose proof Hl as [_ [[_ Hn16] _]%Forall_cons_1]%Forall_app; destruct HLn as [_ Hneed16]; cbn [fst] in *; Z.div_mod_to_equations; lia).
    destruct (move_block h base _ (b + 16) n size H Hc Hsz Hp Hin Hlt) as (r & h' & E2 & HR). rewrite Z.add_simpl_r in E2.
    exists r, h'. split; [exact E2|]. right. exists n, L. split; [exact HL|]. right.
    destruct HR as [(-> & Hroom & H2 & Hm)|(Hr & n' & bl' & L' & H2 & Hc2 & Hn' & HLL & Hp2 & Hk2 & Hcopy)]; [by left|right].
    assert (HLe : L' ≡ₚ L) by (rewrite HL in HLL; by apply Permutation_cons_inv in HLL). split; [done|]. split; [done|]. exists n', bl'.
    split_and!; try done; [by rewrite <- HLe| |].
    + intros x Hx. apply Hk2. by rewrite HLe.
    + intros i Hi. apply Hcopy. lia.
Qed.

(** ** trim *)

(** The list ends with [bl] again. *)
Lemma drop_last base bl (h h0 : heap W) :
  let previous := match bl with [] => 0 | _ => last_of base bl end in
  Forall legal bl -> (exists r, seg (hmem h) (h_first h) base bl r) -> (forall x, hmem h0 x = hmem h x) -> 0 < base -> h_first h0 = h_first h ->
  exists h', (((if truthy previous then set_next previous 0 else modify (set_first 0)) ;;; modify (set_last previous)) h0) = (Ok tt, h') /\
    seg (hmem h') (h_first h') base bl 0 /\ h_last h' = last_of base bl /\ grounded h0 h' /\ kept (live base bl) h h'.
Proof.
  intros previous Hl [r Hseg] Hm Hb Hf. destruct bl as [|k l0 _] using rev_ind.
  { exists (set_last 0 (set_first 0 h0)). split; [done|]. split; [done|]. split; [done|]. split; [done|]. by intros x (p & s & [] & _). }
  assert (Hprev : previous = end_of base l0) by (unfold previous; destruct (l0 ++ [k]) eqn:E; [by destruct l0|]; by rewrite <- E, last_of_snoc).
  rewrite Hprev, last_of_snoc. clear previous Hprev. pose proof Hl as [Hl0 [[Hk _] _]%Forall_cons_1]%Forall_app.
  pose proof (end_of_ge base l0 Hl0). pose proof (lenZ_nonneg l0). set (c := end_of base l0) in *. rewrite (proj2 (truthy_true c)) by lia.
  exists (set_last c (put (c + 8) 0 h0)). split; [done|].
  assert (Ho : forall x, x < c + 8 \/ c + 12 <= x -> hmem (put (c + 8) 0 h0) x = hmem h x) by (intros x Hx; rewrite put_out by lia; apply Hm).
  change (hmem (set_last c (put (c + 8) 0 h0))) with (hmem (put (c + 8) 0 h0)).
  change (h_first (set_last c (put (c + 8) 0 h0))) with (h_first h0). rewrite Hf. split_and!; [|done|transitivity (put (c + 8) 0 h0); [apply grounded_put|done]|].
  - apply seg_app in Hseg as (r2 & Hs1 & Hs2). cbn [seg] in Hs2. destruct Hs2 as (-> & HLk & Hsz & Hfr & _).
    apply seg_app. exists c. fold c. split; [apply (seg_frame (hmem h)); [intros x Hx; apply Ho; fold c in Hx; lia|done]|].
    cbn [seg]. split; [done|]. split; [done|]. unfold b_size, b_free, b_next in *. fold c in Hsz, Hfr. words.
    rewrite (word_at_ext (hmem h) (hmem h0) c), (word_at_ext (hmem h) (hmem h0) (c + 4)) by (intros x Hx; apply Hm). done.
  - intros x Hx. apply Ho. apply (payload_out base l0 k []) in Hx; [|done]. fold c in Hx. unfold extent, HEADER in Hx. lia.
Qed.
Lemma trim_exact h base bl :
  heap_at h base bl -> coalesced bl ->
  exists r h', cp32_heap_trim h = (Ok r, h') /\
  ((r = 0 /\ h' = h /\ (forall bl' k, bl = bl' ++ [k] -> snd k = false)) \/
   exists bl' s, bl = bl' ++ [(s, true)] /\ r = 16 + s /\ heap_at h' base bl' /\ coalesced bl' /\
     live base bl' = live base bl /\ kept (live base bl) h h' /\ sb_brk (h_w h') = sb_brk (h_w h) - r).
Proof.
  intros H Hc. pose proof H as [Hok Hapi Hbase Hseg Hlast Hbrk]. unfold cp32_heap_trim. rewrite bind_gets, Hapi. cbn [negb]. cbv zeta.
  destruct bl as [|[s f] bl _] using rev_ind.
  { rewrite Hlast. exists 0, h. split; [done|]. left. split; [done|]. split; [done|]. by intros []. }
  destruct (block_at _ _ _ _ _ H) as (Hsz & Hfr & _). rewrite last_of_snoc in Hlast. rewrite Hlast, Hsz, Hfr. cbn [fst snd] in *.
  destruct (ha_range _ _ _ _ H) as (R1 & R2 & R3 & R4 & R5 & R6). pose proof (lenZ_nonneg bl). change (lenZ [(s, f)]) with 1 in R3.
  rewrite end_of_app, end_of_cons in R3, R4. cbn [end_of fold_left] in R3, R4. set (b := end_of base bl) in *.
  assert (Hend : sb_brk (h_w h) = b + (16 + s)) by (rewrite Hbrk, end_of_app, end_of_cons; done).
  unfold extent, HEADER in R3, R4. cbn [fst] in R3, R4. pose proof (ha_legal _ _ _ H) as [Hlb [[Hs _] _]%Forall_cons_1]%Forall_app. cbn [fst] in Hs.
  rewrite (proj2 (Z.eqb_neq b 0)) by lia. destruct f; cbn [negb orb]; cycle 1.
  { exists 0, h. split; [done|]. left. split; [done|]. split; [done|]. by intros bl' k [_ [= <-]]%app_inj_tail. }
  pose proof (find_previous_spec (hmem h) BLOCKS (h_first h) base bl (s, true) 0 0 R1 Hseg) as Hfind. fold b in Hfind.
  rewrite Hfind by (unfold lenZ, BLOCKS in *; rewrite length_app in R6; cbn [length] in R6; lia). clear Hfind.
  set (previous := match bl with [] => 0 | _ => last_of base bl end). unfold HEADER. rewrite (wrap32_small (16 + s)) by lia.
  destruct (sb_bounds _ Hok) as (B1 & B2 & B3).
  assert (E1 : exists w1, sbrk 0 h = (Ok (b + (16 + s)), set_world w1 h) /\ sb_ok w1 /\ sb_floor w1 = sb_floor (h_w h) /\
     sb_brk w1 = b + (16 + s) /\ forall x, sb_mem w1 x = hmem h x).
  { destruct (sb_sbrk_exact 0 (h_w h) Hok) as (w1 & E & Hok1 & Hfl & Hb1 & Hm); [lia|]. rewrite Z.add_0_r, Hend in *.
    rewrite (proj2 (Z.leb_le _ _)), (proj2 (Z.leb_le _ _)) in E, Hb1, Hm by lia. exists w1. unfold sbrk. rewrite E. split_and!; try done.
    intros x. rewrite Hm. cbn [andb]. destruct (Z.leb_spec (b + (16 + s)) x), (Z.ltb_spec x (b + (16 + s))); cbn [andb]; done || lia. }
  destruct E1 as (w1 & E1 & Hok1 & Hfl1 & Hb1 & Hm1). unfold ended. unfold bind at 1. cbn [ret]. rewrite (bind_ok _ _ _ _ _ E1).
  rewrite (wrap32_small (b + (16 + s))), Z.eqb_refl by lia. cbn [negb].
  assert (Hneg : to_int (0 -u (16 + s)) = - (16 + s)).
  { unfold to_int. rewrite (wrap32_small (wrap32 _)) by apply wrap32_range. unfold wrap32. rewrite <- (Z_mod_plus_full _ 1), Z.mod_small by lia.
    destruct (Z.ltb_spec (0 - (16 + s) + 1 * 4294967296) 2147483648); lia. }
  assert (E2 : exists w2, sbrk (- (16 + s)) (set_world w1 h) = (Ok (b + (16 + s)), set_world w2 h) /\ sb_ok w2 /\ sb_floor w2 = sb_floor (h_w h) /\
     sb_brk w2 = b /\ forall x, sb_mem w2 x = hmem h x).
  { destruct (sb_sbrk_exact (- (16 + s)) w1 Hok1) as (w2 & E & Hok2 & Hfl & Hb2 & Hm); [lia|]. rewrite Hb1, Hfl1 in *.
    replace (b + (16 + s) + - (16 + s)) with b in * by lia. rewrite (proj2 (Z.leb_le _ b)), (proj2 (Z.leb_le b _)) in E, Hb2, Hm by lia.
    exists w2. unfold sbrk. cbn [h_w set_world]. rewrite E. split_and!; try done.
    intros x. rewrite Hm, Hm1. cbn [andb]. destruct (Z.leb_spec (b + (16 + s)) x), (Z.ltb_spec x b); cbn [andb]; done || lia. }
  destruct E2 as (w2 & E2 & Hok2 & Hfl2 & Hb2 & Hm2). rewrite Hneg, (bind_ok _ _ _ _ _ E2). rewrite (proj2 (Z.eqb_neq _ NO_SPACE)) by (unfold NO_SPACE; lia).
  assert (Hc2 : coalesced bl) by (destruct bl as [|k l0 _] using rev_ind; [done|]; rewrite <- app_assoc in Hc; by apply coalesced_app in Hc as [Hc _]).
  assert (Hlive : live base bl = live base (bl ++ [(s, true)])) by (by rewrite live_app, live_cons, app_nil_r).
  rewrite (to_int_small (16 + s)) by lia.
  destruct (drop_last base bl h (set_world w2 h) Hlb) as (h' & E3 & Hseg3 & Hl3 & G3 & K3); try done.
  { apply seg_app in Hseg as (r & Hs1 & _). by exists r. }
  exists (16 + s), h'. split; [|right; exists bl, s; split; [done|]; split; [done|]].
  { rewrite <- (bind_assoc _ (fun _ => modify (set_last previous))). by rewrite (bind_ok _ _ _ _ _ E3). }
  destruct G3 as [G1 G2 G4 G5]. cbn [h_w set_world] in *. split.
  { constructor; [by apply G1|by rewrite G2|by rewrite G5, Hfl2|done|done|by rewrite G4]. }
  split; [done|]. split; [done|]. split; [by rewrite <- Hlive|]. rewrite G4, Hend by done. lia.
Qed.
End Heap.
