(* ===== verification/HeapClient.v ===== *)
(** * The heap as its clients see it

    A heap is a finite map from pointers to the bytes behind them.  [heap_refines]:
    every call terminates and acts on that map as its specification [allowed]
    says; the bytes of other pointers stay.  [malloc_succeeds]: a request that a
    free block or the room above the break can hold is granted. *)
From stdpp Require Import fin_maps gmap.
From S2P Require Import Prelude Codec Heap HeapSpec HeapRefine.
From S2P Require Exec.

Definition contents (m : mem) (lv : list (Z * Z)) : gmap Z (list Z) :=
  list_to_map (map (fun '(p, n) => (p, mem_read m p n)) lv).

Lemma live_nodup a bl : Forall legal bl -> NoDup (map fst (live a bl)).
Proof.
  intros H. revert a. induction H as [|k bl Hk Hl IH]; intros a; [apply NoDup_nil_2|]. rewrite live_cons.
  destruct (snd k); cbn [app map]; [apply IH|]. apply NoDup_cons_2; [|apply IH]. cbn [fst]. intros Hin%list_elem_of_In.
  apply in_map_iff in Hin as ([q n] & Hq & Hin). apply (live_range _ _ _ _ Hl) in Hin. cbn [fst] in Hq. unfold extent, HEADER in *.
  destruct Hk as [Hk _]. lia.
Qed.

Lemma contents_fst m lv : (map (fun '(p, n) => (p, mem_read m p n)) lv).*1 = map fst lv.
Proof. induction lv as [|[p n] lv IH]; [done|]. cbn. by rewrite IH. Qed.

Lemma contents_perm m lv lv' : NoDup (map fst lv) -> lv ≡ₚ lv' -> contents m lv = contents m lv'.
Proof. intros Hn Hp. apply list_to_map_proper; [by rewrite contents_fst|]. by apply Permutation_map. Qed.

Lemma contents_ext m m' lv : (forall x, payload lv x -> m' x = m x) -> contents m' lv = contents m lv.
Proof.
  intros Hm. unfold contents. f_equal. apply map_ext_in. intros [p n] Hin. f_equal. apply mem_read_ext. intros x Hx. apply Hm. by exists p, n.
Qed.

Lemma contents_cons m p n lv : contents m ((p, n) :: lv) = <[p := mem_read m p n]> (contents m lv).
Proof. done. Qed.

Lemma contents_none m p lv : contents m lv !! p = None <-> forall n, ~ In (p, n) lv.
Proof.
  unfold contents. rewrite <- not_elem_of_list_to_map, contents_fst. split.
  - intros H n Hin. apply H. apply list_elem_of_In, in_map_iff. by exists (p, n).
  - intros H Hin%list_elem_of_In. apply in_map_iff in Hin as ([q n] & <- & Hin). by apply (H n).
Qed.

(** ** Calls and their specification *)
Inductive call :=
| Malloc (size : Z) | Calloc (count size : Z) | Free (p : Z) | Realloc (p size : Z) | Trim
| Put (p i b : Z).   (* the program stores the byte [b] at [p[i]] *)

Abbreviation spec_state := (gmap Z (list Z)).

Definition legal_call (σ : spec_state) (c : call) : Prop :=
  match c with
  | Malloc size => is_u32 size
  | Calloc count size => is_u32 count /\ is_u32 size
  | Free p => is_u32 p
  | Realloc p size => is_u32 p /\ is_u32 size
  | Trim => True
  | Put p i b => exists bs, σ !! p = Some bs /\ 0 <= i < lenZ bs
  end.

(** A fresh pointer to at least [size] bytes, or null and nothing else. *)
Definition granted (σ : spec_state) (size r : Z) (σ' : spec_state) (good : list Z -> Prop) : Prop :=
  (r = 0 /\ σ' = σ) \/
  (r <> 0 /\ r mod 16 = 0 /\ σ !! r = None /\ exists bs, size <= lenZ bs /\ good bs /\ σ' = <[r := bs]> σ).

Definition allowed (σ : spec_state) (c : call) (r : Z) (σ' : spec_state) : Prop :=
  match c with
  | Malloc size => granted σ size r σ' (fun _ => True)
  | Calloc count size => granted σ (count * size) r σ' (fun bs => forall i, 0 <= i < count * size -> nthZ bs i = 0)
  | Free p => r = 0 /\ σ' = delete p σ
  | Realloc p size =>
      if p =? 0 then granted σ size r σ' (fun _ => True) else
      match σ !! p with
      | None => r = 0 /\ σ' = σ
      | Some old =>
          if size =? 0 then r = 0 /\ σ' = delete p σ else
          (r = 0 /\ σ' = σ) \/
          (r <> 0 /\ r mod 16 = 0 /\ (r = p \/ σ !! r = None) /\ exists bs, size <= lenZ bs /\
             (forall i, 0 <= i < Z.min (lenZ old) size -> nthZ bs i = nthZ old i) /\ σ' = <[r := bs]> (delete p σ))
      end
  | Trim => 0 <= r /\ σ' = σ
  | Put p i b => r = 0 /\ exists bs, σ !! p = Some bs /\ σ' = <[p := updZ bs i b]> σ
  end.

Section Client.
Context {W : Type} {SB : Sbrk W} {SPEC : SbrkSpec W}.
Abbreviation hmem h := (sb_mem (h_w h)).

Definition run_call (c : call) : M (heap W) Z :=
  match c with
  | Malloc size => cp32_malloc size
  | Calloc count size => cp32_calloc count size
  | Free p => cp32_free p ;;; ret 0
  | Realloc p size => cp32_realloc p size
  | Trim => cp32_heap_trim
  | Put p i b => store (p + i) [b] ;;; ret 0
  end.

(** The heap holds exactly the blocks of [σ]. *)
Definition holds (h : heap W) (σ : spec_state) : Prop :=
  exists base bl, heap_at h base bl /\ coalesced bl /\ σ = contents (hmem h) (live base bl).

Lemma live_aligned base bl p n : base mod 16 = 0 -> Forall legal bl -> In (p, n) (live base bl) -> p mod 16 = 0.
Proof.
  intros Hb Hl. revert base Hb. induction Hl as [|k bl [Hk Hk16] Hl IH]; intros base Hb; [done|]. rewrite live_cons, in_app_iff.
  intros [Hin|Hin]; [destruct (snd k); [done|]; destruct Hin as [[= <- <-]|[]]|apply (IH (base + extent k)) in Hin; [done|]];
    unfold extent, HEADER; Z.div_mod_to_equations; lia.
Qed.

(** The specification state after the payloads changed from [lv] to [(r, n) :: lv]. *)
Lemma contents_new base bl' r n lv (h h' : heap W) :
  heap_at h' base bl' -> live base bl' ≡ₚ (r, n) :: lv -> kept lv h h' ->
  contents (hmem h') (live base bl') = <[r := mem_read (hmem h') r n]> (contents (hmem h) lv) /\
  contents (hmem h) lv !! r = None /\ r mod 16 = 0 /\ 16 <= n.
Proof.
  intros H Hp Hk. pose proof (ha_legal _ _ _ H) as Hl. pose proof (live_nodup base bl' Hl) as Hnd.
  assert (Hin : In (r, n) (live base bl')) by (rewrite Hp; by left).
  rewrite (contents_perm _ _ _ Hnd Hp), contents_cons, (contents_ext (hmem h) (hmem h')) by exact Hk. split; [done|].
  split; [|split; [apply (live_aligned base bl' r n); [apply (ha_base _ _ _ H)|done|done]|apply (live_range _ _ _ _ Hl) in Hin; lia]].
  apply contents_none. intros n' Hin'. apply (Permutation_map fst) in Hp. rewrite Hp in Hnd. cbn [map fst] in Hnd. inversion_clear Hnd as [|? ? Hnd1 _].
  apply Hnd1. apply list_elem_of_In, in_map_iff. by exists (r, n').
Qed.

(** After a payload has gone. *)
Lemma contents_gone base bl bl' p n lv (h h' : heap W) :
  heap_at h base bl -> live base bl ≡ₚ (p, n) :: lv -> live base bl' ≡ₚ lv -> Forall legal bl' -> kept lv h h' ->
  contents (hmem h') (live base bl') = delete p (contents (hmem h) (live base bl)) /\
  contents (hmem h) lv = delete p (contents (hmem h) (live base bl)) /\
  contents (hmem h) (live base bl) !! p = Some (mem_read (hmem h) p n).
Proof.
  intros H Hp Hp' Hl' Hk. pose proof (ha_legal _ _ _ H) as Hl. pose proof (live_nodup base bl Hl) as Hnd.
  rewrite (contents_perm _ _ _ (live_nodup base bl' Hl') Hp'), (contents_ext (hmem h) (hmem h')) by exact Hk.
  rewrite (contents_perm _ _ _ Hnd Hp), contents_cons.
  assert (Hn : contents (hmem h) lv !! p = None).
  { apply contents_none. intros n' Hin. apply (Permutation_map fst) in Hp. rewrite Hp in Hnd. cbn [map fst] in Hnd. inversion_clear Hnd as [|? ? Hnd1 _].
    apply Hnd1. apply list_elem_of_In, in_map_iff. by exists (p, n'). }
  rewrite lookup_insert_eq, delete_insert_id; done.
Qed.

(** Nothing but the list may have changed. *)
Lemma holds_same h h' base bl :
  heap_at h base bl -> coalesced bl -> heap_at h' base bl -> same_memory h h' -> holds h' (contents (hmem h) (live base bl)).
Proof. intros H Hc H' Hm. exists base, bl. split; [done|]. split; [done|]. symmetry. apply contents_ext. intros x _. apply Hm. Qed.

(** A grant of [malloc] or [calloc] *)
Lemma holds_granted h h' base bl bl' r n size good :
  heap_at h' base bl' -> coalesced bl' -> size <= n -> live base bl' ≡ₚ (r, n) :: live base bl -> kept (live base bl) h h' ->
  r <> 0 -> good (mem_read (hmem h') r n) ->
  exists σ', holds h' σ' /\ granted (contents (hmem h) (live base bl)) size r σ' good.
Proof.
  intros H' Hc Hn Hp Hk Hr Hg. destruct (contents_new base bl' r n _ h h' H' Hp Hk) as (E & E0 & Hal & Hn16).
  eexists. split; [by exists base, bl'|]. right. split; [done|]. split; [done|]. split; [exact E0|]. exists (mem_read (hmem h') r n).
  rewrite lenZ_mem_read by lia. done.
Qed.

Lemma malloc_holds h σ size : holds h σ -> is_u32 size ->
  exists r h' σ', cp32_malloc size h = (Ok r, h') /\ holds h' σ' /\ granted σ size r σ' (fun _ => True).
Proof.
  intros (base & bl & H & Hc & ->) Hs.
  destruct (malloc_exact h base bl size H Hc Hs) as (r & h' & E & [(-> & _ & H1 & Hm)|(Hr & n & bl' & H1 & Hc1 & Hn & Hp & Hk)]); exists r, h' || exists 0, h'.
  - eexists. split; [exact E|]. split; [by apply (holds_same h h' base bl)|by left].
  - destruct (holds_granted h h' base bl bl' r n size (fun _ => True) H1 Hc1 Hn Hp Hk Hr I) as (σ' & Hh & Hg). by exists σ'.
Qed.

Lemma calloc_holds h σ count size : holds h σ -> is_u32 count -> is_u32 size ->
  exists r h' σ', cp32_calloc count size h = (Ok r, h') /\ holds h' σ' /\
    granted σ (count * size) r σ' (fun bs => forall i, 0 <= i < count * size -> nthZ bs i = 0).
Proof.
  intros (base & bl & H & Hc & ->) Hcu Hs.
  destruct (calloc_exact h base bl count size H Hc Hcu Hs) as (r & h' & E & [(-> & H1 & Hm)|(Hr & n & bl' & H1 & Hc1 & Hn & Hp & Hk & Hz)]); exists r, h' || exists 0, h'.
  - eexists. split; [exact E|]. split; [by apply (holds_same h h' base bl)|by left].
  - destruct (holds_granted h h' base bl bl' r n (count * size) (fun bs => forall i, 0 <= i < count * size -> nthZ bs i = 0) H1 Hc1 Hn Hp Hk Hr) as (σ' & Hh & Hg).
    + intros i Hi. rewrite nthZ_mem_read by lia. apply Hz. lia.
    + by exists σ'.
Qed.

Lemma free_holds h σ p : holds h σ -> is_u32 p ->
  exists h', cp32_free p h = (Ok tt, h') /\ holds h' (delete p σ).
Proof.
  intros (base & bl & H & Hc & ->) Hpu.
  destruct (free_exact h base bl p H Hc Hpu) as (h' & E & [(n & bl' & Hin & H1 & Hc1 & Hp & Hk)|[-> Hno]]); exists h' || exists h; (split; [exact E|]).
  - exists base, bl'. split; [done|]. split; [done|]. symmetry.
    by destruct (contents_gone base bl bl' p n (live base bl') h h' H Hp (reflexivity _) (ha_legal _ _ _ H1) Hk) as (E1 & _).
  - exists base, bl. split; [done|]. split; [done|]. apply delete_id. by apply contents_none.
Qed.

Lemma realloc_holds h σ p size : holds h σ -> is_u32 p -> is_u32 size -> p <> 0 ->
  exists r h' σ', cp32_realloc p size h = (Ok r, h') /\ holds h' σ' /\ allowed σ (Realloc p size) r σ'.
Proof.
  intros (base & bl & H & Hc & ->) Hpu Hs Hne. pose proof (ha_legal _ _ _ H) as Hl. cbn [allowed]. rewrite (proj2 (Z.eqb_neq p 0) Hne).
  destruct (realloc_exact h base bl p size H Hc Hpu Hs Hne) as (r & h' & E & [(-> & -> & Hno)|(n & L & HL & HR)]).
  { exists 0, h. eexists. split; [exact E|]. split; [by exists base, bl|]. by rewrite (proj2 (contents_none _ _ _) Hno). }
  assert (Hin : In (p, n) (live base bl)) by (rewrite HL; by left).
  assert (Hn16 : 16 <= n) by (apply (live_range _ _ _ _ Hl) in Hin; lia).
  assert (Hkeep : kept L h h) by (by intros x _).
  assert (Hsome : contents (hmem h) (live base bl) !! p = Some (mem_read (hmem h) p n) /\ contents (hmem h) L = delete p (contents (hmem h) (live base bl))).
  { rewrite (contents_perm _ _ _ (live_nodup base bl Hl) HL), contents_cons, lookup_insert_eq. split; [done|]. rewrite delete_insert_id; [done|].
    pose proof (live_nodup base bl Hl) as Hnd. rewrite HL in Hnd. cbn [map fst] in Hnd. inversion_clear Hnd as [|? ? Hnd1 _].
    apply contents_none. intros n' Hn'. apply Hnd1, list_elem_of_In, in_map_iff. by exists (p, n'). }
  destruct Hsome as [Hsome HLd]. rewrite Hsome.
  destruct HR as [(-> & -> & bl' & H1 & Hc1 & Hp1 & Hk1)|[(Hs0 & -> & _ & H1 & Hm)|(Hs0 & Hr & n' & bl' & H1 & Hc1 & Hn' & Hp1 & Hk1 & Hcopy)]].
  - exists 0, h'. eexists. split; [exact E|]. split; [|by change (0 =? 0) with true]. exists base, bl'. split; [done|]. split; [done|]. 
    destruct (contents_gone base bl bl' p n L h h' H HL Hp1 (ha_legal _ _ _ H1) Hk1) as (E1 & _). by rewrite E1.
  - exists 0, h'. eexists. split; [exact E|]. split; [by apply (holds_same h h' base bl)|]. rewrite (proj2 (Z.eqb_neq size 0) Hs0). by left.
  - destruct (contents_new base bl' r n' L h h' H1 Hp1 Hk1) as (E1 & E0 & Hal & Hn2).
    exists r, h'. eexists. split; [exact E|]. split; [by exists base, bl'|].
    rewrite (proj2 (Z.eqb_neq size 0) Hs0). right. split; [done|]. split; [done|]. split.
    + rewrite HLd in E0. destruct (Z.eq_dec r p) as [->|Hrp]; [by left|right]. by rewrite lookup_delete_ne in E0.
    + exists (mem_read (hmem h') r n'). rewrite !lenZ_mem_read by lia. split; [done|]. split; [|by rewrite HLd].
      intros i Hi. rewrite !nthZ_mem_read by lia. by apply Hcopy.
Qed.

Lemma trim_holds h σ : holds h σ ->
  exists r h', cp32_heap_trim h = (Ok r, h') /\ holds h' σ /\ 0 <= r.
Proof.
  intros (base & bl & H & Hc & ->). destruct (trim_exact h base bl H Hc) as (r & h' & E & [(-> & -> & _)|(bl' & s & -> & -> & H1 & Hc1 & Hlv & Hk & _)]).
  - exists 0, h. split; [exact E|]. split; [by exists base, bl|done].
  - exists (16 + s), h'. split; [exact E|]. pose proof (ha_legal _ _ _ H) as [_ [[Hs _] _]%Forall_cons_1]%Forall_app. cbn [fst] in Hs.
    split; [|lia]. exists base, bl'. split; [done|]. split; [done|]. rewrite Hlv. symmetry. by apply contents_ext.
Qed.

Lemma put_holds h σ p i b bs : holds h σ -> σ !! p = Some bs -> 0 <= i < lenZ bs ->
  exists h', store (p + i) [b] h = (Ok tt, h') /\ holds h' (<[p := updZ bs i b]> σ).
Proof.
  intros (base & bl & H & Hc & ->) Hp Hi. pose proof (ha_legal _ _ _ H) as Hl. pose proof (live_nodup base bl Hl) as Hnd.
  destruct (contents (hmem h) (live base bl) !! p) as [bs'|] eqn:E; [|done]. injection Hp as ->.
  apply elem_of_list_to_map_2, list_elem_of_In, in_map_iff in E as ([q n] & [= <- <-] & Hin).
  assert (Hn16 : 16 <= n) by (apply (live_range _ _ _ _ Hl) in Hin; lia). rewrite lenZ_mem_read in Hi by lia.
  destruct (poke_exact h base bl q n (q + i) [b] H Hin) as [H1 Hm]; [lia|unfold lenZ; cbn [length]; lia|].
  eexists. split; [reflexivity|]. exists base, bl. split; [exact H1|]. split; [done|].
  destruct (live_split base bl q n Hin) as [L HL].
  rewrite !(contents_perm _ _ _ Hnd HL), !contents_cons, insert_insert_eq. f_equal.
  - apply list_eq_nthZ; [unfold updZ; by rewrite length_insert, !length_mem_read|]. intros j Hj.
    rewrite lenZ_upd, lenZ_mem_read in Hj by lia. rewrite nthZ_mem_read by lia. rewrite Hm. destruct (Z.eq_dec j i) as [->|Hne].
    + rewrite mem_write_in by (unfold lenZ; cbn [length]; lia). rewrite Z.sub_diag, nthZ_upd_eq by (rewrite lenZ_mem_read; lia). done.
    + rewrite mem_write_out by (unfold lenZ; cbn [length]; lia). by rewrite nthZ_upd_ne, nthZ_mem_read by lia.
  - symmetry. apply contents_ext. intros x Hx. rewrite Hm. apply mem_write_out.
    pose proof (apart base bl q n L x Hl HL Hx). unfold lenZ. cbn [length]. lia.
Qed.

(** An accepted initialisation: the heap is empty. *)
Lemma init_holds (w : W) version ptr :
  sb_ok w -> 4 <= version -> ptr <> 0 -> sb_brk w mod 16 = 0 ->
  exists w', cp32_heap_init (Some (version, ptr)) (Heap 0 0 false w) = (Ok tt, Heap 0 0 true w') /\ holds (Heap 0 0 true w') ∅.
Proof.
  intros Hok Hv Hp Hal. unfold cp32_heap_init. rewrite bind_gets, bind_guard, bind_guard. cbn [h_api].
  rewrite (proj2 (Z.ltb_ge version 4)), (proj2 (Z.eqb_neq ptr 0)) by lia. cbn [orb].
  destruct (sb_bounds w Hok) as (B1 & B2 & B3). pose proof sb_top_small.
  destruct (sb_sbrk_exact 0 w Hok) as (w' & E & Hok' & Hfl & Hb & Hm); [lia|]. rewrite Z.add_0_r in *.
  rewrite (proj2 (Z.leb_le _ _)), (proj2 (Z.leb_le _ _)) in E, Hb by lia. cbn [andb] in E, Hb.
  assert (E2 : sbrk 0 (Heap 0 0 false w) = (Ok (sb_brk w), Heap 0 0 false w')) by (unfold sbrk; cbn [h_w]; by rewrite E).
  rewrite (bind_ok _ _ _ _ _ E2), bind_guard. rewrite (proj2 (Z.eqb_neq _ NO_SPACE)) by (unfold NO_SPACE; lia).
  change 15 with (Z.ones 4). rewrite Z.land_ones by lia. change (2 ^ 4) with 16. rewrite Hal. cbn [orb].
  exists w'. split; [done|]. exists (sb_brk w), []. split; [|done]. constructor; cbn [h_w h_api h_first h_last]; try done.
  rewrite Hfl. split; [lia|exact Hal].
Qed.

(** C37. The allocator of programs refines a finite map from pointers to bytes:
    every call ends.  malloc and calloc give a fresh pointer, 16-byte aligned, to
    enough bytes, zeros for calloc, or null; free forgets exactly its pointer, and
    nothing if it is not one; realloc keeps the common prefix, or fails and keeps
    all; a trim loses nothing; a store in a block changes that byte alone. *)
Theorem heap_refines h σ c :
  holds h σ -> legal_call σ c ->
  exists r h' σ', run_call c h = (Ok r, h') /\ holds h' σ' /\ allowed σ c r σ'.
Proof.
  intros H Hc. destruct c as [size|count size|p|p size| |p i b]; cbn [legal_call run_call allowed] in *.
  - by apply malloc_holds.
  - destruct Hc. by apply calloc_holds.
  - destruct (free_holds h σ p H Hc) as (h' & E & H'). exists 0, h', (delete p σ). by rewrite (bind_ok _ _ _ _ _ E).
  - destruct Hc as [Hp Hs]. destruct (Z.eqb_spec p 0) as [->|Hne].
    + destruct (malloc_holds h σ size H Hs) as (r & h' & σ' & E & H' & Hg). by exists r, h', σ'.
    + destruct (realloc_holds h σ p size H Hp Hs Hne) as (r & h' & σ' & E & H' & Hg). cbn [allowed] in Hg.
      rewrite (proj2 (Z.eqb_neq p 0) Hne) in Hg. by exists r, h', σ'.
  - destruct (trim_holds h σ H) as (r & h' & E & H' & Hr). by exists r, h', σ.
  - destruct Hc as (bs & Hp & Hi). destruct (put_holds h σ p i b bs H Hp Hi) as (h' & E & H'). exists 0, h', (<[p := updZ bs i b]> σ).
    rewrite (bind_ok _ _ _ _ _ E). split; [done|]. split; [done|]. split; [done|]. by exists bs.
Qed.

(** C38. malloc does not fail for want of trying: a request that is neither empty
    nor larger than the address space allows is granted whenever one free block
    holds it, or the break can be moved up by it and a header. *)
Theorem malloc_succeeds h base bl size :
  heap_at h base bl -> coalesced bl -> 0 < size <= 0x7fffffff - 31 ->
  (exists s, In (s, true) bl /\ rounded size <= s) \/ sb_brk (h_w h) + 16 + rounded size <= sb_top ->
  exists r h', cp32_malloc size h = (Ok r, h') /\ r <> 0.
Proof.
  intros H Hc Hs Hroom. destruct (malloc_exact h base bl size H Hc) as (r & h' & E & [(-> & Hno & _)|(Hr & _)]); [unfold is_u32; lia| |by exists r, h'].
  exfalso. rewrite (ha_brk _ _ _ H) in Hroom. destruct Hno as [->|[Hl|[Hf Hb]]]; [lia|apply Z.ltb_lt in Hl; unfold HEADER in Hl; lia|].
  destruct Hroom as [(s & Hin & Hle)|Hle]; [|lia]. rewrite Forall_forall in Hf. specialize (Hf _ Hin eq_refl). cbn [fst] in Hf. lia.
Qed.
End Client.
