(* ===== verification/HeapApp.v ===== *)
(** * The heap of a program on the kernel

    The service [sbrk] of [App], answered by the broker, and the program's memory
    satisfy the interface [SbrkSpec]: the allocator's theorems hold of programs
    that run on the modelled system. *)
From stdpp Require Import fin_maps gmap.
From S2P Require Import Prelude Codec Kconst FsTypes FdTable Alloc Ktypes Sched Ipc IpcSpec Process Mm Storage.
From S2P Require Import MemDisk Path Filedes Fproc Appfile Signals Fork ForkFiles ForkSpec ForkJoin App AppBuf AppSpec.
From S2P Require Import Heap HeapSpec HeapRefine HeapClient.
From S2P Require Image Exec.

Section Program.
Context {E : Type} `{DSK : Disk E} `{TRAP : Transport} `{CON : Console E}.
Context (heap_base heap_size : Z) (read write clock : fptr) (services : Z).
Abbreviation broker_trap := (broker_trap heap_base heap_size read write clock services).

(** A store of the program *)
Definition app_store (a : Z) (bs : list Z) (s : app E) : app E :=
  set_w (set_k (store_mem a bs (b_k (a_w s))) (a_w s)) s.

#[local] Instance app_sbrk_iface : Sbrk (app E) := {
  sb_sbrk n := application_sbrk broker_trap n;
  sb_mem s := k_mem (b_k (a_w s));
  sb_store := app_store }.

#[local] Program Instance app_sbrk_spec : SbrkSpec (app E) := {
  sb_ok s := running s /\ break_in (b_floor (a_w s)) (b_brk (a_w s));
  sb_brk s := b_brk (a_w s);
  sb_floor s := b_floor (a_w s);
  sb_top := Image.CP32_APP_STACK }.
Next Obligation. intros s [_ [H1 H2]]. unfold Image.CP32_APP_DATA, Image.CP32_APP_STACK in *. lia. Qed.
Next Obligation. done. Qed.
Next Obligation. intros a bs s. reflexivity. Qed.
Next Obligation. intros a bs s [HR Hb]. split; [split; [by destruct HR; constructor|done]|done]. Qed.
Next Obligation.
  intros n s [HR Hb] Hn fits. cbn [sb_sbrk app_sbrk_iface]. rewrite (sbrk_service _ _ _ _ _ _ n s HR Hb Hn). fold fits.
  destruct (moved_spec n s HR) as (H1 & H2 & H3 & H4). destruct fits eqn:Ef; cbn [andb].
  - exists (moved n s). split; [done|]. split; [|by split; [|split]]. split; [done|]. rewrite H1, H2.
    unfold fits in Ef. apply andb_true_iff in Ef as [E1%Z.leb_le E2%Z.leb_le]. destruct Hb as [[Hb1 Hb2] Hb3]. by split.
  - exists s. done.
Qed.
End Program.

(** ** The allocator of a program that runs in the demonstration *)
#[export] Instance demo_sbrk : Sbrk (app memdisk) :=
  app_sbrk_iface (TRAP := ForkDemo.prompt) ForkDemo.heap_base ForkDemo.heap_size MD_READ MD_WRITE MD_CLOCK 0x40380000.
#[export] Instance demo_sbrk_spec : SbrkSpec (app memdisk) :=
  app_sbrk_spec (TRAP := ForkDemo.prompt) ForkDemo.heap_base ForkDemo.heap_size MD_READ MD_WRITE MD_CLOCK 0x40380000.

Module HeapDemo.
Definition empty : heap (app memdisk) := Heap 0 0 true AppDemo.running_s.
Definition first : res Z * heap (app memdisk) := run_call (Malloc 100) empty.
End HeapDemo.

Lemma demo_running : sb_ok AppDemo.running_s.
Proof.
  split; [|split_and!; vm_compute; discriminate].
  constructor; [discriminate|vm_compute; reflexivity|vm_compute; discriminate|vm_compute; reflexivity].
Qed.

Lemma demo_empty : heap_at HeapDemo.empty 0x3fcec400 [].
Proof. constructor; [exact demo_running|done|split; vm_compute; [discriminate|reflexivity]|done|done|vm_compute; reflexivity]. Qed.

Lemma heap_refines_witness :
  fst (run_call (Malloc 100) HeapDemo.empty) = Ok 0x3fcec410 /\
  exists h' σ', run_call (Malloc 100) HeapDemo.empty = (Ok 0x3fcec410, h') /\ holds h' σ' /\ granted ∅ 100 0x3fcec410 σ' (fun _ => True).
Proof.
  assert (E : fst (run_call (Malloc 100) HeapDemo.empty) = Ok 0x3fcec410) by (lazy; reflexivity). split; [exact E|].
  destruct (heap_refines HeapDemo.empty ∅ (Malloc 100)) as (r & h' & σ' & E1 & H & Hg); [exists 0x3fcec400, []; split; [exact demo_empty|done]|unfold legal_call, is_u32; lia|].
  rewrite E1 in E. injection E as ->. by exists h', σ'.
Defined.

Lemma malloc_succeeds_witness : exists r h', cp32_malloc 100 HeapDemo.empty = (Ok r, h') /\ r <> 0.
Proof.
  apply (malloc_succeeds HeapDemo.empty 0x3fcec400 [] 100 demo_empty I); [lia|]. right. vm_compute. discriminate.
Defined.
